(* ===== verification/_CoqProject ===== *)
-Q . S2P
Prelude.v
GoStrings.v
Json.v
EngineTypes.v
EngineAst.v
EngineCompute.v
EngineComputeProps.v
EngineComputeClaims.v
Store.v
AuditTrail.v
AuditClaims.v
EngineOps.v
EngineOpsProps.v
EngineAtomic.v
EngineEvaluate.v
EngineClaims.v
WorkerPool.v
TaskForms.v
TaskOps.v
TaskClaims.v
CaseData.v
CaseDataProps.v
CaseOps.v
CaseClaims.v
WorkflowValidation.v
WorkflowClaims.v
GoText.v
Effects.v
TaskCompletion.v
TaskCompletionClaims.v
Templates.v
McpClient.v
McpBreaker.v
McpManager.v
McpClaims.v
McpServer.v
McpTools.v
McpServerClaims.v
PublishValidation.v
PublishClaims.v
WorkflowService.v
WorkflowServiceClaims.v
Triggers.v
TriggerClaims.v
Rbac.v
RbacAuth.v
RbacClaims.v
RbacAuthClaims.v
JsonText.v
Agentic.v
AgenticRunner.v
AgenticStep.v
AgenticProps.v
AgenticClaims.v
AgenticStepClaims.v
GoPath.v
Site.v
VaultStore.v
Vault.v
VaultProps.v
VaultClaims.v
Channels.v
ChannelStore.v
ChannelPipeline.v
ChannelClaims.v
ChannelIntake.v
ChannelIntakeClaims.v
Plugins.v
PluginRuntime.v
PluginClaims.v
PluginRegistryClaims.v
ChannelRunners.v
ChannelRunnerClaims.v
HttpFw.v
HttpFwClaims.v
Llm.v
LlmClaims.v
RagSplit.v
Rag.v
RagClaims.v
