(* ===== verification/Prelude.v ===== *)
(** * Aceryx: a case orchestration engine

    Aceryx runs cases. A case type has a schema for its data; a workflow is a
    graph of steps with dependencies, guards and outcomes; a case is an instance
    of a workflow with data, one row per step and a trail of events. Around this
    core are people's tasks, triggers and channels that bring messages in, agents
    and language models, documents, plugins and an access control. The service code
    under [src/internal] and [src/api/handlers] is Go over PostgreSQL. This library
    models it component by component and proves what each promises.

    ** The parts and how they interact

    - [internal/engine] evaluates the graph of a case, writes the states of its
      steps, runs their executors with retries, completes, fails, skips and cancels,
      recovers after a restart and watches deadlines. [internal/audit] keeps a hash
      chain of events per case; every handler of the other parts records its event in
      the transaction of its change.
    - [internal/tasks] is the work of people, [internal/cases] creates, edits, closes
      and cancels cases and calls the engine after a creation, [internal/workflows]
      keeps drafts and published versions.
    - [internal/triggers] and [internal/channels] turn messages into cases and data of
      cases, through the services of cases and of documents ([internal/vault]).
    - [internal/agentic] is a step whose executor lets a language model ([internal/llm])
      call tools; tools come from the cases, from [internal/rag] and from MCP servers
      ([internal/mcp]). [internal/mcpserver] offers cases and tasks as such tools.
    - [internal/plugins] loads executors and triggers at run time, [internal/http]
      checks their requests. [internal/rbac] says who may do what.

    ** The files

    Shared by all:
    - [Prelude]: errors, results, loops, 64-bit integers, tactics and hints.
    - [GoStrings], [GoText], [GoPath]: the functions of [strings], [strconv], [net],
      [path/filepath] and [time] that the sources use.
    - [Json], [JsonText]: decoded JSON values with the [jsonb] operators and the
      decoding into structs; JSON as text, read and written.
    - [Store]: the tables of the core (migration [001_initial.sql]), the environment as
      the class [Runtime], and the monad [M] of its handlers with transactions, faults,
      recorded events and queued jobs. [Effects]: the monad [Svc] of components that
      keep a state of their own, the logic of what a program keeps ([keepsS]).
      [Site]: both together with files, and programs on another connection.

    The core:
    - [EngineTypes], [EngineAst], [EngineCompute]: [types.go], [ast.go], [compute.go].
      [EngineComputeProps] and [EngineComputeClaims] give the life cycle of steps as a
      relation and show that the evaluation is a maximal run of it.
    - [AuditTrail], [AuditClaims]: [audit.go] and its logic.
    - [EngineOps]: the handlers of the engine. [EngineOpsProps] reduces what they commit
      to a step relation on the tables, [EngineAtomic] treats invariants and failures,
      [EngineEvaluate] the commit of an evaluation, [EngineClaims] holds the claims.
    - [WorkerPool]: the two worker pools over these handlers, under any schedule, with
      their claims.
    - [TaskForms]: [task_forms.go], the inbox order, the choice of an assignee;
      [TaskOps], [TaskClaims]: the operations on tasks; [TaskCompletion],
      [TaskCompletionClaims]: reading, inbox, completion and the executor of human
      tasks, and what the engine does with it.
    - [CaseData], [CaseDataProps]: validation, merging and differences; [CaseOps],
      [CaseClaims]: the operations on cases. The engine they call is the record
      [CaseEngine], the Go interface of [service.go]; [CaseEngineLaws] is what an engine
      promises, relative to what its executors do, and [engine_for_cases_laws] shows
      that ours keeps it.
    - [WorkflowValidation], [WorkflowClaims]: drafts; [PublishValidation],
      [PublishClaims]: the checks of a publication; [WorkflowService],
      [WorkflowServiceClaims]: the tables of workflows, versions and YAML.

    Messages and tools:
    - [Triggers], [TriggerClaims]: contracts, instances, manager, workers, checkpoints.
    - [Channels], [ChannelStore], [ChannelPipeline], [ChannelClaims]: data, rows and the
      delivery; [ChannelIntake], [ChannelIntakeClaims]: webhooks, forms, rate limits;
      [ChannelRunners], [ChannelRunnerClaims]: mail and file drops, manager, handlers.
    - [Templates]: tokens in the settings of connectors.
    - [McpClient], [McpBreaker], [McpManager], [McpClaims]: the client of MCP servers,
      its circuit breaker, cache and manager. [McpServer], [McpTools],
      [McpServerClaims]: the server, its protocol and its tools.
    - [HttpFw], [HttpFwClaims]: requests of plugins.

    Agents and documents:
    - [Agentic], [AgenticRunner], [AgenticStep]: limits, tools, prompts; the reasoning
      loop; the executor. [AgenticProps], [AgenticClaims], [AgenticStepClaims].
    - [Llm], [LlmClaims]: providers, their manager, accounts and handlers.
    - [VaultStore], [Vault], [VaultProps], [VaultClaims]: files, rows and the service of
      the document vault. The class [VaultStore] is what the service needs of a store.
    - [RagSplit], [Rag], [RagClaims]: splitting, knowledge bases, search. The record
      [VectorStore] has the operations of a vector store, [VectorStoreLaws] its laws.

    Administration:
    - [Rbac], [RbacAuth], [RbacClaims], [RbacAuthClaims]: roles, permissions and their
      cache; principals, sessions, tokens and passwords.
    - [Plugins], [PluginRuntime], [PluginClaims], [PluginRegistryClaims]: manifests,
      versions and schema changes; registry, palettes, runtime and rows.

    ** What the theorems show

    - Graphs (C1, C2): validation accepts exactly the well-formed acyclic workflows; an
      evaluation is a maximal run of the life cycle of steps.
    - Engine and trail (C3 to C10): whatever operations run and fail in whatever order,
      with the executor and the escalation of human tasks, rows follow the life cycle,
      except where the trail says that a task was created for a row, and trails only
      grow and stay valid; a handler that fails changes nothing; what evaluating and
      completing commit; the pools keep their bounds and lose no job, and a system that
      cannot move waits for full pools; what the hash of a trail covers cannot be
      changed under its last hash, unless two texts at one position have one digest.
    - Tasks (C11, C12): a task is claimed and completed at most once, by those entitled.
    - Cases (C13 to C16): validation and merging against path-wise specifications,
      complete creation, tenant isolation.
    - Workflows (C17, C18): one draft, at most one published version, of an accepted
      graph; YAML round trip. Drafts and publications are accepted exactly when they
      are in order ([WorkflowClaims], [PublishClaims]).
    - MCP (C19, C20): the breaker is a machine over bursts of failures; nothing behind
      the server changes without key, tool and permission.
    - Triggers (C21, C22): typed contracts; no message lost or handled twice.
    - Access (C23, C24): while no statement fails a decision is the one of the tables,
      and whatever fails it was right not longer ago than the cache lives; a token
      authenticates only an active principal.
    - Agents (C25, C26): a run keeps its limits and ends.
    - Documents (C27): the content of every document is there through all operations
      and failures, except what a cleanup or an erasure of the same content removed
      together with its file when nobody else had it.
    - Channels (C28 to C31): a delivery is all or nothing, but for the uploads of its
      attachments, which other transactions commit; rate limits are bounded, webhooks
      authenticate, a file drop loses no file.
    - HTTP (C32, C33): the first request of a call goes only to an admitted address,
      the others follow redirects; none is sent before the time a server gave.
    - Language models (C34, C35): calls use the settings of the tenant's row; usage is
      the sum of what was recorded.
    - Plugins (C36, C37): the reported schema changes; runtime and registry agree.
    - Retrieval (C38 to C40): chunks are windows of the tokens of the text; a search
      embeds the query and shows the best chunks among the rows of the tenant's base
      that the scan of the index gives; and, as the pipeline is written, nothing is
      ever indexed.

    ** Modelling decisions

    - A Go function that returns an error is a function to [result]; one that uses
      the database is a program of [M] or [Svc]. A statement may fail at any point, as
      [fault] says; a transaction that is not committed is rolled back, and a failed
      commit is a rollback. The handlers of the core lock the row of their case first,
      so a transaction is one step for the others on the same case; theorems about
      several operations are about their transactions in sequence. A component that
      uses a second connection inside a transaction is modelled with it
      ([other_connection]).
    - State in memory is explicit: registries of plugins and managers are maps to the
      addresses of objects in a heap, so that two maps may share an object; caches and
      breakers keep their clocks. Goroutines are steps of a relation where their order
      matters (worker pools, triggers, the queue of invocations); what a lock protects is one step.
    - JSON is its decoded value, and text where the code works on text. Numbers are
      rationals, so floats are exact; [INTEGER] columns and Go integers keep their
      ranges and wrap. SQL [NULL] is [None]. A Go map is visited in the order of its
      entries where Go visits it in any order; the theorems do not depend on it.
    - Files are a map from paths to contents; a directory exists when a file is below
      it. Runners name files by absolute paths.
    - The wall clock, random identifiers, SHA-256 and the text of JSON values and times
      are fields of [Runtime]; the laws used are that the clock is past year 1 and that
      a digest has 64 digits. What is outside the repository is an argument: the
      JavaScript engine of expressions, regular expressions from schemas, YAML,
      bcrypt and HMAC, WebAssembly, HTTP transport and resolver, token buckets, the
      clients of model providers, the distance of vectors, the scan of the vector index
      (which may be approximate) and full-text search, CSV and DOCX readers, and
      whether a foreign key of another table refuses the removal of a document. The
      client of [net/http] follows redirects as its documentation says. The executor
      of human tasks and the escalation callback are those of [internal/tasks]; of the
      other executors it is assumed that they change steps, cases and trail only in
      the ways listed by [service_step].
    - Fuel: [ValidateAST] gets the number of steps and one, the evaluation loop three
      rounds per step and one, retries the attempts of their policy, the reasoning
      loop the tokens of its budget, the breadth-first search its roots, the edges and
      one, the JSON parser twice the length of its text, patterns and windows
      the length of what they consume, the embedding of chunks their number, a pause
      of a domain two rounds. Theorems show that each is enough, except for the
      structural ones, where each round consumes something.
    - Log lines, metrics and notifications are left out; the queries that feed metrics
      are kept, since a statement takes part in the fault model. SQL statements do what
      their text says; the constraints of the tables are checked where they can fail.

    ** Not modelled

    Code that is mostly input and output, or prompts: notifications by mail and
    websocket, backup, migrations, object storage, metrics, drivers of databases and
    queues, the connectors, the assistant, reports, extraction and AI components, which
    prepare requests to language models and keep their answers; listings and reports of
    cases and the activity feed, which are single read-only queries; the wiring of the HTTP
    server, the SDK, and the frontend, which is not Go. Of the modelled packages the
    notifications and SLA warnings after a commit, the ticker loops around their bodies,
    and the clients of model providers are left out. *)

From stdpp Require Export base decidable option list gmap strings sorting.
From Stdlib Require Export Ascii ZArith Lia.

Declare Scope go_scope.
Delimit Scope go_scope with go.

(** ** Errors

    A Go error built by [errors.New] or [fmt.Errorf] is its format string and
    its formatted arguments; a [%w] verb wraps a cause. *)

Inductive goerr : Type :=
  | Errorf (fmt : string) (args : list string)
  | Wrapf (fmt : string) (args : list string) (cause : goerr).

#[export] Instance goerr_eq_dec : EqDecision goerr.
Proof. solve_decision. Defined.

(** [errors.Is]: the error or one of its causes is the target. *)
Fixpoint errors_is (e target : goerr) : bool :=
  bool_decide (e = target) ||
  match e with
  | Errorf _ _ => false
  | Wrapf _ _ c => errors_is c target
  end.

(** [err.Error()]: the verbs of the format replaced by the formatted arguments,
    [%w] by the text of the cause. *)
Fixpoint render (fmt : string) (args : list string) (cause : string) : string :=
  match fmt with
  | EmptyString => EmptyString
  | String "%"%char (String "w"%char rest) => String.append cause (render rest args cause)
  | String "%"%char (String _ rest) =>
      match args with
      | a :: args' => String.append a (render rest args' cause)
      | [] => render rest [] cause
      end
  | String c rest => String c (render rest args cause)
  end.

Fixpoint Error (e : goerr) : string :=
  match e with
  | Errorf fmt args => render fmt args EmptyString
  | Wrapf fmt args c => render fmt args (Error c)
  end.

(** ** Results: a value or an error, as a Go [(T, error)] pair *)

Inductive result (E A : Type) : Type :=
  | Ok (a : A)
  | Err (e : E).
Arguments Ok {E A} a.
Arguments Err {E A} e.

#[export] Instance result_ret {E} : MRet (result E) := fun A a => Ok a.
#[export] Instance result_bind {E} : MBind (result E) :=
  fun A B f m => match m with Ok a => f a | Err e => Err e end.
#[export] Instance result_fmap {E} : FMap (result E) :=
  fun A B f m => match m with Ok a => Ok (f a) | Err e => Err e end.

Definition is_ok {E A} (r : result E A) : bool :=
  match r with Ok _ => true | Err _ => false end.

(** A loop that runs out of fuel gives [None]; otherwise it has a result. *)
Definition fueled (E A : Type) : Type := option (result E A).

Definition fuel_bind {E A B} (m : fueled E A) (f : A -> fueled E B) : fueled E B :=
  match m with
  | None => None
  | Some (Err e) => Some (Err e)
  | Some (Ok a) => f a
  end.

Notation "x <~ m ;; k" := (fuel_bind m (fun x => k))
  (at level 100, m at next level, right associativity) : go_scope.

(** A [for ... range] loop with an accumulator whose body can return early
    with an error. *)
Fixpoint foldE {E S A} (f : S -> A -> result E S) (l : list A) (s : S) : result E S :=
  match l with
  | [] => Ok s
  | a :: l' => match f s a with Ok s' => foldE f l' s' | Err e => Err e end
  end.

Fixpoint foldF {E S A} (f : S -> A -> fueled E S) (l : list A) (s : S) : fueled E S :=
  match l with
  | [] => Some (Ok s)
  | a :: l' => fuel_bind (f s a) (fun s' => foldF f l' s')
  end.

(** The first error of a list of checks, in order. *)
Fixpoint forE {E A} (f : A -> result E unit) (l : list A) : result E unit :=
  match l with
  | [] => Ok tt
  | a :: l' => match f a with Ok _ => forE f l' | Err e => Err e end
  end.

(** ** Machine integers: Go's [int], [int64] and [time.Duration] *)

Definition int64_min : Z := -9223372036854775808.
Definition int64_max : Z := 9223372036854775807.
Definition wrap64 (z : Z) : Z :=
  (z - int64_min) mod 18446744073709551616 + int64_min.
Definition in_int64 (z : Z) : Prop := (int64_min <= z <= int64_max)%Z.

(** [x << n] on an [int64], for a shift count [n >= 0]. *)
Definition shl64 (x n : Z) : Z := wrap64 (Z.shiftl x n).

Definition Second : Z := 1000000000.
Definition Hour : Z := 3600 * Second.

(** ** Tactics and hints *)

Create HintDb aceryx.
Create Rewrite HintDb aceryx_str.

(** Case analysis on the scrutinee of a match in the goal or a hypothesis. *)
Ltac dmatch :=
  match goal with
  | |- context [match ?x with _ => _ end] => destruct x eqn:?
  | H : context [match ?x with _ => _ end] |- _ => destruct x eqn:?
  end.

Ltac boolp :=
  repeat match goal with
  | H : bool_decide _ = true |- _ => apply bool_decide_eq_true in H
  | H : bool_decide _ = false |- _ => apply bool_decide_eq_false in H
  | H : _ && _ = true |- _ => apply andb_true_iff in H as [? ?]
  | H : _ || _ = false |- _ => apply orb_false_iff in H as [? ?]
  | H : negb _ = true |- _ => apply negb_true_iff in H
  | H : negb _ = false |- _ => apply negb_false_iff in H
  end.

(** ** Lemmas on results and loops *)

Lemma errors_is_refl e : errors_is e e = true.
Proof. destruct e; simpl; rewrite bool_decide_eq_true_2 by done; done. Qed.

Lemma errors_is_cause fmt args c t :
  errors_is c t = true -> errors_is (Wrapf fmt args c) t = true.
Proof. intros H. simpl. rewrite H. apply orb_true_r. Qed.

Section Folds.
Context {E S A : Type}.

Lemma foldE_invariant (f : S -> A -> result E S) (P : S -> Prop) l s s' :
  (forall x s1 s2, x ∈ l -> P s1 -> f s1 x = Ok s2 -> P s2) ->
  P s -> foldE f l s = Ok s' -> P s'.
Proof.
  revert s. induction l as [|a l IH]; intros s Hf HP H; simpl in H.
  - congruence.
  - destruct (f s a) as [s1|e] eqn:Hs; [|done].
    eapply (IH s1); [|eapply Hf|]; eauto using list_elem_of_here.
    intros; eapply Hf; eauto using list_elem_of_further.
Qed.

Lemma foldF_total (f : S -> A -> fueled E S) (P : S -> Prop) l s :
  (forall x s1, x ∈ l -> P s1 ->
     exists r, f s1 x = Some r /\ forall s2, r = Ok s2 -> P s2) ->
  P s -> exists r, foldF f l s = Some r /\ forall s', r = Ok s' -> P s'.
Proof.
  revert s. induction l as [|a l IH]; intros s Hf HP; simpl.
  - exists (Ok s). split; [done|]. intros s' [= <-]. done.
  - destruct (Hf a s) as ([s1|e] & Hs & Hok); [apply list_elem_of_here|done| |].
    + rewrite Hs; simpl. apply IH; [|by apply Hok].
      intros x s2 Hx. apply Hf. by apply list_elem_of_further.
    + rewrite Hs; simpl. exists (Err e). done.
Qed.

Lemma forE_ok (f : A -> result E unit) l :
  forE f l = Ok tt <-> forall x, x ∈ l -> f x = Ok tt.
Proof.
  induction l as [|a l IH]; simpl.
  - split; [|done]. intros _ x Hx. by apply not_elem_of_nil in Hx.
  - destruct (f a) as [[]|e] eqn:Ha.
    + rewrite IH. split.
      * intros H x Hx. apply elem_of_cons in Hx as [->|Hx]; auto.
      * intros H x Hx. apply H. by apply list_elem_of_further.
    + split; [done|]. intros H. rewrite (H a) in Ha; [done|apply list_elem_of_here].
Qed.

End Folds.

(** ** Machine integers *)

Lemma wrap64_range z : in_int64 (wrap64 z).
Proof.
  unfold in_int64, wrap64, int64_min, int64_max.
  pose proof (Z.mod_pos_bound (z - -9223372036854775808) 18446744073709551616).
  lia.
Qed.

Lemma wrap64_id z : in_int64 z -> wrap64 z = z.
Proof.
  unfold in_int64, wrap64, int64_min, int64_max. intros H.
  rewrite Z.mod_small by lia. lia.
Qed.

#[export] Hint Resolve wrap64_range errors_is_refl errors_is_cause : aceryx.

(** ** Finite sets *)

Lemma size_list_to_set_le `{Countable A} (l : list A) :
  (size (list_to_set l : gset A) <= length l)%nat.
Proof.
  induction l as [|a l IH]; cbn [list_to_set length]; [rewrite size_empty; lia|].
  rewrite size_union_alt, size_singleton.
  assert (list_to_set l ∖ {[a]} ⊆ (list_to_set l : gset A)) as Hs%subseteq_size
    by set_solver. lia.
Qed.

(** ** Sorting *)

Section SortMap.
Context {A B : Type} (f : A -> B) (P : A -> Prop).
Context (R : relation A) (R' : relation B) `{!forall x y, Decision (R x y)} `{!forall x y, Decision (R' x y)}.
Context (HR : forall x y, P x -> P y -> R x y <-> R' (f x) (f y)).

Lemma list_merge_map l1 : forall l2, Forall P l1 -> Forall P l2 ->
  list_merge R' (map f l1) (map f l2) = map f (list_merge R l1 l2) /\ Forall P (list_merge R l1 l2).
Proof.
  induction l1 as [|x l1 IH1]; intros l2 H1 H2; [by destruct l2|].
  induction l2 as [|y l2 IH2]; [done|]. inversion H1; inversion H2; subst. simpl.
  destruct (decide (R x y)) as [Hr|Hr].
  - rewrite decide_True by (by apply HR). destruct (IH1 (y :: l2)) as [E F]; [done..|].
    split; [exact (f_equal (cons (f x)) E)|by constructor].
  - rewrite decide_False by (by rewrite <-HR). destruct IH2 as [E F]; [done..|].
    split; [exact (f_equal (cons (f y)) E)|by constructor].
Qed.

Definition stack_in (st : list (option (list A))) : Prop :=
  Forall (fun o => match o with Some l => Forall P l | None => True end) st.

Lemma merge_list_to_stack_map st : forall l, stack_in st -> Forall P l ->
  merge_list_to_stack R' (map (fmap (map f)) st) (map f l) = map (fmap (map f)) (merge_list_to_stack R st l) /\
  stack_in (merge_list_to_stack R st l).
Proof.
  unfold stack_in. induction st as [|[l'|] st IH]; intros l Hs Hl; cbn.
  - split; [done|]. by repeat constructor.
  - inversion Hs; subst. destruct (list_merge_map l' l) as [-> F]; [done..|].
    destruct (IH (list_merge R l' l)) as [-> G]; [done..|]. split; [done|]. by constructor.
  - inversion Hs; subst. split; [done|]. by constructor.
Qed.

Lemma merge_stack_map st : stack_in st ->
  merge_stack R' (map (fmap (map f)) st) = map f (merge_stack R st) /\ Forall P (merge_stack R st).
Proof.
  unfold stack_in. induction 1 as [|[l|] st Hl Hs IH]; cbn; [done| |done]. destruct IH as [-> F].
  by apply list_merge_map.
Qed.

(** Sorting commutes with a function that keeps the order. *)
Lemma merge_sort_map l : Forall P l -> merge_sort R' (map f l) = map f (merge_sort R l).
Proof.
  unfold merge_sort. intros Hl. assert (stack_in []) as Hs by constructor. revert Hs.
  change (@nil (option (list B))) with (map (fmap (map f)) (@nil (option (list A)))) at 1.
  generalize (@nil (option (list A))) as st. induction Hl as [|x l Hx Hl IH]; intros st Hs; cbn [merge_sort_aux map].
  - by apply merge_stack_map.
  - destruct (merge_list_to_stack_map st [x]) as [E F]; [done|by constructor|]. cbn [map] in E. rewrite E. by apply IH.
Qed.
End SortMap.
