(* ===== verification/GoStrings.v ===== *)
(** * The parts of Go's [strings] package the sources use

    A Go string is a sequence of bytes, here a [string] of 8-bit characters.
    [TrimSpace] strips the white space runes of [unicode.IsSpace] in their
    UTF-8 encoding. [ToLower], [ToUpper] and [EqualFold] map the ASCII letters and leave
    every other byte as it is. *)

From S2P Require Import Prelude.

(** ** Definitions *)

Definition byte (n : nat) : string := String (Ascii.ascii_of_nat n) EmptyString.

Fixpoint drop_str (n : nat) (s : string) : string :=
  match n, s with
  | O, _ => s
  | _, EmptyString => EmptyString
  | S n', String _ s' => drop_str n' s'
  end.

(** [strings.HasPrefix(s, p)], [strings.TrimPrefix(s, p)] *)
Definition HasPrefix (s p : string) : bool := String.prefix p s.
Definition TrimPrefix (s p : string) : string :=
  if HasPrefix s p then drop_str (String.length p) s else s.

(** [strings.Contains(s, sub)] *)
Fixpoint Contains (s sub : string) : bool :=
  HasPrefix s sub ||
  match s with EmptyString => false | String _ s' => Contains s' sub end.

(** [strings.SplitN(s, sep, 2)] for a one-byte separator: [None] when the
    separator does not occur. *)
Fixpoint Cut (c : ascii) (s : string) : option (string * string) :=
  match s with
  | EmptyString => None
  | String a s' =>
      if decide (a = c) then Some (EmptyString, s')
      else match Cut c s' with
           | Some (x, y) => Some (String a x, y)
           | None => None
           end
  end.

(** [strings.Split(s, sep)] for a one-byte separator: never empty. *)
Fixpoint Split (c : ascii) (s : string) : list string :=
  match s with
  | EmptyString => [EmptyString]
  | String a s' =>
      if decide (a = c) then EmptyString :: Split c s'
      else match Split c s' with
           | w :: ws => String a w :: ws
           | [] => [String a EmptyString]
           end
  end.

(** [strings.Join(parts, sep)] *)
Fixpoint Join (sep : string) (parts : list string) : string :=
  match parts with
  | [] => EmptyString
  | [p] => p
  | p :: ps => p +:+ sep +:+ Join sep ps
  end.

(** The UTF-8 encodings of the runes [unicode.IsSpace] accepts. *)
Definition space_runes : list string :=
  [byte 9; byte 10; byte 11; byte 12; byte 13; byte 32;
   byte 194 +:+ byte 133; byte 194 +:+ byte 160;
   byte 225 +:+ byte 154 +:+ byte 128] ++
  map (fun n => byte 226 +:+ byte 128 +:+ byte n)
      [128; 129; 130; 131; 132; 133; 134; 135; 136; 137; 138; 168; 169; 175]%nat ++
  [byte 226 +:+ byte 129 +:+ byte 159; byte 227 +:+ byte 128 +:+ byte 128].

Definition strip_one (runes : list string) (s : string) : option string :=
  match filter (fun r => is_true (HasPrefix s r)) runes with
  | r :: _ => Some (drop_str (String.length r) s)
  | [] => None
  end.

Fixpoint trim_left (runes : list string) (fuel : nat) (s : string) : string :=
  match fuel with
  | O => s
  | S f => match strip_one runes s with
           | Some s' => trim_left runes f s'
           | None => s
           end
  end.

(** [strings.TrimSpace(s)] *)
Definition TrimSpace (s : string) : string :=
  let l := trim_left space_runes (String.length s) s in
  String.rev (trim_left (map String.rev space_runes) (String.length l) (String.rev l)).

Definition lower_ascii (a : ascii) : ascii :=
  let n := Ascii.nat_of_ascii a in
  if (65 <=? n)%nat && (n <=? 90)%nat then Ascii.ascii_of_nat (n + 32) else a.

(** [strings.ToLower(s)], [strings.EqualFold(s, t)] *)
Fixpoint ToLower (s : string) : string :=
  match s with
  | EmptyString => EmptyString
  | String a s' => String (lower_ascii a) (ToLower s')
  end.
Definition EqualFold (s t : string) : bool := bool_decide (ToLower s = ToLower t).

Definition upper_ascii (a : ascii) : ascii :=
  let n := Ascii.nat_of_ascii a in
  if (97 <=? n)%nat && (n <=? 122)%nat then Ascii.ascii_of_nat (n - 32) else a.

(** [strings.ToUpper(s)] *)
Fixpoint ToUpper (s : string) : string :=
  match s with
  | EmptyString => EmptyString
  | String a s' => String (upper_ascii a) (ToUpper s')
  end.

(** [strings.Fields(s)]: the words between runs of white space. *)
Definition flush (cur : string) (words : list string) : list string :=
  if decide (cur = EmptyString) then words else cur :: words.

Fixpoint fields_from (fuel : nat) (cur s : string) : list string :=
  match fuel with
  | O => flush cur []
  | S f =>
      match strip_one space_runes s with
      | Some s' => flush cur (fields_from f EmptyString s')
      | None =>
          match s with
          | EmptyString => flush cur []
          | String a s' => fields_from f (cur +:+ String a EmptyString) s'
          end
      end
  end.
Definition Fields (s : string) : list string := fields_from (S (String.length s)) EmptyString s.

(** [string([]rune(s)[0])]: the first UTF-8 sequence of a non-empty string, or the
    replacement character when the bytes are not one. *)
Definition byte_in (lo hi : nat) (s : string) : bool :=
  match s with
  | String a _ => (lo <=? Ascii.nat_of_ascii a)%nat && (Ascii.nat_of_ascii a <=? hi)%nat
  | EmptyString => false
  end.
Definition rune_error : string := byte 239 +:+ byte 191 +:+ byte 189.
Definition second_range (lead : nat) : nat * nat :=
  if decide (lead = 224%nat) then (160, 191)%nat
  else if decide (lead = 237%nat) then (128, 159)%nat
  else if decide (lead = 240%nat) then (144, 191)%nat
  else if decide (lead = 244%nat) then (128, 143)%nat
  else (128, 191)%nat.
Definition first_rune (s : string) : string :=
  match s with
  | EmptyString => EmptyString
  | String a s1 =>
      let lead := Ascii.nat_of_ascii a in
      let '(lo, hi) := second_range lead in
      if (lead <? 128)%nat then String a EmptyString
      else if negb ((194 <=? lead)%nat && (lead <=? 244)%nat) then rune_error
      else if negb (byte_in lo hi s1) then rune_error
      else if (lead <? 224)%nat then String.substring 0 2 s
      else if negb (byte_in 128 191 (drop_str 1 s1)) then rune_error
      else if (lead <? 240)%nat then String.substring 0 3 s
      else if negb (byte_in 128 191 (drop_str 2 s1)) then rune_error
      else String.substring 0 4 s
  end.

Fixpoint char_in (c : ascii) (s : string) : bool :=
  match s with
  | EmptyString => false
  | String a s' => bool_decide (a = c) || char_in c s'
  end.

(** The string order of Go's [<]: lexicographic on bytes. *)
Definition str_ltb (s t : string) : bool :=
  match String.compare s t with Lt => true | _ => false end.

(** ** Lemmas *)

#[local] Arguments String.append : simpl nomatch.

Lemma append_assoc s t u : (s +:+ t) +:+ u = s +:+ (t +:+ u).
Proof. induction s as [|a s IH]; [done|]. simpl. by rewrite IH. Qed.

Lemma append_nil_r s : s +:+ EmptyString = s.
Proof. induction s as [|a s IH]; [done|]. simpl. by rewrite IH. Qed.

Lemma append_length s t :
  String.length (s +:+ t) = (String.length s + String.length t)%nat.
Proof. induction s as [|a s IH]; [done|]. simpl. lia. Qed.

(** Two equal concatenations whose first parts have the same length agree. *)
Lemma append_inj_len s s' t t' :
  String.length s = String.length s' -> s +:+ t = s' +:+ t' -> s = s' /\ t = t'.
Proof.
  revert s'. induction s as [|a s IH]; intros [|a' s'] Hlen H;
    simpl in *; try done.
  injection H as -> H. destruct (IH s') as [-> ->]; auto.
Qed.

Lemma HasPrefix_append p t : HasPrefix (p +:+ t) p = true.
Proof.
  unfold HasPrefix. induction p as [|a p IH]; [by destruct t|].
  simpl. by destruct (ascii_dec a a).
Qed.

Lemma HasPrefix_spec s p : HasPrefix s p = true <-> exists t, s = p +:+ t.
Proof.
  split.
  - unfold HasPrefix. revert s. induction p as [|a p IH]; intros s H.
    + by exists s.
    + destruct s as [|b s]; cbn [String.prefix] in H; [done|].
      destruct (Ascii.ascii_dec a b) as [->|]; [|done].
      destruct (IH s H) as [t ->]. by exists t.
  - intros [t ->]. apply HasPrefix_append.
Qed.

Lemma drop_str_append p t : drop_str (String.length p) (p +:+ t) = t.
Proof. induction p as [|a p IH]; [by destruct t|]. done. Qed.

Lemma char_in_append c s t : char_in c (s +:+ t) = char_in c s || char_in c t.
Proof.
  induction s as [|a s IH]; [done|].
  cbn [String.append char_in]. by rewrite IH, orb_assoc.
Qed.

Lemma Split_nonempty c s : Split c s <> [].
Proof.
  destruct s as [|a s]; simpl; [done|].
  destruct (decide (a = c)); [done|]. by destruct (Split c s).
Qed.

Lemma Split_no_sep c s : char_in c s = false -> Split c s = [s].
Proof.
  induction s as [|a s IH]; simpl; [done|]. intros H. boolp.
  rewrite decide_False by done. by rewrite IH.
Qed.

Lemma Split_cons_sep c x y :
  char_in c x = false -> Split c (x +:+ String c y) = x :: Split c y.
Proof.
  induction x as [|a x IH]; cbn [String.append char_in Split]; intros H.
  - by rewrite decide_True.
  - boolp. rewrite decide_False by done. by rewrite IH.
Qed.

#[export] Hint Rewrite append_assoc append_nil_r append_length : aceryx_str.
#[export] Hint Resolve HasPrefix_append Split_nonempty : aceryx.
