(* ===== verification/Json.v ===== *)
(** * JSON values, as [encoding/json] decodes them and [jsonb] stores them

    A value decoded into Go's [any] is a [json]: a number is the rational its
    [float64] stands for, an object is its entries in key order, which is the
    order [json.Marshal] writes them in. Bytes are not modelled: a
    [json.RawMessage] or a [jsonb] column is the value it denotes, with [None]
    for an empty message or SQL [NULL]. An integer field is decoded from a
    number written without fraction or exponent. *)

From Stdlib Require Export QArith Qcanon.
From S2P Require Import Prelude GoStrings.

Unset Elimination Schemes.

Inductive json : Type :=
  | JNull
  | JBool (b : bool)
  | JNum (q : Qc)
  | JStr (s : string)
  | JArr (l : list json)
  | JObj (m : list (string * json)).

Set Elimination Schemes.

Definition object : Type := list (string * json).

(** ** Induction on nested values *)

Section JsonInd.
Variable P : json -> Prop.
Hypothesis Pnull : P JNull.
Hypothesis Pbool : forall b, P (JBool b).
Hypothesis Pnum : forall q, P (JNum q).
Hypothesis Pstr : forall s, P (JStr s).
Hypothesis Parr : forall l, Forall P l -> P (JArr l).
Hypothesis Pobj : forall m, Forall (fun kv => P kv.2) m -> P (JObj m).

Fixpoint json_ind' (j : json) : P j :=
  match j with
  | JNull => Pnull
  | JBool b => Pbool b
  | JNum q => Pnum q
  | JStr s => Pstr s
  | JArr l =>
      Parr l ((fix go (l : list json) : Forall P l :=
                 match l with
                 | [] => Forall_nil_2 P
                 | x :: l' => Forall_cons_2 P x l' (json_ind' x) (go l')
                 end) l)
  | JObj m =>
      Pobj m ((fix go (m : list (string * json)) : Forall (fun kv => P kv.2) m :=
                 match m with
                 | [] => Forall_nil_2 _
                 | kv :: m' => Forall_cons_2 (fun kv => P kv.2) kv m' (json_ind' kv.2) (go m')
                 end) m)
  end.
End JsonInd.

(** ** Equality: [reflect.DeepEqual] of decoded values *)

Fixpoint DeepEqual (a b : json) : bool :=
  match a, b with
  | JNull, JNull => true
  | JBool x, JBool y => Bool.eqb x y
  | JNum x, JNum y => if Qc_eq_dec x y then true else false
  | JStr s, JStr t => String.eqb s t
  | JArr l1, JArr l2 =>
      (fix go (l1 l2 : list json) : bool :=
         match l1, l2 with
         | [], [] => true
         | x :: l1', y :: l2' => DeepEqual x y && go l1' l2'
         | _, _ => false
         end) l1 l2
  | JObj m1, JObj m2 =>
      (fix go (m1 m2 : list (string * json)) : bool :=
         match m1, m2 with
         | [], [] => true
         | (k, x) :: m1', (k', y) :: m2' => String.eqb k k' && DeepEqual x y && go m1' m2'
         | _, _ => false
         end) m1 m2
  | _, _ => false
  end.

Lemma DeepEqual_spec a b : DeepEqual a b = true <-> a = b.
Proof.
  revert b. induction a as [|x|x|s|l IH|m IH] using json_ind'; intros [|y|y|t|l'|m']; simpl; try done.
  - rewrite Bool.eqb_true_iff. naive_solver.
  - destruct (Qc_eq_dec x y); naive_solver.
  - rewrite String.eqb_eq. naive_solver.
  - revert l'. induction IH as [|x l Hx IH IHl]; intros [|y l']; try done.
    rewrite andb_true_iff, Hx, IHl. naive_solver.
  - revert m'. induction IH as [|[k x] m Hx IH IHm]; intros [|[k' y] m']; try done.
    rewrite !andb_true_iff, Hx, IHm, String.eqb_eq. naive_solver.
Qed.

#[export] Instance json_eq_dec : EqDecision json.
Proof.
  intros a b. destruct (DeepEqual a b) eqn:H; [left; by apply DeepEqual_spec|right].
  intros ->. by rewrite (proj2 (DeepEqual_spec b b) eq_refl) in H.
Defined.

(** ** Objects *)

Fixpoint obj_get (k : string) (m : object) : option json :=
  match m with
  | [] => None
  | (k', v) :: m' => if decide (k = k') then Some v else obj_get k m'
  end.

Fixpoint obj_set (k : string) (v : json) (m : object) : object :=
  match m with
  | [] => [(k, v)]
  | (k', v') :: m' =>
      match String.compare k k' with
      | Lt => (k, v) :: m
      | Eq => (k, v) :: m'
      | Gt => (k', v') :: obj_set k v m'
      end
  end.

Definition obj_has (k : string) (m : object) : bool :=
  match obj_get k m with Some _ => true | None => false end.

(** The object an association list denotes: later entries win. *)
Definition mk_obj (l : list (string * json)) : object :=
  foldl (fun m kv => obj_set kv.1 kv.2 m) [] l.

(** [m1 || m2] on [jsonb] objects: the second object's entries win. *)
Definition obj_union (m1 m2 : object) : object :=
  foldl (fun m kv => obj_set kv.1 kv.2 m) m1 m2.

Definition as_array (j : json) : list json :=
  match j with JArr l => l | _ => [j] end.

(** The [jsonb] operator [||]. *)
Definition jsonb_concat (a b : json) : json :=
  match a, b with
  | JObj m1, JObj m2 => JObj (obj_union m1 m2)
  | _, _ => JArr (as_array a ++ as_array b)
  end.

(** [COALESCE(column, '{}')] and [COALESCE(column, '[]')] *)
Definition coalesce_obj (c : option json) : json := default (JObj []) c.
Definition coalesce_arr (c : option json) : json := default (JArr []) c.

Definition JInt (z : Z) : json := JNum (Q2Qc (inject_Z z)).

(** ** Decoding into Go structs *)

Definition unmarshal_type_error (want : string) : goerr :=
  Errorf "json: cannot unmarshal value into Go value of type %s" [want].

(** The entry a struct field named [f] is decoded from: keys match without
    regard to case, and the last match wins. *)
Definition field (f : string) (m : object) : option json :=
  foldl (fun acc kv => if EqualFold kv.1 f then Some kv.2 else acc) None m.

Definition dec_string (j : json) : result goerr string :=
  match j with
  | JStr s => Ok s
  | JNull => Ok EmptyString
  | _ => Err (unmarshal_type_error "string")
  end.

Definition Qc_is_int (q : Qc) : bool := bool_decide (Qden (this q) = 1%positive).

Definition dec_int (j : json) : result goerr Z :=
  match j with
  | JNum q =>
      let z := Qnum (this q) in
      if Qc_is_int q && bool_decide (int64_min <= z <= int64_max)%Z then Ok z
      else Err (unmarshal_type_error "int")
  | JNull => Ok 0%Z
  | _ => Err (unmarshal_type_error "int")
  end.

Definition dec_bool (j : json) : result goerr bool :=
  match j with
  | JBool b => Ok b
  | JNull => Ok false
  | _ => Err (unmarshal_type_error "bool")
  end.

Fixpoint mapE {A B} (f : A -> result goerr B) (l : list A) : result goerr (list B) :=
  match l with
  | [] => Ok []
  | a :: l' =>
      match f a with
      | Err e => Err e
      | Ok b => match mapE f l' with Ok bs => Ok (b :: bs) | Err e => Err e end
      end
  end.

Definition dec_list {A} (f : json -> result goerr A) (j : json) : result goerr (list A) :=
  match j with
  | JArr l => mapE f l
  | JNull => Ok []
  | _ => Err (unmarshal_type_error "slice")
  end.

Definition dec_object (j : json) : result goerr (option object) :=
  match j with
  | JObj m => Ok (Some m)
  | JNull => Ok None
  | _ => Err (unmarshal_type_error "map")
  end.

(** A field that is absent keeps its zero value. *)
Definition dec_field {A} (f : string) (dec : json -> result goerr A) (zero : A)
    (m : object) : result goerr A :=
  match field f m with
  | None => Ok zero
  | Some j => dec j
  end.

(** ** [fmt.Sprint] of a decoded value, with the formatting of [float64] *)

Section Sprint.
Variable fmtFloat : Qc -> string.

Fixpoint Sprint (j : json) : string :=
  match j with
  | JNull => "<nil>"
  | JBool true => "true"
  | JBool false => "false"
  | JNum q => fmtFloat q
  | JStr s => s
  | JArr l => "[" +:+ Join " " (map Sprint l) +:+ "]"
  | JObj m => "map[" +:+ Join " " (map (fun kv => kv.1 +:+ ":" +:+ Sprint kv.2) m) +:+ "]"
  end.
End Sprint.

(** ** Lemmas *)

Lemma compare_eq_str k k' : String.compare k k' = Eq -> k = k'.
Proof. apply String.compare_eq_iff. Qed.

Lemma compare_refl_str k : String.compare k k = Eq.
Proof.
  pose proof (String.compare_antisym k k) as H.
  destruct (String.compare k k); done.
Qed.

Lemma obj_get_set k v m : obj_get k (obj_set k v m) = Some v.
Proof.
  induction m as [|[k' v'] m IH]; simpl; [by rewrite decide_True|].
  destruct (String.compare k k') eqn:Hc; simpl; try by rewrite decide_True.
  rewrite decide_False; [done|]. intros ->. by rewrite compare_refl_str in Hc.
Qed.

Lemma obj_get_set_ne k k' v m :
  k <> k' -> obj_get k' (obj_set k v m) = obj_get k' m.
Proof.
  intros Hne. induction m as [|[k2 v2] m IH]; simpl; [by rewrite decide_False|].
  destruct (String.compare k k2) eqn:Hc; simpl.
  - apply compare_eq_str in Hc as ->. by rewrite !decide_False.
  - by rewrite decide_False.
  - by rewrite IH.
Qed.

#[export] Hint Rewrite obj_get_set : aceryx_str.
