(* ===== verification/EngineTypes.v ===== *)
(** * The engine's data: [internal/engine/types.go]

    Step states, transitions, the workflow AST with its decoding from JSON, and
    the defaults of the engine's configuration and of a step's error policy. *)

From S2P Require Import Prelude GoStrings Json.

Open Scope Z_scope.

(** ** States and transitions *)

Inductive step_state : Type :=
  | StatePending | StateReady | StateActive
  | StateCompleted | StateFailed | StateSkipped.

#[export] Instance step_state_eq_dec : EqDecision step_state.
Proof. solve_decision. Defined.

Inductive TransitionType : Type :=
  | TransitionToReady | TransitionToActive | TransitionToSkipped.

#[export] Instance TransitionType_eq_dec : EqDecision TransitionType.
Proof. solve_decision. Defined.

(** [string(TransitionToReady)] and the like *)
Definition transition_type_string (t : TransitionType) : string :=
  match t with
  | TransitionToReady => "to_ready"
  | TransitionToActive => "to_active"
  | TransitionToSkipped => "to_skipped"
  end.

Inductive TransitionReason : Type :=
  | ReasonDependenciesSatisfied | ReasonJoinAnySatisfied | ReasonGuardFalse
  | ReasonSkipPropagation | ReasonOutcomeRouting.

#[export] Instance TransitionReason_eq_dec : EqDecision TransitionReason.
Proof. solve_decision. Defined.

Definition transition_reason_string (r : TransitionReason) : string :=
  match r with
  | ReasonDependenciesSatisfied => "dependencies_satisfied"
  | ReasonJoinAnySatisfied => "join_any_satisfied"
  | ReasonGuardFalse => "guard_false"
  | ReasonSkipPropagation => "skip_propagation"
  | ReasonOutcomeRouting => "outcome_routing"
  end.

Definition step_state_string (s : step_state) : string :=
  match s with
  | StatePending => "pending" | StateReady => "ready" | StateActive => "active"
  | StateCompleted => "completed" | StateFailed => "failed" | StateSkipped => "skipped"
  end.

Record Transition : Type := mkTransition {
  trStepID : string;
  trFrom : step_state;
  trTo : step_state;
  trType : TransitionType;
  trReason : TransitionReason;
  trOutcome : string
}.

(** ** The workflow AST *)

Record ErrorPolicy : Type := mkErrorPolicy {
  MaxAttempts : Z;
  Backoff : string;
  InitialDelay : Z;
  MaxDelay : Z;
  OnExhausted : string
}.

Record WorkflowStep : Type := mkWorkflowStep {
  stepID : string;
  stepType : string;
  stepDependsOn : list string;
  stepJoin : string;
  stepCondition : string;
  stepOutcomes : gmap string (list string);
  stepConfig : option json;
  stepErrorPolicy : ErrorPolicy;
  stepMetadata : option object
}.

Definition WorkflowAST : Type := list WorkflowStep.

(** A row of [case_steps] as the DAG evaluation reads it. *)
Record StepState : Type := mkStepState {
  ssStepID : string;
  ssState : step_state;
  ssResult : option json;
  ssRetryCount : Z;
  ssMetadata : option json;
  ssCompletedAt : option Z
}.

Definition set_state (st : StepState) (s : step_state) : StepState :=
  mkStepState (ssStepID st) s (ssResult st) (ssRetryCount st) (ssMetadata st)
    (ssCompletedAt st).

Record StepResult : Type := mkStepResult {
  srOutcome : string;
  srOutput : option json;
  srWritesCaseData : bool;
  srCaseDataPatch : option json;
  srExecutionEvent : option json;
  srAuditEventType : string;
  srAttempts : Z
}.

(** [&StepResult{}] *)
Definition emptyStepResult : StepResult :=
  mkStepResult EmptyString None false None None EmptyString 0.

(** ** Sentinel errors *)

Definition ErrNotFound := Errorf "engine: not found" [].
Definition ErrCaseDataConflict := Errorf "engine: case data optimistic lock conflict" [].
Definition ErrStepAwaitingReview := Errorf "engine: step awaiting external human review" [].
Definition ErrStepNotActive := Errorf "engine: step is not active" [].
Definition ErrCycleDetectedInAST := Errorf "engine: cycle detected in workflow AST" [].
Definition ErrInvalidJoinStrategy := Errorf "engine: invalid join strategy" [].

(** ** Decoding the AST: the struct tags of [WorkflowAST] and [WorkflowStep] *)

Definition zeroErrorPolicy : ErrorPolicy := mkErrorPolicy 0 EmptyString 0 0 EmptyString.

Definition decodeErrorPolicy (j : json) : result goerr ErrorPolicy :=
  match j with
  | JNull => Ok zeroErrorPolicy
  | JObj m =>
      ma ← dec_field "max_attempts" dec_int 0 m;
      bo ← dec_field "backoff" dec_string EmptyString m;
      id ← dec_field "initial_delay" dec_int 0 m;
      md ← dec_field "max_delay" dec_int 0 m;
      oe ← dec_field "on_exhausted" dec_string EmptyString m;
      Ok (mkErrorPolicy ma bo id md oe)
  | _ => Err (unmarshal_type_error "engine.ErrorPolicy")
  end.

Definition decodeOutcomes (j : json) : result goerr (gmap string (list string)) :=
  match j with
  | JNull => Ok ∅
  | JObj m =>
      kvs ← mapE (fun kv => l ← dec_list dec_string kv.2; Ok (kv.1, l)) m;
      Ok (list_to_map (rev kvs))
  | _ => Err (unmarshal_type_error "map[string][]string")
  end.

Definition decodeWorkflowStep (j : json) : result goerr WorkflowStep :=
  match j with
  | JNull => Ok (mkWorkflowStep EmptyString EmptyString [] EmptyString EmptyString ∅ None
                   zeroErrorPolicy None)
  | JObj m =>
      id ← dec_field "id" dec_string EmptyString m;
      ty ← dec_field "type" dec_string EmptyString m;
      deps ← dec_field "depends_on" (dec_list dec_string) [] m;
      join ← dec_field "join" dec_string EmptyString m;
      cond ← dec_field "condition" dec_string EmptyString m;
      outs ← dec_field "outcomes" decodeOutcomes ∅ m;
      cfg ← dec_field "config" (fun j => Ok (Some j)) None m;
      ep ← dec_field "error_policy" decodeErrorPolicy zeroErrorPolicy m;
      md ← dec_field "metadata" dec_object None m;
      Ok (mkWorkflowStep id ty deps join cond outs cfg ep md)
  | _ => Err (unmarshal_type_error "engine.WorkflowStep")
  end.

Definition decodeWorkflowAST (j : json) : result goerr WorkflowAST :=
  match j with
  | JNull => Ok []
  | JObj m => dec_field "steps" (dec_list decodeWorkflowStep) [] m
  | _ => Err (unmarshal_type_error "engine.WorkflowAST")
  end.

(** ** Defaults *)

Record Config : Type := mkConfig {
  MaxConcurrentSteps : Z;
  MaxConcurrentEvaluations : Z;
  SLAInterval : Z
}.

Definition defaultConfig (cfg : Config) : Config :=
  mkConfig
    (if MaxConcurrentSteps cfg <=? 0 then 10 else MaxConcurrentSteps cfg)
    (if MaxConcurrentEvaluations cfg <=? 0 then 10 else MaxConcurrentEvaluations cfg)
    (if SLAInterval cfg <=? 0 then 60 * Second else SLAInterval cfg).

Definition defaultErrorPolicyForStep (ty : string) (p : ErrorPolicy) : ErrorPolicy :=
  mkErrorPolicy
    (if MaxAttempts p <=? 0
     then if decide (ty = "integration" \/ ty = "agent") then 3 else 1
     else MaxAttempts p)
    (if decide (Backoff p = "") then "none" else Backoff p)
    (if InitialDelay p <=? 0 then 5 * Second else InitialDelay p)
    (if MaxDelay p <=? 0 then 60 * Second else MaxDelay p)
    (if decide (OnExhausted p = "") then "fail" else OnExhausted p).

(** ** Lemmas *)

Lemma defaultErrorPolicyForStep_bounds ty p :
  1 <= MaxAttempts (defaultErrorPolicyForStep ty p) /\
  0 < InitialDelay (defaultErrorPolicyForStep ty p) /\
  0 < MaxDelay (defaultErrorPolicyForStep ty p).
Proof.
  unfold defaultErrorPolicyForStep; simpl.
  repeat (case_match; simpl); unfold Second; lia.
Qed.

Lemma transition_type_string_inj t t' :
  transition_type_string t = transition_type_string t' -> t = t'.
Proof. by destruct t, t'. Qed.

Lemma transition_type_no_colon t : char_in ":" (transition_type_string t) = false.
Proof. by destruct t. Qed.
