(* ===== verification/EngineAst.v ===== *)
(** * AST validation: [internal/engine/ast.go]

    [ValidateAST] accepts a workflow exactly when it is a well-formed DAG:
    the depth-first search with three colours finds a cycle exactly when there
    is one, and the recursion depth never exceeds the number of steps. *)

From S2P Require Import Prelude GoStrings Json EngineTypes.

Open Scope go_scope.

(** ** Definitions *)

Definition normalizedJoin (join : string) : string :=
  if decide (join = "") then "all" else join.

Definition stepMap_from (m : gmap string WorkflowStep) (ast : WorkflowAST)
  : gmap string WorkflowStep :=
  foldl (fun m s => <[stepID s := s]> m) m ast.

Definition stepMap (ast : WorkflowAST) : gmap string WorkflowStep := stepMap_from ∅ ast.

(** [rev[dep] = append(rev[dep], step.ID)] for every dependency of every step *)
Definition reverseDependencies (ast : WorkflowAST) : gmap string (list string) :=
  foldl (fun rev s =>
    foldl (fun rev dep => <[dep := default [] (rev !! dep) ++ [stepID s]]> rev)
      rev (stepDependsOn s)) ∅ ast.

Definition cycle_error (id : string) : goerr := Wrapf "%w at %s" [id] ErrCycleDetectedInAST.

(** The first loop of [ValidateAST]: ids and join strategies. *)
Definition validate_step (byID : gmap string WorkflowStep) (s : WorkflowStep)
  : result goerr (gmap string WorkflowStep) :=
  if decide (stepID s = "") then Err (Errorf "workflow step id cannot be empty" [])
  else if decide (is_Some (byID !! stepID s))
  then Err (Errorf "duplicate step id %q" [stepID s])
  else
    let join := normalizedJoin (stepJoin s) in
    if bool_decide (join <> "all") && bool_decide (join <> "any")
    then Err (Wrapf "step %s: %w %q" [stepID s; stepJoin s] ErrInvalidJoinStrategy)
    else Ok (<[stepID s := s]> byID).

(** The second loop: every dependency is a known step. *)
Definition validate_deps (byID : gmap string WorkflowStep) (s : WorkflowStep)
  : result goerr unit :=
  forE (fun dep =>
    if decide (is_Some (byID !! dep)) then Ok tt
    else Err (Errorf "step %s depends on unknown step %s" [stepID s; dep]))
  (stepDependsOn s).

Definition deps_of (byID : gmap string WorkflowStep) (id : string) : list string :=
  default [] (stepDependsOn <$> byID !! id).

(** The closure [visit]: colour 1 is on the stack, colour 2 is done. *)
Fixpoint visit (fuel : nat) (byID : gmap string WorkflowStep)
    (state : gmap string nat) (id : string) : fueled goerr (gmap string nat) :=
  match fuel with
  | O => None
  | S f =>
      match state !! id with
      | Some 1%nat => Some (Err (cycle_error id))
      | Some 2%nat => Some (Ok state)
      | _ =>
          st <~ foldF (fun st dep => visit f byID st dep) (deps_of byID id)
                  (<[id := 1%nat]> state) ;;
          Some (Ok (<[id := 2%nat]> st))
      end
  end.

Definition out_of_fuel : goerr := Errorf "out of fuel" [].

Definition ValidateAST (ast : WorkflowAST) : result goerr unit :=
  if decide (ast = []) then Err (Errorf "workflow has no steps" [])
  else
    byID ← foldE validate_step ast ∅;
    _ ← forE (validate_deps byID) ast;
    match foldF (fun st s => visit (S (length ast)) byID st (stepID s)) ast ∅ with
    | Some (Ok _) => Ok tt
    | Some (Err e) => Err e
    | None => Err out_of_fuel
    end.

(** [parseAST]: the stored AST is decoded, then validated. *)
Definition parseAST (raw : option json) : result goerr WorkflowAST :=
  match raw with
  | None => Err (Errorf "empty workflow ast" [])
  | Some j =>
      match decodeWorkflowAST j with
      | Err e => Err (Wrapf "unmarshal workflow ast: %w" [] e)
      | Ok ast => _ ← ValidateAST ast; Ok ast
      end
  end.

(** ** Specification: what a valid workflow is *)

(** Step [x] lists step [y] among its dependencies. *)
Definition depends (ast : WorkflowAST) (x y : string) : Prop :=
  exists s, s ∈ ast /\ stepID s = x /\ y ∈ stepDependsOn s.

Definition ids (ast : WorkflowAST) : list string := map stepID ast.

Record wf_shape (ast : WorkflowAST) : Prop := mk_wf_shape {
  wf_nonempty : ast <> [];
  wf_ids_nonempty : forall s, s ∈ ast -> stepID s <> "";
  wf_ids_nodup : NoDup (ids ast);
  wf_joins : forall s, s ∈ ast ->
    normalizedJoin (stepJoin s) = "all" \/ normalizedJoin (stepJoin s) = "any";
  wf_deps : forall x y, depends ast x y -> y ∈ ids ast
}.

Record wf_ast (ast : WorkflowAST) : Prop := mk_wf_ast {
  wf_is_shape : wf_shape ast;
  wf_acyclic : forall x, ~ tc (depends ast) x x
}.

(** ** The step map *)

Lemma stepMap_foldl_lookup ast (m : gmap string WorkflowStep) x s :
  stepMap_from m ast !! x = Some s ->
  (s ∈ ast /\ stepID s = x) \/ m !! x = Some s.
Proof.
  revert m. induction ast as [|s' ast IH]; intros m H; simpl in *; [by right|].
  destruct (IH _ H) as [[Hin <-]|Hm]; [left; split; [by right|done]|].
  destruct (decide (stepID s' = x)) as [<-|Hne].
  - rewrite lookup_insert_eq in Hm. simplify_eq. left; split; [by left|done].
  - rewrite lookup_insert_ne in Hm by done. by right.
Qed.

Lemma stepMap_foldl_nodup ast (m : gmap string WorkflowStep) s :
  NoDup (ids ast) -> s ∈ ast ->
  stepMap_from m ast !! stepID s = Some s.
Proof.
  revert m. induction ast as [|s' ast IH]; intros m Hnd Hin; simpl in *.
  - by apply not_elem_of_nil in Hin.
  - apply NoDup_cons in Hnd as [Hni Hnd].
    apply elem_of_cons in Hin as [->|Hin]; [|by apply IH].
    assert (forall m : gmap string WorkflowStep, m !! stepID s' = Some s' ->
      stepMap_from m ast !! stepID s' = Some s') as Hk;
      [|apply Hk; apply lookup_insert_eq].
    clear IH Hnd m. induction ast as [|s2 ast IH]; intros m Hm; simpl; [done|].
    apply IH; [|rewrite lookup_insert_ne; [done|]].
    + intros Hc. apply Hni. by right.
    + intros Heq. apply Hni. rewrite <- Heq. by left.
Qed.

Lemma stepMap_lookup ast x s :
  NoDup (ids ast) -> stepMap ast !! x = Some s <-> s ∈ ast /\ stepID s = x.
Proof.
  intros Hnd. split.
  - intros H. destruct (stepMap_foldl_lookup _ _ _ _ H) as [?|Hm]; [done|].
    by rewrite lookup_empty in Hm.
  - intros [Hin <-]. by apply stepMap_foldl_nodup.
Qed.

Lemma elem_of_ids ast x : x ∈ ids ast <-> exists s, s ∈ ast /\ stepID s = x.
Proof. unfold ids. rewrite list_elem_of_fmap. split; intros (s & ? & ?); eauto. Qed.

Lemma stepMap_dom ast x :
  NoDup (ids ast) -> is_Some (stepMap ast !! x) <-> x ∈ ids ast.
Proof.
  intros Hnd. rewrite elem_of_ids. split.
  - intros [s Hs]. apply stepMap_lookup in Hs; [|done]. eauto.
  - intros [s Hs]. exists s. by apply stepMap_lookup.
Qed.

Lemma deps_of_depends ast x y :
  NoDup (ids ast) -> y ∈ deps_of (stepMap ast) x <-> depends ast x y.
Proof.
  intros Hnd. unfold deps_of, depends.
  destruct (stepMap ast !! x) as [s|] eqn:Hs; simpl.
  - apply stepMap_lookup in Hs as [Hin Hid]; [|done]. split.
    + intros Hy. exists s. done.
    + intros (s' & Hin' & Hid' & Hy).
      assert (s' = s) as ->; [|done].
      assert (stepMap ast !! x = Some s') as H1 by (by apply stepMap_lookup).
      assert (stepMap ast !! x = Some s) as H2 by (by apply stepMap_lookup).
      congruence.
  - split; [by intros ?%not_elem_of_nil|].
    intros (s' & Hin' & Hid' & Hy).
    assert (stepMap ast !! x = Some s') by (by apply stepMap_lookup). congruence.
Qed.

(** The first loop succeeds exactly on distinct nonempty ids with known joins,
    and then builds the step map. *)
Lemma validate_step_foldE ast m m' :
  foldE validate_step ast m = Ok m' ->
  (forall s, s ∈ ast -> stepID s <> "" /\ m !! stepID s = None /\
     (normalizedJoin (stepJoin s) = "all" \/ normalizedJoin (stepJoin s) = "any")) /\
  NoDup (ids ast) /\ m' = stepMap_from m ast.
Proof.
  revert m. induction ast as [|s ast IH]; intros m H; simpl in *.
  - split; [by intros s ?%not_elem_of_nil|]. split; [apply NoDup_nil_2|congruence].
  - unfold validate_step at 1 in H.
    destruct (decide (stepID s = "")); [done|].
    destruct (decide (is_Some (m !! stepID s))) as [|Hn]; [done|].
    apply eq_None_not_Some in Hn.
    destruct (bool_decide _ && bool_decide _) eqn:Hj; [done|].
    destruct (IH _ H) as (Hall & Hnd & ->).
    assert (stepID s ∉ ids ast) as Hni.
    { intros (s' & Hin & Hid)%elem_of_ids. destruct (Hall s' Hin) as (_ & Hl & _).
      by rewrite Hid, lookup_insert_eq in Hl. }
    split_and!; [|by apply NoDup_cons|done].
    intros s' [->|Hin]%elem_of_cons.
    + split_and!; [done|done|]. apply andb_false_iff in Hj.
      destruct Hj as [Hj|Hj]; boolp; apply dec_stable in Hj; auto.
    + destruct (Hall s' Hin) as (Hne & Hl & Hjoin). split_and!; [done| |done].
      rewrite lookup_insert_ne in Hl; [done|].
      intros Heq. apply Hni. rewrite Heq. apply elem_of_ids. eauto.
Qed.

Lemma validate_step_foldE_ok ast m :
  (forall s, s ∈ ast -> stepID s <> "" /\ m !! stepID s = None /\
     (normalizedJoin (stepJoin s) = "all" \/ normalizedJoin (stepJoin s) = "any")) ->
  NoDup (ids ast) ->
  foldE validate_step ast m = Ok (stepMap_from m ast).
Proof.
  revert m. induction ast as [|s ast IH]; intros m Hall Hnd; simpl; [done|].
  apply NoDup_cons in Hnd as [Hni Hnd].
  destruct (Hall s) as (Hne & Hl & Hj); [by left|].
  unfold validate_step at 1. rewrite decide_False by done.
  rewrite decide_False by (rewrite Hl; by intros []).
  replace (bool_decide _ && bool_decide _) with false.
  2:{ symmetry. apply andb_false_iff.
      destruct Hj as [->| ->]; [left|right];
        apply bool_decide_eq_false_2; intros Hx; by apply Hx. }
  apply IH; [|done]. intros s' Hin. destruct (Hall s') as (? & ? & ?); [by right|].
  split_and!; [done| |done]. rewrite lookup_insert_ne; [done|].
  intros Heq. apply Hni. rewrite Heq. apply elem_of_ids. eauto.
Qed.

(** ** The depth-first search *)

Section Visit.
Variable byID : gmap string WorkflowStep.

#[local] Abbreviation edge := (fun x y => y ∈ deps_of byID x).

Definition black (st : gmap string nat) (x : string) : Prop := st !! x = Some 2%nat.
Definition grey (st : gmap string nat) (x : string) : Prop := st !! x = Some 1%nat.

(** What a successful visit leaves: finished steps stay finished, the stack is
    as it was, and a finished step's dependencies are well-founded. *)
Definition visited_ok (st st' : gmap string nat) : Prop :=
  (forall x, black st x -> black st' x) /\
  (forall x, grey st' x <-> grey st x) /\
  ((forall x, black st x -> Acc (flip edge) x) ->
   (forall x, black st' x -> Acc (flip edge) x)).

Lemma visited_ok_refl st : visited_ok st st.
Proof. by split_and!. Qed.

Lemma visited_ok_trans st1 st2 st3 :
  visited_ok st1 st2 -> visited_ok st2 st3 -> visited_ok st1 st3.
Proof.
  intros (Hb1 & Hg1 & Ha1) (Hb2 & Hg2 & Ha2). split_and!; eauto.
  intros x. by rewrite Hg2, Hg1.
Qed.

Lemma foldF_visit_ok f l st st' :
  (forall st id st', visit f byID st id = Some (Ok st') ->
     visited_ok st st' /\ black st' id) ->
  foldF (fun st dep => visit f byID st dep) l st = Some (Ok st') ->
  visited_ok st st' /\ forall x, x ∈ l -> black st' x.
Proof.
  intros Hf. revert st. induction l as [|d l IH]; intros st H; simpl in *.
  - simplify_eq. split; [apply visited_ok_refl|]. by intros x ?%not_elem_of_nil.
  - destruct (visit f byID st d) as [[st1|e]|] eqn:Hd; simpl in H; try discriminate.
    destruct (Hf _ _ _ Hd) as [Hok1 Hbd]. destruct (IH _ H) as [Hok2 Hbl].
    split; [by eapply visited_ok_trans|].
    intros x [->|Hx]%elem_of_cons; [|by apply Hbl]. by apply Hok2.
Qed.

Lemma insert_black_ok st st1 id :
  ~ grey st id -> ~ black st id ->
  visited_ok (<[id := 1%nat]> st) st1 ->
  (forall x, x ∈ deps_of byID id -> black st1 x) ->
  visited_ok st (<[id := 2%nat]> st1).
Proof.
  intros Hng Hnb (Hb & Hg & Ha) Hdeps.
  assert (forall x, black st x -> black st1 x) as Hmono.
  { intros x Hx. apply Hb. unfold black. rewrite lookup_insert_ne; [exact Hx|].
    intros ->. by apply Hnb. }
  split_and!.
  - intros x Hx. unfold black. rewrite lookup_insert_ne; [by apply Hmono|].
    intros ->. by apply Hnb.
  - intros x. unfold grey. destruct (decide (id = x)) as [<-|Hne].
    + rewrite lookup_insert_eq. split; [done|]. intros; by destruct Hng.
    + rewrite lookup_insert_ne by done. fold (grey st1 x). rewrite Hg.
      unfold grey. by rewrite lookup_insert_ne.
  - intros HA.
    assert (forall x, black st1 x -> Acc (flip edge) x) as HA1.
    { apply Ha. intros x Hx. apply HA. unfold black in *.
      destruct (decide (id = x)) as [<-|]; [by rewrite lookup_insert_eq in Hx|].
      by rewrite lookup_insert_ne in Hx. }
    intros x Hx. unfold black in Hx. destruct (decide (id = x)) as [<-|].
    + constructor. intros y Hy. apply HA1, Hdeps, Hy.
    + rewrite lookup_insert_ne in Hx by done. by apply HA1.
Qed.

Lemma visit_ok f st id st' :
  visit f byID st id = Some (Ok st') -> visited_ok st st' /\ black st' id.
Proof.
  revert st id st'. induction f as [|f IH]; intros st id st' H; [done|].
  simpl in H.
  assert (forall st2, st !! id = st2 -> ~ st2 = Some 1%nat -> ~ st2 = Some 2%nat ->
    fuel_bind (foldF (fun st dep => visit f byID st dep) (deps_of byID id)
      (<[id := 1%nat]> st)) (fun st => Some (Ok (<[id := 2%nat]> st))) = Some (Ok st') ->
    visited_ok st st' /\ black st' id) as Hw.
  { intros st2 <- H1 H2 Hf.
    destruct (foldF _ _ _) as [[st1|e]|] eqn:HF; simpl in Hf; try discriminate. simplify_eq.
    destruct (foldF_visit_ok f _ _ _ IH HF) as [Hok Hbl].
    split; [by apply insert_black_ok|]. unfold black. by rewrite lookup_insert_eq. }
  destruct (st !! id) as [[|[|[|n]]]|] eqn:Hst.
  1,4,5: eapply Hw; [reflexivity|discriminate|discriminate|exact H].
  - discriminate.
  - injection H as <-. split; [apply visited_ok_refl|exact Hst].
Qed.

(** A cycle error comes with a cycle through the step it names. *)
Lemma visit_cycle f st id e :
  (forall g, grey st g -> tc edge g id) ->
  visit f byID st id = Some (Err e) ->
  exists x, e = cycle_error x /\ tc edge x x.
Proof.
  revert st id e. induction f as [|f IH]; intros st id e Hg H; [done|].
  simpl in H.
  assert (fuel_bind (foldF (fun st dep => visit f byID st dep) (deps_of byID id)
      (<[id := 1%nat]> st)) (fun st => Some (Ok (<[id := 2%nat]> st))) = Some (Err e) ->
    exists x, e = cycle_error x /\ tc edge x x) as Hw.
  { intros HF.
    assert (forall l st1, (forall x, x ∈ l -> x ∈ deps_of byID id) ->
      (forall g, grey st1 g -> g = id \/ grey st g) ->
      foldF (fun st dep => visit f byID st dep) l st1 = Some (Err e) ->
      exists x, e = cycle_error x /\ tc edge x x) as Hl.
    { induction l as [|d l IHl]; intros st1 Hsub Hgr Hf; simpl in Hf; [done|].
      destruct (visit f byID st1 d) as [[st2|e']|] eqn:Hd; simpl in Hf; try discriminate.
      - eapply (IHl st2); eauto using list_elem_of_further.
        destruct (visit_ok _ _ _ _ Hd) as [(_ & Hgg & _) _].
        intros g ?%Hgg. by apply Hgr.
      - simplify_eq. eapply (IH st1 d); [|done].
        assert (d ∈ deps_of byID id) as Hdd by (apply Hsub; by left).
        intros g [->|Hgg]%Hgr; [by apply tc_once|].
        eapply tc_r; [by apply Hg|done]. }
    destruct (foldF _ _ _) as [[st1|e']|] eqn:Hfold; simpl in HF; try discriminate. simplify_eq.
    eapply (Hl _ _ (fun x Hx => Hx) _ Hfold). Unshelve.
    intros g. unfold grey. destruct (decide (id = g)) as [->|]; [by left|].
    rewrite lookup_insert_ne by done. by right. }
  destruct (st !! id) as [[|[|[|n]]]|] eqn:Hst.
  1,4,5: exact (Hw H).
  - injection H as <-. exists id. split; [reflexivity|]. by apply Hg.
  - discriminate.
Qed.

Definition greys (st : gmap string nat) : gset string :=
  dom (filter (fun kv => kv.2 = 1%nat) st).

Lemma elem_of_greys st x : x ∈ greys st <-> grey st x.
Proof.
  unfold greys, grey. rewrite elem_of_dom. split.
  - intros [n Hn]. apply map_lookup_filter_Some in Hn as [Hn ?]; simpl in *. by subst.
  - intros H. exists 1%nat. by apply map_lookup_filter_Some.
Qed.

(** The stack holds distinct known steps, so the depth is bounded by their
    number. *)
Lemma visit_total f st id :
  (forall x y, x ∈ dom byID -> y ∈ deps_of byID x -> y ∈ dom byID) ->
  id ∈ dom byID -> (size (dom byID ∖ greys st) < f)%nat ->
  exists r, visit f byID st id = Some r.
Proof.
  intros Hcl. revert st id. induction f as [|f IH]; intros st id Hid Hsz; [lia|].
  simpl.
  assert (~ grey st id -> exists r, fuel_bind
      (foldF (fun st dep => visit f byID st dep) (deps_of byID id) (<[id := 1%nat]> st))
      (fun st => Some (Ok (<[id := 2%nat]> st))) = Some r) as Hw.
  { intros Hng.
    destruct (foldF_total (fun st dep => visit f byID st dep)
      (fun st1 => greys st1 = {[id]} ∪ greys st) (deps_of byID id)
      (<[id := 1%nat]> st)) as (r & -> & _); [| |destruct r; simpl; eauto].
    - intros d st1 Hd Hgr. destruct (IH st1 d) as [r Hr]; [by eapply Hcl| |].
      + rewrite Hgr.
        assert (dom byID ∖ ({[id]} ∪ greys st) ⊂ dom byID ∖ greys st) as Hs%subset_size;
          [|lia].
        split; [set_solver|]. intros Hc.
        assert (id ∈ dom byID ∖ greys st) as Hx
          by (apply elem_of_difference; rewrite elem_of_greys; done).
        apply Hc in Hx. set_solver.
      + exists r. split; [done|]. intros st2 ->.
        destruct (visit_ok _ _ _ _ Hr) as [(_ & Hgg & _) _]. rewrite <- Hgr.
        apply set_eq. intros x. by rewrite !elem_of_greys.
    - apply set_eq. intros x. rewrite elem_of_union, elem_of_singleton, !elem_of_greys.
      unfold grey. destruct (decide (id = x)) as [->|].
      + rewrite lookup_insert_eq. naive_solver.
      + rewrite lookup_insert_ne by done. naive_solver. }
  destruct (st !! id) as [[|[|[|n]]]|] eqn:Hst; try (eexists; reflexivity);
    apply Hw; unfold grey; rewrite Hst; discriminate.
Qed.

End Visit.

(** Well-founded dependencies have no cycle. *)
Lemma Acc_not_tc {A} (R : A -> A -> Prop) x : Acc (flip R) x -> ~ tc R x x.
Proof.
  induction 1 as [x _ IH]. intros Ht.
  assert (exists y, R x y /\ tc R y y) as (y & Hy & Hc).
  { inversion Ht as [? ? H|? y ? H1 H2]; subst; [by exists x|].
    exists y. split; [done|]. by eapply tc_r. }
  by apply (IH y Hy).
Qed.

Lemma tc_mono {A} (R R' : A -> A -> Prop) x y :
  (forall a b, R a b -> R' a b) -> tc R x y -> tc R' x y.
Proof. intros H. induction 1; [apply tc_once|eapply tc_l]; eauto. Qed.

(** ** Validation as a whole *)

#[local] Arguments visit : simpl never.

Section Validate.
Context (ast : WorkflowAST) (Hshape : wf_shape ast).

#[local] Abbreviation byID := (stepMap ast).
#[local] Abbreviation Hnd := (wf_ids_nodup ast Hshape).

Lemma dom_closed x y : x ∈ dom byID -> y ∈ deps_of byID x -> y ∈ dom byID.
Proof.
  intros _ Hy. apply elem_of_dom, stepMap_dom; [apply Hnd|].
  eapply (wf_deps ast Hshape), deps_of_depends; [apply Hnd|done].
Qed.

Lemma dom_size : (size (dom byID) <= length ast)%nat.
Proof.
  assert (dom byID ⊆ list_to_set (ids ast)) as Hs.
  { intros x. rewrite elem_of_dom, elem_of_list_to_set.
    apply stepMap_dom, Hnd. }
  apply subseteq_size in Hs. etrans; [done|].
  rewrite size_list_to_set by apply Hnd. unfold ids. by rewrite length_map.
Qed.

Definition search : fueled goerr (gmap string nat) :=
  foldF (fun st s => visit (S (length ast)) byID st (stepID s)) ast ∅.

Lemma search_total : exists r, search = Some r.
Proof.
  destruct (foldF_total (fun st s => visit (S (length ast)) byID st (stepID s))
    (fun st => forall x, ~ grey st x) ast ∅) as (r & Hr & _); [| |by exists r].
  - intros s st Hin Hg. destruct (visit_total byID (S (length ast)) st (stepID s)) as [r Hr].
    + apply dom_closed.
    + apply elem_of_dom. exists s. by apply stepMap_lookup; [apply Hnd|].
    + pose proof dom_size. assert (dom byID ∖ greys st ⊆ dom byID) as Hs%subseteq_size;
        [set_solver|lia].
    + exists r. split; [done|]. intros st' ->.
      destruct (visit_ok _ _ _ _ _ Hr) as [(_ & Hgg & _) _].
      intros x ?%Hgg. by eapply Hg.
  - intros x. unfold grey. by rewrite lookup_empty.
Qed.

Lemma search_ok_acyclic st : search = Some (Ok st) -> forall x, ~ tc (depends ast) x x.
Proof.
  unfold search. intros H.
  assert (forall l st1 st2, (forall x, black st1 x -> Acc (flip (fun x y => y ∈ deps_of byID x)) x) ->
    foldF (fun st s => visit (S (length ast)) byID st (stepID s)) l st1 = Some (Ok st2) ->
    forall x, (x ∈ map stepID l \/ black st1 x) ->
      Acc (flip (fun x y => y ∈ deps_of byID x)) x) as Hacc.
  { induction l as [|s l IH]; intros st1 st2 HA Hf x Hx; simpl in *.
    - destruct Hx as [?%not_elem_of_nil|Hx]; [done|by apply HA].
    - destruct (visit _ _ _ _) as [[st3|e]|] eqn:Hv; simpl in Hf; try discriminate.
      destruct (visit_ok _ _ _ _ _ Hv) as [(Hb & _ & Ha) Hbs].
      apply (IH st3 st2); [by apply Ha|done|].
      destruct Hx as [[->|Hx]%elem_of_cons|Hx]; auto. }
  intros x Hx.
  assert (x ∈ ids ast) as Hin.
  { inversion Hx as [? ? (s & ? & ? & ?)|? ? ? (s & ? & ? & ?) _]; subst;
      apply elem_of_ids; eauto. }
  apply (Acc_not_tc (fun x y => y ∈ deps_of byID x) x).
  - eapply Hacc; [|exact H|by left]. intros y. unfold black. by rewrite lookup_empty.
  - eapply tc_mono; [|done]. intros a b. by apply deps_of_depends, Hnd.
Qed.

Lemma search_err_cycle e :
  search = Some (Err e) -> exists x, e = cycle_error x /\ tc (depends ast) x x.
Proof.
  unfold search. intros H.
  assert (forall l st1, (forall x, ~ grey st1 x) ->
    foldF (fun st s => visit (S (length ast)) byID st (stepID s)) l st1 = Some (Err e) ->
    exists x, e = cycle_error x /\ tc (fun x y => y ∈ deps_of byID x) x x) as Hl.
  { induction l as [|s l IH]; intros st1 Hg Hf; simpl in *; [done|].
    destruct (visit _ _ _ _) as [[st2|e']|] eqn:Hv; cbn [fuel_bind] in Hf; try discriminate.
    - eapply (IH st2); [|done]. destruct (visit_ok _ _ _ _ _ Hv) as [(_ & Hgg & _) _].
      intros x ?%Hgg. by eapply Hg.
    - simplify_eq. eapply visit_cycle; [|done]. intros g Hgr. by destruct (Hg g). }
  destruct (Hl ast ∅) as (x & -> & Hx); [intros x; unfold grey; by rewrite lookup_empty|done|].
  exists x. split; [done|]. eapply tc_mono; [|done]. intros a b. by apply deps_of_depends, Hnd.
Qed.

Lemma ValidateAST_search :
  ValidateAST ast =
  match search with
  | Some (Ok _) => Ok tt | Some (Err e) => Err e | None => Err out_of_fuel
  end.
Proof.
  unfold ValidateAST. rewrite decide_False by apply (wf_nonempty ast Hshape).
  rewrite validate_step_foldE_ok; [|intros s Hs|apply Hnd].
  2:{ split_and!; [by apply (wf_ids_nonempty ast Hshape)|apply lookup_empty|].
      by apply (wf_joins ast Hshape). }
  cbn [mbind result_bind].
  replace (forE _ ast) with (Ok tt : result goerr unit); [done|].
  symmetry. apply forE_ok. intros s Hs. apply forE_ok. intros d Hd.
  rewrite decide_True; [done|]. apply stepMap_dom; [apply Hnd|].
  apply (wf_deps ast Hshape (stepID s)). exists s. done.
Qed.

End Validate.

Lemma ValidateAST_ok_shape ast : ValidateAST ast = Ok tt -> wf_shape ast.
Proof.
  unfold ValidateAST. intros H. destruct (decide (ast = [])) as [|Hne]; [done|].
  destruct (foldE validate_step ast ∅) as [m|e] eqn:HF; simpl in H; [|done].
  destruct (validate_step_foldE _ _ _ HF) as (Hall & Hnd & ->).
  destruct (forE _ ast) as [[]|e] eqn:Hfor; cbn [mbind result_bind] in H; [|done].
  rewrite forE_ok in Hfor. split; try done.
  - intros s Hs. by destruct (Hall s Hs).
  - intros s Hs. by destruct (Hall s Hs) as (_ & _ & ?).
  - intros x y (s & Hin & <- & Hy). specialize (Hfor s Hin).
    unfold validate_deps in Hfor. rewrite forE_ok in Hfor. specialize (Hfor y Hy).
    simpl in Hfor. case_decide as Hd; [|done]. by apply stepMap_dom in Hd.
Qed.

(** A validated AST is a well-formed DAG, and every well-formed DAG validates. *)
Lemma ValidateAST_iff ast : ValidateAST ast = Ok tt <-> wf_ast ast.
Proof.
  split.
  - intros H. pose proof (ValidateAST_ok_shape ast H) as Hs. split; [done|].
    rewrite (ValidateAST_search ast Hs) in H.
    destruct (search ast) as [[st|e]|] eqn:Hse; [|done|done].
    by eapply search_ok_acyclic.
  - intros [Hs Hac]. rewrite (ValidateAST_search ast Hs).
    destruct (search_total ast Hs) as [[st|e] Hse]; rewrite Hse; [done|].
    destruct (search_err_cycle ast Hs e Hse) as (x & _ & Hx). by destruct (Hac x).
Qed.

(** ** The claims *)

(** C1. [ValidateAST] accepts exactly the well-formed workflows: at least one
    step, non-empty unique step ids, joins that normalise to "all" or "any",
    dependencies that are steps, and no dependency cycle. A workflow whose only
    defect is a cycle is rejected with the cycle error, and the step the error
    names lies on a cycle. *)
Theorem ValidateAST_correct ast :
  (ValidateAST ast = Ok tt <-> wf_ast ast) /\
  (forall x, wf_shape ast -> tc (depends ast) x x ->
     exists y, ValidateAST ast = Err (cycle_error y) /\ tc (depends ast) y y).
Proof.
  split; [apply ValidateAST_iff|]. intros x Hs Hx. rewrite (ValidateAST_search ast Hs).
  destruct (search_total ast Hs) as [[st|e] Hse]; rewrite Hse.
  - by destruct (search_ok_acyclic ast Hs st Hse x).
  - destruct (search_err_cycle ast Hs e Hse) as (y & -> & Hy). eauto.
Qed.

Definition demo_step (id : string) (deps : list string) : WorkflowStep :=
  mkWorkflowStep id "human_task" deps "" "" ∅ None zeroErrorPolicy None.

Lemma ValidateAST_correct_witness :
  wf_ast [demo_step "a" []; demo_step "b" ["a"]] /\
  exists y, ValidateAST [demo_step "a" ["b"]; demo_step "b" ["a"]] = Err (cycle_error y).
Proof.
  split; [apply (ValidateAST_correct [demo_step "a" []; demo_step "b" ["a"]]); vm_compute; reflexivity|].
  set (cyc := [demo_step "a" ["b"]; demo_step "b" ["a"]]).
  assert (tc (depends cyc) "a" "a") as Htc.
  { eapply (tc_l _ _ "b"); [exists (demo_step "a" ["b"])|apply tc_once; exists (demo_step "b" ["a"])];
      unfold cyc; set_solver. }
  assert (wf_shape cyc) as Hs.
  { split; [discriminate| | | |].
    - unfold cyc. intros s Hs. apply elem_of_cons in Hs as [->|[->|[]%not_elem_of_nil]%elem_of_cons];
        discriminate.
    - apply (bool_decide_unpack _). vm_compute. exact I.
    - unfold cyc. intros s Hs. apply elem_of_cons in Hs as [->|[->|[]%not_elem_of_nil]%elem_of_cons];
        left; reflexivity.
    - unfold cyc. intros x y (s & Hs & _ & Hy).
      apply elem_of_cons in Hs as [->|[->|[]%not_elem_of_nil]%elem_of_cons];
        apply list_elem_of_singleton in Hy; subst; simpl; set_solver. }
  destruct (proj2 (ValidateAST_correct cyc) "a" Hs Htc) as (y & Hy & _). exists y. exact Hy.
Defined.
