(* ===== verification/EngineCompute.v ===== *)
(** * The DAG evaluation: [internal/engine/compute.go]

    [computeTransitions] runs rounds of outcome routing, promotion and
    activation on a copy of the step states until a round changes nothing. The
    abstract counterpart is the transition relation [lstep] of one step's
    life cycle; every run of the code is a run of [lstep] that cannot be
    extended, and the number of rounds is bounded. *)

From S2P Require Import Prelude GoStrings Json EngineTypes EngineAst.

(** ** Definitions *)

Definition isTerminal (s : option step_state) : bool :=
  bool_decide (s = Some StateCompleted) || bool_decide (s = Some StateFailed)
  || bool_decide (s = Some StateSkipped).

(** [extractOutcome]: the field ["outcome"] of a result object; any decoding
    error gives the empty outcome. *)
Definition extractOutcome (raw : option json) : string :=
  match raw with
  | Some (JObj m) =>
      match dec_field "outcome" dec_string EmptyString m with
      | Ok s => s
      | Err _ => EmptyString
      end
  | _ => EmptyString
  end.

Definition virtual_map : Type := gmap string StepState.

(** [virtual[id].State]; [None] is the zero [StepState] of a missing key. *)
Definition vstate (v : gmap string StepState) (id : string) : option step_state :=
  ssState <$> v !! id.

(** The variables of the evaluation loop. *)
Record loop_state : Type := mkLoop {
  virtual : gmap string StepState;
  seen : gset string;
  transitions : list Transition;
  changed : bool
}.

Definition seen_key (id : string) (t : TransitionType) : string :=
  id +:+ ":" +:+ transition_type_string t.

(** The block [if !seen[key] { ... }] all three phases share. *)
Definition fire (c : loop_state) (st : StepState) (id : string) (from to : step_state)
    (ty : TransitionType) (reason : TransitionReason) (outcome : string) : loop_state :=
  let key := seen_key id ty in
  if decide (key ∈ seen c) then c
  else mkLoop (<[id := set_state st to]> (virtual c)) ({[key]} ∪ seen c)
         (transitions c ++ [mkTransition id from to ty reason outcome]) true.

(** Phase 1: a completed source with outcomes skips the dependents its
    selected outcome does not route to. *)
Definition all_targets (outcomes : gmap string (list string)) : gset string :=
  map_fold (fun _ l acc => list_to_set l ∪ acc) ∅ outcomes.

Definition route_dependent (source : WorkflowStep) (selected : string)
    (c : loop_state) (dep : string) : loop_state :=
  if decide (dep ∈ all_targets (stepOutcomes source)) then
    if decide (dep ∈ default [] (stepOutcomes source !! selected)) then c
    else match virtual c !! dep with
         | Some st =>
             if decide (ssState st = StatePending \/ ssState st = StateReady)
             then fire c st dep (ssState st) StateSkipped TransitionToSkipped
                    ReasonOutcomeRouting selected
             else c
         | None => c
         end
  else c.

Definition route_source (reverse : gmap string (list string)) (c : loop_state)
    (source : WorkflowStep) : loop_state :=
  match virtual c !! stepID source with
  | Some srcState =>
      if decide (ssState srcState = StateCompleted) then
        let selected := extractOutcome (ssResult srcState) in
        if decide (stepOutcomes source = ∅) then c
        else foldl (route_dependent source selected) c
               (default [] (reverse !! stepID source))
      else c
  | None => c
  end.

(** Phase 2: the dependency counters and the join strategies. *)
Record dep_counts : Type := mkCounts {
  terminalCount : nat;
  completedCount : nat;
  skippedCount : nat;
  allTerminal : bool
}.

Definition count_dep (v : gmap string StepState) (c : dep_counts) (dep : string) : dep_counts :=
  let ds := vstate v dep in
  mkCounts
    (if isTerminal ds then S (terminalCount c) else terminalCount c)
    (if bool_decide (ds = Some StateCompleted) then S (completedCount c) else completedCount c)
    (if bool_decide (ds = Some StateSkipped) then S (skippedCount c) else skippedCount c)
    (if isTerminal ds then allTerminal c else false).

Definition count_deps (v : gmap string StepState) (deps : list string) : dep_counts :=
  foldl (count_dep v) (mkCounts 0 0 0 true) deps.

Definition promotion : Type := step_state * TransitionType * TransitionReason.

Definition promote_rule (v : gmap string StepState) (step : WorkflowStep)
  : result goerr (option promotion) :=
  let deps := stepDependsOn step in
  if decide (deps = [])
  then Ok (Some (StateReady, TransitionToReady, ReasonDependenciesSatisfied))
  else
    let n := count_deps v deps in
    let join := normalizedJoin (stepJoin step) in
    if decide (join = "all") then
      if allTerminal n && (0 <? completedCount n)%nat
      then Ok (Some (StateReady, TransitionToReady, ReasonDependenciesSatisfied))
      else if allTerminal n && (skippedCount n =? length deps)%nat
      then Ok (Some (StateSkipped, TransitionToSkipped, ReasonSkipPropagation))
      else Ok None
    else if decide (join = "any") then
      if (0 <? terminalCount n)%nat
      then Ok (Some (StateReady, TransitionToReady, ReasonJoinAnySatisfied))
      else Ok None
    else Err (Wrapf "step %s: %w" [stepID step] ErrInvalidJoinStrategy).

Definition promote (c : loop_state) (step : WorkflowStep) : result goerr loop_state :=
  match virtual c !! stepID step with
  | Some st =>
      if decide (ssState st = StatePending) then
        match promote_rule (virtual c) step with
        | Err e => Err e
        | Ok None => Ok c
        | Ok (Some (to, ty, reason)) =>
            Ok (fire c st (stepID step) StatePending to ty reason EmptyString)
        end
      else Ok c
  | None => Ok c
  end.

Section Compute.

(** The expression evaluator ([nil] is [None]) and the evaluation context. *)
Context (evaluator : option (string -> json -> result goerr bool)) (ctx : json).

(** Phase 3: a ready step is activated, or skipped when its guard is false. *)
Definition activate_rule (step : WorkflowStep) : result goerr promotion :=
  if decide (stepCondition step = "")
  then Ok (StateActive, TransitionToActive, ReasonDependenciesSatisfied)
  else
    match evaluator with
    | None => Err (Errorf "step %s has condition but evaluator is nil" [stepID step])
    | Some ev =>
        match ev (stepCondition step) ctx with
        | Err e => Err (Wrapf "evaluate guard for step %s: %w" [stepID step] e)
        | Ok false => Ok (StateSkipped, TransitionToSkipped, ReasonGuardFalse)
        | Ok true => Ok (StateActive, TransitionToActive, ReasonDependenciesSatisfied)
        end
    end.

Definition activate (c : loop_state) (step : WorkflowStep) : result goerr loop_state :=
  match virtual c !! stepID step with
  | Some st =>
      if decide (ssState st = StateReady) then
        match activate_rule step with
        | Err e => Err e
        | Ok (to, ty, reason) =>
            Ok (fire c st (stepID step) StateReady to ty reason EmptyString)
        end
      else Ok c
  | None => Ok c
  end.

Definition round (ast : WorkflowAST) (c : loop_state) : result goerr loop_state :=
  let c0 := mkLoop (virtual c) (seen c) (transitions c) false in
  let c1 := foldl (route_source (reverseDependencies ast)) c0 ast in
  c2 ← foldE promote ast c1;
  foldE activate ast c2.

Fixpoint rounds (fuel : nat) (ast : WorkflowAST) (c : loop_state) : fueled goerr loop_state :=
  match fuel with
  | O => None
  | S f =>
      match round ast c with
      | Err e => Some (Err e)
      | Ok c' => if changed c' then rounds f ast c' else Some (Ok c')
      end
  end.

(** The states with a pending entry for every step that has none. *)
Definition init_virtual (ast : WorkflowAST) (states : gmap string StepState)
  : gmap string StepState :=
  foldl (fun v s =>
    match v !! stepID s with
    | Some _ => v
    | None => <[stepID s := mkStepState (stepID s) StatePending None 0 None None]> v
    end) states ast.

Definition eval_fuel (ast : WorkflowAST) : nat := S (3 * length ast).

Definition evaluate (ast : WorkflowAST) (states : gmap string StepState)
  : result goerr loop_state :=
  _ ← ValidateAST ast;
  match rounds (eval_fuel ast) ast (mkLoop (init_virtual ast states) ∅ [] false) with
  | Some r => r
  | None => Err out_of_fuel
  end.

Definition computeTransitions (ast : WorkflowAST) (states : gmap string StepState)
  : result goerr (list Transition) :=
  transitions <$> evaluate ast states.

End Compute.
