(* ===== verification/EngineComputeProps.v ===== *)
(** * Properties of the DAG evaluation

    The abstract life cycle [lstep], the simulation of the evaluation loop by
    it, the bound on the number of rounds, and the quiescence of the result. *)

From S2P Require Import Prelude GoStrings Json EngineTypes EngineAst EngineCompute.

(** ** The abstract life cycle of steps *)

(** The outcomes of [src] name [dep], but the selected one does not. *)
Definition routed_out (src : WorkflowStep) (selected dep : string) : Prop :=
  (exists k l, stepOutcomes src !! k = Some l /\ dep ∈ l) /\
  dep ∉ default [] (stepOutcomes src !! selected).

(** When a pending step moves on: by its join strategy. *)
Inductive promotes (v : gmap string StepState) (s : WorkflowStep) : promotion -> Prop :=
  | promotes_root :
      stepDependsOn s = [] ->
      promotes v s (StateReady, TransitionToReady, ReasonDependenciesSatisfied)
  | promotes_all d :
      normalizedJoin (stepJoin s) = "all" ->
      (forall d, d ∈ stepDependsOn s -> isTerminal (vstate v d) = true) ->
      d ∈ stepDependsOn s -> vstate v d = Some StateCompleted ->
      promotes v s (StateReady, TransitionToReady, ReasonDependenciesSatisfied)
  | promotes_skip :
      normalizedJoin (stepJoin s) = "all" -> stepDependsOn s <> [] ->
      (forall d, d ∈ stepDependsOn s -> vstate v d = Some StateSkipped) ->
      promotes v s (StateSkipped, TransitionToSkipped, ReasonSkipPropagation)
  | promotes_any d :
      normalizedJoin (stepJoin s) = "any" ->
      d ∈ stepDependsOn s -> isTerminal (vstate v d) = true ->
      promotes v s (StateReady, TransitionToReady, ReasonJoinAnySatisfied).

Section Props.
Context (evaluator : option (string -> json -> result goerr bool)) (ctx : json).
Context (ast : WorkflowAST).

(** One transition of the life cycle. *)
Inductive lstep (v : gmap string StepState) : Transition -> gmap string StepState -> Prop :=
  | lstep_route src srcst dep st :
      src ∈ ast -> v !! stepID src = Some srcst -> ssState srcst = StateCompleted ->
      depends ast dep (stepID src) ->
      routed_out src (extractOutcome (ssResult srcst)) dep ->
      v !! dep = Some st -> ssState st = StatePending \/ ssState st = StateReady ->
      lstep v
        (mkTransition dep (ssState st) StateSkipped TransitionToSkipped
           ReasonOutcomeRouting (extractOutcome (ssResult srcst)))
        (<[dep := set_state st StateSkipped]> v)
  | lstep_promote s st to ty reason :
      s ∈ ast -> v !! stepID s = Some st -> ssState st = StatePending ->
      promotes v s (to, ty, reason) ->
      lstep v (mkTransition (stepID s) StatePending to ty reason EmptyString)
        (<[stepID s := set_state st to]> v)
  | lstep_activate s st to ty reason :
      s ∈ ast -> v !! stepID s = Some st -> ssState st = StateReady ->
      activate_rule evaluator ctx s = Ok (to, ty, reason) ->
      lstep v (mkTransition (stepID s) StateReady to ty reason EmptyString)
        (<[stepID s := set_state st to]> v).

Inductive lsteps : gmap string StepState -> list Transition -> gmap string StepState -> Prop :=
  | lsteps_nil v : lsteps v [] v
  | lsteps_cons v tr v1 trs v2 :
      lstep v tr v1 -> lsteps v1 trs v2 -> lsteps v (tr :: trs) v2.

Lemma lsteps_app v1 l1 v2 l2 v3 :
  lsteps v1 l1 v2 -> lsteps v2 l2 v3 -> lsteps v1 (l1 ++ l2) v3.
Proof. induction 1; simpl; eauto using lsteps. Qed.

(** ** The counters of phase 2 *)

Lemma count_deps_spec v deps :
  allTerminal (count_deps v deps) = forallb (fun d => isTerminal (vstate v d)) deps /\
  completedCount (count_deps v deps) =
    length (filter (fun d => vstate v d = Some StateCompleted) deps) /\
  skippedCount (count_deps v deps) =
    length (filter (fun d => vstate v d = Some StateSkipped) deps) /\
  terminalCount (count_deps v deps) =
    length (filter (fun d => is_true (isTerminal (vstate v d))) deps).
Proof.
  unfold count_deps. induction deps as [|d deps IH] using rev_ind; [done|].
  rewrite foldl_app, forallb_app, !filter_app, !length_app; simpl.
  destruct IH as (-> & -> & -> & ->). unfold count_dep; simpl.
  rewrite !filter_cons, !filter_nil.
  destruct (isTerminal (vstate v d)) eqn:Ht; simpl;
    split_and!; repeat case_bool_decide; repeat case_decide; simpl;
    rewrite ?andb_true_r, ?andb_false_r; try done; try lia.
Qed.

Lemma filter_length_pos {A} (P : A -> Prop) `{!forall x, Decision (P x)} l :
  (0 < length (filter P l))%nat <-> exists x, x ∈ l /\ P x.
Proof.
  split.
  - destruct (filter P l) as [|x l'] eqn:Hf; simpl; [lia|]. intros _.
    exists x. assert (x ∈ filter P l) as Hx by (rewrite Hf; by left).
    apply list_elem_of_filter in Hx as [? ?]. done.
  - intros (x & Hx & HP). destruct (filter P l) as [|y l'] eqn:Hf; simpl; [|lia].
    assert (x ∈ filter P l) as Hc by (by apply list_elem_of_filter).
    rewrite Hf in Hc. by apply not_elem_of_nil in Hc.
Qed.

Lemma filter_length_all {A} (P : A -> Prop) `{!forall x, Decision (P x)} l :
  length (filter P l) = length l <-> forall x, x ∈ l -> P x.
Proof.
  induction l as [|a l IH]; simpl.
  - split; [|done]. intros _ x Hx. by apply not_elem_of_nil in Hx.
  - rewrite filter_cons. case_decide as Ha; simpl.
    + rewrite Nat.succ_inj_wd, IH. split.
      * intros Hall x [->|Hx]%elem_of_cons; auto.
      * intros Hall x Hx. apply Hall. by right.
    + split; [|intros Hall; destruct Ha; apply Hall; by left].
      pose proof (length_filter P l). lia.
Qed.

Lemma forallb_elem {A} (f : A -> bool) l :
  forallb f l = true <-> forall x, x ∈ l -> f x = true.
Proof. rewrite forallb_forall. by setoid_rewrite list_elem_of_In. Qed.

(** [promote_rule] decides [promotes]. *)
Lemma promote_rule_sound v s p : promote_rule v s = Ok (Some p) -> promotes v s p.
Proof.
  unfold promote_rule. destruct (count_deps_spec v (stepDependsOn s)) as (Ha & Hc & Hk & Ht).
  case_decide as Hd; [intros [= <-]; by apply promotes_root|].
  case_decide as Hj.
  - destruct (allTerminal _ && (0 <? _)%nat) eqn:E1.
    { intros [= <-]. boolp. rewrite Ha, forallb_elem in *.
      apply Nat.ltb_lt in H0. rewrite Hc, filter_length_pos in H0.
      destruct H0 as (d & ? & ?). by eapply promotes_all. }
    destruct (allTerminal _ && (skippedCount _ =? _)%nat) eqn:E2; [|done].
    intros [= <-]. boolp. apply Nat.eqb_eq in H0. rewrite Hk, filter_length_all in H0.
    by apply promotes_skip.
  - case_decide as Hj2; [|done]. destruct (0 <? _)%nat eqn:E1; [|done].
    intros [= <-]. apply Nat.ltb_lt in E1. rewrite Ht, filter_length_pos in E1.
    destruct E1 as (d & ? & ?). by eapply promotes_any.
Qed.

Lemma promote_rule_complete v s :
  promote_rule v s = Ok None -> forall p, ~ promotes v s p.
Proof.
  unfold promote_rule. destruct (count_deps_spec v (stepDependsOn s)) as (Ha & Hc & Hk & Ht).
  intros H p Hp. case_decide as Hd; [done|].
  destruct Hp as [?|d Hj Hall Hin Hst|Hj _ Hall|d Hj Hin Hst]; [done| | |].
  - rewrite decide_True in H by done.
    replace (allTerminal _ && (0 <? _)%nat) with true in H; [done|].
    symmetry. apply andb_true_iff. rewrite Ha, forallb_elem. split; [done|].
    apply Nat.ltb_lt. rewrite Hc. apply filter_length_pos. eauto.
  - rewrite decide_True in H by done. case_match; [done|].
    replace (allTerminal _ && (skippedCount _ =? _)%nat) with true in H; [done|].
    symmetry. apply andb_true_iff. rewrite Ha, forallb_elem. split.
    + intros d Hin. by rewrite (Hall d Hin).
    + apply Nat.eqb_eq. rewrite Hk. by apply filter_length_all.
  - rewrite Hj in H. rewrite decide_False, decide_True in H by done.
    replace (0 <? _)%nat with true in H; [done|].
    symmetry. apply Nat.ltb_lt. rewrite Ht. apply filter_length_pos. eauto.
Qed.

Lemma promotes_target v s to ty reason :
  promotes v s (to, ty, reason) ->
  (to = StateReady /\ ty = TransitionToReady) \/ (to = StateSkipped /\ ty = TransitionToSkipped).
Proof. inversion 1; auto. Qed.

Lemma activate_rule_target s to ty reason :
  activate_rule evaluator ctx s = Ok (to, ty, reason) ->
  (to = StateActive /\ ty = TransitionToActive) \/ (to = StateSkipped /\ ty = TransitionToSkipped).
Proof. unfold activate_rule. repeat case_match; naive_solver. Qed.

(** ** Keys *)

Lemma seen_key_inj id id' t t' : seen_key id t = seen_key id' t' -> id = id' /\ t = t'.
Proof.
  unfold seen_key. revert id'.
  induction id as [|a id IH]; intros [|b id'] H.
  - split; [done|]. apply transition_type_string_inj. by injection H.
  - exfalso. injection H as <- H. change ("" +:+ transition_type_string t)
      with (transition_type_string t) in H.
    assert (char_in ":" (transition_type_string t) = true) as Hc.
    { rewrite H. rewrite char_in_append. apply orb_true_r. }
    by rewrite transition_type_no_colon in Hc.
  - exfalso. injection H as -> H.
    assert (char_in ":" (transition_type_string t') = true) as Hc.
    { change (transition_type_string t') with ("" +:+ transition_type_string t').
      rewrite <- H. rewrite char_in_append. apply orb_true_r. }
    by rewrite transition_type_no_colon in Hc.
  - injection H as <- H. by destruct (IH _ H) as [-> ->].
Qed.

(** ** The loop invariant *)

Definition legal (from to : step_state) (ty : TransitionType) : Prop :=
  match ty with
  | TransitionToReady => from = StatePending /\ to = StateReady
  | TransitionToActive => from = StateReady /\ to = StateActive
  | TransitionToSkipped => (from = StatePending \/ from = StateReady) /\ to = StateSkipped
  end.

Definition all_keys : gset string :=
  list_to_set (flat_map (fun s => map (seen_key (stepID s))
    [TransitionToReady; TransitionToActive; TransitionToSkipped]) ast).

(** A recorded key means its step has moved past the transition. *)
Definition seen_ok (c : loop_state) : Prop :=
  forall id,
    (seen_key id TransitionToReady ∈ seen c -> vstate (virtual c) id <> Some StatePending) /\
    (seen_key id TransitionToActive ∈ seen c -> vstate (virtual c) id = Some StateActive) /\
    (seen_key id TransitionToSkipped ∈ seen c -> vstate (virtual c) id = Some StateSkipped).

Record loop_inv (v0 : gmap string StepState) (c : loop_state) : Prop := mk_loop_inv {
  inv_run : lsteps v0 (transitions c) (virtual c);
  inv_seen : seen_ok c;
  inv_keys : seen c ⊆ all_keys
}.

Definition progress (c c' : loop_state) : Prop :=
  c' = c \/ (changed c' = true /\ (size (seen c) < size (seen c'))%nat).

Lemma progress_trans c1 c2 c3 : progress c1 c2 -> progress c2 c3 -> progress c1 c3.
Proof.
  intros [->|[H1 H2]] [->|[H3 H4]]; unfold progress; auto. right. split; [done|lia].
Qed.

Lemma all_keys_elem id t : id ∈ ids ast -> seen_key id t ∈ all_keys.
Proof.
  intros (s & Hin & <-)%elem_of_ids. unfold all_keys.
  rewrite elem_of_list_to_set, list_elem_of_In, in_flat_map.
  exists s. rewrite <- !list_elem_of_In. split; [done|].
  apply list_elem_of_fmap. exists t. split; [done|]. destruct t; set_solver.
Qed.

Lemma all_keys_size : (size all_keys <= 3 * length ast)%nat.
Proof.
  unfold all_keys. etrans; [apply size_list_to_set_le|].
  induction ast as [|s l IH]; simpl; [lia|]. simpl in IH. lia.
Qed.

Lemma vstate_insert v id st s id' :
  vstate (<[id := set_state st s]> v) id' =
  if decide (id = id') then Some s else vstate v id'.
Proof.
  unfold vstate. case_decide as Hd; [subst; by rewrite lookup_insert_eq|].
  by rewrite lookup_insert_ne.
Qed.

(** The guard of a phase keeps its key fresh, so the [seen] set never blocks a
    transition. *)
Lemma fire_unseen v0 c id st to ty :
  loop_inv v0 c -> virtual c !! id = Some st -> legal (ssState st) to ty ->
  seen_key id ty ∉ seen c.
Proof.
  intros [_ Hs _] Hst Hl Hc. destruct (Hs id) as (Hr & Ha & Hk).
  assert (vstate (virtual c) id = Some (ssState st)) as Hv
    by (unfold vstate; by rewrite Hst).
  destruct ty; simpl in Hl.
  - apply (Hr Hc). destruct Hl as [<- _]. done.
  - rewrite (Ha Hc) in Hv. destruct Hl as [Hl _]. rewrite Hl in Hv. done.
  - rewrite (Hk Hc) in Hv. destruct Hl as [[Hl|Hl] _]; rewrite Hl in Hv; done.
Qed.

Lemma seen_ok_fire v0 c id st to ty reason out :
  loop_inv v0 c -> virtual c !! id = Some st -> legal (ssState st) to ty ->
  seen_ok (mkLoop (<[id := set_state st to]> (virtual c)) ({[seen_key id ty]} ∪ seen c)
    (transitions c ++ [mkTransition id (ssState st) to ty reason out]) true).
Proof.
  intros [_ Hs _] Hst Hl id'. simpl. rewrite vstate_insert.
  assert (vstate (virtual c) id = Some (ssState st)) as Hv
    by (unfold vstate; by rewrite Hst).
  destruct (Hs id') as (Hr & Ha & Hk).
  split_and!; (intros [Heq%elem_of_singleton|Hin]%elem_of_union;
    [apply seen_key_inj in Heq as [-> <-]; simpl in Hl; destruct Hl as [? ->];
       by rewrite decide_True|]); case_decide; subst; auto.
  - specialize (Hr Hin). destruct ty; simpl in Hl; destruct Hl as [? ->]; done.
  - rewrite (Ha Hin) in Hv. destruct ty; simpl in Hl; destruct Hl as [Hl ->];
      try destruct Hl as [Hl|Hl]; rewrite Hl in Hv; done.
  - rewrite (Hk Hin) in Hv. destruct ty; simpl in Hl; destruct Hl as [Hl ->];
      try destruct Hl as [Hl|Hl]; rewrite Hl in Hv; done.
Qed.

Lemma fire_inv v0 c id st to ty reason out :
  loop_inv v0 c -> id ∈ ids ast -> virtual c !! id = Some st ->
  legal (ssState st) to ty ->
  lstep (virtual c) (mkTransition id (ssState st) to ty reason out)
    (<[id := set_state st to]> (virtual c)) ->
  let c' := fire c st id (ssState st) to ty reason out in
  loop_inv v0 c' /\ progress c c' /\ changed c' = true.
Proof.
  intros Hinv Hid Hst Hl Hstep.
  pose proof (fire_unseen _ _ _ _ _ _ Hinv Hst Hl) as Hun.
  unfold fire. rewrite decide_False by done. simpl.
  split_and!; [split; simpl| |done].
  - eapply lsteps_app; [apply Hinv|]. econstructor; [done|constructor].
  - by eapply seen_ok_fire.
  - destruct Hinv as [_ _ Hk]. apply union_subseteq. split; [|done].
    apply singleton_subseteq_l. by apply all_keys_elem.
  - right. simpl. split; [done|]. rewrite size_union by set_solver.
    rewrite size_singleton. lia.
Qed.

(** ** The phases preserve the invariant and either do nothing or progress *)

Lemma foldl_phase {A} (P : loop_state -> Prop) (f : loop_state -> A -> loop_state) l c :
  (forall c x, x ∈ l -> P c -> P (f c x) /\ progress c (f c x)) ->
  P c ->
  P (foldl f c l) /\ progress c (foldl f c l) /\
  (changed (foldl f c l) = false -> forall x, x ∈ l -> f c x = c).
Proof.
  revert c. induction l as [|a l IH]; intros c Hf Hc; simpl.
  - split_and!; [done|by left|]. intros _ x Hx. by apply not_elem_of_nil in Hx.
  - destruct (Hf c a) as [Hinv Hpr]; [by left|done|].
    destruct (IH (f c a)) as (Hinv2 & Hpr2 & Hun); [|done|].
    { intros c' x Hx. apply Hf. by right. }
    split_and!; [done|by eapply progress_trans|].
    intros Hch. specialize (Hun Hch).
    assert (f c a = c) as Heq.
    { destruct Hpr as [?|[Hch1 _]]; [done|].
      destruct Hpr2 as [Hs|[Hch2 _]]; [rewrite Hs in Hch|]; congruence. }
    rewrite Heq in Hun. intros x [->|Hx]%elem_of_cons; auto.
Qed.

Lemma foldE_phase {A} (P : loop_state -> Prop) (f : loop_state -> A -> result goerr loop_state) l c c' :
  (forall c x c1, x ∈ l -> P c -> f c x = Ok c1 -> P c1 /\ progress c c1) ->
  P c -> foldE f l c = Ok c' ->
  P c' /\ progress c c' /\
  (changed c' = false -> forall x, x ∈ l -> f c x = Ok c).
Proof.
  revert c. induction l as [|a l IH]; intros c Hf Hc H; simpl in H.
  - injection H as <-. split_and!; [done|by left|].
    intros _ x Hx. by apply not_elem_of_nil in Hx.
  - destruct (f c a) as [c1|e] eqn:Ha; [|discriminate].
    destruct (Hf c a c1) as [Hinv Hpr]; [by left|done|done|].
    destruct (IH c1) as (Hinv2 & Hpr2 & Hun); [|done|done|].
    { intros c2 x c3 Hx. apply Hf. by right. }
    split_and!; [done|by eapply progress_trans|].
    intros Hch. specialize (Hun Hch).
    assert (c1 = c) as Heq.
    { destruct Hpr as [?|[Hch1 _]]; [done|].
      destruct Hpr2 as [Hs|[Hch2 _]]; [rewrite Hs in Hch|]; congruence. }
    rewrite Heq in *. intros x [->|Hx]%elem_of_cons; auto.
Qed.

Lemma elem_of_all_targets (m : gmap string (list string)) d :
  d ∈ all_targets m <-> exists k l, m !! k = Some l /\ d ∈ l.
Proof.
  unfold all_targets. apply (map_fold_weak_ind (fun (X : gset string) m =>
    d ∈ X <-> exists k l, m !! k = Some l /\ d ∈ l)).
  - split; [set_solver|]. intros (k & l & H & _). by rewrite lookup_empty in H.
  - intros k l m' X Hk IH. rewrite elem_of_union, elem_of_list_to_set, IH. split.
    + intros [Hd|(k' & l' & H & Hd)].
      * exists k, l. by rewrite lookup_insert_eq.
      * exists k', l'. rewrite lookup_insert_ne; [done|congruence].
    + intros (k' & l' & H & Hd). destruct (decide (k = k')) as [<-|Hne].
      * rewrite lookup_insert_eq in H. simplify_eq. by left.
      * rewrite lookup_insert_ne in H by done. right. eauto.
Qed.

Lemma reverse_inner s l (m : gmap string (list string)) x d :
  d ∈ default [] (foldl (fun rev dep => <[dep := default [] (rev !! dep) ++ [s]]> rev) m l !! x)
  <-> (d = s /\ x ∈ l) \/ d ∈ default [] (m !! x).
Proof.
  revert m. induction l as [|y l IH]; intros m; simpl.
  - split; [by right|]. intros [[_ ?%not_elem_of_nil]|?]; done.
  - rewrite IH, elem_of_cons. destruct (decide (y = x)) as [->|Hne].
    + rewrite lookup_insert_eq; simpl. rewrite elem_of_app, list_elem_of_singleton. tauto.
    + rewrite lookup_insert_ne by done. naive_solver.
Qed.

Lemma reverseDependencies_spec x d :
  d ∈ default [] (reverseDependencies ast !! x) <-> depends ast d x.
Proof.
  unfold reverseDependencies, depends.
  induction ast as [|s l IH] using rev_ind; simpl.
  - split; [by intros ?%not_elem_of_nil|]. by intros (s & ?%not_elem_of_nil & _).
  - rewrite foldl_app; simpl. rewrite reverse_inner, IH. split.
    + intros [[-> Hx]|(s' & ? & ? & ?)]; [exists s|exists s']; set_solver.
    + intros (s' & [Hin|Heq%list_elem_of_singleton]%elem_of_app & Hid & Hx).
      * right. eauto.
      * subst. by left.
Qed.

Lemma depends_in_ids d x : depends ast d x -> d ∈ ids ast.
Proof. intros (s & Hin & <- & _). apply elem_of_ids. eauto. Qed.

Section Phases.
Context (v0 : gmap string StepState).

Lemma route_dependent_phase src srcst c d :
  src ∈ ast -> virtual c !! stepID src = Some srcst -> ssState srcst = StateCompleted ->
  depends ast d (stepID src) -> loop_inv v0 c ->
  let c' := route_dependent src (extractOutcome (ssResult srcst)) c d in
  loop_inv v0 c' /\ progress c c' /\
  (virtual c' !! stepID src = Some srcst) /\
  (changed c' = false -> routed_out src (extractOutcome (ssResult srcst)) d ->
   vstate (virtual c) d <> Some StatePending /\ vstate (virtual c) d <> Some StateReady).
Proof.
  intros Hsrc Hv Hcomp Hdep Hinv. unfold route_dependent.
  case_decide as Htgt; [|split_and!; [done|by left|done|]].
  2:{ intros _ [Hex _]. by rewrite <- elem_of_all_targets in Hex. }
  case_decide as Hall; [split_and!; [done|by left|done|]; by intros _ [_ ?]|].
  destruct (virtual c !! d) as [st|] eqn:Hd;
    [|split_and!; [done|by left|done|]; unfold vstate; by rewrite Hd].
  case_decide as Hs.
  - assert (lstep (virtual c) (mkTransition d (ssState st) StateSkipped TransitionToSkipped
      ReasonOutcomeRouting (extractOutcome (ssResult srcst)))
      (<[d := set_state st StateSkipped]> (virtual c))) as Hstep.
    { eapply lstep_route; eauto. split; [by rewrite <- elem_of_all_targets|done]. }
    destruct (fire_inv v0 c d st StateSkipped TransitionToSkipped ReasonOutcomeRouting
      (extractOutcome (ssResult srcst))) as (? & ? & Hch);
      [done|by eapply depends_in_ids|done|by split|done|].
    split_and!; [done|done| |intros Hf; congruence].
    unfold fire. case_decide; [done|]. simpl. rewrite lookup_insert_ne; [done|].
    intros ->. rewrite Hd in Hv. simplify_eq. destruct Hs; congruence.
  - split_and!; [done|by left|done|]. intros _ _. unfold vstate. rewrite Hd; simpl.
    split; intros [= ?]; auto.
Qed.

Lemma route_fold_phase src srcst l c :
  src ∈ ast -> ssState srcst = StateCompleted ->
  (forall d, d ∈ l -> depends ast d (stepID src)) ->
  virtual c !! stepID src = Some srcst -> loop_inv v0 c ->
  let c' := foldl (route_dependent src (extractOutcome (ssResult srcst))) c l in
  loop_inv v0 c' /\ progress c c' /\
  (changed c' = false -> forall d, d ∈ l ->
     routed_out src (extractOutcome (ssResult srcst)) d ->
     vstate (virtual c) d <> Some StatePending /\ vstate (virtual c) d <> Some StateReady).
Proof.
  intros Hsrc Hcomp Hl Hv Hinv.
  destruct (foldl_phase (fun c => loop_inv v0 c /\ virtual c !! stepID src = Some srcst)
    (route_dependent src (extractOutcome (ssResult srcst))) l c) as ([Hi _] & Hp & Hu); [|done|].
  { intros c1 d Hd [Hc1 Hv1].
    destruct (route_dependent_phase src srcst c1 d) as (? & ? & ? & _); auto. }
  split_and!; [done|done|].
  intros Hch d Hd Hr. specialize (Hu Hch d Hd).
  destruct (route_dependent_phase src srcst c d) as (_ & _ & _ & Hn); auto.
  apply Hn; [|done]. rewrite Hu.
  destruct Hp as [Hp|[Hp _]]; [rewrite Hp in Hch; done|congruence].
Qed.

Lemma route_source_phase src c :
  src ∈ ast -> loop_inv v0 c ->
  let c' := route_source (reverseDependencies ast) c src in
  loop_inv v0 c' /\ progress c c' /\
  (changed c' = false -> forall srcst d,
     virtual c !! stepID src = Some srcst -> ssState srcst = StateCompleted ->
     depends ast d (stepID src) -> routed_out src (extractOutcome (ssResult srcst)) d ->
     vstate (virtual c) d <> Some StatePending /\ vstate (virtual c) d <> Some StateReady).
Proof.
  intros Hsrc Hinv. unfold route_source.
  destruct (virtual c !! stepID src) as [srcst|] eqn:Hv;
    [|split_and!; [done|by left|intros; congruence]].
  case_decide as Hcomp; [|split_and!; [done|by left|intros; congruence]].
  case_decide as Hout.
  - split_and!; [done|by left|]. intros _ srcst' d [= <-] _ _ [(k & l & Hk & _) _].
    by rewrite Hout, lookup_empty in Hk.
  - destruct (route_fold_phase src srcst
      (default [] (reverseDependencies ast !! stepID src)) c) as (Hi & Hp & Hu); auto.
    { intros d. apply reverseDependencies_spec. }
    split_and!; [done|done|]. intros Hch srcst' d [= <-] _ Hd. apply Hu; [done|].
    by apply reverseDependencies_spec.
Qed.

Lemma promote_phase s c c1 :
  s ∈ ast -> loop_inv v0 c -> promote c s = Ok c1 ->
  loop_inv v0 c1 /\ progress c c1 /\
  (changed c1 = false -> vstate (virtual c) (stepID s) = Some StatePending ->
   forall p, ~ promotes (virtual c) s p).
Proof.
  intros Hs Hinv. unfold promote.
  destruct (virtual c !! stepID s) as [st|] eqn:Hv.
  2:{ intros [= <-]. split_and!; [done|by left|]. unfold vstate. by rewrite Hv. }
  case_decide as Hp.
  2:{ intros [= <-]. split_and!; [done|by left|]. unfold vstate. rewrite Hv; simpl. congruence. }
  destruct (promote_rule (virtual c) s) as [[[[to ty] reason]|]|e] eqn:Hr; [| |done].
  - intros [= <-]. pose proof (promote_rule_sound _ _ _ Hr) as Hprom.
    rewrite <- Hp.
    destruct (fire_inv v0 c (stepID s) st to ty reason EmptyString) as (? & ? & Hch).
    + done.
    + apply elem_of_ids; eauto.
    + done.
    + apply promotes_target in Hprom as [[-> ->]|[-> ->]]; simpl; auto.
    + rewrite Hp. eapply lstep_promote; eauto.
    + split_and!; [done|done|congruence].
  - intros [= <-]. split_and!; [done|by left|]. intros _ _.
    by apply promote_rule_complete.
Qed.

Lemma activate_phase s c c1 :
  s ∈ ast -> loop_inv v0 c -> activate evaluator ctx c s = Ok c1 ->
  loop_inv v0 c1 /\ progress c c1 /\
  (changed c1 = false -> vstate (virtual c) (stepID s) <> Some StateReady).
Proof.
  intros Hs Hinv. unfold activate.
  destruct (virtual c !! stepID s) as [st|] eqn:Hv.
  2:{ intros [= <-]. split_and!; [done|by left|]. unfold vstate. by rewrite Hv. }
  case_decide as Hp.
  2:{ intros [= <-]. split_and!; [done|by left|]. unfold vstate. rewrite Hv; simpl. congruence. }
  destruct (activate_rule evaluator ctx s) as [[[to ty] reason]|e] eqn:Hr; [|done].
  intros [= <-]. rewrite <- Hp.
  destruct (fire_inv v0 c (stepID s) st to ty reason EmptyString) as (? & ? & Hch).
  - done.
  - apply elem_of_ids; eauto.
  - done.
  - apply activate_rule_target in Hr as [[-> ->]|[-> ->]]; simpl; auto.
  - rewrite Hp. eapply lstep_activate; eauto.
  - split_and!; [done|done|congruence].
Qed.

End Phases.

(** ** One round *)

(** No step can move: the evaluation has nothing left to do. *)
Definition quiescent (v : gmap string StepState) : Prop :=
  (forall tr v', ~ lstep v tr v') /\
  (forall s, s ∈ ast -> vstate v (stepID s) <> Some StateReady).

Lemma loop_inv_reset v0 c b :
  loop_inv v0 c -> loop_inv v0 (mkLoop (virtual c) (seen c) (transitions c) b).
Proof. intros [H1 H2 H3]. by split. Qed.

Lemma round_phase v0 c c' :
  loop_inv v0 c -> round evaluator ctx ast c = Ok c' ->
  loop_inv v0 c' /\
  (changed c' = true -> (size (seen c) < size (seen c'))%nat) /\
  (changed c' = false ->
     virtual c' = virtual c /\ transitions c' = transitions c /\ quiescent (virtual c)).
Proof.
  intros Hinv H. unfold round in H.
  apply (loop_inv_reset v0 c false) in Hinv.
  set (c0 := mkLoop (virtual c) (seen c) (transitions c) false) in *.
  destruct (foldl_phase (loop_inv v0) (route_source (reverseDependencies ast)) ast c0)
    as (Hi1 & Hp1 & Hu1); [|done|].
  { intros c1 s Hs Hc1. destruct (route_source_phase v0 s c1) as (? & ? & _); auto. }
  set (c1 := foldl _ c0 ast) in *.
  destruct (foldE promote ast c1) as [c2|e] eqn:H2; cbn [mbind result_bind] in H; [|done].
  destruct (foldE_phase (loop_inv v0) promote ast c1 c2) as (Hi2 & Hp2 & Hu2); auto.
  { intros c3 s c4 Hs Hc3 Hf. destruct (promote_phase v0 s c3 c4) as (? & ? & _); auto. }
  destruct (foldE_phase (loop_inv v0) (activate evaluator ctx) ast c2 c') as (Hi3 & Hp3 & Hu3); auto.
  { intros c3 s c4 Hs Hc3 Hf. destruct (activate_phase v0 s c3 c4) as (? & ? & _); auto. }
  pose proof (progress_trans _ _ _ (progress_trans _ _ _ Hp1 Hp2) Hp3) as Hp.
  split_and!; [done| |].
  - intros Hch. destruct Hp as [Hp|[_ Hp]]; [rewrite Hp in Hch; done|exact Hp].
  - intros Hch.
    assert (c' = c2) as E3 by (destruct Hp3 as [?|[? _]]; [done|congruence]).
    assert (c2 = c1) as E2 by (destruct Hp2 as [?|[? _]]; [done|congruence]).
    assert (c1 = c0) as E1 by (destruct Hp1 as [?|[? _]]; [done|congruence]).
    rewrite E3 in *. rewrite E2 in *. rewrite E1 in *.
    split_and!; [done|done|]. split.
    + intros tr v' Hstep.
      destruct Hstep as [src srcst dep st Hsrc Hv Hcomp Hdep Hro Hst Hps
                        |s st to ty reason Hs Hv Hp0 Hprom
                        |s st to ty reason Hs Hv Hr Hrule].
      * destruct (route_source_phase v0 src c0) as (_ & _ & Hn); auto.
        rewrite (Hu1 Hch src Hsrc) in Hn.
        destruct (Hn Hch srcst dep) as [Hn1 Hn2]; auto.
        unfold vstate in Hn1, Hn2. simpl in Hn1, Hn2. rewrite Hst in Hn1, Hn2. simpl in *.
        destruct Hps; congruence.
      * destruct (promote_phase v0 s c0 c0) as (_ & _ & Hn); auto.
        eapply Hn; [done| |exact Hprom]. unfold vstate; simpl. by rewrite Hv, <- Hp0.
      * destruct (activate_phase v0 s c0 c0) as (_ & _ & Hn); auto.
        apply (Hn Hch). unfold vstate; simpl. by rewrite Hv, <- Hr.
    + intros s Hs. destruct (activate_phase v0 s c0 c0) as (_ & _ & Hn); auto.
Qed.

(** ** The loop *)

Lemma rounds_ok v0 f c c' :
  loop_inv v0 c -> rounds evaluator ctx f ast c = Some (Ok c') ->
  loop_inv v0 c' /\ quiescent (virtual c').
Proof.
  revert c. induction f as [|f IH]; intros c Hinv H; simpl in H; [done|].
  destruct (round evaluator ctx ast c) as [c1|e] eqn:Hr; [|done].
  destruct (round_phase v0 c c1 Hinv Hr) as (Hi & _ & Hq).
  destruct (changed c1) eqn:Hch; [by eapply IH|].
  injection H as <-. destruct (Hq eq_refl) as (Hv & _ & Hqq). split; [done|]. by rewrite Hv.
Qed.

Lemma rounds_total v0 f c :
  loop_inv v0 c -> (size all_keys < f + size (seen c))%nat ->
  exists r, rounds evaluator ctx f ast c = Some r.
Proof.
  revert c. induction f as [|f IH]; intros c Hinv Hf.
  - pose proof (subseteq_size _ _ (inv_keys _ _ Hinv)). lia.
  - simpl. destruct (round evaluator ctx ast c) as [c1|e] eqn:Hr; [|eauto].
    destruct (round_phase v0 c c1 Hinv Hr) as (Hi & Hlt & _).
    destruct (changed c1) eqn:Hch; [|eauto]. apply IH; [done|].
    specialize (Hlt eq_refl). lia.
Qed.

Lemma loop_inv_init v0 : loop_inv v0 (mkLoop v0 ∅ [] false).
Proof.
  split; simpl; [constructor| |set_solver].
  intros id; simpl. set_solver.
Qed.

End Props.

(** ** The initial states *)

Lemma init_virtual_keep ast (v : gmap string StepState) x st :
  v !! x = Some st -> init_virtual ast v !! x = Some st.
Proof.
  unfold init_virtual. revert v. induction ast as [|s l IH]; intros v H; simpl; [done|].
  apply IH. destruct (v !! stepID s) eqn:Hs; [done|].
  rewrite lookup_insert_ne; [done|congruence].
Qed.

Lemma init_virtual_present ast (v : gmap string StepState) s :
  s ∈ ast -> is_Some (init_virtual ast v !! stepID s).
Proof.
  unfold init_virtual. revert v. induction ast as [|s' l IH]; intros v Hin; simpl.
  - by apply not_elem_of_nil in Hin.
  - apply elem_of_cons in Hin as [->|Hin]; [|by apply IH].
    destruct (v !! stepID s') as [st|] eqn:Hs.
    + exists st. by apply init_virtual_keep.
    + eexists. apply init_virtual_keep. apply lookup_insert_eq.
Qed.

Lemma init_virtual_id ast (v : gmap string StepState) :
  (forall s, s ∈ ast -> is_Some (v !! stepID s)) -> init_virtual ast v = v.
Proof.
  unfold init_virtual. revert v. induction ast as [|s l IH]; intros v H; simpl; [done|].
  destruct (H s) as [st Hst]; [by left|]. rewrite Hst. apply IH.
  intros s' Hs'. apply H. by right.
Qed.

Section Runs.
Context (evaluator : option (string -> json -> result goerr bool)) (ctx : json).
Context (ast : WorkflowAST).

#[local] Abbreviation step := (lstep evaluator ctx ast).
#[local] Abbreviation run := (lsteps evaluator ctx ast).

Definition rank (s : step_state) : nat :=
  match s with StatePending => 0 | StateReady => 1 | _ => 2 end.

(** A transition changes the state of its own step, and raises its rank. *)
Lemma lstep_effect v tr v' :
  step v tr v' ->
  exists st, v !! trStepID tr = Some st /\ ssState st = trFrom tr /\
    v' = <[trStepID tr := set_state st (trTo tr)]> v /\
    legal (trFrom tr) (trTo tr) (trType tr) /\ trStepID tr ∈ ids ast.
Proof.
  destruct 1 as [src srcst dep st Hsrc Hv Hcomp Hdep Hro Hst Hps
                |s st to ty reason Hs Hv Hp0 Hprom
                |s st to ty reason Hs Hv Hr Hrule]; simpl.
  - exists st. split_and!; try done. by eapply depends_in_ids.
  - exists st. split_and!; try done; [|apply elem_of_ids; eauto].
    apply promotes_target in Hprom as [[-> ->]|[-> ->]]; simpl; auto.
  - exists st. split_and!; try done; [|apply elem_of_ids; eauto].
    apply activate_rule_target in Hrule as [[-> ->]|[-> ->]]; simpl; auto.
Qed.

Lemma legal_rank from to ty : legal from to ty -> (rank from < rank to)%nat.
Proof. destruct ty; simpl; intros [? ->]; naive_solver. Qed.

Lemma lstep_lookup v tr v' x st :
  step v tr v' -> v !! x = Some st ->
  exists s, v' !! x = Some (set_state st s) /\ (rank (ssState st) <= rank s)%nat /\
    ((2 <= rank (ssState st))%nat -> s = ssState st).
Proof.
  intros Hs Hx. destruct (lstep_effect _ _ _ Hs) as (st0 & H0 & Hf & -> & Hl & _).
  destruct (decide (trStepID tr = x)) as [<-|Hne].
  - rewrite H0 in Hx. simplify_eq. exists (trTo tr). rewrite lookup_insert_eq.
    apply legal_rank in Hl as Hr. rewrite Hf. split_and!; [done|lia|].
    intros Hge. destruct (trType tr); simpl in Hl; destruct Hl as [Hl _];
      try destruct Hl as [Hl|Hl]; rewrite Hl in Hge; simpl in Hge; lia.
  - exists (ssState st). rewrite lookup_insert_ne by done. rewrite Hx. by destruct st.
Qed.

Lemma lsteps_lookup v trs v' x st :
  run v trs v' -> v !! x = Some st ->
  exists s, v' !! x = Some (set_state st s) /\ (rank (ssState st) <= rank s)%nat /\
    ((2 <= rank (ssState st))%nat -> s = ssState st).
Proof.
  intros Hr. revert st. induction Hr as [v|v tr v1 trs v2 Hs Hr IH]; intros st Hx.
  - exists (ssState st). rewrite Hx. by destruct st.
  - destruct (lstep_lookup _ _ _ _ _ Hs Hx) as (s1 & H1 & Hr1 & Hk1).
    destruct (IH _ H1) as (s2 & H2 & Hr2 & Hk2). simpl in *.
    exists s2. rewrite H2. split_and!; [done|lia|].
    intros Hge. rewrite Hk2; [by apply Hk1|]. rewrite Hk1 by done. done.
Qed.

(** Active, completed, failed and skipped steps do not move. *)
Lemma lsteps_settled v trs v' x st :
  run v trs v' -> v !! x = Some st -> (2 <= rank (ssState st))%nat -> v' !! x = Some st.
Proof.
  intros Hr Hx Hge. destruct (lsteps_lookup _ _ _ _ _ Hr Hx) as (s & Hs & _ & Hk).
  rewrite Hs, Hk by done. by destruct st.
Qed.

Lemma lsteps_transition v trs v' tr :
  run v trs v' -> tr ∈ trs ->
  exists st, v !! trStepID tr = Some st /\ (rank (ssState st) <= rank (trFrom tr))%nat /\
    legal (trFrom tr) (trTo tr) (trType tr) /\ trStepID tr ∈ ids ast.
Proof.
  intros Hr. induction Hr as [v|v tr0 v1 trs v2 Hs Hr IH]; intros Hin.
  - by apply not_elem_of_nil in Hin.
  - destruct (lstep_effect _ _ _ Hs) as (st0 & H0 & Hf & Hv1 & Hl & Hid).
    apply elem_of_cons in Hin as [->|Hin].
    + exists st0. rewrite Hf. split_and!; [done|lia|done|done].
    + destruct (IH Hin) as (st1 & H1 & Hrk & Hl1 & Hid1). subst v1.
      destruct (decide (trStepID tr0 = trStepID tr)) as [Heq|Hne].
      * rewrite Heq, lookup_insert_eq in H1. simplify_eq. simpl in Hrk.
        exists st0. rewrite <- Heq. split_and!; [done| |done|by rewrite Heq].
        apply legal_rank in Hl. rewrite Hf. lia.
      * rewrite lookup_insert_ne in H1 by done. eauto.
Qed.

(** No step takes the same kind of transition twice. *)
Lemma lsteps_nodup v trs v' :
  run v trs v' -> NoDup (map (fun tr => (trStepID tr, trType tr)) trs).
Proof.
  intros Hr. induction Hr as [v|v tr v1 trs v2 Hs Hr IH]; simpl; [apply NoDup_nil_2|].
  apply NoDup_cons. split; [|done].
  intros (tr' & Heq & Hin)%list_elem_of_fmap. injection Heq as Hid Hty.
  destruct (lstep_effect _ _ _ Hs) as (st0 & H0 & Hf & -> & Hl & _).
  destruct (lsteps_transition _ _ _ _ Hr Hin) as (st1 & H1 & Hrk & Hl1 & _).
  rewrite <- Hid, lookup_insert_eq in H1. simplify_eq. simpl in Hrk.
  assert (trTo tr' = trTo tr) as Hto.
  { rewrite <- Hty in Hl1. destruct (trType tr); simpl in Hl, Hl1;
      destruct Hl as [_ ->], Hl1 as [_ ->]; reflexivity. }
  apply legal_rank in Hl1. rewrite Hto in Hl1. lia.
Qed.

Lemma vstate_lookup (v : gmap string StepState) x s :
  vstate v x = Some s <-> exists st, v !! x = Some st /\ ssState st = s.
Proof.
  unfold vstate. destruct (v !! x) as [st|]; simpl; split.
  - intros [= <-]. eauto.
  - intros (st' & [= <-] & <-). done.
  - done.
  - by intros (st' & ? & _).
Qed.

Lemma isTerminal_rank s : isTerminal (Some s) = true -> (2 <= rank s)%nat.
Proof. by destruct s; simpl; auto. Qed.

Lemma vstate_settled v trs v' x s :
  run v trs v' -> vstate v x = Some s -> (2 <= rank s)%nat -> vstate v' x = Some s.
Proof.
  intros Hr Hv Hge. apply vstate_lookup in Hv as (st & Hst & <-).
  apply vstate_lookup. exists st. split; [|done]. by eapply lsteps_settled.
Qed.

Lemma isTerminal_settled v trs v' x :
  run v trs v' -> isTerminal (vstate v x) = true -> isTerminal (vstate v' x) = true.
Proof.
  intros Hr Ht. destruct (vstate v x) as [s|] eqn:Hv; [|done].
  rewrite (vstate_settled _ _ _ _ _ Hr Hv); [done|]. by apply isTerminal_rank.
Qed.

(** What made a step ready still holds at the end of the evaluation. *)
Lemma promotes_ready_mono v trs v' s reason :
  run v trs v' -> promotes v s (StateReady, TransitionToReady, reason) ->
  promotes v' s (StateReady, TransitionToReady, reason).
Proof.
  intros Hr Hp. inversion Hp; subst.
  - by apply promotes_root.
  - eapply promotes_all; eauto using isTerminal_settled, vstate_settled.
  - eapply promotes_any; eauto using isTerminal_settled.
Qed.

Lemma lsteps_final_active v trs v' tr :
  run v trs v' -> tr ∈ trs -> trTo tr = StateActive -> vstate v' (trStepID tr) = Some StateActive.
Proof.
  intros Hr. induction Hr as [v|v tr0 v1 trs v2 Hs Hr IH]; intros Hin Hto.
  - by apply not_elem_of_nil in Hin.
  - apply elem_of_cons in Hin as [->|Hin]; [|by apply IH].
    destruct (lstep_effect _ _ _ Hs) as (st0 & _ & _ & -> & _).
    eapply vstate_settled; [exact Hr| |simpl; lia].
    by rewrite vstate_insert, decide_True, Hto.
Qed.

Lemma lsteps_activated v trs v' x :
  run v trs v' -> vstate v x <> Some StateActive -> vstate v' x = Some StateActive ->
  exists s reason, s ∈ ast /\ stepID s = x /\
    activate_rule evaluator ctx s = Ok (StateActive, TransitionToActive, reason).
Proof.
  intros Hr. induction Hr as [v|v tr v1 trs v2 Hs Hr IH]; intros Hv Hv'; [done|].
  destruct (decide (vstate v1 x = Some StateActive)) as [Ha|Ha]; [|by apply IH].
  clear IH. destruct Hs as [src srcst dep st Hsrc Hsv Hcomp Hdep Hro Hst Hps
                |s st to ty reason Hs Hsv Hp0 Hprom
                |s st to ty reason Hs Hsv Hr0 Hrule];
    rewrite vstate_insert in Ha; case_decide as Hd; try done.
  - apply promotes_target in Hprom as [[-> _]|[-> _]]; done.
  - injection Ha as ->. exists s, reason.
    apply activate_rule_target in Hrule as Ht.
    destruct Ht as [[_ ->]|[? _]]; [|done]. by rewrite <- Hd.
Qed.

Lemma lsteps_promoted v trs v' x :
  run v trs v' -> vstate v x = Some StatePending ->
  vstate v' x = Some StateReady \/ vstate v' x = Some StateActive ->
  exists s reason, s ∈ ast /\ stepID s = x /\
    promotes v' s (StateReady, TransitionToReady, reason).
Proof.
  intros Hr. induction Hr as [v|v tr v1 trs v2 Hs Hr IH]; intros Hv Hv'.
  { rewrite Hv in Hv'. by destruct Hv'. }
  destruct (decide (vstate v1 x = Some StatePending)) as [Ha|Ha]; [by apply IH|].
  assert (vstate v1 x <> Some StateSkipped) as Hns.
  { intros Hk. rewrite (vstate_settled _ _ _ _ _ Hr Hk) in Hv' by (simpl; lia).
    by destruct Hv'. }
  destruct Hs as [src srcst dep st Hsrc Hsv Hcomp Hdep Hro Hst Hps
                |s st to ty reason Hs Hsv Hp0 Hprom
                |s st to ty reason Hs Hsv Hr0 Hrule];
    rewrite vstate_insert in Ha, Hns; case_decide as Hd; try done.
  - destruct (promotes_target _ _ _ _ _ Hprom) as [[-> ->]|[-> ->]]; [|done].
    exists s, reason. split_and!; [done|done|].
    eapply promotes_ready_mono; [|exact Hprom].
    eapply lsteps_cons; [|exact Hr]. by eapply lstep_promote.
  - exfalso. subst x. unfold vstate in Hv. rewrite Hsv in Hv. simpl in Hv. congruence.
Qed.

End Runs.
