(* ===== verification/EngineComputeClaims.v ===== *)
(** * What a run of the DAG evaluation guarantees

    The results of [EngineComputeProps] put together for [evaluate] and
    [computeTransitions]: refinement of the life cycle, quiescence, exclusive
    routing, and idempotence. *)

From S2P Require Import Prelude GoStrings Json EngineTypes EngineAst EngineCompute EngineComputeProps.

(** ** Routing happens before any activation *)

Section Routing.
Context (evaluator : option (string -> json -> result goerr bool)) (ctx : json).
Context (ast : WorkflowAST) (v0 : gmap string StepState).

Definition skippable (o : option step_state) : Prop :=
  o = Some StatePending \/ o = Some StateReady \/ o = Some StateSkipped.

Lemma fire_vstate c st id from to ty reason out x :
  vstate (virtual (fire c st id from to ty reason out)) x =
  if decide (id = x) then
    if decide (seen_key id ty ∈ seen c) then vstate (virtual c) x else Some to
  else vstate (virtual c) x.
Proof.
  unfold fire. repeat case_decide; simpl; rewrite ?vstate_insert; repeat case_decide; done.
Qed.

(** A dependent keeps its state or is skipped. *)
Lemma route_dependent_vstate src sel c d x :
  vstate (virtual (route_dependent src sel c d)) x = vstate (virtual c) x \/
  vstate (virtual (route_dependent src sel c d)) x = Some StateSkipped.
Proof.
  unfold route_dependent. repeat case_match; auto. rewrite fire_vstate.
  repeat case_decide; auto.
Qed.

Lemma foldl_vstate {A} (f : loop_state -> A -> loop_state) l c x :
  (forall c a, vstate (virtual (f c a)) x = vstate (virtual c) x \/
               vstate (virtual (f c a)) x = Some StateSkipped) ->
  vstate (virtual (foldl f c l)) x = vstate (virtual c) x \/
  vstate (virtual (foldl f c l)) x = Some StateSkipped.
Proof.
  intros Hf. revert c. induction l as [|a l IH]; intros c; simpl; [by left|].
  destruct (IH (f c a)) as [->|H]; [apply Hf|by right].
Qed.

Lemma route_source_vstate rev c src x :
  vstate (virtual (route_source rev c src)) x = vstate (virtual c) x \/
  vstate (virtual (route_source rev c src)) x = Some StateSkipped.
Proof.
  unfold route_source. repeat case_match; auto. apply foldl_vstate.
  intros. apply route_dependent_vstate.
Qed.

Lemma foldl_skippable {A} (f : loop_state -> A -> loop_state) l c x :
  (forall c a, vstate (virtual (f c a)) x = vstate (virtual c) x \/
               vstate (virtual (f c a)) x = Some StateSkipped) ->
  skippable (vstate (virtual c) x) -> skippable (vstate (virtual (foldl f c l)) x).
Proof.
  intros Hf Hs. destruct (foldl_vstate f l c x Hf) as [->| ->]; [done|].
  by right; right.
Qed.

Lemma foldl_skipped {A} (f : loop_state -> A -> loop_state) l c x :
  (forall c a, vstate (virtual (f c a)) x = vstate (virtual c) x \/
               vstate (virtual (f c a)) x = Some StateSkipped) ->
  vstate (virtual c) x = Some StateSkipped ->
  vstate (virtual (foldl f c l)) x = Some StateSkipped.
Proof. intros Hf Hs. destruct (foldl_vstate f l c x Hf) as [->| ->]; done. Qed.

(** A completed step is not touched. *)
Lemma route_dependent_keeps src sel c d x st :
  ssState st = StateCompleted -> virtual c !! x = Some st ->
  virtual (route_dependent src sel c d) !! x = Some st.
Proof.
  intros Hc Hx. unfold route_dependent. case_decide; [|exact Hx].
  case_decide; [exact Hx|].
  destruct (virtual c !! d) as [s|] eqn:Hd; [|exact Hx]. case_decide as Hs; [|exact Hx].
  unfold fire. destruct (decide _); [exact Hx|]. simpl. rewrite lookup_insert_ne; [exact Hx|].
  intros ->. destruct Hs; congruence.
Qed.

Lemma foldl_keeps {A} (f : loop_state -> A -> loop_state) l c x st :
  (forall c a, virtual c !! x = Some st -> virtual (f c a) !! x = Some st) ->
  virtual c !! x = Some st -> virtual (foldl f c l) !! x = Some st.
Proof. intros Hf. revert c. induction l; intros c Hx; simpl; auto. Qed.

Lemma route_source_keeps rev c src x st :
  ssState st = StateCompleted -> virtual c !! x = Some st ->
  virtual (route_source rev c src) !! x = Some st.
Proof.
  intros Hc Hx. unfold route_source. repeat case_match; auto.
  apply foldl_keeps; [|done]. intros. by apply route_dependent_keeps.
Qed.

(** The dependent itself. *)
Lemma route_dependent_skips src sel c d :
  loop_inv evaluator ctx ast v0 c -> routed_out src sel d ->
  skippable (vstate (virtual c) d) ->
  vstate (virtual (route_dependent src sel c d)) d = Some StateSkipped.
Proof.
  intros Hinv [Ht Hn] Hs. unfold route_dependent.
  rewrite decide_True by (by apply elem_of_all_targets). rewrite decide_False by done.
  destruct (virtual c !! d) as [st|] eqn:Hd.
  2:{ unfold vstate in Hs. rewrite Hd in Hs. simpl in Hs. by destruct Hs as [?|[?|?]]. }
  assert (vstate (virtual c) d = Some (ssState st)) as Hv by (unfold vstate; by rewrite Hd).
  case_decide as Hps.
  - rewrite fire_vstate, decide_True by done. rewrite decide_False; [done|].
    by eapply (fire_unseen _ _ _ _ _ _ _ StateSkipped).
  - rewrite Hv in *. destruct Hs as [[= Hs]|[[= Hs]|[= Hs]]]; [tauto|tauto|by rewrite Hs].
Qed.

Lemma route_source_skips src c srcst d :
  src ∈ ast -> loop_inv evaluator ctx ast v0 c ->
  virtual c !! stepID src = Some srcst -> ssState srcst = StateCompleted ->
  depends ast d (stepID src) -> routed_out src (extractOutcome (ssResult srcst)) d ->
  skippable (vstate (virtual c) d) ->
  vstate (virtual (route_source (reverseDependencies ast) c src)) d = Some StateSkipped.
Proof.
  intros Hsrc Hinv Hv Hcomp Hdep Hro Hs. unfold route_source. rewrite Hv.
  rewrite decide_True by done. rewrite decide_False.
  2:{ intros He. destruct Hro as [(k & l & Hk & _) _]. by rewrite He, lookup_empty in Hk. }
  pose proof (proj2 (reverseDependencies_spec ast (stepID src) d) Hdep) as Hin.
  apply list_elem_of_split in Hin as (l1 & l2 & Hl). rewrite Hl, foldl_app; simpl.
  apply foldl_skipped; [intros; apply route_dependent_vstate|].
  apply route_dependent_skips; [|done|].
  - eapply (route_fold_phase evaluator ctx ast v0 src srcst l1 c); auto.
    intros d' Hd'. apply reverseDependencies_spec. rewrite Hl. set_solver.
  - apply foldl_skippable; [intros; apply route_dependent_vstate|done].
Qed.

Lemma routing_skips src c srcst d :
  src ∈ ast -> loop_inv evaluator ctx ast v0 c ->
  virtual c !! stepID src = Some srcst -> ssState srcst = StateCompleted ->
  depends ast d (stepID src) -> routed_out src (extractOutcome (ssResult srcst)) d ->
  skippable (vstate (virtual c) d) ->
  vstate (virtual (foldl (route_source (reverseDependencies ast)) c ast)) d = Some StateSkipped.
Proof.
  intros Hsrc Hinv Hv Hcomp Hdep Hro Hs.
  assert (exists l1 l2, ast = l1 ++ src :: l2) as (l1 & l2 & Hl) by (by apply list_elem_of_split).
  set (rev := reverseDependencies ast). rewrite Hl, foldl_app; simpl.
  apply foldl_skipped; [intros; apply route_source_vstate|].
  assert (loop_inv evaluator ctx ast v0 (foldl (route_source rev) c l1) /\
          progress c (foldl (route_source rev) c l1)) as [Hi _].
  { destruct (foldl_phase (loop_inv evaluator ctx ast v0) (route_source rev) l1 c) as (? & ? & _);
      [|done|done].
    intros c1 s Hs1 Hc1. destruct (route_source_phase evaluator ctx ast v0 s c1) as (? & ? & _);
      [rewrite Hl; set_solver|done|done]. }
  apply (route_source_skips src _ srcst); try done.
  - apply foldl_keeps; [|done]. intros. by apply route_source_keeps.
  - apply foldl_skippable; [intros; apply route_source_vstate|done].
Qed.

(** ** A skipped step stays skipped for the rest of the evaluation *)

Lemma fire_keeps_skipped c st id from to ty reason out x :
  virtual c !! id = Some st -> ssState st <> StateSkipped ->
  vstate (virtual c) x = Some StateSkipped ->
  vstate (virtual (fire c st id from to ty reason out)) x = Some StateSkipped.
Proof.
  intros Hid Hn Hx. rewrite fire_vstate. case_decide as Hd; [|done].
  subst x. unfold vstate in Hx. rewrite Hid in Hx. simpl in Hx. congruence.
Qed.

Lemma promote_keeps_skipped s c c' x :
  promote c s = Ok c' -> vstate (virtual c) x = Some StateSkipped ->
  vstate (virtual c') x = Some StateSkipped.
Proof.
  unfold promote. destruct (virtual c !! stepID s) as [st|] eqn:Hv; [|by intros [= <-]].
  case_decide as Hp; [|by intros [= <-]].
  destruct (promote_rule (virtual c) s) as [[[[to ty] reason]|]|]; intros [= <-]; [|done].
  apply fire_keeps_skipped; [done|congruence].
Qed.

Lemma activate_keeps_skipped s c c' x :
  activate evaluator ctx c s = Ok c' -> vstate (virtual c) x = Some StateSkipped ->
  vstate (virtual c') x = Some StateSkipped.
Proof.
  unfold activate. destruct (virtual c !! stepID s) as [st|] eqn:Hv; [|by intros [= <-]].
  case_decide as Hp; [|by intros [= <-]].
  destruct (activate_rule evaluator ctx s) as [[[to ty] reason]|]; intros [= <-].
  apply fire_keeps_skipped; [done|congruence].
Qed.

Lemma round_skipped c c' x :
  round evaluator ctx ast c = Ok c' ->
  vstate (virtual (foldl (route_source (reverseDependencies ast))
    (mkLoop (virtual c) (seen c) (transitions c) false) ast)) x = Some StateSkipped ->
  vstate (virtual c') x = Some StateSkipped.
Proof.
  unfold round. set (c1 := foldl _ _ _). intros H Hx.
  destruct (foldE promote ast c1) as [c2|e] eqn:H2; cbn [mbind result_bind] in H; [|done].
  assert (vstate (virtual c2) x = Some StateSkipped) as Hx2.
  { eapply (foldE_invariant _ (fun c => vstate (virtual c) x = Some StateSkipped));
      [|exact Hx|exact H2].
    intros. by eapply promote_keeps_skipped. }
  eapply (foldE_invariant _ (fun c => vstate (virtual c) x = Some StateSkipped));
    [|exact Hx2|exact H].
  intros. by eapply activate_keeps_skipped.
Qed.

Lemma rounds_skipped f c c' x :
  rounds evaluator ctx f ast c = Some (Ok c') ->
  vstate (virtual c) x = Some StateSkipped -> vstate (virtual c') x = Some StateSkipped.
Proof.
  revert c. induction f as [|f IH]; intros c H Hx; simpl in H; [done|].
  destruct (round evaluator ctx ast c) as [c1|e] eqn:Hr; [|done].
  assert (vstate (virtual c1) x = Some StateSkipped) as Hx1.
  { eapply round_skipped; [done|]. apply foldl_skipped; [|done].
    intros; apply route_source_vstate. }
  destruct (changed c1); [by eapply IH|]. by injection H as <-.
Qed.

End Routing.

(** ** The whole evaluation *)

Section Evaluate.
Context (evaluator : option (string -> json -> result goerr bool)) (ctx : json).
Context (ast : WorkflowAST) (states : gmap string StepState).

Lemma evaluate_fuel :
  exists r, rounds evaluator ctx (eval_fuel ast) ast
    (mkLoop (init_virtual ast states) ∅ [] false) = Some r.
Proof.
  eapply rounds_total; [apply loop_inv_init|]. simpl. unfold eval_fuel.
  pose proof (all_keys_size ast). lia.
Qed.

Lemma evaluate_ok c :
  evaluate evaluator ctx ast states = Ok c ->
  wf_ast ast /\ loop_inv evaluator ctx ast (init_virtual ast states) c /\
  quiescent evaluator ctx ast (virtual c).
Proof.
  unfold evaluate. destruct (ValidateAST ast) as [[]|e] eqn:Hval; cbn [mbind result_bind]; [|done].
  destruct (rounds _ _ _ _ _) as [r|] eqn:Hr; [|done]. intros ->.
  split; [by apply ValidateAST_iff|]. eapply rounds_ok; [apply loop_inv_init|exact Hr].
Qed.

Lemma evaluate_routes c src srcst d :
  evaluate evaluator ctx ast states = Ok c ->
  src ∈ ast -> states !! stepID src = Some srcst -> ssState srcst = StateCompleted ->
  depends ast d (stepID src) -> routed_out src (extractOutcome (ssResult srcst)) d ->
  skippable (vstate (init_virtual ast states) d) ->
  vstate (virtual c) d = Some StateSkipped.
Proof.
  unfold evaluate. intros H Hsrc Hst Hcomp Hdep Hro Hs.
  destruct (ValidateAST ast) as [[]|e]; cbn [mbind result_bind] in H; [|done].
  destruct (rounds _ _ _ _ _) as [r|] eqn:Hr; [|done]. subst r.
  unfold eval_fuel in Hr. cbn [rounds] in Hr.
  destruct (round _ _ _ _) as [c1|e] eqn:Hc1; [|done].
  assert (vstate (virtual c1) d = Some StateSkipped) as Hd.
  { eapply round_skipped; [exact Hc1|].
    eapply (routing_skips evaluator ctx ast (init_virtual ast states) src _ srcst); try done.
    - apply loop_inv_init.
    - by apply init_virtual_keep. }
  destruct (changed c1); [by eapply rounds_skipped|]. by injection Hr as <-.
Qed.

Lemma foldl_fix {S A} (f : S -> A -> S) l s :
  (forall x, x ∈ l -> f s x = s) -> foldl f s l = s.
Proof.
  intros H. induction l as [|a l IH]; simpl; [done|]. rewrite (H a) by left.
  apply IH. intros x Hx. apply H. by right.
Qed.

Lemma foldE_fix {S A} (f : S -> A -> result goerr S) l s :
  (forall x, x ∈ l -> f s x = Ok s) -> foldE f l s = Ok s.
Proof.
  intros H. induction l as [|a l IH]; simpl; [done|]. rewrite (H a) by left.
  apply IH. intros x Hx. apply H. by right.
Qed.

Lemma quiescent_route c src :
  quiescent evaluator ctx ast (virtual c) -> src ∈ ast ->
  route_source (reverseDependencies ast) c src = c.
Proof.
  intros [Hq _] Hsrc. unfold route_source.
  destruct (virtual c !! stepID src) as [srcst|] eqn:Hv; [|done].
  case_decide as Hc; [|done]. case_decide; [done|].
  apply foldl_fix. intros d Hd%reverseDependencies_spec.
  unfold route_dependent. case_decide as Ht; [|done]. case_decide as Hn; [done|].
  destruct (virtual c !! d) as [st|] eqn:Hdst; [|done]. case_decide as Hps; [|done].
  exfalso. eapply Hq. eapply lstep_route; eauto.
  split; [by apply elem_of_all_targets|exact Hn].
Qed.

Lemma quiescent_promote c s :
  quiescent evaluator ctx ast (virtual c) -> s ∈ ast ->
  (normalizedJoin (stepJoin s) = "all" \/ normalizedJoin (stepJoin s) = "any") ->
  promote c s = Ok c.
Proof.
  intros [Hq _] Hs Hj. unfold promote.
  destruct (virtual c !! stepID s) as [st|] eqn:Hv; [|done]. case_decide as Hp; [|done].
  destruct (promote_rule (virtual c) s) as [[[[to ty] reason]|]|e] eqn:Hr; [|done|].
  - exfalso. eapply Hq. eapply lstep_promote; eauto. by apply promote_rule_sound.
  - exfalso. revert Hr. unfold promote_rule. repeat case_decide; repeat case_match; try discriminate.
    tauto.
Qed.

Lemma quiescent_activate c s :
  quiescent evaluator ctx ast (virtual c) -> s ∈ ast ->
  activate evaluator ctx c s = Ok c.
Proof.
  intros [_ Hq] Hs. unfold activate.
  destruct (virtual c !! stepID s) as [st|] eqn:Hv; [|done]. case_decide as Hp; [|done].
  exfalso. apply (Hq s Hs). unfold vstate. rewrite Hv. simpl. by rewrite Hp.
Qed.

Lemma quiescent_round v :
  (forall s, s ∈ ast -> normalizedJoin (stepJoin s) = "all" \/ normalizedJoin (stepJoin s) = "any") ->
  quiescent evaluator ctx ast v ->
  round evaluator ctx ast (mkLoop v ∅ [] false) = Ok (mkLoop v ∅ [] false).
Proof.
  intros Hj Hq. unfold round. set (c := mkLoop v ∅ [] false). simpl.
  change (mkLoop v ∅ [] false) with c.
  rewrite foldl_fix by (intros; by apply quiescent_route).
  rewrite foldE_fix by (intros; apply quiescent_promote; auto).
  cbn [mbind result_bind]. apply foldE_fix. intros s Hs. by apply quiescent_activate.
Qed.

Lemma evaluate_again c :
  evaluate evaluator ctx ast states = Ok c ->
  evaluate evaluator ctx ast (virtual c) = Ok (mkLoop (virtual c) ∅ [] false).
Proof.
  intros H. destruct (evaluate_ok c H) as (Hwf & Hinv & Hq).
  unfold evaluate. rewrite (proj2 (ValidateAST_iff ast) Hwf). cbn [mbind result_bind].
  rewrite init_virtual_id.
  - unfold eval_fuel. cbn [rounds]. rewrite quiescent_round; [done| |done].
    apply (wf_joins _ (wf_is_shape _ Hwf)).
  - intros s Hs. destruct (init_virtual_present ast states s Hs) as [st Hst].
    destruct (lsteps_lookup _ _ _ _ _ _ _ _ (inv_run _ _ _ _ _ Hinv) Hst) as (s' & Hs' & _).
    eauto.
Qed.

End Evaluate.

(** ** Errors come only from the AST and the guards *)

Section Success.
Context (evaluator : option (string -> json -> result goerr bool)) (ctx : json).
Context (ast : WorkflowAST).

(** Every guard of the workflow evaluates. *)
Definition guards_evaluate : Prop :=
  forall s, s ∈ ast -> stepCondition s = "" \/
    exists ev b, evaluator = Some ev /\ ev (stepCondition s) ctx = Ok b.

Lemma foldE_succeeds {S A} (f : S -> A -> result goerr S) l s :
  (forall s x, x ∈ l -> exists s', f s x = Ok s') -> exists s', foldE f l s = Ok s'.
Proof.
  intros H. revert s. induction l as [|a l IH]; intros s; simpl; [eauto|].
  destruct (H s a) as [s1 ->]; [by left|]. apply IH. intros s' x Hx. apply H. by right.
Qed.

Lemma promote_succeeds c s : wf_shape ast -> s ∈ ast -> exists c', promote c s = Ok c'.
Proof.
  intros Hw Hs. unfold promote. destruct (virtual c !! stepID s) as [st|]; [|eauto].
  case_decide; [|eauto].
  destruct (promote_rule (virtual c) s) as [[[[to ty] reason]|]|e] eqn:Hr; [eauto|eauto|].
  exfalso. revert Hr. unfold promote_rule. destruct (wf_joins _ Hw s Hs) as [Hj|Hj]; rewrite Hj;
    repeat case_decide; repeat case_match; done.
Qed.

Lemma activate_succeeds c s :
  guards_evaluate -> s ∈ ast -> exists c', activate evaluator ctx c s = Ok c'.
Proof.
  intros Hg Hs. unfold activate. destruct (virtual c !! stepID s) as [st|]; [|eauto].
  case_decide; [|eauto]. unfold activate_rule. case_decide as Hc; [eauto|].
  destruct (Hg s Hs) as [?|(ev & b & -> & ->)]; [done|]. destruct b; eauto.
Qed.

Lemma rounds_succeed f c r :
  wf_shape ast -> guards_evaluate -> rounds evaluator ctx f ast c = Some r -> exists c', r = Ok c'.
Proof.
  intros Hw Hg. revert c. induction f as [|f IH]; intros c H; simpl in H; [done|].
  unfold round in H. set (c1 := foldl _ _ _) in H.
  destruct (foldE_succeeds promote ast c1) as [c2 H2]; [intros; by apply promote_succeeds|].
  rewrite H2 in H. cbn [mbind result_bind] in H.
  destruct (foldE_succeeds (activate evaluator ctx) ast c2) as [c3 H3];
    [intros; by apply activate_succeeds|].
  rewrite H3 in H. destruct (changed c3); [by eapply IH|]. injection H as <-. eauto.
Qed.

End Success.

(** ** The claims *)

Lemma computeTransitions_inv evaluator ctx ast states trs :
  computeTransitions evaluator ctx ast states = Ok trs ->
  exists c, evaluate evaluator ctx ast states = Ok c /\ transitions c = trs.
Proof.
  unfold computeTransitions. destruct (evaluate _ _ _ _) as [c|]; intros [= <-]. eauto.
Qed.

Lemma computeTransitions_moves evaluator ctx ast states trs tr :
  computeTransitions evaluator ctx ast states = Ok trs -> tr ∈ trs ->
  legal (trFrom tr) (trTo tr) (trType tr) /\ trStepID tr ∈ ids ast.
Proof.
  intros (c & Hc & <-)%computeTransitions_inv Htr.
  destruct (evaluate_ok _ _ _ _ _ Hc) as (_ & [Hrun _ _] & _).
  destruct (lsteps_transition _ _ _ _ _ _ _ Hrun Htr) as (st & _ & _ & Hl & Hid). done.
Qed.

(** C2. Refinement: the transitions [computeTransitions] returns are a run of
    the life cycle relation from the given states (steps without a row are
    pending), in the order returned, and the run is maximal: it ends in states
    from which no transition is possible and in which no step is ready. *)
Theorem computeTransitions_refines evaluator ctx ast states trs :
  computeTransitions evaluator ctx ast states = Ok trs ->
  exists v', lsteps evaluator ctx ast (init_virtual ast states) trs v' /\
    quiescent evaluator ctx ast v'.
Proof.
  intros (c & Hc & <-)%computeTransitions_inv.
  destruct (evaluate_ok _ _ _ _ _ Hc) as (_ & Hinv & Hq).
  exists (virtual c). split; [apply Hinv|done].
Qed.

(** Termination and totality: the loop of [computeTransitions] ends within
    three rounds per step and one more, on every input; on a well-formed
    workflow whose guards evaluate it returns transitions, and on an ill-formed
    one it returns an error. *)
Theorem computeTransitions_total evaluator ctx ast states :
  (exists r, rounds evaluator ctx (S (3 * length ast)) ast
     (mkLoop (init_virtual ast states) ∅ [] false) = Some r) /\
  (wf_ast ast -> guards_evaluate evaluator ctx ast ->
     exists trs, computeTransitions evaluator ctx ast states = Ok trs) /\
  (~ wf_ast ast -> exists e, computeTransitions evaluator ctx ast states = Err e).
Proof.
  pose proof (evaluate_fuel evaluator ctx ast states) as [r Hr].
  split_and!; [by exists r| |]; unfold computeTransitions, evaluate.
  - intros Hw Hg. rewrite (proj2 (ValidateAST_iff ast) Hw), Hr. cbn [mbind result_bind].
    destruct (rounds_succeed _ _ _ _ _ _ (wf_is_shape _ Hw) Hg Hr) as [c ->]. simpl. eauto.
  - intros Hn. destruct (ValidateAST ast) as [[]|e] eqn:Hv; [|simpl; eauto].
    by destruct Hn; apply ValidateAST_iff.
Qed.

(** Every returned transition is one of pending -> ready, ready -> active,
    pending or ready -> skipped, concerns a step of the workflow, and no step
    makes the same kind of transition twice; a step that is active, completed,
    failed or skipped at the start makes no transition at all. *)
Theorem computeTransitions_legal evaluator ctx ast states trs :
  computeTransitions evaluator ctx ast states = Ok trs ->
  NoDup (map (fun tr => (trStepID tr, trType tr)) trs) /\
  forall tr, tr ∈ trs ->
    legal (trFrom tr) (trTo tr) (trType tr) /\ trStepID tr ∈ ids ast /\
    forall st, states !! trStepID tr = Some st ->
      ssState st = StatePending \/ ssState st = StateReady.
Proof.
  intros (c & Hc & <-)%computeTransitions_inv.
  destruct (evaluate_ok _ _ _ _ _ Hc) as (_ & [Hrun _ _] & _).
  split; [by eapply lsteps_nodup|]. intros tr Htr.
  destruct (lsteps_transition _ _ _ _ _ _ _ Hrun Htr) as (st & Hst & Hrk & Hl & Hid).
  split_and!; [done|done|]. intros st' Hst'.
  rewrite (init_virtual_keep _ _ _ _ Hst') in Hst. injection Hst as ->.
  destruct (trType tr); simpl in Hl; destruct Hl as [Hl _]; try destruct Hl as [Hl|Hl];
    rewrite Hl in Hrk; destruct (ssState st); simpl in Hrk; auto; lia.
Qed.

(** Activation is justified: a step the evaluation activates passed its
    guard, and if it was pending its join is satisfied by the states at the end
    of the evaluation (all dependencies terminal and one completed for "all",
    one terminal for "any"). *)
Theorem computeTransitions_activation evaluator ctx ast states c x :
  evaluate evaluator ctx ast states = Ok c ->
  vstate (init_virtual ast states) x = Some StatePending ->
  vstate (virtual c) x = Some StateActive ->
  exists s reason reason', s ∈ ast /\ stepID s = x /\
    activate_rule evaluator ctx s = Ok (StateActive, TransitionToActive, reason) /\
    promotes (virtual c) s (StateReady, TransitionToReady, reason').
Proof.
  intros Hc Hp Ha. destruct (evaluate_ok _ _ _ _ _ Hc) as (Hw & [Hrun _ _] & _).
  destruct (lsteps_activated _ _ _ _ _ _ x Hrun) as (s & reason & Hs & Hid & Hrule);
    [congruence|done|].
  destruct (lsteps_promoted _ _ _ _ _ _ x Hrun) as (s' & reason' & Hs' & Hid' & Hprom); [done|by right|].
  exists s, reason, reason'. split_and!; [done|done|done|].
  pose proof (stepMap_lookup ast x) as Hm.
  assert (s' = s) as ->; [|done].
  pose proof (wf_ids_nodup _ (wf_is_shape _ Hw)) as Hnd.
  assert (stepMap ast !! x = Some s) as H1 by (apply Hm; auto).
  assert (stepMap ast !! x = Some s') as H2 by (apply Hm; auto).
  congruence.
Qed.

(** Exclusive routing: when a completed step has outcomes, a dependent that
    some outcome names but the selected outcome does not, and that has not
    started, is skipped; it is never activated, whatever its join strategy. *)
Theorem computeTransitions_routing evaluator ctx ast states c src srcst d :
  evaluate evaluator ctx ast states = Ok c ->
  src ∈ ast -> states !! stepID src = Some srcst -> ssState srcst = StateCompleted ->
  depends ast d (stepID src) -> routed_out src (extractOutcome (ssResult srcst)) d ->
  vstate (init_virtual ast states) d = Some StatePending \/
  vstate (init_virtual ast states) d = Some StateReady ->
  vstate (virtual c) d = Some StateSkipped /\
  forall tr, tr ∈ transitions c -> trStepID tr = d -> trTo tr <> StateActive.
Proof.
  intros Hc Hsrc Hst Hcomp Hdep Hro Hd.
  assert (vstate (virtual c) d = Some StateSkipped) as Hk.
  { eapply evaluate_routes; eauto. destruct Hd; [left|right; left]; done. }
  split; [done|]. intros tr Htr <- Ha.
  destruct (evaluate_ok _ _ _ _ _ Hc) as (_ & [Hrun _ _] & _).
  pose proof (lsteps_final_active _ _ _ _ _ _ _ Hrun Htr Ha). congruence.
Qed.

(** Idempotence: evaluating the states an evaluation ended in, with the same
    context, yields no transition and the same states. *)
Theorem computeTransitions_idempotent evaluator ctx ast states c :
  evaluate evaluator ctx ast states = Ok c ->
  computeTransitions evaluator ctx ast (virtual c) = Ok [] /\
  (virtual <$> evaluate evaluator ctx ast (virtual c)) = Ok (virtual c).
Proof.
  intros H. unfold computeTransitions. by rewrite (evaluate_again _ _ _ _ _ H).
Qed.

(** ** Witnesses: a review step that routes to one of two branches *)

Definition demo_review : WorkflowStep :=
  mkWorkflowStep "review" "human_task" [] "" "" {["ok" := ["pay"]; "no" := ["reject"]]}
    None zeroErrorPolicy None.

Definition demo_ast : WorkflowAST :=
  [demo_review; demo_step "pay" ["review"]; demo_step "reject" ["review"];
   demo_step "close" ["pay"; "reject"]].

Definition demo_states : gmap string StepState :=
  {["review" := mkStepState "review" StateCompleted
      (Some (JObj [("outcome", JStr "ok")])) 0 None None]}.

Definition demo_eval : result goerr loop_state := evaluate None JNull demo_ast demo_states.

Definition demo_result : loop_state :=
  match demo_eval with Ok c => c | Err _ => mkLoop ∅ ∅ [] false end.

Lemma demo_eval_ok : evaluate None JNull demo_ast demo_states = Ok demo_result.
Proof. vm_compute. reflexivity. Qed.

Lemma computeTransitions_refines_witness :
  exists v', lsteps None JNull demo_ast (init_virtual demo_ast demo_states)
    (transitions demo_result) v' /\ quiescent None JNull demo_ast v'.
Proof. apply computeTransitions_refines. vm_compute. reflexivity. Defined.

Lemma computeTransitions_total_witness :
  exists trs, computeTransitions None JNull demo_ast demo_states = Ok trs.
Proof.
  apply (computeTransitions_total None JNull demo_ast demo_states).
  - apply ValidateAST_iff. vm_compute. reflexivity.
  - intros s Hs. left. unfold demo_ast in Hs.
    repeat (apply elem_of_cons in Hs as [->|Hs]; [reflexivity|]). by apply not_elem_of_nil in Hs.
Defined.

Lemma computeTransitions_legal_witness :
  map (fun tr => (trStepID tr, trTo tr)) (transitions demo_result) =
    [("reject", StateSkipped); ("pay", StateReady); ("pay", StateActive)] /\
  NoDup (map (fun tr => (trStepID tr, trType tr)) (transitions demo_result)).
Proof.
  split; [vm_compute; reflexivity|].
  apply (computeTransitions_legal None JNull demo_ast demo_states). vm_compute. reflexivity.
Defined.

Lemma computeTransitions_activation_witness :
  exists s reason reason', s ∈ demo_ast /\ stepID s = "pay" /\
    activate_rule None JNull s = Ok (StateActive, TransitionToActive, reason) /\
    promotes (virtual demo_result) s (StateReady, TransitionToReady, reason').
Proof.
  apply (computeTransitions_activation None JNull demo_ast demo_states);
    [apply demo_eval_ok|vm_compute; reflexivity|vm_compute; reflexivity].
Defined.

Lemma computeTransitions_routing_witness :
  vstate (virtual demo_result) "reject" = Some StateSkipped.
Proof.
  apply (computeTransitions_routing None JNull demo_ast demo_states demo_result demo_review
    (mkStepState "review" StateCompleted (Some (JObj [("outcome", JStr "ok")])) 0 None None) "reject").
  - apply demo_eval_ok.
  - unfold demo_ast. left.
  - reflexivity.
  - reflexivity.
  - exists (demo_step "reject" ["review"]). unfold demo_ast. set_solver.
  - split; [exists "no", ["reject"]; split; [reflexivity|by left]|].
    change (default [] _) with ["pay"]. set_solver.
  - left. vm_compute. reflexivity.
Defined.

Lemma computeTransitions_idempotent_witness :
  computeTransitions None JNull demo_ast (virtual demo_result) = Ok [].
Proof.
  apply (computeTransitions_idempotent None JNull demo_ast demo_states). apply demo_eval_ok.
Defined.
