(* ===== verification/Store.v ===== *)
(** * The database and the effects of the service code

    The tables the modelled code reads and writes (migration
    [001_initial.sql]), with the columns it uses, and the monad its functions
    run in. A statement is one use of the driver: it may fail (the context is
    cancelled, the connection breaks, ...), which [fault] decides per statement,
    or it runs as the SQL text says. A transaction keeps the tables it started
    from; the deferred [Rollback] of the code puts them back unless the
    transaction was committed. The row locks the code takes make a transaction
    one step for every other transaction on the same case. *)

From S2P Require Import Prelude GoStrings Json EngineTypes.

(** ** Identifiers: 128-bit values with the usual text form *)

Definition uuid : Type := N.
Bind Scope N_scope with uuid.
Definition uuid_Nil : uuid := 0%N.

Definition hex_digit (d : N) : ascii :=
  match String.get (N.to_nat d) "0123456789abcdef" with Some c => c | None => "0"%char end.

(** The last [n] hexadecimal digits, followed by [acc]. *)
Fixpoint hex_digits (n : nat) (u : N) (acc : string) : string :=
  match n with
  | O => acc
  | S n' => hex_digits n' (N.div u 16) (String (hex_digit (N.modulo u 16)) acc)
  end.

Definition uuid_part (u : uuid) (shift : N) (digits : nat) : string :=
  hex_digits digits (N.shiftr u shift) EmptyString.

Definition uuid_string (u : uuid) : string :=
  uuid_part u 96 8 +:+ "-" +:+ uuid_part u 80 4 +:+ "-" +:+ uuid_part u 64 4 +:+ "-" +:+
  uuid_part u 48 4 +:+ "-" +:+ uuid_part u 0 12.

(** ** Times: nanoseconds since the Unix epoch *)

Definition Microsecond : Z := 1000.
(** [time.Time{}], the first of January of year 1. *)
Definition time_zero : Z := -62135596800 * Second.
Definition Truncate (t d : Z) : Z := t / d * d.

(** ** Tables *)

Inductive case_status : Type := CaseOpen | CaseInProgress | CaseCompleted | CaseCancelled.

#[export] Instance case_status_eq_dec : EqDecision case_status.
Proof. solve_decision. Defined.

Record CaseRow : Type := mkCaseRow {
  cTenant : uuid;
  cCaseType : uuid;
  cNumber : string;
  cStatus : case_status;
  cData : json;
  cVersion : Z;
  cUpdatedAt : Z;
  cAssignedTo : option uuid;
  cPriority : Z;
  cWorkflowID : uuid;
  cWorkflowVersion : Z;
  cCreatedAt : Z;
  cCreatedBy : uuid;
  cDueAt : option Z
}.

Record StepRow : Type := mkStepRow {
  sID : uuid;
  sState : step_state;
  sStartedAt : option Z;
  sCompletedAt : option Z;
  sResult : option json;
  sEvents : json;
  sError : option json;
  sAssignedTo : option uuid;
  sSlaDeadline : option Z;
  sRetryCount : Z;
  sDraftData : option json;
  sMetadata : option json
}.

(** [audit.Event], a row of [case_events]. *)
Record Event : Type := mkEvent {
  evID : uuid;
  evCaseID : uuid;
  evStepID : string;
  evEventType : string;
  evActorID : uuid;
  evActorType : string;
  evAction : string;
  evData : option json;
  evCreatedAt : Z;
  evPrevHash : string;
  evHash : string
}.

Record PrincipalRow : Type := mkPrincipalRow {
  pTenant : uuid;
  pActive : bool;
  pCreatedAt : Z;
  pEmail : option string
}.

Record CaseTypeRow : Type := mkCaseTypeRow {
  ctTenant : uuid;
  ctName : string;
  ctVersion : Z;
  ctSchema : json;
  ctActive : bool;
  ctCreatedAt : Z;
  ctCreatedBy : uuid
}.

Record WorkflowRow : Type := mkWorkflowRow {
  wfTenant : uuid;
  wfName : string;
  wfCaseType : string
}.

Inductive version_status : Type := Draft | Published | Withdrawn.

#[export] Instance version_status_eq_dec : EqDecision version_status.
Proof. solve_decision. Defined.

Record VersionRow : Type := mkVersionRow {
  vStatus : version_status;
  vAst : json
}.

Record DocumentRow : Type := mkDocumentRow {
  dTenant : uuid;
  dCase : option uuid;
  dStep : option string;
  dFilename : string;
  dMimeType : string;
  dSizeBytes : Z;
  dContentHash : string;
  dStorageURI : string;
  dUploadedBy : uuid;
  dUploadedAt : Z;
  dDeletedAt : option Z;
  dMetadata : option json
}.

(** [workflow_versions] is keyed by workflow and version, [case_number_sequences]
    by tenant and name of the case type; [principal_roles] is joined with
    [roles]: principal, tenant and name of the role. *)
Record DB : Type := mkDB {
  cases : gmap uuid CaseRow;
  case_steps : gmap (uuid * string) StepRow;
  case_events : list Event;
  workflow_versions : gmap (uuid * Z) VersionRow;
  principals : gmap uuid PrincipalRow;
  principal_roles : list (uuid * uuid * string);
  case_types : gmap uuid CaseTypeRow;
  workflows : gmap uuid WorkflowRow;
  case_number_sequences : gmap (uuid * string) Z;
  vault_documents : gmap uuid DocumentRow
}.

Definition set_cases (f : gmap uuid CaseRow -> gmap uuid CaseRow) (d : DB) : DB :=
  mkDB (f (cases d)) (case_steps d) (case_events d) (workflow_versions d) (principals d)
    (principal_roles d) (case_types d) (workflows d) (case_number_sequences d)
    (vault_documents d).
Definition set_steps (f : gmap (uuid * string) StepRow -> gmap (uuid * string) StepRow)
    (d : DB) : DB :=
  mkDB (cases d) (f (case_steps d)) (case_events d) (workflow_versions d) (principals d)
    (principal_roles d) (case_types d) (workflows d) (case_number_sequences d)
    (vault_documents d).
Definition set_events (f : list Event -> list Event) (d : DB) : DB :=
  mkDB (cases d) (case_steps d) (f (case_events d)) (workflow_versions d) (principals d)
    (principal_roles d) (case_types d) (workflows d) (case_number_sequences d)
    (vault_documents d).
Definition set_case_types (f : gmap uuid CaseTypeRow -> gmap uuid CaseTypeRow) (d : DB) : DB :=
  mkDB (cases d) (case_steps d) (case_events d) (workflow_versions d) (principals d)
    (principal_roles d) (f (case_types d)) (workflows d) (case_number_sequences d)
    (vault_documents d).
Definition set_sequences (f : gmap (uuid * string) Z -> gmap (uuid * string) Z) (d : DB) : DB :=
  mkDB (cases d) (case_steps d) (case_events d) (workflow_versions d) (principals d)
    (principal_roles d) (case_types d) (workflows d) (f (case_number_sequences d))
    (vault_documents d).

Definition set_documents (f : gmap uuid DocumentRow -> gmap uuid DocumentRow) (d : DB) : DB :=
  mkDB (cases d) (case_steps d) (case_events d) (workflow_versions d) (principals d)
    (principal_roles d) (case_types d) (workflows d) (case_number_sequences d)
    (f (vault_documents d)).

(** ** What the service code gets from its environment *)

Class Runtime : Type := mkRuntime {
  fault : nat -> option goerr;
  wall_clock : nat -> Z;
  db_now : nat -> Z;
  gen_random_uuid : nat -> uuid;
  sha256_hex : string -> string;
  json_marshal : json -> string;
  jsonb_text : json -> string;
  format_rfc3339nano : Z -> string;
  time_json : Z -> string;
  timestamptz_text : Z -> string
}.

(** What the code relies on: the clock is past year 1, and a SHA-256 digest in
    hexadecimal has 64 digits. *)
Class RuntimeLaws (R : Runtime) : Prop := mkRuntimeLaws {
  clock_sane : forall k, time_zero + Microsecond <= wall_clock k;
  sha256_length : forall s, String.length (sha256_hex s) = 64%nat
}.

(** Work handed to a worker pool or to a goroutine. *)
Inductive job : Type :=
  | EvalJob (caseID : uuid)
  | ExecJob (caseID : uuid) (step : WorkflowStep).

Record World : Type := mkWorld {
  db : DB;
  saved : option DB;
  tick : nat;
  txStart : nat;
  pending : list Event;
  published : list Event;
  jobs : list job
}.

Definition with_db (d : DB) (w : World) : World :=
  mkWorld d (saved w) (tick w) (txStart w) (pending w) (published w) (jobs w).
Definition next_tick (w : World) : World :=
  mkWorld (db w) (saved w) (S (tick w)) (txStart w) (pending w) (published w) (jobs w).
Definition add_pending (ev : Event) (w : World) : World :=
  mkWorld (db w) (saved w) (tick w) (txStart w) (pending w ++ [ev]) (published w) (jobs w).
Definition add_job (j : job) (w : World) : World :=
  mkWorld (db w) (saved w) (tick w) (txStart w) (pending w) (published w) (jobs w ++ [j]).

(** ** The monad *)

Definition M (A : Type) : Type := World -> result goerr A * World.

#[export] Instance M_ret : MRet M := fun A a w => (Ok a, w).
#[export] Instance M_bind : MBind M :=
  fun A B f m w => match m w with
                   | (Ok a, w') => f a w'
                   | (Err e, w') => (Err e, w')
                   end.

#[export] Instance M_fmap : FMap M :=
  fun A B f m w => match m w with
                   | (Ok a, w') => (Ok (f a), w')
                   | (Err e, w') => (Err e, w')
                   end.

Definition throw {A} (e : goerr) : M A := fun w => (Err e, w).
Definition lift {A} (r : result goerr A) : M A := fun w => (r, w).
Definition gets {A} (f : World -> A) : M A := fun w => (Ok (f w), w).
Definition modify (f : World -> World) : M unit := fun w => (Ok tt, f w).

(** Wrap the error of [m]. *)
Definition wrapM {A} (f : goerr -> goerr) (m : M A) : M A := fun w =>
  match m w with
  | (Ok a, w') => (Ok a, w')
  | (Err e, w') => (Err (f e), w')
  end.

(** The error of [m] as a value: [if err := m; err != nil { ... }]. *)
Definition tryM {A} (m : M A) : M (result goerr A) := fun w =>
  match m w with (r, w') => (Ok r, w') end.

(** [_ = m] *)
Definition ignore {A} (m : M A) : M unit := fun w => (Ok tt, (m w).2).

Fixpoint mapM_ {A} (f : A -> M unit) (l : list A) : M unit :=
  match l with
  | [] => mret tt
  | a :: l' => _ ← f a; mapM_ f l'
  end.

Definition ErrNoRows : goerr := Errorf "sql: no rows in result set" [].

Section Statements.
Context `{R : Runtime}.

(** [now()]: the start of the transaction, or of the statement outside one. *)
Definition sql_now (w : World) : Z :=
  db_now (match saved w with Some _ => txStart w | None => tick w end).

(** One statement: a driver error, or the effect of the SQL text. *)
Definition sql {A} (run : nat -> Z -> DB -> result goerr (A * DB)) : M A := fun w =>
  let w' := next_tick w in
  match fault (tick w) with
  | Some e => (Err e, w')
  | None =>
      match run (tick w) (sql_now w) (db w) with
      | Ok (a, d) => (Ok a, with_db d w')
      | Err e => (Err e, w')
      end
  end.

(** [SELECT]s leave the tables alone. *)
Definition query {A} (f : Z -> DB -> A) : M A := sql (fun _ now d => Ok (f now d, d)).

(** An [UPDATE] and the number of rows it changes. *)
Definition update (f : nat -> Z -> DB -> nat * DB) : M nat := sql (fun k now d => Ok (f k now d)).

(** [QueryRow(...).Scan(...)] *)
Definition query_row {A} (f : Z -> DB -> option A) : M A :=
  sql (fun _ now d => match f now d with Some a => Ok (a, d) | None => Err ErrNoRows end).

(** [time.Now()] *)
Definition time_Now : M Z := fun w => (Ok (wall_clock (tick w)), next_tick w).

Definition begin_tx : M unit := fun w =>
  match fault (tick w) with
  | Some e => (Err e, next_tick w)
  | None => (Ok tt, mkWorld (db w) (Some (db w)) (S (tick w)) (tick w) [] (published w) (jobs w))
  end.

(** [audit.Service.CommitTx]: on success the events recorded in the
    transaction go to the callbacks; on failure the transaction is gone. *)
Definition commit_tx : M unit := fun w =>
  match fault (tick w) with
  | Some e =>
      (Err e, mkWorld (default (db w) (saved w)) None (S (tick w)) (txStart w) [] (published w) (jobs w))
  | None =>
      (Ok tt, mkWorld (db w) None (S (tick w)) (txStart w) [] (published w ++ pending w) (jobs w))
  end.

(** [audit.Service.RollbackTx], deferred: without effect after a commit. *)
Definition rollback_tx (w : World) : World :=
  match saved w with
  | Some d => mkWorld d None (tick w) (txStart w) [] (published w) (jobs w)
  | None => w
  end.

(** [tx, err := db.BeginTx(...); defer RollbackTx(tx); body] *)
Definition with_tx {A} (wrap : goerr -> goerr) (body : M A) : M A := fun w =>
  match wrapM wrap begin_tx w with
  | (Err e, w') => (Err e, w')
  | (Ok _, w1) => match body w1 with (r, w2) => (r, rollback_tx w2) end
  end.

End Statements.

(** [INTEGER] columns: an addition that leaves the 32-bit range is an error. *)
Definition int4_max : Z := 2147483647.
Definition int4_error : goerr := Errorf "integer out of range" [].

(** Violated constraints. *)
Definition fk_error : goerr := Errorf "violates foreign key constraint" [].
Definition unique_error : goerr := Errorf "duplicate key value violates unique constraint" [].

(** A condition on the step rows of a case, as the [WHERE] clauses have it, and
    the number of rows an [UPDATE] changes. *)
Definition update_step (key : uuid * string) (ok : StepRow -> bool)
    (f : StepRow -> StepRow) (d : DB) : nat * DB :=
  match case_steps d !! key with
  | Some r => if ok r then (1%nat, set_steps <[key := f r]> d) else (0%nat, d)
  | None => (0%nat, d)
  end.

Definition update_case (id : uuid) (ok : CaseRow -> bool) (f : CaseRow -> CaseRow)
    (d : DB) : nat * DB :=
  match cases d !! id with
  | Some c => if ok c then (1%nat, set_cases <[id := f c]> d) else (0%nat, d)
  | None => (0%nat, d)
  end.

Definition state_in (l : list step_state) (r : StepRow) : bool := bool_decide (sState r ∈ l).

(** * Reasoning about service code

    A program [keeps] a preorder on the tables when whatever it commits is
    related to what it started from; the rules below follow the structure of
    the program, and [with_tx] needs nothing of its own because an uncommitted
    transaction is rolled back. [in_tx] programs neither commit nor open a
    transaction, which is what makes an operation atomic. *)

Create HintDb keeps.

Section Keeps.
Context `{R : Runtime}.
Context (P : DB -> DB -> Prop) `{HP : !PreOrder P}.

Definition world_rel (w w' : World) : Prop :=
  (saved w' = saved w \/ saved w' = None) /\
  (P (db w) (db w') \/ exists s, saved w = Some s /\ P s (db w')).

Definition keeps {A} (m : M A) : Prop := forall w, world_rel w (m w).2.

#[export] Instance world_rel_preorder : PreOrder world_rel.
Proof.
  split.
  - intros w. split; [by left|]. left. reflexivity.
  - intros w1 w2 w3 [Hs1 Hd1] [Hs2 Hd2]. split.
    + destruct Hs2 as [->| ->]; [done|by right].
    + destruct Hd2 as [Hd2|(s & Hs & Hd2)].
      * destruct Hd1 as [Hd1|(s & Hs & Hd1)]; [left; by etrans|right].
        exists s. split; [done|by etrans].
      * destruct Hs1 as [Hs1|Hs1]; [|congruence]. right. exists s. split; [congruence|done].
Qed.

Lemma world_rel_db w w' : saved w' = saved w -> P (db w) (db w') -> world_rel w w'.
Proof. intros ? ?. split; [by left|by left]. Qed.

Lemma keeps_ret {A} (a : A) : keeps (mret a).
Proof. intros w. reflexivity. Qed.

Lemma keeps_bind {A B} (m : M A) (f : A -> M B) :
  keeps m -> (forall a, keeps (f a)) -> keeps (m ≫= f).
Proof.
  intros Hm Hf w. specialize (Hm w). unfold mbind, M_bind.
  destruct (m w) as [[a|e] w1]; simpl in *; [|done]. etrans; [done|apply Hf].
Qed.

Lemma keeps_fmap {A B} (f : A -> B) (m : M A) : keeps m -> keeps (f <$> m).
Proof.
  intros Hm w. specialize (Hm w). unfold fmap, M_fmap. by destruct (m w) as [[a|e] w1].
Qed.

Lemma keeps_throw {A} e : keeps (throw e : M A).
Proof. intros w. reflexivity. Qed.

Lemma keeps_lift {A} (r : result goerr A) : keeps (lift r).
Proof. intros w. reflexivity. Qed.

Lemma keeps_gets {A} (f : World -> A) : keeps (gets f).
Proof. intros w. reflexivity. Qed.

Lemma keeps_wrapM {A} f (m : M A) : keeps m -> keeps (wrapM f m).
Proof. intros Hm w. specialize (Hm w). unfold wrapM. by destruct (m w) as [[a|e] w1]. Qed.

(** The result of a pure computation is known afterwards. *)
Lemma keeps_bind_lift {A B} g (r : result goerr A) (f : A -> M B) :
  (forall a, r = Ok a -> keeps (f a)) -> keeps (wrapM g (lift r) ≫= f).
Proof.
  intros Hf w. unfold mbind, M_bind, wrapM, lift. destruct r as [a|e]; [by apply Hf|reflexivity].
Qed.

Lemma keeps_bind_pure {A B} (r : result goerr A) (f : A -> M B) :
  (forall a, r = Ok a -> keeps (f a)) -> keeps (lift r ≫= f).
Proof.
  intros Hf w. unfold mbind, M_bind, lift. destruct r as [a|e]; [by apply Hf|reflexivity].
Qed.

Lemma keeps_tryM {A} (m : M A) : keeps m -> keeps (tryM m).
Proof. intros Hm w. specialize (Hm w). unfold tryM. by destruct (m w). Qed.

Lemma keeps_ignore {A} (m : M A) : keeps m -> keeps (ignore m).
Proof. intros Hm w. apply Hm. Qed.

Lemma keeps_mapM {A} (f : A -> M unit) l : (forall a, a ∈ l -> keeps (f a)) -> keeps (mapM_ f l).
Proof.
  induction l as [|a l IH]; intros Hf; simpl; [apply keeps_ret|].
  apply keeps_bind; [apply Hf; by left|]. intros _. apply IH. intros b Hb. apply Hf. by right.
Qed.

Lemma keeps_sql {A} (run : nat -> Z -> DB -> result goerr (A * DB)) :
  (forall k now d a d', run k now d = Ok (a, d') -> P d d') -> keeps (sql run).
Proof.
  intros Hr w. unfold sql. destruct (fault (tick w)); [by apply world_rel_db|].
  destruct (run (tick w) (sql_now w) (db w)) as [[a d]|e] eqn:He; [|by apply world_rel_db].
  apply world_rel_db; [done|]. simpl. by eapply Hr.
Qed.

Lemma keeps_query {A} (f : Z -> DB -> A) : keeps (query f).
Proof. apply keeps_sql. intros k now d a d' [= _ <-]. reflexivity. Qed.

Lemma keeps_query_row {A} (f : Z -> DB -> option A) : keeps (query_row f).
Proof.
  apply keeps_sql. intros k now d a d'. destruct (f now d); intros [= _ <-]. reflexivity.
Qed.

Lemma keeps_update f : (forall k now d, P d (f k now d).2) -> keeps (update f).
Proof.
  intros Hf. apply keeps_sql. intros k now d a d' He.
  specialize (Hf k now d). injection He as He. by rewrite He in Hf.
Qed.

Lemma keeps_time_Now : keeps time_Now.
Proof. intros w. by apply world_rel_db. Qed.

Lemma keeps_modify f :
  (forall w, db (f w) = db w /\ saved (f w) = saved w) -> keeps (modify f).
Proof. intros Hf w. destruct (Hf w) as [Hd Hs]. apply world_rel_db; simpl; [done|by rewrite Hd]. Qed.

Lemma keeps_commit : keeps commit_tx.
Proof.
  intros w. unfold commit_tx. destruct (fault (tick w)); (split; [by right|]); simpl.
  - destruct (saved w) as [s|] eqn:Hs; simpl; [right|left; reflexivity].
    exists s. split; [done|reflexivity].
  - left. reflexivity.
Qed.

Lemma keeps_with_tx {A} wrap (m : M A) : keeps m -> keeps (with_tx wrap m).
Proof.
  intros Hm w. unfold with_tx, wrapM, begin_tx.
  destruct (fault (tick w)); [by apply world_rel_db|]. cbn [fst snd].
  set (w1 := mkWorld _ _ _ _ _ _ _). specialize (Hm w1). destruct (m w1) as [r w2].
  simpl in Hm. destruct Hm as [Hs Hd]. unfold rollback_tx. simpl.
  destruct (saved w2) as [d|] eqn:Hw2; simpl.
  - split; [by right|]. left. simpl. destruct Hs as [[= ->]|?]; [reflexivity|congruence].
  - split; [by right|]. left. destruct Hd as [Hd|(s & [= <-] & Hd)]; exact Hd.
Qed.

(** A program that runs outside a transaction. *)
Lemma keeps_top {A} (m : M A) w : keeps m -> saved w = None -> P (db w) (db (m w).2).
Proof.
  intros Hm Hs. destruct (Hm w) as [_ [?|(s & ? & _)]]; [done|congruence].
Qed.

End Keeps.

#[export] Hint Resolve keeps_ret keeps_throw keeps_lift keeps_gets keeps_query keeps_query_row keeps_time_Now
  keeps_commit keeps_wrapM keeps_tryM keeps_ignore keeps_with_tx : keeps.

(** Decompose a program; the statements that change tables remain. *)
Ltac keeps_step :=
  lazymatch goal with
  | |- PreOrder _ => apply _
  | |- keeps _ (mbind _ _) => apply keeps_bind
  | |- keeps _ (fmap _ _) => apply keeps_fmap
  | |- keeps _ (with_tx _ _) => apply keeps_with_tx
  | |- keeps _ (wrapM _ _) => apply keeps_wrapM
  | |- keeps _ (tryM _) => apply keeps_tryM
  | |- keeps _ (ignore _) => apply keeps_ignore
  | |- keeps _ (mapM_ _ _) => apply keeps_mapM
  | |- keeps _ (query _) => apply keeps_query
  | |- keeps _ (query_row _) => apply keeps_query_row
  | |- keeps _ commit_tx => apply keeps_commit
  | |- keeps _ time_Now => apply keeps_time_Now
  | |- keeps _ (mret _) => apply keeps_ret
  | |- keeps _ (throw _) => apply keeps_throw
  | |- keeps _ (lift _) => apply keeps_lift
  | |- keeps _ (match ?x with _ => _ end) => destruct x eqn:?
  | |- keeps _ _ => solve [auto with keeps]
  | |- forall _, _ => intro
  end.
Ltac keeps := repeat keeps_step.

(** ** Text of identifiers *)

Lemma hex_digits_length n u acc :
  String.length (hex_digits n u acc) = (n + String.length acc)%nat.
Proof. revert u acc. induction n as [|n IH]; intros u acc; simpl; [done|]. rewrite IH. simpl. lia. Qed.

Lemma uuid_string_length u : String.length (uuid_string u) = 36%nat.
Proof.
  unfold uuid_string, uuid_part.
  rewrite !append_length, !hex_digits_length. reflexivity.
Qed.

(** ** A concrete environment, for evaluating the model *)

Fixpoint string_code (s : string) : N :=
  match s with
  | EmptyString => 7
  | String c s' => (N.of_nat (Ascii.nat_of_ascii c) + 257 * string_code s') mod (2 ^ 256)
  end%N.

Definition example_runtime : Runtime := {|
  fault := fun _ => None;
  wall_clock := fun k => (1700000000 + Z.of_nat k) * Second;
  db_now := fun k => (1700000000 + Z.of_nat k) * Second;
  gen_random_uuid := fun k => (4096 + N.of_nat k)%N;
  sha256_hex := fun s => hex_digits 64 (string_code s) EmptyString;
  json_marshal := Sprint (fun _ => "0");
  jsonb_text := Sprint (fun _ => "0");
  format_rfc3339nano := fun t => hex_digits 16 (Z.to_N t) EmptyString;
  time_json := fun t => hex_digits 16 (Z.to_N t) EmptyString;
  timestamptz_text := fun t => hex_digits 16 (Z.to_N t) EmptyString
|}.

Lemma example_runtime_laws : RuntimeLaws example_runtime.
Proof.
  split.
  - intros k. unfold wall_clock, example_runtime, time_zero, Microsecond, Second. lia.
  - intros s. unfold sha256_hex, example_runtime. rewrite hex_digits_length. reflexivity.
Qed.
