(* ===== verification/AuditTrail.v ===== *)
(** * The audit trail: [internal/audit/audit.go]

    Every case has a chain of events. An event's hash covers its
    predecessor's hash, and [VerifyChain] recomputes the chain. *)

From S2P Require Import Prelude GoStrings Json EngineTypes Store.

(** ** Registered events *)

Definition EventTypeRegistry : list (string * list string) :=
  [("case", ["created"; "updated"; "closed"; "cancelled"]);
   ("step", ["activated"; "completed"; "failed"; "skipped"]);
   ("task", ["created"; "claimed"; "completed"; "reassigned"; "escalated";
             "escalation_suppressed"]);
   ("agent", ["completed"; "escalated"]);
   ("document", ["uploaded"; "downloaded"; "deleted"]);
   ("auth", ["denied"; "login"; "logout"; "password_changed"]);
   ("system", ["sla_breach"; "workflow_published"; "erasure_completed"])].

Fixpoint assoc {A} (k : string) (l : list (string * A)) : option A :=
  match l with
  | [] => None
  | (k', a) :: l' => if decide (k = k') then Some a else assoc k l'
  end.

Definition IsRegistered (eventType action : string) : bool :=
  match assoc eventType EventTypeRegistry with
  | None => false
  | Some actions => bool_decide (action ∈ actions)
  end.

(** ** Hashes *)

Section Audit.
Context `{R : Runtime}.

Definition GenesisHash (caseID : uuid) : string :=
  sha256_hex ("aceryx:genesis:" +:+ uuid_string caseID).

Definition canonicalJSON (data : option json) : string :=
  match data with
  | None => EmptyString
  | Some decoded => json_marshal decoded
  end.

Definition payload (prev eventType actorID action : string) (data : option json)
    (createdAt : Z) : string :=
  prev +:+ eventType +:+ actorID +:+ action +:+ canonicalJSON data +:+
  format_rfc3339nano createdAt.

Definition ComputeHash (prev eventType actorID action : string) (data : option json)
    (createdAt : Z) : string :=
  sha256_hex (payload prev eventType actorID action data createdAt).

Definition event_hash (prev : string) (e : Event) : string :=
  ComputeHash prev (evEventType e) (uuid_string (evActorID e)) (evAction e)
    (evData e) (evCreatedAt e).

(** ** [VerifyChain] *)

Definition mixed_ids : goerr := Errorf "mixed case ids in event chain" [].

Fixpoint verify_from (caseID : uuid) (i : Z) (last : option Event) (prev : string)
    (events : list Event) : bool * Z * option goerr :=
  match events with
  | [] => (true, -1, None)
  | event :: rest =>
      if negb (bool_decide (evCaseID event = caseID)) then (false, i, Some mixed_ids)
      else if match last with
              | Some l => evCreatedAt event <? evCreatedAt l
              | None => false
              end then (false, i, None)
      else if negb (bool_decide (evPrevHash event = prev)) then (false, i, None)
      else if negb (bool_decide (event_hash prev event = evHash event)) then (false, i, None)
      else verify_from caseID (i + 1) (Some event) (evHash event) rest
  end.

Definition VerifyChain (events : list Event) : bool * Z * option goerr :=
  match events with
  | [] => (true, -1, None)
  | e :: _ => verify_from (evCaseID e) 0 None (GenesisHash (evCaseID e)) events
  end.

(** ** Recording *)

(** [ORDER BY created_at, id] *)
Definition event_le (a b : Event) : Prop :=
  evCreatedAt a < evCreatedAt b \/
  (evCreatedAt a = evCreatedAt b /\ (evID a <= evID b)%N).

#[export] Instance event_le_dec : RelDecision event_le.
Proof. intros a b. unfold event_le. apply _. Defined.

(** [ORDER BY created_at DESC, id DESC LIMIT 1] on the events of a case. *)
Definition last_event (caseID : uuid) (evs : list Event) : option Event :=
  foldl (fun acc e =>
    if decide (evCaseID e = caseID) then
      match acc with
      | None => Some e
      | Some a => if decide (event_le a e) then Some e else acc
      end
    else acc) None evs.

Definition insert_event (e : Event) (d : DB) : result goerr (uuid * DB) :=
  match cases d !! evCaseID e with
  | None => Err fk_error
  | Some _ =>
      if decide (evActorType e ∈ ["human"; "agent"; "system"]) then
        if decide (evID e ∈ map evID (case_events d))
        then Err unique_error
        else Ok (evID e, set_events (fun l => l ++ [e]) d)
      else Err (Errorf "violates check constraint" [])
  end.

Definition event_time (prevCreated now : Z) : Z :=
  let now := Truncate now Microsecond in
  if negb (prevCreated =? time_zero) && negb (prevCreated <? now)
  then prevCreated + Microsecond else now.

Definition RecordCaseEventTx (caseID : uuid) (stepID eventType : string) (actorID : uuid)
    (actorType action : string) (data : json) : M unit :=
  if negb (IsRegistered eventType action)
  then throw (Errorf "unregistered audit event %s.%s" [eventType; action])
  else
    _ ← wrapM (Wrapf "acquire audit chain lock: %w" []) (query (fun _ _ => tt));
    row ← wrapM (Wrapf "load previous event hash: %w" [])
      (query (fun _ d => last_event caseID (case_events d)));
    let '(prev, prevCreated) :=
      match row with
      | None => (GenesisHash caseID, time_zero)
      | Some e => (evHash e, evCreatedAt e)
      end in
    t ← time_Now;
    let now := event_time prevCreated t in
    let hash := ComputeHash prev eventType (uuid_string actorID) action (Some data) now in
    let ev id := mkEvent id caseID stepID eventType actorID actorType action (Some data)
                   now prev hash in
    eventID ← wrapM (Wrapf "insert case event: %w" [])
      (sql (fun k _ d => insert_event (ev (gen_random_uuid k)) d));
    modify (add_pending (ev eventID)).

(** ** Reading *)

Record ListFilter : Type := mkListFilter {
  fEventType : string;
  fAction : string;
  fPage : Z;
  fPerPage : Z
}.

Definition page_of (f : ListFilter) : Z := if fPage f <=? 0 then 1 else fPage f.
Definition per_page_of (f : ListFilter) : Z :=
  let p := if fPerPage f <=? 0 then 50 else fPerPage f in
  if 200 <? p then 200 else p.

Definition select_events (caseID : uuid) (f : ListFilter) (evs : list Event) : list Event :=
  merge_sort event_le (filter (fun e =>
    evCaseID e = caseID /\
    (fEventType f = "" \/ evEventType e = fEventType f) /\
    (fAction f = "" \/ evAction e = fAction f)) evs).

(** [COALESCE(data, '{}'::jsonb)] *)
Definition coalesce_data (e : Event) : Event :=
  mkEvent (evID e) (evCaseID e) (evStepID e) (evEventType e) (evActorID e) (evActorType e)
    (evAction e) (Some (coalesce_obj (evData e))) (evCreatedAt e) (evPrevHash e) (evHash e).

Definition ListCaseEvents (caseID : uuid) (f : ListFilter) : M (list Event) :=
  let perPage := per_page_of f in
  let offset := wrap64 ((page_of f - 1) * perPage) in
  wrapM (Wrapf "query case events: %w" []) (sql (fun _ _ d =>
    if offset <? 0 then Err (Errorf "OFFSET must not be negative" [])
    else Ok (map coalesce_data
               (take (Z.to_nat perPage) (drop (Z.to_nat offset)
                  (select_events caseID f (case_events d)))), d))).

Definition CaseInTenant (caseID tenantID : uuid) : M bool :=
  wrapM (Wrapf "check case tenant scope: %w" []) (query (fun _ d =>
    match cases d !! caseID with
    | Some c => bool_decide (cTenant c = tenantID)
    | None => false
    end)).

Record VerifyResult : Type := mkVerifyResult {
  vrValid : bool;
  vrEventCount : Z;
  vrBrokenAtIndex : Z;
  vrBrokenEventID : option uuid;
  vrExpectedHash : string;
  vrActualHash : string;
  vrFirstEvent : option Z;
  vrLastEvent : option Z
}.

Definition verify_result (caseID : uuid) (events : list Event) : result goerr VerifyResult :=
  let first := evCreatedAt <$> head events in
  let lst := evCreatedAt <$> last events in
  let n := Z.of_nat (length events) in
  match VerifyChain events with
  | (_, _, Some e) => Err e
  | (valid, brokenAt, None) =>
      match events !! Z.to_nat brokenAt with
      | Some b =>
          if negb valid && (0 <=? brokenAt) then
            let prev := if 0 <? brokenAt
              then match events !! Z.to_nat (brokenAt - 1) with
                   | Some p => evHash p | None => EmptyString
                   end
              else GenesisHash caseID in
            Ok (mkVerifyResult valid n brokenAt (Some (evID b)) (event_hash prev b) (evHash b)
                  first lst)
          else Ok (mkVerifyResult valid n 0 None EmptyString EmptyString first lst)
      | None => Ok (mkVerifyResult valid n 0 None EmptyString EmptyString first lst)
      end
  end.

Definition all_events_filter : ListFilter := mkListFilter EmptyString EmptyString 1 1000000.

Definition VerifyCaseChain (caseID : uuid) : M VerifyResult :=
  events ← ListCaseEvents caseID all_events_filter;
  lift (verify_result caseID events).

(** ** Exports *)

(** The struct tags of [Event]; [time_json] is [time.Time.MarshalJSON]. *)
Definition event_json (e : Event) : json :=
  JObj (mk_obj (
    [("id", JStr (uuid_string (evID e))); ("case_id", JStr (uuid_string (evCaseID e)))] ++
    (if decide (evStepID e = "") then [] else [("step_id", JStr (evStepID e))]) ++
    [("event_type", JStr (evEventType e)); ("actor_id", JStr (uuid_string (evActorID e)));
     ("actor_type", JStr (evActorType e)); ("action", JStr (evAction e))] ++
    match evData e with None => [] | Some d => [("data", d)] end ++
    [("created_at", JStr (time_json (evCreatedAt e)));
     ("prev_event_hash", JStr (evPrevHash e)); ("event_hash", JStr (evHash e))])).

Definition ExportCaseEventsJSON (caseID : uuid) : M json :=
  events ← ListCaseEvents caseID all_events_filter;
  mret (JArr (map event_json events)).

(** [csv.Writer]: fields that need quotes are quoted, quotes are doubled. *)
Definition quote_byte : ascii := "034"%char.
Definition nl_byte : ascii := "010"%char.
Definition cr_byte : ascii := "013"%char.

Definition first_is_space (s : string) : bool :=
  existsb (fun r => HasPrefix s r) space_runes.

Definition fieldNeedsQuotes (f : string) : bool :=
  if decide (f = "") then false
  else if decide (f = "\.") then true
  else char_in "," f || char_in quote_byte f || char_in nl_byte f || char_in cr_byte f
       || first_is_space f.

Fixpoint double_quotes (s : string) : string :=
  match s with
  | EmptyString => EmptyString
  | String c s' =>
      if decide (c = quote_byte) then String c (String c (double_quotes s'))
      else String c (double_quotes s')
  end.

Definition csv_field (f : string) : string :=
  if fieldNeedsQuotes f
  then String quote_byte (double_quotes f +:+ String quote_byte EmptyString) else f.

Definition csv_record (fields : list string) : string :=
  Join "," (map csv_field fields) +:+ String nl_byte EmptyString.

Definition csv_header : list string :=
  ["id"; "case_id"; "step_id"; "event_type"; "actor_id"; "actor_type"; "action"; "data";
   "created_at"; "prev_event_hash"; "event_hash"].

Definition event_csv (e : Event) : list string :=
  [uuid_string (evID e); uuid_string (evCaseID e); evStepID e; evEventType e;
   uuid_string (evActorID e); evActorType e; evAction e;
   match evData e with Some d => jsonb_text d | None => EmptyString end;
   format_rfc3339nano (evCreatedAt e); evPrevHash e; evHash e].

Definition ExportCaseEventsCSV (caseID : uuid) : M string :=
  events ← ListCaseEvents caseID all_events_filter;
  mret (foldl String.append EmptyString
          (map csv_record (csv_header :: map event_csv events))).

End Audit.

(** * Properties of the audit trail

    The specification of a valid chain, the correctness of [VerifyChain], the
    invariant that recording keeps, and what the hashes bind. *)

Section Chains.
Context `{R : Runtime}.

(** ** Valid chains *)

Definition not_before (last : option Event) (e : Event) : Prop :=
  match last with Some l => evCreatedAt l <= evCreatedAt e | None => True end.

Fixpoint chain (caseID : uuid) (last : option Event) (prev : string) (events : list Event) : Prop :=
  match events with
  | [] => True
  | e :: rest =>
      evCaseID e = caseID /\ not_before last e /\ evPrevHash e = prev /\
      evHash e = event_hash prev e /\ chain caseID (Some e) (evHash e) rest
  end.

Definition valid_chain (caseID : uuid) (events : list Event) : Prop :=
  chain caseID None (GenesisHash caseID) events.

Lemma verify_from_spec caseID i last prev events :
  (verify_from caseID i last prev events = (true, -1, None) /\ chain caseID last prev events) \/
  exists j err, verify_from caseID i last prev events = (false, i + Z.of_nat j, err) /\
    (j < length events)%nat /\ chain caseID last prev (take j events) /\
    ~ chain caseID last prev (take (S j) events).
Proof.
  revert i last prev. induction events as [|e rest IH]; intros i lst prev; simpl; [by left|].
  destruct (bool_decide (evCaseID e = caseID)) eqn:H1; simpl; boolp.
  2:{ right. exists 0%nat, (Some mixed_ids). simpl.
      split_and!; [f_equal; f_equal; lia|lia|done|]. by intros [? _]. }
  destruct (match lst with Some l => _ | None => _ end) eqn:H2.
  { right. exists 0%nat, None. simpl. split_and!; [f_equal; f_equal; lia|lia|done|].
    intros (_ & Hn & _). destruct lst as [l|]; [|done]. simpl in Hn. lia. }
  assert (not_before lst e) as Hnb by (destruct lst as [l|]; simpl; [lia|done]).
  destruct (bool_decide (evPrevHash e = prev)) eqn:H3; simpl; boolp.
  2:{ right. exists 0%nat, None. simpl. split_and!; [f_equal; f_equal; lia|lia|done|].
      by intros (_ & _ & ? & _). }
  destruct (bool_decide (event_hash prev e = evHash e)) eqn:H4; simpl; boolp.
  2:{ right. exists 0%nat, None. simpl. split_and!; [f_equal; f_equal; lia|lia|done|].
      intros (_ & _ & _ & ? & _). congruence. }
  destruct (IH (i + 1) (Some e) (evHash e)) as [[-> Hc]|(j & err & -> & Hj & Hc & Hn)].
  - left. done.
  - right. exists (S j), err. split_and!; [f_equal; f_equal; lia|simpl; lia| |].
    + simpl. done.
    + simpl. intros (_ & _ & _ & _ & ?). by apply Hn.
Qed.

Definition last_opt (lst : option Event) (events : list Event) : option Event :=
  match last events with Some e => Some e | None => lst end.
Definition last_hash (prev : string) (events : list Event) : string :=
  match last events with Some e => evHash e | None => prev end.

Lemma chain_snoc caseID lst prev l e :
  chain caseID lst prev (l ++ [e]) <->
  chain caseID lst prev l /\ chain caseID (last_opt lst l) (last_hash prev l) [e].
Proof.
  revert lst prev. induction l as [|a l IH]; intros lst prev.
  - simpl. tauto.
  - change ((a :: l) ++ [e]) with (a :: (l ++ [e])). cbn [chain].
    rewrite IH. cbn [chain].
    assert (last_opt (Some a) l = last_opt lst (a :: l)) as ->
      by (unfold last_opt; rewrite last_cons; by destruct (last l)).
    assert (last_hash (evHash a) l = last_hash prev (a :: l)) as ->
      by (unfold last_hash; rewrite last_cons; by destruct (last l)).
    tauto.
Qed.

Lemma chain_take caseID lst prev n l :
  chain caseID lst prev l -> chain caseID lst prev (take n l).
Proof.
  revert n lst prev. induction l as [|a l IH]; intros [|n] lst prev; simpl; try done.
  intros (? & ? & ? & ? & ?). split_and!; auto.
Qed.

Lemma valid_chain_verify caseID l :
  valid_chain caseID l -> VerifyChain l = (true, -1, None).
Proof.
  unfold valid_chain, VerifyChain. destruct l as [|e l]; [done|]. intros Hc.
  assert (evCaseID e = caseID) as -> by (by destruct Hc).
  destruct (verify_from_spec caseID 0 None (GenesisHash caseID) (e :: l))
    as [[-> _]|(j & err & _ & _ & _ & Hn)]; [done|].
  by destruct Hn; apply chain_take.
Qed.

(** ** Recording *)

Definition events_of (caseID : uuid) (evs : list Event) : list Event :=
  filter (fun e => evCaseID e = caseID) evs.

Definition before (a b : Event) : Prop := evCreatedAt a < evCreatedAt b.

(** The trail of one case: a valid chain, strictly ordered in time, each event
    with its data. *)
Record trail_ok (caseID : uuid) (evs : list Event) : Prop := mk_trail_ok {
  trail_chain : valid_chain caseID (events_of caseID evs);
  trail_sorted : StronglySorted before (events_of caseID evs);
  trail_data : Forall (fun e => is_Some (evData e)) (events_of caseID evs);
  trail_times : Forall (fun e => time_zero < evCreatedAt e) (events_of caseID evs)
}.

Definition trails_ok (d : DB) : Prop := forall caseID, trail_ok caseID (case_events d).

Lemma events_of_app c l1 l2 : events_of c (l1 ++ l2) = events_of c l1 ++ events_of c l2.
Proof. apply filter_app. Qed.

Lemma events_of_one c e :
  events_of c [e] = if decide (evCaseID e = c) then [e] else [].
Proof. unfold events_of. rewrite filter_cons, filter_nil. done. Qed.

Lemma StronglySorted_snoc {A} (Q : A -> A -> Prop) l x :
  StronglySorted Q (l ++ [x]) <-> StronglySorted Q l /\ Forall (fun y => Q y x) l.
Proof.
  induction l as [|a l IH]; simpl.
  - split; [by repeat constructor|]. intros _. repeat constructor.
  - split.
    + intros HH. inversion HH as [|? ? Hs Hf]; subst. apply IH in Hs as [? ?].
      apply Forall_app in Hf as [? Hx]. inversion Hx; subst. split; by constructor.
    + intros [Hs Hf]. inversion Hs; inversion Hf; subst. constructor; [by apply IH|].
      apply Forall_app. split; [done|]. by repeat constructor.
Qed.

Lemma last_event_sorted caseID evs :
  StronglySorted before (events_of caseID evs) ->
  last_event caseID evs = last (events_of caseID evs).
Proof.
  unfold last_event. induction evs as [|e evs IH] using rev_ind; [done|].
  rewrite foldl_app; simpl. rewrite events_of_app, events_of_one.
  case_decide as Hc; [|by rewrite app_nil_r].
  intros [Hs Hf]%StronglySorted_snoc. rewrite (IH Hs), last_snoc.
  destruct (last (events_of caseID evs)) as [a|] eqn:Hl; [|done].
  rewrite decide_True; [done|]. left.
  rewrite Forall_forall in Hf. apply Hf. by apply last_Some_elem_of.
Qed.

Lemma event_time_after prevCreated t :
  prevCreated <> time_zero -> prevCreated < event_time prevCreated t.
Proof.
  intros Hz. unfold event_time. destruct (prevCreated =? time_zero) eqn:E; [lia|]. simpl.
  destruct (prevCreated <? Truncate t Microsecond) eqn:E2; simpl; [lia|].
  unfold Microsecond. lia.
Qed.

(** What a recorded event looks like. *)
Record recorded (caseID : uuid) (stepID eventType : string) (actorID : uuid)
    (actorType action : string) (data : json) (evs : list Event) (e : Event) : Prop :=
  mk_recorded {
    rec_case : evCaseID e = caseID;
    rec_step : evStepID e = stepID;
    rec_type : evEventType e = eventType;
    rec_actor : evActorID e = actorID;
    rec_actor_type : evActorType e = actorType;
    rec_action : evAction e = action;
    rec_data : evData e = Some data;
    rec_prev : evPrevHash e =
      match last_event caseID evs with Some l => evHash l | None => GenesisHash caseID end;
    rec_hash : evHash e = event_hash (evPrevHash e) e;
    rec_time : exists k, evCreatedAt e = event_time
      match last_event caseID evs with Some l => evCreatedAt l | None => time_zero end
      (wall_clock k)
  }.

Lemma event_time_sane `{!RuntimeLaws R} prevCreated k :
  time_zero <= prevCreated -> time_zero < event_time prevCreated (wall_clock k).
Proof.
  intros Hp. pose proof (clock_sane k) as Hk. unfold event_time.
  case_match; [unfold Microsecond; lia|]. unfold Truncate, Microsecond in *.
  assert (time_zero + 1000 = (time_zero / 1000 + 1) * 1000) as Hz by reflexivity.
  assert (time_zero / 1000 + 1 <= wall_clock k / 1000) by (apply Z.div_le_lower_bound; lia).
  nia.
Qed.

Lemma trail_ok_snoc `{!RuntimeLaws R} caseID0 stepID ty actor at_ action data evs e caseID :
  recorded caseID0 stepID ty actor at_ action data evs e ->
  trail_ok caseID evs -> trail_ok caseID (evs ++ [e]).
Proof.
  intros Hr [Hc Hs Hd Hz]. destruct (decide (caseID0 = caseID)) as [->|Hne].
  2:{ assert (events_of caseID (evs ++ [e]) = events_of caseID evs) as Heq.
      { rewrite events_of_app, events_of_one, decide_False, app_nil_r; [done|].
        by rewrite (rec_case _ _ _ _ _ _ _ _ _ Hr). }
      split; by rewrite Heq. }
  assert (events_of caseID (evs ++ [e]) = events_of caseID evs ++ [e]) as Heq.
  { rewrite events_of_app, events_of_one, decide_True; [done|]. apply Hr. }
  destruct Hr as [Hcase _ _ _ _ _ Hdata Hprev Hhash (t & Ht)].
  rewrite (last_event_sorted _ _ Hs) in *.
  assert (forall a, last (events_of caseID evs) = Some a -> evCreatedAt a < evCreatedAt e) as Hlt.
  { intros a Ha. rewrite Ha in Ht. rewrite Ht. apply event_time_after.
    rewrite Forall_forall in Hz. apply last_Some_elem_of, Hz in Ha. lia. }
  split; rewrite Heq.
  - apply chain_snoc. split; [done|]. cbn [chain]. unfold last_opt, last_hash.
    split_and!; [done| | | |done].
    + destruct (last (events_of caseID evs)) as [a|]; simpl; [|done].
      specialize (Hlt a eq_refl). lia.
    + rewrite Hprev. by destruct (last _).
    + rewrite Hhash, Hprev. by destruct (last _).
  - apply StronglySorted_snoc. split; [done|].
    destruct (events_of caseID evs) as [|x l] eqn:Hl using rev_ind; [constructor|]. clear IHl.
    apply StronglySorted_snoc in Hs as [_ Hf].
    assert (evCreatedAt x < evCreatedAt e) as Hx by (apply Hlt; apply last_snoc).
    apply Forall_app. split; [|by repeat constructor].
    eapply Forall_impl; [exact Hf|]. unfold before. intros; lia.
  - apply Forall_app. split; [done|]. repeat constructor. rewrite Hdata. eauto.
  - apply Forall_app. split; [done|]. constructor; [|constructor]. rewrite Ht.
    apply event_time_sane. destruct (last (events_of caseID evs)) as [a|] eqn:Ha; [|lia].
    rewrite Forall_forall in Hz. apply last_Some_elem_of, Hz in Ha. lia.
Qed.

(** [RecordCaseEventTx] appends one event, or fails and changes nothing. *)
Lemma RecordCaseEventTx_spec caseID stepID ty actor at_ action data w :
  let (r, w') := RecordCaseEventTx caseID stepID ty actor at_ action data w in
  saved w' = saved w /\ published w' = published w /\ jobs w' = jobs w /\
  match r with
  | Ok _ =>
      IsRegistered ty action = true /\ is_Some (cases (db w) !! caseID) /\
      exists e, recorded caseID stepID ty actor at_ action data (case_events (db w)) e /\
        db w' = set_events (fun l => l ++ [e]) (db w) /\ pending w' = pending w ++ [e]
  | Err _ => db w' = db w /\ pending w' = pending w
  end.
Proof.
  unfold RecordCaseEventTx. destruct (IsRegistered ty action) eqn:Hreg; [|by split_and!].
  cbn [negb]. unfold mbind, M_bind, wrapM, query, sql, time_Now, modify.
  destruct (fault (tick w)); [by split_and!|]. cbn [tick with_db next_tick db].
  destruct (fault (S (tick w))); [by split_and!|]. cbn [tick with_db next_tick db].
  destruct (match last_event caseID (case_events (db w)) with Some _ => _ | None => _ end)
    as [prev prevCreated] eqn:Hrow.
  cbn [tick with_db next_tick db].
  destruct (fault (S (S (S (tick w))))); [by split_and!|].
  unfold insert_event. cbn [evCaseID evActorType evID].
  destruct (cases (db w) !! caseID) as [c|] eqn:Hcase; [|by split_and!].
  case_decide as Hat; [|by split_and!]. case_decide as Hid; [by split_and!|].
  simpl. split_and!; [done|done|done|done|eauto|].
  eexists. split; [|by split].
  split; try done; simpl.
  - destruct (last_event caseID (case_events (db w))); by injection Hrow as <- <-.
  - exists (S (S (tick w))).
    destruct (last_event caseID (case_events (db w))); by injection Hrow as <- <-.
Qed.

(** The trails stay valid. *)
Definition keeps_trails (d d' : DB) : Prop := trails_ok d -> trails_ok d'.

#[export] Instance keeps_trails_preorder : PreOrder keeps_trails.
Proof. split; unfold keeps_trails; [intros d Hd; exact Hd|intros a b c Hab Hbc Ha; auto]. Qed.

Lemma set_events_trails `{!RuntimeLaws R} caseID stepID ty actor at_ action data d e :
  recorded caseID stepID ty actor at_ action data (case_events d) e ->
  keeps_trails d (set_events (fun l => l ++ [e]) d).
Proof. intros Hr Hd c. simpl. eapply trail_ok_snoc; [exact Hr|apply Hd]. Qed.

Lemma RecordCaseEventTx_keeps (P : DB -> DB -> Prop) `{!PreOrder P}
    caseID stepID ty actor at_ action data :
  (forall d e, recorded caseID stepID ty actor at_ action data (case_events d) e ->
     is_Some (cases d !! caseID) -> P d (set_events (fun l => l ++ [e]) d)) ->
  keeps P (RecordCaseEventTx caseID stepID ty actor at_ action data).
Proof.
  intros HP w. pose proof (RecordCaseEventTx_spec caseID stepID ty actor at_ action data w) as Hs.
  destruct (RecordCaseEventTx _ _ _ _ _ _ _ w) as [[[]|e] w'].
  - destruct Hs as (Hs & _ & _ & _ & Hc & ev & Hr & Hdb & _).
    apply world_rel_db; [done|]. simpl. rewrite Hdb. by apply HP.
  - destruct Hs as (Hs & _ & _ & Hdb & _). apply world_rel_db; [done|].
    simpl. by rewrite Hdb.
Qed.

(** ** Reading a valid trail *)

Lemma before_event_le (l : list Event) : StronglySorted before l -> StronglySorted event_le l.
Proof.
  induction 1 as [|a l Hs IH Hf]; constructor; [done|].
  eapply Forall_impl; [exact Hf|]. intros x Hx. by left.
Qed.

Lemma sorted_same_time (l : list Event) x y :
  StronglySorted before l -> x ∈ l -> y ∈ l -> evCreatedAt x = evCreatedAt y -> x = y.
Proof.
  induction 1 as [|a l Hs IH Hf]; intros Hx Hy Heq; [by apply not_elem_of_nil in Hx|].
  rewrite Forall_forall in Hf. unfold before in Hf.
  apply elem_of_cons in Hx as [->|Hx]; apply elem_of_cons in Hy as [->|Hy]; auto.
  - apply Hf in Hy. lia.
  - apply Hf in Hx. lia.
Qed.

#[export] Instance event_le_trans : Transitive event_le.
Proof. intros a b c. unfold event_le. lia. Qed.
#[export] Instance event_le_total : Total event_le.
Proof. intros a b. unfold event_le. lia. Qed.

Lemma merge_sort_before (l : list Event) :
  StronglySorted before l -> merge_sort event_le l = l.
Proof.
  intros Hs. apply (StronglySorted_unique_strong event_le).
  - intros x1 x2 Hx1 Hx2 [H1|[H1 _]] [H3|[H3 _]]; try lia.
    rewrite merge_sort_Permutation in Hx1.
    eapply sorted_same_time; eauto.
  - apply StronglySorted_merge_sort; apply _.
  - by apply before_event_le.
  - apply merge_sort_Permutation.
Qed.

End Chains.
