(* ===== verification/AuditClaims.v ===== *)
(** * What the audit trail guarantees

    Recording keeps every trail valid, verification finds the first broken
    event, the last hash of a valid chain binds every event before it, and what
    [VerifyCaseChain] leaves unread. *)

From S2P Require Import Prelude GoStrings Json EngineTypes Store AuditTrail.

Section Reading.
Context `{R : Runtime}.

Lemma select_events_all caseID (d : DB) :
  trail_ok caseID (case_events d) ->
  select_events caseID all_events_filter (case_events d) = events_of caseID (case_events d).
Proof.
  intros [_ Hs _ _]. unfold select_events.
  rewrite (list_filter_iff _ (fun e => evCaseID e = caseID)).
  - by apply merge_sort_before.
  - intros e. simpl. tauto.
Qed.

Lemma coalesce_data_id e : is_Some (evData e) -> coalesce_data e = e.
Proof. intros [j Hj]. unfold coalesce_data. rewrite Hj. simpl. rewrite <- Hj. by destruct e. Qed.

Lemma map_coalesce l : Forall (fun e => is_Some (evData e)) l -> map coalesce_data l = l.
Proof. induction 1; simpl; [done|]. rewrite coalesce_data_id; [congruence|done]. Qed.

Lemma all_filter_pages :
  per_page_of all_events_filter = 200 /\
  wrap64 ((page_of all_events_filter - 1) * per_page_of all_events_filter) = 0.
Proof. by split. Qed.

(** The events the verification and the exports read: the first 200. *)
Lemma ListCaseEvents_all caseID w :
  fault (tick w) = None ->
  ListCaseEvents caseID all_events_filter w =
  (Ok (map coalesce_data (take 200 (select_events caseID all_events_filter (case_events (db w))))),
   with_db (db w) (next_tick w)).
Proof.
  intros Hf. unfold ListCaseEvents. destruct all_filter_pages as [-> Hw].
  change (wrap64 ((page_of all_events_filter - 1) * 200)) with 0.
  unfold wrapM, sql. rewrite Hf. done.
Qed.

Lemma verify_result_valid caseID l :
  valid_chain caseID l ->
  verify_result caseID l =
  Ok (mkVerifyResult true (Z.of_nat (length l)) 0 None EmptyString EmptyString
        (evCreatedAt <$> head l) (evCreatedAt <$> last l)).
Proof.
  intros Hv. unfold verify_result. rewrite (valid_chain_verify _ _ Hv).
  by destruct (l !! Z.to_nat (-1)).
Qed.

(** ** What the hashes bind *)

(** The part of an event its hash covers beside the previous hash. *)
Definition body_text (e : Event) : string :=
  evEventType e +:+ uuid_string (evActorID e) +:+ evAction e +:+
  canonicalJSON (evData e) +:+ format_rfc3339nano (evCreatedAt e).

Lemma event_hash_payload prev e : event_hash prev e = sha256_hex (prev +:+ body_text e).
Proof. done. Qed.

(** The text [ComputeHash] digests for an event as it is stored. *)
Definition hashed_text (e : Event) : string := evPrevHash e +:+ body_text e.

(** The events at position [i] of the two trails are a SHA-256 collision: their
    hashed texts differ, but have one digest, the hash both events carry. *)
Definition collides_at (i : nat) (l1 l2 : list Event) : Prop :=
  exists e1 e2, l1 !! i = Some e1 /\ l2 !! i = Some e2 /\
    hashed_text e1 <> hashed_text e2 /\
    sha256_hex (hashed_text e1) = sha256_hex (hashed_text e2) /\
    evHash e1 = sha256_hex (hashed_text e1) /\ evHash e2 = evHash e1.

Definition same_body (e1 e2 : Event) : Prop :=
  body_text e1 = body_text e2 /\ evHash e1 = evHash e2.

Lemma last_hash_length `{!RuntimeLaws R} caseID l :
  valid_chain caseID l -> String.length (last_hash (GenesisHash caseID) l) = 64%nat.
Proof.
  unfold valid_chain. induction l as [|e l _] using rev_ind; intros Hv.
  - unfold last_hash. simpl. unfold GenesisHash. apply sha256_length.
  - apply chain_snoc in Hv as [_ (_ & _ & _ & Hh & _)]. unfold last_hash at 1.
    rewrite last_snoc, Hh. apply sha256_length.
Qed.

(** Reading two chains back from their equal last hashes: the events agree
    down to the first position, from the end, at which two texts collide. *)
Lemma chain_binding `{!RuntimeLaws R} caseID l1 l2 :
  length l1 = length l2 -> valid_chain caseID l1 -> valid_chain caseID l2 ->
  last_hash (GenesisHash caseID) l1 = last_hash (GenesisHash caseID) l2 ->
  Forall2 same_body l1 l2 \/
  exists i, collides_at i l1 l2 /\ Forall2 same_body (drop (S i) l1) (drop (S i) l2).
Proof.
  revert l2. induction l1 as [|e1 l1 IH] using rev_ind; intros l2 Hlen H1 H2 Hh.
  - destruct l2; [|done]. left. constructor.
  - destruct l2 as [|e2 l2 _] using rev_ind; [rewrite length_app in Hlen; simpl in Hlen; lia|].
    rewrite !length_app in Hlen. simpl in Hlen.
    apply chain_snoc in H1 as [H1 (_ & _ & Hp1 & Hh1 & _)].
    apply chain_snoc in H2 as [H2 (_ & _ & Hp2 & Hh2 & _)].
    unfold last_hash at 1 2 in Hh. rewrite !last_snoc in Hh.
    rewrite <- Hp1 in Hh1. rewrite <- Hp2 in Hh2. rewrite event_hash_payload in Hh1, Hh2.
    fold (hashed_text e1) in Hh1. fold (hashed_text e2) in Hh2.
    destruct (decide (hashed_text e1 = hashed_text e2)) as [Hp|Hne].
    + apply append_inj_len in Hp as [Hprev Hbody];
        [|by rewrite Hp1, Hp2, !last_hash_length].
      destruct (IH l2) as [Hb|(i & Hc & Hd)]; [lia|done|done|congruence| |].
      * left. by apply Forall2_app; [|constructor].
      * right. exists i. destruct Hc as (x1 & x2 & Hx1 & Hx2 & Hc).
        assert (i < length l1)%nat by (by apply lookup_lt_is_Some; exists x1).
        split.
        { exists x1, x2. by split_and!; [apply lookup_app_l_Some..|apply Hc|apply Hc|apply Hc|apply Hc]. }
        rewrite !drop_app_le by lia. by apply Forall2_app; [|constructor].
    + right. exists (length l1). split.
      * exists e1, e2. split_and!; [by apply list_lookup_middle| |done|congruence|done|done].
        apply list_lookup_middle. lia.
      * rewrite !drop_ge by (rewrite length_app; simpl; lia). constructor.
Qed.

(** Registered event types and actions are prefix-free, so the text an event
    contributes to its hash determines its type, actor and action. *)

Definition types_of (reg : list (string * list string)) : list string := map fst reg.

Definition prefix_free (l : list string) : bool :=
  forallb (fun a => forallb (fun b => bool_decide (a = b) || negb (HasPrefix b a)) l) l.

Lemma append_prefix a b x y : a +:+ x = b +:+ y -> HasPrefix b a = true \/ HasPrefix a b = true.
Proof.
  revert b. induction a as [|c a IH]; intros [|d b] Heq.
  - by left.
  - left. apply HasPrefix_spec. by exists (String d b).
  - right. apply HasPrefix_spec. by exists (String c a).
  - injection Heq as <- Heq. destruct (IH _ Heq) as [Hp|Hp]; [left|right];
      apply HasPrefix_spec in Hp as [t ->]; apply HasPrefix_spec; by exists t.
Qed.

Lemma prefix_free_spec l a b x y :
  prefix_free l = true -> a ∈ l -> b ∈ l -> a +:+ x = b +:+ y -> a = b.
Proof.
  intros Hp Ha Hb Heq. unfold prefix_free in Hp. rewrite forallb_forall in Hp.
  pose proof (Hp a (proj1 (list_elem_of_In _ _) Ha)) as H1.
  pose proof (Hp b (proj1 (list_elem_of_In _ _) Hb)) as H2.
  rewrite forallb_forall in H1, H2.
  specialize (H1 b (proj1 (list_elem_of_In _ _) Hb)).
  specialize (H2 a (proj1 (list_elem_of_In _ _) Ha)).
  destruct (append_prefix _ _ _ _ Heq) as [Hx|Hx]; rewrite Hx in *; simpl in *;
    rewrite ?orb_false_r in *; boolp; congruence.
Qed.

Lemma assoc_elem {A} k (l : list (string * A)) a : assoc k l = Some a -> (k, a) ∈ l.
Proof.
  induction l as [|[k' a'] l IH]; simpl; [done|]. case_decide as Hk.
  - intros [= ->]. subst. by left.
  - intros Ha. right. by apply IH.
Qed.

Lemma assoc_types k reg a : assoc k reg = Some a -> k ∈ types_of reg.
Proof. intros Ha%assoc_elem. apply list_elem_of_fmap. by exists (k, a). Qed.

Lemma registry_prefix_free :
  prefix_free (types_of EventTypeRegistry) = true /\
  forallb (fun r => prefix_free r.2) EventTypeRegistry = true.
Proof. by split; vm_compute. Qed.

Definition covered (e : Event) : string :=
  canonicalJSON (evData e) +:+ format_rfc3339nano (evCreatedAt e).

Lemma body_text_inj e1 e2 :
  IsRegistered (evEventType e1) (evAction e1) = true ->
  IsRegistered (evEventType e2) (evAction e2) = true ->
  body_text e1 = body_text e2 ->
  evEventType e1 = evEventType e2 /\ uuid_string (evActorID e1) = uuid_string (evActorID e2) /\
  evAction e1 = evAction e2 /\ covered e1 = covered e2.
Proof.
  unfold IsRegistered, body_text. intros H1 H2 Hb.
  destruct (assoc (evEventType e1) _) as [acts1|] eqn:Ha1; [|done].
  destruct (assoc (evEventType e2) _) as [acts2|] eqn:Ha2; [|done]. boolp.
  destruct registry_prefix_free as [Ht Hacts].
  assert (evEventType e1 = evEventType e2) as Hty.
  { eapply (prefix_free_spec _ _ _ _ _ Ht); [| |exact Hb]; by eapply assoc_types. }
  rewrite Hty in *. rewrite Ha1 in Ha2. injection Ha2 as ->.
  apply append_inj_len in Hb as [_ Hb]; [|done].
  apply append_inj_len in Hb as [Hu Hb]; [|by rewrite !uuid_string_length].
  assert (evAction e1 = evAction e2) as Hac.
  { eapply prefix_free_spec; [|exact H1|exact H2|exact Hb].
    rewrite forallb_forall in Hacts. apply (Hacts (evEventType e2, acts2)).
    apply list_elem_of_In. by apply assoc_elem. }
  rewrite Hac in Hb. apply append_inj_len in Hb as [_ Hb]; done.
Qed.

Definition same_content (e1 e2 : Event) : Prop :=
  evEventType e1 = evEventType e2 /\ uuid_string (evActorID e1) = uuid_string (evActorID e2) /\
  evAction e1 = evAction e2 /\ covered e1 = covered e2 /\ evHash e1 = evHash e2.

Lemma same_bodies l1 l2 :
  Forall (fun e => IsRegistered (evEventType e) (evAction e) = true) l1 ->
  Forall (fun e => IsRegistered (evEventType e) (evAction e) = true) l2 ->
  Forall2 same_body l1 l2 -> Forall2 same_content l1 l2.
Proof.
  intros H1 H2 Hs. revert H1 H2.
  induction Hs as [|e1 e2 l1 l2 [Hb Hh] _ IH]; intros H1 H2; [constructor|].
  inversion H1; inversion H2; subst. constructor; [|by apply IH].
  destruct (body_text_inj e1 e2) as (? & ? & ? & ?); auto. by unfold same_content.
Qed.

End Reading.

(** ** The claims *)

(** C9. [RecordCaseEventTx] appends exactly one event to the trail, linked to
    the case's latest event and later in time than it, so that every trail that
    was a valid, time-ordered chain still is; it succeeds only for a registered
    type and action on an existing case; when it fails the tables and the
    events waiting for the commit are unchanged. *)
Theorem RecordCaseEventTx_correct `{R : Runtime} `{!RuntimeLaws R}
    caseID stepID ty actor actorType action data w r w' :
  trails_ok (db w) ->
  RecordCaseEventTx caseID stepID ty actor actorType action data w = (r, w') ->
  trails_ok (db w') /\
  match r with
  | Ok _ =>
      IsRegistered ty action = true /\ is_Some (cases (db w) !! caseID) /\
      exists e, recorded caseID stepID ty actor actorType action data (case_events (db w)) e /\
        (forall l, last_event caseID (case_events (db w)) = Some l ->
           evCreatedAt l < evCreatedAt e) /\
        db w' = set_events (fun l => l ++ [e]) (db w) /\ pending w' = pending w ++ [e]
  | Err _ => db w' = db w /\ pending w' = pending w
  end.
Proof.
  intros Ht Heq.
  pose proof (RecordCaseEventTx_spec caseID stepID ty actor actorType action data w) as Hs.
  rewrite Heq in Hs. destruct Hs as (_ & _ & _ & Hs). destruct r as [[]|e].
  - destruct Hs as (Hreg & Hc & e & Hr & Hdb & Hp). rewrite Hdb. split.
    { by eapply set_events_trails. }
    split_and!; [done|done|]. exists e. split_and!; [done| |done|done].
    intros l Hl. destruct (rec_time _ _ _ _ _ _ _ _ _ Hr) as [k Hk]. rewrite Hl in Hk.
    rewrite Hk. apply event_time_after.
    destruct (Ht caseID) as [_ Hsort _ Hz]. rewrite last_event_sorted in Hl by done.
    rewrite Forall_forall in Hz. apply last_Some_elem_of, Hz in Hl. lia.
  - destruct Hs as (Hdb & Hp). by rewrite Hdb.
Qed.

(** [VerifyChain] accepts exactly the valid chains; otherwise the index it
    returns is that of the first event at which the chain breaks. *)
Theorem VerifyChain_correct `{R : Runtime} e l :
  let events := e :: l in
  (VerifyChain events = (true, -1, None) /\ valid_chain (evCaseID e) events) \/
  exists j err, VerifyChain events = (false, Z.of_nat j, err) /\ (j < length events)%nat /\
    valid_chain (evCaseID e) (take j events) /\ ~ valid_chain (evCaseID e) (take (S j) events).
Proof.
  unfold VerifyChain, valid_chain.
  destruct (verify_from_spec (evCaseID e) 0 None (GenesisHash (evCaseID e)) (e :: l))
    as [?|(j & err & Hv & Hr)]; [by left|right]. exists j, err. by rewrite Hv.
Qed.

(** C10. Tamper evidence: two valid chains of registered events of one case,
    with as many events and the same last hash, agree event by event on what
    [ComputeHash] covers (the type, the actor, the action, the text of the data
    followed by the time, and the hash itself), unless the two events at some
    position have different hashed texts with one SHA-256 digest, in which case
    all the later events still agree. *)
Theorem chain_tamper_evident `{R : Runtime} `{!RuntimeLaws R} caseID l1 l2 :
  length l1 = length l2 -> valid_chain caseID l1 -> valid_chain caseID l2 ->
  Forall (fun e => IsRegistered (evEventType e) (evAction e) = true) l1 ->
  Forall (fun e => IsRegistered (evEventType e) (evAction e) = true) l2 ->
  last_hash (GenesisHash caseID) l1 = last_hash (GenesisHash caseID) l2 ->
  Forall2 same_content l1 l2 \/
  exists i, collides_at i l1 l2 /\ Forall2 same_content (drop (S i) l1) (drop (S i) l2).
Proof.
  intros Hlen H1 H2 Hr1 Hr2 Hh.
  destruct (chain_binding caseID l1 l2 Hlen H1 H2 Hh) as [?|(i & Hc & Hs)].
  - left. by apply same_bodies.
  - right. exists i. split; [done|]. by apply same_bodies; [apply Forall_drop|apply Forall_drop|].
Qed.

(** [VerifyCaseChain] reports a recorded trail valid, but reads no more
    than 200 of its events: the count it reports is capped, and trails that
    differ only after the first 200 events get the same report, so a change of
    a later event goes unnoticed. *)
Theorem VerifyCaseChain_first_200 `{R : Runtime} caseID w w' :
  fault (tick w) = None -> tick w' = tick w ->
  trail_ok caseID (case_events (db w)) ->
  take 200 (select_events caseID all_events_filter (case_events (db w'))) =
    take 200 (events_of caseID (case_events (db w))) ->
  (VerifyCaseChain caseID w').1 = (VerifyCaseChain caseID w).1 /\
  exists res, (VerifyCaseChain caseID w).1 = Ok res /\ vrValid res = true /\
    vrEventCount res = Z.min 200 (Z.of_nat (length (events_of caseID (case_events (db w))))).
Proof.
  intros Hf Ht Htr Htake. unfold VerifyCaseChain, mbind, M_bind, lift.
  rewrite (ListCaseEvents_all caseID w Hf), (ListCaseEvents_all caseID w') by congruence.
  rewrite Htake, (select_events_all _ _ Htr). cbn [fst]. split; [done|].
  destruct Htr as [Hc _ Hd _]. rewrite map_coalesce by (by apply Forall_take).
  rewrite verify_result_valid by (by apply chain_take).
  eexists. split; [reflexivity|]. split; [done|]. simpl. rewrite length_take. lia.
Qed.

(** ** Witnesses *)

Definition example_case : CaseRow :=
  mkCaseRow 1 2 "LOAN-000001" CaseOpen (JObj []) 1 0 None 0 3 1 0 7 None.

Definition example_db : DB := mkDB {[ 5%N := example_case ]} ∅ [] ∅ ∅ [] ∅ ∅ ∅ ∅.
Definition example_world : World := mkWorld example_db None 0 0 [] [] [].

Definition example_record (w : World) : World :=
  (RecordCaseEventTx (R := example_runtime) 5 "" "case" 1 "human" "created" (JObj []) w).2.

Lemma example_trails : trails_ok (R := example_runtime) (db example_world).
Proof. intros c. split; constructor. Qed.

Lemma RecordCaseEventTx_correct_witness :
  trails_ok (R := example_runtime) (db (example_record example_world)) /\
  length (case_events (db (example_record example_world))) = 1%nat.
Proof.
  split; [|vm_compute; reflexivity].
  destruct (RecordCaseEventTx (R := example_runtime) 5 "" "case" 1 "human" "created" (JObj [])
    example_world) as [r w'] eqn:Heq.
  unfold example_record. rewrite Heq.
  refine (proj1 (RecordCaseEventTx_correct (R := example_runtime)
    (RuntimeLaws0 := example_runtime_laws) _ _ _ _ _ _ _ _ _ _ example_trails Heq)).
Defined.

Definition example_events : list Event :=
  case_events (db (example_record (example_record example_world))).

Lemma example_events_valid : valid_chain (R := example_runtime) 5 example_events.
Proof. vm_compute. repeat (split; [first [reflexivity|discriminate|exact I]|]). exact I. Qed.

Lemma example_events_length : length example_events = 2%nat.
Proof. vm_compute. reflexivity. Qed.

Lemma example_events_registered :
  Forall (fun e => IsRegistered (evEventType e) (evAction e) = true) example_events.
Proof. vm_compute. repeat constructor. Qed.

(** The same trail after someone has rewritten the steps of its events, which
    no hash covers. *)
Definition example_rewritten : list Event :=
  map (fun e => mkEvent (evID e) (evCaseID e) "other" (evEventType e) (evActorID e) (evActorType e)
    (evAction e) (evData e) (evCreatedAt e) (evPrevHash e) (evHash e)) example_events.

Lemma example_rewritten_valid : valid_chain (R := example_runtime) 5 example_rewritten.
Proof. vm_compute. repeat (split; [first [reflexivity|discriminate|exact I]|]). exact I. Qed.

Lemma chain_tamper_evident_witness :
  length example_events = 2%nat /\ example_rewritten <> example_events /\
  (Forall2 (same_content (R := example_runtime)) example_events example_rewritten \/
   exists i, collides_at (R := example_runtime) i example_events example_rewritten /\
     Forall2 (same_content (R := example_runtime))
       (drop (S i) example_events) (drop (S i) example_rewritten)).
Proof.
  split; [apply example_events_length|]. split; [vm_compute; discriminate|].
  apply (chain_tamper_evident (R := example_runtime) (RuntimeLaws0 := example_runtime_laws) 5);
    [vm_compute; reflexivity|apply example_events_valid|apply example_rewritten_valid
    |apply example_events_registered|vm_compute; repeat constructor|vm_compute; reflexivity].
Defined.

Lemma VerifyCaseChain_first_200_witness :
  exists res, (VerifyCaseChain (R := example_runtime) 5 (example_record example_world)).1 = Ok res /\
    vrValid res = true /\ vrEventCount res = 1.
Proof.
  apply (VerifyCaseChain_first_200 (R := example_runtime) 5 (example_record example_world)
    (example_record example_world)).
  - reflexivity.
  - reflexivity.
  - destruct (RecordCaseEventTx (R := example_runtime) 5 "" "case" 1 "human" "created" (JObj [])
      example_world) as [r w'] eqn:Heq.
    unfold example_record. rewrite Heq. simpl.
    pose proof (RecordCaseEventTx_spec (R := example_runtime) 5 "" "case" 1 "human" "created"
      (JObj []) example_world) as Hs. rewrite Heq in Hs.
    assert (r = Ok tt) as -> by (vm_compute in Heq; injection Heq as <- _; reflexivity).
    destruct Hs as (_ & _ & _ & _ & _ & e & Hr & Hdb & _). rewrite Hdb.
    eapply (set_events_trails (R := example_runtime) (RuntimeLaws0 := example_runtime_laws));
      [exact Hr|apply example_trails].
  - vm_compute. reflexivity.
Defined.
