(* ===== verification/EngineOps.v ===== *)
(** * The operations of the engine

    [engine.go], [step_terminal.go], [execution_retry.go], [cancel.go],
    [recovery.go], [sla.go] and [status.go] of [internal/engine]: each handler
    with every statement it runs, in the order it runs them. Metrics and log
    lines are left out; the queries that feed the metrics are kept, because a
    statement takes part in the fault model. A step executor, the escalation
    callback and the expression evaluator are parameters. *)

From S2P Require Import Prelude GoStrings Json EngineTypes EngineAst EngineCompute Store AuditTrail.

(** ** Rows *)

Definition with_state (r : StepRow) (s : step_state) : StepRow :=
  mkStepRow (sID r) s (sStartedAt r) (sCompletedAt r) (sResult r) (sEvents r) (sError r)
    (sAssignedTo r) (sSlaDeadline r) (sRetryCount r) (sDraftData r) (sMetadata r).

Definition touch_case (now : Z) (c : CaseRow) : CaseRow :=
  mkCaseRow (cTenant c) (cCaseType c) (cNumber c) (cStatus c) (cData c) (cVersion c) now
    (cAssignedTo c) (cPriority c) (cWorkflowID c) (cWorkflowVersion c)
    (cCreatedAt c) (cCreatedBy c) (cDueAt c).

(** The rows of a case; a query without [ORDER BY] lists them in some order. *)
Definition rows_of (caseID : uuid) (d : DB) : gmap string StepRow :=
  default ∅ (map_curry (M1 := gmap uuid) (M2 := gmap string) (case_steps d) !! caseID).
Definition step_rows (caseID : uuid) (d : DB) : list (string * StepRow) :=
  map_to_list (rows_of caseID d).

(** [UPDATE case_steps SET ... WHERE case_id = $1 AND ...] *)
Definition update_steps_of (caseID : uuid) (ok : StepRow -> bool) (f : StepRow -> StepRow)
    (d : DB) : DB :=
  set_steps (map_imap (fun k r =>
    Some (if bool_decide (k.1 = caseID) && ok r then f r else r))) d.

Definition any_case (_ : CaseRow) : bool := true.

Definition opt_field (k : string) (o : option json) : list (string * json) :=
  match o with Some j => [(k, j)] | None => [] end.
Definition str_field (k s : string) : list (string * json) :=
  if decide (s = "") then [] else [(k, JStr s)].

(** [json.Marshal(result)], all fields [omitempty]. *)
Definition marshal_StepResult (r : StepResult) : json :=
  JObj (mk_obj (
    str_field "outcome" (srOutcome r) ++ opt_field "output" (srOutput r) ++
    (if srWritesCaseData r then [("writes_case_data", JBool true)] else []) ++
    opt_field "case_data_patch" (srCaseDataPatch r) ++
    opt_field "execution_event" (srExecutionEvent r) ++
    str_field "audit_event_type" (srAuditEventType r) ++
    (if srAttempts r =? 0 then [] else [("attempts", JInt (srAttempts r))]))).

(** The event type and action of a completed step. *)
Definition try_sep (c : ascii) (ty : string) : option (string * string) :=
  match Cut c ty with
  | Some (a, b) => if decide (a <> "" /\ b <> "") then Some (a, b) else None
  | None => None
  end.

Definition completion_event (ty : string) : string * string :=
  if decide (ty = "") then ("step", "completed")
  else
    let '(eventType, action) :=
      match try_sep "." ty with
      | Some p => p
      | None => match try_sep "/" ty with Some p => p | None => ("step", "completed") end
      end in
    if negb (Contains ty ".") && negb (Contains ty "/") then (ty, action)
    else (eventType, action).

Definition idempotentStep (step : WorkflowStep) : bool :=
  match stepMetadata step with
  | None => false
  | Some m => match obj_get "idempotent" m with Some (JBool b) => b | _ => false end
  end.

Definition calculateBackoff (policy : ErrorPolicy) (retryCount : Z) : Z :=
  let policy := defaultErrorPolicyForStep EmptyString policy in
  let delay :=
    if decide (Backoff policy = "none") then 0
    else if decide (Backoff policy = "linear") then wrap64 (retryCount * InitialDelay policy)
    else if decide (Backoff policy = "exponential")
    then shl64 (InitialDelay policy) (retryCount - 1)
    else InitialDelay policy in
  if MaxDelay policy <? delay then MaxDelay policy
  else if delay <? 0 then InitialDelay policy
  else delay.

Record OverdueTask : Type := mkOverdueTask {
  otID : uuid;
  otCaseID : uuid;
  otStepID : string;
  otDeadline : Z;
  otAssignedTo : option uuid
}.

Record WorkflowStatus : Type := mkWorkflowStatus {
  wsCaseID : uuid;
  wsWorkflowID : uuid;
  wsStatus : case_status;
  wsCurrentStep : string;
  wsCompletedSteps : Z;
  wsPendingTasks : Z;
  wsProgressPct : Qc
}.

Section Engine.
Context `{R : Runtime}.

Definition StepExecutor : Type := uuid -> string -> option json -> M (option StepResult).

Record Engine : Type := mkEngine {
  evaluators : option (string -> json -> result goerr bool);
  executors : gmap string StepExecutor;
  escalation : option (OverdueTask -> M unit);
  systemActorID : uuid
}.

Definition RegisterExecutor (stepType : string) (x : StepExecutor) (e : Engine) : Engine :=
  mkEngine (evaluators e) (<[stepType := x]> (executors e)) (escalation e) (systemActorID e).
Definition SetEscalationCallback (cb : option (OverdueTask -> M unit)) (e : Engine) : Engine :=
  mkEngine (evaluators e) (executors e) cb (systemActorID e).
Definition SetSystemActorID (a : uuid) (e : Engine) : Engine :=
  mkEngine (evaluators e) (executors e) (escalation e) a.

Definition systemActor (e : Engine) : uuid :=
  if decide (systemActorID e <> uuid_Nil) then systemActorID e else uuid_Nil.

Definition executorFor (e : Engine) (ty : string) : result goerr StepExecutor :=
  match executors e !! ty with
  | Some x => Ok x
  | None => Err (Errorf "executor not registered for step type %q" [ty])
  end.

(** ** Statements shared by the handlers *)

Definition event_obj (now : Z) (fields : list (string * json)) : json :=
  JArr [JObj (mk_obj (fields ++ [("at", JStr (timestamptz_text now))]))].

Definition touch (msg : string) (caseID : uuid) : M nat :=
  wrapM (Wrapf msg []) (update (fun _ now d => update_case caseID any_case (touch_case now) d)).

Definition lock_case_status (msg : string) (caseID : uuid) : M case_status :=
  wrapM (Wrapf msg []) (query_row (fun _ d => cStatus <$> cases d !! caseID)).

Definition lookupTenantID (caseID : uuid) : M uuid :=
  query_row (fun _ d => cTenant <$> cases d !! caseID).

Definition all_states : list step_state :=
  [StatePending; StateReady; StateActive; StateCompleted; StateFailed; StateSkipped].

Definition count_steps (tenantID : uuid) (s : step_state) (d : DB) : nat :=
  length (filter (fun kr : (uuid * string) * StepRow =>
    (cTenant <$> cases d !! kr.1.1) = Some tenantID /\ sState kr.2 = s)
    (map_to_list (case_steps d))).

Definition updateCaseStepStateMetrics (tenantID : uuid) : M unit :=
  if decide (tenantID = uuid_Nil) then mret tt
  else mapM_ (fun s => ignore (query (fun _ d => count_steps tenantID s d))) all_states.

(** The block after a commit: look up the tenant, refresh the metrics. *)
Definition refresh_metrics (caseID : uuid) : M unit :=
  t ← tryM (lookupTenantID caseID);
  match t with
  | Ok tenantID => updateCaseStepStateMetrics tenantID
  | Err _ => mret tt
  end.

Definition observeStepExecution (caseID : uuid) : M unit := ignore (lookupTenantID caseID).

Definition triggerEvaluation (caseID : uuid) : M unit := modify (add_job (EvalJob caseID)).

(** ** Loading *)

Definition step_state_of_row (stepID : string) (r : StepRow) : StepState :=
  mkStepState stepID (sState r) (sResult r) (sRetryCount r) (sMetadata r) (sCompletedAt r).

Definition step_states (caseID : uuid) (d : DB) : gmap string StepState :=
  map_imap (fun stepID r => Some (step_state_of_row stepID r)) (rows_of caseID d).

Definition loadStepStatesTx (caseID : uuid) : M (gmap string StepState) :=
  wrapM (Wrapf "load step states: %w" []) (query (fun _ d => step_states caseID d)).

Definition workflow_ast_of (caseID : uuid) (d : DB) : option json :=
  c ← cases d !! caseID; vAst <$> workflow_versions d !! (cWorkflowID c, cWorkflowVersion c).

Definition loadWorkflowASTTx (caseID : uuid) : M WorkflowAST :=
  raw ← wrapM (fun e => if decide (e = ErrNoRows) then ErrNotFound
                        else Wrapf "load workflow ast: %w" [] e)
    (query_row (fun _ d => workflow_ast_of caseID d));
  lift (parseAST (Some raw)).

(** ** [applyTransitionTx] *)

Definition set_request_id (id : uuid) (m : option json) : result goerr (option json) :=
  let v := JStr (uuid_string id) in
  match m with
  | None => Ok (Some (JObj [("request_id", v)]))
  | Some (JObj o) => Ok (Some (JObj (if obj_has "request_id" o then o else obj_set "request_id" v o)))
  | Some (JArr l) =>
      if existsb (fun j => match j with JStr s => bool_decide (s = "request_id") | _ => false end) l
      then Ok m else Err (Errorf "path element at position 1 is not an integer" [])
  | Some (JStr s) =>
      if decide (s = "request_id") then Ok m else Err (Errorf "cannot set path in scalar" [])
  | Some _ => Err (Errorf "cannot set path in scalar" [])
  end.

Definition skip_row (now : Z) (r : StepRow) : StepRow :=
  mkStepRow (sID r) StateSkipped (sStartedAt r) (Some now) (sResult r) (sEvents r) (sError r)
    (sAssignedTo r) (sSlaDeadline r) (sRetryCount r) (sDraftData r) (sMetadata r).

Definition activate_row (now : Z) (md : option json) (r : StepRow) : StepRow :=
  mkStepRow (sID r) StateActive (Some (default now (sStartedAt r))) (sCompletedAt r) (sResult r)
    (sEvents r) (sError r) (sAssignedTo r) (sSlaDeadline r) (sRetryCount r) (sDraftData r) md.

Definition apply_active (key : uuid * string) (id : uuid) (now : Z) (d : DB)
  : result goerr (nat * DB) :=
  match case_steps d !! key with
  | Some r =>
      if state_in [StateReady] r then
        md ← set_request_id id (sMetadata r);
        Ok (1%nat, set_steps <[key := activate_row now md r]> d)
      else Ok (0%nat, d)
  | None => Ok (0%nat, d)
  end.

Definition applyTransitionTx (caseID : uuid) (tr : Transition) : M nat :=
  let key := (caseID, trStepID tr) in
  match trType tr with
  | TransitionToReady =>
      wrapM (Wrapf "apply ready transition for %s: %w" [trStepID tr])
        (update (fun _ _ d =>
           update_step key (state_in [trFrom tr]) (fun r => with_state r StateReady) d))
  | TransitionToSkipped =>
      wrapM (Wrapf "apply skipped transition for %s: %w" [trStepID tr])
        (update (fun _ now d =>
           update_step key (state_in [StatePending; StateReady]) (skip_row now) d))
  | TransitionToActive =>
      wrapM (Wrapf "apply active transition for %s: %w" [trStepID tr])
        (sql (fun k now d => apply_active key (gen_random_uuid k) now d))
  end.
(** ** Terminal transitions of a step *)

Definition complete_row (now : Z) (res : StepResult) (r : StepRow) : StepRow :=
  mkStepRow (sID r) StateCompleted (sStartedAt r) (Some now) (Some (marshal_StepResult res))
    (jsonb_concat
       (jsonb_concat (sEvents r)
          (JArr (match srExecutionEvent res with None => [] | Some j => [j] end)))
       (event_obj now [("type", JStr "completed"); ("attempts", JInt (srAttempts res))]))
    None (sAssignedTo r) (sSlaDeadline r) (sRetryCount r) (sDraftData r) (sMetadata r).

Definition fail_row (now : Z) (msg : string) (r : StepRow) : StepRow :=
  mkStepRow (sID r) StateFailed (sStartedAt r) (Some now) (sResult r)
    (jsonb_concat (sEvents r) (event_obj now [("type", JStr "failed"); ("error", JStr msg)]))
    (Some (JObj [("message", JStr msg)])) (sAssignedTo r) (sSlaDeadline r) (sRetryCount r)
    (sDraftData r) (sMetadata r).

Definition exhaust_row (now : Z) (attempts : Z) (msg : string) (r : StepRow) : StepRow :=
  mkStepRow (sID r) StateSkipped (sStartedAt r) (Some now) (sResult r)
    (jsonb_concat (sEvents r)
       (event_obj now [("type", JStr "skipped_on_exhausted"); ("attempts", JInt attempts);
                       ("error", JStr msg)]))
    (Some (JObj [("message", JStr msg)])) (sAssignedTo r) (sSlaDeadline r) (sRetryCount r)
    (sDraftData r) (sMetadata r).

(** A parameter cast to [int]. *)
Definition int4_ok (z : Z) : bool := (-2147483648 <=? z) && (z <=? int4_max).

Definition with_int4 (z : Z) (f : nat * DB) : result goerr (nat * DB) :=
  if int4_ok z then Ok f else Err int4_error.

(** [data = data || $2, version = version + 1, updated_at = now()] *)
Definition patch_case (id : uuid) (ok : CaseRow -> bool) (patch : json) (now : Z) (d : DB)
  : result goerr (nat * DB) :=
  match cases d !! id with
  | Some c =>
      if ok c then
        if cVersion c =? int4_max then Err int4_error
        else Ok (1%nat, set_cases <[id :=
          mkCaseRow (cTenant c) (cCaseType c) (cNumber c) (cStatus c)
            (jsonb_concat (cData c) patch) (cVersion c + 1) now (cAssignedTo c) (cPriority c)
            (cWorkflowID c) (cWorkflowVersion c) (cCreatedAt c) (cCreatedBy c) (cDueAt c)]> d)
      else Ok (0%nat, d)
  | None => Ok (0%nat, d)
  end.

Definition completeStep (e : Engine) (caseID : uuid) (stepID : string)
    (result : option StepResult) : M unit :=
  let res := default emptyStepResult result in
  caseStatus ← with_tx (Wrapf "begin complete step tx: %w" []) (
    caseStatus ← lock_case_status "lock case for complete step: %w" caseID;
    affected ← wrapM (Wrapf "update completed step state: %w" [])
      (sql (fun _ now d => with_int4 (srAttempts res)
         (update_step (caseID, stepID) (state_in [StateActive]) (complete_row now res) d)));
    _ ← (if decide (affected = 0%nat) then throw ErrStepNotActive else mret tt);
    _ ← match srWritesCaseData res, srCaseDataPatch res with
        | true, Some patch =>
            wrapM (Wrapf "write step output to case data: %w" [])
              (sql (fun _ now d => patch_case caseID any_case patch now d))
        | _, _ => touch "touch case for complete step: %w" caseID
        end;
    let '(eventType, action) := completion_event (srAuditEventType res) in
    _ ← RecordCaseEventTx caseID stepID eventType (systemActor e) "system" action
      (JObj (mk_obj [("attempts", JInt (srAttempts res)); ("outcome", JStr (srOutcome res))]));
    _ ← wrapM (Wrapf "commit complete step: %w" []) commit_tx;
    mret caseStatus);
  _ ← refresh_metrics caseID;
  if decide (caseStatus = CaseCancelled) then mret tt else triggerEvaluation caseID.

Definition failStep (e : Engine) (caseID : uuid) (stepID : string) (failErr : goerr) : M unit :=
  caseStatus ← with_tx (Wrapf "begin fail step tx: %w" []) (
    caseStatus ← lock_case_status "lock case for fail step: %w" caseID;
    _ ← wrapM (Wrapf "update failed step state: %w" [])
      (update (fun _ now d => update_step (caseID, stepID) (state_in [StateActive])
         (fail_row now (Error failErr)) d));
    _ ← touch "touch case for fail step: %w" caseID;
    _ ← RecordCaseEventTx caseID stepID "step" (systemActor e) "system" "failed"
      (JObj [("error", JStr (Error failErr))]);
    _ ← wrapM (Wrapf "commit fail step: %w" []) commit_tx;
    mret caseStatus);
  _ ← refresh_metrics caseID;
  if decide (caseStatus = CaseCancelled) then mret tt else triggerEvaluation caseID.

Definition skipStepTerminal (e : Engine) (caseID : uuid) (stepID : string) (attempts : Z)
    (cause : goerr) : M unit :=
  _ ← with_tx (Wrapf "begin skip step tx: %w" []) (
    _ ← wrapM (Wrapf "mark step skipped on exhausted policy: %w" [])
      (sql (fun _ now d => with_int4 attempts
         (update_step (caseID, stepID) (state_in [StateActive])
            (exhaust_row now attempts (Error cause)) d)));
    _ ← touch "touch case for skip-on-exhausted: %w" caseID;
    _ ← RecordCaseEventTx caseID stepID "step" (systemActor e) "system" "skipped"
      (JObj (mk_obj [("attempts", JInt attempts); ("error", JStr (Error cause))]));
    wrapM (Wrapf "commit skip step terminal: %w" []) commit_tx);
  refresh_metrics caseID.

Definition UpdateCaseData (caseID : uuid) (expectedVersion : Z) (patch : json) : M unit :=
  affected ← wrapM (Wrapf "optimistic update case data: %w" [])
    (sql (fun _ now d => patch_case caseID (fun c => cVersion c =? expectedVersion) patch now d));
  if decide (affected = 0%nat) then throw ErrCaseDataConflict else mret tt.

(** ** Retries *)

Definition retry_row (now attempt : Z) (msg : string) (r : StepRow) : StepRow :=
  mkStepRow (sID r) (sState r) (sStartedAt r) (sCompletedAt r) (sResult r)
    (jsonb_concat (sEvents r)
       (event_obj now [("type", JStr "retry_attempt"); ("attempt", JInt attempt);
                       ("error", JStr msg)]))
    (sError r) (sAssignedTo r) (sSlaDeadline r) (sRetryCount r + 1) (sDraftData r) (sMetadata r).

(** [UPDATE ... RETURNING retry_count] *)
Definition bump_retry (key : uuid * string) (now attempt : Z) (msg : string) (d : DB)
  : result goerr (Z * DB) :=
  match case_steps d !! key with
  | Some r =>
      if state_in [StateActive] r then
        if negb (int4_ok attempt) || (sRetryCount r =? int4_max) then Err int4_error
        else Ok (sRetryCount r + 1, set_steps <[key := retry_row now attempt msg r]> d)
      else Err ErrNoRows
  | None => Err ErrNoRows
  end.

Definition incrementRetryCount (caseID : uuid) (stepID : string) (attempt : Z)
    (execErr : goerr) : M Z :=
  with_tx (Wrapf "begin retry update tx: %w" []) (
    retryCount ← wrapM (fun e => if decide (e = ErrNoRows)
                                 then Errorf "step %s is no longer active" [stepID]
                                 else Wrapf "update retry count: %w" [] e)
      (sql (fun _ now d => bump_retry (caseID, stepID) now attempt (Error execErr) d));
    _ ← touch "touch case during retry update: %w" caseID;
    _ ← wrapM (Wrapf "commit retry update: %w" []) commit_tx;
    mret retryCount).

Definition activateFallbackStep (caseID : uuid) (stepID : string) : M unit :=
  with_tx (Wrapf "begin fallback activation tx: %w" []) (
    _ ← wrapM (Wrapf "activate fallback step %s: %w" [stepID])
      (update (fun _ _ d => update_step (caseID, stepID) (state_in [StatePending])
         (fun r => with_state r StateReady) d));
    _ ← touch "touch case fallback activation: %w" caseID;
    wrapM (Wrapf "commit fallback activation: %w" []) commit_tx).

Definition onExhausted (e : Engine) (caseID : uuid) (step : WorkflowStep) (attempts : Z)
    (execErr : goerr) : M unit :=
  let action := OnExhausted (defaultErrorPolicyForStep (stepType step) (stepErrorPolicy step)) in
  if decide (action = "skip") then
    _ ← skipStepTerminal e caseID (stepID step) attempts execErr;
    triggerEvaluation caseID
  else if HasPrefix action "goto:" then
    let target := TrimPrefix action "goto:" in
    _ ← failStep e caseID (stepID step) execErr;
    _ ← activateFallbackStep caseID target;
    triggerEvaluation caseID
  else failStep e caseID (stepID step) execErr.

(** The loop of [executeWithRetry], after [attempt] attempts; [None] when the
    fuel, one unit per attempt, does not suffice. *)
Fixpoint retry_loop (fuel : nat) (e : Engine) (exec : StepExecutor) (caseID : uuid)
    (step : WorkflowStep) (policy : ErrorPolicy) (attempt : Z) : M (option unit) :=
  match fuel with
  | O => mret None
  | S f =>
      let attempt := attempt + 1 in
      r ← tryM (exec caseID (stepID step) (stepConfig step));
      match r with
      | Err execErr =>
          if errors_is execErr ErrStepAwaitingReview then mret (Some tt)
          else
            retryCount ← incrementRetryCount caseID (stepID step) attempt execErr;
            if retryCount <? MaxAttempts policy
            then retry_loop f e exec caseID step policy attempt
            else
              err ← tryM (onExhausted e caseID step attempt execErr);
              _ ← observeStepExecution caseID;
              Some <$> lift err
      | Ok result =>
          let res := default emptyStepResult result in
          err ← tryM (completeStep e caseID (stepID step) (Some
            (mkStepResult (srOutcome res) (srOutput res) (srWritesCaseData res)
               (srCaseDataPatch res) (srExecutionEvent res) (srAuditEventType res) attempt)));
          _ ← observeStepExecution caseID;
          Some <$> lift err
      end
  end.

(** A retry count starts at zero at least, and every failed attempt adds one. *)
Definition retry_fuel (policy : ErrorPolicy) : nat := Z.to_nat (MaxAttempts policy).

Definition executeWithRetry (e : Engine) (caseID : uuid) (step : WorkflowStep) : M unit :=
  exec ← lift (executorFor e (stepType step));
  let policy := defaultErrorPolicyForStep (stepType step) (stepErrorPolicy step) in
  r ← retry_loop (retry_fuel policy) e exec caseID step policy 0;
  match r with Some u => mret u | None => throw out_of_fuel end.

(** ** Evaluation *)

Definition dispatchStep (e : Engine) (caseID : uuid) (step : WorkflowStep) : M unit :=
  if decide (stepType step = "human_task")
  then ignore (executeWithRetry e caseID step)
  else modify (add_job (ExecJob caseID step)).

Definition transition_event (tr : Transition) : json :=
  JObj (mk_obj [("from", JStr (step_state_string (trFrom tr)));
                ("to", JStr (step_state_string (trTo tr)));
                ("reason", JStr (transition_reason_string (trReason tr)));
                ("outcome", JStr (trOutcome tr))]).

Definition apply_and_record (e : Engine) (caseID : uuid) (tr : Transition) : M unit :=
  _ ← applyTransitionTx caseID tr;
  match trType tr with
  | TransitionToActive =>
      RecordCaseEventTx caseID (trStepID tr) "step" (systemActor e) "system" "activated"
        (transition_event tr)
  | TransitionToSkipped =>
      RecordCaseEventTx caseID (trStepID tr) "step" (systemActor e) "system" "skipped"
        (transition_event tr)
  | TransitionToReady => mret tt
  end.

Definition to_dispatch (ast : WorkflowAST) (trs : list Transition) : list WorkflowStep :=
  omap (fun tr => match trType tr with
                  | TransitionToActive => stepMap ast !! trStepID tr
                  | _ => None
                  end) trs.

(** [map[string]any{"case": caseObj}]: data that is not an object leaves the
    empty map; a null leaves a nil map. *)
Definition eval_context (data : json) : json :=
  JObj [("case", match data with JObj m => JObj m | JNull => JNull | _ => JObj [] end)].

Definition evaluateDAG (e : Engine) (caseID : uuid) : M unit :=
  with_tx (Wrapf "begin dag evaluation tx: %w" []) (
    row ← wrapM (fun err => if decide (err = ErrNoRows) then ErrNotFound
                            else Wrapf "lock case row: %w" [] err)
      (query_row (fun _ d => (fun c => (cStatus c, cData c, cTenant c)) <$> cases d !! caseID));
    let '(caseStatus, caseData, tenantID) := row in
    if decide (caseStatus = CaseCancelled) then commit_tx
    else
      states ← loadStepStatesTx caseID;
      ast ← loadWorkflowASTTx caseID;
      trs ← wrapM (Wrapf "compute transitions: %w" [])
        (lift (computeTransitions (evaluators e) (eval_context caseData) ast states));
      _ ← mapM_ (apply_and_record e caseID) trs;
      _ ← touch "update case timestamp after dag evaluation: %w" caseID;
      _ ← wrapM (Wrapf "commit dag evaluation: %w" []) commit_tx;
      _ ← updateCaseStepStateMetrics tenantID;
      mapM_ (dispatchStep e caseID) (to_dispatch ast trs)).

(** ** Cancellation *)

Definition cancel_case_row (id : uuid) (now : Z) (d : DB) : result goerr (nat * DB) :=
  match cases d !! id with
  | Some c =>
      if cVersion c =? int4_max then Err int4_error
      else Ok (1%nat, set_cases <[id :=
        mkCaseRow (cTenant c) (cCaseType c) (cNumber c) CaseCancelled (cData c) (cVersion c + 1)
          now (cAssignedTo c) (cPriority c) (cWorkflowID c) (cWorkflowVersion c)
          (cCreatedAt c) (cCreatedBy c) (cDueAt c)]> d)
  | None => Ok (0%nat, d)
  end.

Definition cancel_task_row (now : Z) (r : StepRow) : StepRow :=
  mkStepRow (sID r) StateSkipped (sStartedAt r) (Some now) (sResult r) (sEvents r) (sError r)
    (sAssignedTo r) (sSlaDeadline r) (sRetryCount r) (sDraftData r)
    (Some (jsonb_concat (coalesce_obj (sMetadata r)) (JObj [("cancelled_task", JBool true)]))).

Definition cancelCase (e : Engine) (caseID actorID : uuid) (reason : string) : M unit :=
  _ ← with_tx (Wrapf "begin cancel case tx: %w" []) (
    ast ← loadWorkflowASTTx caseID;
    _ ← wrapM (Wrapf "lock case for cancellation: %w" []) (query (fun _ _ => tt));
    _ ← wrapM (Wrapf "set case cancelled: %w" [])
      (sql (fun _ now d => cancel_case_row caseID now d));
    _ ← wrapM (Wrapf "skip pending/ready steps on cancellation: %w" [])
      (update (fun _ now d => (0%nat,
         update_steps_of caseID (state_in [StatePending; StateReady]) (skip_row now) d)));
    _ ← mapM_ (fun step =>
      if decide (stepType step = "human_task") then
        _ ← wrapM (Wrapf "cancel active human task %s: %w" [stepID step])
          (update (fun _ now d => update_step (caseID, stepID step) (state_in [StateActive])
             (cancel_task_row now) d));
        mret tt
      else mret tt) ast;
    _ ← RecordCaseEventTx caseID EmptyString "case" actorID "human" "cancelled"
      (JObj [("reason", JStr reason)]);
    wrapM (Wrapf "commit cancel case: %w" []) commit_tx);
  refresh_metrics caseID.

(** ** Recovery *)

Definition active_steps (caseID : uuid) (d : DB) : list (string * option json) :=
  omap (fun kr => if state_in [StateActive] kr.2 then Some (kr.1, sResult kr.2) else None)
    (step_rows caseID d).

Definition recover_step (e : Engine) (caseID : uuid) (byID : gmap string WorkflowStep)
    (s : string * option json) : M unit :=
  match byID !! s.1 with
  | None => mret tt
  | Some step =>
      if decide (stepType step = "integration") then
        if idempotentStep step then dispatchStep e caseID step
        else ignore (failStep e caseID (stepID step)
               (Errorf "recovery failed non-idempotent integration step" []))
      else if decide (stepType step = "agent") then
        match s.2 with
        | Some res => ignore (completeStep e caseID (stepID step)
            (Some (mkStepResult EmptyString (Some res) false None None EmptyString 0)))
        | None => dispatchStep e caseID step
        end
      else if decide (stepType step = "human_task") then mret tt
      else dispatchStep e caseID step
  end.

Definition recoverCase (e : Engine) (caseID : uuid) : M unit :=
  with_tx (Wrapf "begin recover case tx: %w" []) (
    ast ← loadWorkflowASTTx caseID;
    active ← wrapM (Wrapf "query active steps for recovery: %w" [])
      (query (fun _ d => active_steps caseID d));
    _ ← wrapM (Wrapf "commit recover case preload: %w" []) commit_tx;
    _ ← mapM_ (recover_step e caseID (stepMap ast)) active;
    triggerEvaluation caseID).

(** [SELECT DISTINCT cs.case_id ... WHERE cs.state = 'active' AND c.status != 'cancelled'] *)
Definition cases_to_recover (d : DB) : list uuid :=
  remove_dups (omap (fun kr : (uuid * string) * StepRow =>
    match cases d !! kr.1.1 with
    | Some c => if decide (sState kr.2 = StateActive /\ cStatus c <> CaseCancelled)
                then Some kr.1.1 else None
    | None => None
    end) (map_to_list (case_steps d))).

Definition Recover (e : Engine) : M unit :=
  ids ← wrapM (Wrapf "query active cases for recovery: %w" [])
    (query (fun _ d => cases_to_recover d));
  mapM_ (recoverCase e) ids.

(** ** SLA monitoring *)

Definition recordSLABreach (e : Engine) (task : OverdueTask) : M bool :=
  with_tx (fun err => err) (
    caseStatus ← query_row (fun _ d => cStatus <$> cases d !! otCaseID task);
    if decide (caseStatus = CaseCancelled) then _ ← commit_tx; mret false
    else
      r ← query_row (fun _ d =>
        match case_steps d !! (otCaseID task, otStepID task) with
        | Some r => if decide (sID r = otID task) then Some r else None
        | None => None
        end);
      match sState r, sSlaDeadline r with
      | StateActive, Some deadline =>
          t ← time_Now;
          if deadline <? t then
            _ ← RecordCaseEventTx (otCaseID task) (otStepID task) "system" (systemActor e)
              "system" "sla_breach"
              (JObj (mk_obj [("sla_deadline", JStr (format_rfc3339nano deadline));
                             ("task_id", JStr (uuid_string (otID task)))]));
            _ ← commit_tx; mret true
          else _ ← commit_tx; mret false
      | _, _ => _ ← commit_tx; mret false
      end).

Definition overdue_le (a b : OverdueTask) : Prop := otDeadline a <= otDeadline b.
#[export] Instance overdue_le_dec : RelDecision overdue_le.
Proof. intros a b. unfold overdue_le. apply _. Defined.

Definition overdue_tasks (now : Z) (d : DB) : list OverdueTask :=
  take 1000 (merge_sort overdue_le (omap (fun kr : (uuid * string) * StepRow =>
    match sState kr.2, sSlaDeadline kr.2 with
    | StateActive, Some dl =>
        if dl <? now then Some (mkOverdueTask (sID kr.2) kr.1.1 kr.1.2 dl (sAssignedTo kr.2))
        else None
    | _, _ => None
    end) (map_to_list (case_steps d)))).

Definition checkOverdueTasks (e : Engine) : M Z :=
  match escalation e with
  | None => mret 0
  | Some cb =>
      tasks ← wrapM (Wrapf "query overdue tasks: %w" []) (query overdue_tasks);
      _ ← mapM_ (fun task =>
        recorded ← tryM (recordSLABreach e task);
        match recorded with
        | Ok true => _ ← ignore (cb task); ignore (lookupTenantID (otCaseID task))
        | _ => mret tt
        end) tasks;
      mret (Z.of_nat (length tasks))
  end.

(** ** Status *)

Definition count_states (p : step_state -> bool) (rows : list (string * StepRow)) : Z :=
  Z.of_nat (length (filter (fun kr => is_true (p (sState kr.2))) rows)).

Definition first_active (rows : list (string * StepRow)) : string :=
  foldl (fun acc kr => if decide (acc = "" /\ sState kr.2 = StateActive) then kr.1 else acc)
    EmptyString rows.

Definition GetStatus (tenantID caseID : uuid) : M WorkflowStatus :=
  row ← wrapM (fun err => if decide (err = ErrNoRows) then ErrNotFound
                          else Wrapf "load workflow status: %w" [] err)
    (query_row (fun _ d =>
       match cases d !! caseID with
       | Some c => if decide (cTenant c = tenantID) then Some (cStatus c, cWorkflowID c) else None
       | None => None
       end));
  rows ← wrapM (Wrapf "load case steps: %w" []) (query (fun _ d => step_rows caseID d));
  let completed := count_states
    (fun s => bool_decide (s = StateCompleted) || bool_decide (s = StateSkipped)) rows in
  let total := Z.of_nat (length rows) in
  mret (mkWorkflowStatus caseID row.2 row.1 (first_active rows) completed
    (count_states (fun s => bool_decide (s = StateActive)) rows)
    (if 0 <? total then Q2Qc (inject_Z (completed * 100) / inject_Z total) else Q2Qc 0)).

End Engine.
