(* ===== verification/EngineOpsProps.v ===== *)
(** * What the engine does to the tables

    [db_step] lists the changes a statement of the engine can make; every
    operation commits a sequence of them, or nothing. Facts about all operations
    follow by induction on such sequences. *)

From S2P Require Import Prelude GoStrings Json EngineTypes EngineAst EngineCompute EngineComputeProps.
From S2P Require Import EngineComputeClaims Store AuditTrail EngineOps.

(** ** The life cycle of a row *)

Inductive state_move : step_state -> step_state -> Prop :=
  | move_ready : state_move StatePending StateReady
  | move_skip_pending : state_move StatePending StateSkipped
  | move_activate : state_move StateReady StateActive
  | move_skip_ready : state_move StateReady StateSkipped
  | move_complete : state_move StateActive StateCompleted
  | move_fail : state_move StateActive StateFailed
  | move_skip_active : state_move StateActive StateSkipped.

(** A row moves along the life cycle, or counts a retry while active. *)
Record row_move (r r' : StepRow) : Prop := mk_row_move {
  rm_id : sID r' = sID r;
  rm_assigned : sAssignedTo r' = sAssignedTo r;
  rm_deadline : sSlaDeadline r' = sSlaDeadline r;
  rm_draft : sDraftData r' = sDraftData r;
  rm_state : (state_move (sState r) (sState r') /\ sRetryCount r' = sRetryCount r) \/
    (sState r = StateActive /\ sState r' = StateActive /\ sRetryCount r' = sRetryCount r + 1)
}.

(** A case is touched, patched with its version, or cancelled. *)
Record case_move (c c' : CaseRow) : Prop := mk_case_move {
  cm_tenant : cTenant c' = cTenant c;
  cm_type : cCaseType c' = cCaseType c;
  cm_number : cNumber c' = cNumber c;
  cm_workflow : cWorkflowID c' = cWorkflowID c /\ cWorkflowVersion c' = cWorkflowVersion c;
  cm_status : cStatus c' = cStatus c \/ cStatus c' = CaseCancelled;
  cm_version : (cVersion c' = cVersion c /\ cData c' = cData c /\ cStatus c' = cStatus c) \/
    cVersion c' = cVersion c + 1
}.

Section Steps.
Context `{R : Runtime}.

Inductive db_step (d : DB) : DB -> Prop :=
  | db_step_row key r r' :
      case_steps d !! key = Some r -> row_move r r' -> db_step d (set_steps <[key := r']> d)
  | db_step_skip_all caseID now :
      db_step d (update_steps_of caseID (state_in [StatePending; StateReady]) (skip_row now) d)
  | db_step_case id c c' :
      cases d !! id = Some c -> case_move c c' -> db_step d (set_cases <[id := c']> d)
  | db_step_event caseID stepID ty actor at_ action data e :
      recorded caseID stepID ty actor at_ action data (case_events d) e ->
      is_Some (cases d !! caseID) -> db_step d (set_events (fun l => l ++ [e]) d).

Definition db_steps : DB -> DB -> Prop := rtc db_step.

#[export] Instance db_steps_preorder : PreOrder db_steps.
Proof. unfold db_steps. apply _. Qed.

(** ** Statements *)

Lemma update_step_db key ok f d :
  (forall r, ok r = true -> row_move r (f r)) -> db_steps d (update_step key ok f d).2.
Proof.
  intros Hf. unfold update_step. destruct (case_steps d !! key) as [r|] eqn:Hr; [|reflexivity].
  destruct (ok r) eqn:Hok; [|reflexivity]. apply rtc_once. eapply db_step_row; eauto.
Qed.

Lemma update_case_db id ok f d :
  (forall c, ok c = true -> case_move c (f c)) -> db_steps d (update_case id ok f d).2.
Proof.
  intros Hf. unfold update_case. destruct (cases d !! id) as [c|] eqn:Hc; [|reflexivity].
  destruct (ok c) eqn:Hok; [|reflexivity]. apply rtc_once. eapply db_step_case; eauto.
Qed.

Lemma state_in_spec l r : state_in l r = true <-> sState r ∈ l.
Proof. unfold state_in. apply bool_decide_eq_true. Qed.

Lemma touch_move now c : case_move c (touch_case now c).
Proof. split; simpl; auto. Qed.

Lemma patch_case_db id ok patch now d a d' :
  patch_case id ok patch now d = Ok (a, d') -> db_steps d d'.
Proof.
  unfold patch_case. destruct (cases d !! id) as [c|] eqn:Hc; [|intros [= _ <-]; reflexivity].
  destruct (ok c); [|intros [= _ <-]; reflexivity].
  destruct (cVersion c =? int4_max); [done|]. intros [= _ <-].
  apply rtc_once. eapply db_step_case; [done|]. split; simpl; auto.
Qed.

Lemma cancel_case_row_db id now d a d' :
  cancel_case_row id now d = Ok (a, d') -> db_steps d d'.
Proof.
  unfold cancel_case_row. destruct (cases d !! id) as [c|] eqn:Hc; [|intros [= _ <-]; reflexivity].
  destruct (cVersion c =? int4_max); [done|]. intros [= _ <-].
  apply rtc_once. eapply db_step_case; [done|]. split; simpl; auto.
Qed.

Lemma bump_retry_db key now attempt msg d a d' :
  bump_retry key now attempt msg d = Ok (a, d') -> db_steps d d'.
Proof.
  unfold bump_retry. destruct (case_steps d !! key) as [r|] eqn:Hr; [|done].
  destruct (state_in [StateActive] r) eqn:Hs; [|done]. case_match; [done|].
  intros [= _ <-]. apply rtc_once. eapply db_step_row; [done|].
  apply state_in_spec, list_elem_of_singleton in Hs. split; simpl; auto.
Qed.

Lemma apply_active_db key id now d a d' :
  apply_active key id now d = Ok (a, d') -> db_steps d d'.
Proof.
  unfold apply_active. destruct (case_steps d !! key) as [r|] eqn:Hr; [|intros [= _ <-]; reflexivity].
  destruct (state_in [StateReady] r) eqn:Hs; [|intros [= _ <-]; reflexivity].
  destruct (set_request_id id (sMetadata r)) as [md|]; cbn [mbind result_bind]; [|done].
  intros [= _ <-]. apply rtc_once. eapply db_step_row; [done|].
  apply state_in_spec, list_elem_of_singleton in Hs. split; simpl; auto.
  left. rewrite Hs. split; [constructor|done].
Qed.

Lemma with_int4_db z f d (a : nat) d' :
  db_steps d f.2 -> with_int4 z f = Ok (a, d') -> db_steps d d'.
Proof. unfold with_int4. destruct (int4_ok z); [|done]. by intros Hf [= ->]. Qed.

(** ** Programs *)

#[local] Abbreviation kept := (keeps db_steps).

Lemma kept_touch msg caseID : kept (touch msg caseID).
Proof. apply keeps_wrapM, keeps_update; [apply _|]. intros. apply update_case_db. intros. apply touch_move. Qed.

Lemma kept_record caseID stepID ty actor at_ action data :
  kept (RecordCaseEventTx caseID stepID ty actor at_ action data).
Proof.
  apply RecordCaseEventTx_keeps; [apply _|]. intros d e Hr Hc. apply rtc_once.
  by eapply db_step_event.
Qed.

Lemma kept_trigger caseID : kept (triggerEvaluation caseID).
Proof. apply keeps_modify; [apply _|done]. Qed.

Lemma kept_lock msg caseID : kept (lock_case_status msg caseID).
Proof. apply keeps_wrapM, keeps_query_row; apply _. Qed.

Lemma kept_lookup_tenant caseID : kept (lookupTenantID caseID).
Proof. apply keeps_query_row; apply _. Qed.

Lemma kept_metrics tenantID : kept (updateCaseStepStateMetrics tenantID).
Proof.
  unfold updateCaseStepStateMetrics. case_decide; [apply keeps_ret; apply _|].
  apply keeps_mapM; [apply _|]. intros s _. apply keeps_ignore, keeps_query; apply _.
Qed.

Lemma kept_refresh caseID : kept (refresh_metrics caseID).
Proof.
  unfold refresh_metrics. apply keeps_bind; [apply _|apply keeps_tryM, kept_lookup_tenant|].
  intros [t|e]; [apply kept_metrics|apply keeps_ret; apply _].
Qed.

Lemma kept_load_ast caseID : kept (loadWorkflowASTTx caseID).
Proof.
  unfold loadWorkflowASTTx. apply keeps_bind; [apply _|apply keeps_wrapM, keeps_query_row; apply _|].
  intros raw. apply keeps_lift. apply _.
Qed.

Lemma kept_observe caseID : kept (observeStepExecution caseID).
Proof. apply keeps_ignore, kept_lookup_tenant. Qed.

End Steps.

#[export] Hint Resolve kept_touch kept_record kept_trigger kept_lock kept_lookup_tenant kept_metrics
  kept_refresh kept_load_ast kept_observe : keeps.

Section Ops.
Context `{R : Runtime}.
#[local] Abbreviation kept := (keeps db_steps).

Lemma active_row_db key f d :
  (forall r, sState r = StateActive -> row_move r (f r)) ->
  db_steps d (update_step key (state_in [StateActive]) f d).2.
Proof.
  intros Hf. apply update_step_db. intros r Hr. apply Hf.
  by apply state_in_spec, list_elem_of_singleton in Hr.
Qed.

Lemma kept_completeStep e caseID stepID res : kept (completeStep e caseID stepID res).
Proof.
  unfold completeStep. keeps.
  - apply keeps_sql; [apply _|]. intros ? ? ? ? ?. apply with_int4_db.
    apply active_row_db. intros r Hr. split; simpl; auto. left. rewrite Hr. split; [constructor|done].
  - apply keeps_sql; [apply _|]. intros ? ? ? ? ?. apply patch_case_db.
Qed.

Lemma kept_failStep e caseID stepID err : kept (failStep e caseID stepID err).
Proof.
  unfold failStep. keeps. apply keeps_update; [apply _|]. intros. apply active_row_db.
  intros r Hr. split; simpl; auto. left. rewrite Hr. split; [constructor|done].
Qed.

Lemma kept_skipStepTerminal e caseID stepID n err : kept (skipStepTerminal e caseID stepID n err).
Proof.
  unfold skipStepTerminal. keeps. apply keeps_sql; [apply _|]. intros ? ? ? ? ?.
  apply with_int4_db. apply active_row_db.
  intros r Hr. split; simpl; auto. left. rewrite Hr. split; [constructor|done].
Qed.

Lemma kept_UpdateCaseData caseID v patch : kept (UpdateCaseData caseID v patch).
Proof.
  unfold UpdateCaseData. keeps. apply keeps_sql; [apply _|]. intros ? ? ? ? ?. apply patch_case_db.
Qed.

Lemma kept_incrementRetryCount caseID stepID n err : kept (incrementRetryCount caseID stepID n err).
Proof.
  unfold incrementRetryCount. keeps. apply keeps_sql; [apply _|]. intros ? ? ? ? ?.
  apply bump_retry_db.
Qed.

Lemma kept_activateFallbackStep caseID stepID : kept (activateFallbackStep caseID stepID).
Proof.
  unfold activateFallbackStep. keeps. apply keeps_update; [apply _|]. intros.
  apply update_step_db. intros r Hr%state_in_spec%list_elem_of_singleton.
  split; simpl; auto. left. rewrite Hr. split; [constructor|done].
Qed.

#[local] Hint Resolve kept_completeStep kept_failStep kept_skipStepTerminal kept_UpdateCaseData
  kept_incrementRetryCount kept_activateFallbackStep : keeps.

Lemma kept_onExhausted e caseID step n err : kept (onExhausted e caseID step n err).
Proof. unfold onExhausted. keeps. Qed.

#[local] Hint Resolve kept_onExhausted : keeps.

Lemma kept_applyTransitionTx caseID tr :
  legal (trFrom tr) (trTo tr) (trType tr) -> kept (applyTransitionTx caseID tr).
Proof.
  unfold applyTransitionTx. destruct (trType tr); intros Hl; apply keeps_wrapM.
  - apply keeps_update; [apply _|]. intros. apply update_step_db.
    intros r Hr%state_in_spec%list_elem_of_singleton. destruct Hl as [Hl _]. rewrite Hl in Hr.
    split; simpl; auto. left. rewrite Hr. split; [constructor|done].
  - apply keeps_sql; [apply _|]. intros ? ? ? ? ?. apply apply_active_db.
  - apply keeps_update; [apply _|]. intros. apply update_step_db.
    intros r Hr%state_in_spec. split; simpl; auto. left. split; [|done].
    apply elem_of_cons in Hr as [->|Hr%list_elem_of_singleton]; [|rewrite Hr]; constructor.
Qed.

Lemma skip_all_db caseID now d :
  db_steps d (update_steps_of caseID (state_in [StatePending; StateReady]) (skip_row now) d).
Proof. apply rtc_once. constructor. Qed.

Lemma kept_cancelCase e caseID actor reason : kept (cancelCase e caseID actor reason).
Proof.
  unfold cancelCase. keeps.
  - apply keeps_sql; [apply _|]. intros ? ? ? ? ?. apply cancel_case_row_db.
  - apply keeps_update; [apply _|]. intros. apply skip_all_db.
  - apply keeps_update; [apply _|]. intros. apply active_row_db.
    intros r Hr. split; simpl; auto. left. rewrite Hr. split; [constructor|done].
Qed.

Lemma kept_recordSLABreach e task : kept (recordSLABreach e task).
Proof. unfold recordSLABreach. keeps. Qed.

Lemma kept_GetStatus tenantID caseID : kept (GetStatus tenantID caseID).
Proof. unfold GetStatus. keeps. Qed.

End Ops.

#[export] Hint Resolve kept_completeStep kept_failStep kept_skipStepTerminal kept_UpdateCaseData
  kept_incrementRetryCount kept_activateFallbackStep kept_onExhausted kept_cancelCase kept_recordSLABreach
  kept_GetStatus : keeps.

(** ** Executors and the escalation callback

    They are other code, which changes the tables between the steps of the engine:
    [Q] holds of what they and the engine do. *)

Class EngineSteps `{R : Runtime} (Q : DB -> DB -> Prop) : Prop := mk_EngineSteps {
  es_preorder :: PreOrder Q;
  es_steps : forall d d', db_steps d d' -> Q d d'
}.

#[export] Instance engine_steps_least `{R : Runtime} : EngineSteps db_steps.
Proof. split; [apply _|done]. Qed.

Record executors_within `{R : Runtime} (Q : DB -> DB -> Prop) (e : Engine) : Prop := mk_executors_within {
  exec_within : forall ty x caseID stepID cfg, executors e !! ty = Some x -> keeps Q (x caseID stepID cfg);
  escalation_within : forall cb task, escalation e = Some cb -> keeps Q (cb task)
}.

Section Within.
Context `{R : Runtime} (Q : DB -> DB -> Prop) `{!EngineSteps Q}.
#[local] Abbreviation kept := (keeps Q).

Lemma kept_in {A} (m : M A) : keeps db_steps m -> kept m.
Proof.
  intros Hm w. destruct (Hm w) as [Hs Hd]. split; [done|].
  destruct Hd as [Hd|(s & H & Hd)]; [left|right; exists s; split; [done|]]; by apply es_steps.
Qed.
#[local] Hint Extern 3 (keeps Q _) => (apply kept_in; solve [auto with keeps]) : keeps.

Lemma kept_retry_loop fuel e x caseID step policy attempt :
  (forall cfg, kept (x caseID (stepID step) cfg)) ->
  kept (retry_loop fuel e x caseID step policy attempt).
Proof.
  intros Hx. revert attempt. induction fuel as [|f IH]; intros attempt; cbn [retry_loop]; keeps.
Qed.

Lemma kept_executeWithRetry e caseID step :
  executors_within Q e -> kept (executeWithRetry e caseID step).
Proof.
  intros He. unfold executeWithRetry. apply keeps_bind_pure; [apply _|].
  unfold executorFor. destruct (executors e !! stepType step) as [x|] eqn:Hx; [|done].
  intros a [= <-]. apply keeps_bind; [apply _| |intros [[]|]; keeps].
  apply kept_retry_loop. intros cfg. by eapply exec_within.
Qed.

Lemma kept_dispatchStep e caseID step : executors_within Q e -> kept (dispatchStep e caseID step).
Proof.
  intros He. unfold dispatchStep. case_decide.
  - apply keeps_ignore. by apply kept_executeWithRetry.
  - apply keeps_modify; [apply _|done].
Qed.

Lemma kept_evaluateDAG e caseID : executors_within Q e -> kept (evaluateDAG e caseID).
Proof.
  intros He. unfold evaluateDAG. apply keeps_with_tx; [apply _|].
  apply keeps_bind; [apply _|apply keeps_wrapM, keeps_query_row; apply _|].
  intros [[status data] tenant]. case_decide; [apply keeps_commit; apply _|].
  apply keeps_bind; [apply _|apply keeps_wrapM, keeps_query; apply _|]. intros states.
  apply keeps_bind; [apply _|auto with keeps|]. intros ast.
  apply keeps_bind_lift; [apply _|]. intros trs Htrs.
  assert (forall tr, tr ∈ trs -> kept (apply_and_record e caseID tr)) as Happ.
  { intros tr Htr. destruct (computeTransitions_moves _ _ _ _ _ _ Htrs Htr) as [Hl _].
    unfold apply_and_record. keeps. by apply kept_in, kept_applyTransitionTx. }
  keeps. by apply kept_dispatchStep.
Qed.

Lemma kept_recoverCase e caseID : executors_within Q e -> kept (recoverCase e caseID).
Proof.
  intros He. unfold recoverCase. keeps. unfold recover_step. keeps; by apply kept_dispatchStep.
Qed.

Lemma kept_Recover e : executors_within Q e -> kept (Recover e).
Proof. intros He. unfold Recover. keeps. by apply kept_recoverCase. Qed.

Lemma kept_checkOverdueTasks e : executors_within Q e -> kept (checkOverdueTasks e).
Proof.
  intros He. unfold checkOverdueTasks. destruct (escalation e) as [cb|] eqn:Hcb.
  - keeps. by eapply escalation_within.
  - keeps.
Qed.
End Within.

(** ** All operations *)

Section Runs.
Context `{R : Runtime}.

Inductive op : Type :=
  | OpEvaluate (caseID : uuid)
  | OpExecute (caseID : uuid) (step : WorkflowStep)
  | OpComplete (caseID : uuid) (stepID : string) (res : option StepResult)
  | OpFail (caseID : uuid) (stepID : string) (err : goerr)
  | OpUpdateData (caseID : uuid) (version : Z) (patch : json)
  | OpCancel (caseID actor : uuid) (reason : string)
  | OpRecover
  | OpCheckOverdue
  | OpStatus (tenantID caseID : uuid).

Definition run_op (e : Engine) (o : op) : M unit :=
  match o with
  | OpEvaluate c => evaluateDAG e c
  | OpExecute c s => executeWithRetry e c s
  | OpComplete c s r => completeStep e c s r
  | OpFail c s err => failStep e c s err
  | OpUpdateData c v p => UpdateCaseData c v p
  | OpCancel c a r => cancelCase e c a r
  | OpRecover => Recover e
  | OpCheckOverdue => ignore (checkOverdueTasks e)
  | OpStatus t c => ignore (GetStatus t c)
  end.

Lemma kept_run_op Q `{!EngineSteps Q} e o : executors_within Q e -> keeps Q (run_op e o).
Proof.
  intros He. destruct o; simpl; auto using kept_evaluateDAG, kept_executeWithRetry, kept_Recover,
    keeps_ignore, kept_checkOverdueTasks; apply (kept_in Q); auto with keeps.
Qed.

(** Reachable worlds: operations one after the other, with any results, between
    which the world outside the tables (counters, queues) may change. *)
Inductive reaches (e : Engine) : DB -> DB -> Prop :=
  | reaches_refl d : reaches e d d
  | reaches_op d w o d' :
      db w = d -> saved w = None -> reaches e (db (run_op e o w).2) d' -> reaches e d d'.

Lemma reaches_steps Q `{!EngineSteps Q} e d d' : executors_within Q e -> reaches e d d' -> Q d d'.
Proof.
  intros He. induction 1 as [|d w o d' <- Hs _ IH]; [reflexivity|].
  etrans; [|exact IH]. apply (keeps_top Q); [by apply kept_run_op|done].
Qed.

End Runs.
