(* ===== verification/EngineAtomic.v ===== *)
(** * Facts about every sequence of engine operations

    By induction on the steps of [EngineOpsProps]: rows keep to the life cycle,
    terminal rows and cancelled cases stay as they are, versions count the
    writes of case data, and the audit trail only grows and stays valid. *)

From S2P Require Import Prelude GoStrings Json EngineTypes EngineAst EngineCompute Store AuditTrail AuditClaims EngineOps.
From S2P Require Import EngineOpsProps.

Section Life.
Context `{R : Runtime}.

Definition terminal (s : step_state) : Prop := isTerminal (Some s) = true.

Lemma terminal_no_move s s' : terminal s -> ~ state_move s s'.
Proof. intros Ht Hm. destruct Hm; discriminate. Qed.

Lemma terminal_stays s s' : terminal s -> rtc state_move s s' -> s' = s.
Proof. intros Ht Hr. destruct Hr as [|s1 s2 s3 Hm _]; [done|]. by destruct (terminal_no_move s1 s2). Qed.

(** The rows are the same rows, moved along the life cycle. *)
Record rows_evolve (d d' : DB) : Prop := mk_rows_evolve {
  re_old : forall k r, case_steps d !! k = Some r ->
    exists r', case_steps d' !! k = Some r' /\ sID r' = sID r /\
      rtc state_move (sState r) (sState r') /\ sRetryCount r <= sRetryCount r';
  re_new : forall k, is_Some (case_steps d' !! k) -> is_Some (case_steps d !! k)
}.

#[export] Instance rows_evolve_preorder : PreOrder rows_evolve.
Proof.
  split.
  - intros d. split; [|done]. intros k r Hr. exists r. split_and!; [done|done|reflexivity|lia].
  - intros d1 d2 d3 [O1 N1] [O2 N2]. split; [|auto]. intros k r Hr.
    destruct (O1 k r Hr) as (r1 & H1 & Hid1 & Hm1 & Hc1).
    destruct (O2 k r1 H1) as (r2 & H2 & Hid2 & Hm2 & Hc2).
    exists r2. split_and!; [done|congruence|by etrans|lia].
Qed.

Lemma rows_evolve_same d d' : case_steps d' = case_steps d -> rows_evolve d d'.
Proof.
  intros Heq. split; rewrite Heq; [|done]. intros k r Hr. exists r.
  split_and!; [done|done|reflexivity|lia].
Qed.

Lemma rows_evolve_insert d key r r' :
  case_steps d !! key = Some r -> row_move r r' ->
  rows_evolve d (set_steps <[key := r']> d).
Proof.
  intros Hr Hm. split; simpl.
  - intros k r0 Hk. destruct (decide (key = k)) as [<-|Hne].
    + rewrite Hr in Hk. injection Hk as <-. exists r'. rewrite lookup_insert_eq.
      destruct Hm as [Hid _ _ _ [[Hs Hc]|(Hs & Hs' & Hc)]]; split_and!; try done.
      * by apply rtc_once.
      * lia.
      * rewrite Hs, Hs'. reflexivity.
      * lia.
    + exists r0. rewrite lookup_insert_ne by done. split_and!; [done|done|reflexivity|lia].
  - intros k. destruct (decide (key = k)) as [<-|Hne]; [by rewrite Hr|].
    by rewrite lookup_insert_ne.
Qed.

Lemma update_steps_of_lookup caseID ok f d k :
  case_steps (update_steps_of caseID ok f d) !! k =
  (fun r => if bool_decide (k.1 = caseID) && ok r then f r else r) <$> case_steps d !! k.
Proof. unfold update_steps_of. simpl. rewrite map_lookup_imap. by destruct (case_steps d !! k). Qed.

Lemma skip_row_move r :
  state_in [StatePending; StateReady] r = true -> state_move (sState r) StateSkipped.
Proof.
  intros Hr%state_in_spec. apply elem_of_cons in Hr as [->|Hr%list_elem_of_singleton];
    [|rewrite Hr]; constructor.
Qed.

Lemma rows_evolve_skip_all d caseID now :
  rows_evolve d (update_steps_of caseID (state_in [StatePending; StateReady]) (skip_row now) d).
Proof.
  split.
  - intros k r Hr. rewrite update_steps_of_lookup, Hr. simpl.
    destruct (bool_decide (k.1 = caseID) && state_in [StatePending; StateReady] r) eqn:Hb.
    + eexists. split_and!; [reflexivity|done| |simpl; lia].
      apply rtc_once. boolp. by apply skip_row_move.
    + exists r. split_and!; [done|done|reflexivity|lia].
  - intros k [r' Hr']. rewrite update_steps_of_lookup in Hr'.
    destruct (case_steps d !! k); [eauto|done].
Qed.

Lemma db_step_rows d d' : db_step d d' -> rows_evolve d d'.
Proof.
  destruct 1; [by eapply rows_evolve_insert|apply rows_evolve_skip_all|
    by apply rows_evolve_same|by apply rows_evolve_same].
Qed.

(** Cases keep their tenant, type, number and workflow; a cancelled case stays
    cancelled; a version that did not change means data that did not change. *)
Record case_evolves (c c' : CaseRow) : Prop := mk_case_evolves {
  ce_tenant : cTenant c' = cTenant c;
  ce_type : cCaseType c' = cCaseType c;
  ce_number : cNumber c' = cNumber c;
  ce_workflow : cWorkflowID c' = cWorkflowID c /\ cWorkflowVersion c' = cWorkflowVersion c;
  ce_cancelled : cStatus c = CaseCancelled -> cStatus c' = CaseCancelled;
  ce_version : cVersion c <= cVersion c';
  ce_data : cVersion c' = cVersion c -> cData c' = cData c /\ cStatus c' = cStatus c
}.

#[export] Instance case_evolves_preorder : PreOrder case_evolves.
Proof.
  split.
  - intros c. by split.
  - intros c1 c2 c3 [T1 Y1 N1 [W1 V1] C1 E1 D1] [T2 Y2 N2 [W2 V2] C2 E2 D2].
    split; try congruence; [split; congruence|auto|lia|].
    intros Hv. destruct D1 as [? ?]; [lia|]. destruct D2 as [? ?]; [lia|]. split; congruence.
Qed.

Lemma case_move_evolves c c' : case_move c c' -> case_evolves c c'.
Proof.
  intros [T Y N W S V]. split; try done.
  - intros Hc. destruct S as [->|?]; done.
  - destruct V as [[? _]|?]; lia.
  - intros Hv. destruct V as [(_ & ? & ?)|?]; [done|lia].
Qed.

Definition cases_evolve (d d' : DB) : Prop :=
  forall id c, cases d !! id = Some c -> exists c', cases d' !! id = Some c' /\ case_evolves c c'.

#[export] Instance cases_evolve_preorder : PreOrder cases_evolve.
Proof.
  split.
  - intros d id c Hc. exists c. split; [done|reflexivity].
  - intros d1 d2 d3 H1 H2 id c Hc. destruct (H1 id c Hc) as (c1 & Hc1 & E1).
    destruct (H2 id c1 Hc1) as (c2 & Hc2 & E2). exists c2. split; [done|by etrans].
Qed.

Lemma cases_evolve_same d d' : cases d' = cases d -> cases_evolve d d'.
Proof. intros Heq id c Hc. rewrite Heq. exists c. split; [done|reflexivity]. Qed.

Lemma db_step_cases d d' : db_step d d' -> cases_evolve d d'.
Proof.
  destruct 1 as [| |id0 c0 c0' Hc0 Hm|]; try by apply cases_evolve_same.
  intros id c Hc. simpl. destruct (decide (id0 = id)) as [<-|Hne].
  - rewrite Hc0 in Hc. injection Hc as <-. rewrite lookup_insert_eq. eexists.
    split; [reflexivity|by apply case_move_evolves].
  - rewrite lookup_insert_ne by done. exists c. split; [done|reflexivity].
Qed.

(** The trail grows at its end. *)
Definition trail_grows (d d' : DB) : Prop := exists l, case_events d' = case_events d ++ l.

#[export] Instance trail_grows_preorder : PreOrder trail_grows.
Proof.
  split.
  - intros d. exists []. by rewrite app_nil_r.
  - intros d1 d2 d3 [l1 H1] [l2 H2]. exists (l1 ++ l2). by rewrite H2, H1, app_assoc.
Qed.

Lemma db_step_trail d d' : db_step d d' -> trail_grows d d'.
Proof.
  destruct 1 as [| | |? ? ? ? ? ? ? e]; simpl; try (exists []; simpl; by rewrite app_nil_r).
  by exists [e].
Qed.

Lemma db_step_trails `{!RuntimeLaws R} d d' : db_step d d' -> keeps_trails d d'.
Proof.
  destruct 1; try (intros Ht; exact Ht). by eapply set_events_trails.
Qed.

(** Lifting to sequences of steps. *)
Lemma db_steps_ind (P : DB -> DB -> Prop) `{!PreOrder P} :
  (forall d d', db_step d d' -> P d d') -> forall d d', db_steps d d' -> P d d'.
Proof.
  intros Hs d d'. induction 1 as [|d1 d2 d3 H12 _ IH]; [reflexivity|].
  etrans; [by apply Hs|exact IH].
Qed.

End Life.

(** ** Failed operations leave nothing behind

    Programs that run inside a transaction ([inner]), programs that cannot fail
    ([never_err]), and the shape "transaction, commit, follow-up" all handlers
    have: when such a handler returns an error, the tables, the published
    events and the queued jobs are those it started from. *)

Section Atomic.
Context `{R : Runtime}.

Definition inner {A} (m : M A) : Prop := forall w,
  saved (m w).2 = saved w /\ published (m w).2 = published w /\ jobs (m w).2 = jobs w.

Definition never_err {A} (m : M A) : Prop := forall w e w', m w <> (Err e, w').

(** An error before or at the commit of the transaction opened on [s]. *)
Definition tx_body {A} (s : DB) (m : M A) : Prop := forall w e w',
  saved w = Some s -> m w = (Err e, w') ->
  (saved w' = Some s \/ (saved w' = None /\ db w' = s)) /\
  published w' = published w /\ jobs w' = jobs w.

Definition unchanged (w w' : World) : Prop :=
  db w' = db w /\ published w' = published w /\ jobs w' = jobs w.

Definition atomic {A} (m : M A) : Prop := forall w e w', m w = (Err e, w') -> unchanged w w'.

(** ** [inner] *)

Lemma inner_ret {A} (a : A) : inner (mret a).
Proof. by intros w. Qed.
Lemma inner_throw {A} e : inner (throw e : M A).
Proof. by intros w. Qed.
Lemma inner_lift {A} (r : result goerr A) : inner (lift r).
Proof. by intros w. Qed.

Lemma inner_bind {A B} (m : M A) (f : A -> M B) :
  inner m -> (forall a, inner (f a)) -> inner (m ≫= f).
Proof.
  intros Hm Hf w. specialize (Hm w). unfold mbind, M_bind.
  destruct (m w) as [[a|e] w1]; simpl in *; [|done].
  destruct Hm as (H1 & H2 & H3), (Hf a w1) as (H4 & H5 & H6). split_and!; congruence.
Qed.

Lemma inner_wrapM {A} f (m : M A) : inner m -> inner (wrapM f m).
Proof. intros Hm w. specialize (Hm w). unfold wrapM. by destruct (m w) as [[a|e] w1]. Qed.

Lemma inner_tryM {A} (m : M A) : inner m -> inner (tryM m).
Proof. intros Hm w. specialize (Hm w). unfold tryM. by destruct (m w). Qed.

Lemma inner_sql {A} (run : nat -> Z -> DB -> result goerr (A * DB)) : inner (sql run).
Proof.
  intros w. unfold sql. destruct (fault (tick w)); [done|].
  by destruct (run (tick w) (sql_now w) (db w)) as [[a d]|e].
Qed.
Lemma inner_query {A} (f : Z -> DB -> A) : inner (query f).
Proof. apply inner_sql. Qed.
Lemma inner_query_row {A} (f : Z -> DB -> option A) : inner (query_row f).
Proof. apply inner_sql. Qed.
Lemma inner_update f : inner (update f).
Proof. apply inner_sql. Qed.
Lemma inner_time_Now : inner time_Now.
Proof. by intros w. Qed.

Lemma inner_mapM {A} (f : A -> M unit) l : (forall a, inner (f a)) -> inner (mapM_ f l).
Proof.
  intros Hf. induction l as [|a l IH]; simpl; [apply inner_ret|].
  apply inner_bind; [apply Hf|done].
Qed.

Lemma inner_record caseID stepID ty actor at_ action data :
  inner (RecordCaseEventTx caseID stepID ty actor at_ action data).
Proof.
  intros w. pose proof (RecordCaseEventTx_spec caseID stepID ty actor at_ action data w) as Hs.
  destruct (RecordCaseEventTx _ _ _ _ _ _ _ w) as [r w']. by destruct Hs as (? & ? & ? & _).
Qed.

(** ** [never_err] *)

Lemma ne_ret {A} (a : A) : never_err (mret a).
Proof. by intros w e w'. Qed.
Lemma ne_modify f : never_err (modify f).
Proof. by intros w e w'. Qed.
Lemma ne_tryM {A} (m : M A) : never_err (tryM m).
Proof. intros w e w'. unfold tryM. by destruct (m w). Qed.
Lemma ne_ignore {A} (m : M A) : never_err (ignore m).
Proof. by intros w e w'. Qed.
Lemma ne_bind {A B} (m : M A) (f : A -> M B) :
  never_err m -> (forall a, never_err (f a)) -> never_err (m ≫= f).
Proof.
  intros Hm Hf w e w'. unfold mbind, M_bind.
  destruct (m w) as [[a|e1] w1] eqn:Hw; [apply Hf|by destruct (Hm w e1 w1)].
Qed.
Lemma ne_mapM {A} (f : A -> M unit) l : (forall a, never_err (f a)) -> never_err (mapM_ f l).
Proof.
  intros Hf. induction l as [|a l IH]; simpl; [apply ne_ret|]. apply ne_bind; [apply Hf|done].
Qed.

Lemma ne_refresh caseID : never_err (refresh_metrics caseID).
Proof.
  unfold refresh_metrics. apply ne_bind; [apply ne_tryM|]. intros [t|e]; [|apply ne_ret].
  unfold updateCaseStepStateMetrics. case_decide; [apply ne_ret|].
  apply ne_mapM. intros. apply ne_ignore.
Qed.

(** ** Transactions *)

Lemma tx_inner {A} s (m : M A) : inner m -> tx_body s m.
Proof.
  intros Hm w e w' Hs Heq. specialize (Hm w). rewrite Heq in Hm. simpl in Hm.
  destruct Hm as (H1 & H2 & H3). split_and!; [left; congruence|done|done].
Qed.

Lemma tx_bind {A B} s (m : M A) (f : A -> M B) :
  inner m -> (forall a, tx_body s (f a)) -> tx_body s (m ≫= f).
Proof.
  intros Hm Hf w e w' Hs. unfold mbind, M_bind. specialize (Hm w).
  destruct (m w) as [[a|e1] w1]; simpl in Hm; destruct Hm as (H1 & H2 & H3).
  - intros Heq. rewrite <- H2, <- H3. eapply Hf; [congruence|exact Heq].
  - intros [= <- <-]. split_and!; [left; congruence|done|done].
Qed.

Lemma tx_commit s g : tx_body s (wrapM g commit_tx).
Proof.
  intros w e w' Hs. unfold wrapM, commit_tx.
  destruct (fault (tick w)) as [err|]; [|done]. intros [= _ <-]. simpl. rewrite Hs. simpl.
  split_and!; [by right|done|done].
Qed.

Lemma tx_commit_plain s : tx_body s commit_tx.
Proof.
  intros w e w' Hs. unfold commit_tx.
  destruct (fault (tick w)) as [err|]; [|done]. intros [= _ <-]. simpl. rewrite Hs. simpl.
  split_and!; [by right|done|done].
Qed.

Lemma tx_then {A B} s (m : M A) (f : A -> M B) :
  tx_body s m -> (forall a, never_err (f a)) -> tx_body s (m ≫= f).
Proof.
  intros Hm Hf w e w' Hs. unfold mbind, M_bind. destruct (m w) as [[a|e1] w1] eqn:Hw.
  - intros Heq. by destruct (Hf a w1 e w').
  - intros [= <- <-]. by eapply Hm.
Qed.

Lemma atomic_tx {A} g (m : M A) : (forall s, tx_body s m) -> atomic (with_tx g m).
Proof.
  intros Hm w e w'. unfold with_tx, wrapM, begin_tx.
  destruct (fault (tick w)); [intros [= _ <-]; done|].
  set (w1 := mkWorld _ _ _ _ _ _ _). destruct (m w1) as [r w2] eqn:Hw.
  intros [= -> <-]. destruct (Hm (db w) w1 e w2 eq_refl Hw) as ([Hs|[Hs Hd]] & Hp & Hj);
    unfold rollback_tx; rewrite Hs; split_and!; done.
Qed.

Lemma atomic_then {A B} (m : M A) (f : A -> M B) :
  atomic m -> (forall a, never_err (f a)) -> atomic (m ≫= f).
Proof.
  intros Hm Hf w e w'. unfold mbind, M_bind. destruct (m w) as [[a|e1] w1] eqn:Hw.
  - intros Heq. by destruct (Hf a w1 e w').
  - intros [= <- <-]. by eapply Hm.
Qed.

End Atomic.

Ltac inner_step :=
  lazymatch goal with
  | |- inner (mbind _ _) => apply inner_bind
  | |- inner (wrapM _ _) => apply inner_wrapM
  | |- inner (mapM_ _ _) => apply inner_mapM
  | |- inner (tryM _) => apply inner_tryM
  | |- inner (query _) => apply inner_query
  | |- inner (query_row _) => apply inner_query_row
  | |- inner (update _) => apply inner_update
  | |- inner (sql _) => apply inner_sql
  | |- inner (mret _) => apply inner_ret
  | |- inner (throw _) => apply inner_throw
  | |- inner (lift _) => apply inner_lift
  | |- inner time_Now => apply inner_time_Now
  | |- inner (RecordCaseEventTx _ _ _ _ _ _ _) => apply inner_record
  | |- inner (touch _ _) => unfold touch
  | |- inner (lock_case_status _ _) => unfold lock_case_status
  | |- inner (loadWorkflowASTTx _) => unfold loadWorkflowASTTx
  | |- inner (loadStepStatesTx _) => unfold loadStepStatesTx
  | |- inner (applyTransitionTx _ _) => unfold applyTransitionTx
  | |- inner (apply_and_record _ _ _) => unfold apply_and_record
  | |- inner (match ?x with _ => _ end) => destruct x
  | |- forall _, _ => intro
  end.
Ltac inner := repeat inner_step.

(** Walk through a transaction up to its commit. *)
Ltac tx_step :=
  lazymatch goal with
  | |- tx_body _ (wrapM _ commit_tx ≫= _) => apply tx_then; [apply tx_commit|intro]
  | |- tx_body _ (commit_tx ≫= _) => apply tx_then; [apply tx_commit_plain|intro]
  | |- tx_body _ (wrapM _ commit_tx) => apply tx_commit
  | |- tx_body _ commit_tx => apply tx_commit_plain
  | |- tx_body _ (_ ≫= _) => apply tx_bind; [solve [inner]|intro]
  | |- tx_body _ (match ?x with _ => _ end) => destruct x
  | |- tx_body _ (throw _) => apply tx_inner, inner_throw
  end.
Ltac tx := repeat tx_step.

Section Handlers.
Context `{R : Runtime}.

Lemma ne_trigger b caseID :
  never_err (if decide (b = CaseCancelled) then mret tt else triggerEvaluation caseID).
Proof. case_decide; [apply ne_ret|apply ne_modify]. Qed.

Lemma completeStep_atomic e caseID stepID res : atomic (completeStep e caseID stepID res).
Proof.
  apply atomic_then.
  - apply atomic_tx. intros s. tx. apply ne_ret.
  - intros st. apply ne_bind; [apply ne_refresh|]. intros _. apply ne_trigger.
Qed.

Lemma failStep_atomic e caseID stepID err : atomic (failStep e caseID stepID err).
Proof.
  apply atomic_then.
  - apply atomic_tx. intros s. tx. apply ne_ret.
  - intros st. apply ne_bind; [apply ne_refresh|]. intros _. apply ne_trigger.
Qed.

Lemma skipStepTerminal_atomic e caseID stepID n err :
  atomic (skipStepTerminal e caseID stepID n err).
Proof.
  apply atomic_then; [|intros _; apply ne_refresh]. apply atomic_tx. intros s. tx.
Qed.

Lemma cancelCase_atomic e caseID actor reason : atomic (cancelCase e caseID actor reason).
Proof.
  apply atomic_then; [|intros _; apply ne_refresh]. apply atomic_tx. intros s. tx.
Qed.

Lemma evaluateDAG_atomic e caseID : atomic (evaluateDAG e caseID).
Proof.
  apply atomic_tx. intros s. tx.
  apply ne_bind.
  - unfold updateCaseStepStateMetrics. case_decide; [apply ne_ret|].
    apply ne_mapM. intros. apply ne_ignore.
  - intros _. apply ne_mapM. intros step. unfold dispatchStep.
    case_decide; [apply ne_ignore|apply ne_modify].
Qed.

Lemma incrementRetryCount_atomic caseID stepID n err :
  atomic (incrementRetryCount caseID stepID n err).
Proof. apply atomic_tx. intros s. tx. apply ne_ret. Qed.

Lemma activateFallbackStep_atomic caseID stepID : atomic (activateFallbackStep caseID stepID).
Proof. apply atomic_tx. intros s. tx. Qed.

Lemma recordSLABreach_atomic e task : atomic (recordSLABreach e task).
Proof. apply atomic_tx. intros s. tx; apply ne_ret. Qed.

Lemma UpdateCaseData_atomic caseID v patch : atomic (UpdateCaseData caseID v patch).
Proof.
  intros w e w'. unfold UpdateCaseData, mbind, M_bind, wrapM, sql.
  destruct (fault (tick w)); [by intros [= _ <-]|].
  destruct (patch_case caseID _ patch (sql_now w) (db w)) as [[n d]|err] eqn:Hp;
    [|by intros [= _ <-]].
  case_decide as Hn; [|done]. intros [= _ <-]. subst n. unfold patch_case in Hp.
  destruct (cases (db w) !! caseID) as [c|]; [|by injection Hp as <-].
  destruct (cVersion c =? v); [|by injection Hp as <-].
  by destruct (cVersion c =? int4_max).
Qed.

End Handlers.
