(* ===== verification/EngineEvaluate.v ===== *)
(** * What an evaluation commits

    [evaluateDAG] puts the states of a run of the life cycle into the rows of
    the case, and nothing else. *)

From S2P Require Import Prelude GoStrings Json EngineTypes EngineAst EngineCompute EngineComputeProps.
From S2P Require Import EngineComputeClaims Store AuditTrail AuditClaims EngineOps.
From S2P Require Import EngineOpsProps EngineAtomic.

Section Evaluate.
Context `{R : Runtime}.

(** ** The rows of a case as the evaluation reads them *)

Lemma rows_of_lookup caseID d id : rows_of caseID d !! id = case_steps d !! (caseID, id).
Proof.
  unfold rows_of.
  rewrite <- (lookup_map_curry (M1 := gmap uuid) (M2 := gmap string) (case_steps d) caseID id).
  destruct (_ !! caseID); simpl; [done|apply lookup_empty].
Qed.

Lemma step_states_lookup caseID d id :
  step_states caseID d !! id = step_state_of_row id <$> case_steps d !! (caseID, id).
Proof.
  unfold step_states. rewrite map_lookup_imap, rows_of_lookup.
  by destruct (case_steps d !! (caseID, id)).
Qed.

(** The rows agree with the states of an evaluation. *)
Definition matches (caseID : uuid) (v : gmap string StepState) (d : DB) : Prop :=
  forall id r, case_steps d !! (caseID, id) = Some r -> vstate v id = Some (sState r).

Lemma matches_init caseID ast d :
  matches caseID (init_virtual ast (step_states caseID d)) d.
Proof.
  intros id r Hr. unfold vstate.
  rewrite (init_virtual_keep _ _ _ (step_state_of_row id r)); [done|].
  by rewrite step_states_lookup, Hr.
Qed.

(** Only the rows of the case change, and they stay in step with the run. *)
Definition in_step (caseID : uuid) (v' : gmap string StepState) (d d' : DB) : Prop :=
  matches caseID v' d' /\ cases d' = cases d /\
  dom (case_steps d') = dom (case_steps d) /\
  forall k, k.1 <> caseID -> case_steps d' !! k = case_steps d !! k.

Lemma in_step_trans caseID v1 v2 d1 d2 d3 :
  in_step caseID v1 d1 d2 -> in_step caseID v2 d2 d3 -> in_step caseID v2 d1 d3.
Proof.
  intros (_ & C1 & D1 & O1) (M2 & C2 & D2 & O2). split_and!; [done|congruence|congruence|].
  intros k Hk. by rewrite O2, O1.
Qed.

Lemma matches_insert caseID v d key r r' st :
  matches caseID v d -> case_steps d !! (caseID, key) = Some r ->
  in_step caseID (<[key := set_state st (sState r')]> v) d (set_steps <[(caseID, key) := r']> d).
Proof.
  intros Hm Hr. split_and!; simpl.
  - intros id r0 H0. simpl in H0. rewrite vstate_insert. destruct (decide (key = id)) as [<-|Hne].
    + rewrite lookup_insert_eq in H0. by injection H0 as <-.
    + rewrite lookup_insert_ne in H0 by congruence. by apply Hm.
  - done.
  - rewrite dom_insert_lookup_L; [done|eauto].
  - intros k Hk. rewrite lookup_insert_ne; [done|]. intros <-. done.
Qed.

Lemma matches_missing caseID v d key st s :
  matches caseID v d -> case_steps d !! (caseID, key) = None ->
  in_step caseID (<[key := set_state st s]> v) d d.
Proof.
  intros Hm Hr. split_and!; try done. intros id r0 H0. rewrite vstate_insert.
  case_decide; [congruence|]. by apply Hm.
Qed.

Lemma update_step_in_step caseID v d key ok f st s :
  matches caseID v d -> v !! key = Some st ->
  (forall r, sState r = ssState st -> ok r = true /\ sState (f r) = s) ->
  in_step caseID (<[key := set_state st s]> v) d (update_step (caseID, key) ok f d).2.
Proof.
  intros Hm Hst Hok. unfold update_step.
  destruct (case_steps d !! (caseID, key)) as [r|] eqn:Hr; [|by apply matches_missing].
  pose proof (Hm key r Hr) as Hv. unfold vstate in Hv. rewrite Hst in Hv. injection Hv as Hv.
  destruct (Hok r) as [-> <-]; [done|]. simpl. by eapply matches_insert.
Qed.

(** Running a statement. *)
Lemma update_Ok f g n w w' :
  wrapM g (update f) w = (Ok n, w') -> db w' = (f (tick w) (sql_now w) (db w)).2.
Proof.
  unfold wrapM, update, sql. destruct (fault (tick w)); [done|].
  destruct (f (tick w) (sql_now w) (db w)) as [m d]. by intros [= _ <-].
Qed.

Lemma sql_Ok {A} (run : nat -> Z -> DB -> result goerr (A * DB)) g a w w' :
  wrapM g (sql run) w = (Ok a, w') -> run (tick w) (sql_now w) (db w) = Ok (a, db w').
Proof.
  unfold wrapM, sql. destruct (fault (tick w)); [done|].
  destruct (run (tick w) (sql_now w) (db w)) as [[a' d]|e]; [|done]. by intros [= -> <-].
Qed.

Lemma applyTransitionTx_in_step caseID v tr st n w w' :
  matches caseID v (db w) -> v !! trStepID tr = Some st -> ssState st = trFrom tr ->
  legal (trFrom tr) (trTo tr) (trType tr) ->
  applyTransitionTx caseID tr w = (Ok n, w') ->
  in_step caseID (<[trStepID tr := set_state st (trTo tr)]> v) (db w) (db w').
Proof.
  intros Hm Hst Hf Hl. unfold applyTransitionTx. destruct (trType tr); simpl in Hl.
  - intros ->%update_Ok. apply update_step_in_step; [done|done|].
    destruct Hl as [Hl ->]. intros r Hr. split; [|done]. apply state_in_spec.
    rewrite Hr, Hf. by apply list_elem_of_singleton.
  - intros Hr%sql_Ok. destruct Hl as [Hl Hto]. revert Hr. unfold apply_active.
    destruct (case_steps (db w) !! (caseID, trStepID tr)) as [r|] eqn:Hrow.
    + pose proof (Hm _ _ Hrow) as Hv. unfold vstate in Hv. rewrite Hst in Hv. injection Hv as Hv.
      assert (state_in [StateReady] r = true) as ->.
      { apply state_in_spec. rewrite <- Hv, Hf, Hl. by apply list_elem_of_singleton. }
      destruct (set_request_id _ _) as [md|]; cbn [mbind result_bind]; [|done].
      intros [= _ <-]. rewrite Hto.
      by apply (matches_insert caseID v (db w) (trStepID tr) r
        (activate_row (sql_now w) md r) st).
    + intros [= _ <-]. by apply matches_missing.
  - intros ->%update_Ok. apply update_step_in_step; [done|done|].
    destruct Hl as [Hl ->]. intros r Hr. split; [|done]. apply state_in_spec.
    rewrite Hr, Hf. destruct Hl as [->| ->]; set_solver.
Qed.

Lemma record_in_step caseID v caseID' stepID ty actor at_ action data w w' u :
  matches caseID v (db w) ->
  RecordCaseEventTx caseID' stepID ty actor at_ action data w = (Ok u, w') ->
  in_step caseID v (db w) (db w').
Proof.
  intros Hm Heq. pose proof (RecordCaseEventTx_spec caseID' stepID ty actor at_ action data w) as Hs.
  rewrite Heq in Hs. destruct Hs as (_ & _ & _ & _ & _ & e & _ & -> & _).
  by split_and!.
Qed.

Lemma apply_run_in_step evaluator ctx ast e caseID v trs v' w w' u :
  lsteps evaluator ctx ast v trs v' -> matches caseID v (db w) ->
  mapM_ (apply_and_record e caseID) trs w = (Ok u, w') ->
  in_step caseID v' (db w) (db w').
Proof.
  intros Hrun. revert w. induction Hrun as [v|v tr v1 trs v2 Hstep Hrun IH]; intros w Hm Heq.
  - injection Heq as _ <-. by split_and!.
  - destruct (lstep_effect _ _ _ _ _ _ Hstep) as (st & Hst & Hf & Hv1 & Hl & _).
    cbn [mapM_] in Heq. unfold mbind, M_bind in Heq.
    destruct (apply_and_record e caseID tr w) as [[[]|err] w1] eqn:Ha; [|done].
    assert (in_step caseID v1 (db w) (db w1)) as H1.
    { unfold apply_and_record, mbind, M_bind in Ha.
      destruct (applyTransitionTx caseID tr w) as [[n|err] w0] eqn:Hap; [|done].
      pose proof (applyTransitionTx_in_step _ _ _ _ _ _ _ Hm Hst Hf Hl Hap) as H0.
      rewrite <- Hv1 in H0. pose proof (proj1 H0) as Hm0.
      eapply in_step_trans; [exact H0|].
      destruct (trType tr); [injection Ha as <-; by split_and!| |];
        by eapply record_in_step. }
    eapply in_step_trans; [exact H1|]. eapply IH; [apply H1|exact Heq].
Qed.

End Evaluate.

Section EvaluateDAG.
Context `{R : Runtime}.

Lemma bind_Ok {A B} (m : M A) (f : A -> M B) w b w' :
  (m ≫= f) w = (Ok b, w') -> exists a w1, m w = (Ok a, w1) /\ f a w1 = (Ok b, w').
Proof. unfold mbind, M_bind. destruct (m w) as [[a|e] w1]; [eauto|done]. Qed.

Lemma with_tx_Ok {A} g (m : M A) a w w' :
  with_tx g m w = (Ok a, w') ->
  exists w2, fault (tick w) = None /\ w' = rollback_tx w2 /\
    m (mkWorld (db w) (Some (db w)) (S (tick w)) (tick w) [] (published w) (jobs w)) = (Ok a, w2).
Proof.
  unfold with_tx, wrapM, begin_tx. destruct (fault (tick w)); [done|].
  destruct (m _) as [r w2] eqn:Hm. intros [= -> <-]. eauto.
Qed.

Lemma query_row_Ok {A} g (f : Z -> DB -> option A) a w w' :
  wrapM g (query_row f) w = (Ok a, w') -> f (sql_now w) (db w) = Some a /\ db w' = db w.
Proof.
  intros Heq%sql_Ok. destruct (f (sql_now w) (db w)); [|done]. by injection Heq as -> ->.
Qed.

Lemma query_Ok {A} g (f : Z -> DB -> A) a w w' :
  wrapM g (query f) w = (Ok a, w') -> f (sql_now w) (db w) = a /\ db w' = db w.
Proof. intros Heq%sql_Ok. by injection Heq as -> ->. Qed.

Lemma load_ast_Ok caseID ast w w' :
  loadWorkflowASTTx caseID w = (Ok ast, w') ->
  parseAST (workflow_ast_of caseID (db w)) = Ok ast /\ db w' = db w.
Proof.
  unfold loadWorkflowASTTx. intros (raw & w1 & Hq & Hp)%bind_Ok.
  apply query_row_Ok in Hq as [Hr Hd]. injection Hp as Hp <-. by rewrite Hr.
Qed.

Lemma touch_Ok msg caseID n w w' :
  touch msg caseID w = (Ok n, w') ->
  case_steps (db w') = case_steps (db w) /\ case_events (db w') = case_events (db w).
Proof.
  intros ->%update_Ok. unfold update_case. destruct (cases (db w) !! caseID); done.
Qed.

Lemma commit_Ok g u w w' :
  wrapM g commit_tx w = (Ok u, w') ->
  db w' = db w /\ saved w' = None /\ published w' = published w ++ pending w /\ jobs w' = jobs w.
Proof.
  unfold wrapM, commit_tx. destruct (fault (tick w)); [done|]. by intros [= _ <-].
Qed.

Lemma inner_Ok {A} (m : M A) a w w' :
  m w = (Ok a, w') -> inner m ->
  saved w' = saved w /\ published w' = published w /\ jobs w' = jobs w.
Proof. intros Heq Hm. specialize (Hm w). by rewrite Heq in Hm. Qed.

Lemma metrics_quiet tenantID : inner (updateCaseStepStateMetrics tenantID) /\
  forall w, db (updateCaseStepStateMetrics tenantID w).2 = db w.
Proof.
  unfold updateCaseStepStateMetrics. case_decide; [by split|].
  assert (forall s, inner (ignore (query (fun _ d => count_steps tenantID s d)))) as Hi.
  { intros s w. apply inner_query. }
  split; [by apply inner_mapM|].
  induction all_states as [|s l IH]; intros w; [done|]. cbn [mapM_].
  unfold mbind, M_bind, ignore at 1. rewrite IH.
  unfold query, sql. by destruct (fault (tick w)).
Qed.

(** Dispatching steps that are not human tasks only queues them. *)
Lemma dispatch_jobs e caseID l w :
  Forall (fun s => stepType s <> "human_task") l ->
  (mapM_ (dispatchStep e caseID) l w).1 = Ok tt /\
  db (mapM_ (dispatchStep e caseID) l w).2 = db w /\
  saved (mapM_ (dispatchStep e caseID) l w).2 = saved w /\
  jobs (mapM_ (dispatchStep e caseID) l w).2 = jobs w ++ map (ExecJob caseID) l.
Proof.
  intros Hl. revert w. induction Hl as [|s l Hs Hl IH]; intros w; simpl.
  - by rewrite app_nil_r.
  - unfold mbind, M_bind. unfold dispatchStep at 1 3 5 7. rewrite decide_False by done.
    unfold modify. destruct (IH (add_job (ExecJob caseID s) w)) as (-> & -> & -> & ->).
    simpl. by rewrite <- app_assoc.
Qed.

(** The committed part of an evaluation. *)
Record evaluated (e : Engine) (caseID : uuid) (c : CaseRow) (w : World)
    (ast : WorkflowAST) (ls : loop_state) (d1 : DB) : Prop := mk_evaluated {
  ev_ast : parseAST (workflow_ast_of caseID (db w)) = Ok ast;
  ev_eval : evaluate (evaluators e) (eval_context (cData c)) ast
              (step_states caseID (db w)) = Ok ls;
  ev_rows : forall id r, case_steps d1 !! (caseID, id) = Some r ->
              vstate (virtual ls) id = Some (sState r);
  ev_dom : dom (case_steps d1) = dom (case_steps (db w));
  ev_others : forall k, k.1 <> caseID -> case_steps d1 !! k = case_steps (db w) !! k
}.

Lemma evaluateDAG_open e caseID c w u w' :
  cases (db w) !! caseID = Some c -> cStatus c <> CaseCancelled ->
  evaluateDAG e caseID w = (Ok u, w') ->
  exists ast ls w1, evaluated e caseID c w ast ls (db w1) /\
    saved w1 = None /\ jobs w1 = jobs w /\
    w' = rollback_tx (mapM_ (dispatchStep e caseID) (to_dispatch ast (transitions ls)) w1).2.
Proof.
  intros Hc Hn (wf & _ & -> & Hbody)%with_tx_Ok.
  set (w0 := mkWorld _ _ _ _ _ _ _) in Hbody.
  assert (db w0 = db w /\ jobs w0 = jobs w) as [Hd0 Hj0] by done. clearbody w0.
  apply bind_Ok in Hbody as ([[status data] tenant] & w2 & Hq & Hbody).
  destruct (inner_Ok _ _ _ _ Hq) as (_ & _ & Hj2); [solve [inner]|].
  apply query_row_Ok in Hq as [Hq Hd2]. rewrite Hd0, Hc in Hq. injection Hq as <- <- <-.
  rewrite decide_False in Hbody by done.
  apply bind_Ok in Hbody as (states & w3 & Hq & Hbody).
  destruct (inner_Ok _ _ _ _ Hq) as (_ & _ & Hj3); [solve [inner]|]. apply query_Ok in Hq as [Hst Hd3].
  apply bind_Ok in Hbody as (ast & w4 & Hq & Hbody).
  destruct (inner_Ok _ _ _ _ Hq) as (_ & _ & Hj4); [solve [inner]|].
  apply load_ast_Ok in Hq as [Hast Hd4].
  apply bind_Ok in Hbody as (trs & w5 & Hq & Hbody).
  unfold wrapM, lift in Hq.
  destruct (computeTransitions _ _ _ _) as [trs'|] eqn:Htrs; [|done]. injection Hq as -> <-.
  apply computeTransitions_inv in Htrs as (ls & Hls & <-).
  apply bind_Ok in Hbody as ([] & w6 & Happ & Hbody).
  destruct (inner_Ok _ _ _ _ Happ) as (_ & _ & Hj6); [solve [inner]|].
  assert (db w4 = db w) as Hd by congruence. assert (db w2 = db w) as Hd2' by congruence.
  rewrite Hd2' in Hst. subst states.
  destruct (evaluate_ok _ _ _ _ _ Hls) as (_ & [Hrun _ _] & _).
  assert (in_step caseID (virtual ls) (db w4) (db w6)) as (Hm & _ & Hdom & Hoth).
  { eapply apply_run_in_step; [exact Hrun| |exact Happ]. rewrite Hd. apply matches_init. }
  apply bind_Ok in Hbody as (n & w7 & Ht & Hbody).
  destruct (inner_Ok _ _ _ _ Ht) as (_ & _ & Hj7); [solve [inner]|]. apply touch_Ok in Ht as [Hcs _].
  apply bind_Ok in Hbody as ([] & w8 & Hcm & Hbody).
  apply commit_Ok in Hcm as (Hd8 & Hs8 & _ & Hj8).
  apply bind_Ok in Hbody as ([] & w9 & Hmet & Hbody).
  destruct (metrics_quiet (cTenant c)) as [Hmi Hmd].
  destruct (inner_Ok _ _ _ _ Hmet Hmi) as (Hs9 & _ & Hj9).
  specialize (Hmd w8). rewrite Hmet in Hmd. simpl in Hmd.
  exists ast, ls, w9. split_and!; [|congruence|congruence|by rewrite Hbody].
  assert (case_steps (db w9) = case_steps (db w6)) as Hcs9 by (rewrite Hmd, Hd8; exact Hcs).
  split; [congruence|done| | |].
  - intros id r. rewrite Hcs9. apply Hm.
  - rewrite Hcs9, Hdom. congruence.
  - intros k Hk. rewrite Hcs9, Hoth by done. congruence.
Qed.

Lemma evaluateDAG_cancelled e caseID c w u w' :
  saved w = None ->
  cases (db w) !! caseID = Some c -> cStatus c = CaseCancelled ->
  evaluateDAG e caseID w = (Ok u, w') -> unchanged w w'.
Proof.
  intros Hs Hc Hn (wf & _ & -> & Hbody)%with_tx_Ok.
  apply bind_Ok in Hbody as ([[status data] tenant] & w2 & Hq & Hbody).
  unfold wrapM, query_row, sql in Hq. simpl in Hq. destruct (fault (S (tick w))); [done|].
  rewrite Hc in Hq. simpl in Hq. injection Hq as <- _ _ <-.
  rewrite decide_True in Hbody by done. unfold commit_tx in Hbody. simpl in Hbody.
  destruct (fault (S (S (tick w)))); [done|]. injection Hbody as _ <-.
  unfold rollback_tx. simpl. split_and!; simpl; [done|by rewrite app_nil_r|done].
Qed.

End EvaluateDAG.
