(* ===== verification/EngineClaims.v ===== *)
(** * What the operations of the engine guarantee

    Completion, cancellation, retries and optimistic updates one by one, then
    the claims about all operations and about each. *)

From S2P Require Import Prelude GoStrings Json EngineTypes EngineAst EngineCompute EngineComputeProps.
From S2P Require Import EngineComputeClaims Store AuditTrail AuditClaims EngineOps.
From S2P Require Import EngineOpsProps EngineAtomic EngineEvaluate.

Section Completion.
Context `{R : Runtime}.

Lemma lookup_tenant_quiet caseID w :
  db (lookupTenantID caseID w).2 = db w /\ saved (lookupTenantID caseID w).2 = saved w /\
  published (lookupTenantID caseID w).2 = published w /\ jobs (lookupTenantID caseID w).2 = jobs w.
Proof.
  unfold lookupTenantID, query_row, sql. destruct (fault (tick w)); [done|].
  by destruct (cTenant <$> cases (db w) !! caseID).
Qed.

Lemma refresh_quiet caseID w :
  db (refresh_metrics caseID w).2 = db w /\ saved (refresh_metrics caseID w).2 = saved w /\
  published (refresh_metrics caseID w).2 = published w /\ jobs (refresh_metrics caseID w).2 = jobs w.
Proof.
  unfold refresh_metrics, mbind, M_bind, tryM.
  pose proof (lookup_tenant_quiet caseID w) as Hq.
  destruct (lookupTenantID caseID w) as [[t|e] w1]; simpl in Hq; [|done].
  destruct (metrics_quiet t) as [Hi Hd]. destruct (Hi w1) as (H1 & H2 & H3).
  destruct Hq as (Q1 & Q2 & Q3 & Q4). rewrite Hd. split_and!; congruence.
Qed.

Lemma record_Ok caseID stepID ty actor at_ action data u w w' :
  RecordCaseEventTx caseID stepID ty actor at_ action data w = (Ok u, w') ->
  IsRegistered ty action = true /\ is_Some (cases (db w) !! caseID) /\
  exists e, recorded caseID stepID ty actor at_ action data (case_events (db w)) e /\
    db w' = set_events (fun l => l ++ [e]) (db w) /\ pending w' = pending w ++ [e] /\
    published w' = published w.
Proof.
  intros Heq. pose proof (RecordCaseEventTx_spec caseID stepID ty actor at_ action data w) as Hs.
  rewrite Heq in Hs. destruct Hs as (_ & Hp & _ & Hreg & Hc & e & He & Hd & Hpe).
  split_and!; [done|done|]. by exists e.
Qed.

(** What a completed step looks like in the tables. *)
Record completed (caseID : uuid) (stepID : string) (res : StepResult) (actor : uuid)
    (w w' : World) (c : CaseRow) (r : StepRow) (now : Z) (e : Event) : Prop := mk_completed {
  cp_case : cases (db w) !! caseID = Some c;
  cp_row : case_steps (db w) !! (caseID, stepID) = Some r;
  cp_active : sState r = StateActive;
  cp_registered : IsRegistered (completion_event (srAuditEventType res)).1
    (completion_event (srAuditEventType res)).2 = true;
  cp_steps : case_steps (db w') = <[(caseID, stepID) := complete_row now res r]> (case_steps (db w));
  cp_cases : cases (db w') = <[caseID :=
    match srWritesCaseData res, srCaseDataPatch res with
    | true, Some patch => mkCaseRow (cTenant c) (cCaseType c) (cNumber c) (cStatus c)
        (jsonb_concat (cData c) patch) (cVersion c + 1) now (cAssignedTo c) (cPriority c)
        (cWorkflowID c) (cWorkflowVersion c) (cCreatedAt c) (cCreatedBy c) (cDueAt c)
    | _, _ => touch_case now c
    end]> (cases (db w));
  cp_event : recorded caseID stepID (completion_event (srAuditEventType res)).1 actor "system"
    (completion_event (srAuditEventType res)).2
    (JObj (mk_obj [("attempts", JInt (srAttempts res)); ("outcome", JStr (srOutcome res))]))
    (case_events (db w)) e;
  cp_events : case_events (db w') = case_events (db w) ++ [e];
  cp_published : published w' = published w ++ [e];
  cp_jobs : jobs w' = jobs w ++ (if decide (cStatus c = CaseCancelled) then [] else [EvalJob caseID])
}.

(** The case row after the transaction. *)
Lemma complete_case_write res caseID n w w' c :
  match srWritesCaseData res, srCaseDataPatch res with
  | true, Some patch => wrapM (Wrapf "write step output to case data: %w" [])
      (sql (fun _ now d => patch_case caseID any_case patch now d))
  | _, _ => touch "touch case for complete step: %w" caseID
  end w = (Ok n, w') ->
  cases (db w) !! caseID = Some c ->
  case_steps (db w') = case_steps (db w) /\ case_events (db w') = case_events (db w) /\
  pending w' = pending w /\
  cases (db w') = <[caseID :=
    match srWritesCaseData res, srCaseDataPatch res with
    | true, Some patch => mkCaseRow (cTenant c) (cCaseType c) (cNumber c) (cStatus c)
        (jsonb_concat (cData c) patch) (cVersion c + 1) (sql_now w) (cAssignedTo c) (cPriority c)
        (cWorkflowID c) (cWorkflowVersion c) (cCreatedAt c) (cCreatedBy c) (cDueAt c)
    | _, _ => touch_case (sql_now w) c
    end]> (cases (db w)).
Proof.
  intros Heq Hc. destruct (srWritesCaseData res), (srCaseDataPatch res) as [patch|];
    unfold touch, wrapM, update, sql in Heq; destruct (fault (tick w)); try done;
    unfold patch_case, update_case, any_case in Heq; rewrite Hc in Heq.
  1: destruct (cVersion c =? int4_max); [done|].
  all: injection Heq as _ <-; done.
Qed.

Lemma sql_world {A} (run : nat -> Z -> DB -> result goerr (A * DB)) g a w w' :
  wrapM g (sql run) w = (Ok a, w') ->
  run (tick w) (sql_now w) (db w) = Ok (a, db w') /\ w' = with_db (db w') (next_tick w).
Proof.
  unfold wrapM, sql. destruct (fault (tick w)); [done|].
  destruct (run (tick w) (sql_now w) (db w)) as [[a' d]|e]; [|done]. by intros [= -> <-].
Qed.

(** The update of the step row: it hits an active row or nothing. *)
Lemma complete_step_write attempts key f d n d' :
  with_int4 attempts (update_step key (state_in [StateActive]) f d) = Ok (n, d') -> n <> 0%nat ->
  exists r, case_steps d !! key = Some r /\ sState r = StateActive /\ d' = set_steps <[key := f r]> d.
Proof.
  unfold with_int4, update_step. destruct (int4_ok attempts); [|done].
  destruct (case_steps d !! key) as [r|]; [|by intros [= <-]].
  destruct (state_in [StateActive] r) eqn:Hact; [|by intros [= <-]].
  intros [= _ <-] _. exists r. split_and!; [done| |done].
  by apply state_in_spec, list_elem_of_singleton in Hact.
Qed.

(** After the commit: metrics, and an evaluation unless the case is cancelled. *)
Lemma after_commit status caseID u w w' :
  (_ ← refresh_metrics caseID;
   if decide (status = CaseCancelled) then mret tt else triggerEvaluation caseID) w = (Ok u, w') ->
  db w' = db w /\ published w' = published w /\
  jobs w' = jobs w ++ (if decide (status = CaseCancelled) then [] else [EvalJob caseID]).
Proof.
  intros ([] & w8 & Hmet & Hpost)%bind_Ok.
  pose proof (refresh_quiet caseID w) as (Q1 & _ & Q3 & Q4).
  rewrite Hmet in Q1, Q3, Q4. simpl in Q1, Q3, Q4.
  case_decide; injection Hpost as _ <-; simpl; rewrite ?app_nil_r; split_and!; congruence.
Qed.

Lemma completeStep_Ok e caseID stepID result u w w' :
  completeStep e caseID stepID result w = (Ok u, w') ->
  exists c r now ev, completed caseID stepID (default emptyStepResult result) (systemActor e)
    w w' c r now ev.
Proof.
  unfold completeStep. set (res := default emptyStepResult result).
  intros (status & w1 & (w2 & _ & -> & Hbody)%with_tx_Ok & Hpost)%bind_Ok.
  set (w0 := mkWorld _ _ _ _ _ _ _) in Hbody.
  apply bind_Ok in Hbody as (st & w3 & Hq & Hbody).
  apply sql_world in Hq as [Hq Hw3]. simpl in Hq.
  destruct (cases (db w) !! caseID) as [c|] eqn:Hc; [|done]. simpl in Hq. injection Hq as <- Hd3.
  apply bind_Ok in Hbody as (n & w4 & Hu & Hbody).
  apply sql_world in Hu as [Hu Hw4]. rewrite <- Hd3 in Hu.
  destruct (decide (n = 0%nat)) as [|Hn]; [done|].
  apply complete_step_write in Hu as (r & Hr & Hact & Hd4); [|done].
  apply bind_Ok in Hbody as ([] & w4' & [= <-] & Hbody).
  apply bind_Ok in Hbody as (m & w5 & Hcw & Hbody).
  pose proof (complete_case_write res caseID m w4 w5 c Hcw) as Hcase.
  destruct Hcase as (Hs5 & He5 & Hp5 & Hc5); [by rewrite Hd4|].
  destruct (inner_Ok _ _ _ _ Hcw) as (_ & Hpub5 & Hj5); [solve [inner]|].
  destruct (completion_event (srAuditEventType res)) as [ty action] eqn:Hty.
  apply bind_Ok in Hbody as ([] & w6 & Hrec & Hbody).
  destruct (inner_Ok _ _ _ _ Hrec) as (_ & _ & Hj6); [apply inner_record|].
  apply record_Ok in Hrec as (Hreg & _ & ev & Hev & Hd6 & Hp6 & Hpub6).
  apply bind_Ok in Hbody as ([] & w7 & Hcm & [= <- <-]).
  apply commit_Ok in Hcm as (Hd7 & Hs7 & Hpub7 & Hj7).
  assert (rollback_tx w7 = w7) as Hroll by (unfold rollback_tx; by rewrite Hs7).
  rewrite Hroll in Hpost.
  apply after_commit in Hpost as (Hd & Hpub & Hj).
  exists c, r, (sql_now w3), ev.
  assert (sql_now w4 = sql_now w3) as Hnow by (rewrite Hw4, Hw3; done).
  rewrite Hnow in Hc5.
  split; try done.
  - by rewrite Hty.
  - rewrite Hd, Hd7, Hd6. simpl. rewrite Hs5, Hd4. done.
  - rewrite Hd, Hd7, Hd6. simpl. rewrite Hc5, Hd4. done.
  - rewrite Hty. simpl. rewrite He5, Hd4 in Hev. exact Hev.
  - rewrite Hd, Hd7, Hd6. simpl. rewrite He5, Hd4. done.
  - rewrite Hpub, Hpub7, Hpub6, Hpub5, Hp6, Hp5, Hw4, Hw3. done.
  - rewrite Hj, Hj7, Hj6, Hj5, Hw4, Hw3. done.
Qed.

End Completion.

(** ** Cancellation *)

Section Cancel.
Context `{R : Runtime}.

Definition cancel_task (caseID : uuid) (step : WorkflowStep) : M unit :=
  if decide (stepType step = "human_task") then
    _ ← wrapM (Wrapf "cancel active human task %s: %w" [stepID step])
      (update (fun _ now d => update_step (caseID, stepID step) (state_in [StateActive])
         (cancel_task_row now) d));
    mret tt
  else mret tt.

(** The tasks loop skips active human tasks, and only those. *)
Record tasks_cancelled (caseID : uuid) (l : list WorkflowStep) (d d' : DB) : Prop := mk_tc {
  tc_cases : cases d' = cases d;
  tc_rows : forall k r', case_steps d' !! k = Some r' -> exists r, case_steps d !! k = Some r /\
    (sState r' = sState r \/ sState r' = StateSkipped) /\ (k.1 <> caseID -> r' = r) /\
    (k.1 = caseID -> forall s, s ∈ l -> stepType s = "human_task" -> stepID s = k.2 ->
       sState r' <> StateActive)
}.

Lemma cancel_task_Ok caseID step u w w' :
  cancel_task caseID step w = (Ok u, w') -> tasks_cancelled caseID [step] (db w) (db w').
Proof.
  unfold cancel_task. case_decide as Hh.
  - intros (n & w1 & Hu & [= _ <-])%bind_Ok. apply update_Ok in Hu. unfold update_step in Hu.
    destruct (case_steps (db w) !! (caseID, stepID step)) as [r|] eqn:Hr.
    2:{ simpl in Hu. split; [by rewrite Hu|]. intros k r' Hk. rewrite Hu in Hk.
        exists r'. split_and!; [done|by left|done|]. intros Hc s Hs%list_elem_of_singleton _ Hid.
        subst. destruct k; simpl in *; congruence. }
    destruct (state_in [StateActive] r) eqn:Hact; simpl in Hu; (split; [by rewrite Hu|]);
      intros k r' Hk; rewrite Hu in Hk.
    + simpl in Hk. destruct (decide ((caseID, stepID step) = k)) as [<-|Hne].
      * rewrite lookup_insert_eq in Hk. injection Hk as <-. exists r.
        split_and!; [done|by right|done|done].
      * rewrite lookup_insert_ne in Hk by done. exists r'. split_and!; [done|by left|done|].
        intros Hc s Hs%list_elem_of_singleton _ Hid. destruct Hne. subst. destruct k; simpl in *; congruence.
    + exists r'. split_and!; [done|by left|done|]. intros Hc s Hs%list_elem_of_singleton _ Hid Hr'.
      subst s. assert (k = (caseID, stepID step)) as -> by (destruct k; simpl in *; congruence).
      rewrite Hr in Hk. injection Hk as <-.
      assert (state_in [StateActive] r = true); [|congruence].
      apply state_in_spec. rewrite Hr'. by apply list_elem_of_singleton.
  - intros [= _ <-]. split; [done|]. intros k r' Hk. exists r'. split_and!; [done|by left|done|].
    intros _ s Hs%list_elem_of_singleton. congruence.
Qed.

Lemma cancel_tasks_Ok caseID l u w w' :
  mapM_ (cancel_task caseID) l w = (Ok u, w') -> tasks_cancelled caseID l (db w) (db w').
Proof.
  revert w. induction l as [|a l IH]; intros w; cbn [mapM_].
  - intros [= _ <-]. split; [done|]. intros k r' Hk. exists r'. split_and!; [done|by left|done|].
    intros _ s Hs. by apply not_elem_of_nil in Hs.
  - intros ([] & w1 & H1%cancel_task_Ok & H2)%bind_Ok. apply IH in H2.
    destruct H1 as [C1 R1], H2 as [C2 R2]. split; [congruence|].
    intros k r2 Hk. destruct (R2 k r2 Hk) as (r1 & Hk1 & Hs2 & Ho2 & Hh2).
    destruct (R1 k r1 Hk1) as (r & Hr & Hs1 & Ho1 & Hh1). exists r. split_and!; [done| | |].
    + destruct Hs2 as [->| ->]; [done|by right].
    + intros Hk2. by rewrite Ho2, Ho1.
    + intros Hc s [->|Hs]%elem_of_cons Hh Hid; [|by apply (Hh2 Hc s)].
      specialize (Hh1 Hc a (list_elem_of_here _ _) Hh Hid).
      destruct Hs2 as [->| ->]; [done|discriminate].
Qed.

Record cancelled (e : Engine) (caseID : uuid) (w w' : World) (ast : WorkflowAST) : Prop :=
  mk_cancelled {
    ca_ast : parseAST (workflow_ast_of caseID (db w)) = Ok ast;
    ca_case : exists c, cases (db w') !! caseID = Some c /\ cStatus c = CaseCancelled;
    ca_rows : forall id r, case_steps (db w') !! (caseID, id) = Some r ->
      sState r <> StatePending /\ sState r <> StateReady /\
      (forall s, s ∈ ast -> stepType s = "human_task" -> stepID s = id -> sState r <> StateActive);
    ca_others : forall k r, k.1 <> caseID -> case_steps (db w') !! k = Some r ->
      case_steps (db w) !! k = Some r
  }.

Lemma cancelCase_Ok e caseID actor reason u w w' :
  cancelCase e caseID actor reason w = (Ok u, w') ->
  exists ast, cancelled e caseID w w' ast.
Proof.
  unfold cancelCase.
  intros ([] & w1 & (w2 & _ & -> & Hbody)%with_tx_Ok & Hpost)%bind_Ok.
  set (w0 := mkWorld _ _ _ _ _ _ _) in Hbody.
  apply bind_Ok in Hbody as (ast & w3 & [Hast Hd3]%load_ast_Ok & Hbody). simpl in Hast, Hd3.
  apply bind_Ok in Hbody as ([] & w4 & [_ Hd4]%query_Ok & Hbody).
  apply bind_Ok in Hbody as (n & w5 & Hc5%sql_Ok & Hbody). rewrite Hd4, Hd3 in Hc5.
  unfold cancel_case_row in Hc5.
  assert (is_Some (cases (db w) !! caseID)) as [c Hc].
  { unfold workflow_ast_of in Hast. destruct (cases (db w) !! caseID); [eauto|done]. }
  rewrite Hc in Hc5. destruct (cVersion c =? int4_max); [done|]. injection Hc5 as _ Hd5.
  apply bind_Ok in Hbody as (m & w6 & Hd6%update_Ok & Hbody). simpl in Hd6.
  apply bind_Ok in Hbody as ([] & w7 & [C7 R7]%(cancel_tasks_Ok caseID) & Hbody).
  apply bind_Ok in Hbody as ([] & w8 & (_ & _ & ev & _ & Hd8 & _)%record_Ok & Hbody).
  apply commit_Ok in Hbody as (Hd2 & Hs2 & _ & _).
  pose proof (refresh_quiet caseID (rollback_tx w2)) as (Q1 & _). rewrite Hpost in Q1.
  assert (rollback_tx w2 = w2) as Hroll by (unfold rollback_tx; by rewrite Hs2).
  rewrite Hroll in Q1. simpl in Q1.
  assert (db w' = set_events (fun l => l ++ [ev]) (db w7)) as Hd' by congruence.
  exists ast. split; [done| | |].
  - rewrite Hd'. simpl. rewrite C7, Hd6. simpl. rewrite <- Hd5. simpl. rewrite lookup_insert_eq.
    by eexists.
  - intros id r Hr. rewrite Hd' in Hr. simpl in Hr.
    destruct (R7 _ _ Hr) as (r6 & Hr6 & Hst & _ & Hh). rewrite Hd6, update_steps_of_lookup in Hr6.
    simpl in Hr6. rewrite bool_decide_eq_true_2 in Hr6 by done.
    destruct (case_steps (db w5) !! (caseID, id)) as [r5|]; [|done]. injection Hr6 as Hr6.
    assert (sState r6 <> StatePending /\ sState r6 <> StateReady) as [Hp Hrd].
    { destruct (state_in [StatePending; StateReady] r5) eqn:Hin; simpl in Hr6; subst r6; [done|].
      unfold state_in in Hin. boolp. set_solver. }
    split_and!; [destruct Hst as [->| ->]; done|destruct Hst as [->| ->]; done|].
    intros s Hs Hhu Hid. by apply (Hh eq_refl s).
  - intros k r Hk Hr. rewrite Hd' in Hr. simpl in Hr.
    destruct (R7 _ _ Hr) as (r6 & Hr6 & _ & Ho & _). rewrite Hd6, update_steps_of_lookup in Hr6.
    rewrite bool_decide_eq_false_2 in Hr6 by done. simpl in Hr6.
    destruct (case_steps (db w5) !! k) as [r5|] eqn:H5; [|done]. injection Hr6 as <-.
    rewrite (Ho Hk). by rewrite <- Hd5 in H5.
Qed.

End Cancel.

(** ** Retries *)

Section Retry.
Context `{R : Runtime}.

Lemma incrementRetryCount_Ok caseID stepID n err rc w w' :
  incrementRetryCount caseID stepID n err w = (Ok rc, w') ->
  saved w' = None /\
  exists r r', case_steps (db w) !! (caseID, stepID) = Some r /\ rc = sRetryCount r + 1 /\
    case_steps (db w') !! (caseID, stepID) = Some r' /\ sRetryCount r' = rc.
Proof.
  intros (w2 & _ & -> & Hbody)%with_tx_Ok.
  apply bind_Ok in Hbody as (rc' & w3 & Hq%sql_Ok & Hbody). simpl in Hq. unfold bump_retry in Hq.
  destruct (case_steps (db w) !! (caseID, stepID)) as [r|] eqn:Hr; [|done].
  destruct (state_in [StateActive] r); [|done]. case_match; [done|]. injection Hq as <- Hd3.
  apply bind_Ok in Hbody as (m & w4 & [Hs4 _]%touch_Ok & Hbody).
  apply bind_Ok in Hbody as ([] & w5 & (Hd5 & Hs5 & _)%commit_Ok & [= <- <-]).
  unfold rollback_tx. rewrite Hs5. split; [done|]. exists r. eexists.
  split_and!; [done|done| |].
  - rewrite Hd5, Hs4, <- Hd3. simpl. apply lookup_insert_eq.
  - done.
Qed.

Lemma keeps_saved {A} (P : DB -> DB -> Prop) (m : M A) w :
  keeps P m -> saved w = None -> saved (m w).2 = None.
Proof. intros Hm Hs. destruct (Hm w) as [[H1|H1] _]; congruence. Qed.

Lemma retry_loop_enough e x caseID step policy fuel attempt w :
  (forall cfg, keeps db_steps (x caseID (stepID step) cfg)) -> saved w = None ->
  (1 <= fuel)%nat ->
  (forall r, case_steps (db w) !! (caseID, stepID step) = Some r ->
     MaxAttempts policy <= sRetryCount r + Z.of_nat fuel) ->
  (retry_loop fuel e x caseID step policy attempt w).1 <> Ok None.
Proof.
  intros Hx. revert attempt w. induction fuel as [|f IH]; intros attempt w Hs Hf Hr; [lia|].
  cbn [retry_loop]. unfold mbind, M_bind, tryM at 1.
  specialize (Hx (stepConfig step)) as Hx'.
  pose proof (keeps_saved _ _ w Hx' Hs) as Hs1.
  pose proof (db_steps_ind rows_evolve db_step_rows _ _ (keeps_top db_steps _ w Hx' Hs)) as [_ Hnew].
  pose proof (db_steps_ind rows_evolve db_step_rows _ _ (keeps_top db_steps _ w Hx' Hs)) as [Hold _].
  destruct (x caseID (stepID step) (stepConfig step) w) as [[res|execErr] w1]; simpl in Hs1, Hnew, Hold.
  - unfold tryM. destruct (completeStep _ _ _ _ w1) as [err w2].
    unfold observeStepExecution, ignore. destruct (lookupTenantID caseID w2) as [t w3].
    unfold fmap, M_fmap, lift. destruct err; simpl; discriminate.
  - destruct (errors_is execErr ErrStepAwaitingReview); [discriminate|].
    destruct (incrementRetryCount caseID (stepID step) (attempt + 1) execErr w1)
      as [[rc|err] w2] eqn:Hinc; [|discriminate].
    apply incrementRetryCount_Ok in Hinc as (Hs2 & r1 & r2 & Hr1 & -> & Hr2 & Hc2).
    destruct (sRetryCount r1 + 1 <? MaxAttempts policy) eqn:Hlt.
    + destruct (Hnew (caseID, stepID step)) as [r0 Hr0]; [by rewrite Hr1; eauto|].
      destruct (Hold _ _ Hr0) as (r1' & Hr1' & _ & _ & Hle). simpl in Hr1'.
      rewrite Hr1 in Hr1'. injection Hr1' as <-. specialize (Hr _ Hr0).
      apply IH; [done|lia|]. intros r Hr'. rewrite Hr2 in Hr'. injection Hr' as <-. lia.
    + unfold tryM. destruct (onExhausted _ _ _ _ _ w2) as [err w3].
      unfold observeStepExecution, ignore. destruct (lookupTenantID caseID w3) as [t w4].
      unfold fmap, M_fmap, lift. destruct err; simpl; discriminate.
Qed.

End Retry.

(** ** Backoff *)

Lemma wrap64_multiple k : wrap64 (k * 2 ^ 64) = 0.
Proof.
  unfold wrap64, int64_min. change (2 ^ 64) with 18446744073709551616.
  replace (k * 18446744073709551616 - -9223372036854775808)
    with (9223372036854775808 + k * 18446744073709551616) by lia.
  by rewrite Z.mod_add by lia.
Qed.

Lemma shl64_drops x n : 64 <= n -> shl64 x n = 0.
Proof.
  intros Hn. unfold shl64. rewrite Z.shiftl_mul_pow2 by lia.
  replace n with ((n - 64) + 64) by lia. rewrite Z.pow_add_r by lia.
  rewrite Z.mul_assoc. apply wrap64_multiple.
Qed.

Lemma shl64_exact x n :
  0 <= n -> 0 <= x -> x * 2 ^ n <= int64_max -> shl64 x n = x * 2 ^ n.
Proof.
  intros Hn Hx Hm. unfold shl64. rewrite Z.shiftl_mul_pow2 by lia.
  apply wrap64_id. unfold in_int64, int64_min. split; [|done].
  pose proof (Z.pow_nonneg 2 n). nia.
Qed.

(** ** The claims *)

(** C5. Atomicity: when an evaluation, a completion, a failure, a data update or
    a cancellation returns an error, the tables, the events delivered to the
    callbacks and the queued jobs are exactly those before the call. *)
Theorem handlers_atomic `{R : Runtime} e o w err w' :
  (match o with OpExecute _ _ | OpRecover | OpCheckOverdue | OpStatus _ _ => False
              | _ => True end) ->
  run_op e o w = (Err err, w') ->
  db w' = db w /\ published w' = published w /\ jobs w' = jobs w.
Proof.
  destruct o; simpl; try done; intros _.
  - apply evaluateDAG_atomic.
  - apply completeStep_atomic.
  - apply failStep_atomic.
  - apply UpdateCaseData_atomic.
  - apply cancelCase_atomic.
Qed.



(** A step result whose audit event type is not registered cannot be
    completed: the completion always fails and leaves everything as it was, so
    the step stays active. The event types "ai_component.executed",
    "extraction.accepted", "agentic.concluded" and "mcp.invoked", which
    executors of this repository return, are of this kind. *)
Theorem completeStep_unregistered `{R : Runtime} e caseID stepID res w :
  IsRegistered (completion_event (srAuditEventType res)).1
    (completion_event (srAuditEventType res)).2 = false ->
  (exists err w', completeStep e caseID stepID (Some res) w = (Err err, w') /\ unchanged w w') /\
  Forall (fun ty => IsRegistered (completion_event ty).1 (completion_event ty).2 = false)
    ["ai_component.executed"; "extraction.accepted"; "extraction.rejected"; "agentic.concluded";
     "mcp.invoked"].
Proof.
  intros Hn. split; [|by repeat constructor].
  destruct (completeStep e caseID stepID (Some res) w) as [[u|err] w'] eqn:Heq.
  - destruct (completeStep_Ok _ _ _ _ _ _ _ Heq) as (c & r & now & ev & Hc).
    pose proof (cp_registered _ _ _ _ _ _ _ _ _ _ Hc) as Hreg. simpl in Hreg. congruence.
  - exists err, w'. split; [done|]. by eapply completeStep_atomic.
Qed.

(** [cancelCase] succeeds with the case cancelled, no step of it pending or
    ready and no human task of it active, and the rows of other cases as they
    were; from then on evaluations of the case change nothing. *)
Theorem cancelCase_correct `{R : Runtime} e caseID actor reason u w w' :
  cancelCase e caseID actor reason w = (Ok u, w') ->
  (exists ast, cancelled e caseID w w' ast) /\
  (forall w1 u1 w2, db w1 = db w' -> saved w1 = None ->
     evaluateDAG e caseID w1 = (Ok u1, w2) -> unchanged w1 w2).
Proof.
  intros Heq. destruct (cancelCase_Ok _ _ _ _ _ _ _ Heq) as [ast Hc]. split; [by exists ast|].
  intros w1 u1 w2 Hd Hs1 Hev. destruct (ca_case _ _ _ _ _ Hc) as (c & Hcase & Hst).
  rewrite <- Hd in Hcase. by eapply evaluateDAG_cancelled.
Qed.

(** Retries are bounded: with a retry count of zero or more, a step is
    executed at most [MaxAttempts] times, and with [n] failures already counted
    at most [MaxAttempts - n] times but at least once: the loop needs no more
    attempts than that, whatever the executor and the database do. *)
Theorem executeWithRetry_bounded `{R : Runtime} e x caseID step policy fuel attempt w :
  (forall cfg, keeps db_steps (x caseID (stepID step) cfg)) -> saved w = None ->
  (1 <= fuel)%nat ->
  (forall r, case_steps (db w) !! (caseID, stepID step) = Some r ->
     MaxAttempts policy - sRetryCount r <= Z.of_nat fuel) ->
  (retry_loop fuel e x caseID step policy attempt w).1 <> Ok None.
Proof. intros Hx Hs Hf Hr. apply retry_loop_enough; auto. intros r Hrow. specialize (Hr r Hrow). lia. Qed.

(** Backoff: the delay is never negative and never above the larger of the
    two configured delays. Without a policy it is 0; a linear or exponential
    delay is exactly the configured one capped by [MaxDelay] as long as it fits
    into 63 bits; beyond 64 doublings the shift leaves 0, so the retries of an
    exponential policy run without any delay. *)
Theorem calculateBackoff_correct p n :
  let q := defaultErrorPolicyForStep "" p in
  0 <= calculateBackoff p n <= Z.max (MaxDelay q) (InitialDelay q) /\
  (Backoff q = "none" -> calculateBackoff p n = 0) /\
  (Backoff q = "linear" -> 0 <= n -> n * InitialDelay q <= int64_max ->
     calculateBackoff p n = Z.min (MaxDelay q) (n * InitialDelay q)) /\
  (Backoff q = "exponential" -> 1 <= n -> InitialDelay q * 2 ^ (n - 1) <= int64_max ->
     calculateBackoff p n = Z.min (MaxDelay q) (InitialDelay q * 2 ^ (n - 1))) /\
  (Backoff q = "exponential" -> 65 <= n -> calculateBackoff p n = 0).
Proof.
  cbv zeta. destruct (defaultErrorPolicyForStep_bounds "" p) as (_ & Hi & Hm).
  unfold calculateBackoff. cbv zeta.
  set (q := defaultErrorPolicyForStep "" p) in *. clearbody q. split; [|split; [|split; [|split]]].
  - destruct (MaxDelay q <? _) eqn:E1; [lia|]. destruct (_ <? 0) eqn:E2; lia.
  - intros Hb. rewrite decide_True by done. by destruct (MaxDelay q <? 0) eqn:E; [lia|].
  - intros Hb Hn Hfit. rewrite Hb. rewrite decide_False, decide_True by done.
    rewrite wrap64_id by (unfold in_int64, int64_min; nia).
    destruct (MaxDelay q <? n * InitialDelay q) eqn:E1; [lia|].
    destruct (n * InitialDelay q <? 0) eqn:E2; nia.
  - intros Hb Hn Hfit. rewrite Hb. rewrite decide_False, decide_False, decide_True by done.
    rewrite shl64_exact by lia. pose proof (Z.pow_nonneg 2 (n - 1)).
    destruct (MaxDelay q <? _) eqn:E1; [lia|]. destruct (_ <? 0) eqn:E2; nia.
  - intros Hb Hn. rewrite Hb. rewrite decide_False, decide_False, decide_True by done.
    rewrite shl64_drops by lia. destruct (MaxDelay q <? 0) eqn:E1; [lia|]. done.
Qed.

(** Optimistic locking: [UpdateCaseData] merges the patch and increments the
    version when the expected version is the stored one, and otherwise fails
    without changing anything; so of two updates that expect the same version
    at most one succeeds. *)
Theorem UpdateCaseData_optimistic `{R : Runtime} caseID v patch patch' w w1 w2 w3 u :
  UpdateCaseData caseID v patch w = (Ok u, w1) ->
  (exists c now, cases (db w) !! caseID = Some c /\ cVersion c = v /\
     db w1 = set_cases <[caseID := mkCaseRow (cTenant c) (cCaseType c) (cNumber c) (cStatus c)
       (jsonb_concat (cData c) patch) (v + 1) now (cAssignedTo c) (cPriority c)
       (cWorkflowID c) (cWorkflowVersion c) (cCreatedAt c) (cCreatedBy c) (cDueAt c)]> (db w)) /\
  (db w2 = db w1 -> UpdateCaseData caseID v patch' w2 <> (Ok u, w3)).
Proof.
  assert (forall patch w u w1, UpdateCaseData caseID v patch w = (Ok u, w1) ->
    exists c, cases (db w) !! caseID = Some c /\ cVersion c = v /\
      db w1 = set_cases <[caseID := mkCaseRow (cTenant c) (cCaseType c) (cNumber c) (cStatus c)
       (jsonb_concat (cData c) patch) (v + 1) (sql_now w) (cAssignedTo c) (cPriority c)
       (cWorkflowID c) (cWorkflowVersion c) (cCreatedAt c) (cCreatedBy c) (cDueAt c)]> (db w)) as Hok.
  { intros pa wa ua wb. unfold UpdateCaseData. intros (n & wc & Hq%sql_Ok & Hn)%bind_Ok.
    unfold patch_case in Hq. destruct (cases (db wa) !! caseID) as [c|] eqn:Hc.
    2:{ injection Hq as <- _. done. }
    destruct (cVersion c =? v) eqn:Hv; [|injection Hq as <- _; done].
    destruct (cVersion c =? int4_max); [done|]. injection Hq as <- Hd.
    rewrite decide_False in Hn by done. injection Hn as _ <-. exists c.
    apply Z.eqb_eq in Hv. subst v. done. }
  intros H1. destruct (Hok _ _ _ _ H1) as (c & Hc & Hv & Hd). split; [by exists c, (sql_now w)|].
  intros H2 H3. destruct (Hok _ _ _ _ H3) as (c' & Hc' & Hv' & _). rewrite H2, Hd in Hc'.
  simpl in Hc'. rewrite lookup_insert_eq in Hc'. injection Hc' as <-. simpl in Hv'. lia.
Qed.

(** ** Witnesses: a two-step case *)

#[local] Existing Instance example_runtime.
#[local] Existing Instance example_runtime_laws.

Definition ex_ast : json :=
  JObj [("steps", JArr [
    JObj [("id", JStr "fetch"); ("type", JStr "integration"); ("depends_on", JArr [])];
    JObj [("id", JStr "review"); ("type", JStr "human_task"); ("depends_on", JArr [JStr "fetch"])]])].

Definition ex_row (s : step_state) : StepRow :=
  mkStepRow 9 s None None None (JArr []) None None None 0 None None.

Definition ex_world (s : step_state) : World :=
  mkWorld (mkDB {[ 5%N := example_case ]}
    {[ (5%N, "fetch") := ex_row s; (5%N, "review") := ex_row StatePending ]} []
    {[ (3%N, 1) := mkVersionRow Published ex_ast ]} ∅ [] ∅ ∅ ∅ ∅) None 0 0 [] [] [].

Definition ex_engine : Engine := mkEngine None ∅ None 1.

Lemma ok_pair {A} (m : M A) w a : (m w).1 = Ok a -> m w = (Ok a, (m w).2).
Proof. destruct (m w). simpl. by intros ->. Qed.

Lemma handlers_atomic_witness :
  (run_op ex_engine (OpComplete 5 "review" None) (ex_world StateActive)).1 = Err ErrStepNotActive /\
  db (run_op ex_engine (OpComplete 5 "review" None) (ex_world StateActive)).2 =
    db (ex_world StateActive).
Proof.
  assert ((run_op ex_engine (OpComplete 5 "review" None) (ex_world StateActive)).1 =
    Err ErrStepNotActive) as He by (vm_compute; reflexivity).
  split; [exact He|].
  apply (handlers_atomic ex_engine (OpComplete 5 "review" None) (ex_world StateActive)
    ErrStepNotActive); [exact I|].
  destruct (run_op ex_engine (OpComplete 5 "review" None) (ex_world StateActive)) as [r w'].
  simpl in He |- *. by rewrite He.
Defined.



Lemma completeStep_unregistered_witness :
  exists err w', completeStep ex_engine 5 "fetch"
    (Some (mkStepResult "" None false None None "mcp.invoked" 1)) (ex_world StateActive) =
    (Err err, w') /\ unchanged (ex_world StateActive) w'.
Proof. apply completeStep_unregistered. vm_compute. reflexivity. Defined.

Lemma cancelCase_correct_witness :
  exists ast, cancelled ex_engine 5 (ex_world StatePending)
    (cancelCase ex_engine 5 1 "duplicate" (ex_world StatePending)).2 ast.
Proof.
  apply (cancelCase_correct ex_engine 5 1 "duplicate" tt). apply ok_pair. vm_compute. reflexivity.
Defined.

Definition failing_executor : StepExecutor := fun _ _ _ => throw (Errorf "unreachable" []).

Lemma executeWithRetry_bounded_witness :
  (retry_loop 3 ex_engine failing_executor 5 (demo_step "fetch" [])
     (mkErrorPolicy 3 "none" 1 1 "fail") 0 (ex_world StateActive)).1 <> Ok None.
Proof.
  apply executeWithRetry_bounded.
  - intros cfg. apply keeps_throw. apply _.
  - reflexivity.
  - lia.
  - intros r Hr. vm_compute in Hr. injection Hr as <-. simpl. lia.
Defined.

Lemma calculateBackoff_correct_witness :
  calculateBackoff (mkErrorPolicy 5 "exponential" (2 * Second) (60 * Second) "") 3 = 8 * Second.
Proof.
  destruct (calculateBackoff_correct (mkErrorPolicy 5 "exponential" (2 * Second) (60 * Second) "") 3)
    as (_ & _ & _ & Hexp & _).
  rewrite Hexp; [reflexivity|reflexivity|lia|vm_compute; discriminate].
Defined.

Lemma UpdateCaseData_optimistic_witness :
  exists c now, cases (db (ex_world StateActive)) !! 5%N = Some c /\ cVersion c = 1 /\
    db (UpdateCaseData 5 1 (JObj [("x", JNull)]) (ex_world StateActive)).2 =
    set_cases <[5%N := mkCaseRow (cTenant c) (cCaseType c) (cNumber c) (cStatus c)
       (jsonb_concat (cData c) (JObj [("x", JNull)])) (1 + 1) now (cAssignedTo c) (cPriority c)
       (cWorkflowID c) (cWorkflowVersion c) (cCreatedAt c) (cCreatedBy c) (cDueAt c)]> (db (ex_world StateActive)).
Proof.
  apply (UpdateCaseData_optimistic 5 1 (JObj [("x", JNull)]) JNull (ex_world StateActive)
    _ (ex_world StateActive) (ex_world StateActive) tt).
  apply ok_pair. vm_compute. reflexivity.
Defined.
