(* ===== verification/WorkerPool.v ===== *)
(** * Worker pools: [internal/engine/worker_pool.go] and how the engine uses them

    The engine has two pools with a bounded number of slots, one for evaluations and
    one for executions. [Submit] takes a slot, waiting until there is one, and starts
    a goroutine that gives the slot back when its function returns. An evaluation
    submits executions, and an execution that settles its step submits an evaluation,
    each from within its slot. Here a system is the world of [Store] and the
    goroutines in it, and a scheduler is a list of moves: a caller runs an operation of
    the engine, a goroutine runs its function, submits one of the jobs that the
    function has queued, or ends. A function runs in one move, and the jobs that it
    queues are submitted after it, one by one and in their order. *)

From S2P Require Import Prelude GoStrings Json EngineTypes EngineAst Store AuditTrail AuditClaims EngineOps EngineOpsProps.

(** ** Pools and goroutines *)

#[export] Instance ErrorPolicy_eq_dec : EqDecision ErrorPolicy.
Proof. solve_decision. Defined.
#[export] Instance WorkflowStep_eq_dec : EqDecision WorkflowStep.
Proof. solve_decision. Defined.
#[export] Instance job_eq_dec : EqDecision job.
Proof. solve_decision. Defined.

Inductive pool : Type := Evaluations | Executions.
#[export] Instance pool_eq_dec : EqDecision pool.
Proof. solve_decision. Defined.

(** [NewWorkerPool] *)
Definition pool_capacity (maxConcurrent : Z) : nat := Z.to_nat (if maxConcurrent <=? 0 then 10 else maxConcurrent)%Z.
(** [triggerEvaluation] and [dispatchStep]: the pool a job goes to. *)
Definition pool_of (j : job) : pool := match j with EvalJob _ => Evaluations | ExecJob _ _ => Executions end.

(** A goroutine of a pool, or a caller from outside, with the job that it has to run
    yet and the jobs that it has to submit after that. *)
Record Worker : Type := mkWorker { wkPool : option pool; wkJob : option job; wkSubmits : list job }.
(** The world, whose queue is empty, the goroutines, and what has been queued and run
    so far. *)
Record Pools : Type := mkPools { plWorld : World; plWorkers : list Worker; plQueued : list job; plRun : list job }.

Definition slots (p : pool) (l : list Worker) : nat := length (filter (fun k => wkPool k = Some p) l).
(** [Wait] returns when all goroutines of the pool have ended. *)
Definition Wait_returns (p : pool) (s : Pools) : bool := bool_decide (slots p (plWorkers s) = 0%nat).

Definition without_jobs (w : World) : World :=
  mkWorld (db w) (saved w) (tick w) (txStart w) (pending w) (published w) [].

Section Scheduler.
Context `{R : Runtime} (e : Engine) (capacity : pool -> nat).

Definition run_job (j : job) : M unit :=
  match j with
  | EvalJob caseID => evaluateDAG e caseID
  | ExecJob caseID step => executeWithRetry e caseID step
  end.

Inductive move : Type :=
| CallOp (o : op)
| RunAt (i : nat)
| SubmitAt (i : nat)
| LeaveAt (i : nat).

Definition call_op (o : op) (s : Pools) : Pools :=
  let w := (run_op e o (plWorld s)).2 in
  mkPools (without_jobs w) (plWorkers s ++ [mkWorker None None (jobs w)]) (plQueued s ++ jobs w) (plRun s).
Definition run_at (i : nat) (s : Pools) : option Pools :=
  k ← plWorkers s !! i;
  match wkJob k with
  | Some j =>
      let w := (run_job j (plWorld s)).2 in
      Some (mkPools (without_jobs w) (<[i := mkWorker (wkPool k) None (jobs w)]> (plWorkers s)) (plQueued s ++ jobs w) (plRun s ++ [j]))
  | None => None
  end.
Definition free (p : pool) (s : Pools) : bool := bool_decide (slots p (plWorkers s) < capacity p)%nat.
(** [Submit]: not before there is a slot. *)
Definition submit_at (i : nat) (s : Pools) : option Pools :=
  k ← plWorkers s !! i;
  match wkJob k, wkSubmits k with
  | None, j :: rest =>
      if free (pool_of j) s
      then Some (mkPools (plWorld s) (<[i := mkWorker (wkPool k) None rest]> (plWorkers s) ++ [mkWorker (Some (pool_of j)) (Some j) []])
                   (plQueued s) (plRun s))
      else None
  | _, _ => None
  end.
Definition leave_at (i : nat) (s : Pools) : option Pools :=
  k ← plWorkers s !! i;
  match wkJob k, wkSubmits k with
  | None, [] => Some (mkPools (plWorld s) (delete i (plWorkers s)) (plQueued s) (plRun s))
  | _, _ => None
  end.
Definition pool_step (m : move) (s : Pools) : option Pools :=
  match m with
  | CallOp o => Some (call_op o s)
  | RunAt i => run_at i s
  | SubmitAt i => submit_at i s
  | LeaveAt i => leave_at i s
  end.
Fixpoint pool_steps (l : list move) (s : Pools) : option Pools :=
  match l with
  | [] => Some s
  | m :: l' => s' ← pool_step m s; pool_steps l' s'
  end.

Definition idle (w : World) : Pools := mkPools (without_jobs w) [] [] [].
(** No goroutine can move, and there are some. *)
Definition deadlocked (s : Pools) : Prop :=
  plWorkers s <> [] /\ forall i, run_at i s = None /\ submit_at i s = None /\ leave_at i s = None.
(** What a goroutine waits for. *)
Definition waits (k : Worker) (p : pool) : Prop := wkJob k = None /\ exists j rest, wkSubmits k = j :: rest /\ pool_of j = p.
End Scheduler.

(** ** What the pools keep *)

Section PoolClaims.
Context `{R : Runtime} (e : Engine) (capacity : pool -> nat).

Definition to_run (l : list Worker) : list job := omap wkJob l.
Definition to_submit (l : list Worker) : list job := concat (map wkSubmits l).
(** No pool has more goroutines than slots; what has been queued has run, is in a
    goroutine, or waits to be submitted; a goroutine with a job is of its pool. *)
Record pools_ok (s : Pools) : Prop := mkPoolsOk {
  po_capacity : forall p, (slots p (plWorkers s) <= capacity p)%nat;
  po_queued : plQueued s ≡ₚ plRun s ++ to_run (plWorkers s) ++ to_submit (plWorkers s);
  po_own_pool : Forall (fun k => forall j, wkJob k = Some j -> wkPool k = Some (pool_of j) /\ wkSubmits k = []) (plWorkers s)
}.

Lemma slots_app p l1 l2 : slots p (l1 ++ l2) = (slots p l1 + slots p l2)%nat.
Proof. unfold slots. by rewrite filter_app, length_app. Qed.
Lemma slots_cons p k l : slots p (k :: l) = ((if decide (wkPool k = Some p) then 1 else 0) + slots p l)%nat.
Proof. unfold slots. rewrite filter_cons. by case_decide. Qed.
Lemma to_run_app l1 l2 : to_run (l1 ++ l2) = to_run l1 ++ to_run l2.
Proof. apply omap_app. Qed.
Lemma to_submit_app l1 l2 : to_submit (l1 ++ l2) = to_submit l1 ++ to_submit l2.
Proof. unfold to_submit. by rewrite map_app, concat_app. Qed.

(** A goroutine in the middle, and the others. *)
Lemma at_worker (l : list Worker) i k : l !! i = Some k -> exists l1 l2, l = l1 ++ k :: l2 /\ length l1 = i.
Proof. intros H. apply list_elem_of_split_length in H as (l1 & l2 & -> & ->). by exists l1, l2. Qed.
Lemma replaced (l1 l2 : list Worker) k k' : <[length l1 := k']> (l1 ++ k :: l2) = l1 ++ k' :: l2.
Proof. by rewrite insert_app_r_alt, Nat.sub_diag by lia. Qed.
Lemma removed (l1 l2 : list Worker) k : delete (length l1) (l1 ++ k :: l2) = l1 ++ l2.
Proof. by rewrite delete_middle. Qed.

(** Goroutines of the same pools take as many slots. *)
Lemma slots_same p l1 l2 k k' : wkPool k = wkPool k' -> slots p (l1 ++ k :: l2) = slots p (l1 ++ k' :: l2).
Proof.
  intros H. by rewrite !slots_app, !slots_cons, H.
Qed.

Lemma idle_ok w : pools_ok (idle w).
Proof. split; [intros p; cbn; lia|done|constructor]. Qed.

(** Permutations are equal counts. *)
Lemma counted (l l' : list job) : l ≡ₚ l' <-> forall j, count_occ job_eq_dec l j = count_occ job_eq_dec l' j.
Proof. apply (Permutation_count_occ job_eq_dec). Qed.
Lemma to_run_cons k l : to_run (k :: l) = match wkJob k with Some j => [j] | None => [] end ++ to_run l.
Proof. unfold to_run. cbn. by destruct (wkJob k). Qed.
Lemma to_submit_cons k l : to_submit (k :: l) = wkSubmits k ++ to_submit l.
Proof. done. Qed.
Lemma own_cons k l1 l2 : Forall (fun k => forall j, wkJob k = Some j -> wkPool k = Some (pool_of j) /\ wkSubmits k = []) (l1 ++ k :: l2) ->
  forall j, wkJob k = Some j -> wkSubmits k = [].
Proof. intros [_ [H _]%Forall_cons]%Forall_app j Hj. by apply H in Hj as [_ ?]. Qed.

Ltac counting :=
  rewrite counted in *; let j := fresh "j" in intros j;
  match goal with H : forall _ : job, count_occ _ _ _ = _ |- _ => specialize (H j); revert H end;
  rewrite ?to_run_app, ?to_submit_app, ?to_run_cons, ?to_submit_cons; cbn [wkJob wkSubmits to_run to_submit omap list_omap map concat];
  rewrite ?count_occ_app; cbn [count_occ app];
  repeat match goal with |- context [job_eq_dec ?a ?b] => destruct (job_eq_dec a b) end; lia.

Lemma call_op_ok o s : pools_ok s -> pools_ok (call_op e o s).
Proof.
  intros [Hc Hq Ho]. split; cbn [call_op plWorkers plQueued plRun].
  - intros p. rewrite slots_app, slots_cons. change (slots p []) with 0%nat. cbn [wkPool]. specialize (Hc p). case_decide; [done|lia].
  - counting.
  - apply Forall_app. split; [done|]. by repeat constructor.
Qed.

Lemma run_at_ok i s s' : run_at e i s = Some s' -> pools_ok s -> pools_ok s'.
Proof.
  unfold run_at. destruct (plWorkers s !! i) as [k|] eqn:Hk; [|done]. cbn. destruct (wkJob k) as [j|] eqn:Hj; [|done].
  intros [= <-] [Hc Hq Ho]. apply at_worker in Hk as (l1 & l2 & Hl & <-). rewrite Hl in *. cbv zeta.
  pose proof (own_cons _ _ _ Ho j Hj) as Hs. rewrite replaced. split; cbn [plWorkers plQueued plRun].
  - intros p. rewrite (slots_same p l1 l2 _ k) by done. apply Hc.
  - rewrite to_run_app, to_submit_app, to_run_cons, to_submit_cons, Hj, Hs in Hq. counting.
  - apply Forall_app in Ho as [H1 [_ H2]%Forall_cons]. apply Forall_app. split; [done|]. by constructor.
Qed.

Lemma submit_at_ok i s s' : submit_at capacity i s = Some s' -> pools_ok s -> pools_ok s'.
Proof.
  unfold submit_at. destruct (plWorkers s !! i) as [k|] eqn:Hk; [|done]. cbn. destruct (wkJob k) eqn:Hj; [done|].
  destruct (wkSubmits k) as [|j rest] eqn:Hs; [done|]. destruct (free _ _ _) eqn:Hf; [|done]. intros [= <-] [Hc Hq Ho].
  apply bool_decide_eq_true in Hf. apply at_worker in Hk as (l1 & l2 & Hl & <-). rewrite Hl in *. rewrite replaced.
  split; cbn [plWorkers plQueued plRun].
  - intros p. rewrite slots_app, (slots_same p l1 l2 _ k), slots_cons by done. change (slots p []) with 0%nat. cbn [wkPool].
    specialize (Hc p). case_decide as Hp; [injection Hp as <-|]; lia.
  - rewrite to_run_app, to_submit_app, to_run_cons, to_submit_cons, Hj, Hs in Hq. counting.
  - apply Forall_app in Ho as [H1 [_ H2]%Forall_cons]. apply Forall_app. split; [apply Forall_app; split; [done|by constructor]|].
    constructor; [|done]. by intros j' [= <-].
Qed.

Lemma leave_at_ok i s s' : leave_at i s = Some s' -> pools_ok s -> pools_ok s'.
Proof.
  unfold leave_at. destruct (plWorkers s !! i) as [k|] eqn:Hk; [|done]. cbn. destruct (wkJob k) eqn:Hj; [done|].
  destruct (wkSubmits k) as [|j rest] eqn:Hs; [|done]. intros [= <-] [Hc Hq Ho].
  apply at_worker in Hk as (l1 & l2 & Hl & <-). rewrite Hl in *. rewrite removed. split; cbn [plWorkers plQueued plRun].
  - intros p. specialize (Hc p). rewrite slots_app, ?slots_cons in *. lia.
  - rewrite to_run_app, to_submit_app, to_run_cons, to_submit_cons, Hj, Hs in Hq. counting.
  - apply Forall_app in Ho as [H1 [_ H2]%Forall_cons]. by apply Forall_app.
Qed.

Lemma pool_steps_ok l s s' : pool_steps e capacity l s = Some s' -> pools_ok s -> pools_ok s'.
Proof.
  revert s. induction l as [|m l IH]; intros s; [by intros [= <-]|]. cbn. destruct (pool_step _ _ m s) as [s1|] eqn:E; [|done]. cbn.
  intros Hl Hs. apply (IH s1 Hl). destruct m; cbn in E;
    [injection E as <-; by apply call_op_ok|by eapply run_at_ok|by eapply submit_at_ok|by eapply leave_at_ok].
Qed.

(** Each goroutine can run, can end, or waits for a pool; it waits in vain only when the
    pool is full. *)
Lemma worker_moves s i k : plWorkers s !! i = Some k ->
  is_Some (run_at e i s) \/ is_Some (submit_at capacity i s) \/ is_Some (leave_at i s) \/
  exists p, waits k p /\ (capacity p <= slots p (plWorkers s))%nat.
Proof.
  intros Hk. unfold run_at, submit_at, leave_at, waits. rewrite Hk. cbn.
  destruct (wkJob k) as [j|] eqn:Hj; [left; eauto|]. destruct (wkSubmits k) as [|j rest] eqn:Hs; [right; right; left; eauto|].
  destruct (free capacity (pool_of j) s) eqn:Hf; [right; left; eauto|]. right; right; right. exists (pool_of j).
  split; [split; [done|]; by exists j, rest|]. apply bool_decide_eq_false in Hf. lia.
Qed.

(** C8. The worker pools, whatever the operations that are called, what they queue and
    the order in which goroutines move: no pool ever has more goroutines than slots;
    each job that has been queued has been run once, is held by one goroutine of its
    pool that has still to run it, or waits to be submitted, none is lost or run
    twice; and a system in which no goroutine can move is one in which each of them
    waits to submit to a pool that is full. *)
Theorem pools_correct (w : World) (moves : list move) (s : Pools) :
  pool_steps e capacity moves (idle w) = Some s ->
  (forall p, (slots p (plWorkers s) <= capacity p)%nat) /\
  plQueued s ≡ₚ plRun s ++ to_run (plWorkers s) ++ to_submit (plWorkers s) /\
  (forall k j, k ∈ plWorkers s -> wkJob k = Some j -> wkPool k = Some (pool_of j)) /\
  (deadlocked e capacity s -> forall k, k ∈ plWorkers s -> exists p, waits k p /\ slots p (plWorkers s) = capacity p).
Proof.
  intros H. destruct (pool_steps_ok _ _ _ H (idle_ok w)) as [Hc Hq Ho]. split_and!; try done.
  - intros k j Hk Hj. rewrite Forall_forall in Ho. by apply (Ho k Hk) in Hj as [? _].
  - intros [_ Hd] k [i Hk]%list_elem_of_lookup. destruct (Hd i) as (H1 & H2 & H3).
    destruct (worker_moves s i k Hk) as [[x Hx]|[[x Hx]|[[x Hx]|(p & Hw & Hf)]]]; [congruence..|]. exists p. split; [done|].
    specialize (Hc p). lia.
Qed.
End PoolClaims.

(** ** Deadlock *)

Section Deadlock.
Context `{R : Runtime} (e : Engine) (capacity : pool -> nat).

(** Both pools are full of goroutines that wait to submit. *)
Record jammed (s : Pools) : Prop := mkJammed {
  jm_full : forall p, (capacity p <= slots p (plWorkers s))%nat;
  jm_wait : Forall (fun k => wkJob k = None /\ (wkPool k = None \/ wkSubmits k <> [])) (plWorkers s)
}.
Definition jammedb (s : Pools) : bool :=
  forallb (fun p => negb (free capacity p s)) [Evaluations; Executions] &&
  forallb (fun k => bool_decide (wkJob k = None) && (bool_decide (wkPool k = None) || negb (bool_decide (wkSubmits k = [])))) (plWorkers s).
Lemma jammedb_spec s : jammedb s = true -> jammed s.
Proof.
  unfold jammedb. rewrite andb_true_iff, !forallb_forall. intros [H1 H2]. split.
  - intros p. assert (negb (free capacity p s) = true) as H by (apply H1; destruct p; cbn; auto).
    apply negb_true_iff, bool_decide_eq_false in H. lia.
  - apply Forall_forall. intros k Hk. apply list_elem_of_In in Hk. specialize (H2 k Hk).
    apply andb_true_iff in H2 as [Hj%bool_decide_eq_true Hp]. split; [done|]. apply orb_true_iff in Hp as [Hp|Hp];
      [left; by apply bool_decide_eq_true in Hp|right; by apply negb_true_iff, bool_decide_eq_false in Hp].
Qed.

Lemma jammed_worker s i k : jammed s -> plWorkers s !! i = Some k -> wkJob k = None /\ (wkPool k = None \/ wkSubmits k <> []).
Proof. intros [_ H] Hk. rewrite Forall_lookup in H. by apply (H i). Qed.

Lemma jammed_step m s s' : jammed s -> pool_step e capacity m s = Some s' -> jammed s' /\ plRun s' = plRun s.
Proof.
  intros Hs. destruct m as [o|i|i|i]; cbn.
  - intros [= <-]. split; [|done]. destruct Hs as [Hf Hw]. split; cbn [call_op plWorkers].
    + intros p. rewrite slots_app. specialize (Hf p). lia.
    + apply Forall_app. split; [done|]. constructor; [|constructor]. cbn. by split; [|left].
  - unfold run_at. destruct (plWorkers s !! i) as [k|] eqn:Hk; [|done]. cbn. destruct (jammed_worker s i k Hs Hk) as [-> _]. done.
  - unfold submit_at. destruct (plWorkers s !! i) as [k|]; [|done]. cbn. destruct (wkJob k); [done|]. destruct (wkSubmits k) as [|j ?]; [done|].
    unfold free. rewrite bool_decide_eq_false_2; [done|]. pose proof (jm_full s Hs (pool_of j)). lia.
  - unfold leave_at. destruct (plWorkers s !! i) as [k|] eqn:Hk; [|done]. cbn. destruct (jammed_worker s i k Hs Hk) as [-> Hp].
    destruct (wkSubmits k); [|done]. destruct Hp as [Hp|]; [|done]. intros [= <-]. split; [|done].
    apply at_worker in Hk as (l1 & l2 & Hl & <-). destruct Hs as [Hf Hw]. rewrite Hl in *. rewrite removed. split; cbn [plWorkers].
    + intros p. specialize (Hf p). rewrite slots_app, slots_cons in Hf. rewrite slots_app. rewrite decide_False in Hf by (by rewrite Hp). lia.
    + apply Forall_app in Hw as [H1 [_ H2]%Forall_cons]. by apply Forall_app.
Qed.

(** Nothing runs again, whatever is called. *)
Lemma jammed_forever moves s s' : jammed s -> pool_steps e capacity moves s = Some s' -> plRun s' = plRun s.
Proof.
  revert s. induction moves as [|m l IH]; intros s Hs; [by intros [= <-]|]. cbn. destruct (pool_step _ _ m s) as [s1|] eqn:E; [|done].
  destruct (jammed_step m s s1 Hs E) as [H1 H2]. cbn. intros H. by rewrite <- H2, (IH s1).
Qed.
End Deadlock.

Module PoolExample.
#[local] Existing Instance example_runtime.
(** Ten cases of a workflow with two steps after the first one, and the default sizes of
    the pools. *)
Definition ast : json :=
  JObj [("steps", JArr [
    JObj [("id", JStr "start"); ("type", JStr "integration"); ("depends_on", JArr [])];
    JObj [("id", JStr "left"); ("type", JStr "integration"); ("depends_on", JArr [JStr "start"])];
    JObj [("id", JStr "right"); ("type", JStr "integration"); ("depends_on", JArr [JStr "start"])]])].
Definition row (s : step_state) : StepRow := mkStepRow 9 s None None None (JArr []) None None None 0 None None.
Definition ids : list uuid := map N.of_nat (seq 1 10).
Definition world : World :=
  mkWorld (mkDB (list_to_map (map (fun c => (c, example_case)) ids))
    (list_to_map (concat (map (fun c => [((c, "start"), row StateActive); ((c, "left"), row StatePending); ((c, "right"), row StatePending)]) ids)))
    [] {[ (3%N, 1%Z) := mkVersionRow Published ast ]} ∅ [] ∅ ∅ ∅ ∅) None 0 0 [] [] [].
Definition engine : Engine := RegisterExecutor "integration" (fun _ _ _ => mret None) (mkEngine None ∅ None 1).
Definition size (p : pool) : nat := pool_capacity 0.
(** All first steps are completed; the evaluations start, and each submits its first
    step; these run. *)
Definition schedule : list move :=
  map (fun c => CallOp (OpComplete c "start" None)) ids ++ concat (map (fun _ => [SubmitAt 0; LeaveAt 0]) ids) ++
  map RunAt (seq 0 10) ++ map SubmitAt (seq 0 10) ++ map RunAt (seq 10 10).
Definition stays_active (s : Pools) : bool :=
  bool_decide (map (fun c => sState <$> case_steps (db (plWorld s)) !! (c, "right")) ids = map (fun _ => Some StateActive) ids).
Definition all_wait (s : Pools) : bool :=
  negb (bool_decide (plWorkers s = [])) && forallb (fun k => negb (bool_decide (wkSubmits k = []))) (plWorkers s).
Lemma after_jammed : match pool_steps engine size schedule (idle world) with Some s => jammedb size s && all_wait s && stays_active s | None => false end = true.
Proof. vm_compute. reflexivity. Qed.
Lemma after_some : exists s, pool_steps engine size schedule (idle world) = Some s /\ jammedb size s && all_wait s && stays_active s = true.
Proof.
  pose proof after_jammed as H. revert H. generalize (pool_steps engine size schedule (idle world)). intros [s|] H; [|discriminate H]. exists s. split; [reflexivity|exact H].
Qed.

(** With the default sizes, ten cases and an executor that succeeds at once, the engine
    comes to a state in which no job ever runs again: the steps that were to run in
    parallel to the first ones stay active. *)
Theorem engine_deadlock : exists s, pool_steps engine size schedule (idle world) = Some s /\ deadlocked engine size s /\
  (forall moves s', pool_steps engine size moves s = Some s' -> plRun s' = plRun s) /\
  map (fun c => sState <$> case_steps (db (plWorld s)) !! (c, "right")) ids = map (fun _ => Some StateActive) ids.
Proof.
  destruct after_some as (s & E & H). exists s. split; [exact E|clear E].
  apply andb_true_iff in H as [H Ha%bool_decide_eq_true]. apply andb_true_iff in H as [Hj%jammedb_spec Hw].
  apply andb_true_iff in Hw as [Hn%negb_true_iff%bool_decide_eq_false Hw]. rewrite forallb_forall in Hw.
  split; [|split; [intros moves s'; by apply jammed_forever|exact Ha]]. split; [exact Hn|]. intros i. unfold run_at, submit_at, leave_at.
  destruct (plWorkers s !! i) as [k|] eqn:Hk; [|done]. cbn. destruct (jammed_worker size s i k Hj Hk) as [-> _].
  specialize (Hw k (proj1 (list_elem_of_In _ _) (list_elem_of_lookup_2 _ _ _ Hk))). apply negb_true_iff, bool_decide_eq_false in Hw.
  destruct (wkSubmits k) as [|j rest]; [done|]. unfold free. rewrite bool_decide_eq_false_2; [done|].
  pose proof (jm_full size s Hj (pool_of j)). lia.
Qed.

Lemma pools_correct_witness : exists s, pool_steps engine size schedule (idle world) = Some s /\ (forall p, (slots p (plWorkers s) <= 10)%nat) /\
  plQueued s ≡ₚ plRun s ++ to_run (plWorkers s) ++ to_submit (plWorkers s).
Proof.
  destruct after_some as (s & E & _). exists s. split; [exact E|].
  destruct (pools_correct engine size world schedule s E) as (H1 & H2 & _). split; [exact H1|exact H2].
Defined.
End PoolExample.
