(* ===== verification/TaskForms.v ===== *)
(** * Task forms, deadlines and the inbox order

    The pure part of [internal/tasks]: [task_forms.go] and the choice of an
    assignee in [task_escalation.go]. Form data is the decoded JSON object of a
    request; a field path is split at its dots. *)

From stdpp Require Import pretty.
From S2P Require Import Prelude GoStrings Json EngineTypes Store.

(** ** Data *)

Record ValidationError : Type := mkValidationError {
  veField : string;
  veCode : string;
  veMessage : string
}.

Record FormField : Type := mkFormField {
  ffID : string;
  ffBind : string;
  ffLabel : string;
  ffType : string;
  ffReadonly : bool;
  ffRequired : bool;
  ffOptions : list string;
  ffOptionsFrom : string;
  ffMinLength : option Z;
  ffMaxLength : option Z;
  ffMin : option Qc;
  ffMax : option Qc
}.

Record FormAction : Type := mkFormAction {
  faLabel : string;
  faValue : string;
  faStyle : string;
  faRequires : list string
}.

Record FormSection : Type := mkFormSection {
  secSection : string;
  secFields : list FormField
}.

Record FormSchema : Type := mkFormSchema {
  fsTitle : string;
  fsLayout : list FormSection;
  fsActions : list FormAction;
  fsFields : list FormField
}.

(** [json.Marshal] with the struct tags; most fields are [omitempty]. *)
Definition omit_str (k s : string) : list (string * json) :=
  if decide (s = "") then [] else [(k, JStr s)].
Definition omit_bool (k : string) (b : bool) : list (string * json) :=
  if b then [(k, JBool true)] else [].
Definition omit_list (k : string) (l : list json) : list (string * json) :=
  match l with [] => [] | _ => [(k, JArr l)] end.
Definition omit_opt {A} (k : string) (f : A -> json) (o : option A) : list (string * json) :=
  match o with Some a => [(k, f a)] | None => [] end.

Definition marshal_FormField (f : FormField) : json :=
  JObj (mk_obj (omit_str "id" (ffID f) ++ omit_str "bind" (ffBind f) ++
    omit_str "label" (ffLabel f) ++ omit_str "type" (ffType f) ++
    omit_bool "readonly" (ffReadonly f) ++ omit_bool "required" (ffRequired f) ++
    omit_list "options" (map JStr (ffOptions f)) ++ omit_str "options_from" (ffOptionsFrom f) ++
    omit_opt "min_length" JInt (ffMinLength f) ++ omit_opt "max_length" JInt (ffMaxLength f) ++
    omit_opt "min" JNum (ffMin f) ++ omit_opt "max" JNum (ffMax f))).

Definition marshal_FormAction (a : FormAction) : json :=
  JObj (mk_obj ([("label", JStr (faLabel a)); ("value", JStr (faValue a))] ++
    omit_str "style" (faStyle a) ++ omit_list "requires" (map JStr (faRequires a)))).

Definition marshal_FormSection (s : FormSection) : json :=
  JObj [("fields", match secFields s with
                   | [] => JNull | l => JArr (map marshal_FormField l) end);
        ("section", JStr (secSection s))].

Definition marshal_FormSchema (s : FormSchema) : json :=
  JObj (mk_obj (omit_str "title" (fsTitle s) ++
    omit_list "layout" (map marshal_FormSection (fsLayout s)) ++
    omit_list "actions" (map marshal_FormAction (fsActions s)) ++
    omit_list "fields" (map marshal_FormField (fsFields s)))).

(** ** Paths *)

Definition get_part (cur : option json) (part : string) : option json :=
  match cur with
  | Some (JObj m) => obj_get part m
  | _ => None
  end.

Definition getAtPath (obj : object) (path : string) : option json :=
  foldl get_part (Some (JObj obj)) (Split "." path).

(** The parts of a path are consumed one by one; an intermediate value that is
    not an object is replaced by a new one. *)
Fixpoint set_parts (obj : object) (parts : list string) (value : json) : object :=
  match parts with
  | [] => obj
  | [part] => obj_set part value obj
  | part :: rest =>
      let next := match obj_get part obj with Some (JObj m) => m | _ => [] end in
      obj_set part (JObj (set_parts next rest value)) obj
  end.

Definition setAtPath (obj : object) (path : string) (value : json) : object :=
  set_parts obj (Split "." path) value.

Definition isEmptyValue (v : json) : bool :=
  match v with
  | JNull => true
  | JStr s => bool_decide (TrimSpace s = "")
  | JArr l => bool_decide (l = [])
  | _ => false
  end.

Definition toFloat (v : json) : option Qc :=
  match v with JNum q => Some q | _ => None end.

Definition contains (items : list string) (val : string) : bool := bool_decide (val ∈ items).

(** ** Form fields *)

Definition hasFormSchemaContent (s : FormSchema) : bool :=
  bool_decide (TrimSpace (fsTitle s) <> "") || bool_decide (fsActions s <> [])
  || bool_decide (fsLayout s <> []) || bool_decide (fsFields s <> []).

Definition flattenFormFields (s : FormSchema) : list FormField :=
  fsFields s ++ concat (map secFields (fsLayout s)).

Definition formFieldDataPath (f : FormField) : string :=
  if decide (TrimSpace (ffID f) <> "") then TrimSpace (ffID f)
  else
    let bind := TrimSpace (ffBind f) in
    if HasPrefix bind "decision." then TrimPrefix bind "decision." else bind.

Definition Qc_ltb (a b : Qc) : bool :=
  match Qccompare a b with Lt => true | _ => false end.

(** [num != float64(int64(num))]: an integral value in the range of [int64]. *)
Definition is_int64 (q : Qc) : bool :=
  Qc_is_int q && bool_decide (int64_min <= Qnum (this q) <= int64_max)%Z.

Section Validate.
(** [%v] of a [float64]. *)
Context (fmtFloat : Qc -> string).

Definition min_error (key : string) (m : Qc) : ValidationError :=
  mkValidationError key "min" ("minimum value is " +:+ fmtFloat m).
Definition max_error (key : string) (m : Qc) : ValidationError :=
  mkValidationError key "max" ("maximum value is " +:+ fmtFloat m).
Definition type_error (key what : string) : ValidationError :=
  mkValidationError key "type" ("must be " +:+ what).

Definition length_errors (f : FormField) (key s : string) : list ValidationError :=
  let n := Z.of_nat (String.length s) in
  match ffMinLength f with
  | Some m => if n <? m
              then [mkValidationError key "min_length" ("minimum length is " +:+ pretty m)] else []
  | None => []
  end ++
  match ffMaxLength f with
  | Some m => if m <? n
              then [mkValidationError key "max_length" ("maximum length is " +:+ pretty m)] else []
  | None => []
  end.

Definition range_errors (f : FormField) (key : string) (num : Qc) : list ValidationError :=
  match ffMin f with
  | Some m => if Qc_ltb num m then [min_error key m] else []
  | None => []
  end ++
  match ffMax f with
  | Some m => if Qc_ltb m num then [max_error key m] else []
  | None => []
  end.

Definition type_errors (f : FormField) (key : string) (v : json) : list ValidationError :=
  let ty := ToLower (ffType f) in
  if decide (ty = "string") then
    match v with JStr _ => [] | _ => [type_error key "a string"] end
  else if decide (ty = "number") then
    match toFloat v with
    | Some num => range_errors f key num
    | None => [type_error key "a number"]
    end
  else if decide (ty = "integer") then
    match toFloat v with
    | Some num => if is_int64 num then range_errors f key num else [type_error key "an integer"]
    | None => [type_error key "an integer"]
    end
  else if decide (ty = "boolean") then
    match v with JBool _ => [] | _ => [type_error key "a boolean"] end
  else if decide (ty = "object") then
    match v with JObj _ => [] | _ => [type_error key "an object"] end
  else [].

(** The body of the loop of [ValidateFormData]. *)
Definition validate_field (data : object) (f : FormField) : list ValidationError :=
  let key := formFieldDataPath f in
  if decide (key = "") then []
  else
    let v := getAtPath data key in
    if ffRequired f && match v with Some j => isEmptyValue j | None => true end
    then [mkValidationError key "required" "field is required"]
    else
      match v with
      | None => []
      | Some j =>
          match j with JStr s => length_errors f key s | _ => [] end ++ type_errors f key j
      end.

Definition ValidateFormData (s : FormSchema) (data : object) : list ValidationError :=
  concat (map (validate_field data) (flattenFormFields s)).

Definition requirement_error (data : object) (required : string) : list ValidationError :=
  let path := TrimPrefix (TrimSpace required) "decision." in
  if decide (path = "") then []
  else
    match getAtPath data path with
    | Some v => if isEmptyValue v
                then [mkValidationError path "required_for_action"
                        "field is required for selected action"] else []
    | None => [mkValidationError path "required_for_action"
                 "field is required for selected action"]
    end.

Fixpoint find_action (outcome : string) (l : list FormAction) : option FormAction :=
  match l with
  | [] => None
  | a :: l' => if decide (faValue a = outcome) then Some a else find_action outcome l'
  end.

Definition ValidateActionRequirements (s : FormSchema) (outcome : string) (data : object)
  : list ValidationError :=
  if decide (TrimSpace outcome = "") then []
  else
    match find_action outcome (fsActions s) with
    | Some a => concat (map (requirement_error data) (faRequires a))
    | None => []
    end.

End Validate.

(** ** Metadata *)

Definition extractSLAHours (meta : json) : Z :=
  match meta with
  | JObj m => match obj_get "sla_hours" m with
              | Some (JNum q) => Z.quot (Qnum (this q)) (Zpos (Qden (this q)))
              | _ => 0
              end
  | _ => 0
  end.

Definition configuredOutcomes (metadata : object) : list string :=
  match obj_get "outcomes" metadata with
  | Some (JArr l) =>
      omap (fun j => match j with
                     | JStr s => if decide (TrimSpace s <> "") then Some s else None
                     | _ => None
                     end) l
  | _ => []
  end.

Definition extractAgentOriginalOutput (metadata : object) : object :=
  match obj_get "agent_review" metadata with
  | Some (JObj review) =>
      match obj_get "original_output" review with Some (JObj orig) => orig | _ => [] end
  | _ => []
  end.

(** ** Deadlines *)

Inductive sla_status : Type := Breached | Warning | OnTrack.
#[export] Instance sla_status_eq_dec : EqDecision sla_status.
Proof. solve_decision. Defined.

(** [time.Time.Sub] saturates. *)
Definition time_Sub (t u : Z) : Z := Z.max int64_min (Z.min int64_max (t - u)).

(** The window is a quarter of the hours; the [float64] product is exact below
    ten million hours. *)
Definition SLAStatus (now : Z) (deadline startedAt : option Z) (slaHours : Z) : sla_status :=
  match deadline with
  | None => OnTrack
  | Some dl =>
      if dl <? now then Breached
      else if 0 <? slaHours then
        let warningStart := dl - Hour * slaHours / 4 in
        if negb (now <? warningStart) then Warning else OnTrack
      else
        match startedAt with
        | Some st =>
            let remaining := time_Sub dl now in
            let full := time_Sub dl st in
            if (0 <? full) && (remaining <=? Z.quot full 4) then Warning else OnTrack
        | None => OnTrack
        end
  end.

(** ** The order of the inbox *)

Record InboxTask : Type := mkInboxTask {
  itStepID : string;
  itPriority : Z;
  itStartedAt : option Z;
  itDeadline : option Z;
  itSLAHours : Z
}.

Definition status_order (s : sla_status) : Z :=
  match s with Breached => 0 | Warning => 1 | OnTrack => 2 end.

Definition task_order (now : Z) (t : InboxTask) : Z :=
  status_order (SLAStatus now (itDeadline t) (itStartedAt t) (itSLAHours t)).

Definition inboxLess (a b : InboxTask) (now : Z) : bool :=
  if negb (task_order now a =? task_order now b) then task_order now a <? task_order now b
  else
    let rest :=
      if negb (itPriority a =? itPriority b) then itPriority b <? itPriority a
      else
        match itStartedAt a, itStartedAt b with
        | Some sa, Some sb => sa <? sb
        | None, Some _ => false
        | Some _, None => true
        | None, None => str_ltb (itStepID a) (itStepID b)
        end in
    match itDeadline a, itDeadline b with
    | Some da, Some db => if negb (da =? db) then da <? db else rest
    | None, Some _ => false
    | Some _, None => true
    | None, None => rest
    end.

(** ** The least loaded assignee *)

Record userLoad : Type := mkUserLoad {
  ulPrincipalID : uuid;
  ulActiveCount : Z;
  ulCreatedAt : Z
}.

Definition load_less (a b : userLoad) : bool :=
  if negb (ulActiveCount a =? ulActiveCount b) then ulActiveCount a <? ulActiveCount b
  else if negb (ulCreatedAt a =? ulCreatedAt b) then ulCreatedAt a <? ulCreatedAt b
  else str_ltb (uuid_string (ulPrincipalID a)) (uuid_string (ulPrincipalID b)).

(** [sort.SliceStable] by insertion: each element goes before the first one it
    is not less than, counted from the end. *)
Fixpoint insert_stable {A} (less : A -> A -> bool) (x : A) (l : list A) : list A :=
  match l with
  | [] => [x]
  | y :: l' => if less x y then x :: l else y :: insert_stable less x l'
  end.
Definition SliceStable {A} (less : A -> A -> bool) (l : list A) : list A :=
  foldl (fun acc x => insert_stable less x acc) [] l.

Definition selectLeastLoaded (candidates : list userLoad) : uuid :=
  match SliceStable load_less candidates with
  | [] => uuid_Nil
  | c :: _ => ulPrincipalID c
  end.

(** ** Properties of task forms, the inbox and the choice of an assignee *)

(** ** Orders *)

Lemma compare_lt_trans s t u :
  String.compare s t = Lt -> String.compare t u <> Gt -> String.compare s u = Lt.
Proof.
  revert t u. induction s as [|a s IH]; intros [|b t] [|c u]; simpl; try done.
  unfold Ascii.compare.
  destruct (N.compare_spec (N_of_ascii a) (N_of_ascii b)) as [Hab|Hab|Hab]; try done;
  destruct (N.compare_spec (N_of_ascii b) (N_of_ascii c)) as [Hbc|Hbc|Hbc]; try done;
  destruct (N.compare_spec (N_of_ascii a) (N_of_ascii c)) as [Hac|Hac|Hac]; try done; try lia.
  apply IH.
Qed.

Lemma str_ltb_irrefl s : str_ltb s s = false.
Proof. unfold str_ltb. by rewrite compare_refl_str. Qed.

Lemma str_ltb_neg_trans s t u :
  str_ltb s u = true -> str_ltb s t = true \/ str_ltb t u = true.
Proof.
  unfold str_ltb. intros H. destruct (String.compare s u) eqn:Hsu; try done.
  destruct (String.compare s t) eqn:Hst; [|by left|].
  - apply String.compare_eq_iff in Hst as ->. rewrite Hsu. by right.
  - right. rewrite String.compare_antisym in Hst.
    destruct (String.compare t s) eqn:Hts; try done.
    rewrite (compare_lt_trans t s u Hts); [done|]. by rewrite Hsu.
Qed.

(** A strict weak order: irreflexive, and what is less is separated by every
    third element. *)
Record strict_weak {A} (less : A -> A -> bool) : Prop := mk_strict_weak {
  sw_irrefl : forall a, less a a = false;
  sw_trans : forall a b c, less a b = true -> less b c = true -> less a c = true;
  sw_neg : forall a b c, less a c = true -> less a b = true \/ less b c = true
}.

Lemma str_ltb_trans s t u : str_ltb s t = true -> str_ltb t u = true -> str_ltb s u = true.
Proof.
  unfold str_ltb. intros H1 H2. destruct (String.compare s t) eqn:Hst; try done.
  destruct (String.compare t u) eqn:Htu; try done.
  by rewrite (compare_lt_trans s t u Hst); [|rewrite Htu].
Qed.

Lemma str_ltb_weak : strict_weak str_ltb.
Proof. split; [apply str_ltb_irrefl|apply str_ltb_trans|apply str_ltb_neg_trans]. Qed.

(** An order on a key of the elements. *)
Lemma strict_weak_on {A B} (f : A -> B) (less : B -> B -> bool) :
  strict_weak less -> strict_weak (fun a b => less (f a) (f b)).
Proof. intros [Hi Ht Hn]. split; eauto. Qed.

(** A key that decides, and an order that decides among equal keys. *)
Definition lex {A} (key : A -> Z) (less : A -> A -> bool) (a b : A) : bool :=
  if negb (key a =? key b) then key a <? key b else less a b.

Lemma lex_weak {A} (key : A -> Z) (less : A -> A -> bool) :
  strict_weak less -> strict_weak (lex key less).
Proof.
  intros [Hi Ht Hn]. unfold lex. split.
  - intros a. rewrite Z.eqb_refl. apply Hi.
  - intros a b c. destruct (Z.eqb_spec (key a) (key b)), (Z.eqb_spec (key b) (key c)),
      (Z.eqb_spec (key a) (key c)); simpl; try lia; intros; try (apply Z.ltb_lt; lia); eauto.
  - intros a b c. destruct (Z.eqb_spec (key a) (key b)), (Z.eqb_spec (key b) (key c)),
      (Z.eqb_spec (key a) (key c)); simpl; try lia; intros Hc; auto;
      apply Z.ltb_lt in Hc || idtac; try (left; apply Z.ltb_lt; lia);
      try (right; apply Z.ltb_lt; lia);
      destruct (Z.ltb_spec (key a) (key b)); auto; right; apply Z.ltb_lt; lia.
Qed.

(** A value that may be missing, the missing ones last. *)
Definition present_first {A} (key : A -> option Z) (a : A) : Z :=
  match key a with Some _ => 0 | None => 1 end.
Definition opt_value {A} (key : A -> option Z) (a : A) : Z := default 0 (key a).

(** Strings compared only when both tasks have not started. *)
Definition unstarted_less (a b : InboxTask) : bool :=
  match itStartedAt a, itStartedAt b with
  | None, None => str_ltb (itStepID a) (itStepID b)
  | Some x, Some y => x <? y
  | Some _, None => true
  | None, Some _ => false
  end.

Lemma unstarted_weak : strict_weak unstarted_less.
Proof.
  destruct str_ltb_weak as [Hi Ht Hn]. unfold unstarted_less. split.
  - intros a. destruct (itStartedAt a); [apply Z.ltb_irrefl|apply Hi].
  - intros a b c. destruct (itStartedAt a), (itStartedAt b), (itStartedAt c);
      first [done|lia|apply Ht].
  - intros a b c. destruct (itStartedAt a), (itStartedAt b), (itStartedAt c);
      first [by left|by right|lia|apply Hn|naive_solver].
Qed.

Lemma inboxLess_lex now a b :
  inboxLess a b now =
  lex (task_order now) (lex (present_first itDeadline) (lex (opt_value itDeadline)
    (lex (fun t => - itPriority t) unstarted_less))) a b.
Proof.
  unfold inboxLess, lex, unstarted_less, present_first, opt_value.
  destruct (task_order now a =? task_order now b); [|done]. simpl.
  assert ((- itPriority a =? - itPriority b) = (itPriority a =? itPriority b)) as -> by lia.
  assert ((- itPriority a <? - itPriority b) = (itPriority b <? itPriority a)) as -> by lia.
  destruct (itDeadline a), (itDeadline b); simpl; try done;
    destruct (itStartedAt a), (itStartedAt b); done.
Qed.

Lemma inboxLess_weak now : strict_weak (fun a b => inboxLess a b now).
Proof.
  pose proof (lex_weak (task_order now) _ (lex_weak (present_first itDeadline) _
    (lex_weak (opt_value itDeadline) _ (lex_weak (fun t => - itPriority t) _ unstarted_weak))))
    as [Hi Ht Hn].
  split.
  - intros a. rewrite inboxLess_lex. apply Hi.
  - intros a b c. rewrite !inboxLess_lex. apply Ht.
  - intros a b c. rewrite !inboxLess_lex. apply Hn.
Qed.

Lemma load_less_weak : strict_weak load_less.
Proof.
  assert (strict_weak (fun a b => str_ltb (uuid_string (ulPrincipalID a))
    (uuid_string (ulPrincipalID b)))) as Hs.
  { destruct str_ltb_weak as [Hi Ht Hn].
    split; [intros; apply Hi|intros a b c; apply Ht|intros a b c; apply Hn]. }
  pose proof (lex_weak ulActiveCount _ (lex_weak ulCreatedAt _ Hs)) as [Hi Ht Hn].
  split; [exact Hi|exact Ht|exact Hn].
Qed.

(** ** Stable sorting *)

Section Sorting.
Context {A : Type} (less : A -> A -> bool) (Hw : strict_weak less).

Definition not_after (a b : A) : Prop := less b a = false.

Lemma insert_stable_perm x l : insert_stable less x l ≡ₚ x :: l.
Proof.
  induction l as [|y l IH]; simpl; [done|]. destruct (less x y); [done|].
  rewrite IH. apply Permutation_swap.
Qed.

Lemma less_asym a b : less a b = true -> less b a = false.
Proof.
  intros Hab. destruct (less b a) eqn:Hba; [|done].
  pose proof (sw_trans _ Hw a b a Hab Hba) as H. rewrite (sw_irrefl _ Hw) in H. done.
Qed.

Lemma not_after_trans a b c : not_after a b -> not_after b c -> not_after a c.
Proof.
  unfold not_after. intros Hab Hbc. destruct (less c a) eqn:Hca; [|done].
  destruct (sw_neg _ Hw c b a Hca); congruence.
Qed.

Lemma insert_stable_sorted x l :
  StronglySorted not_after l -> StronglySorted not_after (insert_stable less x l).
Proof.
  induction 1 as [|y l Hs IH Hf]; simpl; [by repeat constructor|].
  destruct (less x y) eqn:Hxy.
  - assert (not_after x y) as Hn by (by apply less_asym).
    constructor; [by constructor|]. constructor; [done|].
    eapply Forall_impl; [exact Hf|]. intros z Hz. by eapply not_after_trans.
  - constructor; [done|]. rewrite insert_stable_perm. constructor; [done|done].
Qed.

Lemma SliceStable_perm l : SliceStable less l ≡ₚ l.
Proof.
  unfold SliceStable. assert (forall acc, foldl (fun acc x => insert_stable less x acc) acc l ≡ₚ acc ++ l) as H.
  { induction l as [|x l IH]; intros acc; simpl; [by rewrite app_nil_r|].
    rewrite IH, insert_stable_perm. simpl. rewrite Permutation_middle. done. }
  apply (H []).
Qed.

Lemma SliceStable_sorted l : StronglySorted not_after (SliceStable less l).
Proof.
  unfold SliceStable. assert (forall acc, StronglySorted not_after acc ->
    StronglySorted not_after (foldl (fun acc x => insert_stable less x acc) acc l)) as H.
  { induction l as [|x l IH]; intros acc Ha; simpl; [done|].
    by apply IH, insert_stable_sorted. }
  apply H. constructor.
Qed.

End Sorting.

(** ** Paths *)

Lemma get_parts_None parts : foldl get_part None parts = None.
Proof. induction parts; simpl; auto. Qed.

Definition get_parts (v : option json) (parts : list string) : option json :=
  foldl get_part v parts.

Lemma get_parts_cons m part rest :
  get_parts (Some (JObj m)) (part :: rest) = get_parts (obj_get part m) rest.
Proof. done. Qed.

Lemma set_parts_cons obj part p rest value :
  set_parts obj (part :: p :: rest) value =
  obj_set part (JObj (set_parts
    match obj_get part obj with Some (JObj m) => m | _ => [] end (p :: rest) value)) obj.
Proof. done. Qed.

Lemma set_parts_get obj parts value :
  parts <> [] -> get_parts (Some (JObj (set_parts obj parts value))) parts = Some value.
Proof.
  revert obj. induction parts as [|part [|p rest] IH]; intros obj Hne; [done| |].
  - simpl. by rewrite obj_get_set.
  - rewrite set_parts_cons, get_parts_cons, obj_get_set. by apply IH.
Qed.

(** The paths part ways before either ends. *)
Fixpoint diverge (p q : list string) : Prop :=
  match p, q with
  | a :: p', b :: q' => a <> b \/ diverge p' q'
  | _, _ => False
  end.

Lemma set_parts_other obj p q value :
  diverge p q -> get_parts (Some (JObj (set_parts obj p value))) q = get_parts (Some (JObj obj)) q.
Proof.
  revert obj q. induction p as [|a [|a' p] IH]; intros obj [|b q] Hd; try done.
  - simpl in Hd. destruct Hd as [Hd|Hd]; [|by destruct q].
    cbn [set_parts]. rewrite !get_parts_cons, obj_get_set_ne by done. done.
  - rewrite set_parts_cons, !get_parts_cons. destruct (decide (a = b)) as [<-|Hne].
    + destruct Hd as [Hd|Hd]; [done|]. rewrite obj_get_set, IH by done.
      destruct q as [|b q]; [done|].
      destruct (obj_get a obj) as [[]|]; try done; unfold get_parts; simpl;
        by rewrite ?get_parts_None.
    + by rewrite obj_get_set_ne.
Qed.

(** ** Validation: when a field is accepted *)

Definition in_range (f : FormField) (q : Qc) : Prop :=
  (forall m, ffMin f = Some m -> Qcle m q) /\ (forall m, ffMax f = Some m -> Qcle q m).

Definition length_ok (f : FormField) (s : string) : Prop :=
  (forall m, ffMinLength f = Some m -> m <= Z.of_nat (String.length s)) /\
  (forall m, ffMaxLength f = Some m -> Z.of_nat (String.length s) <= m).

(** The type a field declares, in any letter case; other names accept all. *)
Definition has_type (f : FormField) (v : json) : Prop :=
  let ty := ToLower (ffType f) in
  (ty = "string" -> exists s, v = JStr s) /\
  (ty = "number" -> exists q, v = JNum q /\ in_range f q) /\
  (ty = "integer" -> exists q, v = JNum q /\ is_int64 q = true /\ in_range f q) /\
  (ty = "boolean" -> exists b, v = JBool b) /\
  (ty = "object" -> exists m, v = JObj m).

Definition field_ok (data : object) (f : FormField) : Prop :=
  formFieldDataPath f = "" \/
  match getAtPath data (formFieldDataPath f) with
  | None => ffRequired f = false
  | Some v =>
      (ffRequired f = true -> isEmptyValue v = false) /\
      (forall s, v = JStr s -> length_ok f s) /\ has_type f v
  end.

Lemma Qc_ltb_spec a b : Qc_ltb a b = false <-> Qcle b a.
Proof.
  unfold Qc_ltb. pose proof (Qclt_alt a b) as Hlt.
  destruct (Qccompare a b) eqn:Hc; split; try done; intros H.
  - apply Qcnot_lt_le. by intros ?%Hlt.
  - by destruct (Qcle_not_lt _ _ H (proj2 Hlt eq_refl)).
  - apply Qcnot_lt_le. by intros ?%Hlt.
Qed.

Lemma opt_check_nil {A B} (o : option A) (bad : A -> bool) (e : A -> B) :
  match o with Some m => if bad m then [e m] else [] | None => [] end = [] <->
  forall m, o = Some m -> bad m = false.
Proof.
  destruct o as [m|]; [|split; [by intros _ m|done]]. destruct (bad m) eqn:Hb; split; try done.
  - intros H. specialize (H m eq_refl). congruence.
  - by intros _ m' [= <-].
Qed.

Section Valid.
Context (fmtFloat : Qc -> string).

Lemma range_errors_nil f key q : range_errors fmtFloat f key q = [] <-> in_range f q.
Proof.
  unfold range_errors, in_range. rewrite app_nil.
  rewrite (opt_check_nil (ffMin f) (fun m => Qc_ltb q m)),
    (opt_check_nil (ffMax f) (fun m => Qc_ltb m q)).
  by setoid_rewrite Qc_ltb_spec.
Qed.

Lemma length_errors_nil f key s : length_errors f key s = [] <-> length_ok f s.
Proof.
  unfold length_errors, length_ok. rewrite app_nil.
  rewrite (opt_check_nil (ffMinLength f) (fun m => Z.of_nat (String.length s) <? m)),
    (opt_check_nil (ffMaxLength f) (fun m => m <? Z.of_nat (String.length s))).
  by setoid_rewrite Z.ltb_ge.
Qed.

Lemma type_errors_nil f key v : type_errors fmtFloat f key v = [] <-> has_type f v.
Proof.
  unfold type_errors, has_type. cbv zeta.
  destruct (decide (ToLower (ffType f) = "string")) as [->|H1].
  { split; [destruct v; try done; intros _; split_and!; try done; eauto|].
    intros (Hs & _). by destruct (Hs eq_refl) as [s ->]. }
  destruct (decide (ToLower (ffType f) = "number")) as [->|H2].
  { split.
    - destruct v; try done. simpl. intros Hr%range_errors_nil. split_and!; try done; eauto.
    - intros (_ & Hs & _). destruct (Hs eq_refl) as (q & -> & Hr). by apply range_errors_nil. }
  destruct (decide (ToLower (ffType f) = "integer")) as [->|H3].
  { split.
    - destruct v; try done. simpl. destruct (is_int64 q) eqn:Hi; [|done].
      intros Hr%range_errors_nil. split_and!; try done; eauto.
    - intros (_ & _ & Hs & _). destruct (Hs eq_refl) as (q & -> & Hi & Hr). simpl. rewrite Hi.
      by apply range_errors_nil. }
  destruct (decide (ToLower (ffType f) = "boolean")) as [->|H4].
  { split; [destruct v; try done; intros _; split_and!; try done; eauto|].
    intros (_ & _ & _ & Hs & _). by destruct (Hs eq_refl) as [b ->]. }
  destruct (decide (ToLower (ffType f) = "object")) as [->|H5].
  { split; [destruct v; try done; intros _; split_and!; try done; eauto|].
    intros (_ & _ & _ & _ & Hs). by destruct (Hs eq_refl) as [m ->]. }
  split; [|done]. intros _. by split_and!.
Qed.

Lemma validate_field_nil data f : validate_field fmtFloat data f = [] <-> field_ok data f.
Proof.
  unfold validate_field, field_ok. cbv zeta.
  destruct (decide (formFieldDataPath f = "")) as [|Hk]; [by split; [left|]|].
  destruct (getAtPath data (formFieldDataPath f)) as [v|].
  - destruct (ffRequired f && isEmptyValue v) eqn:Hr.
    + split; [done|]. boolp. intros [?|(He & _)]; [done|]. rewrite He in *; done.
    + rewrite app_nil, type_errors_nil. split.
      * intros [Hl Ht]. right. split_and!; [|intros s ->; by apply length_errors_nil in Hl|done].
        intros Hreq. by rewrite Hreq in Hr.
      * intros [?|(_ & Hl & Ht)]; [done|]. split; [|done].
        destruct v; try done. apply length_errors_nil. by apply Hl.
  - destruct (ffRequired f); simpl; split; try done; [|by right]. by intros [?|?].
Qed.

Lemma concat_nil {A B} (g : A -> list B) l :
  concat (map g l) = [] <-> forall x, x ∈ l -> g x = [].
Proof.
  induction l as [|a l IH]; simpl.
  - split; [|done]. intros _ x Hx. by apply not_elem_of_nil in Hx.
  - rewrite app_nil, IH. split.
    + intros [Ha Hl] x [->|Hx]%elem_of_cons; auto.
    + intros Hall. split; [apply Hall; by left|]. intros x Hx. apply Hall. by right.
Qed.

End Valid.

(** ** The claims *)

(** A value written at a path is read back at that path, and values at
    paths that part from it are unchanged. *)
Theorem setAtPath_getAtPath obj path value other :
  getAtPath (setAtPath obj path value) path = Some value /\
  (diverge (Split "." path) (Split "." other) ->
   getAtPath (setAtPath obj path value) other = getAtPath obj other).
Proof.
  split; [apply set_parts_get, Split_nonempty|apply set_parts_other].
Qed.

(** [ValidateFormData] reports no error exactly when every field with a data
    path is acceptable: present and non-empty if required, and if present within
    its length bounds (for a string), of its declared type and within its range. *)
Theorem ValidateFormData_correct fmtFloat s data :
  ValidateFormData fmtFloat s data = [] <->
  forall f, f ∈ flattenFormFields s -> field_ok data f.
Proof. unfold ValidateFormData. rewrite concat_nil. by setoid_rewrite validate_field_nil. Qed.

(** The inbox order is a strict weak order, so the inbox is sorted: a
    permutation of the tasks in which no later task precedes an earlier one, and
    in particular breached tasks come before warnings and those before the rest. *)
Theorem inbox_sorted now tasks :
  let out := SliceStable (fun a b => inboxLess a b now) tasks in
  strict_weak (fun a b => inboxLess a b now) /\ out ≡ₚ tasks /\
  StronglySorted (fun a b => inboxLess b a now = false) out /\
  StronglySorted (fun a b => task_order now a <= task_order now b) out.
Proof.
  intros out. pose proof (inboxLess_weak now) as Hw.
  pose proof (SliceStable_sorted _ Hw tasks) as Hs. fold out in Hs.
  split_and!; [done|apply SliceStable_perm|exact Hs|].
  induction Hs as [|a l _ IH Hf]; constructor; [done|].
  eapply Forall_impl; [exact Hf|]. intros b. unfold not_after, inboxLess.
  destruct (Z.eqb_spec (task_order now b) (task_order now a)); simpl; lia.
Qed.

(** [selectLeastLoaded] picks a candidate no other candidate is preferred
    to: fewest active tasks, then the earliest created; without candidates it
    returns the nil id. *)
Theorem selectLeastLoaded_minimal cs :
  (cs = [] -> selectLeastLoaded cs = uuid_Nil) /\
  (cs <> [] -> exists c, c ∈ cs /\ selectLeastLoaded cs = ulPrincipalID c /\
    forall c', c' ∈ cs -> load_less c' c = false /\ ulActiveCount c <= ulActiveCount c' /\
      (ulActiveCount c' = ulActiveCount c -> ulCreatedAt c <= ulCreatedAt c')).
Proof.
  split; [by intros ->|]. intros Hne. unfold selectLeastLoaded.
  pose proof (SliceStable_perm load_less cs) as Hp.
  pose proof (SliceStable_sorted _ load_less_weak cs) as Hs.
  destruct (SliceStable load_less cs) as [|c l] eqn:Hl.
  { apply Permutation_nil in Hp. done. }
  exists c. split_and!; [rewrite <- Hp; by left|done|].
  intros c' Hc'. rewrite <- Hp in Hc'. assert (load_less c' c = false) as Hn.
  { apply elem_of_cons in Hc' as [->|Hc']; [apply (sw_irrefl _ load_less_weak)|].
    inversion Hs as [|? ? _ Hf]; subst. rewrite Forall_forall in Hf. by apply Hf. }
  split; [done|]. unfold load_less in Hn.
  destruct (Z.eqb_spec (ulActiveCount c') (ulActiveCount c)); simpl in Hn; [|lia].
  destruct (Z.eqb_spec (ulCreatedAt c') (ulCreatedAt c)); simpl in Hn; lia.
Qed.

(** ** Witnesses *)

Lemma setAtPath_getAtPath_witness :
  getAtPath (setAtPath [("a", JObj [("c", JBool true)])] "a.b" JNull) "a.c" = Some (JBool true).
Proof.
  destruct (setAtPath_getAtPath [("a", JObj [("c", JBool true)])] "a.b" JNull "a.c") as [_ Ho].
  rewrite Ho; [reflexivity|]. right. left. discriminate.
Defined.

Lemma selectLeastLoaded_minimal_witness :
  selectLeastLoaded [mkUserLoad 1 3 5; mkUserLoad 2 1 9; mkUserLoad 3 1 7] = 3%N /\
  exists c, c ∈ [mkUserLoad 1 3 5; mkUserLoad 2 1 9; mkUserLoad 3 1 7] /\
    selectLeastLoaded [mkUserLoad 1 3 5; mkUserLoad 2 1 9; mkUserLoad 3 1 7] = ulPrincipalID c.
Proof.
  split; [vm_compute; reflexivity|].
  destruct (selectLeastLoaded_minimal [mkUserLoad 1 3 5; mkUserLoad 2 1 9; mkUserLoad 3 1 7])
    as [_ H].
  destruct H as (c & Hc & Hs & _); [discriminate|]. exists c. split; [exact Hc|exact Hs].
Defined.
