(* ===== verification/TaskOps.v ===== *)
(** * Human tasks: [internal/tasks]

    Claiming, drafts, reassignment, escalation and creation of tasks, up to the
    commit of each; the notifications and metrics that follow the commit are not
    modelled. [uuid.Parse] is a parameter. *)

From S2P Require Import Prelude GoStrings Json EngineTypes Store AuditTrail EngineOps TaskForms.

Definition ErrAlreadyClaimed : goerr := Errorf "task already claimed" [].
Definition ErrForbidden : goerr := Errorf "forbidden" [].

Record EscalationConfig : Type := mkEscalationConfig {
  ecAfterHours : Z;
  ecToRole : string;
  ecAction : string
}.

Record AssignmentConfig : Type := mkAssignmentConfig {
  acAssignToRole : string;
  acAssignToUser : string;
  acSLAHours : Z;
  acEscalation : EscalationConfig;
  acForm : string;
  acFormSchema : FormSchema;
  acOutcomes : list string;
  acMetadata : object
}.


Definition assign_row (who : option uuid) (r : StepRow) : StepRow :=
  mkStepRow (sID r) (sState r) (sStartedAt r) (sCompletedAt r) (sResult r) (sEvents r) (sError r)
    who (sSlaDeadline r) (sRetryCount r) (sDraftData r) (sMetadata r).

Definition draft_row (data : json) (r : StepRow) : StepRow :=
  mkStepRow (sID r) (sState r) (sStartedAt r) (sCompletedAt r) (sResult r) (sEvents r) (sError r)
    (sAssignedTo r) (sSlaDeadline r) (sRetryCount r) (Some data) (sMetadata r).

Section Tasks.
Context `{R : Runtime}.
Context (uuid_parse : string -> option uuid).

(** The task service: its system actor. *)
Context (sysActor : uuid).

(** [metadata->>'role'], empty when there is none. *)
Definition meta_text (k : string) (m : option json) : string :=
  match m with
  | Some (JObj o) =>
      match obj_get k o with
      | Some (JStr s) => s
      | Some JNull | None => EmptyString
      | Some j => jsonb_text j
      end
  | _ => EmptyString
  end.

Definition row_role (r : StepRow) : string := meta_text "role" (sMetadata r).

Definition has_role (d : DB) (principal tenant : uuid) (role : string) : bool :=
  bool_decide ((principal, tenant, role) ∈ principal_roles d).

(** A row joined with its case, in the tenant of the caller. *)
Definition tenant_row (d : DB) (tenantID caseID : uuid) (stepID : string) : option StepRow :=
  match cases d !! caseID with
  | Some c => if decide (cTenant c = tenantID) then case_steps d !! (caseID, stepID) else None
  | None => None
  end.

Definition is_active (r : StepRow) : bool := state_in [StateActive] r.
Definition unassigned (r : StepRow) : bool :=
  match sAssignedTo r with None => true | Some _ => false end.

(** [assigned_to] references [principals]. *)
Definition set_assignee (key : uuid * string) (who : uuid) (r : StepRow) (d : DB)
  : result goerr DB :=
  match principals d !! who with
  | Some _ => Ok (set_steps <[key := assign_row (Some who) r]> d)
  | None => Err fk_error
  end.

Definition claim_update (tenantID principalID caseID : uuid) (stepID : string) (d : DB)
  : result goerr (bool * DB) :=
  match tenant_row d tenantID caseID stepID with
  | Some r =>
      if is_active r && unassigned r &&
         (bool_decide (row_role r = "") || has_role d principalID tenantID (row_role r))
      then d' ← set_assignee (caseID, stepID) principalID r d; Ok (true, d')
      else Ok (false, d)
  | None => Ok (false, d)
  end.

Definition ClaimTask (tenantID principalID caseID : uuid) (stepID : string) : M unit :=
  with_tx (Wrapf "begin claim task tx: %w" []) (
    claimed ← wrapM (Wrapf "claim task: %w" [])
      (sql (fun _ _ d => claim_update tenantID principalID caseID stepID d));
    if negb claimed then
      row ← tryM (query_row (fun _ d =>
        match tenant_row d tenantID caseID stepID with
        | Some r => if is_active r then Some (sAssignedTo r, row_role r) else None
        | None => None
        end));
      match row with
      | Err _ => throw ErrAlreadyClaimed
      | Ok (Some _, _) => throw ErrAlreadyClaimed
      | Ok (None, requiredRole) =>
          if decide (requiredRole <> "") then
            eligible ← tryM (query (fun _ d => has_role d principalID tenantID requiredRole));
            match eligible with
            | Ok false => throw ErrForbidden
            | _ => throw ErrAlreadyClaimed
            end
          else throw ErrAlreadyClaimed
      end
    else
      _ ← RecordCaseEventTx caseID stepID "task" principalID "human" "claimed" (JObj []);
      _ ← touch "touch case task claim: %w" caseID;
      wrapM (Wrapf "commit claim task: %w" []) commit_tx).

Definition SaveDraft (tenantID principalID caseID : uuid) (stepID : string) (data : json) : M unit :=
  affected ← wrapM (Wrapf "save draft: %w" [])
    (update (fun _ _ d =>
       match tenant_row d tenantID caseID stepID with
       | Some _ => update_step (caseID, stepID)
           (fun r => is_active r && bool_decide (sAssignedTo r = Some principalID))
           (draft_row data) d
       | None => (0%nat, d)
       end));
  if decide (affected = 0%nat) then throw ErrForbidden else mret tt.

(** [UPDATE case_steps SET assigned_to=$3 WHERE case_id=$1 AND step_id=$2] *)
Definition assign_update (caseID : uuid) (stepID : string) (who : uuid) (d : DB)
  : result goerr (nat * DB) :=
  match case_steps d !! (caseID, stepID) with
  | Some r => d' ← set_assignee (caseID, stepID) who r d; Ok (1%nat, d')
  | None => Ok (0%nat, d)
  end.

Definition assignee_text (o : option uuid) : string :=
  match o with Some u => uuid_string u | None => EmptyString end.
Definition assignee_json (o : option uuid) : json :=
  match o with Some u => JStr (uuid_string u) | None => JNull end.

Definition ReassignTask (tenantID actorID caseID : uuid) (stepID : string) (assignTo : uuid)
    (reason : string) : M unit :=
  with_tx (Wrapf "begin reassign task tx: %w" []) (
    oldAssigned ← query_row (fun _ d =>
      match tenant_row d tenantID caseID stepID with
      | Some r => if is_active r then Some (sAssignedTo r) else None
      | None => None
      end);
    _ ← wrapM (Wrapf "reassign task: %w" [])
      (sql (fun _ _ d => assign_update caseID stepID assignTo d));
    _ ← touch "touch case reassign: %w" caseID;
    _ ← RecordCaseEventTx caseID stepID "task" actorID "human" "reassigned"
      (JObj (mk_obj [("old_assignee", JStr (assignee_text oldAssigned));
                     ("new_assignee", JStr (uuid_string assignTo)); ("reason", JStr reason)]));
    wrapM (Wrapf "commit reassign task tx: %w" []) commit_tx).

(** ** Escalation *)

(** The join with the roles counts a step once for each matching role. *)
Definition role_matches (d : DB) (p : uuid) (role : string) : nat :=
  length (filter (fun pr : uuid * uuid * string => pr.1.1 = p /\ pr.2 = role) (principal_roles d)).
Definition active_assigned (d : DB) (p : uuid) : nat :=
  length (filter (fun kr : (uuid * string) * StepRow =>
    sAssignedTo kr.2 = Some p /\ sState kr.2 = StateActive) (map_to_list (case_steps d))).

Definition candidates (tenantID : uuid) (role : string) (d : DB) : list userLoad :=
  omap (fun pr : uuid * PrincipalRow =>
    if decide (pTenant pr.2 = tenantID /\ pActive pr.2 = true /\ role_matches d pr.1 role <> 0%nat)
    then Some (mkUserLoad pr.1
                 (Z.of_nat (role_matches d pr.1 role * active_assigned d pr.1)) (pCreatedAt pr.2))
    else None) (map_to_list (principals d)).

Definition pickLeastLoadedUserTx (tenantID : uuid) (role : string) : M uuid :=
  cs ← query (fun _ d => candidates tenantID role d);
  let selected := selectLeastLoaded cs in
  if decide (selected = uuid_Nil) then throw ErrNoRows else mret selected.

(** After a failed statement the transaction accepts no other: the next one, the
    lock of the audit chain, reports it. *)
Definition tx_aborted : goerr := Errorf "current transaction is aborted" [].

Definition systemActor_tasks : uuid := if decide (sysActor <> uuid_Nil) then sysActor else uuid_Nil.

Definition EscalateTask (tenantID caseID : uuid) (stepID : string) (cfg : EscalationConfig) : M unit :=
  with_tx (Wrapf "begin escalate task tx: %w" []) (
    state ← query_row (fun _ d => sState <$> tenant_row d tenantID caseID stepID);
    if decide (state <> StateActive) then
      _ ← RecordCaseEventTx caseID stepID "task" systemActor_tasks "system" "escalation_suppressed"
        (JObj [("state", JStr (step_state_string state))]);
      commit_tx
    else
      reassignedTo ←
        (if decide (ecAction cfg = "reassign" \/ ecAction cfg = "both") then
           r ← tryM (pickLeastLoadedUserTx tenantID (ecToRole cfg));
           match r with
           | Ok uid =>
               _ ← wrapM (Wrapf "escalation reassign: %w" [])
                 (sql (fun _ _ d => assign_update caseID stepID uid d));
               mret (Some uid)
           | Err e =>
               if decide (e = ErrNoRows) then mret None
               else throw (Wrapf "acquire audit chain lock: %w" [] tx_aborted)
           end
         else mret None);
      _ ← RecordCaseEventTx caseID stepID "task" systemActor_tasks "system" "escalated"
        (JObj (mk_obj [("to_role", JStr (ecToRole cfg)); ("action", JStr (ecAction cfg));
                       ("assigned_to", assignee_json reassignedTo)]));
      _ ← touch "touch case escalate: %w" caseID;
      wrapM (Wrapf "commit escalate tx: %w" []) commit_tx).

(** ** Creation *)

Definition escalation_json (c : EscalationConfig) : json :=
  JObj (mk_obj [("after_hours", JInt (ecAfterHours c)); ("to_role", JStr (ecToRole c));
                ("action", JStr (ecAction c))]).

Definition task_metadata (cfg : AssignmentConfig) : object :=
  mk_obj ([("role", JStr (acAssignToRole cfg)); ("form", JStr (acForm cfg));
           ("sla_hours", JInt (acSLAHours cfg)); ("escalation", escalation_json (acEscalation cfg))] ++
    (if hasFormSchemaContent (acFormSchema cfg)
     then [("form_schema", marshal_FormSchema (acFormSchema cfg))] else []) ++
    (match acOutcomes cfg with [] => [] | l => [("outcomes", JArr (map JStr l))] end) ++
    acMetadata cfg).

Definition create_row (now : Z) (who : option uuid) (deadline : option Z) (meta : object)
    (r : StepRow) : StepRow :=
  mkStepRow (sID r) StateActive (Some (default now (sStartedAt r))) (sCompletedAt r) (sResult r)
    (sEvents r) (sError r) who deadline (sRetryCount r) (sDraftData r)
    (Some (jsonb_concat (coalesce_obj (sMetadata r)) (JObj meta))).

Definition create_update (caseID : uuid) (stepID : string) (now : Z) (who : option uuid)
    (deadline : option Z) (meta : object) (d : DB) : result goerr (nat * DB) :=
  match case_steps d !! (caseID, stepID) with
  | None => Ok (0%nat, d)
  | Some r =>
      if match who with Some u => bool_decide (principals d !! u = None) | None => false end
      then Err fk_error
      else Ok (1%nat, set_steps <[(caseID, stepID) := create_row now who deadline meta r]> d)
  end.

Definition CreateTaskFromActivation (caseID : uuid) (stepID : string) (cfg : AssignmentConfig)
  : M unit :=
  with_tx (Wrapf "begin task creation tx: %w" []) (
    now ← time_Now;
    let assignedTo := if decide (acAssignToUser cfg <> "")
                      then uuid_parse (acAssignToUser cfg) else None in
    let deadline := if 0 <? acSLAHours cfg
                    then Some (Truncate (now + wrap64 (acSLAHours cfg * Hour)) Microsecond) else None in
    _ ← wrapM (Wrapf "activate human task step: %w" [])
      (sql (fun _ dbnow d =>
         create_update caseID stepID dbnow assignedTo deadline (task_metadata cfg) d));
    _ ← RecordCaseEventTx caseID stepID "task" systemActor_tasks "system" "created"
      (JObj (mk_obj [("assigned_to", assignee_json assignedTo);
                     ("role", JStr (acAssignToRole cfg)); ("sla_hours", JInt (acSLAHours cfg))]));
    _ ← touch "touch case timestamp task create: %w" caseID;
    wrapM (Wrapf "commit task creation: %w" []) commit_tx).

End Tasks.
