(* ===== verification/TaskClaims.v ===== *)
(** * What the task operations guarantee

    A task is claimed at most once and by someone entitled to it, operations
    cannot reach tasks of another tenant, and failures leave nothing behind. *)

From S2P Require Import Prelude GoStrings Json EngineTypes EngineAst Store AuditTrail.
From S2P Require Import AuditClaims EngineOps EngineOpsProps EngineAtomic EngineEvaluate EngineClaims TaskForms.
From S2P Require Import TaskOps.

Section Claims.
Context `{R : Runtime}.

Lemma touch_cases msg caseID n w w' :
  touch msg caseID w = (Ok n, w') -> case_steps (db w') = case_steps (db w).
Proof. intros [? _]%touch_Ok. done. Qed.

Lemma record_steps caseID stepID ty actor at_ action data u w w' :
  RecordCaseEventTx caseID stepID ty actor at_ action data w = (Ok u, w') ->
  case_steps (db w') = case_steps (db w) /\ saved w' = saved w.
Proof.
  intros Heq. destruct (inner_Ok _ _ _ _ Heq) as (Hs & _); [apply inner_record|].
  apply record_Ok in Heq as (_ & _ & e & _ & -> & _). done.
Qed.

(** A row a principal may claim. *)
Record claimable (d : DB) (tenantID principalID caseID : uuid) (stepID : string) (r : StepRow)
  : Prop := mk_claimable {
  cl_case : exists c, cases d !! caseID = Some c /\ cTenant c = tenantID;
  cl_row : case_steps d !! (caseID, stepID) = Some r;
  cl_active : sState r = StateActive;
  cl_free : sAssignedTo r = None;
  cl_role : row_role r = "" \/ (principalID, tenantID, row_role r) ∈ principal_roles d
}.

Lemma tenant_row_Some d tenantID caseID stepID r :
  tenant_row d tenantID caseID stepID = Some r <->
  (exists c, cases d !! caseID = Some c /\ cTenant c = tenantID) /\
  case_steps d !! (caseID, stepID) = Some r.
Proof.
  unfold tenant_row. destruct (cases d !! caseID) as [c|]; [|split; [done|by intros [(c & ? & _) _]]].
  case_decide as Hc; split.
  - intros Hr. split; [by exists c|done].
  - by intros [_ ?].
  - done.
  - intros [(c' & [= <-] & ?) _]. done.
Qed.

Lemma claim_update_true tenantID principalID caseID stepID d d' :
  claim_update tenantID principalID caseID stepID d = Ok (true, d') ->
  exists r, claimable d tenantID principalID caseID stepID r /\
    d' = set_steps <[(caseID, stepID) := assign_row (Some principalID) r]> d.
Proof.
  unfold claim_update. destruct (tenant_row d tenantID caseID stepID) as [r|] eqn:Hr; [|done].
  apply tenant_row_Some in Hr as [Hc Hr].
  destruct (is_active r && unassigned r && _) eqn:Hok; [|done].
  unfold set_assignee. destruct (principals d !! principalID); [|done]. simpl.
  intros [= <-]. exists r. split; [|done].
  apply andb_true_iff in Hok as [[Ha Hu]%andb_true_iff Hrole].
  split; try done.
  - by apply state_in_spec, list_elem_of_singleton in Ha.
  - unfold unassigned in Hu. by destruct (sAssignedTo r).
  - apply orb_true_iff in Hrole as [H1|H1]; [left|right]; by apply bool_decide_eq_true in H1.
Qed.

Lemma ClaimTask_Ok tenantID principalID caseID stepID u w w' :
  ClaimTask tenantID principalID caseID stepID w = (Ok u, w') ->
  exists r, claimable (db w) tenantID principalID caseID stepID r /\
    case_steps (db w') = <[(caseID, stepID) := assign_row (Some principalID) r]> (case_steps (db w)).
Proof.
  intros (w2 & _ & -> & Hbody)%with_tx_Ok.
  apply bind_Ok in Hbody as (claimed & w3 & Hq%sql_Ok & Hbody). simpl in Hq.
  destruct claimed; cbn [negb] in Hbody.
  - apply claim_update_true in Hq as (r & Hcl & Hd3). exists r. split; [done|].
    apply bind_Ok in Hbody as ([] & w4 & [Hs4 _]%record_steps & Hbody).
    apply bind_Ok in Hbody as (n & w5 & Hs5%touch_cases & Hbody).
    apply commit_Ok in Hbody as (Hd2 & Hs2 & _). unfold rollback_tx. rewrite Hs2.
    rewrite Hd2, Hs5, Hs4, Hd3. done.
  - apply bind_Ok in Hbody as (row & w4 & _ & Hbody).
    destruct row as [[[a|] role]|e]; try done. case_decide; [|done].
    apply bind_Ok in Hbody as (el & w5 & _ & Hbody). by destruct el as [[]|].
Qed.

Lemma ClaimTask_atomic tenantID principalID caseID stepID :
  atomic (ClaimTask tenantID principalID caseID stepID).
Proof.
  apply atomic_tx. intros s. tx.
Qed.

Lemma ReassignTask_atomic tenantID actorID caseID stepID who reason :
  atomic (ReassignTask tenantID actorID caseID stepID who reason).
Proof. apply atomic_tx. intros s. tx. Qed.

Lemma inner_pick tenantID role : inner (pickLeastLoadedUserTx tenantID role).
Proof. unfold pickLeastLoadedUserTx. inner. Qed.

Lemma EscalateTask_atomic actor tenantID caseID stepID cfg :
  atomic (EscalateTask actor tenantID caseID stepID cfg).
Proof.
  apply atomic_tx. intros s. tx.
  apply tx_bind; [repeat (inner_step || apply inner_pick)|intro]. tx.
Qed.

Lemma SaveDraft_atomic tenantID principalID caseID stepID data :
  atomic (SaveDraft tenantID principalID caseID stepID data).
Proof.
  intros w e w'. unfold SaveDraft, mbind, M_bind, wrapM, update, sql.
  destruct (fault (tick w)); [by intros [= _ <-]|].
  destruct (tenant_row (db w) tenantID caseID stepID) as [r|]; [|by intros [= _ <-]].
  unfold update_step. destruct (case_steps (db w) !! (caseID, stepID)) as [r'|];
    [|by intros [= _ <-]]. destruct (_ && _); by intros [= _ <-].
Qed.

End Claims.

(** ** Another tenant *)

Section Tenants.
Context `{R : Runtime}.

(** The case, if it exists, belongs to another tenant. *)
Definition foreign (d : DB) (tenantID caseID : uuid) : Prop :=
  forall c, cases d !! caseID = Some c -> cTenant c <> tenantID.

Lemma foreign_row d tenantID caseID stepID :
  foreign d tenantID caseID -> tenant_row d tenantID caseID stepID = None.
Proof.
  intros Hf. destruct (tenant_row d tenantID caseID stepID) as [r|] eqn:Hr; [|done].
  apply tenant_row_Some in Hr as [(c & Hc & Ht) _]. by destruct (Hf c Hc).
Qed.

Lemma query_row_None {A} (f : Z -> DB -> option A) (k : A -> M unit) w u w' :
  f (sql_now w) (db w) = None -> (query_row f ≫= k) w <> (Ok u, w').
Proof.
  intros Hf. unfold mbind, M_bind, query_row, sql. destruct (fault (tick w)); [done|].
  by rewrite Hf.
Qed.

Lemma with_tx_not_Ok {A} g (m : M A) w a w' :
  (forall w0 w2, db w0 = db w -> m w0 <> (Ok a, w2)) -> with_tx g m w <> (Ok a, w').
Proof. intros Hm (w2 & _ & _ & Hb)%with_tx_Ok. eapply Hm; [|exact Hb]. done. Qed.

Lemma refused {A} (m : M A) w :
  atomic m -> (forall a w', m w <> (Ok a, w')) -> exists e w', m w = (Err e, w') /\ unchanged w w'.
Proof.
  intros Ha Hn. destruct (m w) as [[a|e] w'] eqn:Hw; [by destruct (Hn a w')|].
  exists e, w'. split; [done|]. by eapply Ha.
Qed.

End Tenants.

(** ** The claims *)

(** C11. A task is claimed at most once: [ClaimTask] succeeds only on an active,
    unassigned step of a case of the caller's tenant whose role, if it has one,
    the caller holds in that tenant; it then assigns exactly that row to the
    caller, and every later claim of the task, by whomever, is refused. *)
Theorem ClaimTask_exclusive `{R : Runtime} tenantID principalID caseID stepID u w w' :
  ClaimTask tenantID principalID caseID stepID w = (Ok u, w') ->
  (exists r, claimable (db w) tenantID principalID caseID stepID r /\
     case_steps (db w') =
       <[(caseID, stepID) := assign_row (Some principalID) r]> (case_steps (db w))) /\
  (forall t p w1 u1 w2, db w1 = db w' -> ClaimTask t p caseID stepID w1 <> (Ok u1, w2)).
Proof.
  intros Heq. destruct (ClaimTask_Ok _ _ _ _ _ _ _ Heq) as (r & Hcl & Hst).
  split; [by exists r|]. intros t p w1 u1 w2 Hd Heq1.
  destruct (ClaimTask_Ok _ _ _ _ _ _ _ Heq1) as (r1 & [_ Hr1 _ Hfree _] & _).
  rewrite Hd, Hst, lookup_insert_eq in Hr1. injection Hr1 as <-. done.
Qed.

(** Tenant isolation: claiming, saving a draft of, reassigning or escalating
    a task of a case that is not in the caller's tenant is refused and changes
    nothing. *)
Theorem tasks_tenant_isolation `{R : Runtime} actor tenantID principalID caseID stepID data who
    reason cfg w :
  foreign (db w) tenantID caseID ->
  (exists e w', ClaimTask tenantID principalID caseID stepID w = (Err e, w') /\ unchanged w w') /\
  (exists e w', SaveDraft tenantID principalID caseID stepID data w = (Err e, w') /\
     unchanged w w') /\
  (exists e w', ReassignTask tenantID principalID caseID stepID who reason w = (Err e, w') /\
     unchanged w w') /\
  (exists e w', EscalateTask actor tenantID caseID stepID cfg w = (Err e, w') /\ unchanged w w').
Proof.
  intros Hf. pose proof (foreign_row _ _ _ stepID Hf) as Hrow. split_and!; apply refused.
  - apply ClaimTask_atomic.
  - intros u w' (r & [Hc _ _ _ _] & _)%ClaimTask_Ok. destruct Hc as (c & Hc & Ht).
    by destruct (Hf c Hc).
  - apply SaveDraft_atomic.
  - intros u w' (n & w1 & Hu & Hn)%bind_Ok.
    unfold wrapM, update, sql in Hu. destruct (fault (tick w)); [done|]. rewrite Hrow in Hu.
    injection Hu as <- _. by rewrite decide_True in Hn.
  - apply ReassignTask_atomic.
  - intros u w'. apply with_tx_not_Ok. intros w0 w2 Hd. apply query_row_None.
    by rewrite Hd, Hrow.
  - apply EscalateTask_atomic.
  - intros u w'. apply with_tx_not_Ok. intros w0 w2 Hd. apply query_row_None.
    by rewrite Hd, Hrow.
Qed.

(** [CreateTaskFromActivation] has no guard on the state of the step: when
    it succeeds on an existing row the row is active whatever its state was, so a
    task created after its case was cancelled, or its step completed, failed or
    skipped, makes a terminal step active again. *)
Theorem CreateTaskFromActivation_unguarded `{R : Runtime} parse actor caseID stepID cfg r u w w' :
  case_steps (db w) !! (caseID, stepID) = Some r ->
  CreateTaskFromActivation parse actor caseID stepID cfg w = (Ok u, w') ->
  exists r', case_steps (db w') !! (caseID, stepID) = Some r' /\ sState r' = StateActive /\
    sCompletedAt r' = sCompletedAt r.
Proof.
  intros Hr (w2 & _ & -> & Hbody)%with_tx_Ok.
  apply bind_Ok in Hbody as (now & w3 & [= _ <-] & Hbody).
  apply bind_Ok in Hbody as (n & w4 & Hq%sql_Ok & Hbody). simpl in Hq.
  unfold create_update in Hq. rewrite Hr in Hq.
  destruct (match _ with Some _ => _ | None => _ end); [done|]. injection Hq as _ Hd4.
  apply bind_Ok in Hbody as ([] & w5 & [Hs5 _]%record_steps & Hbody).
  apply bind_Ok in Hbody as (m & w6 & Hs6%touch_cases & Hbody).
  apply commit_Ok in Hbody as (Hd2 & Hs2 & _). unfold rollback_tx. rewrite Hs2.
  rewrite Hd2, Hs6, Hs5, <- Hd4. simpl. rewrite lookup_insert_eq. by eexists.
Qed.

(** ** Witnesses *)

#[local] Existing Instance example_runtime.

Definition task_world (status : case_status) (s : step_state) : World :=
  mkWorld (mkDB
    {[ 5%N := mkCaseRow 1 2 "LOAN-000001" status (JObj []) 1 0 None 0 3 1 0 7 None ]}
    {[ (5%N, "review") := ex_row s ]} [] ∅
    {[ 7%N := mkPrincipalRow 1 true 0 None ]} [] ∅ ∅ ∅ ∅) None 0 0 [] [] [].

Lemma ClaimTask_exclusive_witness :
  exists r, claimable (db (task_world CaseOpen StateActive)) 1 7 5 "review" r /\
    case_steps (db (ClaimTask 1 7 5 "review" (task_world CaseOpen StateActive)).2) =
      <[(5%N, "review") := assign_row (Some 7%N) r]>
        (case_steps (db (task_world CaseOpen StateActive))).
Proof.
  apply (ClaimTask_exclusive 1 7 5 "review" tt). apply ok_pair. vm_compute. reflexivity.
Defined.

Lemma tasks_tenant_isolation_witness :
  exists e w', ClaimTask 2 7 5 "review" (task_world CaseOpen StateActive) = (Err e, w') /\
    unchanged (task_world CaseOpen StateActive) w'.
Proof.
  apply (tasks_tenant_isolation 0 2 7 5 "review" JNull 7 "" (mkEscalationConfig 0 "" "")).
  intros c Hc. vm_compute in Hc. injection Hc as <-. discriminate.
Defined.

Definition plain_task : AssignmentConfig :=
  mkAssignmentConfig "" "" 0 (mkEscalationConfig 0 "" "") "" (mkFormSchema "" [] [] []) [] [].

Lemma CreateTaskFromActivation_unguarded_witness :
  exists r', case_steps (db (CreateTaskFromActivation (fun _ => None) 0 5 "review" plain_task
      (task_world CaseCancelled StateSkipped)).2) !! (5%N, "review") = Some r' /\
    sState r' = StateActive /\ sCompletedAt r' = sCompletedAt (ex_row StateSkipped).
Proof.
  apply (CreateTaskFromActivation_unguarded (fun _ => None) 0 5 "review" plain_task
    (ex_row StateSkipped) tt (task_world CaseCancelled StateSkipped));
    [reflexivity|apply ok_pair; vm_compute; reflexivity].
Defined.
