(* ===== verification/CaseData.v ===== *)
(** * Case data: [internal/cases]

    The pure part of the case service: schemas and their validation
    ([validation.go], [case_types.go]), the merge and the comparison of case data
    ([merge.go]), manual edits ([cases_crud.go]) and case numbers
    ([case_helpers.go]). Case data is a decoded JSON object. A Go map is the list
    of its entries, visited in list order where Go visits them in any order. The
    match of a regular expression ([regexp]) is a parameter: [None] is a pattern
    that does not compile. *)

From stdpp Require Import pretty.
From S2P Require Import Prelude GoStrings Json EngineTypes Store TaskForms.

(** ** Schemas *)

Record ValidationError : Type := mkValidationError {
  veField : string;
  veRule : string;
  veMessage : string;
  veValue : option json
}.

Unset Elimination Schemes.
Inductive SchemaField : Type := mkSchemaField {
  sfType : string;
  sfRequired : bool;
  sfPattern : string;
  sfMin : option Qc;
  sfMax : option Qc;
  sfEnum : list json;
  sfMinLength : option Z;
  sfMaxLength : option Z;
  sfSource : string;
  sfProperties : list (string * SchemaField)
}.
Set Elimination Schemes.

Record CaseTypeSchema : Type := mkCaseTypeSchema { ctsFields : list (string * SchemaField) }.

Section SchemaInd.
Variable P : SchemaField -> Prop.
Hypothesis step : forall f, Forall (fun kv => P kv.2) (sfProperties f) -> P f.

Fixpoint SchemaField_ind' (f : SchemaField) : P f :=
  step f
    ((fix go (l : list (string * SchemaField)) : Forall (fun kv => P kv.2) l :=
        match l with
        | [] => Forall_nil_2 _
        | kv :: l' => Forall_cons_2 (fun kv => P kv.2) kv l' (SchemaField_ind' kv.2) (go l')
        end) (sfProperties f)).
End SchemaInd.

(** [json.Unmarshal] into a [*float64] field. *)
Definition dec_float_ptr (j : json) : result goerr (option Qc) :=
  match j with
  | JNum q => Ok (Some q)
  | JNull => Ok None
  | _ => Err (unmarshal_type_error "float64")
  end.

Definition dec_int_ptr (j : json) : result goerr (option Z) :=
  match j with JNull => Ok None | _ => Some <$> dec_int j end.

(** The entries of a decoded [map[string]SchemaField]. *)
Definition dec_entries {A} (dec : json -> result goerr A) (j : json)
  : result goerr (list (string * A)) :=
  match j with
  | JObj m => mapE (fun kv => pair kv.1 <$> dec kv.2) m
  | JNull => Ok []
  | _ => Err (unmarshal_type_error "map")
  end.

Definition zero_field : SchemaField :=
  mkSchemaField EmptyString false EmptyString None None [] None None EmptyString [].

(** The properties are decoded for every entry first, which makes the recursion
    structural, and then looked up by name. *)
Fixpoint dec_SchemaField (j : json) : result goerr SchemaField :=
  match j with
  | JNull => Ok zero_field
  | JObj m =>
      let props := map (fun kv =>
        (kv.1, match kv.2 with
               | JObj pm =>
                   (fix go (pm : list (string * json)) : result goerr (list (string * SchemaField)) :=
                      match pm with
                      | [] => Ok []
                      | (k, v) :: pm' =>
                          match dec_SchemaField v with
                          | Err e => Err e
                          | Ok f => match go pm' with
                                    | Ok fs => Ok ((k, f) :: fs)
                                    | Err e => Err e
                                    end
                          end
                      end) pm
               | JNull => Ok []
               | _ => Err (unmarshal_type_error "map")
               end)) m in
      ty ← dec_field "type" dec_string EmptyString m;
      req ← dec_field "required" dec_bool false m;
      pat ← dec_field "pattern" dec_string EmptyString m;
      mn ← dec_field "min" dec_float_ptr None m;
      mx ← dec_field "max" dec_float_ptr None m;
      en ← dec_field "enum" (dec_list Ok) [] m;
      ml ← dec_field "minLength" dec_int_ptr None m;
      xl ← dec_field "maxLength" dec_int_ptr None m;
      src ← dec_field "source" dec_string EmptyString m;
      ps ← foldl (fun acc kv => if EqualFold kv.1 "properties" then kv.2 else acc) (Ok []) props;
      Ok (mkSchemaField ty req pat mn mx en ml xl src ps)
  | _ => Err (unmarshal_type_error "SchemaField")
  end.

Definition dec_CaseTypeSchema (j : json) : result goerr CaseTypeSchema :=
  match j with
  | JNull => Ok (mkCaseTypeSchema [])
  | JObj m => mkCaseTypeSchema <$> dec_field "fields" (dec_entries dec_SchemaField) [] m
  | _ => Err (unmarshal_type_error "CaseTypeSchema")
  end.

(** [json.Marshal] with the struct tags. *)
Fixpoint marshal_SchemaField (f : SchemaField) : json :=
  JObj (mk_obj ([("type", JStr (sfType f))] ++ omit_bool "required" (sfRequired f) ++
    omit_str "pattern" (sfPattern f) ++ omit_opt "min" JNum (sfMin f) ++
    omit_opt "max" JNum (sfMax f) ++ omit_list "enum" (sfEnum f) ++
    omit_opt "minLength" JInt (sfMinLength f) ++ omit_opt "maxLength" JInt (sfMaxLength f) ++
    omit_str "source" (sfSource f) ++
    match sfProperties f with
    | [] => []
    | l => [("properties", JObj (mk_obj (map (fun kv => (kv.1, marshal_SchemaField kv.2)) l)))]
    end)).

Definition marshal_CaseTypeSchema (s : CaseTypeSchema) : json :=
  JObj [("fields", JObj (mk_obj (map (fun kv => (kv.1, marshal_SchemaField kv.2)) (ctsFields s))))].

(** ** Schema definitions *)

Definition validTypes : list string :=
  ["string"; "number"; "integer"; "boolean"; "object"; "array"; "text"].

Fixpoint validateSchemaField (path : string) (def : SchemaField) : list ValidationError :=
  (if decide (sfType def = "" \/ sfType def ∉ validTypes)
   then [mkValidationError path "type" "unsupported field type in schema" None] else []) ++
  concat (map (fun kv => validateSchemaField (path +:+ "." +:+ kv.1) kv.2) (sfProperties def)).

Definition validateSchemaDefinition (s : CaseTypeSchema) : list ValidationError :=
  concat (map (fun kv => validateSchemaField kv.1 kv.2) (ctsFields s)).

(** ** Validation of case data *)

Definition typeMatches (t : string) (v : json) : bool :=
  if decide (t = "string" \/ t = "text") then match v with JStr _ => true | _ => false end
  else if decide (t = "number") then match toFloat v with Some _ => true | None => false end
  else if decide (t = "integer") then match v with JNum q => is_int64 q | _ => false end
  else if decide (t = "boolean") then match v with JBool _ => true | _ => false end
  else if decide (t = "object") then match v with JObj _ => true | _ => false end
  else if decide (t = "array") then match v with JArr _ => true | _ => false end
  else true.

Definition required_error (path : string) : ValidationError :=
  mkValidationError path "required" "is required" None.

(** The value of a key, when the key is present and not null. *)
Definition present (k : string) (m : object) : option json :=
  match obj_get k m with
  | Some JNull | None => None
  | Some v => Some v
  end.

Section Validate.
Context (regexp_match : string -> string -> option bool) (fmtFloat : Qc -> string).

Definition string_errors (path : string) (def : SchemaField) (s : string) : list ValidationError :=
  let n := Z.of_nat (String.length s) in
  let value := Some (JStr s) in
  (if bool_decide (sfPattern def <> "") && negb (default false (regexp_match (sfPattern def) s))
   then [mkValidationError path "pattern" "does not match required pattern" value] else []) ++
  match sfMinLength def with
  | Some m => if n <? m then [mkValidationError path "minLength"
                                ("must be at least " +:+ pretty m +:+ " chars") value] else []
  | None => []
  end ++
  match sfMaxLength def with
  | Some m => if m <? n then [mkValidationError path "maxLength"
                                ("must be at most " +:+ pretty m +:+ " chars") value] else []
  | None => []
  end.

Definition number_errors (path : string) (def : SchemaField) (q : Qc) : list ValidationError :=
  let value := Some (JNum q) in
  match sfMin def with
  | Some m => if Qc_ltb q m
              then [mkValidationError path "min" ("must be at least " +:+ fmtFloat m) value] else []
  | None => []
  end ++
  match sfMax def with
  | Some m => if Qc_ltb m q
              then [mkValidationError path "max" ("must be at most " +:+ fmtFloat m) value] else []
  | None => []
  end.

Definition enum_errors (path : string) (def : SchemaField) (v : json) : list ValidationError :=
  if bool_decide (sfEnum def <> []) && negb (existsb (fun allowed => DeepEqual allowed v) (sfEnum def))
  then [mkValidationError path "enum" "must be one of allowed values" (Some v)] else [].

(** The checks of [validateField] before the properties of an object. *)
Definition value_errors (path : string) (def : SchemaField) (v : json) : list ValidationError :=
  match v with JStr s => string_errors path def s | _ => [] end ++
  match toFloat v with Some q => number_errors path def q | None => [] end ++
  enum_errors path def v.

Fixpoint validateField (path : string) (def : SchemaField) (v : json) : list ValidationError :=
  if negb (typeMatches (sfType def) v)
  then [mkValidationError path "type" ("must be type " +:+ sfType def) (Some v)]
  else
    value_errors path def v ++
    (if decide (sfType def = "object") then
       let m := match v with JObj m => m | _ => [] end in
       concat (map (fun kv =>
         let childPath := path +:+ "." +:+ kv.1 in
         match present kv.1 m with
         | None => if sfRequired kv.2 then [required_error childPath] else []
         | Some cv => validateField childPath kv.2 cv
         end) (sfProperties def))
     else []).

Definition ValidateCaseData (s : CaseTypeSchema) (data : object) : list ValidationError :=
  concat (map (fun kv =>
    match present kv.1 data with
    | None => if sfRequired kv.2 then [required_error kv.1] else []
    | Some v => validateField kv.1 kv.2 v
    end) (ctsFields s)).

End Validate.

(** ** Merging *)

(** Nested maps are copied; every other value is shared. *)
Fixpoint clone_value (v : json) : json :=
  match v with
  | JObj m => JObj (map (fun kv => (kv.1, clone_value kv.2)) m)
  | _ => v
  end.
Definition cloneMap (m : object) : object := map (fun kv => (kv.1, clone_value kv.2)) m.

Definition merge_entries (merge : option json -> json -> json) (base patch : object) : object :=
  foldl (fun out kv => obj_set kv.1 (merge (obj_get kv.1 out) kv.2) out) (cloneMap base) patch.

(** The value [out[k]] gets from the patch value [pv]. *)
Fixpoint merge_value (existing : option json) (pv : json) : json :=
  match pv with
  | JObj pm =>
      JObj (merge_entries merge_value (match existing with Some (JObj m) => m | _ => [] end) pm)
  | _ => pv
  end.

Definition DeepMerge (base patch : object) : object := merge_entries merge_value base patch.

(** ** Differences *)

Fixpoint flattenMap (prefix : string) (value : json) (out : gmap string json) : gmap string json :=
  match value with
  | JObj m =>
      foldl (fun out kv =>
        flattenMap (if decide (prefix <> "") then prefix +:+ "." +:+ kv.1 else kv.1) kv.2 out) out m
  | _ => <[prefix := value]> out
  end.

(** A missing side is [nil]. *)
Record FieldDiff : Type := mkFieldDiff { fdBefore : json; fdAfter : json }.

Definition ComputeFieldDiff (before after : object) : gmap string FieldDiff :=
  let lb := flattenMap "" (JObj before) ∅ in
  let la := flattenMap "" (JObj after) ∅ in
  delete "" (merge (fun bv av =>
    match bv, av with
    | None, None => None
    | None, Some a => Some (mkFieldDiff JNull a)
    | Some b, None => Some (mkFieldDiff b JNull)
    | Some b, Some a => if negb (DeepEqual b a) then Some (mkFieldDiff b a) else None
    end) lb la).

(** [json.Marshal]: both sides are [omitempty], which drops [nil]. *)
Definition marshal_FieldDiff (f : FieldDiff) : json :=
  JObj (match fdAfter f with JNull => [] | v => [("after", v)] end ++
        match fdBefore f with JNull => [] | v => [("before", v)] end).
Definition marshal_diff (m : gmap string FieldDiff) : json :=
  JObj (mk_obj (map (fun kv => (kv.1, marshal_FieldDiff kv.2)) (map_to_list m))).

(** ** Manual edits *)

Fixpoint schema_get (k : string) (l : list (string * SchemaField)) : option SchemaField :=
  match l with
  | [] => None
  | (k', f) :: l' => if decide (k = k') then Some f else schema_get k l'
  end.

Definition schema_step (cur : option SchemaField) (part : string) : option SchemaField :=
  match cur with
  | Some f => if decide (sfType f <> "object") then None else schema_get part (sfProperties f)
  | None => None
  end.

Definition resolveSchemaField (s : CaseTypeSchema) (path : string) : option SchemaField :=
  match Split "." path with
  | [] => None
  | p :: parts => foldl schema_step (schema_get p (ctsFields s)) parts
  end.

Definition source_errors (s : CaseTypeSchema) (path : string) : list ValidationError :=
  if decide (path = "") then []
  else
    match resolveSchemaField s path with
    | Some f =>
        let source := ToLower (sfSource f) in
        if decide (source = "agent" \/ source = "external")
        then [mkValidationError path "source" "field is not manually editable" None] else []
    | None => []
    end.

Definition validateManualSourcePatch (s : CaseTypeSchema) (patch : object) : list ValidationError :=
  concat (map (fun kv => source_errors s kv.1) (map_to_list (flattenMap "" (JObj patch) ∅))).

(** ** Case numbers *)

Definition is_alnum (a : ascii) : bool :=
  let n := Ascii.nat_of_ascii a in
  ((48 <=? n) && (n <=? 57) || (65 <=? n) && (n <=? 90) || (97 <=? n) && (n <=? 122))%nat.

Fixpoint keep_alnum (s : string) : string :=
  match s with
  | EmptyString => EmptyString
  | String a s' => if is_alnum a then String a (keep_alnum s') else keep_alnum s'
  end.

Definition prefix_parts (caseType : string) : list string :=
  let parts := Split "_" caseType in
  let parts := if decide (length parts = 1%nat) then Split "-" caseType else parts in
  if decide (length parts = 1%nat) then Fields caseType else parts.

Definition formatCasePrefix (caseType : string) : string :=
  let prefix := foldl (fun prefix p =>
    let p := TrimSpace p in
    if decide (p = "") then prefix else prefix +:+ first_rune (ToUpper p))
    EmptyString (prefix_parts caseType) in
  let prefix :=
    if decide (prefix = "") then
      let clean := keep_alnum (ToUpper caseType) in
      if (4 <=? String.length clean)%nat then String.substring 0 4 clean else clean
    else prefix in
  let prefix := if (String.length prefix <? 2)%nat then ToUpper caseType else prefix in
  if (8 <? String.length prefix)%nat then String.substring 0 8 prefix else prefix.

(** [%06d] *)
Fixpoint zeros (n : nat) : string :=
  match n with O => EmptyString | S n' => String "0" (zeros n') end.
Definition fmt_06d (z : Z) : string :=
  let digits := pretty (Z.abs z) in
  if z <? 0 then "-" +:+ zeros (5 - String.length digits) +:+ digits
  else zeros (6 - String.length digits) +:+ digits.

Definition case_number (caseType : string) (next : Z) : string :=
  formatCasePrefix caseType +:+ "-" +:+ fmt_06d next.

(** The identifiers of the steps of a stored workflow. *)
Definition dec_step_id (j : json) : result goerr string :=
  match j with
  | JObj m => dec_field "id" dec_string EmptyString m
  | JNull => Ok EmptyString
  | _ => Err (unmarshal_type_error "struct")
  end.

Definition parseStepIDs (ast : json) : result goerr (list string) :=
  let steps := match ast with
               | JObj m => dec_field "steps" (dec_list dec_step_id) [] m
               | JNull => Ok []
               | _ => Err (unmarshal_type_error "struct")
               end in
  match steps with
  | Ok ids => Ok (filter (fun id => id <> "") ids)
  | Err e => Err (Wrapf "decode workflow ast: %w" [] e)
  end.

Example prefix1 : formatCasePrefix "loan_application" = "LA". Proof. reflexivity. Qed.
Example prefix2 : formatCasePrefix "loan-application-review" = "LAR". Proof. reflexivity. Qed.
Example prefix3 : case_number "claim" 42 = "CLAIM-000042". Proof. reflexivity. Qed.
