(* ===== verification/CaseDataProps.v ===== *)
(** * Properties of case data: validation, merging, differences, manual edits *)

From stdpp Require Import pretty.
From S2P Require Import Prelude GoStrings Json EngineTypes Store TaskForms CaseData.

(** ** When a value conforms to its declaration *)

Section Conforms.
Context (regexp_match : string -> string -> option bool).

Definition string_ok (def : SchemaField) (s : string) : Prop :=
  (sfPattern def <> "" -> regexp_match (sfPattern def) s = Some true) /\
  (forall m, sfMinLength def = Some m -> m <= Z.of_nat (String.length s)) /\
  (forall m, sfMaxLength def = Some m -> Z.of_nat (String.length s) <= m).

Definition number_ok (def : SchemaField) (q : Qc) : Prop :=
  (forall m, sfMin def = Some m -> Qcle m q) /\ (forall m, sfMax def = Some m -> Qcle q m).

(** The value has the declared type, respects the bounds of strings and numbers
    and the enumeration, and the properties of an object conform in turn: present
    when required, conforming when present. *)
#[local] Unset Elimination Schemes.
Inductive conforms (def : SchemaField) (v : json) : Prop :=
  | conforms_intro :
      typeMatches (sfType def) v = true ->
      (forall s, v = JStr s -> string_ok def s) ->
      (forall q, v = JNum q -> number_ok def q) ->
      (sfEnum def <> [] -> v ∈ sfEnum def) ->
      (forall m k child, sfType def = "object" -> v = JObj m -> (k, child) ∈ sfProperties def ->
         (present k m = None -> sfRequired child = false) /\
         (forall cv, present k m = Some cv -> conforms child cv)) ->
      conforms def v.
Set Elimination Schemes.

Definition data_conforms (s : CaseTypeSchema) (data : object) : Prop :=
  forall k def, (k, def) ∈ ctsFields s ->
    (present k data = None -> sfRequired def = false) /\
    (forall v, present k data = Some v -> conforms def v).

Context (fmtFloat : Qc -> string).

Lemma string_errors_nil path def s :
  string_errors regexp_match path def s = [] <-> string_ok def s.
Proof.
  unfold string_errors, string_ok. cbv zeta. rewrite !app_nil.
  rewrite (opt_check_nil (sfMinLength def) (fun m => Z.of_nat (String.length s) <? m)),
    (opt_check_nil (sfMaxLength def) (fun m => m <? Z.of_nat (String.length s))).
  setoid_rewrite Z.ltb_ge.
  enough ((if bool_decide (sfPattern def <> "") && negb (default false (regexp_match (sfPattern def) s))
    then [mkValidationError path "pattern" "does not match required pattern" (Some (JStr s))]
    else []) = [] <-> (sfPattern def <> "" -> regexp_match (sfPattern def) s = Some true)) as ->
    by done.
  case_bool_decide as Hp; [|by split]. simpl.
  destruct (regexp_match (sfPattern def) s) as [[]|]; simpl; split; try done;
    intros H; by specialize (H Hp).
Qed.

Lemma number_errors_nil path def q :
  number_errors fmtFloat path def q = [] <-> number_ok def q.
Proof.
  unfold number_errors, number_ok. cbv zeta. rewrite app_nil.
  rewrite (opt_check_nil (sfMin def) (fun m => Qc_ltb q m)),
    (opt_check_nil (sfMax def) (fun m => Qc_ltb m q)).
  by setoid_rewrite Qc_ltb_spec.
Qed.

Lemma enum_errors_nil path def v :
  enum_errors path def v = [] <-> (sfEnum def <> [] -> v ∈ sfEnum def).
Proof.
  unfold enum_errors. case_bool_decide as He; simpl; [|by split].
  destruct (existsb _ _) eqn:Hx; simpl.
  - split; [|done]. intros _ _. apply existsb_exists in Hx as (a & Ha & <-%DeepEqual_spec).
    by apply list_elem_of_In.
  - split; [done|]. intros H. specialize (H He). apply list_elem_of_In in H.
    assert (existsb (fun allowed => DeepEqual allowed v) (sfEnum def) = true); [|congruence].
    apply existsb_exists. exists v. split; [done|]. by apply DeepEqual_spec.
Qed.

Lemma value_errors_nil path def v :
  value_errors regexp_match fmtFloat path def v = [] <->
  (forall s, v = JStr s -> string_ok def s) /\ (forall q, v = JNum q -> number_ok def q) /\
  (sfEnum def <> [] -> v ∈ sfEnum def).
Proof.
  unfold value_errors. rewrite !app_nil, enum_errors_nil. destruct v; simpl;
    rewrite ?string_errors_nil, ?number_errors_nil; naive_solver.
Qed.

(** One entry of a schema, required or not. *)
Lemma entry_nil (child : SchemaField) (o : option json) p (errs : json -> list ValidationError)
    (ok : json -> Prop) :
  (forall v, errs v = [] <-> ok v) ->
  match o with
  | None => if sfRequired child then [required_error p] else []
  | Some cv => errs cv
  end = [] <->
  (o = None -> sfRequired child = false) /\ (forall v, o = Some v -> ok v).
Proof.
  intros He. destruct o as [v|].
  - rewrite He. split; [|naive_solver]. intros Hv. split; [done|]. by intros v' [= <-].
  - destruct (sfRequired child); naive_solver.
Qed.

Lemma validateField_unfold path def v :
  validateField regexp_match fmtFloat path def v =
  if negb (typeMatches (sfType def) v)
  then [mkValidationError path "type" ("must be type " +:+ sfType def) (Some v)]
  else
    value_errors regexp_match fmtFloat path def v ++
    (if decide (sfType def = "object") then
       let m := match v with JObj m => m | _ => [] end in
       concat (map (fun kv =>
         let childPath := path +:+ "." +:+ kv.1 in
         match present kv.1 m with
         | None => if sfRequired kv.2 then [required_error childPath] else []
         | Some cv => validateField regexp_match fmtFloat childPath kv.2 cv
         end) (sfProperties def))
     else []).
Proof. by destruct def. Qed.

Lemma validateField_nil path def v :
  validateField regexp_match fmtFloat path def v = [] <-> conforms def v.
Proof.
  revert path v. induction def as [def IH] using SchemaField_ind'. intros path v.
  rewrite Forall_forall in IH. rewrite validateField_unfold.
  destruct (typeMatches (sfType def) v) eqn:Ht; simpl;
    [|split; [done|intros [Ht' _ _ _ _]; congruence]].
  rewrite app_nil, value_errors_nil. case_decide as Ho.
  - assert (exists m, v = JObj m) as [m ->].
    { rewrite Ho in Ht. destruct v; try (vm_compute in Ht; discriminate). by eexists. }
    cbv zeta. rewrite concat_nil.
    split.
    + intros [(Hs & Hn & He) Hc]. apply conforms_intro; [exact Ht|exact Hs|exact Hn|exact He|].
      intros m' k child _ [= <-] Hin. specialize (Hc _ Hin). simpl in Hc.
      revert Hc. apply entry_nil. intros cv. apply (IH _ Hin).
    + intros [_ Hs Hn He Hc]. split; [by split_and!|]. intros [k child] Hin. cbn [fst snd].
      apply (entry_nil child (present k m) _ _ (conforms child)); [intros cv; apply (IH _ Hin)|].
      by apply (Hc m).
  - split.
    + intros [(Hs & Hn & He) _]. by apply conforms_intro.
    + intros [_ Hs Hn He _]. split; [|reflexivity]. split_and!; [exact Hs|exact Hn|exact He].
Qed.

Lemma ValidateCaseData_nil s data :
  ValidateCaseData regexp_match fmtFloat s data = [] <-> data_conforms s data.
Proof.
  unfold ValidateCaseData, data_conforms. rewrite concat_nil. split.
  - intros H k def Hin. specialize (H _ Hin). simpl in H. revert H. apply entry_nil.
    intros v. apply validateField_nil.
  - intros H [k def] Hin. cbn [fst snd].
    apply (entry_nil def (present k data) _ _ (conforms def)); [intros v; apply validateField_nil|].
    by apply H.
Qed.

End Conforms.

(** ** Merging *)

(** A Go map has one entry per key, at every level. *)
Fixpoint distinct_keys (v : json) : bool :=
  match v with
  | JObj m => bool_decide (NoDup (map fst m)) && forallb (fun kv => distinct_keys kv.2) m
  | _ => true
  end.

Definition is_object (v : json) : bool := match v with JObj _ => true | _ => false end.

Lemma obj_get_elem k m v : obj_get k m = Some v -> (k, v) ∈ m.
Proof.
  induction m as [|[k' v'] m IH]; simpl; [done|]. case_decide as Hk.
  - intros [= ->]. subst. by left.
  - intros H. right. auto.
Qed.

Lemma obj_get_distinct k v m : NoDup (map fst m) -> (k, v) ∈ m -> obj_get k m = Some v.
Proof.
  induction m as [|[k' v'] m IH]; simpl; [by intros _ ?%not_elem_of_nil|].
  intros [Hni Hnd]%NoDup_cons Hin. apply elem_of_cons in Hin as [[= -> ->]|Hin].
  - by rewrite decide_True.
  - rewrite decide_False; [by apply IH|]. intros ->. apply Hni.
    apply (list_elem_of_fmap_2 fst) in Hin. exact Hin.
Qed.

Lemma distinct_obj m :
  distinct_keys (JObj m) = true <->
  NoDup (map fst m) /\ forall k v, (k, v) ∈ m -> distinct_keys v = true.
Proof.
  simpl. rewrite andb_true_iff, bool_decide_eq_true, forallb_forall. split.
  - intros [Hn Hf]. split; [done|]. intros k v Hin. apply (Hf (k, v)). by apply list_elem_of_In.
  - intros [Hn Hf]. split; [done|]. intros [k v] Hin%list_elem_of_In. by apply (Hf k).
Qed.

Lemma clone_value_id v : clone_value v = v.
Proof.
  induction v as [| | | | |m IH] using json_ind'; try done. simpl. f_equal.
  induction IH as [|[k v] m Hv _ IHm]; simpl in *; [done|]. by rewrite IHm, Hv.
Qed.

Lemma cloneMap_id m : cloneMap m = m.
Proof. pose proof (clone_value_id (JObj m)) as H. by injection H. Qed.

Lemma merge_entries_get merge base patch k :
  NoDup (map fst patch) ->
  obj_get k (merge_entries merge base patch) =
  match obj_get k patch with
  | None => obj_get k base
  | Some pv => Some (merge (obj_get k base) pv)
  end.
Proof.
  unfold merge_entries. rewrite cloneMap_id. revert base.
  induction patch as [|[k' v] patch IH]; intros base; simpl; [done|].
  intros [Hni Hnd]%NoDup_cons. rewrite IH by done. destruct (decide (k = k')) as [->|Hne].
  - destruct (obj_get k' patch) as [v'|] eqn:Hg; [|by rewrite obj_get_set].
    apply obj_get_elem, (list_elem_of_fmap_2 fst) in Hg. by destruct Hni.
  - by rewrite obj_get_set_ne.
Qed.

(** The paths a patch says nothing about. *)
Fixpoint untouched (v : json) (p : list string) : Prop :=
  match v, p with
  | JObj m, k :: p' => match obj_get k m with None => True | Some v' => untouched v' p' end
  | _, _ => False
  end.

Lemma get_parts_scalar v p :
  is_object v = false -> p <> [] -> get_parts (Some v) p = None.
Proof.
  intros Hv Hp. destruct p as [|k p]; [done|]. unfold get_parts. simpl.
  destruct v; try done; apply get_parts_None.
Qed.

Lemma merge_value_step existing pm k p :
  distinct_keys (JObj pm) = true ->
  get_parts (Some (merge_value existing (JObj pm))) (k :: p) =
  get_parts (let b := get_parts existing [k] in
             match obj_get k pm with None => b | Some pv => Some (merge_value b pv) end) p.
Proof.
  intros [Hnd _]%distinct_obj. cbn [merge_value]. rewrite get_parts_cons, merge_entries_get by done.
  by destruct existing as [[]|].
Qed.

Lemma merge_value_leaf existing pv p x :
  distinct_keys pv = true -> is_object x = false ->
  get_parts (Some pv) p = Some x -> get_parts (Some (merge_value existing pv)) p = Some x.
Proof.
  revert existing pv. induction p as [|k p IH]; intros existing pv Hd Hx Hg.
  - unfold get_parts in *. simpl in *. injection Hg as ->. by destruct x.
  - destruct (is_object pv) eqn:Ho; [|by rewrite get_parts_scalar in Hg].
    destruct pv as [| | | | |pm]; try done. rewrite merge_value_step by done.
    rewrite get_parts_cons in Hg. destruct (obj_get k pm) as [v|] eqn:Hk.
    + apply IH; [|done|done]. apply distinct_obj in Hd as [_ Hd]. by apply (Hd k), obj_get_elem.
    + unfold get_parts in Hg. by rewrite get_parts_None in Hg.
Qed.

Lemma merge_value_untouched existing pv p :
  distinct_keys pv = true -> untouched pv p ->
  get_parts (Some (merge_value existing pv)) p = get_parts existing p.
Proof.
  revert existing pv. induction p as [|k p IH]; intros existing pv Hd Hu; [by destruct pv|].
  destruct pv as [| | | | |pm]; try done. rewrite merge_value_step by done. cbn [untouched] in Hu.
  destruct (obj_get k pm) as [v|] eqn:Hk; [|done]. cbv zeta.
  rewrite IH; [done| |done]. apply distinct_obj in Hd as [_ Hd]. by apply (Hd k), obj_get_elem.
Qed.

Lemma merge_value_object existing pv p m :
  distinct_keys pv = true -> get_parts (Some pv) p = Some (JObj m) ->
  exists m', get_parts (Some (merge_value existing pv)) p = Some (JObj m').
Proof.
  revert existing pv. induction p as [|k p IH]; intros existing pv Hd Hg.
  - unfold get_parts in *. simpl in *. injection Hg as ->. by eexists.
  - destruct (is_object pv) eqn:Ho; [|by rewrite get_parts_scalar in Hg].
    destruct pv as [| | | | |pm]; try done. rewrite merge_value_step by done.
    rewrite get_parts_cons in Hg. destruct (obj_get k pm) as [v|] eqn:Hk.
    + apply IH; [|done]. apply distinct_obj in Hd as [_ Hd]. by apply (Hd k), obj_get_elem.
    + unfold get_parts in Hg. by rewrite get_parts_None in Hg.
Qed.

Lemma DeepMerge_value base patch : JObj (DeepMerge base patch) = merge_value (Some (JObj base)) (JObj patch).
Proof. done. Qed.

(** ** Leaves *)

(** The values of an object that are not objects, with their paths. *)
Fixpoint leaves (v : json) : list (list string * json) :=
  match v with
  | JObj m => concat (map (fun kv => map (fun px => (kv.1 :: px.1, px.2)) (leaves kv.2)) m)
  | _ => [([], v)]
  end.

Definition leaf (v : json) (p : list string) : option json :=
  match get_parts (Some v) p with
  | Some x => if is_object x then None else Some x
  | None => None
  end.

Lemma leaves_spec v p x :
  distinct_keys v = true -> (p, x) ∈ leaves v <-> leaf v p = Some x.
Proof.
  unfold leaf. revert p. induction v as [| | | | |m IH] using json_ind'; intros p Hd;
    try (destruct p as [|k p];
         [split; [by intros [= ->]%list_elem_of_singleton|intros [= <-]; by left]|];
         rewrite get_parts_scalar by done; split; [by intros [=]%list_elem_of_singleton|done]).
  apply distinct_obj in Hd as [Hnd Hd]. rewrite Forall_forall in IH.
  cbn [leaves]. rewrite list_elem_of_In, in_concat. destruct p as [|k p].
  - split; [|done]. intros (l & (kv & <- & _)%in_map_iff & (px & [=] & _)%in_map_iff).
  - rewrite get_parts_cons. split.
    + intros (l & ([k' v] & <- & Hin)%in_map_iff & ([p' x'] & [= <- <- <-] & Hp)%in_map_iff).
      apply list_elem_of_In in Hin, Hp. rewrite (obj_get_distinct k' v) by done.
      apply (IH _ Hin); [by apply (Hd k')|done].
    + intros Hg. destruct (obj_get k m) as [v|] eqn:Hk;
        [|by unfold get_parts in Hg; rewrite get_parts_None in Hg].
      apply obj_get_elem in Hk. exists (map (fun px => (k :: px.1, px.2)) (leaves v)).
      split; [apply in_map_iff; exists (k, v); split; [done|by apply list_elem_of_In]|].
      apply in_map_iff. exists (p, x). split; [done|]. apply list_elem_of_In.
      apply (IH (k, v) Hk); [by apply (Hd k)|done].
Qed.

(** ** Flattening *)

Definition path_str (prefix : string) (p : list string) : string :=
  foldl (fun pre k => if decide (pre <> "") then pre +:+ "." +:+ k else k) prefix p.

Lemma flattenMap_leaves prefix v out :
  flattenMap prefix v out =
  foldl (fun o px => <[path_str prefix px.1 := px.2]> o) out (leaves v).
Proof.
  revert prefix out. induction v as [| | | | |m IH] using json_ind'; intros prefix out; try done.
  cbn [flattenMap leaves]. revert out. induction IH as [|[k v] m Hv _ IHm]; intros out; [done|].
  cbn [map concat foldl fst snd] in *. rewrite foldl_app, IHm. f_equal. rewrite Hv.
  generalize (leaves v) as l. intros l. revert out. clear.
  induction l as [|[p x] l IHl]; intros out; [done|]. simpl. by rewrite <- IHl.
Qed.

(** A key that a dotted path can name. *)
Definition key_ok (k : string) : bool := bool_decide (k <> "") && negb (char_in "." k).

Fixpoint plain_keys (v : json) : bool :=
  match v with
  | JObj m => forallb (fun kv => key_ok kv.1 && plain_keys kv.2) m
  | _ => true
  end.

Definition clean (v : json) : bool := distinct_keys v && plain_keys v.

Lemma leaves_plain v p x :
  plain_keys v = true -> (p, x) ∈ leaves v -> Forall (fun k => key_ok k = true) p.
Proof.
  revert p. induction v as [| | | | |m IH] using json_ind'; intros p Hp Hin;
    try (apply list_elem_of_singleton in Hin as [= -> _]; constructor).
  rewrite Forall_forall in IH. simpl in Hp. rewrite forallb_forall in Hp.
  apply list_elem_of_In, in_concat in Hin as (l & ([k v] & <- & Hkv)%in_map_iff &
    ([p' x'] & [= <- <-] & Hp')%in_map_iff).
  specialize (Hp _ Hkv) as [Hk Hv]%andb_true_iff. apply list_elem_of_In in Hkv, Hp'.
  constructor; [done|]. by apply (IH _ Hkv).
Qed.

Lemma path_str_Join pre p :
  pre <> "" -> Forall (fun k => key_ok k = true) p -> path_str pre p = Join "." (pre :: p).
Proof.
  revert pre. induction p as [|k p IH]; intros pre Hpre Hp; [done|].
  inversion Hp as [|? ? Hk Hp']; subst. unfold path_str in *. cbn [foldl].
  rewrite decide_True, IH; [|by destruct pre|done|done].
  destruct p as [|q p]; [done|]. cbn [Join]. by autorewrite with aceryx_str.
Qed.

Lemma path_str_empty p :
  Forall (fun k => key_ok k = true) p -> path_str "" p = Join "." p.
Proof.
  destruct p as [|k p]; [done|]. intros Hp. inversion Hp as [|? ? Hk Hp']; subst.
  change (path_str "" (k :: p)) with (path_str k p). apply path_str_Join; [|done].
  unfold key_ok in Hk. by boolp.
Qed.

Lemma Split_Join p :
  p <> [] -> Forall (fun k => key_ok k = true) p -> Split "." (Join "." p) = p.
Proof.
  intros Hne Hp. induction Hp as [|k p Hk Hp IH]; [done|].
  unfold key_ok in Hk. boolp. destruct p as [|q p]; [by apply Split_no_sep|].
  change (Join "." (k :: q :: p)) with (k +:+ String "." (Join "." (q :: p))).
  rewrite Split_cons_sep by done. by rewrite IH.
Qed.

Lemma Join_inj p q :
  p <> [] -> q <> [] -> Forall (fun k => key_ok k = true) p ->
  Forall (fun k => key_ok k = true) q -> Join "." p = Join "." q -> p = q.
Proof. intros Hp Hq Hkp Hkq H. rewrite <- (Split_Join p), <- (Split_Join q) by done. by rewrite H. Qed.

Lemma foldl_insert_lookup {A} (f : A -> string * json) (l : list A) key x :
  (forall a b, a ∈ l -> b ∈ l -> (f a).1 = (f b).1 -> (f a).2 = (f b).2) ->
  foldl (fun o a => <[(f a).1 := (f a).2]> o) (∅ : gmap string json) l !! key = Some x <->
  exists a, a ∈ l /\ f a = (key, x).
Proof.
  induction l as [|a l IH] using rev_ind; intros Hfun; simpl.
  { rewrite lookup_empty. split; [done|]. by intros (a & ?%not_elem_of_nil & _). }
  assert (forall b, b ∈ l -> b ∈ l ++ [a]) as Hl by (intros; apply elem_of_app; by left).
  assert (a ∈ l ++ [a]) as Ha by (apply elem_of_app; right; by left).
  rewrite foldl_app. simpl. destruct (decide ((f a).1 = key)) as [<-|Hne].
  - rewrite lookup_insert_eq. split.
    + intros [= <-]. exists a. split; [done|by destruct (f a)].
    + intros (b & Hb & Hfb). f_equal. rewrite (Hfun a b); [by rewrite Hfb|done|done|by rewrite Hfb].
  - rewrite lookup_insert_ne by done. rewrite IH by eauto. split; intros (b & Hb & Hfb).
    + exists b. eauto.
    + exists b. apply elem_of_app in Hb as [Hb| ->%list_elem_of_singleton]; [done|].
      by rewrite Hfb in Hne.
Qed.

Lemma leaf_object_nil m : leaf (JObj m) [] = None.
Proof. done. Qed.

(** The flattened map of an object has its leaves, at their dotted paths. *)
Lemma flatten_lookup m key x :
  clean (JObj m) = true ->
  flattenMap "" (JObj m) ∅ !! key = Some x <->
  exists p, p <> [] /\ Forall (fun k => key_ok k = true) p /\ key = Join "." p /\
    leaf (JObj m) p = Some x.
Proof.
  intros [Hd Hp]%andb_true_iff. rewrite flattenMap_leaves.
  assert (forall p y, (p, y) ∈ leaves (JObj m) ->
    leaf (JObj m) p = Some y /\ p <> [] /\ Forall (fun k => key_ok k = true) p) as Hl.
  { intros p y Hin. pose proof (leaves_plain _ _ _ Hp Hin) as Hk. apply leaves_spec in Hin; [|done].
    split_and!; [done| |done]. intros ->. by rewrite leaf_object_nil in Hin. }
  rewrite (foldl_insert_lookup (fun px => (path_str "" px.1, px.2))).
  - split.
    + intros ([p y] & Hin & [= <- <-]). destruct (Hl _ _ Hin) as (Hlf & Hne & Hk).
      exists p. split_and!; try done. by apply path_str_empty.
    + intros (p & Hne & Hk & -> & Hlf). exists (p, x). split; [by apply leaves_spec|].
      simpl. by rewrite path_str_empty.
  - intros [p y] [q z] (Hly & Hpn & Hkp)%Hl (Hlz & Hqn & Hkq)%Hl. simpl.
    rewrite !path_str_empty by done. intros <-%Join_inj; try done. congruence.
Qed.

Lemma flatten_Join m p :
  clean (JObj m) = true -> p <> [] -> Forall (fun k => key_ok k = true) p ->
  flattenMap "" (JObj m) ∅ !! Join "." p = leaf (JObj m) p.
Proof.
  intros Hc Hne Hk. apply option_eq. intros x. rewrite flatten_lookup by done. split.
  - intros (q & Hqn & Hkq & Hj%Join_inj & Hl); try done. by subst.
  - intros Hl. by exists p.
Qed.

Lemma Join_nonempty p :
  p <> [] -> Forall (fun k => key_ok k = true) p -> Join "." p <> "".
Proof.
  intros Hne Hk He. destruct Hk as [|k p Hk Hp]; [done|]. unfold key_ok in Hk. boolp.
  destruct p; cbn [Join] in He; [done|]. by destruct k.
Qed.

(** What is reported for a path whose value goes from [b] to [a]. *)
Definition diff_at (b a : option json) : option FieldDiff :=
  if decide (b = a) then None else Some (mkFieldDiff (default JNull b) (default JNull a)).

Lemma ComputeFieldDiff_lookup before after key :
  ComputeFieldDiff before after !! key =
  if decide (key = "") then None
  else diff_at (flattenMap "" (JObj before) ∅ !! key) (flattenMap "" (JObj after) ∅ !! key).
Proof.
  unfold ComputeFieldDiff, diff_at. cbv zeta. case_decide as Hk.
  { subst. by rewrite lookup_delete_eq. }
  rewrite lookup_delete_ne by done. rewrite lookup_merge. unfold diag_None.
  destruct (flattenMap "" (JObj before) ∅ !! key) as [b|],
    (flattenMap "" (JObj after) ∅ !! key) as [a|]; try done.
  destruct (DeepEqual b a) eqn:He; simpl.
  - apply DeepEqual_spec in He as ->. by rewrite decide_True.
  - rewrite decide_False; [done|]. intros [= ->].
    by rewrite (proj2 (DeepEqual_spec a a) eq_refl) in He.
Qed.

(** ** Manual edits *)

(** A path of the schema whose source forbids manual edits. *)
Definition protected (s : CaseTypeSchema) (p : list string) : Prop :=
  exists f, resolveSchemaField s (Join "." p) = Some f /\ ToLower (sfSource f) ∈ ["agent"; "external"].

Lemma source_errors_nil s p :
  Join "." p <> "" -> source_errors s (Join "." p) = [] <-> ~ protected s p.
Proof.
  intros Hne. unfold source_errors, protected. rewrite decide_False by done.
  destruct (resolveSchemaField s (Join "." p)) as [f|]; [|naive_solver]. cbv zeta.
  case_decide as Hs.
  - split; [done|]. intros Hn. destruct Hn. exists f. split; [done|]. rewrite !elem_of_cons. tauto.
  - split; [|done]. intros _ (f' & [= <-] & Hin). rewrite !elem_of_cons in Hin.
    destruct Hin as [?|[?|?%not_elem_of_nil]]; tauto.
Qed.

Lemma manual_patch_nil s patch :
  clean (JObj patch) = true ->
  validateManualSourcePatch s patch = [] <->
  forall p x, Forall (fun k => key_ok k = true) p -> leaf (JObj patch) p = Some x -> ~ protected s p.
Proof.
  intros Hc. unfold validateManualSourcePatch. rewrite concat_nil. split.
  - intros H p x Hk Hl. assert (p <> []) as Hp by (intros ->; by rewrite leaf_object_nil in Hl).
    apply source_errors_nil; [by apply Join_nonempty|]. apply (H (Join "." p, x)).
    apply elem_of_map_to_list. by rewrite flatten_Join.
  - intros H [key x] (p & Hp & Hk & -> & Hl)%elem_of_map_to_list%flatten_lookup; [|done].
    simpl. apply source_errors_nil; [by apply Join_nonempty|by eapply H].
Qed.

(** Where a path leads in a patch. *)
Lemma path_cases v p :
  untouched v p \/ (exists x, leaf v p = Some x) \/
  (exists m, get_parts (Some v) p = Some (JObj m)) \/
  (exists q r x, p = q ++ r /\ r <> [] /\ leaf v q = Some x).
Proof.
  revert v. induction p as [|k p IH]; intros v.
  - right. destruct (is_object v) eqn:Ho; [destruct v; try done; right; left; by eexists|].
    left. exists v. unfold leaf, get_parts. simpl. by rewrite Ho.
  - destruct (is_object v) eqn:Ho.
    + destruct v as [| | | | |m]; try done. cbn [untouched].
      destruct (obj_get k m) as [v|] eqn:Hk; [|by left].
      destruct (IH v) as [?|[(x & Hx)|[(m' & Hm)|(q & r & x & -> & Hr & Hx)]]]; [by left|..]; right.
      * left. exists x. unfold leaf. by rewrite get_parts_cons, Hk.
      * right. left. exists m'. by rewrite get_parts_cons, Hk.
      * right. right. exists (k :: q), r, x. split_and!; try done.
        unfold leaf. by rewrite get_parts_cons, Hk.
    + do 3 right. exists [], (k :: p), v. split_and!; try done.
      unfold leaf, get_parts. simpl. by rewrite Ho.
Qed.

(** ** The claims *)

(** C13. Case data is accepted exactly when it conforms to the schema of its
    type: every required field is present, and every field that is present has
    its type, its bounds, its pattern and its enumeration, and so on for the
    properties of objects at any depth. The order in which the maps are visited
    plays no part. *)
Theorem ValidateCaseData_correct regexp_match fmtFloat s data :
  ValidateCaseData regexp_match fmtFloat s data = [] <-> data_conforms regexp_match s data.
Proof. apply ValidateCaseData_nil. Qed.

(** C14. [DeepMerge] at every path: a value of the patch that is not an object is
    the merged value, and nothing is left below it; where the patch has an object
    so has the result; and a path the patch says nothing about keeps the value it
    had. *)
Theorem DeepMerge_correct base patch p :
  distinct_keys (JObj patch) = true ->
  let merged := Some (JObj (DeepMerge base patch)) in
  (forall x, leaf (JObj patch) p = Some x -> get_parts merged p = Some x) /\
  (forall q x, leaf (JObj patch) p = Some x -> q <> [] -> get_parts merged (p ++ q) = None) /\
  (forall m, get_parts (Some (JObj patch)) p = Some (JObj m) ->
     exists m', get_parts merged p = Some (JObj m')) /\
  (untouched (JObj patch) p -> get_parts merged p = get_parts (Some (JObj base)) p).
Proof.
  intros Hd merged. unfold merged. rewrite DeepMerge_value.
  assert (forall x, leaf (JObj patch) p = Some x ->
    is_object x = false /\ get_parts (Some (JObj patch)) p = Some x) as Hl.
  { unfold leaf. intros x. destruct (get_parts _ p) as [y|]; [|done].
    destruct (is_object y) eqn:Ho; [done|]. by intros [= <-]. }
  split_and!.
  - intros x [Ho Hx]%Hl. by apply merge_value_leaf.
  - intros q x [Ho Hx]%Hl Hq. unfold get_parts at 1. rewrite foldl_app.
    pose proof (merge_value_leaf (Some (JObj base)) _ _ _ Hd Ho Hx) as Hm.
    unfold get_parts at 1 in Hm. rewrite Hm. by apply get_parts_scalar.
  - intros m. by apply merge_value_object.
  - by apply merge_value_untouched.
Qed.

(** [ComputeFieldDiff] of objects whose keys have no dots reports, at the
    dotted path of every leaf, exactly the change of that leaf: nothing when it
    is the same on both sides, otherwise both values, with null for a missing
    one; and it reports nothing else. *)
Theorem ComputeFieldDiff_correct before after :
  clean (JObj before) = true -> clean (JObj after) = true ->
  (forall p, p <> [] -> Forall (fun k => key_ok k = true) p ->
     ComputeFieldDiff before after !! Join "." p =
     diff_at (leaf (JObj before) p) (leaf (JObj after) p)) /\
  (forall key f, ComputeFieldDiff before after !! key = Some f ->
     exists p, p <> [] /\ Forall (fun k => key_ok k = true) p /\ key = Join "." p).
Proof.
  intros Hb Ha. split.
  - intros p Hne Hk. rewrite ComputeFieldDiff_lookup, decide_False by (by apply Join_nonempty).
    by rewrite !flatten_Join.
  - intros key f. rewrite ComputeFieldDiff_lookup. case_decide; [done|]. unfold diff_at.
    destruct (flattenMap "" (JObj before) ∅ !! key) as [b|] eqn:Hkb.
    + apply flatten_lookup in Hkb as (p & ? & ? & ? & _); [|done]. by exists p.
    + destruct (flattenMap "" (JObj after) ∅ !! key) as [a|] eqn:Hka; [|by rewrite decide_True].
      apply flatten_lookup in Hka as (p & ? & ? & ? & _); [|done]. by exists p.
Qed.

(** What the check on manual edits guarantees: after an accepted patch a
    field whose source is an agent or an external system has changed only if the
    patch replaces an object that contains the field, or reaches below the field
    itself; a patch that names the field is refused. *)
Theorem validateManualSourcePatch_guard s base patch p :
  clean (JObj patch) = true -> Forall (fun k => key_ok k = true) p -> protected s p ->
  validateManualSourcePatch s patch = [] ->
  get_parts (Some (JObj (DeepMerge base patch))) p = get_parts (Some (JObj base)) p \/
  (exists q r x, p = q ++ r /\ r <> [] /\ leaf (JObj patch) q = Some x) \/
  (exists m, get_parts (Some (JObj patch)) p = Some (JObj m)).
Proof.
  intros Hc Hk Hp Hv. destruct (path_cases (JObj patch) p) as [Hu|[(x & Hx)|[Hm|Hq]]]; auto.
  - left. rewrite DeepMerge_value. apply merge_value_untouched; [|done].
    by apply andb_true_iff in Hc as [? _].
  - by destruct (proj1 (manual_patch_nil s patch Hc) Hv p x Hk Hx).
Qed.

(** ** Witnesses *)

Definition plain (ty : string) (src : string) (props : list (string * SchemaField)) : SchemaField :=
  mkSchemaField ty false "" None None [] None None src props.

Definition risk_schema : CaseTypeSchema :=
  mkCaseTypeSchema [("risk", plain "object" "" [("score", plain "number" "agent" [])])].
Definition risk_data : object := [("risk", JObj [("score", JInt 7)])].
Definition wipe : object := [("risk", JNull)].

(** The check can be passed by: a schema declares [risk.score] as set by an
    agent, and a manual edit that sets the whole of [risk] to null is accepted,
    passes validation and deletes the score. *)
Theorem validateManualSourcePatch_bypass :
  protected risk_schema ["risk"; "score"] /\
  validateManualSourcePatch risk_schema wipe = [] /\
  ValidateCaseData (fun _ _ => None) (fun _ => "") risk_schema (DeepMerge risk_data wipe) = [] /\
  getAtPath risk_data "risk.score" = Some (JInt 7) /\
  getAtPath (DeepMerge risk_data wipe) "risk.score" = None.
Proof.
  split; [|by vm_compute]. eexists. split; [vm_compute; reflexivity|]. by left.
Qed.

Lemma DeepMerge_correct_witness :
  get_parts (Some (JObj (DeepMerge [("a", JObj [("b", JBool true)]); ("c", JNull)]
    [("a", JObj [("d", JNull)])]))) ["a"; "b"] = Some (JBool true).
Proof.
  destruct (DeepMerge_correct [("a", JObj [("b", JBool true)]); ("c", JNull)]
    [("a", JObj [("d", JNull)])] ["a"; "b"] ltac:(vm_compute; reflexivity)) as (_ & _ & _ & Hu).
  apply Hu. exact I.
Defined.

Lemma ComputeFieldDiff_correct_witness :
  ComputeFieldDiff risk_data wipe !! "risk" = Some (mkFieldDiff JNull JNull) /\
  ComputeFieldDiff risk_data wipe !! "risk.score" = Some (mkFieldDiff (JInt 7) JNull).
Proof.
  destruct (ComputeFieldDiff_correct risk_data wipe ltac:(vm_compute; reflexivity)
    ltac:(vm_compute; reflexivity)) as [Hp _].
  split.
  - change "risk" with (Join "." ["risk"]). rewrite Hp; [vm_compute; reflexivity|discriminate|].
    repeat constructor.
  - change "risk.score" with (Join "." ["risk"; "score"]).
    rewrite Hp; [vm_compute; reflexivity|discriminate|]. repeat constructor.
Defined.

Lemma validateManualSourcePatch_guard_witness :
  get_parts (Some (JObj (DeepMerge risk_data wipe))) ["risk"; "score"] =
    get_parts (Some (JObj risk_data)) ["risk"; "score"] \/
  (exists q r x, ["risk"; "score"] = q ++ r /\ r <> [] /\ leaf (JObj wipe) q = Some x) \/
  (exists m, get_parts (Some (JObj wipe)) ["risk"; "score"] = Some (JObj m)).
Proof.
  apply (validateManualSourcePatch_guard risk_schema); [vm_compute; reflexivity|repeat constructor|
    |vm_compute; reflexivity].
  eexists. split; [vm_compute; reflexivity|by left].
Defined.
