(* ===== verification/CaseOps.v ===== *)
(** * Cases: [internal/cases]

    Case types, creation, reading, manual edits, closing and cancelling of cases.
    The engine the service calls is an interface, as in [service.go]; the
    notifications after closing and cancelling are not modelled. The operations
    that validate return either their result or the validation errors. *)

From S2P Require Import Prelude GoStrings Json EngineTypes Store AuditTrail EngineOps TaskForms CaseData.

(** [(T, []ValidationError, error)] *)
Inductive outcome (A : Type) : Type :=
  | Done (a : A)
  | Invalid (errs : list ValidationError).
Arguments Done {A} a.
Arguments Invalid {A} errs.

Record CaseType : Type := mkCaseType {
  ctID : uuid;
  ctRow : CaseTypeRow;
  ctDecoded : CaseTypeSchema
}.

Record CreateCaseRequest : Type := mkCreateCaseRequest {
  rqCaseType : string;
  rqData : option object;
  rqPriority : Z
}.

Record Case : Type := mkCase {
  caseID : uuid;
  caseRow : CaseRow;
  caseType : string;
  caseData : option object;
  caseSteps : list (string * StepRow);
  caseEvents : list Event;
  caseDocuments : list (uuid * DocumentRow)
}.

Record PatchResult : Type := mkPatchResult {
  prCase : Case;
  prDiff : gmap string FieldDiff
}.

(** A nil map is marshalled to null. *)
Definition marshal_map (m : option object) : json :=
  match m with Some o => JObj o | None => JNull end.

(** ** Queries *)

(** [ORDER BY version DESC LIMIT 1]; rows of the same version, which only
    different workflows can have, are in no particular order. *)
Definition latest {A} (version : A -> Z) (l : list A) : option A :=
  foldl (fun acc a =>
    match acc with
    | Some b => if version b <? version a then Some a else acc
    | None => Some a
    end) None l.

Definition active_types (tenantID : uuid) (name : string) (d : DB) : list (uuid * CaseTypeRow) :=
  filter (fun kv => ctTenant kv.2 = tenantID /\ ctName kv.2 = name /\ ctActive kv.2 = true)
    (map_to_list (case_types d)).

(** The join of [workflow_versions] with [workflows]. *)
Definition published_versions (tenantID : uuid) (typeName typeID : string) (d : DB)
  : list ((uuid * Z) * VersionRow) :=
  filter (fun kv =>
    vStatus kv.2 = Published /\
    match workflows d !! kv.1.1 with
    | Some wf => bool_decide (wfTenant wf = tenantID) &&
                 (bool_decide (wfCaseType wf = typeName) || bool_decide (wfCaseType wf = typeID))
    | None => false
    end = true) (map_to_list (workflow_versions d)).

(** A case joined with its type, in the tenant of the caller. *)
Definition tenant_case (tenantID id : uuid) (d : DB) : option (CaseRow * CaseTypeRow) :=
  match cases d !! id with
  | Some c =>
      if decide (cTenant c = tenantID) then
        match case_types d !! cCaseType c with Some ct => Some (c, ct) | None => None end
      else None
  | None => None
  end.

Definition in_tenant (tenantID id : uuid) (d : DB) : bool :=
  match cases d !! id with Some c => bool_decide (cTenant c = tenantID) | None => false end.

(** ** Statements *)

Definition bigint_error : goerr := Errorf "bigint out of range" [].

(** [INSERT ... ON CONFLICT DO UPDATE SET last_number = last_number + 1] *)
Definition next_number (tenantID : uuid) (caseType : string) (d : DB) : result goerr (Z * DB) :=
  let key := (tenantID, caseType) in
  match case_number_sequences d !! key with
  | None => Ok (1, set_sequences <[key := 1]> d)
  | Some n => if n =? int64_max then Err bigint_error
              else Ok (n + 1, set_sequences <[key := n + 1]> d)
  end.

Definition number_taken (tenantID : uuid) (number : string) (d : DB) : Prop :=
  exists kv, kv ∈ map_to_list (cases d) /\ cTenant kv.2 = tenantID /\ cNumber kv.2 = number.

#[export] Instance number_taken_dec tenantID number d : Decision (number_taken tenantID number d).
Proof.
  refine (cast_if (decide (Exists (fun kv : uuid * CaseRow =>
    cTenant kv.2 = tenantID /\ cNumber kv.2 = number) (map_to_list (cases d)))));
    unfold number_taken; rewrite Exists_exists in *; naive_solver.
Defined.

(** [INSERT INTO cases]: [UNIQUE(tenant_id, case_number)], the foreign key of
    [created_by] and the range of [priority]. *)
Definition insert_case (id : uuid) (row : CaseRow) (d : DB) : result goerr (CaseRow * DB) :=
  if negb (int4_ok (cPriority row)) then Err int4_error
  else if decide (is_Some (cases d !! id)) then Err unique_error
  else if decide (number_taken (cTenant row) (cNumber row) d) then Err unique_error
  else if decide (principals d !! cCreatedBy row = None) then Err fk_error
  else Ok (row, set_cases <[id := row]> d).

Definition pending_row (id : uuid) : StepRow :=
  mkStepRow id StatePending None None (Some (JObj [])) (JArr []) (Some (JObj [])) None None 0
    (Some (JObj [])) (Some (JObj [])).

(** [INSERT INTO case_steps]: [UNIQUE(case_id, step_id)] and the primary key. *)
Definition insert_step (id caseID : uuid) (stepID : string) (d : DB) : result goerr (unit * DB) :=
  if decide (is_Some (case_steps d !! (caseID, stepID))) then Err unique_error
  else if decide (id ∈ map (fun kr => sID kr.2) (map_to_list (case_steps d))) then Err unique_error
  else Ok (tt, set_steps <[(caseID, stepID) := pending_row id]> d).

Definition close_row (now : Z) (c : CaseRow) : CaseRow :=
  mkCaseRow (cTenant c) (cCaseType c) (cNumber c) CaseCompleted (cData c) (cVersion c) now
    (cAssignedTo c) (cPriority c) (cWorkflowID c) (cWorkflowVersion c) (cCreatedAt c)
    (cCreatedBy c) (cDueAt c).

Definition data_row (now : Z) (data : json) (c : CaseRow) : CaseRow :=
  mkCaseRow (cTenant c) (cCaseType c) (cNumber c) (cStatus c) data (cVersion c + 1) now
    (cAssignedTo c) (cPriority c) (cWorkflowID c) (cWorkflowVersion c) (cCreatedAt c)
    (cCreatedBy c) (cDueAt c).

(** [UPDATE cases SET data = $3, version = version + 1 ... AND version = $4] *)
Definition write_data (tenantID id : uuid) (expected : Z) (data : json) (now : Z) (d : DB)
  : result goerr (nat * DB) :=
  match cases d !! id with
  | Some c =>
      if bool_decide (cTenant c = tenantID) && (cVersion c =? expected) then
        if cVersion c =? int4_max then Err int4_error
        else Ok (1%nat, set_cases <[id := data_row now data c]> d)
      else Ok (0%nat, d)
  | None => Ok (0%nat, d)
  end.

(** What the service needs of an engine. *)
Record CaseEngine : Type := mkCaseEngine {
  EvaluateDAG : uuid -> M unit;
  EngineCancelCase : uuid -> uuid -> string -> M unit
}.

Section Cases.
Context `{R : Runtime}.
Context (regexp_match : string -> string -> option bool) (fmtFloat : Qc -> string).

(** [engine.Engine] implements it. *)
Definition engine_for_cases (e : Engine) : CaseEngine := mkCaseEngine (evaluateDAG e) (cancelCase e).

(** ** Case types *)

Definition next_version (tenantID : uuid) (name : string) (d : DB) : Z :=
  foldl Z.max 0 (omap (fun kv : uuid * CaseTypeRow =>
    if decide (ctTenant kv.2 = tenantID /\ ctName kv.2 = name) then Some (ctVersion kv.2) else None)
    (map_to_list (case_types d))) + 1.

Definition version_taken (row : CaseTypeRow) (d : DB) : bool :=
  existsb (fun kv : uuid * CaseTypeRow =>
    bool_decide (ctTenant kv.2 = ctTenant row /\ ctName kv.2 = ctName row /\
                 ctVersion kv.2 = ctVersion row)) (map_to_list (case_types d)).

Definition insert_type (id : uuid) (row : CaseTypeRow) (d : DB)
  : result goerr ((uuid * CaseTypeRow) * DB) :=
  if decide (is_Some (case_types d !! id)) then Err unique_error
  else if version_taken row d then Err unique_error
  else if decide (principals d !! ctCreatedBy row = None) then Err fk_error
  else Ok ((id, row), set_case_types <[id := row]> d).

Definition RegisterCaseType (tenantID createdBy : uuid) (name : string) (schema : CaseTypeSchema)
  : M (outcome CaseType) :=
  if decide (name = "") then throw (Errorf "case type name is required" [])
  else
    match validateSchemaDefinition schema with
    | _ :: _ as errs => mret (Invalid errs)
    | [] =>
        with_tx (Wrapf "begin register case type tx: %w" []) (
          nextVersion ← wrapM (Wrapf "resolve next case type version: %w" [])
            (sql (fun _ _ d => if int4_max <? next_version tenantID name d then Err int4_error
                               else Ok (next_version tenantID name d, d)));
          ct ← wrapM (Wrapf "insert case type: %w" [])
            (sql (fun k now d => insert_type (gen_random_uuid k)
               (mkCaseTypeRow tenantID name nextVersion (marshal_CaseTypeSchema schema) true now
                  createdBy) d));
          decoded ← wrapM (Wrapf "unmarshal case type schema: %w" [])
            (lift (dec_CaseTypeSchema (ctSchema ct.2)));
          _ ← wrapM (Wrapf "commit register case type tx: %w" []) commit_tx;
          mret (Done (mkCaseType ct.1 ct.2 decoded)))
    end.

(** ** Creation *)

Definition resolveLatestActiveCaseTypeTx (tenantID : uuid) (name : string) : M CaseType :=
  ct ← query_row (fun _ d =>
    latest (fun kv : uuid * CaseTypeRow => ctVersion kv.2) (active_types tenantID name d));
  schema ← lift (dec_CaseTypeSchema (ctSchema ct.2));
  mret (mkCaseType ct.1 ct.2 schema).

Definition resolveLatestPublishedWorkflowTx (tenantID : uuid) (caseTypeName : string)
    (caseTypeID : uuid) : M ((uuid * Z) * VersionRow) :=
  query_row (fun _ d =>
    latest (fun kv : (uuid * Z) * VersionRow => kv.1.2)
      (published_versions tenantID caseTypeName (TrimSpace (uuid_string caseTypeID)) d)).

Definition generateCaseNumberTx (tenantID : uuid) (caseType : string) : M string :=
  next ← wrapM (Wrapf "generate case number sequence: %w" [])
    (sql (fun _ _ d => next_number tenantID caseType d));
  mret (case_number caseType next).

Definition count_cases (tenantID : uuid) (s : case_status) (d : DB) : nat :=
  length (filter (fun kv : uuid * CaseRow => cTenant kv.2 = tenantID /\ cStatus kv.2 = s)
    (map_to_list (cases d))).

Definition updateCaseStatusMetrics (tenantID : uuid) : M unit :=
  mapM_ (fun s => ignore (query (fun _ d => count_cases tenantID s d)))
    [CaseOpen; CaseInProgress; CaseCompleted; CaseCancelled].

Definition no_rows_as (e : goerr) (err : goerr) : goerr := if errors_is err ErrNoRows then e else err.

(** The transaction of [CreateCase]. *)
Definition create_case_tx (tenantID createdBy : uuid) (req : CreateCaseRequest)
  : M (outcome Case) :=
  with_tx (Wrapf "begin create case tx: %w" []) (
    ct ← wrapM (no_rows_as (Errorf "invalid case_type: %s" [rqCaseType req]))
      (resolveLatestActiveCaseTypeTx tenantID (rqCaseType req));
    match ValidateCaseData regexp_match fmtFloat (ctDecoded ct) (default [] (rqData req)) with
    | _ :: _ as validation => mret (Invalid validation)
    | [] =>
        let name := ctName (ctRow ct) in
        wf ← wrapM (no_rows_as (Errorf "no published workflow for case type %s" [name]))
          (resolveLatestPublishedWorkflowTx tenantID name (ctID ct));
        caseNumber ← generateCaseNumberTx tenantID name;
        c ← wrapM (Wrapf "insert case row: %w" [])
          (sql (fun k now d =>
             let id := gen_random_uuid k in
             match insert_case id (mkCaseRow tenantID (ctID ct) caseNumber CaseOpen
                      (marshal_map (rqData req)) 1 now None (rqPriority req) wf.1.1 wf.1.2
                      now createdBy None) d with
             | Ok (row, d') => Ok ((id, row), d')
             | Err e => Err e
             end));
        data ← wrapM (Wrapf "decode case data: %w" []) (lift (dec_object (cData c.2)));
        stepIDs ← lift (parseStepIDs (vAst wf.2));
        _ ← mapM_ (fun stepID =>
              wrapM (Wrapf "insert case step %s: %w" [stepID])
                (sql (fun k _ d => insert_step (gen_random_uuid k) c.1 stepID d))) stepIDs;
        _ ← RecordCaseEventTx c.1 "" "case" createdBy "human" "created"
          (JObj (mk_obj [("case_number", JStr (cNumber c.2)); ("case_type", JStr name)]));
        _ ← wrapM (Wrapf "commit create case tx: %w" []) commit_tx;
        mret (Done (mkCase c.1 c.2 name data [] [] []))
    end).

Definition CreateCase (engine : option CaseEngine) (tenantID createdBy : uuid)
    (req : CreateCaseRequest) : M (outcome Case) :=
  r ← create_case_tx tenantID createdBy req;
  match r with
  | Invalid errs => mret (Invalid errs)
  | Done c =>
      _ ← match engine with Some e => ignore (EvaluateDAG e (caseID c)) | None => mret tt end;
      _ ← updateCaseStatusMetrics tenantID;
      mret (Done c)
  end.

(** ** Reading *)

Definition step_id_le (a b : string * StepRow) : Prop := str_ltb b.1 a.1 = false.
#[export] Instance step_id_le_dec : RelDecision step_id_le.
Proof. intros a b. unfold step_id_le. apply _. Defined.
Definition created_le (a b : Event) : Prop := evCreatedAt a <= evCreatedAt b.
#[export] Instance created_le_dec : RelDecision created_le.
Proof. intros a b. unfold created_le. apply _. Defined.
Definition uploaded_ge (a b : uuid * DocumentRow) : Prop := dUploadedAt b.2 <= dUploadedAt a.2.
#[export] Instance uploaded_ge_dec : RelDecision uploaded_ge.
Proof. intros a b. unfold uploaded_ge. apply _. Defined.

Definition coalesce_step (r : StepRow) : StepRow :=
  mkStepRow (sID r) (sState r) (sStartedAt r) (sCompletedAt r) (Some (coalesce_obj (sResult r)))
    (sEvents r) (Some (coalesce_obj (sError r))) (sAssignedTo r) (sSlaDeadline r) (sRetryCount r)
    (Some (coalesce_obj (sDraftData r))) (Some (coalesce_obj (sMetadata r))).

Definition loadCaseSteps (tenantID id : uuid) : M (list (string * StepRow)) :=
  wrapM (Wrapf "load case steps: %w" []) (query (fun _ d =>
    if in_tenant tenantID id d
    then map (fun kr => (kr.1, coalesce_step kr.2)) (merge_sort step_id_le (step_rows id d))
    else [])).

(** The data of an event is decoded into a map. *)
Definition decode_event (e : Event) : result goerr Event :=
  match evData e with
  | None => Ok e
  | Some j => match dec_object j with
              | Ok _ => Ok e
              | Err err => Err (Wrapf "decode case event data %s: %w" [uuid_string (evID e)] err)
              end
  end.

Definition loadCaseEvents (tenantID id : uuid) : M (list Event) :=
  rows ← wrapM (Wrapf "load case events: %w" []) (query (fun _ d =>
    if in_tenant tenantID id d
    then merge_sort created_le (filter (fun e => evCaseID e = id) (case_events d)) else []));
  lift (mapE decode_event rows).

Definition loadCaseDocuments (tenantID id : uuid) : M (list (uuid * DocumentRow)) :=
  wrapM (Wrapf "load case documents: %w" []) (query (fun _ d =>
    if in_tenant tenantID id d
    then merge_sort uploaded_ge
           (filter (fun kv : uuid * DocumentRow => dCase kv.2 = Some id) (map_to_list (vault_documents d)))
    else [])).

Definition GetCase (tenantID id : uuid) : M Case :=
  row ← query_row (fun _ d => tenant_case tenantID id d);
  data ← wrapM (Wrapf "decode case data: %w" []) (lift (dec_object (cData row.1)));
  steps ← loadCaseSteps tenantID id;
  events ← loadCaseEvents tenantID id;
  docs ← loadCaseDocuments tenantID id;
  mret (mkCase id row.1 (ctName row.2) data steps events docs).

(** ** Manual edits *)

Definition patch_case_tx (tenantID id actorID : uuid) (patch : object) (expectedVersion : Z)
  : M (outcome (gmap string FieldDiff)) :=
  with_tx (Wrapf "begin patch case tx: %w" []) (
    row ← query_row (fun _ d => tenant_case tenantID id d);
    if negb (cVersion row.1 =? expectedVersion) then throw ErrCaseDataConflict
    else
      before ← wrapM (Wrapf "decode existing case data: %w" []) (lift (dec_object (cData row.1)));
      schema ← wrapM (Wrapf "decode case schema: %w" [])
        (lift (dec_CaseTypeSchema (ctSchema row.2)));
      match validateManualSourcePatch schema patch with
      | _ :: _ as forbidden => mret (Invalid forbidden)
      | [] =>
          let merged := DeepMerge (default [] before) patch in
          match ValidateCaseData regexp_match fmtFloat schema merged with
          | _ :: _ as validation => mret (Invalid validation)
          | [] =>
              affected ← wrapM (Wrapf "update case data: %w" [])
                (sql (fun _ now d => write_data tenantID id expectedVersion (JObj merged) now d));
              if decide (affected = 0%nat) then throw ErrCaseDataConflict
              else
                let diff := ComputeFieldDiff (default [] before) merged in
                _ ← RecordCaseEventTx id "" "case" actorID "human" "updated"
                  (JObj [("diff", marshal_diff diff)]);
                _ ← wrapM (Wrapf "commit patch case tx: %w" []) commit_tx;
                mret (Done diff)
          end
      end).

Definition UpdateCaseData (tenantID id actorID : uuid) (patch : object) (expectedVersion : Z)
  : M (outcome PatchResult) :=
  r ← patch_case_tx tenantID id actorID patch expectedVersion;
  match r with
  | Invalid errs => mret (Invalid errs)
  | Done diff =>
      out ← GetCase tenantID id;
      mret (Done (mkPatchResult out diff))
  end.

(** ** Closing and cancelling *)

Definition active_count (tenantID id : uuid) (d : DB) : nat :=
  if in_tenant tenantID id d
  then length (filter (fun kr : string * StepRow => sState kr.2 = StateActive) (step_rows id d))
  else 0%nat.

Definition CloseCase (tenantID id actorID : uuid) (reason : string) : M unit :=
  activeSteps ← wrapM (Wrapf "check active steps before close: %w" [])
    (query (fun _ d => active_count tenantID id d));
  if (0 <? activeSteps)%nat
  then throw (Errorf "cannot close case with active steps: %d" [pretty.pretty activeSteps])
  else
    _ ← with_tx (Wrapf "begin close case tx: %w" []) (
      _ ← wrapM (Wrapf "set case completed: %w" [])
        (update (fun _ now d =>
           update_case id (fun c => bool_decide (cTenant c = tenantID)) (close_row now) d));
      _ ← RecordCaseEventTx id "" "case" actorID "human" "closed" (JObj [("reason", JStr reason)]);
      commit_tx);
    updateCaseStatusMetrics tenantID.

Definition CancelCase (engine : option CaseEngine) (tenantID id actorID : uuid) (reason : string)
  : M unit :=
  match engine with
  | None => throw (Errorf "engine is not configured" [])
  | Some e =>
      exists_ ← query (fun _ d => in_tenant tenantID id d);
      if negb exists_ then throw ErrNoRows
      else
        _ ← EngineCancelCase e id actorID reason;
        updateCaseStatusMetrics tenantID
  end.

End Cases.
