(* ===== verification/CaseClaims.v ===== *)
(** * What the case operations guarantee

    Creation, manual edits, closing and cancelling of cases. The engine is used
    through the interface of [CaseOps]: [CaseEngineLaws] is what it promises,
    and the engine of this development keeps the promise. *)

From S2P Require Import Prelude GoStrings Json EngineTypes EngineAst Store AuditTrail.
From S2P Require Import AuditClaims EngineOps EngineOpsProps EngineAtomic EngineEvaluate EngineClaims TaskForms.
From S2P Require Import TaskClaims CaseData CaseDataProps CaseOps.

(** Whatever an engine commits is made of the steps of the life cycle, or of those
    that its executors make besides. *)
Class CaseEngineLaws `{R : Runtime} (Q : DB -> DB -> Prop) (E : CaseEngine) : Prop := mkCaseEngineLaws {
  evaluate_keeps : forall id, keeps Q (EvaluateDAG E id);
  cancel_keeps : forall id actor reason, keeps Q (EngineCancelCase E id actor reason)
}.

Lemma engine_for_cases_laws `{R : Runtime} Q `{!EngineSteps Q} e :
  executors_within Q e -> CaseEngineLaws Q (engine_for_cases e).
Proof.
  intros He. split; simpl; intros; [by apply (kept_evaluateDAG Q)|apply (kept_in Q), kept_cancelCase].
Qed.

Section Runs.
Context `{R : Runtime}.

Lemma wrapM_Ok {A} g (m : M A) a w w' : wrapM g m w = (Ok a, w') <-> m w = (Ok a, w').
Proof. unfold wrapM. destruct (m w) as [[b|e] w1]; naive_solver. Qed.

Lemma query_row_Ok' {A} (f : Z -> DB -> option A) a w w' :
  query_row f w = (Ok a, w') -> f (sql_now w) (db w) = Some a /\ db w' = db w.
Proof. intros Heq. apply (query_row_Ok id). by apply wrapM_Ok. Qed.

Lemma metrics_cases_quiet tenantID w :
  db (updateCaseStatusMetrics tenantID w).2 = db w /\
  saved (updateCaseStatusMetrics tenantID w).2 = saved w.
Proof.
  unfold updateCaseStatusMetrics, mapM_, mbind, M_bind, ignore, mret, M_ret, query, sql.
  destruct (fault (tick w)); simpl; repeat (destruct (fault _); simpl); done.
Qed.

(** ** The steps of a new case *)

Definition insert_steps (id : uuid) (l : list string) : M unit :=
  mapM_ (fun stepID =>
    wrapM (Wrapf "insert case step %s: %w" [stepID])
      (sql (fun k _ d => insert_step (gen_random_uuid k) id stepID d))) l.

(** The step rows [m'] extend [m] by pending rows for [l]. *)
Record steps_added (id : uuid) (l : list string) (m m' : gmap (uuid * string) StepRow) : Prop :=
  mk_steps_added {
    sa_distinct : NoDup l;
    sa_new : forall s, s ∈ l -> m !! (id, s) = None /\
      exists k, m' !! (id, s) = Some (pending_row k);
    sa_old : forall k, (k.1 = id -> k.2 ∉ l) -> m' !! k = m !! k
  }.

Lemma insert_step_Ok k id s d u d' :
  insert_step k id s d = Ok (u, d') ->
  case_steps d !! (id, s) = None /\ d' = set_steps <[(id, s) := pending_row k]> d.
Proof.
  unfold insert_step. destruct (decide (is_Some (case_steps d !! (id, s)))) as [|Hn]; [done|].
  case_decide; [done|]. intros [= _ <-]. split; [by apply eq_None_not_Some|done].
Qed.

Lemma insert_steps_Ok id l u w w' :
  insert_steps id l w = (Ok u, w') ->
  exists m, db w' = set_steps (fun _ => m) (db w) /\ steps_added id l (case_steps (db w)) m.
Proof.
  revert w. induction l as [|s l IH]; intros w.
  - intros [= _ <-]. exists (case_steps (db w)). split; [by destruct (db w)|].
    split; [constructor|by intros s ?%not_elem_of_nil|done].
  - cbn [insert_steps mapM_]. intros (v & w1 & Hq & Hr)%bind_Ok.
    apply sql_Ok, insert_step_Ok in Hq as [Hn Hd1].
    destruct (IH w1 Hr) as (m & Hd & [Hnd Hnew Hold]). rewrite Hd1 in *.
    exists m. split; [done|]. assert (s ∉ l) as Hs.
    { intros Hin. destruct (Hnew s Hin) as [Hc _]. simpl in Hc. by rewrite lookup_insert_eq in Hc. }
    split.
    + by constructor.
    + intros s' [->|Hin]%elem_of_cons.
      * split; [done|]. exists (gen_random_uuid (tick w)). rewrite Hold by done.
        simpl. by rewrite lookup_insert_eq.
      * destruct (Hnew s' Hin) as [Hc He]. split; [|done]. simpl in Hc.
        rewrite lookup_insert_ne in Hc; [done|]. intros [= ->]. done.
    + intros k Hk. rewrite Hold by (intros; set_solver). simpl.
      rewrite lookup_insert_ne; [done|]. intros <-. simpl in Hk. set_solver.
Qed.

(** ** A new case *)

Context (regexp_match : string -> string -> option bool) (fmtFloat : Qc -> string).

Record created (tenantID createdBy : uuid) (req : CreateCaseRequest) (d d1 : DB) (c : Case)
    (ct : uuid * CaseTypeRow) (schema : CaseTypeSchema) (wf : (uuid * Z) * VersionRow)
    (steps : list string) (e : Event) : Prop := mk_created {
  cr_type : latest (fun kv : uuid * CaseTypeRow => ctVersion kv.2)
    (active_types tenantID (rqCaseType req) d) = Some ct;
  cr_schema : dec_CaseTypeSchema (ctSchema ct.2) = Ok schema;
  cr_valid : data_conforms regexp_match schema (default [] (rqData req));
  cr_workflow : latest (fun kv : (uuid * Z) * VersionRow => kv.1.2)
    (published_versions tenantID (ctName ct.2) (TrimSpace (uuid_string ct.1)) d) = Some wf;
  cr_step_ids : parseStepIDs (vAst wf.2) = Ok steps;
  cr_number : cNumber (caseRow c) = case_number (ctName ct.2)
    (default 0 (case_number_sequences d !! (tenantID, ctName ct.2)) + 1);
  cr_unused : ~ number_taken tenantID (cNumber (caseRow c)) d;
  cr_fresh : cases d !! caseID c = None;
  cr_fields : cTenant (caseRow c) = tenantID /\ cCaseType (caseRow c) = ct.1 /\
    cStatus (caseRow c) = CaseOpen /\ cData (caseRow c) = marshal_map (rqData req) /\
    cVersion (caseRow c) = 1 /\ (cWorkflowID (caseRow c), cWorkflowVersion (caseRow c)) = wf.1 /\
    cCreatedBy (caseRow c) = createdBy /\ cPriority (caseRow c) = rqPriority req;
  cr_cases : cases d1 = <[caseID c := caseRow c]> (cases d);
  cr_sequence : case_number_sequences d1 = <[(tenantID, ctName ct.2) :=
    default 0 (case_number_sequences d !! (tenantID, ctName ct.2)) + 1]> (case_number_sequences d);
  cr_steps : steps_added (caseID c) steps (case_steps d) (case_steps d1);
  cr_event : recorded (caseID c) "" "case" createdBy "human" "created"
    (JObj (mk_obj [("case_number", JStr (cNumber (caseRow c))); ("case_type", JStr (ctName ct.2))]))
    (case_events d) e;
  cr_events : case_events d1 = case_events d ++ [e]
}.

Lemma next_number_Ok tenantID name d n d' :
  next_number tenantID name d = Ok (n, d') ->
  n = default 0 (case_number_sequences d !! (tenantID, name)) + 1 /\
  d' = set_sequences <[(tenantID, name) := n]> d.
Proof.
  unfold next_number. destruct (case_number_sequences d !! (tenantID, name)) as [k|]; simpl.
  - destruct (k =? int64_max); [done|]. by intros [= <- <-].
  - by intros [= <- <-].
Qed.

Lemma insert_case_Ok id row d row' d' :
  insert_case id row d = Ok (row', d') ->
  row' = row /\ cases d !! id = None /\ ~ number_taken (cTenant row) (cNumber row) d /\
  d' = set_cases <[id := row]> d.
Proof.
  unfold insert_case. destruct (negb _); [done|].
  destruct (decide (is_Some (cases d !! id))) as [|Hn]; [done|].
  destruct (decide (number_taken _ _ d)) as [|Ht]; [done|]. case_decide; [done|].
  intros [= <- <-]. split_and!; [done|by apply eq_None_not_Some|done|done].
Qed.

Lemma resolve_type_Ok tenantID name ct w w' :
  resolveLatestActiveCaseTypeTx tenantID name w = (Ok ct, w') ->
  latest (fun kv : uuid * CaseTypeRow => ctVersion kv.2) (active_types tenantID name (db w)) =
    Some (ctID ct, ctRow ct) /\
  dec_CaseTypeSchema (ctSchema (ctRow ct)) = Ok (ctDecoded ct) /\ db w' = db w.
Proof.
  unfold resolveLatestActiveCaseTypeTx.
  intros ([id row] & w1 & [Hq Hd]%query_row_Ok' & Hr)%bind_Ok.
  apply bind_Ok in Hr as (schema & w2 & [= Hs <-] & [= <- <-]). done.
Qed.

Lemma commit_Done {A} g (a b : A) w w' :
  (wrapM g commit_tx ≫= fun _ => mret a) w = (Ok b, w') ->
  b = a /\ db (rollback_tx w') = db w /\ saved (rollback_tx w') = None.
Proof.
  intros ([] & w1 & (Hd & Hs & _)%commit_Ok & [= -> <-])%bind_Ok.
  unfold rollback_tx. by rewrite Hs.
Qed.

Lemma create_case_tx_Done tenantID createdBy req c w w' :
  create_case_tx regexp_match fmtFloat tenantID createdBy req w = (Ok (Done c), w') ->
  saved w' = None /\ exists ct schema wf steps e,
    created tenantID createdBy req (db w) (db w') c ct schema wf steps e.
Proof.
  intros (w2 & _ & -> & Hb)%with_tx_Ok.
  apply bind_Ok in Hb as (ct & w3 & (Hct & Hsch & Hd3)%wrapM_Ok%resolve_type_Ok & Hb).
  cbn [db] in Hct, Hd3. destruct (ValidateCaseData _ _ _ _) eqn:Hv;
    [|by injection Hb]. apply ValidateCaseData_nil in Hv.
  apply bind_Ok in Hb as (wf & w4 & (Hwf & Hd4)%query_row_Ok & Hb).
  apply bind_Ok in Hb as (num & w5 & Hnum & Hb).
  apply bind_Ok in Hnum as (n & w5' & [Hn Hd5]%sql_Ok%next_number_Ok & [= <- <-]).
  apply bind_Ok in Hb as ([id row] & w6 & Hins%sql_Ok & Hb).
  cbv zeta in Hins. destruct (insert_case _ _ _) as [[row' d']|] eqn:Hi; [|done].
  injection Hins as <- <- ->. apply insert_case_Ok in Hi as (-> & Hfresh & Hfree & Hd6).
  apply bind_Ok in Hb as (data & w7 & [= _ <-]%wrapM_Ok & Hb).
  apply bind_Ok in Hb as (steps & w8 & [= Hst <-] & Hb).
  apply bind_Ok in Hb as ([] & w9 & (m & Hd9 & Hadd)%insert_steps_Ok & Hb).
  apply bind_Ok in Hb as ([] & w10 & (_ & _ & e & He & Hd10 & _)%record_Ok & Hb).
  apply commit_Done in Hb as ([= ->] & Hd & Hs). split; [done|].
  rewrite Hd3 in Hwf. rewrite Hd4, Hd3 in Hn, Hd5.
  exists (ctID ct, ctRow ct), (ctDecoded ct), wf, steps, e.
  rewrite Hd, Hd10, Hd9, Hd6. rewrite Hd5 in *. rewrite Hd9, Hd6 in He. rewrite Hd6 in Hadd.
  subst n. split; try done. simpl. split_and!; try done. by destruct wf as [[]].
Qed.

Lemma inner_resolve_type tenantID name : inner (resolveLatestActiveCaseTypeTx tenantID name).
Proof. unfold resolveLatestActiveCaseTypeTx. inner. Qed.

Lemma inner_number tenantID name : inner (generateCaseNumberTx tenantID name).
Proof. unfold generateCaseNumberTx. inner. Qed.

Lemma tx_ret {A} s (a : A) : tx_body s (mret a).
Proof. apply tx_inner, inner_ret. Qed.

Lemma create_case_tx_atomic tenantID createdBy req :
  atomic (create_case_tx regexp_match fmtFloat tenantID createdBy req).
Proof.
  apply atomic_tx. intros s. apply tx_bind; [apply inner_wrapM, inner_resolve_type|]. intros ct.
  destruct (ValidateCaseData _ _ _ _); [|apply tx_ret]. cbv zeta.
  apply tx_bind; [apply inner_wrapM, inner_query_row|]. intros wf.
  apply tx_bind; [apply inner_number|]. intros num. tx. apply ne_ret.
Qed.

(** A rejected request leaves nothing behind: the sequence is rolled back too. *)
Lemma create_case_tx_other tenantID createdBy req r w w' :
  create_case_tx regexp_match fmtFloat tenantID createdBy req w = (r, w') ->
  (forall c, r <> Ok (Done c)) -> unchanged w w'.
Proof.
  intros Heq Hr. destruct r as [[c|errs]|e]; [by destruct (Hr c)| |
    by apply (create_case_tx_atomic _ _ _ _ _ _ Heq)].
  apply with_tx_Ok in Heq as (w2 & _ & -> & Hb).
  apply bind_Ok in Hb as (ct & w3 & Hct & Hb).
  destruct (inner_Ok _ _ _ _ Hct) as (Hs & Hp & Hj); [apply inner_wrapM, inner_resolve_type|].
  destruct (ValidateCaseData _ _ _ _).
  - apply bind_Ok in Hb as (wf & w4 & _ & Hb). apply bind_Ok in Hb as (num & w5 & _ & Hb).
    apply bind_Ok in Hb as (c & w6 & _ & Hb). apply bind_Ok in Hb as (data & w7 & _ & Hb).
    apply bind_Ok in Hb as (steps & w8 & _ & Hb). apply bind_Ok in Hb as ([] & w9 & _ & Hb).
    apply bind_Ok in Hb as ([] & w10 & _ & Hb). by apply commit_Done in Hb as [[=] _].
  - injection Hb as _ <-. unfold unchanged, rollback_tx. rewrite Hs. split_and!; done.
Qed.

(** ** Manual edits *)

Record patched (tenantID id actorID : uuid) (patch : object) (v : Z) (d d1 : DB)
    (diff : gmap string FieldDiff) (c : CaseRow) (ct : CaseTypeRow) (before : option object)
    (schema : CaseTypeSchema) (now : Z) (e : Event) : Prop := mk_patched {
  pt_case : tenant_case tenantID id d = Some (c, ct);
  pt_version : cVersion c = v;
  pt_before : dec_object (cData c) = Ok before;
  pt_schema : dec_CaseTypeSchema (ctSchema ct) = Ok schema;
  pt_guard : validateManualSourcePatch schema patch = [];
  pt_valid : data_conforms regexp_match schema (DeepMerge (default [] before) patch);
  pt_cases : cases d1 =
    <[id := data_row now (JObj (DeepMerge (default [] before) patch)) c]> (cases d);
  pt_steps : case_steps d1 = case_steps d;
  pt_diff : diff = ComputeFieldDiff (default [] before) (DeepMerge (default [] before) patch);
  pt_event : recorded id "" "case" actorID "human" "updated"
    (JObj [("diff", marshal_diff diff)]) (case_events d) e;
  pt_events : case_events d1 = case_events d ++ [e]
}.

Lemma tenant_case_Some tenantID id d c ct :
  tenant_case tenantID id d = Some (c, ct) -> cases d !! id = Some c /\ cTenant c = tenantID.
Proof.
  unfold tenant_case. destruct (cases d !! id) as [c'|]; [|done]. case_decide; [|done].
  destruct (case_types d !! _); [|done]. by intros [= -> _].
Qed.

Lemma write_data_Ok tenantID id v data now d c n d' :
  cases d !! id = Some c -> write_data tenantID id v data now d = Ok (n, d') -> n <> 0%nat ->
  d' = set_cases <[id := data_row now data c]> d.
Proof.
  unfold write_data. intros ->. destruct (_ && _); [|by intros [= <-]].
  destruct (cVersion c =? int4_max); [done|]. by intros [= _ <-].
Qed.

Lemma patch_case_tx_Done tenantID id actorID patch v diff w w' :
  patch_case_tx regexp_match fmtFloat tenantID id actorID patch v w = (Ok (Done diff), w') ->
  saved w' = None /\ exists c ct before schema now e,
    patched tenantID id actorID patch v (db w) (db w') diff c ct before schema now e.
Proof.
  intros (w2 & _ & -> & Hb)%with_tx_Ok.
  apply bind_Ok in Hb as ([c ct] & w3 & (Hc & Hd3)%query_row_Ok' & Hb). cbn [db fst snd] in *.
  destruct (Z.eqb_spec (cVersion c) v) as [Hv|]; cbn [negb] in Hb; [|done].
  apply bind_Ok in Hb as (before & w4 & [= Hbf <-]%wrapM_Ok & Hb).
  apply bind_Ok in Hb as (schema & w5 & [= Hsch <-]%wrapM_Ok & Hb).
  destruct (validateManualSourcePatch schema patch) eqn:Hg; [|by injection Hb]. cbv zeta in Hb.
  destruct (ValidateCaseData _ _ _ _) eqn:Hval; [|by injection Hb].
  apply ValidateCaseData_nil in Hval.
  apply bind_Ok in Hb as (n & w6 & Hw%sql_Ok & Hb).
  destruct (decide (n = 0%nat)) as [|Hn]; [done|].
  destruct (tenant_case_Some _ _ _ _ _ Hc) as [Hrow _]. rewrite Hd3 in Hw.
  pose proof (write_data_Ok _ _ _ _ _ _ _ _ _ Hrow Hw Hn) as Hd6.
  apply bind_Ok in Hb as ([] & w7 & (_ & _ & e & He & Hd7 & _)%record_Ok & Hb).
  apply commit_Done in Hb as ([= ->] & Hd & Hs). split; [done|].
  exists c, ct, before, schema, (sql_now w3), e. rewrite Hd, Hd7, Hd6. rewrite Hd6 in He.
  by split.
Qed.

Lemma patch_case_tx_atomic tenantID id actorID patch v :
  atomic (patch_case_tx regexp_match fmtFloat tenantID id actorID patch v).
Proof.
  apply atomic_tx. intros s. apply tx_bind; [apply inner_query_row|]. intros row.
  destruct (negb _); [apply tx_inner, inner_throw|].
  apply tx_bind; [inner|]. intros before. apply tx_bind; [inner|]. intros schema.
  destruct (validateManualSourcePatch schema patch); [|apply tx_ret]. cbv zeta.
  destruct (ValidateCaseData _ _ _ _); [|apply tx_ret]. tx. apply ne_ret.
Qed.

(** Reading a case changes nothing. *)
Lemma GetCase_quiet tenantID id : keeps eq (GetCase tenantID id).
Proof. unfold GetCase, loadCaseSteps, loadCaseEvents, loadCaseDocuments. keeps. Qed.

Lemma UpdateCaseData_Done tenantID id actorID patch v pr w w' :
  CaseOps.UpdateCaseData regexp_match fmtFloat tenantID id actorID patch v w = (Ok (Done pr), w') ->
  exists c ct before schema now e,
    patched tenantID id actorID patch v (db w) (db w') (prDiff pr) c ct before schema now e.
Proof.
  intros ([diff|errs] & w1 & Hp & Hb)%bind_Ok; [|done].
  apply patch_case_tx_Done in Hp as (Hs & Hp).
  apply bind_Ok in Hb as (out & w2 & Hg & [= <- <-]). simpl.
  pose proof (keeps_top eq _ w1 (GetCase_quiet tenantID id) Hs) as Hd. rewrite Hg in Hd.
  simpl in Hd. by rewrite <- Hd.
Qed.

End Runs.

(** ** Other tenants *)

Section Foreign.
Context `{R : Runtime}.

Lemma foreign_in_tenant d tenantID id : foreign d tenantID id -> in_tenant tenantID id d = false.
Proof.
  intros Hf. unfold in_tenant. destruct (cases d !! id) as [c|] eqn:Hc; [|done].
  apply bool_decide_eq_false_2. by apply Hf.
Qed.

Lemma foreign_tenant_case d tenantID id : foreign d tenantID id -> tenant_case tenantID id d = None.
Proof.
  intros Hf. unfold tenant_case. destruct (cases d !! id) as [c|] eqn:Hc; [|done].
  by rewrite decide_False by (by apply Hf).
Qed.

Lemma query_row_refused {A B} (f : Z -> DB -> option A) (k : A -> M B) w :
  f (sql_now w) (db w) = None -> exists e, (query_row f ≫= k) w = (Err e, next_tick w).
Proof.
  intros Hf. unfold mbind, M_bind, query_row, sql. destruct (fault (tick w)); [by eexists|].
  rewrite Hf. by eexists.
Qed.

Lemma bind_Err {A B} (m : M A) (f : A -> M B) w e w' :
  m w = (Err e, w') -> (m ≫= f) w = (Err e, w').
Proof. unfold mbind, M_bind. by intros ->. Qed.

Lemma close_body_Ok tenantID id actorID reason u w w' :
  with_tx (Wrapf "begin close case tx: %w" []) (
    _ ← wrapM (Wrapf "set case completed: %w" [])
      (update (fun _ now d =>
         update_case id (fun c => bool_decide (cTenant c = tenantID)) (close_row now) d));
    _ ← RecordCaseEventTx id "" "case" actorID "human" "closed" (JObj [("reason", JStr reason)]);
    commit_tx) w = (Ok u, w') ->
  saved w' = None /\ exists now e,
    recorded id "" "case" actorID "human" "closed" (JObj [("reason", JStr reason)])
      (case_events (db w)) e /\
    db w' = set_events (fun l => l ++ [e])
      (update_case id (fun c => bool_decide (cTenant c = tenantID)) (close_row now) (db w)).2.
Proof.
  intros (w2 & _ & -> & Hb)%with_tx_Ok.
  apply bind_Ok in Hb as (n & w3 & Hd3%update_Ok & Hb). cbn [db] in Hd3.
  apply bind_Ok in Hb as ([] & w4 & (_ & _ & e & He & Hd4 & _)%record_Ok & Hb).
  apply (wrapM_Ok (fun e => e)) in Hb. apply commit_Ok in Hb as (Hd & Hs & _).
  unfold rollback_tx. rewrite Hs. split; [done|]. eexists _, e. rewrite Hd, Hd4, Hd3.
  split; [|done]. rewrite Hd3 in He. revert He. unfold update_case.
  destruct (cases (db w) !! id); [|done]. by destruct (bool_decide _).
Qed.

Lemma active_count_zero tenantID id d :
  in_tenant tenantID id d = true -> active_count tenantID id d = 0%nat ->
  forall s r, case_steps d !! (id, s) = Some r -> sState r <> StateActive.
Proof.
  unfold active_count. intros -> Hz s r Hr Ha. apply length_zero_iff_nil in Hz.
  assert ((s, r) ∈ filter (fun kr : string * StepRow => sState kr.2 = StateActive) (step_rows id d))
    as Hin.
  { apply list_elem_of_filter. split; [done|]. apply elem_of_map_to_list. by rewrite rows_of_lookup. }
  rewrite Hz in Hin. by apply not_elem_of_nil in Hin.
Qed.

End Foreign.

(** ** The claims *)


(** Numbers of different case types collide: sequences are kept per case
    type but numbers start with initials, and numbers are unique per tenant. When
    the next number of the requested type is already the number of a case of the
    tenant, creation fails, and since it rolls back the sequence as well, it
    leaves the tables as they were: every later attempt fails in the same way. *)
Theorem CreateCase_number_collision `{R : Runtime} rx fmt engine tenantID createdBy req ct w :
  latest (fun kv : uuid * CaseTypeRow => ctVersion kv.2)
    (active_types tenantID (rqCaseType req) (db w)) = Some ct ->
  number_taken tenantID (case_number (ctName ct.2)
    (default 0 (case_number_sequences (db w) !! (tenantID, ctName ct.2)) + 1)) (db w) ->
  (forall c w', CreateCase rx fmt engine tenantID createdBy req w <> (Ok (Done c), w')) /\
  unchanged w (CreateCase rx fmt engine tenantID createdBy req w).2.
Proof.
  intros Hct Ht. assert (forall c w',
    create_case_tx rx fmt tenantID createdBy req w <> (Ok (Done c), w')) as Hn.
  { intros c w' (_ & ct' & schema & wf & steps & e & Hc)%create_case_tx_Done.
    destruct Hc as [Hct' _ _ _ _ Hnum Hfree _ _ _ _ _ _ _]. rewrite Hct in Hct'.
    injection Hct' as <-. rewrite Hnum in Hfree. done. }
  unfold CreateCase, mbind, M_bind.
  destruct (create_case_tx rx fmt tenantID createdBy req w) as [[[c|errs]|e] w1] eqn:Htx.
  - by destruct (Hn c w1).
  - split; [done|]. by eapply create_case_tx_other.
  - split; [done|]. by eapply create_case_tx_other.
Qed.

(** A manual edit that succeeds was made against the version it expected, by
    the tenant of the case, names no field reserved to agents or external systems
    and leaves data that conforms to the schema; it stores the merge of the patch
    with the next version, records the difference in the trail and changes
    nothing else; and no other edit that expects the same version succeeds. *)
Theorem UpdateCaseData_correct `{R : Runtime} rx fmt tenantID id actorID patch v pr w w' :
  CaseOps.UpdateCaseData rx fmt tenantID id actorID patch v w = (Ok (Done pr), w') ->
  (exists c ct before schema now e,
     patched rx tenantID id actorID patch v (db w) (db w') (prDiff pr) c ct before schema now e) /\
  (forall t actor patch' w1 pr' w2, db w1 = db w' ->
     CaseOps.UpdateCaseData rx fmt t id actor patch' v w1 <> (Ok (Done pr'), w2)).
Proof.
  intros Heq. pose proof (UpdateCaseData_Done _ _ _ _ _ _ _ _ _ _ Heq) as Hp. split; [done|].
  destruct Hp as (c & ct & before & schema & now & e & [_ Hv _ _ _ _ Hcs _ _ _ _]).
  intros t actor patch' w1 pr' w2 Hd Heq'.
  apply UpdateCaseData_Done in Heq' as (c' & ct' & b' & s' & n' & e' & [Hc' Hv' _ _ _ _ _ _ _ _ _]).
  apply tenant_case_Some in Hc' as [Hc' _]. rewrite Hd, Hcs, lookup_insert_eq in Hc'.
  injection Hc' as <-. simpl in Hv'. lia.
Qed.

(** Closing a case. In the tenant of the case, a close that succeeds found no
    active step, sets the case completed and records it. For a case of another
    tenant the check and the update find nothing, but the operation still
    succeeds and appends a closed event of the foreign actor to the trail of that
    case, whose row it leaves as it was. *)
Theorem CloseCase_correct `{R : Runtime} tenantID id actorID reason c u w w' :
  saved w = None -> cases (db w) !! id = Some c ->
  CloseCase tenantID id actorID reason w = (Ok u, w') ->
  case_steps (db w') = case_steps (db w) /\
  (exists e, recorded id "" "case" actorID "human" "closed" (JObj [("reason", JStr reason)])
     (case_events (db w)) e /\ case_events (db w') = case_events (db w) ++ [e]) /\
  (cTenant c = tenantID ->
     (forall s r, case_steps (db w) !! (id, s) = Some r -> sState r <> StateActive) /\
     exists now, cases (db w') = <[id := close_row now c]> (cases (db w))) /\
  (cTenant c <> tenantID -> cases (db w') = cases (db w)).
Proof.
  intros Hs Hc (n & w1 & [Hn Hd1]%query_Ok & Hb)%bind_Ok.
  destruct (0 <? n)%nat eqn:Hpos; [done|]. apply Nat.ltb_ge in Hpos.
  apply bind_Ok in Hb as ([] & w2 & (Hs2 & now & e & He & Hd2)%close_body_Ok & Hm).
  destruct (metrics_cases_quiet tenantID w2) as [Hd3 _]. rewrite Hm in Hd3. simpl in Hd3.
  rewrite Hd3, Hd2, Hd1. rewrite Hd1 in He. unfold update_case. rewrite Hc.
  destruct (decide (cTenant c = tenantID)) as [Ht|Ht].
  - rewrite bool_decide_eq_true_2 by done. simpl. split_and!; [done|by exists e| |done].
    intros _. split; [|by exists now]. apply (active_count_zero tenantID); [|lia].
    unfold in_tenant. rewrite Hc. by apply bool_decide_eq_true_2.
  - rewrite bool_decide_eq_false_2 by done. simpl. split_and!; [done|by exists e|done|done].
Qed.

(** C16. Reading, editing and cancelling a case of another tenant is refused and
    changes nothing. *)
Theorem cases_tenant_isolation `{R : Runtime} rx fmt engine tenantID id actorID patch v reason w :
  foreign (db w) tenantID id ->
  (exists e w', GetCase tenantID id w = (Err e, w') /\ unchanged w w') /\
  (exists e w', CaseOps.UpdateCaseData rx fmt tenantID id actorID patch v w = (Err e, w') /\
     unchanged w w') /\
  (exists e w', CancelCase engine tenantID id actorID reason w = (Err e, w') /\ unchanged w w').
Proof.
  intros Hf. pose proof (foreign_tenant_case _ _ _ Hf) as Ht. split_and!.
  - destruct (query_row_refused (fun _ d => tenant_case tenantID id d) (fun row => (
      data ← wrapM (Wrapf "decode case data: %w" []) (lift (dec_object (cData row.1)));
      steps ← loadCaseSteps tenantID id;
      events ← loadCaseEvents tenantID id;
      docs ← loadCaseDocuments tenantID id;
      mret (mkCase id row.1 (ctName row.2) data steps events docs))) w Ht) as [e He].
    by exists e, (next_tick w).
  - destruct (refused (patch_case_tx rx fmt tenantID id actorID patch v) w) as (e & w' & He & Hu).
    + apply patch_case_tx_atomic.
    + intros a w'. apply with_tx_not_Ok. intros w0 w2 Hd (row & w3 & [Hr _]%query_row_Ok' & _)%bind_Ok.
      by rewrite Hd, Ht in Hr.
    + exists e, w'. split; [by apply bind_Err|done].
  - unfold CancelCase. destruct engine as [E|]; [|by eexists _, w].
    unfold mbind, M_bind, query, sql. destruct (fault (tick w)); [by eexists _, (next_tick w)|].
    rewrite foreign_in_tenant by done. by eexists _, _.
Qed.

(** ** Witnesses *)

#[local] Existing Instance example_runtime.

Definition loan_type : CaseTypeRow :=
  mkCaseTypeRow 1 "loan_application" 1
    (JObj [("fields", JObj [("amount", JObj [("required", JBool true); ("type", JStr "number")])])])
    true 0 7.
Definition lease_type : CaseTypeRow :=
  mkCaseTypeRow 1 "lease_agreement" 1 (JObj [("fields", JObj [])]) true 0 7.

Definition case_world : World :=
  mkWorld (mkDB ∅ ∅ [] {[ (3%N, 1) := mkVersionRow Published ex_ast ]}
    {[ 7%N := mkPrincipalRow 1 true 0 None ]} [] {[ 20%N := loan_type; 21%N := lease_type ]}
    {[ 3%N := mkWorkflowRow 1 "loans" "loan_application" ]} ∅ ∅) None 0 0 [] [] [].

Definition loan_request : CreateCaseRequest :=
  mkCreateCaseRequest "loan_application" (Some [("amount", JInt 10)]) 0.
Definition lease_request : CreateCaseRequest := mkCreateCaseRequest "lease_agreement" None 0.

Definition create_loan : M (outcome Case) :=
  CreateCase (fun _ _ => None) (fun _ => "") None 1 7 loan_request.
Definition loan_world : World := (create_loan case_world).2.
Definition loan_case : Case :=
  match (create_loan case_world).1 with
  | Ok (Done c) => c
  | _ => mkCase 0 (mkCaseRow 0 0 "" CaseOpen JNull 0 0 None 0 0 0 0 0 None) "" None [] [] []
  end.


Lemma CreateCase_number_collision_witness :
  unchanged loan_world
    (CreateCase (fun _ _ => None) (fun _ => "") None 1 7 lease_request loan_world).2.
Proof.
  apply (CreateCase_number_collision (fun _ _ => None) (fun _ => "") None 1 7 lease_request
    (21%N, lease_type)); [vm_compute; reflexivity|].
  exists (caseID loan_case, caseRow loan_case). split; [|vm_compute; done].
  apply elem_of_map_to_list. vm_compute. reflexivity.
Defined.

Definition edit_loan : M (outcome PatchResult) :=
  CaseOps.UpdateCaseData (fun _ _ => None) (fun _ => "") 1 (caseID loan_case) 7
    [("amount", JInt 12)] 1.
Definition edit_result : PatchResult :=
  match (edit_loan loan_world).1 with
  | Ok (Done pr) => pr
  | _ => mkPatchResult loan_case ∅
  end.

Lemma UpdateCaseData_correct_witness :
  exists c ct before schema now e,
    patched (fun _ _ => None) 1 (caseID loan_case) 7 [("amount", JInt 12)] 1 (db loan_world)
      (db (edit_loan loan_world).2) (prDiff edit_result) c ct before schema now e.
Proof.
  apply (UpdateCaseData_correct (fun _ _ => None) (fun _ => "") 1 (caseID loan_case) 7
    [("amount", JInt 12)] 1 edit_result loan_world).
  apply (ok_pair edit_loan loan_world (Done edit_result)). vm_compute. reflexivity.
Defined.

Lemma CloseCase_correct_witness :
  exists e, recorded (caseID loan_case) "" "case" 9 "human" "closed"
      (JObj [("reason", JStr "mine")]) (case_events (db loan_world)) e /\
    case_events (db (CloseCase 2 (caseID loan_case) 9 "mine" loan_world).2) =
      case_events (db loan_world) ++ [e].
Proof.
  apply (CloseCase_correct 2 (caseID loan_case) 9 "mine" (caseRow loan_case) tt loan_world);
    [vm_compute; reflexivity|vm_compute; reflexivity|].
  apply (ok_pair (CloseCase 2 (caseID loan_case) 9 "mine") loan_world tt). vm_compute. reflexivity.
Defined.

Lemma cases_tenant_isolation_witness :
  exists e w', GetCase 2 (caseID loan_case) loan_world = (Err e, w') /\ unchanged loan_world w'.
Proof.
  apply (cases_tenant_isolation (fun _ _ => None) (fun _ => "") None 2 (caseID loan_case) 9 [] 1 "").
  intros c Hc. vm_compute in Hc. injection Hc as <-. discriminate.
Defined.
