(* ===== verification/WorkflowValidation.v ===== *)
(** * Validation of workflow drafts: [internal/workflows/validation.go]

    What a draft must satisfy to be saved: a valid graph, outcome targets that
    are steps, the configuration its step types require, and conditions that
    evaluate to booleans. The evaluator of expressions wraps a JavaScript engine
    and is a parameter, as are the formatting of numbers and the current time. *)

From S2P Require Import Prelude GoStrings Json EngineTypes EngineAst TaskForms.

Definition agentLowConfidenceEscalate : string := "escalate_to_human".

Definition require (b : bool) (e : goerr) : result goerr unit := if b then Ok tt else Err e.

Definition hasKey (cfg : object) (key : string) : bool := obj_has key cfg.

Definition asFloat (v : option json) : option Qc :=
  match v with Some (JNum q) => Some q | _ => None end.

Definition decodeStepConfig (step : WorkflowStep) : result goerr object :=
  match stepConfig step with
  | None => Ok []
  | Some raw =>
      match dec_object raw with
      | Ok cfg => Ok (default [] cfg)
      | Err e => Err (Wrapf "step %q config must be a JSON object: %w" [stepID step] e)
      end
  end.

Definition validateOutcomeTargets (ids : list string) (step : WorkflowStep) : result goerr unit :=
  forE (fun kv : string * list string =>
    forE (fun target =>
      require (bool_decide (target ∈ ids))
        (Errorf "step %q outcome %q targets unknown step %q" [stepID step; kv.1; target])) kv.2)
    (map_to_list (stepOutcomes step)).

(** An error that only says that a value is missing. *)
Definition shouldIgnoreExpressionEvaluationError (err : goerr) : bool :=
  let msg := ToLower (Error err) in
  Contains msg "cannot read property" || Contains msg "is undefined" || Contains msg "undefined at".

Definition expressionValidationContext (now : string) : json :=
  JObj [("case", JObj [("data", JObj []); ("id", JStr "validation-case")]);
        ("now", JStr now); ("steps", JObj [])].

(** ** Configuration of particular step types *)

Definition config_of (what : string) (id : string) (raw : option json) : result goerr (option object) :=
  match raw with
  | None => Ok None
  | Some j =>
      match dec_object j with
      | Ok cfg => Ok (Some (default [] cfg))
      | Err e => Err (Wrapf ("step %q " +:+ what +:+ " must be a JSON object: %w") [id] e)
      end
  end.

(** The value of [key], if there is one, satisfies [ok]. *)
Definition check_key (cfg : object) (key : string) (ok : json -> bool) (e : goerr)
  : result goerr unit :=
  match obj_get key cfg with Some v => require (ok v) e | None => Ok tt end.

Definition is_array (v : json) : bool := match v with JArr _ => true | _ => false end.
Definition is_map (v : json) : bool := match v with JObj _ => true | _ => false end.

Definition validateAgentStepConfig (id : string) (raw : option json) : result goerr unit :=
  match config_of "agent config" id raw with
  | Err e => Err e
  | Ok None => Ok tt
  | Ok (Some cfg) =>
      _ ← require (negb (hasKey cfg "context_sources"))
        (Errorf "step %q uses unsupported key 'context_sources'; use 'context'" [id]);
      _ ← check_key cfg "context" is_array
        (Errorf "step %q field 'context' must be an array" [id]);
      _ ← check_key cfg "output_schema" is_map
        (Errorf "step %q field 'output_schema' must be an object" [id]);
      match obj_get "on_low_confidence" cfg with
      | None => Ok tt
      | Some (JStr action) =>
          let action := TrimSpace action in
          require (bool_decide (action = "") || bool_decide (action = agentLowConfidenceEscalate))
            (Errorf "step %q field 'on_low_confidence' must be %q" [id; agentLowConfidenceEscalate])
      | Some _ => Err (Errorf "step %q field 'on_low_confidence' must be a string" [id])
      end
  end.

Definition validateAIComponentStepConfig (id : string) (raw : option json) : result goerr unit :=
  match config_of "ai_component config" id raw with
  | Err e => Err e
  | Ok None => Ok tt
  | Ok (Some cfg) =>
      _ ← check_key cfg "input_paths" is_map
        (Errorf "step %q field 'input_paths' must be an object" [id]);
      check_key cfg "config_values" is_map
        (Errorf "step %q field 'config_values' must be an object" [id])
  end.

Definition in_unit (v : json) : bool :=
  match asFloat (Some v) with
  | Some t => negb (Qc_ltb t 0) && negb (Qc_ltb 1 t)
  | None => false
  end.

Definition validateThresholdRange (cfg : object) (key : string) (id : string) : result goerr unit :=
  check_key cfg key in_unit
    (Errorf "step %q field %q must be a number between 0 and 1" [id; key]).

Definition sla_positive (v : json) : bool :=
  match asFloat (Some v) with Some sla => Qc_ltb 0 sla | None => false end.

Definition validateExtractionStepConfig (id : string) (raw : option json) : result goerr unit :=
  match config_of "extraction config" id raw with
  | Err e => Err e
  | Ok None => Ok tt
  | Ok (Some cfg) =>
      _ ← validateThresholdRange cfg "auto_accept_threshold" id;
      _ ← validateThresholdRange cfg "review_threshold" id;
      _ ← match asFloat (obj_get "auto_accept_threshold" cfg),
                asFloat (obj_get "review_threshold" cfg) with
          | Some autoAccept, Some review =>
              require (negb (Qc_ltb autoAccept review))
                (Errorf "step %q review_threshold cannot exceed auto_accept_threshold" [id])
          | _, _ => Ok tt
          end;
      _ ← match obj_get "on_review" cfg with
          | None => Ok tt
          | Some (JObj obj) =>
              check_key obj "sla_hours" sla_positive
                (Errorf "step %q field 'on_review.sla_hours' must be > 0" [id])
          | Some _ => Err (Errorf "step %q field 'on_review' must be an object" [id])
          end;
      check_key cfg "on_reject" is_map
        (Errorf "step %q field 'on_reject' must be an object" [id])
  end.

Definition validate_type_config (step : WorkflowStep) : result goerr unit :=
  let ty := TrimSpace (stepType step) in
  if decide (ty = "agent") then validateAgentStepConfig (stepID step) (stepConfig step)
  else if decide (ty = "ai_component") then validateAIComponentStepConfig (stepID step) (stepConfig step)
  else if decide (ty = "extraction") then validateExtractionStepConfig (stepID step) (stepConfig step)
  else Ok tt.

Section Workflows.
Context (Evaluate : string -> json -> result goerr json) (fmtFloat : Qc -> string) (now : string).

(** [fmt.Sprint] of an entry that may be missing, trimmed. *)
Definition sprint_key (cfg : object) (key : string) : string :=
  TrimSpace (Sprint fmtFloat (default JNull (obj_get key cfg))).

Definition hasStringValue (cfg : object) (key : string) : bool :=
  match obj_get key cfg with
  | None => false
  | Some raw => bool_decide (TrimSpace (Sprint fmtFloat raw) <> "")
  end.

Definition has_rule_outcomes (cfg : object) : bool :=
  match obj_get "outcomes" cfg with
  | Some (JArr (_ :: _)) | Some (JObj (_ :: _)) => true
  | _ => false
  end.

Definition validateStepRequiredConfig (step : WorkflowStep) : result goerr unit :=
  cfg ← decodeStepConfig step;
  let ty := TrimSpace (stepType step) in
  let id := stepID step in
  let has := hasStringValue cfg in
  if decide (ty = "human_task") then
    _ ← require (has "assign_to_role" || has "assign_to_user")
      (Errorf "step %q human_task requires assign_to_role or assign_to_user" [id]);
    require (hasKey cfg "form" || hasKey cfg "form_schema")
      (Errorf "step %q human_task requires form_schema (or legacy form)" [id])
  else if decide (ty = "agent") then
    require (has "prompt_template") (Errorf "step %q agent requires prompt_template" [id])
  else if decide (ty = "integration") then
    require (has "connector" && has "action")
      (Errorf "step %q integration requires connector and action" [id])
  else if decide (ty = "rule") then
    require (negb (bool_decide (stepOutcomes step = ∅)) || has_rule_outcomes cfg)
      (Errorf "step %q rule requires at least one outcome route" [id])
  else if decide (ty = "timer") then
    require (has "duration") (Errorf "step %q timer requires duration" [id])
  else if decide (ty = "notification") then
    require (has "channel") (Errorf "step %q notification requires channel" [id])
  else if decide (ty = "ai_component") then
    require (has "component") (Errorf "step %q ai_component requires component" [id])
  else if decide (ty = "extraction") then
    _ ← require (has "document_path" || has "document_ref")
      (Errorf "step %q extraction requires document_path or document_ref" [id]);
    _ ← require (has "schema" || has "schema_name" || has "schema_id")
      (Errorf "step %q extraction requires schema, schema_name, or schema_id" [id]);
    require (has "output_path") (Errorf "step %q extraction requires output_path" [id])
  else Ok tt.

Definition validateBooleanExpression (expr location : string) : result goerr unit :=
  let expr := TrimSpace expr in
  if decide (expr = "") then Ok tt
  else
    match Evaluate expr (expressionValidationContext now) with
    | Err e => if shouldIgnoreExpressionEvaluationError e then Ok tt
               else Err (Wrapf "%s is invalid: %w" [location] e)
    | Ok (JBool _) => Ok tt
    | Ok _ => Err (Errorf "%s must evaluate to boolean" [location])
    end.

(** The text of ["step %q rule outcome %q condition"]; [%q] quotes its argument. *)
Definition rule_location (id name : string) : string :=
  Error (Errorf "step %q rule outcome %q condition" [id; name]).

(** An item of a list of outcomes. *)
Definition check_listed (id : string) (raw : json) : result goerr unit :=
  match raw with
  | JObj item =>
      let condition := sprint_key item "condition" in
      if decide (condition = "") then Ok tt
      else validateBooleanExpression condition (rule_location id (sprint_key item "name"))
  | _ => Ok tt
  end.

(** An entry of a map of outcomes. *)
Definition check_mapped (id : string) (kv : string * json) : result goerr unit :=
  let condition := match kv.2 with
                   | JObj item => sprint_key item "condition"
                   | raw => TrimSpace (Sprint fmtFloat raw)
                   end in
  if decide (condition = "") then Ok tt
  else validateBooleanExpression condition (rule_location id (TrimSpace kv.1)).

Definition validateStepExpressions (step : WorkflowStep) : result goerr unit :=
  let id := stepID step in
  _ ← validateBooleanExpression (stepCondition step) (Error (Errorf "step %q condition" [id]));
  if negb (bool_decide (TrimSpace (stepType step) = "rule")) then Ok tt
  else
    cfg ← decodeStepConfig step;
    match obj_get "outcomes" cfg with
    | Some (JArr l) => forE (check_listed id) l
    | Some (JObj m) => forE (check_mapped id) m
    | _ => Ok tt
    end.

Definition invalid_ast {A} (r : result goerr A) : result goerr A :=
  match r with Ok a => Ok a | Err e => Err (Wrapf "invalid workflow ast: %w" [] e) end.

Definition validate_draft_step (ids : list string) (step : WorkflowStep) : result goerr unit :=
  _ ← invalid_ast (validateOutcomeTargets ids step);
  _ ← invalid_ast (validateStepRequiredConfig step);
  _ ← invalid_ast (validateStepExpressions step);
  invalid_ast (validate_type_config step).

Definition validateWorkflowAST (ast : json) : result goerr unit :=
  match decodeWorkflowAST ast with
  | Err e => Err (Wrapf "invalid workflow ast: decode workflow ast: %w" [] e)
  | Ok workflow =>
      _ ← invalid_ast (ValidateAST workflow);
      forE (validate_draft_step (map stepID workflow)) workflow
  end.

End Workflows.
