(* ===== verification/WorkflowClaims.v ===== *)
(** * What the validation of workflow drafts guarantees *)

From S2P Require Import Prelude GoStrings Json EngineTypes EngineAst TaskForms WorkflowValidation.

(** ** Checks *)

Lemma require_ok b e : require b e = Ok tt <-> b = true.
Proof. by destruct b. Qed.

Lemma seq_ok (m k : result goerr unit) : (_ ← m; k) = Ok tt <-> m = Ok tt /\ k = Ok tt.
Proof. destruct m as [[]|]; naive_solver. Qed.

Lemma invalid_ast_ok (m : result goerr unit) : invalid_ast m = Ok tt <-> m = Ok tt.
Proof. by destruct m. Qed.

Lemma check_key_ok cfg key ok e :
  check_key cfg key ok e = Ok tt <-> forall v, obj_get key cfg = Some v -> ok v = true.
Proof.
  unfold check_key. destruct (obj_get key cfg) as [v|]; [|naive_solver].
  rewrite require_ok. naive_solver.
Qed.

Lemma is_array_ok v : is_array v = true <-> exists l, v = JArr l.
Proof. destruct v; naive_solver. Qed.
Lemma is_map_ok v : is_map v = true <-> exists m, v = JObj m.
Proof. destruct v; naive_solver. Qed.

Lemma Qc_ltb_lt a b : Qc_ltb a b = true <-> Qclt a b.
Proof. unfold Qc_ltb. rewrite Qclt_alt. by destruct (Qccompare a b). Qed.

Lemma in_unit_ok v : in_unit v = true <-> exists q, v = JNum q /\ Qcle 0 q /\ Qcle q 1.
Proof.
  unfold in_unit. destruct v as [| |q| | |]; try (split; [discriminate|by intros (q & [=] & _)]).
  simpl. rewrite andb_true_iff, !negb_true_iff, !Qc_ltb_spec. split; [by exists q|].
  by intros (q' & [= <-] & ?).
Qed.

Lemma sla_positive_ok v : sla_positive v = true <-> exists q, v = JNum q /\ Qclt 0 q.
Proof.
  unfold sla_positive. destruct v as [| |q| | |]; try (split; [discriminate|by intros (q & [=] & _)]).
  simpl. rewrite Qc_ltb_lt. split; [by exists q|]. by intros (q' & [= <-] & ?).
Qed.

(** ** Specification *)

(** The configuration of a step: an object, or none. *)
Definition configured (step : WorkflowStep) (cfg : object) : Prop :=
  match stepConfig step with
  | None | Some JNull => cfg = []
  | Some j => j = JObj cfg
  end.

Definition agent_ok (cfg : object) : Prop :=
  obj_get "context_sources" cfg = None /\
  (forall v, obj_get "context" cfg = Some v -> exists l, v = JArr l) /\
  (forall v, obj_get "output_schema" cfg = Some v -> exists m, v = JObj m) /\
  (forall v, obj_get "on_low_confidence" cfg = Some v ->
     exists s, v = JStr s /\ (TrimSpace s = "" \/ TrimSpace s = agentLowConfidenceEscalate)).

Definition ai_component_ok (cfg : object) : Prop :=
  (forall v, obj_get "input_paths" cfg = Some v -> exists m, v = JObj m) /\
  (forall v, obj_get "config_values" cfg = Some v -> exists m, v = JObj m).

Definition threshold_ok (cfg : object) (key : string) : Prop :=
  forall v, obj_get key cfg = Some v -> exists q, v = JNum q /\ Qcle 0 q /\ Qcle q 1.

Definition extraction_ok (cfg : object) : Prop :=
  threshold_ok cfg "auto_accept_threshold" /\ threshold_ok cfg "review_threshold" /\
  (forall a r, obj_get "auto_accept_threshold" cfg = Some (JNum a) ->
     obj_get "review_threshold" cfg = Some (JNum r) -> Qcle r a) /\
  (forall v, obj_get "on_review" cfg = Some v -> exists m, v = JObj m /\
     forall s, obj_get "sla_hours" m = Some s -> exists q, s = JNum q /\ Qclt 0 q) /\
  (forall v, obj_get "on_reject" cfg = Some v -> exists m, v = JObj m).

(** A conjunction of implications, one for each step type, for a given type. *)
Ltac by_type :=
  split;
  [intros ?; split_and!; (intros Hd; first [discriminate Hd | tauto])
  |intros Hall; decompose [and] Hall;
   repeat match goal with H : ?x = ?x -> _ |- _ => specialize (H eq_refl) end; tauto].

Section Spec.
Context (Evaluate : string -> json -> result goerr json) (fmtFloat : Qc -> string) (now : string).

(** Empty, boolean, or failing only because a value is missing. *)
Definition boolean_expr (expr : string) : Prop :=
  TrimSpace expr = "" \/
  match Evaluate (TrimSpace expr) (expressionValidationContext now) with
  | Ok (JBool _) => True
  | Ok _ => False
  | Err e => shouldIgnoreExpressionEvaluationError e = true
  end.

Definition required_ok (step : WorkflowStep) (cfg : object) : Prop :=
  let has k := hasStringValue fmtFloat cfg k = true in
  let ty := TrimSpace (stepType step) in
  (ty = "human_task" -> (has "assign_to_role" \/ has "assign_to_user") /\
     (hasKey cfg "form" = true \/ hasKey cfg "form_schema" = true)) /\
  (ty = "agent" -> has "prompt_template") /\
  (ty = "integration" -> has "connector" /\ has "action") /\
  (ty = "rule" -> stepOutcomes step <> ∅ \/ has_rule_outcomes cfg = true) /\
  (ty = "timer" -> has "duration") /\
  (ty = "notification" -> has "channel") /\
  (ty = "ai_component" -> has "component") /\
  (ty = "extraction" -> (has "document_path" \/ has "document_ref") /\
     (has "schema" \/ has "schema_name" \/ has "schema_id") /\ has "output_path").

(** The conditions a rule lists: those of the items of a list, and those of the
    entries of a map, objects or not. *)
Definition rule_conditions (cfg : object) : list string :=
  match obj_get "outcomes" cfg with
  | Some (JArr l) =>
      omap (fun raw => match raw with
                       | JObj item => Some (sprint_key fmtFloat item "condition")
                       | _ => None
                       end) l
  | Some (JObj m) =>
      map (fun kv : string * json => match kv.2 with
                     | JObj item => sprint_key fmtFloat item "condition"
                     | raw => TrimSpace (Sprint fmtFloat raw)
                     end) m
  | _ => []
  end.

Definition type_config_ok (step : WorkflowStep) (cfg : object) : Prop :=
  let ty := TrimSpace (stepType step) in
  (ty = "agent" -> agent_ok cfg) /\ (ty = "ai_component" -> ai_component_ok cfg) /\
  (ty = "extraction" -> extraction_ok cfg).

Record draft_step_ok (ids : list string) (step : WorkflowStep) : Prop := mk_draft_step_ok {
  ds_targets : forall o ts t, stepOutcomes step !! o = Some ts -> t ∈ ts -> t ∈ ids;
  ds_condition : boolean_expr (stepCondition step);
  ds_config : exists cfg, configured step cfg /\ required_ok step cfg /\ type_config_ok step cfg /\
    (TrimSpace (stepType step) = "rule" ->
     Forall (fun c => c = "" \/ boolean_expr c) (rule_conditions cfg))
}.

(** ** The code against the specification *)

Lemma decodeStepConfig_ok step cfg : decodeStepConfig step = Ok cfg <-> configured step cfg.
Proof.
  unfold decodeStepConfig, configured. destruct (stepConfig step) as [[]|]; simpl; naive_solver.
Qed.

Lemma configured_fun step c1 c2 : configured step c1 -> configured step c2 -> c1 = c2.
Proof. unfold configured. destruct (stepConfig step) as [[]|]; congruence. Qed.

Lemma targets_ok ids step :
  validateOutcomeTargets ids step = Ok tt <->
  forall o ts t, stepOutcomes step !! o = Some ts -> t ∈ ts -> t ∈ ids.
Proof.
  unfold validateOutcomeTargets. rewrite forE_ok. split.
  - intros H o ts t Hot Ht. specialize (H (o, ts)). rewrite elem_of_map_to_list in H.
    specialize (H Hot). rewrite forE_ok in H. specialize (H t Ht). simpl in H.
    by rewrite require_ok, bool_decide_eq_true in H.
  - intros H [o ts] Hot%elem_of_map_to_list. apply forE_ok. intros t Ht. simpl.
    rewrite require_ok, bool_decide_eq_true. by eapply H.
Qed.

Lemma expression_ok expr location :
  validateBooleanExpression Evaluate now expr location = Ok tt <-> boolean_expr expr.
Proof.
  unfold validateBooleanExpression, boolean_expr. cbv zeta. case_decide as He; [naive_solver|].
  destruct (Evaluate _ _) as [[]|e]; try naive_solver.
  destruct (shouldIgnoreExpressionEvaluationError e); naive_solver.
Qed.

Lemma condition_ok c location :
  (if decide (c = "") then Ok tt else validateBooleanExpression Evaluate now c location) = Ok tt <->
  c = "" \/ boolean_expr c.
Proof. case_decide; [naive_solver|]. rewrite expression_ok. naive_solver. Qed.

Lemma listed_ok id l :
  forE (check_listed Evaluate fmtFloat now id) l = Ok tt <->
  Forall (fun c => c = "" \/ boolean_expr c)
    (omap (fun raw => match raw with
                      | JObj item => Some (sprint_key fmtFloat item "condition")
                      | _ => None
                      end) l).
Proof.
  induction l as [|raw l IH]; simpl; [by split|].
  destruct (check_listed Evaluate fmtFloat now id raw) as [[]|] eqn:Hc.
  - rewrite IH. destruct raw; try done. rewrite Forall_cons.
    apply condition_ok in Hc. naive_solver.
  - split; [done|]. destruct raw as [| | | | |item]; try done. rewrite Forall_cons. intros [H _].
    rewrite <- (condition_ok _ (rule_location id (sprint_key fmtFloat item "name"))) in H.
    unfold check_listed in Hc. cbv zeta in Hc. rewrite H in Hc. done.
Qed.

Lemma mapped_ok id m :
  forE (check_mapped Evaluate fmtFloat now id) m = Ok tt <->
  Forall (fun c => c = "" \/ boolean_expr c)
    (map (fun kv : string * json => match kv.2 with
                    | JObj item => sprint_key fmtFloat item "condition"
                    | raw => TrimSpace (Sprint fmtFloat raw)
                    end) m).
Proof.
  rewrite forE_ok, Forall_map, Forall_forall. unfold check_mapped. cbv zeta.
  by setoid_rewrite condition_ok.
Qed.

Lemma conditions_ok id cfg :
  match obj_get "outcomes" cfg with
  | Some (JArr l) => forE (check_listed Evaluate fmtFloat now id) l
  | Some (JObj m) => forE (check_mapped Evaluate fmtFloat now id) m
  | _ => Ok tt
  end = Ok tt <->
  Forall (fun c => c = "" \/ boolean_expr c) (rule_conditions cfg).
Proof.
  unfold rule_conditions. destruct (obj_get "outcomes" cfg) as [[]|];
    try (by split; [constructor|]); [apply listed_ok|apply mapped_ok].
Qed.

Lemma required_config_ok step cfg :
  configured step cfg ->
  validateStepRequiredConfig fmtFloat step = Ok tt <-> required_ok step cfg.
Proof.
  intros Hc%decodeStepConfig_ok. unfold validateStepRequiredConfig, required_ok. rewrite Hc.
  cbn [mbind result_bind]. cbv zeta. generalize (TrimSpace (stepType step)). intros ty.
  repeat (case_decide; [subst ty; rewrite ?seq_ok, ?require_ok, ?orb_true_iff, ?andb_true_iff,
    ?negb_true_iff, ?bool_decide_eq_false; by_type|]).
  split; [|intros _; reflexivity]. intros _. split_and!; intros ?; congruence.
Qed.

Lemma agent_config_ok id cfg :
  validateAgentStepConfig id (Some (JObj cfg)) = Ok tt <-> agent_ok cfg.
Proof.
  unfold validateAgentStepConfig, agent_ok. cbn [config_of dec_object default].
  rewrite !seq_ok, require_ok, !check_key_ok, negb_true_iff. unfold hasKey, obj_has.
  setoid_rewrite is_array_ok. setoid_rewrite is_map_ok.
  assert ((match obj_get "context_sources" cfg with Some _ => true | None => false end) = false <->
    obj_get "context_sources" cfg = None) as -> by (by destruct (obj_get _ cfg)).
  enough (match obj_get "on_low_confidence" cfg with
      | Some (JStr action) => require (bool_decide (TrimSpace action = "") ||
          bool_decide (TrimSpace action = agentLowConfidenceEscalate))
          (Errorf "step %q field 'on_low_confidence' must be %q" [id; agentLowConfidenceEscalate])
      | Some _ => Err (Errorf "step %q field 'on_low_confidence' must be a string" [id])
      | None => Ok tt
      end = Ok tt <-> forall v, obj_get "on_low_confidence" cfg = Some v ->
        exists s, v = JStr s /\ (TrimSpace s = "" \/ TrimSpace s = agentLowConfidenceEscalate))
    as Hl by (rewrite <- Hl; tauto).
  destruct (obj_get "on_low_confidence" cfg) as [v|]; [|split; [by intros _ v|done]].
  destruct v as [| | |s| |]; try (split; [discriminate|intros H; by destruct (H _ eq_refl) as (? & [=] & _)]).
  rewrite require_ok, orb_true_iff, !bool_decide_eq_true. split.
  - intros H v [= <-]. by exists s.
  - intros H. by destruct (H _ eq_refl) as (s' & [= <-] & ?).
Qed.

Lemma ai_config_ok id cfg :
  validateAIComponentStepConfig id (Some (JObj cfg)) = Ok tt <-> ai_component_ok cfg.
Proof.
  unfold validateAIComponentStepConfig, ai_component_ok. cbn [config_of dec_object default].
  rewrite seq_ok, !check_key_ok. by setoid_rewrite is_map_ok.
Qed.

Lemma thresholds_ordered id cfg :
  match asFloat (obj_get "auto_accept_threshold" cfg), asFloat (obj_get "review_threshold" cfg) with
  | Some autoAccept, Some review =>
      require (negb (Qc_ltb autoAccept review))
        (Errorf "step %q review_threshold cannot exceed auto_accept_threshold" [id])
  | _, _ => Ok tt
  end = Ok tt <->
  forall a r, obj_get "auto_accept_threshold" cfg = Some (JNum a) ->
    obj_get "review_threshold" cfg = Some (JNum r) -> Qcle r a.
Proof.
  destruct (obj_get "auto_accept_threshold" cfg) as [[| |a| | |]|]; try (split; [by intros _ ? ?|done]).
  destruct (obj_get "review_threshold" cfg) as [[| |r| | |]|]; try (split; [by intros _ ? ?|done]).
  simpl. rewrite require_ok, negb_true_iff, Qc_ltb_spec. split.
  - by intros ? ? ? [= <-] [= <-].
  - intros H. by apply H.
Qed.

Lemma on_review_ok id cfg :
  match obj_get "on_review" cfg with
  | None => Ok tt
  | Some (JObj obj) =>
      check_key obj "sla_hours" sla_positive
        (Errorf "step %q field 'on_review.sla_hours' must be > 0" [id])
  | Some _ => Err (Errorf "step %q field 'on_review' must be an object" [id])
  end = Ok tt <->
  forall v, obj_get "on_review" cfg = Some v -> exists m, v = JObj m /\
    forall s, obj_get "sla_hours" m = Some s -> exists q, s = JNum q /\ Qclt 0 q.
Proof.
  destruct (obj_get "on_review" cfg) as [v|]; [|split; [by intros _ v|done]].
  destruct v as [| | | | |m]; try (split; [discriminate|intros H; by destruct (H _ eq_refl) as (? & [=] & _)]).
  rewrite check_key_ok. setoid_rewrite sla_positive_ok. split.
  - intros H v [= <-]. by exists m.
  - intros H. by destruct (H _ eq_refl) as (m' & [= <-] & ?).
Qed.

Lemma extraction_config_ok id cfg :
  validateExtractionStepConfig id (Some (JObj cfg)) = Ok tt <-> extraction_ok cfg.
Proof.
  unfold validateExtractionStepConfig, extraction_ok, threshold_ok, validateThresholdRange.
  cbn [config_of dec_object default]. rewrite !seq_ok, thresholds_ordered, on_review_ok, !check_key_ok.
  setoid_rewrite in_unit_ok. by setoid_rewrite is_map_ok.
Qed.

(** A missing configuration and null pass the checks of the types. *)
Lemma type_config_empty step :
  stepConfig step = None \/ stepConfig step = Some JNull ->
  validate_type_config step = Ok tt /\ type_config_ok step [].
Proof.
  intros Hc. split.
  - unfold validate_type_config. cbv zeta. destruct Hc as [-> | ->]; repeat case_decide; reflexivity.
  - unfold type_config_ok, agent_ok, ai_component_ok, extraction_ok, threshold_ok. simpl.
    split_and!; intros _; split_and!; discriminate || done.
Qed.

Lemma type_config_ok_iff step cfg :
  configured step cfg -> validate_type_config step = Ok tt <-> type_config_ok step cfg.
Proof.
  intros Hc. destruct (stepConfig step) as [j|] eqn:Hj.
  - destruct j as [| | | | |m]; unfold configured in Hc; rewrite Hj in Hc; try done.
    + subst. destruct (type_config_empty step) as [H1 H2]; [by right|]. by split.
    + injection Hc as ->. unfold validate_type_config, type_config_ok. rewrite Hj. cbv zeta.
      generalize (TrimSpace (stepType step)). intros ty.
      repeat (case_decide; [subst ty; rewrite ?agent_config_ok, ?ai_config_ok, ?extraction_config_ok;
        by_type|]).
      split; [|intros _; reflexivity]. intros _. split_and!; intros ?; congruence.
  - unfold configured in Hc. rewrite Hj in Hc. subst.
    destruct (type_config_empty step) as [H1 H2]; [by left|]. by split.
Qed.

Lemma expressions_ok step cfg :
  configured step cfg ->
  validateStepExpressions Evaluate fmtFloat now step = Ok tt <->
  boolean_expr (stepCondition step) /\
  (TrimSpace (stepType step) = "rule" ->
   Forall (fun c => c = "" \/ boolean_expr c) (rule_conditions cfg)).
Proof.
  intros Hc%decodeStepConfig_ok. unfold validateStepExpressions. cbv zeta.
  rewrite seq_ok, expression_ok. case_bool_decide as Hr; cbn [negb].
  - rewrite Hc. cbn [mbind result_bind]. rewrite conditions_ok. tauto.
  - tauto.
Qed.

Lemma draft_step_iff ids step :
  validate_draft_step Evaluate fmtFloat now ids step = Ok tt <-> draft_step_ok ids step.
Proof.
  unfold validate_draft_step. rewrite !seq_ok, !invalid_ast_ok, targets_ok. split.
  - intros (Ht & Hr & He & Hy). destruct (decodeStepConfig step) as [cfg|e] eqn:Hd.
    + apply decodeStepConfig_ok in Hd. apply (required_config_ok _ _ Hd) in Hr.
      apply (expressions_ok _ _ Hd) in He as [He1 He2]. apply (type_config_ok_iff _ _ Hd) in Hy.
      split; [done|done|]. by exists cfg.
    + unfold validateStepRequiredConfig in Hr. by rewrite Hd in Hr.
  - intros [Ht Hb (cfg & Hd & Hr & Hy & Hc)]. split_and!; [done|..].
    + by apply (required_config_ok _ cfg).
    + by apply (expressions_ok _ cfg).
    + by apply (type_config_ok_iff _ cfg).
Qed.

End Spec.

(** ** The claims *)

(** A draft is accepted exactly when it is a valid workflow graph and every
    step routes its outcomes to steps, has an object or nothing as configuration
    with what its type requires, and has conditions that evaluate to booleans or
    fail only on missing values. *)
Theorem validateWorkflowAST_correct Evaluate fmtFloat now ast :
  validateWorkflowAST Evaluate fmtFloat now ast = Ok tt <->
  exists wf, decodeWorkflowAST ast = Ok wf /\ wf_ast wf /\
    forall step, step ∈ wf -> draft_step_ok Evaluate fmtFloat now (map stepID wf) step.
Proof.
  unfold validateWorkflowAST. destruct (decodeWorkflowAST ast) as [wf|e].
  - rewrite seq_ok, invalid_ast_ok, ValidateAST_iff, forE_ok.
    setoid_rewrite draft_step_iff. split.
    + intros [? ?]. by exists wf.
    + by intros (wf' & [= <-] & ? & ?).
  - split; [done|]. by intros (wf & [=] & _).
Qed.

(** The check means to pass over outcomes without a condition, but a missing
    condition is printed as "<nil>" and evaluated: a rule step whose list of
    outcomes has an item without a condition is rejected, unless the evaluator
    takes "<nil>" for a boolean expression, and a required setting that is null
    counts as present. *)
Theorem missing_condition_evaluated Evaluate fmtFloat now ids step cfg l item :
  configured step cfg -> TrimSpace (stepType step) = "rule" ->
  obj_get "outcomes" cfg = Some (JArr l) -> JObj item ∈ l -> obj_get "condition" item = None ->
  (validate_draft_step Evaluate fmtFloat now ids step = Ok tt ->
   boolean_expr Evaluate now "<nil>") /\
  (forall k c, obj_get k c = Some JNull -> hasStringValue fmtFloat c k = true).
Proof.
  intros Hc Hty Hl Hin Hnone. split.
  - intros [_ _ (cfg' & Hc' & _ & _ & Hr)]%draft_step_iff.
    rewrite (configured_fun _ _ _ Hc' Hc) in Hr. specialize (Hr Hty).
    unfold rule_conditions in Hr. rewrite Hl, Forall_forall in Hr.
    assert (sprint_key fmtFloat item "condition" = "<nil>") as Hs.
    { unfold sprint_key. rewrite Hnone. vm_compute. reflexivity. }
    destruct (Hr "<nil>") as [[=]|?]; [|done].
    apply list_elem_of_omap. exists (JObj item). split; [done|]. by rewrite Hs.
  - intros k c Hk. unfold hasStringValue. rewrite Hk. vm_compute. reflexivity.
Qed.

(** ** Witnesses *)

Definition route_step : WorkflowStep :=
  mkWorkflowStep "route" "rule" [] "" "" ∅
    (Some (JObj [("outcomes", JArr [JObj [("name", JStr "default")]])])) zeroErrorPolicy None.

Definition js_syntax_error : string -> json -> result goerr json :=
  fun expr _ => Err (Errorf "SyntaxError: Unexpected token" []).

Lemma missing_condition_evaluated_witness :
  validate_draft_step js_syntax_error (fun _ => "") "" ["route"] route_step <> Ok tt.
Proof.
  intros H.
  destruct (missing_condition_evaluated js_syntax_error (fun _ => "") "" ["route"] route_step
    [("outcomes", JArr [JObj [("name", JStr "default")]])]
    [JObj [("name", JStr "default")]] [("name", JStr "default")]) as [Hb _];
    [reflexivity|vm_compute; reflexivity|reflexivity|by left|reflexivity|].
  destruct (Hb H) as [Hn|Hn]; vm_compute in Hn; discriminate.
Defined.
