(* ===== verification/GoText.v ===== *)
(** * More of Go's [strings], [strconv] and [net], as the services use them

    All functions work on bytes; those that Go defines on runes are used by the
    code on ASCII sets, for which the two agree. *)

From stdpp Require Import pretty.
From S2P Require Import Prelude GoStrings.

(** [strconv.Itoa(n)], [%d] *)
Definition Itoa (n : Z) : string := pretty n.

Definition digit_value (a : ascii) : option Z :=
  let n := Ascii.nat_of_ascii a in
  if ((48 <=? n) && (n <=? 57))%nat then Some (Z.of_nat n - 48)%Z else None.
Fixpoint digits_value (acc : Z) (s : string) : option Z :=
  match s with
  | EmptyString => Some acc
  | String a s' => d ← digit_value a; digits_value (acc * 10 + d)%Z s'
  end.
(** [strconv.Atoi(s)]: an optional sign and decimal digits, within range. *)
Definition in_range (z : Z) : option Z :=
  if bool_decide (int64_min <= z <= int64_max)%Z then Some z else None.
Definition Atoi (s : string) : option Z :=
  match s with
  | EmptyString => None
  | String a s' =>
      if decide (a = "-"%char) then
        if decide (s' = EmptyString) then None else v ← digits_value 0 s'; in_range (- v)%Z
      else if decide (a = "+"%char) then
        if decide (s' = EmptyString) then None else v ← digits_value 0 s'; in_range v
      else v ← digits_value 0 s; in_range v
  end.

(** [n, _ := strconv.Atoi(s)]: a number that does not fit is the nearest that does,
    what is no number is zero. *)
Definition Atoi_value (s : string) : Z :=
  match Atoi s with
  | Some n => n
  | None =>
      let negative := HasPrefix s "-" in
      let digits := if negative || HasPrefix s "+" then drop_str 1 s else s in
      match digits_value 0 digits with
      | Some v => if bool_decide (digits = "") then 0 else if negative then (- 2 ^ 63)%Z else (2 ^ 63 - 1)%Z
      | None => 0
      end
  end%Z.

(** [strings.Trim(s, cutset)] for a set of ASCII characters. *)
Fixpoint trim_left_set (cutset s : string) : string :=
  match s with
  | String a s' => if char_in a cutset then trim_left_set cutset s' else s
  | EmptyString => EmptyString
  end.
Fixpoint trim_right_set (cutset s : string) : string :=
  match s with
  | EmptyString => EmptyString
  | String a s' =>
      match trim_right_set cutset s' with
      | EmptyString => if char_in a cutset then EmptyString else String a EmptyString
      | t => String a t
      end
  end.
Definition Trim (s cutset : string) : string := trim_right_set cutset (trim_left_set cutset s).

(** [strings.TrimSuffix(s, p)], [strings.HasSuffix(s, p)] *)
Definition HasSuffix (s p : string) : bool :=
  (String.length p <=? String.length s)%nat &&
  bool_decide (drop_str (String.length s - String.length p) s = p).
Definition TrimSuffix (s p : string) : string :=
  if HasSuffix s p then String.substring 0 (String.length s - String.length p) s else s.

(** [strings.IndexByte(s, c)], [strings.LastIndexByte(s, c)], [strings.Count(s, c)] *)
Fixpoint IndexByte (c : ascii) (s : string) : option nat :=
  match s with
  | EmptyString => None
  | String a s' => if decide (a = c) then Some O else S <$> IndexByte c s'
  end.
Fixpoint LastIndexByte (c : ascii) (s : string) : option nat :=
  match s with
  | EmptyString => None
  | String a s' =>
      match LastIndexByte c s' with
      | Some i => Some (S i)
      | None => if decide (a = c) then Some O else None
      end
  end.
Fixpoint CountByte (c : ascii) (s : string) : nat :=
  match s with
  | EmptyString => O
  | String a s' => (if decide (a = c) then S else id) (CountByte c s')
  end.

Definition is_alnum (a : ascii) : bool :=
  let n := Ascii.nat_of_ascii a in
  ((48 <=? n) && (n <=? 57) || (65 <=? n) && (n <=? 90) || (97 <=? n) && (n <=? 122))%nat.

(** The matches of a character class repeated, each replaced by one [c]. *)
Fixpoint replace_runs (keep : ascii -> bool) (c : ascii) (inrun : bool) (s : string) : string :=
  match s with
  | EmptyString => EmptyString
  | String a s' =>
      if keep a then String a (replace_runs keep c false s')
      else if inrun then replace_runs keep c true s'
      else String c (replace_runs keep c true s')
  end.

(** [strings.ReplaceAll(s, old, new)] for a one-byte [old]. *)
Fixpoint replace_byte (c : ascii) (new s : string) : string :=
  match s with
  | EmptyString => EmptyString
  | String a s' => if decide (a = c) then new +:+ replace_byte c new s' else String a (replace_byte c new s')
  end.

(** [net.SplitHostPort]: host and port, or an error. *)
Definition SplitHostPort (hostport : string) : option (string * string) :=
  match LastIndexByte ":" hostport with
  | None => None
  | Some i =>
      let port := drop_str (S i) hostport in
      match hostport with
      | String "["%char _ =>
          match IndexByte "]" hostport with
          | None => None
          | Some e =>
              if decide (S e = i) then
                if char_in "[" (drop_str 1 hostport) || char_in "]" (drop_str (S e) hostport)
                then None
                else Some (String.substring 1 (e - 1) hostport, port)
              else None
          end
      | _ =>
          let host := String.substring 0 i hostport in
          if char_in ":" host || char_in "[" hostport || char_in "]" hostport then None
          else Some (host, port)
      end
  end.

(** [net.JoinHostPort] *)
Definition JoinHostPort (host port : string) : string :=
  if char_in ":" host then "[" +:+ host +:+ "]:" +:+ port else host +:+ ":" +:+ port.

(** The lines of a text as [bufio.Scanner] gives them: without their end, no
    empty line after the last one; [None] where a line does not fit its buffer. *)
Definition max_token : Z := 65536.
Definition drop_cr (s : string) : string := TrimSuffix s (byte 13).
Definition scan_lines (s : string) : list (option string) :=
  let parts := Split (Ascii.ascii_of_nat 10) s in
  let parts := match last parts with
               | Some EmptyString => removelast parts
               | _ => parts
               end in
  map (fun l => if (Z.of_nat (String.length l) <? max_token)%Z then Some (drop_cr l) else None) parts.

(** ** Lemmas *)

#[local] Arguments String.append : simpl nomatch.

Lemma Cut_app c x y : char_in c x = false -> Cut c (x +:+ String c y) = Some (x, y).
Proof.
  induction x as [|a x IH]; cbn [String.append char_in Cut]; intros H.
  - cbn. destruct (decide (c = c)); done.
  - boolp. destruct (decide (a = c)); [done|]. by rewrite IH.
Qed.

Lemma Cut_split c s x y : Cut c s = Some (x, y) -> s = x +:+ String c y /\ char_in c x = false.
Proof.
  revert x. induction s as [|a s IH]; intros x; cbn [Cut]; [done|].
  destruct (decide (a = c)) as [->|Hne]; [by intros [= <- <-]|].
  destruct (Cut c s) as [[x' y']|]; [|done]. intros [= <- <-].
  destruct (IH x') as [-> Hc]; [done|]. split; [done|].
  cbn [char_in]. rewrite bool_decide_eq_false_2 by done. done.
Qed.

Lemma Cut_none c s : Cut c s = None <-> char_in c s = false.
Proof.
  induction s as [|a s IH]; cbn [Cut char_in]; [done|].
  destruct (decide (a = c)) as [->|Hne].
  - rewrite bool_decide_eq_true_2 by done. done.
  - rewrite bool_decide_eq_false_2 by done. simpl. destruct (Cut c s) as [[]|]; naive_solver.
Qed.

(** ** Texts of graphic ASCII characters *)

Fixpoint all_chars (p : ascii -> bool) (s : string) : bool :=
  match s with
  | EmptyString => true
  | String a s' => p a && all_chars p s'
  end.

Definition is_graph (a : ascii) : bool :=
  let n := Ascii.nat_of_ascii a in ((33 <=? n) && (n <=? 126))%nat.

Lemma all_chars_app p s t : all_chars p (s +:+ t) = all_chars p s && all_chars p t.
Proof. induction s as [|a s IH]; simpl; [done|]. by rewrite IH, andb_assoc. Qed.

Lemma all_chars_impl (p q : ascii -> bool) s :
  (forall a, p a = true -> q a = true) -> all_chars p s = true -> all_chars q s = true.
Proof.
  intros H. induction s as [|a s IH]; simpl; [done|]. intros Hs. boolp.
  rewrite H, IH by done. done.
Qed.

Lemma all_chars_not_in p c s : p c = false -> all_chars p s = true -> char_in c s = false.
Proof.
  intros Hc. induction s as [|a s IH]; simpl; [done|]. intros Hs. boolp.
  rewrite IH by done. rewrite bool_decide_eq_false_2; [done|congruence].
Qed.

Lemma rev_app_spec s t : String.rev_app s t = String.rev_app s EmptyString +:+ t.
Proof.
  revert t. induction s as [|a s IH]; intros t; simpl; [done|].
  rewrite (IH (String a t)), (IH (String a EmptyString)), append_assoc. done.
Qed.

Lemma rev_cons a s : String.rev (String a s) = String.rev s +:+ String a EmptyString.
Proof. unfold String.rev. simpl. apply rev_app_spec. Qed.

Lemma rev_append s t : String.rev (s +:+ t) = String.rev t +:+ String.rev s.
Proof.
  induction s as [|a s IH]; simpl; [by rewrite append_nil_r|].
  by rewrite !rev_cons, IH, append_assoc.
Qed.

Lemma rev_involutive s : String.rev (String.rev s) = s.
Proof. induction s as [|a s IH]; [done|]. by rewrite rev_cons, rev_append, IH. Qed.

Lemma all_chars_rev p s : all_chars p (String.rev s) = all_chars p s.
Proof.
  induction s as [|a s IH]; [done|]. rewrite rev_cons, all_chars_app, IH. simpl.
  by rewrite andb_true_r, andb_comm.
Qed.

(** A rune that no graphic character starts is not stripped. *)
Definition starts_blank (r : string) : bool :=
  match r with String b _ => negb (is_graph b) | EmptyString => false end.

Lemma trim_left_graph runes n s :
  forallb starts_blank runes = true -> all_chars is_graph s = true -> trim_left runes n s = s.
Proof.
  intros Hr Hs. destruct n as [|n]; [done|]. cbn [trim_left].
  assert (strip_one runes s = None) as ->; [|done]. unfold strip_one.
  assert (filter (fun r => is_true (HasPrefix s r)) runes = []) as ->; [|done].
  induction runes as [|r runes IH]; [done|]. simpl in Hr. boolp.
  rewrite filter_cons_False; [by apply IH|]. unfold is_true, HasPrefix.
  destruct r as [|b r]; [done|]. destruct s as [|a s]; [done|].
  cbn [String.prefix]. destruct (Ascii.ascii_dec b a) as [->|]; [|done].
  simpl in *. boolp. congruence.
Qed.

Lemma TrimSpace_graph s : all_chars is_graph s = true -> TrimSpace s = s.
Proof.
  intros Hs. unfold TrimSpace. rewrite (trim_left_graph space_runes) by done.
  rewrite trim_left_graph; [apply rev_involutive|done|by rewrite all_chars_rev].
Qed.

(** ** [TrimSpace] strips runes from both ends until none is left *)

Lemma strip_one_Some runes s s' :
  strip_one runes s = Some s' -> exists r, r ∈ runes /\ s = r +:+ s'.
Proof.
  unfold strip_one. destruct (filter _ runes) as [|r l] eqn:E; [done|]. intros [= <-].
  assert (r ∈ filter (fun r => is_true (HasPrefix s r)) runes) as Hr by (rewrite E; left).
  apply list_elem_of_filter in Hr as [Hp Hr]. apply HasPrefix_spec in Hp as [t ->].
  exists r. by rewrite drop_str_append.
Qed.

Lemma strip_one_None runes s :
  strip_one runes s = None <-> forall r, r ∈ runes -> HasPrefix s r = false.
Proof.
  unfold strip_one. destruct (filter _ runes) as [|r l] eqn:E.
  - split; [|done]. intros _ r Hr. apply not_true_is_false. intros Hp.
    assert (r ∈ filter (fun r => is_true (HasPrefix s r)) runes) as Hin
      by (by apply list_elem_of_filter).
    rewrite E in Hin. by apply not_elem_of_nil in Hin.
  - split; [done|]. intros H.
    assert (r ∈ filter (fun r => is_true (HasPrefix s r)) runes) as Hr by (rewrite E; left).
    apply list_elem_of_filter in Hr as [Hp Hr]. unfold is_true in Hp. by rewrite H in Hp.
Qed.

(** What is stripped is made of the runes, so a property of the string that no
    rune has a part of stays. *)
Lemma trim_left_strips runes n s : exists p, s = p +:+ trim_left runes n s.
Proof.
  revert s. induction n as [|n IH]; intros s; [by exists EmptyString|]. simpl.
  destruct (strip_one runes s) as [s'|] eqn:E; [|by exists EmptyString].
  apply strip_one_Some in E as (r & _ & ->). destruct (IH s') as [p Hp].
  exists (r +:+ p). rewrite append_assoc. by rewrite <- Hp.
Qed.

Lemma trim_left_done runes n s :
  (forall r, r ∈ runes -> r <> EmptyString) -> (String.length s <= n)%nat ->
  strip_one runes (trim_left runes n s) = None.
Proof.
  intros Hne. revert s. induction n as [|n IH]; intros s Hn; simpl.
  - destruct (strip_one runes s) as [s'|] eqn:E; [|done].
    apply strip_one_Some in E as (r & Hr & ->). rewrite append_length in Hn.
    specialize (Hne r Hr). destruct r; simpl in *; [done|lia].
  - destruct (strip_one runes s) as [s'|] eqn:E; [|done]. apply IH.
    apply strip_one_Some in E as (r & Hr & ->). rewrite append_length in Hn.
    specialize (Hne r Hr). destruct r; simpl in *; [done|lia].
Qed.

Lemma trim_left_none runes n s : strip_one runes s = None -> trim_left runes n s = s.
Proof. intros H. destruct n as [|n]; simpl; [done|]. by rewrite H. Qed.

Lemma strip_one_prefix runes s t :
  strip_one runes (s +:+ t) = None -> strip_one runes s = None.
Proof.
  rewrite !strip_one_None. intros H r Hr. apply not_true_is_false.
  intros [u ->]%HasPrefix_spec. specialize (H r Hr).
  by rewrite append_assoc, HasPrefix_append in H.
Qed.

Definition nonempty_str (r : string) : bool := negb (bool_decide (r = EmptyString)).

Lemma nonempty_runes runes :
  forallb nonempty_str runes = true -> forall r, r ∈ runes -> r <> EmptyString.
Proof.
  intros H r Hr%list_elem_of_In. rewrite forallb_forall in H. specialize (H r Hr).
  unfold nonempty_str in H. by boolp.
Qed.

Lemma TrimSpace_idem s : TrimSpace (TrimSpace s) = TrimSpace s.
Proof.
  set (R := map String.rev space_runes).
  set (l := trim_left space_runes (String.length s) s).
  set (r := trim_left R (String.length l) (String.rev l)).
  assert (TrimSpace s = String.rev r) as -> by done.
  assert (strip_one space_runes (String.rev r) = None) as Hl.
  { destruct (trim_left_strips R (String.length l) (String.rev l)) as [p Hp].
    apply (f_equal String.rev) in Hp. rewrite rev_involutive, rev_append in Hp. fold r in Hp.
    apply (strip_one_prefix _ _ (String.rev p)). rewrite <- Hp.
    apply trim_left_done; [|done]. by apply nonempty_runes. }
  assert (strip_one R r = None) as Hr.
  { apply trim_left_done; [by apply nonempty_runes|]. clear.
    induction l as [|a l IH]; [done|]. rewrite rev_cons, append_length. simpl. lia. }
  unfold TrimSpace. rewrite (trim_left_none space_runes _ _ Hl), rev_involutive.
  by rewrite (trim_left_none R _ _ Hr).
Qed.

Definition no_graph (s : string) : bool := all_chars (fun a => negb (is_graph a)) s.

Lemma trim_left_keeps runes n s :
  forallb no_graph runes = true -> no_graph (trim_left runes n s) = no_graph s.
Proof.
  intros H. revert s. induction n as [|n IH]; intros s; [done|]. simpl.
  destruct (strip_one runes s) as [s'|] eqn:E; [|done]. rewrite IH.
  apply strip_one_Some in E as (r & Hr%list_elem_of_In & ->).
  rewrite forallb_forall in H. unfold no_graph in *. by rewrite all_chars_app, (H r Hr).
Qed.

Lemma TrimSpace_nonblank s : no_graph s = false -> TrimSpace s <> EmptyString.
Proof.
  intros H E. apply (f_equal no_graph) in E. revert E. unfold TrimSpace, no_graph at 1.
  rewrite all_chars_rev. change (all_chars _ ?x) with (no_graph x).
  rewrite trim_left_keeps by done. unfold no_graph at 1.
  rewrite all_chars_rev. change (all_chars _ ?x) with (no_graph x).
  rewrite trim_left_keeps, H by done. done.
Qed.

(** ** Decimal numbers: [Atoi] reads what [Itoa] writes *)

Lemma digit_value_char (d : N) :
  (d < 10)%N -> digit_value (pretty_N_char d) = Some (Z.of_N d).
Proof.
  intros H. assert (d ∈ [0; 1; 2; 3; 4; 5; 6; 7; 8; 9]%N) as Hd by (rewrite !elem_of_cons; lia).
  rewrite !elem_of_cons, elem_of_nil in Hd. naive_solver.
Qed.

Lemma digits_value_go (x : N) s :
  digits_value 0 (pretty_N_go x s) = digits_value (Z.of_N x) s.
Proof.
  revert s. induction (N.lt_wf_0 x) as [x _ IH]; intros s.
  destruct (decide (0 < x)%N) as [Hx|Hx].
  - rewrite pretty_N_go_step by done. rewrite IH by (apply N.div_lt; lia).
    cbn [digits_value]. rewrite digit_value_char by (apply N.mod_lt; lia). cbn.
    f_equal. rewrite (N.div_mod x 10) at 3 by lia. lia.
  - assert (x = 0%N) as -> by lia. by rewrite pretty_N_go_0.
Qed.

Lemma pretty_pos_head (p : positive) : exists a s, pretty p = String a s /\ a <> "-"%char /\ a <> "+"%char.
Proof.
  assert (digits_value 0 (pretty p) = Some (Zpos p)) as H.
  { change (pretty p) with (pretty_N (Npos p)). unfold pretty_N.
    destruct (decide (Npos p = 0%N)); [lia|]. by rewrite digits_value_go. }
  destruct (pretty p) as [|a s]; [simpl in H; congruence|].
  exists a, s. split; [done|]. split; intros ->; vm_compute in H; discriminate.
Qed.

Lemma Atoi_Itoa n : (int64_min <= n <= int64_max)%Z -> Atoi (Itoa n) = Some n.
Proof.
  intros Hn.
  assert (forall p : positive, digits_value 0 (pretty p) = Some (Zpos p)) as Hd.
  { intros p. change (pretty p) with (pretty_N (Npos p)). unfold pretty_N.
    destruct (decide (Npos p = 0%N)); [lia|]. by rewrite digits_value_go. }
  unfold Itoa. destruct n as [|p|p]; [done| |].
  - change (pretty (Z.pos p)) with (pretty p). destruct (pretty_pos_head p) as (a & s & Hp & H1 & H2).
    specialize (Hd p). rewrite Hp in Hd |- *. unfold Atoi.
    destruct (decide (a = "-"%char)), (decide (a = "+"%char)); try done.
    rewrite Hd. cbn [mbind option_bind]. unfold in_range. by rewrite bool_decide_eq_true_2.
  - change (pretty (Z.neg p)) with (String "-" (pretty p)). unfold Atoi.
    destruct (decide ("-"%char = "-"%char)); [|done].
    destruct (pretty_pos_head p) as (a & s & Hp & _).
    destruct (decide (pretty p = EmptyString)); [congruence|].
    rewrite Hd. cbn [mbind option_bind]. unfold in_range. by rewrite bool_decide_eq_true_2.
Qed.
