(* ===== verification/Effects.v ===== *)
(** * Effects of the services that keep their own state

    The components around the engine (clients, caches, registries, managers)
    keep tables and structures of their own. Their functions run in [Svc T]:
    explicit passing of the component's state [T] and of a counter of the uses
    of the environment, with Go errors as results. A statement of the database
    can fail by [fault], [time.Now] reads the wall clock, and a call of code
    outside the repository is a function of the counter. The rules at the end
    say what a program does to the state when its parts succeed or fail. *)

From S2P Require Import Prelude GoStrings Json EngineTypes Store TaskForms.

(** ** Durations and times *)

Definition Millisecond : Z := 1000000.
Definition Minute : Z := 60 * Second.

(** ** The monad *)

Record Sys (T : Type) : Type := mkSys { st : T; ticks : nat }.
Arguments mkSys {T} st ticks.
Arguments st {T} s.
Arguments ticks {T} s.

Definition Svc (T A : Type) : Type := Sys T -> result goerr A * Sys T.

#[export] Instance Svc_ret {T} : MRet (Svc T) := fun A a w => (Ok a, w).
#[export] Instance Svc_bind {T} : MBind (Svc T) :=
  fun A B f m w => match m w with
                   | (Ok a, w') => f a w'
                   | (Err e, w') => (Err e, w')
                   end.
#[export] Instance Svc_fmap {T} : FMap (Svc T) :=
  fun A B f m w => match m w with
                   | (Ok a, w') => (Ok (f a), w')
                   | (Err e, w') => (Err e, w')
                   end.

Definition fail {T A} (e : goerr) : Svc T A := fun w => (Err e, w).
Definition pureS {T A} (r : result goerr A) : Svc T A := fun w => (r, w).

(** A read or a change of structures in memory: it cannot fail. *)
Definition reads {T A} (f : T -> A) : Svc T A := fun w => (Ok (f (st w)), w).
Definition changes {T} (f : T -> T) : Svc T unit := fun w => (Ok tt, mkSys (f (st w)) (ticks w)).

Definition wrapS {T A} (f : goerr -> goerr) (m : Svc T A) : Svc T A := fun w =>
  match m w with
  | (Ok a, w') => (Ok a, w')
  | (Err e, w') => (Err (f e), w')
  end.

Definition tryS {T A} (m : Svc T A) : Svc T (result goerr A) := fun w =>
  match m w with (r, w') => (Ok r, w') end.
Definition ignoreS {T A} (m : Svc T A) : Svc T unit := fun w => (Ok tt, (m w).2).

(** [if err := m; err != nil { handler; return err }] *)
Definition on_error {T A} (m : Svc T A) (handler : goerr -> Svc T unit) : Svc T A := fun w =>
  match m w with
  | (Ok a, w') => (Ok a, w')
  | (Err e, w') => (Err e, (handler e w').2)
  end.

(** [if cond { return ..., err }] *)
Definition guardS {T} (ok : bool) (e : goerr) : Svc T unit :=
  if ok then mret tt else fail e.

Fixpoint forS {T A} (f : A -> Svc T unit) (l : list A) : Svc T unit :=
  match l with
  | [] => mret tt
  | a :: l' => _ ← f a; forS f l'
  end.

Fixpoint mapS {T A B} (f : A -> Svc T B) (l : list A) : Svc T (list B) :=
  match l with
  | [] => mret []
  | a :: l' => b ← f a; bs ← mapS f l'; mret (b :: bs)
  end.

Fixpoint foldS {T S A} (f : S -> A -> Svc T S) (l : list A) (s : S) : Svc T S :=
  match l with
  | [] => mret s
  | a :: l' => s' ← f s a; foldS f l' s'
  end.

Section Environment.
Context `{R : Runtime} {T : Type}.

(** One statement, outside a transaction: [now()] is its own time. *)
Definition exec {A} (run : nat -> Z -> T -> result goerr (A * T)) : Svc T A := fun w =>
  match fault (ticks w) with
  | Some e => (Err e, mkSys (st w) (S (ticks w)))
  | None =>
      match run (ticks w) (db_now (ticks w)) (st w) with
      | Ok (a, t) => (Ok a, mkSys t (S (ticks w)))
      | Err e => (Err e, mkSys (st w) (S (ticks w)))
      end
  end.

Definition exec_update (f : Z -> T -> T) : Svc T unit := exec (fun _ now t => Ok (tt, f now t)).
Definition select {A} (f : Z -> T -> A) : Svc T A := exec (fun _ now t => Ok (f now t, t)).
Definition select_row {A} (f : Z -> T -> option A) : Svc T A :=
  exec (fun _ now t => match f now t with Some a => Ok (a, t) | None => Err ErrNoRows end).

(** [time.Now()] *)
Definition nowS : Svc T Z := fun w => (Ok (wall_clock (ticks w)), mkSys (st w) (S (ticks w))).

(** A call of code outside the repository, which leaves the state alone. *)
Definition callS {A} (f : nat -> result goerr A) : Svc T A := fun w =>
  (f (ticks w), mkSys (st w) (S (ticks w))).

(** A transaction: [BeginTx], the body with the time of the transaction, and
    [Commit]. What is not committed is rolled back. The body says how an error of
    the commit is reported. *)
Definition transactS {A} (begin_fmt : string) (body : Z -> Svc T (A * string)) : Svc T A := fun w =>
  match fault (ticks w) with
  | Some e => (Err (Wrapf begin_fmt [] e), mkSys (st w) (S (ticks w)))
  | None =>
      match body (db_now (ticks w)) (mkSys (st w) (S (ticks w))) with
      | (Err e, w1) => (Err e, mkSys (st w) (ticks w1))
      | (Ok (a, commit_fmt), w1) =>
          match fault (ticks w1) with
          | Some e => (Err (Wrapf commit_fmt [] e), mkSys (st w) (S (ticks w1)))
          | None => (Ok a, mkSys (st w1) (S (ticks w1)))
          end
      end
  end.

(** ** Rules *)

Lemma transactS_Err {A} fmt (body : Z -> Svc T (A * string)) w e w' :
  transactS fmt body w = (Err e, w') -> st w' = st w.
Proof. unfold transactS. intros H. repeat dmatch; by simplify_eq. Qed.

Lemma transactS_inv {A} fmt (body : Z -> Svc T (A * string)) w a w' :
  transactS fmt body w = (Ok a, w') ->
  exists commit w1, body (db_now (ticks w)) (mkSys (st w) (S (ticks w))) = (Ok (a, commit), w1) /\
    st w' = st w1.
Proof.
  unfold transactS. intros H. destruct (fault (ticks w)); [done|].
  destruct (body _ _) as [[[b commit]|e] w1]; [|done].
  destruct (fault (ticks w1)); [done|]. simplify_eq. by exists commit, w1.
Qed.

Lemma bindS_Ok {A B} (m : Svc T A) (f : A -> Svc T B) w a w' :
  m w = (Ok a, w') -> (m ≫= f) w = f a w'.
Proof. intros H. unfold mbind, Svc_bind. by rewrite H. Qed.

Lemma bindS_Err {A B} (m : Svc T A) (f : A -> Svc T B) w e w' :
  m w = (Err e, w') -> (m ≫= f) w = (Err e, w').
Proof. intros H. unfold mbind, Svc_bind. by rewrite H. Qed.

Lemma bindS_inv {A B} (m : Svc T A) (f : A -> Svc T B) w b w' :
  (m ≫= f) w = (Ok b, w') -> exists a w1, m w = (Ok a, w1) /\ f a w1 = (Ok b, w').
Proof.
  unfold mbind, Svc_bind. destruct (m w) as [[a|e] w1] eqn:E; [|done].
  intros H. by exists a, w1.
Qed.

Lemma wrapS_Ok {A} f (m : Svc T A) w a w' :
  m w = (Ok a, w') -> wrapS f m w = (Ok a, w').
Proof. intros H. unfold wrapS. by rewrite H. Qed.

Lemma wrapS_inv {A} f (m : Svc T A) w a w' :
  wrapS f m w = (Ok a, w') -> m w = (Ok a, w').
Proof. unfold wrapS. destruct (m w) as [[?|?] ?]; [done|discriminate]. Qed.

Lemma wrapS_state {A} f (m : Svc T A) w : (wrapS f m w).2 = (m w).2.
Proof. unfold wrapS. by destruct (m w) as [[?|?] ?]. Qed.

Lemma exec_Ok {A} (run : nat -> Z -> T -> result goerr (A * T)) w a t :
  fault (ticks w) = None -> run (ticks w) (db_now (ticks w)) (st w) = Ok (a, t) ->
  exec run w = (Ok a, mkSys t (S (ticks w))).
Proof. intros Hf Hr. unfold exec. by rewrite Hf, Hr. Qed.

(** ** Invariants: a program that relates the states before and after *)

Section Keep.
Context (P : T -> T -> Prop) `{HP : !PreOrder P}.

Definition keepsS {A} (m : Svc T A) : Prop := forall w, P (st w) (st (m w).2).

Lemma keepsS_ret {A} (a : A) : keepsS (mret a).
Proof. intros w. reflexivity. Qed.
Lemma keepsS_fail {A} e : keepsS (fail e : Svc T A).
Proof. intros w. reflexivity. Qed.
Lemma keepsS_pure {A} (r : result goerr A) : keepsS (pureS r).
Proof. intros w. reflexivity. Qed.
Lemma keepsS_reads {A} (f : T -> A) : keepsS (reads f).
Proof. intros w. reflexivity. Qed.
Lemma keepsS_now : keepsS nowS.
Proof. intros w. simpl. reflexivity. Qed.
Lemma keepsS_call {A} (f : nat -> result goerr A) : keepsS (callS f).
Proof. intros w. simpl. reflexivity. Qed.
Lemma keepsS_guard ok e : keepsS (guardS ok e).
Proof. destruct ok; [apply keepsS_ret|apply keepsS_fail]. Qed.

Lemma keepsS_changes f : (forall t, P t (f t)) -> keepsS (changes f).
Proof. intros Hf w. apply Hf. Qed.

Lemma keepsS_bind {A B} (m : Svc T A) (f : A -> Svc T B) :
  keepsS m -> (forall a, keepsS (f a)) -> keepsS (m ≫= f).
Proof.
  intros Hm Hf w. specialize (Hm w). unfold mbind, Svc_bind.
  destruct (m w) as [[a|e] w1]; simpl in *; [|done]. etrans; [done|apply Hf].
Qed.

(** The continuation may rely on what the first part returns. *)
Lemma keepsS_bind_post {A B} (m : Svc T A) (f : A -> Svc T B) :
  keepsS m -> (forall w a w', m w = (Ok a, w') -> keepsS (f a)) -> keepsS (m ≫= f).
Proof.
  intros Hm Hf w. specialize (Hm w). unfold mbind, Svc_bind.
  destruct (m w) as [[a|e] w1] eqn:E; simpl in *; [|done]. etrans; [done|by eapply Hf].
Qed.

Lemma keepsS_fmap {A B} (f : A -> B) (m : Svc T A) : keepsS m -> keepsS (f <$> m).
Proof. intros Hm w. specialize (Hm w). unfold fmap, Svc_fmap. by destruct (m w) as [[a|e] w1]. Qed.

Lemma keepsS_wrap {A} g (m : Svc T A) : keepsS m -> keepsS (wrapS g m).
Proof. intros Hm w. rewrite wrapS_state. apply Hm. Qed.

Lemma keepsS_try {A} (m : Svc T A) : keepsS m -> keepsS (tryS m).
Proof. intros Hm w. specialize (Hm w). unfold tryS. by destruct (m w). Qed.

Lemma keepsS_ignore {A} (m : Svc T A) : keepsS m -> keepsS (ignoreS m).
Proof. intros Hm w. apply Hm. Qed.

Lemma keepsS_on_error {A} (m : Svc T A) h :
  keepsS m -> (forall e, keepsS (h e)) -> keepsS (on_error m h).
Proof.
  intros Hm Hh w. specialize (Hm w). unfold on_error.
  destruct (m w) as [[a|e] w1]; simpl in *; [done|]. etrans; [done|apply Hh].
Qed.

Lemma keepsS_for {A} (f : A -> Svc T unit) l : (forall a, keepsS (f a)) -> keepsS (forS f l).
Proof.
  intros Hf. induction l as [|a l IH]; [apply keepsS_ret|].
  apply keepsS_bind; [apply Hf|done].
Qed.

Lemma keepsS_fold {S A} (f : S -> A -> Svc T S) l s :
  (forall s a, a ∈ l -> keepsS (f s a)) -> keepsS (foldS f l s).
Proof.
  revert s. induction l as [|a l IH]; intros s Hf; [apply keepsS_ret|].
  apply keepsS_bind; [apply Hf; by left|]. intros s'. apply IH. intros s'' b Hb. apply Hf. by right.
Qed.

Lemma keepsS_exec {A} (run : nat -> Z -> T -> result goerr (A * T)) :
  (forall k now t a t', run k now t = Ok (a, t') -> P t t') -> keepsS (exec run).
Proof.
  intros Hr w. unfold exec. destruct (fault (ticks w)); [simpl; reflexivity|].
  destruct (run _ _ _) as [[a t]|e] eqn:E; simpl; [by eapply Hr|reflexivity].
Qed.

Lemma keepsS_transact {A} fmt (body : Z -> Svc T (A * string)) :
  (forall now, keepsS (body now)) -> keepsS (transactS fmt body).
Proof.
  intros Hb w. unfold transactS. destruct (fault (ticks w)); [simpl; reflexivity|].
  pose proof (Hb (db_now (ticks w)) (mkSys (st w) (S (ticks w)))) as H.
  destruct (body _ _) as [[[a c]|e] w1]; [|simpl; reflexivity].
  destruct (fault (ticks w1)); simpl in *; [reflexivity|done].
Qed.

Lemma keepsS_update f : (forall now t, P t (f now t)) -> keepsS (exec_update f).
Proof. intros Hf. apply keepsS_exec. intros k now t a t' [= _ <-]. apply Hf. Qed.

Lemma keepsS_select {A} (f : Z -> T -> A) : keepsS (select f).
Proof. apply keepsS_exec. intros k now t a t' [= _ <-]. reflexivity. Qed.

Lemma keepsS_select_row {A} (f : Z -> T -> option A) : keepsS (select_row f).
Proof.
  apply keepsS_exec. intros k now t a t'. destruct (f now t); intros [= _ <-]. reflexivity.
Qed.
End Keep.

End Environment.

(** Follow the structure of a program down to its statements. *)
Ltac keeps_step :=
  lazymatch goal with
  | |- PreOrder _ => exact _
  | |- forall _, _ => intro
  | |- keepsS _ (mret _) => apply keepsS_ret
  | |- keepsS _ (fail _) => apply keepsS_fail
  | |- keepsS _ (pureS _) => apply keepsS_pure
  | |- keepsS _ (reads _) => apply keepsS_reads
  | |- keepsS _ nowS => apply keepsS_now
  | |- keepsS _ (callS _) => apply keepsS_call
  | |- keepsS _ (guardS _ _) => apply keepsS_guard
  | |- keepsS _ (wrapS _ _) => apply keepsS_wrap
  | |- keepsS _ (tryS _) => apply keepsS_try
  | |- keepsS _ (ignoreS _) => apply keepsS_ignore
  | |- keepsS _ (on_error _ _) => apply keepsS_on_error
  | |- keepsS _ (_ <$> _) => apply keepsS_fmap
  | |- keepsS _ (select _) => apply keepsS_select
  | |- keepsS _ (select_row _) => apply keepsS_select_row
  | |- keepsS _ (forS _ _) => apply keepsS_for
  | |- keepsS _ (transactS _ _) => apply keepsS_transact
  | |- keepsS _ (_ ≫= _) => apply keepsS_bind
  | |- keepsS _ (match _ with _ => _ end) => case_match
  end.
Ltac keeps_steps := repeat keeps_step.
