(* ===== verification/TaskCompletion.v ===== *)
(** * Reading and completing human tasks ([internal/tasks])

    [GetTask], [Inbox], [CompleteTask] with its wait for agent tasks,
    [HandleOverdue] and the executor of human tasks. Notifications and metrics
    are not modelled. Sleeping passes one tick of the environment per
    microsecond; a clock that moves by at least that much per tick makes the
    wait end. *)

From S2P Require Import Prelude GoStrings Json EngineTypes EngineAst Store AuditTrail EngineOps TaskForms TaskOps.
From S2P Require Import GoText Effects.

(** ** Decoding configurations *)

Definition dec_opt {A} (dec : json -> result goerr A) (j : json) : result goerr (option A) :=
  match j with
  | JNull => Ok None
  | _ => a ← dec j; Ok (Some a)
  end.

Definition dec_float (j : json) : result goerr Qc :=
  match j with JNum q => Ok q | _ => Err (unmarshal_type_error "float64") end.

(** A struct: [null] leaves the zero value. *)
Definition dec_struct {A} (zero : A) (dec : object -> result goerr A) (j : json) : result goerr A :=
  match j with
  | JObj m => dec m
  | JNull => Ok zero
  | _ => Err (unmarshal_type_error "struct")
  end.

Definition zeroFormField : FormField :=
  mkFormField EmptyString EmptyString EmptyString EmptyString false false [] EmptyString None None None None.
Definition dec_FormField : json -> result goerr FormField :=
  dec_struct zeroFormField (fun m =>
    id ← dec_field "id" dec_string EmptyString m;
    bind ← dec_field "bind" dec_string EmptyString m;
    label ← dec_field "label" dec_string EmptyString m;
    type ← dec_field "type" dec_string EmptyString m;
    ro ← dec_field "readonly" dec_bool false m;
    rq ← dec_field "required" dec_bool false m;
    opts ← dec_field "options" (dec_list dec_string) [] m;
    from ← dec_field "options_from" dec_string EmptyString m;
    minl ← dec_field "min_length" (dec_opt dec_int) None m;
    maxl ← dec_field "max_length" (dec_opt dec_int) None m;
    min ← dec_field "min" (dec_opt dec_float) None m;
    max ← dec_field "max" (dec_opt dec_float) None m;
    Ok (mkFormField id bind label type ro rq opts from minl maxl min max)).

Definition dec_FormAction : json -> result goerr FormAction :=
  dec_struct (mkFormAction EmptyString EmptyString EmptyString []) (fun m =>
    label ← dec_field "label" dec_string EmptyString m;
    value ← dec_field "value" dec_string EmptyString m;
    style ← dec_field "style" dec_string EmptyString m;
    reqs ← dec_field "requires" (dec_list dec_string) [] m;
    Ok (mkFormAction label value style reqs)).

Definition dec_FormSection : json -> result goerr FormSection :=
  dec_struct (mkFormSection EmptyString []) (fun m =>
    sec ← dec_field "section" dec_string EmptyString m;
    fields ← dec_field "fields" (dec_list dec_FormField) [] m;
    Ok (mkFormSection sec fields)).

Definition emptyFormSchema : FormSchema := mkFormSchema EmptyString [] [] [].
Definition dec_FormSchema : json -> result goerr FormSchema :=
  dec_struct emptyFormSchema (fun m =>
    title ← dec_field "title" dec_string EmptyString m;
    layout ← dec_field "layout" (dec_list dec_FormSection) [] m;
    actions ← dec_field "actions" (dec_list dec_FormAction) [] m;
    fields ← dec_field "fields" (dec_list dec_FormField) [] m;
    Ok (mkFormSchema title layout actions fields)).

Definition noEscalation : EscalationConfig := mkEscalationConfig 0 EmptyString EmptyString.
Definition dec_EscalationConfig : json -> result goerr EscalationConfig :=
  dec_struct noEscalation (fun m =>
    h ← dec_field "after_hours" dec_int 0 m;
    r ← dec_field "to_role" dec_string EmptyString m;
    a ← dec_field "action" dec_string EmptyString m;
    Ok (mkEscalationConfig h r a)).

Definition dec_map (j : json) : result goerr object :=
  o ← dec_object j; Ok (default [] o).

Definition emptyAssignment : AssignmentConfig :=
  mkAssignmentConfig EmptyString EmptyString 0 noEscalation EmptyString emptyFormSchema [] [].
Definition dec_AssignmentConfig : json -> result goerr AssignmentConfig :=
  dec_struct emptyAssignment (fun m =>
    role ← dec_field "assign_to_role" dec_string EmptyString m;
    user ← dec_field "assign_to_user" dec_string EmptyString m;
    sla ← dec_field "sla_hours" dec_int 0 m;
    esc ← dec_field "escalation" dec_EscalationConfig noEscalation m;
    form ← dec_field "form" dec_string EmptyString m;
    schema ← dec_field "form_schema" dec_FormSchema emptyFormSchema m;
    outcomes ← dec_field "outcomes" (dec_list dec_string) [] m;
    meta ← dec_field "metadata" dec_map [] m;
    Ok (mkAssignmentConfig role user sla esc form schema outcomes meta)).

(** ** Forms *)

Definition decision_entry (data : object) (out : object) (field : FormField) : object :=
  if negb (HasPrefix (ffBind field) "decision.") then out
  else
    let writePath := TrimPrefix (ffBind field) "decision." in
    if decide (writePath = EmptyString) then out
    else
      let readPath := formFieldDataPath field in
      let readPath := if decide (readPath = EmptyString) then writePath else readPath in
      match getAtPath data readPath with
      | Some val => setAtPath out writePath val
      | None => out
      end.

(** Values are copied here. The source stores references: when a field is bound below
    an object that an earlier field took from the payload, writing it also changes the
    payload, which the event of the completion then records; with forms whose bindings
    do not overlap nothing of this shows. *)
Definition buildDecisionPatch (schema : FormSchema) (data : object) : object :=
  foldl (decision_entry data) [] (flattenFormFields schema).

Definition configuredFormSchema (metadata : object) : FormSchema :=
  match obj_get "form_schema" metadata with
  | None => emptyFormSchema
  | Some raw => match dec_FormSchema raw with Ok s => s | Err _ => emptyFormSchema end
  end.

(** ** Reading a task *)

Record TaskDetail : Type := mkTaskDetail {
  tdStepType : string;
  tdCaseNumber : string;
  tdCaseType : string;
  tdCaseData : object;
  tdStepState : step_state;
  tdAssignedTo : option uuid;
  tdResult : json;
  tdDraftData : json;
  tdForm : string;
  tdFormSchema : FormSchema;
  tdOutcomes : list string;
  tdStepResults : list (string * json);
  tdMetadata : object;
  tdStartedAt : option Z;
  tdSLADeadline : option Z;
  tdSLAStatus : sla_status
}.

Record CompleteTaskRequest : Type := mkCompleteTaskRequest {
  reqOutcome : string;
  reqData : option object
}.

Definition ErrAlreadyCompleted : goerr := Errorf "task already completed" [].
Definition ErrInvalidOutcome : goerr := Errorf "invalid outcome" [].

Section Completion.
Context `{R : Runtime}.
Context (fmtFloat : Qc -> string) (uuid_parse : string -> option uuid) (sysActor : uuid).

Definition lookupCaseNumber (tenantID caseID : uuid) : M string :=
  query_row (fun _ d => c ← cases d !! caseID;
                        if decide (cTenant c = tenantID) then Some (cNumber c) else None).

Definition lookupCaseAssignee (tenantID caseID : uuid) : M (option uuid) :=
  query_row (fun _ d => c ← cases d !! caseID;
                        if decide (cTenant c = tenantID) then Some (cAssignedTo c) else None).

Definition lookupStepRole (tenantID caseID : uuid) (stepID : string) : M string :=
  query_row (fun _ d => row_role <$> tenant_row d tenantID caseID stepID).

Fixpoint find_step (stepID : string) (steps : list WorkflowStep) : result goerr WorkflowStep :=
  match steps with
  | [] => Err ErrNoRows
  | s :: rest => if decide (EngineTypes.stepID s = stepID) then Ok s else find_step stepID rest
  end.

Definition loadWorkflowStep (caseID : uuid) (stepID : string) : M WorkflowStep :=
  raw ← query_row (fun _ d => workflow_ast_of caseID d);
  ast ← lift (decodeWorkflowAST raw);
  lift (find_step stepID ast).

(** The row of a task joined with its case and the case type. *)
Definition task_row (tenantID caseID : uuid) (stepID : string) (d : DB)
    : option (CaseRow * CaseTypeRow * StepRow) :=
  c ← cases d !! caseID;
  ct ← case_types d !! cCaseType c;
  r ← tenant_row d tenantID caseID stepID;
  Some (c, ct, r).

Definition completed_results (tenantID caseID : uuid) (d : DB) : list (string * json) :=
  match cases d !! caseID with
  | Some c => if decide (cTenant c = tenantID)
              then map (fun kr => (kr.1, coalesce_obj (sResult kr.2)))
                     (filter (fun kr => sState kr.2 = StateCompleted) (step_rows caseID d))
              else []
  | None => []
  end.

(** What the step of the workflow adds to a task: its type, outcomes and form. *)
Definition step_part (caseID : uuid) (stepID : string)
    : M (string * list string * string * FormSchema) :=
  step ← tryM (loadWorkflowStep caseID stepID);
  match step with
  | Err _ => mret (EmptyString, [], EmptyString, emptyFormSchema)
  | Ok step =>
      cfg ← wrapM (Wrapf "decode workflow step config: %w" [])
              (lift match stepConfig step with
                    | Some j => dec_AssignmentConfig j
                    | None => Err (Errorf "unexpected end of JSON input" [])
                    end);
      mret (stepType step, SliceStable str_ltb (map fst (map_to_list (stepOutcomes step))),
            acForm cfg, acFormSchema cfg)
  end.

Definition meta_form (form : string) (metadata : object) : string :=
  if decide (form = EmptyString)
  then match obj_get "form" metadata with Some (JStr v) => v | _ => form end
  else form.

Definition GetTask (tenantID caseID : uuid) (stepID : string) : M TaskDetail :=
  '(c, ct, r) ← query_row (fun _ d => task_row tenantID caseID stepID d);
  caseData ← wrapM (Wrapf "decode case data for task detail: %w" []) (lift (dec_map (cData c)));
  metadata ← wrapM (Wrapf "decode task metadata: %w" []) (lift (dec_map (coalesce_obj (sMetadata r))));
  '(ty, outcomes, form, schema) ← step_part caseID stepID;
  let outcomes := match configuredOutcomes metadata with [] => outcomes | l => l end in
  let metaSchema := configuredFormSchema metadata in
  let '(form, schema) := if hasFormSchemaContent metaSchema
                         then (meta_form form metadata, metaSchema) else (form, schema) in
  results ← wrapM (Wrapf "query completed step results: %w" [])
              (query (fun _ d => completed_results tenantID caseID d));
  now ← time_Now;
  mret (mkTaskDetail ty (cNumber c) (ctName ct) caseData (sState r) (sAssignedTo r)
          (coalesce_obj (sResult r)) (default JNull (sDraftData r)) form schema outcomes results metadata
          (sStartedAt r) (sSlaDeadline r)
          (SLAStatus now (sSlaDeadline r) (sStartedAt r) (extractSLAHours (coalesce_obj (sMetadata r))))).

(** ** The inbox *)

Definition in_inbox (tenantID principalID : uuid) (d : DB) (c : CaseRow) (r : StepRow) : bool :=
  is_active r && bool_decide (cTenant c = tenantID) &&
  (bool_decide (sAssignedTo r = Some principalID) ||
   (unassigned r && has_role d principalID tenantID (row_role r))).

Definition inbox_rows (tenantID principalID : uuid) (d : DB) : list (uuid * string * CaseRow * StepRow) :=
  omap (fun kr : (uuid * string) * StepRow =>
    match cases d !! kr.1.1 with
    | Some c => match case_types d !! cCaseType c with
                | Some _ => if in_inbox tenantID principalID d c kr.2
                            then Some (kr.1.1, kr.1.2, c, kr.2) else None
                | None => None
                end
    | None => None
    end) (map_to_list (case_steps d)).

Definition inbox_task (x : uuid * string * CaseRow * StepRow) : InboxTask :=
  let '(caseID, stepID, c, r) := x in
  mkInboxTask stepID (cPriority c) (sStartedAt r) (sSlaDeadline r)
    (extractSLAHours (coalesce_obj (sMetadata r))).

(** The tasks of a user; the query's own order is settled again by the sort. *)
Definition Inbox (tenantID principalID : uuid) : M (list InboxTask) :=
  rows ← wrapM (Wrapf "query inbox tasks: %w" [])
           (query (fun _ d => inbox_rows tenantID principalID d));
  now ← time_Now;
  mret (SliceStable (fun a b => inboxLess a b now) (map inbox_task rows)).

(** ** Completion *)

(** [time.Sleep(d)] *)
Definition time_Sleep (d : Z) : M unit := fun w =>
  (Ok tt, mkWorld (db w) (saved w) (Z.to_nat (d / Microsecond) + tick w) (txStart w)
            (pending w) (published w) (jobs w)).

Definition poll_interval : Z := 50 * Millisecond.

(** The loop at the start of [CompleteTask]; [None] when the fuel runs out. *)
Fixpoint await_task (fuel : nat) (deadline : Z) (tenantID principalID caseID : uuid)
    (stepID outcome : string) : M (option TaskDetail) :=
  match fuel with
  | O => mret None
  | S f =>
      d ← GetTask tenantID caseID stepID;
      if decide (tdStepState d = StateCompleted) then throw ErrAlreadyCompleted
      else
        let assigned := bool_decide (tdAssignedTo d = Some principalID) in
        if assigned && contains (tdOutcomes d) outcome then mret (Some d)
        else
          now ← time_Now;
          if bool_decide (tdStepType d = "agent") && bool_decide (tdStepState d = StateActive) &&
             (now <? deadline)
          then _ ← time_Sleep poll_interval;
               await_task f deadline tenantID principalID caseID stepID outcome
          else if negb assigned then throw ErrForbidden else throw ErrInvalidOutcome
  end.

(** Two seconds at fifty milliseconds a poll. *)
Definition poll_fuel : nat := 42.

(** The data of the request, which may be absent ([nil]); accepting an agent
    review without data takes over the output of the agent. *)
Definition task_payload (d : TaskDetail) (req : CompleteTaskRequest) : option object :=
  match reqData req with
  | None | Some [] =>
      if bool_decide (tdForm d = "agent_review") && EqualFold (reqOutcome req) "accept"
      then Some (extractAgentOriginalOutput (tdMetadata d)) else reqData req
  | data => data
  end.

Definition payload_map (payload : option object) : object := default [] payload.
Definition payload_json (payload : option object) : json :=
  match payload with Some m => JObj m | None => JNull end.

Definition form_errors (d : TaskDetail) (outcome : string) (payload : option object)
    : list ValidationError :=
  ValidateFormData fmtFloat (tdFormSchema d) (payload_map payload) ++
  ValidateActionRequirements (tdFormSchema d) outcome (payload_map payload).

Definition completion_result (outcome : string) (payload : option object) : json :=
  JObj (mk_obj [("outcome", JStr outcome); ("data", payload_json payload)]).

Definition complete_task_row (now : Z) (outcome : string) (payload : option object) (r : StepRow) : StepRow :=
  mkStepRow (sID r) StateCompleted (sStartedAt r) (Some now) (Some (completion_result outcome payload))
    (jsonb_concat (sEvents r)
       (JArr [JObj (mk_obj [("type", JStr "completed"); ("outcome", JStr outcome);
                            ("at", JStr (timestamptz_text now))])]))
    (sError r) (sAssignedTo r) (sSlaDeadline r) (sRetryCount r) None (sMetadata r).

Definition complete_task_update (tenantID principalID caseID : uuid) (stepID : string) (now : Z)
    (outcome : string) (payload : option object) (d : DB) : nat * DB :=
  match tenant_row d tenantID caseID stepID with
  | Some _ => update_step (caseID, stepID)
                (fun r => is_active r && bool_decide (sAssignedTo r = Some principalID))
                (complete_task_row now outcome payload) d
  | None => (0%nat, d)
  end.

(** The decisions of a form go under [decision] of the case data. *)
Definition decision_data (data : json) (patch : object) : json :=
  let old := match data with
             | JObj m => match obj_get "decision" m with Some (JObj o) => o | _ => [] end
             | _ => []
             end in
  jsonb_concat data (JObj [("decision", JObj (obj_union old patch))]).

Definition decide_case (id : uuid) (patch : object) (now : Z) (d : DB) : result goerr (nat * DB) :=
  match cases d !! id with
  | None => Ok (0%nat, d)
  | Some c =>
      if cVersion c =? int4_max then Err int4_error
      else Ok (1%nat, set_cases <[id :=
        mkCaseRow (cTenant c) (cCaseType c) (cNumber c) (cStatus c) (decision_data (cData c) patch)
          (cVersion c + 1) now (cAssignedTo c) (cPriority c) (cWorkflowID c) (cWorkflowVersion c)
          (cCreatedAt c) (cCreatedBy c) (cDueAt c)]> d)
  end.

(** The transaction of [CompleteTask]. *)
Definition complete_tx (tenantID principalID caseID : uuid) (stepID outcome : string)
    (schema : FormSchema) (payload : option object) : M unit :=
  with_tx (Wrapf "begin complete task tx: %w" []) (
    affected ← wrapM (Wrapf "update task completion: %w" [])
      (update (fun _ now d => complete_task_update tenantID principalID caseID stepID now outcome payload d));
    if decide (affected = 0%nat) then
      existing ← tryM (query_row (fun _ d => sState <$> case_steps d !! (caseID, stepID)));
      match existing with
      | Ok StateCompleted => throw ErrAlreadyCompleted
      | _ => throw ErrForbidden
      end
    else
      _ ← match buildDecisionPatch schema (payload_map payload) with
          | [] => touch "touch case completion: %w" caseID
          | patch => wrapM (Wrapf "update case decision data from task: %w" [])
                       (sql (fun _ now d => decide_case caseID patch now d))
          end;
      _ ← RecordCaseEventTx caseID stepID "task" principalID "human" "completed"
            (completion_result outcome payload);
      wrapM (Wrapf "commit complete task tx: %w" []) commit_tx).

Definition out_of_polls : goerr := Errorf "poll limit" [].

Definition CompleteTask (evaluate : option (uuid -> M unit)) (tenantID principalID caseID : uuid)
    (stepID : string) (req : CompleteTaskRequest) : M unit :=
  start ← time_Now;
  found ← await_task poll_fuel (start + 2 * Second) tenantID principalID caseID stepID (reqOutcome req);
  match found with
  | None => throw out_of_polls
  | Some d =>
      let payload := task_payload d req in
      match form_errors d (reqOutcome req) payload with
      | v :: _ => throw (Errorf "validation_failed: %s" [veMessage v])
      | [] =>
          _ ← complete_tx tenantID principalID caseID stepID (reqOutcome req) (tdFormSchema d) payload;
          match evaluate with
          | Some evaluateDAG => ignore (evaluateDAG caseID)
          | None => mret tt
          end
      end
  end.

(** ** Overdue tasks and the executor *)

Definition loadEscalationConfig (caseID : uuid) (stepID : string) : M (EscalationConfig * uuid) :=
  step ← loadWorkflowStep caseID stepID;
  cfg ← match stepConfig step with
        | Some j => wrapM (Wrapf "decode task assignment config: %w" []) (lift (dec_AssignmentConfig j))
        | None => mret emptyAssignment
        end;
  tenantID ← query_row (fun _ d => cTenant <$> cases d !! caseID);
  mret (acEscalation cfg, tenantID).

Definition HandleOverdue (task : OverdueTask) : M unit :=
  '(cfg, tenantID) ← loadEscalationConfig (otCaseID task) (otStepID task);
  if decide (ecAction cfg = EmptyString) then mret tt
  else EscalateTask sysActor tenantID (otCaseID task) (otStepID task) cfg.

Definition HumanTask_Execute (caseID : uuid) (stepID : string) (config : option json)
    : M (option StepResult) :=
  cfg ← match config with
        | Some j => wrapM (Wrapf "decode human task config: %w" []) (lift (dec_AssignmentConfig j))
        | None => mret emptyAssignment
        end;
  _ ← CreateTaskFromActivation uuid_parse sysActor caseID stepID cfg;
  throw ErrStepAwaitingReview.

End Completion.
