(* ===== verification/TaskCompletionClaims.v ===== *)
(** * What completing a task guarantees

    First a logic of programs that only read. A [quiet] program leaves tables, published events and queued jobs alone and
    never turns the clock back, whether it succeeds or fails. Then the claims about
    [CompleteTask], and those about the engine with its executor of human tasks. *)

From S2P Require Import Prelude GoStrings Json EngineTypes EngineAst Store AuditTrail AuditClaims EngineOps EngineOpsProps.
From S2P Require Import EngineAtomic EngineEvaluate EngineClaims TaskForms TaskOps TaskClaims GoText Effects TaskCompletion.

Section Quiet.
Context `{R : Runtime}.

Definition quiet {A} (m : M A) : Prop := forall w,
  db (m w).2 = db w /\ published (m w).2 = published w /\ jobs (m w).2 = jobs w /\
  saved (m w).2 = saved w /\ (tick w <= tick (m w).2)%nat.

Lemma quiet_ret {A} (a : A) : quiet (mret a).
Proof. intros w. done. Qed.
Lemma quiet_throw {A} e : quiet (throw e : M A).
Proof. intros w. done. Qed.
Lemma quiet_lift {A} (r : result goerr A) : quiet (lift r).
Proof. intros w. done. Qed.
Lemma quiet_bind {A B} (m : M A) (f : A -> M B) : quiet m -> (forall a, quiet (f a)) -> quiet (m ≫= f).
Proof.
  intros Hm Hf w. specialize (Hm w) as (H1 & H2 & H3 & H4 & H5). unfold mbind, M_bind.
  destruct (m w) as [[a|e] w1]; cbn in *; [|done].
  destruct (Hf a w1) as (I1 & I2 & I3 & I4 & I5). split_and!; try congruence; lia.
Qed.
Lemma quiet_wrap {A} g (m : M A) : quiet m -> quiet (wrapM g m).
Proof. intros Hm w. specialize (Hm w). unfold wrapM. by destruct (m w) as [[a|e] w1]. Qed.
Lemma quiet_try {A} (m : M A) : quiet m -> quiet (tryM m).
Proof. intros Hm w. specialize (Hm w). unfold tryM. by destruct (m w). Qed.
Lemma quiet_query_row {A} (f : Z -> DB -> option A) : quiet (query_row f).
Proof.
  intros w. unfold query_row, sql. destruct (fault (tick w)); cbn; [split_and!; try done; lia|].
  destruct (f (sql_now w) (db w)); cbn; split_and!; try done; lia.
Qed.
Lemma quiet_query {A} (f : Z -> DB -> A) : quiet (query f).
Proof.
  intros w. unfold query, sql. destruct (fault (tick w)); cbn; split_and!; try done; lia.
Qed.
Lemma quiet_now : quiet time_Now.
Proof. intros w. cbn. split_and!; try done; lia. Qed.
Lemma quiet_sleep d : quiet (time_Sleep d).
Proof. intros w. cbn. split_and!; try done; lia. Qed.

Lemma sleep_Ok d w : time_Sleep d w = (Ok tt, (time_Sleep d w).2).
Proof. done. Qed.
End Quiet.

(** Follow the structure of a program. *)
Ltac quiet_step :=
  lazymatch goal with
  | |- forall _, _ => intro
  | |- quiet (mret _) => apply quiet_ret
  | |- quiet (throw _) => apply quiet_throw
  | |- quiet (lift _) => apply quiet_lift
  | |- quiet (_ ≫= _) => apply quiet_bind
  | |- quiet (wrapM _ _) => apply quiet_wrap
  | |- quiet (tryM _) => apply quiet_try
  | |- quiet (query_row _) => apply quiet_query_row
  | |- quiet (query _) => apply quiet_query
  | |- quiet time_Now => apply quiet_now
  | |- quiet (time_Sleep _) => apply quiet_sleep
  | |- quiet (match _ with _ => _ end) => case_match
  end.
Ltac quiet := repeat quiet_step.

(** ** What completing a task guarantees

    A task is completed at most once, by its assignee, with an outcome the task
    offers and data its form accepts; step, case data and audit trail change
    together or not at all, and the wait for an agent's task ends. *)

Section Completion.
Context `{R : Runtime}.

(** ** The transaction *)

(** What is known of the row a completion hits. *)
Record completable (d : DB) (tenantID principalID caseID : uuid) (stepID : string) (r : StepRow)
  : Prop := mk_completable {
  co_case : exists c, cases d !! caseID = Some c /\ cTenant c = tenantID;
  co_row : case_steps d !! (caseID, stepID) = Some r;
  co_active : sState r = StateActive;
  co_assigned : sAssignedTo r = Some principalID
}.

Lemma complete_update_hit tenantID principalID caseID stepID now outcome payload d n d' :
  complete_task_update tenantID principalID caseID stepID now outcome payload d = (n, d') -> n <> 0%nat ->
  exists r, completable d tenantID principalID caseID stepID r /\
    d' = set_steps <[(caseID, stepID) := complete_task_row now outcome payload r]> d.
Proof.
  unfold complete_task_update, update_step.
  destruct (tenant_row d tenantID caseID stepID) as [r0|] eqn:Hr; [|by intros [= <-]].
  apply tenant_row_Some in Hr as [Hc Hr]. rewrite Hr.
  destruct (is_active r0 && _) eqn:Hok; [|by intros [= <-]].
  intros [= _ <-] _. exists r0. split; [|done]. boolp. split; try done.
  by apply state_in_spec, list_elem_of_singleton in H.
Qed.

(** The case after a completion: the decisions of the form are merged in. *)
Definition decided (patch : object) (c c' : CaseRow) : Prop :=
  match patch with
  | [] => cData c' = cData c /\ cVersion c' = cVersion c
  | _ => cData c' = decision_data (cData c) patch /\ cVersion c' = cVersion c + 1
  end /\ cStatus c' = cStatus c /\ cTenant c' = cTenant c.

Record task_completed (tenantID principalID caseID : uuid) (stepID outcome : string)
    (schema : FormSchema) (payload : option object) (w w' : World) : Prop := mk_task_completed {
  tc_row : exists r now, completable (db w) tenantID principalID caseID stepID r /\
    case_steps (db w') =
      <[(caseID, stepID) := complete_task_row now outcome payload r]> (case_steps (db w));
  tc_case : exists c c', cases (db w) !! caseID = Some c /\ cases (db w') = <[caseID := c']> (cases (db w)) /\
    decided (buildDecisionPatch schema (payload_map payload)) c c';
  tc_event : exists e, case_events (db w') = case_events (db w) ++ [e] /\
    recorded caseID stepID "task" principalID "human" "completed" (completion_result outcome payload)
      (case_events (db w)) e /\ published w' = published w ++ [e]
}.

Lemma touch_case_row msg caseID n w w' c :
  touch msg caseID w = (Ok n, w') -> cases (db w) !! caseID = Some c ->
  case_steps (db w') = case_steps (db w) /\ case_events (db w') = case_events (db w) /\
  pending w' = pending w /\ published w' = published w /\ saved w' = saved w /\
  exists c', cases (db w') = <[caseID := c']> (cases (db w)) /\ decided [] c c'.
Proof.
  unfold touch, wrapM, update, sql, update_case. destruct (fault (tick w)); [done|]. intros H Hc.
  rewrite Hc in H. injection H as _ <-. cbn. split_and!; try done.
  eexists. split; [done|]. done.
Qed.

Lemma decide_case_row caseID p ps now d n d' c :
  decide_case caseID (p :: ps) now d = Ok (n, d') -> cases d !! caseID = Some c ->
  case_steps d' = case_steps d /\ case_events d' = case_events d /\
  exists c', cases d' = <[caseID := c']> (cases d) /\ decided (p :: ps) c c'.
Proof.
  unfold decide_case. intros H Hc. rewrite Hc in H. destruct (_ =? _); [done|].
  injection H as _ <-. split_and!; [done..|]. eexists. split; [done|]. done.
Qed.

Lemma complete_tx_Ok tenantID principalID caseID stepID outcome schema payload u w w' :
  saved w = None ->
  complete_tx tenantID principalID caseID stepID outcome schema payload w = (Ok u, w') ->
  task_completed tenantID principalID caseID stepID outcome schema payload w w'.
Proof.
  intros Hs0 (w2 & _ & -> & Hbody)%with_tx_Ok.
  apply bind_Ok in Hbody as (n & w3 & Hq & Hbody).
  unfold wrapM, update, sql in Hq. cbn [tick] in Hq. destruct (fault _); [done|].
  cbn [db sql_now] in Hq.
  destruct (complete_task_update _ _ _ _ _ _ _ (db w)) as [n' d'] eqn:Hu.
  injection Hq as -> <-.
  destruct (decide (n = 0%nat)) as [|Hn].
  { apply bind_Ok in Hbody as (ex & w4 & _ & Hbody). by destruct ex as [[]|]. }
  destruct (complete_update_hit _ _ _ _ _ _ _ _ _ _ Hu Hn) as (r & Hr & ->).
  destruct (co_case _ _ _ _ _ _ Hr) as (c & Hc & _).
  apply bind_Ok in Hbody as (m & w4 & Hw4 & Hbody).
  assert (case_steps (db w4) = <[(caseID, stepID) := complete_task_row
            (sql_now (mkWorld (db w) (Some (db w)) (S (tick w)) (tick w) [] (published w) (jobs w)))
            outcome payload r]> (case_steps (db w)) /\
          case_events (db w4) = case_events (db w) /\ pending w4 = [] /\ published w4 = published w /\
          exists c', cases (db w4) = <[caseID := c']> (cases (db w)) /\
            decided (buildDecisionPatch schema (payload_map payload)) c c') as (S1 & S2 & S3 & S4 & S5).
  { destruct (buildDecisionPatch schema (payload_map payload)) as [|p ps].
    - apply (touch_case_row _ _ _ _ _ c) in Hw4; [|done]. cbn in Hw4.
      destruct Hw4 as (H1 & H2 & H3 & H4 & _ & H5). split_and!; done.
    - apply sql_world in Hw4 as [Hrun Hw4]. cbn [db with_db] in Hrun.
      apply (decide_case_row _ _ _ _ _ _ _ c) in Hrun as (H1 & H2 & H3); [|done].
      rewrite Hw4. cbn. split_and!; done. }
  apply bind_Ok in Hbody as ([] & w5 & Hrec & Hbody).
  pose proof (record_Ok _ _ _ _ _ _ _ _ _ _ Hrec) as (_ & _ & e & He & Hd5 & Hp5 & Hpub5).
  apply commit_Ok in Hbody as (Hd2 & Hs2 & Hpub2 & _).
  unfold rollback_tx. rewrite Hs2.
  destruct S5 as (c' & Hcases & Hdec).
  split.
  - eexists r, _. split; [done|]. rewrite Hd2, Hd5. cbn. exact S1.
  - exists c, c'. rewrite Hd2, Hd5. done.
  - exists e. rewrite Hd2, Hd5. cbn. rewrite S2 in *. split; [done|]. split; [done|].
    rewrite Hpub2, Hpub5, Hp5, S3, S4. done.
Qed.

(** ** Reading a task *)

#[local] Opaque time_Sleep poll_interval.

Lemma GetTask_quiet tenantID caseID stepID : quiet (GetTask tenantID caseID stepID).
Proof. unfold GetTask, step_part, loadWorkflowStep. quiet. Qed.

Lemma await_quiet fuel deadline tenantID principalID caseID stepID outcome :
  quiet (await_task fuel deadline tenantID principalID caseID stepID outcome).
Proof. induction fuel as [|f IH]; cbn [await_task]; quiet; [apply GetTask_quiet|apply IH]. Qed.

(** A task that is waited for was read, and is the assignee's with that outcome. *)
Lemma await_found fuel deadline tenantID principalID caseID stepID outcome w d w' :
  await_task fuel deadline tenantID principalID caseID stepID outcome w = (Ok (Some d), w') ->
  tdAssignedTo d = Some principalID /\ outcome ∈ tdOutcomes d /\ tdStepState d <> StateCompleted /\
  exists w0, GetTask tenantID caseID stepID w0 = (Ok d, w') /\ db w0 = db w.
Proof.
  revert w. induction fuel as [|f IH]; intros w; cbn [await_task]; [done|].
  intros (d1 & w1 & Hg & H)%bind_Ok.
  pose proof (GetTask_quiet tenantID caseID stepID w) as (Hd1 & _). rewrite Hg in Hd1. cbn in Hd1.
  destruct (decide (tdStepState d1 = StateCompleted)); [done|].
  destruct (bool_decide (tdAssignedTo d1 = Some principalID)) eqn:Ha,
           (contains (tdOutcomes d1) outcome) eqn:Ho; cbn [andb negb] in H.
  { injection H as <- <-. boolp. unfold contains in Ho. boolp. split_and!; try done. by exists w. }
  all: apply bind_Ok in H as (now & w2 & Hn & H);
    pose proof (quiet_now w1) as (Hd2 & _); rewrite Hn in Hd2; cbn [snd] in Hd2;
    destruct (_ && _); [|done];
    apply bind_Ok in H as ([] & w3 & Hsl & H);
    pose proof (quiet_sleep poll_interval w2) as (Hd3 & _); rewrite Hsl in Hd3; cbn [snd] in Hd3;
    apply IH in H as (? & ? & ? & w0 & ? & Hw0);
    split_and!; try done; exists w0; split; congruence.
Qed.

(** ** The wait ends *)

Section Wait.
Hypothesis clock_moves : forall k, wall_clock k + Microsecond <= wall_clock (S k).

Lemma clock_after n k : wall_clock k + Z.of_nat n * Microsecond <= wall_clock (n + k).
Proof.
  induction n as [|n IH]; [cbn; lia|]. specialize (clock_moves (n + k)).
  replace (S n + k)%nat with (S (n + k)) by lia. lia.
Qed.

Lemma clock_mono k k' : (k <= k')%nat -> wall_clock k <= wall_clock k'.
Proof.
  intros H. replace k' with ((k' - k) + k)%nat by lia. pose proof (clock_after (k' - k) k).
  unfold Microsecond in *. lia.
Qed.

Transparent time_Sleep.
Lemma sleep_passes w : wall_clock (tick w) + poll_interval <= wall_clock (tick (time_Sleep poll_interval w).2).
Proof.
  unfold time_Sleep. cbn [snd tick].
  pose proof (clock_after (Z.to_nat (poll_interval / Microsecond)) (tick w)) as H.
  rewrite Z2Nat.id in H by (apply Z.div_pos; done).
  replace (poll_interval / Microsecond * Microsecond) with poll_interval in H; [done|].
  vm_compute. reflexivity.
Qed.
Opaque time_Sleep.

Lemma await_ends f deadline tenantID principalID caseID stepID outcome w :
  deadline <= wall_clock (tick w) + Z.of_nat f * poll_interval ->
  (await_task (S f) deadline tenantID principalID caseID stepID outcome w).1 <> Ok None.
Proof.
  revert w. induction f as [|f IH]; intros w Hd; cbn [await_task]; unfold mbind, M_bind;
    pose proof (GetTask_quiet tenantID caseID stepID w) as (_ & _ & _ & _ & Ht);
    destruct (GetTask tenantID caseID stepID w) as [[d|e] w1]; cbn [snd] in Ht; try done;
    destruct (decide (tdStepState d = StateCompleted)); try done;
    destruct (_ && contains _ _); try done; unfold time_Now at 1; cbn [tick];
    apply clock_mono in Ht.
  - rewrite (proj2 (Z.ltb_ge _ _)) by lia. rewrite andb_false_r. by destruct (negb _).
  - destruct (_ && (_ <? _)); [|by destruct (negb _)].
    pose proof (sleep_passes (next_tick w1)) as Hs.
    change (mkWorld (db w1) (saved w1) (S (tick w1)) (txStart w1) (pending w1)
      (published w1) (jobs w1)) with (next_tick w1).
    rewrite sleep_Ok. apply IH. cbn [next_tick tick] in Hs.
    pose proof (clock_moves (tick w1)). unfold Microsecond in *. lia.
Qed.
End Wait.

Lemma complete_tx_atomic tenantID principalID caseID stepID outcome schema payload :
  atomic (complete_tx tenantID principalID caseID stepID outcome schema payload).
Proof.
  apply atomic_tx. intros s. tx_step. tx.
Qed.


Lemma task_completed_from tenantID principalID caseID stepID outcome schema payload w w1 w' :
  db w1 = db w -> published w1 = published w ->
  task_completed tenantID principalID caseID stepID outcome schema payload w1 w' ->
  task_completed tenantID principalID caseID stepID outcome schema payload w w'.
Proof. intros Hd Hp [H1 H2 H3]. rewrite Hd in *. rewrite Hp in H3. by split. Qed.

(** C12. Completing a task: [CompleteTask] succeeds only for the assignee of an
    active task of the caller's tenant, with an outcome the task offers and data
    that passes its form and the requirements of the chosen action. The step is
    then completed with that outcome and data, the decisions of the form are
    merged into the case, one event is added to the trail and published, in one
    transaction, and the workflow is evaluated; nobody can complete the task
    again. An error leaves nothing behind. *)
Theorem CompleteTask_correct (fmtFloat : Qc -> string) (evaluate : option (uuid -> M unit))
    (tenantID principalID caseID : uuid) (stepID : string) (req : CompleteTaskRequest) (w w' : World)
    (r : result goerr unit)
    (Hw : saved w = None)
    (Hrun : CompleteTask fmtFloat evaluate tenantID principalID caseID stepID req w = (r, w')) :
  match r with
  | Err _ => unchanged w w'
  | Ok _ =>
      exists d w0 w1 w2, GetTask tenantID caseID stepID w0 = (Ok d, w1) /\ db w0 = db w /\
        tdAssignedTo d = Some principalID /\ reqOutcome req ∈ tdOutcomes d /\
        form_errors fmtFloat d (reqOutcome req) (task_payload d req) = [] /\
        task_completed tenantID principalID caseID stepID (reqOutcome req) (tdFormSchema d)
          (task_payload d req) w w2 /\
        w' = match evaluate with Some ev => (ev caseID w2).2 | None => w2 end /\
        forall t p o s pl w3 u w4, db w3 = db w2 -> saved w3 = None ->
          complete_tx t p caseID stepID o s pl w3 <> (Ok u, w4)
  end.
Proof.
  unfold CompleteTask, mbind, M_bind in Hrun. unfold time_Now at 1 in Hrun.
  pose proof (await_quiet poll_fuel (wall_clock (tick w) + 2 * Second) tenantID principalID caseID stepID
    (reqOutcome req) (next_tick w)) as (Q1 & Q2 & Q3 & Q4 & _).
  destruct (await_task _ _ _ _ _ _ _ (next_tick w)) as [[found|e] w1] eqn:Ha;
    cbn [snd next_tick db published jobs saved] in *.
  2: { injection Hrun as <- <-. done. }
  destruct found as [d|]; [|injection Hrun as <- <-; done].
  apply await_found in Ha as (Has & Hout & _ & w0 & Hget & Hw0).
  destruct (form_errors fmtFloat d (reqOutcome req) (task_payload d req)) as [|v vs] eqn:Hform.
  2: { injection Hrun as <- <-. done. }
  pose proof (complete_tx_Ok tenantID principalID caseID stepID (reqOutcome req) (tdFormSchema d)
    (task_payload d req)) as Htx.
  pose proof (complete_tx_atomic tenantID principalID caseID stepID (reqOutcome req) (tdFormSchema d)
    (task_payload d req) w1) as Hat.
  destruct (complete_tx _ _ _ _ _ _ _ w1) as [[u|e] w2] eqn:Hc.
  2: { injection Hrun as <- <-. destruct (Hat e w2 eq_refl) as (H1 & H2 & H3).
       split_and!; congruence. }
  specialize (Htx u w1 w2 ltac:(cbn in *; congruence) Hc).
  pose proof (task_completed_from _ _ _ _ _ _ _ w _ _ Q1 Q2 Htx) as Hdone.
  assert (r = Ok tt /\ w' = match evaluate with Some ev => (ev caseID w2).2 | None => w2 end) as [-> Hw'].
  { destruct evaluate; injection Hrun as <- <-; [done|by destruct u]. }
  exists d, w0, w1, w2. split_and!; try done.
  intros t p o s pl w3 u' w4 Hd3 Hs3 H4. apply complete_tx_Ok in H4; [|done].
  destruct (tc_row _ _ _ _ _ _ _ _ _ H4) as (r' & _ & [_ Hr' Hact _] & _).
  destruct (tc_row _ _ _ _ _ _ _ _ _ Hdone) as (r0 & now & _ & Hsteps).
  rewrite Hd3, Hsteps, lookup_insert_eq in Hr'. injection Hr' as <-. done.
Qed.

(** Waiting for the task of an agent ends: with a clock that moves, the loop
    at the start of [CompleteTask] finds the task or gives up within two seconds,
    and does so at once for any other kind of task. *)
Theorem CompleteTask_wait_ends (tenantID principalID caseID : uuid) (stepID outcome : string) (w : World)
    (Hclock : forall k, wall_clock k + Microsecond <= wall_clock (S k)) :
  (await_task poll_fuel (wall_clock (tick w) + 2 * Second) tenantID principalID caseID stepID outcome w).1
    <> Ok None.
Proof. apply await_ends; [done|]. vm_compute (2 * Second). vm_compute (Z.of_nat 41 * poll_interval). lia. Qed.

End Completion.

(** ** The engine with its executor of human tasks

    The service registers [HumanTask_Execute] for human tasks and [HandleOverdue]
    for overdue ones. Neither keeps to the life cycle of the engine: a task is
    created on a row of any state, and an escalation changes the assignee. *)

Section Service.
Context `{R : Runtime}.

(** What the parts of the service do to the tables: a step of the engine; a task
    created for a step, which makes the row active and is recorded; another
    assignee; a change of other tables. *)
Inductive service_step (d : DB) : DB -> Prop :=
  | service_engine_step d' : db_step d d' -> service_step d d'
  | service_task caseID stepID r r' actor data ev :
      case_steps d !! (caseID, stepID) = Some r ->
      sID r' = sID r -> sState r' = StateActive -> sRetryCount r' = sRetryCount r ->
      recorded caseID stepID "task" actor "system" "created" data (case_events d) ev ->
      is_Some (cases d !! caseID) ->
      service_step d (set_events (fun l => l ++ [ev]) (set_steps <[(caseID, stepID) := r']> d))
  | service_assign key r who :
      case_steps d !! key = Some r -> service_step d (set_steps <[key := assign_row who r]> d)
  | service_elsewhere d' :
      cases d' = cases d -> case_steps d' = case_steps d -> case_events d' = case_events d -> service_step d d'.

Definition service_steps : DB -> DB -> Prop := rtc service_step.
#[export] Instance service_steps_preorder : PreOrder service_steps.
Proof. unfold service_steps. apply _. Qed.
#[export] Instance service_steps_engine : EngineSteps service_steps.
Proof.
  split; [apply _|]. intros d d'. unfold db_steps, service_steps.
  induction 1 as [|d1 d2 d3 H _ IH]; [done|]. eapply rtc_l; [by apply service_engine_step|done].
Qed.

#[local] Hint Extern 3 (keeps service_steps _) => (apply (kept_in service_steps); solve [auto with keeps]) : keeps.

(** A transaction that fails leaves nothing behind counts as a whole. *)
Lemma keeps_whole_tx {A} (Q : DB -> DB -> Prop) `{!PreOrder Q} g (m : M A) :
  atomic (with_tx g m) -> (forall w a w', with_tx g m w = (Ok a, w') -> Q (db w) (db w')) -> keeps Q (with_tx g m).
Proof.
  intros Ha Hq w. specialize (Ha w). specialize (Hq w). split.
  - unfold with_tx, wrapM, begin_tx. destruct (fault (tick w)); [by left|]. destruct (m _) as [r w2]. right. cbn.
    unfold rollback_tx. by destruct (saved w2) eqn:E.
  - left. destruct (with_tx g m w) as [[a|err] w'] eqn:E; [by eapply Hq|].
    destruct (Ha err w' eq_refl) as (Hd & _). cbn. rewrite Hd. reflexivity.
Qed.

Lemma touch_steps msg caseID n w w' : touch msg caseID w = (Ok n, w') -> db_steps (db w) (db w').
Proof. intros ->%update_Ok. apply update_case_db. intros. apply touch_move. Qed.

Lemma kept_create parse actor caseID stepID cfg :
  keeps service_steps (CreateTaskFromActivation parse actor caseID stepID cfg).
Proof.
  apply (keeps_whole_tx service_steps); [apply atomic_tx; intros s; tx; cbv zeta; tx|].
  intros w u w' (w2 & _ & -> & Hbody)%with_tx_Ok.
  apply bind_Ok in Hbody as (now & w3 & [= _ <-] & Hbody).
  apply bind_Ok in Hbody as (n & w4 & Hq%sql_Ok & Hbody). simpl in Hq.
  apply bind_Ok in Hbody as ([] & w5 & (_ & Hcase & ev & Hrec & Hd5 & _)%record_Ok & Hbody).
  apply bind_Ok in Hbody as (m & w6 & Hs6%touch_steps & Hbody).
  apply commit_Ok in Hbody as (Hd2 & Hs2 & _). unfold rollback_tx. rewrite Hs2, Hd2.
  etrans; [|apply es_steps, Hs6]. rewrite Hd5. apply rtc_once. unfold create_update in Hq.
  destruct (case_steps (db w) !! (caseID, stepID)) as [r|] eqn:Hr.
  - destruct (match _ with Some _ => _ | None => _ end); [done|]. injection Hq as _ Hd4.
    rewrite <- Hd4 in Hrec, Hcase |- *. cbn in Hrec, Hcase. eapply (service_task _ _ _ r); try done.
  - injection Hq as _ Hd4. rewrite <- Hd4 in Hrec, Hcase |- *. by eapply service_engine_step, db_step_event.
Qed.

Lemma assign_update_steps caseID stepID who d n d' :
  assign_update caseID stepID who d = Ok (n, d') -> service_steps d d'.
Proof.
  unfold assign_update. destruct (case_steps d !! _) as [r|] eqn:Hr; [|intros [= _ <-]; reflexivity].
  unfold set_assignee. destruct (principals d !! who); [|done]. intros [= _ <-]. by eapply rtc_once, service_assign.
Qed.

Lemma kept_escalate actor tenantID caseID stepID cfg :
  keeps service_steps (EscalateTask actor tenantID caseID stepID cfg).
Proof.
  unfold EscalateTask, pickLeastLoadedUserTx. keeps.
  apply keeps_sql; [apply _|]. intros ? ? ? ? ?. apply assign_update_steps.
Qed.

Lemma kept_HumanTask parse actor caseID stepID cfg :
  keeps service_steps (HumanTask_Execute parse actor caseID stepID cfg).
Proof. unfold HumanTask_Execute. keeps; apply kept_create. Qed.

Lemma kept_HandleOverdue actor task : keeps service_steps (HandleOverdue actor task).
Proof. unfold HandleOverdue, loadEscalationConfig, loadWorkflowStep. keeps; apply kept_escalate. Qed.

(** The engine the service builds, with what parses identifiers and the actor of
    the tasks: other executors are only required to be made of the same steps. *)
Record service_engine (parse : string -> option uuid) (actor : uuid) (e : Engine) : Prop := mk_service_engine {
  se_task : executors e !! "human_task" = Some (HumanTask_Execute parse actor);
  se_overdue : escalation e = Some (HandleOverdue actor);
  se_other : forall ty x caseID stepID cfg, ty <> "human_task" -> executors e !! ty = Some x ->
    keeps service_steps (x caseID stepID cfg)
}.

Lemma service_within parse actor e : service_engine parse actor e -> executors_within service_steps e.
Proof.
  intros [H1 H2 H3]. split.
  - intros ty x c s cfg Hx. destruct (decide (ty = "human_task")) as [->|Hne]; [|by eapply H3].
    rewrite H1 in Hx. injection Hx as <-. apply kept_HumanTask.
  - intros cb task Hcb. rewrite H2 in Hcb. injection Hcb as <-. apply kept_HandleOverdue.
Qed.

(** ** Rows, cases and trails over such steps *)

(** The trail of [d'] says, after what was there in [d], that a task was created. *)
Definition task_created_since (d d' : DB) (k : uuid * string) : Prop :=
  exists l ev, case_events d' = case_events d ++ l /\ ev ∈ l /\ evCaseID ev = k.1 /\ evStepID ev = k.2 /\
    evEventType ev = "task" /\ evAction ev = "created".

(** A row moved along the life cycle, or a task was created for it in between. *)
Record rows_go (d d' : DB) : Prop := mk_rows_go {
  rg_trail : trail_grows d d';
  rg_old : forall k r, case_steps d !! k = Some r ->
    exists r', case_steps d' !! k = Some r' /\ sID r' = sID r /\ sRetryCount r <= sRetryCount r' /\
      (rtc state_move (sState r) (sState r') \/
       task_created_since d d' k /\ rtc state_move StateActive (sState r'));
  rg_new : forall k, is_Some (case_steps d' !! k) -> is_Some (case_steps d !! k)
}.

Lemma created_later d1 d2 d3 k : trail_grows d1 d2 -> task_created_since d2 d3 k -> task_created_since d1 d3 k.
Proof.
  intros [l1 H1] (l & ev & H2 & Hin & Hev). exists (l1 ++ l), ev. rewrite H2, H1, app_assoc.
  split_and!; [done|set_solver|apply Hev..].
Qed.
Lemma created_earlier d1 d2 d3 k : task_created_since d1 d2 k -> trail_grows d2 d3 -> task_created_since d1 d3 k.
Proof.
  intros (l & ev & H2 & Hin & Hev) [l1 H1]. exists (l ++ l1), ev. rewrite H1, H2, app_assoc.
  split_and!; [done|set_solver|apply Hev..].
Qed.

#[export] Instance rows_go_preorder : PreOrder rows_go.
Proof.
  split.
  - intros d. split; [reflexivity| |done]. intros k r Hr. exists r. split_and!; [done|done|lia|left; reflexivity].
  - intros d1 d2 d3 [T1 O1 N1] [T2 O2 N2]. split; [by etrans| |auto]. intros k r Hr.
    destruct (O1 k r Hr) as (r1 & H1 & I1 & C1 & M1). destruct (O2 k r1 H1) as (r2 & H2 & I2 & C2 & M2).
    exists r2. split_and!; [done|congruence|lia|].
    destruct M2 as [M2|[E2 M2]]; [|right; split; [by eapply created_later|done]].
    destruct M1 as [M1|[E1 M1]]; [left; by etrans|right; split; [by eapply created_earlier|by etrans]].
Qed.

Lemma rows_go_evolve d d' : rows_evolve d d' -> trail_grows d d' -> rows_go d d'.
Proof.
  intros [O N] T. split; [done| |done]. intros k r Hr. destruct (O k r Hr) as (r' & ? & ? & ? & ?).
  exists r'. split_and!; auto.
Qed.

Lemma rows_go_insert d d' key r r' :
  case_steps d !! key = Some r -> case_steps d' = <[key := r']> (case_steps d) -> trail_grows d d' ->
  sID r' = sID r -> sRetryCount r <= sRetryCount r' ->
  (sState r' = sState r \/ task_created_since d d' key /\ sState r' = StateActive) -> rows_go d d'.
Proof.
  intros Hr Hd T Hid Hc Hs. split; [done|..]; rewrite Hd.
  - intros k r0 Hk. destruct (decide (key = k)) as [<-|Hne].
    + rewrite Hr in Hk. injection Hk as <-. exists r'. rewrite lookup_insert_eq. split_and!; [done..|].
      destruct Hs as [->|[He ->]]; [left; reflexivity|right; split; [done|reflexivity]].
    + exists r0. rewrite lookup_insert_ne by done. split_and!; [done|done|lia|left; reflexivity].
  - intros k. destruct (decide (key = k)) as [<-|Hne]; [by rewrite Hr|by rewrite lookup_insert_ne].
Qed.

Lemma service_step_rows d d' : service_step d d' -> rows_go d d'.
Proof.
  intros [d1 H|c s r r' actor data ev Hr Hid Hs Hc Hrec _|key r who Hr|d1 Hc Hst He].
  - by apply rows_go_evolve; [apply db_step_rows|apply db_step_trail].
  - eapply (rows_go_insert _ _ (c, s)); [exact Hr|done|by exists [ev]|done|lia|]. right. split; [|done].
    exists [ev], ev. split_and!; [done|set_solver|apply Hrec..].
  - eapply rows_go_insert; [exact Hr|done|exists []; by rewrite app_nil_r|done|done|by left].
  - apply rows_go_evolve; [by apply rows_evolve_same|exists []; by rewrite He, app_nil_r].
Qed.

Lemma service_step_cases d d' : service_step d d' -> cases_evolve d d'.
Proof.
  intros [d1 H| | |d1 Hc _ _]; [by apply db_step_cases|by apply cases_evolve_same..].
Qed.

Lemma service_step_trails `{!RuntimeLaws R} d d' : service_step d d' -> keeps_trails d d'.
Proof.
  intros [d1 H|c s r r' actor data ev _ _ _ _ Hrec _| |d1 _ _ He].
  - by apply db_step_trails.
  - intros Ht. by eapply (set_events_trails _ _ _ _ _ _ _ (set_steps <[(c, s) := r']> d)).
  - intros Ht. exact Ht.
  - intros Ht k. rewrite He. apply Ht.
Qed.

Lemma service_steps_ind (P : DB -> DB -> Prop) `{!PreOrder P} :
  (forall d d', service_step d d' -> P d d') -> forall d d', service_steps d d' -> P d d'.
Proof.
  intros Hs d d'. induction 1 as [|d1 d2 d3 H _ IH]; [reflexivity|]. etrans; [by apply Hs|exact IH].
Qed.
End Service.

(** C3. Life cycle: whatever operations of the engine run, with the executor of
    human tasks, the escalation of overdue ones and other executors, in whatever
    order and with whatever failures: no step row appears or disappears and retry
    counts never decrease; a row moves only along pending, ready, active,
    completed, failed or skipped, and one that is completed, failed or skipped
    does not change state again, unless the audit trail says that a task was
    created for the step in between, which makes it active from any state; a
    case keeps its tenant, type, number and workflow, a cancelled case stays
    cancelled, and its data changes only together with a higher version. *)
Theorem engine_lifecycle `{R : Runtime} parse actor e d d' :
  service_engine parse actor e -> reaches e d d' ->
  (forall k r, case_steps d !! k = Some r ->
     exists r', case_steps d' !! k = Some r' /\ sRetryCount r <= sRetryCount r' /\
       (rtc state_move (sState r) (sState r') /\ (terminal (sState r) -> sState r' = sState r) \/
        task_created_since d d' k /\ rtc state_move StateActive (sState r'))) /\
  (forall k, is_Some (case_steps d' !! k) -> is_Some (case_steps d !! k)) /\
  cases_evolve d d'.
Proof.
  intros He%service_within Hr. apply (reaches_steps service_steps) in Hr; [|done].
  destruct (service_steps_ind rows_go service_step_rows _ _ Hr) as [_ Hold Hnew].
  split_and!; [|done|by apply (service_steps_ind cases_evolve service_step_cases)].
  intros k r Hk. destruct (Hold k r Hk) as (r' & Hr' & _ & Hc & Hm). exists r'. split_and!; [done|done|].
  destruct Hm as [Hm|Hm]; [left|by right]. split; [done|]. intros Ht. by eapply terminal_stays.
Qed.

(** C4. Audit: every sequence of operations of the engine, with the executor of
    human tasks, the escalation of overdue ones and other executors, only appends
    to the audit trail, and every trail that was a valid, time-ordered hash chain
    remains one. *)
Theorem engine_audited `{R : Runtime} `{!RuntimeLaws R} parse actor e d d' :
  service_engine parse actor e -> trails_ok d -> reaches e d d' -> trails_ok d' /\ trail_grows d d'.
Proof.
  intros He%service_within Ht Hr. apply (reaches_steps service_steps) in Hr; [|done]. split.
  - apply (service_steps_ind keeps_trails service_step_trails _ _ Hr Ht).
  - apply (rg_trail _ _ (service_steps_ind rows_go service_step_rows _ _ Hr)).
Qed.

(** ** Witnesses *)

#[local] Existing Instance example_runtime.

Definition review_ast : json :=
  JObj [("steps", JArr [JObj (mk_obj [("id", JStr "review"); ("type", JStr "human_task");
     ("depends_on", JArr []); ("join", JStr "all"); ("outcomes", JObj [("approve", JArr [])]);
     ("config", JObj [("form_schema", JObj [("fields", JArr [JObj (mk_obj
        [("id", JStr "note"); ("bind", JStr "decision.note"); ("type", JStr "string");
         ("required", JBool true)])])])])])])].

Definition review_world : World :=
  mkWorld (mkDB
    {[ 5%N := mkCaseRow 1 2 "LOAN-000001" CaseInProgress (JObj []) 1 0 None 0 3 1 0 7 None ]}
    {[ (5%N, "review") := mkStepRow 9 StateActive (Some 0) None None (JArr []) None (Some 7%N) None 0 None None ]} []
    {[ (3%N, 1) := mkVersionRow Published review_ast ]}
    {[ 7%N := mkPrincipalRow 1 true 0 None ]} []
    {[ 2%N := mkCaseTypeRow 1 "loan" 1 (JObj []) true 0 7 ]} ∅ ∅ ∅) None 0 0 [] [] [].

Definition approve : CompleteTaskRequest :=
  mkCompleteTaskRequest "approve" (Some [("note", JStr "fine")]).

Lemma CompleteTask_correct_witness :
  exists d w0 w1 w2, GetTask 1 5 "review" w0 = (Ok d, w1) /\ db w0 = db review_world /\
    tdAssignedTo d = Some 7%N /\ reqOutcome approve ∈ tdOutcomes d /\
    form_errors (fun _ => "0") d (reqOutcome approve) (task_payload d approve) = [] /\
    task_completed 1 7 5 "review" (reqOutcome approve) (tdFormSchema d) (task_payload d approve) review_world w2 /\
    (CompleteTask (fun _ => "0") None 1 7 5 "review" approve review_world).2 = w2 /\
    forall t p o s pl w3 u w4, db w3 = db w2 -> saved w3 = None ->
      complete_tx t p 5 "review" o s pl w3 <> (Ok u, w4).
Proof.
  assert ((CompleteTask (fun _ => "0") None 1 7 5 "review" approve review_world).1 = Ok tt) as H
    by (vm_compute; reflexivity).
  exact (CompleteTask_correct (fun _ => "0") None 1 7 5 "review" approve review_world _ (Ok tt) eq_refl
    (ok_pair _ _ _ H)).
Defined.

Lemma CompleteTask_wait_ends_witness :
  (await_task poll_fuel (wall_clock 0 + 2 * Second) 1 7 5 "review" "approve" review_world).1 <> Ok None.
Proof.
  refine (CompleteTask_wait_ends 1 7 5 "review" "approve" review_world _).
  intros k. unfold wall_clock, example_runtime, Second, Microsecond. lia.
Defined.

(** The engine of the service runs a human task: the evaluation makes the step
    active, and its executor creates the task. Executed once more after it was
    completed, the step is active again, and the trail says why. *)
Definition no_parse (s : string) : option uuid := None.
Definition task_engine : Engine :=
  mkEngine None {[ "human_task" := HumanTask_Execute no_parse 7%N ]} (Some (HandleOverdue 7%N)) 7.

Lemma task_engine_service : service_engine no_parse 7%N task_engine.
Proof.
  split; [reflexivity|reflexivity|]. intros ty x c s cfg Hne Hx. cbn [executors task_engine] in Hx.
  by rewrite lookup_singleton_ne in Hx.
Qed.

Definition pending_world : World :=
  mkWorld (set_steps (fun _ => {[ (5%N, "review") := mkStepRow 9 StatePending None None None (JArr []) None None None 0 None None ]})
    (db review_world)) None 0 0 [] [] [].
Definition op_run (o : op) (w : World) : World := (run_op task_engine o w).2.
Definition evaluated_once : World := op_run (OpEvaluate 5) pending_world.
Definition completed_task : World := op_run (OpComplete 5 "review" None) evaluated_once.
Definition executed_again : World := op_run (OpExecute 5 (demo_step "review" [])) completed_task.
Definition checked_overdue : World := op_run OpCheckOverdue executed_again.

Lemma task_engine_reaches : saved evaluated_once = None -> saved completed_task = None -> saved executed_again = None ->
  reaches task_engine (db pending_world) (db checked_overdue).
Proof.
  intros H1 H2 H3.
  eapply (reaches_op _ _ pending_world (OpEvaluate 5)); [reflexivity|reflexivity|].
  eapply (reaches_op _ _ evaluated_once (OpComplete 5 "review" None)); [reflexivity|exact H1|].
  eapply (reaches_op _ _ completed_task (OpExecute 5 (demo_step "review" []))); [reflexivity|exact H2|].
  eapply (reaches_op _ _ executed_again OpCheckOverdue); [reflexivity|exact H3|]. apply reaches_refl.
Qed.

Definition row_state (w : World) : option step_state := sState <$> case_steps (db w) !! (5%N, "review").

Example task_reopened :
  row_state evaluated_once = Some StateActive /\ row_state completed_task = Some StateCompleted /\
  row_state executed_again = Some StateActive /\
  map (fun ev => (evEventType ev, evAction ev)) (case_events (db executed_again)) =
    [("step", "activated"); ("task", "created"); ("step", "completed"); ("task", "created")].
Proof. repeat split; vm_compute; reflexivity. Qed.

Lemma engine_lifecycle_witness :
  row_state pending_world = Some StatePending /\ row_state checked_overdue = Some StateActive /\
  cases_evolve (db pending_world) (db checked_overdue).
Proof.
  split; [vm_compute; reflexivity|]. split; [vm_compute; reflexivity|].
  apply (engine_lifecycle no_parse 7%N task_engine _ _ task_engine_service).
  apply task_engine_reaches; vm_compute; reflexivity.
Defined.

Lemma engine_audited_witness :
  length (case_events (db checked_overdue)) = 4%nat /\ trails_ok (db checked_overdue).
Proof.
  split; [vm_compute; reflexivity|].
  apply (@engine_audited example_runtime example_runtime_laws no_parse 7%N task_engine (db pending_world));
    [apply task_engine_service|intros c; split; constructor|].
  apply task_engine_reaches; vm_compute; reflexivity.
Defined.
