(* ===== verification/Templates.v ===== *)
(** * Templates in connector settings ([internal/connectors/template.go])

    A token is two braces, a text without braces, two braces. The clock of
    [now], the resolver of secrets and the formatting of numbers are
    parameters; a resolution reads the clock once. *)

From S2P Require Import Prelude GoStrings Json GoText.

#[local] Arguments String.append : simpl nomatch.

Definition is_brace (a : ascii) : bool := bool_decide (a = "{"%char) || bool_decide (a = "}"%char).

(** The longest start of a text without braces, and the rest. *)
Fixpoint span_plain (s : string) : string * string :=
  match s with
  | EmptyString => (EmptyString, EmptyString)
  | String a s' =>
      if is_brace a then (EmptyString, s)
      else let '(x, y) := span_plain s' in (String a x, y)
  end.

(** A match of [templatePattern] at the start of [s]: the text between the
    braces and what follows the match. *)
Definition token_at (s : string) : option (string * string) :=
  match s with
  | String "{" (String "{" s1) =>
      match span_plain s1 with
      | (String a x, String "}" (String "}" rest)) => Some (String a x, rest)
      | _ => None
      end
  | _ => None
  end.

(** [templatePattern.ReplaceAllStringFunc(s, repl)]; every step consumes a
    character, so the length of the text is enough fuel. *)
Fixpoint replace_tokens (fuel : nat) (repl : string -> string) (s : string) : string :=
  match fuel with
  | O => s
  | S f =>
      match token_at s with
      | Some (content, rest) => repl content +:+ replace_tokens f repl rest
      | None =>
          match s with
          | EmptyString => EmptyString
          | String a s' => String a (replace_tokens f repl s')
          end
      end
  end.

Definition lookupDotPath (root : object) (path : string) : option json :=
  foldl (fun cur part => match cur with
                         | Some (JObj m) => obj_get part m
                         | _ => None
                         end) (Some (JObj root)) (Split "." path).

Section Resolve.
Context (now_text : string) (secret : option (string -> string)).
Context (fmtFloat fmtFloat_v : Qc -> string).

Definition stringifyTemplateValue (value : json) : string :=
  match value with
  | JStr s => s
  | JNum q => fmtFloat q
  | JBool true => "true"
  | JBool false => "false"
  | _ => Sprint fmtFloat_v value
  end.

Definition resolve_token (ctx : object) (content : string) : string :=
  let path := TrimSpace content in
  if decide (path = "now") then now_text
  else if HasPrefix path "secrets."
  then match secret with
       | Some resolver => resolver (TrimPrefix path "secrets.")
       | None => EmptyString
       end
  else match lookupDotPath ctx path with
       | None | Some JNull => EmptyString
       | Some value => stringifyTemplateValue value
       end.

Definition ResolveTemplateString (raw : string) (ctx : object) : string :=
  replace_tokens (String.length raw) (resolve_token ctx) raw.

Fixpoint ResolveTemplateAny (value : json) (ctx : object) : json :=
  match value with
  | JStr s => JStr (ResolveTemplateString s ctx)
  | JObj m => JObj (map (fun kv => (kv.1, ResolveTemplateAny kv.2 ctx)) m)
  | JArr l => JArr (map (fun v => ResolveTemplateAny v ctx) l)
  | _ => value
  end.

End Resolve.

(** ** Lemmas *)

Lemma token_at_length s c r : token_at s = Some (c, r) -> (String.length r < String.length s)%nat.
Proof.
  destruct s as [|a [|b s1]]; simpl; try done.
  - by destruct a as [[] [] [] [] [] [] [] []].
  - destruct (decide (a = "{"%char)) as [->|Ha];
      [|destruct a as [[] [] [] [] [] [] [] []]; done].
    destruct (decide (b = "{"%char)) as [->|Hb];
      [|destruct b as [[] [] [] [] [] [] [] []]; done].
    assert (forall s x y, span_plain s = (x, y) -> (String.length y <= String.length s)%nat) as Hs.
    { clear. induction s as [|a s IH]; simpl; intros x y; [by intros [= <- <-]|].
      destruct (is_brace a); [by intros [= <- <-]|].
      destruct (span_plain s) as [x' y'] eqn:E; intros [= <- <-].
      specialize (IH _ _ eq_refl). lia. }
    destruct (span_plain s1) as [x y] eqn:E. specialize (Hs _ _ _ E).
    destruct x as [|a x]; [done|]. destruct y as [|c1 [|c2 y]]; simpl; try done.
    + by destruct c1 as [[] [] [] [] [] [] [] []].
    + destruct c1 as [[] [] [] [] [] [] [] []]; try done.
      destruct c2 as [[] [] [] [] [] [] [] []]; try done.
      intros [= <- <-]. simpl in Hs. lia.
Qed.

Lemma replace_tokens_fuel repl n m s :
  (String.length s <= n)%nat -> (String.length s <= m)%nat ->
  replace_tokens n repl s = replace_tokens m repl s.
Proof.
  revert m s. induction n as [|n IH]; intros m s Hn Hm.
  - destruct s; [|simpl in Hn; lia]. destruct m; done.
  - destruct m as [|m]; [destruct s; [done|simpl in Hm; lia]|]. cbn [replace_tokens].
    destruct (token_at s) as [[c r]|] eqn:E.
    + apply token_at_length in E. f_equal. apply IH; lia.
    + destruct s as [|a s]; [done|]. simpl in *. f_equal. apply IH; lia.
Qed.

Definition resolved (repl : string -> string) (s : string) : string :=
  replace_tokens (String.length s) repl s.

Lemma resolved_cons repl a s :
  a <> "{"%char -> resolved repl (String a s) = String a (resolved repl s).
Proof.
  intros Ha. unfold resolved. cbn [String.length replace_tokens].
  assert (token_at (String a s) = None) as ->; [|done].
  destruct a as [[] [] [] [] [] [] [] []]; done.
Qed.

(** Text without an opening brace is kept, whatever follows it. *)
Lemma resolved_plain repl pre s :
  char_in "{" pre = false -> resolved repl (pre +:+ s) = pre +:+ resolved repl s.
Proof.
  induction pre as [|a pre IH]; [done|]. cbn [char_in String.append]. intros H. boolp.
  rewrite resolved_cons by done. by rewrite IH.
Qed.

Lemma span_plain_app x a rest :
  char_in "{" x = false -> char_in "}" x = false -> is_brace a = true ->
  span_plain (x +:+ String a rest) = (x, String a rest).
Proof.
  intros H1 H2 Ha. induction x as [|b x IH]; cbn [String.append span_plain].
  - simpl. by rewrite Ha.
  - cbn [char_in] in H1, H2. boolp. unfold is_brace.
    rewrite !bool_decide_eq_false_2 by done. cbn [orb]. rewrite IH by done. done.
Qed.

(** A token is replaced by its value; the value is not scanned again. *)
Lemma resolved_token repl content rest :
  content <> EmptyString -> char_in "{" content = false -> char_in "}" content = false ->
  resolved repl ("{{" +:+ content +:+ "}}" +:+ rest) = repl content +:+ resolved repl rest.
Proof.
  intros Hne H1 H2. unfold resolved.
  assert (token_at ("{{" +:+ content +:+ "}}" +:+ rest) = Some (content, rest)) as E.
  { destruct content as [|a content]; [done|].
    change ("{{" +:+ String a content +:+ "}}" +:+ rest)
      with (String "{" (String "{" (String a content +:+ String "}" (String "}" rest)))).
    cbn [token_at]. rewrite span_plain_app by done. done. }
  pose proof (token_at_length _ _ _ E) as Hl.
  destruct (String.length ("{{" +:+ content +:+ "}}" +:+ rest)) as [|n]; [lia|].
  cbn [replace_tokens]. rewrite E. f_equal.
  apply replace_tokens_fuel; lia.
Qed.

(** Resolving a template keeps the text around tokens, replaces each token
    by the value of its path, its secret or the clock, and never looks into the
    values it put in: case data cannot bring in a reference to a secret. *)
Theorem ResolveTemplateString_correct (now_text : string) (secret : option (string -> string))
    (fmtFloat fmtFloat_v : Qc -> string) (pre content rest : string) (ctx : object)
    (Hpre : char_in "{" pre = false) (Hne : content <> EmptyString)
    (H1 : char_in "{" content = false) (H2 : char_in "}" content = false) :
  let resolve s := ResolveTemplateString now_text secret fmtFloat fmtFloat_v s ctx in
  resolve pre = pre /\
  resolve (pre +:+ "{{" +:+ content +:+ "}}" +:+ rest) =
    pre +:+ resolve_token now_text secret fmtFloat fmtFloat_v ctx content +:+ resolve rest.
Proof.
  intros resolve. split.
  - unfold resolve, ResolveTemplateString. fold (resolved (resolve_token now_text secret fmtFloat fmtFloat_v ctx) pre).
    rewrite <- (append_nil_r pre) at 1. rewrite resolved_plain by done. by rewrite append_nil_r.
  - etrans; [apply (resolved_plain _ pre); done|]. f_equal. by apply resolved_token.
Qed.

Lemma ResolveTemplateString_correct_witness :
  ResolveTemplateString "t" (Some (fun _ => "s3cret")) (fun _ => "0") (fun _ => "0")
    "a {{ case.name }}-b" [("case", JObj [("name", JStr "{{secrets.k}}")])] =
  "a {{secrets.k}}-b".
Proof.
  exact (proj2 (ResolveTemplateString_correct "t" (Some (fun _ => "s3cret")) (fun _ => "0") (fun _ => "0")
    "a " " case.name " "-b" [("case", JObj [("name", JStr "{{secrets.k}}")])]
    eq_refl ltac:(discriminate) eq_refl eq_refl)).
Defined.

(** Resolution keeps the shape of a value: objects keep their keys, arrays their length. *)
Lemma ResolveTemplateAny_keys now_text secret f g m ctx :
  match ResolveTemplateAny now_text secret f g (JObj m) ctx with
  | JObj m' => map fst m' = map fst m
  | _ => False
  end.
Proof. simpl. rewrite map_map. apply map_ext. by intros []. Qed.
