(* ===== verification/McpClient.v ===== *)
(** * The client of MCP servers ([internal/mcp])

    The circuit breaker, the naming of tools, the guards against recursive
    calls, the JSON-RPC client, the cache of discovered tools, the manager that
    puts them together, its refresher and API, and the executor of MCP steps.
    The network, the secret store, URL parsing and JSON text are parameters. *)

From S2P Require Import Prelude GoStrings Json EngineTypes Store GoText Effects TaskForms.

(** ** Data ([types.go], [circuit.go]) *)

Record AuthConfig : Type := mkAuthConfig {
  acType : string;
  acSecretRef : string;
  acHeaderName : string
}.

Record MCPTool : Type := mkMCPTool {
  toolName : string;
  toolDescription : string;
  toolInputSchema : option json
}.

Record MCPContent : Type := mkMCPContent { mcType : string; mcText : string }.

(** A content that is absent ([nil]) is told apart from an empty one. *)
Record MCPToolResult : Type := mkMCPToolResult {
  resContent : option (list MCPContent);
  resIsError : bool
}.

Record InvokeRequest : Type := mkInvokeRequest {
  irTenantID : uuid;
  irServerURL : string;
  irAuth : AuthConfig;
  irToolName : string;
  irArguments : option json;
  irDepth : Z;
  irTimeoutMS : Z
}.

Inductive CircuitState : Type := CircuitClosed | CircuitOpen | CircuitHalfOpen.

#[export] Instance CircuitState_eq_dec : EqDecision CircuitState.
Proof. solve_decision. Defined.

Record CircuitBreaker : Type := mkCircuitBreaker {
  cbState : CircuitState;
  failureCount : Z;
  lastFailure : Z;
  lastAttempt : Z;
  coolDown : Z;
  failThreshold : Z;
  failWindow : Z;
  halfOpenProbe : bool
}.

(** ** The circuit breaker ([circuit.go]); each method holds the lock throughout *)

Definition NewCircuitBreaker (coolDown failThreshold failWindow : Z) : CircuitBreaker :=
  let coolDown := if coolDown <=? 0 then 60 * Second else coolDown in
  let failThreshold := if failThreshold <=? 0 then 5 else failThreshold in
  let failWindow := if failWindow <=? 0 then 5 * Minute else failWindow in
  mkCircuitBreaker CircuitClosed 0 time_zero time_zero coolDown failThreshold failWindow false.

Definition breaker_open_error : goerr := Errorf "circuit breaker open — recent failures" [].

Definition set_attempt (now : Z) (cb : CircuitBreaker) : CircuitBreaker :=
  mkCircuitBreaker (cbState cb) (failureCount cb) (lastFailure cb) now (coolDown cb)
    (failThreshold cb) (failWindow cb) (halfOpenProbe cb).
Definition set_half_open (probe : bool) (cb : CircuitBreaker) : CircuitBreaker :=
  mkCircuitBreaker CircuitHalfOpen (failureCount cb) (lastFailure cb) (lastAttempt cb) (coolDown cb)
    (failThreshold cb) (failWindow cb) probe.

(** The code after the switch: the single probe of a half-open breaker. *)
Definition allow_probe (now : Z) (cb : CircuitBreaker) : result goerr unit * CircuitBreaker :=
  if halfOpenProbe cb then (Err breaker_open_error, cb)
  else (Ok tt, set_attempt now (set_half_open true cb)).

Definition Allow (now : Z) (cb : CircuitBreaker) : result goerr unit * CircuitBreaker :=
  match cbState cb with
  | CircuitClosed => (Ok tt, set_attempt now cb)
  | CircuitOpen =>
      if coolDown cb <=? time_Sub now (lastFailure cb)
      then allow_probe now (set_half_open false cb)
      else (Err breaker_open_error, cb)
  | CircuitHalfOpen => allow_probe now cb
  end.

Definition RecordSuccess (cb : CircuitBreaker) : CircuitBreaker :=
  mkCircuitBreaker CircuitClosed 0 time_zero (lastAttempt cb) (coolDown cb)
    (failThreshold cb) (failWindow cb) false.

Definition RecordFailure (now : Z) (cb : CircuitBreaker) : CircuitBreaker :=
  match cbState cb with
  | CircuitHalfOpen =>
      mkCircuitBreaker CircuitOpen (failureCount cb) now (lastAttempt cb) (coolDown cb)
        (failThreshold cb) (failWindow cb) false
  | _ =>
      let base := if (lastFailure cb =? time_zero) || (failWindow cb <? time_Sub now (lastFailure cb))
                  then 0 else failureCount cb in
      let count := wrap64 (base + 1) in
      mkCircuitBreaker (if failThreshold cb <=? count then CircuitOpen else cbState cb) count now
        (lastAttempt cb) (coolDown cb) (failThreshold cb) (failWindow cb) (halfOpenProbe cb)
  end.

(** ** Naming of tools ([naming.go]) *)

Definition sanitize (s : string) : string :=
  let s := TrimSpace s in
  let s := replace_runs is_alnum "_" false s in
  let s := Trim s "_" in
  let s := ToLower s in
  if decide (s = EmptyString) then "server" else s.

Definition PrefixToolName (serverPrefix toolName : string) : string :=
  "mcp_" +:+ sanitize serverPrefix +:+ "_" +:+ sanitize toolName.

Definition prefixed_name_error : goerr := Errorf "invalid prefixed tool name" [].

Definition UnprefixToolName (prefixedName : string) : result goerr (string * string) :=
  if negb (HasPrefix prefixedName "mcp_") then Err prefixed_name_error
  else match Cut "_" (TrimPrefix prefixedName "mcp_") with
       | None => Err prefixed_name_error
       | Some (a, b) =>
           if bool_decide (TrimSpace a = EmptyString) || bool_decide (TrimSpace b = EmptyString)
           then Err prefixed_name_error else Ok (a, b)
       end.

(** ** Call depth and time limits ([depth.go], [timeout.go]) *)

Definition DefaultMaxDepth : Z := 3.

(** What the code keeps in a [context.Context]. *)
Record Ctx : Type := mkCtx { ctxDeadline : option Z; ctxDepth : option Z }.

Definition WithDepth (ctx : Ctx) (depth : Z) : Ctx := mkCtx (ctxDeadline ctx) (Some depth).

Definition CheckDepth (depth maxDepth : Z) : result goerr unit :=
  let maxDepth := if maxDepth <=? 0 then DefaultMaxDepth else maxDepth in
  if maxDepth <? depth then Err (Errorf "MCP call depth exceeded (max: %d)" [Itoa maxDepth])
  else Ok tt.

Definition getDepthFromContext (ctx : Ctx) : Z :=
  match ctxDepth ctx with
  | Some v => if 0 <=? v then v else 0
  | None => 0
  end.

Definition defaultRequestTimeout : Z := 30 * Second.

(** The timeout [CascadeTimeout] computes, [remaining] being the time to the
    deadline of the context. *)
Definition cascade (configuredTimeoutMS : Z) (remaining : option Z) : Z :=
  let ms := if configuredTimeoutMS <=? 0 then defaultRequestTimeout / Millisecond
            else configuredTimeoutMS in
  let toolTimeout := wrap64 (ms * Millisecond) in
  let toolTimeout := match remaining with
                     | Some r => if r <? toolTimeout then r else toolTimeout
                     | None => toolTimeout
                     end in
  if toolTimeout <=? 0 then Millisecond else toolTimeout.

(** [context.WithTimeout]: the earlier of the two deadlines. *)
Definition WithTimeout (ctx : Ctx) (now timeout : Z) : Ctx :=
  let d := now + timeout in
  mkCtx (Some (match ctxDeadline ctx with Some p => Z.min p d | None => d end)) (ctxDepth ctx).

Definition CascadeTimeout `{R : Runtime} {T} (ctx : Ctx) (configuredTimeoutMS : Z) : Svc T Ctx :=
  remaining ← (match ctxDeadline ctx with
               | Some deadline => now ← nowS; mret (Some (time_Sub deadline now))
               | None => mret None
               end);
  now ← nowS;
  mret (WithTimeout ctx now (cascade configuredTimeoutMS remaining)).

(** ** HTTP *)

Record Body : Type := mkBody { bodyText : string; bodyReadErr : option goerr }.

Record HTTPRequest : Type := mkHTTPRequest {
  rqURL : string;
  rqHeader : list (string * string);
  rqBody : json
}.

Record HTTPResponse : Type := mkHTTPResponse {
  rsStatus : Z;
  rsContentType : string;
  rsBody : Body
}.

(** [Header.Set]: header names match without regard to case. *)
Definition header_set (k v : string) (h : list (string * string)) : list (string * string) :=
  filter (fun kv => EqualFold kv.1 k = false) h ++ [(k, v)].

Fixpoint header_get (k : string) (h : list (string * string)) : option string :=
  match h with
  | [] => None
  | (k', v) :: h' => if EqualFold k' k then Some v else header_get k h'
  end.

Class McpEnv : Type := mkMcpEnv {
  http_Do : nat -> HTTPRequest -> result (bool * goerr) HTTPResponse;
  secret_Get : nat -> uuid -> string -> result goerr string;
  url_Host : string -> result goerr string;
  request_URL : string -> option goerr;
  os_Hostname : option string;
  json_Decode : Body -> result goerr json
}.

(** The state: the table [mcp_server_cache], the breakers of the manager, and
    the requests that went to the network. *)
Record CacheRow : Type := mkCacheRow {
  crTools : json;
  crLastDiscovered : Z;
  crStatus : string;
  crErrorMessage : option string
}.

Record McpState : Type := mkMcpState {
  mcp_server_cache : gmap (uuid * string) CacheRow;
  circuitBreakers : gmap (string * string) CircuitBreaker;
  sent : list HTTPRequest
}.

Definition set_cache (f : gmap (uuid * string) CacheRow -> gmap (uuid * string) CacheRow)
    (s : McpState) : McpState :=
  mkMcpState (f (mcp_server_cache s)) (circuitBreakers s) (sent s).
Definition set_breakers (f : gmap (string * string) CircuitBreaker -> gmap (string * string) CircuitBreaker)
    (s : McpState) : McpState :=
  mkMcpState (mcp_server_cache s) (f (circuitBreakers s)) (sent s).
Definition add_sent (rq : HTTPRequest) (s : McpState) : McpState :=
  mkMcpState (mcp_server_cache s) (circuitBreakers s) (sent s ++ [rq]).

(** ** The guard against calls of this instance ([recursion.go]) *)

Definition splitHostPort (hostport : string) : string * string :=
  let hostport := TrimSpace hostport in
  if decide (hostport = EmptyString) then (EmptyString, EmptyString)
  else match SplitHostPort hostport with
       | Some (h, p) => (h, p)
       | None =>
           if decide (CountByte ":" hostport = O) then (hostport, EmptyString)
           else let parts := Split ":" hostport in
                (Join ":" (removelast parts), default EmptyString (last parts))
       end.

Definition normalizeHostPort (hostport : string) : string :=
  let '(h, p) := splitHostPort hostport in
  let h := Trim (ToLower (TrimSpace h)) "[]" in
  let p := TrimSpace p in
  if decide (h = EmptyString) then EmptyString
  else if decide (p = EmptyString) then h
  else JoinHostPort h p.

Definition is_loopback (a : string) : bool :=
  bool_decide (a ∈ ["localhost"; "127.0.0.1"; "0.0.0.0"]).

Definition hostsEquivalent (a b : string) : bool :=
  let a := ToLower (TrimSpace (Trim a "[]")) in
  let b := ToLower (TrimSpace (Trim b "[]")) in
  bool_decide (a = b) || (is_loopback a && is_loopback b).

Section Client.
Context `{R : Runtime} `{E : McpEnv}.

(** The hosts of the configured URLs of this instance, and their ports. *)
Definition self_hosts (selfURLs : list string) : list string :=
  filter (fun h => h <> EmptyString)
    (omap (fun u => match url_Host (TrimSpace u) with
                    | Ok h => Some (normalizeHostPort h)
                    | Err _ => None
                    end) selfURLs).
Definition self_ports (hosts : list string) : list string :=
  filter (fun p => p <> EmptyString) (map (fun h => (splitHostPort h).2) hosts).
Definition self_names : list string :=
  match os_Hostname with
  | Some h => if decide (TrimSpace h = EmptyString) then [] else [h]
  | None => []
  end ++ ["localhost"; "127.0.0.1"; "0.0.0.0"].
Definition all_self_hosts (selfURLs : list string) : list string :=
  let hosts := self_hosts selfURLs in
  hosts ++ (name ← self_names;
            port ← self_ports hosts;
            [normalizeHostPort (JoinHostPort name port)]).

Definition recursive_error : goerr :=
  Errorf "recursive MCP invocation blocked: target is this Aceryx instance" [].

(** Target [t] is one of the [selfs], or has their port on an equivalent host. *)
Definition self_target (selfs : list string) (t : string) : bool :=
  bool_decide (t ∈ selfs) ||
  (let '(hostOnly, port) := splitHostPort t in
   negb (bool_decide (hostOnly = EmptyString)) && negb (bool_decide (port = EmptyString)) &&
   existsb (fun self => let '(shost, sport) := splitHostPort self in
                        bool_decide (sport = port) && hostsEquivalent hostOnly shost) selfs).

Definition CheckSelfInvocation (selfURLs : list string) (serverURL : string) : result goerr unit :=
  match url_Host (TrimSpace serverURL) with
  | Err e => Err (Wrapf "invalid server URL: %w" [] e)
  | Ok host =>
      let targetHost := normalizeHostPort host in
      if decide (targetHost = EmptyString) then Err (Errorf "invalid server URL host" [])
      else if self_target (all_self_hosts selfURLs) targetHost then Err recursive_error
      else Ok tt
  end.

(** ** JSON-RPC ([client.go]) *)

Record Client : Type := mkClient { clServerURL : string; clAuth : AuthConfig }.

Definition NewClient (serverURL : string) (auth : AuthConfig) : Client :=
  mkClient (TrimSpace serverURL) auth.

(** [jsonRPCResponse], with the message of its error. *)
Record jsonRPCResponse : Type := mkjsonRPCResponse {
  rpVersion : string;
  rpResult : option json;
  rpError : option string
}.

Definition dec_raw (j : json) : result goerr (option json) := Ok (Some j).
Definition dec_rpc_error (j : json) : result goerr (option string) :=
  match j with
  | JNull => Ok None
  | JObj m => _ ← dec_field "code" dec_int 0 m;
              msg ← dec_field "message" dec_string EmptyString m; Ok (Some msg)
  | _ => Err (unmarshal_type_error "mcp.jsonRPCError")
  end.
Definition dec_response (j : json) : result goerr jsonRPCResponse :=
  match j with
  | JObj m =>
      v ← dec_field "jsonrpc" dec_string EmptyString m;
      _ ← dec_field "id" dec_int 0 m;
      r ← dec_field "result" dec_raw None m;
      e ← dec_field "error" dec_rpc_error None m;
      Ok (mkjsonRPCResponse v r e)
  | JNull => Ok (mkjsonRPCResponse EmptyString None None)
  | _ => Err (unmarshal_type_error "mcp.jsonRPCResponse")
  end.

Definition decodeJSONRPCResponse (b : Body) : result goerr jsonRPCResponse :=
  match json_Decode b ≫= dec_response with
  | Err e => Err (Wrapf "invalid JSON-RPC response: %w" [] e)
  | Ok resp =>
      match rpError resp with
      | Some msg => Err (Errorf "mcp rpc error: %s" [TrimSpace msg])
      | None =>
          if decide (TrimSpace (rpVersion resp) = "2.0") then Ok resp
          else Err (Errorf "invalid JSON-RPC response: missing jsonrpc=2.0" [])
      end
  end.

Definition newline : string := byte 10.

(** The loop over the lines of an event stream. *)
Fixpoint sse_loop (lines : list (option string)) (readErr : option goerr) (dataLines : list string)
    : result goerr jsonRPCResponse :=
  match lines with
  | [] =>
      match readErr with
      | Some e => Err (Wrapf "read sse stream: %w" [] e)
      | None => Err (Errorf "invalid JSON-RPC response: no SSE data event" [])
      end
  | None :: _ => Err (Wrapf "read sse stream: %w" [] (Errorf "bufio.Scanner: token too long" []))
  | Some line :: rest =>
      if decide (line = EmptyString) then
        if decide (dataLines = []) then sse_loop rest readErr dataLines
        else decodeJSONRPCResponse (mkBody (Join newline dataLines) None)
      else if HasPrefix line "data:"
      then sse_loop rest readErr (dataLines ++ [TrimSpace (TrimPrefix line "data:")])
      else sse_loop rest readErr dataLines
  end.

Definition decodeSSEResponse (b : Body) : result goerr jsonRPCResponse :=
  sse_loop (scan_lines (bodyText b)) (bodyReadErr b) [].

Definition applyAuth (auth : AuthConfig) (h : list (string * string)) : list (string * string) :=
  let authType := ToLower (TrimSpace (acType auth)) in
  let secret := TrimSpace (acSecretRef auth) in
  if bool_decide (authType = EmptyString) || bool_decide (authType = "none") ||
     bool_decide (secret = EmptyString) then h
  else if bool_decide (authType = "bearer") || bool_decide (authType = "oauth2")
  then header_set "Authorization" ("Bearer " +:+ secret) h
  else if decide (authType = "api_key")
  then let header := TrimSpace (acHeaderName auth) in
       header_set (if decide (header = EmptyString) then "X-API-Key" else header) secret h
  else h.

Definition setDepthHeader (depth : Z) (h : list (string * string)) : list (string * string) :=
  header_set "X-MCP-Depth" (Itoa depth) h.
Definition setTimeoutHeader (timeout : Z) (h : list (string * string)) : list (string * string) :=
  let timeout := if timeout <? 0 then 0 else timeout in
  header_set "X-MCP-Timeout-Ms" (Itoa (timeout / Millisecond)) h.

Definition request_headers (c : Client) (ctx : Ctx) (untilDeadline : option Z) : list (string * string) :=
  let h := header_set "Content-Type" "application/json" [] in
  let h := header_set "Accept" "application/json, text/event-stream" h in
  let h := setDepthHeader (getDepthFromContext ctx) h in
  let h := match untilDeadline with Some d => setTimeoutHeader d h | None => h end in
  applyAuth (clAuth c) h.

(** The answer of the server, past the transport. *)
Definition handle_response (resp : HTTPResponse) : result goerr jsonRPCResponse :=
  if 500 <=? rsStatus resp
  then Err (Errorf "mcp server error: status %d" [Itoa (rsStatus resp)])
  else if (rsStatus resp <? 200) || (300 <=? rsStatus resp)
  then Err (Errorf "mcp request failed: status %d body %s"
              [Itoa (rsStatus resp); TrimSpace (String.substring 0 4096 (bodyText (rsBody resp)))])
  else if Contains (ToLower (TrimSpace (rsContentType resp))) "text/event-stream"
  then decodeSSEResponse (rsBody resp)
  else decodeJSONRPCResponse (rsBody resp).

Definition transport_error (c : Client) (err : bool * goerr) : goerr :=
  if err.1 then Errorf "MCP server unreachable: %s" [clServerURL c]
  else Wrapf "mcp request failed: %w" [] err.2.

Definition sendRPC (c : Client) (ctx : Ctx) (payload : json) : Svc McpState jsonRPCResponse :=
  _ ← (match request_URL (clServerURL c) with
       | Some e => fail (Wrapf "build mcp request: %w" [] e)
       | None => mret tt
       end);
  until ← (match ctxDeadline ctx with
           | Some deadline => now ← nowS; mret (Some (time_Sub deadline now))
           | None => mret None
           end);
  let rq := mkHTTPRequest (clServerURL c) (request_headers c ctx until) payload in
  _ ← changes (add_sent rq);
  resp ← callS (fun k => match http_Do k rq with
                         | Ok resp => Ok resp
                         | Err err => Err (transport_error c err)
                         end);
  pureS (handle_response resp).

(** [jsonRPCRequest], marshalled. *)
Definition rpc_request (method : string) (id : Z) (params : option json) : json :=
  JObj (mk_obj ([("jsonrpc", JStr "2.0"); ("method", JStr method); ("id", JInt id)] ++
                match params with Some p => [("params", p)] | None => [] end)).

(** [json.Unmarshal] of a message that may be empty. *)
Definition unmarshal {A} (dec : json -> result goerr A) (raw : option json) : result goerr A :=
  match raw with
  | Some j => dec j
  | None => Err (Errorf "unexpected end of JSON input" [])
  end.

Definition dec_tool (j : json) : result goerr MCPTool :=
  match j with
  | JObj m =>
      n ← dec_field "name" dec_string EmptyString m;
      d ← dec_field "description" dec_string EmptyString m;
      s ← dec_field "inputSchema" dec_raw None m;
      Ok (mkMCPTool n d s)
  | JNull => Ok (mkMCPTool EmptyString EmptyString None)
  | _ => Err (unmarshal_type_error "mcp.MCPTool")
  end.
Definition dec_tools_payload (j : json) : result goerr (list MCPTool) :=
  match j with
  | JObj m => dec_field "tools" (dec_list dec_tool) [] m
  | JNull => Ok []
  | _ => Err (unmarshal_type_error "struct")
  end.

Definition dec_content (j : json) : result goerr MCPContent :=
  match j with
  | JObj m =>
      t ← dec_field "type" dec_string EmptyString m;
      x ← dec_field "text" dec_string EmptyString m;
      Ok (mkMCPContent t x)
  | JNull => Ok (mkMCPContent EmptyString EmptyString)
  | _ => Err (unmarshal_type_error "mcp.MCPContent")
  end.
Definition dec_contents (j : json) : result goerr (option (list MCPContent)) :=
  match j with
  | JNull => Ok None
  | _ => l ← dec_list dec_content j; Ok (Some l)
  end.
Definition dec_tool_result (j : json) : result goerr MCPToolResult :=
  match j with
  | JObj m =>
      c ← dec_field "content" dec_contents None m;
      e ← dec_field "isError" dec_bool false m;
      Ok (mkMCPToolResult c e)
  | JNull => Ok (mkMCPToolResult None false)
  | _ => Err (unmarshal_type_error "mcp.MCPToolResult")
  end.

Definition Discover (c : Client) (ctx : Ctx) : Svc McpState (list MCPTool) :=
  resp ← sendRPC c ctx (rpc_request "tools/list" 1 None);
  wrapS (Wrapf "parse tools/list result: %w" []) (pureS (unmarshal dec_tools_payload (rpResult resp))).

Definition Invoke (c : Client) (ctx : Ctx) (toolName : string) (arguments : option json)
    : Svc McpState MCPToolResult :=
  _ ← guardS (negb (bool_decide (TrimSpace toolName = EmptyString)))
        (Errorf "tool name is required" []);
  resp ← sendRPC c ctx (rpc_request "tools/call" 2
    (Some (JObj (mk_obj [("name", JStr toolName); ("arguments", default (JObj []) arguments)]))));
  wrapS (Wrapf "parse tools/call result: %w" []) (pureS (unmarshal dec_tool_result (rpResult resp))).

End Client.
