(* ===== verification/McpBreaker.v ===== *)
(** * The circuit breaker implements an abstract machine

    The breaker keeps a count and a time; what it promises is a machine that
    keeps the failures of the current burst themselves: closed while a burst is
    shorter than the threshold, open for the cool-down after the last failure,
    then one probe at a time. *)

From S2P Require Import Prelude GoStrings Json EngineTypes Store GoText Effects TaskForms McpClient.

(** ** The abstract machine *)

Inductive spec_breaker : Type :=
  | SClosed (burst : list Z)
  | SOpen (since : Z)
  | SProbing.

Inductive breaker_event : Type :=
  | EvAllow (now : Z)
  | EvSuccess
  | EvFailure (now : Z).

Section Spec.
Context (cool threshold window : Z).

(** The failures that still count when one more comes at [now]. *)
Definition still_counting (now : Z) (burst : list Z) : list Z :=
  match last burst with
  | Some t => if window <? time_Sub now t then [] else burst
  | None => []
  end.

Definition spec_step (b : spec_breaker) (e : breaker_event) : bool * spec_breaker :=
  match e, b with
  | EvAllow _, SClosed _ => (true, b)
  | EvAllow now, SOpen since =>
      if cool <=? time_Sub now since then (true, SProbing) else (false, b)
  | EvAllow _, SProbing => (false, b)
  | EvSuccess, _ => (true, SClosed [])
  | EvFailure now, SClosed burst =>
      let burst' := still_counting now burst ++ [now] in
      (true, if threshold <=? Z.of_nat (length burst') then SOpen now else SClosed burst')
  | EvFailure now, _ => (true, SOpen now)
  end.
End Spec.

(** ** The code as a machine on the same events *)

Definition breaker_step (cb : CircuitBreaker) (e : breaker_event) : bool * CircuitBreaker :=
  match e with
  | EvAllow now => let '(r, cb') := Allow now cb in (is_ok r, cb')
  | EvSuccess => (true, RecordSuccess cb)
  | EvFailure now => (true, RecordFailure now cb)
  end.

Fixpoint run {S} (step : S -> breaker_event -> bool * S) (s : S) (es : list breaker_event)
    : list bool * S :=
  match es with
  | [] => ([], s)
  | e :: es' =>
      let '(b, s1) := step s e in
      let '(bs, s2) := run step s1 es' in (b :: bs, s2)
  end.

(** The settings do not change, and a threshold is a positive [int]. *)
Definition settings (cb : CircuitBreaker) : Z * Z * Z := (coolDown cb, failThreshold cb, failWindow cb).
Definition sane_threshold (t : Z) : Prop := 0 < t <= int64_max.

(** How a breaker represents an abstract state. *)
Definition represents (cb : CircuitBreaker) (b : spec_breaker) : Prop :=
  match b with
  | SClosed burst =>
      cbState cb = CircuitClosed /\ halfOpenProbe cb = false /\
      failureCount cb = Z.of_nat (length burst) /\ failureCount cb < failThreshold cb /\
      lastFailure cb = default time_zero (last burst) /\ Forall (fun t => t <> time_zero) burst
  | SOpen since => cbState cb = CircuitOpen /\ halfOpenProbe cb = false /\ lastFailure cb = since
  | SProbing => cbState cb = CircuitHalfOpen /\ halfOpenProbe cb = true
  end.

Definition event_time_ok (e : breaker_event) : Prop :=
  match e with EvFailure now => now <> time_zero | _ => True end.

Lemma New_represents c t w : sane_threshold (failThreshold (NewCircuitBreaker c t w)) ->
  represents (NewCircuitBreaker c t w) (SClosed []).
Proof. intros [H _]. repeat split; [done|constructor]. Qed.

(** A failure while closed: the count is the length of the burst. *)
Lemma closed_failure now cb burst :
  represents cb (SClosed burst) -> sane_threshold (failThreshold cb) -> now <> time_zero ->
  represents (RecordFailure now cb)
    (spec_step (coolDown cb) (failThreshold cb) (failWindow cb) (SClosed burst) (EvFailure now)).2.
Proof.
  intros (Hs & Hp & Hc & Hlt & Hl & Hf) Hthr Hnow. unfold RecordFailure, spec_step. rewrite Hs. cbv zeta. cbn [snd].
  assert (wrap64 ((if (lastFailure cb =? time_zero) || (failWindow cb <? time_Sub now (lastFailure cb))
                   then 0 else failureCount cb) + 1)
          = Z.of_nat (length (still_counting (failWindow cb) now burst ++ [now]))) as Hw.
  { rewrite length_app. cbn [length]. unfold still_counting.
    destruct (last burst) as [t|] eqn:El; cbn [from_option id] in Hl.
    - assert (t <> time_zero) as Ht.
      { apply last_Some in El as [l ->]. apply Forall_app in Hf as [_ Hf]. by inversion Hf. }
      rewrite Hl. rewrite (proj2 (Z.eqb_neq t time_zero) Ht). cbn [orb].
      destruct (failWindow cb <? time_Sub now t); cbn [length].
      + by rewrite wrap64_id by (unfold in_int64, int64_min, int64_max; lia).
      + rewrite wrap64_id; [lia|]. unfold sane_threshold, in_int64, int64_min in *. lia.
    - rewrite Hl, Z.eqb_refl. cbn [orb length].
      by rewrite wrap64_id by (unfold in_int64, int64_min, int64_max; lia). }
  rewrite Hw. destruct (Z.leb_spec (failThreshold cb)
    (Z.of_nat (length (still_counting (failWindow cb) now burst ++ [now])))) as [Hle|Hgt]; cbn.
  - by rewrite Hp.
  - repeat split; try done.
    + by rewrite last_snoc.
    + apply Forall_app. split; [|by constructor]. unfold still_counting.
      destruct (last burst); [|constructor]. destruct (_ <? _) in |- *; [constructor|done].
Qed.

(** One step: the same answer, and the states stay related. *)
Lemma step_simulates cb b e :
  represents cb b -> sane_threshold (failThreshold cb) -> event_time_ok e ->
  (breaker_step cb e).1 = (spec_step (coolDown cb) (failThreshold cb) (failWindow cb) b e).1 /\
  represents (breaker_step cb e).2
    (spec_step (coolDown cb) (failThreshold cb) (failWindow cb) b e).2 /\
  settings (breaker_step cb e).2 = settings cb.
Proof.
  intros Hr Hthr He. destruct e as [now| |now].
  - unfold breaker_step, Allow. destruct b as [burst|since|]; cbn [spec_step].
    + destruct Hr as (Hs & ? & ? & ? & ? & ?). rewrite Hs. cbn. by rewrite Hs.
    + destruct Hr as (Hs & Hp & Hl). rewrite Hs, Hl.
      destruct (coolDown cb <=? time_Sub now since); cbn; [done|]. by rewrite Hs.
    + destruct Hr as (Hs & Hp). rewrite Hs. unfold allow_probe. rewrite Hp. cbn. done.
  - cbn. split; [done|]. split; [|done]. destruct b; cbn; repeat split; try done; try apply Hthr; constructor.
  - split; [by destruct b|]. split.
    + destruct b as [burst|since|]; [by apply closed_failure| |].
      * destruct Hr as (Hs & Hp & Hl). unfold breaker_step, RecordFailure. rewrite Hs, Hp. cbn.
        by case_match.
      * destruct Hr as (Hs & Hp). unfold breaker_step, RecordFailure. rewrite Hs. cbn. done.
    + unfold breaker_step, RecordFailure. by destruct (cbState cb).
Qed.

Lemma run_simulates cb b es :
  represents cb b -> sane_threshold (failThreshold cb) -> Forall event_time_ok es ->
  let spec := spec_step (coolDown cb) (failThreshold cb) (failWindow cb) in
  (run breaker_step cb es).1 = (run spec b es).1 /\
  represents (run breaker_step cb es).2 (run spec b es).2 /\
  settings (run breaker_step cb es).2 = settings cb.
Proof.
  revert cb b. induction es as [|e es IH]; intros cb b Hr Hthr He; [done|].
  apply Forall_cons in He as [He Hes]. intros spec. cbn [run].
  destruct (step_simulates cb b e Hr Hthr He) as (H1 & H2 & H3).
  destruct (breaker_step cb e) as [r cb1], (spec b e) as [r' b1] eqn:Eb.
  unfold spec in Eb. rewrite Eb in H1, H2. cbn [fst snd] in *.
  unfold settings in H3. injection H3 as Hc Ht Hw.
  destruct (IH cb1 b1) as (I1 & I2 & I3); [done|by rewrite Ht|done|].
  rewrite Hc, Ht, Hw in I1, I2. unfold spec.
  destruct (run breaker_step cb1 es) as [bs cb2], (run _ b1 es) as [bs' b2]. cbn in *.
  rewrite H1, I1. split; [done|]. split; [done|]. rewrite I3. unfold settings. congruence.
Qed.

(** C19. The circuit breaker implements its contract: on every sequence of
    attempts, successes and failures it gives the same answers as the machine
    that remembers the failures of the current burst. Calls pass while fewer
    failures than the threshold lie within the window of each other, are refused
    for the cool-down after the last failure, and then pass one at a time until
    a result is recorded. *)
Theorem CircuitBreaker_refines (c t w : Z) (es : list breaker_event)
    (Ht : t <= int64_max) (He : Forall event_time_ok es) :
  let cb := NewCircuitBreaker c t w in
  let spec := spec_step (coolDown cb) (failThreshold cb) (failWindow cb) in
  (run breaker_step cb es).1 = (run spec (SClosed []) es).1 /\
  represents (run breaker_step cb es).2 (run spec (SClosed []) es).2.
Proof.
  intros cb spec.
  assert (sane_threshold (failThreshold cb)) as Hs.
  { cbn. unfold sane_threshold, int64_max in *. destruct (Z.leb_spec t 0); lia. }
  destruct (run_simulates cb (SClosed []) es) as (H1 & H2 & _); [by apply New_represents|done|done|].
  done.
Qed.

Lemma CircuitBreaker_refines_witness :
  (run breaker_step (NewCircuitBreaker 10 2 100)
     [EvFailure 1; EvFailure 2; EvAllow 5; EvAllow 12; EvAllow 13; EvSuccess; EvAllow 14]).1 =
  [true; true; false; true; false; true; true].
Proof.
  exact (eq_trans (proj1 (CircuitBreaker_refines 10 2 100
    [EvFailure 1; EvFailure 2; EvAllow 5; EvAllow 12; EvAllow 13; EvSuccess; EvAllow 14]
    ltac:(done) ltac:(repeat constructor; done))) eq_refl).
Defined.

(** An open breaker has been open since the latest failure at most. *)
Definition open_by (T : Z) (b : spec_breaker) : Prop :=
  match b with SOpen since => since <= T | _ => True end.

Definition failure_by (T : Z) (e : breaker_event) : Prop :=
  match e with EvFailure now => now <= T | _ => True end.

Lemma run_open_by T c t w es b :
  Forall (failure_by T) es -> open_by T b -> open_by T (run (spec_step c t w) b es).2.
Proof.
  revert b. induction es as [|e es IH]; intros b He Hb; [done|].
  apply Forall_cons in He as [He Hes]. cbn [run].
  destruct (spec_step c t w b e) as [r b1] eqn:E.
  specialize (IH b1 Hes). destruct (run (spec_step c t w) b1 es) as [bs b2]. apply IH.
  destruct e, b; cbn in E; repeat case_match; simplify_eq; done.
Qed.

(** A server comes back: on every sequence of attempts and results, once the
    cool-down has passed since the latest failure and no probe is under way, the
    next call is allowed, and if it succeeds every later call is. *)
Theorem CircuitBreaker_recovers (c t w T : Z) (es : list breaker_event) (now : Z)
    (Ht : t <= int64_max) (He : Forall event_time_ok es) (HT : Forall (failure_by T) es) :
  let cb := (run breaker_step (NewCircuitBreaker c t w) es).2 in
  cbState cb <> CircuitHalfOpen -> T + coolDown cb <= now -> coolDown cb <= int64_max ->
  (Allow now cb).1 = Ok tt /\
  forall later, (Allow later (RecordSuccess (Allow now cb).2)).1 = Ok tt.
Proof.
  intros cb Hprobe Hcool Hmax. split; [|done].
  set (cb0 := NewCircuitBreaker c t w).
  assert (sane_threshold (failThreshold cb0)) as Hs.
  { cbn. unfold sane_threshold, int64_max in *. destruct (Z.leb_spec t 0); lia. }
  destruct (run_simulates cb0 (SClosed []) es) as (_ & Hr & _); [by apply New_represents|done|done|].
  pose proof (run_open_by T (coolDown cb0) (failThreshold cb0) (failWindow cb0) es (SClosed []) HT I) as Ho.
  change ((run breaker_step cb0 es).2) with cb in Hr. clearbody cb. unfold Allow.
  destruct (cbState cb) eqn:Es; [done| |done].
  destruct (run _ (SClosed []) es) as [bs [burst|since|]]; cbn in Hr, Ho;
    [destruct Hr; congruence| |destruct Hr; congruence].
  destruct Hr as (_ & _ & Hl). rewrite Hl.
  assert (coolDown cb <= time_Sub now since) as Hle by (unfold time_Sub; lia).
  by rewrite (proj2 (Z.leb_le _ _) Hle).
Qed.

Lemma CircuitBreaker_recovers_witness :
  let cb := (run breaker_step (NewCircuitBreaker 10 2 100) [EvFailure 1; EvFailure 2]).2 in
  cbState cb = CircuitOpen /\ (Allow 12 cb).1 = Ok tt.
Proof.
  split; [vm_compute; reflexivity|].
  exact (proj1 (CircuitBreaker_recovers 10 2 100 2 [EvFailure 1; EvFailure 2] 12
    ltac:(done) ltac:(repeat constructor; done) ltac:(repeat constructor; cbn; lia)
    ltac:(vm_compute; discriminate) ltac:(vm_compute; discriminate) ltac:(vm_compute; discriminate))).
Defined.
