(* ===== verification/McpManager.v ===== *)
(** * The cache of discovered tools, the manager of MCP servers and its users

    [cache.go], [manager.go], [translate.go], [refresher.go], [api.go] and
    [step.go] of [internal/mcp], over the client of [McpClient]. *)

From S2P Require Import Prelude GoStrings Json EngineTypes Store GoText Effects TaskForms Templates McpClient.

(** ** The cache ([cache.go]) *)

Record ToolCache : Type := mkToolCache { refreshInterval : Z }.

Definition NewToolCache (interval : Z) : ToolCache :=
  mkToolCache (if interval <=? 0 then 24 * Hour else interval).

Record CachedServer : Type := mkCachedServer {
  csTenantID : uuid;
  csServerURL : string;
  csTools : list MCPTool;
  csLastDiscovered : Z;
  csStatus : string;
  csErrorMessage : string;
  csLastDiscoveredAge : Z
}.

(** [json.Marshal] of tools: an absent schema is written as [null]. *)
Definition tool_json (t : MCPTool) : json :=
  JObj (mk_obj [("name", JStr (toolName t)); ("description", JStr (toolDescription t));
                ("inputSchema", default JNull (toolInputSchema t))]).
Definition tools_json (tools : list MCPTool) : json := JArr (map tool_json tools).

Definition decodeTools (raw : json) : result goerr (list MCPTool) :=
  match dec_list dec_tool raw with
  | Ok tools => Ok tools
  | Err e => Err (Wrapf "decode mcp tools cache: %w" [] e)
  end.

Section Manager.
Context `{R : Runtime} `{E : McpEnv}.
Abbreviation McpM := (Svc McpState).

Definition GetTools (tc : ToolCache) (tenantID : uuid) (serverURL : string) : McpM (list MCPTool) :=
  row ← tryS (select_row (fun _ s => mcp_server_cache s !! (tenantID, TrimSpace serverURL)));
  match row with
  | Err e => if decide (e = ErrNoRows) then mret [] else fail (Wrapf "load mcp tool cache: %w" [] e)
  | Ok r =>
      now ← nowS;
      if refreshInterval tc <? time_Sub now (crLastDiscovered r) then mret []
      else pureS (decodeTools (crTools r))
  end.

Definition SetTools (tenantID : uuid) (serverURL : string) (tools : list MCPTool) : McpM unit :=
  wrapS (Wrapf "upsert mcp tool cache: %w" [])
    (exec_update (fun now => set_cache
       <[(tenantID, TrimSpace serverURL) := mkCacheRow (tools_json tools) now "active" None]>)).

Definition SetError (tenantID : uuid) (serverURL : string) (err : goerr) : McpM unit :=
  wrapS (Wrapf "set mcp cache error: %w" [])
    (exec_update (fun now => set_cache
       (alter (fun r => mkCacheRow (crTools r) now "error" (Some (Error err)))
          (tenantID, TrimSpace serverURL)))).

Definition MarkStale (tenantID : uuid) (serverURL : string) : McpM unit :=
  wrapS (Wrapf "mark mcp cache stale: %w" [])
    (exec_update (fun _ => set_cache
       (alter (fun r => mkCacheRow (crTools r) (crLastDiscovered r) "stale" (crErrorMessage r))
          (tenantID, TrimSpace serverURL)))).

Definition Delete (tenantID : uuid) (serverURL : string) : McpM unit :=
  wrapS (Wrapf "delete mcp server cache: %w" [])
    (exec_update (fun _ => set_cache (delete (tenantID, TrimSpace serverURL)))).

Definition cache_row : Type := (uuid * string) * CacheRow.

(** One row; [time.Since] reads the clock. *)
Definition scan_cached_server (kr : cache_row) : McpM CachedServer :=
  let '((tenant, url), r) := kr in
  tools ← pureS (decodeTools (crTools r));
  now ← nowS;
  mret (mkCachedServer tenant url tools (crLastDiscovered r) (crStatus r)
          (default EmptyString (crErrorMessage r)) (time_Sub now (crLastDiscovered r))).

Definition scanCachedServers (rows : list cache_row) : McpM (list CachedServer) :=
  mapS scan_cached_server rows.

Definition ListServers (tenantID : uuid) : McpM (list CachedServer) :=
  rows ← wrapS (Wrapf "list mcp servers: %w" [])
           (select (fun _ s => SliceStable (fun a b : cache_row => str_ltb a.1.2 b.1.2)
              (filter (fun kr : cache_row => kr.1.1 = tenantID) (map_to_list (mcp_server_cache s)))));
  scanCachedServers rows.

Definition ListAllServers : McpM (list CachedServer) :=
  rows ← wrapS (Wrapf "list all mcp servers: %w" [])
           (select (fun _ s => SliceStable
              (fun a b : cache_row => crLastDiscovered a.2 <? crLastDiscovered b.2)
              (map_to_list (mcp_server_cache s))));
  scanCachedServers rows.

(** ** The manager ([manager.go]) *)

Record Manager : Type := mkManager {
  mCache : option ToolCache;
  mHasSecretStore : bool;
  mSelfURLs : list string;
  mMaxDepth : Z
}.

Definition NewManager (cache : option ToolCache) (hasSecretStore : bool) (selfURLs : list string)
    : Manager := mkManager cache hasSecretStore selfURLs DefaultMaxDepth.

Definition resolveAuth (m : Manager) (tenantID : uuid) (cfg : AuthConfig) : McpM AuthConfig :=
  let typ := ToLower (TrimSpace (acType cfg)) in
  if bool_decide (typ = EmptyString) || bool_decide (typ = "none")
  then mret (mkAuthConfig "none" EmptyString (acHeaderName cfg))
  else
    _ ← guardS (negb (bool_decide (TrimSpace (acSecretRef cfg) = EmptyString)))
          (Errorf "auth_secret is required for auth_type %s" [acType cfg]);
    _ ← guardS (mHasSecretStore m) (Errorf "secret store unavailable" []);
    value ← wrapS (Wrapf "resolve auth secret %s: %w" [acSecretRef cfg])
              (callS (fun k => secret_Get k tenantID (acSecretRef cfg)));
    let header := if bool_decide (typ = "api_key") &&
                     bool_decide (TrimSpace (acHeaderName cfg) = EmptyString)
                  then "X-API-Key" else acHeaderName cfg in
    mret (mkAuthConfig typ value header).

Definition cached_tools (m : Manager) (tenantID : uuid) (serverURL : string) : McpM (list MCPTool) :=
  match mCache m with
  | Some tc => GetTools tc tenantID serverURL
  | None => mret []
  end.

(** [if m.cache != nil { ... }] *)
Definition with_cache (m : Manager) (p : McpM unit) : McpM unit :=
  match mCache m with Some _ => p | None => mret tt end.

Definition DiscoverTools (m : Manager) (ctx : Ctx) (tenantID : uuid) (serverURL : string)
    (auth : AuthConfig) : McpM (list MCPTool) :=
  let serverURL := TrimSpace serverURL in
  _ ← guardS (negb (bool_decide (serverURL = EmptyString))) (Errorf "server_url is required" []);
  _ ← pureS (CheckSelfInvocation (mSelfURLs m) serverURL);
  cached ← cached_tools m tenantID serverURL;
  match cached with
  | _ :: _ => mret cached
  | [] =>
      resolvedAuth ← resolveAuth m tenantID auth;
      tools ← on_error (Discover (NewClient serverURL resolvedAuth) ctx)
                (fun err => with_cache m (ignoreS (SetError tenantID serverURL err)));
      _ ← with_cache m (SetTools tenantID serverURL tools);
      mret tools
  end.

Definition cb_key (tenantID : uuid) (serverURL : string) : string * string :=
  (uuid_string tenantID, TrimSpace serverURL).

Definition default_breaker : CircuitBreaker := NewCircuitBreaker (60 * Second) 5 (5 * Minute).

(** The breaker of a server, made on first use. *)
Definition getCircuitBreaker (key : string * string) : McpM unit :=
  changes (set_breakers (fun bs => match bs !! key with
                                   | Some _ => bs
                                   | None => <[key := default_breaker]> bs
                                   end)).

(** A method of the shared breaker: it reads the clock, then changes the breaker. *)
Definition breaker_allow (key : string * string) : McpM unit := fun w =>
  let cb := default default_breaker (circuitBreakers (st w) !! key) in
  let '(r, cb') := Allow (wall_clock (ticks w)) cb in
  (r, mkSys (set_breakers <[key := cb']> (st w)) (S (ticks w))).
Definition breaker_success (key : string * string) : McpM unit :=
  changes (set_breakers (alter RecordSuccess key)).
Definition breaker_failure (key : string * string) : McpM unit :=
  now ← nowS; changes (set_breakers (alter (RecordFailure now) key)).

(** The part of [InvokeTool] after the breaker allowed the call. *)
Definition invoke_allowed (m : Manager) (ctx : Ctx) (req : InvokeRequest) (depth : Z)
    (key : string * string) : McpM MCPToolResult :=
  resolvedAuth ← on_error (resolveAuth m (irTenantID req) (irAuth req))
                   (fun _ => breaker_failure key);
  callCtx ← CascadeTimeout (WithDepth ctx depth) (irTimeoutMS req);
  result ← on_error (Invoke (NewClient (irServerURL req) resolvedAuth) callCtx
                       (irToolName req) (irArguments req))
             (fun _ => _ ← breaker_failure key;
                       with_cache m (ignoreS (MarkStale (irTenantID req) (irServerURL req))));
  _ ← breaker_success key;
  mret result.

Definition InvokeTool (m : Manager) (ctx : Ctx) (req : InvokeRequest) : McpM MCPToolResult :=
  _ ← pureS (CheckSelfInvocation (mSelfURLs m) (irServerURL req));
  let depth := if irDepth req <=? 0 then getDepthFromContext ctx else irDepth req in
  _ ← pureS (CheckDepth depth (mMaxDepth m));
  let key := cb_key (irTenantID req) (irServerURL req) in
  _ ← getCircuitBreaker key;
  _ ← wrapS (fun _ => Errorf "MCP server %s circuit breaker open — recent failures" [irServerURL req])
        (breaker_allow key);
  invoke_allowed m ctx req depth key.

(** ** Tools for language models ([translate.go]) *)

Record ToolDef : Type := mkToolDef {
  tdName : string;
  tdDescription : string;
  tdParameters : object
}.

(** The schema decoded into a map; one that is not an object leaves it empty. *)
Definition schema_params (s : option json) : object :=
  match s with Some (JObj m) => m | _ => [] end.

Definition ToLLMToolDefs (tools : list MCPTool) (prefix : string) (filt : list string) : list ToolDef :=
  let allowed := filter (fun n => n <> EmptyString) filt in
  let kept := match allowed with
              | [] => tools
              | _ => filter (fun t => toolName t ∈ allowed) tools
              end in
  map (fun t => mkToolDef (PrefixToolName prefix (toolName t)) (toolDescription t)
                  (schema_params (toolInputSchema t))) kept.

Definition ToolsForAgent (m : Manager) (ctx : Ctx) (tenantID : uuid) (serverURL prefix : string)
    (toolFilter : list string) : McpM (list ToolDef) :=
  tools ← DiscoverTools m ctx tenantID serverURL (mkAuthConfig "none" EmptyString EmptyString);
  mret (ToLLMToolDefs tools prefix toolFilter).

Definition ToolErrorMessage (result : MCPToolResult) : string :=
  if negb (resIsError result) then EmptyString
  else match filter (fun t => t <> EmptyString) 
                (map (fun c => TrimSpace (mcText c)) (default [] (resContent result))) with
       | [] => "MCP tool returned an error"
       | parts => Join newline parts
       end.

(** ** The refresher ([refresher.go]) *)

Definition refresh_server (m : Manager) (ctx : Ctx) (server : CachedServer) : McpM unit :=
  if bool_decide (TrimSpace (csServerURL server) = EmptyString) ||
     bool_decide (csTenantID server = uuid_Nil) then mret tt
  else
    r ← tryS (DiscoverTools m ctx (csTenantID server) (csServerURL server)
                (mkAuthConfig "none" EmptyString EmptyString));
    match r with
    | Err _ =>
        ignoreS (MarkStale (csTenantID server) (csServerURL server))
    | Ok tools => ignoreS (SetTools (csTenantID server) (csServerURL server) tools)
    end.

Definition refreshOnce (m : Manager) (ctx : Ctx) : McpM unit :=
  servers ← tryS ListAllServers;
  match servers with
  | Err _ => mret tt
  | Ok servers => forS (refresh_server m ctx) servers
  end.

(** ** The API ([api.go]) *)

Definition required_url (serverURL : string) : McpM unit :=
  guardS (negb (bool_decide (TrimSpace serverURL = EmptyString))) (Errorf "server_url is required" []).

Definition API_Discover (m : Manager) (ctx : Ctx) (tenantID : uuid) (serverURL : string)
    (auth : AuthConfig) : McpM (list MCPTool) :=
  _ ← required_url serverURL;
  DiscoverTools m ctx tenantID serverURL auth.

Definition API_Delete (tenantID : uuid) (serverURL : string) : McpM unit :=
  _ ← required_url serverURL;
  Delete tenantID serverURL.

Definition API_Refresh (m : Manager) (ctx : Ctx) (tenantID : uuid) (serverURL : string)
    (auth : AuthConfig) : McpM (list MCPTool) :=
  _ ← required_url serverURL;
  _ ← ignoreS (MarkStale tenantID serverURL);
  DiscoverTools m ctx tenantID serverURL auth.

(** ** The executor of MCP steps ([step.go]) *)

Record StepConfig : Type := mkStepConfig {
  scServerURL : string;
  scAuthType : string;
  scAuthSecret : string;
  scAuthHeader : string;
  scTool : string;
  scArguments : option object;
  scOutputPath : string;
  scTimeoutMS : Z;
  scTimeoutSecond : Z;
  scDepth : Z
}.

Definition dec_step_config (j : json) : result goerr StepConfig :=
  match j with
  | JObj m =>
      url ← dec_field "server_url" dec_string EmptyString m;
      at_ ← dec_field "auth_type" dec_string EmptyString m;
      sec ← dec_field "auth_secret" dec_string EmptyString m;
      hdr ← dec_field "auth_header" dec_string EmptyString m;
      tool ← dec_field "tool" dec_string EmptyString m;
      args ← dec_field "arguments" dec_object None m;
      out ← dec_field "output_path" dec_string EmptyString m;
      ms ← dec_field "timeout_ms" dec_int 0 m;
      sec_ ← dec_field "timeout_seconds" dec_int 0 m;
      depth ← dec_field "depth" dec_int 0 m;
      Ok (mkStepConfig url at_ sec hdr tool args out ms sec_ depth)
  | JNull => Ok (mkStepConfig EmptyString EmptyString EmptyString EmptyString EmptyString None
                   EmptyString 0 0 0)
  | _ => Err (unmarshal_type_error "mcp.StepConfig")
  end.

(** The case, read from the engine's tables; the context of templates and the tenant. *)
Definition loadCaseContext (tables : DB) (now_text : Z -> string) (caseID : uuid)
    : McpM (object * uuid) :=
  c ← wrapS (Wrapf "load case context for mcp step: %w" [])
        (select_row (fun _ _ => cases tables !! caseID));
  data ← wrapS (Wrapf "decode case data for mcp step: %w" []) (pureS (dec_object (cData c)));
  now ← nowS;
  mret (mk_obj [("case", JObj [("data", match data with Some m => JObj m | None => JNull end)]);
                ("now", JStr (now_text now))], cTenant c).

Definition content_json (c : MCPContent) : json :=
  JObj (mk_obj ([("type", JStr (mcType c))] ++
                (if decide (mcText c = EmptyString) then [] else [("text", JStr (mcText c))]))).
Definition tool_result_json (r : MCPToolResult) : json :=
  JObj (mk_obj [("content", match resContent r with
                            | Some l => JArr (map content_json l)
                            | None => JNull
                            end); ("isError", JBool (resIsError r))]).

(** The maps [buildCasePatch] makes along the path; empty parts are passed over. *)
Fixpoint nest_path (parts : list string) (value : json) : json :=
  match parts with
  | [] => JObj []
  | [p] => if decide (p = EmptyString) then JObj [] else JObj [(p, value)]
  | p :: ps => if decide (p = EmptyString) then nest_path ps value
               else JObj [(p, nest_path ps value)]
  end.

Definition buildCasePatch (outputPath : string) (value : json) : option json :=
  let path := TrimSpace outputPath in
  if decide (path = EmptyString) then None
  else
    let path := TrimPrefix path "case.data." in
    let path := TrimPrefix path "data." in
    let path := Trim path "." in
    if decide (path = EmptyString) then Some value
    else Some (nest_path (Split "." path) value).

Definition step_timeout_ms (cfg : StepConfig) : Z :=
  if (scTimeoutMS cfg <=? 0) && (0 <? scTimeoutSecond cfg)
  then Z.quot (wrap64 (scTimeoutSecond cfg * Second)) Millisecond else scTimeoutMS cfg.

Definition Execute (m : Manager) (tables : DB) (now_text : Z -> string)
    (fmtFloat fmtFloat_v : Qc -> string) (ctx : Ctx) (caseID : uuid) (raw : option json)
    : McpM StepResult :=
  cfg ← wrapS (Wrapf "parse mcp-client step config: %w" []) (pureS (unmarshal dec_step_config raw));
  _ ← guardS (negb (bool_decide (TrimSpace (scServerURL cfg) = EmptyString) ||
                    bool_decide (TrimSpace (scTool cfg) = EmptyString)))
        (Errorf "server_url and tool are required" []);
  '(ctxData, tenantID) ← loadCaseContext tables now_text caseID;
  now ← nowS;
  let args := match scArguments cfg with
              | Some a => ResolveTemplateAny (now_text now) None fmtFloat fmtFloat_v (JObj a) ctxData
              | None => JObj []
              end in
  r ← InvokeTool m ctx (mkInvokeRequest tenantID (scServerURL cfg)
        (mkAuthConfig (scAuthType cfg) (scAuthSecret cfg) (scAuthHeader cfg))
        (scTool cfg) (Some args) (scDepth cfg) (step_timeout_ms cfg));
  if resIsError r then fail (Errorf (ToolErrorMessage r) [])
  else
    let patch := buildCasePatch (scOutputPath cfg) (tool_result_json r) in
    mret (mkStepResult "ok" (Some (tool_result_json r))
            (match patch with Some _ => true | None => false end) patch None "mcp.invoked" 0).

End Manager.
