(* ===== verification/McpClaims.v ===== *)
(** * What holds of the MCP client

    Tool names, the guards of a call, the cache of discovered tools. *)

From S2P Require Import Prelude GoStrings Json EngineTypes Store GoText Effects TaskForms Templates.
From S2P Require Import McpClient McpBreaker McpManager.

#[local] Arguments String.append : simpl nomatch.

(** ** Names of tools *)

Definition is_word (a : ascii) : bool := is_alnum a || bool_decide (a = "_"%char).

Definition head_not (c : ascii) (s : string) : Prop :=
  match s with String a _ => a <> c | EmptyString => True end.

Ltac all_ascii a := destruct a as [[] [] [] [] [] [] [] []]; vm_compute; try done.

Lemma word_graph a : is_word a = true -> is_graph a = true.
Proof. all_ascii a. Qed.

Lemma lower_word a : is_word a = true -> is_word (lower_ascii a) = true.
Proof. all_ascii a. Qed.

Lemma lower_underscore a : lower_ascii a = "_"%char -> a = "_"%char.
Proof. all_ascii a. Qed.

Lemma replace_runs_word b s : all_chars is_word (replace_runs is_alnum "_" b s) = true.
Proof.
  revert b. induction s as [|a s IH]; intros b; simpl; [done|].
  destruct (is_alnum a) eqn:Ha; simpl.
  - unfold is_word. rewrite Ha. apply IH.
  - destruct b; simpl; apply IH.
Qed.

Lemma trim_left_set_word p cut s : all_chars p s = true -> all_chars p (trim_left_set cut s) = true.
Proof.
  induction s as [|a s IH]; simpl; [done|]. intros H. boolp.
  destruct (char_in a cut); [by apply IH|]. simpl. by rewrite H, H0.
Qed.

Lemma trim_right_set_word p cut s : all_chars p s = true -> all_chars p (trim_right_set cut s) = true.
Proof.
  induction s as [|a s IH]; simpl; [done|]. intros H. boolp.
  destruct (trim_right_set cut s) eqn:E; [destruct (char_in a cut); simpl; by rewrite ?H|].
  cbn [all_chars]. rewrite H. by apply IH.
Qed.

Lemma Trim_head c s : head_not c (Trim s (String c EmptyString)).
Proof.
  assert (head_not c (trim_left_set (String c EmptyString) s)) as H.
  { induction s as [|a s IH]; simpl; [done|].
    destruct (bool_decide (c = a)) eqn:E; simpl; [done|]. boolp. simpl. congruence. }
  unfold Trim. destruct (trim_left_set (String c EmptyString) s) as [|a t]; [done|].
  simpl in *. destruct (trim_right_set (String c EmptyString) t); [by case_match|done].
Qed.

Lemma ToLower_word s : all_chars is_word s = true -> all_chars is_word (ToLower s) = true.
Proof.
  induction s as [|a s IH]; simpl; [done|]. intros H. boolp.
  rewrite lower_word by done. by apply IH.
Qed.

(** A sanitized name is a non-empty word that does not start with an underscore. *)
Lemma sanitize_spec s :
  sanitize s <> EmptyString /\ all_chars is_word (sanitize s) = true /\ head_not "_" (sanitize s).
Proof.
  unfold sanitize. set (t := Trim _ "_").
  assert (all_chars is_word t = true) as Hw.
  { apply trim_right_set_word, trim_left_set_word, replace_runs_word. }
  assert (head_not "_" t) as Hh by apply Trim_head.
  destruct (decide (ToLower t = EmptyString)) as [E|E]; [done|].
  split; [done|]. split; [by apply ToLower_word|].
  destruct t as [|a t]; [done|]. simpl in *. intros Ha. by apply Hh, lower_underscore.
Qed.

Lemma TrimSpace_word s : all_chars is_word s = true -> TrimSpace s = s.
Proof. intros H. apply TrimSpace_graph. revert H. apply all_chars_impl, word_graph. Qed.

Lemma Cut_prefix c s r x y : Cut c s = Some (x, y) -> Cut c (s +:+ r) = Some (x, y +:+ r).
Proof. intros H. apply Cut_split in H as [-> Hx]. rewrite append_assoc. by apply Cut_app. Qed.

(** Splitting a prefixed name succeeds, at the first underscore. *)
Lemma Unprefix_word a b :
  all_chars is_word a = true -> all_chars is_word b = true -> a <> EmptyString -> b <> EmptyString ->
  char_in "_" a = false -> UnprefixToolName ("mcp_" +:+ a +:+ String "_" b) = Ok (a, b).
Proof.
  intros Ha Hb Hna Hnb Hc. unfold UnprefixToolName, TrimPrefix.
  rewrite HasPrefix_append. cbn [negb]. rewrite drop_str_append, Cut_app by done.
  by rewrite !TrimSpace_word, !bool_decide_eq_false_2 by done.
Qed.

(** A prefixed tool name splits back into the sanitized server and tool
    names exactly when the sanitized server name is one word; a server name of
    several words is cut at its first word, the rest going to the tool name. *)
Theorem PrefixToolName_roundtrip (serverPrefix toolName : string) :
  exists a b, UnprefixToolName (PrefixToolName serverPrefix toolName) = Ok (a, b) /\
    a +:+ "_" +:+ b = sanitize serverPrefix +:+ "_" +:+ sanitize toolName /\
    ((a, b) = (sanitize serverPrefix, sanitize toolName) <-> char_in "_" (sanitize serverPrefix) = false).
Proof.
  destruct (sanitize_spec serverPrefix) as (Hp1 & Hp2 & Hp3).
  destruct (sanitize_spec toolName) as (Ht1 & Ht2 & _). unfold PrefixToolName.
  set (p := sanitize serverPrefix) in *. set (t := sanitize toolName) in *.
  destruct (Cut "_" p) as [[x y]|] eqn:Ec.
  - destruct (Cut_split _ _ _ _ Ec) as [Heq Hx]. exists x, (y +:+ "_" +:+ t).
    rewrite Heq in Hp2. rewrite all_chars_app in Hp2. boolp.
    assert (x <> EmptyString) as Hne by (intros ->; rewrite Heq in Hp3; by apply Hp3).
    split; [|split].
    + rewrite Heq, append_assoc. apply Unprefix_word; try done.
      * change (all_chars is_word (y +:+ String "_" t) = true). rewrite all_chars_app.
        simpl in *. boolp. rewrite H0. done.
      * by destruct y.
    + rewrite Heq, append_assoc. done.
    + split; [|intros Hn; rewrite Heq, char_in_append in Hn; simpl in Hn;
                by rewrite orb_true_r in Hn].
      intros [= Hxp _]. by rewrite Hxp in Hx.
  - apply Cut_none in Ec. exists p, t. split; [by apply Unprefix_word|]. done.
Qed.

Lemma PrefixToolName_collision :
  PrefixToolName "billing eu" "refund" = PrefixToolName "billing" "eu refund".
Proof. vm_compute. reflexivity. Qed.

(** ** A call and its circuit breaker *)

Section Calls.
Context `{R : Runtime} `{E : McpEnv}.

Definition same_breakers (s s' : McpState) : Prop := circuitBreakers s' = circuitBreakers s.

#[local] Instance same_breakers_preorder : PreOrder same_breakers.
Proof. split; [done|]. intros s1 s2 s3 H1 H2. unfold same_breakers in *. congruence. Qed.

Ltac breakers_kept :=
  keeps_steps; try (apply keepsS_changes; intros ?; reflexivity);
  try (apply keepsS_update; [exact _|intros ? ?; reflexivity]).

Lemma sendRPC_breakers c ctx p : keepsS same_breakers (sendRPC c ctx p).
Proof.
  unfold sendRPC. breakers_kept.
Qed.

Lemma Invoke_breakers c ctx t a : keepsS same_breakers (Invoke c ctx t a).
Proof.
  unfold Invoke. breakers_kept. apply sendRPC_breakers.
Qed.

Lemma resolveAuth_breakers m t a : keepsS same_breakers (resolveAuth m t a).
Proof. unfold resolveAuth. breakers_kept. Qed.

Lemma CascadeTimeout_breakers ctx ms : keepsS same_breakers (CascadeTimeout ctx ms).
Proof. unfold CascadeTimeout. breakers_kept. Qed.

Lemma with_cache_breakers m t u :
  keepsS same_breakers (with_cache m (ignoreS (MarkStale t u))).
Proof. unfold with_cache, MarkStale. breakers_kept. Qed.

(** Each stage of a call leaves the breaker alone until its result is recorded. *)
Lemma record_failure_at (key : string * string) (w : Sys McpState) (cb : CircuitBreaker)
    (bs : gmap (string * string) CircuitBreaker) :
  circuitBreakers (st w) = bs -> bs !! key = Some cb ->
  circuitBreakers (st (breaker_failure key w).2) =
    <[key := RecordFailure (wall_clock (ticks w)) cb]> bs.
Proof.
  intros <- Hcb.
  change (alter (RecordFailure (wall_clock (ticks w))) key (circuitBreakers (st w)) =
    <[key := RecordFailure (wall_clock (ticks w)) cb]> (circuitBreakers (st w))).
  by apply alter_alt_Some.
Qed.

Lemma invoke_allowed_records m ctx req depth (key : string * string) (w : Sys McpState) (cb : CircuitBreaker) :
  circuitBreakers (st w) !! key = Some cb ->
  let '(r, w') := invoke_allowed m ctx req depth key w in
  exists cb', circuitBreakers (st w') = <[key := cb']> (circuitBreakers (st w)) /\
    (if is_ok r then cb' = RecordSuccess cb else exists k, cb' = RecordFailure (wall_clock k) cb).
Proof.
  intros Hcb. unfold invoke_allowed, mbind, Svc_bind, on_error.
  pose proof (resolveAuth_breakers m (irTenantID req) (irAuth req) w) as H1.
  destruct (resolveAuth _ _ _ w) as [[auth|e] w1]; cbn [snd] in H1; unfold same_breakers in H1.
  2: { eexists. split; [by apply record_failure_at|]. by eexists. }
  pose proof (CascadeTimeout_breakers (WithDepth ctx depth) (irTimeoutMS req) w1) as H2.
  unfold same_breakers in H2.
  assert (exists c w2, CascadeTimeout (WithDepth ctx depth) (irTimeoutMS req) w1 = (Ok c, w2))
    as (c & w2 & Ec) by (unfold CascadeTimeout; cbn; case_match; eauto).
  rewrite Ec in H2 |- *. cbn [snd] in H2.
  pose proof (Invoke_breakers (NewClient (irServerURL req) auth) c (irToolName req) (irArguments req) w2) as H3.
  destruct (Invoke _ _ _ _ w2) as [[r|e] w3]; cbn [snd] in H3; unfold same_breakers in H3;
    rewrite H2, H1 in H3.
  - exists (RecordSuccess cb). split; [|done]. rewrite <- H3.
    change (alter RecordSuccess key (circuitBreakers (st w3)) =
      <[key := RecordSuccess cb]> (circuitBreakers (st w3))).
    apply alter_alt_Some. by rewrite H3.
  - set (w4 := (breaker_failure key w3).2).
    exists (RecordFailure (wall_clock (ticks w3)) cb). split; [|by eexists].
    change (circuitBreakers (st (with_cache m (ignoreS (MarkStale (irTenantID req) (irServerURL req))) w4).2) =
      <[key := RecordFailure (wall_clock (ticks w3)) cb]> (circuitBreakers (st w))).
    pose proof (with_cache_breakers m (irTenantID req) (irServerURL req) w4) as H5.
    unfold same_breakers in H5. rewrite H5. by apply record_failure_at.
Qed.

Definition call_depth (ctx : Ctx) (req : InvokeRequest) : Z :=
  if irDepth req <=? 0 then getDepthFromContext ctx else irDepth req.

(** A call of an MCP tool goes out only past its guards: when the target is
    this instance, the call depth is exceeded or the breaker of the server and
    tenant refuses, the call fails and nothing is sent or written to the cache;
    otherwise its result is recorded in that breaker exactly once, as a success
    or as a failure, and no other breaker changes. *)
Theorem InvokeTool_guarded (m : Manager) (ctx : Ctx) (req : InvokeRequest) (w : Sys McpState) :
  let key := cb_key (irTenantID req) (irServerURL req) in
  let cb := default default_breaker (circuitBreakers (st w) !! key) in
  let '(answer, cb1) := Allow (wall_clock (ticks w)) cb in
  let guards := CheckSelfInvocation (mSelfURLs m) (irServerURL req) ≫= fun _ =>
                CheckDepth (call_depth ctx req) (mMaxDepth m) ≫= fun _ => answer in
  let '(r, w') := InvokeTool m ctx req w in
  if is_ok guards
  then exists cb', circuitBreakers (st w') = <[key := cb']> (circuitBreakers (st w)) /\
       (if is_ok r then cb' = RecordSuccess cb1 else exists k, cb' = RecordFailure (wall_clock k) cb1)
  else is_ok r = false /\ sent (st w') = sent (st w) /\ mcp_server_cache (st w') = mcp_server_cache (st w).
Proof.
  intros key cb. destruct (Allow (wall_clock (ticks w)) cb) as [answer cb1] eqn:Ea.
  unfold InvokeTool, pureS, mbind, Svc_bind. cbv beta iota zeta.
  destruct (CheckSelfInvocation _ _) as [[]|e]; cbn [result_bind is_ok]; [|done].
  fold (call_depth ctx req). destruct (CheckDepth _ _) as [[]|e]; cbn [result_bind is_ok]; [|done].
  fold key. unfold getCircuitBreaker, changes, wrapS, breaker_allow. cbn [st ticks].
  set (s1 := set_breakers _ (st w)).
  assert (default default_breaker (circuitBreakers s1 !! key) = cb) as Hcb.
  { unfold s1, set_breakers. cbn. destruct (circuitBreakers (st w) !! key) eqn:Ek; unfold cb; rewrite ?Ek.
    - done.
    - cbn. by rewrite lookup_insert_eq. }
  rewrite Hcb, Ea. destruct answer as [[]|e]; cbn [is_ok]; [|done].
  set (w1 := mkSys _ _).
  assert (circuitBreakers (st w1) = <[key := cb1]> (circuitBreakers (st w))) as Hw1.
  { unfold w1, s1, set_breakers. cbn. destruct (circuitBreakers (st w) !! key); [done|].
    apply insert_insert_eq. }
  assert (circuitBreakers (st w1) !! key = Some cb1) as Hl by (rewrite Hw1; apply lookup_insert_eq).
  pose proof (invoke_allowed_records m ctx req (call_depth ctx req) key w1 cb1 Hl) as Hi.
  destruct (invoke_allowed _ _ _ _ _ w1) as [r w2]. destruct Hi as (cb' & Hb & Hr).
  exists cb'. split; [|done]. by rewrite Hb, Hw1, insert_insert_eq.
Qed.
End Calls.

(** ** The cache of discovered tools *)

(** What a tool becomes when it is stored and loaded: an absent schema is [null]. *)
Definition stored_tool (t : MCPTool) : MCPTool :=
  mkMCPTool (toolName t) (toolDescription t) (Some (default JNull (toolInputSchema t))).

Lemma decodeTools_json tools : decodeTools (tools_json tools) = Ok (map stored_tool tools).
Proof.
  unfold decodeTools, tools_json. cbn [dec_list].
  assert (mapE dec_tool (map tool_json tools) = Ok (map stored_tool tools)) as ->; [|done].
  induction tools as [|[n d s] tools IH]; [done|]. cbn [map mapE]. rewrite IH.
  by destruct s.
Qed.

Section Cache.
Context `{R : Runtime} `{E : McpEnv}.

(** Rows of other tenants. *)
Definition same_for_others (tenant : uuid) (s s' : McpState) : Prop :=
  forall t url, t <> tenant -> mcp_server_cache s' !! (t, url) = mcp_server_cache s !! (t, url).

#[export] Instance same_for_others_preorder tenant : PreOrder (same_for_others tenant).
Proof. split; [done|]. intros s1 s2 s3 H1 H2 t url Ht. by rewrite H2, H1. Qed.

Lemma others_insert tenant url r s : same_for_others tenant s (set_cache <[(tenant, url) := r]> s).
Proof. intros t u Ht. cbn. apply lookup_insert_ne. congruence. Qed.
Lemma others_alter tenant url f s : same_for_others tenant s (set_cache (alter f (tenant, url)) s).
Proof. intros t u Ht. cbn. apply lookup_alter_ne. congruence. Qed.
Lemma others_delete tenant url s : same_for_others tenant s (set_cache (delete (tenant, url)) s).
Proof. intros t u Ht. cbn. apply lookup_delete_ne. congruence. Qed.

Ltac others_kept :=
  keeps_steps;
  lazymatch goal with
  | |- keepsS _ (exec_update _) =>
      apply keepsS_update; [exact _|intros ? ?];
      first [apply others_insert|apply others_alter|apply others_delete|done]
  | |- keepsS _ (changes _) => apply keepsS_changes; intros ? ? ? ?; done
  | _ => idtac
  end.

Lemma sendRPC_others tenant c ctx p : keepsS (same_for_others tenant) (sendRPC c ctx p).
Proof. unfold sendRPC. others_kept. Qed.

Lemma DiscoverTools_others m ctx tenant url auth :
  keepsS (same_for_others tenant) (DiscoverTools m ctx tenant url auth).
Proof.
  unfold DiscoverTools, cached_tools, with_cache, GetTools, resolveAuth, Discover, SetError, SetTools.
  others_kept; apply sendRPC_others.
Qed.

Lemma breaker_allow_others tenant key : keepsS (same_for_others tenant) (breaker_allow key).
Proof. intros w t url Ht. unfold breaker_allow. by destruct (Allow _ _). Qed.

(** A tenant's discovery, refresh, removal and calls of MCP servers never
    change what is cached for another tenant. *)
Theorem mcp_cache_tenant_isolation (m : Manager) (ctx : Ctx) (tenant : uuid) (url : string)
    (auth : AuthConfig) (tool : string) (args : option json) (depth timeout : Z) (w : Sys McpState) :
  let kept (w' : Sys McpState) := same_for_others tenant (st w) (st w') in
  kept (API_Discover m ctx tenant url auth w).2 /\
  kept (API_Refresh m ctx tenant url auth w).2 /\
  kept (API_Delete tenant url w).2 /\
  kept (InvokeTool m ctx (mkInvokeRequest tenant url auth tool args depth timeout) w).2.
Proof.
  split_and!.
  - revert w. change (keepsS (same_for_others tenant) (API_Discover m ctx tenant url auth)).
    unfold API_Discover, required_url. others_kept. apply DiscoverTools_others.
  - revert w. change (keepsS (same_for_others tenant) (API_Refresh m ctx tenant url auth)).
    unfold API_Refresh, required_url, MarkStale. others_kept. apply DiscoverTools_others.
  - revert w. change (keepsS (same_for_others tenant) (API_Delete tenant url)).
    unfold API_Delete, required_url, Delete. others_kept.
  - revert w. set (req := mkInvokeRequest _ _ _ _ _ _ _).
    change (keepsS (same_for_others tenant) (InvokeTool m ctx req)).
    unfold InvokeTool, getCircuitBreaker, invoke_allowed, resolveAuth, CascadeTimeout, Invoke,
      breaker_failure, breaker_success, with_cache, MarkStale.
    others_kept; first [apply breaker_allow_others|apply sendRPC_others].
Qed.

(** A cached entry that the cache still serves. *)
Record served (m : Manager) (tenant : uuid) (url : string) (tools : list MCPTool) (now : Z)
    (s : McpState) : Prop := mkServed {
  served_cache : exists tc r, mCache m = Some tc /\
    mcp_server_cache s !! (tenant, url) = Some r /\ crTools r = tools_json tools /\
    (refreshInterval tc <? time_Sub now (crLastDiscovered r)) = false;
  served_url : url <> EmptyString /\ TrimSpace url = url;
  served_tools : tools <> [];
  served_self : CheckSelfInvocation (mSelfURLs m) url = Ok tt
}.

Lemma DiscoverTools_served m ctx tenant url auth tools (w : Sys McpState) :
  served m tenant url tools (wall_clock (S (ticks w))) (st w) -> fault (ticks w) = None ->
  DiscoverTools m ctx tenant url auth w =
    (Ok (map stored_tool tools), mkSys (st w) (S (S (ticks w)))).
Proof.
  intros [(tc & r & Hm & Hr & Ht & Hi) [Hu Htrim] Hne Hself] Hf. unfold DiscoverTools. rewrite !Htrim.
  rewrite bool_decide_eq_false_2 by done. cbn [negb guardS]. rewrite Hself.
  unfold cached_tools. rewrite Hm. unfold GetTools. rewrite Htrim.
  unfold mbind, Svc_bind, guardS, mret, Svc_ret, pureS, tryS, select_row, exec. rewrite Hf, Hr.
  cbn [st ticks nowS]. rewrite Hi, Ht, decodeTools_json. by destruct tools.
Qed.

Lemma served_stale m tenant url tools now s f :
  (forall r, crTools (f r) = crTools r /\ crLastDiscovered (f r) = crLastDiscovered r) ->
  served m tenant url tools now s ->
  served m tenant url tools now (set_cache (alter f (tenant, url)) s).
Proof.
  intros Hf [(tc & r & Hm & Hr & Ht & Hi) Hu Hne Hself]. split; [|done..].
  exists tc, (f r). destruct (Hf r) as [H1 H2]. rewrite H1, H2. split_and!; [done| |done|done].
  cbn. by rewrite lookup_alter_eq, Hr.
Qed.

(** While the cache serves an entry, neither the refresh a user asks for nor
    the periodic refresher contacts the server: the first returns the cached
    tools, the second stores them again with a new discovery time, so that with
    a refresher that runs within the interval the entry never expires. *)
Theorem mcp_refresh_serves_cache (m : Manager) (ctx : Ctx) (tenant : uuid) (url : string)
    (auth : AuthConfig) (tools : list MCPTool) (server : CachedServer) (w : Sys McpState)
    (Hs : forall k, (k <= S (S (ticks w)))%nat -> served m tenant url tools (wall_clock k) (st w))
    (Hf : forall k, fault k = None) (Hid : csTenantID server = tenant)
    (Hurl : csServerURL server = url) (Hnil : tenant <> uuid_Nil) :
  (API_Refresh m ctx tenant url auth w).1 = Ok (map stored_tool tools) /\
  sent (st (API_Refresh m ctx tenant url auth w).2) = sent (st w) /\
  sent (st (refresh_server m ctx server w).2) = sent (st w) /\
  exists k, mcp_server_cache (st (refresh_server m ctx server w).2) !! (tenant, url) =
    Some (mkCacheRow (tools_json (map stored_tool tools)) (db_now k) "active" None).
Proof.
  assert (url <> EmptyString /\ TrimSpace url = url) as [Hu Htrim] by (apply (Hs 0%nat); lia).
  assert (API_Refresh m ctx tenant url auth w =
    (Ok (map stored_tool tools),
     mkSys (set_cache (alter (fun r => mkCacheRow (crTools r) (crLastDiscovered r) "stale" (crErrorMessage r))
       (tenant, url)) (st w)) (S (S (S (ticks w)))))) as ->.
  { unfold API_Refresh, required_url, ignoreS, mbind, Svc_bind. rewrite Htrim.
    rewrite bool_decide_eq_false_2 by done. cbn [negb guardS].
    unfold MarkStale, wrapS, exec_update, exec, mret, Svc_ret. rewrite Hf. cbn [snd st ticks].
    rewrite (DiscoverTools_served m ctx tenant url auth tools); [by rewrite Htrim| |by rewrite Hf].
    rewrite Htrim. apply served_stale; [done|apply Hs; cbn; lia]. }
  split; [done|]. split; [done|].
  unfold refresh_server. rewrite Hid, Hurl, Htrim.
    rewrite !bool_decide_eq_false_2 by done. cbn [orb].
    unfold mbind, Svc_bind, tryS. rewrite (DiscoverTools_served _ _ _ _ _ tools); [|apply Hs; lia|apply Hf].
    unfold ignoreS, SetTools, wrapS, exec_update, exec. rewrite Hf, Htrim. cbn.
    split; [done|]. eexists. apply lookup_insert_eq.
Qed.
End Cache.

(** A server that is cached, in an environment without faults. *)
Definition example_env : McpEnv :=
  mkMcpEnv (fun _ _ => Err (true, Errorf "refused" [])) (fun _ _ _ => Ok "secret")
    (fun u => Ok (TrimPrefix u "http://")) (fun _ => None) None (fun _ => Ok JNull).
Definition example_tool : MCPTool := mkMCPTool "search" "Search" None.
Definition example_cached : McpState :=
  mkMcpState {[ (7%N, "http://tools:9000") := mkCacheRow (tools_json [example_tool]) (1700000000 * Second) "active" None ]}
    empty [].


#[local] Existing Instance example_runtime.
#[local] Existing Instance example_env.

Lemma mcp_refresh_serves_cache_witness :
  let m := mkManager (Some (NewToolCache 0)) false [] 3 in
  let w := mkSys example_cached 0 in
  exists k, mcp_server_cache (st (refresh_server m (mkCtx None None)
      (mkCachedServer 7%N "http://tools:9000" [] 0 "active" "" 0) w).2) !! (7%N, "http://tools:9000") =
    Some (mkCacheRow (tools_json [stored_tool example_tool]) (db_now k) "active" None).
Proof.
  intros m w.
  assert (forall k, (k <= 2)%nat ->
    served m 7%N "http://tools:9000" [example_tool] (wall_clock k) (st w)) as Hs.
  { intros k Hk. split; [|split; [done|vm_compute; reflexivity]|done|vm_compute; reflexivity].
    exists (NewToolCache 0), (mkCacheRow (tools_json [example_tool]) (1700000000 * Second) "active" None).
    split_and!; [done|vm_compute; reflexivity|done|].
    destruct k as [|[|[|]]]; [vm_compute; reflexivity..|lia]. }
  exact (proj2 (proj2 (proj2 (mcp_refresh_serves_cache m (mkCtx None None) 7%N "http://tools:9000"
    (mkAuthConfig "none" "" "") [example_tool]
    (mkCachedServer 7%N "http://tools:9000" [] 0 "active" "" 0) w Hs
    (fun _ => eq_refl) eq_refl eq_refl ltac:(discriminate))))).
Defined.
