(* ===== verification/McpServer.v ===== *)
(** * The MCP server ([internal/mcpserver])

    Configuration, protection against runaway calls, authentication by API
    keys, rate limits, the visible tools, the JSON-RPC handler, the key store
    and the administration API. What the tools do behind the handler is a state
    of type [O] of its own; the rate limiter library, password hashes and
    random keys are parameters. *)

From S2P Require Import Prelude GoStrings Json EngineTypes Store GoText Effects TaskForms.

(** ** Configuration ([types.go]) *)

Definition DefaultListenAddr : string := ":8081".
Definition DefaultAuthHeader : string := "X-API-Key".
Definition DefaultRequestsPerMinute : Z := 120.
Definition DefaultMaxDepth : Z := 3.
Definition DefaultMaxToolTimeout : Z := 120 * Second.

Record RateLimitConfig : Type := mkRateLimitConfig {
  RequestsPerMinute : Z;
  ToolLimits : gmap string Z
}.

Record ServerConfig : Type := mkServerConfig {
  cfgEnabled : bool;
  cfgListenAddr : string;
  cfgAuthType : string;
  cfgAuthHeader : string;
  cfgRateLimit : RateLimitConfig;
  cfgEnabledTools : list string;
  cfgDisabledTools : list string;
  cfgMaxDepth : Z;
  cfgMaxRequestTimeout : Z
}.

Definition or_default (s d : string) : string := if decide (s = EmptyString) then d else s.

Definition WithDefaults (cfg : ServerConfig) : ServerConfig :=
  mkServerConfig (cfgEnabled cfg) (or_default (cfgListenAddr cfg) DefaultListenAddr)
    (or_default (cfgAuthType cfg) "api_key") (or_default (cfgAuthHeader cfg) DefaultAuthHeader)
    (mkRateLimitConfig (if RequestsPerMinute (cfgRateLimit cfg) <=? 0 then DefaultRequestsPerMinute
                        else RequestsPerMinute (cfgRateLimit cfg)) (ToolLimits (cfgRateLimit cfg)))
    (cfgEnabledTools cfg) (cfgDisabledTools cfg)
    (if cfgMaxDepth cfg <=? 0 then DefaultMaxDepth else cfgMaxDepth cfg)
    (if cfgMaxRequestTimeout cfg <=? 0 then DefaultMaxToolTimeout else cfgMaxRequestTimeout cfg).

(** ** Requests and responses *)

Fixpoint Header_Get (k : string) (h : list (string * string)) : string :=
  match h with
  | [] => EmptyString
  | (k', v) :: h' => if EqualFold k' k then v else Header_Get k h'
  end.

Record Request : Type := mkRequest {
  rMethod : string;
  rHeader : list (string * string);
  rRemoteAddr : string;
  rTransport : string;
  rBody : result goerr json;
  rDeadline : option Z
}.

Record JSONRPCRequest : Type := mkJSONRPCRequest {
  rpcVersion : string;
  rpcMethod : string;
  rpcID : option json;
  rpcParams : option json
}.

Inductive rpc_outcome : Type :=
  | RpcResult (result : json)
  | RpcError (code : Z) (message : string).

Record JSONRPCResponse : Type := mkJSONRPCResponse {
  respID : option json;
  respOutcome : rpc_outcome
}.

Definition rpcParseError : Z := -32700.
Definition rpcInvalidRequest : Z := -32600.
Definition rpcMethodNotFound : Z := -32601.
Definition rpcInvalidParams : Z := -32602.
Definition rpcInternalError : Z := -32603.
Definition rpcRateLimited : Z := -32029.

Record Connection : Type := mkConnection {
  connTenantID : uuid;
  connUserID : uuid;
  connRoles : list string;
  connAPIKeyID : uuid
}.

Record ToolDefinition : Type := mkToolDefinition {
  defName : string;
  defDescription : string;
  defInputSchema : json
}.

Record APIKeyRow : Type := mkAPIKeyRow {
  kTenantID : uuid;
  kUserID : uuid;
  kName : string;
  kHash : string;
  kRoles : json;
  kEnabled : bool;
  kCreatedAt : Z;
  kLastUsedAt : option Z
}.

Record APIKeyRecord : Type := mkAPIKeyRecord { recID : uuid; recRow : APIKeyRow; recRoles : list string }.

Record AuditEntry : Type := mkAuditEntry {
  aeTenantID : uuid;
  aeUserID : uuid;
  aeAPIKeyID : uuid;
  aeToolName : string;
  aeArguments : json;
  aeResultStatus : string;
  aeDurationMS : Z;
  aeSource : string;
  aeCorrelationID : string;
  aeDepth : Z;
  aeCreatedAt : Z
}.

(** ** Protection ([protection.go]) *)

Definition ReadDepth (r : Request) : Z :=
  match Atoi (Header_Get "X-MCP-Depth" (rHeader r)) with
  | Some depth => if depth <? 0 then 0 else depth
  | None => 0
  end.

Definition CheckDepth (depth maxDepth : Z) : result goerr unit :=
  let maxDepth := if maxDepth <=? 0 then DefaultMaxDepth else maxDepth in
  if maxDepth <? depth then Err (Errorf "MCP call depth exceeded (max: %d)" [Itoa maxDepth])
  else Ok tt.

Definition ReadTimeout (r : Request) : Z :=
  match Atoi (Header_Get "X-MCP-Timeout-Ms" (rHeader r)) with
  | Some ms => if ms <=? 0 then 0 else wrap64 (ms * Millisecond)
  | None => 0
  end.

(** The timeout [ApplyTimeout] gives a request; [remaining] is the time to the
    deadline the request already has. *)
Definition ApplyTimeout (headerTimeout serverMax : Z) (remaining : option Z) : Z :=
  let serverMax := if serverMax <=? 0 then DefaultMaxToolTimeout else serverMax in
  let effective := if (0 <? headerTimeout) && (headerTimeout <? serverMax) then headerTimeout
                   else serverMax in
  let effective := match remaining with
                   | Some r => if r <? effective then r else effective
                   | None => effective
                   end in
  if effective <=? 0 then Millisecond else effective.

(** ** Visible tools ([visibility.go]) *)

Definition toSet (items : list string) : list string :=
  filter (fun s => s <> EmptyString) (map TrimSpace items).

Definition isToolDisabled (config : ServerConfig) (name : string) : bool :=
  let cfg := WithDefaults config in
  let name := TrimSpace name in
  if decide (name = EmptyString) then true
  else if bool_decide (name ∈ toSet (cfgDisabledTools cfg)) then true
  else match cfgEnabledTools cfg with
       | [] => false
       | _ => negb (bool_decide (name ∈ toSet (cfgEnabledTools cfg)))
       end.

Definition hasPermission (conn : Connection) (permission : string) : bool :=
  let permission := TrimSpace permission in
  if decide (permission = EmptyString) then true
  else existsb (fun role =>
         let role := TrimSpace role in
         bool_decide (role = "*") || bool_decide (role = permission) ||
         match Cut ":" permission with
         | Some (prefix, _) =>
             negb (bool_decide (prefix = EmptyString)) && bool_decide (role = prefix +:+ ":*")
         | None => false
         end) (connRoles conn).

(** The text the handler writes for an argument that is missing. *)
Definition dec_raw_field (j : json) : result goerr (option json) := Ok (Some j).

Definition dec_rpc_request (j : json) : result goerr JSONRPCRequest :=
  match j with
  | JObj m =>
      v ← dec_field "jsonrpc" dec_string EmptyString m;
      method ← dec_field "method" dec_string EmptyString m;
      id ← dec_field "id" dec_raw_field None m;
      params ← dec_field "params" dec_raw_field None m;
      Ok (mkJSONRPCRequest v method id params)
  | JNull => Ok (mkJSONRPCRequest EmptyString EmptyString None None)
  | _ => Err (unmarshal_type_error "mcpserver.JSONRPCRequest")
  end.

Definition dec_call (params : option json) : result goerr (string * option json) :=
  match params with
  | Some (JObj m) =>
      name ← dec_field "name" dec_string EmptyString m;
      args ← dec_field "arguments" dec_raw_field None m;
      Ok (name, args)
  | Some JNull => Ok (EmptyString, None)
  | Some _ => Err (unmarshal_type_error "struct")
  | None => Err (Errorf "unexpected end of JSON input" [])
  end.

(** ** What comes from outside the repository *)

Class McpServerEnv : Type := mkMcpServerEnv {
  Limiter : Type;
  rate_NewLimiter : Z -> Limiter;
  limiter_Allow : Z -> Limiter -> bool * Limiter;
  bcrypt_matches : string -> string -> bool;
  random_key : nat -> result goerr (string * string);
  ip_is_loopback : string -> bool;
  new_correlation_id : nat -> string;
  listen_stop : nat -> option goerr
}.

Section Server.
Context `{R : Runtime} `{E : McpServerEnv} {O : Type}.

Record ToolHandler : Type := mkToolHandler {
  thName : string;
  thDefinition : ToolDefinition;
  thPermission : string;
  thExecute : nat -> Connection -> json -> O -> result goerr json * O
}.

(** The server: its configuration (also copied into the handler and the
    authentication), the address it listens on, the limiters, the tables and
    the state behind the tools. *)
Record SrvState : Type := mkSrvState {
  sConfig : ServerConfig;
  sListenAddr : string;
  sListening : option string;
  handlerConfig : ServerConfig;
  authConfig : ServerConfig;
  limiterConfig : RateLimitConfig;
  keyLimiters : gmap uuid Limiter;
  toolLimiters : gmap (uuid * string) Limiter;
  mcp_api_keys : gmap uuid APIKeyRow;
  mcp_tool_invocations : list AuditEntry;
  behind : O
}.

Abbreviation SrvM := (Svc SrvState).

Definition set_limiters (ks : gmap uuid Limiter) (ts : gmap (uuid * string) Limiter) (s : SrvState)
    : SrvState :=
  mkSrvState (sConfig s) (sListenAddr s) (sListening s) (handlerConfig s) (authConfig s)
    (limiterConfig s) ks ts (mcp_api_keys s) (mcp_tool_invocations s) (behind s).
Definition set_keys (f : gmap uuid APIKeyRow -> gmap uuid APIKeyRow) (s : SrvState) : SrvState :=
  mkSrvState (sConfig s) (sListenAddr s) (sListening s) (handlerConfig s) (authConfig s)
    (limiterConfig s) (keyLimiters s) (toolLimiters s) (f (mcp_api_keys s)) (mcp_tool_invocations s) (behind s).
Definition add_invocation (e : AuditEntry) (s : SrvState) : SrvState :=
  mkSrvState (sConfig s) (sListenAddr s) (sListening s) (handlerConfig s) (authConfig s)
    (limiterConfig s) (keyLimiters s) (toolLimiters s) (mcp_api_keys s)
    (mcp_tool_invocations s ++ [e]) (behind s).
Definition set_behind (o : O) (s : SrvState) : SrvState :=
  mkSrvState (sConfig s) (sListenAddr s) (sListening s) (handlerConfig s) (authConfig s)
    (limiterConfig s) (keyLimiters s) (toolLimiters s) (mcp_api_keys s) (mcp_tool_invocations s) o.
Definition set_listening (a : option string) (s : SrvState) : SrvState :=
  mkSrvState (sConfig s) (sListenAddr s) a (handlerConfig s) (authConfig s)
    (limiterConfig s) (keyLimiters s) (toolLimiters s) (mcp_api_keys s) (mcp_tool_invocations s) (behind s).

(** [NewServer], [NewHandler], [NewAuthMiddleware] and [NewRateLimiter] *)
Definition NewServer (config : ServerConfig) (keys : gmap uuid APIKeyRow) (o : O) : SrvState :=
  let cfg := WithDefaults config in
  mkSrvState cfg (cfgListenAddr cfg) None cfg cfg (cfgRateLimit cfg) empty empty keys [] o.

(** ** Rate limits ([ratelimit.go]); the method holds the lock throughout *)

Definition limiterForPerMinute (perMinute : Z) : Limiter :=
  rate_NewLimiter (if perMinute <=? 0 then 1 else perMinute).

Definition rate_allow (now : Z) (keyID : uuid) (tool : string) (s : SrvState)
    : result goerr unit * SrvState :=
  let limiter := default (limiterForPerMinute (RequestsPerMinute (limiterConfig s))) (keyLimiters s !! keyID) in
  let '(ok, limiter') := limiter_Allow now limiter in
  let ks := <[keyID := limiter']> (keyLimiters s) in
  if negb ok then (Err (Errorf "rate limit exceeded for API key" []), set_limiters ks (toolLimiters s) s)
  else
    let perToolLimit := default 0 (ToolLimits (limiterConfig s) !! tool) in
    if perToolLimit <=? 0 then (Ok tt, set_limiters ks (toolLimiters s) s)
    else
      let toolLimiter := default (limiterForPerMinute perToolLimit) (toolLimiters s !! (keyID, tool)) in
      let '(ok, toolLimiter') := limiter_Allow now toolLimiter in
      let s' := set_limiters ks (<[(keyID, tool) := toolLimiter']> (toolLimiters s)) s in
      if ok then (Ok tt, s')
      else (Err (Errorf "rate limit exceeded for tool %s" [tool]), s').

Definition RateLimiter_Allow (keyID : uuid) (tool : string) : SrvM unit := fun w =>
  let '(r, s) := rate_allow (wall_clock (ticks w)) keyID tool (st w) in
  (r, mkSys s (S (ticks w))).

(** ** API keys ([auth.go]) *)

Definition scanRecord (kr : uuid * APIKeyRow) : result goerr APIKeyRecord :=
  match dec_list dec_string (kRoles kr.2) with
  | Ok roles => Ok (mkAPIKeyRecord kr.1 kr.2 roles)
  | Err e => Err (Wrapf "decode mcp key roles: %w" [] e)
  end.

(** The loop over the enabled keys: the first one whose hash matches. *)
Fixpoint match_key (key : string) (rows : list (uuid * APIKeyRow)) : result goerr APIKeyRecord :=
  match rows with
  | [] => Err ErrNoRows
  | kr :: rest =>
      match scanRecord kr with
      | Err e => Err e
      | Ok rec => if bcrypt_matches (kHash kr.2) key then Ok rec else match_key key rest
      end
  end.

Definition touch_key (now : Z) (r : APIKeyRow) : APIKeyRow :=
  mkAPIKeyRow (kTenantID r) (kUserID r) (kName r) (kHash r) (kRoles r) (kEnabled r) (kCreatedAt r) (Some now).

Definition ValidateKey (key : string) : SrvM APIKeyRecord :=
  rows ← wrapS (Wrapf "query mcp keys: %w" [])
           (select (fun _ s => filter (fun kr : uuid * APIKeyRow => kEnabled kr.2 = true)
                                 (map_to_list (mcp_api_keys s))));
  rec ← pureS (match_key key rows);
  _ ← ignoreS (exec_update (fun now => set_keys (alter (touch_key now) (recID rec))));
  mret rec.

Definition roles_json (roles : list string) : json := JArr (map JStr roles).

Definition KeyStore_Create (tenantID userID : uuid) (name : string) (roles : list string) (enabled : bool)
    : SrvM (uuid * string * Z) :=
  '(raw, hash) ← callS random_key;
  wrapS (Wrapf "insert mcp key: %w" [])
    (exec (fun k now s =>
       let id := gen_random_uuid k in
       match mcp_api_keys s !! id with
       | Some _ => Err unique_error
       | None => Ok ((id, raw, now),
                     set_keys <[id := mkAPIKeyRow tenantID userID (TrimSpace name) hash
                                        (roles_json roles) enabled now None]> s)
       end)).

Definition KeyStore_List (tenantID : uuid) : SrvM (list APIKeyRecord) :=
  rows ← wrapS (Wrapf "list mcp keys: %w" [])
           (select (fun _ s => SliceStable
              (fun a b : uuid * APIKeyRow => kCreatedAt b.2 <? kCreatedAt a.2)
              (filter (fun kr : uuid * APIKeyRow => kTenantID kr.2 = tenantID)
                 (map_to_list (mcp_api_keys s)))));
  pureS (mapE scanRecord rows).

Definition update_key (name : string) (roles : list string) (enabled : bool) (r : APIKeyRow) : APIKeyRow :=
  mkAPIKeyRow (kTenantID r) (kUserID r) (TrimSpace name) (kHash r) (roles_json roles) enabled
    (kCreatedAt r) (kLastUsedAt r).

Definition KeyStore_Update (tenantID id : uuid) (name : string) (roles : list string) (enabled : bool)
    : SrvM APIKeyRecord :=
  r ← exec (fun _ _ s =>
        match mcp_api_keys s !! id with
        | Some r => if decide (kTenantID r = tenantID)
                    then Ok (update_key name roles enabled r,
                             set_keys <[id := update_key name roles enabled r]> s)
                    else Err ErrNoRows
        | None => Err ErrNoRows
        end);
  pureS (scanRecord (id, r)).

Definition KeyStore_Revoke (tenantID id : uuid) : SrvM unit :=
  rows ← wrapS (Wrapf "delete mcp key: %w" [])
           (exec (fun _ _ s =>
              match mcp_api_keys s !! id with
              | Some r => if decide (kTenantID r = tenantID) then Ok (1, set_keys (delete id) s)
                          else Ok (0, s)
              | None => Ok (0, s)
              end));
  guardS (negb (rows =? 0)) ErrNoRows.

Definition ErrUnauthorized : goerr := Errorf "unauthorized" [].

(** The key a request presents. *)
Definition presented_key (cfg : ServerConfig) (r : Request) : result goerr string :=
  if decide (ToLower (TrimSpace (cfgAuthType cfg)) = "bearer") then
    let authz := TrimSpace (Header_Get "Authorization" (rHeader r)) in
    if HasPrefix (ToLower authz) "bearer " then Ok (TrimSpace (drop_str 7 authz))
    else Err (Wrapf "%w: missing bearer token" [] ErrUnauthorized)
  else Ok (TrimSpace (Header_Get (cfgAuthHeader cfg) (rHeader r))).

Definition Authenticate (r : Request) : SrvM Connection :=
  cfg ← reads (fun s => WithDefaults (authConfig s));
  raw ← pureS (presented_key cfg r);
  _ ← guardS (negb (bool_decide (raw = EmptyString))) (Wrapf "%w: missing API key" [] ErrUnauthorized);
  rec ← wrapS (fun e => if errors_is e ErrNoRows then Wrapf "%w: invalid API key" [] ErrUnauthorized
                        else e) (ValidateKey raw);
  _ ← guardS (kEnabled (recRow rec)) (Wrapf "%w: key disabled" [] ErrUnauthorized);
  mret (mkConnection (kTenantID (recRow rec)) (kUserID (recRow rec)) (recRoles rec) (recID rec)).

(** ** The handler ([handler.go]) *)

Context (tools : gmap string ToolHandler) (IsRAGEnabled : uuid -> bool) (hasAudit : bool).

Definition isTenantFeatureEnabled (conn : Connection) (toolName : string) : bool :=
  if decide (TrimSpace toolName = "search_knowledge_base") then IsRAGEnabled (connTenantID conn) else true.

Definition tool_visible (config : ServerConfig) (conn : Connection) (t : ToolHandler) : bool :=
  negb (isToolDisabled config (thName t)) && hasPermission conn (thPermission t) &&
  isTenantFeatureEnabled conn (thName t).

Definition visibleTools (config : ServerConfig) (conn : Connection) : list ToolDefinition :=
  SliceStable (fun a b => str_ltb (defName a) (defName b))
    (map thDefinition (filter (fun t => tool_visible config conn t = true) (map snd (map_to_list tools)))).

(** The context of a request: its correlation id and call depth. *)
Record ReqCtx : Type := mkReqCtx { rcCorrelationID : string; rcDepth : Z }.

(** [logInvocation], [LogInvocation] and [LogMCPInvocation]; errors are dropped. *)
Definition logInvocation (ctx : ReqCtx) (conn : Connection) (toolName : string) (args : json)
    (status : string) (durationMS : Z) : SrvM unit :=
  if hasAudit then
    now ← nowS;
    ignoreS (exec_update (fun _ => add_invocation
      (mkAuditEntry (connTenantID conn) (connUserID conn) (connAPIKeyID conn) (TrimSpace toolName) args
         status durationMS "mcp" (rcCorrelationID ctx) (rcDepth ctx) now)))
  else mret tt.

(** A tool runs on the state behind the server. *)
Definition run_tool (t : ToolHandler) (conn : Connection) (args : json) : SrvM json := fun w =>
  let '(r, o) := thExecute t (ticks w) conn args (behind (st w)) in
  (r, mkSys (set_behind o (st w)) (S (ticks w))).

Definition tool_definition_json (d : ToolDefinition) : json :=
  JObj (mk_obj [("name", JStr (defName d)); ("description", JStr (defDescription d));
                ("inputSchema", defInputSchema d)]).

(** A tool that passed the checks of name, permission and rate. *)
Definition call_tool (ctx : ReqCtx) (conn : Connection) (name : string) (args : json) (tool : ToolHandler)
    : SrvM rpc_outcome :=
  start ← nowS;
  r ← tryS (run_tool tool conn args);
  stop ← nowS;
  let durationMS := Z.quot (time_Sub stop start) Millisecond in
  match r with
  | Err e =>
      _ ← logInvocation ctx conn name args "error" durationMS;
      mret (RpcError rpcInternalError (Error e))
  | Ok res =>
      _ ← logInvocation ctx conn name args "success" durationMS;
      mret (RpcResult (JObj (mk_obj
        [("content", JArr [JObj (mk_obj [("type", JStr "text"); ("text", JStr (json_marshal res))])]);
         ("isError", JBool false)])))
  end.

Definition handle_call (ctx : ReqCtx) (conn : Connection) (params : option json) : SrvM rpc_outcome :=
  match dec_call params with
  | Err _ => mret (RpcError rpcInvalidParams "invalid params")
  | Ok (name, args) =>
      if decide (name = EmptyString) then mret (RpcError rpcInvalidParams "tool name is required")
      else
        let args := default (JObj []) args in
        config ← reads handlerConfig;
        match tools !! name with
        | None => mret (RpcError rpcMethodNotFound "tool not found")
        | Some tool =>
            if isToolDisabled config name then mret (RpcError rpcMethodNotFound "tool not found")
            else if negb (hasPermission conn (thPermission tool)) then
              _ ← logInvocation ctx conn name args "permission_denied" 0;
              mret (RpcError rpcInvalidRequest "permission denied")
            else
              allowed ← tryS (RateLimiter_Allow (connAPIKeyID conn) name);
              match allowed with
              | Err _ =>
                  _ ← logInvocation ctx conn name args "rate_limited" 0;
                  mret (RpcError rpcRateLimited "rate limit exceeded")
              | Ok _ => call_tool ctx conn name args tool
              end
        end
  end.

Definition handleRPC (ctx : ReqCtx) (req : JSONRPCRequest) (conn : Connection) : SrvM JSONRPCResponse :=
  outcome ←
    (if decide (rpcMethod req = "tools/list") then
       config ← reads handlerConfig;
       mret (RpcResult (JObj [("tools", JArr (map tool_definition_json (visibleTools config conn)))]))
     else if decide (rpcMethod req = "tools/call") then handle_call ctx conn (rpcParams req)
     else mret (RpcError rpcMethodNotFound "method not found"));
  mret (mkJSONRPCResponse (rpcID req) outcome).

Record HTTPAnswer : Type := mkHTTPAnswer {
  ansStatus : Z;
  ansSSE : bool;
  ansResponse : JSONRPCResponse
}.

Definition rpc_error_http (status : Z) (id : option json) (code : Z) (msg : string) : HTTPAnswer :=
  mkHTTPAnswer status false (mkJSONRPCResponse id (RpcError code msg)).

Definition acceptsSSE (r : Request) : bool :=
  Contains (ToLower (Header_Get "Accept" (rHeader r))) "text/event-stream" ||
  EqualFold (TrimSpace (rTransport r)) "sse".

Definition isLoopbackRequest (r : Request) : bool :=
  let host := match SplitHostPort (rRemoteAddr r) with Some (h, _) => h | None => rRemoteAddr r end in
  ip_is_loopback (TrimSpace host).

Definition correlation_id (r : Request) : SrvM string :=
  let id := TrimSpace (Header_Get "X-Correlation-ID" (rHeader r)) in
  if decide (id = EmptyString) then callS (fun k => Ok (new_correlation_id k)) else mret id.

(** The part of [ServeHTTP] after authentication. *)
Definition serve_authenticated (r : Request) (correlationID : string) (depth : Z) (conn : Connection)
    : SrvM HTTPAnswer :=
  match rBody r ≫= dec_rpc_request with
  | Err _ => mret (rpc_error_http 400 None rpcParseError "invalid JSON")
  | Ok req =>
      if negb (bool_decide (TrimSpace (rpcVersion req) = "2.0")) ||
         bool_decide (TrimSpace (rpcMethod req) = EmptyString)
      then mret (rpc_error_http 400 (rpcID req) rpcInvalidRequest "invalid JSON-RPC request")
      else resp ← handleRPC (mkReqCtx correlationID depth) req conn;
           mret (mkHTTPAnswer 200 (acceptsSSE r) resp)
  end.

Definition ServeHTTP (r : Request) : SrvM HTTPAnswer :=
  if negb (bool_decide (rMethod r = "POST"))
  then mret (rpc_error_http 405 None rpcInvalidRequest "method not allowed")
  else
    config ← reads handlerConfig;
    let depth := ReadDepth r in
    match CheckDepth depth (cfgMaxDepth config) with
    | Err e => mret (rpc_error_http 400 None rpcInvalidRequest (Error e))
    | Ok _ =>
        let depth := if (0 <? depth) && isLoopbackRequest r then depth + 1 else depth in
        correlationID ← correlation_id r;
        conn ← tryS (Authenticate r);
        match conn with
        | Err _ => mret (rpc_error_http 401 None rpcInvalidRequest "unauthorized")
        | Ok conn => serve_authenticated r correlationID depth conn
        end
    end.

(** ** The server and its administration ([server.go], [keyapi.go]) *)

Definition Server_Start : SrvM unit :=
  changes (fun s => if negb (cfgEnabled (sConfig s)) then s
                    else match sListening s with
                         | Some _ => s
                         | None => set_listening (Some (or_default (sListenAddr s) DefaultListenAddr)) s
                         end).

Definition Server_Stop : SrvM unit :=
  listening ← reads sListening;
  _ ← changes (set_listening None);
  match listening with
  | None => mret tt
  | Some _ =>
      callS (fun k => match listen_stop k with
                      | Some e => Err (Wrapf "shutdown MCP server: %w" [] e)
                      | None => Ok tt
                      end)
  end.

(** [Server.SetConfig], which also gives the handler its configuration. *)
Definition Server_SetConfig (cfg : ServerConfig) : SrvM unit :=
  changes (fun s => mkSrvState (WithDefaults cfg) (sListenAddr s) (sListening s)
                      (WithDefaults (WithDefaults cfg)) (authConfig s) (limiterConfig s) (keyLimiters s)
                      (toolLimiters s) (mcp_api_keys s) (mcp_tool_invocations s) (behind s)).

Definition UpdateConfig (cfg : ServerConfig) : SrvM ServerConfig :=
  old ← reads sConfig;
  let newCfg := WithDefaults cfg in
  _ ← Server_SetConfig newCfg;
  let restart := negb (bool_decide (cfgListenAddr old = cfgListenAddr newCfg)) in
  if cfgEnabled old && negb (cfgEnabled newCfg) then _ ← Server_Stop; mret newCfg
  else if negb (cfgEnabled old) && cfgEnabled newCfg then _ ← Server_Start; mret newCfg
  else if cfgEnabled newCfg && restart then _ ← Server_Stop; _ ← Server_Start; mret newCfg
  else mret newCfg.

Record CreatedKey : Type := mkCreatedKey {
  ckID : uuid; ckName : string; ckKey : string; ckRoles : list string; ckCreatedAt : Z
}.

Definition KeyAPI_Create (tenantID userID : uuid) (name : string) (roles : list string) (enabled : bool)
    : SrvM CreatedKey :=
  _ ← guardS (negb (bool_decide (TrimSpace name = EmptyString))) (Errorf "name is required" []);
  _ ← guardS (negb (bool_decide (userID = uuid_Nil))) (Errorf "user_id is required" []);
  '(id, raw, created) ← KeyStore_Create tenantID userID (TrimSpace name) roles enabled;
  mret (mkCreatedKey id (TrimSpace name) raw roles created).

Definition KeyAPI_Update (tenantID id : uuid) (name : string) (roles : list string) (enabled : bool)
    : SrvM APIKeyRecord :=
  _ ← guardS (negb (bool_decide (TrimSpace name = EmptyString))) (Errorf "name is required" []);
  KeyStore_Update tenantID id (TrimSpace name) roles enabled.

End Server.
