(* ===== verification/McpTools.v ===== *)
(** * The tools of the MCP server ([internal/mcpserver/tools], [deps.go])

    Each tool decodes its arguments and calls the services of cases, tasks and
    workflows for the tenant and user of the connection; the state behind the
    server is the world of those services. Listing cases and searching
    knowledge bases are parameters. *)

From S2P Require Import Prelude GoStrings Json EngineTypes Store AuditTrail EngineOps TaskForms TaskOps GoText.
From S2P Require Import Effects CaseData CaseOps TaskCompletion McpServer.

Definition case_status_text (s : case_status) : string :=
  match s with
  | CaseOpen => "open" | CaseInProgress => "in_progress"
  | CaseCompleted => "completed" | CaseCancelled => "cancelled"
  end.

(** ** Decoded arguments *)

Definition invalid_arguments (e : goerr) : goerr := Wrapf "invalid arguments: %w" [] e.

(** [json.Unmarshal(args, &in)] into a struct. *)
Definition dec_args {A} (dec : object -> result goerr A) (args : json) : result goerr A :=
  match args with
  | JObj m => match dec m with Ok a => Ok a | Err e => Err (invalid_arguments e) end
  | JNull => match dec [] with Ok a => Ok a | Err e => Err (invalid_arguments e) end
  | _ => Err (invalid_arguments (unmarshal_type_error "struct"))
  end.

Definition dec_bool_ptr (j : json) : result goerr (option bool) :=
  match j with JNull => Ok None | _ => b ← dec_bool j; Ok (Some b) end.

Definition dec_score (j : json) : result goerr Qc :=
  match j with JNull => Ok (Q2Qc 0) | _ => dec_float j end.

Record CaseSearchInput : Type := mkCaseSearchInput {
  csiCaseType : string;
  csiStatus : string;
  csiSince : option Z;
  csiLimit : Z
}.

(** A listed case: id, status, case number, case type, creation time. *)
Record ListedCase : Type := mkListedCase {
  lcID : uuid; lcStatus : case_status; lcNumber : string; lcCaseType : string; lcCreatedAt : Z
}.

Record TaskListInput : Type := mkTaskListInput {
  tliRole : string;
  tliCaseID : option uuid;
  tliStatus : string;
  tliLimit : Z
}.

Record TaskSummary : Type := mkTaskSummary {
  tsCaseID : uuid;
  tsStepID : string;
  tsState : step_state;
  tsAssignedTo : option uuid;
  tsSLA : option Z;
  tsCreatedAt : Z;
  tsRole : string;
  tsDisplayName : string;
  tsCaseNumber : string;
  tsCaseType : string
}.

Definition task_id (t : TaskSummary) : string := uuid_string (tsCaseID t) +:+ ":" +:+ tsStepID t.

Section Tools.
Context `{R : Runtime}.
Context (regexp_match : string -> string -> option bool) (fmtFloat : Qc -> string).
Context (uuid_Parse : string -> result goerr uuid) (time_Parse : string -> result goerr Z).
Context (engine : option Engine).
(** [cases.ListCases]: a page of the cases of a tenant by type and statuses. *)
Context (ListCases : uuid -> string -> list string -> Z -> M (list ListedCase)).
(** [rag]: the knowledge bases of a tenant, and a search in one of them. *)
Context (ListKnowledgeBases : option (uuid -> M (list (string * uuid)))).
Context (Search : option (uuid -> uuid -> string -> Z -> Qc -> M (list json))).

Definition case_engine : option CaseEngine := engine_for_cases <$> engine.
Definition task_engine : option (uuid -> M unit) := evaluateDAG <$> engine.

(** ** The composite store ([deps.go]) *)

Definition first_message (errs : list CaseData.ValidationError) : goerr :=
  Errorf "validation_failed: %s" [match errs with v :: _ => CaseData.veMessage v | [] => EmptyString end].

Definition CreateCaseMCP (tenantID userID : uuid) (caseType : string) (data : object)
    : M (uuid * case_status) :=
  created ← CreateCase regexp_match fmtFloat case_engine tenantID userID
              (mkCreateCaseRequest (TrimSpace caseType) (Some data) 0);
  match created with
  | Invalid vErrs => throw (first_message vErrs)
  | Done c => mret (CaseOps.caseID c, cStatus (caseRow c))
  end.

Definition UpdateCaseMCP (tenantID userID caseID : uuid) (data : object) : M unit :=
  current ← GetCase tenantID caseID;
  r ← CaseOps.UpdateCaseData regexp_match fmtFloat tenantID caseID userID data (cVersion (caseRow current));
  match r with
  | Invalid vErrs => throw (first_message vErrs)
  | Done _ => mret tt
  end.

Definition compactCSV (v : string) : list string :=
  let v := TrimSpace v in if decide (v = EmptyString) then [] else [v].

Definition SearchCasesMCP (tenantID : uuid) (input : CaseSearchInput) : M (list ListedCase) :=
  let limit := if csiLimit input <=? 0 then 20 else csiLimit input in
  items ← ListCases tenantID (TrimSpace (csiCaseType input)) (compactCSV (csiStatus input)) limit;
  mret (filter (fun i => match csiSince input with
                          | Some since => negb (lcCreatedAt i <? since)
                          | None => true
                          end = true)
          items).

(** The active steps of a tenant, joined with their cases and case types. *)
Definition active_tasks (tenantID : uuid) (d : DB) : list TaskSummary :=
  omap (fun kr : (uuid * string) * StepRow =>
    let '((caseID, stepID), r) := kr in
    match cases d !! caseID with
    | Some c =>
        match case_types d !! cCaseType c with
        | Some ct =>
            if is_active r && bool_decide (cTenant c = tenantID)
            then Some (mkTaskSummary caseID stepID (sState r) (sAssignedTo r) (sSlaDeadline r)
                         (default time_zero (sStartedAt r)) (row_role r)
                         (match sMetadata r with
                          | Some (JObj o) => match obj_get "label" o with
                                             | Some JNull | None => stepID
                                             | Some (JStr s) => s
                                             | Some j => jsonb_text j
                                             end
                          | _ => stepID
                          end) (cNumber c) (ctName ct))
            else None
        | None => None
        end
    | None => None
    end) (map_to_list (case_steps d)).

Definition matches_input (input : TaskListInput) (t : TaskSummary) : bool :=
  (bool_decide (tliRole input = EmptyString) || bool_decide (tsRole t = tliRole input)) &&
  (match tliCaseID input with Some c => bool_decide (tsCaseID t = c) | None => true end) &&
  (bool_decide (tliStatus input = EmptyString) ||
   bool_decide (step_state_string (tsState t) = tliStatus input)).

(** The limit is part of the query; the filters apply to what it returns. *)
Definition ListTasksMCP (tenantID : uuid) (input : TaskListInput) : M (list TaskSummary) :=
  rows ← query (fun _ d => take (Z.to_nat (Z.max 1 (tliLimit input)))
           (SliceStable (fun a b => tsCreatedAt b <? tsCreatedAt a) (active_tasks tenantID d)));
  mret (filter (fun t => matches_input input t = true) rows).

Definition parseTaskID (taskID : string) : result goerr (uuid * string) :=
  match Split ":" (TrimSpace taskID) with
  | [c; s] =>
      match uuid_Parse c with
      | Err e => Err (Wrapf "invalid case id in task_id: %w" [] e)
      | Ok cid => if decide (TrimSpace s = EmptyString) then Err (Errorf "invalid step id in task_id" [])
                  else Ok (cid, s)
      end
  | _ => Err (Errorf "task_id must be <case_id>:<step_id>" [])
  end.

Definition GetTaskMCP (tenantID : uuid) (taskID : string) : M (uuid * TaskDetail) :=
  '(caseID, stepID) ← lift (parseTaskID taskID);
  detail ← GetTask tenantID caseID stepID;
  mret (caseID, detail).

Definition CompleteTaskMCP (tenantID userID : uuid) (taskID decision : string) (formData : option object)
    : M uuid :=
  '(caseID, stepID) ← lift (parseTaskID taskID);
  _ ← CompleteTask fmtFloat task_engine tenantID userID caseID stepID
        (mkCompleteTaskRequest decision formData);
  mret caseID.

Definition GetStatusMCP (tenantID caseID : uuid) : M WorkflowStatus :=
  match engine with
  | None => throw (Errorf "workflow engine not configured" [])
  | Some _ => GetStatus tenantID caseID
  end.

Definition ListCaseTypes (tenantID : uuid) (includeArchived : bool) : M (list CaseType) :=
  rows ← wrapM (Wrapf "list case types: %w" [])
    (query (fun _ d => SliceStable
       (fun a b : uuid * CaseTypeRow =>
          str_ltb (ctName a.2) (ctName b.2) ||
          (bool_decide (ctName a.2 = ctName b.2) && (ctVersion b.2 <? ctVersion a.2)))
       (filter (fun x : uuid * CaseTypeRow =>
          ctTenant x.2 = tenantID /\ (includeArchived = true \/ ctActive x.2 = true))
          (map_to_list (case_types d)))));
  lift (mapE (fun x : uuid * CaseTypeRow =>
          match dec_CaseTypeSchema (ctSchema x.2) with
          | Ok s => Ok (mkCaseType x.1 x.2 s)
          | Err e => Err (Wrapf "decode case type schema: %w" [] e)
          end) rows).

(** ** The tools *)

Definition time_value (t : Z) : json := JStr (time_json t).
Definition opt_time (t : option Z) : json := match t with Some t => time_value t | None => JNull end.

Definition parse_case_id (s : string) : result goerr uuid :=
  match uuid_Parse s with Ok u => Ok u | Err e => Err (Wrapf "invalid case_id: %w" [] e) end.

Definition create_case_exec (conn : Connection) (args : json) : M json :=
  '(caseType, data) ← lift (dec_args (fun m =>
     ct ← dec_field "case_type" dec_string EmptyString m;
     d ← dec_field "data" dec_object None m;
     _ ← dec_field "trigger_workflow" dec_bool_ptr None m;
     Ok (ct, d)) args);
  if decide (caseType = EmptyString) then throw (Errorf "case_type is required" [])
  else match data with
       | None => throw (Errorf "data is required" [])
       | Some data =>
           '(caseID, status) ← CreateCaseMCP (connTenantID conn) (connUserID conn) caseType data;
           mret (JObj (mk_obj [("case_id", JStr (uuid_string caseID)); ("status", JStr (case_status_text status))]))
       end.

(** [json.Marshal] of a [CaseEvent]. *)
Definition event_json (e : Event) : json :=
  JObj (mk_obj ([("id", JStr (uuid_string (evID e))); ("event_type", JStr (evEventType e));
    ("actor_id", JStr (uuid_string (evActorID e))); ("actor_type", JStr (evActorType e));
    ("action", JStr (evAction e)); ("created_at", time_value (evCreatedAt e));
    ("prev_event_hash", JStr (evPrevHash e)); ("event_hash", JStr (evHash e))] ++
    omit_str "step_id" (evStepID e) ++
    match evData e with Some (JObj (kv :: m)) => [("data", JObj (kv :: m))] | _ => [] end)).

Definition get_case_exec (conn : Connection) (args : json) : M json :=
  id ← lift (dec_args (dec_field "case_id" dec_string EmptyString) args);
  caseID ← lift (parse_case_id id);
  item ← GetCase (connTenantID conn) caseID;
  mret (JObj (mk_obj [("case_id", JStr (uuid_string (CaseOps.caseID item)));
    ("status", JStr (case_status_text (cStatus (caseRow item))));
    ("data", marshal_map (caseData item)); ("created_at", time_value (cCreatedAt (caseRow item)));
    ("updated_at", time_value (cUpdatedAt (caseRow item)));
    ("timeline", JArr (map event_json (caseEvents item)));
    ("case_type", JStr (caseType item)); ("case_number", JStr (cNumber (caseRow item)))])).

Definition update_case_exec (conn : Connection) (args : json) : M json :=
  '(id, data) ← lift (dec_args (fun m =>
     i ← dec_field "case_id" dec_string EmptyString m;
     d ← dec_field "data" dec_object None m; Ok (i, d)) args);
  cid ← lift (parse_case_id id);
  match data with
  | None => throw (Errorf "data is required" [])
  | Some data =>
      _ ← UpdateCaseMCP (connTenantID conn) (connUserID conn) cid data;
      mret (JObj (mk_obj [("case_id", JStr (uuid_string cid)); ("status", JStr "updated")]))
  end.

Definition search_cases_exec (conn : Connection) (args : json) : M json :=
  '(ct, status, since, limit) ← lift (dec_args (fun m =>
     ct ← dec_field "case_type" dec_string EmptyString m;
     st ← dec_field "status" dec_string EmptyString m;
     _ ← dec_field "filters" dec_object None m;
     si ← dec_field "since" dec_string EmptyString m;
     li ← dec_field "limit" dec_int 0 m;
     Ok (ct, st, si, li)) args);
  since ← (if decide (since = EmptyString) then mret None
           else t ← wrapM (Wrapf "invalid since datetime: %w" []) (lift (time_Parse since)); mret (Some t));
  results ← SearchCasesMCP (connTenantID conn) (mkCaseSearchInput ct status since limit);
  mret (JObj (mk_obj [("cases", JArr (map (fun i => JObj (mk_obj
      [("case_id", JStr (uuid_string (lcID i))); ("status", JStr (case_status_text (lcStatus i)));
       ("summary", JStr (lcNumber i +:+ " " +:+ lcCaseType i)); ("created_at", time_value (lcCreatedAt i));
       ("case_type", JStr (lcCaseType i)); ("case_number", JStr (lcNumber i))])) results));
    ("total_count", JInt (Z.of_nat (length results)))])).

Definition list_case_types_exec (conn : Connection) (args : json) : M json :=
  types ← ListCaseTypes (connTenantID conn) false;
  mret (JObj [("case_types", JArr (map (fun ct => JObj (mk_obj
    [("id", JStr (uuid_string (ctID ct))); ("name", JStr (ctName (ctRow ct)));
     ("schema", marshal_CaseTypeSchema (ctDecoded ct))])) types))]).

Definition summary_json (t : TaskSummary) : json :=
  JObj (mk_obj [("task_id", JStr (task_id t)); ("case_id", JStr (uuid_string (tsCaseID t)));
    ("type", JStr "human_task"); ("status", JStr (step_state_string (tsState t)));
    ("assigned_to", assignee_json (tsAssignedTo t)); ("sla", opt_time (tsSLA t));
    ("created_at", time_value (tsCreatedAt t)); ("role", JStr (tsRole t));
    ("case_number", JStr (tsCaseNumber t)); ("case_type", JStr (tsCaseType t));
    ("display_name", JStr (tsDisplayName t))]).

Definition list_tasks_exec (conn : Connection) (args : json) : M json :=
  '(role, cid, status, limit) ← lift (dec_args (fun m =>
     ro ← dec_field "role" dec_string EmptyString m;
     ci ← dec_field "case_id" dec_string EmptyString m;
     st ← dec_field "status" dec_string EmptyString m;
     li ← dec_field "limit" dec_int 0 m;
     Ok (ro, ci, st, li)) args);
  caseID ← (if decide (cid = EmptyString) then mret None
            else u ← lift (parse_case_id cid); mret (Some u));
  items ← ListTasksMCP (connTenantID conn) (mkTaskListInput role caseID status limit);
  mret (JObj [("tasks", JArr (map summary_json items))]).

Definition get_task_exec (conn : Connection) (args : json) : M json :=
  taskID ← lift (dec_args (dec_field "task_id" dec_string EmptyString) args);
  if decide (taskID = EmptyString) then throw (Errorf "task_id is required" [])
  else
    '(caseID, d) ← GetTaskMCP (connTenantID conn) taskID;
    mret (JObj (mk_obj [("task_id", JStr taskID); ("case_id", JStr (uuid_string caseID));
      ("type", JStr (tdStepType d)); ("status", JStr (step_state_string (tdStepState d)));
      ("form_schema", marshal_FormSchema (tdFormSchema d)); ("case_data", JObj (tdCaseData d));
      ("reasoning_trace", default JNull (obj_get "reasoning_trace" (tdMetadata d)));
      ("available_actions", JArr (map JStr (tdOutcomes d)))])).

Definition complete_task_exec (conn : Connection) (args : json) : M json :=
  '(taskID, decision, data) ← lift (dec_args (fun m =>
     t ← dec_field "task_id" dec_string EmptyString m;
     de ← dec_field "decision" dec_string EmptyString m;
     fd ← dec_field "form_data" dec_object None m;
     _ ← dec_field "notes" dec_string EmptyString m;
     Ok (t, de, fd)) args);
  if bool_decide (taskID = EmptyString) || bool_decide (decision = EmptyString)
  then throw (Errorf "task_id and decision are required" [])
  else
    caseID ← CompleteTaskMCP (connTenantID conn) (connUserID conn) taskID decision data;
    mret (JObj (mk_obj [("task_id", JStr taskID); ("status", JStr "completed");
                        ("case_id", JStr (uuid_string caseID))])).

Definition workflow_status_exec (conn : Connection) (args : json) : M json :=
  id ← lift (dec_args (dec_field "case_id" dec_string EmptyString) args);
  caseID ← lift (parse_case_id id);
  s ← GetStatusMCP (connTenantID conn) caseID;
  mret (JObj (mk_obj [("case_id", JStr (uuid_string (wsCaseID s)));
    ("workflow_id", JStr (uuid_string (wsWorkflowID s))); ("status", JStr (case_status_text (wsStatus s)));
    ("current_step", JStr (wsCurrentStep s)); ("completed_steps", JInt (wsCompletedSteps s));
    ("pending_tasks", JInt (wsPendingTasks s)); ("progress_pct", JNum (wsProgressPct s))])).

Definition resolveKnowledgeBase (kbs : uuid -> M (list (string * uuid))) (tenantID : uuid) (idOrName : string)
    : M uuid :=
  match uuid_Parse (TrimSpace idOrName) with
  | Ok u => mret u
  | Err _ =>
      items ← kbs tenantID;
      match filter (fun kb : string * uuid => EqualFold kb.1 (TrimSpace idOrName) = true) items with
      | kb :: _ => mret kb.2
      | [] => throw (Errorf "knowledge base %q not found" [idOrName])
      end
  end.

Definition search_kb_exec (conn : Connection) (args : json) : M json :=
  match Search, ListKnowledgeBases with
  | Some search, Some kbs =>
      '(kb, q, topK, minScore) ← lift (dec_args (fun m =>
         kb ← dec_field "knowledge_base" dec_string EmptyString m;
         q ← dec_field "query" dec_string EmptyString m;
         k ← dec_field "top_k" dec_int 0 m;
         s ← dec_field "min_score" dec_score (Q2Qc 0) m;
         Ok (kb, q, k, s)) args);
      if bool_decide (TrimSpace kb = EmptyString) || bool_decide (TrimSpace q = EmptyString)
      then throw (Errorf "knowledge_base and query are required" [])
      else
        kbID ← resolveKnowledgeBase kbs (connTenantID conn) kb;
        results ← search (connTenantID conn) kbID q topK minScore;
        mret (JObj [("results", JArr results)])
  | _, _ => throw (Errorf "knowledge search not configured" [])
  end.

Definition as_tool (name description permission : string) (exec : Connection -> json -> M json)
    : ToolHandler (O := World) :=
  mkToolHandler name (mkToolDefinition name description (JObj [])) permission
    (fun _ conn args w => exec conn args w).

(** [NewDefaultTools]; the input schemas are texts for clients. *)
Definition NewDefaultTools : list (ToolHandler (O := World)) :=
  [as_tool "create_case" "Create a new case in Aceryx. Optionally triggers the associated workflow."
     "cases:create" create_case_exec;
   as_tool "get_case" "Retrieve a case by ID, including current data, status, and timeline."
     "cases:read" get_case_exec;
   as_tool "update_case" "Update case data fields. Merges with existing data." "cases:update" update_case_exec;
   as_tool "search_cases" "Search cases by type, status, data fields, or date range." "cases:read" search_cases_exec;
   as_tool "list_case_types" "List available case types with their schemas." "cases:read" list_case_types_exec;
   as_tool "list_tasks" "List pending human tasks, optionally filtered by role or case." "tasks:read" list_tasks_exec;
   as_tool "get_task" "Get task details including form schema, case data, and agentic reasoning trace if applicable."
     "tasks:read" get_task_exec;
   as_tool "complete_task" "Complete a human task with form data. Advances the workflow."
     "tasks:complete" complete_task_exec;
   as_tool "search_knowledge_base" "Search a knowledge base using hybrid semantic + keyword search."
     "workflows:view" search_kb_exec;
   as_tool "get_workflow_status" "Get workflow execution status for a case." "workflows:view" workflow_status_exec].

(** [NewHandler]: the tools by name. *)
Definition tool_map (tools : list (ToolHandler (O := World))) : gmap string (ToolHandler (O := World)) :=
  list_to_map (map (fun t => (thName t, t)) (rev tools)).

End Tools.
