(* ===== verification/McpServerClaims.v ===== *)
(** * What holds of the MCP server *)

From S2P Require McpClient.
From S2P Require Import Prelude GoStrings Json EngineTypes EngineAst Store AuditTrail EngineOps EngineAtomic EngineEvaluate.
From S2P Require Import TaskForms TaskOps TaskClaims CaseData CaseOps GoText Effects TaskCompletion TaskCompletionClaims.
From S2P Require Import McpServer McpTools.

Section Claims.
Context `{R : Runtime} `{E : McpServerEnv} {O : Type}.
Context (tools : gmap string (ToolHandler (O := O))) (IsRAGEnabled : uuid -> bool) (hasAudit : bool).

Abbreviation State := (SrvState (O := O)).

(** ** Nothing but a tool touches the state behind the server *)

Definition same_behind (s s' : State) : Prop :=
  behind s' = behind s /\ handlerConfig s' = handlerConfig s.

#[export] Instance same_behind_preorder : PreOrder same_behind.
Proof. split; [done|]. intros s1 s2 s3 [H1 H2] [H3 H4]. split; congruence. Qed.

Ltac behind_kept :=
  keeps_steps;
  lazymatch goal with
  | |- keepsS _ (exec_update _) => apply keepsS_update; [exact _|intros ? ?; done]
  | |- keepsS _ (changes _) => apply keepsS_changes; intros ?; done
  | _ => idtac
  end.

Lemma log_behind ctx conn name args status d :
  keepsS same_behind (logInvocation (O := O) hasAudit ctx conn name args status d).
Proof. unfold logInvocation. behind_kept. Qed.

Lemma rate_behind key name : keepsS same_behind (RateLimiter_Allow (O := O) key name).
Proof.
  intros w. unfold RateLimiter_Allow, rate_allow.
  repeat (case_match; simplify_eq/=); try done.
Qed.

Lemma Authenticate_behind r : keepsS same_behind (Authenticate (O := O) r).
Proof. unfold Authenticate, ValidateKey. behind_kept. Qed.

(** The requirements a tool call has to meet. *)
Record call_checked (config : ServerConfig) (conn : Connection) (name : string)
    (tool : ToolHandler (O := O)) : Prop := mkCallChecked {
  cc_tool : tools !! name = Some tool;
  cc_enabled : isToolDisabled config name = false;
  cc_permission : hasPermission conn (thPermission tool) = true
}.

Lemma call_tool_behind ctx conn name args (tool : ToolHandler (O := O)) (w : Sys State) :
  exists k, behind (st (call_tool hasAudit ctx conn name args tool w).2) =
    (thExecute tool k conn args (behind (st w))).2.
Proof.
  unfold call_tool, mbind, Svc_bind, tryS, nowS, run_tool. cbn [st ticks].
  exists (S (ticks w)).
  destruct (thExecute tool (S (ticks w)) conn args (behind (st w))) as [[res|e] o]; cbn [st ticks].
  - match goal with |- context [logInvocation _ _ _ _ _ ?s ?d ?w1] =>
      pose proof (log_behind ctx conn name args s d w1) as [Hl _];
      destruct (logInvocation hasAudit ctx conn name args s d w1) as [[?|?] ?] end;
    cbn in *; congruence.
  - match goal with |- context [logInvocation _ _ _ _ _ ?s ?d ?w1] =>
      pose proof (log_behind ctx conn name args s d w1) as [Hl _];
      destruct (logInvocation hasAudit ctx conn name args s d w1) as [[?|?] ?] end;
    cbn in *; congruence.
Qed.

(** A call either leaves the state behind the server alone, or met every check. *)
Lemma handle_call_behind ctx conn params (w : Sys State) :
  let w' := (handle_call tools hasAudit ctx conn params w).2 in
  behind (st w') = behind (st w) \/
  exists name args tool k, call_checked (handlerConfig (st w)) conn name tool /\
    behind (st w') = (thExecute tool k conn args (behind (st w))).2.
Proof.
  unfold handle_call. destruct (dec_call params) as [[name args]|e]; [|by left].
  destruct (decide (name = EmptyString)); [by left|].
  unfold mbind, Svc_bind, reads. destruct (tools !! name) as [tool|] eqn:Et; [|by left].
  destruct (isToolDisabled (handlerConfig (st w)) name) eqn:Ed; [by left|].
  destruct (hasPermission conn (thPermission tool)) eqn:Ep; cbn [negb].
  - unfold tryS. pose proof (rate_behind (connAPIKeyID conn) name w) as [Hr _].
    destruct (RateLimiter_Allow _ _ w) as [[[]|e] w1]; cbn [snd] in Hr.
    + right. destruct (call_tool_behind ctx conn name (default (JObj []) args) tool w1) as [k Hk].
      exists name, (default (JObj []) args), tool, k. split; [done|]. by rewrite Hk, Hr.
    + left. pose proof (log_behind ctx conn name (default (JObj []) args) "rate_limited" 0 w1) as [Hl _].
      destruct (logInvocation _ _ _ _ _ _ _ w1) as [[?|?] ?]; cbn in *; congruence.
  - left. pose proof (log_behind ctx conn name (default (JObj []) args) "permission_denied" 0 w) as [Hl _].
    destruct (logInvocation _ _ _ _ _ _ _ w) as [[?|?] ?]; cbn in *; congruence.
Qed.

Lemma match_key_spec key rows rec :
  match_key key rows = Ok rec ->
  exists row, (recID rec, row) ∈ rows /\ recRow rec = row /\ bcrypt_matches (kHash row) key = true /\
    dec_list dec_string (kRoles row) = Ok (recRoles rec).
Proof.
  induction rows as [|[id row] rows IH]; cbn [match_key]; [done|].
  unfold scanRecord. cbn [fst snd]. destruct (dec_list dec_string (kRoles row)) as [roles|] eqn:Er; [|done].
  destruct (bcrypt_matches (kHash row) key) eqn:Eb.
  - intros [= <-]. exists row. cbn. split; [by left|]. done.
  - intros H. destruct (IH H) as (row' & Hin & H'). exists row'. split; [by right|done].
Qed.

(** A connection belongs to an enabled key whose hash matches what was presented. *)
Definition key_of (s : State) (raw : string) (conn : Connection) : Prop :=
  exists row, mcp_api_keys s !! connAPIKeyID conn = Some row /\ kEnabled row = true /\
    bcrypt_matches (kHash row) raw = true /\ connTenantID conn = kTenantID row /\
    connUserID conn = kUserID row /\ dec_list dec_string (kRoles row) = Ok (connRoles conn).

Lemma Authenticate_sound r (w : Sys State) conn w' :
  Authenticate r w = (Ok conn, w') ->
  exists raw, presented_key (WithDefaults (authConfig (st w))) r = Ok raw /\ raw <> EmptyString /\
    key_of (st w) raw conn.
Proof.
  unfold Authenticate. intros H.
  apply bindS_inv in H as (cfg & w1 & [= <- <-] & H).
  apply bindS_inv in H as (raw & w1 & H1 & H). injection H1 as H1 <-.
  apply bindS_inv in H as ([] & w1 & H2 & H).
  unfold guardS in H2. destruct (bool_decide (raw = EmptyString)) eqn:Eraw; [discriminate|].
  injection H2 as <-. boolp.
  apply bindS_inv in H as (rec & w2 & H3 & H). apply wrapS_inv in H3.
  apply bindS_inv in H as ([] & w3 & H4 & H). injection H as <- <-.
  exists raw. split; [done|]. split; [done|].
  unfold ValidateKey in H3. apply bindS_inv in H3 as (rows & w4 & H5 & H6).
  apply wrapS_inv in H5. unfold select, exec in H5.
  destruct (fault (ticks w)); [discriminate|]. injection H5 as <- <-.
  apply bindS_inv in H6 as (rec' & w5 & H7 & H8). unfold pureS in H7. injection H7 as H7 <-.
  apply bindS_inv in H8 as ([] & w6 & _ & H9). injection H9 as -> ->.
  apply match_key_spec in H7 as (row & Hin & Hrow & Hb & Hroles).
  apply list_elem_of_filter in Hin as [Hen Hin]. apply elem_of_map_to_list in Hin.
  exists row. cbn. rewrite Hrow. done.
Qed.

(** C20. Nothing behind the MCP server changes without authority: if a request
    changes it, the request presented the key of an enabled record, its call
    depth is within the limit, the tool is registered and not disabled, the
    roles of that key grant the permission of the tool, and the change is what
    the tool does for the tenant and user of that key. *)
Theorem ServeHTTP_authorized (r : Request) (w : Sys State) :
  let w' := (ServeHTTP tools IsRAGEnabled hasAudit r w).2 in
  behind (st w') <> behind (st w) ->
  exists raw conn name args tool k,
    presented_key (WithDefaults (authConfig (st w))) r = Ok raw /\ key_of (st w) raw conn /\
    CheckDepth (ReadDepth r) (cfgMaxDepth (handlerConfig (st w))) = Ok tt /\
    call_checked (handlerConfig (st w)) conn name tool /\
    behind (st w') = (thExecute tool k conn args (behind (st w))).2.
Proof.
  intros w' Hne. unfold w', ServeHTTP in *. clear w'.
  destruct (negb (bool_decide (rMethod r = "POST"))); [done|].
  unfold mbind, Svc_bind, reads in Hne |- *.
  destruct (CheckDepth (ReadDepth r) (cfgMaxDepth (handlerConfig (st w)))) as [[]|e]; [|done].
  set (depth := if (0 <? ReadDepth r) && _ then _ else _) in *. clearbody depth.
  assert (exists id w1, correlation_id r w = (Ok id, w1) /\ st w1 = st w) as (id & w1 & Ec & Hw1).
  { unfold correlation_id. destruct (decide _); cbn; eauto. }
  rewrite Ec in Hne |- *. unfold tryS in Hne |- *.
  pose proof (Authenticate_behind r w1) as [Hb Hcfg].
  pose proof (Authenticate_sound r w1) as Hs.
  destruct (Authenticate r w1) as [[conn|e] w2]; cbn [snd] in Hb, Hcfg.
  2: { exfalso. apply Hne. cbn. congruence. }
  destruct (Hs conn w2 eq_refl) as (raw & Hraw & _ & Hkey). rewrite Hw1 in Hraw, Hkey, Hb, Hcfg.
  unfold serve_authenticated in Hne |- *.
  destruct (rBody r ≫= dec_rpc_request) as [req|e]; [|exfalso; apply Hne; cbn; congruence].
  destruct (_ || _); [exfalso; apply Hne; cbn; congruence|].
  unfold mbind, Svc_bind, handleRPC, reads in Hne |- *.
  unfold mbind, Svc_bind in Hne |- *.
  destruct (decide (rpcMethod req = "tools/list")); [exfalso; apply Hne; cbn; congruence|].
  destruct (decide (rpcMethod req = "tools/call")); [|exfalso; apply Hne; cbn; congruence].
  pose proof (handle_call_behind (mkReqCtx id depth) conn (rpcParams req) w2) as Hc.
  destruct (handle_call _ _ _ _ _ w2) as [[out|e'] w3]; cbn [snd st mret Svc_ret] in *.
  - destruct Hc as [Hc|(name & args & tool & k & Hc & Hk)]; [exfalso; apply Hne; cbn; congruence|].
    exists raw, conn, name, args, tool, k. rewrite Hcfg in Hc. rewrite Hb in Hk. done.
  - destruct Hc as [Hc|(name & args & tool & k & Hc & Hk)]; [exfalso; apply Hne; cbn; congruence|].
    exists raw, conn, name, args, tool, k. rewrite Hcfg in Hc. rewrite Hb in Hk. done.
Qed.

(** ** What is listed can be called *)

(** Every tool that [tools/list] shows to a connection is registered, enabled
    and permitted for it, so calling it can only be held up by the rate limit;
    the list is in the order of names. *)
Theorem visibleTools_callable (config : ServerConfig) (conn : Connection)
    (Hreg : forall name t, tools !! name = Some t -> thName t = name) :
  let shown := visibleTools tools IsRAGEnabled config conn in
  StronglySorted (fun a b => str_ltb (defName b) (defName a) = false) shown /\
  forall d, d ∈ shown <-> exists tool, call_checked config conn (thName tool) tool /\
    isTenantFeatureEnabled IsRAGEnabled conn (thName tool) = true /\ thDefinition tool = d.
Proof.
  intros shown. split.
  - apply SliceStable_sorted. apply (strict_weak_on defName), str_ltb_weak.
  - intros d. unfold shown, visibleTools. rewrite SliceStable_perm, list_elem_of_fmap.
    split.
    + intros (tool & -> & Hin). apply list_elem_of_filter in Hin as [Hv Hin].
      apply list_elem_of_fmap in Hin as ([name t] & -> & Hin). apply elem_of_map_to_list in Hin.
      cbn [snd] in *. unfold tool_visible in Hv. boolp. exists t.
      split; [|done]. rewrite (Hreg _ _ Hin) in *. done.
    + intros (tool & [H1 H2 H3] & Hf & <-). exists tool. split; [done|].
      apply list_elem_of_filter. unfold tool_visible. rewrite H2, H3, Hf. split; [done|].
      apply list_elem_of_fmap. exists (thName tool, tool). split; [done|].
      by apply elem_of_map_to_list.
Qed.

(** ** Administration *)

(** The keys of other tenants. *)
Definition same_keys_of_others (tenant : uuid) (s s' : State) : Prop :=
  forall id row, kTenantID row <> tenant ->
    (mcp_api_keys s' !! id = Some row <-> mcp_api_keys s !! id = Some row).

(** A tenant's administrator touches only the tenant's keys: creating,
    updating and revoking a key leave the keys of every other tenant as they
    are, and a revoked key is gone. *)
Theorem KeyAPI_tenant_isolation (tenant user id : uuid) (name : string) (roles : list string)
    (enabled : bool) (w : Sys State) :
  same_keys_of_others tenant (st w) (st (KeyAPI_Create tenant user name roles enabled w).2) /\
  same_keys_of_others tenant (st w) (st (KeyAPI_Update tenant id name roles enabled w).2) /\
  same_keys_of_others tenant (st w) (st (KeyStore_Revoke tenant id w).2) /\
  ((KeyStore_Revoke tenant id w).1 = Ok tt ->
   mcp_api_keys (st (KeyStore_Revoke tenant id w).2) !! id = None).
Proof.
  assert (forall s t row, kTenantID row = tenant ->
    (mcp_api_keys s !! t = None \/ exists old, mcp_api_keys s !! t = Some old /\ kTenantID old = tenant) ->
    same_keys_of_others tenant s (set_keys <[t := row]> s)) as Hins.
  { intros s t row Ht Hold i r Hr. cbn. destruct (decide (i = t)) as [->|Hi].
    - rewrite lookup_insert_eq. split; [congruence|].
      intros H. destruct Hold as [?|(old & ? & ?)]; congruence.
    - by rewrite lookup_insert_ne. }
  split; [|split; [|split]].
  - unfold KeyAPI_Create, KeyStore_Create, guardS, mbind, Svc_bind, callS, wrapS, exec.
    destruct (negb _); [|done]. destruct (negb _); [|done]. cbn [mret Svc_ret ticks st].
    destruct (random_key (ticks w)) as [[raw hash]|]; [|done]. cbn [ticks st].
    destruct (fault _); [done|].
    destruct (mcp_api_keys (st w) !! _) eqn:El; [done|]. apply Hins; auto.
  - unfold KeyAPI_Update, KeyStore_Update, guardS, mbind, Svc_bind, exec.
    destruct (negb _); [|done]. cbn [mret Svc_ret]. destruct (fault _); [done|].
    destruct (mcp_api_keys (st w) !! id) as [row|] eqn:El; [|done].
    destruct (decide (kTenantID row = tenant)); [|done]. cbn [snd st pureS].
    apply Hins; [done|]. right. eauto.
  - unfold KeyStore_Revoke, guardS, mbind, Svc_bind, wrapS, exec.
    destruct (fault _); [done|].
    destruct (mcp_api_keys (st w) !! id) as [row|] eqn:El; [|done].
    destruct (decide (kTenantID row = tenant)); [|done]. cbn.
    intros i r Hr. cbn. destruct (decide (i = id)) as [->|Hi].
    + rewrite lookup_delete_eq. split; [done|congruence].
    + by rewrite lookup_delete_ne.
  - unfold KeyStore_Revoke, guardS, mbind, Svc_bind, wrapS, exec.
    destruct (fault _); [done|].
    destruct (mcp_api_keys (st w) !! id) as [row|] eqn:El; [|done].
    destruct (decide (kTenantID row = tenant)); [|done]. cbn. intros _. apply lookup_delete_eq.
Qed.

(** A new configuration reaches the handler only: after [UpdateConfig] of an
    enabled server to another address, the server listens where it was created
    to listen, and authentication and rate limits stay as they were. *)
Theorem UpdateConfig_partial (cfg : ServerConfig) (w : Sys State) :
  let w' := (UpdateConfig cfg w).2 in
  handlerConfig (st w') = WithDefaults (WithDefaults (WithDefaults cfg)) /\
  authConfig (st w') = authConfig (st w) /\ limiterConfig (st w') = limiterConfig (st w) /\
  sListenAddr (st w') = sListenAddr (st w) /\
  (forall addr, sListening (st w') = Some addr ->
     sListening (st w) = Some addr \/ addr = or_default (sListenAddr (st w)) DefaultListenAddr).
Proof.
  intros w'. unfold w', UpdateConfig, Server_SetConfig, Server_Stop, Server_Start, mbind, Svc_bind, reads, changes.
  cbn [st ticks].
  destruct (cfgEnabled (sConfig (st w))), (cfgEnabled (WithDefaults cfg)) eqn:En;
    cbn [negb andb]; cbn in En.
  - destruct (bool_decide _); cbn [negb]; [cbn; split_and!; auto|].
    cbn. destruct (sListening (st w)); cbn; [destruct (listen_stop _); cbn|];
      rewrite ?En; cbn; split_and!; try done;
      intros ? [= <-]; auto.
  - cbn. destruct (sListening (st w)); cbn; [destruct (listen_stop _); cbn|]; split_and!; done.
  - cbn. rewrite En. cbn. destruct (sListening (st w)); cbn; split_and!; try done;
      intros ? [= <-]; auto.
  - cbn. split_and!; auto.
Qed.
End Claims.

(** ** Client and server agree on the depth header *)

Lemma Header_Get_app k h h' :
  Header_Get k (h ++ h') = if existsb (fun kv => EqualFold kv.1 k) h then Header_Get k h else Header_Get k h'.
Proof.
  induction h as [|[k' v] h IH]; [done|]. cbn. destruct (EqualFold k' k); [done|]. apply IH.
Qed.

(** The depth a client sends is the depth the server reads. *)
Theorem depth_header_roundtrip (c : McpClient.Client) (ctx : McpClient.Ctx) (until : option Z)
    (addr transport : string) (body : result goerr json) (deadline : option Z)
    (Hauth : McpClient.acType (McpClient.clAuth c) = "none")
    (Hd : McpClient.getDepthFromContext ctx <= int64_max) :
  ReadDepth (mkRequest "POST" (McpClient.request_headers c ctx until) addr transport body deadline) =
    McpClient.getDepthFromContext ctx.
Proof.
  assert (0 <= McpClient.getDepthFromContext ctx) as H0.
  { unfold McpClient.getDepthFromContext. destruct (McpClient.ctxDepth ctx); [|lia].
    destruct (Z.leb_spec 0 z); lia. }
  unfold ReadDepth, McpClient.request_headers, McpClient.applyAuth. rewrite Hauth. cbn [rHeader].
  change (bool_decide (ToLower (TrimSpace "none") = EmptyString)) with false.
  change (bool_decide (ToLower (TrimSpace "none") = "none")) with true. cbn [orb].
  assert (forall u, Header_Get "X-MCP-Depth"
    (match until with
     | Some d => McpClient.setTimeoutHeader d (McpClient.setDepthHeader u
         (McpClient.header_set "Accept" "application/json, text/event-stream"
           (McpClient.header_set "Content-Type" "application/json" [])))
     | None => McpClient.setDepthHeader u
         (McpClient.header_set "Accept" "application/json, text/event-stream"
           (McpClient.header_set "Content-Type" "application/json" []))
     end) = Itoa u) as ->.
  { intros u. destruct until; reflexivity. }
  rewrite Atoi_Itoa by (unfold int64_min in *; lia).
  by rewrite (proj2 (Z.ltb_ge _ _) H0).
Qed.

Lemma depth_header_roundtrip_witness :
  ReadDepth (mkRequest "POST" (McpClient.request_headers
     (McpClient.mkClient "http://t" (McpClient.mkAuthConfig "none" "" "")) (McpClient.mkCtx None (Some 2)) None)
     "" "" (Ok JNull) None) = 2.
Proof.
  exact (depth_header_roundtrip (McpClient.mkClient "http://t" (McpClient.mkAuthConfig "none" "" ""))
    (McpClient.mkCtx None (Some 2)) None "" "" (Ok JNull) None eq_refl ltac:(vm_compute; discriminate)).
Defined.

(** ** Examples *)

Definition example_server_env : McpServerEnv :=
  mkMcpServerEnv unit (fun _ => tt) (fun _ l => (true, l)) String.eqb
    (fun _ => Ok ("raw", "hash")) (fun _ => false) (fun _ => "corr") (fun _ => None).
#[local] Existing Instance example_runtime.
#[local] Existing Instance example_server_env.

(** A tool that counts its calls, and a key that may call it. *)
Definition counting_tool (name : string) : ToolHandler (O := nat) :=
  mkToolHandler name (mkToolDefinition name "" (JObj [])) "kb:read"
    (fun _ _ _ n => (Ok (JInt (Z.of_nat n)), S n)).
Definition example_tools (name : string) : gmap string (ToolHandler (O := nat)) :=
  {[ name := counting_tool name ]}.
Definition empty_config : ServerConfig :=
  mkServerConfig true "" "" "" (mkRateLimitConfig 0 empty) [] [] 0 0.
Definition example_server : SrvState (O := nat) :=
  NewServer empty_config {[ 5%N := mkAPIKeyRow 1%N 2%N "k" "raw" (JArr [JStr "kb:*"]) true 0 None ]} 0%nat.
Definition call_request (tool : string) : Request :=
  mkRequest "POST" [("X-API-Key", "raw")] "10.0.0.1:99" "" (Ok (JObj (mk_obj
    [("jsonrpc", JStr "2.0"); ("method", JStr "tools/call"); ("params", JObj [("name", JStr tool)])]))) None.

Lemma ServeHTTP_authorized_witness :
  exists raw conn name args tool k,
    presented_key (WithDefaults (authConfig example_server)) (call_request "count") = Ok raw /\
    key_of example_server raw conn /\
    CheckDepth (ReadDepth (call_request "count")) (cfgMaxDepth (handlerConfig example_server)) = Ok tt /\
    call_checked (example_tools "count") (handlerConfig example_server) conn name tool /\
    behind (st (ServeHTTP (example_tools "count") (fun _ => true) true (call_request "count")
      (mkSys example_server 0)).2) = (thExecute tool k conn args 0%nat).2.
Proof.
  refine (ServeHTTP_authorized (example_tools "count") (fun _ => true) true (call_request "count")
    (mkSys example_server 0) _).
  vm_compute. intros [=].
Defined.

Lemma visibleTools_callable_witness :
  StronglySorted (fun a b => str_ltb (defName b) (defName a) = false)
    (visibleTools (example_tools "count") (fun _ => true) empty_config (mkConnection 1%N 2%N ["*"] 5%N)).
Proof.
  refine (proj1 (visibleTools_callable (example_tools "count") (fun _ => true) empty_config
    (mkConnection 1%N 2%N ["*"] 5%N) _)).
  intros name t H. unfold example_tools in H. apply lookup_singleton_Some in H as [<- <-]. reflexivity.
Defined.

(** Hiding is not denying: with knowledge bases switched off for a tenant
    the search tool is not listed, yet a call of it is executed. *)
Example hidden_tool_callable :
  let conn := mkConnection 1%N 2%N ["kb:*"] 5%N in
  let tools := example_tools "search_knowledge_base" in
  visibleTools tools (fun _ => false) (handlerConfig example_server) conn = [] /\
  behind (st (ServeHTTP tools (fun _ => false) true (call_request "search_knowledge_base")
    (mkSys example_server 0)).2) = 1%nat.
Proof. vm_compute. split; reflexivity. Qed.

(** * What the tools of the MCP server can do *)

Section Claims.
Context `{R : Runtime}.
Context (regexp_match : string -> string -> option bool) (fmtFloat : Qc -> string).
Context (uuid_Parse : string -> result goerr uuid) (time_Parse : string -> result goerr Z).
Context (engine : option Engine).
Context (ListCases : uuid -> string -> list string -> Z -> M (list ListedCase)).
Context (ListKnowledgeBases : option (uuid -> M (list (string * uuid)))).
Context (Search : option (uuid -> uuid -> string -> Z -> Qc -> M (list json))).

Definition default_tools : list (ToolHandler (O := World)) :=
  NewDefaultTools regexp_match fmtFloat uuid_Parse time_Parse engine ListCases ListKnowledgeBases Search.

(** The queries that are not modelled leave the tables alone. *)
Hypothesis ListCases_quiet : forall t c s l, quiet (ListCases t c s l).
Hypothesis ListKB_quiet : forall f t, ListKnowledgeBases = Some f -> quiet (f t).
Hypothesis Search_quiet : forall f t k q n s, Search = Some f -> quiet (f t k q n s).

Lemma get_case_quiet t id : quiet (GetCase t id).
Proof. unfold GetCase, loadCaseSteps, loadCaseEvents, loadCaseDocuments. quiet. Qed.

Lemma read_tool_quiet (t : ToolHandler (O := World)) :
  t ∈ default_tools -> thName t ∉ ["create_case"; "update_case"; "complete_task"] ->
  forall k conn args, quiet (thExecute t k conn args).
Proof.
  intros Hin Hname k conn args. unfold default_tools, NewDefaultTools in Hin.
  rewrite !elem_of_cons, elem_of_nil in Hin.
  destruct_or! Hin; subst t; cbn [thExecute as_tool]; try (exfalso; apply Hname; cbn [thName as_tool];
      rewrite !elem_of_cons; by auto);
    try match goal with |- quiet (fun w => ?f w) => change (quiet f) end.
  - unfold get_case_exec. quiet. apply get_case_quiet.
  - unfold search_cases_exec, SearchCasesMCP. quiet. apply ListCases_quiet.
  - unfold list_case_types_exec, ListCaseTypes. quiet.
  - unfold list_tasks_exec, ListTasksMCP. quiet.
  - unfold get_task_exec, GetTaskMCP. quiet. apply GetTask_quiet.
  - unfold search_kb_exec, resolveKnowledgeBase. quiet; eauto.
  - unfold workflow_status_exec, GetStatusMCP, GetStatus. quiet.
Qed.

(** The tools stay within the authority of their connection: those that read
    change nothing at all, and a completed [complete_task] is exactly the
    completion of the named task by the user of the connection in its tenant. *)
Theorem mcp_tools_scope (tool : ToolHandler (O := World)) (k : nat) (conn : Connection) (args : json) (w : World)
    (Hin : tool ∈ default_tools) (Hw : saved w = None) :
  let '(r, w') := thExecute tool k conn args w in
  (thName tool ∉ ["create_case"; "update_case"; "complete_task"] -> unchanged w w') /\
  (thName tool = "complete_task" -> is_ok r = true ->
     exists taskID caseID stepID outcome data w1,
       parseTaskID uuid_Parse taskID = Ok (caseID, stepID) /\
       CompleteTask fmtFloat (task_engine engine) (connTenantID conn) (connUserID conn) caseID stepID
         (mkCompleteTaskRequest outcome data) w = (Ok tt, w1) /\ w' = w1).
Proof.
  destruct (thExecute tool k conn args w) as [r w'] eqn:Hrun. split.
  - intros Hn. pose proof (read_tool_quiet tool Hin Hn k conn args w) as (H1 & H2 & H3 & _).
    rewrite Hrun in H1, H2, H3. done.
  - intros Hname Hok. unfold default_tools, NewDefaultTools in Hin. rewrite !elem_of_cons, elem_of_nil in Hin.
    destruct_or! Hin; subst tool; cbn [thName as_tool] in Hname; try discriminate Hname.
    cbn [thExecute as_tool] in Hrun. destruct r as [j|]; [|discriminate Hok].
    unfold complete_task_exec in Hrun.
    apply bind_Ok in Hrun as ([[taskID decision] data] & w1 & Hd & Hrun). injection Hd as _ <-.
    destruct (_ || _); [discriminate Hrun|].
    apply bind_Ok in Hrun as (caseID & w2 & Hc & Hrun). injection Hrun as _ <-.
    unfold CompleteTaskMCP in Hc.
    apply bind_Ok in Hc as ([cid stepID] & w3 & Hp & Hc). injection Hp as Hp <-.
    apply bind_Ok in Hc as ([] & w4 & Hc & Hr). injection Hr as _ <-.
    exists taskID, cid, stepID, decision, data, w4. done.
Qed.
End Claims.

(** ** Task identifiers *)

(** The task ids that [list_tasks] hands out are those [get_task] and
    [complete_task] accept, for step ids without a colon; a step whose id has a
    colon is listed under an id that is refused. *)
Theorem parseTaskID_roundtrip (uuid_Parse : string -> result goerr uuid) (t : TaskSummary)
    (Hparse : uuid_Parse (uuid_string (tsCaseID t)) = Ok (tsCaseID t))
    (Hc : char_in ":" (uuid_string (tsCaseID t)) = false)
    (Htrim : TrimSpace (task_id t) = task_id t) (Hs : TrimSpace (tsStepID t) <> EmptyString) :
  (char_in ":" (tsStepID t) = false -> parseTaskID uuid_Parse (task_id t) = Ok (tsCaseID t, tsStepID t)) /\
  (char_in ":" (tsStepID t) = true -> is_ok (parseTaskID uuid_Parse (task_id t)) = false).
Proof.
  unfold parseTaskID. rewrite Htrim. unfold task_id.
  change (":" +:+ tsStepID t) with (String ":" (tsStepID t)).
  rewrite Split_cons_sep by done. split; intros H.
  - rewrite Split_no_sep by done. rewrite Hparse. by rewrite decide_False.
  - destruct (Cut ":" (tsStepID t)) as [[x y]|] eqn:E; [|apply Cut_none in E; congruence].
    apply Cut_split in E as [-> Hx]. rewrite Split_cons_sep by done.
    pose proof (Split_nonempty ":" y). by destruct (Split ":" y).
Qed.

Definition example_summary (step : string) : TaskSummary :=
  mkTaskSummary 5 step StateActive None None 0 "" "" "N-1" "loan".
Definition parse5 (s : string) : result goerr uuid := Ok 5%N.

Lemma parseTaskID_roundtrip_witness :
  parseTaskID parse5 (task_id (example_summary "review")) = Ok (5%N, "review") /\
  is_ok (parseTaskID parse5 (task_id (example_summary "a:b"))) = false.
Proof.
  split.
  - exact (proj1 (parseTaskID_roundtrip parse5 (example_summary "review") eq_refl eq_refl
      ltac:(vm_compute; reflexivity) ltac:(vm_compute; discriminate)) eq_refl).
  - exact (proj2 (parseTaskID_roundtrip parse5 (example_summary "a:b") eq_refl eq_refl
      ltac:(vm_compute; reflexivity) ltac:(vm_compute; discriminate)) eq_refl).
Defined.

(** [list_tasks] filters after its limit: with the newest task belonging to
    another role, asking for one task of a role finds none. *)
Example ListTasksMCP_limit_first :
  let summary id role started := mkTaskSummary id "review" StateActive None None started role "" "" "" in
  let rows := SliceStable (fun a b => tsCreatedAt b <? tsCreatedAt a) [summary 1%N "clerk" 1; summary 2%N "boss" 2] in
  filter (fun t => matches_input (mkTaskListInput "clerk" None "" 1) t = true) (take 1 rows) = [] /\
  filter (fun t => matches_input (mkTaskListInput "clerk" None "" 1) t = true) rows <> [].
Proof. vm_compute. split; [reflexivity|discriminate]. Qed.

#[local] Existing Instance example_runtime.

Lemma mcp_tools_scope_witness :
  unchanged review_world (thExecute (as_tool "list_case_types" "List available case types with their schemas."
    "cases:read" list_case_types_exec) 0 (mkConnection 1 7 ["*"] 5) (JObj []) review_world).2.
Proof.
  pose proof (mcp_tools_scope (fun _ _ => None) (fun _ => "0") parse5 (fun _ => Err ErrNoRows) None
    (fun _ _ _ _ => mret []) None None (fun _ _ _ _ => quiet_ret _) ltac:(discriminate) ltac:(discriminate)
    (as_tool "list_case_types" "List available case types with their schemas." "cases:read" list_case_types_exec)
    0 (mkConnection 1 7 ["*"] 5) (JObj []) review_world) as H.
  destruct (thExecute _ 0 _ (JObj []) review_world) as [r w'].
  apply H; [|reflexivity|].
  - unfold default_tools, NewDefaultTools. rewrite !elem_of_cons. auto 10.
  - cbn [thName as_tool]. rewrite !elem_of_cons, elem_of_nil. intros [?|[?|[?|[]]]]; discriminate.
Defined.
