(* ===== verification/PublishValidation.v ===== *)
(** * Validation of a publication: [internal/workflows/publish_validation.go]

    First a breadth-first search over adjacency lists: the loop that the validation of a publication runs twice: a queue of nodes,
    a set of visited ones, and the neighbours of a node taken from a Go map. The
    loop ends within one round per queued node and per edge, and it visits
    exactly the nodes that can be reached from the queue. *)

From stdpp Require Import relations.
From S2P Require Import Prelude GoStrings Json EngineTypes EngineAst TaskForms WorkflowValidation GoText.

Section Search.
Context (next : string -> list string).

(** [for len(queue) > 0 { current := queue[0]; queue = queue[1:]; ... }] *)
Fixpoint bfs (fuel : nat) (queue : list string) (visited : gset string) : option (gset string) :=
  match fuel with
  | O => None
  | S f =>
      match queue with
      | [] => Some visited
      | current :: queue' =>
          if decide (current ∈ visited) then bfs f queue' visited
          else bfs f (queue' ++ next current) ({[current]} ∪ visited)
      end
  end.

Definition edge (x y : string) : Prop := y ∈ next x.

(** ** What the loop visits *)

Lemma bfs_visits fuel queue visited V :
  bfs fuel queue visited = Some V ->
  (forall x y, x ∈ visited -> edge x y -> y ∈ visited \/ y ∈ queue) ->
  visited ⊆ V /\ (forall x, x ∈ queue -> x ∈ V) /\
  (forall x y, x ∈ V -> edge x y -> y ∈ V) /\
  (forall x, x ∈ V -> x ∈ visited \/ exists q, q ∈ queue /\ rtc edge q x).
Proof.
  revert queue visited. induction fuel as [|f IH]; intros queue visited H Hinv; [done|].
  destruct queue as [|current queue]; simpl in H.
  - simplify_eq. split_and!; [done|by intros x ?%not_elem_of_nil| |by left].
    intros x y Hx Hy. destruct (Hinv x y Hx Hy) as [?|?%not_elem_of_nil]; done.
  - destruct (decide (current ∈ visited)) as [Hc|Hc].
    + destruct (IH _ _ H) as (Hsub & Hq & Hcl & Hr).
      { intros x y Hx Hy. destruct (Hinv x y Hx Hy) as [?|[->|?]%elem_of_cons]; auto. }
      split_and!; [done| |done|].
      * intros x [->|Hx]%elem_of_cons; auto.
      * intros x Hx. destruct (Hr x Hx) as [?|(q & Hq' & ?)]; [by left|].
        right. exists q. split; [by right|done].
    + destruct (IH _ _ H) as (Hsub & Hq & Hcl & Hr).
      { intros x y [->%elem_of_singleton|Hx]%elem_of_union Hy.
        - right. apply elem_of_app. by right.
        - destruct (Hinv x y Hx Hy) as [?|[->|?]%elem_of_cons]; [set_solver..|].
          right. apply elem_of_app. by left. }
      split_and!; [set_solver| |done|].
      * intros x [->|Hx]%elem_of_cons; [set_solver|]. apply Hq, elem_of_app. by left.
      * intros x Hx. destruct (Hr x Hx) as [[->%elem_of_singleton|?]%elem_of_union|(q & Hq' & Hp)].
        -- right. exists current. split; [left|reflexivity].
        -- by left.
        -- apply elem_of_app in Hq' as [Hq'|Hq']; right;
             [exists q; split; [by right|done]|].
           exists current. split; [left|]. eapply rtc_l; [exact Hq'|done].
Qed.

Lemma bfs_reachable fuel queue V x :
  bfs fuel queue ∅ = Some V -> x ∈ V <-> exists q, q ∈ queue /\ rtc edge q x.
Proof.
  intros H. destruct (bfs_visits _ _ _ _ H) as (_ & Hq & Hcl & Hr); [set_solver|].
  split.
  - intros Hx. destruct (Hr x Hx) as [?|?]; [set_solver|done].
  - intros (q & Hin & Hp). apply Hq in Hin. induction Hp; [done|]. eauto.
Qed.

(** ** The rounds it takes *)

(** [g] bounds the neighbours of every node by an entry of a Go map. *)
Context (g : gmap string (list string)).
Context (Hnext : forall x, (length (next x) <= length (default [] (g !! x)))%nat).

Definition weigh (visited : gset string) (kv : string * list string) : nat :=
  if decide (kv.1 ∈ visited) then 0%nat else length kv.2.

Definition edges_left (visited : gset string) : nat :=
  sum_list_with (weigh visited) (map_to_list g).

Lemma weigh_mono visited x L :
  (sum_list_with (weigh ({[x]} ∪ visited)) L <= sum_list_with (weigh visited) L)%nat.
Proof.
  induction L as [|kv L IH]; simpl; [lia|]. unfold weigh at 1 3.
  repeat case_decide; try set_solver; lia.
Qed.

Lemma weigh_visit visited x l L :
  x ∉ visited -> (x, l) ∈ L ->
  (sum_list_with (weigh ({[x]} ∪ visited)) L + length l <= sum_list_with (weigh visited) L)%nat.
Proof.
  intros Hx. induction L as [|kv L IH]; intros Hin; [by apply not_elem_of_nil in Hin|].
  simpl. apply elem_of_cons in Hin as [<-|Hin].
  - pose proof (weigh_mono visited x L). unfold weigh at 1 3. simpl.
    rewrite decide_True by set_solver. rewrite decide_False by done. lia.
  - specialize (IH Hin). unfold weigh at 1 3. repeat case_decide; try set_solver; lia.
Qed.

Lemma edges_left_visit visited x :
  x ∉ visited -> (edges_left ({[x]} ∪ visited) + length (next x) <= edges_left visited)%nat.
Proof.
  intros Hx. pose proof (Hnext x) as Hl. unfold edges_left.
  destruct (g !! x) as [l|] eqn:E; simpl in Hl.
  - pose proof (weigh_visit visited x l (map_to_list g) Hx) as H.
    rewrite elem_of_map_to_list in H. specialize (H E). lia.
  - pose proof (weigh_mono visited x (map_to_list g)). lia.
Qed.

Lemma bfs_total fuel queue visited :
  (length queue + edges_left visited < fuel)%nat -> exists V, bfs fuel queue visited = Some V.
Proof.
  revert queue visited. induction fuel as [|f IH]; intros queue visited H; [lia|].
  destruct queue as [|current queue]; simpl; [eauto|]. simpl in H.
  case_decide as Hc; apply IH; [lia|].
  pose proof (edges_left_visit visited current Hc). rewrite length_app. lia.
Qed.

End Search.

(** The edges of a map: the rounds that a search of it is given, after the queue. *)
Definition edge_count (g : gmap string (list string)) : nat :=
  sum_list_with (fun kv => length kv.2) (map_to_list g).

Lemma edges_left_le g visited : (edges_left g visited <= edge_count g)%nat.
Proof.
  unfold edges_left, edge_count. induction (map_to_list g) as [|kv L IH]; simpl; [lia|].
  unfold weigh at 1. case_decide; lia.
Qed.

Lemma bfs_enough next g queue :
  (forall x, (length (next x) <= length (default [] (g !! x)))%nat) ->
  exists V, bfs next (S (length queue + edge_count g)) queue ∅ = Some V.
Proof.
  intros Hn. apply (bfs_total next g Hn). pose proof (edges_left_le g ∅). lia.
Qed.

(** ** Validation of a publication: [internal/workflows/publish_validation.go]

    What a draft must satisfy beyond [WorkflowValidation] to be published. The
    checks collect every error instead of stopping at the first: types and
    configuration of the steps, dangling edges, the shape of the graph of
    dependencies and outcomes (entry points, reachability, connectedness, a
    terminal step), references to AI components, and cycles. The catalog of AI
    components is an interface of the code: it is given by the outcome of its
    [List], the identifiers of the components of the tenant ([None] for a nil
    entry). *)

Open Scope go_scope.

(** The message is a text with its verbs and arguments, as in an error. *)
Record PublishValidationError : Type := mkPublishValidationError {
  peStepID : string;
  peField : string;
  peCode : string;
  peMessage : goerr;
  peSuggestion : string
}.

Definition PublishValidationErrors : Type := list PublishValidationError.

(** [PublishValidationErrors.Error] *)
Definition PublishValidationErrors_Error (p : PublishValidationErrors) : goerr :=
  match p with
  | [] => Errorf "invalid workflow ast" []
  | first :: _ =>
      if decide (Error (peMessage first) = "") then Errorf "invalid workflow ast" []
      else Wrapf "invalid workflow ast: %w" [] (peMessage first)
  end.

Definition add (p : PublishValidationErrors) (err : PublishValidationError)
  : PublishValidationErrors :=
  if decide (TrimSpace (Error (peMessage err)) = "") then p
  else if decide (TrimSpace (peCode err) = "") then p
  else p ++ [err].

Definition hasErrors (p : PublishValidationErrors) : bool := (0 <? length p)%nat.

(** [if !ok { validation.add(...) }] *)
Definition add_unless (ok : bool) (p : PublishValidationErrors) (err : PublishValidationError)
  : PublishValidationErrors := if ok then p else add p err.

(** What [validatePublishWorkflow] returns when it does not return nil. *)
Inductive publish_error : Type :=
  | Invalid (errors : PublishValidationErrors)
  | Failed (err : goerr).

(** ** Steps *)

Definition isSupportedStepType (ty : string) : bool :=
  bool_decide (TrimSpace ty ∈ ["human_task"; "agent"; "ai_component"; "extraction";
                               "integration"; "rule"; "timer"; "notification"]).

Definition missing_config (id field : string) (msg : string) : PublishValidationError :=
  mkPublishValidationError id field "MISSING_REQUIRED_CONFIG" (Errorf msg [id]) "".

Definition is_object (v : option json) : bool :=
  match v with Some (JObj _) => true | _ => false end.

(** The trimmed id that the checks know a step by. *)
Definition key_of (step : WorkflowStep) : string := TrimSpace (stepID step).

Section Publish.
Context (Evaluate : string -> json -> result goerr json) (fmtFloat : Qc -> string) (now : string).

Definition addMissingRequiredConfigErrors (validation : PublishValidationErrors)
    (step : WorkflowStep) (cfg : object) : PublishValidationErrors :=
  let id := key_of step in
  let ty := TrimSpace (stepType step) in
  let has := hasStringValue fmtFloat cfg in
  if decide (ty = "human_task") then
    let v := add_unless (has "assignee" || hasKey cfg "candidate_roles" ||
                         has "assign_to_role" || has "assign_to_user") validation
      (missing_config id "config.assignee" "Step %q human_task requires assignee or candidate_roles") in
    add_unless (hasKey cfg "form" || hasKey cfg "form_schema") v
      (missing_config id "config.form" "Step %q human_task requires form")
  else if decide (ty = "agent") then
    let v := add_unless (has "prompt_template" || has "prompt") validation
      (missing_config id "config.prompt_template" "Step %q agent requires prompt_template or prompt") in
    add_unless (is_object (obj_get "output_schema" cfg)) v
      (missing_config id "config.output_schema" "Step %q agent requires output_schema object")
  else if decide (ty = "ai_component") then
    add_unless (has "component") validation
      (missing_config id "config.component" "Step %q ai_component requires component")
  else if decide (ty = "extraction") then
    let v1 := add_unless (has "schema_id" || has "schema_name" || has "schema") validation
      (missing_config id "config.schema_name" "Step %q extraction requires schema_id or schema_name") in
    let v2 := add_unless (has "document_ref" || has "document_path") v1
      (missing_config id "config.document_ref" "Step %q extraction requires document_ref") in
    add_unless (has "output_path") v2
      (missing_config id "config.output_path" "Step %q extraction requires output_path")
  else if decide (ty = "integration") then
    add_unless (has "connector" && has "action") validation
      (missing_config id "config.connector" "Step %q integration requires connector and action")
  else if decide (ty = "rule") then
    add_unless (negb (bool_decide (stepOutcomes step = ∅))) validation
      (missing_config id "outcomes" "Step %q rule requires outcomes")
  else if decide (ty = "timer") then
    add_unless (has "duration" || has "schedule") validation
      (missing_config id "config.duration" "Step %q timer requires duration or schedule")
  else if decide (ty = "notification") then
    let v := add_unless (has "channel") validation
      (missing_config id "config.channel" "Step %q notification requires channel") in
    add_unless (has "template" || has "message") v
      (missing_config id "config.template" "Step %q notification requires template or message")
  else validation.

(** ** The graph *)

(** [outgoing[from] = append(outgoing[from], to)] *)
Definition add_edge (from to : string) (m : gmap string (list string)) : gmap string (list string) :=
  <[from := default [] (m !! from) ++ [to]]> m.

Record graph : Type := mkGraph {
  byID : gmap string WorkflowStep;
  inDegree : gmap string Z;
  outgoing : gmap string (list string)
}.

(** The first loop of [validatePublishWorkflow]. *)
Definition index_step (g : graph) (step : WorkflowStep) : graph :=
  let id := key_of step in
  mkGraph
    (if decide (id = "") then byID g else <[id := step]> (byID g))
    (<[id := Z.of_nat (length (stepDependsOn step))]> (inDegree g))
    (foldl (fun m dep => add_edge dep id m) (outgoing g) (stepDependsOn step)).

Definition index_steps (workflow : WorkflowAST) : graph :=
  foldl index_step (mkGraph ∅ ∅ ∅) workflow.

Definition known (g : graph) (id : string) : bool := bool_decide (is_Some (byID g !! id)).

Definition dangling_dep (id dep : string) : PublishValidationError :=
  mkPublishValidationError id "depends_on" "DANGLING_EDGE"
    (Errorf "Step %q depends on unknown step %q" [id; dep]) "".
Definition dangling_outcome (id outcome target : string) : PublishValidationError :=
  mkPublishValidationError id "outcomes" "DANGLING_EDGE"
    (Errorf "Step %q outcome %q targets unknown step %q" [id; outcome; target]) "".

(** The outcomes of a step, one target at a time. *)
Definition outcome_targets (step : WorkflowStep) : list (string * string) :=
  '(outcome, targets) ← map_to_list (stepOutcomes step);
  (fun target => (outcome, target)) <$> targets.

(** The body of the second loop: [continue] when the configuration is no object. *)
Definition check_publish_step (g : graph)
    (acc : PublishValidationErrors * gmap string (list string)) (step : WorkflowStep)
  : PublishValidationErrors * gmap string (list string) :=
  let id := key_of step in
  let ty := TrimSpace (stepType step) in
  let v := add_unless (isSupportedStepType ty) acc.1
    (mkPublishValidationError id "type" "UNKNOWN_STEP_TYPE"
      (Errorf "Step type %q is not supported" [ty]) "") in
  match decodeStepConfig step with
  | Err e => (add v (mkPublishValidationError id "config" "MISSING_REQUIRED_CONFIG" e ""), acc.2)
  | Ok cfg =>
      let v := addMissingRequiredConfigErrors v step cfg in
      let v := foldl (fun v dep => add_unless (known g dep) v (dangling_dep id dep)) v
                 (stepDependsOn step) in
      foldl (fun '(v, out) '(outcome, target) =>
               (add_unless (known g target) v (dangling_outcome id outcome target),
                add_edge id target out))
        (v, acc.2) (outcome_targets step)
  end.

Definition degree (m : gmap string Z) (id : string) : Z := default 0%Z (m !! id).
Definition targets (m : gmap string (list string)) (id : string) : list string := default [] (m !! id).
Definition known_targets (g : graph) (out : gmap string (list string)) (id : string) : list string :=
  filter (fun target => is_true (known g target)) (targets out id).

Definition unreachable (id : string) : PublishValidationError :=
  mkPublishValidationError id "depends_on" "UNREACHABLE_NODE"
    (Errorf "Step %q is unreachable from workflow entrypoint" [id]) "".
Definition graph_error (code msg : string) : PublishValidationError :=
  mkPublishValidationError "" "steps" code (Errorf msg []) "".

(** The undirected edges of [isDisconnected]: blank ends are skipped. *)
Definition join_nodes (id other : string) (m : gmap string (list string)) : gmap string (list string) :=
  let other := TrimSpace other in
  if decide (other = "") then m else add_edge other id (add_edge id other m).

Definition neighbors (workflow : WorkflowAST) : gmap string (list string) :=
  foldl (fun m step =>
    let id := key_of step in
    let m := foldl (fun m dep => join_nodes id dep m) m (stepDependsOn step) in
    foldl (fun m '(_, target) => join_nodes id target m) m (outcome_targets step)) ∅ workflow.

Definition isDisconnected (workflow : WorkflowAST) : bool :=
  match workflow with
  | [] => false
  | first :: _ =>
      let m := neighbors workflow in
      match bfs (targets m) (S (1 + edge_count m)) [key_of first] ∅ with
      | Some visited => negb (size visited =? length workflow)%nat
      | None => true
      end
  end.

Definition roots (g : graph) (workflow : WorkflowAST) : list string :=
  filter (fun id => degree (inDegree g) id = 0%Z) (map key_of workflow).

Definition addGraphErrors (validation : PublishValidationErrors) (workflow : WorkflowAST)
    (g : graph) (out : gmap string (list string)) : PublishValidationErrors :=
  if decide (workflow = []) then validation
  else
    let roots := roots g workflow in
    let v := add_unless (negb (bool_decide (roots = []))) validation
      (graph_error "INVALID_ENTRYPOINT"
         "Workflow must contain at least one entrypoint step with no dependencies") in
    let visited := default ∅ (bfs (known_targets g out) (S (length roots + edge_count out)) roots ∅) in
    let v := foldl (fun v step => add_unless (bool_decide (key_of step ∈ visited)) v
                                    (unreachable (key_of step))) v workflow in
    let v := add_unless (negb (isDisconnected workflow)) v
      (graph_error "DISCONNECTED_GRAPH" "Workflow graph is disconnected") in
    let terminalCount := length (filter (fun step => known_targets g out (key_of step) = []) workflow) in
    add_unless (negb (terminalCount =? 0)%nat) v
      (graph_error "INVALID_TERMINAL" "Workflow must contain at least one terminal step").

(** ** References to AI components *)

(** The loop that stops as soon as two identifiers are ranked. *)
Fixpoint ranked_builtin (ids ranked : list string) : list string :=
  match ids with
  | [] => ranked
  | id :: ids' =>
      let ranked := if HasPrefix id "document_" || HasPrefix id "sentiment_"
                    then ranked ++ [id] else ranked in
      if decide (length ranked = 2)%nat then ranked else ranked_builtin ids' ranked
  end.

Definition suggestComponentIDs (missing : string) (ids : list string) : list string :=
  if decide (ids = []) then ["document_extraction"; "sentiment_analysis"]
  else
    let lowerMissing := ToLower (TrimSpace missing) in
    let ranked := filter (fun id => is_true (Contains (ToLower id) lowerMissing
                                          || Contains lowerMissing (ToLower id))) ids in
    let ranked := if decide (ranked = []) then ranked_builtin ids [] else ranked in
    let ranked := if decide (ranked = []) then ids else ranked in
    take 2 ranked.

(** The identifiers of the catalog: trimmed, none blank, sorted. *)
Definition known_components (items : list (option string)) : list string :=
  omap (fun item => match item with
                    | None => None
                    | Some id => if decide (TrimSpace id = "") then None else Some (TrimSpace id)
                    end) items.

Definition unregistered (ids : list string) (id componentID : string) : PublishValidationError :=
  let suggestions := suggestComponentIDs componentID ids in
  mkPublishValidationError id "config.component" "INVALID_COMPONENT_REF"
    (Errorf "Component %s is not registered" [componentID])
    (if decide (suggestions = []) then "" else "Use one of: " +:+ Join ", " suggestions).

Definition check_component_ref (ids : list string) (v : PublishValidationErrors)
    (step : WorkflowStep) : PublishValidationErrors :=
  if decide (TrimSpace (stepType step) = "ai_component") then
    match decodeStepConfig step with
    | Err _ => v
    | Ok cfg =>
        let componentID := sprint_key fmtFloat cfg "component" in
        add_unless (bool_decide (componentID = "") || bool_decide (componentID ∈ ids)) v
          (unregistered ids (key_of step) componentID)
    end
  else v.

Definition validateComponentRefs (workflow : WorkflowAST)
    (catalog : option (result goerr (list (option string)))) (validation : PublishValidationErrors)
  : result goerr PublishValidationErrors :=
  match catalog with
  | None => Ok validation
  | Some (Err e) => Err (Wrapf "list ai components: %w" [] e)
  | Some (Ok items) =>
      let ids := merge_sort String.le (known_components items) in
      Ok (foldl (check_component_ref ids) validation workflow)
  end.

(** ** The whole validation *)

Definition graph_cycle : PublishValidationError :=
  mkPublishValidationError "" "" "GRAPH_CYCLE" (Errorf "Workflow graph contains a cycle" []) "".

(** The errors that are collected, up to the check for cycles. *)
Definition collect_errors (workflow : WorkflowAST)
    (catalog : option (result goerr (list (option string)))) : result goerr PublishValidationErrors :=
  let g := index_steps workflow in
  let '(v, out) := foldl (check_publish_step g) ([], outgoing g) workflow in
  validateComponentRefs workflow catalog (addGraphErrors v workflow g out).

Definition validatePublishWorkflow (astRaw : json)
    (catalog : option (result goerr (list (option string)))) : result publish_error unit :=
  match decodeWorkflowAST astRaw with
  | Err e => Err (Failed (Wrapf "invalid workflow ast: decode workflow ast: %w" [] e))
  | Ok workflow =>
      match collect_errors workflow catalog with
      | Err e => Err (Failed e)
      | Ok validation =>
          let finish (v : PublishValidationErrors) :=
            if hasErrors v then Err (Invalid v)
            else match validateWorkflowAST Evaluate fmtFloat now astRaw with
                 | Ok _ => Ok tt
                 | Err e => Err (Failed e)
                 end in
          match ValidateAST workflow with
          | Ok _ => finish validation
          | Err e => if errors_is e ErrCycleDetectedInAST then finish (add validation graph_cycle)
                     else Err (Failed (Wrapf "invalid workflow ast: %w" [] e))
          end
      end
  end.

End Publish.
