(* ===== verification/PublishClaims.v ===== *)
(** * What the validation of a publication guarantees

    Each stage of the validation leaves the collected errors empty exactly when
    its condition holds; the maps that it builds hold the edges of the graph. *)

From stdpp Require Import relations.
From S2P Require Import Prelude GoStrings Json EngineTypes EngineAst TaskForms WorkflowValidation GoText PublishValidation.

(** ** Collecting errors *)

(** An error that [add] does not drop. *)
Definition addable (e : PublishValidationError) : Prop :=
  no_graph (Error (peMessage e)) = false /\ no_graph (peCode e) = false.

Lemma add_addable p e : addable e -> add p e = p ++ [e].
Proof.
  intros [Hm Hc]. unfold add.
  rewrite decide_False by (by apply TrimSpace_nonblank).
  by rewrite decide_False by (by apply TrimSpace_nonblank).
Qed.

Lemma add_unless_nil ok p e : addable e -> add_unless ok p e = [] <-> p = [] /\ ok = true.
Proof.
  intros He. destruct ok; simpl; [naive_solver|]. rewrite add_addable by done.
  split; [by intros [_ [=]]%app_eq_nil|by intros [_ [=]]].
Qed.

Lemma foldl_nil {A S E} (h : S -> list E) (f : S -> A -> S) (ok : A -> Prop) l s :
  (forall s a, a ∈ l -> h (f s a) = [] <-> h s = [] /\ ok a) ->
  h (foldl f s l) = [] <-> h s = [] /\ forall a, a ∈ l -> ok a.
Proof.
  revert s. induction l as [|a l IH]; intros s Hf; simpl.
  - split; [|by intros [? _]]. intros H. split; [done|]. by intros a ?%not_elem_of_nil.
  - rewrite IH by (intros; apply Hf; by right). rewrite (Hf s a) by left. split.
    + intros [[Hs Ha] Hl]. split; [done|]. intros b [->|Hb]%elem_of_cons; auto.
    + intros [Hs Hl]. split_and!; [done|apply Hl; left|]. intros b Hb. apply Hl. by right.
Qed.

Lemma add_all_nil {A} (ok : A -> bool) (err : A -> PublishValidationError) l v :
  (forall a, addable (err a)) ->
  foldl (fun v a => add_unless (ok a) v (err a)) v l = [] <->
  v = [] /\ forall a, a ∈ l -> ok a = true.
Proof. intros He. apply (foldl_nil id). intros s a _. by apply add_unless_nil. Qed.

(** Every message starts with a letter. *)
Ltac addable := repeat split; reflexivity.

(** ** Required configuration *)

Inductive requirement : Type :=
  | ReqString (key : string)
  | ReqKey (key : string)
  | ReqObject (key : string)
  | ReqOutcomes.

(** The requirements of a step type: one of each group. *)
Definition publish_requirements (ty : string) : list (list requirement) :=
  if decide (ty = "human_task") then
    [[ReqString "assignee"; ReqKey "candidate_roles"; ReqString "assign_to_role";
      ReqString "assign_to_user"]; [ReqKey "form"; ReqKey "form_schema"]]
  else if decide (ty = "agent") then
    [[ReqString "prompt_template"; ReqString "prompt"]; [ReqObject "output_schema"]]
  else if decide (ty = "ai_component") then [[ReqString "component"]]
  else if decide (ty = "extraction") then
    [[ReqString "schema_id"; ReqString "schema_name"; ReqString "schema"];
     [ReqString "document_ref"; ReqString "document_path"]; [ReqString "output_path"]]
  else if decide (ty = "integration") then [[ReqString "connector"]; [ReqString "action"]]
  else if decide (ty = "rule") then [[ReqOutcomes]]
  else if decide (ty = "timer") then [[ReqString "duration"; ReqString "schedule"]]
  else if decide (ty = "notification") then
    [[ReqString "channel"]; [ReqString "template"; ReqString "message"]]
  else [].

Section Config.
Context (fmtFloat : Qc -> string).

Definition satisfies (step : WorkflowStep) (cfg : object) (r : requirement) : bool :=
  match r with
  | ReqString k => hasStringValue fmtFloat cfg k
  | ReqKey k => hasKey cfg k
  | ReqObject k => is_object (obj_get k cfg)
  | ReqOutcomes => negb (bool_decide (stepOutcomes step = ∅))
  end.

Definition meets (step : WorkflowStep) (cfg : object) (groups : list (list requirement)) : bool :=
  forallb (existsb (satisfies step cfg)) groups.

Lemma addMissingRequiredConfigErrors_nil v step cfg :
  addMissingRequiredConfigErrors fmtFloat v step cfg = [] <->
  v = [] /\ meets step cfg (publish_requirements (TrimSpace (stepType step))) = true.
Proof.
  unfold addMissingRequiredConfigErrors, publish_requirements.
  repeat match goal with
  | |- context [decide (TrimSpace ?t = ?k)] => destruct (decide (TrimSpace t = k))
  end;
    rewrite ?add_unless_nil by addable; unfold meets; cbn [forallb existsb satisfies];
    rewrite ?andb_true_r, ?orb_false_r, ?orb_assoc, ?andb_true_iff; tauto.
Qed.
End Config.

(** ** Maps of edges *)

Lemma elem_of_targets_add a b (m : gmap string (list string)) x y :
  y ∈ targets (add_edge a b m) x <-> y ∈ targets m x \/ (x = a /\ y = b).
Proof.
  unfold targets, add_edge. destruct (decide (x = a)) as [->|Hne].
  - rewrite lookup_insert_eq. simpl. rewrite elem_of_app, list_elem_of_singleton. naive_solver.
  - rewrite lookup_insert_ne by done. naive_solver.
Qed.

Lemma elem_of_targets_fold {A} (f : gmap string (list string) -> A -> gmap string (list string))
    (R : A -> string -> string -> Prop) l m x y :
  (forall m a, y ∈ targets (f m a) x <-> y ∈ targets m x \/ R a x y) ->
  y ∈ targets (foldl f m l) x <-> y ∈ targets m x \/ exists a, a ∈ l /\ R a x y.
Proof.
  intros Hf. revert m. induction l as [|a l IH]; intros m; simpl.
  - split; [by left|]. intros [?|(a & ?%not_elem_of_nil & _)]; done.
  - rewrite IH, Hf. split.
    + intros [[?|?]|(b & Hb & ?)]; [by left|right; exists a|right; exists b];
        (split; [by constructor|done]).
    + intros [?|(b & [->|Hb]%elem_of_cons & ?)]; [by do 2 left|by left; right|].
      right. by exists b.
Qed.

Definition dep_edge (s : WorkflowStep) (x y : string) : Prop := x ∈ stepDependsOn s /\ y = key_of s.
Definition out_edge (s : WorkflowStep) (x y : string) : Prop :=
  x = key_of s /\ exists outcome, (outcome, y) ∈ outcome_targets s.

(** [y] depends on [x], or an outcome of [x] leads to [y]. *)
Definition leads (w : WorkflowAST) (x y : string) : Prop :=
  exists s, s ∈ w /\ (dep_edge s x y \/ out_edge s x y).

Lemma index_steps_targets w x y :
  y ∈ targets (outgoing (index_steps w)) x <-> exists s, s ∈ w /\ dep_edge s x y.
Proof.
  unfold index_steps.
  assert (forall g, outgoing (foldl index_step g w) =
    foldl (fun m s => foldl (fun m dep => add_edge dep (key_of s) m) m (stepDependsOn s))
      (outgoing g) w) as ->.
  { induction w as [|s w IH]; intros g; [done|]. simpl. by rewrite IH. }
  rewrite (elem_of_targets_fold _ dep_edge).
  - simpl. unfold targets at 1. rewrite lookup_empty. simpl.
    split; [intros [?%not_elem_of_nil|?]; done|by right].
  - intros m s. rewrite (elem_of_targets_fold _ (fun dep x y => x = dep /\ y = key_of s)).
    + unfold dep_edge. split; (intros [?|H]; [by left|right]).
      * by destruct H as (d & Hd & -> & ->).
      * destruct H as [? ->]. by exists x.
    + intros. apply elem_of_targets_add.
Qed.

Lemma known_iff w x : known (index_steps w) x = true <-> x <> "" /\ x ∈ map key_of w.
Proof.
  unfold known, index_steps. rewrite bool_decide_eq_true.
  assert (forall g, is_Some (byID (foldl index_step g w) !! x) <->
    is_Some (byID g !! x) \/ (x <> "" /\ x ∈ map key_of w)) as H.
  { induction w as [|s w IH]; intros g; simpl.
    - split; [by left|]. intros [?|[_ ?%not_elem_of_nil]]; done.
    - rewrite IH. simpl. rewrite elem_of_cons.
      destruct (decide (key_of s = "")) as [E|E]; [rewrite E; naive_solver|].
      destruct (decide (key_of s = x)) as [<-|Hne].
      + rewrite lookup_insert_eq. naive_solver.
      + rewrite lookup_insert_ne by done. naive_solver. }
  rewrite H. simpl. rewrite lookup_empty. split; [intros [[? [=]]|?]; done|by right].
Qed.

Lemma inDegree_fold w g x :
  x ∉ map key_of w -> inDegree (foldl index_step g w) !! x = inDegree g !! x.
Proof.
  revert g. induction w as [|s w IH]; intros g Hx; [done|]. simpl in *.
  apply not_elem_of_cons in Hx as [Hne Hx]. rewrite IH by done. simpl.
  by rewrite lookup_insert_ne.
Qed.

Lemma degree_step w s :
  NoDup (map key_of w) -> s ∈ w ->
  degree (inDegree (index_steps w)) (key_of s) = Z.of_nat (length (stepDependsOn s)).
Proof.
  unfold index_steps. generalize (mkGraph ∅ ∅ ∅).
  induction w as [|s' w IH]; intros g Hnd Hs; [by apply not_elem_of_nil in Hs|]. simpl in *.
  apply NoDup_cons in Hnd as [Hni Hnd]. apply elem_of_cons in Hs as [->|Hs]; [|by apply IH].
  unfold degree. rewrite inDegree_fold by done. simpl. by rewrite lookup_insert_eq.
Qed.

Lemma elem_of_roots w x :
  NoDup (map key_of w) ->
  x ∈ roots (index_steps w) w <-> exists s, s ∈ w /\ key_of s = x /\ stepDependsOn s = [].
Proof.
  intros Hnd. unfold roots. rewrite list_elem_of_filter. split.
  - intros [Hd (s & -> & Hs)%list_elem_of_fmap]. exists s. rewrite degree_step in Hd by done.
    split_and!; [done..|]. apply length_zero_iff_nil. lia.
  - intros (s & Hs & <- & Hd). rewrite degree_step by done. rewrite Hd.
    split; [done|]. by apply list_elem_of_fmap_2.
Qed.

(** ** The loop over the steps *)

Section Steps.
Context (fmtFloat : Qc -> string).

(** The type is supported, the configuration is an object with what the type
    requires, and every edge leads to a step with an id. *)
Record step_publishable (w : WorkflowAST) (s : WorkflowStep) (cfg : object) : Prop :=
  mk_step_publishable {
    sp_type : isSupportedStepType (stepType s) = true;
    sp_config : decodeStepConfig s = Ok cfg;
    sp_required : meets fmtFloat s cfg (publish_requirements (TrimSpace (stepType s))) = true;
    sp_deps : forall d, d ∈ stepDependsOn s -> d <> "" /\ d ∈ map key_of w;
    sp_targets : forall o t, (o, t) ∈ outcome_targets s -> t <> "" /\ t ∈ map key_of w
  }.

(** The body of the loop over the outcomes, its two results apart. *)
Lemma outcome_loop g id v out l :
  foldl (fun '(v, out) '(outcome, target) =>
           (add_unless (known g target) v (dangling_outcome id outcome target),
            add_edge id target out)) (v, out) l =
  (foldl (fun v p => add_unless (known g p.2) v (dangling_outcome id p.1 p.2)) v l,
   foldl (fun out p => add_edge id p.2 out) out l).
Proof. revert v out. induction l as [|[o t] l IH]; intros v out; [done|]. simpl. by rewrite IH. Qed.

Lemma check_publish_step_nil w acc s :
  (check_publish_step fmtFloat (index_steps w) acc s).1 = [] <->
  acc.1 = [] /\ exists cfg, step_publishable w s cfg.
Proof.
  unfold check_publish_step. destruct (decodeStepConfig s) as [cfg|e] eqn:E.
  - rewrite outcome_loop. simpl. rewrite add_all_nil by (intros [? ?]; addable).
    rewrite add_all_nil by (intros ?; addable).
    rewrite addMissingRequiredConfigErrors_nil, add_unless_nil by addable.
    unfold isSupportedStepType at 1. rewrite TrimSpace_idem. split.
    + intros [[[[Hv Ht] Hr] Hd] Ho]. split; [done|]. exists cfg. split; [done..| |].
      * intros d Hin. apply known_iff. auto.
      * intros o t Hin. apply known_iff. apply (Ho (o, t) Hin).
    + intros [Hv (cfg' & [Ht Hc Hr Hd Ho])]. rewrite E in Hc. injection Hc as <-. refine (conj (conj (conj (conj Hv Ht) Hr) _) _).
      * intros d Hin. apply known_iff. auto.
      * intros [o t] Hin. apply known_iff. eauto.
  - simpl. rewrite add_addable.
    + split; [by intros [_ [=]]%app_eq_nil|]. intros [_ (cfg & [_ Hc _ _ _])]. congruence.
    + unfold decodeStepConfig in E. destruct (stepConfig s); [|done].
      destruct (dec_object j); [done|]. simplify_eq. addable.
Qed.

Lemma check_publish_steps_nil w :
  (foldl (check_publish_step fmtFloat (index_steps w)) ([], outgoing (index_steps w)) w).1 = [] <->
  forall s, s ∈ w -> exists cfg, step_publishable w s cfg.
Proof.
  etransitivity.
  - apply (foldl_nil (E := PublishValidationError)
      (fun acc : PublishValidationErrors * gmap string (list string) => acc.1) _
      (fun s => exists cfg, step_publishable w s cfg)).
    intros acc s _. apply check_publish_step_nil.
  - simpl. naive_solver.
Qed.

(** Once every configuration decodes, the map holds every edge. *)
Lemma check_publish_steps_targets w x y :
  (forall s, s ∈ w -> exists cfg, decodeStepConfig s = Ok cfg) ->
  y ∈ targets (foldl (check_publish_step fmtFloat (index_steps w))
                 ([], outgoing (index_steps w)) w).2 x <-> leads w x y.
Proof.
  intros Hc.
  assert (forall l acc, (forall s, s ∈ l -> exists cfg, decodeStepConfig s = Ok cfg) ->
    y ∈ targets (foldl (check_publish_step fmtFloat (index_steps w)) acc l).2 x <->
    y ∈ targets acc.2 x \/ exists s, s ∈ l /\ out_edge s x y) as H.
  { induction l as [|s l IH]; intros acc Hl; simpl.
    - split; [by left|]. intros [?|(s & ?%not_elem_of_nil & _)]; done.
    - rewrite IH by (intros; apply Hl; by right).
      destruct (Hl s) as [cfg Hcfg]; [left|]. unfold check_publish_step at 1.
      rewrite Hcfg, outcome_loop. cbn [fst snd].
      rewrite (elem_of_targets_fold _ (fun p x y => x = key_of s /\ y = p.2))
        by (intros; apply elem_of_targets_add).
      split.
      + intros [[?|([o t] & Hin & -> & ->)]|(s' & Hs' & ?)]; [by left| |].
        * right. exists s. split; [left|]. split; [done|]. by exists o.
        * right. exists s'. split; [by right|done].
      + intros [?|(s' & [->|Hs']%elem_of_cons & He)]; [by do 2 left| |right; by exists s'].
        destruct He as [-> [o Ho]]. left; right. by exists (o, y). }
  rewrite H by done. simpl. rewrite index_steps_targets. unfold leads. split.
  - intros [(s & ? & ?)|(s & ? & ?)]; exists s; auto.
  - intros (s & Hs & [?|?]); [left|right]; by exists s.
Qed.
End Steps.

(** ** The graph *)

Lemma filter_targets_length g out x :
  (length (known_targets g out x) <= length (default [] (out !! x)))%nat.
Proof. apply length_filter. Qed.

(** A set of as many elements as a list holds the list, without repetitions. *)
Lemma size_covers (V : gset string) (l : list string) :
  V ⊆ list_to_set l -> size V = length l <-> NoDup l /\ forall x, x ∈ l -> x ∈ V.
Proof.
  intros Hsub. pose proof (subseteq_size _ _ Hsub) as Hle. split.
  - intros Hs. split.
    + assert (length l <= size (list_to_set l : gset string))%nat as Hl by lia. clear -Hl.
      induction l as [|a l IH]; [constructor|]. cbn [list_to_set length] in Hl.
      rewrite size_union_alt, size_singleton in Hl.
      pose proof (size_list_to_set_le l) as Hb.
      assert (size (list_to_set l ∖ {[a]} : gset string) <= size (list_to_set l : gset string))%nat
        by (apply subseteq_size; set_solver).
      apply NoDup_cons. split; [|apply IH; lia]. intros Ha.
      assert (size (list_to_set l ∖ {[a]} : gset string) < size (list_to_set l : gset string))%nat;
        [|lia].
      apply subset_size. set_solver.
    + intros x Hx. pose proof (size_list_to_set_le l) as Hb.
      assert (V ≡ list_to_set l) as -> by (apply set_subseteq_size_equiv; [done|lia]).
      by apply elem_of_list_to_set.
  - intros [Hnd Hall]. assert (V = list_to_set l) as -> by set_solver.
    by apply size_list_to_set.
Qed.

Definition joined (s : WorkflowStep) (x y : string) : Prop :=
  exists other, (other ∈ stepDependsOn s \/ exists o, (o, other) ∈ outcome_targets s) /\
    TrimSpace other <> "" /\
    ((x = key_of s /\ y = TrimSpace other) \/ (x = TrimSpace other /\ y = key_of s)).

Lemma join_nodes_targets id other m x y :
  y ∈ targets (join_nodes id other m) x <->
  y ∈ targets m x \/ (TrimSpace other <> "" /\
    ((x = id /\ y = TrimSpace other) \/ (x = TrimSpace other /\ y = id))).
Proof.
  unfold join_nodes. case_decide; [naive_solver|]. rewrite !elem_of_targets_add. tauto.
Qed.

Lemma neighbors_targets w x y :
  y ∈ targets (neighbors w) x <-> exists s, s ∈ w /\ joined s x y.
Proof.
  unfold neighbors. rewrite (elem_of_targets_fold _ joined).
  - unfold targets at 1. rewrite lookup_empty. simpl.
    split; [intros [?%not_elem_of_nil|?]; done|by right].
  - intros m s.
    rewrite (elem_of_targets_fold _ (fun p x y => TrimSpace p.2 <> "" /\
      ((x = key_of s /\ y = TrimSpace p.2) \/ (x = TrimSpace p.2 /\ y = key_of s))))
      by (intros m' [? ?]; apply join_nodes_targets).
    rewrite (elem_of_targets_fold _ (fun d x y => TrimSpace d <> "" /\
      ((x = key_of s /\ y = TrimSpace d) \/ (x = TrimSpace d /\ y = key_of s))))
      by (intros; apply join_nodes_targets).
    unfold joined. split.
    + intros [[?|(d & ? & ?)]|([o t] & ? & ?)]; [by left|right; eauto 6..].
    + intros [?|(d & [?|[o ?]] & ?)]; [by do 2 left|left; right; eauto|right].
      by exists (o, d).
Qed.

(** Every edge of the graph leads to a step that has an id. *)
Definition edges_known (w : WorkflowAST) : Prop :=
  forall s, s ∈ w ->
    (forall d, d ∈ stepDependsOn s -> d <> "" /\ d ∈ map key_of w) /\
    (forall o t, (o, t) ∈ outcome_targets s -> t <> "" /\ t ∈ map key_of w).

Lemma key_trimmed w x : x ∈ map key_of w -> TrimSpace x = x.
Proof. intros (s & -> & _)%list_elem_of_fmap. apply TrimSpace_idem. Qed.

Lemma neighbors_leads w x y :
  edges_known w -> y ∈ targets (neighbors w) x <-> leads w x y \/ leads w y x.
Proof.
  intros Hk. rewrite neighbors_targets. unfold leads, joined, dep_edge, out_edge. split.
  - intros (s & Hs & d & [Hd|[o Ho]] & Hne & H); destruct (Hk s Hs) as [Hkd Hko].
    + rewrite (key_trimmed w) in H, Hne by (by apply Hkd).
      destruct H as [[-> ->]|[-> ->]]; eauto 8.
    + rewrite (key_trimmed w) in H, Hne by (by eapply Hko).
      destruct H as [[-> ->]|[-> ->]]; eauto 10.
  - intros [(s & Hs & [[Hd ->]|[-> [o Ho]]])|(s & Hs & [[Hd ->]|[-> [o Ho]]])];
      destruct (Hk s Hs) as [Hkd Hko];
      [destruct (Hkd _ Hd)|destruct (Hko _ _ Ho)|destruct (Hkd _ Hd)|destruct (Hko _ _ Ho)];
      exists s; (split; [done|]); eexists; (split; [eauto|]);
      (rewrite (key_trimmed w); [auto|done]).
Qed.

Lemma leads_keys w x y : edges_known w -> leads w x y -> x ∈ map key_of w /\ y ∈ map key_of w.
Proof.
  intros Hk (s & Hs & [[Hd ->]|[-> [o Ho]]]); destruct (Hk s Hs) as [Hkd Hko];
    pose proof (list_elem_of_fmap_2 key_of _ _ Hs).
  - split; [by apply Hkd|done].
  - split; [done|by apply (Hko o)].
Qed.

(** Any two steps are linked by edges, followed in either direction. *)
Definition linked (w : WorkflowAST) (x y : string) : Prop := leads w x y \/ leads w y x.
Definition connected (w : WorkflowAST) : Prop :=
  forall s t, s ∈ w -> t ∈ w -> rtc (linked w) (key_of s) (key_of t).

Lemma rtc_linked_sym w x y : rtc (linked w) x y -> rtc (linked w) y x.
Proof.
  induction 1 as [|x y z H _ IH]; [reflexivity|].
  eapply rtc_r; [exact IH|]. destruct H; [by right|by left].
Qed.

Lemma isDisconnected_false w :
  edges_known w -> isDisconnected w = false <-> NoDup (map key_of w) /\ connected w.
Proof.
  intros Hk. destruct w as [|first w].
  { split; [|done]. intros _. split; [constructor|]. by intros s t ?%not_elem_of_nil. }
  set (W := first :: w) in *.
  destruct (bfs_enough (targets (neighbors W)) (neighbors W) [key_of first]) as [V HV]; [done|].
  change (length [key_of first]) with 1%nat in HV.
  assert (forall x, x ∈ V <-> rtc (linked W) (key_of first) x) as Hreach.
  { intros x. rewrite (bfs_reachable _ _ _ _ x HV).
    assert (forall a b, edge (targets (neighbors W)) a b <-> linked W a b) as He
      by (intros a b; by apply neighbors_leads).
    split.
    - intros (q & ->%list_elem_of_singleton & Hp). by eapply rtc_subrel; [|exact Hp]; intros; apply He.
    - intros Hp. exists (key_of first). split; [by apply list_elem_of_singleton|].
      by eapply rtc_subrel; [|exact Hp]; intros; apply He. }
  assert (isDisconnected W = negb (size V =? length W)%nat) as ->
    by (unfold W in HV |- *; cbn [isDisconnected]; by rewrite HV).
  rewrite negb_false_iff, Nat.eqb_eq. rewrite <- (length_map key_of W), size_covers.
  - split; intros [Hnd H]; (split; [done|]).
    + intros s t Hs Ht. etrans; [apply rtc_linked_sym|]; apply Hreach, H;
        by apply list_elem_of_fmap_2.
    + intros x (s & -> & Hs)%list_elem_of_fmap. apply Hreach, H; [left|done].
  - intros x Hx%Hreach. apply elem_of_list_to_set. apply rtc_inv_r in Hx as [<-|(y & _ & [Hl|Hl])].
    + left.
    + by apply (leads_keys W) in Hl as [_ ?].
    + by apply (leads_keys W) in Hl as [? _].
Qed.

(** ** What the validation of a publication guarantees *)

(** ** The shape of the graph *)

(** An edge that leads to a step with an id. *)
Definition flow (w : WorkflowAST) (x y : string) : Prop := leads w x y /\ y <> "".

(** Every step can be reached from a step without dependencies. *)
Definition all_reachable (w : WorkflowAST) : Prop :=
  forall s, s ∈ w -> exists e, e ∈ w /\ stepDependsOn e = [] /\ rtc (flow w) (key_of e) (key_of s).

Definition has_terminal (w : WorkflowAST) : Prop :=
  exists s, s ∈ w /\ forall y, ~ flow w (key_of s) y.

Section Graph.
Context (w : WorkflowAST) (out : gmap string (list string)).
Context (Hk : edges_known w) (Hout : forall x y, y ∈ targets out x <-> leads w x y).

Lemma known_targets_flow x y : y ∈ known_targets (index_steps w) out x <-> flow w x y.
Proof.
  unfold known_targets, flow, is_true. rewrite list_elem_of_filter, known_iff, Hout. split.
  - tauto.
  - intros [Hl Hy]. destruct (leads_keys w x y Hk Hl). tauto.
Qed.

Lemma terminal_count :
  (length (filter (fun s => known_targets (index_steps w) out (key_of s) = []) w) =? 0)%nat = false
  <-> has_terminal w.
Proof.
  rewrite Nat.eqb_neq. unfold has_terminal. split.
  - intros H. destruct (filter _ w) as [|s l] eqn:E; [done|].
    assert (s ∈ filter (fun s => known_targets (index_steps w) out (key_of s) = []) w) as Hs
      by (rewrite E; left).
    apply list_elem_of_filter in Hs as [Hn Hs]. exists s. split; [done|].
    intros y Hy%known_targets_flow. rewrite Hn in Hy. by apply not_elem_of_nil in Hy.
  - intros (s & Hs & Hn) Hl. apply length_zero_iff_nil in Hl.
    assert (s ∈ filter (fun s => known_targets (index_steps w) out (key_of s) = []) w) as Hf.
    { apply list_elem_of_filter. split; [|done]. apply elem_of_nil_inv.
      intros y. by rewrite known_targets_flow. }
    rewrite Hl in Hf. by apply not_elem_of_nil in Hf.
Qed.

Lemma visited_reachable V x :
  NoDup (map key_of w) ->
  bfs (known_targets (index_steps w) out)
    (S (length (roots (index_steps w) w) + edge_count out)) (roots (index_steps w) w) ∅ = Some V ->
  x ∈ V <-> exists e, e ∈ w /\ stepDependsOn e = [] /\ rtc (flow w) (key_of e) x.
Proof.
  intros Hnd HV. rewrite (bfs_reachable _ _ _ _ x HV).
  assert (forall a b, edge (known_targets (index_steps w) out) a b <-> flow w a b) as He
    by (intros; apply known_targets_flow).
  split.
  - intros (q & (e & ? & <- & ?)%elem_of_roots & Hp); [|done]. exists e. split_and!; [done..|].
    eapply rtc_subrel; [|exact Hp]. intros. by apply He.
  - intros (e & ? & ? & Hp). exists (key_of e). split; [apply elem_of_roots; eauto|].
    eapply rtc_subrel; [|exact Hp]. intros. by apply He.
Qed.

Lemma addGraphErrors_nil v :
  w <> [] ->
  addGraphErrors v w (index_steps w) out = [] <->
  v = [] /\ NoDup (map key_of w) /\ connected w /\ all_reachable w /\ has_terminal w.
Proof.
  intros Hne. unfold addGraphErrors. rewrite decide_False by done. cbn zeta.
  destruct (bfs_enough (known_targets (index_steps w) out) out (roots (index_steps w) w)) as [V HV];
    [intros x; apply length_filter|].
  rewrite HV. simpl default. rewrite !add_unless_nil by addable.
  rewrite add_all_nil by (intros; addable). rewrite add_unless_nil by addable.
  rewrite !negb_true_iff, terminal_count, isDisconnected_false by done.
  split.
  - intros [[[[Hv Hr] Hall] [Hnd Hc]] Ht]. split_and!; try done.
    intros s Hs. apply (visited_reachable V); [done..|]. specialize (Hall s Hs). by boolp.
  - intros (Hv & Hnd & Hc & Hall & Ht). refine (conj (conj (conj (conj Hv _) _) (conj Hnd Hc)) Ht).
    + apply bool_decide_eq_false. intros Hr. destruct w as [|s w'] eqn:Ew; [done|].
      destruct (Hall s) as (e & He & Hd & _); [left|].
      assert (key_of e ∈ roots (index_steps w) w) as Hin
        by (rewrite Ew; apply elem_of_roots; eauto).
      rewrite Ew, Hr in Hin. by apply not_elem_of_nil in Hin.
    + intros s Hs. apply bool_decide_eq_true, (visited_reachable V); [done..|]. auto.
Qed.
End Graph.

(** ** References to components *)

Definition component_known (items : list (option string)) (c : string) : Prop :=
  exists id, Some id ∈ items /\ TrimSpace id = c.

Lemma elem_of_known_components items c :
  c ∈ known_components items <-> c <> "" /\ component_known items c.
Proof.
  unfold known_components, component_known. rewrite list_elem_of_omap. split.
  - intros ([id|] & Hin & H); [|done]. destruct (decide (TrimSpace id = "")); [done|].
    simplify_eq. eauto.
  - intros [Hne (id & Hin & <-)]. exists (Some id). by rewrite decide_False.
Qed.

Section Publish.
Context (Evaluate : string -> json -> result goerr json) (fmtFloat : Qc -> string) (now : string).

(** A step that names an AI component names one of the catalog. *)
Definition components_ok (items : list (option string)) (w : WorkflowAST) : Prop :=
  forall s cfg, s ∈ w -> TrimSpace (stepType s) = "ai_component" -> decodeStepConfig s = Ok cfg ->
    sprint_key fmtFloat cfg "component" = "" \/
    component_known items (sprint_key fmtFloat cfg "component").

Lemma check_component_ref_nil items v s :
  check_component_ref fmtFloat (merge_sort String.le (known_components items)) v s = [] <->
  v = [] /\ (TrimSpace (stepType s) = "ai_component" -> forall cfg, decodeStepConfig s = Ok cfg ->
    sprint_key fmtFloat cfg "component" = "" \/
    component_known items (sprint_key fmtFloat cfg "component")).
Proof.
  unfold check_component_ref. case_decide as Ht; [|naive_solver].
  destruct (decodeStepConfig s) as [cfg|e]; [|naive_solver].
  rewrite add_unless_nil by addable.
  rewrite orb_true_iff, !bool_decide_eq_true, merge_sort_Permutation, elem_of_known_components.
  destruct (decide (sprint_key fmtFloat cfg "component" = "")); naive_solver.
Qed.

(** Nothing to check without a catalog; a catalog must answer. *)
Definition catalog_ok (catalog : option (result goerr (list (option string)))) (w : WorkflowAST) : Prop :=
  match catalog with
  | None => True
  | Some (Ok items) => components_ok items w
  | Some (Err _) => False
  end.

Lemma validateComponentRefs_nil w catalog v :
  validateComponentRefs fmtFloat w catalog v = Ok [] <-> v = [] /\ catalog_ok catalog w.
Proof.
  destruct catalog as [[items|e]|]; simpl; [|naive_solver..].
  assert (forall l, (Ok l : result goerr PublishValidationErrors) = Ok [] <-> l = []) as ->
    by naive_solver.
  etransitivity.
  - apply (foldl_nil (E := PublishValidationError) id _ (fun s => TrimSpace (stepType s) = "ai_component" ->
      forall cfg, decodeStepConfig s = Ok cfg -> sprint_key fmtFloat cfg "component" = "" \/
      component_known items (sprint_key fmtFloat cfg "component"))).
    intros u s _. apply check_component_ref_nil.
  - unfold components_ok, id. naive_solver.
Qed.

(** ** The whole validation *)

Record publishable (catalog : option (result goerr (list (option string)))) (w : WorkflowAST) : Prop :=
  mk_publishable {
    pub_steps : forall s, s ∈ w -> exists cfg, step_publishable fmtFloat w s cfg;
    pub_ids : NoDup (map key_of w);
    pub_connected : connected w;
    pub_reachable : all_reachable w;
    pub_terminal : has_terminal w;
    pub_components : catalog_ok catalog w
  }.

Lemma collect_errors_nil w catalog :
  w <> [] -> collect_errors fmtFloat w catalog = Ok [] <-> publishable catalog w.
Proof.
  intros Hne. unfold collect_errors.
  destruct (foldl (check_publish_step fmtFloat (index_steps w)) _ w) as [v out] eqn:E.
  rewrite validateComponentRefs_nil.
  assert (v = [] <-> forall s, s ∈ w -> exists cfg, step_publishable fmtFloat w s cfg) as Hv
    by (rewrite <- check_publish_steps_nil; by rewrite E).
  assert ((forall s, s ∈ w -> exists cfg, step_publishable fmtFloat w s cfg) ->
    edges_known w /\ forall x y, y ∈ targets out x <-> leads w x y) as Hw.
  { intros Hs. split.
    - intros s Hin. by destruct (Hs s Hin) as (cfg & [_ _ _ ? ?]).
    - intros x y. rewrite <- (check_publish_steps_targets fmtFloat); [by rewrite E|].
      intros s Hin. destruct (Hs s Hin) as (cfg & [_ ? _ _ _]). by exists cfg. }
  assert (addGraphErrors v w (index_steps w) out = [] -> v = []) as Hsub.
  { unfold addGraphErrors. rewrite decide_False by done. cbn zeta.
    rewrite !add_unless_nil by addable. rewrite add_all_nil by (intros; addable).
    rewrite add_unless_nil by addable. tauto. }
  split.
  - intros [Hg Hc]. pose proof (proj1 Hv (Hsub Hg)) as Hs. destruct (Hw Hs) as [Hk Ho].
    apply (addGraphErrors_nil w out Hk Ho v Hne) in Hg as (_ & ? & ? & ? & ?). by split.
  - intros [Hs ? ? ? ? ?]. destruct (Hw Hs) as [Hk Ho]. split; [|done].
    apply (addGraphErrors_nil w out Hk Ho v Hne). by rewrite Hv.
Qed.

(** A publication is accepted exactly when its draft passes the validation of
    drafts and is publishable: every step has a supported type, the
    configuration its type requires and edges to steps only; no two steps have
    the same trimmed id; every step can be reached from a step without
    dependencies along dependencies and outcomes; the graph is connected and
    has a terminal step; and AI components are registered in the catalog. *)
Theorem validatePublishWorkflow_correct ast catalog :
  validatePublishWorkflow Evaluate fmtFloat now ast catalog = Ok tt <->
  validateWorkflowAST Evaluate fmtFloat now ast = Ok tt /\
  exists w, decodeWorkflowAST ast = Ok w /\ publishable catalog w.
Proof.
  unfold validatePublishWorkflow.
  destruct (decodeWorkflowAST ast) as [w|e] eqn:Ed; [|naive_solver].
  assert (validateWorkflowAST Evaluate fmtFloat now ast = Ok tt -> ValidateAST w = Ok tt) as Hv.
  { unfold validateWorkflowAST. rewrite Ed. destruct (ValidateAST w) as [[]|]; done. }
  assert (ValidateAST w = Ok tt -> w <> []) as Hne by (intros H ->; done).
  destruct (collect_errors fmtFloat w catalog) as [v|e] eqn:Ec; cycle 1.
  { split; [done|]. intros [H (w' & [= <-] & Hp)].
    apply collect_errors_nil in Hp; [congruence|auto]. }
  destruct (ValidateAST w) as [[]|e]; cycle 1.
  { split; [|intros [H _]; by specialize (Hv H)].
    destruct (errors_is _ _); [|done]. rewrite add_addable by addable.
    unfold hasErrors. rewrite length_app, Nat.add_comm. done. }
  specialize (Hne eq_refl). pose proof (collect_errors_nil w catalog Hne) as Hn. rewrite Ec in Hn.
  destruct v as [|pe v]; simpl.
  - destruct (validateWorkflowAST Evaluate fmtFloat now ast) as [[]|]; [|naive_solver].
    split; [|done]. intros _. split; [done|]. exists w. split; [done|]. by apply Hn.
  - split; [done|]. intros [_ (w' & [= <-] & Hp)]. by apply Hn in Hp.
Qed.
End Publish.
