(* ===== verification/WorkflowService.v ===== *)
(** * Workflows and their versions: [internal/workflows/service.go]

    The tables [workflows] and [workflow_versions] and the operations of the
    service: listing, creation, drafts, publication, export and import of YAML.
    YAML itself and the catalog of AI components are parameters. Rows have the
    constraints of [migrations/001_initial.sql]; names are ordered as bytes. *)

From S2P Require Import Prelude GoStrings Json EngineTypes EngineAst Store TaskForms.
From S2P Require Import WorkflowValidation GoText Effects PublishValidation.

(** ** Tables *)

Inductive version_status : Type := Draft | Published | Withdrawn.

#[export] Instance version_status_eq_dec : EqDecision version_status.
Proof. solve_decision. Defined.

Record WorkflowRow : Type := mkWorkflowRow {
  wfTenant : uuid;
  wfName : string;
  wfCaseType : string;
  wfCreatedAt : Z;
  wfCreatedBy : uuid
}.

Record WFVersion : Type := mkWFVersion {
  wvWorkflow : uuid;
  wvVersion : Z;
  wvStatus : version_status;
  wvAst : json;
  wvYaml : option string;
  wvCreatedAt : Z;
  wvCreatedBy : uuid;
  wvPublishedAt : option Z
}.

Record Tables : Type := mkTables {
  workflows : gmap uuid WorkflowRow;
  versions : gmap uuid WFVersion
}.

Definition set_status (s : version_status) (r : WFVersion) : WFVersion :=
  mkWFVersion (wvWorkflow r) (wvVersion r) s (wvAst r) (wvYaml r) (wvCreatedAt r) (wvCreatedBy r)
    (wvPublishedAt r).
Definition set_published (now : Z) (r : WFVersion) : WFVersion :=
  mkWFVersion (wvWorkflow r) (wvVersion r) Published (wvAst r) (wvYaml r) (wvCreatedAt r)
    (wvCreatedBy r) (Some now).
Definition set_ast (ast : json) (r : WFVersion) : WFVersion :=
  mkWFVersion (wvWorkflow r) (wvVersion r) (wvStatus r) ast (wvYaml r) (wvCreatedAt r)
    (wvCreatedBy r) (wvPublishedAt r).
Definition set_source (ast : json) (yaml : string) (r : WFVersion) : WFVersion :=
  mkWFVersion (wvWorkflow r) (wvVersion r) (wvStatus r) ast (Some yaml) (wvCreatedAt r)
    (wvCreatedBy r) (wvPublishedAt r).

Definition int32_max : Z := 2147483647.

(** ** Statements *)

(** [UNIQUE(tenant_id, name)] *)
Definition insert_workflow (id : uuid) (row : WorkflowRow) (d : Tables) : result goerr Tables :=
  if decide (is_Some (workflows d !! id)) then Err unique_error
  else if existsb (fun kr => bool_decide (wfTenant kr.2 = wfTenant row) && bool_decide (wfName kr.2 = wfName row))
            (map_to_list (workflows d)) then Err unique_error
  else Ok (mkTables (<[id := row]> (workflows d)) (versions d)).

(** [UNIQUE(workflow_id, version)], and [version] is an [INTEGER]. *)
Definition insert_version (id : uuid) (row : WFVersion) (d : Tables) : result goerr Tables :=
  if decide (is_Some (versions d !! id)) then Err unique_error
  else if existsb (fun kr => bool_decide (wvWorkflow kr.2 = wvWorkflow row) && bool_decide (wvVersion kr.2 = wvVersion row))
            (map_to_list (versions d)) then Err unique_error
  else if (int32_max <? wvVersion row)%Z then Err (Errorf "integer out of range" [])
  else Ok (mkTables (workflows d) (<[id := row]> (versions d))).

(** [w.id = $1 AND w.tenant_id = $2] *)
Definition owned (tenantID workflowID : uuid) (d : Tables) : bool :=
  match workflows d !! workflowID with
  | Some w => bool_decide (wfTenant w = tenantID)
  | None => false
  end.

(** The versions of a workflow of the tenant, as [JOIN] gives them. *)
Definition versions_of (tenantID workflowID : uuid) (d : Tables) : list (uuid * WFVersion) :=
  if owned tenantID workflowID d
  then filter (fun kr => wvWorkflow kr.2 = workflowID) (map_to_list (versions d))
  else [].

Definition with_status (s : version_status) (l : list (uuid * WFVersion)) : list (uuid * WFVersion) :=
  filter (fun kr => wvStatus kr.2 = s) l.

(** [ORDER BY wv.version DESC] *)
Definition version_desc (a b : uuid * WFVersion) : Prop := (wvVersion b.2 <= wvVersion a.2)%Z.
#[export] Instance version_desc_dec : RelDecision version_desc.
Proof. intros a b. unfold version_desc. apply _. Defined.
#[export] Instance version_desc_total : Total version_desc.
Proof. intros a b. unfold version_desc. lia. Qed.
#[export] Instance version_desc_trans : Transitive version_desc.
Proof. intros a b c. unfold version_desc. lia. Qed.

(** The draft of the highest version. *)
Definition latest_draft (tenantID workflowID : uuid) (d : Tables) : option (uuid * WFVersion) :=
  head (merge_sort version_desc (with_status Draft (versions_of tenantID workflowID d))).

(** [UPDATE workflow_versions ... FROM workflows w WHERE ... AND wv.status = s] *)
Definition in_scope (tenantID workflowID : uuid) (s : version_status) (d : Tables) (r : WFVersion) : bool :=
  owned tenantID workflowID d && bool_decide (wvWorkflow r = workflowID) && bool_decide (wvStatus r = s).
Definition update_where (f : WFVersion -> WFVersion) (tenantID workflowID : uuid)
    (s : version_status) (d : Tables) : Tables :=
  mkTables (workflows d)
    ((fun r => if in_scope tenantID workflowID s d r then f r else r) <$> versions d).
Definition rows_affected (tenantID workflowID : uuid) (s : version_status) (d : Tables) : nat :=
  length (with_status s (versions_of tenantID workflowID d)).

(** ** Values of the API ([models.go]) *)

Record PublishedVersion : Type := mkPublishedVersion {
  pvVersion : Z;
  pvPublishedAt : option Z
}.

Record Workflow : Type := mkWorkflow {
  wID : uuid;
  wName : string;
  wCaseTypeID : string;
  wPublishedVersions : list PublishedVersion
}.

Record CreateRequest : Type := mkCreateRequest { reqName : string; reqCaseTypeID : string }.

(** ** Listing *)

(** A row of the query of [List]: the left join leaves the version empty. *)
Record ListRow : Type := mkListRow {
  lrID : uuid;
  lrName : string;
  lrCaseType : string;
  lrVersion : option Z;
  lrPublishedAt : option Z
}.

(** [ORDER BY w.name ASC, wv.version DESC]; in descending order a missing
    version comes first. *)
Definition version_first (a b : option Z) : bool :=
  match a, b with
  | None, _ => true
  | Some _, None => false
  | Some x, Some y => (y <=? x)%Z
  end.
Definition list_row_le (a b : ListRow) : Prop :=
  if decide (lrName a = lrName b) then version_first (lrVersion a) (lrVersion b) = true
  else String.le (lrName a) (lrName b).
#[export] Instance list_row_le_dec : RelDecision list_row_le.
Proof. intros a b. unfold list_row_le. case_decide; apply _. Defined.

Definition published_rows (id : uuid) (d : Tables) : list (uuid * WFVersion) :=
  filter (fun kr => wvWorkflow kr.2 = id /\ wvStatus kr.2 = Published) (map_to_list (versions d)).

Definition left_join (d : Tables) (kw : uuid * WorkflowRow) : list ListRow :=
  let row v t := mkListRow kw.1 (wfName kw.2) (wfCaseType kw.2) v t in
  match published_rows kw.1 d with
  | [] => [row None None]
  | l => map (fun kr => row (Some (wvVersion kr.2)) (wvPublishedAt kr.2)) l
  end.

Definition list_query (tenantID : uuid) (d : Tables) : list ListRow :=
  merge_sort list_row_le
    (mjoin (left_join d <$> filter (fun kw => wfTenant kw.2 = tenantID) (map_to_list (workflows d)))).

(** The body of the loop: [indexByID] holds the position of a workflow in [ordered]. *)
Definition scan_row (acc : list Workflow * gmap uuid nat) (r : ListRow)
  : list Workflow * gmap uuid nat :=
  let version := default 0%Z (lrVersion r) in
  let '(ordered, indexByID, idx) :=
    match acc.2 !! lrID r with
    | Some idx => (acc.1, acc.2, idx)
    | None =>
        (acc.1 ++ [mkWorkflow (lrID r) (lrName r) (lrCaseType r) []],
         <[lrID r := length acc.1]> acc.2, length acc.1)
    end in
  if (0 <? version)%Z then
    (alter (fun w => mkWorkflow (wID w) (wName w) (wCaseTypeID w)
              (wPublishedVersions w ++ [mkPublishedVersion version (lrPublishedAt r)])) idx ordered,
     indexByID)
  else (ordered, indexByID).

(** ** The service *)

Definition nonZeroUUID (primary fallback : uuid) : uuid :=
  if decide (primary <> uuid_Nil) then primary else fallback.

(** [{"steps":[]}] *)
Definition initialAST : json := JObj [("steps", JArr [])].

Definition publish_goerr (e : publish_error) : goerr :=
  match e with
  | Invalid errors => PublishValidationErrors_Error errors
  | Failed e => e
  end.

Section Service.
Context `{R : Runtime}.
Context (Evaluate : string -> json -> result goerr json) (fmtFloat : Qc -> string).
(** The time that the expressions of a validation see. *)
Context (now_text : nat -> string).
(** YAML: values, reading, writing, and their JSON. *)
Context {yaml : Type} (yaml_Unmarshal : string -> result goerr yaml)
  (json_Marshal : yaml -> result goerr json) (yaml_Marshal : json -> result goerr string).
(** [Service.catalog]: nil, or its answer for a tenant at a time. *)
Context (catalog : option (uuid -> nat -> result goerr (list (option string)))).

Definition List (tenantID : uuid) : Svc Tables (list Workflow) :=
  rows ← wrapS (Wrapf "list workflows: %w" []) (select (fun _ d => list_query tenantID d));
  mret (foldl scan_row ([], ∅) rows).1.

Definition Create (tenantID actorID : uuid) (req : CreateRequest) : Svc Tables Workflow :=
  let name := TrimSpace (reqName req) in
  let caseTypeID := TrimSpace (reqCaseTypeID req) in
  _ ← guardS (negb (bool_decide (name = ""))) (Errorf "name is required" []);
  _ ← guardS (negb (bool_decide (caseTypeID = ""))) (Errorf "case_type_id is required" []);
  transactS "begin create workflow tx: %w" (fun now =>
    id ← wrapS (Wrapf "create workflow: %w" [])
      (exec (fun k _ d =>
         let id := gen_random_uuid k in
         d' ← insert_workflow id (mkWorkflowRow tenantID name caseTypeID now actorID) d;
         Ok (id, d')));
    _ ← wrapS (Wrapf "create initial workflow draft: %w" [])
      (exec (fun k _ d =>
         d' ← insert_version (gen_random_uuid k)
                (mkWFVersion id 1 Draft initialAST (Some "") now actorID None) d;
         Ok (tt, d')));
    mret (mkWorkflow id name caseTypeID [], "commit create workflow tx: %w")).

Definition GetDraftAST (tenantID workflowID : uuid) : Svc Tables json :=
  r ← select_row (fun _ d => latest_draft tenantID workflowID d);
  mret (wvAst r.2).

Definition valid_draft (ast : json) : Svc Tables unit :=
  fun w => (validateWorkflowAST Evaluate fmtFloat (now_text (ticks w)) ast, mkSys (st w) (S (ticks w))).

(** An [UPDATE] of the drafts of a workflow that must affect a row. *)
Definition update_draft (what : string) (f : WFVersion -> WFVersion) (tenantID workflowID : uuid)
  : Svc Tables unit :=
  affected ← wrapS (Wrapf what [])
    (exec (fun _ _ d => Ok (rows_affected tenantID workflowID Draft d,
                            update_where f tenantID workflowID Draft d)));
  guardS (negb (affected =? 0)%nat) ErrNoRows.

(** The body is empty, or it is text that does or does not parse. *)
Definition SaveDraftAST (tenantID workflowID : uuid) (ast : option (result goerr json))
  : Svc Tables unit :=
  match ast with
  | None => fail (Errorf "ast is required" [])
  | Some parsed =>
      ast ← wrapS (Wrapf "invalid ast json: %w" [])
        (pureS (j ← parsed; _ ← dec_object j; Ok j));
      _ ← valid_draft ast;
      update_draft "save workflow draft ast: %w" (set_ast ast) tenantID workflowID
  end.

Definition validate_publication (tenantID : uuid) (ast : json) : Svc Tables unit := fun w =>
  (match validatePublishWorkflow Evaluate fmtFloat (now_text (ticks w)) ast
           ((fun List => List tenantID (ticks w)) <$> catalog) with
   | Ok _ => Ok tt
   | Err e => Err (publish_goerr e)
   end, mkSys (st w) (S (ticks w))).

(** The statements after the draft has been found and validated. *)
Definition publish_version (tenantID actorID workflowID : uuid) (draft : uuid * WFVersion) (now : Z)
  : Svc Tables unit :=
  let r := draft.2 in
  _ ← wrapS (Wrapf "withdraw previous published versions: %w" [])
    (exec_update (fun _ d => update_where (set_status Withdrawn) tenantID workflowID Published d));
  _ ← wrapS (Wrapf "publish draft version: %w" [])
    (exec_update (fun _ d => mkTables (workflows d) (alter (set_published now) draft.1 (versions d))));
  wrapS (Wrapf "create post-publish draft version: %w" [])
    (exec (fun k _ d =>
       d' ← insert_version (gen_random_uuid k)
              (mkWFVersion workflowID (wvVersion r + 1) Draft (wvAst r)
                 (Some (default "" (wvYaml r))) now (nonZeroUUID actorID (wvCreatedBy r)) None) d;
       Ok (tt, d'))).

Definition PublishDraft (tenantID actorID workflowID : uuid) : Svc Tables unit :=
  transactS "begin publish workflow tx: %w" (fun now =>
    found ← tryS (select_row (fun _ d => latest_draft tenantID workflowID d));
    match found with
    | Err err =>
        if errors_is err ErrNoRows then
          publishedExists ← select (fun _ d =>
            negb (bool_decide (with_status Published (versions_of tenantID workflowID d) = [])));
          if (publishedExists : bool) then mret (tt, "commit idempotent publish tx: %w")
          else fail err
        else fail err
    | Ok draft =>
        _ ← validate_publication tenantID (wvAst draft.2);
        _ ← publish_version tenantID actorID workflowID draft now;
        mret (tt, "commit publish workflow tx: %w")
    end).

(** ** YAML *)

Definition marshalYAMLFromAST (ast : json) : result goerr string :=
  match yaml_Marshal ast with
  | Ok out => Ok out
  | Err e => Err (Wrapf "marshal yaml from ast: %w" [] e)
  end.

Definition export_row (r : WFVersion) : result goerr string :=
  let yamlSource := default "" (wvYaml r) in
  if decide (TrimSpace yamlSource <> "") then Ok yamlSource else marshalYAMLFromAST (wvAst r).

(** [ORDER BY CASE wv.status ... END, wv.version DESC] *)
Definition status_rank (s : version_status) : Z :=
  match s with Published => 0 | Draft => 1 | Withdrawn => 2 end.
Definition export_le (a b : uuid * WFVersion) : Prop :=
  (status_rank (wvStatus a.2) < status_rank (wvStatus b.2))%Z \/
  (status_rank (wvStatus a.2) = status_rank (wvStatus b.2) /\ version_desc a b).
#[export] Instance export_le_dec : RelDecision export_le.
Proof. intros a b. unfold export_le. apply _. Defined.

Definition ExportYAMLLatest (tenantID workflowID : uuid) : Svc Tables string :=
  r ← select_row (fun _ d => head (merge_sort export_le (versions_of tenantID workflowID d)));
  pureS (export_row r.2).

Definition ExportYAMLVersion (tenantID workflowID : uuid) (version : Z) : Svc Tables string :=
  r ← select_row (fun _ d =>
        head (filter (fun kr => wvVersion kr.2 = version) (versions_of tenantID workflowID d)));
  pureS (export_row r.2).

Definition ImportYAMLDraft (tenantID workflowID : uuid) (yamlSource : string) : Svc Tables unit :=
  let yamlSource := TrimSpace yamlSource in
  _ ← guardS (negb (bool_decide (yamlSource = ""))) (Errorf "yaml is required" []);
  decoded ← wrapS (Wrapf "invalid yaml: %w" []) (pureS (yaml_Unmarshal yamlSource));
  ast ← wrapS (Wrapf "convert yaml to ast json: %w" []) (pureS (json_Marshal decoded));
  _ ← valid_draft ast;
  update_draft "import workflow yaml into draft: %w" (set_source ast yamlSource) tenantID workflowID.

End Service.
