(* ===== verification/WorkflowServiceClaims.v ===== *)
(** * What the workflow service guarantees

    The invariant of the two tables and the effect of each operation on them. *)

From stdpp Require Import relations.
From S2P Require Import Prelude GoStrings Json EngineTypes EngineAst Store TaskForms WorkflowValidation GoText Effects.
From S2P Require Import PublishValidation WorkflowService.

(** ** The rows of a workflow *)

Definition version_at (d : Tables) (k : uuid) (r : WFVersion) : Prop := versions d !! k = Some r.

Lemma elem_of_versions_of t wid d k r :
  (k, r) ∈ versions_of t wid d <->
  owned t wid d = true /\ version_at d k r /\ wvWorkflow r = wid.
Proof.
  unfold versions_of, version_at. destruct (owned t wid d).
  - rewrite list_elem_of_filter, elem_of_map_to_list. naive_solver.
  - split; [by intros ?%not_elem_of_nil|naive_solver].
Qed.

Lemma elem_of_with_status s l k r : (k, r) ∈ with_status s l <-> (k, r) ∈ l /\ wvStatus r = s.
Proof. unfold with_status. rewrite list_elem_of_filter. naive_solver. Qed.

Lemma head_elem {A} (l : list A) x : head l = Some x -> x ∈ l.
Proof. destruct l; intros [= ->]. left. Qed.

Lemma latest_draft_spec t wid d k r :
  latest_draft t wid d = Some (k, r) ->
  owned t wid d = true /\ version_at d k r /\ wvWorkflow r = wid /\ wvStatus r = Draft.
Proof.
  intros H%head_elem. rewrite merge_sort_Permutation in H.
  apply elem_of_with_status in H as [H ?]. apply elem_of_versions_of in H. tauto.
Qed.

(** ** The invariant *)

(** A version row that is the draft of its workflow: the only one, and the last version. *)
Definition is_draft_of (d : Tables) (wid k : uuid) (r : WFVersion) : Prop :=
  version_at d k r /\ wvWorkflow r = wid /\ wvStatus r = Draft /\
  forall k' r', version_at d k' r' -> wvWorkflow r' = wid -> k' <> k ->
    wvStatus r' <> Draft /\ (wvVersion r' < wvVersion r)%Z.

Section Invariant.
Context (Evaluate : string -> json -> result goerr json) (fmtFloat : Qc -> string).

(** Some run of the validation of publications accepted the AST. *)
Definition was_accepted (ast : json) : Prop :=
  exists now catalog, validatePublishWorkflow Evaluate fmtFloat now ast catalog = Ok tt.

Record tables_ok (d : Tables) : Prop := mk_tables_ok {
  tok_owner : forall k r, version_at d k r -> is_Some (workflows d !! wvWorkflow r);
  tok_draft : forall wid, is_Some (workflows d !! wid) -> exists k r, is_draft_of d wid k r;
  tok_published : forall k1 r1 k2 r2, version_at d k1 r1 -> version_at d k2 r2 ->
    wvWorkflow r1 = wvWorkflow r2 -> wvStatus r1 = Published -> wvStatus r2 = Published -> k1 = k2;
  tok_unique : forall k1 r1 k2 r2, version_at d k1 r1 -> version_at d k2 r2 ->
    wvWorkflow r1 = wvWorkflow r2 -> wvVersion r1 = wvVersion r2 -> k1 = k2;
  tok_range : forall k r, version_at d k r -> (1 <= wvVersion r <= int32_max)%Z;
  tok_accepted : forall k r, version_at d k r -> wvStatus r <> Draft ->
    was_accepted (wvAst r) /\ is_Some (wvPublishedAt r)
}.

Lemma tables_ok_empty : tables_ok (mkTables ∅ ∅).
Proof.
  assert (forall k r, ~ version_at (mkTables ∅ ∅) k r) as H
    by (intros k r; unfold version_at; simpl; by rewrite lookup_empty).
  split; try (intros; exfalso; by eapply H).
  intros wid [? Hw]. simpl in Hw. by rewrite lookup_empty in Hw.
Qed.

Lemma owned_is_Some t wid d : owned t wid d = true -> is_Some (workflows d !! wid).
Proof. unfold owned. by destruct (workflows d !! wid). Qed.

(** Under the invariant, the draft of the highest version is the only draft. *)
Lemma latest_draft_iff t wid d k r :
  tables_ok d -> latest_draft t wid d = Some (k, r) <-> owned t wid d = true /\ is_draft_of d wid k r.
Proof.
  intros Hok. split.
  - intros H. destruct (latest_draft_spec _ _ _ _ _ H) as (Ho & Hv & Hw & Hs). split; [done|].
    destruct (tok_draft d Hok wid (owned_is_Some _ _ _ Ho)) as (k' & r' & Hd).
    destruct (decide (k = k')) as [->|Hne].
    + destruct Hd as (Hv' & Hrest). unfold version_at in Hv, Hv'. rewrite Hv in Hv'. by simplify_eq.
    + destruct Hd as (_ & _ & _ & Hlast). by destruct (Hlast k r Hv Hw Hne).
  - intros [Ho Hd]. pose proof Hd as (Hv & Hw & Hs & Hlast). unfold latest_draft.
    destruct (merge_sort version_desc _) as [|[k' r'] l] eqn:E.
    + exfalso. apply (not_elem_of_nil (k, r)). rewrite <- E, merge_sort_Permutation.
      apply elem_of_with_status. split; [by apply elem_of_versions_of|done].
    + assert ((k', r') ∈ merge_sort version_desc (with_status Draft (versions_of t wid d))) as Hin
        by (rewrite E; left).
      rewrite merge_sort_Permutation in Hin.
      apply elem_of_with_status in Hin as [(_ & Hv' & Hw')%elem_of_versions_of Hs']. simpl.
      destruct (decide (k' = k)) as [->|Hne].
      * unfold version_at in *. congruence.
      * by destruct (Hlast k' r' Hv' Hw' Hne).
Qed.

(** ** Updates of drafts *)

(** A change that leaves the keys of a row alone. *)
Definition keeps_keys (f : WFVersion -> WFVersion) : Prop :=
  forall r, wvWorkflow (f r) = wvWorkflow r /\ wvVersion (f r) = wvVersion r /\
    wvStatus (f r) = wvStatus r.

Lemma update_where_at f t wid s d k r :
  version_at (update_where f t wid s d) k r <->
  exists r0, version_at d k r0 /\ r = if in_scope t wid s d r0 then f r0 else r0.
Proof.
  unfold version_at, update_where. simpl. rewrite lookup_fmap_Some. naive_solver.
Qed.

Lemma in_scope_true t wid s d r :
  in_scope t wid s d r = true <-> owned t wid d = true /\ wvWorkflow r = wid /\ wvStatus r = s.
Proof. unfold in_scope. rewrite !andb_true_iff, !bool_decide_eq_true. tauto. Qed.

Lemma tables_ok_update f t wid d :
  keeps_keys f -> tables_ok d -> tables_ok (update_where f t wid Draft d).
Proof.
  intros Hf [Ho Hd Hp Hu Hr Ha].
  set (g := fun r0 => if in_scope t wid Draft d r0 then f r0 else r0).
  assert (forall k r, version_at (update_where f t wid Draft d) k r <->
    exists r0, version_at d k r0 /\ r = g r0) as Hat by (intros; apply update_where_at).
  assert (forall r, wvWorkflow (g r) = wvWorkflow r /\ wvVersion (g r) = wvVersion r /\
    wvStatus (g r) = wvStatus r) as Hg by (intros r; unfold g; destruct (in_scope _ _ _ _ _); auto).
  assert (forall r, wvStatus r <> Draft -> g r = r) as Hsame.
  { intros r Hs. unfold g. destruct (in_scope t wid Draft d r) eqn:E; [|done].
    by apply in_scope_true in E as (_ & _ & ?). }
  clearbody g. split.
  - intros k r (r0 & Hv & ->)%Hat. destruct (Hg r0) as (-> & _ & _). by eapply Ho.
  - intros wid' Hw. destruct (Hd wid' Hw) as (k & r & Hv & Hwf & Hs & Hlast). exists k, (g r).
    destruct (Hg r) as (H1 & H2 & H3). split_and!; [apply Hat; eauto|congruence..|].
    intros k' r' (r0 & Hv' & ->)%Hat Hwf' Hne. destruct (Hg r0) as (H1' & H2' & H3').
    rewrite H2, H2', H3'. apply (Hlast k'); congruence.
  - intros k1 r1 k2 r2 (a & Ha1 & ->)%Hat (b & Hb & ->)%Hat.
    destruct (Hg a) as (-> & _ & ->), (Hg b) as (-> & _ & ->). by apply Hp.
  - intros k1 r1 k2 r2 (a & Ha1 & ->)%Hat (b & Hb & ->)%Hat.
    destruct (Hg a) as (-> & -> & _), (Hg b) as (-> & -> & _). by apply Hu.
  - intros k r (r0 & Hv & ->)%Hat. destruct (Hg r0) as (_ & -> & _). by eapply Hr.
  - intros k r (r0 & Hv & ->)%Hat. destruct (Hg r0) as (_ & _ & Es). rewrite Es. intros Hs.
    rewrite Hsame by done. by eapply Ha.
Qed.

(** ** Creation and publication *)

Definition created (id k : uuid) (row : WorkflowRow) (r : WFVersion) (d : Tables) : Tables :=
  mkTables (<[id := row]> (workflows d)) (<[k := r]> (versions d)).

Lemma tables_ok_created id k row r d :
  workflows d !! id = None -> versions d !! k = None ->
  wvWorkflow r = id -> wvStatus r = Draft -> wvVersion r = 1%Z ->
  tables_ok d -> tables_ok (created id k row r d).
Proof.
  intros Hid Hk Hw Hs Hver [Ho Hd Hp Hu Hr Ha].
  assert (forall k' r', version_at (created id k row r d) k' r' <->
    (k' = k /\ r' = r) \/ (k' <> k /\ version_at d k' r')) as Hat.
  { intros k' r'. unfold version_at. simpl. destruct (decide (k' = k)) as [->|Hne].
    - rewrite lookup_insert_eq. naive_solver.
    - rewrite lookup_insert_ne by done. naive_solver. }
  assert (forall k' r', version_at d k' r' -> wvWorkflow r' <> id) as Hnew.
  { intros k' r' Hv <-. destruct (Ho k' r' Hv). congruence. }
  split.
  - intros k' r' [[-> ->]|[_ Hv]]%Hat; simpl.
    + rewrite Hw, lookup_insert_eq. done.
    + rewrite lookup_insert_ne by (intros E; by apply (Hnew k' r' Hv)). by eapply Ho.
  - intros wid Hwid. simpl in Hwid. destruct (decide (wid = id)) as [->|Hne].
    + exists k, r. split_and!; [by apply Hat; left|done..|].
      intros k' r' [[-> ->]|[_ Hv]]%Hat Hw' Hk'; [done|]. by apply Hnew in Hv.
    + rewrite lookup_insert_ne in Hwid by done.
      destruct (Hd wid Hwid) as (k0 & r0 & Hv & Hw0 & Hs0 & Hlast).
      assert (k0 <> k) by (intros ->; unfold version_at in Hv; congruence).
      exists k0, r0. split_and!; [by apply Hat; right|done..|].
      intros k' r' [[-> ->]|[_ Hv']]%Hat Hw' Hk'; [congruence|]. by apply (Hlast k').
  - intros k1 r1 k2 r2 [[-> ->]|[? Hv1]]%Hat [[-> ->]|[? Hv2]]%Hat; try congruence. by apply Hp.
  - intros k1 r1 k2 r2 [[-> ->]|[? Hv1]]%Hat [[-> ->]|[? Hv2]]%Hat; try done.
    + intros E. apply Hnew in Hv2. congruence.
    + intros E. apply Hnew in Hv1. congruence.
    + by apply Hu.
  - intros k' r' [[-> ->]|[_ Hv]]%Hat; [rewrite Hver; unfold int32_max; lia|by eapply Hr].
  - intros k' r' [[-> ->]|[_ Hv]]%Hat Hs'; [done|by eapply Ha].
Qed.

(** What a publication makes of a row that was there before. *)
Definition after_publish (wid draft : uuid) (now : Z) (k : uuid) (r : WFVersion) : WFVersion :=
  if decide (k = draft) then set_published now r
  else if decide (wvWorkflow r = wid /\ wvStatus r = Published) then set_status Withdrawn r
  else r.

(** The tables after the publication of [draft], with the next draft at [k']. *)
Record is_published (wid draft k' : uuid) (now : Z) (next : WFVersion) (d d' : Tables) : Prop :=
  mk_is_published {
    ip_workflows : workflows d' = workflows d;
    ip_fresh : versions d !! k' = None;
    ip_old : forall k r, versions d !! k = Some r ->
      versions d' !! k = Some (after_publish wid draft now k r);
    ip_new : versions d' !! k' = Some next;
    ip_only : forall k, versions d !! k = None -> k <> k' -> versions d' !! k = None
  }.

Lemma is_published_at wid draft k' now next d d' k r :
  is_published wid draft k' now next d d' ->
  version_at d' k r <-> (k = k' /\ r = next) \/
    exists r0, version_at d k r0 /\ r = after_publish wid draft now k r0.
Proof.
  intros [_ Hf Hold Hnew Honly]. unfold version_at.
  destruct (versions d !! k) as [r0|] eqn:E.
  - rewrite (Hold k r0 E). split; [|naive_solver]. intros [= <-]. right. by exists r0.
  - destruct (decide (k = k')) as [->|Hne].
    + rewrite Hnew. naive_solver.
    + rewrite Honly by done. naive_solver.
Qed.

Lemma after_publish_keys wid draft now k r :
  wvWorkflow (after_publish wid draft now k r) = wvWorkflow r /\
  wvVersion (after_publish wid draft now k r) = wvVersion r /\
  wvAst (after_publish wid draft now k r) = wvAst r.
Proof. unfold after_publish. repeat case_decide; done. Qed.

(** Of the rows of the workflow, only the old draft ends up published. *)
Lemma after_publish_own wid draft now d r k r0 :
  is_draft_of d wid draft r -> version_at d k r0 -> wvWorkflow r0 = wid ->
  (wvVersion r0 <= wvVersion r)%Z /\
  wvStatus (after_publish wid draft now k r0) <> Draft /\
  (wvStatus (after_publish wid draft now k r0) = Published -> k = draft).
Proof.
  intros (Hdv & Hdw & Hds & Hdl) Hv Hw. unfold after_publish. case_decide as Hk.
  - subst k. unfold version_at in *. assert (r0 = r) as -> by congruence. done.
  - destruct (Hdl k r0 Hv Hw Hk) as [Hns' Hlt].
    case_decide as Hc; simpl; (split; [lia|]); (split; [done|]); intros Hp'; [done|]. naive_solver.
Qed.

Lemma after_publish_other wid draft now d r k r0 :
  is_draft_of d wid draft r -> version_at d k r0 -> wvWorkflow r0 <> wid ->
  after_publish wid draft now k r0 = r0.
Proof.
  intros (Hdv & Hdw & _) Hv Hw. unfold after_publish. case_decide as Hk; [|case_decide; naive_solver].
  subst k. unfold version_at in *. congruence.
Qed.

Lemma tables_ok_published wid draft k' now next d d' r :
  tables_ok d -> is_draft_of d wid draft r ->
  wvWorkflow next = wid -> wvStatus next = Draft -> wvVersion next = (wvVersion r + 1)%Z ->
  (wvVersion next <= int32_max)%Z -> was_accepted (wvAst r) ->
  is_published wid draft k' now next d d' -> tables_ok d'.
Proof.
  intros [Ho Hd Hp Hu Hr Ha] Hdr Hnw Hns Hnv Hmax Hacc HP.
  pose proof Hdr as (Hdv & Hdw & _ & _).
  assert (forall k r, version_at d' k r <-> (k = k' /\ r = next) \/
    exists r0, version_at d k r0 /\ r = after_publish wid draft now k r0) as Hat
    by (intros; by eapply is_published_at).
  destruct HP as [Ew Hf _ _ _].
  assert (forall k r, version_at d k r -> k <> k') as Hold
    by (intros k0 r0 Hv ->; unfold version_at in Hv; congruence).
  pose proof (after_publish_keys wid draft now) as Hsame.
  pose proof (fun k r0 => after_publish_own wid draft now d r k r0 Hdr) as Hpub.
  pose proof (fun k r0 => after_publish_other wid draft now d r k r0 Hdr) as Hother.
  split.
  - intros k r0 [[-> ->]|(r1 & Hv & ->)]%Hat; rewrite Ew.
    + rewrite Hnw, <- Hdw. by eapply Ho.
    + destruct (Hsame k r1) as (-> & _). by eapply Ho.
  - intros wid' Hw. rewrite Ew in Hw. destruct (decide (wid' = wid)) as [->|Hne].
    + exists k', next. split_and!; [apply Hat; by left|done..|].
      intros k r0 [[-> ->]|(r1 & Hv & ->)]%Hat Hw' Hk; [done|].
      destruct (Hsame k r1) as (E1 & E2 & _). rewrite E1 in Hw'. rewrite E2, Hnv.
      destruct (Hpub k r1 Hv Hw') as (? & ? & _). split; [done|lia].
    + destruct (Hd wid' Hw) as (k & r0 & Hv & Hw0 & Hs0 & Hlast).
      exists k, r0. split_and!; [|done..|].
      * apply Hat. right. exists r0. split; [done|]. rewrite Hother; congruence.
      * intros k2 r2 [[-> ->]|(r1 & Hv2 & ->)]%Hat Hw2 Hk2; [congruence|].
        destruct (Hsame k2 r1) as (E1 & _). rewrite E1 in Hw2.
        rewrite Hother by congruence. by apply (Hlast k2).
  - intros k1 r1 k2 r2 [[-> ->]|(a & Hva & ->)]%Hat [[-> ->]|(b & Hvb & ->)]%Hat; try congruence.
    destruct (Hsame k1 a) as (-> & _), (Hsame k2 b) as (-> & _). intros E Hs1 Hs2.
    destruct (decide (wvWorkflow a = wid)) as [Hw|Hw].
    + destruct (Hpub k1 a Hva Hw) as (_ & _ & ->); [|done].
      destruct (Hpub k2 b Hvb) as (_ & _ & ->); congruence.
    + rewrite Hother in Hs1, Hs2 by congruence. by eapply (Hp k1 a k2 b).
  - intros k1 r1 k2 r2 [[-> ->]|(a & Hva & ->)]%Hat [[-> ->]|(b & Hvb & ->)]%Hat; [done|..].
    + destruct (Hsame k2 b) as (-> & -> & _). rewrite Hnw, Hnv. intros E1 E2.
      destruct (Hpub k2 b Hvb) as (? & _); [done|lia].
    + destruct (Hsame k1 a) as (-> & -> & _). rewrite Hnw, Hnv. intros E1 E2.
      destruct (Hpub k1 a Hva) as (? & _); [done|lia].
    + destruct (Hsame k1 a) as (-> & -> & _), (Hsame k2 b) as (-> & -> & _). by apply Hu.
  - intros k r0 [[-> ->]|(r1 & Hv & ->)]%Hat.
    + specialize (Hr draft r Hdv). lia.
    + destruct (Hsame k r1) as (_ & -> & _). by eapply Hr.
  - intros k r0 [[-> ->]|(r1 & Hv & ->)]%Hat Hs; [done|].
    unfold after_publish in *. case_decide as Hk.
    + subst k. unfold version_at in *. assert (r1 = r) as -> by congruence. simpl. eauto.
    + case_decide as Hc; simpl; [eapply Ha; [done|]; destruct Hc; congruence|by eapply Ha].
Qed.
End Invariant.

(** ** What the workflow service guarantees *)

Lemma insert_version_inv id row d d' :
  insert_version id row d = Ok d' ->
  versions d !! id = None /\ (wvVersion row <= int32_max)%Z /\
  d' = mkTables (workflows d) (<[id := row]> (versions d)).
Proof.
  unfold insert_version. case_decide as H; [done|]. apply eq_None_not_Some in H.
  destruct (existsb _ _); [done|]. destruct (Z.ltb_spec int32_max (wvVersion row)); [done|].
  by intros [= <-].
Qed.

Lemma insert_workflow_inv id row d d' :
  insert_workflow id row d = Ok d' ->
  workflows d !! id = None /\ d' = mkTables (<[id := row]> (workflows d)) (versions d).
Proof.
  unfold insert_workflow. case_decide as H; [done|]. apply eq_None_not_Some in H.
  destruct (existsb _ _); [done|]. by intros [= <-].
Qed.

Section Service.
Context `{R : Runtime}.
Context (Evaluate : string -> json -> result goerr json) (fmtFloat : Qc -> string).
Context (now_text : nat -> string).
Context {yaml : Type} (yaml_Unmarshal : string -> result goerr yaml)
  (json_Marshal : yaml -> result goerr json) (yaml_Marshal : json -> result goerr string).
Context (catalog : option (uuid -> nat -> result goerr (list (option string)))).

Local Abbreviation publishDraft := (PublishDraft Evaluate fmtFloat now_text catalog).
Local Abbreviation saveDraftAST := (SaveDraftAST Evaluate fmtFloat now_text).
Local Abbreviation importYAMLDraft :=
  (ImportYAMLDraft Evaluate fmtFloat now_text yaml_Unmarshal json_Marshal).

(** ** Effects of the operations *)

Lemma exec_inv {A} (run : nat -> Z -> Tables -> result goerr (A * Tables)) w a w' :
  exec run w = (Ok a, w') -> exists k now, run k now (st w) = Ok (a, st w').
Proof.
  unfold exec. destruct (fault (ticks w)); [done|].
  destruct (run _ _ _) as [[b t]|e] eqn:E; [|done]. intros [= <- <-]. eauto.
Qed.

Lemma Create_effect t actor req w wf w' :
  Create t actor req w = (Ok wf, w') ->
  exists id k row r, workflows (st w) !! id = None /\ versions (st w) !! k = None /\
    wvWorkflow r = id /\ wvStatus r = Draft /\ wvVersion r = 1%Z /\ wfTenant row = t /\
    st w' = created id k row r (st w).
Proof.
  unfold Create. intros H. apply bindS_inv in H as (? & w1 & H1 & H).
  apply bindS_inv in H as (? & w2 & H2 & H).
  unfold guardS in H1, H2. destruct (negb _) in H1; [|done]. destruct (negb _) in H2; [|done].
  injection H1 as _ <-. injection H2 as _ <-.
  apply transactS_inv in H as (c & w3 & H & ->).
  apply bindS_inv in H as (id & w4 & H1%wrapS_inv & H).
  apply bindS_inv in H as (? & w5 & H2%wrapS_inv & H). injection H as _ _ <-.
  apply exec_inv in H1 as (k1 & n1 & H1). apply exec_inv in H2 as (k2 & n2 & H2). simpl in H1.
  destruct (insert_workflow _ _ _) as [d1|e] eqn:E1; [|done]. simpl in H1. injection H1 as <- Ed1.
  destruct (insert_version _ _ _) as [d2|e] eqn:E2; [|done]. simpl in H2. injection H2 as _ Ed2.
  apply insert_workflow_inv in E1 as [Hid ->]. rewrite <- Ed1 in E2.
  apply insert_version_inv in E2 as (Hk & _ & ->). rewrite <- Ed2.
  do 4 eexists. split_and!; [exact Hid|exact Hk|..|reflexivity]; reflexivity.
Qed.

Lemma update_draft_effect what f t wid w w' :
  update_draft what f t wid w = (Ok tt, w') ->
  owned t wid (st w) = true /\ st w' = update_where f t wid Draft (st w).
Proof.
  unfold update_draft. intros H. apply bindS_inv in H as (n & w1 & H1%wrapS_inv & H).
  apply exec_inv in H1 as (k & now & [= Hn Hs]).
  unfold guardS in H. destruct (Nat.eqb_spec n 0) as [|Hne]; [done|]. injection H as <-.
  split; [|done]. destruct (owned t wid (st w)) eqn:E; [done|].
  exfalso. apply Hne. subst n. unfold rows_affected, versions_of. by rewrite E.
Qed.

Lemma valid_draft_state ast w : st (valid_draft Evaluate fmtFloat now_text ast w).2 = st w.
Proof. done. Qed.

Lemma SaveDraftAST_effect t wid ast w w' :
  saveDraftAST t wid ast w = (Ok tt, w') ->
  exists j, ast = Some (Ok j) /\ owned t wid (st w) = true /\
    st w' = update_where (set_ast j) t wid Draft (st w).
Proof.
  unfold SaveDraftAST. destruct ast as [parsed|]; [|done]. intros H.
  apply bindS_inv in H as (j & w1 & H1%wrapS_inv & H).
  apply bindS_inv in H as (? & w2 & H2 & H). apply update_draft_effect in H as [Ho Hs].
  unfold pureS in H1. destruct parsed as [j'|]; [|done]. simpl in H1.
  destruct (dec_object j'); [|done]. injection H1 as <- <-.
  assert (st w2 = st w) as E by (pose proof (valid_draft_state j' w) as V; by rewrite H2 in V).
  rewrite E in Ho, Hs. eauto.
Qed.

Lemma ImportYAMLDraft_effect t wid y w w' :
  importYAMLDraft t wid y w = (Ok tt, w') ->
  exists j, TrimSpace y <> "" /\ owned t wid (st w) = true /\
    st w' = update_where (set_source j (TrimSpace y)) t wid Draft (st w).
Proof.
  unfold ImportYAMLDraft. intros H. apply bindS_inv in H as (? & w1 & H1 & H).
  apply bindS_inv in H as (v & w2 & H2%wrapS_inv & H).
  apply bindS_inv in H as (j & w3 & H3%wrapS_inv & H).
  apply bindS_inv in H as (? & w4 & H4 & H). apply update_draft_effect in H as [Ho Hs].
  unfold guardS in H1. destruct (negb _) eqn:Ey in H1; [|done]. injection H1 as _ <-.
  unfold pureS in H2, H3. injection H2 as _ <-. injection H3 as _ <-.
  assert (st w4 = st w) as E by (pose proof (valid_draft_state j w) as V; by rewrite H4 in V).
  rewrite E in Ho, Hs. boolp. eauto.
Qed.

Lemma publish_version_effect t actor wid k r now w w' :
  owned t wid (st w) = true -> versions (st w) !! k = Some r -> wvWorkflow r = wid -> wvStatus r = Draft ->
  publish_version t actor wid (k, r) now w = (Ok tt, w') ->
  exists k' next, is_published wid k k' now next (st w) (st w') /\
    wvWorkflow next = wid /\ wvStatus next = Draft /\ wvVersion next = (wvVersion r + 1)%Z /\
    (wvVersion next <= int32_max)%Z /\ wvAst next = wvAst r /\
    default "" (wvYaml next) = default "" (wvYaml r).
Proof.
  intros Ho Hk Hw Hs H. unfold publish_version in H.
  apply bindS_inv in H as (? & w1 & H1%wrapS_inv & H).
  apply bindS_inv in H as (? & w2 & H2%wrapS_inv & H3%wrapS_inv).
  apply exec_inv in H1 as (? & ? & [= _ H1]). apply exec_inv in H2 as (? & ? & [= _ H2]).
  apply exec_inv in H3 as (k' & ? & H3). simpl in H3.
  destruct (insert_version _ _ _) as [d|e] eqn:E; [|done]. injection H3 as H3.
  apply insert_version_inv in E as (Hf & Hmax & E). rewrite E in H3. clear E.
  rewrite <- H2 in Hf, H3. simpl in Hf, H3. rewrite <- H1 in Hf, H3. simpl in Hf, H3.
  rewrite lookup_alter_None, lookup_fmap, fmap_None in Hf.
  match type of Hmax with (wvVersion ?n <= _)%Z => exists (gen_random_uuid k'), n end.
  split; [|split_and!; [reflexivity..|exact Hmax|reflexivity|reflexivity]].
  rewrite <- H3. split; simpl; [done|done| |by rewrite lookup_insert_eq|].
  - intros j r0 Hj. rewrite lookup_insert_ne by congruence. unfold after_publish.
    assert (in_scope t wid Published (st w) r0 = bool_decide (wvWorkflow r0 = wid /\ wvStatus r0 = Published)) as Es.
    { unfold in_scope. rewrite Ho. simpl. symmetry. apply bool_decide_and. }
    destruct (decide (j = k)) as [->|Hjk].
    + rewrite lookup_alter_eq, lookup_fmap, Hj. simpl.
      rewrite Es, bool_decide_eq_false_2; [done|]. assert (r0 = r) as -> by congruence.
      intros [_ ?]. congruence.
    + rewrite lookup_alter_ne, lookup_fmap, Hj by done. simpl. rewrite Es.
      f_equal. destruct (bool_decide _) eqn:Eb; boolp;
        [by rewrite decide_True|by rewrite decide_False].
  - intros j Hj Hne. rewrite lookup_insert_ne by done.
    destruct (decide (j = k)) as [->|]; [congruence|].
    by rewrite lookup_alter_ne, lookup_fmap, Hj.
Qed.

Lemma select_row_inv {A} (f : Z -> Tables -> option A) w a w' :
  select_row f w = (Ok a, w') -> st w' = st w /\ exists now, f now (st w) = Some a.
Proof.
  intros (k & now & H)%exec_inv. destruct (f now (st w)) as [b|] eqn:E; [|done].
  simplify_eq. eauto.
Qed.

(** A statement that fails does not say that there is no row. *)
Definition faults_are_faults : Prop := forall k e, fault k = Some e -> errors_is e ErrNoRows = false.

Lemma select_row_none {A} (f : Z -> Tables -> option A) w e w' :
  select_row f w = (Err e, w') -> st w' = st w /\
  (faults_are_faults -> errors_is e ErrNoRows = true -> exists now, f now (st w) = None).
Proof.
  unfold select_row, exec. destruct (fault (ticks w)) as [e'|] eqn:Ef.
  - intros [= <- <-]. split; [done|]. intros Hf He. by rewrite (Hf _ _ Ef) in He.
  - destruct (f _ (st w)) eqn:E; [done|]. intros [= <- <-]. eauto.
Qed.

(** A publication that succeeds has validated and published the latest draft, or
    found no draft of a workflow of the tenant. *)
Definition published_next (t wid k : uuid) (r : WFVersion) (d d' : Tables) : Prop :=
  exists k' next now, is_published wid k k' now next d d' /\
    wvWorkflow next = wid /\ wvStatus next = Draft /\ wvVersion next = (wvVersion r + 1)%Z /\
    (wvVersion next <= int32_max)%Z /\ wvAst next = wvAst r /\
    default "" (wvYaml next) = default "" (wvYaml r).

Lemma PublishDraft_effect t actor wid w w' :
  publishDraft t actor wid w = (Ok tt, w') ->
  (exists k r, latest_draft t wid (st w) = Some (k, r) /\ was_accepted Evaluate fmtFloat (wvAst r) /\
     published_next t wid k r (st w) (st w')) \/
  (st w' = st w /\ owned t wid (st w) = true /\
   (faults_are_faults -> latest_draft t wid (st w) = None)).
Proof.
  unfold PublishDraft. intros H. apply transactS_inv in H as (c & w1 & H & Ew).
  apply bindS_inv in H as (found & w2 & Ht & H).
  unfold tryS in Ht. destruct (select_row _ _) as [res w2'] eqn:Hsel. simplify_eq.
  destruct found as [[k r]|err].
  - left. apply select_row_inv in Hsel as [E2 [_ Hl]]. simpl in E2, Hl.
    apply bindS_inv in H as (? & w3 & Hv & H). apply bindS_inv in H as ([] & w4 & Hp & H).
    injection H as _ <-. exists k, r. split; [done|].
    unfold validate_publication in Hv.
    destruct (validatePublishWorkflow _ _ _ _ _) as [[]|] eqn:Eacc; [|done]. simplify_eq.
    split; [by do 2 eexists|].
    destruct (latest_draft_spec _ _ _ _ _ Hl) as (Ho & Hat & Hw & Hs).
    apply publish_version_effect in Hp as (k' & next & Hp & Hrest);
      [|simpl; rewrite ?E2; done..].
    exists k', next. eexists. rewrite Ew. simpl in Hp. rewrite E2 in Hp. split; [exact Hp|done].
  - right. destruct (errors_is err ErrNoRows) eqn:He; [|done].
    apply select_row_none in Hsel as [E2 Hl]. simpl in E2, Hl.
    apply bindS_inv in H as (b & w3 & Hb & H). destruct b; [|done]. injection H as _ <-.
    apply exec_inv in Hb as (? & ? & [= Hb Hs]). rewrite E2 in Hb, Hs. split_and!.
    + congruence.
    + destruct (owned t wid (st w)) eqn:Eo; [done|]. unfold versions_of in Hb. by rewrite Eo in Hb.
    + intros Hf. by destruct (Hl Hf He) as [_ ?].
Qed.

Lemma guardS_bind_Err {B} ok e0 (f : unit -> Svc Tables B) w e w' :
  (guardS ok e0 ≫= f) w = (Err e, w') -> w' = w \/ f tt w = (Err e, w').
Proof. destruct ok; [by right|]. intros [= _ <-]. by left. Qed.

Lemma Create_error t actor req w e w' : Create t actor req w = (Err e, w') -> st w' = st w.
Proof.
  intros [->|[->|H]%guardS_bind_Err]%guardS_bind_Err; [done..|]. by apply transactS_Err in H.
Qed.

(** ** Invariant *)

(** One call of an operation that changes the tables. *)
Inductive service_step : Tables -> Tables -> Prop :=
  | step_create t actor req w : service_step (st w) (st (Create t actor req w).2)
  | step_save t wid ast w : service_step (st w) (st (saveDraftAST t wid ast w).2)
  | step_import t wid y w : service_step (st w) (st (importYAMLDraft t wid y w).2)
  | step_publish t actor wid w : service_step (st w) (st (publishDraft t actor wid w).2).

Local Abbreviation ok := (tables_ok Evaluate fmtFloat).

Definition keeps_ok (d d' : Tables) : Prop := ok d -> ok d'.
#[local] Instance keeps_ok_preorder : PreOrder keeps_ok.
Proof. split; [by intros d ?|]. intros a b c. unfold keeps_ok. auto. Qed.

Lemma update_draft_ok what f t wid : keeps_keys f -> keepsS keeps_ok (update_draft what f t wid).
Proof.
  intros Hf. unfold update_draft. keeps_steps. apply keepsS_exec; [exact _|].
  intros k now d a d' [= _ <-] H. by apply tables_ok_update.
Qed.

Lemma valid_draft_ok ast : keepsS keeps_ok (valid_draft Evaluate fmtFloat now_text ast).
Proof. intros w. simpl. reflexivity. Qed.

Lemma service_step_ok d d' : service_step d d' -> ok d -> ok d'.
Proof.
  intros [t actor req w|t wid ast w|t wid y w|t actor wid w] Hok.
  - destruct (Create t actor req w) as [[wf|e] w'] eqn:E; simpl.
    + apply Create_effect in E as (id & k & row & r & ? & ? & ? & ? & ? & _ & ->).
      by apply tables_ok_created.
    + apply Create_error in E. by rewrite E.
  - revert Hok. enough (keepsS keeps_ok (saveDraftAST t wid ast)) as H by apply H. unfold SaveDraftAST.
    keeps_steps; [apply valid_draft_ok|by apply update_draft_ok].
  - revert Hok. enough (keepsS keeps_ok (importYAMLDraft t wid y)) as H by apply H. unfold ImportYAMLDraft.
    keeps_steps; [apply valid_draft_ok|by apply update_draft_ok].
  - destruct (publishDraft t actor wid w) as [[[]|e] w'] eqn:E; simpl.
    + apply PublishDraft_effect in E as [(k & r & Hl & Hacc & k' & next & now & HP & ? & ? & ? & ? & _)|[-> _]];
        [|done].
      apply (latest_draft_iff Evaluate fmtFloat) in Hl as [_ Hd]; [|done]. by eapply tables_ok_published.
    + unfold PublishDraft in E. apply transactS_Err in E. by rewrite E.
Qed.

(** C17. Whatever operations are called, by whatever tenants, and whatever
    statements fail: a workflow always has exactly one draft, whose version is
    higher than any other of the workflow; at most one published version; no
    two versions with the same number; and every version that is or was
    published has an AST that the validation of publications accepted. *)
Theorem workflow_versions_invariant d :
  rtc service_step (mkTables ∅ ∅) d -> ok d.
Proof.
  intros H. apply (rtc_ind_r (fun d => ok d) (mkTables ∅ ∅)) in H; [done|apply tables_ok_empty|].
  intros a b _ Hs Ha. by eapply service_step_ok.
Qed.

(** Publication on tables that satisfy the invariant: when it fails, nothing
    changes; when it succeeds, the only draft of the workflow of the tenant had
    an accepted AST and is now its published version, the version published
    before is withdrawn, and a new draft with the next number has the same AST
    and YAML; no other row changes. *)
Theorem PublishDraft_correct t actor wid w
    (Hok : ok (st w)) (Hfault : faults_are_faults) :
  match (publishDraft t actor wid w).1 with
  | Err _ => st (publishDraft t actor wid w).2 = st w
  | Ok _ => owned t wid (st w) = true /\
      exists k r, is_draft_of (st w) wid k r /\ was_accepted Evaluate fmtFloat (wvAst r) /\
        published_next t wid k r (st w) (st (publishDraft t actor wid w).2)
  end.
Proof.
  destruct (publishDraft t actor wid w) as [[[]|e] w'] eqn:E; simpl.
  - apply PublishDraft_effect in E as [(k & r & Hl & Hacc & Hp)|(_ & Ho & Hl)].
    + apply (latest_draft_iff Evaluate fmtFloat) in Hl as [Ho Hd]; [|done].
      split; [done|]. by exists k, r.
    + exfalso. destruct (tok_draft _ _ _ Hok wid (owned_is_Some _ _ _ Ho)) as (k & r & Hd).
      assert (latest_draft t wid (st w) = Some (k, r)) as Hs by (by apply (latest_draft_iff Evaluate fmtFloat)).
      rewrite Hl in Hs; done.
  - by apply transactS_Err in E.
Qed.

(** A publication whose draft is accepted goes through: when no statement
    fails, identifiers are fresh and the version numbers are not used up,
    publishing the draft of a workflow of the tenant succeeds. *)
Theorem PublishDraft_succeeds t actor wid w k r
    (Hok : ok (st w)) (Howned : owned t wid (st w) = true) (Hdraft : is_draft_of (st w) wid k r)
    (Hnofault : forall n, fault n = None)
    (Hfresh : forall n, versions (st w) !! gen_random_uuid n = None)
    (Hmax : (wvVersion r < int32_max)%Z)
    (Haccept : forall n, validatePublishWorkflow Evaluate fmtFloat (now_text n) (wvAst r)
       ((fun List => List t n) <$> catalog) = Ok tt) :
  (publishDraft t actor wid w).1 = Ok tt.
Proof.
  assert (latest_draft t wid (st w) = Some (k, r)) as Hl
    by (by apply (latest_draft_iff Evaluate fmtFloat)).
  unfold PublishDraft, transactS. rewrite Hnofault.
  unfold tryS, select_row, exec at 1, mbind at 1, Svc_bind at 1. cbn [ticks st].
  rewrite Hnofault, Hl. unfold validate_publication, mbind at 1, Svc_bind at 1. cbn [ticks st snd].
  rewrite Haccept. unfold publish_version, exec_update, wrapS, exec, mbind, Svc_bind. cbn [ticks st snd].
  rewrite !Hnofault. cbn [ticks st fst snd].
  match goal with |- context [insert_version ?id ?row ?d] =>
    assert (insert_version id row d = Ok (mkTables (workflows d) (<[id := row]> (versions d)))) as ->
  end; [|simpl; by rewrite Hnofault].
  unfold insert_version. rewrite decide_False; [|rewrite <- eq_None_not_Some; simpl;
    rewrite lookup_alter_None, lookup_fmap, fmap_None; apply Hfresh].
  cbn [wvVersion wvWorkflow]. destruct (existsb _ _) eqn:Eb; [|destruct (Z.ltb_spec int32_max (wvVersion r + 1)); [lia|done]].
  apply existsb_exists in Eb as ([j r'] & Hin%list_elem_of_In%elem_of_map_to_list & Hb). exfalso.
  boolp. simpl in *. destruct Hdraft as (Hk & Hw & _ & Hlast).
  assert (exists r0, versions (st w) !! j = Some r0 /\ wvWorkflow r0 = wid /\ wvVersion r0 = (wvVersion r + 1)%Z)
    as (r0 & Hj & Hw0 & Hv0).
  { destruct (decide (j = k)) as [->|Hne].
    - rewrite lookup_alter_eq, lookup_fmap, Hk in Hin. simpl in Hin. injection Hin as <-.
      exists r. destruct (in_scope _ _ _ _ _); simpl in *; done.
    - rewrite lookup_alter_ne, lookup_fmap in Hin by done.
      destruct (versions (st w) !! j) as [r0|]; [|done]. simpl in Hin. injection Hin as <-.
      exists r0. destruct (in_scope _ _ _ _ _); simpl in *; done. }
  unfold version_at in *. destruct (decide (j = k)) as [->|Hne].
  - assert (r0 = r) as -> by congruence. lia.
  - destruct (Hlast j r0 Hj Hw0 Hne). lia.
Qed.

(** ** Tenants *)

(** The workflows of other tenants, and their versions, are as they were. *)
Definition others_kept (t : uuid) (d d' : Tables) : Prop :=
  forall wid wf, workflows d !! wid = Some wf -> wfTenant wf <> t ->
    workflows d' !! wid = Some wf /\
    forall k r, wvWorkflow r = wid -> version_at d' k r <-> version_at d k r.

#[local] Instance others_kept_preorder t : PreOrder (others_kept t).
Proof.
  split; [by intros d wid wf H|]. intros a b c Hab Hbc wid wf H Ht.
  destruct (Hab wid wf H Ht) as [H1 H2]. destruct (Hbc wid wf H1 Ht) as [H3 H4].
  split; [done|]. intros k r Hr. rewrite H4, H2 by done. done.
Qed.

Lemma owned_other t wid d wf : owned t wid d = true -> workflows d !! wid = Some wf -> wfTenant wf = t.
Proof. unfold owned. intros H E. rewrite E in H. by boolp. Qed.

Lemma others_kept_update f t wid s d :
  (forall r, wvWorkflow (f r) = wvWorkflow r) -> others_kept t d (update_where f t wid s d).
Proof.
  intros Hf wid' wf Hw Ht. split; [done|]. intros k r Hr. rewrite update_where_at. split.
  - intros (r0 & Hv & ->). destruct (in_scope t wid s d r0) eqn:E; [|done].
    apply in_scope_true in E as (Ho & E & _). rewrite Hf in Hr. subst.
    destruct Ht. by eapply owned_other.
  - intros Hv. exists r. split; [done|]. destruct (in_scope t wid s d r) eqn:E; [|done].
    apply in_scope_true in E as (Ho & E & _). subst. destruct Ht. by eapply owned_other.
Qed.

Lemma others_kept_created t id k row r d :
  workflows d !! id = None -> versions d !! k = None -> wvWorkflow r = id -> others_kept t d (created id k row r d).
Proof.
  intros Hid Hk Hr wid wf Hw Ht. assert (id <> wid) by congruence. unfold created, version_at. simpl.
  split; [by rewrite lookup_insert_ne|]. intros k' r' Hr'. destruct (decide (k' = k)) as [->|].
  - rewrite lookup_insert_eq. split; [|congruence]. intros [= ->]. congruence.
  - by rewrite lookup_insert_ne.
Qed.

Lemma others_kept_published t wid k k' now next r d d' :
  owned t wid d = true -> version_at d k r -> wvWorkflow r = wid -> wvWorkflow next = wid ->
  is_published wid k k' now next d d' -> others_kept t d d'.
Proof.
  intros Ho Hk Hw Hn HP wid' wf Hwf Ht.
  assert (wid' <> wid) as Hne by (intros ->; apply Ht; by eapply owned_other).
  pose proof (fun k0 r0 => is_published_at _ _ _ _ _ _ _ k0 r0 HP) as Hat.
  destruct HP as [-> Hf _ _ _]. split; [done|]. intros j rj Hrj.
  assert (forall r0, version_at d j r0 -> wvWorkflow r0 = wid' -> after_publish wid k now j r0 = r0) as Hsame.
  { intros r0 Hv Hr0. unfold after_publish. case_decide as E; [|by rewrite decide_False by (intros [? _]; congruence)].
    subst j. exfalso. unfold version_at in *. congruence. }
  rewrite Hat. split.
  - intros [[-> ->]|(r0 & Hv & ->)]; [congruence|].
    destruct (after_publish_keys wid k now j r0) as (E & _).
    rewrite Hsame; [done..|by rewrite <- E].
  - intros Hv. right. exists rj. split; [done|]. by rewrite Hsame.
Qed.

(** An operation of one tenant never changes a workflow of another tenant or
    any of its versions, whether the operation succeeds or fails. *)
Theorem workflow_tenant_isolation t w :
  (forall actor req, others_kept t (st w) (st (Create t actor req w).2)) /\
  (forall wid ast, others_kept t (st w) (st (saveDraftAST t wid ast w).2)) /\
  (forall wid y, others_kept t (st w) (st (importYAMLDraft t wid y w).2)) /\
  (forall actor wid, others_kept t (st w) (st (publishDraft t actor wid w).2)).
Proof.
  assert (forall what f wid, (forall r, wvWorkflow (f r) = wvWorkflow r) ->
    keepsS (others_kept t) (update_draft what f t wid)) as Hup.
  { intros what f wid Hf. unfold update_draft. keeps_steps. apply keepsS_exec; [exact _|].
    intros k now d a d' [= _ <-]. by apply others_kept_update. }
  assert (forall ast, keepsS (others_kept t) (valid_draft Evaluate fmtFloat now_text ast)) as Hval
    by (intros ast w'; simpl; reflexivity).
  split_and!.
  - intros actor req. destruct (Create t actor req w) as [[wf|e] w'] eqn:E; simpl.
    + apply Create_effect in E as (id & k & row & r & ? & ? & ? & ? & ? & _ & ->).
      by apply others_kept_created.
    + apply Create_error in E. by rewrite E.
  - intros wid ast. revert w. enough (keepsS (others_kept t) (saveDraftAST t wid ast)) as H by exact H.
    unfold SaveDraftAST. keeps_steps; [apply Hval|by apply Hup].
  - intros wid y. revert w. enough (keepsS (others_kept t) (importYAMLDraft t wid y)) as H by exact H.
    unfold ImportYAMLDraft. keeps_steps; [apply Hval|by apply Hup].
  - intros actor wid. destruct (publishDraft t actor wid w) as [[[]|e] w'] eqn:E; simpl.
    + apply PublishDraft_effect in E as [(k & r & Hl & _ & k' & next & now & HP & ? & _)|[-> _]];
        [|reflexivity].
      destruct (latest_draft_spec _ _ _ _ _ Hl) as (? & ? & ? & _).
      apply (others_kept_published t wid k k' now next r); done.
    + apply transactS_Err in E. by rewrite E.
Qed.

(** ** YAML *)

Lemma version_row t wid d k r :
  ok d -> owned t wid d = true -> version_at d k r -> wvWorkflow r = wid ->
  head (filter (fun kr => wvVersion kr.2 = wvVersion r) (versions_of t wid d)) = Some (k, r).
Proof.
  intros Hok Ho Hv Hw.
  assert ((k, r) ∈ filter (fun kr => wvVersion kr.2 = wvVersion r) (versions_of t wid d)) as Hin.
  { apply list_elem_of_filter. split; [done|]. by apply elem_of_versions_of. }
  destruct (filter _ _) as [|[k' r'] l] eqn:E; [by apply not_elem_of_nil in Hin|]. simpl.
  assert ((k', r') ∈ filter (fun kr => wvVersion kr.2 = wvVersion r) (versions_of t wid d)) as Hin'
    by (rewrite E; left).
  apply list_elem_of_filter in Hin' as [Ever (_ & Hv' & Hw')%elem_of_versions_of]. simpl in Ever.
  assert (k' = k) as -> by (eapply (tok_unique _ _ d Hok k' r' k r); congruence).
  unfold version_at in *. congruence.
Qed.

Lemma owned_update f t wid s d : owned t wid (update_where f t wid s d) = owned t wid d.
Proof. done. Qed.

(** The draft of a workflow after an update of its draft. *)
Lemma draft_updated f t wid d k r :
  keeps_keys f -> owned t wid d = true -> is_draft_of d wid k r ->
  is_draft_of (update_where f t wid Draft d) wid k (f r).
Proof.
  intros Hf Ho (Hv & Hw & Hs & Hlast). destruct (Hf r) as (E1 & E2 & E3). split_and!.
  - apply update_where_at. exists r. split; [done|].
    by rewrite (proj2 (in_scope_true t wid Draft d r)).
  - congruence.
  - congruence.
  - intros k' r' (r0 & Hv' & ->)%update_where_at Hw' Hne. rewrite E2.
    destruct (in_scope t wid Draft d r0); [destruct (Hf r0) as (F1 & F2 & F3)|].
    + rewrite F2, F3. apply (Hlast k'); congruence.
    + by apply (Hlast k').
Qed.

Lemma export_version t wid k r w :
  ok (st w) -> owned t wid (st w) = true -> is_draft_of (st w) wid k r -> fault (ticks w) = None ->
  (ExportYAMLVersion yaml_Marshal t wid (wvVersion r) w).1 = export_row yaml_Marshal r.
Proof.
  intros Hok Ho (Hv & Hw & _) Hf. unfold ExportYAMLVersion, select_row, exec, mbind, Svc_bind.
  rewrite Hf, (version_row t wid _ k r) by done. done.
Qed.

Lemma set_ast_keys j : keeps_keys (set_ast j).
Proof. done. Qed.
Lemma set_source_keys j y : keeps_keys (set_source j y).
Proof. done. Qed.

(** C18. YAML that is imported into a draft is exported again for its version, up
    to surrounding white space, as soon as no statement fails. *)
Theorem yaml_import_export t wid y w w' k r
    (Hok : ok (st w)) (Hdraft : is_draft_of (st w) wid k r)
    (Himport : importYAMLDraft t wid y w = (Ok tt, w')) (Hfault : fault (ticks w') = None) :
  (ExportYAMLVersion yaml_Marshal t wid (wvVersion r) w').1 = Ok (TrimSpace y).
Proof.
  apply ImportYAMLDraft_effect in Himport as (j & Hy & Ho & Hs).
  change (wvVersion r) with (wvVersion (set_source j (TrimSpace y) r)).
  rewrite (export_version t wid k); [|rewrite Hs..|done].
  - unfold export_row. simpl. by rewrite decide_True by (by rewrite TrimSpace_idem).
  - by apply tables_ok_update.
  - done.
  - by apply draft_updated.
Qed.

(** Saving a draft leaves its YAML alone: after YAML has been imported and
    another AST has been saved over it, the draft has the new AST, and its
    version is still exported as the old YAML. *)
Theorem saved_draft_exports_stale_yaml t wid y ast w w1 w2 k r
    (Hok : ok (st w)) (Hdraft : is_draft_of (st w) wid k r)
    (Himport : importYAMLDraft t wid y w = (Ok tt, w1))
    (Hsave : saveDraftAST t wid (Some (Ok ast)) w1 = (Ok tt, w2)) (Hfault : fault (ticks w2) = None) :
  (exists r2, is_draft_of (st w2) wid k r2 /\ wvAst r2 = ast) /\
  (ExportYAMLVersion yaml_Marshal t wid (wvVersion r) w2).1 = Ok (TrimSpace y).
Proof.
  apply ImportYAMLDraft_effect in Himport as (j & Hy & Ho & Hs).
  apply SaveDraftAST_effect in Hsave as (j' & [= <-] & Ho1 & Hs1).
  pose proof (draft_updated _ t wid _ k r (set_source_keys j (TrimSpace y)) Ho Hdraft) as Hd1.
  rewrite <- Hs in Hd1.
  pose proof (draft_updated _ t wid _ k _ (set_ast_keys ast) Ho1 Hd1) as Hd2. rewrite <- Hs1 in Hd2.
  split; [by eexists|].
  change (wvVersion r) with (wvVersion (set_ast ast (set_source j (TrimSpace y) r))).
  rewrite (export_version t wid k); [|rewrite Hs1..|done].
  - unfold export_row. simpl. by rewrite decide_True by (by rewrite TrimSpace_idem).
  - apply tables_ok_update; [done|]. rewrite Hs. by apply tables_ok_update.
  - done.
  - by rewrite <- Hs1.
Qed.
End Service.

(** ** Examples *)

Module WorkflowExample.

(** One step that waits for an hour, or for two. *)
Definition timer_ast (d : string) : json :=
  JObj [("steps", JArr [JObj [("id", JStr "wait"); ("type", JStr "timer");
                              ("config", JObj [("duration", JStr d)])]])].

Definition Evaluate : string -> json -> result goerr json := fun _ _ => Ok (JBool true).
Definition fmtFloat : Qc -> string := fun _ => "0".
Definition now_text : nat -> string := fun _ => "2024-01-01T00:00:00Z".
Definition yaml_Marshal : json -> result goerr string := fun _ => Ok "steps: []".
Definition row : WorkflowRow := mkWorkflowRow 1%N "loans" "loan" 0 7%N.
Definition draft : WFVersion := mkWFVersion 10%N 1 Draft (timer_ast "1h") (Some "") 0 7%N None.
Definition tables : Tables := mkTables {[10%N := row]} {[20%N := draft]}.
Definition start : Sys Tables := mkSys tables 0.

Lemma tables_at k r : version_at tables k r <-> k = 20%N /\ r = draft.
Proof. unfold version_at, tables. simpl. rewrite lookup_singleton_Some. naive_solver. Qed.

Lemma tables_draft : is_draft_of tables 10%N 20%N draft.
Proof. split_and!; [by apply tables_at|done..|]. intros k r [-> ->]%tables_at. done. Qed.

Lemma tables_valid : tables_ok Evaluate fmtFloat tables.
Proof.
  split.
  - intros k r [-> ->]%tables_at. by exists row.
  - intros wid [wf Hw]. simpl in Hw. apply lookup_singleton_Some in Hw as [<- _].
    exists 20%N, draft. apply tables_draft.
  - by intros k1 r1 k2 r2 [-> ->]%tables_at [-> ->]%tables_at.
  - by intros k1 r1 k2 r2 [-> ->]%tables_at [-> ->]%tables_at.
  - intros k r [-> ->]%tables_at. done.
  - by intros k r [-> ->]%tables_at.
Qed.

Lemma no_faults : @faults_are_faults example_runtime.
Proof. by intros k e [=]. Qed.

Lemma accepted n :
  validatePublishWorkflow Evaluate fmtFloat (now_text n) (timer_ast "1h") None = Ok tt.
Proof. vm_compute. reflexivity. Qed.

Lemma workflow_versions_invariant_witness :
  tables_ok Evaluate fmtFloat
    (st (@Create example_runtime 1%N 7%N (mkCreateRequest "loans" "loan") (mkSys (mkTables ∅ ∅) 0)).2).
Proof.
  apply (@workflow_versions_invariant example_runtime Evaluate fmtFloat now_text string Ok (fun _ => Ok initialAST) None).
  apply rtc_once.
  exact (@step_create example_runtime Evaluate fmtFloat now_text string Ok (fun _ => Ok initialAST) None
           1%N 7%N (mkCreateRequest "loans" "loan") (mkSys (mkTables ∅ ∅) 0)).
Defined.

Lemma PublishDraft_correct_witness :
  exists k r, is_draft_of tables 10%N k r /\ was_accepted Evaluate fmtFloat (wvAst r) /\
    published_next 1%N 10%N k r tables
      (st (@PublishDraft example_runtime Evaluate fmtFloat now_text None 1%N 7%N 10%N start).2).
Proof.
  pose proof (@PublishDraft_correct example_runtime Evaluate fmtFloat now_text None
    1%N 7%N 10%N start tables_valid no_faults) as H.
  assert ((@PublishDraft example_runtime Evaluate fmtFloat now_text None 1%N 7%N 10%N start).1 = Ok tt) as E
    by (vm_compute; reflexivity).
  rewrite E in H. exact (proj2 H).
Defined.

Lemma PublishDraft_succeeds_witness :
  (@PublishDraft example_runtime Evaluate fmtFloat now_text None 1%N 7%N 10%N start).1 = Ok tt.
Proof.
  apply (@PublishDraft_succeeds example_runtime Evaluate fmtFloat now_text None
    1%N 7%N 10%N start 20%N draft).
  - apply tables_valid.
  - reflexivity.
  - apply tables_draft.
  - intros n. reflexivity.
  - intros n. simpl. apply lookup_singleton_ne. lia.
  - reflexivity.
  - intros n. vm_compute. reflexivity.
Defined.

Definition import : Svc Tables unit :=
  @ImportYAMLDraft example_runtime Evaluate fmtFloat now_text json
    (fun _ => Ok (timer_ast "1h")) Ok 1%N 10%N " steps: [wait] ".
Definition imported : Sys Tables := Eval vm_compute in (import start).2.
Definition save : Svc Tables unit :=
  @SaveDraftAST example_runtime Evaluate fmtFloat now_text 1%N 10%N (Some (Ok (timer_ast "2h"))).
Definition saved : Sys Tables := Eval vm_compute in (save imported).2.

Lemma yaml_import_export_witness :
  (@ExportYAMLVersion example_runtime yaml_Marshal 1%N 10%N 1 imported).1 = Ok "steps: [wait]".
Proof.
  assert (import start = (Ok tt, imported)) as H by (vm_compute; reflexivity).
  exact (@yaml_import_export example_runtime Evaluate fmtFloat now_text json
    (fun _ => Ok (timer_ast "1h")) Ok yaml_Marshal 1%N 10%N " steps: [wait] " start imported 20%N draft
    tables_valid tables_draft H eq_refl).
Defined.

Lemma saved_draft_exports_stale_yaml_witness :
  (exists r2, is_draft_of (st saved) 10%N 20%N r2 /\ wvAst r2 = timer_ast "2h") /\
  (@ExportYAMLVersion example_runtime yaml_Marshal 1%N 10%N 1 saved).1 = Ok "steps: [wait]".
Proof.
  assert (import start = (Ok tt, imported)) as H1 by (vm_compute; reflexivity).
  assert (save imported = (Ok tt, saved)) as H2 by (vm_compute; reflexivity).
  exact (@saved_draft_exports_stale_yaml example_runtime Evaluate fmtFloat now_text json
    (fun _ => Ok (timer_ast "1h")) Ok yaml_Marshal 1%N 10%N " steps: [wait] " (timer_ast "2h")
    start imported saved 20%N draft tables_valid tables_draft H1 H2 eq_refl).
Defined.

End WorkflowExample.
