(* ===== verification/Triggers.v ===== *)
(** * Triggers: contracts, instances, manager ([internal/triggers])

    A trigger is an instance of a plugin that feeds messages into cases. The
    manager starts, stops and restarts instances, keeps their status and writes
    a row per instance. The plugin runtime and the registry of queue drivers
    are interfaces of the code and parameters here; the store is the one on
    Postgres. A [go] statement adds to the list of work that is still to run.
    [cancel] and [workers] of an instance are never set and are left out. *)

From S2P Require Import Prelude GoStrings Json EngineTypes Store TaskForms Effects.

(** ** Contracts ([contract.go]) *)

Definition DeliveryAtLeastOnce : string := "at_least_once".
Definition DeliveryExactlyOnce : string := "exactly_once".
Definition DeliveryBestEffort : string := "best_effort".
Definition StateHostManaged : string := "host_managed".
Definition StatePluginManaged : string := "plugin_managed".
Definition ConcurrencySingle : string := "single".
Definition ConcurrencyParallel : string := "parallel".
Definition OrderingOrdered : string := "ordered".
Definition OrderingUnordered : string := "unordered".
Definition CheckpointPerMessage : string := "per_message".
Definition CheckpointPeriodic : string := "periodic".
Definition CheckpointOnShutdown : string := "on_shutdown".

Record CheckpointConfig : Type := mkCheckpointConfig { Strategy : string; IntervalMS : Z }.

Record TriggerContract : Type := mkTriggerContract {
  tcDelivery : string;
  tcState : string;
  tcConcurrency : string;
  tcOrdering : string;
  tcCheckpoint : CheckpointConfig
}.

Definition DefaultTriggerContract : TriggerContract :=
  mkTriggerContract DeliveryAtLeastOnce StateHostManaged ConcurrencySingle OrderingOrdered
    (mkCheckpointConfig CheckpointPerMessage 5000).

(** The contract of a manifest: texts that may be missing. *)
Record RawContract : Type := mkRawContract {
  rcDelivery : string;
  rcState : string;
  rcConcurrency : string;
  rcOrdering : string;
  rcCheckpoint : option CheckpointConfig
}.

Definition one_of (s : string) (l : list string) (e : goerr) : result goerr unit :=
  if decide (s ∈ l) then Ok tt else Err e.

Definition Contract_Validate (c : TriggerContract) : result goerr unit :=
  let cp := tcCheckpoint c in
  _ ← one_of (tcDelivery c) [DeliveryAtLeastOnce; DeliveryExactlyOnce; DeliveryBestEffort]
    (Errorf "invalid delivery mode: %s" [tcDelivery c]);
  _ ← one_of (tcState c) [StateHostManaged; StatePluginManaged]
    (Errorf "invalid state mode: %s" [tcState c]);
  _ ← one_of (tcConcurrency c) [ConcurrencySingle; ConcurrencyParallel]
    (Errorf "invalid concurrency mode: %s" [tcConcurrency c]);
  _ ← one_of (tcOrdering c) [OrderingOrdered; OrderingUnordered]
    (Errorf "invalid ordering mode: %s" [tcOrdering c]);
  _ ← one_of (Strategy cp) [CheckpointPerMessage; CheckpointPeriodic; CheckpointOnShutdown]
    (Errorf "invalid checkpoint strategy: %s" [Strategy cp]);
  if bool_decide (Strategy cp = CheckpointPeriodic) && (IntervalMS cp <=? 0)%Z
  then Err (Errorf "checkpoint interval_ms must be > 0 for periodic strategy" [])
  else Ok tt.

(** [if v := strings.TrimSpace(raw); v != "" { out = v }] *)
Definition given (raw dflt : string) : string :=
  if decide (TrimSpace raw = "") then dflt else TrimSpace raw.

Definition ParseTriggerContract (raw : option RawContract) : result goerr TriggerContract :=
  let d := DefaultTriggerContract in
  match raw with
  | None => Ok d
  | Some c =>
      let cp := match rcCheckpoint c with
                | None => tcCheckpoint d
                | Some cp =>
                    mkCheckpointConfig (given (Strategy cp) (Strategy (tcCheckpoint d)))
                      (if (0 <? IntervalMS cp)%Z then IntervalMS cp else IntervalMS (tcCheckpoint d))
                end in
      let out := mkTriggerContract (given (rcDelivery c) (tcDelivery d)) (given (rcState c) (tcState d))
                   (given (rcConcurrency c) (tcConcurrency d)) (given (rcOrdering c) (tcOrdering d)) cp in
      _ ← Contract_Validate out;
      Ok out
  end.

(** ** Instances ([instance.go]) *)

Inductive TriggerStatus : Type :=
  | TriggerStarting | TriggerRunning | TriggerStopping | TriggerStopped | TriggerError.

#[export] Instance TriggerStatus_eq_dec : EqDecision TriggerStatus.
Proof. solve_decision. Defined.

Record TriggerInstance : Type := mkTriggerInstance {
  tiID : uuid;
  tiTenant : uuid;
  tiChannel : uuid;
  tiPlugin : string;
  tiVersion : string;
  tiContract : TriggerContract;
  tiConfig : option (result goerr json);
  tiStatus : TriggerStatus;
  tiStartedAt : Z;
  tiStoppedAt : Z;
  tiRestartCount : Z;
  tiLastBackoff : Z;
  tiErrorMessage : string;
  tiReceived : Z;
  tiProcessed : Z;
  tiFailed : Z;
  tiLastEventNS : Z;
  tiCheckpointer : bool
}.

Definition with_times (i : TriggerInstance) (status : TriggerStatus) (started stopped : Z)
    (restarts backoff : Z) (msg : string) : TriggerInstance :=
  mkTriggerInstance (tiID i) (tiTenant i) (tiChannel i) (tiPlugin i) (tiVersion i) (tiContract i)
    (tiConfig i) status started stopped restarts backoff msg (tiReceived i) (tiProcessed i)
    (tiFailed i) (tiLastEventNS i) (tiCheckpointer i).

Definition with_counters (i : TriggerInstance) (received processed failed lastNS : Z) : TriggerInstance :=
  mkTriggerInstance (tiID i) (tiTenant i) (tiChannel i) (tiPlugin i) (tiVersion i) (tiContract i)
    (tiConfig i) (tiStatus i) (tiStartedAt i) (tiStoppedAt i) (tiRestartCount i) (tiLastBackoff i)
    (tiErrorMessage i) received processed failed lastNS (tiCheckpointer i).

Definition is_running (s : TriggerStatus) : bool := bool_decide (s = TriggerRunning).
Definition is_final (s : TriggerStatus) : bool :=
  bool_decide (s = TriggerStopped) || bool_decide (s = TriggerError).

Definition setStatus (status : TriggerStatus) (errMsg : string) (now : Z) (i : TriggerInstance)
  : TriggerInstance :=
  let started := if is_running status then now else tiStartedAt i in
  let stopped := if is_running status then time_zero else tiStoppedAt i in
  let stopped := if is_final status then now else stopped in
  let msg := if is_running status then "" else tiErrorMessage i in
  let msg := if decide (errMsg = "") then msg else errMsg in
  with_times i status started stopped (tiRestartCount i) (tiLastBackoff i) msg.

Definition recordReceived (now : Z) (i : TriggerInstance) : TriggerInstance :=
  with_counters i (wrap64 (tiReceived i + 1)) (tiProcessed i) (tiFailed i) now.
Definition recordProcessed (now : Z) (i : TriggerInstance) : TriggerInstance :=
  with_counters i (tiReceived i) (wrap64 (tiProcessed i + 1)) (tiFailed i) now.
Definition recordFailed (now : Z) (i : TriggerInstance) : TriggerInstance :=
  with_counters i (tiReceived i) (tiProcessed i) (wrap64 (tiFailed i + 1)) now.

(** ** Rows ([store.go], [store_pg.go]) *)

Record TriggerInstanceRecord : Type := mkTriggerInstanceRecord {
  trID : uuid;
  trTenant : uuid;
  trChannel : uuid;
  trPlugin : string;
  trVersion : string;
  trStatus : TriggerStatus;
  trStartedAt : option Z;
  trStoppedAt : option Z;
  trReceived : Z;
  trProcessed : Z;
  trFailed : Z;
  trLastEventAt : option Z;
  trErrorMessage : string;
  trRestartCount : Z;
  trConfig : option (result goerr json)
}.

Definition unless_zero (t : Z) : option Z := if decide (t = time_zero) then None else Some t.

(** [snapshot] and the record that [persist] makes of it. *)
Definition record_of (i : TriggerInstance) : TriggerInstanceRecord :=
  mkTriggerInstanceRecord (tiID i) (tiTenant i) (tiChannel i) (tiPlugin i) (tiVersion i) (tiStatus i)
    (unless_zero (tiStartedAt i)) (unless_zero (tiStoppedAt i)) (tiReceived i) (tiProcessed i)
    (tiFailed i) (unless_zero (tiLastEventNS i)) (tiErrorMessage i) (tiRestartCount i) (tiConfig i).

(** [UPDATE trigger_instances SET ... WHERE id = $1]: the keys stay. *)
Definition update_record (r old : TriggerInstanceRecord) : TriggerInstanceRecord :=
  mkTriggerInstanceRecord (trID old) (trTenant old) (trChannel old) (trPlugin old) (trVersion old)
    (trStatus r) (trStartedAt r) (trStoppedAt r) (trReceived r) (trProcessed r) (trFailed r)
    (trLastEventAt r) (trErrorMessage r) (trRestartCount r) (trConfig r).

(** ** The manager ([manager.go], [health.go]) *)

(** What the manager asked the plugin runtime to do. *)
Inductive plugin_call : Type :=
  | CallStart (id version : string) (tenant : uuid)
  | CallStop (id version : string).

Record Manager : Type := mkManager {
  instances : gmap uuid TriggerInstance;
  trigger_rows : gmap uuid TriggerInstanceRecord;
  trigger_checkpoints : gmap (uuid * string) string;
  plugin_calls : list plugin_call;
  restarts : list uuid
}.

Definition set_instances (f : gmap uuid TriggerInstance -> gmap uuid TriggerInstance) (m : Manager) : Manager :=
  mkManager (f (instances m)) (trigger_rows m) (trigger_checkpoints m) (plugin_calls m) (restarts m).
Definition set_rows (f : gmap uuid TriggerInstanceRecord -> gmap uuid TriggerInstanceRecord) (m : Manager)
  : Manager :=
  mkManager (instances m) (f (trigger_rows m)) (trigger_checkpoints m) (plugin_calls m) (restarts m).
Definition set_checkpoints (f : gmap (uuid * string) string -> gmap (uuid * string) string) (m : Manager)
  : Manager :=
  mkManager (instances m) (trigger_rows m) (f (trigger_checkpoints m)) (plugin_calls m) (restarts m).
Definition add_call (c : plugin_call) (m : Manager) : Manager :=
  mkManager (instances m) (trigger_rows m) (trigger_checkpoints m) (plugin_calls m ++ [c]) (restarts m).
Definition add_restart (id : uuid) (m : Manager) : Manager :=
  mkManager (instances m) (trigger_rows m) (trigger_checkpoints m) (plugin_calls m) (restarts m ++ [id]).

Record TriggerManagerConfig : Type := mkTriggerManagerConfig {
  MaxRestartBackoff : Z;
  HealthyRunDuration : Z;
  GracefulStopTimeout : Z;
  DefaultBufferSize : Z;
  DefaultWorkerCount : Z
}.

Definition positive_or (v d : Z) : Z := if (v <=? 0)%Z then d else v.
Definition NewTriggerManager_config (c : TriggerManagerConfig) : TriggerManagerConfig :=
  mkTriggerManagerConfig (positive_or (MaxRestartBackoff c) (60 * Second))
    (positive_or (HealthyRunDuration c) (60 * Second)) (positive_or (GracefulStopTimeout c) (30 * Second))
    (positive_or (DefaultBufferSize c) 100) (positive_or (DefaultWorkerCount c) 4).

Definition ErrTriggerInstanceNotFound : goerr := Errorf "trigger instance not found" [].

(** [plugins.Plugin], as far as the manager reads it. *)
Record PluginInfo : Type := mkPluginInfo {
  plID : string;
  plVersion : string;
  plIsTrigger : bool;
  plContract : option RawContract
}.

(** A queue driver: its id, and what its [SupportsExactlyOnce] says, if it has one. *)
Record QueueDriverInfo : Type := mkQueueDriverInfo { qdID : string; qdExactlyOnce : option bool }.

Definition ValidateStartup (mode : string) (driver : option QueueDriverInfo) : result goerr unit :=
  match driver with
  | None => Ok tt
  | Some d =>
      if decide (mode <> DeliveryExactlyOnce) then Ok tt
      else if default false (qdExactlyOnce d) then Ok tt
      else
        let id := ToLower (TrimSpace (qdID d)) in
        if Contains id "postgres" || Contains id "pgmq" then Ok tt
        else Err (Errorf "exactly_once delivery not supported for driver: %s (use at_least_once)" [qdID d])
  end.

Section TriggerManager.
Context `{R : Runtime}.
Context (config : TriggerManagerConfig) (uuid_Parse : string -> result goerr uuid).
(** The store is missing, or the store on Postgres. *)
Context (has_store : bool).
(** [tm.runtime], missing or not: the plugin of a reference, and the outcomes of
    starting and stopping at a time ([None]: not before the timeout). *)
Context (Get_plugin : option (string * string -> result goerr PluginInfo)).
Context (StartTrigger : nat -> string * string -> uuid -> result goerr unit).
Context (StopTrigger : nat -> string * string -> option (result goerr unit)).
Context (GetQueue : option (string -> result goerr QueueDriverInfo)).
(** The context of the restart is done before the timer fires. *)
Context (cancelled : nat -> bool).

Definition Store_Create (r : TriggerInstanceRecord) : Svc Manager unit :=
  wrapS (Wrapf "create trigger instance: %w" [])
    (exec (fun _ _ m => if decide (is_Some (trigger_rows m !! trID r)) then Err unique_error
                        else Ok (tt, set_rows (<[trID r := r]>) m))).

(** An [UPDATE] of no row is no error. *)
Definition Store_Update (r : TriggerInstanceRecord) : Svc Manager unit :=
  wrapS (Wrapf "update trigger instance: %w" [])
    (exec_update (fun _ m => set_rows (alter (update_record r) (trID r)) m)).

Definition Store_Get (id : uuid) : Svc Manager TriggerInstanceRecord :=
  select_row (fun _ m => trigger_rows m !! id).

Definition persist (i : TriggerInstance) : Svc Manager unit :=
  if has_store then
    updated ← tryS (Store_Update (record_of i));
    match updated with
    | Ok _ => mret tt
    | Err _ => ignoreS (Store_Create (record_of i))
    end
  else mret tt.

Definition getInstance (id : uuid) : Svc Manager TriggerInstance :=
  i ← reads (fun m => instances m !! id);
  match i with Some i => mret i | None => fail ErrTriggerInstanceNotFound end.

(** A change of an instance under its lock, at the current time. *)
Definition touch (id : uuid) (f : Z -> TriggerInstance -> TriggerInstance) : Svc Manager unit :=
  now ← nowS; changes (set_instances (alter (f now) id)).

(** [tm.persist(ctx, inst)] of an instance of the map. *)
Definition persist_id (id : uuid) : Svc Manager unit :=
  i ← getInstance id; persist i.

Record triggerConfigMeta : Type := mkTriggerConfigMeta { metaTenantID : uuid; metaDriverID : string }.

Definition triggerConfigMetaFromJSON (cfg : option (result goerr json)) : result goerr triggerConfigMeta :=
  match cfg with
  | None => Err (Errorf "trigger config must include tenant_id" [])
  | Some parsed =>
      match (j ← parsed;
             o ← dec_object j;
             t ← dec_field "tenant_id" dec_string "" (default [] o);
             d ← dec_field "driver_id" dec_string "" (default [] o);
             Ok (t, d)) with
      | Err e => Err (Wrapf "decode trigger config: %w" [] e)
      | Ok (t, d) =>
          if decide (t = "") then Err (Errorf "trigger config must include tenant_id" [])
          else match uuid_Parse t with
               | Err e => Err (Wrapf "invalid tenant_id: %w" [] e)
               | Ok tenant => Ok (mkTriggerConfigMeta tenant d)
               end
      end
  end.

Definition exactly_once_driver (contract : TriggerContract) (meta : triggerConfigMeta) : result goerr unit :=
  if decide (tcDelivery contract = DeliveryExactlyOnce) then
    if decide (metaDriverID meta = "")
    then Err (Errorf "exactly_once delivery requires driver_id in trigger config" [])
    else match GetQueue with
         | None => Err (Errorf "exactly_once delivery cannot be validated: driver registry not configured" [])
         | Some get =>
             driver ← get (metaDriverID meta);
             ValidateStartup (tcDelivery contract) (Some driver)
         end
  else Ok tt.

(** [tm.runtime.StartTrigger], with a trace of the call. *)
Definition start_plugin (ref : string * string) (tenant : uuid) : Svc Manager unit :=
  _ ← changes (add_call (CallStart ref.1 ref.2 tenant));
  callS (fun k => StartTrigger k ref tenant).

Definition Start (channelID : uuid) (pluginRef : string * string) (cfg : option (result goerr json))
  : Svc Manager unit :=
  match Get_plugin with
  | None => fail (Errorf "plugin runtime not configured" [])
  | Some get =>
      _ ← guardS (negb (bool_decide (channelID = uuid_Nil))) (Errorf "channel id is required" []);
      plugin ← pureS (get pluginRef);
      _ ← guardS (plIsTrigger plugin)
        (Errorf "plugin %s@%s is not a trigger plugin" [plID plugin; plVersion plugin]);
      contract ← wrapS (Wrapf "invalid trigger contract: %w" []) (pureS (ParseTriggerContract (plContract plugin)));
      meta ← pureS (triggerConfigMetaFromJSON cfg);
      _ ← pureS (exactly_once_driver contract meta);
      id ← callS (fun k => Ok (gen_random_uuid k));
      let inst := mkTriggerInstance id (metaTenantID meta) channelID (plID plugin) (plVersion plugin)
                    contract cfg TriggerStarting time_zero time_zero 0 0 "" 0 0 0 0 false in
      _ ← start_plugin (plID plugin, plVersion plugin) (metaTenantID meta);
      now ← nowS;
      let inst := setStatus TriggerRunning "" now inst in
      _ ← changes (set_instances (<[id := inst]>));
      persist inst
  end.

Definition Stop (id : uuid) : Svc Manager unit :=
  match Get_plugin with
  | None => fail (Errorf "plugin runtime not configured" [])
  | Some _ =>
      inst ← getInstance id;
      _ ← touch id (setStatus TriggerStopping "");
      _ ← changes (add_call (CallStop (tiPlugin inst) (tiVersion inst)));
      stopped ← callS (fun k => Ok (StopTrigger k (tiPlugin inst, tiVersion inst)));
      match stopped with
      | Some (Err e) =>
          _ ← touch id (setStatus TriggerError (Error e));
          _ ← persist_id id;
          fail e
      | None =>
          _ ← touch id (setStatus TriggerStopped "graceful stop timeout; forced stop");
          persist_id id
      | Some (Ok _) =>
          _ ← touch id (setStatus TriggerStopped "");
          persist_id id
      end
  end.

(** The fields that [Restart] writes itself: the message stays. *)
Definition restarted (now : Z) (i : TriggerInstance) : TriggerInstance :=
  with_times i TriggerRunning now time_zero (tiRestartCount i + 1) (tiLastBackoff i) (tiErrorMessage i).

Definition Restart (id : uuid) : Svc Manager unit :=
  inst ← getInstance id;
  _ ← Stop id;
  meta ← pureS (triggerConfigMetaFromJSON (tiConfig inst));
  started ← tryS (start_plugin (tiPlugin inst, tiVersion inst) (metaTenantID meta));
  match started with
  | Err e =>
      _ ← touch id (setStatus TriggerError (Error e));
      _ ← persist_id id;
      fail e
  | Ok _ =>
      _ ← touch id restarted;
      persist_id id
  end.

(** The most recently started first. *)
Definition started_desc (a b : TriggerInstance) : Prop := (tiStartedAt b <= tiStartedAt a)%Z.
#[export] Instance started_desc_dec : RelDecision started_desc.
Proof. intros a b. unfold started_desc. apply _. Defined.

Definition List_instances (m : Manager) : list TriggerInstance :=
  merge_sort started_desc (map snd (map_to_list (instances m))).

Definition StopAll : Svc Manager unit :=
  items ← reads List_instances;
  forS (fun item => Stop (tiID item)) items.

Definition Get (id : uuid) : Svc Manager TriggerInstance := getInstance id.

(** ** Checkpoints ([checkpoint.go]) *)

Definition Checkpoint_Save (id : uuid) (key value : string) : Svc Manager unit :=
  wrapS (Wrapf "save checkpoint: %w" [])
    (exec_update (fun _ m => set_checkpoints (<[(id, key) := value]>) m)).
Definition Checkpoint_Load (id : uuid) (key : string) : Svc Manager string :=
  select_row (fun _ m => trigger_checkpoints m !! (id, key)).
Definition key_le (a b : string * string) : Prop := String.le a.1 b.1.
#[export] Instance key_le_dec : RelDecision key_le.
Proof. intros a b. unfold key_le. apply _. Defined.
Definition Checkpoint_List (id : uuid) : Svc Manager (list (string * string)) :=
  wrapS (Wrapf "list checkpoints: %w" [])
    (select (fun _ m => merge_sort key_le
       (omap (fun kv : (uuid * string) * string => if decide (kv.1.1 = id) then Some (kv.1.2, kv.2) else None)
          (map_to_list (trigger_checkpoints m))))).
Definition Checkpoint_DeleteAll (id : uuid) : Svc Manager unit :=
  wrapS (Wrapf "delete checkpoints: %w" [])
    (exec_update (fun _ m => set_checkpoints (filter (fun kv => kv.1.1 <> id)) m)).

Definition ResetCheckpoints (id : uuid) : Svc Manager unit :=
  inst ← getInstance id;
  if decide (tiStatus inst <> TriggerStopped)
  then fail (Errorf "trigger must be stopped before resetting checkpoints" [])
  else if tiCheckpointer inst then Checkpoint_DeleteAll id else mret tt.

Definition ListCheckpoints (id : uuid) : Svc Manager (list (string * string)) :=
  inst ← getInstance id;
  if tiCheckpointer inst then Checkpoint_List id else mret [].

(** ** Restarts with backoff *)

(** A duration is doubled at 64 bits. *)
Definition next_backoff (last : Z) : Z :=
  let max := MaxRestartBackoff config in
  let next := if (last <=? 0)%Z then Second else last in
  if (max <? next)%Z then max
  else if (0 <? last)%Z then
    let next := wrap64 (next * 2) in
    if (max <? next)%Z then max else next
  else next.

Definition back_off (i : TriggerInstance) : TriggerInstance :=
  with_times i (tiStatus i) (tiStartedAt i) (tiStoppedAt i) (tiRestartCount i + 1)
    (next_backoff (tiLastBackoff i)) (tiErrorMessage i).

Definition restartWithBackoff (id : uuid) : Svc Manager unit :=
  found ← tryS (getInstance id);
  match found with
  | Err _ => mret tt
  | Ok _ =>
      _ ← changes (set_instances (alter back_off id));
      stop ← callS (fun k => Ok (cancelled k));
      if (stop : bool) then mret tt else ignoreS (Restart id)
  end.

Definition healthy (now : Z) (i : TriggerInstance) : bool :=
  is_running (tiStatus i) && negb (bool_decide (tiStartedAt i = time_zero)) &&
  (HealthyRunDuration config <=? time_Sub now (tiStartedAt i))%Z.

Definition maybeResetBackoff (id : uuid) : Svc Manager unit :=
  touch id (fun now i =>
    if healthy now i then
      with_times i (tiStatus i) (tiStartedAt i) (tiStoppedAt i) (tiRestartCount i) 0 (tiErrorMessage i)
    else i).

(** [HealthMonitor.Check]: the restarts run in goroutines of their own. *)
Definition Check : Svc Manager unit :=
  items ← reads List_instances;
  forS (fun item =>
    if decide (tiStatus item = TriggerError) then changes (add_restart (tiID item))
    else maybeResetBackoff (tiID item)) items.

(** ** Administration ([api.go]) *)

Inductive Answer : Type :=
  | Failure (status : Z) (code : string)
  | Instances (items : list TriggerInstance)
  | Item (item : TriggerInstance)
  | Checkpoints (items : list (string * string))
  | Done.

Definition parseID (raw : string) : result goerr uuid := uuid_Parse (TrimSpace raw).

(** The id of the path, then the call; any error of the call is [code]. *)
Definition admin {A} (raw : string) (call : uuid -> Svc Manager A) (done : A -> Answer)
    (err : goerr -> Answer) : Svc Manager Answer :=
  match parseID raw with
  | Err _ => mret (Failure 400 "invalid_trigger_id")
  | Ok id =>
      r ← tryS (call id);
      match r with Ok a => mret (done a) | Err e => mret (err e) end
  end.

Definition Admin_List : Svc Manager Answer := items ← reads List_instances; mret (Instances items).
Definition Admin_Get (raw : string) : Svc Manager Answer :=
  admin raw Get Item (fun _ => Failure 404 "trigger_not_found").
Definition Admin_Restart (raw : string) : Svc Manager Answer :=
  admin raw Restart (fun _ => Done) (fun _ => Failure 500 "trigger_restart_failed").
Definition Admin_Stop (raw : string) : Svc Manager Answer :=
  admin raw Stop (fun _ => Done) (fun _ => Failure 500 "trigger_stop_failed").
Definition Admin_ListCheckpoints (raw : string) : Svc Manager Answer :=
  admin raw ListCheckpoints Checkpoints (fun _ => Failure 500 "checkpoint_list_failed").
Definition Admin_ResetCheckpoints (raw : string) : Svc Manager Answer :=
  admin raw ResetCheckpoints (fun _ => Done) (fun err =>
    if Contains (Error err) "must be stopped" then Failure 409 "trigger_running"
    else if errors_is err ErrTriggerInstanceNotFound then Failure 404 "trigger_not_found"
    else Failure 500 "checkpoint_reset_failed").

End TriggerManager.

(** * Delivery of messages: [internal/triggers/delivery.go], [concurrency.go], [backpressure.go]

    The handler of a message acknowledges it or not, by the mode of the
    contract; what it asks of the queue and of the pipeline is kept as a trace.
    The workers of an instance share one buffer: their runs are the steps of a
    transition system, one step for each receive on the channel, each return of
    the handler and each end of a worker. The queue driver and the channel
    pipeline are interfaces of the code and parameters here. *)

Record messageEnvelope : Type := mkEnvelope {
  envMessage : string;
  envMetadata : gmap string string;
  envMessageID : string
}.

#[export] Instance messageEnvelope_eq_dec : EqDecision messageEnvelope.
Proof. solve_decision. Defined.

(** ** The handler *)

Record PipelineRequest : Type := mkPipelineRequest {
  prTenantID : uuid;
  prChannelID : uuid;
  prData : string;
  prSource : string
}.

(** What happened to a message: processed, acknowledged, refused, or handed to a
    goroutine; with the success of the call. *)
Inductive delivery_event : Type :=
  | Processed (req : PipelineRequest) (ok : bool)
  | Acked (id : string) (ok : bool)
  | Nacked (id : string)
  | Spawned (req : PipelineRequest).

Section Delivery.
(** The driver and the pipeline, missing or not: the outcomes of their calls. *)
Context (Ack Nack : option (nat -> string -> result goerr unit)).
Context (Process : option (nat -> PipelineRequest -> result goerr unit)).
Context (mode : string) (tenantID : uuid).

Definition observe (f : nat -> result goerr unit) (event : bool -> delivery_event)
  : Svc (list delivery_event) unit :=
  fun w => let r := f (ticks w) in (r, mkSys (st w ++ [event (is_ok r)]) (S (ticks w))).

Definition message_request (env : messageEnvelope) (channelID : uuid) : PipelineRequest :=
  mkPipelineRequest tenantID channelID (envMessage env) "trigger".

Definition HandleMessage (env : messageEnvelope) (channelID : uuid) : Svc (list delivery_event) unit :=
  match Process, Ack, Nack with
  | None, _, _ => fail (Errorf "channel pipeline not configured" [])
  | _, None, _ | _, _, None => fail (Errorf "queue driver not configured" [])
  | Some process, Some ack, Some nack =>
      let req := message_request env channelID in
      let id := envMessageID env in
      if decide (mode = DeliveryBestEffort) then
        _ ← observe (fun k => ack k id) (Acked id);
        changes (fun t => t ++ [Spawned req])
      else if decide (mode = DeliveryExactlyOnce \/ mode = DeliveryAtLeastOnce) then
        _ ← on_error (observe (fun k => process k req) (Processed req))
              (fun _ => ignoreS (observe (fun k => nack k id) (fun _ => Nacked id)));
        observe (fun k => ack k id) (Acked id)
      else fail (Errorf "unsupported delivery mode: %s" [mode])
  end.
End Delivery.

(** ** Workers *)

(** The buffered channel of an instance, the message each worker is handling, and
    the messages that have been handled, with the outcome. [alive] are the
    workers that have not returned. *)
Record Pool : Type := mkPool {
  capacity : nat;
  buffer : list messageEnvelope;
  alive : gset nat;
  busy : gmap nat messageEnvelope;
  handled : list (messageEnvelope * bool);
  instance : TriggerInstance
}.

(** [Enqueue]: a send on the channel, of [enqueueWithBackpressure], that has room.
    [Receive w]: worker [w] takes a message. [Return w ok]: its handler returns.
    [Exit w]: it sees that its context is done. *)
Inductive pool_action : Type :=
  | Enqueue (env : messageEnvelope)
  | Receive (w : nat)
  | Return (w : nat) (ok : bool)
  | Exit (w : nat).

Definition idle (p : Pool) (w : nat) : bool :=
  bool_decide (w ∈ alive p) && bool_decide (busy p !! w = None).

(** One action at time [now]; [None] when it cannot happen. Taking a message and
    counting it as received, which a worker does right after, are one action. *)
Definition pool_step (now : Z) (p : Pool) (a : pool_action) : option Pool :=
  match a with
  | Enqueue env =>
      if (length (buffer p) <? capacity p)%nat
      then Some (mkPool (capacity p) (buffer p ++ [env]) (alive p) (busy p) (handled p) (instance p))
      else None
  | Receive w =>
      match buffer p with
      | env :: rest =>
          if idle p w
          then Some (mkPool (capacity p) rest (alive p) (<[w := env]> (busy p)) (handled p)
                       (recordReceived now (instance p)))
          else None
      | [] => None
      end
  | Return w ok =>
      match busy p !! w with
      | Some env =>
          Some (mkPool (capacity p) (buffer p) (alive p) (delete w (busy p)) (handled p ++ [(env, ok)])
                  (if ok : bool then recordProcessed now (instance p) else recordFailed now (instance p)))
      | None => None
      end
  | Exit w =>
      if idle p w
      then Some (mkPool (capacity p) (buffer p) (alive p ∖ {[w]}) (busy p) (handled p) (instance p))
      else None
  end.

(** A run: the actions that happened, each at its time. *)
Fixpoint pool_run (p : Pool) (l : list (Z * pool_action)) : option Pool :=
  match l with
  | [] => Some p
  | (now, a) :: l' => match pool_step now p a with Some p' => pool_run p' l' | None => None end
  end.

Definition sent (l : list (Z * pool_action)) : list messageEnvelope :=
  omap (fun '(_, a) => match a with Enqueue env => Some env | _ => None end) l.

Definition new_pool (cap workers : nat) (i : TriggerInstance) : Pool :=
  mkPool cap [] (list_to_set (seq 0 workers)) ∅ [] i.

(** [enqueueWithBackpressure]: sends when there is room, at once or after the
    warning; gives up when the context is done first. *)
Inductive enqueue_outcome : Type := EnqueuedAtOnce | EnqueuedAfterWarning | GaveUp.

Definition warn_after (warnAfter : Z) : Z := if (warnAfter <=? 0)%Z then 60 * Second else warnAfter.

(** The times at which there is room and at which the context is done, if ever:
    the earliest event decides. *)
Definition enqueueWithBackpressure (room cancel : option Z) (warnAfter : Z) : option enqueue_outcome :=
  let w := warn_after warnAfter in
  match room, cancel with
  | None, None => None
  | Some r, None => Some (if (r <=? w)%Z then EnqueuedAtOnce else EnqueuedAfterWarning)
  | None, Some _ => Some GaveUp
  | Some r, Some c =>
      Some (if (r <=? c)%Z then (if (r <=? w)%Z then EnqueuedAtOnce else EnqueuedAfterWarning)
            else GaveUp)
  end.
