(* ===== verification/TriggerClaims.v ===== *)
(** * What triggers guarantee *)

From S2P Require Import Prelude GoStrings Json EngineTypes Store TaskForms GoText Effects Triggers.

(** ** Contracts *)

(** The contracts of the enumerations of the code. *)
Record contract_typed (c : TriggerContract) : Prop := mk_contract_typed {
  ct_delivery : tcDelivery c ∈ [DeliveryAtLeastOnce; DeliveryExactlyOnce; DeliveryBestEffort];
  ct_state : tcState c ∈ [StateHostManaged; StatePluginManaged];
  ct_concurrency : tcConcurrency c ∈ [ConcurrencySingle; ConcurrencyParallel];
  ct_ordering : tcOrdering c ∈ [OrderingOrdered; OrderingUnordered];
  ct_strategy : Strategy (tcCheckpoint c) ∈ [CheckpointPerMessage; CheckpointPeriodic; CheckpointOnShutdown];
  ct_interval : (0 < IntervalMS (tcCheckpoint c))%Z
}.

Definition raw_of (c : TriggerContract) : RawContract :=
  mkRawContract (tcDelivery c) (tcState c) (tcConcurrency c) (tcOrdering c) (Some (tcCheckpoint c)).

Lemma one_of_ok s l e : one_of s l e = Ok tt <-> s ∈ l.
Proof. unfold one_of. case_decide; naive_solver. Qed.

Lemma bind_unit_ok (m k : result goerr unit) : (_ ← m; k) = Ok tt <-> m = Ok tt /\ k = Ok tt.
Proof. destruct m as [[]|]; naive_solver. Qed.

Lemma Contract_Validate_ok c :
  (0 < IntervalMS (tcCheckpoint c))%Z -> Contract_Validate c = Ok tt <-> contract_typed c.
Proof.
  intros Hi. unfold Contract_Validate. rewrite !bind_unit_ok, !one_of_ok.
  replace (IntervalMS (tcCheckpoint c) <=? 0)%Z with false by (symmetry; apply Z.leb_gt; lia).
  rewrite andb_false_r. split; [intros (? & ? & ? & ? & ? & _); by split|by intros []].
Qed.

Lemma given_word s l d :
  s ∈ l -> forallb (fun x => all_chars is_graph x && nonempty_str x) l = true -> given s d = s.
Proof.
  intros Hs%list_elem_of_In Hl. rewrite forallb_forall in Hl. specialize (Hl s Hs).
  unfold nonempty_str in Hl. boolp. unfold given. rewrite TrimSpace_graph by done.
  by rewrite decide_False.
Qed.

(** C21. Whatever a manifest says, the contract of a trigger has a mode of each
    enumeration and a positive checkpoint interval, or the manifest is refused;
    a contract of the enumerations is read as itself. *)
Theorem ParseTriggerContract_typed :
  (forall raw c, ParseTriggerContract raw = Ok c -> contract_typed c) /\
  (forall c, contract_typed c -> ParseTriggerContract (Some (raw_of c)) = Ok c).
Proof.
  split.
  - intros raw c H. unfold ParseTriggerContract in H. destruct raw as [raw|].
    + match type of H with context [Contract_Validate ?out] => set (o := out) in * end.
      destruct (Contract_Validate o) as [[]|] eqn:E; [|done]. injection H as <-.
      apply Contract_Validate_ok in E; [done|]. subst o. simpl.
      destruct (rcCheckpoint raw) as [cp|]; simpl; [|lia].
      destruct (Z.ltb_spec 0 (IntervalMS cp)); simpl; lia.
    + injection H as <-. split; simpl; try lia; unfold DeliveryAtLeastOnce; set_solver.
  - intros c Hc. pose proof Hc as [H1 H2 H3 H4 H5 H6]. unfold ParseTriggerContract, raw_of.
    cbn [rcDelivery rcState rcConcurrency rcOrdering rcCheckpoint].
    rewrite (given_word _ _ _ H1 eq_refl), (given_word _ _ _ H2 eq_refl),
      (given_word _ _ _ H3 eq_refl), (given_word _ _ _ H4 eq_refl),
      (given_word _ _ _ H5 eq_refl).
    rewrite (proj2 (Z.ltb_lt _ _) H6).
    assert (mkTriggerContract (tcDelivery c) (tcState c) (tcConcurrency c) (tcOrdering c)
      (mkCheckpointConfig (Strategy (tcCheckpoint c)) (IntervalMS (tcCheckpoint c))) = c) as ->
      by (by destruct c as [? ? ? ? []]).
    by rewrite (proj2 (Contract_Validate_ok c H6) Hc).
Qed.

(** ** Delivery *)

(** An acknowledgement comes right after a processing that succeeded. *)
Definition acked_after_processing (tr : list delivery_event) : Prop :=
  forall pre id ok post, tr = pre ++ Acked id ok :: post ->
    exists pre' req, pre = pre' ++ [Processed req true].

Lemma acked_after_processing_app tr new :
  acked_after_processing tr ->
  (forall pre id ok post, new = pre ++ Acked id ok :: post -> exists pre' req, pre = pre' ++ [Processed req true]) ->
  acked_after_processing (tr ++ new).
Proof.
  intros Htr Hnew pre id ok post E.
  apply app_eq_inv in E as [(k & -> & E)|(k & -> & E)].
  - destruct k as [|x k]; simpl in E.
    + destruct (Hnew [] id ok post) as (pre' & req & Hp); [done|].
      by destruct pre'.
    + injection E as <- ->. eapply Htr. reflexivity.
  - destruct (Hnew k id ok post E) as (pre' & req & ->). exists (tr ++ pre'), req.
    by rewrite app_assoc.
Qed.

Section Delivery.
Context (Ack Nack : option (nat -> string -> result goerr unit)).
Context (Process : option (nat -> PipelineRequest -> result goerr unit)).
Context (tenantID channelID : uuid).

Local Abbreviation handle mode := (HandleMessage Ack Nack Process mode tenantID).

(** A worker handles message after message, whatever each call returns. *)
Definition handle_all (mode : string) (envs : list messageEnvelope) : Svc (list delivery_event) unit :=
  forS (fun env => ignoreS (handle mode env channelID)) envs.

(** The events of one call, unless the mode is best effort. *)
Definition delivery_events (req : PipelineRequest) (id : string) (new : list delivery_event) : Prop :=
  new = [] \/ new = [Processed req false; Nacked id] \/
  exists ok, new = [Processed req true; Acked id ok].

Lemma HandleMessage_events mode env w :
  mode <> DeliveryBestEffort ->
  exists new, st (handle mode env channelID w).2 = st w ++ new /\
    delivery_events (message_request tenantID env channelID) (envMessageID env) new.
Proof.
  intros Hm. unfold HandleMessage, delivery_events.
  destruct Process as [process|]; [|exists []; rewrite app_nil_r; auto].
  destruct Ack as [ack|]; [|exists []; rewrite app_nil_r; auto].
  destruct Nack as [nack|]; [|exists []; rewrite app_nil_r; auto].
  rewrite decide_False by done. case_decide; [|exists []; rewrite app_nil_r; auto].
  unfold on_error, observe, ignoreS, mbind, Svc_bind. simpl.
  destruct (process (ticks w) _) as [[]|e]; simpl; rewrite <- app_assoc; eauto 6.
Qed.

(** Unless a trigger delivers with best effort, the queue is told that a
    message is done only right after the pipeline has processed it
    successfully: no message that the pipeline refused, and none that it has not
    seen, is acknowledged, however many messages are handled and however the
    calls fail. *)
Theorem acknowledged_only_processed mode envs w
    (Hmode : mode <> DeliveryBestEffort) (Hstart : acked_after_processing (st w)) :
  acked_after_processing (st (handle_all mode envs w).2).
Proof.
  revert w Hstart. unfold handle_all. induction envs as [|env envs IH]; intros w Hw; [done|].
  simpl. unfold mbind, Svc_bind, ignoreS at 1. apply IH.
  destruct (HandleMessage_events mode env w Hmode) as (new & -> & Hnew).
  apply acked_after_processing_app; [done|]. intros pre id ok post E.
  destruct Hnew as [->|[->|(b & ->)]].
  - by destruct pre.
  - destruct pre as [|? [|? [|? ?]]]; simplify_eq/=.
  - destruct pre as [|? [|? [|? ?]]]; simplify_eq/=. eexists [], _. reflexivity.
Qed.

(** The mode for exactly-once delivery treats messages as the mode for
    at-least-once delivery does: the calls and their results are the same,
    whatever fails. *)
Theorem exactly_once_is_at_least_once env w :
  handle DeliveryExactlyOnce env channelID w = handle DeliveryAtLeastOnce env channelID w.
Proof. unfold HandleMessage. repeat case_match; naive_solver. Qed.
End Delivery.

Definition demo_env : messageEnvelope := mkEnvelope "{}" ∅ "m1".

Lemma acknowledged_only_processed_witness :
  acked_after_processing
    (st (handle_all (Some (fun _ _ => Ok tt)) (Some (fun _ _ => Ok tt)) (Some (fun _ _ => Ok tt)) 1%N 2%N
       DeliveryAtLeastOnce [demo_env; demo_env] (mkSys [] 0)).2).
Proof.
  apply (acknowledged_only_processed _ _ _ 1%N 2%N DeliveryAtLeastOnce [demo_env; demo_env] (mkSys [] 0)).
  - discriminate.
  - intros pre id ok post E. by destruct pre.
Defined.

(** A message whose acknowledgement fails is processed again when it is delivered
    again, in the mode for exactly-once delivery too. *)
Example exactly_once_processes_twice :
  st (handle_all (Some (fun k _ => if decide (k = 1%nat) then Err unique_error else Ok tt))
        (Some (fun _ _ => Ok tt)) (Some (fun _ _ => Ok tt)) 1%N 2%N
        DeliveryExactlyOnce [demo_env; demo_env] (mkSys [] 0)).2 =
  let req := message_request 1%N demo_env 2%N in
  [Processed req true; Acked "m1" false; Processed req true; Acked "m1" true].
Proof. reflexivity. Qed.

(** ** Workers *)

Definition in_hand (p : Pool) : list messageEnvelope := map snd (map_to_list (busy p)).
Definition oks (b : bool) (l : list (messageEnvelope * bool)) : nat :=
  length (filter (fun e => e.2 = b) l).

(** What holds after any run: [i] is the instance at its start. *)
Record pool_ok (i : TriggerInstance) (n : nat) (l : list messageEnvelope) (p : Pool) : Prop := mk_pool_ok {
  po_messages : l ≡ₚ map fst (handled p) ++ in_hand p ++ buffer p;
  po_room : (length (buffer p) <= capacity p)%nat;
  po_workers : forall w, is_Some (busy p !! w) -> w ∈ alive p;
  po_alive : forall w, w ∈ alive p -> (w < n)%nat;
  po_received : tiReceived (instance p) =
    wrap64 (tiReceived i + Z.of_nat (length (handled p) + size (busy p)));
  po_processed : tiProcessed (instance p) = wrap64 (tiProcessed i + Z.of_nat (oks true (handled p)));
  po_failed : tiFailed (instance p) = wrap64 (tiFailed i + Z.of_nat (oks false (handled p)))
}.

Lemma wrap64_add a b : wrap64 (wrap64 a + b) = wrap64 (a + b).
Proof.
  unfold wrap64. f_equal.
  replace ((a - int64_min) mod 18446744073709551616 + int64_min + b - int64_min)%Z
    with ((a - int64_min) mod 18446744073709551616 + b)%Z by lia.
  rewrite Zplus_mod_idemp_l. f_equal. lia.
Qed.

Lemma oks_app b l e : oks b (l ++ [e]) = (oks b l + if decide (e.2 = b) then 1 else 0)%nat.
Proof. unfold oks. rewrite filter_app, length_app, filter_cons. by case_decide. Qed.

Lemma idle_true p w : idle p w = true <-> w ∈ alive p /\ busy p !! w = None.
Proof. unfold idle. rewrite andb_true_iff, !bool_decide_eq_true. done. Qed.

Lemma in_hand_insert p w env :
  busy p !! w = None -> map snd (map_to_list (<[w := env]> (busy p))) ≡ₚ env :: in_hand p.
Proof. intros H. by rewrite map_to_list_insert. Qed.

Lemma in_hand_delete p w env :
  busy p !! w = Some env -> in_hand p ≡ₚ env :: map snd (map_to_list (delete w (busy p))).
Proof. intros H. unfold in_hand. by rewrite <- (map_to_list_delete (busy p) w env H). Qed.

Definition sends (a : pool_action) : list messageEnvelope :=
  match a with Enqueue env => [env] | _ => [] end.

#[local] Opaque wrap64.

Lemma pool_step_ok i n l now p a p' :
  pool_ok i n l p -> pool_step now p a = Some p' -> pool_ok i n (l ++ sends a) p'.
Proof.
  intros [Hm Hr Hw Ha Hrec Hpro Hf] H. destruct a as [env|w|w ok|w]; simpl in H; simpl sends;
    rewrite ?app_nil_r.
  - destruct (Nat.ltb_spec (length (buffer p)) (capacity p)); [|done]. injection H as <-.
    split; simpl; [|rewrite length_app; simpl; lia|exact Hw|exact Ha|exact Hrec|exact Hpro|exact Hf].
    rewrite Hm. by rewrite <- !app_assoc.
  - destruct (buffer p) as [|env rest] eqn:Eb; [done|]. destruct (idle p w) eqn:Ei; [|done].
    apply idle_true in Ei as [Hin Hbusy]. injection H as <-.
    split; simpl; [|clear -Hr; simpl in Hr; lia| |exact Ha| |exact Hpro|exact Hf].
    + unfold in_hand at 1. simpl. rewrite in_hand_insert by done. rewrite Hm. solve_Permutation.
    + intros w'. destruct (decide (w' = w)) as [->|]; [done|]. rewrite lookup_insert_ne by done. apply Hw.
    + rewrite Hrec, wrap64_add, map_size_insert_None by done. apply (f_equal wrap64). lia.
  - destruct (busy p !! w) as [env|] eqn:Eb; [|done]. injection H as <-.
    split; simpl; [|exact Hr| |exact Ha|..].
    + rewrite Hm, map_app, (in_hand_delete p w env Eb). unfold in_hand. simpl. solve_Permutation.
    + intros w' Hs. apply Hw. destruct (decide (w' = w)) as [->|]; [by rewrite Eb|].
      by rewrite lookup_delete_ne in Hs.
    + rewrite length_app. simpl.
      assert (size (busy p) = S (size (delete w (busy p)))) as Es
        by (rewrite <- (insert_delete_id (busy p) w env Eb) at 1; apply map_size_insert_None, lookup_delete_eq).
      rewrite Es in Hrec. destruct ok; simpl; rewrite Hrec; apply (f_equal wrap64); lia.
    + rewrite oks_app. simpl. destruct ok; simpl; [|rewrite Nat.add_0_r; exact Hpro].
      rewrite Hpro, wrap64_add. apply (f_equal wrap64). lia.
    + rewrite oks_app. simpl. destruct ok; simpl; [rewrite Nat.add_0_r; exact Hf|].
      rewrite Hf, wrap64_add. apply (f_equal wrap64). lia.
  - destruct (idle p w) eqn:Ei; [|done]. apply idle_true in Ei as [Hin Hbusy]. injection H as <-.
    split; simpl; [exact Hm|exact Hr| | |exact Hrec|exact Hpro|exact Hf].
    + intros w' Hs. apply elem_of_difference. split; [by apply Hw|].
      rewrite elem_of_singleton. intros ->. rewrite Hbusy in Hs. by destruct Hs.
    + intros w' Hs. apply Ha. set_solver.
Qed.

Lemma pool_run_ok i n l p acts p' :
  pool_ok i n l p -> pool_run p acts = Some p' -> pool_ok i n (l ++ sent acts) p'.
Proof.
  revert l p. induction acts as [|[now a] acts IH]; intros l p Hp H; simpl in H.
  - simplify_eq. by rewrite app_nil_r.
  - destruct (pool_step now p a) as [p1|] eqn:E; [|done].
    assert (l ++ sent ((now, a) :: acts) = (l ++ sends a) ++ sent acts) as ->
      by (rewrite <- app_assoc; by destruct a).
    eapply IH; [|done]. by eapply pool_step_ok.
Qed.

(** With one worker, messages are handled in the order in which they were sent. *)
Definition in_order (l : list messageEnvelope) (p : Pool) : Prop :=
  l = map fst (handled p) ++ in_hand p ++ buffer p.

Lemma one_in_hand p :
  (forall w, is_Some (busy p !! w) -> w = 0%nat) ->
  in_hand p = match busy p !! 0%nat with Some env => [env] | None => [] end.
Proof.
  intros H. unfold in_hand. destruct (busy p !! 0%nat) as [env|] eqn:E.
  - assert (busy p = {[0%nat := env]}) as ->; [|by rewrite map_to_list_singleton].
    apply map_eq. intros w. destruct (decide (w = 0%nat)) as [->|Hne].
    + by rewrite lookup_singleton_eq.
    + rewrite lookup_singleton_ne by done. apply eq_None_not_Some. intros Hs. by apply H in Hs.
  - assert (busy p = ∅) as ->; [|by rewrite map_to_list_empty]. apply map_empty. intros w.
    apply eq_None_not_Some. intros Hs. pose proof (H w Hs) as ->. rewrite E in Hs. by destruct Hs.
Qed.

Lemma pool_step_order i l l' now p a p' :
  pool_ok i 1 l p -> in_order l' p -> pool_step now p a = Some p' -> in_order (l' ++ sends a) p'.
Proof.
  intros Hok Ho H. pose proof (pool_step_ok _ _ _ _ _ _ _ Hok H) as Hok'.
  assert (forall l p, pool_ok i 1 l p -> forall w, is_Some (busy p !! w) -> w = 0%nat) as H0.
  { intros l0 p0 [_ _ Hw Ha _ _ _] w Hs. apply Hw, Ha in Hs. lia. }
  unfold in_order in *. rewrite (one_in_hand p) in Ho by (by eapply H0).
  rewrite (one_in_hand p') by (by eapply H0).
  destruct a as [env|w|w ok|w]; simpl in H; simpl sends; rewrite ?app_nil_r.
  - destruct (length (buffer p) <? capacity p)%nat; [|done]. injection H as <-. simpl.
    rewrite Ho. by rewrite <- !app_assoc.
  - destruct (buffer p) as [|env rest]; [done|]. destruct (idle p w) eqn:Ei; [|done].
    apply idle_true in Ei as [Hin Hb]. injection H as <-. simpl in *.
    assert (w = 0%nat) as -> by (eapply (H0 _ _ Hok'); simpl; by rewrite lookup_insert_eq).
    rewrite lookup_insert_eq. rewrite Hb in Ho. by rewrite Ho.
  - destruct (busy p !! w) as [env|] eqn:Eb; [|done]. injection H as <-. simpl in *.
    assert (w = 0%nat) as -> by (eapply (H0 _ _ Hok); by rewrite Eb).
    rewrite lookup_delete_eq. rewrite Eb in Ho. rewrite Ho, map_app. by rewrite <- app_assoc.
  - destruct (idle p w); [|done]. by injection H as <-.
Qed.

Lemma pool_run_order i l l' p acts p' :
  pool_ok i 1 l p -> in_order l' p -> pool_run p acts = Some p' -> in_order (l' ++ sent acts) p'.
Proof.
  revert l l' p. induction acts as [|[now a] acts IH]; intros l l' p Hok Ho H; simpl in H.
  - simplify_eq. by rewrite app_nil_r.
  - destruct (pool_step now p a) as [p1|] eqn:E; [|done].
    assert (l' ++ sent ((now, a) :: acts) = (l' ++ sends a) ++ sent acts) as ->
      by (rewrite <- app_assoc; by destruct a).
    eapply IH; [by eapply pool_step_ok|by eapply pool_step_order|done].
Qed.

Lemma new_pool_ok cap n i :
  wrap64 (tiReceived i) = tiReceived i -> wrap64 (tiProcessed i) = tiProcessed i ->
  wrap64 (tiFailed i) = tiFailed i -> pool_ok i n [] (new_pool cap n i).
Proof.
  intros H1 H2 H3. split; simpl.
  - done.
  - lia.
  - intros w Hs. rewrite lookup_empty in Hs. by destruct Hs.
  - intros w Hw. apply elem_of_list_to_set, elem_of_seq in Hw. lia.
  - rewrite map_size_empty, Z.add_0_r. by rewrite H1.
  - unfold oks. simpl. rewrite Z.add_0_r. by rewrite H2.
  - unfold oks. simpl. rewrite Z.add_0_r. by rewrite H3.
Qed.

(** C22. Whatever the interleaving of senders and workers on the shared buffer of
    an instance: no message is lost or handled twice (each message sent is in
    the buffer, in the hands of one worker, or handled), the buffer never holds
    more than its capacity, and the counters are the numbers of messages taken,
    processed and failed, at 64 bits. With one worker the messages are handled
    in the order in which they were sent. *)
Theorem worker_pool_invariant cap n i acts p
    (Hcounters : in_int64 (tiReceived i) /\ in_int64 (tiProcessed i) /\ in_int64 (tiFailed i))
    (Hrun : pool_run (new_pool cap n i) acts = Some p) :
  pool_ok i n (sent acts) p /\ (n = 1%nat -> in_order (sent acts) p).
Proof.
  destruct Hcounters as (H1 & H2 & H3).
  assert (pool_ok i n [] (new_pool cap n i)) as Hnew
    by (apply new_pool_ok; by apply wrap64_id).
  split.
  - exact (pool_run_ok _ _ [] _ _ _ Hnew Hrun).
  - intros ->. eapply (pool_run_order _ [] []); [exact Hnew| |exact Hrun].
    unfold in_order, in_hand. simpl. by rewrite map_to_list_empty.
Qed.

Definition demo_instance : TriggerInstance :=
  mkTriggerInstance 5%N 1%N 2%N "kafka" "1.0.0" DefaultTriggerContract None TriggerRunning 0 0 0 0 "" 0 0 0 0 false.

(** Two workers, two messages: the second finishes first. *)
Definition demo_run : list (Z * pool_action) :=
  [(1, Enqueue demo_env); (2, Enqueue (mkEnvelope "{}" ∅ "m2")); (3, Receive 0); (4, Receive 1);
   (5, Return 1 true); (6, Return 0 false)].

Lemma worker_pool_invariant_witness :
  exists p, pool_run (new_pool 2 2 demo_instance) demo_run = Some p /\
    pool_ok demo_instance 2 (sent demo_run) p /\ length (handled p) = 2%nat.
Proof.
  eexists. split; [vm_compute; reflexivity|]. split; [|reflexivity].
  eapply (worker_pool_invariant 2 2 demo_instance demo_run).
  - split_and!; unfold in_int64, int64_min, int64_max; simpl; lia.
  - vm_compute. reflexivity.
Defined.

(** * What the manager of triggers guarantees *)

(** ** Backoff *)

Fixpoint backoffs (config : TriggerManagerConfig) (n : nat) : Z :=
  match n with O => 0 | S n' => next_backoff config (backoffs config n') end.

Lemma backoffs_closed config n :
  (0 < MaxRestartBackoff config)%Z -> (2 * MaxRestartBackoff config <= int64_max)%Z ->
  backoffs config (S n) = Z.min (2 ^ Z.of_nat n * Second) (MaxRestartBackoff config).
Proof.
  intros Hp Hmax. set (max := MaxRestartBackoff config) in *.
  induction n as [|n IH].
  - simpl. unfold next_backoff. fold max. simpl.
    destruct (Z.ltb_spec max Second); [rewrite Z.min_r by lia; done|].
    rewrite Z.min_l by lia. done.
  - change (backoffs config (S (S n))) with (next_backoff config (backoffs config (S n))).
    rewrite IH. unfold next_backoff. fold max.
    set (b := Z.min (2 ^ Z.of_nat n * Second) max).
    assert (0 < 2 ^ Z.of_nat n)%Z by (apply Z.pow_pos_nonneg; lia).
    assert (0 < b)%Z by (unfold b, Second; lia).
    assert (b <= max)%Z by (unfold b; lia).
    destruct (Z.leb_spec b 0); [lia|]. destruct (Z.ltb_spec max b); [lia|].
    destruct (Z.ltb_spec 0 b); [|lia].
    rewrite wrap64_id by (unfold in_int64, int64_min; lia).
    replace (2 ^ Z.of_nat (S n))%Z with (2 * 2 ^ Z.of_nat n)%Z
      by (rewrite Nat2Z.inj_succ, Z.pow_succ_r by lia; lia).
    destruct (Z.ltb_spec max (b * 2)); unfold b in *; lia.
Qed.

(** The [n]-th restart in a row waits for [2^(n-1)] seconds, and never longer
    than the maximum; with the default maximum of a minute, for at most a
    minute. Doubling does not overflow as long as twice the maximum is a
    duration. *)
Theorem restart_backoff_bounded config n
    (Hpos : (0 < MaxRestartBackoff config)%Z) (Hmax : (2 * MaxRestartBackoff config <= int64_max)%Z) :
  backoffs config (S n) = Z.min (2 ^ Z.of_nat n * Second) (MaxRestartBackoff config) /\
  (0 < backoffs config (S n) <= MaxRestartBackoff config)%Z.
Proof.
  pose proof (backoffs_closed config n Hpos Hmax) as E. split; [done|]. rewrite E.
  assert (0 < 2 ^ Z.of_nat n)%Z by (apply Z.pow_pos_nonneg; lia). unfold Second. lia.
Qed.

Definition default_config : TriggerManagerConfig :=
  NewTriggerManager_config (mkTriggerManagerConfig 0 0 0 0 0).

Lemma restart_backoff_bounded_witness :
  backoffs default_config 4 = (8 * Second)%Z /\ (0 < backoffs default_config 4 <= 60 * Second)%Z.
Proof. apply (restart_backoff_bounded default_config 3); vm_compute; [reflexivity|discriminate]. Defined.

Section Manager.
Context `{R : Runtime}.
Context (config : TriggerManagerConfig) (uuid_Parse : string -> result goerr uuid) (has_store : bool).
Context (Get_plugin : option (string * string -> result goerr PluginInfo)).
Context (StartTrigger : nat -> string * string -> uuid -> result goerr unit).
Context (StopTrigger : nat -> string * string -> option (result goerr unit)).
Context (GetQueue : option (string -> result goerr QueueDriverInfo)).
Context (cancelled : nat -> bool).

Local Abbreviation start := (Start uuid_Parse has_store Get_plugin StartTrigger GetQueue).
Local Abbreviation stop := (Stop has_store Get_plugin StopTrigger).
Local Abbreviation restart := (Restart uuid_Parse has_store Get_plugin StartTrigger StopTrigger).
Local Abbreviation restart_later :=
  (restartWithBackoff config uuid_Parse has_store Get_plugin StartTrigger StopTrigger cancelled).

(** ** Rows *)

(** No new row, and rows keep their keys. *)
Definition no_new_row (m m' : Manager) : Prop := dom (trigger_rows m') ⊆ dom (trigger_rows m).

#[local] Instance no_new_row_preorder : PreOrder no_new_row.
Proof. unfold no_new_row. split; [intros m; done|]. intros a b c. set_solver. Qed.

Section NoFault.
Context (Hnofault : forall n, fault n = None).

Lemma persist_no_new_row i : keepsS no_new_row (persist has_store i).
Proof.
  intros w. unfold persist. destruct has_store; [|simpl; reflexivity].
  unfold tryS, Store_Update, wrapS, exec_update, exec, mbind, Svc_bind. rewrite Hnofault. simpl.
  unfold no_new_row. simpl. by rewrite dom_alter_L.
Qed.

Lemma getInstance_keeps {P} `{!PreOrder P} id : keepsS P (getInstance id).
Proof. unfold getInstance. keeps_steps. Qed.

Lemma touch_no_new_row id f : keepsS no_new_row (touch id f).
Proof. unfold touch. keeps_steps. apply keepsS_changes. intros t. unfold no_new_row. done. Qed.

Lemma call_no_new_row c : keepsS no_new_row (changes (add_call c)).
Proof. apply keepsS_changes. intros t. unfold no_new_row. done. Qed.

Lemma instances_no_new_row f : keepsS no_new_row (changes (set_instances f)).
Proof. apply keepsS_changes. intros t. unfold no_new_row. done. Qed.

Lemma persist_id_no_new_row id : keepsS no_new_row (persist_id has_store id).
Proof. unfold persist_id. keeps_steps; [apply getInstance_keeps|apply persist_no_new_row]. Qed.

Ltac rows :=
  repeat first
    [ keeps_step
    | apply getInstance_keeps | apply touch_no_new_row | apply persist_id_no_new_row
    | apply persist_no_new_row | apply call_no_new_row | apply instances_no_new_row ].

(** As long as the statements of the database succeed, no operation of the
    manager writes a row for a trigger: the record is created only when the
    update of a row that does not exist reports an error, which it does not. *)
Theorem trigger_rows_never_created :
  (forall channelID ref cfg, keepsS no_new_row (start channelID ref cfg)) /\
  (forall id, keepsS no_new_row (stop id)) /\
  (forall id, keepsS no_new_row (restart id)) /\
  (forall id, keepsS no_new_row (restart_later id)).
Proof.
  assert (forall ref t, keepsS no_new_row (start_plugin StartTrigger ref t)) as Hsp
    by (intros; unfold start_plugin; rows).
  assert (forall id, keepsS no_new_row (stop id)) as Hstop by (intros; unfold Stop; rows).
  assert (forall id, keepsS no_new_row (restart id)) as Hre
    by (intros; unfold Restart; rows; (apply Hsp || apply Hstop)).
  split_and!; [|done..|].
  - intros. unfold Start. rows.
  - intros. unfold restartWithBackoff. rows. apply Hre.
Qed.
End NoFault.

(** ** Starting and stopping *)

(** Rows aside, the same manager. *)
Definition same_but_rows (m m' : Manager) : Prop :=
  instances m' = instances m /\ plugin_calls m' = plugin_calls m.

Lemma persist_same i w : same_but_rows (st w) (st (persist has_store i w).2).
Proof.
  unfold persist. destruct has_store; [|done].
  unfold tryS, ignoreS, Store_Update, Store_Create, wrapS, exec_update, exec, mbind, Svc_bind.
  destruct (fault (ticks w)); simpl; [|done]. destruct (fault (S (ticks w))); simpl; [done|].
  by case_decide.
Qed.

Lemma persist_id_run id i w :
  instances (st w) !! id = Some i ->
  exists w', persist_id has_store id w = (Ok tt, w') /\ same_but_rows (st w) (st w').
Proof.
  intros Hi. unfold persist_id, getInstance, reads, mbind, Svc_bind. simpl. rewrite Hi. simpl.
  pose proof (persist_same i w) as Hs. destruct (persist has_store i w) as [[[]|e] w'] eqn:E.
  - by exists w'.
  - exfalso. revert E. unfold persist. destruct has_store; [|done].
    unfold tryS, ignoreS, mbind, Svc_bind. destruct (Store_Update (record_of i) w) as [[]]; done.
Qed.

Lemma getInstance_run id w :
  getInstance id w = (match instances (st w) !! id with
                      | Some i => Ok i | None => Err ErrTriggerInstanceNotFound end, w).
Proof. unfold getInstance, reads, mbind, Svc_bind. simpl. by destruct (instances (st w) !! id). Qed.

Lemma touch_run id f w i :
  instances (st w) !! id = Some i ->
  touch id f w = (Ok tt, mkSys (set_instances (<[id := f (wall_clock (ticks w)) i]>) (st w)) (S (ticks w))).
Proof.
  intros Hi. unfold touch, nowS, changes, mbind, Svc_bind. simpl. unfold set_instances.
  by rewrite (alter_alt_Some _ _ _ _ Hi).
Qed.

(** What [Stop] does to an instance that is there. *)
Definition stop_outcome (r : option (result goerr unit)) : TriggerStatus * result goerr unit :=
  match r with
  | Some (Err e) => (TriggerError, Err e)
  | _ => (TriggerStopped, Ok tt)
  end.

(** An instance of the same plugin and configuration, with the same counts. *)
Definition same_instance (i i' : TriggerInstance) : Prop :=
  tiID i' = tiID i /\ tiTenant i' = tiTenant i /\ tiChannel i' = tiChannel i /\ tiPlugin i' = tiPlugin i /\
  tiVersion i' = tiVersion i /\ tiConfig i' = tiConfig i /\ tiRestartCount i' = tiRestartCount i /\
  tiReceived i' = tiReceived i /\ tiProcessed i' = tiProcessed i /\ tiFailed i' = tiFailed i.

Lemma touch_persist id f w i :
  instances (st w) !! id = Some i ->
  exists w', (_ ← touch id f; persist_id has_store id) w = (Ok tt, w') /\
    instances (st w') = <[id := f (wall_clock (ticks w)) i]> (instances (st w)) /\
    plugin_calls (st w') = plugin_calls (st w).
Proof.
  intros Hi. rewrite (bindS_Ok _ _ _ _ _ (touch_run id f w i Hi)).
  match goal with |- context [persist_id has_store id ?v] =>
    destruct (persist_id_run id (f (wall_clock (ticks w)) i) v) as (w' & E & Es & Ec)
  end; [simpl; by rewrite lookup_insert_eq|].
  exists w'. by rewrite E, Es, Ec.
Qed.

Lemma Stop_run id w i get :
  Get_plugin = Some get -> instances (st w) !! id = Some i ->
  exists k i', let '(status, res) := stop_outcome (StopTrigger k (tiPlugin i, tiVersion i)) in
    (stop id w).1 = res /\
    instances (st (stop id w).2) = <[id := i']> (instances (st w)) /\
    tiStatus i' = status /\ same_instance i i' /\
    plugin_calls (st (stop id w).2) = plugin_calls (st w) ++ [CallStop (tiPlugin i) (tiVersion i)].
Proof.
  intros Hg Hi.
  set (i1 := setStatus TriggerStopping "" (wall_clock (ticks w)) i).
  set (v := mkSys (add_call (CallStop (tiPlugin i) (tiVersion i))
    (set_instances (<[id := i1]>) (st w))) (S (S (ticks w)))).
  assert (instances (st v) !! id = Some i1) as Hv by (simpl; by rewrite lookup_insert_eq).
  assert (stop id w = match StopTrigger (S (ticks w)) (tiPlugin i, tiVersion i) with
    | Some (Err e) => _ ← touch id (setStatus TriggerError (Error e)); _ ← persist_id has_store id; fail e
    | None => _ ← touch id (setStatus TriggerStopped "graceful stop timeout; forced stop");
              persist_id has_store id
    | Some (Ok _) => _ ← touch id (setStatus TriggerStopped ""); persist_id has_store id
    end v) as ->.
  { unfold Stop. rewrite Hg.
    assert (getInstance id w = (Ok i, w)) as E1 by (by rewrite getInstance_run, Hi).
    rewrite (bindS_Ok _ _ _ _ _ E1), (bindS_Ok _ _ _ _ _ (touch_run id _ w i Hi)). reflexivity. }
  exists (S (ticks w)). destruct (StopTrigger (S (ticks w)) (tiPlugin i, tiVersion i)) as [[[]|e]|];
    cbn [stop_outcome].
  - destruct (touch_persist id (setStatus TriggerStopped "") v i1 Hv) as (w' & E & Ei & Ec).
    rewrite E. simpl. rewrite Ei, Ec. simpl. rewrite insert_insert_eq.
    eexists. split_and!; [done|reflexivity|done|by split_and!|done].
  - destruct (touch_persist id (setStatus TriggerError (Error e)) v i1 Hv) as (w' & E & Ei & Ec).
    rewrite (bindS_Ok _ _ _ _ _ (touch_run id _ v i1 Hv)).
    rewrite (bindS_Ok _ _ _ _ _ (touch_run id _ v i1 Hv)) in E. rewrite (bindS_Ok _ _ _ _ _ E).
    simpl. rewrite Ei, Ec. simpl. rewrite insert_insert_eq.
    eexists. split_and!; [done|reflexivity|done|by split_and!|done].
  - destruct (touch_persist id (setStatus TriggerStopped "graceful stop timeout; forced stop") v i1 Hv)
      as (w' & E & Ei & Ec).
    rewrite E. simpl. rewrite Ei, Ec. simpl. rewrite insert_insert_eq.
    eexists. split_and!; [done|reflexivity|done|by split_and!|done].
Qed.

(** What a restart of an instance [i] leaves, by its result. *)
Definition restart_effect (id : uuid) (i : TriggerInstance) (m m' : Manager) (r : result goerr unit) : Prop :=
  exists i', instances m' = <[id := i']> (instances m) /\
  match r with
  | Ok _ =>
      tiStatus i' = TriggerRunning /\ tiStoppedAt i' = time_zero /\
      tiRestartCount i' = (tiRestartCount i + 1)%Z /\
      exists meta, triggerConfigMetaFromJSON uuid_Parse (tiConfig i) = Ok meta /\
        plugin_calls m' = plugin_calls m ++
          [CallStop (tiPlugin i) (tiVersion i); CallStart (tiPlugin i) (tiVersion i) (metaTenantID meta)]
  | Err _ =>
      (tiStatus i' = TriggerStopped \/ tiStatus i' = TriggerError) /\ tiRestartCount i' = tiRestartCount i
  end.

Lemma start_after_stop id i i1 meta w :
  instances (st w) !! id = Some i1 -> same_instance i i1 ->
  triggerConfigMetaFromJSON uuid_Parse (tiConfig i) = Ok meta ->
  let run := (started ← tryS (start_plugin StartTrigger (tiPlugin i, tiVersion i) (metaTenantID meta));
              match started with
              | Err e => _ ← touch id (setStatus TriggerError (Error e)); _ ← persist_id has_store id; fail e
              | Ok _ => _ ← touch id restarted; persist_id has_store id
              end) w in
  exists i2, instances (st run.2) = <[id := i2]> (instances (st w)) /\
    match run.1 with
    | Ok _ => tiStatus i2 = TriggerRunning /\ tiStoppedAt i2 = time_zero /\
        tiRestartCount i2 = (tiRestartCount i + 1)%Z /\
        plugin_calls (st run.2) =
          plugin_calls (st w) ++ [CallStart (tiPlugin i) (tiVersion i) (metaTenantID meta)]
    | Err _ => tiStatus i2 = TriggerError /\ tiRestartCount i2 = tiRestartCount i
    end.
Proof.
  intros Hi Hs Hm. destruct Hs as (_ & _ & _ & _ & _ & _ & Hc & _).
  set (v := mkSys (add_call (CallStart (tiPlugin i) (tiVersion i) (metaTenantID meta)) (st w)) (S (ticks w))).
  assert (tryS (start_plugin StartTrigger (tiPlugin i, tiVersion i) (metaTenantID meta)) w =
    (Ok (StartTrigger (ticks w) (tiPlugin i, tiVersion i) (metaTenantID meta)), v)) as E0 by done.
  assert (instances (st v) !! id = Some i1) as Hv by done.
  cbn zeta. rewrite (bindS_Ok _ _ _ _ _ E0).
  destruct (StartTrigger _ _ _) as [[]|e].
  - destruct (touch_persist id restarted v i1 Hv) as (w' & E & Ei & Ec). rewrite E. simpl.
    rewrite Ei, Ec. eexists. split; [reflexivity|]. simpl. rewrite Hc. done.
  - destruct (touch_persist id (setStatus TriggerError (Error e)) v i1 Hv) as (w' & E & Ei & Ec).
    rewrite (bindS_Ok _ _ _ _ _ (touch_run id _ v i1 Hv)).
    rewrite (bindS_Ok _ _ _ _ _ (touch_run id _ v i1 Hv)) in E. rewrite (bindS_Ok _ _ _ _ _ E). simpl.
    rewrite Ei. eexists. split; [reflexivity|]. simpl. by rewrite Hc.
Qed.

Lemma Restart_effect id w i get :
  Get_plugin = Some get -> instances (st w) !! id = Some i ->
  restart_effect id i (st w) (st (restart id w).2) (restart id w).1.
Proof.
  intros Hg Hi. destruct (Stop_run id w i get Hg Hi) as (k & i1 & H).
  assert (getInstance id w = (Ok i, w)) as E1 by (by rewrite getInstance_run, Hi).
  unfold Restart. rewrite (bindS_Ok _ _ _ _ _ E1).
  destruct (stop id w) as [r w1] eqn:E2. cbn [fst snd] in H.
  destruct (stop_outcome _) as [status res] eqn:Eo. destruct H as (-> & Hins & Hst & Hsame & Hcalls).
  unfold restart_effect. destruct res as [[]|e]; cycle 1.
  { rewrite (bindS_Err _ _ _ _ _ E2). simpl. exists i1. split; [done|]. rewrite Hst.
    split; [|apply Hsame]. destruct (StopTrigger _ _) as [[[]|e']|]; simplify_eq/=; auto. }
  rewrite (bindS_Ok _ _ _ _ _ E2).
  destruct (triggerConfigMetaFromJSON uuid_Parse (tiConfig i)) as [meta|e] eqn:Em; cycle 1.
  { simpl. exists i1. split; [done|]. rewrite Hst. split; [|apply Hsame].
    destruct (StopTrigger _ _) as [[[]|e']|]; simplify_eq/=; auto. }
  assert (pureS (T := Manager) (Ok meta : result goerr triggerConfigMeta) w1 = (Ok meta, w1)) as E3 by done.
  rewrite (bindS_Ok _ _ _ _ _ E3).
  destruct (start_after_stop id i i1 meta w1) as (i2 & Hi2 & H2); [|done..|].
  { rewrite Hins. by rewrite lookup_insert_eq. }
  cbn zeta in Hi2, H2. exists i2. rewrite Hi2, Hins, insert_insert_eq. split; [done|].
  destruct (_ w1).1 as [[]|e].
  - destruct H2 as (? & ? & ? & Hc2). split_and!; try done. exists meta. split; [done|].
    by rewrite Hc2, Hcalls, <- app_assoc.
  - destruct H2. auto.
Qed.

(** Restarting an instance stops its plugin and only then starts it again,
    for the tenant of its configuration. When it succeeds the instance is
    running and counts one restart more; when it fails the instance is stopped
    or in error and counts none; no other instance changes. *)
Theorem Restart_correct id w i get
    (Hruntime : Get_plugin = Some get) (Hinst : instances (st w) !! id = Some i) :
  restart_effect id i (st w) (st (restart id w).2) (restart id w).1.
Proof. exact (Restart_effect id w i get Hruntime Hinst). Qed.

(** A restart by the health monitor counts twice: once when the wait is
    scheduled and once when the instance is started again. *)
Theorem backoff_restart_counts_twice id w i get
    (Hruntime : Get_plugin = Some get) (Hinst : instances (st w) !! id = Some i)
    (Hgo : cancelled (ticks w) = false)
    (Hok : (restart id (mkSys (set_instances (alter (back_off config) id) (st w)) (S (ticks w)))).1 = Ok tt) :
  exists i', instances (st (restart_later id w).2) !! id = Some i' /\
    tiRestartCount i' = (tiRestartCount i + 2)%Z.
Proof.
  set (v := mkSys (set_instances (alter (back_off config) id) (st w)) (S (ticks w))) in *.
  assert (instances (st v) !! id = Some (back_off config i)) as Hv
    by (simpl; by rewrite lookup_alter_eq, Hinst).
  pose proof (Restart_effect id v _ get Hruntime Hv) as (i' & Hi & H). rewrite Hok in H.
  exists i'. assert (tryS (getInstance id) w = (Ok (Ok i), w)) as Eg
    by (unfold tryS; by rewrite getInstance_run, Hinst).
  unfold restartWithBackoff. rewrite (bindS_Ok _ _ _ _ _ Eg).
  unfold mbind, Svc_bind, changes, callS, ignoreS. cbn [ticks st fst snd]. rewrite Hgo.
  cbn [fst snd]. fold v. rewrite Hi, lookup_insert_eq. split; [done|].
  destruct H as (_ & _ & -> & _). simpl. lia.
Qed.
End Manager.

(** ** Examples *)

Module TriggerExample.
Definition cfg : option (result goerr json) := Some (Ok (JObj [("tenant_id", JStr "t")])).
Definition inst : TriggerInstance :=
  mkTriggerInstance 5%N 1%N 2%N "kafka" "1.0.0" DefaultTriggerContract cfg TriggerError 0 0 3 0 "lost" 0 0 0 0 false.
Definition manager : Manager := mkManager {[5%N := inst]} ∅ ∅ [] [].
Definition w0 : Sys Manager := mkSys manager 0.
Definition get (_ : string * string) : result goerr PluginInfo := Ok (mkPluginInfo "kafka" "1.0.0" true None).
Definition parse (_ : string) : result goerr uuid := Ok 1%N.

Lemma Restart_correct_witness :
  exists i', instances (st (@Restart example_runtime parse true (Some get) (fun _ _ _ => Ok tt)
    (fun _ _ => Some (Ok tt)) 5%N w0).2) = <[5%N := i']> (instances manager) /\
    tiStatus i' = TriggerRunning /\ tiRestartCount i' = 4%Z.
Proof.
  pose proof (@Restart_correct example_runtime parse true (Some get) (fun _ _ _ => Ok tt)
    (fun _ _ => Some (Ok tt)) 5%N w0 inst get eq_refl eq_refl) as (i' & H1 & H2).
  exists i'. split; [exact H1|].
  assert ((@Restart example_runtime parse true (Some get) (fun _ _ _ => Ok tt)
    (fun _ _ => Some (Ok tt)) 5%N w0).1 = Ok tt) as E by (vm_compute; reflexivity).
  rewrite E in H2. destruct H2 as (? & _ & ? & _). by split.
Defined.

Lemma backoff_restart_counts_twice_witness :
  exists i', instances (st (@restartWithBackoff example_runtime default_config parse true (Some get)
    (fun _ _ _ => Ok tt) (fun _ _ => Some (Ok tt)) (fun _ => false) 5%N w0).2) !! 5%N = Some i' /\
    tiRestartCount i' = 5%Z.
Proof.
  refine (@backoff_restart_counts_twice example_runtime default_config parse true (Some get)
    (fun _ _ _ => Ok tt) (fun _ _ => Some (Ok tt)) (fun _ => false) 5%N w0 inst get eq_refl eq_refl eq_refl _).
  vm_compute. reflexivity.
Defined.

Lemma trigger_rows_never_created_witness :
  trigger_rows (st (@Start example_runtime parse true (Some get) (fun _ _ _ => Ok tt) None
    7%N ("kafka", "1.0.0") cfg w0).2) = ∅.
Proof.
  pose proof (@trigger_rows_never_created example_runtime default_config parse true (Some get)
    (fun _ _ _ => Ok tt) (fun _ _ => Some (Ok tt)) None (fun _ => false) (fun _ => eq_refl)) as (H & _).
  specialize (H 7%N ("kafka", "1.0.0") cfg w0). unfold no_new_row in H.
  change (trigger_rows (st w0)) with (∅ : gmap uuid TriggerInstanceRecord) in H.
  apply dom_empty_inv_L. set_solver.
Defined.
End TriggerExample.
