(* ===== verification/Rbac.v ===== *)
(** * Access control: roles, principals, permissions ([internal/rbac])

    The tables of access control and the cache of permissions, the decision
    [Authorize] and the administration of roles and principals. Rows have the
    constraints of the migrations; password hashing, random keys and SHA-256 are
    parameters. Names and permissions are ordered as bytes. *)

From S2P Require Import Prelude GoStrings Json EngineTypes Store TaskForms GoText Effects.

(** ** Tables *)

Record PrincipalRow : Type := mkPrincipalRow {
  pTenant : uuid;
  pType : string;
  pName : string;
  pEmail : option string;
  pPasswordHash : option string;
  pApiKeyHash : option string;
  pStatus : string;
  pMetadata : json;
  pCreatedAt : Z
}.

Record RoleRow : Type := mkRoleRow {
  rTenant : uuid;
  rName : string;
  rDescription : string;
  rCreatedAt : Z
}.

Record SessionRow : Type := mkSessionRow {
  sePrincipal : uuid;
  seTokenHash : string;
  seExpiresAt : Z
}.

Record TenantRow : Type := mkTenantRow {
  tName : string;
  tSlug : string;
  tBranding : json;
  tTerminology : json;
  tSettings : json
}.

Record ThemeRow : Type := mkThemeRow {
  thTenant : uuid;
  thName : string;
  thKey : string;
  thMode : string;
  thOverrides : json;
  thIsDefault : bool;
  thSortOrder : Z
}.

Record PreferenceRow : Type := mkPreferenceRow {
  upTheme : option uuid;
  upLocale : string;
  upNotifications : json;
  upPreferences : json;
  upUpdatedAt : Z
}.

Record authEvent : Type := mkAuthEvent {
  aeTenant : option uuid;
  aePrincipal : option uuid;
  aeType : string;
  aeSuccess : bool;
  aePermission : string;
  aePath : string;
  aeData : object
}.

Record cachedPermissions : Type := mkCachedPermissions {
  cpPermissions : gset string;
  cpLoadedAt : Z
}.

Record Access : Type := mkAccess {
  tenants : gmap uuid TenantRow;
  principals : gmap uuid PrincipalRow;
  roles : gmap uuid RoleRow;
  role_permissions : gset (uuid * string);
  principal_roles : gset (uuid * uuid);
  sessions : gmap uuid SessionRow;
  themes : gmap uuid ThemeRow;
  user_preferences : gmap uuid PreferenceRow;
  auth_events : list authEvent;
  perm_cache : gmap uuid cachedPermissions
}.

Definition set_principals f (a : Access) : Access :=
  mkAccess (tenants a) (f (principals a)) (roles a) (role_permissions a) (principal_roles a) (sessions a)
    (themes a) (user_preferences a) (auth_events a) (perm_cache a).
Definition set_roles f (a : Access) : Access :=
  mkAccess (tenants a) (principals a) (f (roles a)) (role_permissions a) (principal_roles a) (sessions a)
    (themes a) (user_preferences a) (auth_events a) (perm_cache a).
Definition set_permissions f (a : Access) : Access :=
  mkAccess (tenants a) (principals a) (roles a) (f (role_permissions a)) (principal_roles a) (sessions a)
    (themes a) (user_preferences a) (auth_events a) (perm_cache a).
Definition set_assignments f (a : Access) : Access :=
  mkAccess (tenants a) (principals a) (roles a) (role_permissions a) (f (principal_roles a)) (sessions a)
    (themes a) (user_preferences a) (auth_events a) (perm_cache a).
Definition set_sessions f (a : Access) : Access :=
  mkAccess (tenants a) (principals a) (roles a) (role_permissions a) (principal_roles a) (f (sessions a))
    (themes a) (user_preferences a) (auth_events a) (perm_cache a).
Definition set_preferences f (a : Access) : Access :=
  mkAccess (tenants a) (principals a) (roles a) (role_permissions a) (principal_roles a) (sessions a)
    (themes a) (f (user_preferences a)) (auth_events a) (perm_cache a).
Definition add_event (e : authEvent) (a : Access) : Access :=
  mkAccess (tenants a) (principals a) (roles a) (role_permissions a) (principal_roles a) (sessions a)
    (themes a) (user_preferences a) (auth_events a ++ [e]) (perm_cache a).
Definition set_cache f (a : Access) : Access :=
  mkAccess (tenants a) (principals a) (roles a) (role_permissions a) (principal_roles a) (sessions a)
    (themes a) (user_preferences a) (auth_events a) (f (perm_cache a)).

(** [SELECT name FROM roles ... ORDER BY name] and the like *)
Definition sort_strings (l : list string) : list string := merge_sort String.le l.

(** [NULLIF(s, '')] *)
Definition nullif (s : string) : option string := if decide (s = "") then None else Some s.

(** ** Decisions ([rbac.go]) *)

Definition DefaultPermissionTTL : Z := 60 * Second.
Definition ErrForbidden : goerr := Errorf "forbidden" [].

(** The rows of the query of [loadPermissions]. *)
Definition permission_rows (a : Access) (principalID : uuid) : gset string :=
  match principals a !! principalID with
  | Some p =>
      if decide (pStatus p = "active") then
        set_omap (fun rp : uuid * string =>
          if decide ((principalID, rp.1) ∈ principal_roles a) then
            match roles a !! rp.1 with
            | Some r => if decide (rTenant r = pTenant p) then Some rp.2 else None
            | None => None
            end
          else None) (role_permissions a)
      else ∅
  | None => ∅
  end.

(** [requested[:idx]+":*"] when a colon comes after the first byte *)
Definition wildcard (requested : string) : option string :=
  match IndexByte ":"%char requested with
  | Some (S i) => Some (String.substring 0 (S i) requested +:+ ":*")
  | _ => None
  end.

Definition hasPermission (perms : gset string) (requested : string) : bool :=
  bool_decide (requested ∈ perms) || bool_decide ("*" ∈ perms) ||
  match wildcard requested with Some p => bool_decide (p ∈ perms) | None => false end.

Section Service.
Context `{R : Runtime}.
Context (ttl : Z).

(** [PermissionCache.get] *)
Definition cache_get (principalID : uuid) : Svc Access (option cachedPermissions) :=
  cp ← reads (fun a => perm_cache a !! principalID);
  match cp with
  | None => mret None
  | Some cp =>
      now ← nowS;
      mret (if (ttl <? time_Sub now (cpLoadedAt cp))%Z then None else Some cp)
  end.

(** [PermissionCache.set] *)
Definition cache_set (principalID : uuid) (perms : gset string) : Svc Access unit :=
  now ← nowS; changes (set_cache (<[principalID := mkCachedPermissions perms now]>)).

Definition Invalidate (principalID : uuid) : Svc Access unit := changes (set_cache (delete principalID)).
Definition InvalidateMany (principalIDs : gset uuid) : Svc Access unit :=
  changes (set_cache (filter (fun kv => kv.1 ∉ principalIDs))).

Definition loadPermissions (principalID : uuid) : Svc Access (gset string) :=
  wrapS (Wrapf "query permissions: %w" []) (select (fun _ a => permission_rows a principalID)).

Definition Authorize (principalID : uuid) (permission : string) : Svc Access unit :=
  cp ← cache_get principalID;
  match cp with
  | Some cp => guardS (hasPermission (cpPermissions cp) permission) ErrForbidden
  | None =>
      perms ← loadPermissions principalID;
      _ ← cache_set principalID perms;
      guardS (hasPermission perms permission) ErrForbidden
  end.

Definition assigned_to (roleID : uuid) (a : Access) : gset uuid :=
  set_omap (fun pr : uuid * uuid => if decide (pr.2 = roleID) then Some pr.1 else None) (principal_roles a).

Definition invalidatePrincipalsForRole (roleID : uuid) : Svc Access unit :=
  ids ← wrapS (Wrapf "query principals for role invalidation: %w" [])
    (select (fun _ a => assigned_to roleID a));
  InvalidateMany ids.

(** ** Roles ([roles.go]) *)

Record Role : Type := mkRole {
  roID : uuid;
  roleRow : RoleRow;
  rolePermissions : list string
}.

Record CreateRoleRequest : Type := mkCreateRoleRequest {
  crName : string;
  crDescription : string;
  crPermissions : list string
}.

(** [UNIQUE(tenant_id, name)] *)
Definition insert_role (id : uuid) (row : RoleRow) (a : Access) : result goerr Access :=
  if decide (is_Some (roles a !! id)) then Err unique_error
  else if existsb (fun kr => bool_decide (rTenant kr.2 = rTenant row) && bool_decide (rName kr.2 = rName row))
            (map_to_list (roles a)) then Err unique_error
  else Ok (set_roles (<[id := row]>) a).

Definition replacePermissionsTx (roleID : uuid) (permissions : list string) : Svc Access unit :=
  _ ← wrapS (Wrapf "clear role permissions: %w" [])
    (exec_update (fun _ a => set_permissions (filter (fun rp => rp.1 <> roleID)) a));
  forS (fun perm =>
    wrapS (Wrapf "insert role permission %q: %w" [perm])
      (exec_update (fun _ a => set_permissions (union {[(roleID, perm)]}) a))) permissions.

Definition CreateRole (tenantID : uuid) (req : CreateRoleRequest) : Svc Access Role :=
  _ ← guardS (negb (bool_decide (crName req = ""))) (Errorf "name is required" []);
  transactS "begin create role tx: %w" (fun now =>
    let row := mkRoleRow tenantID (crName req) (crDescription req) now in
    id ← wrapS (Wrapf "insert role: %w" [])
      (exec (fun k _ a =>
         let id := gen_random_uuid k in a' ← insert_role id row a; Ok (id, a')));
    _ ← replacePermissionsTx id (crPermissions req);
    mret (mkRole id row (crPermissions req), "commit create role tx: %w")).

(** A role of the tenant. *)
Definition role_of (tenantID roleID : uuid) (a : Access) : option RoleRow :=
  match roles a !! roleID with
  | Some r => if decide (rTenant r = tenantID) then Some r else None
  | None => None
  end.

Definition listRolePermissions (roleID : uuid) : Svc Access (list string) :=
  wrapS (Wrapf "list role permissions: %w" [])
    (select (fun _ a => sort_strings (omap (fun rp : uuid * string =>
       if decide (rp.1 = roleID) then Some rp.2 else None) (elements (role_permissions a))))).

Definition role_name_le (x y : uuid * RoleRow) : Prop := String.le (rName x.2) (rName y.2).
#[export] Instance role_name_le_dec : RelDecision role_name_le.
Proof. intros x y. unfold role_name_le. apply _. Defined.

Definition ListRoles (tenantID : uuid) : Svc Access (list Role) :=
  rows ← wrapS (Wrapf "list roles: %w" [])
    (select (fun _ a => merge_sort role_name_le
       (filter (fun kr => rTenant kr.2 = tenantID) (map_to_list (roles a)))));
  mapS (fun kr : uuid * RoleRow =>
    perms ← listRolePermissions kr.1; mret (mkRole kr.1 kr.2 perms)) rows.

Definition UpdateRolePermissions (tenantID roleID : uuid) (permissions : list string) : Svc Access Role :=
  row ← transactS "begin update role permissions tx: %w" (fun _ =>
    row ← wrapS (fun err => if errors_is err ErrNoRows then ErrNoRows
                            else Wrapf "load role for permission update: %w" [] err)
      (select_row (fun _ a => role_of tenantID roleID a));
    _ ← replacePermissionsTx roleID permissions;
    mret (row, "commit update role permissions tx: %w"));
  _ ← invalidatePrincipalsForRole roleID;
  mret (mkRole roleID row permissions).

Definition DeleteRole (tenantID roleID : uuid) : Svc Access unit :=
  ids ← transactS "begin delete role tx: %w" (fun _ =>
    ids ← wrapS (Wrapf "query principals for role delete invalidation: %w" [])
      (select (fun _ a => if role_of tenantID roleID a then assigned_to roleID a else ∅));
    _ ← wrapS (Wrapf "delete principal role assignments: %w" [])
      (exec_update (fun _ a => set_assignments (filter (fun pr => pr.2 <> roleID)) a));
    _ ← wrapS (Wrapf "delete role permissions: %w" [])
      (exec_update (fun _ a => set_permissions (filter (fun rp => rp.1 <> roleID)) a));
    affected ← wrapS (Wrapf "delete role: %w" [])
      (exec (fun _ _ a => match role_of tenantID roleID a with
                          | Some _ => Ok (true, set_roles (delete roleID) a)
                          | None => Ok (false, a)
                          end));
    _ ← guardS affected ErrNoRows;
    mret (ids, "commit delete role tx: %w"));
  InvalidateMany ids.

(** ** Principals ([principals.go]) *)

Record Principal : Type := mkPrincipal {
  prID : uuid;
  prRow : PrincipalRow;
  prRoles : list string
}.

Record CreatePrincipalRequest : Type := mkCreatePrincipalRequest {
  cpType : string;
  cpName : string;
  cpEmail : string;
  cpPassword : string;
  cpRoles : list string;
  cpMetadata : option json
}.

Record UpdatePrincipalRequest : Type := mkUpdatePrincipalRequest {
  uName : option string;
  uEmail : option string;
  uStatus : option string;
  uRoles : option (list string)
}.

(** bcrypt (a hash may fail), and the random bytes of a key in hexadecimal *)
Context (bcrypt_hash : nat -> string -> result goerr string) (random_hex : nat -> result goerr string).

Definition hashSecret (secret : string) : string := sha256_hex secret.

Definition GenerateAPIKey (k : nat) : result goerr (string * string) :=
  raw ← random_hex k;
  let plaintext := "acx_key_" +:+ raw in Ok (plaintext, hashSecret plaintext).

(** [UNIQUE(tenant_id, email)]; rows without an email do not conflict. *)
Definition email_taken (tenantID : uuid) (email : option string) (except : option uuid) (a : Access) : bool :=
  match email with
  | None => false
  | Some e =>
      existsb (fun kr => bool_decide (pTenant kr.2 = tenantID) && bool_decide (pEmail kr.2 = Some e) &&
                         negb (bool_decide (Some kr.1 = except))) (map_to_list (principals a))
  end.

Definition insert_principal (id : uuid) (row : PrincipalRow) (a : Access) : result goerr Access :=
  if decide (is_Some (principals a !! id)) then Err unique_error
  else if email_taken (pTenant row) (pEmail row) None a then Err unique_error
  else Ok (set_principals (<[id := row]>) a).

Definition role_named (tenantID : uuid) (name : string) (a : Access) : option uuid :=
  fst <$> head (filter (fun kr => rTenant kr.2 = tenantID /\ rName kr.2 = name) (map_to_list (roles a))).

Definition replacePrincipalRolesTx (tenantID principalID : uuid) (roleNames : list string) : Svc Access unit :=
  _ ← wrapS (Wrapf "clear principal roles: %w" [])
    (exec_update (fun _ a => set_assignments (filter (fun pr => pr.1 <> principalID)) a));
  forS (fun roleName =>
    roleID ← wrapS (fun err => if errors_is err ErrNoRows then Errorf "role %q not found" [roleName]
                               else Wrapf "resolve role %q: %w" [roleName] err)
      (select_row (fun _ a => role_named tenantID roleName a));
    wrapS (Wrapf "assign role %q: %w" [roleName])
      (exec_update (fun _ a => set_assignments (union {[(principalID, roleID)]}) a))) roleNames.

Definition role_names (principalID : uuid) (a : Access) : list string :=
  sort_strings (omap (fun pr : uuid * uuid =>
    if decide (pr.1 = principalID) then rName <$> roles a !! pr.2 else None) (elements (principal_roles a))).

Definition listPrincipalRoleNames (principalID : uuid) : Svc Access (list string) :=
  wrapS (Wrapf "query principal role names: %w" []) (select (fun _ a => role_names principalID a)).

(** The secrets of a new principal: a password hash, or a key and its hash. *)
Definition new_secrets (req : CreatePrincipalRequest) : Svc Access (option string * string * string) :=
  if decide (cpType req = "human") then
    _ ← guardS (negb (bool_decide (cpEmail req = "") || bool_decide (cpPassword req = "")))
      (Errorf "email and password are required for human principals" []);
    h ← wrapS (Wrapf "hash principal password: %w" []) (callS (fun k => bcrypt_hash k (cpPassword req)));
    mret (Some h, "", "")
  else
    kh ← wrapS (Wrapf "generate api key: %w" []) (callS GenerateAPIKey);
    mret (None, kh.1, kh.2).

Definition CreatePrincipal (tenantID : uuid) (req : CreatePrincipalRequest) : Svc Access (Principal * string) :=
  _ ← guardS (negb (bool_decide (cpName req = ""))) (Errorf "name is required" []);
  _ ← guardS (bool_decide (cpType req = "human") || bool_decide (cpType req = "agent"))
    (Errorf "type must be human or agent" []);
  created ← transactS "begin create principal tx: %w" (fun now =>
    secrets ← new_secrets req;
    let '(passwordHash, apiKeyPlaintext, apiKeyHash) := secrets in
    let row := mkPrincipalRow tenantID (cpType req) (cpName req)
                 (nullif (ToLower (TrimSpace (cpEmail req)))) passwordHash (nullif apiKeyHash) "active"
                 (default (JObj []) (cpMetadata req)) now in
    id ← wrapS (Wrapf "insert principal: %w" [])
      (exec (fun k _ a =>
         let id := gen_random_uuid k in a' ← insert_principal id row a; Ok (id, a')));
    _ ← replacePrincipalRolesTx tenantID id (cpRoles req);
    mret ((id, row, apiKeyPlaintext), "commit create principal tx: %w"));
  let '(id, row, key) := created in
  _ ← Invalidate id;
  names ← tryS (listPrincipalRoleNames id);
  mret (mkPrincipal id row (match names with Ok l => l | Err _ => [] end), key).

Definition principal_of (tenantID principalID : uuid) (a : Access) : option PrincipalRow :=
  match principals a !! principalID with
  | Some p => if decide (pTenant p = tenantID) then Some p else None
  | None => None
  end.

Definition created_desc (x y : uuid * PrincipalRow) : Prop := (pCreatedAt y.2 <= pCreatedAt x.2)%Z.
#[export] Instance created_desc_dec : RelDecision created_desc.
Proof. intros x y. unfold created_desc. apply _. Defined.

Definition ListPrincipals (tenantID : uuid) : Svc Access (list Principal) :=
  rows ← wrapS (Wrapf "list principals: %w" [])
    (select (fun _ a => merge_sort created_desc
       (filter (fun kr => pTenant kr.2 = tenantID) (map_to_list (principals a)))));
  mapS (fun kr : uuid * PrincipalRow =>
    names ← listPrincipalRoleNames kr.1; mret (mkPrincipal kr.1 kr.2 names)) rows.

Definition GetPrincipal (tenantID principalID : uuid) : Svc Access Principal :=
  row ← select_row (fun _ a => principal_of tenantID principalID a);
  names ← listPrincipalRoleNames principalID;
  mret (mkPrincipal principalID row names).

Definition with_name (n : string) (p : PrincipalRow) : PrincipalRow :=
  mkPrincipalRow (pTenant p) (pType p) n (pEmail p) (pPasswordHash p) (pApiKeyHash p) (pStatus p)
    (pMetadata p) (pCreatedAt p).
Definition with_email (e : option string) (p : PrincipalRow) : PrincipalRow :=
  mkPrincipalRow (pTenant p) (pType p) (pName p) e (pPasswordHash p) (pApiKeyHash p) (pStatus p)
    (pMetadata p) (pCreatedAt p).
Definition with_pstatus (s : string) (p : PrincipalRow) : PrincipalRow :=
  mkPrincipalRow (pTenant p) (pType p) (pName p) (pEmail p) (pPasswordHash p) (pApiKeyHash p) s
    (pMetadata p) (pCreatedAt p).
Definition with_password (h : string) (p : PrincipalRow) : PrincipalRow :=
  mkPrincipalRow (pTenant p) (pType p) (pName p) (pEmail p) (Some h) (pApiKeyHash p) (pStatus p)
    (pMetadata p) (pCreatedAt p).

(** [UPDATE principals SET ... WHERE id = $1 AND tenant_id = $2] *)
Definition update_principal (tenantID principalID : uuid) (f : PrincipalRow -> PrincipalRow) (a : Access)
  : Access :=
  match principal_of tenantID principalID a with
  | Some p => set_principals (<[principalID := f p]>) a
  | None => a
  end.

(** [DELETE FROM sessions s USING principals p WHERE ... AND keep s] *)
Definition delete_sessions (tenantID principalID : uuid) (keep : uuid -> bool) (a : Access) : Access :=
  match principal_of tenantID principalID a with
  | Some _ => set_sessions (filter (fun kv => sePrincipal kv.2 <> principalID \/ keep kv.1 = true)) a
  | None => a
  end.

Definition when {A} (o : option A) (f : A -> Svc Access unit) : Svc Access unit :=
  match o with Some x => f x | None => mret tt end.

Definition set_status_tx (tenantID principalID : uuid) (status : string) : Svc Access unit :=
  _ ← guardS (bool_decide (status = "active") || bool_decide (status = "disabled")) (Errorf "invalid status" []);
  _ ← wrapS (Wrapf "update principal status: %w" [])
    (exec_update (fun _ a => update_principal tenantID principalID (with_pstatus status) a));
  if decide (status = "disabled") then
    wrapS (Wrapf "invalidate sessions for disabled principal: %w" [])
      (exec_update (fun _ a => delete_sessions tenantID principalID (fun _ => false) a))
  else mret tt.

Definition set_email_tx (tenantID principalID : uuid) (currentType email : string) : Svc Access unit :=
  _ ← guardS (bool_decide (currentType = "human")) (Errorf "only human principals can have email" []);
  let email := nullif (ToLower (TrimSpace email)) in
  wrapS (Wrapf "update principal email: %w" [])
    (exec (fun _ _ a => if email_taken tenantID email (Some principalID) a then Err unique_error
                        else Ok (tt, update_principal tenantID principalID (with_email email) a))).

Definition UpdatePrincipal (tenantID principalID : uuid) (req : UpdatePrincipalRequest) : Svc Access Principal :=
  _ ← transactS "begin update principal tx: %w" (fun _ =>
    p ← wrapS (fun err => if errors_is err ErrNoRows then ErrNoRows
                          else Wrapf "load principal for update: %w" [] err)
      (select_row (fun _ a => principal_of tenantID principalID a));
    _ ← when (uName req) (fun name =>
      wrapS (Wrapf "update principal name: %w" [])
        (exec_update (fun _ a => update_principal tenantID principalID (with_name name) a)));
    _ ← when (uEmail req) (set_email_tx tenantID principalID (pType p));
    _ ← when (uStatus req) (set_status_tx tenantID principalID);
    _ ← when (uRoles req) (replacePrincipalRolesTx tenantID principalID);
    mret (tt, "commit update principal tx: %w"));
  _ ← Invalidate principalID;
  GetPrincipal tenantID principalID.

Definition DisablePrincipal (tenantID principalID : uuid) : Svc Access unit :=
  _ ← UpdatePrincipal tenantID principalID (mkUpdatePrincipalRequest None None (Some "disabled") None);
  mret tt.

End Service.
