(* ===== verification/RbacAuth.v ===== *)
(** * Authentication ([internal/rbac]): tokens, sessions, passwords, preferences

    First [base64.RawURLEncoding], bytes as text without padding in the alphabet for
    URLs. Three bytes are four characters; one or two bytes at the end are two or
    three. [DecodeString] reads what [EncodeToString] writes, and no encoding
    contains a dot. *)

From Stdlib Require Import ZifyN.
From S2P Require Import Prelude GoStrings Json EngineTypes Store TaskForms GoText Effects Rbac.

Open Scope N_scope.

Definition alphabet : string := "ABCDEFGHIJKLMNOPQRSTUVWXYZabcdefghijklmnopqrstuvwxyz0123456789-_".

Definition enc_char (n : N) : ascii := default "A"%char (String.get (N.to_nat n) alphabet).
Definition dec_char (a : ascii) : option N := N.of_nat <$> IndexByte a alphabet.

Fixpoint EncodeToString (s : string) : string :=
  match s with
  | EmptyString => EmptyString
  | String a EmptyString =>
      let n := N_of_ascii a * 16 in
      String (enc_char (n / 64)) (String (enc_char (n mod 64)) EmptyString)
  | String a (String b EmptyString) =>
      let n := (N_of_ascii a * 256 + N_of_ascii b) * 4 in
      String (enc_char (n / 4096)) (String (enc_char (n / 64 mod 64)) (String (enc_char (n mod 64)) EmptyString))
  | String a (String b (String c rest)) =>
      let n := (N_of_ascii a * 256 + N_of_ascii b) * 256 + N_of_ascii c in
      String (enc_char (n / 262144)) (String (enc_char (n / 4096 mod 64))
        (String (enc_char (n / 64 mod 64)) (String (enc_char (n mod 64)) (EncodeToString rest))))
  end.

(** Bits left over at the end are ignored; a single character is an error. *)
Fixpoint decode_quanta (s : string) : option string :=
  match s with
  | EmptyString => Some EmptyString
  | String a EmptyString => None
  | String a (String b EmptyString) =>
      x ← dec_char a; y ← dec_char b;
      Some (String (ascii_of_N ((x * 64 + y) / 16)) EmptyString)
  | String a (String b (String c EmptyString)) =>
      x ← dec_char a; y ← dec_char b; z ← dec_char c;
      let n := ((x * 64 + y) * 64 + z) / 4 in
      Some (String (ascii_of_N (n / 256)) (String (ascii_of_N (n mod 256)) EmptyString))
  | String a (String b (String c (String d rest))) =>
      x ← dec_char a; y ← dec_char b; z ← dec_char c; t ← dec_char d;
      let n := ((x * 64 + y) * 64 + z) * 64 + t in
      more ← decode_quanta rest;
      Some (String (ascii_of_N (n / 65536)) (String (ascii_of_N (n / 256 mod 256))
              (String (ascii_of_N (n mod 256)) more)))
  end.

(** The decoder skips carriage returns and line feeds wherever they stand. *)
Fixpoint drop_newlines (s : string) : string :=
  match s with
  | EmptyString => EmptyString
  | String a r =>
      if bool_decide (a = "010"%char) || bool_decide (a = "013"%char) then drop_newlines r
      else String a (drop_newlines r)
  end.

Definition DecodeString (s : string) : option string := decode_quanta (drop_newlines s).

(** ** Round trip *)

Definition check_char (n : nat) : bool :=
  bool_decide (dec_char (enc_char (N.of_nat n)) = Some (N.of_nat n)) &&
  negb (bool_decide (enc_char (N.of_nat n) = "."%char)) && is_graph (enc_char (N.of_nat n)).

Lemma check_chars : forallb check_char (seq 0 64) = true.
Proof. vm_compute. reflexivity. Qed.

Lemma char_roundtrip n :
  n < 64 -> dec_char (enc_char n) = Some n /\ enc_char n <> "."%char /\ is_graph (enc_char n) = true.
Proof.
  intros Hn. pose proof check_chars as H. rewrite forallb_forall in H.
  specialize (H (N.to_nat n) ltac:(apply in_seq; lia)). unfold check_char in H.
  rewrite N2Nat.id in H. by boolp.
Qed.

Lemma dec_enc n : n < 64 -> dec_char (enc_char n) = Some n.
Proof. intros H. by apply char_roundtrip. Qed.

Lemma byte_bound a : N_of_ascii a < 256.
Proof. apply N_ascii_bounded. Qed.

(** Strings in groups of three bytes. *)
Lemma three_ind (P : string -> Prop) :
  P EmptyString -> (forall a, P (String a EmptyString)) ->
  (forall a b, P (String a (String b EmptyString))) ->
  (forall a b c s, P s -> P (String a (String b (String c s)))) -> forall s, P s.
Proof.
  intros H0 H1 H2 H3 s.
  enough (P s /\ (forall a, P (String a s)) /\ forall a b, P (String a (String b s))) by tauto.
  induction s as [|c s (IH1 & IH2 & IH3)]; [auto|]. split_and!; auto.
Qed.

#[local] Ltac Zify.zify_post_hook ::= Z.div_mod_to_equations.

(** The digits of a number in base 64. *)
Lemma digits3 n : n < 16777216 ->
  ((n / 262144 * 64 + n / 4096 mod 64) * 64 + n / 64 mod 64) * 64 + n mod 64 = n.
Proof. intros Hn. lia. Qed.

(** A byte that is read back from the digits of its group. *)
Lemma byte_back a n : n = N_of_ascii a -> ascii_of_N n = a.
Proof. intros ->. apply ascii_N_embedding. Qed.

Lemma decode_quanta_encode s : decode_quanta (EncodeToString s) = Some s.
Proof.
  induction s as [|a|a b|a b c s IH] using three_ind; [done|..].
  - pose proof (byte_bound a). cbn [EncodeToString decode_quanta].
    rewrite !dec_enc by lia. simpl. do 2 f_equal. apply byte_back. lia.
  - pose proof (byte_bound a). pose proof (byte_bound b). cbn [EncodeToString decode_quanta].
    rewrite !dec_enc by lia. simpl. do 2 f_equal; [apply byte_back; lia|].
    f_equal. apply byte_back. lia.
  - pose proof (byte_bound a). pose proof (byte_bound b). pose proof (byte_bound c).
    cbn [EncodeToString decode_quanta]. rewrite !dec_enc by lia. rewrite IH. simpl. f_equal.
    rewrite digits3 by lia.
    f_equal; [apply byte_back; lia|]. f_equal; [apply byte_back; lia|]. f_equal. apply byte_back. lia.
Qed.

Lemma Encode_no_dot s : char_in "."%char (EncodeToString s) = false.
Proof.
  assert (forall n t, n < 64 -> char_in "."%char t = false -> char_in "."%char (String (enc_char n) t) = false)
    as Hc.
  { intros n t Hn Ht. simpl. rewrite Ht, orb_false_r. apply bool_decide_eq_false.
    intros E. by apply (char_roundtrip n Hn). }
  induction s as [|a|a b|a b c s IH] using three_ind; [done|..]; cbn [EncodeToString].
  - pose proof (byte_bound a). repeat (apply Hc; [lia|]). done.
  - pose proof (byte_bound a). pose proof (byte_bound b). repeat (apply Hc; [lia|]). done.
  - pose proof (byte_bound a). pose proof (byte_bound b). pose proof (byte_bound c).
    repeat (apply Hc; [lia|]). done.
Qed.

Lemma Encode_graph s : all_chars is_graph (EncodeToString s) = true.
Proof.
  assert (forall n t, n < 64 -> all_chars is_graph t = true -> all_chars is_graph (String (enc_char n) t) = true)
    as Hc.
  { intros n t Hn Ht. simpl. rewrite Ht, andb_true_r. by apply char_roundtrip. }
  induction s as [|a|a b|a b c s IH] using three_ind; [done|..]; cbn [EncodeToString].
  - pose proof (byte_bound a). repeat (apply Hc; [lia|]). done.
  - pose proof (byte_bound a). pose proof (byte_bound b). repeat (apply Hc; [lia|]). done.
  - pose proof (byte_bound a). pose proof (byte_bound b). pose proof (byte_bound c).
    repeat (apply Hc; [lia|]). done.
Qed.

Lemma drop_newlines_graph s : all_chars is_graph s = true -> drop_newlines s = s.
Proof.
  induction s as [|a s IH]; simpl; [done|]. intros [Ha Hs]%andb_prop. rewrite (IH Hs).
  destruct (decide (a = "010"%char)) as [->|H1]; [done|].
  destruct (decide (a = "013"%char)) as [->|H2]; [done|].
  by rewrite !bool_decide_eq_false_2.
Qed.

Lemma Decode_Encode s : DecodeString (EncodeToString s) = Some s.
Proof. unfold DecodeString. rewrite drop_newlines_graph by apply Encode_graph. apply decode_quanta_encode. Qed.

(** ** Authentication: tokens, sessions, passwords, preferences
    ([internal/rbac/jwt.go], [auth.go], [audit.go])

    HMAC-SHA256, bcrypt and random bytes are parameters, as is the JSON text of
    the claims of a token. A session is a row of the database that a token names;
    an API key is known by its hash. *)

(** ** Tokens ([jwt.go]) *)

Definition ErrInvalidToken : goerr := Errorf "invalid token" [].
Definition ErrExpiredToken : goerr := Errorf "token expired" [].
Definition ErrInvalidCredential : goerr := Errorf "invalid credentials" [].

Record tokenClaims : Type := mkTokenClaims {
  clPrincipalID : uuid;
  clTenantID : uuid;
  clSessionID : uuid;
  clExpiresAt : Z
}.

(** [t.Unix()] *)
Definition Unix (t : Z) : Z := t / Second.

Section Tokens.
Context (hmac_sha256 : string -> string -> string).
Context (marshal_claims : tokenClaims -> string) (unmarshal_claims : string -> option tokenClaims).

(** The quotation mark, which string literals cannot hold. *)
Definition quot : string := byte 34.
(** [{"alg":"HS256","typ":"JWT"}] *)
Definition jwt_header : string :=
  "{" +:+ quot +:+ "alg" +:+ quot +:+ ":" +:+ quot +:+ "HS256" +:+ quot +:+ "," +:+
  quot +:+ "typ" +:+ quot +:+ ":" +:+ quot +:+ "JWT" +:+ quot +:+ "}".

Definition jwt_signature (secret unsigned : string) : string := EncodeToString (hmac_sha256 secret unsigned).

Definition signJWT (secret : string) (claims : tokenClaims) : string :=
  let unsigned := EncodeToString jwt_header +:+ "." +:+ EncodeToString (marshal_claims claims) in
  unsigned +:+ "." +:+ jwt_signature secret unsigned.

Definition parseAndVerifyJWT (secret token : string) (now : Z) : result goerr tokenClaims :=
  match Split "."%char token with
  | [header; body; signature] =>
      if decide (jwt_signature secret (header +:+ "." +:+ body) = signature) then
        match DecodeString body ≫= unmarshal_claims with
        | None => Err ErrInvalidToken
        | Some claims =>
            if (clExpiresAt claims <=? Unix now)%Z then Err ErrExpiredToken
            else if bool_decide (clPrincipalID claims = uuid_Nil) || bool_decide (clTenantID claims = uuid_Nil)
                    || bool_decide (clSessionID claims = uuid_Nil) then Err ErrInvalidToken
            else Ok claims
        end
      else Err ErrInvalidToken
  | _ => Err ErrInvalidToken
  end.
End Tokens.

(** ** Passwords *)

Fixpoint has_char (p : ascii -> bool) (s : string) : bool :=
  match s with
  | EmptyString => false
  | String a s' => p a || has_char p s'
  end.
Definition in_ascii (lo hi : ascii) (a : ascii) : bool :=
  (nat_of_ascii lo <=? nat_of_ascii a)%nat && (nat_of_ascii a <=? nat_of_ascii hi)%nat.
Definition is_letter (a : ascii) : bool := in_ascii "A" "Z" a || in_ascii "a" "z" a.
Definition is_digit (a : ascii) : bool := in_ascii "0" "9" a.

Definition ValidatePassword (password : string) : result goerr unit :=
  if (String.length password <? 8)%nat then Err (Errorf "password must be at least 8 characters" [])
  else if negb (has_char is_letter password) || negb (has_char is_digit password)
  then Err (Errorf "password must contain at least one letter and one number" [])
  else Ok tt.

(** ** Requests and answers ([models.go]) *)

Record LoginRequest : Type := mkLoginRequest {
  lqTenantID : option uuid;
  lqTenantSlug : string;
  lqEmail : string;
  lqPassword : string
}.

Record UserPreferences : Type := mkUserPreferences {
  upPrincipalID : uuid;
  upThemeID : option uuid;
  upLocale_ : string;
  upNotifications_ : json;
  upPreferences_ : json
}.

Record LoginResponse : Type := mkLoginResponse {
  lpToken : string;
  lpPrincipal : Principal;
  lpTenant : uuid;
  lpPreferences : UserPreferences;
  lpThemes : list (uuid * ThemeRow);
  lpExpiresAt : Z
}.

Record AuthPrincipal : Type := mkAuthPrincipal {
  apID : uuid;
  apTenantID : uuid;
  apSessionID : option uuid;
  apRow : PrincipalRow;
  apRoles : list string
}.

Record UpdatePreferencesRequest : Type := mkUpdatePreferencesRequest {
  uqThemeID : option uuid;
  uqLocale : string;
  uqNotifications : option json;
  uqPreferences : option json
}.

Section Auth.
Context `{R : Runtime}.
Context (hmac_sha256 : string -> string -> string).
Context (marshal_claims : tokenClaims -> string) (unmarshal_claims : string -> option tokenClaims).
Context (bcrypt_hash : nat -> string -> result goerr string) (bcrypt_matches : string -> string -> bool).
Context (random_hex : nat -> result goerr string).
Context (jwtSecret : string) (sessionTTL : Z).

Definition recordAuthEvent (e : authEvent) : Svc Access unit :=
  wrapS (Wrapf "insert auth event: %w" []) (exec_update (fun _ a => add_event e a)).

Definition simple_event (tenant principal : option uuid) (ty : string) (ok : bool) (data : object) : authEvent :=
  mkAuthEvent tenant principal ty ok "" "" data.

(** The tenant of the id, of the slug, or the one with the slug [default]. *)
Definition resolveTenant (tenantID : option uuid) (tenantSlug : string) (a : Access) : option (uuid * TenantRow) :=
  let by_slug slug := head (filter (fun kr => tSlug kr.2 = slug) (map_to_list (tenants a))) in
  match tenantID with
  | Some id =>
      if decide (id <> uuid_Nil) then (fun t => (id, t)) <$> tenants a !! id
      else if decide (TrimSpace tenantSlug <> "") then by_slug (TrimSpace tenantSlug) else by_slug "default"
  | None => if decide (TrimSpace tenantSlug <> "") then by_slug (TrimSpace tenantSlug) else by_slug "default"
  end.

Definition lookupPrincipalForLogin (tenantID : uuid) (email : string) (a : Access)
  : option (uuid * PrincipalRow) :=
  let email := ToLower (TrimSpace email) in
  head (filter (fun kr => pTenant kr.2 = tenantID /\ pEmail kr.2 = Some email /\ pType kr.2 = "human")
          (map_to_list (principals a))).

(** ** Themes and preferences *)

Definition theme_le (x y : uuid * ThemeRow) : Prop :=
  (thSortOrder x.2 < thSortOrder y.2)%Z \/
  (thSortOrder x.2 = thSortOrder y.2 /\ String.le (thName x.2) (thName y.2)).
#[export] Instance theme_le_dec : RelDecision theme_le.
Proof. intros x y. unfold theme_le. apply _. Defined.
Definition default_theme_le (x y : uuid * ThemeRow) : Prop :=
  (thIsDefault x.2 = true /\ thIsDefault y.2 = false) \/
  (thIsDefault x.2 = thIsDefault y.2 /\ theme_le x y).
#[export] Instance default_theme_le_dec : RelDecision default_theme_le.
Proof. intros x y. unfold default_theme_le. apply _. Defined.

Definition themes_of (tenantID : uuid) (a : Access) : list (uuid * ThemeRow) :=
  filter (fun kr => thTenant kr.2 = tenantID) (map_to_list (themes a)).

Definition listThemesForTenant (tenantID : uuid) : Svc Access (list (uuid * ThemeRow)) :=
  select (fun _ a => merge_sort theme_le (themes_of tenantID a)).

Definition getTenantDefaultThemeID (tenantID : uuid) : Svc Access (option uuid) :=
  select (fun _ a => fst <$> head (merge_sort default_theme_le (themes_of tenantID a))).

Definition ensureThemeBelongsToTenant (tenantID themeID : uuid) : Svc Access unit :=
  found ← wrapS (Wrapf "validate theme id: %w" [])
    (select (fun _ a => bool_decide ((thTenant <$> themes a !! themeID) = Some tenantID)));
  guardS found (Errorf "theme not found" []).

(** The preferences of a principal of the tenant, if there is a row. *)
Definition preference_row (tenantID principalID : uuid) (a : Access) : option PreferenceRow :=
  match principal_of tenantID principalID a with
  | Some _ => user_preferences a !! principalID
  | None => None
  end.

Definition default_theme (tenantID : uuid) : Svc Access (option uuid) :=
  wrapS (Wrapf "load tenant default theme: %w" []) (getTenantDefaultThemeID tenantID).

Definition GetPreferences (tenantID principalID : uuid) : Svc Access UserPreferences :=
  row ← tryS (select_row (fun _ a => preference_row tenantID principalID a));
  match row with
  | Err err =>
      if errors_is err ErrNoRows then
        theme ← default_theme tenantID;
        mret (mkUserPreferences principalID theme "en" (JObj []) (JObj []))
      else fail (Wrapf "load user preferences: %w" [] err)
  | Ok r =>
      theme ← match upTheme r with
              | Some t => mret (Some t)
              | None => default_theme tenantID
              end;
      mret (mkUserPreferences principalID theme (upLocale r) (upNotifications r) (upPreferences r))
  end.

Definition UpdatePreferences (tenantID principalID : uuid) (req : UpdatePreferencesRequest)
  : Svc Access UserPreferences :=
  existing ← GetPreferences tenantID principalID;
  _ ← when (uqThemeID req) (ensureThemeBelongsToTenant tenantID);
  let theme := match uqThemeID req with Some t => Some t | None => upThemeID existing end in
  let locale := if decide (uqLocale req = "") then upLocale_ existing else uqLocale req in
  let notifications := default (upNotifications_ existing) (uqNotifications req) in
  let preferences := default (upPreferences_ existing) (uqPreferences req) in
  _ ← wrapS (Wrapf "upsert user preferences: %w" [])
    (exec_update (fun now a =>
       match principal_of tenantID principalID a with
       | Some _ => set_preferences (<[principalID := mkPreferenceRow theme locale notifications preferences now]>) a
       | None => a
       end));
  GetPreferences tenantID principalID.

(** ** Login *)

(** [generateSessionToken]: the random token and its hash. *)
Definition generateSessionToken (k : nat) : result goerr (string * string) :=
  plaintext ← random_hex k; Ok (plaintext, hashSecret plaintext).

(** [token_hash] is unique. *)
Definition insert_session (id : uuid) (row : SessionRow) (a : Access) : result goerr Access :=
  if decide (is_Some (sessions a !! id)) then Err unique_error
  else if existsb (fun kr => bool_decide (seTokenHash kr.2 = seTokenHash row)) (map_to_list (sessions a))
  then Err unique_error
  else Ok (set_sessions (<[id := row]>) a).

(** Record a login that failed, and return the error of all of them. *)
Definition login_failed {A} (tenant principal : option uuid) (data : object) : Svc Access A :=
  _ ← ignoreS (recordAuthEvent (simple_event tenant principal "login" false data));
  fail ErrInvalidCredential.

(** The principal that the request names, with its password. *)
Definition check_credentials (req : LoginRequest) : Svc Access (uuid * (uuid * PrincipalRow)) :=
  let email := [("email", JStr (lqEmail req))] in
  tenant ← tryS (select_row (fun _ a => resolveTenant (lqTenantID req) (lqTenantSlug req) a));
  match tenant with
  | Err _ => login_failed None None email
  | Ok tenant =>
      found ← tryS (select_row (fun _ a => lookupPrincipalForLogin tenant.1 (lqEmail req) a));
      match found with
      | Err _ => login_failed (Some tenant.1) None email
      | Ok p =>
          if decide (pStatus p.2 <> "active")
          then login_failed (Some tenant.1) (Some p.1) [("reason", JStr "disabled")]
          else if bcrypt_matches (default "" (pPasswordHash p.2)) (lqPassword req)
          then mret (tenant.1, p)
          else login_failed (Some tenant.1) (Some p.1) []
      end
  end.

Definition Login (req : LoginRequest) : Svc Access LoginResponse :=
  checked ← check_credentials req;
  let '(tenant, p) := checked in
  token ← wrapS (Wrapf "generate session token: %w" []) (callS generateSessionToken);
  now ← nowS;
  let expiresAt := (now + sessionTTL)%Z in
  sessionID ← wrapS (Wrapf "insert session: %w" [])
    (exec (fun k _ a =>
       let id := gen_random_uuid k in
       a' ← insert_session id (mkSessionRow p.1 token.2 expiresAt) a; Ok (id, a')));
  let claims := mkTokenClaims p.1 (pTenant p.2) sessionID (Unix expiresAt) in
  let jwtToken := signJWT hmac_sha256 marshal_claims jwtSecret claims in
  names ← listPrincipalRoleNames p.1;
  themes ← wrapS (Wrapf "list tenant themes: %w" []) (listThemesForTenant tenant);
  prefs ← wrapS (Wrapf "load user preferences: %w" []) (GetPreferences tenant p.1);
  _ ← ignoreS (recordAuthEvent (simple_event (Some tenant) (Some p.1) "login" true []));
  mret (mkLoginResponse jwtToken (mkPrincipal p.1 p.2 names) tenant prefs themes expiresAt).

(** ** Bearer tokens *)

(** The role names of an authenticated principal; a failed query leaves none. *)
Definition with_roles (id tenant : uuid) (session : option uuid) (row : PrincipalRow) : Svc Access AuthPrincipal :=
  names ← tryS (listPrincipalRoleNames id);
  mret (mkAuthPrincipal id tenant session row (match names with Ok l => l | Err _ => [] end)).

Definition no_rows_invalid (fmt : string) (err : goerr) : goerr :=
  if errors_is err ErrNoRows then ErrInvalidToken else Wrapf fmt [] err.

(** A live session of an active principal of the tenant. *)
Definition live_session (claims : tokenClaims) (now : Z) (a : Access) : option PrincipalRow :=
  match sessions a !! clSessionID claims, principal_of (clTenantID claims) (clPrincipalID claims) a with
  | Some s, Some p =>
      if decide (sePrincipal s = clPrincipalID claims /\ pStatus p = "active" /\ (now < seExpiresAt s)%Z)
      then Some p else None
  | _, _ => None
  end.

Definition authenticateJWT (jwtToken : string) : Svc Access AuthPrincipal :=
  now ← nowS;
  claims ← pureS (parseAndVerifyJWT hmac_sha256 unmarshal_claims jwtSecret jwtToken now);
  p ← wrapS (no_rows_invalid "validate session token: %w")
    (select_row (fun now a => live_session claims now a));
  with_roles (clPrincipalID claims) (clTenantID claims) (Some (clSessionID claims)) p.

Definition key_holder (hash : string) (a : Access) : option (uuid * PrincipalRow) :=
  head (filter (fun kr => pApiKeyHash kr.2 = Some hash /\ pStatus kr.2 = "active") (map_to_list (principals a))).

Definition authenticateAPIKey (rawKey : string) : Svc Access AuthPrincipal :=
  p ← wrapS (no_rows_invalid "lookup api key principal: %w")
    (select_row (fun _ a => key_holder (hashSecret rawKey) a));
  with_roles p.1 (pTenant p.2) None p.2.

Definition AuthenticateBearer (bearerToken : string) : Svc Access AuthPrincipal :=
  let token := TrimSpace bearerToken in
  if decide (token = "") then fail ErrInvalidToken
  else if decide (CountByte "."%char token = 2%nat) then authenticateJWT token
  else authenticateAPIKey token.

(** ** Sessions and passwords *)

Definition Logout (tenantID principalID sessionID : uuid) : Svc Access unit :=
  _ ← wrapS (Wrapf "delete session: %w" [])
    (exec_update (fun _ a =>
       delete_sessions tenantID principalID (fun id => negb (bool_decide (id = sessionID))) a));
  ignoreS (recordAuthEvent (simple_event (Some tenantID) (Some principalID) "logout" true [])).

Definition changeable (tenantID principalID : uuid) (a : Access) : option PrincipalRow :=
  match principal_of tenantID principalID a with
  | Some p => if decide (pType p = "human" /\ pStatus p = "active") then Some p else None
  | None => None
  end.

Definition ChangePassword (tenantID principalID sessionID : uuid) (current new : string) : Svc Access unit :=
  _ ← pureS (ValidatePassword new);
  _ ← transactS "begin change password tx: %w" (fun _ =>
    p ← wrapS (fun err => if errors_is err ErrNoRows then ErrInvalidCredential
                          else Wrapf "load password hash: %w" [] err)
      (select_row (fun _ a => changeable tenantID principalID a));
    (* a NULL hash cannot be scanned *)
    currentHash ← match pPasswordHash p with
                  | Some h => mret h
                  | None => fail (Errorf "load password hash: converting NULL to string is unsupported" [])
                  end;
    _ ← guardS (bcrypt_matches currentHash current) ErrInvalidCredential;
    hash ← wrapS (Wrapf "hash new password: %w" []) (callS (fun k => bcrypt_hash k new));
    _ ← wrapS (Wrapf "update password hash: %w" [])
      (exec_update (fun _ a => update_principal tenantID principalID (with_password hash) a));
    _ ← wrapS (Wrapf "invalidate other sessions: %w" [])
      (exec_update (fun _ a =>
         delete_sessions tenantID principalID (fun id => bool_decide (id = sessionID)) a));
    mret (tt, "commit change password tx: %w"));
  ignoreS (recordAuthEvent (simple_event (Some tenantID) (Some principalID) "password_changed" true [])).

Definition CleanupExpiredSessions : Svc Access unit :=
  wrapS (Wrapf "delete expired sessions: %w" [])
    (exec_update (fun now a => set_sessions (filter (fun kv => (now <= seExpiresAt kv.2)%Z)) a)).

Definition RecordDenied (principal : AuthPrincipal) (permission path : string) : Svc Access unit :=
  ignoreS (recordAuthEvent (mkAuthEvent (Some (apTenantID principal)) (Some (apID principal)) "auth.denied"
    false permission path [])).

End Auth.
