(* ===== verification/RbacClaims.v ===== *)
(** * What access control guarantees

    What a principal is granted by the tables, and what each change of the
    tables can affect. *)

From stdpp Require Import relations.
From S2P Require Import Prelude GoStrings Json EngineTypes Store TaskForms GoText Effects Rbac.

(** ** Permissions *)

(** An active principal has a role of its tenant with the permission. *)
Definition holds (a : Access) (p : uuid) (perm : string) : Prop :=
  exists row r role, principals a !! p = Some row /\ pStatus row = "active" /\
    (p, r) ∈ principal_roles a /\ roles a !! r = Some role /\ rTenant role = pTenant row /\
    (r, perm) ∈ role_permissions a.

(** The permission itself, all permissions, or all of its kind. *)
Definition granted (a : Access) (p : uuid) (perm : string) : Prop :=
  holds a p perm \/ holds a p "*" \/ exists all, wildcard perm = Some all /\ holds a p all.

Lemma elem_of_permission_rows a p perm : perm ∈ permission_rows a p <-> holds a p perm.
Proof.
  unfold permission_rows, holds. destruct (principals a !! p) as [row|] eqn:Ep; [|set_solver].
  case_decide as Hs; [|naive_solver set_solver]. rewrite elem_of_set_omap. split.
  - intros ([r q] & Hin & H). simpl in *. case_decide; [|done].
    destruct (roles a !! r) as [role|] eqn:Er; [|done]. case_decide; [|done]. simplify_eq.
    exists row, r, role. done.
  - intros (row' & r & role & [= <-] & _ & Hpr & Hr & Ht & Hrp). exists (r, perm). split; [done|].
    simpl. rewrite decide_True by done. rewrite Hr. by rewrite decide_True.
Qed.

Lemma hasPermission_granted a p perm :
  hasPermission (permission_rows a p) perm = true <-> granted a p perm.
Proof.
  unfold hasPermission, granted. rewrite !orb_true_iff, !bool_decide_eq_true, !elem_of_permission_rows.
  destruct (wildcard perm) as [all|].
  - rewrite bool_decide_eq_true, elem_of_permission_rows. naive_solver.
  - naive_solver.
Qed.

Lemma elem_of_assigned_to r a p : p ∈ assigned_to r a <-> (p, r) ∈ principal_roles a.
Proof.
  unfold assigned_to. rewrite elem_of_set_omap. split.
  - intros ([p' r'] & Hin & H). simpl in H. case_decide; [|done]. by simplify_eq/=.
  - intros H. exists (p, r). split; [done|]. by rewrite decide_True.
Qed.

(** Two states in which the same rows decide about [p]. *)
Lemma permission_rows_ext a a' p :
  principals a' !! p = principals a !! p ->
  (forall r, (p, r) ∈ principal_roles a' <-> (p, r) ∈ principal_roles a) ->
  (forall r, (p, r) ∈ principal_roles a -> roles a' !! r = roles a !! r /\
     forall perm, (r, perm) ∈ role_permissions a' <-> (r, perm) ∈ role_permissions a) ->
  permission_rows a' p = permission_rows a p.
Proof.
  intros Hp Hpr Hr. apply set_eq. intros perm. rewrite !elem_of_permission_rows. unfold holds. split.
  - intros (row & r & role & ? & ? & H1 & H2 & ? & H3). apply Hpr in H1. destruct (Hr r H1) as [E1 E2].
    exists row, r, role. rewrite <- Hp, <- E1, <- E2. done.
  - intros (row & r & role & ? & ? & H1 & H2 & ? & H3). destruct (Hr r H1) as [E1 E2].
    exists row, r, role. rewrite Hp, E1, E2, Hpr. done.
Qed.

(** ** Invariant *)

(** References of the join tables lead to rows, and a cached set of permissions
    is what the tables say. *)
Record access_ok (a : Access) : Prop := mk_access_ok {
  ao_principal : forall p r, (p, r) ∈ principal_roles a -> is_Some (principals a !! p);
  ao_role : forall p r, (p, r) ∈ principal_roles a -> is_Some (roles a !! r);
  ao_permission : forall r perm, (r, perm) ∈ role_permissions a -> is_Some (roles a !! r);
  ao_cache : forall p cp, perm_cache a !! p = Some cp -> cpPermissions cp = permission_rows a p
}.

(** The references alone. *)
Definition refs_ok (a : Access) : Prop :=
  (forall p r, (p, r) ∈ principal_roles a -> is_Some (principals a !! p) /\ is_Some (roles a !! r)) /\
  (forall r perm, (r, perm) ∈ role_permissions a -> is_Some (roles a !! r)).

Lemma access_ok_refs a : access_ok a -> refs_ok a.
Proof. intros [H1 H2 H3 _]. split; eauto. Qed.

(** A change that leaves the cache alone and can affect only principals in [S]. *)
Record affects (S : uuid -> Prop) (a a' : Access) : Prop := mk_affects {
  af_refs : refs_ok a -> refs_ok a';
  af_cache : perm_cache a' = perm_cache a;
  af_rows : forall p, ~ S p -> permission_rows a' p = permission_rows a p
}.

#[export] Instance affects_preorder S : PreOrder (affects S).
Proof.
  split; [by split|]. intros a b c [H1 H2 H3] [K1 K2 K3]. split; [auto|congruence|].
  intros p Hp. rewrite K3, H3 by done. done.
Qed.

(** After the change, dropping the entries of [S] restores the invariant. *)
Lemma affects_invalidate S a a' f :
  affects S a a' -> (forall p cp, f (perm_cache a') !! p = Some cp -> perm_cache a' !! p = Some cp /\ ~ S p) ->
  access_ok a -> access_ok (set_cache f a').
Proof.
  intros [H1 H2 H3] Hf Hok. destruct (H1 (access_ok_refs a Hok)) as [K1 K2].
  split; simpl; [naive_solver..|].
  intros p cp Hc. apply Hf in Hc as [Hc Hp]. rewrite H2 in Hc.
  change (permission_rows (set_cache f a') p) with (permission_rows a' p). rewrite H3 by done.
  by apply Hok.
Qed.

(** ** Statements *)

Lemma affects_events S e a : affects S a (add_event e a).
Proof. by split. Qed.
Lemma affects_sessions S f a : affects S a (set_sessions f a).
Proof. by split. Qed.
Lemma affects_preferences S f a : affects S a (set_preferences f a).
Proof. by split. Qed.

(** A change of the row of one principal that keeps its tenant. *)
Lemma affects_principal p f t a : affects (eq p) a (update_principal t p f a).
Proof.
  unfold update_principal, principal_of. destruct (principals a !! p) as [row|] eqn:Ep; [|reflexivity].
  case_decide; [|reflexivity]. split; simpl; [|done|].
  - intros [H1 H2]. split; [|done]. simpl. intros q r Hq. destruct (H1 q r Hq). split; [|done].
    destruct (decide (q = p)) as [->|]; [by rewrite lookup_insert_eq|by rewrite lookup_insert_ne].
  - intros q Hq. apply permission_rows_ext; simpl; [by rewrite lookup_insert_ne|done..].
Qed.

Lemma affects_delete_sessions S t p keep a : affects S a (delete_sessions t p keep a).
Proof. unfold delete_sessions. by destruct (principal_of t p a). Qed.

Lemma affects_clear_roles p a : affects (eq p) a (set_assignments (filter (fun pr => pr.1 <> p)) a).
Proof.
  split; simpl; [|done|].
  - intros [H1 H2]. split; [|done]. simpl. intros q r [_ Hin]%elem_of_filter. auto.
  - intros q Hq. apply permission_rows_ext; simpl; [done|..]; intros r.
    + rewrite elem_of_filter. simpl. naive_solver.
    + done.
Qed.

Lemma affects_assign p r a :
  is_Some (principals a !! p) -> is_Some (roles a !! r) ->
  affects (eq p) a (set_assignments (union {[(p, r)]}) a).
Proof.
  intros Hp Hr. split; simpl; [|done|].
  - intros [H1 H2]. split; [|done]. simpl.
    intros q r' [[= -> ->]%elem_of_singleton|Hin]%elem_of_union; auto.
  - intros q Hq. apply permission_rows_ext; simpl; [done|..]; intros r'; [set_solver|done].
Qed.

(** A change of the permissions of one role: only principals that have the role
    can be affected. *)
Record role_change (r : uuid) (a a' : Access) : Prop := mk_role_change {
  rc_refs : is_Some (roles a !! r) -> refs_ok a -> refs_ok a';
  rc_cache : perm_cache a' = perm_cache a;
  rc_roles : roles a' = roles a;
  rc_assigned : principal_roles a' = principal_roles a;
  rc_rows : forall p, (p, r) ∉ principal_roles a -> permission_rows a' p = permission_rows a p
}.

#[export] Instance role_change_preorder r : PreOrder (role_change r).
Proof.
  split; [by split|]. intros a b c [H1 H2 H3 H4 H5] [K1 K2 K3 K4 K5].
  split; [rewrite <- H3 in *; auto|congruence..|].
  intros p Hp. rewrite K5 by (by rewrite H4). auto.
Qed.

Lemma role_change_clear r a : role_change r a (set_permissions (filter (fun rp => rp.1 <> r)) a).
Proof.
  split; simpl; [|done..|].
  - intros _ [H1 H2]. split; [done|]. simpl. intros r' perm [_ Hin]%elem_of_filter. eauto.
  - intros p Hp. apply permission_rows_ext; simpl; [done|done|]. intros r' Hr'. split; [done|].
    intros perm. rewrite elem_of_filter. simpl. naive_solver.
Qed.

Lemma role_change_add r perm a : role_change r a (set_permissions (union {[(r, perm)]}) a).
Proof.
  split; simpl; [|done..|].
  - intros Hr [H1 H2]. split; [done|]. simpl.
    intros r' q [[= -> ->]%elem_of_singleton|Hin]%elem_of_union; eauto.
  - intros p Hp. apply permission_rows_ext; simpl; [done|done|]. intros r' Hr'. split; [done|].
    intros q. assert (r' <> r) by (intros ->; done). set_solver.
Qed.

Section Programs.
Context `{R : Runtime}.

Lemma replacePermissionsTx_change r perms : keepsS (role_change r) (replacePermissionsTx r perms).
Proof.
  unfold replacePermissionsTx. keeps_steps; (apply keepsS_update; [exact _|]); intros now d.
  - apply role_change_clear.
  - apply role_change_add.
Qed.

(** ** Roles of a principal: the roles that are looked up exist *)

Lemma role_named_exists t name a r : role_named t name a = Some r -> is_Some (roles a !! r).
Proof.
  unfold role_named. destruct (filter _ _) as [|[k row] l] eqn:E; [done|]. simpl. intros [= ->].
  assert ((r, row) ∈ filter (fun kr => rTenant kr.2 = t /\ rName kr.2 = name) (map_to_list (roles a))) as H
    by (rewrite E; left).
  apply list_elem_of_filter in H as [_ H]. apply elem_of_map_to_list in H. eauto.
Qed.

(** The assignments of principal [p], which exists, change; roles and principals do not. *)
Record assign_change (p : uuid) (a a' : Access) : Prop := mk_assign_change {
  ac_affects : is_Some (principals a !! p) -> affects (eq p) a a';
  ac_principals : principals a' = principals a;
  ac_roles : roles a' = roles a
}.

#[export] Instance assign_change_preorder p : PreOrder (assign_change p).
Proof.
  split; [by split|]. intros a b c [H1 H2 H3] [K1 K2 K3]. split; [|congruence..].
  intros Hp. etrans; [by apply H1|]. apply K1. by rewrite H2.
Qed.

Lemma select_row_state {A} (f : Z -> Access -> option A) w : st (select_row f w).2 = st w.
Proof.
  unfold select_row, exec. destruct (fault (ticks w)); [done|]. by destruct (f _ (st w)).
Qed.

Lemma select_row_ok {A} (f : Z -> Access -> option A) w a w' :
  select_row f w = (Ok a, w') -> st w' = st w /\ f (db_now (ticks w)) (st w) = Some a.
Proof.
  unfold select_row, exec. destruct (fault (ticks w)); [done|].
  destruct (f _ (st w)) as [b|] eqn:E; [|done]. intros [= <- <-]. done.
Qed.

Lemma replacePrincipalRolesTx_change t p names : keepsS (assign_change p) (replacePrincipalRolesTx t p names).
Proof.
  unfold replacePrincipalRolesTx. apply keepsS_bind; [exact _| |intros _; apply keepsS_for; [exact _|]].
  - apply keepsS_wrap, keepsS_update; [exact _|]. intros now a. split; [intros _|done..].
    apply affects_clear_roles.
  - intros name w. unfold mbind, Svc_bind, wrapS at 1.
    destruct (select_row _ w) as [[r|e] w1] eqn:E; simpl.
    + apply select_row_ok in E as [E1 Hr]. apply role_named_exists in Hr. rewrite <- E1 in Hr |- *.
      unfold wrapS, exec_update, exec. destruct (fault (ticks w1)); simpl; [reflexivity|].
      split; [intros Hp|done..]. by apply affects_assign.
    + pose proof (select_row_state (fun _ a => role_named t name a) w) as Hs. rewrite E in Hs.
      simpl in Hs. rewrite Hs. reflexivity.
Qed.
End Programs.

(** ** What access control guarantees: decisions *)

Lemma affects_none_ok a a' : affects (fun _ => False) a a' -> access_ok a -> access_ok a'.
Proof.
  intros H Hok. assert (set_cache id a' = a') as <- by (by destruct a').
  eapply affects_invalidate; [exact H| |exact Hok]. intros p cp Hc. split; [exact Hc|tauto].
Qed.

Lemma insert_role_fresh id row a a' :
  insert_role id row a = Ok a' -> roles a !! id = None /\ a' = set_roles (<[id := row]>) a.
Proof.
  unfold insert_role. case_decide as H; [done|]. apply eq_None_not_Some in H.
  destruct (existsb _ _); [done|]. by intros [= <-].
Qed.

Lemma refs_ok_new_role id row a :
  roles a !! id = None -> refs_ok a -> refs_ok (set_roles (<[id := row]>) a).
Proof.
  intros Hid [H1 H2]. assert (forall r, is_Some (roles a !! r) -> is_Some (<[id := row]> (roles a) !! r)) as Hm.
  { intros r Hr. destruct (decide (r = id)) as [->|]; [by rewrite lookup_insert_eq|by rewrite lookup_insert_ne]. }
  split; simpl; [|eauto]. intros p r Hin. destruct (H1 p r Hin). eauto.
Qed.

Lemma rows_new_role id row a p :
  roles a !! id = None -> refs_ok a ->
  permission_rows (set_roles (<[id := row]>) a) p = permission_rows a p.
Proof.
  intros Hid [H1 _]. apply permission_rows_ext; simpl; [done..|]. intros r Hr. split; [|done].
  destruct (H1 p r Hr) as [_ Hs]. destruct (decide (r = id)) as [->|]; [|by rewrite lookup_insert_ne].
  rewrite Hid in Hs. by destruct Hs.
Qed.

Section Decisions.
Context `{R : Runtime}.
Context (ttl : Z) (bcrypt_hash : nat -> string -> result goerr string) (random_hex : nat -> result goerr string).

Local Abbreviation authorize := (Authorize ttl).
Local Abbreviation createPrincipal := (CreatePrincipal bcrypt_hash random_hex).

Lemma exec_ok {A} (run : nat -> Z -> Access -> result goerr (A * Access)) w a w' :
  exec run w = (Ok a, w') -> exists k now, run k now (st w) = Ok (a, st w').
Proof.
  unfold exec. destruct (fault (ticks w)); [done|].
  destruct (run _ _ _) as [[b t]|e] eqn:E; [|done]. intros [= <- <-]. eauto.
Qed.

Lemma guardS_bind {B} ok e (f : unit -> Svc Access B) w :
  (guardS ok e ≫= f) w = if ok then f tt w else (Err e, w).
Proof. by destruct ok. Qed.

(** ** Roles *)

Lemma CreateRole_ok t req w : access_ok (st w) -> access_ok (st (CreateRole t req w).2).
Proof.
  intros Hok. unfold CreateRole. rewrite guardS_bind. destruct (negb _); [|done].
  match goal with |- context [transactS ?b ?f w] => destruct (transactS b f w) as [[role|e] w1] eqn:E end;
    simpl; [|apply transactS_Err in E; by rewrite E].
  apply transactS_inv in E as (c & w2 & H & ->).
  apply bindS_inv in H as (id & w3 & H1%wrapS_inv & H). apply bindS_inv in H as (? & w4 & H2 & H).
  injection H as _ _ <-. apply exec_ok in H1 as (k & now & H1). simpl in H1.
  destruct (insert_role _ _ _) as [a1|e] eqn:E1; [|done]. simpl in H1. injection H1 as <- E3.
  apply insert_role_fresh in E1 as [Hid ->].
  pose proof (access_ok_refs _ Hok) as Hrefs.
  pose proof (replacePermissionsTx_change (gen_random_uuid k) (crPermissions req) w3) as [K1 K2 K3 K4 K5].
  rewrite H2 in K1, K2, K3, K4, K5. cbn [snd] in *. rewrite <- E3 in K1, K2, K3, K4, K5.
  apply (affects_none_ok (st w)); [|done]. split.
  - intros _. apply K1; [simpl; by rewrite lookup_insert_eq|]. by apply refs_ok_new_role.
  - done.
  - intros p _. rewrite K5; [by apply rows_new_role|]. simpl. intros Hin.
    destruct (proj1 Hrefs _ _ Hin) as [_ Hs]. rewrite Hid in Hs. by destruct Hs.
Qed.

(** One call of an operation of access control. *)
Inductive access_call : Sys Access -> Sys Access -> Prop :=
  | call_authorize p perm w : access_call w (authorize p perm w).2
  | call_create_role t req w : access_call w (CreateRole t req w).2
  | call_update_role t r perms w : access_call w (UpdateRolePermissions t r perms w).2
  | call_delete_role t r w : access_call w (DeleteRole t r w).2
  | call_create_principal t req w : access_call w (createPrincipal t req w).2
  | call_update_principal t p req w : access_call w (UpdatePrincipal t p req w).2.

(** The states of a run between its calls, the present first; time passes. *)
Inductive history (w0 : Sys Access) : list (Sys Access) -> Prop :=
  | history_start : history w0 [w0]
  | history_call w w' l : history w0 (w :: l) -> access_call w w' -> history w0 (w' :: w :: l)
  | history_idle w k l : history w0 (w :: l) -> (ticks w <= k)%nat -> history w0 (mkSys (st w) k :: w :: l).

Section NoFault.
Context (Hnofault : forall n, fault n = None).

Lemma InvalidateMany_ok S ids w a :
  affects S a (st w) -> access_ok a -> (forall p, S p -> p ∈ ids) -> access_ok (st (InvalidateMany ids w).2).
Proof.
  intros Ha Hok Hs. simpl. eapply affects_invalidate; [exact Ha| |exact Hok].
  intros p cp H. apply map_lookup_filter_Some in H as [H Hp]. split; [done|]. simpl in Hp. auto.
Qed.

Lemma UpdateRolePermissions_ok t r perms w :
  access_ok (st w) -> access_ok (st (UpdateRolePermissions t r perms w).2).
Proof.
  intros Hok. unfold UpdateRolePermissions.
  match goal with |- context [transactS ?b ?f] => destruct (transactS b f w) as [[row|e] w1] eqn:E end;
    [rewrite (bindS_Ok _ _ _ _ _ E)|rewrite (bindS_Err _ _ _ _ _ E)]; cycle 1.
  { apply transactS_Err in E. simpl. by rewrite E. }
  apply transactS_inv in E as (c & w2 & H & Es).
  apply bindS_inv in H as (row' & w3 & H1%wrapS_inv & H). apply bindS_inv in H as (? & w4 & H2 & H).
  injection H as _ _ <-. apply select_row_ok in H1 as [E3 Hrole]. simpl in E3, Hrole.
  pose proof (replacePermissionsTx_change r perms w3) as [K1 K2 K3 K4 K5].
  rewrite H2 in K1, K2, K3, K4, K5. cbn [snd] in *. rewrite E3 in K1, K2, K3, K4, K5.
  unfold invalidatePrincipalsForRole, select, wrapS, exec, mbind, Svc_bind. rewrite Hnofault. cbn [fst snd].
  apply (InvalidateMany_ok (fun p => (p, r) ∈ principal_roles (st w)) _ _ (st w)); [|done|].
  - simpl. rewrite Es. split; [|done|done]. apply K1. unfold role_of in Hrole.
    by destruct (roles (st w) !! r).
  - intros p Hp. apply elem_of_assigned_to. rewrite Es, K4. done.
Qed.

Lemma delete_role_affects r a :
  affects (fun p => (p, r) ∈ principal_roles a) a
    (set_roles (delete r) (set_permissions (filter (fun rp => rp.1 <> r))
       (set_assignments (filter (fun pr => pr.2 <> r)) a))).
Proof.
  split; simpl; [|done|].
  - intros [H1 H2]. split; simpl.
    + intros p r' [Hne Hin]%elem_of_filter. simpl in Hne. rewrite lookup_delete_ne by done. eauto.
    + intros r' perm [Hne Hin]%elem_of_filter. simpl in Hne. rewrite lookup_delete_ne by done. eauto.
  - intros p Hp. apply permission_rows_ext; simpl; [done|..]; intros r'.
    + rewrite elem_of_filter. simpl. split; [naive_solver|]. intros Hin. split; [|done]. by intros ->.
    + intros Hin. assert (r' <> r) by (by intros ->). split; [by rewrite lookup_delete_ne|].
      intros perm. rewrite elem_of_filter. simpl. naive_solver.
Qed.

Lemma DeleteRole_ok t r w : access_ok (st w) -> access_ok (st (DeleteRole t r w).2).
Proof.
  intros Hok. unfold DeleteRole.
  match goal with |- context [transactS ?b ?f] => destruct (transactS b f w) as [[ids|e] w1] eqn:E end;
    [rewrite (bindS_Ok _ _ _ _ _ E)|rewrite (bindS_Err _ _ _ _ _ E)]; cycle 1.
  { apply transactS_Err in E. simpl. by rewrite E. }
  apply transactS_inv in E as (c & w2 & H & Es).
  apply bindS_inv in H as (ids' & w3 & H1%wrapS_inv & H).
  apply bindS_inv in H as (? & w4 & H2%wrapS_inv & H). apply bindS_inv in H as (? & w5 & H3%wrapS_inv & H).
  apply bindS_inv in H as (affected & w6 & H4%wrapS_inv & H). apply bindS_inv in H as (? & w7 & H5 & H).
  injection H as <- _ <-. destruct affected; [|done]. injection H5 as _ <-.
  apply exec_ok in H1 as (? & ? & [= <- E3]). apply exec_ok in H2 as (? & ? & [= _ E4]).
  apply exec_ok in H3 as (? & ? & [= _ E5]). apply exec_ok in H4 as (? & ? & H4).
  simpl in E3. rewrite <- E3 in E4. rewrite <- E4 in E5. rewrite <- E5 in H4.
  unfold role_of in H4. simpl in H4. destruct (roles (st w) !! r) as [row|] eqn:Er; [|done].
  case_decide as Ht; [|done]. injection H4 as E6.
  eapply (InvalidateMany_ok (fun p => (p, r) ∈ principal_roles (st w)) _ _ (st w)); [|done|].
  - rewrite Es, <- E6. apply delete_role_affects.
  - intros p Hp. unfold role_of. simpl. rewrite Er, decide_True by done. by apply elem_of_assigned_to.
Qed.

(** ** Principals *)

(** A change of the row and the roles of a principal that exists. *)
Definition principal_change (p : uuid) (a a' : Access) : Prop :=
  is_Some (principals a !! p) -> affects (eq p) a a' /\ is_Some (principals a' !! p).

#[local] Instance principal_change_preorder p : PreOrder (principal_change p).
Proof.
  split; [by intros a Ha|]. intros a b c Hab Hbc Ha. destruct (Hab Ha) as [H1 H2].
  destruct (Hbc H2) as [H3 H4]. split; [by etrans|done].
Qed.

Lemma update_principal_change t p f a : principal_change p a (update_principal t p f a).
Proof.
  intros Hp. split; [apply affects_principal|]. unfold update_principal, principal_of.
  destruct (principals a !! p) as [row|] eqn:E; [|by rewrite E].
  case_decide; simpl; [by rewrite lookup_insert_eq|by rewrite E].
Qed.

Lemma delete_sessions_change t p q keep a : principal_change p a (delete_sessions t q keep a).
Proof.
  intros Hp. split; [apply affects_delete_sessions|]. unfold delete_sessions.
  by destruct (principal_of t q a).
Qed.

Lemma replace_roles_change t p names : keepsS (principal_change p) (replacePrincipalRolesTx t p names).
Proof.
  intros w Hp. destruct (replacePrincipalRolesTx_change t p names w) as [H1 H2 H3].
  split; [by apply H1|]. by rewrite H2.
Qed.

Lemma update_body_change t p req row :
  keepsS (principal_change p)
    (_ ← when (uName req) (fun name =>
       wrapS (Wrapf "update principal name: %w" [])
         (exec_update (fun _ a => update_principal t p (with_name name) a)));
     _ ← when (uEmail req) (set_email_tx t p (pType row));
     _ ← when (uStatus req) (set_status_tx t p);
     _ ← when (uRoles req) (replacePrincipalRolesTx t p);
     mret (tt, "commit update principal tx: %w")).
Proof.
  unfold when, set_email_tx, set_status_tx.
  repeat first
    [ keeps_step
    | apply keepsS_update; [exact _|]; intros; (apply update_principal_change || apply delete_sessions_change)
    | apply replace_roles_change ].
  apply keepsS_exec; [exact _|]. intros ? ? d ? d'. destruct (email_taken _ _ _ _); [done|].
  intros [= _ <-]. apply update_principal_change.
Qed.

Lemma GetPrincipal_state t p w : st (GetPrincipal t p w).2 = st w.
Proof.
  assert (keepsS (fun a a' : Access => a' = a) (GetPrincipal t p)) as H; [|apply H].
  assert (PreOrder (fun a a' : Access => a' = a)) by (split; [done|by intros ? ? ? -> ->]).
  unfold GetPrincipal, listPrincipalRoleNames. keeps_steps.
Qed.

Lemma Invalidate_ok p w a : affects (eq p) a (st w) -> access_ok a -> access_ok (st (Invalidate p w).2).
Proof.
  intros Ha Hok. simpl. eapply affects_invalidate; [exact Ha| |exact Hok].
  intros q cp H. apply lookup_delete_Some in H as [Hne H]. done.
Qed.

Lemma UpdatePrincipal_ok t p req w : access_ok (st w) -> access_ok (st (UpdatePrincipal t p req w).2).
Proof.
  intros Hok. unfold UpdatePrincipal.
  match goal with |- context [transactS ?b ?f] => destruct (transactS b f w) as [[[]|e] w1] eqn:E end;
    [rewrite (bindS_Ok _ _ _ _ _ E)|rewrite (bindS_Err _ _ _ _ _ E)]; cycle 1.
  { apply transactS_Err in E. simpl. by rewrite E. }
  apply transactS_inv in E as (c & w2 & H & Es).
  apply bindS_inv in H as (row & w3 & H1%wrapS_inv & H).
  apply select_row_ok in H1 as [E3 Hrow]. simpl in E3, Hrow.
  pose proof (update_body_change t p req row w3) as K. rewrite H in K. cbn [snd] in K. rewrite E3 in K.
  destruct K as [K _]; [unfold principal_of in Hrow; by destruct (principals (st w) !! p)|].
  unfold mbind at 1, Svc_bind at 1. cbn [Invalidate changes]. rewrite GetPrincipal_state.
  apply (Invalidate_ok p w1 (st w)); [by rewrite Es|done].
Qed.

Lemma insert_principal_fresh id row a a' :
  insert_principal id row a = Ok a' -> principals a !! id = None /\ a' = set_principals (<[id := row]>) a.
Proof.
  unfold insert_principal. case_decide as H; [done|]. apply eq_None_not_Some in H.
  destruct (email_taken _ _ _ _); [done|]. by intros [= <-].
Qed.

Lemma new_principal_affects id row a :
  principals a !! id = None -> affects (eq id) a (set_principals (<[id := row]>) a).
Proof.
  intros Hid. split; simpl; [|done|].
  - intros [H1 H2]. split; [|done]. simpl. intros q r Hq. destruct (H1 q r Hq). split; [|done].
    destruct (decide (q = id)) as [->|]; [by rewrite lookup_insert_eq|by rewrite lookup_insert_ne].
  - intros q Hq. apply permission_rows_ext; simpl; [by rewrite lookup_insert_ne|done..].
Qed.

Lemma new_secrets_state req w : st (new_secrets bcrypt_hash random_hex req w).2 = st w.
Proof.
  assert (keepsS (fun a a' : Access => a' = a) (new_secrets bcrypt_hash random_hex req)) as H; [|apply H].
  assert (PreOrder (fun a a' : Access => a' = a)) by (split; [done|by intros ? ? ? -> ->]).
  unfold new_secrets. keeps_steps.
Qed.

Lemma CreatePrincipal_ok t req w : access_ok (st w) -> access_ok (st (createPrincipal t req w).2).
Proof.
  intros Hok. unfold CreatePrincipal. rewrite guardS_bind. destruct (negb _); [|done].
  rewrite guardS_bind. destruct (_ || _); [|done].
  match goal with |- context [transactS ?b ?f] => destruct (transactS b f w) as [[[[id row] key]|e] w1] eqn:E end;
    [rewrite (bindS_Ok _ _ _ _ _ E)|rewrite (bindS_Err _ _ _ _ _ E)]; cycle 1.
  { apply transactS_Err in E. simpl. by rewrite E. }
  apply transactS_inv in E as (c & w2 & H & Es).
  apply bindS_inv in H as ([[h k] kh] & w3 & H1 & H).
  apply bindS_inv in H as (id' & w4 & H2%wrapS_inv & H). apply bindS_inv in H as (? & w5 & H3 & H).
  injection H as -> _ _ _ <-. apply exec_ok in H2 as (n & now & H2). simpl in H2.
  destruct (insert_principal _ _ _) as [a1|e] eqn:E1; [|done]. simpl in H2. injection H2 as <- E4.
  pose proof (new_secrets_state req (mkSys (st w) (S (ticks w)))) as E3. rewrite H1 in E3. simpl in E3.
  rewrite E3 in E1. apply insert_principal_fresh in E1 as [Hid ->].
  pose proof (replace_roles_change t (gen_random_uuid n) (cpRoles req) w4) as K.
  rewrite H3 in K. cbn [snd] in K. destruct K as [K _]; [rewrite <- E4; simpl; by rewrite lookup_insert_eq|].
  unfold mbind at 1, Svc_bind at 1. cbn [Invalidate changes].
  unfold tryS, listPrincipalRoleNames, wrapS, select, exec, mbind, Svc_bind. cbn [ticks st].
  assert (access_ok (st (Invalidate (gen_random_uuid n) w1).2)) as Hgoal; [|by destruct (fault _)].
  apply (Invalidate_ok _ w1 (st w)); [|done]. rewrite Es. etrans; [|exact K]. rewrite <- E4.
  by apply new_principal_affects.
Qed.

(** ** Decisions *)

Lemma Authorize_decides p perm w :
  access_ok (st w) ->
  (authorize p perm w).1 =
    (if hasPermission (permission_rows (st w) p) perm then Ok tt else Err ErrForbidden) /\
  access_ok (st (authorize p perm w).2).
Proof.
  intros Hok. unfold Authorize, cache_get, reads, nowS, mbind, Svc_bind. cbn [st ticks].
  assert (forall k, let w' := mkSys (st w) k in
    (let run := (perms ← loadPermissions p; _ ← cache_set p perms;
                 guardS (hasPermission perms perm) ErrForbidden) w' in
     run.1 = (if hasPermission (permission_rows (st w) p) perm then Ok tt else Err ErrForbidden) /\
     access_ok (st run.2))) as Hload.
  { intros k. unfold loadPermissions, cache_set, nowS, wrapS, select, exec, mbind, Svc_bind. simpl.
    rewrite Hnofault. simpl. unfold guardS. split; [by destruct (hasPermission _ _)|].
    enough (access_ok (set_cache (<[p := mkCachedPermissions (permission_rows (st w) p) (wall_clock (S k))]>) (st w)))
      by (by destruct (hasPermission _ _)).
    destruct Hok as [H1 H2 H3 H4]. split; simpl; [done..|]. intros q cp Hq.
    change (permission_rows (set_cache _ (st w)) q) with (permission_rows (st w) q).
    apply lookup_insert_Some in Hq as [[<- <-]|[_ Hq]]; [done|by apply H4]. }
  destruct (perm_cache (st w) !! p) as [cp|] eqn:Ec; [|apply (Hload (ticks w))].
  destruct (ttl <? _)%Z; [apply (Hload (S (ticks w)))|].
  cbn -[hasPermission guardS]. rewrite (ao_cache _ Hok p cp Ec). unfold guardS.
  by destruct (hasPermission _ _).
Qed.

Lemma access_call_ok w w' : access_call w w' -> access_ok (st w) -> access_ok (st w').
Proof.
  intros [] Hok.
  - by apply Authorize_decides.
  - by apply CreateRole_ok.
  - by apply UpdateRolePermissions_ok.
  - by apply DeleteRole_ok.
  - by apply CreatePrincipal_ok.
  - by apply UpdatePrincipal_ok.
Qed.

Lemma history_ok w0 l w : history w0 l -> head l = Some w -> access_ok (st w0) -> access_ok (st w).
Proof.
  intros H. revert w. induction H as [|w w' l _ IH Hc|w k l _ IH _]; intros v [= <-] H0; [done|..].
  - eapply access_call_ok; [exact Hc|by apply IH].
  - by apply (IH w).
Qed.
End NoFault.

(** ** The lifetime of what is cached, whatever fails *)

(** Only [Authorize] fills the cache. *)
Definition cache_shrinks (a a' : Access) : Prop := perm_cache a' ⊆ perm_cache a.
#[local] Instance cache_shrinks_preorder : PreOrder cache_shrinks.
Proof. unfold cache_shrinks. split; [intros a; reflexivity|]. intros a b c H1 H2. by etrans. Qed.

Lemma cache_kept a a' : perm_cache a' = perm_cache a -> cache_shrinks a a'.
Proof. unfold cache_shrinks. by intros ->. Qed.

Lemma Invalidate_shrinks p : keepsS cache_shrinks (Invalidate p).
Proof. intros w. apply delete_subseteq. Qed.
Lemma InvalidateMany_shrinks ids : keepsS cache_shrinks (InvalidateMany ids).
Proof. intros w. apply map_filter_subseteq. Qed.
Lemma update_principal_cache t p f a : cache_shrinks a (update_principal t p f a).
Proof. apply cache_kept. unfold update_principal. by destruct (principal_of t p a). Qed.
Lemma delete_sessions_cache t p keep a : cache_shrinks a (delete_sessions t p keep a).
Proof. apply cache_kept. unfold delete_sessions. by destruct (principal_of t p a). Qed.

Ltac cache_run :=
  repeat first
    [ keeps_step
    | apply Invalidate_shrinks | apply InvalidateMany_shrinks
    | apply update_principal_cache | apply delete_sessions_cache
    | apply keepsS_update; [exact _|]; intros
    | by apply cache_kept ].

Lemma replacePermissionsTx_cache r perms : keepsS cache_shrinks (replacePermissionsTx r perms).
Proof. unfold replacePermissionsTx. cache_run. Qed.
Lemma replacePrincipalRolesTx_cache t p names : keepsS cache_shrinks (replacePrincipalRolesTx t p names).
Proof. unfold replacePrincipalRolesTx. cache_run. Qed.

Lemma CreateRole_cache t req : keepsS cache_shrinks (CreateRole t req).
Proof.
  unfold CreateRole. cache_run; try apply replacePermissionsTx_cache. 
  apply keepsS_exec; [exact _|]. intros k ? d ? d'. destruct (insert_role _ _ _) as [new|] eqn:E; [|done].
  apply insert_role_fresh in E as [_ ->]. intros [= _ <-]. by apply cache_kept.
Qed.
Lemma UpdateRolePermissions_cache t r perms : keepsS cache_shrinks (UpdateRolePermissions t r perms).
Proof. unfold UpdateRolePermissions, invalidatePrincipalsForRole. cache_run. apply replacePermissionsTx_cache. Qed.
Lemma DeleteRole_cache t r : keepsS cache_shrinks (DeleteRole t r).
Proof.
  unfold DeleteRole. cache_run. apply keepsS_exec; [exact _|]. intros ? ? d ? d'.
  destruct (role_of _ _ _); intros [= _ <-]; by apply cache_kept.
Qed.
Lemma CreatePrincipal_cache t req : keepsS cache_shrinks (createPrincipal t req).
Proof.
  unfold CreatePrincipal, new_secrets, listPrincipalRoleNames. cache_run; try apply replacePrincipalRolesTx_cache.
  apply keepsS_exec; [exact _|]. intros k ? d ? d'. destruct (insert_principal _ _ _) as [new|] eqn:E; [|done].
  apply insert_principal_fresh in E as [_ ->]. intros [= _ <-]. by apply cache_kept.
Qed.
Lemma UpdatePrincipal_cache t p req : keepsS cache_shrinks (UpdatePrincipal t p req).
Proof.
  unfold UpdatePrincipal, GetPrincipal, listPrincipalRoleNames, when, set_email_tx, set_status_tx.
  cache_run; try apply replacePrincipalRolesTx_cache.
  apply keepsS_exec; [exact _|]. intros ? ? d ? d'. destruct (email_taken _ _ _ _); [done|].
  intros [= _ <-]. apply update_principal_cache.
Qed.

(** A set of permissions was what the tables said in a state [v] of the past, in
    which a decision began that read the clock at tick [k]. *)
Definition read_in (past : list (Sys Access)) (p : uuid) (perms : gset string) (k : nat) : Prop :=
  exists v, v ∈ past /\ (ticks v < k <= 2 + ticks v)%nat /\ perms = permission_rows (st v) p.

(** Every cached set is stamped with the time at which it was read. *)
Definition cache_read (past : list (Sys Access)) (a : Access) : Prop := forall p cp,
  perm_cache a !! p = Some cp -> exists k, cpLoadedAt cp = wall_clock k /\ read_in past p (cpPermissions cp) k.

Lemma cache_read_shrinks past past' a a' :
  past ⊆ past' -> cache_shrinks a a' -> cache_read past a -> cache_read past' a'.
Proof.
  intros Hp Hs Ha p cp H. destruct (Ha p cp) as (k & Hk & v & Hv & H1 & H2); [by eapply lookup_weaken|].
  exists k. split; [done|]. exists v. auto.
Qed.

(** What a decision rests on: the tables as they are, or as they were when what
    is cached was read, at most the lifetime ago. *)
Definition decided (past : list (Sys Access)) (w : Sys Access) (p : uuid) (perms : gset string) : Prop :=
  perms = permission_rows (st w) p \/
  exists k, (time_Sub (wall_clock (ticks w)) (wall_clock k) <= ttl)%Z /\ read_in past p perms k.

Lemma Authorize_cached past p perm w :
  w ∈ past -> cache_read past (st w) ->
  cache_read past (st (authorize p perm w).2) /\
  ((exists e, (authorize p perm w).1 = Err (Wrapf "query permissions: %w" [] e)) \/
   exists perms, decided past w p perms /\
     (authorize p perm w).1 = if hasPermission perms perm then Ok tt else Err ErrForbidden).
Proof.
  intros Hw Hc. unfold Authorize, cache_get, reads, nowS, mbind, Svc_bind. cbn [st ticks].
  assert (forall k, (ticks w <= k <= S (ticks w))%nat -> let w' := mkSys (st w) k in
    let run := (perms ← loadPermissions p; _ ← cache_set p perms;
                guardS (hasPermission perms perm) ErrForbidden) w' in
    cache_read past (st run.2) /\
    ((exists e, run.1 = Err (Wrapf "query permissions: %w" [] e)) \/
     exists perms, decided past w p perms /\
       run.1 = if hasPermission perms perm then Ok tt else Err ErrForbidden)) as Hload.
  { intros k Hk. unfold loadPermissions, cache_set, nowS, wrapS, select, exec, mbind, Svc_bind. simpl.
    destruct (fault k) as [e|]; simpl; [split; [done|]; left; by exists e|].
    set (perms := permission_rows (st w) p).
    assert (cache_read past (set_cache (<[p := mkCachedPermissions perms (wall_clock (S k))]>) (st w))) as Hset.
    { intros q cp Hq. cbn [perm_cache set_cache] in Hq. apply lookup_insert_Some in Hq as [[<- <-]|[_ Hq]]; [|by apply Hc].
      exists (S k). split; [done|]. exists w. split_and!; [done|lia|lia|done]. }
    split; [unfold guardS; by destruct (hasPermission _ _)|]. right. exists perms. split; [by left|].
    unfold guardS. by destruct (hasPermission _ _). }
  destruct (perm_cache (st w) !! p) as [cp|] eqn:Ec; [|apply (Hload (ticks w)); lia].
  destruct (ttl <? _)%Z eqn:Et; [apply (Hload (S (ticks w))); lia|].
  cbn -[hasPermission guardS]. split; [unfold guardS; by destruct (hasPermission _ _)|]. right.
  exists (cpPermissions cp). split; [|unfold guardS; by destruct (hasPermission _ _)].
  right. destruct (Hc p cp Ec) as (k & Hk & Hr). exists k. rewrite Hk in Et. split; [lia|done].
Qed.

Lemma access_call_read past w w' :
  access_call w w' -> w ∈ past -> cache_read past (st w) -> cache_read (w' :: past) (st w').
Proof.
  intros H Hw Hc. destruct H;
    [|eapply cache_read_shrinks; [| |exact Hc]; [by apply list_subseteq_cons|]..].
  - eapply cache_read_shrinks; [|reflexivity|apply Authorize_cached; [exact Hw|exact Hc]].
    by apply list_subseteq_cons.
  - apply CreateRole_cache.
  - apply UpdateRolePermissions_cache.
  - apply DeleteRole_cache.
  - apply CreatePrincipal_cache.
  - apply UpdatePrincipal_cache.
Qed.

Lemma history_read w0 l : perm_cache (st w0) = ∅ -> history w0 l ->
  exists w l', l = w :: l' /\ cache_read l (st w).
Proof.
  intros H0. induction 1 as [|w w' l _ IH Hc|w k l _ IH _].
  - exists w0, []. split; [done|]. intros p cp H. by rewrite H0, lookup_empty in H.
  - destruct IH as (v & l' & [= <- <-] & Hr). do 2 eexists. split; [done|].
    eapply access_call_read; [exact Hc|by left|exact Hr].
  - destruct IH as (v & l' & [= <- <-] & Hr). do 2 eexists. split; [done|].
    eapply cache_read_shrinks; [|reflexivity|exact Hr]. by apply list_subseteq_cons.
Qed.

(** C23. Over any history of decisions and of changes of roles and principals that
    starts with an empty cache, whatever fails:
    while statements succeed the cache is invisible, [Authorize] allows an action
    exactly when the tables grant it at that moment, to an active principal
    through a role of its own tenant, by the permission itself, by all
    permissions or by the wildcard of its kind, and says otherwise that it is
    forbidden; and when statements failed in between, so that what is cached was
    not dropped with a change, an answer of [Authorize] is still the one the
    tables gave at that moment or in a state of the history that was read at
    most the lifetime of the cache ago. The only other answer is the error of the
    query. *)
Theorem Authorize_refines w0 w past p perm
    (Hstart : access_ok (st w0)) (Hempty : perm_cache (st w0) = ∅) (Hrun : history w0 (w :: past)) :
  ((forall n, fault n = None) ->
   ((authorize p perm w).1 = Ok tt <-> granted (st w) p perm) /\
   ((authorize p perm w).1 = Err ErrForbidden <-> ~ granted (st w) p perm)) /\
  ((exists e, (authorize p perm w).1 = Err (Wrapf "query permissions: %w" [] e)) \/
   exists v, (v = w \/ v ∈ w :: past /\ exists k, (ticks v < k <= 2 + ticks v)%nat /\
       (time_Sub (wall_clock (ticks w)) (wall_clock k) <= ttl)%Z) /\
     ((authorize p perm w).1 = Ok tt /\ granted (st v) p perm \/
      (authorize p perm w).1 = Err ErrForbidden /\ ~ granted (st v) p perm)).
Proof.
  split.
  - intros Hnofault. assert (access_ok (st w)) as Hok by (by eapply (history_ok Hnofault)).
    destruct (Authorize_decides Hnofault p perm w Hok) as [-> _]. rewrite <- hasPermission_granted.
    destruct (hasPermission _ _); naive_solver.
  - destruct (history_read w0 (w :: past) Hempty Hrun) as (v & l & [= <- <-] & Hr).
    destruct (Authorize_cached (w :: past) p perm w) as [_ [He|(perms & Hd & ->)]]; [by left|done|by left|].
    right. destruct Hd as [->|(k & Hk & v & Hv & Hkv & ->)]; [exists w; split; [by left|]|exists v; split; [right; eauto|]];
      rewrite <- hasPermission_granted; destruct (hasPermission _ _); naive_solver.
Qed.
End Decisions.

(** ** Example: a clerk who may read cases *)

Module AccessExample.
Definition clerk : PrincipalRow := mkPrincipalRow 1%N "human" "clerk" (Some "c@x.org") None None "active" (JObj []) 0.
Definition role : RoleRow := mkRoleRow 1%N "case_worker" "" 0.
Definition access : Access :=
  mkAccess ∅ {[10%N := clerk]} {[20%N := role]} {[(20%N, "cases:*")]} {[(10%N, 20%N)]} ∅ ∅ ∅ [] ∅.

Lemma access_valid : access_ok access.
Proof.
  split; simpl.
  - intros p r [= -> ->]%elem_of_singleton. by exists clerk.
  - intros p r [= -> ->]%elem_of_singleton. by exists role.
  - intros r perm [= -> ->]%elem_of_singleton. by exists role.
  - intros p cp H. by rewrite lookup_empty in H.
Qed.

(** A world whose statement at tick 6 fails. *)
Definition failing_runtime : Runtime := {|
  fault := fun n => if decide (n = 6%nat) then Some (Errorf "connection refused" []) else None;
  wall_clock := wall_clock (Runtime := example_runtime); db_now := db_now (Runtime := example_runtime);
  gen_random_uuid := gen_random_uuid (Runtime := example_runtime); sha256_hex := sha256_hex (Runtime := example_runtime);
  json_marshal := json_marshal (Runtime := example_runtime); jsonb_text := jsonb_text (Runtime := example_runtime);
  format_rfc3339nano := format_rfc3339nano (Runtime := example_runtime); time_json := time_json (Runtime := example_runtime);
  timestamptz_text := timestamptz_text (Runtime := example_runtime) |}.

Definition no_hash (k : nat) (s : string) : result goerr string := Ok "".
Definition no_random (k : nat) : result goerr string := Ok "".
Definition decide_at (r : Runtime) (w : Sys Access) : result goerr unit * Sys Access :=
  @Authorize r DefaultPermissionTTL 10%N "cases:read" w.

(** The clerk may read cases; the role then loses its permissions. *)
Definition started : Sys Access := mkSys access 0.
Definition asked (r : Runtime) : Sys Access := (decide_at r started).2.
Definition revoked (r : Runtime) : Sys Access := (@UpdateRolePermissions r 1%N 20%N [] (asked r)).2.
(** A minute later. *)
Definition later (r : Runtime) : Sys Access := mkSys (st (revoked r)) 70.

Definition run_of (r : Runtime) : list (Sys Access) := [later r; revoked r; asked r; started].
Lemma run_history r : (ticks (revoked r) <= 70)%nat ->
  @history r DefaultPermissionTTL no_hash no_random started (run_of r) /\
  @history r DefaultPermissionTTL no_hash no_random started (tail (run_of r)).
Proof.
  intros H. assert (@history r DefaultPermissionTTL no_hash no_random started (tail (run_of r))) as Hr; [|split; [|exact Hr]].
  - apply history_call; [apply history_call; [apply history_start|]|].
    + exact (@call_authorize r DefaultPermissionTTL no_hash no_random 10%N "cases:read" started).
    + exact (@call_update_role r DefaultPermissionTTL no_hash no_random 1%N 20%N [] (asked r)).
  - by apply history_idle.
Qed.

(** The query that finds whose entries to drop fails: the clerk may still read,
    for a minute. *)
Example stale_decision :
  (decide_at failing_runtime (revoked failing_runtime)).1 = Ok tt /\
  (decide_at failing_runtime (later failing_runtime)).1 = Err ErrForbidden /\
  (decide_at example_runtime (revoked example_runtime)).1 = Err ErrForbidden.
Proof. repeat split; vm_compute; reflexivity. Qed.

(** While statements succeed the answer is that of the tables; when the query
    failed, what was allowed is granted by a state of the last minute. *)
Lemma Authorize_refines_witness :
  ~ granted (st (revoked example_runtime)) 10%N "cases:read" /\
  exists v, granted (st v) 10%N "cases:read" /\ (v = revoked failing_runtime \/ v ∈ tail (run_of failing_runtime)).
Proof.
  split.
  - destruct (@Authorize_refines example_runtime DefaultPermissionTTL no_hash no_random started
      (revoked example_runtime) [asked example_runtime; started] 10%N "cases:read" access_valid eq_refl
      (proj2 (run_history example_runtime ltac:(vm_compute; lia)))) as [H _].
    apply (H (fun _ => eq_refl)). vm_compute. reflexivity.
  - destruct (@Authorize_refines failing_runtime DefaultPermissionTTL no_hash no_random started
      (revoked failing_runtime) [asked failing_runtime; started] 10%N "cases:read" access_valid eq_refl
      (proj2 (run_history failing_runtime ltac:(vm_compute; lia)))) as [_ [[e He]|(v & Hv & [[_ Hg]|[He _]])]].
    + exfalso. apply (f_equal is_ok) in He. vm_compute in He. discriminate.
    + exists v. split; [exact Hg|]. destruct Hv as [Hv|[Hv _]]; [by left|by right].
    + exfalso. apply (f_equal is_ok) in He. vm_compute in He. discriminate.
Defined.
End AccessExample.
