(* ===== verification/RbacAuthClaims.v ===== *)
(** * What authentication guarantees *)

From S2P Require Import Prelude GoStrings Json EngineTypes Store TaskForms GoText Effects.
From S2P Require Import RbacAuth Rbac RbacClaims.

(** ** Texts with dots *)

Lemma Join_Split c s : Join (String c EmptyString) (Split c s) = s.
Proof.
  induction s as [|a s IH]; [done|]. simpl. case_decide as E.
  - subst a. destruct (Split c s) as [|x l] eqn:Es; [by apply Split_nonempty in Es|].
    simpl in *. by rewrite IH.
  - destruct (Split c s) as [|x l] eqn:Es; [by apply Split_nonempty in Es|].
    destruct l; simpl in *; by rewrite <- IH.
Qed.

Lemma CountByte_app c s t : CountByte c (s +:+ t) = (CountByte c s + CountByte c t)%nat.
Proof. induction s as [|a s IH]; [done|]. simpl. rewrite IH. by case_decide. Qed.

Lemma CountByte_none c s : char_in c s = false -> CountByte c s = 0%nat.
Proof.
  induction s as [|a s IH]; [done|]. simpl. intros H. boolp. rewrite decide_False by done. by apply IH.
Qed.

(** ** Tokens *)

Section Tokens.
Context (hmac_sha256 : string -> string -> string).
Context (marshal_claims : tokenClaims -> string) (unmarshal_claims : string -> option tokenClaims).
(** [json.Unmarshal] reads what [json.Marshal] writes of the claims. *)
Context (Hjson : forall c, unmarshal_claims (marshal_claims c) = Some c).

Local Abbreviation sign := (signJWT hmac_sha256 marshal_claims).
Local Abbreviation verify := (parseAndVerifyJWT hmac_sha256 unmarshal_claims).

Definition usable (c : tokenClaims) (now : Z) : Prop :=
  (Unix now < clExpiresAt c)%Z /\ clPrincipalID c <> uuid_Nil /\ clTenantID c <> uuid_Nil /\
  clSessionID c <> uuid_Nil.

Lemma sign_verify secret c now : usable c now -> verify secret (sign secret c) now = Ok c.
Proof.
  intros (Hexp & Hp & Ht & Hs). unfold signJWT, parseAndVerifyJWT.
  set (h := EncodeToString jwt_header). set (b := EncodeToString (marshal_claims c)).
  set (u := h +:+ "." +:+ b).
  assert (u +:+ "." +:+ jwt_signature hmac_sha256 secret u =
    h +:+ String "."%char (b +:+ String "."%char (jwt_signature hmac_sha256 secret u))) as ->
    by (unfold u; by rewrite !append_assoc).
  rewrite Split_cons_sep by apply Encode_no_dot. rewrite Split_cons_sep by apply Encode_no_dot.
  rewrite Split_no_sep by apply Encode_no_dot. rewrite decide_True by done.
  unfold b. rewrite Decode_Encode. simpl. rewrite Hjson.
  destruct (Z.leb_spec (clExpiresAt c) (Unix now)); [lia|].
  by rewrite !bool_decide_eq_false_2.
Qed.

(** A token that is signed is accepted with its own claims until it expires.
    A token that is accepted consists of a body and its signature with the
    secret: whoever presents it has been given it or can compute the signature;
    it has not expired, and it names a principal, a tenant and a session. *)
Theorem jwt_roundtrip secret now :
  (forall c, usable c now -> verify secret (sign secret c) now = Ok c) /\
  (forall token c, verify secret token now = Ok c ->
     usable c now /\ exists header body,
       token = header +:+ "." +:+ body +:+ "." +:+ jwt_signature hmac_sha256 secret (header +:+ "." +:+ body)).
Proof.
  split; [intros c; by apply sign_verify|]. intros token c. unfold parseAndVerifyJWT.
  pose proof (Join_Split "."%char token) as Hj.
  destruct (Split "."%char token) as [|h [|b [|s [|? ?]]]]; [done..| |done].
  case_decide as Hs; [|done]. destruct (DecodeString b ≫= unmarshal_claims) as [c'|]; [|done].
  destruct (Z.leb_spec (clExpiresAt c') (Unix now)); [done|].
  destruct (_ || _) eqn:Eb; [done|]. intros [= <-]. boolp. split; [by split_and!|].
  exists h, b. rewrite <- Hj, Hs. done.
Qed.

Lemma sign_bearer secret c :
  TrimSpace (sign secret c) = sign secret c /\ sign secret c <> "" /\
  CountByte "."%char (sign secret c) = 2%nat.
Proof.
  split_and!.
  - apply TrimSpace_graph. unfold signJWT, jwt_signature. rewrite !all_chars_app, !Encode_graph. done.
  - unfold signJWT. intros E. apply (f_equal String.length) in E. rewrite !append_length in E. simpl in E. lia.
  - unfold signJWT. rewrite !CountByte_app.
    rewrite !(CountByte_none _ (EncodeToString _)) by apply Encode_no_dot.
    unfold jwt_signature. rewrite (CountByte_none _ (EncodeToString _)) by apply Encode_no_dot. done.
Qed.
End Tokens.

(** ** Bearer tokens *)

Section Auth.
Context `{R : Runtime}.
Context (hmac_sha256 : string -> string -> string).
Context (marshal_claims : tokenClaims -> string) (unmarshal_claims : string -> option tokenClaims).
Context (bcrypt_hash : nat -> string -> result goerr string) (bcrypt_matches : string -> string -> bool).
Context (random_hex : nat -> result goerr string) (jwtSecret : string) (sessionTTL : Z).

Local Abbreviation authenticate := (AuthenticateBearer hmac_sha256 unmarshal_claims jwtSecret).
Local Abbreviation login :=
  (Login hmac_sha256 marshal_claims bcrypt_matches random_hex jwtSecret sessionTTL).
Local Abbreviation changePassword := (ChangePassword bcrypt_hash bcrypt_matches).

Lemma auth_exec_ok {A} (run : nat -> Z -> Access -> result goerr (A * Access)) w a w' :
  exec run w = (Ok a, w') -> run (ticks w) (db_now (ticks w)) (st w) = Ok (a, st w') /\ ticks w' = S (ticks w).
Proof.
  unfold exec. destruct (fault (ticks w)); [done|].
  destruct (run _ _ _) as [[b t]|e] eqn:E; [|done]. by intros [= <- <-].
Qed.

Lemma with_roles_ok id t s row w ap w' :
  with_roles id t s row w = (Ok ap, w') ->
  st w' = st w /\ apID ap = id /\ apTenantID ap = t /\ apSessionID ap = s /\ apRow ap = row.
Proof.
  unfold with_roles, tryS, listPrincipalRoleNames, wrapS, select, exec, mbind, Svc_bind.
  destruct (fault (ticks w)); intros [= <- <-]; done.
Qed.

Lemma head_filter {A} (P : A -> Prop) `{!forall x, Decision (P x)} (l : list A) x :
  head (filter P l) = Some x -> P x /\ x ∈ l.
Proof.
  destruct (filter P l) as [|y l'] eqn:E; [done|]. intros [= ->].
  assert (x ∈ filter P l) as Hx by (rewrite E; left). by apply list_elem_of_filter in Hx.
Qed.

(** A session that is not over, of the principal, at the time of the database. *)
Definition session_of (a : Access) (now : Z) (p sid : uuid) : Prop :=
  exists s, sessions a !! sid = Some s /\ sePrincipal s = p /\ (now < seExpiresAt s)%Z.

(** The credential of [ap] that [token] is, in the state before the call. *)
Definition credential (token : string) (w : Sys Access) (ap : AuthPrincipal) : Prop :=
  match apSessionID ap with
  | Some sid =>
      session_of (st w) (db_now (S (ticks w))) (apID ap) sid /\
      exists c, parseAndVerifyJWT hmac_sha256 unmarshal_claims jwtSecret (TrimSpace token)
                  (wall_clock (ticks w)) = Ok c /\
        clPrincipalID c = apID ap /\ clTenantID c = apTenantID ap /\ clSessionID c = sid
  | None => pApiKeyHash (apRow ap) = Some (hashSecret (TrimSpace token))
  end.

Lemma AuthenticateBearer_ok token w ap w' :
  authenticate token w = (Ok ap, w') ->
  st w' = st w /\ principals (st w) !! apID ap = Some (apRow ap) /\
  pTenant (apRow ap) = apTenantID ap /\ pStatus (apRow ap) = "active" /\ credential token w ap.
Proof.
  unfold AuthenticateBearer, credential. case_decide as Hne; [done|]. case_decide as Hcount; intros Hauth.
  - unfold authenticateJWT in Hauth. apply bindS_inv in Hauth as (now & w1 & H1 & H).
    injection H1 as <- <-. apply bindS_inv in H as (c & w2 & H2 & H). injection H2 as Hc <-.
    apply bindS_inv in H as (row & w3 & H3%wrapS_inv & H). apply select_row_ok in H3 as [E3 Hl].
    apply with_roles_ok in H as (E4 & -> & -> & -> & ->). simpl in E3, Hl. rewrite E4, E3, Hc.
    unfold live_session in Hl. destruct (sessions (st w) !! clSessionID c) as [s|] eqn:Es; [|done].
    unfold principal_of in Hl. destruct (principals (st w) !! clPrincipalID c) as [p|]; [|done].
    case_decide as Ht; [|done]. case_decide as Hlive; [|done]. injection Hl as <-.
    destruct Hlive as (? & ? & ?). split_and!; try done.
    + by exists s.
    + by exists c.
  - unfold authenticateAPIKey in Hauth. apply bindS_inv in Hauth as ([id row] & w1 & H1%wrapS_inv & H).
    apply select_row_ok in H1 as [E1 Hk]. apply with_roles_ok in H as (E2 & -> & -> & -> & ->).
    apply head_filter in Hk as [[Hh Hs] Hin%elem_of_map_to_list]. simpl in *. rewrite E2, E1. done.
Qed.

(** C24. Whoever is authenticated is an active principal, of the tenant that is
    reported, and has shown either a token with a valid signature and a session
    of that principal that is not over, or a key whose hash is stored with the
    principal. Authentication changes nothing. *)
Theorem AuthenticateBearer_sound token w ap w'
    (Hauth : authenticate token w = (Ok ap, w')) :
  st w' = st w /\ principals (st w) !! apID ap = Some (apRow ap) /\
  pTenant (apRow ap) = apTenantID ap /\ pStatus (apRow ap) = "active" /\ credential token w ap.
Proof. exact (AuthenticateBearer_ok token w ap w' Hauth). Qed.

(** ** Revocation *)

Lemma guard_inv ok e (w : Sys Access) x w' : guardS ok e w = (Ok x, w') -> ok = true /\ w' = w.
Proof. destruct ok; [|done]. by intros [= _ <-]. Qed.

Lemma delete_sessions_principals t p keep a : principals (delete_sessions t p keep a) = principals a.
Proof. unfold delete_sessions. by destruct (principal_of t p a). Qed.

Lemma DisablePrincipal_effect t p w w' :
  DisablePrincipal t p w = (Ok tt, w') ->
  exists row, principals (st w') !! p = Some row /\ pStatus row = "disabled".
Proof.
  unfold DisablePrincipal, UpdatePrincipal. intros H.
  apply bindS_inv in H as (? & w1 & H & [= <-]). apply bindS_inv in H as (? & w2 & H1 & H).
  apply bindS_inv in H as (? & w3 & H2 & H). injection H2 as _ <-.
  apply transactS_inv in H1 as (c & w4 & H1 & E4).
  apply bindS_inv in H1 as (row & w5 & Hr%wrapS_inv & H1). apply select_row_ok in Hr as [E5 Hrow].
  cbn [uName uEmail uStatus uRoles when] in H1.
  do 2 (apply bindS_inv in H1 as (? & ? & [= _ <-] & H1)).
  apply bindS_inv in H1 as (? & w6 & Hs & H1). apply bindS_inv in H1 as (? & ? & [= _ <-] & [= _ _ <-]).
  unfold set_status_tx in Hs. apply bindS_inv in Hs as (? & ? & [_ ->]%guard_inv & Hs).
  apply bindS_inv in Hs as (? & w7 & Hu%wrapS_inv & Hd). rewrite decide_True in Hd by done.
  apply wrapS_inv in Hd. apply auth_exec_ok in Hu as [[= _ Eu] _]. apply auth_exec_ok in Hd as [[= _ Ed] _].
  assert (principals (st w1) = principals (st w6)) as ->.
  { assert (st w1 = set_cache (delete p) (st w2)) as ->; [|simpl; by rewrite E4].
    assert (keepsS (fun a a' : Access => a' = a) (GetPrincipal t p)) as K.
    { assert (PreOrder (fun a a' : Access => a' = a)) by (split; [done|by intros ? ? ? -> ->]).
      unfold GetPrincipal, listPrincipalRoleNames. keeps_steps. }
    specialize (K (mkSys (set_cache (delete p) (st w2)) (ticks w2))). by rewrite H in K. }
  simpl in E5, Hrow. rewrite <- E5 in Hrow.
  exists (with_pstatus "disabled" row). split; [|done]. rewrite <- Ed, <- Eu.
  rewrite delete_sessions_principals. unfold update_principal. rewrite Hrow. simpl.
  by rewrite lookup_insert_eq.
Qed.

Lemma event_ok e w w' : ignoreS (recordAuthEvent e) w = (Ok tt, w') ->
  sessions (st w') = sessions (st w) /\ principals (st w') = principals (st w).
Proof.
  unfold ignoreS, recordAuthEvent, wrapS, exec_update, exec. destruct (fault (ticks w)); by intros [= <-].
Qed.

Lemma ChangePassword_effect t p sid old new w w' :
  changePassword t p sid old new w = (Ok tt, w') ->
  forall s row, sessions (st w') !! s = Some row -> sePrincipal row = p -> s = sid.
Proof.
  unfold ChangePassword. intros H. apply bindS_inv in H as (? & w1 & [= _ <-] & H).
  apply bindS_inv in H as (? & w2 & H & [-> _]%event_ok). apply transactS_inv in H as (c & w3 & H & ->).
  apply bindS_inv in H as (row & w4 & Hr%wrapS_inv & H). apply select_row_ok in Hr as [E4 Hrow].
  apply bindS_inv in H as (h & w5 & H5 & H). destruct (pPasswordHash row) as [h'|]; [|done].
  injection H5 as _ <-. apply bindS_inv in H as (? & w6 & [_ ->]%guard_inv & H).
  apply bindS_inv in H as (nh & w7 & H7%wrapS_inv & H). injection H7 as _ <-.
  apply bindS_inv in H as (? & w8 & H8%wrapS_inv & H). apply bindS_inv in H as (? & w9 & H9%wrapS_inv & H).
  injection H as _ _ <-. apply auth_exec_ok in H8 as [[= _ E8] _]. apply auth_exec_ok in H9 as [[= _ E9] _].
  simpl in E8, E4, Hrow. unfold changeable in Hrow. rewrite <- E4 in Hrow.
  destruct (principal_of t p (st w4)) as [p0|] eqn:Ep; [|done].
  assert (principal_of t p (st w8) <> None) as Hp8.
  { rewrite <- E8. unfold update_principal. rewrite Ep. unfold principal_of in *. simpl.
    rewrite lookup_insert_eq. destruct (principals (st w4) !! p) as [q|]; [|done].
    destruct (decide (pTenant q = t)) as [Hq|]; [|done]. injection Ep as <-. simpl.
    by rewrite decide_True. }
  intros s r Hs Hsp. rewrite <- E9 in Hs. unfold delete_sessions in Hs.
  destruct (principal_of t p (st w8)); [|done]. simpl in Hs.
  apply map_lookup_filter_Some in Hs as [_ [Hc|Hc]]; simpl in Hc; [done|]. by boolp.
Qed.

(** Access that is taken away is gone: once a principal has been disabled, no
    token and no key authenticates it; once a password has been changed, a
    token authenticates the principal only with the session that changed it. *)
Theorem revoked_access_refused t p w w' token ap w2 w3
    (Hafter : st w2 = st w') (Hauth : authenticate token w2 = (Ok ap, w3)) :
  (DisablePrincipal t p w = (Ok tt, w') -> apID ap <> p) /\
  (forall sid old new, changePassword t p sid old new w = (Ok tt, w') ->
     apID ap = p -> forall s, apSessionID ap = Some s -> s = sid).
Proof.
  destruct (AuthenticateBearer_ok token w2 ap w3 Hauth) as (_ & Hp & _ & Ha & Hs).
  unfold credential in Hs. rewrite Hafter in *.
  split.
  - intros (row & Hrow & Hd)%DisablePrincipal_effect Hid. rewrite Hid in Hp. congruence.
  - intros sid old new Hc Hid s Es. rewrite Es in Hs. destruct Hs as [(r & Hr & Hsp & _) _].
    eapply (ChangePassword_effect _ _ _ _ _ _ _ Hc s r); congruence.
Qed.

(** ** Login *)

(** The request names a tenant and an active human of the tenant, by email and password. *)
Definition may_login (a : Access) (req : LoginRequest) (tenant : uuid) (p : uuid * PrincipalRow) : Prop :=
  exists row, resolveTenant (lqTenantID req) (lqTenantSlug req) a = Some (tenant, row) /\
    lookupPrincipalForLogin tenant (lqEmail req) a = Some p /\ pStatus p.2 = "active" /\
    bcrypt_matches (default "" (pPasswordHash p.2)) (lqPassword req) = true.

Lemma login_failed_run {A} tenant principal data w :
  exists w', (login_failed tenant principal data : Svc Access A) w = (Err ErrInvalidCredential, w') /\
    sessions (st w') = sessions (st w).
Proof.
  unfold login_failed, mbind, Svc_bind. destruct (ignoreS _ w) as [r w1] eqn:E.
  assert (r = Ok tt) as -> by (unfold ignoreS in E; by injection E as <- _).
  exists w1. split; [done|]. by apply event_ok in E as [-> _].
Qed.

Lemma try_select {A} (f : Z -> Access -> option A) w :
  exists r, tryS (select_row f) w = (Ok r, mkSys (st w) (S (ticks w))) /\
    forall x, r = Ok x -> f (db_now (ticks w)) (st w) = Some x.
Proof.
  unfold tryS, select_row, exec. destruct (fault (ticks w)) as [e|].
  - eexists. split; [reflexivity|]. by intros x [=].
  - destruct (f _ (st w)) as [x|] eqn:E; eexists; (split; [reflexivity|]); intros y [= <-]; done.
Qed.

(** Either the credentials are right, or the one error of a failed login. *)
Lemma check_credentials_run req w :
  exists r w', check_credentials bcrypt_matches req w = (r, w') /\ sessions (st w') = sessions (st w) /\
    match r with
    | Ok (tenant, p) => st w' = st w /\ may_login (st w) req tenant p
    | Err e => e = ErrInvalidCredential
    end.
Proof.
  unfold check_credentials.
  destruct (try_select (fun _ a => resolveTenant (lqTenantID req) (lqTenantSlug req) a) w) as (r1 & E1 & H1).
  rewrite (bindS_Ok _ _ _ _ _ E1). set (w1 := mkSys (st w) (S (ticks w))).
  assert (forall (t p : option uuid) d w2, st w2 = st w -> exists r w',
    (login_failed t p d : Svc Access (uuid * (uuid * PrincipalRow))) w2 = (r, w') /\
    sessions (st w') = sessions (st w) /\
    match r with Ok (tenant, p) => st w' = st w /\ may_login (st w) req tenant p
               | Err e => e = ErrInvalidCredential end) as Hfail.
  { intros t p d w2 Es. destruct (@login_failed_run (uuid * (uuid * PrincipalRow)) t p d w2) as (w' & -> & Hs).
    eexists _, w'. split; [reflexivity|]. by rewrite Hs, Es. }
  destruct r1 as [[tenant trow]|e]; [|by apply Hfail]. specialize (H1 _ eq_refl).
  destruct (try_select (fun _ a => lookupPrincipalForLogin tenant (lqEmail req) a) w1) as (r2 & E2 & H2).
  rewrite (bindS_Ok _ _ _ _ _ E2). destruct r2 as [p|e]; [|by apply Hfail]. specialize (H2 _ eq_refl).
  case_decide as Ha; [by apply Hfail|]. destruct (bcrypt_matches _ _) eqn:Em; [|by apply Hfail].
  eexists _, _. split; [reflexivity|]. split; [done|]. split; [done|]. exists trow.
  split_and!; done || by apply dec_stable.
Qed.

(** Every login that is refused for its credentials is refused in the same
    way and opens no session: an unknown tenant, an unknown email, a disabled
    principal and a wrong password cannot be told apart by the answer. *)
Theorem Login_refusals_alike req w
    (Hbad : forall tenant p, ~ may_login (st w) req tenant p) :
  (login req w).1 = Err ErrInvalidCredential /\ sessions (st (login req w).2) = sessions (st w).
Proof.
  destruct (check_credentials_run req w) as (r & w' & E & Hs & Hr). unfold Login.
  destruct r as [[tenant p]|e].
  - destruct Hr as [_ Hr]. by apply Hbad in Hr.
  - rewrite (bindS_Err _ _ _ _ _ E). by rewrite Hr.
Qed.

Lemma quiet_select {A} (f : Z -> Access -> A) fmt w r w' :
  wrapS (Wrapf fmt []) (select f) w = (Ok r, w') -> st w' = st w.
Proof. intros H%wrapS_inv. unfold select in H. by apply auth_exec_ok in H as [[= _ <-] _]. Qed.

Lemma GetPreferences_state t p w : st (GetPreferences t p w).2 = st w.
Proof.
  assert (keepsS (fun a a' : Access => a' = a) (GetPreferences t p)) as H; [|apply H].
  assert (PreOrder (fun a a' : Access => a' = a)) by (split; [done|by intros ? ? ? -> ->]).
  unfold GetPreferences, default_theme, getTenantDefaultThemeID. keeps_steps.
Qed.

(** What a login that succeeds leaves: a new session of the principal, and a token that names it. *)
Lemma Login_effect req w resp w' :
  login req w = (Ok resp, w') ->
  exists tenant p sid k, may_login (st w) req tenant p /\
    lpPrincipal resp = mkPrincipal p.1 p.2 (prRoles (lpPrincipal resp)) /\ sid = gen_random_uuid k /\
    lpToken resp = signJWT hmac_sha256 marshal_claims jwtSecret
      (mkTokenClaims p.1 (pTenant p.2) sid (Unix (lpExpiresAt resp))) /\
    (exists row, sessions (st w') !! sid = Some row /\ sePrincipal row = p.1 /\
       seExpiresAt row = lpExpiresAt resp) /\
    principals (st w') = principals (st w).
Proof.
  unfold Login. intros H. destruct (check_credentials_run req w) as (r & w1 & E & _ & Hr).
  destruct r as [[tenant p]|e]; [|rewrite (bindS_Err _ _ _ _ _ E) in H; done].
  rewrite (bindS_Ok _ _ _ _ _ E) in H. destruct Hr as [Es Hlogin].
  apply bindS_inv in H as (tok & w2 & H2%wrapS_inv & H). injection H2 as _ <-.
  apply bindS_inv in H as (now & w3 & H3 & H). injection H3 as <- <-.
  apply bindS_inv in H as (sid & w4 & H4%wrapS_inv & H).
  apply bindS_inv in H as (names & w5 & H5 & H). apply quiet_select in H5.
  apply bindS_inv in H as (ths & w6 & H6 & H). apply quiet_select in H6.
  apply bindS_inv in H as (prefs & w7 & H7%wrapS_inv & H).
  apply bindS_inv in H as (? & w8 & H8 & H). injection H as <- <-.
  pose proof (GetPreferences_state tenant p.1 w6) as E7. rewrite H7 in E7. simpl in E7.
  destruct x. apply event_ok in H8 as [E8s E8p].
  apply auth_exec_ok in H4 as [H4 _]. simpl in H4.
  unfold insert_session in H4. destruct (decide _) in H4; [done|]. destruct (existsb _ _) in H4; [done|].
  simpl in H4. injection H4 as <- E4.
  exists tenant, p. eexists _, _. split; [done|]. split; [done|]. split; [reflexivity|]. split; [reflexivity|].
  rewrite E8s, E8p, E7, H6, H5, <- E4. simpl. rewrite lookup_insert_eq, Es. split; [eauto|done].
Qed.

(** A login that succeeds gives a token that authenticates the same principal,
    in the tenant of the principal, until the session is over, as long as
    statements succeed. *)
Theorem Login_authenticates req w resp w' w2
    (Hlogin : login req w = (Ok resp, w')) (Hjson : forall c, unmarshal_claims (marshal_claims c) = Some c)
    (Hfresh : forall k, gen_random_uuid k <> uuid_Nil)
    (Hids : prID (lpPrincipal resp) <> uuid_Nil /\ pTenant (prRow (lpPrincipal resp)) <> uuid_Nil)
    (Hlater : st w2 = st w') (Hnofault : forall n, fault n = None)
    (Hclock : (Unix (wall_clock (ticks w2)) < Unix (lpExpiresAt resp))%Z)
    (Hdbclock : (db_now (S (ticks w2)) < lpExpiresAt resp)%Z) :
  exists ap, (authenticate (lpToken resp) w2).1 = Ok ap /\
    apID ap = prID (lpPrincipal resp) /\ apTenantID ap = pTenant (prRow (lpPrincipal resp)) /\
    apRow ap = prRow (lpPrincipal resp).
Proof.
  destruct (Login_effect req w resp w' Hlogin)
    as (tenant & p & sid & k & (trow & _ & Hlook & Hact & _) & Ep & Esid & Et & (srow & Hs & Hsp & Hse) & Hps).
  destruct p as [pid prow]. cbn [fst snd] in *.
  rewrite Ep in *. cbn [prID prRow] in *. destruct Hids as [Hid Htid].
  apply head_filter in Hlook as [_ Hin%elem_of_map_to_list].
  set (c := mkTokenClaims pid (pTenant prow) sid (Unix (lpExpiresAt resp))) in *.
  destruct (sign_bearer hmac_sha256 marshal_claims jwtSecret c) as (Ht & Hne & Hcount).
  assert (usable c (wall_clock (ticks w2))) as Hu by (split_and!; simpl; [done..|]; rewrite Esid; apply Hfresh).
  unfold AuthenticateBearer. rewrite Et, Ht, decide_False, decide_True by done.
  unfold authenticateJWT, nowS, pureS, mbind, Svc_bind. cbn [ticks st].
  rewrite (sign_verify _ _ _ Hjson _ _ _ Hu).
  unfold wrapS, select_row, exec. cbn [ticks st]. rewrite Hnofault.
  assert (live_session c (db_now (S (ticks w2))) (st w2) = Some prow) as ->.
  { unfold live_session. simpl. rewrite Hlater, Hs. unfold principal_of. rewrite Hps, Hin.
    rewrite decide_True by done. rewrite decide_True; [done|]. rewrite Hse. done. }
  unfold with_roles, tryS, listPrincipalRoleNames, wrapS, select, exec, mbind, Svc_bind. cbn [ticks st].
  rewrite Hnofault. simpl. eexists. split; [reflexivity|]. done.
Qed.
End Auth.

(** ** Example: a tenant with one human and one agent *)

Module AuthExample.

(** A text of the claims that can be read back. *)
Fixpoint bits (p : positive) : string :=
  match p with
  | xH => EmptyString
  | xO p => String "0" (bits p)
  | xI p => String "1" (bits p)
  end.
Fixpoint unbits (s : string) : positive :=
  match s with
  | EmptyString => xH
  | String a s => if Ascii.eqb a "0" then xO (unbits s) else xI (unbits s)
  end.
Lemma unbits_bits p : unbits (bits p) = p.
Proof. induction p as [p IH|p IH|]; simpl; [by rewrite IH..|done]. Qed.

Definition tuple (c : tokenClaims) : N * N * N * Z :=
  (clPrincipalID c, clTenantID c, clSessionID c, clExpiresAt c).
Definition untuple (t : N * N * N * Z) : tokenClaims := mkTokenClaims t.1.1.1 t.1.1.2 t.1.2 t.2.
Definition marshal (c : tokenClaims) : string := bits (encode (tuple c)).
Definition unmarshal (s : string) : option tokenClaims := untuple <$> decode (unbits s).

Lemma unmarshal_marshal c : unmarshal (marshal c) = Some c.
Proof. unfold unmarshal, marshal. rewrite unbits_bits, decode_encode. by destruct c. Qed.

Definition hmac (secret msg : string) : string := secret.
Definition matches (hash pw : string) : bool := bool_decide (hash = pw).
Definition human : PrincipalRow :=
  mkPrincipalRow 1%N "human" "ann" (Some "ann@x.org") (Some "pw123456") None "active" (JObj []) 0.
Definition agent : PrincipalRow :=
  mkPrincipalRow 1%N "agent" "bot" None None (Some (@hashSecret example_runtime "acx_key_1")) "active" (JObj []) 0.
Definition acme : TenantRow := mkTenantRow "Acme" "acme" (JObj []) (JObj []) (JObj []).
Definition access : Access :=
  mkAccess {[1%N := acme]} {[10%N := human; 11%N := agent]} ∅ ∅ ∅ ∅ ∅ ∅ [] ∅.
Definition w0 : Sys Access := mkSys access 0.
Definition req (pw : string) : LoginRequest := mkLoginRequest None "acme" " Ann@X.org " pw.

Definition do_login (pw : string) := @Login example_runtime hmac marshal matches (fun _ => Ok "aa") "secret" Hour (req pw).
Definition do_auth := @AuthenticateBearer example_runtime hmac unmarshal "secret".

Lemma jwt_roundtrip_witness :
  parseAndVerifyJWT hmac unmarshal "secret" (signJWT hmac marshal "secret" (mkTokenClaims 10%N 1%N 5%N 100)) 0 =
  Ok (mkTokenClaims 10%N 1%N 5%N 100).
Proof.
  apply (jwt_roundtrip hmac marshal unmarshal unmarshal_marshal "secret" 0).
  split_and!; simpl; done.
Defined.

Lemma AuthenticateBearer_sound_witness :
  exists ap, (do_auth "acx_key_1" w0).1 = Ok ap /\ pStatus (apRow ap) = "active" /\ apID ap = 11%N.
Proof.
  destruct (do_auth "acx_key_1" w0) as [[ap|e] w1] eqn:E; [|exfalso; revert E; vm_compute; discriminate].
  exists ap. split; [reflexivity|].
  pose proof (@AuthenticateBearer_sound example_runtime hmac unmarshal "secret" "acx_key_1" w0 ap w1 E)
    as (_ & _ & _ & H & _).
  split; [exact H|]. revert E. vm_compute. intros [= <- _]. reflexivity.
Defined.

Lemma revoked_access_refused_witness :
  (@DisablePrincipal example_runtime 1%N 10%N w0).1 = Ok tt /\
  exists ap, (do_auth "acx_key_1" (@DisablePrincipal example_runtime 1%N 10%N w0).2).1 = Ok ap /\ apID ap <> 10%N.
Proof.
  assert (exists w1 ap w2, @DisablePrincipal example_runtime 1%N 10%N w0 = (Ok tt, w1) /\
    do_auth "acx_key_1" w1 = (Ok ap, w2)) as (w1 & ap & w2 & E1 & E)
    by (eexists _, _, _; split; vm_compute; reflexivity).
  rewrite E1. split; [reflexivity|]. exists ap. split; [simpl; by rewrite E|].
  exact (proj1 (@revoked_access_refused example_runtime hmac unmarshal (fun _ _ => Ok "") matches "secret"
    1%N 10%N w0 w1 "acx_key_1" ap w1 w2 eq_refl E) E1).
Defined.

Lemma Login_refusals_alike_witness : (do_login "wrong" w0).1 = Err ErrInvalidCredential.
Proof.
  apply (@Login_refusals_alike example_runtime hmac marshal matches (fun _ => Ok "aa") "secret" Hour (req "wrong") w0).
  intros tenant [pid prow] (row & H1 & H2 & H3 & H4). revert H1 H2 H4. vm_compute.
  intros [= <- <-] [= <- <-]. discriminate.
Defined.

Lemma Login_authenticates_witness :
  exists resp ap, (do_login "pw123456" w0).1 = Ok resp /\
    (do_auth (lpToken resp) (do_login "pw123456" w0).2).1 = Ok ap /\ apID ap = prID (lpPrincipal resp).
Proof.
  assert (exists resp w1, do_login "pw123456" w0 = (Ok resp, w1)) as (resp & w1 & E)
    by (eexists _, _; vm_compute; reflexivity).
  assert (lpExpiresAt resp = (1700000003 * Second + Hour)%Z /\ prID (lpPrincipal resp) = 10%N /\
    prRow (lpPrincipal resp) = human) as (H1 & H2 & H3)
    by (apply (f_equal fst) in E; revert E; vm_compute; intros [= <-]; done).
  assert (w1 = (do_login "pw123456" w0).2) as Ew by (by rewrite E).
  rewrite E. cbn [fst snd].
  destruct (@Login_authenticates example_runtime hmac marshal unmarshal matches (fun _ => Ok "aa") "secret" Hour
    (req "pw123456") w0 resp w1 w1 E unmarshal_marshal) as (ap & Ha & Hid & _).
  - intros k Hk. unfold uuid_Nil in Hk. simpl in Hk. lia.
  - rewrite H2, H3. done.
  - reflexivity.
  - intros n. reflexivity.
  - rewrite H1, Ew. vm_compute. reflexivity.
  - rewrite H1, Ew. vm_compute. reflexivity.
  - exists resp, ap. split; [reflexivity|]. split; [exact Ha|exact Hid].
Defined.
End AuthExample.
