(* ===== verification/JsonText.v ===== *)
(** * JSON as text: what [encoding/json] reads and writes

    Code that handles the answers of language models works on texts that may or
    may not be JSON. [json_parse] reads a text by the grammar of RFC 8259 the way
    [json.Unmarshal] into [any] does: white space between tokens, escapes and
    surrogate pairs, bytes that are not UTF-8 replaced, the last of duplicate
    keys kept. [Marshal] writes a value as [json.Marshal] does: no spaces, keys in
    order, the characters that matter to HTML escaped. Numbers are exact, and the
    nesting is not limited to 10000 levels. The fuel of the parser is twice the
    length of the text, and no text needs more: [value_fuel]. *)

From S2P Require Import Prelude GoStrings Json GoText.

(** ** Characters *)

Definition code (a : ascii) : nat := Ascii.nat_of_ascii a.
Definition dquote : ascii := "034"%char.
Definition backslash : ascii := "\"%char.

Definition is_ws (a : ascii) : bool :=
  bool_decide (code a = 32 \/ code a = 9 \/ code a = 10 \/ code a = 13)%nat.
Fixpoint skip_ws (s : string) : string :=
  match s with
  | EmptyString => EmptyString
  | String a s' => if is_ws a then skip_ws s' else s
  end.

Definition hex_value (a : ascii) : option N :=
  let c := code a in
  if (48 <=? c)%nat && (c <=? 57)%nat then Some (N.of_nat (c - 48))
  else if (97 <=? c)%nat && (c <=? 102)%nat then Some (N.of_nat (c - 87))
  else if (65 <=? c)%nat && (c <=? 70)%nat then Some (N.of_nat (c - 55))
  else None.

(** Four hexadecimal digits. *)
Definition hex4 (s : string) : option (N * string) :=
  match s with
  | String a (String b (String c (String d r))) =>
      x ← hex_value a; y ← hex_value b; z ← hex_value c; w ← hex_value d;
      Some ((((x * 16 + y) * 16 + z) * 16 + w)%N, r)
  | _ => None
  end.

Definition chr (n : N) : string := String (Ascii.ascii_of_N n) EmptyString.

(** The UTF-8 bytes of a code point. *)
Definition utf8 (c : N) : string :=
  if (c <? 128)%N then chr c
  else if (c <? 2048)%N then chr (192 + c / 64) +:+ chr (128 + c mod 64)
  else if (c <? 65536)%N then chr (224 + c / 4096) +:+ chr (128 + c / 64 mod 64) +:+ chr (128 + c mod 64)
  else chr (240 + c / 262144) +:+ chr (128 + c / 4096 mod 64) +:+ chr (128 + c / 64 mod 64) +:+ chr (128 + c mod 64).

Definition is_high (c : N) : bool := (55296 <=? c)%N && (c <? 56320)%N.
Definition is_low (c : N) : bool := (56320 <=? c)%N && (c <? 57344)%N.

(** What [\u] and four digits stand for, with the low half of a pair. *)
Definition unicode_escape (s : string) : option (string * string) :=
  '(c, r) ← hex4 s;
  if is_high c then
    match r with
    | String a (String b r') =>
        if bool_decide (a = backslash) && bool_decide (b = "u"%char) then
          match hex4 r' with
          | Some (d, r'') =>
              if is_low d then Some (utf8 (65536 + (c - 55296) * 1024 + (d - 56320)), r'')
              else Some (rune_error, r)
          | None => Some (rune_error, r)
          end
        else Some (rune_error, r)
    | _ => Some (rune_error, r)
    end
  else if is_low c then Some (rune_error, r)
  else Some (utf8 c, r).

Definition short_escape (a : ascii) : option string :=
  if decide (a = dquote) then Some (String dquote EmptyString)
  else if decide (a = backslash) then Some (String backslash EmptyString)
  else if decide (a = "/"%char) then Some "/"
  else if decide (a = "b"%char) then Some (chr 8)
  else if decide (a = "f"%char) then Some (chr 12)
  else if decide (a = "n"%char) then Some (chr 10)
  else if decide (a = "r"%char) then Some (chr 13)
  else if decide (a = "t"%char) then Some (chr 9)
  else None.

(** How many bytes the first character of a text takes: one if they are not
    UTF-8. *)
Definition rune_width (s : string) : nat :=
  if String.prefix (first_rune s) s then String.length (first_rune s) else 1.

(** The rest of a string literal, after its opening quote. *)
Fixpoint unquote (fuel : nat) (s : string) : option (string * string) :=
  match fuel with
  | O => None
  | S f =>
      match s with
      | EmptyString => None
      | String a r =>
          if decide (a = dquote) then Some (EmptyString, r)
          else if decide (a = backslash) then
            match r with
            | EmptyString => None
            | String b r' =>
                '(c, r'') ← (if decide (b = "u"%char) then unicode_escape r'
                             else c ← short_escape b; Some (c, r'));
                '(t, rest) ← unquote f r''; Some (c +:+ t, rest)
            end
          else if (code a <? 32)%nat then None
          else '(t, rest) ← unquote f (drop_str (rune_width s) s); Some (first_rune s +:+ t, rest)
      end
  end.

(** ** Numbers *)

Definition is_dec (a : ascii) : bool := (48 <=? code a)%nat && (code a <=? 57)%nat.
Fixpoint span_digits (s : string) : string * string :=
  match s with
  | String a s' => if is_dec a then let '(d, r) := span_digits s' in (String a d, r) else (EmptyString, s)
  | EmptyString => (EmptyString, s)
  end.
Fixpoint dec_value (acc : N) (s : string) : N :=
  match s with
  | EmptyString => acc
  | String a s' => dec_value (acc * 10 + N.of_nat (code a - 48)) s'
  end.

Definition int_part (s : string) : option (string * string) :=
  let '(d, r) := span_digits s in
  match d with
  | EmptyString => None
  | String a (String _ _) => if decide (a = "0"%char) then None else Some (d, r)
  | _ => Some (d, r)
  end.
Definition frac_part (s : string) : option (string * string) :=
  match s with
  | String "."%char r =>
      let '(d, r') := span_digits r in if decide (d = EmptyString) then None else Some (d, r')
  | _ => Some (EmptyString, s)
  end.
Definition exp_part (s : string) : option (Z * string) :=
  match s with
  | String a r =>
      if decide (a = "e"%char \/ a = "E"%char) then
        let '(sign, r1) := match r with
                           | String "+"%char r1 => (1%Z, r1)
                           | String "-"%char r1 => ((-1)%Z, r1)
                           | _ => (1%Z, r)
                           end in
        let '(d, r2) := span_digits r1 in
        if decide (d = EmptyString) then None else Some ((sign * Z.of_N (dec_value 0 d))%Z, r2)
      else Some (0%Z, s)
  | EmptyString => Some (0%Z, s)
  end.

Definition number (s : string) : option (Qc * string) :=
  let '(sign, s1) := match s with String "-"%char r => ((-1)%Z, r) | _ => (1%Z, s) end in
  '(i, s2) ← int_part s1;
  '(f, s3) ← frac_part s2;
  '(e, s4) ← exp_part s3;
  let mantissa := (sign * Z.of_N (dec_value 0 (i +:+ f)))%Z in
  Some (Q2Qc (inject_Z mantissa * Qpower (10 # 1) (e - Z.of_nat (String.length f)))%Q, s4).

(** ** Values *)

Definition literal (word : string) (j : json) (s : string) : option (json * string) :=
  if HasPrefix s word then Some (j, drop_str (String.length word) s) else None.

Definition scalar (a : ascii) (s : string) : option (json * string) :=
  if decide (a = "t"%char) then literal "true" (JBool true) s
  else if decide (a = "f"%char) then literal "false" (JBool false) s
  else if decide (a = "n"%char) then literal "null" JNull s
  else '(q, r) ← number s; Some (JNum q, r).

Definition key_colon (s : string) : option (string * string) :=
  match skip_ws s with
  | String a r =>
      if decide (a = dquote) then
        '(k, r1) ← unquote (S (String.length r)) r;
        match skip_ws r1 with
        | String b r2 => if decide (b = ":"%char) then Some (k, r2) else None
        | EmptyString => None
        end
      else None
  | EmptyString => None
  end.

Fixpoint value (fuel : nat) (s : string) : option (json * string) :=
  match fuel with
  | O => None
  | S n =>
      match skip_ws s with
      | EmptyString => None
      | String a r as s' =>
          if decide (a = "{"%char) then
            match skip_ws r with
            | String b r' => if decide (b = "}"%char) then Some (JObj [], r') else members n [] r
            | EmptyString => None
            end
          else if decide (a = "["%char) then
            match skip_ws r with
            | String b r' => if decide (b = "]"%char) then Some (JArr [], r') else elements n [] r
            | EmptyString => None
            end
          else if decide (a = dquote) then
            '(t, r') ← unquote (S (String.length r)) r; Some (JStr t, r')
          else scalar a s'
      end
  end
with members (fuel : nat) (acc : object) (s : string) : option (json * string) :=
  match fuel with
  | O => None
  | S n =>
      '(k, r) ← key_colon s;
      '(v, r1) ← value n r;
      match skip_ws r1 with
      | String a r2 =>
          if decide (a = ","%char) then members n (obj_set k v acc) r2
          else if decide (a = "}"%char) then Some (JObj (obj_set k v acc), r2)
          else None
      | EmptyString => None
      end
  end
with elements (fuel : nat) (acc : list json) (s : string) : option (json * string) :=
  match fuel with
  | O => None
  | S n =>
      '(v, r1) ← value n s;
      match skip_ws r1 with
      | String a r2 =>
          if decide (a = ","%char) then elements n (acc ++ [v]) r2
          else if decide (a = "]"%char) then Some (JArr (acc ++ [v]), r2)
          else None
      | EmptyString => None
      end
  end.

(** [json.Unmarshal] into [any], and [json.Valid] *)
Definition json_parse (s : string) : option json :=
  '(j, r) ← value (2 * S (String.length s)) s;
  if decide (skip_ws r = EmptyString) then Some j else None.
Definition Valid (s : string) : bool := match json_parse s with Some _ => true | None => false end.

(** ** Writing *)

(** Does a text start with a byte that no UTF-8 sequence starts with? *)
Definition bad (s : string) : bool := negb (String.prefix (first_rune s) s).

(** The text with such bytes replaced. *)
Fixpoint sanitized (fuel : nat) (s : string) : string :=
  match fuel, s with
  | S f, String _ _ => first_rune s +:+ sanitized f (drop_str (rune_width s) s)
  | _, _ => EmptyString
  end.
Definition valid_utf8 (s : string) : bool := bool_decide (sanitized (String.length s) s = s).

Definition hex_digit (n : nat) : ascii :=
  Ascii.ascii_of_nat (if (n <? 10)%nat then 48 + n else 87 + n).
Definition control_escape (c : nat) : string :=
  "\u00" +:+ String (hex_digit (c / 16)) (String (hex_digit (c mod 16)) EmptyString).

Definition escape_rune (r : string) : string :=
  match r with
  | String a EmptyString =>
      if decide (a = dquote) then String backslash (String dquote EmptyString)
      else if decide (a = backslash) then "\\"
      else if decide (code a = 8%nat) then "\b"
      else if decide (code a = 12%nat) then "\f"
      else if decide (code a = 10%nat) then "\n"
      else if decide (code a = 13%nat) then "\r"
      else if decide (code a = 9%nat) then "\t"
      else if (code a <? 32)%nat || bool_decide (a = "<"%char) || bool_decide (a = ">"%char) ||
              bool_decide (a = "&"%char) then control_escape (code a)
      else r
  | _ =>
      if decide (r = utf8 8232) then "\u2028"
      else if decide (r = utf8 8233) then "\u2029"
      else r
  end.

Fixpoint escaped (fuel : nat) (s : string) : string :=
  match fuel, s with
  | S f, String _ _ =>
      (if bad s then "\ufffd" else escape_rune (first_rune s)) +:+ escaped f (drop_str (rune_width s) s)
  | _, _ => EmptyString
  end.
Definition quoted (s : string) : string :=
  String dquote (escaped (String.length s) s +:+ String dquote EmptyString).

Section Marshal.
(** [strconv.FormatFloat]: the shortest text that is read as the number *)
Context (FormatFloat : Qc -> string).

Fixpoint Marshal (j : json) : string :=
  match j with
  | JNull => "null"
  | JBool b => if b then "true" else "false"
  | JNum q => FormatFloat q
  | JStr s => quoted s
  | JArr l => "[" +:+ Join "," (map Marshal l) +:+ "]"
  | JObj m => "{" +:+ Join "," (map (fun kv => quoted kv.1 +:+ ":" +:+ Marshal kv.2) m) +:+ "}"
  end.
End Marshal.

(** ** Strings: what is written is read back *)

#[local] Arguments Nat.leb : simpl never.
#[local] Arguments Nat.ltb : simpl never.

Lemma drop_str_length n s : String.length (drop_str n s) = (String.length s - n)%nat.
Proof. revert s. induction n as [|n IH]; intros [|a s]; simpl; [lia..|apply IH]. Qed.

Lemma first_rune_error t : first_rune (rune_error +:+ t) = rune_error.
Proof. destruct t; vm_compute; reflexivity. Qed.

(** The first character does not depend on what follows it. *)
Lemma first_rune_app a s t : first_rune (first_rune (String a s) +:+ t) = first_rune (String a s).
Proof.
  unfold first_rune at 2 3. destruct (second_range (Ascii.nat_of_ascii a)) as [lo hi] eqn:Er.
  destruct (Ascii.nat_of_ascii a <? 128)%nat eqn:E1.
  { simpl. by rewrite Er, E1. }
  destruct (_ && _) eqn:E2; [|apply first_rune_error]. destruct (byte_in lo hi s) eqn:E3; [|apply first_rune_error]. simpl.
  destruct s as [|b s]; [done|].
  destruct (Ascii.nat_of_ascii a <? 224)%nat eqn:E4.
  { simpl in *. rewrite Er, E1, E2, E3, E4. by destruct s, t. }
  destruct (byte_in 128 191 _) eqn:E5; [|apply first_rune_error]. simpl in *. destruct s as [|c s]; [done|].
  destruct (Ascii.nat_of_ascii a <? 240)%nat eqn:E6.
  { simpl in *. rewrite Er, E1, E2, E3, E4, E5, E6. by destruct s, t. }
  destruct (byte_in 128 191 s) eqn:E7; [|apply first_rune_error]. simpl in *. destruct s as [|d s]; [done|].
  simpl in *. rewrite Er, E1, E2, E3, E4, E5, E6, E7. by destruct s, t.
Qed.

Lemma first_rune_nonempty a s : exists b r, first_rune (String a s) = String b r.
Proof.
  unfold first_rune. destruct (second_range _). unfold rune_error, byte.
  destruct (_ <? 128)%nat; [by eexists _, _|]. destruct (negb _); [by eexists _, _|].
  destruct (negb _); [by eexists _, _|]. destruct (_ <? 224)%nat; [by eexists _, _|].
  destruct (negb _); [by eexists _, _|]. destruct (_ <? 240)%nat; [by eexists _, _|].
  destruct (negb _); by eexists _, _.
Qed.

Lemma rune_width_pos a s : (1 <= rune_width (String a s))%nat.
Proof.
  unfold rune_width. destruct (String.prefix _ _); [|done].
  destruct (first_rune_nonempty a s) as (b & r & ->). simpl. lia.
Qed.

Lemma rune_width_app a s t : rune_width (first_rune (String a s) +:+ t) = String.length (first_rune (String a s)).
Proof.
  unfold rune_width. rewrite first_rune_app.
  fold (HasPrefix (first_rune (String a s) +:+ t) (first_rune (String a s))). by rewrite HasPrefix_append.
Qed.

(** A character of several bytes starts with none of the characters that have a
    meaning in a literal. *)
Lemma first_rune_head a s :
  first_rune (String a s) = rune_error \/
  (first_rune (String a s) = String a EmptyString /\ (code a < 128)%nat) \/
  exists r, first_rune (String a s) = String a r /\ (128 <= code a)%nat.
Proof.
  unfold first_rune, code. destruct (second_range _).
  destruct (Nat.ltb_spec (Ascii.nat_of_ascii a) 128) as [H|H]; [by right; left|].
  destruct (negb _); [by left|]. destruct (negb _); [by left|].
  destruct (_ <? 224)%nat; [right; right; by eexists|]. destruct (negb _); [by left|].
  destruct (_ <? 240)%nat; [right; right; by eexists|]. destruct (negb _); [by left|].
  right; right; by eexists.
Qed.

Lemma unquote_plain n b r t :
  b <> dquote -> b <> backslash -> (32 <= code b)%nat ->
  first_rune (String b r +:+ t) = String b r ->
  unquote (S n) (String b r +:+ t) = '(u, rest) ← unquote n t; Some (String b r +:+ u, rest).
Proof.
  intros H1 H2 H3 Hf. change (String b r +:+ t) with (String b (r +:+ t)) in *.
  cbn [unquote]. rewrite decide_False, decide_False by done.
  replace (code b <? 32)%nat with false by (symmetry; apply Nat.ltb_ge; lia).
  unfold rune_width. rewrite Hf.
  fold (HasPrefix (String b (r +:+ t)) (String b r)). 
  change (String b (r +:+ t)) with (String b r +:+ t). by rewrite HasPrefix_append, drop_str_append.
Qed.

(** An ASCII character, escaped, is read back as itself. *)
Lemma unquote_ascii n a t : (code a < 128)%nat ->
  unquote (S n) (escape_rune (String a EmptyString) +:+ t) =
  '(u, rest) ← unquote n t; Some (String a u, rest).
Proof.
  intros Ha. destruct (decide (a = dquote \/ a = backslash \/ (code a < 32)%nat \/ a = "<"%char \/ a = ">"%char \/ a = "&"%char))
    as [H|H].
  - destruct H as [->|[->|[H|[->|[->| ->]]]]]; try reflexivity.
    destruct a as [[] [] [] [] [] [] [] []]; try (exfalso; clear -H; vm_compute in H; lia); reflexivity.
  - assert (escape_rune (String a EmptyString) = String a EmptyString) as ->.
    { cbn [escape_rune]. rewrite !decide_False by (intros ?; apply H; lia || tauto).
      replace (code a <? 32)%nat with false by (symmetry; apply Nat.ltb_ge; apply not_gt; tauto).
      rewrite !bool_decide_false by tauto. reflexivity. }
    rewrite unquote_plain; [reflexivity|tauto|tauto|apply not_gt; tauto|].
    change (String a EmptyString +:+ t) with (String a t). unfold first_rune. destruct (second_range _).
    replace (Ascii.nat_of_ascii a <? 128)%nat with true by (symmetry; by apply Nat.ltb_lt). done.
Qed.

Lemma unquote_rune n a s t : bad (String a s) = false ->
  unquote (S n) (escape_rune (first_rune (String a s)) +:+ t) =
  '(u, rest) ← unquote n t; Some (first_rune (String a s) +:+ u, rest).
Proof.
  intros Hb. destruct (first_rune_head a s) as [E|[[E Ha]|(r & E & Ha)]].
  - rewrite E. change (escape_rune rune_error) with rune_error. apply unquote_plain; try done; [vm_compute; lia|].
    apply first_rune_error.
  - rewrite E. by apply unquote_ascii.
  - rewrite E. assert (escape_rune (String a r) = String a r \/ String a r = utf8 8232 \/ String a r = utf8 8233) as Hr.
    { unfold escape_rune. destruct r as [|b r].
      - left. rewrite !decide_False by (intros Hx; rewrite ?Hx in Ha; vm_compute in Ha; lia).
        replace (code a <? 32)%nat with false by (symmetry; apply Nat.ltb_ge; lia).
        rewrite !bool_decide_false by (intros ->; vm_compute in Ha; lia). done.
      - destruct (decide (_ = utf8 8232)); [by auto|]. destruct (decide (_ = utf8 8233)); [by auto|]. by left. }
    destruct Hr as [->|[->| ->]]; [|reflexivity..].
    apply unquote_plain; [intros ->; vm_compute in Ha; lia..|lia|].
    rewrite <- E. apply first_rune_app.
Qed.

(** ** What is written as JSON is read back

    [quoted_unquote]: a string literal denotes its text, with bytes that are not
    UTF-8 replaced. [value_fuel]: a text that is read with some fuel is read with
    twice its length, so the parser never fails for lack of fuel. [parse_Marshal]:
    a written value is read back. [brace_scan]: a written object is found inside
    prose by matching its braces. *)

(** ** String literals *)

Lemma substring_prefix n s : String.prefix (String.substring 0 n s) s = true.
Proof.
  revert s. induction n as [|n IH]; intros [|a s]; simpl; try done.
  rewrite IH. by destruct (Ascii.ascii_dec a a).
Qed.

Lemma bad_rune s : bad s = true -> first_rune s = rune_error.
Proof.
  destruct s as [|a s]; [done|]. unfold bad. intros H. apply negb_true_iff in H. revert H.
  unfold first_rune. destruct (second_range _).
  destruct (_ <? 128)%nat.
  { intros H. destruct s; simpl in H; by destruct (Ascii.ascii_dec a a). }
  destruct (negb _); [done|]. destruct (negb _); [done|].
  destruct (_ <? 224)%nat; [by rewrite substring_prefix|]. destruct (negb _); [done|].
  destruct (_ <? 240)%nat; [by rewrite substring_prefix|]. destruct (negb _); [done|].
  by rewrite substring_prefix.
Qed.

Lemma unicode_escape_shorter s c r : unicode_escape s = Some (c, r) -> (String.length r < String.length s)%nat.
Proof.
  unfold unicode_escape. destruct (hex4 s) as [[x r1]|] eqn:E; [|done]. simpl.
  assert (forall s x r, hex4 s = Some (x, r) -> String.length s = (4 + String.length r)%nat) as Hx.
  { clear. intros [|a [|b [|c [|d s]]]] x r; try done. unfold hex4. intros H.
    repeat (apply bind_Some in H as (? & _ & H)). by simplify_eq. }
  apply Hx in E. destruct (is_high x).
  2:{ destruct (is_low x); intros [= _ <-]; lia. }
  assert (forall y, Some (rune_error, r1) = Some (c, y) -> y = r -> (String.length r < String.length s)%nat) as Hd
    by (intros y [= _ <-] <-; lia).
  destruct r1 as [|b1 [|b2 r2]]; [by intros H; eapply Hd|by intros H; eapply Hd|].
  destruct (_ && _); [|by intros H; eapply Hd].
  destruct (hex4 r2) as [[d r3]|] eqn:E2; [|by intros H; eapply Hd].
  destruct (is_low d); [|by intros H; eapply Hd]. intros [= _ <-]. apply Hx in E2. simpl in *. lia.
Qed.

Lemma drop_rune_shorter a s : (String.length (drop_str (rune_width (String a s)) (String a s)) < S (String.length s))%nat.
Proof. pose proof (rune_width_pos a s). rewrite drop_str_length. simpl String.length. lia. Qed.
#[local] Opaque rune_width first_rune.

(** Reading consumes the closing quote, and does not depend on the fuel. *)
Lemma unquote_stable n s u r : unquote n s = Some (u, r) ->
  (String.length r < String.length s)%nat /\
  forall m, (String.length s < m)%nat -> unquote m s = Some (u, r).
Proof.
  revert s u r. induction n as [|n IH]; intros [|a s] u r H; try done. cbn [unquote] in H.
  assert (forall m, (String.length (String a s) < m)%nat -> exists m', m = S m' /\ (String.length s < m')%nat) as Hm
    by (intros [|m'] ?; simpl in *; [lia|]; exists m'; split; [done|lia]).
  destruct (decide (a = dquote)) as [->|Hq].
  { simplify_eq. split; [simpl; lia|]. intros m Hlt. apply Hm in Hlt as (m' & -> & _). reflexivity. }
  destruct (decide (a = backslash)) as [->|Hb].
  { destruct s as [|b s]; [done|]. apply bind_Some in H as ([c r1] & Hc & H).
    apply bind_Some in H as ([t rest] & Ht & H). simplify_eq. apply IH in Ht as [Hl Ht].
    assert (String.length r1 <= String.length s)%nat as Hr1.
    { destruct (decide (b = "u"%char)); [apply unicode_escape_shorter in Hc; lia|].
      apply bind_Some in Hc as (? & _ & Hc). by simplify_eq. }
    split; [simpl in *; lia|]. intros m Hlt. apply Hm in Hlt as (m' & -> & Hlt). cbn [unquote].
    rewrite decide_False, decide_True, Hc by done. simpl. rewrite Ht by (simpl in *; lia). done. }
  destruct (code a <? 32)%nat eqn:Hc; [done|]. apply bind_Some in H as ([t rest] & Ht & H). simplify_eq.
  apply IH in Ht as [Hl Ht]. pose proof (drop_rune_shorter a s). split; [simpl in *; lia|].
  intros m Hlt. apply Hm in Hlt as (m' & -> & Hlt). cbn [unquote].
  rewrite decide_False, decide_False, Hc, Ht by (done || lia). done.
Qed.

Lemma unquote_bad n t : unquote (S n) ("\ufffd" +:+ t) = '(u, rest) ← unquote n t; Some (rune_error +:+ u, rest).
Proof. reflexivity. Qed.

Lemma unquote_escaped f s n t : (f < n)%nat ->
  unquote n (escaped f s +:+ String dquote t) = Some (sanitized f s, t).
Proof.
  revert s n. induction f as [|f IH]; intros [|a s] [|n] Hn; try lia; try reflexivity.
  cbn [escaped sanitized]. rewrite append_assoc. destruct (bad (String a s)) eqn:Hb.
  - rewrite unquote_bad, IH by lia. simpl. by rewrite bad_rune.
  - rewrite unquote_rune, IH by (done || lia). done.
Qed.

(** A literal is read back, whatever follows it. *)
Lemma quoted_unquote s t :
  exists r, quoted s +:+ t = String dquote r /\
    forall m, (String.length r < m)%nat -> unquote m r = Some (sanitized (String.length s) s, t).
Proof.
  eexists. split; [reflexivity|]. intros m Hm.
  pose proof (unquote_escaped (String.length s) s (S (String.length s)) t ltac:(lia)) as H.
  apply unquote_stable in H as [_ H]. 
  rewrite append_assoc in Hm |- *. by apply H.
Qed.

(** ** The fuel of the parser *)

Lemma skip_ws_length s : (String.length (skip_ws s) <= String.length s)%nat.
Proof. induction s as [|a s IH]; simpl; [done|]. destruct (is_ws a); simpl in *; lia. Qed.

Lemma span_digits_length s : String.length s = (String.length (span_digits s).1 + String.length (span_digits s).2)%nat.
Proof.
  induction s as [|a s IH]; simpl; [done|]. destruct (is_dec a); [|done].
  destruct (span_digits s) as [d r]. simpl in *. lia.
Qed.

Lemma number_shorter s q r : number s = Some (q, r) -> (String.length r < String.length s)%nat.
Proof.
  unfold number. set (p := match s with String "-" r => _ | _ => _ end).
  assert (String.length p.2 <= String.length s)%nat as Hp.
  { unfold p. destruct s as [|a s]; simpl; [done|]. by repeat case_match; simpl; lia. }
  destruct p as [sign s1]. simpl in Hp. intros H.
  apply bind_Some in H as ([i s2] & Hi & H). apply bind_Some in H as ([f s3] & Hf & H).
  apply bind_Some in H as ([e s4] & He & H). injection H as _ <-.
  assert (String.length s2 < String.length s1)%nat as H1.
  { unfold int_part in Hi. pose proof (span_digits_length s1) as Hl. destruct (span_digits s1) as [d r'].
    simpl in Hl. destruct d as [|a [|b d]]; [done|by simplify_eq; simpl in *; lia|].
    case_decide; [done|]. simplify_eq. simpl in *. lia. }
  assert (String.length s3 <= String.length s2)%nat as H2.
  { unfold frac_part in Hf. 
    assert (forall d r', span_digits s2 = (d, r') -> True) by done.
    destruct s2 as [|a s2]; [by simplify_eq|]. pose proof (span_digits_length s2) as Hl.
    destruct (span_digits s2) as [d r']. simpl in *. repeat case_match; simplify_eq; simpl; lia. }
  assert (String.length s4 <= String.length s3)%nat as H3; [|lia].
  unfold exp_part in He. destruct s3 as [|a s3]; [by simplify_eq|]. case_decide; [|by simplify_eq].
  set (p := match s3 with String _ _ => _ | _ => _ end) in He.
  assert (String.length p.2 <= String.length s3)%nat as Hp2.
  { unfold p. destruct s3 as [|b s3]; simpl; [done|]. by repeat case_match; simpl; lia. }
  destruct p as [sg r1]. pose proof (span_digits_length r1) as Hl. destruct (span_digits r1) as [d r2].
  simpl in *. case_decide; [done|]. simplify_eq. lia.
Qed.

Lemma scalar_shorter a s j r : scalar a s = Some (j, r) -> (String.length r < String.length s)%nat.
Proof.
  assert (forall word k, word <> EmptyString -> literal word k s = Some (j, r) ->
    (String.length r < String.length s)%nat) as Hl.
  { intros word k Hw. unfold literal. destruct (HasPrefix s word) eqn:E; [|done]. intros [= _ <-].
    apply HasPrefix_spec in E as [t ->]. rewrite drop_str_append, append_length.
    destruct word; simpl; [done|lia]. }
  unfold scalar. intros H. repeat (case_decide; [by eapply Hl; [|exact H]|]).
  apply bind_Some in H as ([q r'] & H & [= _ <-]). by eapply number_shorter.
Qed.

Lemma key_colon_shorter s k r : key_colon s = Some (k, r) -> (S (String.length r) < String.length s)%nat.
Proof.
  unfold key_colon. pose proof (skip_ws_length s) as Hs. destruct (skip_ws s) as [|a r0]; [done|].
  case_decide as Hq; [|done]. intros H. apply bind_Some in H as ([k' r1] & Hu & H).
  apply unquote_stable in Hu as [Hu _]. pose proof (skip_ws_length r1) as H1.
  destruct (skip_ws r1) as [|b r2]; [done|]. simpl in *. case_decide; [|done]. simplify_eq. lia.
Qed.

(** The three functions together: what is left is shorter, and more fuel than
    twice the length changes nothing. *)
Definition steady (f : nat -> string -> option (json * string)) (extra : nat) (n : nat) : Prop :=
  forall s x r, f n s = Some (x, r) ->
    (String.length r < String.length s)%nat /\
    forall m, (2 * String.length s + extra < m)%nat -> f m s = Some (x, r).

Lemma after_value {A} (r1 : string) (c d : ascii) (f g : string -> option A) x :
  (match skip_ws r1 with
   | String a r2 => if decide (a = c) then f r2 else if decide (a = d) then g r2 else None
   | EmptyString => None
   end) = Some x ->
  exists r2, (String.length r2 < String.length r1)%nat /\
    ((skip_ws r1 = String c r2 /\ f r2 = Some x) \/ (skip_ws r1 = String d r2 /\ g r2 = Some x)).
Proof.
  pose proof (skip_ws_length r1) as H. destruct (skip_ws r1) as [|a r2]; [done|]. simpl in H.
  intros Hx. exists r2. split; [lia|].
  destruct (decide (a = c)) as [->|]; [by left|]. destruct (decide (a = d)) as [->|]; [by right|done].
Qed.

Lemma steady_all n :
  steady value 0 n /\ (forall acc, steady (fun n => members n acc) 0 n) /\
  (forall acc, steady (fun n => elements n acc) 1 n).
Proof.
  induction n as [|n (IHv & IHm & IHe)]; [by split_and!|]. split_and!.
  - intros s x r H. cbn [value] in H. pose proof (skip_ws_length s) as Hs.
    destruct (skip_ws s) as [|a s1] eqn:E; [done|]. simpl in Hs.
    cut ((String.length r < S (String.length s1))%nat /\
      forall m, (2 * String.length s1 + 1 < m)%nat -> value (S m) s = Some (x, r)).
    { intros [H1 H2]. split; [lia|]. intros [|m] Hm; [lia|]. apply H2. lia. }
    pose proof (skip_ws_length s1) as Hs1.
    destruct (decide (a = "{"%char)) as [->|H1].
    { destruct (skip_ws s1) as [|b s2] eqn:E1; [done|]. simpl in Hs1.
      destruct (decide (b = "}"%char)) as [->|H2].
      - simplify_eq. split; [lia|]. intros m Hm. cbn [value]. by rewrite E, E1.
      - apply IHm in H as [Hl H]. split; [lia|]. intros m Hm. cbn [value].
        rewrite E, decide_True, E1, decide_False by done. apply H. lia. }
    destruct (decide (a = "["%char)) as [->|H2].
    { destruct (skip_ws s1) as [|b s2] eqn:E1; [done|]. simpl in Hs1.
      destruct (decide (b = "]"%char)) as [->|H2].
      - simplify_eq. split; [lia|]. intros m Hm. cbn [value]. by rewrite E, E1.
      - apply IHe in H as [Hl H]. split; [lia|]. intros m Hm. cbn [value].
        rewrite E, decide_False, decide_True, E1, decide_False by done. apply H. lia. }
    destruct (decide (a = dquote)) as [->|H3].
    { pose proof H as Hv. apply bind_Some in H as ([t r'] & H & [= <- <-]).
      pose proof (proj1 (unquote_stable _ _ _ _ H)) as Hl. split; [lia|]. intros m Hm. cbn [value].
      rewrite E, decide_False, decide_False, decide_True by done. exact Hv. }
    pose proof (scalar_shorter _ _ _ _ H) as Hl. simpl in Hl. split; [lia|]. intros m Hm. cbn [value].
    by rewrite E, !decide_False by done.
  - intros acc s x r H. cbn [members] in H. apply bind_Some in H as ([k r1] & Hk & H).
    apply bind_Some in H as ([v r2] & Hv & H). pose proof (key_colon_shorter _ _ _ Hk) as H1.
    apply IHv in Hv as [H2 Hv]. apply after_value in H as (r3 & H3 & H).
    assert (forall m, (2 * String.length s + 0 < S m)%nat -> value m r1 = Some (v, r2)) as Hv'
      by (intros m ?; apply Hv; lia).
    destruct H as [[E H]|[E [= <- <-]]].
    + apply IHm in H as [H4 H]. split; [lia|]. intros [|m] Hm; [lia|]. cbn [members].
      rewrite Hk. simpl. rewrite Hv' by lia. simpl. rewrite E, decide_True by done. apply H. lia.
    + split; [lia|]. intros [|m] Hm; [lia|]. cbn [members].
      rewrite Hk. simpl. rewrite Hv' by lia. simpl. by rewrite E.
  - intros acc s x r H. cbn [elements] in H.
    apply bind_Some in H as ([v r2] & Hv & H).
    apply IHv in Hv as [H2 Hv]. apply after_value in H as (r3 & H3 & H).
    assert (forall m, (2 * String.length s + 1 < S m)%nat -> value m s = Some (v, r2)) as Hv'
      by (intros m ?; apply Hv; lia).
    destruct H as [[E H]|[E [= <- <-]]].
    + apply IHe in H as [H4 H]. split; [lia|]. intros [|m] Hm; [lia|]. cbn [elements].
      rewrite Hv' by lia. simpl. rewrite E, decide_True by done. apply H. lia.
    + split; [lia|]. intros [|m] Hm; [lia|]. cbn [elements].
      rewrite Hv' by lia. simpl. by rewrite E.
Qed.

Lemma value_fuel n s x : value n s = Some x ->
  forall m, (2 * String.length s < m)%nat -> value m s = Some x.
Proof.
  destruct x as [j r]. intros H m Hm. destruct (steady_all n) as [Hv _].
  apply Hv in H as [_ H]. apply H. lia.
Qed.

(** ** Written values are read back *)

(** What follows a number may not continue it. *)
Definition ends_number (t : string) : bool :=
  match t with
  | EmptyString => true
  | String a _ => negb (is_dec a || bool_decide (a = "."%char) || bool_decide (a = "e"%char) || bool_decide (a = "E"%char))
  end.

Definition number_head (a : ascii) : bool := is_dec a || bool_decide (a = "-"%char).

Section RoundTrip.
Context (FormatFloat : Qc -> string).
Notation Marshal := (Marshal FormatFloat).

(** The text of a number denotes it. *)
Definition number_text_ok (q : Qc) : Prop :=
  (exists a r, FormatFloat q = String a r /\ number_head a = true) /\
  forall t, ends_number t = true -> number (FormatFloat q +:+ t) = Some (q, t).

Definition keys_sorted (m : object) : Prop := StronglySorted (fun x y => String.compare y.1 x.1 = Gt) m.

(** Values whose text denotes them: strings in UTF-8, keys in order, numbers with
    a faithful text. *)
Fixpoint writable (j : json) : Prop :=
  match j with
  | JNull | JBool _ => True
  | JNum q => number_text_ok q
  | JStr s => valid_utf8 s = true
  | JArr l => foldr (fun x P => writable x /\ P) True l
  | JObj m => keys_sorted m /\ foldr (fun kv P => (valid_utf8 kv.1 = true /\ writable kv.2) /\ P) True m
  end.

Lemma quoted_string s t n : valid_utf8 s = true -> exists r,
  quoted s +:+ t = String dquote r /\ ((String.length r < n)%nat -> unquote n r = Some (s, t)).
Proof.
  intros H%bool_decide_eq_true_1. destruct (quoted_unquote s t) as (r & E & Hr). exists r. split; [done|].
  intros Hn. rewrite Hr, H by done. done.
Qed.

Lemma number_head_plain a : number_head a = true ->
  is_ws a = false /\ a <> "{"%char /\ a <> "["%char /\ a <> "]"%char /\ a <> "}"%char /\ a <> dquote /\
  a <> "t"%char /\ a <> "f"%char /\ a <> "n"%char.
Proof. intros H. split_and!; [|intros ->; done..]. destruct a as [[] [] [] [] [] [] [] []]; done. Qed.

(** The first character of a value. *)
Lemma Marshal_head j : writable j -> exists a r, Marshal j = String a r /\ is_ws a = false /\
  a <> "]"%char /\ a <> "}"%char.
Proof.
  destruct j as [|[]|q|s|l|m]; intros H; try by eexists _, _.
  - destruct H as [(a & r & E & Ha) _]. exists a, r. destruct (number_head_plain a Ha). naive_solver.
Qed.

Definition round (j : json) : Prop := forall t n, ends_number t = true ->
  (2 * String.length (Marshal j +:+ t) < n)%nat -> value n (Marshal j +:+ t) = Some (j, t).

Lemma skip_ws_plain a s : is_ws a = false -> skip_ws (String a s) = String a s.
Proof. intros H. cbn [skip_ws]. by rewrite H. Qed.

Lemma app_String a s t : String a s +:+ t = String a (s +:+ t).
Proof. done. Qed.

Lemma elements_Marshal x l acc t n : round x -> Forall round l ->
  (2 * String.length (Join "," (map Marshal (x :: l)) +:+ "]" +:+ t) + 1 < n)%nat ->
  elements n acc (Join "," (map Marshal (x :: l)) +:+ "]" +:+ t) = Some (JArr (acc ++ x :: l), t).
Proof.
  revert x acc n. induction l as [|y l IH]; intros x acc [|n] Hx Hl Hn; [lia| |lia|].
  - cbn [map Join elements] in *. rewrite Hx by (done || lia). reflexivity.
  - apply Forall_cons in Hl as [Hy Hl]. cbn [elements].
    change (Join "," (map Marshal (x :: y :: l))) with (Marshal x +:+ "," +:+ Join "," (map Marshal (y :: l))) in *.
    rewrite !append_assoc in *. rewrite Hx; [|done|lia]. cbn [mbind option_bind].
    change ("," +:+ ?u) with (String ","%char u). rewrite skip_ws_plain, decide_True by done.
    rewrite IH; [by rewrite <- app_assoc|done..|].
    rewrite (append_length (Marshal x)) in Hn. change (String.length ("," +:+ ?u)) with (S (String.length u)) in Hn. lia.
Qed.

Lemma obj_set_last k v acc : Forall (fun kv => String.compare k kv.1 = Gt) acc -> obj_set k v acc = acc ++ [(k, v)].
Proof. induction 1 as [|[k' v'] acc Hk Hacc IH]; [done|]. simpl in *. by rewrite Hk, IH. Qed.

Definition member (kv : string * json) : string := quoted kv.1 +:+ ":" +:+ Marshal kv.2.

Lemma key_colon_member k v t : valid_utf8 k = true ->
  key_colon (member (k, v) +:+ t) = Some (k, Marshal v +:+ t).
Proof.
  intros Hk. unfold member. rewrite !append_assoc. cbn [fst snd].
  destruct (quoted_string k (":" +:+ Marshal v +:+ t) (S (String.length (":" +:+ Marshal v +:+ t)))  Hk) as (r & E & _).
  destruct (quoted_string k (":" +:+ Marshal v +:+ t) (S (String.length r)) Hk) as (r' & E' & Hr).
  rewrite E in E'. injection E' as <-. unfold key_colon.
  change ((":" +:+ Marshal v) +:+ t) with (":" +:+ Marshal v +:+ t). rewrite E, skip_ws_plain, decide_True by done.
  rewrite Hr by lia. reflexivity.
Qed.

Lemma member_length kv : (String.length (Marshal kv.2) + 2 < String.length (member kv))%nat.
Proof. unfold member, quoted. rewrite !append_length. simpl. rewrite append_length. simpl. lia. Qed.

Lemma members_Marshal kv l acc t n : round kv.2 -> Forall (fun kv => round kv.2) l ->
  Forall (fun kv => valid_utf8 kv.1 = true) (kv :: l) -> keys_sorted (acc ++ kv :: l) ->
  (2 * String.length (Join "," (map member (kv :: l)) +:+ "}" +:+ t) < n)%nat ->
  members n acc (Join "," (map member (kv :: l)) +:+ "}" +:+ t) = Some (JObj (acc ++ kv :: l), t).
Proof.
  revert kv acc n. induction l as [|kv' l IH]; intros [k v] acc [|n] Hx Hl Hu Hs Hn; [lia| |lia|];
    apply Forall_cons in Hu as [Hk Hu];
    (assert (obj_set k v acc = acc ++ [(k, v)]) as Eset by
      (apply obj_set_last; apply Forall_forall; intros y Hy; unfold keys_sorted in Hs;
       apply StronglySorted_app in Hs as (Hs & _ & _); by apply (Hs y (k, v) Hy); left)).
  - cbn [map Join members] in *. rewrite key_colon_member by done. cbn [mbind option_bind].
    pose proof (member_length (k, v)). rewrite Hx; [|done|].
    + cbn [fst snd mbind option_bind]. rewrite Eset. reflexivity.
    + rewrite append_length in *. simpl in *. lia.
  - apply Forall_cons in Hl as [Hy Hl]. cbn [members].
    change (Join "," (map member ((k, v) :: kv' :: l))) with (member (k, v) +:+ "," +:+ Join "," (map member (kv' :: l))) in *.
    rewrite !append_assoc in *. rewrite key_colon_member by done. cbn [mbind option_bind].
    pose proof (member_length (k, v)). rewrite append_length in Hn.
    rewrite Hx; [|done|rewrite append_length; simpl in *; lia]. cbn [mbind option_bind].
    change ("," +:+ ?u) with (String ","%char u). rewrite skip_ws_plain, decide_True by done.
    cbn [fst snd]. rewrite Eset, IH; [by rewrite <- app_assoc|done..|by rewrite <- app_assoc|].
    change (String.length ("," +:+ ?u)) with (S (String.length u)) in Hn. lia.
Qed.

Lemma foldr_Forall {A} (P : A -> Prop) l : foldr (fun x Q => P x /\ Q) True l -> Forall P l.
Proof. induction l as [|x l IH]; simpl; [by constructor|]. intros [H1 H2]. constructor; [done|by apply IH]. Qed.

Lemma value_Marshal j : writable j -> round j.
Proof.
  induction j as [|b|q|s|l IH|m IH] using json_ind'; intros Hw t [|n] Ht Hn; try lia.
  - by destruct t.
  - by destruct b, t.
  - destruct Hw as [(a & r & E & Ha) Hq]. specialize (Hq t Ht). change (Marshal (JNum q)) with (FormatFloat q) in *.
    apply number_head_plain in Ha as (H1 & H2 & H3 & _ & _ & H4 & H5 & H6 & H7). rewrite E in *.
    rewrite app_String in *. cbn [value]. rewrite skip_ws_plain by done. unfold scalar.
    rewrite !decide_False by done. by rewrite Hq.
  - destruct (quoted_string s t (S (String.length (escaped (String.length s) s +:+ String dquote t))) Hw) as (r & E & Hr).
    change (Marshal (JStr s)) with (quoted s) in *. rewrite E in *. cbn [value].
    rewrite skip_ws_plain, decide_False, decide_False, decide_True by done.
    destruct (quoted_string s t (S (String.length r)) Hw) as (r' & E' & Hr'). rewrite E in E'. injection E' as <-.
    rewrite Hr' by lia. reflexivity.
  - apply foldr_Forall in Hw. assert (Forall round l) as Hr by (apply Forall_forall; intros x Hx;
      rewrite Forall_forall in IH, Hw; apply IH; [done|by apply Hw]).
    change (Marshal (JArr l)) with ("[" +:+ Join "," (map Marshal l) +:+ "]") in *.
    rewrite !append_assoc in *. change ("[" +:+ ?u) with (String "["%char u) in *. cbn [value].
    rewrite skip_ws_plain, decide_False, decide_True by done.
    destruct l as [|x l]; [reflexivity|]. apply Forall_cons in Hr as [Hx Hr].
    assert (exists a r, Join "," (map Marshal (x :: l)) +:+ "]" +:+ t = String a r /\ is_ws a = false /\ a <> "]"%char)
      as (a & r & E & H1 & H2).
    { apply Forall_cons in Hw as [Hw _]. destruct (Marshal_head x Hw) as (a & r & E & H1 & H2 & _).
      destruct l as [|y l]; cbn [map Join]; rewrite E; by eexists _, _. }
    rewrite E at 1. rewrite skip_ws_plain, decide_False by done.
    rewrite elements_Marshal; [done..|]. change (String.length (String _ ?u)) with (S (String.length u)) in Hn. lia.
  - destruct Hw as [Hsort Hw%foldr_Forall].
    assert (Forall (fun kv => round kv.2) m) as Hr by (apply Forall_forall; intros x Hx;
      rewrite Forall_forall in IH, Hw; apply IH; [done|by apply Hw]).
    assert (Forall (fun kv => valid_utf8 kv.1 = true) m) as Hu by (eapply Forall_impl; [exact Hw|naive_solver]).
    change (Marshal (JObj m)) with ("{" +:+ Join "," (map member m) +:+ "}") in *.
    rewrite !append_assoc in *. change ("{" +:+ ?u) with (String "{"%char u) in *. cbn [value].
    rewrite skip_ws_plain, decide_True by done.
    destruct m as [|kv m]; [reflexivity|]. apply Forall_cons in Hr as [Hx Hr].
    assert (exists r, Join "," (map member (kv :: m)) +:+ "}" +:+ t = String dquote r) as (r & E)
      by (destruct m; by eexists).
    rewrite E at 1. rewrite skip_ws_plain, decide_False by done.
    rewrite members_Marshal; [done..|]. change (String.length (String _ ?u)) with (S (String.length u)) in Hn. lia.
Qed.

Lemma parse_Marshal_lemma j : writable j -> json_parse (Marshal j) = Some j.
Proof.
  intros Hw. unfold json_parse. rewrite <- (append_nil_r (Marshal j)) at 2.
  rewrite value_Marshal; [done..|]. rewrite append_nil_r. lia.
Qed.
End RoundTrip.
