(* ===== verification/Agentic.v ===== *)
(** * Agentic steps: limits, tools, prompts and conclusions
    ([internal/agentic/types.go], [constraints.go], [tools.go], [validate_tool.go],
    [output.go], [context_mgmt.go], [prompt.go], [store.go], [internal/llm/types.go])

    An agentic step lets a language model reason about a case with tools. This file
    has the data and the functions without effects: the limits of a run, the tools
    a policy admits, the check of a call and of its arguments, and the search for
    the JSON conclusion in an answer. A [json.RawMessage] is a text here, since an
    answer need not be JSON. The JSON-schema library is a parameter that compiles
    a schema or fails, and whose result accepts or refuses a value. *)

From S2P Require Import Prelude GoStrings Json EngineTypes Store TaskForms GoText Effects JsonText.

(** ** Limits ([types.go], [constraints.go]) *)

Record ReasoningLimits : Type := mkReasoningLimits {
  rlMaxIterations : Z;
  rlMaxToolCalls : Z;
  rlMaxTokens : Z;
  rlTimeout : Z
}.

Definition defaultMaxIterations : Z := 10.
Definition defaultMaxToolCalls : Z := 20.
Definition defaultMaxTokens : Z := 50000.
Definition defaultTimeout : Z := 5 * Minute.

Definition or_default (d x : Z) : Z := if (x <=? 0)%Z then d else x.

Definition ApplyDefaults (l : ReasoningLimits) : ReasoningLimits :=
  mkReasoningLimits (or_default defaultMaxIterations (rlMaxIterations l))
    (or_default defaultMaxToolCalls (rlMaxToolCalls l))
    (or_default defaultMaxTokens (rlMaxTokens l)) (or_default defaultTimeout (rlTimeout l)).

Record ConstraintEnforcer : Type := mkConstraintEnforcer {
  ceLimits : ReasoningLimits;
  ceStartTime : Z;
  ceIteration : Z;
  ceToolCalls : Z;
  ceTokensUsed : Z
}.

Definition NewConstraintEnforcer (limits : ReasoningLimits) (now : Z) : ConstraintEnforcer :=
  mkConstraintEnforcer (ApplyDefaults limits) now 0 0 0.

Definition CheckIteration (ce : ConstraintEnforcer) : string :=
  if (rlMaxIterations (ceLimits ce) <=? ceIteration ce)%Z
  then "You have reached the maximum number of reasoning iterations. You must conclude now with your best assessment."
  else "".

Definition CheckToolCalls (ce : ConstraintEnforcer) : string :=
  if (rlMaxToolCalls (ceLimits ce) <=? ceToolCalls ce)%Z
  then "Tool call limit reached. You cannot make more tool calls. Conclude with available information."
  else "".

Definition SetTokensUsed (tokens : Z) (ce : ConstraintEnforcer) : ConstraintEnforcer :=
  mkConstraintEnforcer (ceLimits ce) (ceStartTime ce) (ceIteration ce) (ceToolCalls ce) tokens.
Definition IncrementIteration (ce : ConstraintEnforcer) : ConstraintEnforcer :=
  mkConstraintEnforcer (ceLimits ce) (ceStartTime ce) (wrap64 (ceIteration ce + 1)) (ceToolCalls ce) (ceTokensUsed ce).
Definition IncrementToolCalls (ce : ConstraintEnforcer) : ConstraintEnforcer :=
  mkConstraintEnforcer (ceLimits ce) (ceStartTime ce) (ceIteration ce) (wrap64 (ceToolCalls ce + 1)) (ceTokensUsed ce).

(** The warning and the hard stop. Four fifths of the budget are computed exactly,
    which agrees with [float64] for budgets below 2^50. *)
Definition CheckTokenBudget (tokensUsed : Z) (ce : ConstraintEnforcer) : string * bool * ConstraintEnforcer :=
  let ce := SetTokensUsed tokensUsed ce in
  if (rlMaxTokens (ceLimits ce) <=? ceTokensUsed ce)%Z then ("", true, ce)
  else if (rlMaxTokens (ceLimits ce) * 4 / 5 <=? ceTokensUsed ce)%Z
  then ("80% of token budget consumed. Conclude soon.", false, ce)
  else ("", false, ce).

Definition CheckTimeout (now : Z) (ce : ConstraintEnforcer) : bool :=
  (rlTimeout (ceLimits ce) <=? now - ceStartTime ce)%Z.

(** ** Messages of a conversation ([llm/types.go]) *)

Record ToolCall : Type := mkToolCall { tcID : string; tcName : string; tcArguments : string }.

Record Message : Type := mkMessage {
  msgRole : string;
  msgContent : string;
  msgToolCallID : string;
  msgToolCalls : list ToolCall
}.
Definition user_message (content : string) : Message := mkMessage "user" content "" [].
Definition tool_message (callID content : string) : Message := mkMessage "tool" content callID [].

Record ToolDef : Type := mkToolDef {
  tdName : string;
  tdDescription : string;
  tdParameters : object
}.

Record ImageInput : Type := mkImageInput { imBase64 : string; imMimeType : string; imURL : string }.

Record ChatRequest : Type := mkChatRequest {
  crSystemPrompt : string;
  crMessages : list Message;
  crModel : string;
  crMaxTokens : Z;
  crTemperature : Qc;
  crJSONMode : bool;
  crImages : list ImageInput;
  crTools : list ToolDef;
  crToolChoice : string;
  crPurpose : string
}.

Record ChatResponse : Type := mkChatResponse {
  rsContent : string;
  rsInputTokens : Z;
  rsOutputTokens : Z;
  rsTotalTokens : Z;
  rsModel : string;
  rsFinishReason : string;
  rsToolCalls : list ToolCall
}.

(** ** The trace of a run ([store.go]) *)

Record ReasoningTrace : Type := mkReasoningTrace {
  trID : uuid;
  trTenantID : uuid;
  trCaseID : uuid;
  trStepID : string;
  trInstanceID : uuid;
  trModelUsed : string;
  trGoal : string;
  trStatus : string;
  trConclusion : string;
  trTotalIterations : Z;
  trTotalToolCalls : Z;
  trTotalTokens : Z;
  trTotalDurationMS : Z;
  trCreatedAt : Z;
  trCompletedAt : option Z
}.

Record ReasoningEvent : Type := mkReasoningEvent {
  reTraceID : uuid;
  reIteration : Z;
  reSequence : Z;
  reEventType : string;
  reContent : string;
  reToolID : string;
  reToolSource : string;
  reToolSafety : string;
  reSideEffect : bool;
  reTokenCount : Z;
  reDurationMS : Z
}.

(** ** Tool policy ([types.go], [tools.go]) *)

Record ToolPolicy : Type := mkToolPolicy {
  tpTools : list string;
  tpToolMode : string;
  tpRequireApproval : list string
}.

Definition ToolModeReadOnly : string := "read_only".
Definition ToolModeRestrictedWrite : string := "restricted_write".
Definition ToolModeFull : string := "full".

(** A known mode is kept as it is, spaces around it included. *)
Definition Normalize (m : string) : string :=
  let t := TrimSpace m in
  if bool_decide (t = ToolModeReadOnly) || bool_decide (t = ToolModeRestrictedWrite) ||
     bool_decide (t = ToolModeFull)
  then m else ToolModeReadOnly.

Definition allowedByMode (mode safety : string) : bool :=
  let reads := bool_decide (safety = "read_only") || bool_decide (safety = "") in
  if decide (mode = ToolModeReadOnly) then reads
  else if decide (mode = ToolModeRestrictedWrite) then reads || bool_decide (safety = "idempotent_write")
  else if decide (mode = ToolModeFull) then true
  else reads.

Record ToolNodeConfig : Type := mkToolNodeConfig {
  tnID : string;
  tnConnector : string;
  tnSource : string;
  tnConfig : option json;
  tnDescription : string;
  tnMCPServerURL : string;
  tnMCPToolName : string;
  tnMCPPrefix : string;
  tnKnowledgeBase : string
}.

(** The characters a tool name keeps. Bytes of other characters are dropped. *)
Definition tool_char (a : ascii) : string :=
  if (97 <=? code a)%nat && (code a <=? 122)%nat || is_dec a || bool_decide (a = "_"%char) then String a ""
  else if bool_decide (a = "-"%char) || bool_decide (a = " "%char) || bool_decide (a = "."%char) then "_"
  else "".
Fixpoint map_chars (f : ascii -> string) (s : string) : string :=
  match s with
  | EmptyString => EmptyString
  | String a s' => f a +:+ map_chars f s'
  end.

Definition normalizeToolName (v : string) : string :=
  let v := TrimSpace (ToLower v) in
  if decide (v = "") then "tool"
  else
    let out := Trim (map_chars tool_char v) "_" in
    if decide (out = "") then "tool" else out.

Definition sanitizeToolName (node : ToolNodeConfig) : string :=
  if negb (bool_decide (TrimSpace (tnMCPPrefix node) = "")) && negb (bool_decide (TrimSpace (tnMCPToolName node) = ""))
  then normalizeToolName (tnMCPPrefix node +:+ "_" +:+ tnMCPToolName node)
  else normalizeToolName (if decide (TrimSpace (tnConnector node) = "") then tnID node else tnConnector node).

Section Tools.
Context {T : Type}.

(** A tool with the code that runs it, given the deadline of the context and the
    arguments. *)
Record ResolvedTool : Type := mkResolvedTool {
  rtID : string;
  rtName : string;
  rtDescription : string;
  rtParameters : string;
  rtSource : string;
  rtToolSafety : string;
  rtInvoker : option Z -> string -> Svc T string
}.

(** [ToolManifest]: the tools in order; by name, the last one with the name. *)
Definition ToolManifest : Type := list ResolvedTool.

Definition toolsByName (m : ToolManifest) (name : string) : option ResolvedTool :=
  last (filter (fun t => rtName t = name) m).

Definition ToLLMToolDefs (m : ToolManifest) : list ToolDef :=
  map (fun t =>
    let params := match json_parse (rtParameters t) with Some (JObj o) => o | _ => [] end in
    mkToolDef (rtName t) (rtDescription t)
      (match params with
       | [] => mk_obj [("type", JStr "object"); ("properties", JObj [])]
       | _ => params
       end)) m.

Definition ToolSourceConnector : string := "connector".

(** What is built for a node: the code, its safety and its parameters. *)
Definition factory : Type := ToolNodeConfig -> string -> Svc T ((option Z -> string -> Svc T string) * string * string).

Definition allowedRefs (policy : ToolPolicy) : list string :=
  filter (fun r => r <> "") (map TrimSpace (tpTools policy)).

Definition resolve_node (mode : string) (refs : list string) (invokerFactory : factory)
    (tools : ToolManifest) (node : ToolNodeConfig) : Svc T ToolManifest :=
  if decide (TrimSpace (tnID node) ∈ refs) then
    let name := sanitizeToolName node in
    built ← wrapS (Wrapf "build tool %s: %w" [tnID node]) (invokerFactory node name);
    let '(invoker, safety, params) := built in
    if allowedByMode mode safety then
      let source := TrimSpace (tnSource node) in
      mret (tools ++ [mkResolvedTool (tnID node) name (TrimSpace (tnDescription node)) params
        (if decide (source = "") then ToolSourceConnector else source) safety invoker])
    else mret tools
  else mret tools.

Definition Assemble (policy : ToolPolicy) (toolNodes : list ToolNodeConfig) (invokerFactory : factory)
    : Svc T ToolManifest :=
  let refs := allowedRefs policy in
  if decide (refs = []) then mret []
  else foldS (resolve_node (Normalize (tpToolMode policy)) refs invokerFactory) toolNodes [].

Definition ValidateToolCall (toolName : string) (m : ToolManifest) : result goerr ResolvedTool :=
  match toolsByName m (TrimSpace toolName) with
  | Some t => Ok t
  | None => Err (Errorf "tool not available: %s" [TrimSpace toolName])
  end.
End Tools.
Arguments ResolvedTool : clear implicits.
Arguments ToolManifest : clear implicits.
Arguments factory : clear implicits.

(** ** Arguments and conclusions ([validate_tool.go], [output.go]) *)

Section Schemas.
(** the JSON-schema library: [AddResource] and [Compile], then [Validate] *)
Context (compile_schema : string -> result goerr (json -> result goerr unit)).

Definition wrapE {A} (f : goerr -> goerr) (r : result goerr A) : result goerr A :=
  match r with Ok a => Ok a | Err e => Err (f e) end.

Definition ValidateToolArgs (args paramSchema : string) : result goerr unit :=
  let args := if decide (TrimSpace args = "") then "{}" else args in
  match json_parse args with
  | None => Err (Errorf "arguments must be valid json object" [])
  | Some payload =>
      if decide (TrimSpace paramSchema = "") then Ok tt
      else
        validate ← wrapE (Wrapf "invalid tool parameter schema: %w" []) (compile_schema paramSchema);
        wrapE (Wrapf "invalid arguments: %w" []) (validate payload)
  end.

Definition validateJSONAgainstSchema (payload : json) (schema : string) : result goerr unit :=
  if decide (TrimSpace schema = "" \/ TrimSpace schema = "null") then Ok tt
  else
    validate ← wrapE (Wrapf "invalid output schema: %w" []) (compile_schema schema);
    wrapE (Wrapf "output schema validation failed: %w" []) (validate payload).

(** The text from the first brace to the one that matches it; braces in string
    literals do not count. *)
Fixpoint block (depth : nat) (inString escape : bool) (s : string) : option string :=
  match s with
  | EmptyString => None
  | String ch r =>
      let more d i e := String ch <$> block d i e r in
      if inString then
        if escape then more depth true false
        else if decide (ch = backslash) then more depth true true
        else more depth (negb (bool_decide (ch = dquote))) false
      else if decide (ch = dquote) then more depth true false
      else if decide (ch = "{"%char) then more (S depth) false false
      else if decide (ch = "}"%char) then
        (if decide (depth = 1%nat) then Some (String ch "") else more (depth - 1)%nat false false)
      else more depth false false
  end.

Definition extractJSONBlock (input : string) : option string :=
  start ← IndexByte "{"%char input;
  fragment ← TrimSpace <$> block 0 false false (drop_str start input);
  if Valid fragment then Some fragment else None.

Definition conclusion_text (response : string) : result goerr string :=
  let candidate := TrimSpace response in
  if decide (candidate = "") then Err (Errorf "empty model response" [])
  else if Valid candidate then Ok candidate
  else match extractJSONBlock candidate with
       | Some b => Ok b
       | None => Err (Errorf "response does not contain valid json" [])
       end.

(** A conclusion is an object, or [null], of the output schema. *)
Definition parseConclusion (response schema : string) : result goerr (string * option Qc) :=
  raw ← conclusion_text response;
  match json_parse raw with
  | None => Err (Errorf "response does not contain valid json" [])
  | Some v =>
      _ ← validateJSONAgainstSchema v schema;
      body ← wrapE (Wrapf "decode conclusion: %w" []) (dec_object v);
      Ok (raw, match body ≫= obj_get "confidence" with Some (JNum q) => Some q | _ => None end)
  end.
End Schemas.

(** ** The messages that are kept ([context_mgmt.go]) *)

Definition shortened (content : string) : string :=
  if (120 <? String.length content)%nat then String.substring 0 120 content +:+ "..." else content.

Definition summary_parts (old : list Message) : list string :=
  omap (fun m => if decide (msgRole m = "tool" /\ TrimSpace (msgContent m) <> "")
                 then Some (shortened (TrimSpace (msgContent m))) else None) old.

Definition summariseOldToolResults (messages : list Message) (maxMessages : nat) : list Message :=
  if decide (maxMessages = 0 \/ length messages <= maxMessages)%nat then messages
  else
    let keepTail := Nat.max 1 (maxMessages - 2) in
    match messages with
    | [] => []
    | head :: rest =>
        let split := (length messages - keepTail)%nat in
        let parts := summary_parts (take (split - 1) rest) in
        let summary := match parts with
                       | [] => "No earlier tool outputs."
                       | _ => "Previously observed tool outputs: " +:+ Join " | " parts
                       end in
        [head; user_message summary] ++ drop split messages
    end.

(** ** Prompts ([prompt.go]) *)

Definition nl : string := byte 10.

Definition tool_line {T} (t : ResolvedTool T) : string :=
  "- " +:+ rtName t +:+ " (" +:+ rtSource t +:+ "): " +:+ rtDescription t.

Definition buildSystemPrompt {T} (manifest : ToolManifest T) (outputSchema : string) : string :=
  let toolLines := match map tool_line manifest with [] => ["- No tools available."] | l => l end in
  TrimSpace (Join nl
    [""; "You are an Aceryx agentic reasoning assistant.";
     "Reason step by step about the goal.";
     "Use available tools when needed before concluding.";
     "Return a final JSON conclusion that matches this schema exactly:"; outputSchema; "";
     "Rules:"; "1. Use only declared tools.";
     "2. Provide a confidence value from 0.0 to 1.0 in the conclusion.";
     "3. Include a " +:+ String dquote "reasoning" +:+ String dquote " array of key factors in the final JSON.";
     "4. If constraints are nearing limits, conclude with best available evidence."; "";
     "Available tools:"; Join nl toolLines; ""]).

Definition buildGoalPrompt (goal caseData outputSchema : string) : string :=
  TrimSpace (Join nl [""; "Goal:"; TrimSpace goal; ""; "Case data snapshot:"; caseData; "";
                      "Output schema:"; outputSchema; ""]).
