(* ===== verification/AgenticRunner.v ===== *)
(** * The reasoning loop of an agentic step ([internal/agentic/runner.go])

    [Run] records a trace, then asks the language model again and again: the
    answer is a set of tool calls, which are checked, counted and made, or a
    conclusion, which ends the run when it is JSON of the output schema. Time,
    tokens and tool calls are limited. The trace store is an interface
    ([TraceStore]); the model is a parameter, a function of the moment and of the
    request. [iteration] is one round of the Go loop, and [run_loop] repeats it
    with fuel: [None] says that the fuel ran out. *)

From S2P Require Import Prelude GoStrings Json EngineTypes Store TaskForms GoText Effects JsonText Agentic.

Class TraceStore (T : Type) : Type := {
  CreateTrace : ReasoningTrace -> Svc T unit;
  UpdateTrace : ReasoningTrace -> Svc T unit;
  GetTrace : uuid -> Svc T ReasoningTrace;
  GetTraceByCase : uuid -> string -> Svc T ReasoningTrace;
  AppendEvent : ReasoningEvent -> Svc T unit;
  GetEvents : uuid -> Svc T (list ReasoningEvent)
}.

Record RunResult : Type := mkRunResult {
  rrConclusion : string;
  rrConfidence : option Qc;
  rrStatus : string;
  rrTotalIterations : Z;
  rrTotalToolCalls : Z;
  rrTotalTokens : Z;
  rrDurationMS : Z;
  rrTraceID : uuid
}.

Section Runner.
Context `{R : Runtime} {T : Type} `{TS : !TraceStore T}.
Context (FormatFloat : Qc -> string) (compile_schema : string -> result goerr (json -> result goerr unit)).
Context (Chat : nat -> uuid -> ChatRequest -> result goerr ChatResponse).

Record RunConfig : Type := mkRunConfig {
  rcTenantID : uuid;
  rcCaseID : uuid;
  rcStepID : string;
  rcInstanceID : uuid;
  rcGoal : string;
  rcCaseData : string;
  rcToolManifest : ToolManifest T;
  rcLimits : ReasoningLimits;
  rcOutputSchema : string;
  rcModel : string;
  rcDeadline : option Z
}.

(** The variables of the loop. *)
Record Loop : Type := mkLoop {
  lpMessages : list Message;
  lpCe : ConstraintEnforcer;
  lpIteration : Z;
  lpToolCalls : Z;
  lpTokens : Z;
  lpInvalid : Z;
  lpLast : string
}.

Definition with_messages (more : list Message) (l : Loop) : Loop :=
  mkLoop (lpMessages l ++ more) (lpCe l) (lpIteration l) (lpToolCalls l) (lpTokens l) (lpInvalid l) (lpLast l).
Definition count_call (l : Loop) : Loop :=
  mkLoop (lpMessages l) (IncrementToolCalls (lpCe l)) (lpIteration l) (wrap64 (lpToolCalls l + 1)) (lpTokens l)
    (lpInvalid l) (lpLast l).
Definition count_invalid (l : Loop) : Loop :=
  mkLoop (lpMessages l) (lpCe l) (lpIteration l) (lpToolCalls l) (lpTokens l) (lpInvalid l + 1) (lpLast l).

Definition mustJSON (fields : list (string * json)) : string := Marshal FormatFloat (JObj (mk_obj fields)).

Definition plain_event (tr : uuid) (iteration sequence : Z) (ty content : string) (tokens : Z) : ReasoningEvent :=
  mkReasoningEvent tr iteration sequence ty content "" "" "" false tokens 0.
Definition tool_event (tr : uuid) (iteration sequence : Z) (ty content : string) (tool : ResolvedTool T)
    (duration : Z) : ReasoningEvent :=
  mkReasoningEvent tr iteration sequence ty content (rtID tool) (rtSource tool) (rtToolSafety tool)
    (bool_decide (rtToolSafety tool = "side_effect")) 0 duration.
(** [_ = store.AppendEvent(...)] *)
Definition note (e : ReasoningEvent) : Svc T unit := ignoreS (AppendEvent e).

Definition newS : Svc T uuid := callS (fun k => Ok (gen_random_uuid k)).

Definition since (started : Z) : Svc T Z :=
  now ← nowS; mret (Z.quot (now - started) Millisecond).

Definition finish (trace : ReasoningTrace) (result : RunResult) : Svc T RunResult :=
  now ← nowS;
  _ ← UpdateTrace (mkReasoningTrace (trID trace) (trTenantID trace) (trCaseID trace) (trStepID trace)
        (trInstanceID trace) (trModelUsed trace) (trGoal trace) (rrStatus result) (rrConclusion result)
        (rrTotalIterations result) (rrTotalToolCalls result) (rrTotalTokens result) (rrDurationMS result)
        (trCreatedAt trace) (Some now));
  mret result.

Definition stop (trace : ReasoningTrace) (started : Z) (status conclusion : string) (confidence : option Qc)
    (l : Loop) : Svc T RunResult :=
  ms ← since started;
  finish trace (mkRunResult conclusion confidence status (lpIteration l) (lpToolCalls l) (lpTokens l) ms (trID trace)).

Section Iteration.
Context (config : RunConfig) (trace : ReasoningTrace) (started : Z).
Let tr : uuid := trID trace.

(** One tool call of an answer; the pair is the loop and the sequence number. *)
Definition tool_call (acc : Loop * Z) (tc : ToolCall) : Svc T (Loop * Z) :=
  let l := acc.1 in
  let it := lpIteration l in
  let sequence := (acc.2 + 1)%Z in
  let refuse l content msg :=
    _ ← note (plain_event tr it sequence "error" (mustJSON [("tool", JStr (tcName tc)); ("error", JStr msg)]) 0);
    mret (with_messages [tool_message (tcID tc) content] l, sequence) in
  let msg := CheckToolCalls (lpCe l) in
  if decide (msg <> "") then refuse l msg msg
  else
    let l := count_call l in
    match ValidateToolCall (tcName tc) (rcToolManifest config) with
    | Err err => refuse l (Error err) (Error err)
    | Ok tool =>
        match ValidateToolArgs compile_schema (tcArguments tc) (rtParameters tool) with
        | Err err => refuse l (Error err) (Error err)
        | Ok _ =>
            _ ← note (tool_event tr it sequence "tool_call"
                  (mustJSON [("id", JStr (tcID tc)); ("name", JStr (tcName tc)); ("arguments", JStr (tcArguments tc))])
                  tool 0);
            callStarted ← nowS;
            result ← tryS (rtInvoker tool (rcDeadline config) (tcArguments tc));
            duration ← since callStarted;
            match result with
            | Err err =>
                _ ← note (tool_event tr it (sequence + 1) "tool_result" (mustJSON [("error", JStr (Error err))])
                      tool duration);
                mret (with_messages [tool_message (tcID tc) ("Tool error: " +:+ Error err)] l, sequence)
            | Ok out =>
                _ ← note (tool_event tr it (sequence + 1) "tool_result" out tool duration);
                mret (with_messages [tool_message (tcID tc) out] l, sequence)
            end
        end
    end.

Definition begin_iteration (l : Loop) : Loop :=
  let ce := IncrementIteration (lpCe l) in
  let msg := CheckIteration ce in
  let messages := lpMessages l ++ (if decide (msg = "") then [] else [user_message msg]) in
  mkLoop (summariseOldToolResults messages 24) ce (wrap64 (lpIteration l + 1)) (lpToolCalls l) (lpTokens l)
    (lpInvalid l) (lpLast l).

Definition request (l : Loop) : ChatRequest :=
  mkChatRequest (buildSystemPrompt (rcToolManifest config) (rcOutputSchema config)) (lpMessages l) (rcModel config)
    (Z.max 128 (wrap64 (rlMaxTokens (ApplyDefaults (rcLimits config)) - lpTokens l))) 0 false []
    (ToLLMToolDefs (rcToolManifest config)) "auto" "agentic".

Definition receive (resp : ChatResponse) (l : Loop) : Loop :=
  let total := wrap64 (lpTokens l + rsTotalTokens resp) in
  mkLoop (lpMessages l) (SetTokensUsed total (lpCe l)) (lpIteration l) (lpToolCalls l) total (lpInvalid l)
    (TrimSpace (rsContent resp)).

Definition raw_response (content : string) : string := mustJSON [("raw_response", JStr content)].

(** The answer is a conclusion, or should have been. *)
Definition conclude (resp : ChatResponse) (l : Loop) : Svc T (Loop + RunResult) :=
  match parseConclusion compile_schema (rsContent resp) (rcOutputSchema config) with
  | Err err =>
      let l := count_invalid l in
      _ ← note (plain_event tr (lpIteration l) 2 "error"
            (mustJSON [("error", JStr (Error err)); ("response", JStr (rsContent resp))]) 0);
      if (3 <=? lpInvalid l)%Z then
        inr <$> stop trace started "error" (raw_response (rsContent resp)) None l
      else
        mret (inl (with_messages
          [mkMessage "assistant" (rsContent resp) "" [];
           user_message "Your previous conclusion did not match the required JSON output schema. Return valid JSON only."] l))
  | Ok (conclusion, confidence) =>
      _ ← note (plain_event tr (lpIteration l) 3 "conclusion" conclusion 0);
      inr <$> stop trace started "concluded" conclusion confidence l
  end.

(** What is done with an answer. *)
Definition respond (resp : ChatResponse) (l : Loop) : Svc T (Loop + RunResult) :=
  let l := receive resp l in
  _ ← note (plain_event tr (lpIteration l) 1 "reasoning" (mustJSON [("content", JStr (rsContent resp))])
        (rsTotalTokens resp));
  let '(warning, hardStop, ce) := CheckTokenBudget (lpTokens l) (lpCe l) in
  if hardStop : bool then
    let '(conclusion, conf) := match parseConclusion compile_schema (rsContent resp) (rcOutputSchema config) with
                               | Ok p => p
                               | Err _ => (raw_response (rsContent resp), None)
                               end in
    inr <$> stop trace started "timeout" conclusion conf l
  else
    let l := if decide (warning = "") then l else with_messages [user_message warning] l in
    if bool_decide (rsFinishReason resp = "tool_calls") && negb (bool_decide (rsToolCalls resp = [])) then
      acc ← foldS tool_call (rsToolCalls resp)
              (with_messages [mkMessage "assistant" "" "" (rsToolCalls resp)] l, 1%Z);
      mret (inl acc.1)
    else conclude resp l.

(** One round of the loop. *)
Definition iteration (l : Loop) : Svc T (Loop + RunResult) :=
  now ← nowS;
  if CheckTimeout now (lpCe l) then inr <$> stop trace started "timeout" (lpLast l) None l
  else
    let l := begin_iteration l in
    answer ← tryS (callS (fun k => Chat k (rcTenantID config) (request l)));
    match answer with
    | Err err =>
        _ ← note (plain_event tr (lpIteration l) 1 "error" (mustJSON [("error", JStr (Error err))]) 0);
        inr <$> stop trace started "error" (lpLast l) None l
    | Ok resp => respond resp l
    end.

Fixpoint run_loop (fuel : nat) (l : Loop) : Svc T (option RunResult) :=
  match fuel with
  | O => mret None
  | S f =>
      r ← iteration l;
      match r with
      | inl l' => run_loop f l'
      | inr result => mret (Some result)
      end
  end.
End Iteration.

Definition first_loop (config : RunConfig) (started : Z) : Loop :=
  mkLoop [user_message (buildGoalPrompt (rcGoal config) (rcCaseData config) (rcOutputSchema config))]
    (NewConstraintEnforcer (ApplyDefaults (rcLimits config)) started) 0 0 0 0 "{}".

Definition new_trace (config : RunConfig) (id : uuid) (started : Z) : ReasoningTrace :=
  mkReasoningTrace id (rcTenantID config) (rcCaseID config) (rcStepID config) (rcInstanceID config) (rcModel config)
    (rcGoal config) "running" "" 0 0 0 0 started None.

Definition Run (fuel : nat) (config : RunConfig) : Svc T (option RunResult) :=
  started ← nowS;
  ceStarted ← nowS;
  id ← newS;
  let trace := new_trace config id started in
  _ ← CreateTrace trace;
  _ ← note (plain_event id 0 1 "goal_set" (mustJSON [("goal", JStr (rcGoal config))]) 0);
  run_loop config trace started fuel (first_loop config ceStarted).

End Runner.
Arguments RunConfig : clear implicits.
