(* ===== verification/AgenticStep.v ===== *)
(** * Agentic steps: the tools and the executor
    ([internal/agentic/step.go], [escalation.go], [internal/agentic/invokers])

    The traces and their events are two tables beside the engine's; the executor
    reaches them through the interface [TraceStore]. Plugins, MCP servers, the retrieval service and the service that creates tasks
    are interfaces: [Services] has what the executor calls of them. *)

From S2P Require Import Prelude GoStrings Json EngineTypes Store AuditTrail TaskForms TaskOps GoText Effects McpClient.
From S2P Require Import McpManager JsonText Agentic AgenticRunner.

(** ** Tables *)

Record AgenticDB : Type := mkAgenticDB {
  agTraces : gmap uuid ReasoningTrace;
  agEvents : list (Z * ReasoningEvent);
  agTables : DB
}.

Definition set_tables f (a : AgenticDB) : AgenticDB := mkAgenticDB (agTraces a) (agEvents a) (f (agTables a)).

Section Executor.
Context `{R : Runtime} `{TS : !TraceStore AgenticDB}.

(** ** The case as a tool ([invokers/case_data.go], [stepCaseStore]) *)

Definition case_of (tenantID caseID : uuid) (a : AgenticDB) : option CaseRow :=
  match cases (agTables a) !! caseID with
  | Some c => if decide (cTenant c = tenantID) then Some c else None
  | None => None
  end.

Definition GetCaseData (tenantID caseID : uuid) : Svc AgenticDB (option object) :=
  c ← wrapS (Wrapf "load case data: %w" []) (select_row (fun _ a => case_of tenantID caseID a));
  wrapS (Wrapf "decode case data: %w" []) (pureS (dec_object (cData c))).

Definition merged (patch : json) (now : Z) (c : CaseRow) : CaseRow :=
  mkCaseRow (cTenant c) (cCaseType c) (cNumber c) (cStatus c) (jsonb_concat (cData c) patch) (cVersion c + 1) now
    (cAssignedTo c) (cPriority c) (cWorkflowID c) (cWorkflowVersion c) (cCreatedAt c) (cCreatedBy c) (cDueAt c).

Definition MergeCaseData (tenantID caseID : uuid) (patch : object) : Svc AgenticDB unit :=
  wrapS (Wrapf "merge case data: %w" [])
    (exec_update (fun now a =>
       match case_of tenantID caseID a with
       | Some c => set_tables (set_cases (<[caseID := merged (JObj patch) now c]>)) a
       | None => a
       end)).

Fixpoint lookup_parts (parts : list string) (cur : json) : option json :=
  match parts with
  | [] => Some cur
  | p :: ps =>
      if decide (TrimSpace p = "") then lookup_parts ps cur
      else match cur with
           | JObj m => obj_get (TrimSpace p) m ≫= lookup_parts ps
           | _ => None
           end
  end.
Definition lookupPath (root : object) (path : string) : option json :=
  lookup_parts (Split "." (TrimSpace path)) (JObj root).

Fixpoint set_parts (parts : list string) (value : json) (cur : object) : object :=
  match parts with
  | [] => cur
  | [p] => if decide (TrimSpace p = "") then cur else obj_set (TrimSpace p) value cur
  | p :: ps =>
      if decide (TrimSpace p = "") then set_parts ps value cur
      else
        let next := match obj_get (TrimSpace p) cur with Some (JObj m) => m | _ => [] end in
        obj_set (TrimSpace p) (JObj (set_parts ps value next)) cur
  end.
Definition setPath (root : object) (path : string) (value : json) : object :=
  set_parts (Split "." (TrimSpace path)) value root.

(** [json.Unmarshal] of a text. *)
Definition unmarshal_text {A} (dec : json -> result goerr A) (text : string) : result goerr A :=
  match json_parse text with
  | Some j => dec j
  | None => Err (Errorf "invalid JSON text" [])
  end.

Definition dec_path_value (j : json) : result goerr (string * json) :=
  match j with
  | JObj m =>
      path ← dec_field "path" dec_string "" m;
      Ok (path, default JNull (field "value" m))
  | JNull => Ok ("", JNull)
  | _ => Err (unmarshal_type_error "struct")
  end.

Context (FormatFloat : Qc -> string).

Definition CaseDataInvoke (tenantID caseID : uuid) (readOnly : bool) (args : string) : Svc AgenticDB string :=
  '(path, value) ← wrapS (Wrapf "decode case data args: %w" []) (pureS (unmarshal_text dec_path_value args));
  let path := TrimSpace path in
  _ ← guardS (negb (bool_decide (path = ""))) (Errorf "path is required" []);
  if decide (value = JNull) then
    data ← GetCaseData tenantID caseID;
    mret (Marshal FormatFloat (JObj [("value", default JNull (lookupPath (default [] data) path))]))
  else
    _ ← guardS (negb readOnly) (Errorf "case data writes are disabled in read_only mode" []);
    _ ← MergeCaseData tenantID caseID (setPath [] path value);
    mret (Marshal FormatFloat (JObj [("status", JStr "ok")])).

(** ** The other tools ([invokers/connector.go], [mcp.go], [rag.go]) *)

Record PluginResult : Type := mkPluginResult { plStatus : string; plOutput : string; plError : string }.
Record SearchHit : Type := mkSearchHit { shContent : string; shScore : Qc; shSource : string; shPage : Z }.

(** What the executor is wired with; [None] is a service that is not configured. *)
Record Services : Type := mkServices {
  svPlugins : option ((string -> option string) * (string -> json -> Z -> Svc AgenticDB PluginResult));
  svMCP : option ((uuid -> string -> AuthConfig -> Svc AgenticDB (list MCPTool)) *
                  (InvokeRequest -> Svc AgenticDB MCPToolResult));
  svSearch : option (uuid -> uuid -> string -> Z -> Svc AgenticDB (list SearchHit));
  svTasks : option (uuid -> string -> AssignmentConfig -> Svc AgenticDB unit)
}.
Context (services : Services) (uuid_parse : string -> option uuid).

Definition ConnectorInvoke (connectorID : string) (config : option json) (timeout : Z) (args : string)
    : Svc AgenticDB string :=
  match svPlugins services with
  | None => fail (Errorf "connector invoker not configured" [])
  | Some (_, executeStep) =>
      payload ← wrapS (Wrapf "decode connector config: %w" [])
        (pureS (match config with None => Ok [] | Some c => default [] <$> dec_object c end));
      (** arguments that are not JSON make the whole payload empty *)
      let data := if decide (args = "") then JObj payload
                  else match json_parse args with
                       | Some a => JObj (obj_set "arguments" a payload)
                       | None => JNull
                       end in
      result ← executeStep (TrimSpace connectorID) data (if (timeout <=? 0)%Z then 30 * Second else timeout)%Z;
      if EqualFold (plStatus result) "error" && negb (bool_decide (TrimSpace (plError result) = ""))
      then fail (Errorf (plError result) [])
      else mret (if decide (plOutput result = "") then "{}" else plOutput result)
  end.

Definition auth_none : AuthConfig := mkAuthConfig "none" "" "".

Definition MCPInvoke (tenantID : uuid) (serverURL toolName : string) (deadline : option Z) (args : string)
    : Svc AgenticDB string :=
  match svMCP services with
  | None => fail (Errorf "mcp invoker not configured" [])
  | Some (_, invokeTool) =>
      timeoutMS ← (match deadline with
                   | None => mret 0%Z
                   | Some d =>
                       now ← nowS;
                       mret (Z.quot (if (d - now <=? 0)%Z then Millisecond else d - now) Millisecond)
                   end);
      result ← invokeTool (mkInvokeRequest tenantID serverURL auth_none toolName (json_parse args) 1 timeoutMS);
      if resIsError result then fail (Errorf (ToolErrorMessage result) [])
      else mret (Marshal FormatFloat (match resContent result with
                                      | Some l => JArr (map content_json l)
                                      | None => JNull
                                      end))
  end.

Definition dec_query (j : json) : result goerr (string * Z) :=
  match j with
  | JObj m =>
      q ← dec_field "query" dec_string "" m;
      k ← dec_field "top_k" dec_int 0%Z m;
      Ok (q, k)
  | JNull => Ok ("", 0%Z)
  | _ => Err (unmarshal_type_error "struct")
  end.

Definition hit_json (h : SearchHit) : json :=
  JObj (mk_obj [("content", JStr (shContent h)); ("score", JNum (shScore h)); ("source", JStr (shSource h));
                ("page_number", JInt (shPage h))]).

Definition RAGInvoke (tenantID kbID : uuid) (args : string) : Svc AgenticDB string :=
  match svSearch services with
  | None => fail (Errorf "rag invoker not configured" [])
  | Some search =>
      '(query, topK) ← wrapS (Wrapf "decode rag args: %w" []) (pureS (unmarshal_text dec_query args));
      hits ← search tenantID kbID query topK;
      mret (Marshal FormatFloat (JArr (map hit_json hits)))
  end.

(** ** The configuration of a step ([types.go]) *)

Record AgentEscalation : Type := mkAgentEscalation {
  aeConfidenceThreshold : Qc;
  aeEscalateTo : string;
  aeIncludeTrace : bool
}.

Record AgenticStepConfig : Type := mkAgenticStepConfig {
  asGoal : string;
  asToolPolicy : ToolPolicy;
  asLimits : ReasoningLimits;
  asOutputSchema : string;
  asEscalation : AgentEscalation;
  asOutputPath : string;
  asToolNodes : list ToolNodeConfig
}.

Definition dec_float (j : json) : result goerr Qc :=
  match j with
  | JNum q => Ok q
  | JNull => Ok (Q2Qc 0)
  | _ => Err (unmarshal_type_error "float64")
  end.

Definition dec_struct {A} (name : string) (dec : object -> result goerr A) (j : json) : result goerr A :=
  match j with
  | JObj m => dec m
  | JNull => dec []
  | _ => Err (unmarshal_type_error name)
  end.

(** [ReasoningLimits.UnmarshalJSON] *)
Definition UnmarshalLimits : json -> result goerr ReasoningLimits :=
  dec_struct "alias" (fun m =>
    mi ← dec_field "max_iterations" dec_int 0%Z m;
    mt ← dec_field "max_tool_calls" dec_int 0%Z m;
    mk ← dec_field "max_tokens" dec_int 0%Z m;
    secs ← dec_field "timeout_seconds" dec_float (Q2Qc 0) m;
    let timeout := if Qclt_le_dec (Q2Qc 0) secs then Z.div (Qnum secs * Second) (Zpos (Qden secs)) else 0%Z in
    Ok (ApplyDefaults (mkReasoningLimits mi mt mk timeout))).

Definition dec_ref : json -> result goerr string :=
  dec_struct "agentic.ToolRef" (dec_field "ref" dec_string "").

Definition dec_policy : json -> result goerr ToolPolicy :=
  dec_struct "agentic.ToolPolicy" (fun m =>
    tools ← dec_field "tools" (dec_list dec_ref) [] m;
    mode ← dec_field "tool_mode" dec_string "" m;
    approval ← dec_field "require_approval" (dec_list dec_string) [] m;
    Ok (mkToolPolicy tools mode approval)).

Definition dec_escalation : json -> result goerr AgentEscalation :=
  dec_struct "agentic.EscalationConfig" (fun m =>
    q ← dec_field "confidence_threshold" dec_float (Q2Qc 0) m;
    to ← dec_field "escalate_to" dec_string "" m;
    tr ← dec_field "include_trace" dec_bool false m;
    Ok (mkAgentEscalation q to tr)).

Definition dec_tool_node : json -> result goerr ToolNodeConfig :=
  dec_struct "agentic.ToolNodeConfig" (fun m =>
    id ← dec_field "id" dec_string "" m;
    connector ← dec_field "connector" dec_string "" m;
    source ← dec_field "source" dec_string "" m;
    description ← dec_field "description" dec_string "" m;
    url ← dec_field "mcp_server_url" dec_string "" m;
    tool ← dec_field "mcp_tool_name" dec_string "" m;
    prefix ← dec_field "mcp_prefix" dec_string "" m;
    kb ← dec_field "knowledge_base" dec_string "" m;
    Ok (mkToolNodeConfig id connector source (field "config" m) description url tool prefix kb)).

(** The output schema is the text of its value; [None] is a step without configuration. *)
Definition dec_agentic_config : json -> result goerr AgenticStepConfig :=
  dec_struct "agentic.AgenticStepConfig" (fun m =>
    goal ← dec_field "goal" dec_string "" m;
    policy ← dec_field "tool_policy" dec_policy (mkToolPolicy [] "" []) m;
    limits ← dec_field "constraints" UnmarshalLimits (mkReasoningLimits 0 0 0 0) m;
    esc ← dec_field "escalation" dec_escalation (mkAgentEscalation (Q2Qc 0) "" false) m;
    path ← dec_field "output_path" dec_string "" m;
    nodes ← dec_field "tool_nodes" (dec_list dec_tool_node) [] m;
    Ok (mkAgenticStepConfig goal policy limits
          (match field "output_schema" m with Some v => Marshal FormatFloat v | None => "" end) esc path nodes)).

Definition Config_ApplyDefaults (c : AgenticStepConfig) : AgenticStepConfig :=
  let p := asToolPolicy c in
  let e := asEscalation c in
  mkAgenticStepConfig (asGoal c) (mkToolPolicy (tpTools p) (Normalize (tpToolMode p)) (tpRequireApproval p))
    (ApplyDefaults (asLimits c)) (asOutputSchema c)
    (mkAgentEscalation
       (if Qclt_le_dec (Q2Qc 0) (aeConfidenceThreshold e) then aeConfidenceThreshold e else Q2Qc (4 # 5))
       (if decide (TrimSpace (aeEscalateTo e) = "") then "case_worker" else aeEscalateTo e) (aeIncludeTrace e))
    (if decide (TrimSpace (asOutputPath c) = "") then "assessment" else asOutputPath c) (asToolNodes c).

Definition Config_Validate (c : AgenticStepConfig) : result goerr unit :=
  if decide (TrimSpace (asGoal c) = "") then Err (Errorf "goal is required" [])
  else if decide (TrimSpace (asOutputSchema c) = "" \/ TrimSpace (asOutputSchema c) = "null")
  then Err (Errorf "output_schema is required" [])
  else if decide (tpTools (asToolPolicy c) = []) then Err (Errorf "tool_policy.tools is required" [])
  else Ok tt.

(** ** The executor ([step.go]) *)

Definition object_schema (properties : object) (required : list string) : string :=
  Marshal FormatFloat (JObj (mk_obj ([("type", JStr "object"); ("properties", JObj properties)] ++
    match required with [] => [] | _ => [("required", JArr (map JStr required))] end))).

Definition typed (t : string) : json := JObj [("type", JStr t)].

(** The safety a plugin declares; a plugin that is not known or silent is taken to
    only read. *)
Definition connector_safety (connector : string) : string :=
  match svPlugins services with
  | None => "read_only"
  | Some (get, _) =>
      match get (TrimSpace connector) with
      | Some safety => if decide (TrimSpace safety = "") then "read_only" else TrimSpace safety
      | None => "read_only"
      end
  end.

Definition mcp_params (tenantID : uuid) (node : ToolNodeConfig) : Svc AgenticDB string :=
  let none := object_schema [] [] in
  match svMCP services with
  | None => mret none
  | Some (discover, _) =>
      if decide (tnMCPServerURL node = "") then mret none
      else
        tools ← tryS (discover tenantID (tnMCPServerURL node) auth_none);
        match tools with
        | Err _ => mret none
        | Ok tools =>
            mret (foldl (fun params tool =>
              match toolInputSchema tool with
              | Some schema =>
                  if EqualFold (TrimSpace (toolName tool)) (TrimSpace (tnMCPToolName node))
                  then Marshal FormatFloat schema else params
              | None => params
              end) none tools)
        end
  end.

Definition invoker_factory (tenantID caseID : uuid) (cfg : AgenticStepConfig) : factory AgenticDB := fun node _ =>
  let source := TrimSpace (tnSource node) in
  if decide (source = "" \/ source = "connector") then
    mret (fun _ => ConnectorInvoke (tnConnector node) (tnConfig node) (rlTimeout (asLimits cfg)),
          connector_safety (tnConnector node), object_schema [("arguments", typed "object")] [])
  else if decide (source = "mcp") then
    params ← mcp_params tenantID node;
    mret (MCPInvoke tenantID (tnMCPServerURL node) (tnMCPToolName node), "read_only", params)
  else if decide (source = "rag") then
    match uuid_parse (TrimSpace (tnKnowledgeBase node)) with
    | None => fail (Errorf "invalid rag knowledge_base" [])
    | Some kbID =>
        mret (fun _ => RAGInvoke tenantID kbID, "read_only",
              object_schema (mk_obj [("query", typed "string");
                ("top_k", JObj (mk_obj [("type", JStr "integer"); ("minimum", JInt 1)]))]) ["query"])
    end
  else if decide (source = "case_data") then
    let readOnly := bool_decide (Normalize (tpToolMode (asToolPolicy cfg)) = ToolModeReadOnly) in
    mret (fun _ => CaseDataInvoke tenantID caseID readOnly, if readOnly then "read_only" else "idempotent_write",
          object_schema (mk_obj [("path", typed "string"); ("value", JObj [])]) ["path"])
  else fail (Errorf "unsupported tool source: %s" [source]).

Definition buildManifest (tenantID caseID : uuid) (cfg : AgenticStepConfig) : Svc AgenticDB (ToolManifest AgenticDB) :=
  Assemble (asToolPolicy cfg) (asToolNodes cfg) (invoker_factory tenantID caseID cfg).

Record caseInfo : Type := mkCaseInfo { ciTenantID : uuid; ciCaseData : json; ciInstanceID : uuid }.

Definition loadCaseInfo (caseID : uuid) : Svc AgenticDB caseInfo :=
  wrapS (Wrapf "load case info: %w" [])
    (select_row (fun _ a => c ← cases (agTables a) !! caseID; Some (mkCaseInfo (cTenant c) (cData c) (cWorkflowID c)))).

(** The event as it is written in the data of a review task. *)
Definition event_json (e : ReasoningEvent) : json :=
  JObj (mk_obj [("TraceID", JStr (uuid_string (reTraceID e))); ("Iteration", JInt (reIteration e));
                ("Sequence", JInt (reSequence e)); ("EventType", JStr (reEventType e));
                ("Content", default JNull (json_parse (reContent e))); ("ToolID", JStr (reToolID e));
                ("ToolSource", JStr (reToolSource e)); ("ToolSafety", JStr (reToolSafety e));
                ("SideEffect", JBool (reSideEffect e)); ("TokenCount", JInt (reTokenCount e));
                ("DurationMS", JInt (reDurationMS e))]).

Definition review_data (goal : string) (caseData : json) (cfg : AgentEscalation) (result : RunResult)
    (events : list ReasoningEvent) : object :=
  mk_obj ([("goal", JStr goal); ("conclusion", default JNull (json_parse (rrConclusion result)));
           ("confidence", JNum (default (Q2Qc 0) (rrConfidence result))); ("case_data_snapshot", caseData)] ++
          (if aeIncludeTrace cfg then [("reasoning_trace", JArr (map event_json events))] else [])).

Definition createEscalationTask (tenantID caseID : uuid) (stepID goal : string) (caseData : json)
    (cfg : AgentEscalation) (result : RunResult) (events : list ReasoningEvent) : Svc AgenticDB unit :=
  match svTasks services with
  | None => fail (Errorf "task service not configured for agentic escalation" [])
  | Some createTask =>
      let role := TrimSpace (aeEscalateTo cfg) in
      createTask caseID stepID
        (mkAssignmentConfig (if decide (role = "") then "case_worker" else role) "" 0 (mkEscalationConfig 0 "" "")
           "agentic_review" (mkFormSchema "" [] [] []) ["accept"; "modify"; "reject"]
           (mk_obj [("agentic_review", JObj (review_data goal caseData cfg result events));
                    ("tenant_id", JStr (uuid_string tenantID))]))
  end.

Definition buildOutputPatch (path : string) (conclusion : string) : result goerr json :=
  match json_parse conclusion with
  | None => Err (Errorf "decode conclusion output: invalid JSON text" [])
  | Some value =>
      let path := TrimPrefix (TrimPrefix (TrimSpace path) "case.") "data." in
      Ok (if decide (path = "") then value else nest_path (map TrimSpace (Split "." path)) value)
  end.

Context (compile_schema : string -> result goerr (json -> result goerr unit)).
Context (Chat : nat -> uuid -> ChatRequest -> result goerr ChatResponse).

Definition needs_review (cfg : AgenticStepConfig) (result : RunResult) : bool :=
  match rrConfidence result with
  | Some q => if Qclt_le_dec q (aeConfidenceThreshold (asEscalation cfg)) then true else false
  | None => false
  end.

Definition escalate (info : caseInfo) (caseID : uuid) (stepID : string) (cfg : AgenticStepConfig) (result : RunResult)
    : Svc AgenticDB unit :=
  let esc := asEscalation cfg in
  events ← (if aeIncludeTrace esc then
              r ← tryS (GetEvents (rrTraceID result)); mret (match r with Ok l => l | Err _ => [] end)
            else mret []);
  _ ← createEscalationTask (ciTenantID info) caseID stepID (asGoal cfg) (ciCaseData info) esc result events;
  now ← nowS;
  _ ← ignoreS (AppendEvent (plain_event (rrTraceID result) (rrTotalIterations result) 999 "escalation"
        (mustJSON FormatFloat
           [("confidence", match rrConfidence result with Some q => JNum q | None => JNull end);
            ("threshold", JNum (aeConfidenceThreshold esc)); ("escalate_to", JStr (aeEscalateTo esc))]) 0));
  ignoreS (UpdateTrace (mkReasoningTrace (rrTraceID result) uuid_Nil uuid_Nil "" uuid_Nil "" "" "escalated"
    (rrConclusion result) (rrTotalIterations result) (rrTotalToolCalls result) (rrTotalTokens result)
    (rrDurationMS result) time_zero (Some now))).

(** What becomes of the result of a run. *)
Definition step_result (info : caseInfo) (caseID : uuid) (stepID : string) (cfg : AgenticStepConfig)
    (result : RunResult) : Svc AgenticDB StepResult :=
  _ ← guardS (negb (bool_decide (rrStatus result = "error"))) (Errorf "agentic reasoning failed" []);
  if needs_review cfg result then
    _ ← escalate info caseID stepID cfg result;
    fail ErrStepAwaitingReview
  else
    patch ← pureS (buildOutputPatch (asOutputPath cfg) (rrConclusion result));
    mret (mkStepResult "" (json_parse (rrConclusion result)) true (Some patch) None "agentic.concluded" 0).

(** Up to the run, and the run itself with the deadline of its context. *)
Definition start_run (fuel : nat) (caseID : uuid) (stepID : string) (configRaw : option json)
    : Svc AgenticDB (caseInfo * AgenticStepConfig * option RunResult) :=
  cfg ← wrapS (Wrapf "parse agentic config: %w" [])
    (pureS (match configRaw with
            | Some raw => dec_agentic_config raw
            | None => dec_agentic_config (JObj [])
            end));
  let cfg := Config_ApplyDefaults cfg in
  _ ← pureS (Config_Validate cfg);
  info ← loadCaseInfo caseID;
  manifest ← buildManifest (ciTenantID info) caseID cfg;
  now ← nowS;
  result ← Run FormatFloat compile_schema Chat fuel
    (mkRunConfig (ciTenantID info) caseID stepID (ciInstanceID info) (asGoal cfg)
       (Marshal FormatFloat (ciCaseData info)) manifest (asLimits cfg) (asOutputSchema cfg) "default"
       (Some (now + rlTimeout (asLimits cfg))%Z));
  mret (info, cfg, result).

Definition Execute (fuel : nat) (caseID : uuid) (stepID : string) (configRaw : option json)
    : Svc AgenticDB (option StepResult) :=
  '(info, cfg, result) ← start_run fuel caseID stepID configRaw;
  match result with
  | None => mret None
  | Some result => Some <$> step_result info caseID stepID cfg result
  end.

End Executor.

(** * Agentic steps: traces in the database and their reading
    ([internal/agentic/store_pg.go], [api.go])

    A column of type [jsonb] takes a text that is JSON, and the statement fails on
    any other text. *)

Definition set_traces f (a : AgenticDB) : AgenticDB := mkAgenticDB (f (agTraces a)) (agEvents a) (agTables a).
Definition add_event (e : Z * ReasoningEvent) (a : AgenticDB) : AgenticDB :=
  mkAgenticDB (agTraces a) (agEvents a ++ [e]) (agTables a).

Definition json_syntax_error : goerr := Errorf "pq: invalid input syntax for type json" [].

Section Store.
Context `{R : Runtime}.

(** A statement with a parameter that is cast to [jsonb]. *)
Definition exec_json (text : string) (f : nat -> AgenticDB -> result goerr AgenticDB) : Svc AgenticDB unit :=
  exec (fun k _ a => if Valid text then a' ← f k a; Ok (tt, a') else Err json_syntax_error).

Definition trace_created (now : Z) (t : ReasoningTrace) : ReasoningTrace :=
  mkReasoningTrace (trID t) (trTenantID t) (trCaseID t) (trStepID t) (trInstanceID t) (trModelUsed t) (trGoal t)
    (if decide (trStatus t = "") then "running" else trStatus t) (trConclusion t) (trTotalIterations t)
    (trTotalToolCalls t) (trTotalTokens t) (trTotalDurationMS t)
    (if decide (trCreatedAt t = time_zero) then now else trCreatedAt t) (trCompletedAt t).

(** [PostgresTraceStore]: the runs pass traces with an identifier. *)
Definition pg_CreateTrace (t : ReasoningTrace) : Svc AgenticDB unit :=
  now ← nowS;
  let t := trace_created now t in
  wrapS (Wrapf "insert agentic trace: %w" [])
    (exec_json (trConclusion t) (fun _ a =>
       if decide (is_Some (agTraces a !! trID t)) then Err unique_error
       else Ok (set_traces (<[trID t := t]>) a))).

Definition trace_updated (t row : ReasoningTrace) : ReasoningTrace :=
  mkReasoningTrace (trID row) (trTenantID row) (trCaseID row) (trStepID row) (trInstanceID row) (trModelUsed row)
    (trGoal row) (trStatus t) (trConclusion t) (trTotalIterations t) (trTotalToolCalls t) (trTotalTokens t)
    (trTotalDurationMS t) (trCreatedAt row) (trCompletedAt t).

Definition pg_UpdateTrace (t : ReasoningTrace) : Svc AgenticDB unit :=
  if decide (trID t = uuid_Nil) then mret tt
  else wrapS (Wrapf "update agentic trace: %w" [])
    (exec_json (trConclusion t) (fun _ a => Ok (set_traces (alter (trace_updated t) (trID t)) a))).

Definition pg_AppendEvent (e : ReasoningEvent) : Svc AgenticDB unit :=
  now ← nowS;
  wrapS (Wrapf "insert agentic event: %w" []) (exec_json (reContent e) (fun _ a => Ok (add_event (now, e) a))).

(** [ORDER BY iteration, sequence, created_at] *)
Definition event_order (x y : Z * ReasoningEvent) : Prop :=
  (reIteration x.2 < reIteration y.2)%Z \/
  (reIteration x.2 = reIteration y.2 /\
   ((reSequence x.2 < reSequence y.2)%Z \/ (reSequence x.2 = reSequence y.2 /\ (x.1 <= y.1)%Z))).
#[export] Instance event_order_dec : RelDecision event_order.
Proof. intros x y. unfold event_order. apply _. Defined.

Definition pg_GetEvents (traceID : uuid) : Svc AgenticDB (list ReasoningEvent) :=
  wrapS (Wrapf "query agentic events: %w" [])
    (select (fun _ a => map snd (merge_sort event_order (filter (fun e => reTraceID e.2 = traceID) (agEvents a))))).

Definition pg_GetTrace (id : uuid) : Svc AgenticDB ReasoningTrace := select_row (fun _ a => agTraces a !! id).

Definition created_desc (x y : ReasoningTrace) : Prop := (trCreatedAt y <= trCreatedAt x)%Z.
#[export] Instance created_desc_dec : RelDecision created_desc.
Proof. intros x y. unfold created_desc. apply _. Defined.

Definition traces_where (p : ReasoningTrace -> bool) (a : AgenticDB) : list ReasoningTrace :=
  merge_sort created_desc (filter (fun t => p t = true) (map snd (map_to_list (agTraces a)))).

Definition pg_GetTraceByCase (caseID : uuid) (stepID : string) : Svc AgenticDB ReasoningTrace :=
  select_row (fun _ a => head (traces_where
    (fun t => bool_decide (trCaseID t = caseID) && bool_decide (trStepID t = stepID)) a)).

#[export] Instance PostgresTraceStore : TraceStore AgenticDB := {
  CreateTrace := pg_CreateTrace;
  UpdateTrace := pg_UpdateTrace;
  GetTrace := pg_GetTrace;
  GetTraceByCase := pg_GetTraceByCase;
  AppendEvent := pg_AppendEvent;
  GetEvents := pg_GetEvents
}.

(** ** Reading traces ([api.go]) *)

Definition API_ListByCase (tenantID caseID : uuid) : Svc AgenticDB (list ReasoningTrace) :=
  wrapS (Wrapf "list traces by case: %w" [])
    (select (fun _ a => traces_where
       (fun t => bool_decide (trTenantID t = tenantID) && bool_decide (trCaseID t = caseID)) a)).

Definition API_GetTrace (tenantID traceID : uuid) : Svc AgenticDB ReasoningTrace :=
  t ← GetTrace traceID;
  if decide (trTenantID t = tenantID) then mret t else fail ErrNoRows.

Definition API_GetEvents (tenantID traceID : uuid) (eventType : string) : Svc AgenticDB (list ReasoningEvent) :=
  _ ← API_GetTrace tenantID traceID;
  events ← GetEvents traceID;
  let eventType := TrimSpace eventType in
  if decide (eventType = "") then mret events
  else mret (filter (fun e => EqualFold (reEventType e) eventType = true) events).

End Store.
