(* ===== verification/AgenticProps.v ===== *)
(** * The reasoning loop: budgets, progress and what a run leaves alone

    [tool_call_potential]: a tool call spends one of the calls that are left.
    [iteration_inl]: a round that does not end the run has spent tokens and stays
    below the budget. [Run_keeps]: what the store and the tools leave alone, a run
    leaves alone. *)

From S2P Require Import Prelude GoStrings Json EngineTypes Store TaskForms GoText Effects JsonText Agentic.
From S2P Require Import AgenticRunner.

(** ** Limits *)

Lemma or_default_pos d x : (0 < d -> 0 < or_default d x)%Z.
Proof. unfold or_default. destruct (Z.leb_spec x 0); lia. Qed.

Lemma or_default_fix d x : (0 < x)%Z -> or_default d x = x.
Proof. unfold or_default. destruct (Z.leb_spec x 0); lia. Qed.

Lemma ApplyDefaults_pos l :
  (0 < rlMaxIterations (ApplyDefaults l) /\ 0 < rlMaxToolCalls (ApplyDefaults l) /\
   0 < rlMaxTokens (ApplyDefaults l) /\ 0 < rlTimeout (ApplyDefaults l))%Z.
Proof. unfold ApplyDefaults. split_and!; cbn; by apply or_default_pos. Qed.

Lemma ApplyDefaults_idem l : ApplyDefaults (ApplyDefaults l) = ApplyDefaults l.
Proof.
  destruct (ApplyDefaults_pos l) as (H1 & H2 & H3 & H4). destruct (ApplyDefaults l) as [a b c d]. cbn in *.
  unfold ApplyDefaults. cbn. by rewrite !or_default_fix.
Qed.

Lemma CheckToolCalls_spec ce :
  if decide (CheckToolCalls ce <> "") then (rlMaxToolCalls (ceLimits ce) <= ceToolCalls ce)%Z
  else (ceToolCalls ce < rlMaxToolCalls (ceLimits ce))%Z.
Proof.
  unfold CheckToolCalls. destruct (Z.leb_spec (rlMaxToolCalls (ceLimits ce)) (ceToolCalls ce));
    case_decide; naive_solver.
Qed.

Lemma CheckTokenBudget_spec tokens ce :
  exists text ce', CheckTokenBudget tokens ce = (text, (rlMaxTokens (ceLimits ce) <=? tokens)%Z, ce').
Proof.
  unfold CheckTokenBudget. cbn [SetTokensUsed ceLimits ceTokensUsed].
  destruct (_ <=? tokens)%Z; [|destruct (_ <=? _)%Z]; by eexists _, _.
Qed.

Lemma toolsByName_elem {T} (m : ToolManifest T) name t : toolsByName m name = Some t -> t ∈ m /\ rtName t = name.
Proof.
  unfold toolsByName. intros H%last_Some_elem_of. apply list_elem_of_filter in H. tauto.
Qed.

Lemma ValidateToolCall_elem {T} name (m : ToolManifest T) t : ValidateToolCall name m = Ok t -> t ∈ m.
Proof.
  unfold ValidateToolCall. destruct (toolsByName m (TrimSpace name)) eqn:E; [|done].
  intros [= <-]. by apply toolsByName_elem in E as [].
Qed.

Section Runs.
Context `{R : Runtime} {T : Type} `{TS : !TraceStore T}.
Context (FormatFloat : Qc -> string) (compile_schema : string -> result goerr (json -> result goerr unit)).
Context (Chat : nat -> uuid -> ChatRequest -> result goerr ChatResponse).

Lemma ignoreS_bind {A B} (m : Svc T A) (f : unit -> Svc T B) w : (ignoreS m ≫= f) w = f tt (m w).2.
Proof. done. Qed.
Lemma tryS_bind {A B} (m : Svc T A) (f : result goerr A -> Svc T B) w : (tryS m ≫= f) w = f (m w).1 (m w).2.
Proof. unfold tryS, mbind, Svc_bind. by destruct (m w). Qed.

Lemma nowS_bind {B} (f : Z -> Svc T B) w : (nowS ≫= f) w = f (wall_clock (ticks w)) (mkSys (st w) (S (ticks w))).
Proof. done. Qed.

(** ** What a run leaves alone *)

Section Keeps.
Context (P : T -> T -> Prop) `{HP : !PreOrder P}.

Class StoreKeeps : Prop := {
  keeps_create t : keepsS P (CreateTrace t);
  keeps_update t : keepsS P (UpdateTrace t);
  keeps_append e : keepsS P (AppendEvent e)
}.
Context `{HS : !StoreKeeps}.

Lemma note_keeps e : keepsS P (note e).
Proof. apply keepsS_ignore, keeps_append. Qed.

Lemma since_keeps s : keepsS P (since s).
Proof. unfold since. keeps_steps. Qed.

Lemma stop_keeps tr s a b c l : keepsS P (stop tr s a b c l).
Proof.
  unfold stop, finish. apply keepsS_bind; [done|apply since_keeps|]. intros ms.
  apply keepsS_bind; [done|apply keepsS_now; done|]. intros now.
  apply keepsS_bind; [done|apply keeps_update|]. intros _. by apply keepsS_ret.
Qed.

Context (config : RunConfig T).
Context (Htools : forall tool d args, tool ∈ rcToolManifest config -> keepsS P (rtInvoker tool d args)).

Ltac run_step :=
  match goal with
  | |- keepsS _ (note _) => apply note_keeps
  | |- keepsS _ (since _) => apply since_keeps
  | |- keepsS _ (stop _ _ _ _ _ _) => apply stop_keeps
  | _ => keeps_step
  end.

Lemma tool_call_keeps trace acc tc : keepsS P (tool_call FormatFloat compile_schema config trace acc tc).
Proof.
  unfold tool_call. case_decide; [repeat run_step|].
  destruct (ValidateToolCall _ _) as [tool|] eqn:Hv; [|repeat run_step].
  apply ValidateToolCall_elem in Hv. destruct (ValidateToolArgs _ _ _); [|repeat run_step].
  apply keepsS_bind; [done|apply note_keeps|intros _]. apply keepsS_bind; [done|by apply keepsS_now|intros started].
  apply keepsS_bind; [done|by apply keepsS_try, Htools|].
  intros r. repeat run_step.
Qed.

Lemma iteration_keeps trace started l :
  keepsS P (iteration FormatFloat compile_schema Chat config trace started l).
Proof.
  unfold iteration. apply keepsS_bind; [done|by apply keepsS_now|]. intros now.
  destruct (CheckTimeout _ _); [repeat run_step|].
  apply keepsS_bind; [done|apply keepsS_try, keepsS_call; done|]. intros [resp|e]; [|repeat run_step].
  unfold respond, conclude. apply keepsS_bind; [done|apply note_keeps|]. intros _.
  destruct (CheckTokenBudget _ _) as [[warning stop] ce]. destruct stop; [repeat run_step|].
  destruct (_ && _).
  - apply keepsS_bind; [done| |intros; by apply keepsS_ret].
    apply keepsS_fold; [done|]. intros acc tc _. apply tool_call_keeps.
  - repeat run_step.
Qed.

Lemma run_loop_keeps trace started fuel l :
  keepsS P (run_loop FormatFloat compile_schema Chat config trace started fuel l).
Proof.
  revert l. induction fuel as [|fuel IH]; intros l; [by apply keepsS_ret|].
  cbn [run_loop]. apply keepsS_bind; [done|apply iteration_keeps|].
  intros [l'|r]; [apply IH|by apply keepsS_ret].
Qed.

Lemma Run_keeps fuel : keepsS P (Run FormatFloat compile_schema Chat fuel config).
Proof.
  unfold Run, newS. do 3 (apply keepsS_bind; [done|by first [apply keepsS_now|apply keepsS_call]|intros ?]).
  apply keepsS_bind; [done|apply keeps_create|intros _].
  apply keepsS_bind; [done|apply note_keeps|intros _]. apply run_loop_keeps.
Qed.
End Keeps.

(** ** Budgets *)

Section Budget.
Context (config : RunConfig T) (trace : ReasoningTrace) (started : Z).
Let limits : ReasoningLimits := ApplyDefaults (rcLimits config).
Context (Hint64 : in_int64 (rlMaxToolCalls limits)).

(** The counters of the loop and of the enforcer agree, and no more calls have
    been counted than are allowed. *)
Definition counted (l : Loop) : Prop :=
  ceLimits (lpCe l) = limits /\ ceToolCalls (lpCe l) = lpToolCalls l /\
  (0 <= lpToolCalls l <= rlMaxToolCalls limits)%Z.

(** Two loops that differ in messages and calls only. *)
Definition same_progress (l l' : Loop) : Prop :=
  lpIteration l' = lpIteration l /\ lpTokens l' = lpTokens l /\ lpInvalid l' = lpInvalid l /\
  lpLast l' = lpLast l.

(** Something the tools can change by at most one per call, and the store not at all. *)
Context (count : T -> Z).
Let quiet (t t' : T) : Prop := count t' = count t.
Context `{HS : !StoreKeeps quiet}.
Context (Htool : forall tool d args w, tool ∈ rcToolManifest config ->
  (count (st (rtInvoker tool d args w).2) <= count (st w) + 1)%Z).

#[local] Instance quiet_preorder : PreOrder quiet.
Proof. split; [done|]. intros x y z H1 H2. unfold quiet in *. congruence. Qed.

Lemma append_quiet e w : count (st (AppendEvent e w).2) = count (st w).
Proof. exact (keeps_append quiet e w). Qed.

Lemma count_call_counted l : counted l -> (lpToolCalls l < rlMaxToolCalls limits)%Z ->
  counted (count_call l) /\ lpToolCalls (count_call l) = (lpToolCalls l + 1)%Z.
Proof.
  intros (H1 & H2 & H3) Hlt.
  assert (wrap64 (lpToolCalls l + 1) = (lpToolCalls l + 1)%Z) as Hw
    by (pose proof Hint64 as [_ Hi]; apply wrap64_id; unfold in_int64, int64_min; lia).
  unfold counted, count_call, IncrementToolCalls. cbn [lpCe ceLimits ceToolCalls lpToolCalls]. rewrite H2, Hw.
  split_and!; done || lia.
Qed.

(** A tool call counts what it does. *)
Lemma tool_call_potential acc tc w : counted acc.1 ->
  exists acc' w', tool_call FormatFloat compile_schema config trace acc tc w = (Ok acc', w') /\
    counted acc'.1 /\ same_progress acc.1 acc'.1 /\
    (count (st w') - lpToolCalls acc'.1 <= count (st w) - lpToolCalls acc.1)%Z.
Proof.
  destruct acc as [l sequence]. intros Hc. cbn [fst] in Hc. unfold tool_call. cbn [fst snd].
  pose proof (CheckToolCalls_spec (lpCe l)) as Hl. destruct Hc as (Hc1 & Hc2 & Hc3).
  assert (counted l) as Hc by done.
  case_decide as Hd.
  { eexists _, _. split; [reflexivity|]. split_and!; try done. cbn [fst lpToolCalls with_messages].
    unfold note, ignoreS. cbn [snd]. rewrite append_quiet. lia. }
  rewrite Hc1, Hc2 in Hl. destruct (count_call_counted l Hc Hl) as [Hc' Hn].
  assert (same_progress l (count_call l)) as Hs by done.
  destruct (ValidateToolCall _ _) as [tool|e] eqn:Hv.
  2:{ eexists _, _. split; [reflexivity|]. split_and!; try done. cbn [fst lpToolCalls with_messages].
    unfold note, ignoreS. cbn [snd]. rewrite append_quiet. lia. }
  destruct (ValidateToolArgs _ _ _) as [_|e].
  2:{ eexists _, _. split; [reflexivity|]. split_and!; try done. cbn [fst lpToolCalls with_messages].
    unfold note, ignoreS. cbn [snd]. rewrite append_quiet. lia. }
  apply ValidateToolCall_elem in Hv. unfold note. rewrite ignoreS_bind.
  unfold nowS at 1. unfold mbind at 1, Svc_bind at 1. cbn [st ticks].
  match goal with |- context [tryS ?m ≫= _] => set (inv := m) end.
  rewrite tryS_bind. 
  match goal with |- context [inv ?w0] => set (w1 := w0) end.
  pose proof (Htool tool (rcDeadline config) (tcArguments tc) w1 Hv) as Hi. fold inv in Hi.
  assert (count (st w1) = count (st w)) as H1 by (subst w1; cbn [st]; apply append_quiet).
  destruct (inv w1) as [[out|e] w2]; cbn [fst snd] in *;
    (eexists _, _; split; [reflexivity|]; split_and!; try done;
     cbn [fst lpToolCalls with_messages]; unfold ignoreS; cbn [snd]; rewrite append_quiet; cbn [st]; lia).
Qed.

Lemma tool_calls_potential tcs acc w : counted acc.1 ->
  exists acc' w', foldS (tool_call FormatFloat compile_schema config trace) tcs acc w = (Ok acc', w') /\
    counted acc'.1 /\ same_progress acc.1 acc'.1 /\
    (count (st w') - lpToolCalls acc'.1 <= count (st w) - lpToolCalls acc.1)%Z.
Proof.
  revert acc w. induction tcs as [|tc tcs IH]; intros acc w Hc.
  { exists acc, w. split; [done|]. split_and!; [done|done|lia]. }
  destruct (tool_call_potential acc tc w Hc) as (acc1 & w1 & E1 & Hc1 & Hs1 & Hp1).
  destruct (IH acc1 w1 Hc1) as (acc2 & w2 & E2 & Hc2 & Hs2 & Hp2).
  exists acc2, w2. cbn [foldS]. rewrite (bindS_Ok _ _ _ _ _ E1). split; [done|].
  split_and!; [done| |lia]. unfold same_progress in *. intuition congruence.
Qed.

(** What a result of a run says. *)
Definition run_statuses : list string := ["concluded"; "timeout"; "error"].
Record result_ok (r : RunResult) : Prop := {
  result_status : rrStatus r ∈ run_statuses;
  result_calls : (0 <= rrTotalToolCalls r <= rlMaxToolCalls limits)%Z;
  result_trace : rrTraceID r = trID trace;
  result_concluded : rrStatus r = "concluded" -> exists text,
    parseConclusion compile_schema text (rcOutputSchema config) = Ok (rrConclusion r, rrConfidence r)
}.

(** What is left of a budget after a round. *)
Definition round_ok (l : Loop) (w : Sys T) (r : result goerr (Loop + RunResult)) (w' : Sys T) : Prop :=
  match r with
  | Err _ => count (st w') = count (st w)
  | Ok (inr result) => count (st w') = count (st w) /\ result_ok result
  | Ok (inl l') =>
      counted l' /\ (count (st w') - lpToolCalls l' <= count (st w) - lpToolCalls l)%Z /\
      (lpTokens l' < rlMaxTokens limits)%Z /\
      exists k req resp, Chat k (rcTenantID config) req = Ok resp /\
        lpTokens l' = wrap64 (lpTokens l + rsTotalTokens resp)
  end.

Lemma stop_ok l0 status conclusion confidence l w0 w :
  counted l -> count (st w) = count (st w0) -> status ∈ run_statuses ->
  (status = "concluded" -> exists text,
     parseConclusion compile_schema text (rcOutputSchema config) = Ok (conclusion, confidence)) ->
  round_ok l0 w0 ((inr <$> stop trace started status conclusion confidence l : Svc T (Loop + RunResult)) w).1
    ((inr <$> stop trace started status conclusion confidence l : Svc T (Loop + RunResult)) w).2.
Proof.
  intros (_ & _ & Hc) Hw Hs Hcon.
  pose proof (stop_keeps quiet trace started status conclusion confidence l w) as Hk.
  unfold stop, finish, since, nowS, mbind, Svc_bind, fmap, Svc_fmap, mret, Svc_ret in *. cbn [st ticks] in *.
  destruct (UpdateTrace _ _) as [[[]|e] w1]; cbn [fst snd round_ok] in *; unfold quiet in Hk; [|congruence].
  split; [congruence|]. by constructor.
Qed.

Lemma conclude_ok l0 resp l w0 w : counted l -> count (st w) = count (st w0) ->
  lpToolCalls l = lpToolCalls l0 -> (lpTokens l < rlMaxTokens limits)%Z ->
  (exists k req, Chat k (rcTenantID config) req = Ok resp) ->
  lpTokens l = wrap64 (lpTokens l0 + rsTotalTokens resp) ->
  let m := conclude FormatFloat compile_schema config trace started resp l in
  round_ok l0 w0 (m w).1 (m w).2.
Proof.
  intros Hc Hw Hcalls Ht (k & req & Hchat) Htok. unfold conclude.
  destruct (parseConclusion _ _ _) as [[conclusion confidence]|err] eqn:Ep; unfold note; rewrite ignoreS_bind.
  - apply stop_ok; [done|by rewrite append_quiet|by left|]. intros _. by exists (rsContent resp).
  - destruct (3 <=? _)%Z.
    + apply stop_ok; [done|by rewrite append_quiet|do 2 right; by left|done].
    + cbn [mret Svc_ret fst snd round_ok]. rewrite append_quiet.
      split_and!; [done|cbn; lia|done|]. by exists k, req, resp.
Qed.

Lemma receive_counted resp l : counted l -> counted (receive resp l).
Proof. done. Qed.
Lemma begin_counted l : counted l -> counted (begin_iteration l).
Proof. done. Qed.

Lemma respond_ok l0 resp l w0 w : counted l -> count (st w) = count (st w0) ->
  lpToolCalls l = lpToolCalls l0 -> lpTokens l = lpTokens l0 ->
  (exists k req, Chat k (rcTenantID config) req = Ok resp) ->
  let m := respond FormatFloat compile_schema config trace started resp l in
  round_ok l0 w0 (m w).1 (m w).2.
Proof.
  intros Hc Hw Hcalls Htok Hchat. unfold respond, note. rewrite ignoreS_bind.
  apply (receive_counted resp) in Hc as Hc'. destruct Hc' as (Hl & _ & _).
  set (w1 := (AppendEvent _ w).2). assert (count (st w1) = count (st w0)) as Hw1 by (subst w1; by rewrite append_quiet).
  clearbody w1. set (l1 := receive resp l) in *.
  assert (counted l1) as Hc1 by done.
  assert (lpTokens l1 = wrap64 (lpTokens l0 + rsTotalTokens resp)) as Ht1 by (cbn; by rewrite Htok).
  assert (lpToolCalls l1 = lpToolCalls l0) as Hcalls1 by done. clearbody l1.
  destruct (CheckTokenBudget_spec (lpTokens l1) (lpCe l1)) as (text & ce & ->). rewrite Hl.
  destruct (Z.leb_spec (rlMaxTokens limits) (lpTokens l1)) as [Hbig|Hsmall].
  { destruct (parseConclusion _ _ _) as [[? ?]|?]; apply stop_ok; try done; right; by left. }
  set (l2 := if decide (text = "") then l1 else _).
  assert (counted l2 /\ lpTokens l2 = lpTokens l1 /\ lpToolCalls l2 = lpToolCalls l1) as (Hc2 & Ht2 & Hcalls2)
    by (unfold l2; destruct (decide (text = "")); done).
  clearbody l2. destruct (_ && _).
  - set (acc := (with_messages _ l2, 1%Z)).
    destruct (tool_calls_potential (rsToolCalls resp) acc w1) as (acc' & w2 & E & Hc3 & Hs3 & Hp3); [done|].
    rewrite (bindS_Ok _ _ _ _ _ E). cbn [mret Svc_ret fst snd round_ok].
    destruct Hs3 as (_ & Ht3 & _). cbn in Ht3, Hp3. destruct Hchat as (k & req & Hchat).
    split_and!; [done|lia|lia|]. exists k, req, resp. split; [done|congruence].
  - apply conclude_ok; try done; congruence.
Qed.

Lemma iteration_ok l w : counted l ->
  let m := iteration FormatFloat compile_schema Chat config trace started l in
  round_ok l w (m w).1 (m w).2.
Proof.
  intros Hc. unfold iteration. rewrite nowS_bind.
  destruct (CheckTimeout _ _); [apply stop_ok; try done; right; by left|].
  rewrite tryS_bind. unfold callS. cbn [fst snd ticks st].
  destruct (Chat _ _ _) as [resp|err] eqn:Ech.
  - apply respond_ok; try done. by eexists _, _.
  - unfold note. rewrite ignoreS_bind.
    apply stop_ok; [done|by rewrite append_quiet|do 2 right; by left|done].
Qed.

Lemma run_loop_ok fuel l w : counted l ->
  let m := run_loop FormatFloat compile_schema Chat config trace started fuel l in
  (count (st (m w).2) <= count (st w) + (rlMaxToolCalls limits - lpToolCalls l))%Z /\
  forall r, (m w).1 = Ok (Some r) -> result_ok r.
Proof.
  revert l w. induction fuel as [|fuel IH]; intros l w Hc.
  { pose proof Hc as (_ & _ & ?). split; [cbn [run_loop mret Svc_ret snd st]; lia|done]. }
  pose proof (iteration_ok l w Hc) as Hr. cbn zeta in Hr. pose proof Hc as (_ & _ & Hb). cbn [run_loop].
  unfold mbind, Svc_bind. destruct (iteration _ _ _ _ _ _ _ _) as [[[l'|r]|e] w']; cbn [fst snd round_ok] in *.
  - destruct Hr as (Hc' & Hp & _ & _). destruct (IH l' w' Hc') as [H1 H2]. split; [lia|done].
  - destruct Hr as [Hq Hr]. split; [cbn [mret Svc_ret snd st]; lia|]. by intros r' [= <-].
  - split; [lia|done].
Qed.

Lemma run_loop_ends fuel l w :
  (forall k req resp, Chat k (rcTenantID config) req = Ok resp -> 1 <= rsTotalTokens resp <= 2 ^ 62)%Z ->
  (rlMaxTokens limits <= 2 ^ 62)%Z ->
  counted l -> (0 <= lpTokens l < rlMaxTokens limits)%Z -> (rlMaxTokens limits - lpTokens l <= Z.of_nat fuel)%Z ->
  (run_loop FormatFloat compile_schema Chat config trace started fuel l w).1 <> Ok None.
Proof.
  intros Hchat Hmax. revert l w. induction fuel as [|fuel IH]; intros l w Hc Ht Hf; [lia|].
  pose proof (iteration_ok l w Hc) as Hr. cbn zeta in Hr. cbn [run_loop]. unfold mbind, Svc_bind.
  destruct (iteration _ _ _ _ _ _ _ _) as [[[l'|r]|e] w']; cbn [fst snd round_ok] in *; [|done..].
  destruct Hr as (Hc' & _ & Hlt & k & req & resp & Hresp & Etok). apply Hchat in Hresp.
  rewrite wrap64_id in Etok by (unfold in_int64, int64_min, int64_max; lia).
  apply IH; [done|lia..].
Qed.
End Budget.

Lemma first_loop_counted config now : counted config (first_loop config now).
Proof.
  unfold counted, first_loop, NewConstraintEnforcer. cbn [lpCe ceLimits ceToolCalls lpToolCalls].
  rewrite ApplyDefaults_idem. destruct (ApplyDefaults_pos (rcLimits config)) as (_ & H & _). split_and!; [done..|lia].
Qed.

(** A run is the creation of its trace and the loop. *)
Lemma Run_inv fuel config w r w' :
  Run FormatFloat compile_schema Chat fuel config w = (r, w') ->
  let started := wall_clock (ticks w) in
  let trace := new_trace config (gen_random_uuid (S (S (ticks w)))) started in
  let w0 := mkSys (st w) (S (S (S (ticks w)))) in
  (exists e, CreateTrace trace w0 = (Err e, w') /\ r = Err e) \/
  exists w1 e, CreateTrace trace w0 = (Ok tt, w1) /\
    run_loop FormatFloat compile_schema Chat config trace started fuel
      (first_loop config (wall_clock (S (ticks w)))) (AppendEvent e w1).2 = (r, w').
Proof.
  unfold Run, newS, callS. rewrite !nowS_bind. cbn [ticks st]. unfold mbind at 1, Svc_bind at 1. cbn [ticks st].
  intros H. unfold mbind at 1, Svc_bind at 1 in H.
  destruct (CreateTrace _ _) as [[[]|e] w1] eqn:E; [|left; exists e; by simplify_eq].
  right. unfold note in H. rewrite ignoreS_bind in H. by eexists _, _.
Qed.
End Runs.

(** * A conclusion inside prose

    Models wrap the JSON they are asked for in sentences. [extractJSONBlock] looks
    for the first brace and for the one that matches it, passing over string
    literals. [block_object]: applied to an object as [json.Marshal] writes it,
    with anything after it, this is the object. *)

(** ** Texts the search passes over *)

Definition passes (s : string) : Prop := forall d t,
  block (S d) false false (s +:+ t) = String.app s <$> block (S d) false false t.
Definition inside (s : string) : Prop := forall d t,
  block d true false (s +:+ t) = String.app s <$> block d true false t.

Definition plain_in (a : ascii) : bool := negb (bool_decide (a = dquote)) && negb (bool_decide (a = backslash)).
Definition plain_out (a : ascii) : bool :=
  negb (bool_decide (a = dquote)) && negb (bool_decide (a = "{"%char)) && negb (bool_decide (a = "}"%char)).

Lemma fmap_app_cons (a : ascii) s (o : option string) :
  String a <$> (String.app s <$> o) = String.app (String a s) <$> o.
Proof. by destruct o. Qed.

Lemma fmap_app_app s1 s2 (o : option string) :
  String.app s1 <$> (String.app s2 <$> o) = String.app (s1 +:+ s2) <$> o.
Proof. destruct o as [x|]; [|done]. simpl. by rewrite append_assoc. Qed.

Lemma passes_app s1 s2 : passes s1 -> passes s2 -> passes (s1 +:+ s2).
Proof. intros H1 H2 d t. rewrite append_assoc, H1, H2. apply fmap_app_app. Qed.
Lemma inside_app s1 s2 : inside s1 -> inside s2 -> inside (s1 +:+ s2).
Proof. intros H1 H2 d t. rewrite append_assoc, H1, H2. apply fmap_app_app. Qed.

Lemma passes_plain s : all_chars plain_out s = true -> passes s.
Proof.
  induction s as [|a s IH]; intros H d t; [change (EmptyString +:+ t) with t; by destruct (block _ _ _ t)|].
  cbn [all_chars] in H. apply andb_true_iff in H as [Ha Hs].
  unfold plain_out in Ha. boolp. change (String a s +:+ t) with (String a (s +:+ t)). cbn [block].
  rewrite !decide_False by done. rewrite IH by done. apply fmap_app_cons.
Qed.

Lemma inside_plain s : all_chars plain_in s = true -> inside s.
Proof.
  induction s as [|a s IH]; intros H d t; [change (EmptyString +:+ t) with t; by destruct (block _ _ _ t)|].
  cbn [all_chars] in H. apply andb_true_iff in H as [Ha Hs].
  unfold plain_in in Ha. boolp. change (String a s +:+ t) with (String a (s +:+ t)). cbn [block].
  rewrite decide_False, bool_decide_false by done. cbn [negb]. rewrite IH by done. apply fmap_app_cons.
Qed.

Lemma inside_escape c s : all_chars plain_in s = true -> inside (String backslash (String c s)).
Proof.
  intros H d t. change (String backslash (String c s) +:+ t) with (String backslash (String c (s +:+ t))).
  cbn [block]. rewrite decide_True by done. rewrite inside_plain by done. by rewrite !fmap_app_cons.
Qed.

(** ** String literals *)

Lemma first_rune_plain a s : (128 <= code a)%nat -> first_rune (String a s) = rune_error \/
  all_chars (fun b => (128 <=? code b)%nat) (first_rune (String a s)) = true.
Proof.
  intros Ha. unfold first_rune, code in *.
  assert (exists lo hi, second_range (Ascii.nat_of_ascii a) = (lo, hi) /\ (128 <= lo)%nat) as (lo & hi & -> & Hlo).
  { unfold second_range. repeat case_decide; eexists _, _; split; reflexivity || lia. }
  destruct (_ <? 128)%nat eqn:E; [apply Nat.ltb_lt in E; lia|].
  apply Nat.leb_le in Ha.
  assert (forall lo hi s, (128 <= lo)%nat -> byte_in lo hi s = true ->
    exists b r, s = String b r /\ (128 <=? Ascii.nat_of_ascii b)%nat = true) as Hb.
  { intros lo' hi' [|b r] H H'; [done|]. exists b, r. split; [done|]. cbn [byte_in] in H'. boolp.
    apply Nat.leb_le. repeat match goal with H : (_ <=? _)%nat = true |- _ => apply Nat.leb_le in H end. lia. }
  destruct (negb _); [by left|]. destruct (byte_in lo hi s) eqn:E1; [|by left]. cbn [negb].
  apply Hb in E1 as (b & r & -> & Eb); [|done].
  destruct (_ <? 224)%nat; [right; destruct r; cbn [String.substring all_chars]; by rewrite Ha, Eb|].
  change (drop_str 1 (String b r)) with r. destruct (byte_in 128 191 r) eqn:E2; [|by left]. cbn [negb].
  apply Hb in E2 as (c & r2 & -> & Ec); [|done].
  destruct (_ <? 240)%nat; [right; destruct r2; cbn [String.substring all_chars]; by rewrite Ha, Eb, Ec|].
  change (drop_str 2 (String b (String c r2))) with r2. destruct (byte_in 128 191 r2) eqn:E3; [|by left]. cbn [negb].
  apply Hb in E3 as (d & r3 & -> & Ed); [|done].
  right. destruct r3; cbn [String.substring all_chars]; by rewrite Ha, Eb, Ec, Ed.
Qed.

Lemma high_plain s : all_chars (fun b => (128 <=? code b)%nat) s = true -> all_chars plain_in s = true.
Proof.
  apply all_chars_impl. intros b Hb. apply Nat.leb_le in Hb. unfold plain_in.
  rewrite !bool_decide_false; [done|intros ->; vm_compute in Hb; lia..].
Qed.

Lemma escape_ascii_inside a : (code a < 128)%nat -> inside (escape_rune (String a EmptyString)).
Proof.
  intros Ha.
  assert (forallb (fun n => let e := escape_rune (String (Ascii.ascii_of_nat n) EmptyString) in
    all_chars plain_in e ||
    match e with String b (String _ s) => bool_decide (b = backslash) && all_chars plain_in s | _ => false end)
    (seq 0 128) = true) as H by (vm_compute; reflexivity).
  rewrite forallb_forall in H. specialize (H (Ascii.nat_of_ascii a)). cbn beta zeta in H.
  rewrite Ascii.ascii_nat_embedding in H.
  assert (In (Ascii.nat_of_ascii a) (seq 0 128)) as Hin by (apply in_seq; unfold code in Ha; lia).
  apply H in Hin. clear H.
  apply orb_true_iff in Hin as [Hp|Hp]; [by apply inside_plain|].
  destruct (escape_rune _) as [|b [|c s]]; [done..|]. boolp. subst b. by apply inside_escape.
Qed.

Lemma escape_inside a s : bad (String a s) = false -> inside (escape_rune (first_rune (String a s))).
Proof.
  intros Hb. destruct (first_rune_head a s) as [E|[[E Ha]|(r & E & Ha)]].
  - rewrite E. apply inside_plain. reflexivity.
  - rewrite E. by apply escape_ascii_inside.
  - destruct (first_rune_plain a s Ha) as [E'|Hall]; [rewrite E'; apply inside_plain; reflexivity|].
    assert (escape_rune (first_rune (String a s)) = first_rune (String a s) \/
      escape_rune (first_rune (String a s)) = "\u2028" \/ escape_rune (first_rune (String a s)) = "\u2029")
      as [->|[->| ->]]; [|by apply inside_plain, high_plain|by apply inside_escape..].
    rewrite E. unfold escape_rune. destruct r as [|b r].
    + left. rewrite !decide_False by (intros Hx; rewrite ?Hx in Ha; vm_compute in Ha; lia).
      replace (code a <? 32)%nat with false by (symmetry; apply Nat.ltb_ge; lia).
      rewrite !bool_decide_false by (intros ->; vm_compute in Ha; lia). done.
    + destruct (decide _); [by auto|]. destruct (decide _); by auto.
Qed.

Lemma escaped_inside f s : inside (escaped f s).
Proof.
  revert s. induction f as [|f IH]; intros s; [by apply inside_plain|].
  destruct s as [|a s]; [by apply inside_plain|]. cbn [escaped]. apply inside_app; [|apply IH].
  destruct (bad (String a s)) eqn:Hb; [by apply inside_escape|by apply escape_inside].
Qed.

Lemma quoted_passes s : passes (quoted s).
Proof.
  intros d t. unfold quoted. change (String dquote ?x +:+ t) with (String dquote (x +:+ t)).
  cbn [block]. rewrite decide_True by done. rewrite append_assoc, escaped_inside.
  change (String dquote EmptyString +:+ t) with (String dquote t). cbn [block].
  rewrite decide_False, bool_decide_true by done. cbn [negb].
  do 2 change (String ?c <$> ?o) with (String.app (String c EmptyString) <$> o).
  by rewrite !fmap_app_app, append_assoc.
Qed.

Lemma braces_pass s : passes s -> passes ("{" +:+ s +:+ "}").
Proof.
  intros H d t. rewrite !append_assoc. change ("{" +:+ ?x) with (String "{"%char x). cbn [block].
  rewrite decide_False, decide_True by done. rewrite H. change ("}" +:+ t) with (String "}"%char t).
  cbn [block]. rewrite !decide_False by (done || lia). rewrite decide_True, decide_False by (done || lia).
  replace (S (S d) - 1)%nat with (S d) by lia.
  do 2 change (String ?c <$> ?o) with (String.app (String c EmptyString) <$> o).
  by rewrite !fmap_app_app.
Qed.

(** ** Values *)

Section Prose.
Context (FormatFloat : Qc -> string).
Notation Marshal := (Marshal FormatFloat).
Context (Hnumbers : forall q, all_chars plain_out (FormatFloat q) = true).

Lemma Join_passes l : Forall passes l -> passes (Join "," l).
Proof.
  induction 1 as [|x [|y l] Hx Hl IH]; [by apply passes_plain|done|].
  change (Join "," (x :: y :: l)) with (x +:+ "," +:+ Join "," (y :: l)).
  apply passes_app; [done|]. apply passes_app; [by apply passes_plain|done].
Qed.

Lemma Marshal_passes j : passes (Marshal j).
Proof.
  induction j as [|[]|q|s|l IH|m IH] using json_ind'; cbn [JsonText.Marshal]; try (by apply passes_plain).
  - apply quoted_passes.
  - apply passes_app; [by apply passes_plain|]. apply passes_app; [|by apply passes_plain].
    apply Join_passes. by apply Forall_map.
  - apply braces_pass. apply Join_passes. apply Forall_map. eapply Forall_impl; [exact IH|].
    intros kv Hkv. apply passes_app; [apply quoted_passes|]. apply passes_app; [by apply passes_plain|done].
Qed.

Lemma block_object m t : block 0 false false (Marshal (JObj m) +:+ t) = Some (Marshal (JObj m)).
Proof.
  cbn [JsonText.Marshal]. rewrite !append_assoc. change ("{" +:+ ?x) with (String "{"%char x). cbn [block].
  rewrite decide_False, decide_True by done.
  assert (passes (Join "," (map (fun kv => quoted kv.1 +:+ ":" +:+ Marshal kv.2) m))) as Hp.
  { apply Join_passes, Forall_map, Forall_forall. intros kv _. apply passes_app; [apply quoted_passes|].
    apply passes_app; [by apply passes_plain|apply Marshal_passes]. }
  rewrite Hp. done.
Qed.
End Prose.

Lemma trim_left_head runes n a s :
  forallb starts_blank runes = true -> is_graph a = true -> trim_left runes n (String a s) = String a s.
Proof.
  intros Hr Ha. apply trim_left_none. apply strip_one_None. intros r Hin%list_elem_of_In.
  rewrite forallb_forall in Hr. specialize (Hr r Hin). destruct r as [|b r]; [done|]. unfold HasPrefix.
  cbn [String.prefix]. destruct (Ascii.ascii_dec b a) as [->|]; [|done]. cbn [starts_blank] in Hr. by rewrite Ha in Hr.
Qed.

Lemma TrimSpace_ends a b s : is_graph a = true -> is_graph b = true ->
  TrimSpace (String a (s +:+ String b EmptyString)) = String a (s +:+ String b EmptyString).
Proof.
  intros Ha Hb. unfold TrimSpace. rewrite trim_left_head by done.
  assert (String.rev (String a (s +:+ String b EmptyString)) = String b (String.rev (String a s))) as E.
  { change (String a (s +:+ String b EmptyString)) with (String a s +:+ String b EmptyString). by rewrite rev_append. }
  rewrite E, trim_left_head by done. by rewrite <- E, rev_involutive.
Qed.

Lemma IndexByte_app c p s : char_in c p = false -> IndexByte c (p +:+ String c s) = Some (String.length p).
Proof.
  induction p as [|a p IH]; cbn [char_in]; intros H.
  - change (EmptyString +:+ ?x) with x. cbn [IndexByte]. by rewrite decide_True.
  - boolp. change (String a p +:+ ?x) with (String a (p +:+ x)). cbn [IndexByte]. rewrite decide_False by done.
    by rewrite IH.
Qed.
