(* ===== verification/AgenticClaims.v ===== *)
(** * What the reasoning loop guarantees

    Budgets, conclusions and termination, for any store of traces, any tools and
    any language model. *)

From S2P Require Import Prelude GoStrings Json EngineTypes Store TaskForms GoText Effects JsonText.
From S2P Require Import Agentic AgenticRunner AgenticProps.

Section Claims.
Context `{R : Runtime} {T : Type} `{TS : !TraceStore T}.
Context (FormatFloat : Qc -> string) (compile_schema : string -> result goerr (json -> result goerr unit)).
Context (Chat : nat -> uuid -> ChatRequest -> result goerr ChatResponse).
Notation run := (Run FormatFloat compile_schema Chat).

(** A value of the output schema of a step. *)
Definition fits_schema (schema : string) (v : json) : Prop :=
  TrimSpace schema = "" \/ TrimSpace schema = "null" \/
  exists validate, compile_schema schema = Ok validate /\ validate v = Ok tt.

Lemma parseConclusion_sound text schema raw conf : parseConclusion compile_schema text schema = Ok (raw, conf) ->
  exists v, json_parse raw = Some v /\ fits_schema schema v /\
    ((v = JNull /\ conf = None) \/
     exists m, v = JObj m /\ conf = match obj_get "confidence" m with Some (JNum q) => Some q | _ => None end).
Proof.
  unfold parseConclusion. intros H. destruct (conclusion_text text) as [raw'|] eqn:Et; [|done]. simpl in H.
  destruct (json_parse raw') as [v|] eqn:Ep; [|done].
  destruct (validateJSONAgainstSchema _ _ _) as [[]|] eqn:Ev; [|done]. simpl in H.
  destruct (dec_object v) as [body|] eqn:Ed; [|done]. simpl in H. injection H as -> <-. exists v. split; [done|]. split.
  - unfold validateJSONAgainstSchema in Ev. case_decide as Hd; [unfold fits_schema; tauto|].
    destruct (compile_schema schema) as [validate|] eqn:Ec; [|done]. simpl in Ev.
    destruct (validate v) as [[]|] eqn:Hv; [|done]. right; right. by exists validate.
  - unfold dec_object in Ed. destruct v; try done; simplify_eq; [by left|]. right. by eexists.
Qed.

Lemma Run_limits (count : T -> Z) `{HS : !StoreKeeps (fun t t' => count t' = count t)} fuel config w r w' :
  in_int64 (rlMaxToolCalls (ApplyDefaults (rcLimits config))) ->
  (forall tool d args w, tool ∈ rcToolManifest config ->
    (count (st (rtInvoker tool d args w).2) <= count (st w) + 1)%Z) ->
  run fuel config w = (r, w') ->
  (count (st w') <= count (st w) + rlMaxToolCalls (ApplyDefaults (rcLimits config)))%Z /\
  forall result, r = Ok (Some result) -> exists trace, result_ok compile_schema config trace result.
Proof.
  intros Hi Ht H. apply Run_inv in H. cbn zeta in H.
  destruct (ApplyDefaults_pos (rcLimits config)) as (_ & Hpos & _).
  destruct H as [(e & H & ->)|(w1 & ev & Hc & H)].
  - pose proof (keeps_create (fun t t' => count t' = count t) (new_trace config (gen_random_uuid (S (S (ticks w))))
      (wall_clock (ticks w))) (mkSys (st w) (S (S (S (ticks w)))))) as Hk.
    cbn beta in Hk. rewrite H in Hk. cbn [snd st] in Hk. split; [lia|done].
  - pose proof (keeps_create (fun t t' => count t' = count t) (new_trace config (gen_random_uuid (S (S (ticks w))))
      (wall_clock (ticks w))) (mkSys (st w) (S (S (S (ticks w)))))) as Hk.
    cbn beta in Hk. rewrite Hc in Hk. cbn [snd st] in Hk.
    pose proof (keeps_append (fun t t' => count t' = count t) ev w1) as Ha. cbn beta in Ha.
    pose proof (run_loop_ok FormatFloat compile_schema Chat config (new_trace config (gen_random_uuid (S (S (ticks w))))
      (wall_clock (ticks w))) (wall_clock (ticks w)) Hi count Ht fuel (first_loop config (wall_clock (S (ticks w))))
      (AppendEvent ev w1).2 (first_loop_counted config _)) as Hl.
    cbn zeta in Hl. rewrite H in Hl. cbn [fst snd first_loop lpToolCalls] in Hl. destruct Hl as [H1 H2].
    split; [lia|]. intros result ->. eexists. by apply H2.
Qed.

(** C25. Whatever the model answers, a run makes at most [MaxToolCalls] tool calls:
    anything each call changes by at most one has changed by at most that much when
    the run ends, also when it fails. The run reports how many calls it made, within
    the same limit, and ends as concluded, timed out or failed. When it has
    concluded, its conclusion is JSON of the output schema, an object or null, and
    the confidence is the number the object gives. *)
Theorem Run_respects_limits (count : T -> Z) `{HS : !StoreKeeps (fun t t' => count t' = count t)} fuel config w r w'
    (Hint64 : in_int64 (rlMaxToolCalls (ApplyDefaults (rcLimits config))))
    (Htools : forall tool d args w, tool ∈ rcToolManifest config ->
       (count (st (rtInvoker tool d args w).2) <= count (st w) + 1)%Z)
    (Hrun : run fuel config w = (r, w')) :
  (count (st w') <= count (st w) + rlMaxToolCalls (ApplyDefaults (rcLimits config)))%Z /\
  forall result, r = Ok (Some result) ->
    rrStatus result ∈ ["concluded"; "timeout"; "error"] /\
    (0 <= rrTotalToolCalls result <= rlMaxToolCalls (ApplyDefaults (rcLimits config)))%Z /\
    (rrStatus result = "concluded" ->
     exists v, json_parse (rrConclusion result) = Some v /\ fits_schema (rcOutputSchema config) v /\
       ((v = JNull /\ rrConfidence result = None) \/
        exists m, v = JObj m /\
          rrConfidence result = match obj_get "confidence" m with Some (JNum q) => Some q | _ => None end)).
Proof.
  destruct (Run_limits count fuel config w r w' Hint64 Htools Hrun) as [H1 H2]. split; [done|].
  intros result Hr. destruct (H2 result Hr) as (trace & [Hs Hc _ Hcon]). split_and!; try done; try lia.
  intros Hst. destruct (Hcon Hst) as (text & Hp). by apply parseConclusion_sound in Hp.
Qed.

(** C26. A run ends: when every answer of the model reports that it has used tokens,
    the loop is left within as many rounds as the token budget has tokens, by a
    conclusion, a timeout or an error; the number of iterations that is configured
    plays no part in it. *)
Theorem Run_terminates fuel config w
    (Htokens : forall k req resp, Chat k (rcTenantID config) req = Ok resp -> (1 <= rsTotalTokens resp <= 2 ^ 62)%Z)
    (Hbudget : (rlMaxTokens (ApplyDefaults (rcLimits config)) <= 2 ^ 62)%Z)
    (Hint64 : in_int64 (rlMaxToolCalls (ApplyDefaults (rcLimits config))))
    (Hfuel : (rlMaxTokens (ApplyDefaults (rcLimits config)) <= Z.of_nat fuel)%Z) :
  (run fuel config w).1 <> Ok None.
Proof.
  destruct (run fuel config w) as [r w'] eqn:E. apply Run_inv in E. cbn zeta in E. cbn [fst].
  destruct E as [(e & _ & ->)|(w1 & ev & _ & H)]; [done|].
  replace r with (run_loop FormatFloat compile_schema Chat config
    (new_trace config (gen_random_uuid (S (S (ticks w)))) (wall_clock (ticks w))) (wall_clock (ticks w)) fuel
    (first_loop config (wall_clock (S (ticks w)))) (AppendEvent ev w1).2).1 by (by rewrite H).
  assert (StoreKeeps (T := T) (fun t t' => (fun _ => 0%Z) t' = (fun _ : T => 0%Z) t)) as Hk by (split; done).
  apply (run_loop_ends FormatFloat compile_schema Chat config _ _ Hint64 (fun _ => 0%Z)); try done.
  - apply first_loop_counted.
  - cbn [first_loop lpTokens]. destruct (ApplyDefaults_pos (rcLimits config)) as (_ & _ & H3 & _). lia.
  - cbn [first_loop lpTokens]. lia.
Qed.
End Claims.

(** A model that wraps its conclusion in prose is understood: in a text without
    a brace before it, an object that is written as [json.Marshal] writes it is
    found and read back, whatever follows it and whatever braces, quotes and
    escapes its strings hold. The texts of numbers denote the numbers and have no
    quotes or braces. *)
Theorem extractJSONBlock_finds (FormatFloat : Qc -> string) prose m rest
    (Hprose : char_in "{"%char prose = false)
    (Hnumbers : forall q, all_chars plain_out (FormatFloat q) = true)
    (Hwritable : writable FormatFloat (JObj m)) :
  extractJSONBlock (prose +:+ Marshal FormatFloat (JObj m) +:+ rest) = Some (Marshal FormatFloat (JObj m)) /\
  json_parse (Marshal FormatFloat (JObj m)) = Some (JObj m).
Proof.
  pose proof (parse_Marshal_lemma FormatFloat (JObj m) Hwritable) as Hp. split; [|exact Hp].
  set (x := Join "," (map (fun kv => quoted kv.1 +:+ ":" +:+ Marshal FormatFloat kv.2) m)).
  assert (Marshal FormatFloat (JObj m) = String "{"%char (x +:+ String "}"%char EmptyString)) as E by done.
  pose proof (block_object FormatFloat Hnumbers m rest) as Hb. rewrite E in Hb, Hp |- *. unfold extractJSONBlock.
  change (String "{"%char (x +:+ String "}"%char EmptyString) +:+ rest) with
    (String "{"%char ((x +:+ String "}"%char EmptyString) +:+ rest)) in Hb |- *.
  rewrite IndexByte_app by done. cbn [mbind option_bind]. rewrite drop_str_append, Hb. cbn [fmap option_fmap option_map].
  rewrite TrimSpace_ends by done. cbn [mbind option_bind]. unfold Valid. by rewrite Hp.
Qed.

(** ** Examples *)

Module AgentExample.

(** A store that keeps the events and counts the calls of the tools. *)
Definition Notes : Type := list string * Z.

#[local] Instance notes_store : TraceStore Notes := {
  CreateTrace _ := mret tt;
  UpdateTrace t := changes (fun n => (n.1 ++ [trStatus t], n.2));
  GetTrace _ := fail ErrNoRows;
  GetTraceByCase _ _ := fail ErrNoRows;
  AppendEvent e := changes (fun n => (n.1 ++ [reEventType e], n.2));
  GetEvents _ := mret []
}.

Definition lookup_tool : ResolvedTool Notes :=
  mkResolvedTool "n1" "lookup" "find a record" "" "connector" "read_only"
    (fun _ _ => _ ← changes (fun n : Notes => (n.1, n.2 + 1)%Z); mret "{}").

Definition no_numbers (q : Qc) : string := "0".
Definition any_schema (s : string) : result goerr (json -> result goerr unit) := Ok (fun _ => Ok tt).

(** Three calls of the tool at once, then a conclusion in prose. *)
Definition calls : list ToolCall := [mkToolCall "1" "lookup" "{}"; mkToolCall "2" "lookup" "{}"; mkToolCall "3" "lookup" "{}"].
Definition verdict : object := [("decision", JStr "approve"); ("note", JStr "a } in a string")].
Definition eager (k : nat) (tenant : uuid) (req : ChatRequest) : result goerr ChatResponse :=
  if (length (crMessages req) <? 3)%nat then Ok (mkChatResponse "" 0 0 10 "" "tool_calls" calls)
  else Ok (mkChatResponse ("My verdict is " +:+ Marshal no_numbers (JObj verdict) +:+ "} indeed") 0 0 10 "" "stop" []).

Definition config (max_calls max_tokens : Z) : RunConfig Notes :=
  mkRunConfig 1%N 2%N "assess" 3%N "decide" "{}" [lookup_tool] (mkReasoningLimits 1 max_calls max_tokens Hour) "{}" "default" None.

#[local] Existing Instance example_runtime.
Definition start : Sys Notes := mkSys ([], 0%Z) 0.

#[local] Instance count_kept : StoreKeeps (fun t t' : Notes => t'.2 = t.2).
Proof. split; by intros ? ?. Qed.

(** A model that never concludes, and uses one token per answer. *)
Definition stubborn (k : nat) (tenant : uuid) (req : ChatRequest) : result goerr ChatResponse :=
  Ok (mkChatResponse "" 0 0 1 "" "tool_calls" calls).

(** The limit on iterations is not enforced, only told to the model: a run with
    [MaxIterations] 1 goes on for thirty iterations, until the budget of thirty
    tokens stops it. *)
Theorem max_iterations_not_enforced :
  rlMaxIterations (ApplyDefaults (rcLimits (config 2 30))) = 1%Z /\
  exists result w', Run no_numbers any_schema stubborn 30 (config 2 30) start = (Ok (Some result), w') /\
    rrTotalIterations result = 30%Z /\ rrStatus result = "timeout".
Proof. split; [reflexivity|]. eexists _, _. split; [vm_compute; reflexivity|]. split; reflexivity. Qed.

Lemma Run_respects_limits_witness :
  exists result w', Run no_numbers any_schema eager 5 (config 2 1000) start = (Ok (Some result), w') /\
    ((st w').2 <= 2)%Z /\ rrStatus result = "concluded" /\ rrTotalToolCalls result = 2%Z.
Proof.
  assert (exists result w', Run no_numbers any_schema eager 5 (config 2 1000) start = (Ok (Some result), w'))
    as (result & w' & E) by (eexists _, _; vm_compute; reflexivity).
  exists result, w'. split; [exact E|].
  assert (forall tool d args w, tool ∈ rcToolManifest (config 2 1000) ->
    ((st (rtInvoker tool d args w).2).2 <= (st w).2 + 1)%Z) as Ht.
  { intros tool d args w Ht. apply list_elem_of_singleton in Ht as ->. apply Z.le_refl. }
  destruct (Run_respects_limits no_numbers any_schema eager snd 5 (config 2 1000) start _ w'
    ltac:(vm_compute; split; discriminate) Ht E) as [H _].
  split; [exact H|]. apply (f_equal fst) in E. revert E. vm_compute. intros [= <-]. done.
Defined.

Lemma Run_terminates_witness : exists r, (Run no_numbers any_schema eager 25 (config 2 25) start).1 = Ok (Some r).
Proof.
  pose proof (Run_terminates no_numbers any_schema eager 25 (config 2 25) start) as H.
  destruct (Run no_numbers any_schema eager 25 (config 2 25) start) as [[[r|]|e] w'] eqn:E.
  - by exists r.
  - exfalso. apply H; [|vm_compute; discriminate|vm_compute; split; discriminate|vm_compute; discriminate|done].
    intros k req resp. unfold eager. destruct (_ <? _)%nat; intros [= <-]; simpl; lia.
  - exfalso. apply (f_equal fst) in E. revert E. vm_compute. discriminate.
Defined.

Lemma extractJSONBlock_finds_witness :
  extractJSONBlock ("My verdict is " +:+ Marshal no_numbers (JObj verdict) +:+ "} indeed") =
  Some (Marshal no_numbers (JObj verdict)).
Proof.
  apply extractJSONBlock_finds; [reflexivity|reflexivity|].
  split; [repeat constructor|]. by vm_compute.
Defined.
End AgentExample.
