(* ===== verification/AgenticStepClaims.v ===== *)
(** * What an agentic step may do to a case

    The tools a policy admits, the effects of a step that may only read, and what
    becomes of the traces in the database. *)

From S2P Require Import Prelude GoStrings Json EngineTypes Store TaskForms TaskOps GoText Effects.
From S2P Require Import AuditTrail McpClient McpManager JsonText Agentic AgenticRunner AgenticProps.
From S2P Require Import AgenticStep.

(** ** Modes and manifests *)

Lemma Normalize_idem m : Normalize (Normalize m) = Normalize m.
Proof.
  unfold Normalize at 2 3. cbn zeta. destruct (_ || _ || _) eqn:E; [unfold Normalize; by rewrite E|reflexivity].
Qed.

(** Every mode but the two that may write admits tools that read only. *)
Lemma allowed_reads mode safety : mode <> ToolModeRestrictedWrite -> mode <> ToolModeFull ->
  allowedByMode mode safety = true -> safety = "read_only" \/ safety = "".
Proof.
  intros H1 H2. unfold allowedByMode. rewrite (decide_False (P := mode = ToolModeRestrictedWrite)) by done.
  rewrite (decide_False (P := mode = ToolModeFull)) by done.
  destruct (decide (mode = ToolModeReadOnly)); intros [H|H]%orb_true_iff; apply bool_decide_eq_true_1 in H; tauto.
Qed.

Section Assembly.
Context {T : Type} (fac : factory T) (mode : string) (refs : list string).

Definition admitted (t : ResolvedTool T) : Prop :=
  allowedByMode mode (rtToolSafety t) = true /\
  exists node w w', TrimSpace (tnID node) ∈ refs /\ rtID t = tnID node /\
    fac node (sanitizeToolName node) w = (Ok (rtInvoker t, rtToolSafety t, rtParameters t), w').

Lemma resolve_node_admitted tools node w tools' w' :
  Forall admitted tools -> resolve_node mode refs fac tools node w = (Ok tools', w') -> Forall admitted tools'.
Proof.
  intros Ht. unfold resolve_node. case_decide as Hin; [|by intros [= <- _]]. intros H.
  apply bindS_inv in H as ([[inv safety] params] & w1 & H1 & H). apply wrapS_inv in H1.
  destruct (allowedByMode mode safety) eqn:Ha; injection H as <- _; [|done].
  apply Forall_app. split; [done|]. apply Forall_singleton. split; [done|]. by exists node, w, w1.
Qed.

Lemma resolve_nodes_admitted nodes tools w tools' w' :
  Forall admitted tools -> foldS (resolve_node mode refs fac) nodes tools w = (Ok tools', w') -> Forall admitted tools'.
Proof.
  revert tools w. induction nodes as [|node nodes IH]; intros tools w Ht H; [by injection H as <- _|].
  cbn [foldS] in H. apply bindS_inv in H as (tools1 & w1 & H1 & H2).
  eapply IH; [|exact H2]. by eapply resolve_node_admitted.
Qed.
End Assembly.

Lemma Assemble_admitted {T} policy nodes (fac : factory T) w m w' :
  Assemble policy nodes fac w = (Ok m, w') ->
  Forall (admitted fac (Normalize (tpToolMode policy)) (allowedRefs policy)) m.
Proof.
  unfold Assemble. case_decide; [intros [= <- _]; by constructor|]. by apply resolve_nodes_admitted.
Qed.

(** ** Steps that may only read *)

Section Reads.
Context `{R : Runtime} `{TS : !TraceStore AgenticDB}.
Context (FormatFloat : Qc -> string) (services : Services) (uuid_parse : string -> option uuid).
Context (compile_schema : string -> result goerr (json -> result goerr unit)).
Context (Chat : nat -> uuid -> ChatRequest -> result goerr ChatResponse).

(** The cases are left as they are. *)
Definition same_cases (a a' : AgenticDB) : Prop := cases (agTables a') = cases (agTables a).
#[export] Instance same_cases_preorder : PreOrder same_cases.
Proof. split; [done|]. intros x y z H1 H2. unfold same_cases in *. congruence. Qed.

(** What the services the executor is wired with do not do. *)
Record ServicesRead : Prop := {
  read_plugins get ex id data timeout : svPlugins services = Some (get, ex) -> keepsS same_cases (ex id data timeout);
  read_discover d i tenant url auth : svMCP services = Some (d, i) -> keepsS same_cases (d tenant url auth);
  read_invoke d i req : svMCP services = Some (d, i) -> keepsS same_cases (i req);
  read_search f tenant kb q k : svSearch services = Some f -> keepsS same_cases (f tenant kb q k);
  read_tasks f caseID stepID cfg : svTasks services = Some f -> keepsS same_cases (f caseID stepID cfg);
  read_events id : keepsS same_cases (GetEvents id)
}.
Context `{HS : !StoreKeeps same_cases} (HR : ServicesRead).

Lemma CaseDataInvoke_reads tenantID caseID args : keepsS same_cases (CaseDataInvoke FormatFloat tenantID caseID true args).
Proof.
  unfold CaseDataInvoke, GetCaseData. apply keepsS_bind; [exact _|apply keepsS_wrap, keepsS_pure; exact _|].
  intros [path value]. apply keepsS_bind; [exact _|apply keepsS_guard; exact _|]. intros _.
  case_decide; [keeps_steps|]. intros w. reflexivity.
Qed.

Lemma ConnectorInvoke_reads id config timeout args :
  keepsS same_cases (ConnectorInvoke services id config timeout args).
Proof.
  unfold ConnectorInvoke. destruct (svPlugins services) as [[get ex]|] eqn:E; [|apply keepsS_fail; exact _].
  apply keepsS_bind; [exact _|apply keepsS_wrap, keepsS_pure; exact _|]. intros payload.
  apply keepsS_bind; [exact _|by eapply (read_plugins HR)|]. intros result. keeps_steps.
Qed.

Lemma MCPInvoke_reads tenantID url tool deadline args :
  keepsS same_cases (MCPInvoke FormatFloat services tenantID url tool deadline args).
Proof.
  unfold MCPInvoke. destruct (svMCP services) as [[d i]|] eqn:E; [|apply keepsS_fail; exact _].
  apply keepsS_bind; [exact _|destruct deadline; keeps_steps|]. intros ms.
  apply keepsS_bind; [exact _|by eapply (read_invoke HR)|]. intros result. keeps_steps.
Qed.

Lemma RAGInvoke_reads tenantID kb args : keepsS same_cases (RAGInvoke FormatFloat services tenantID kb args).
Proof.
  unfold RAGInvoke. destruct (svSearch services) as [f|] eqn:E; [|apply keepsS_fail; exact _].
  apply keepsS_bind; [exact _|apply keepsS_wrap, keepsS_pure; exact _|]. intros [q k].
  apply keepsS_bind; [exact _|by eapply (read_search HR)|]. intros result. keeps_steps.
Qed.

Lemma factory_reads tenantID caseID cfg node name :
  keepsS same_cases (invoker_factory FormatFloat services uuid_parse tenantID caseID cfg node name).
Proof.
  unfold invoker_factory. repeat case_decide; try keeps_steps.
  unfold mcp_params. destruct (svMCP services) as [[d i]|] eqn:E; [|keeps_steps].
  case_decide; [keeps_steps|]. apply keepsS_bind; [exact _|apply keepsS_try; by eapply (read_discover HR)|].
  intros r. keeps_steps.
Qed.

Lemma buildManifest_keeps tenantID caseID cfg :
  keepsS same_cases (buildManifest FormatFloat services uuid_parse tenantID caseID cfg).
Proof.
  unfold buildManifest, Assemble. case_decide; [keeps_steps|]. apply keepsS_fold; [exact _|]. intros tools node _.
  unfold resolve_node. case_decide; [|keeps_steps]. 
  apply keepsS_bind; [exact _|apply keepsS_wrap, factory_reads|]. intros [[inv safety] params]. keeps_steps.
Qed.

(** The tools of a step that may only read leave the cases alone. *)
Lemma manifest_reads tenantID caseID cfg w m w' tool d args :
  tpToolMode (asToolPolicy cfg) <> ToolModeRestrictedWrite -> tpToolMode (asToolPolicy cfg) <> ToolModeFull ->
  tpToolMode (asToolPolicy cfg) = Normalize (tpToolMode (asToolPolicy cfg)) ->
  buildManifest FormatFloat services uuid_parse tenantID caseID cfg w = (Ok m, w') -> tool ∈ m ->
  (rtToolSafety tool = "read_only" \/ rtToolSafety tool = "") /\ keepsS same_cases (rtInvoker tool d args).
Proof.
  intros H1 H2 Hn Hb Hin. apply Assemble_admitted in Hb. rewrite Forall_forall in Hb.
  destruct (Hb tool Hin) as (Hall & node & w1 & w2 & _ & _ & Hf). rewrite <- Hn in Hall.
  pose proof (allowed_reads _ _ H1 H2 Hall) as Hs. split; [done|].
  unfold invoker_factory in Hf. rewrite <- Hn in Hf.
  case_decide; [injection Hf as <- _ _ _; apply ConnectorInvoke_reads|].
  case_decide; [apply bindS_inv in Hf as (p & w3 & _ & Hf); injection Hf as <- _ _ _; apply MCPInvoke_reads|].
  case_decide; [destruct (uuid_parse _); [|done]; injection Hf as <- _ _ _; apply RAGInvoke_reads|].
  case_decide; [|done]. injection Hf as <- Hsafe _ _.
  destruct (bool_decide _); [apply CaseDataInvoke_reads|].
  rewrite <- Hsafe in Hs. by destruct Hs.
Qed.

Lemma step_result_reads info caseID stepID cfg result :
  keepsS same_cases (step_result FormatFloat services info caseID stepID cfg result).
Proof.
  unfold step_result. apply keepsS_bind; [exact _|apply keepsS_guard; exact _|]. intros _.
  destruct (needs_review cfg result); [|keeps_steps].
  apply keepsS_bind; [exact _| |intros _; apply keepsS_fail; exact _]. unfold escalate.
  apply keepsS_bind; [exact _|destruct (aeIncludeTrace _); [|keeps_steps]|].
  { apply keepsS_bind; [exact _|apply keepsS_try, (read_events HR)|]. intros ?. keeps_steps. }
  intros events. apply keepsS_bind; [exact _| |intros _].
  { unfold createEscalationTask. destruct (svTasks services) as [f|] eqn:E; [|keeps_steps]. by eapply (read_tasks HR). }
  apply keepsS_bind; [exact _|apply keepsS_now; exact _|]. intros now.
  apply keepsS_bind; [exact _|apply keepsS_ignore; apply (keeps_append same_cases)|]. intros _. apply keepsS_ignore. apply (keeps_update same_cases).
Qed.

Lemma Execute_reads fuel caseID stepID raw cfg :
  dec_agentic_config FormatFloat (default (JObj []) raw) = Ok cfg ->
  tpToolMode (asToolPolicy cfg) <> ToolModeRestrictedWrite -> tpToolMode (asToolPolicy cfg) <> ToolModeFull ->
  keepsS same_cases (Execute FormatFloat services uuid_parse compile_schema Chat fuel caseID stepID raw).
Proof.
  intros Hd H1 H2. unfold Execute. apply keepsS_bind; [exact _| |intros [[info c] [result|]]; [|keeps_steps]].
  2:{ apply keepsS_fmap, step_result_reads. }
  unfold start_run. replace (match raw with Some r => _ | None => _ end) with (Ok cfg : result goerr AgenticStepConfig)
    by (rewrite <- Hd; by destruct raw).
  change ((wrapS ?f (pureS (Ok cfg)) ≫= ?k)) with (k cfg). cbn beta.
  set (c := Config_ApplyDefaults cfg).
  assert (tpToolMode (asToolPolicy c) = Normalize (tpToolMode (asToolPolicy cfg))) as Em by done.
  assert (tpToolMode (asToolPolicy c) <> ToolModeRestrictedWrite /\ tpToolMode (asToolPolicy c) <> ToolModeFull) as [H1' H2'].
  { rewrite Em. unfold Normalize. destruct (_ || _ || _); [done|]. split; vm_compute; discriminate. }
  apply keepsS_bind; [exact _|apply keepsS_pure; exact _|]. intros _.
  apply keepsS_bind; [exact _|unfold loadCaseInfo; keeps_steps|]. intros info.
  apply keepsS_bind_post; [exact _|apply buildManifest_keeps|]. intros w m w' Hm.
  apply keepsS_bind; [exact _|apply keepsS_now; exact _|]. intros now.
  apply keepsS_bind; [exact _| |intros result; keeps_steps].
  apply Run_keeps; [exact _|exact _|]. intros tool d args Hin.
  eapply manifest_reads; [exact H1'|exact H2'|by rewrite Em, Normalize_idem|exact Hm|exact Hin].
Qed.
End Reads.

(** An agentic step whose tool mode is neither [restricted_write] nor [full]
    (a mode that is unknown, or written with spaces, included) leaves every case
    as it is, whatever the model asks for: the tools it is offered are those its
    policy names, each of them declared to read only, and the tool for case data
    refuses to write. The services behind the other tools are taken not to write
    cases themselves. *)
Theorem agentic_step_reads_only `{R : Runtime} `{TS : !TraceStore AgenticDB} (FormatFloat : Qc -> string)
    (services : Services) (uuid_parse : string -> option uuid)
    (compile_schema : string -> result goerr (json -> result goerr unit))
    (Chat : nat -> uuid -> ChatRequest -> result goerr ChatResponse) fuel caseID stepID raw cfg
    (Hstore : StoreKeeps same_cases) (Hservices : ServicesRead services)
    (Hconfig : dec_agentic_config FormatFloat (default (JObj []) raw) = Ok cfg)
    (Hmode : tpToolMode (asToolPolicy cfg) <> ToolModeRestrictedWrite /\ tpToolMode (asToolPolicy cfg) <> ToolModeFull) :
  (forall w, cases (agTables (st (Execute FormatFloat services uuid_parse compile_schema Chat fuel caseID stepID raw w).2)) =
             cases (agTables (st w))) /\
  forall tenantID w m w' tool,
    buildManifest FormatFloat services uuid_parse tenantID caseID (Config_ApplyDefaults cfg) w = (Ok m, w') -> tool ∈ m ->
    TrimSpace (rtID tool) ∈ map TrimSpace (tpTools (asToolPolicy cfg)) /\
    (rtToolSafety tool = "read_only" \/ rtToolSafety tool = "").
Proof.
  destruct Hmode as [H1 H2]. split.
  - intros w. exact (Execute_reads FormatFloat services uuid_parse compile_schema Chat Hservices fuel caseID stepID raw cfg
      Hconfig H1 H2 w).
  - intros tenantID w m w' tool Hm Hin. apply Assemble_admitted in Hm. rewrite Forall_forall in Hm.
    destruct (Hm tool Hin) as (Hall & node & w1 & w2 & Href & Hid & _). rewrite Hid.
    apply list_elem_of_filter in Href as [_ Href]. split; [exact Href|].
    change (tpToolMode (asToolPolicy (Config_ApplyDefaults cfg))) with (Normalize (tpToolMode (asToolPolicy cfg))) in Hall.
    rewrite Normalize_idem in Hall. apply allowed_reads in Hall; [done|..];
      unfold Normalize; destruct (_ || _ || _); done.
Qed.

(** ** Traces in the database *)

Lemma create_trace_fails `{R : Runtime} t w : trConclusion t = "" ->
  exists e, pg_CreateTrace t w = (Err e, mkSys (st w) (S (S (ticks w)))).
Proof.
  intros Ht. unfold pg_CreateTrace. rewrite nowS_bind. unfold wrapS, exec_json, exec. cbn [ticks st trace_created trConclusion].
  rewrite Ht. destruct (fault _); by eexists.
Qed.

Lemma Run_pg_fails `{R : Runtime} FormatFloat compile_schema Chat fuel config w :
  exists e w', Run (TS := PostgresTraceStore) FormatFloat compile_schema Chat fuel config w = (Err e, w') /\ st w' = st w.
Proof.
  destruct (Run (TS := PostgresTraceStore) FormatFloat compile_schema Chat fuel config w) as [r w'] eqn:E.
  apply Run_inv in E. cbn zeta in E.
  destruct (create_trace_fails (new_trace config (gen_random_uuid (S (S (ticks w)))) (wall_clock (ticks w)))
    (mkSys (st w) (S (S (S (ticks w))))) eq_refl) as [e He].
  destruct E as [(e' & E & ->)|(w1 & ev & E & _)]; cbn [CreateTrace PostgresTraceStore] in E; rewrite He in E; [|done].
  injection E as <- <-. by eexists _, _.
Qed.

(** With the traces kept in the database no agentic run ever starts: a new trace
    has no conclusion yet, its empty text is cast to [jsonb], and the statement
    fails. A run returns this error and leaves the tables as they were, and an
    agentic step never has a result. *)
Theorem agentic_traces_not_recorded `{R : Runtime} (FormatFloat : Qc -> string)
    (services : Services) (uuid_parse : string -> option uuid)
    (compile_schema : string -> result goerr (json -> result goerr unit))
    (Chat : nat -> uuid -> ChatRequest -> result goerr ChatResponse) fuel :
  (forall config w, exists e w',
     Run (TS := PostgresTraceStore) FormatFloat compile_schema Chat fuel config w = (Err e, w') /\ st w' = st w) /\
  forall caseID stepID raw w, exists e,
    (Execute (TS := PostgresTraceStore) FormatFloat services uuid_parse compile_schema Chat fuel caseID stepID raw w).1 = Err e.
Proof.
  split; [intros; apply Run_pg_fails|]. intros caseID stepID raw w.
  destruct (Execute _ _ _ _ _ _ _ _ _ _) as [[x|e] w'] eqn:E; [|by exists e]. exfalso. unfold Execute in E.
  apply bindS_inv in E as ([[info cfg] result] & w1 & H & _). unfold start_run in H.
  do 5 (apply bindS_inv in H as (? & ? & _ & H)). apply bindS_inv in H as (r & w2 & Hr & _).
  match type of Hr with Run _ _ _ _ ?config ?w = _ =>
    destruct (Run_pg_fails FormatFloat compile_schema Chat fuel config w) as (e & w3 & He & _) end.
  congruence.
Qed.

(** ** Writing case data *)

Definition no_dot (k : string) : bool := negb (char_in "."%char k).

Lemma Split_two k1 k2 : no_dot k1 = true -> no_dot k2 = true -> Split "." (k1 +:+ "." +:+ k2) = [k1; k2].
Proof.
  unfold no_dot. intros H1%negb_true_iff H2%negb_true_iff.
  change (k1 +:+ "." +:+ k2) with (k1 +:+ String "."%char k2).
  rewrite Split_cons_sep by done. by rewrite Split_no_sep.
Qed.

Lemma obj_union_one m k v : obj_get k (obj_union m [(k, v)]) = Some v.
Proof. unfold obj_union. cbn [foldl fst snd]. apply obj_get_set. Qed.

(** The tool for case data does not merge: a value that is written at a path of
    two parts becomes the only entry of the object at its first part, and whatever
    that object held before is gone (the patch is built from nothing and joined to
    the case with the shallow operator [||]). *)
Theorem case_data_write_replaces `{R : Runtime} (FormatFloat : Qc -> string) tenantID caseID args k1 k2 value w out w' m c
    (Hargs : json_parse args = Some (JObj (mk_obj [("path", JStr (k1 +:+ "." +:+ k2)); ("value", value)])))
    (Hvalue : value <> JNull)
    (Hk1 : all_chars is_graph k1 = true /\ no_dot k1 = true /\ k1 <> "")
    (Hk2 : all_chars is_graph k2 = true /\ no_dot k2 = true /\ k2 <> "")
    (Hcase : cases (agTables (st w)) !! caseID = Some c) (Htenant : cTenant c = tenantID) (Hdata : cData c = JObj m)
    (Hcall : CaseDataInvoke FormatFloat tenantID caseID false args w = (Ok out, w')) :
  exists c' m', cases (agTables (st w')) !! caseID = Some c' /\ cData c' = JObj m' /\ cVersion c' = (cVersion c + 1)%Z /\
    obj_get k1 m' = Some (JObj [(k2, value)]) /\
    forall k, k <> k1 -> obj_get k m' = obj_get k m.
Proof.
  destruct Hk1 as (Hg1 & Hd1 & Hn1), Hk2 as (Hg2 & Hd2 & Hn2). unfold CaseDataInvoke in Hcall.
  apply bindS_inv in Hcall as ([path v] & w1 & Hp & Hcall). apply wrapS_inv in Hp.
  unfold unmarshal_text, pureS in Hp. rewrite Hargs in Hp.
  assert (dec_path_value (JObj (mk_obj [("path", JStr (k1 +:+ "." +:+ k2)); ("value", value)])) =
    Ok (k1 +:+ "." +:+ k2, value)) as Hd by reflexivity.
  rewrite Hd in Hp. injection Hp as <- <- <-.
  rewrite decide_False in Hcall by done.
  assert (TrimSpace (k1 +:+ "." +:+ k2) = k1 +:+ "." +:+ k2) as Et
    by (apply TrimSpace_graph; rewrite !all_chars_app, Hg1, Hg2; done).
  rewrite Et in Hcall.
  apply bindS_inv in Hcall as ([] & w2 & Hg & Hcall). unfold guardS in Hg.
  destruct (negb _); [|done]. injection Hg as <-.
  apply bindS_inv in Hcall as ([] & w2 & [= <-] & Hcall).
  apply bindS_inv in Hcall as ([] & w2 & Hm & Hcall). injection Hcall as _ <-.
  unfold MergeCaseData in Hm. apply wrapS_inv in Hm. unfold exec_update, exec in Hm.
  destruct (fault (ticks w)); [done|]. unfold case_of in Hm. rewrite Hcase, decide_True in Hm by done.
  injection Hm as <-. cbn [st agTables set_tables set_cases cases].
  assert (setPath [] (k1 +:+ "." +:+ k2) value = [(k1, JObj [(k2, value)])]) as Es.
  { unfold setPath. rewrite Et, Split_two by done. cbn [set_parts].
    rewrite !TrimSpace_graph by done. rewrite !decide_False by done. reflexivity. }
  rewrite Es. eexists _, _. split; [apply lookup_insert_eq|]. cbn [merged cData cVersion]. rewrite Hdata.
  split; [reflexivity|]. split; [done|]. split; [apply obj_union_one|].
  intros k Hk. unfold obj_union. cbn [foldl fst snd]. by apply obj_get_set_ne.
Qed.

(** ** Examples *)

Module AgentStepExample.
#[local] Existing Instance example_runtime.

Definition no_numbers (q : Qc) : string := "0".
Definition no_services : Services := mkServices None None None None.
Definition the_case : CaseRow :=
  mkCaseRow 1%N 5%N "LA-000001" CaseOpen (JObj [("applicant", JObj [("income", JStr "high"); ("name", JStr "Ann")])]) 1 0
    None 0 7%N 1 0 9%N None.
Definition tables : DB := mkDB {[2%N := the_case]} ∅ [] ∅ ∅ [] ∅ ∅ ∅ ∅.
Definition w0 : Sys AgenticDB := mkSys (mkAgenticDB ∅ [] tables) 0.

(** A store that keeps nothing, so that runs start. *)
#[local] Instance silent_store : TraceStore AgenticDB := {
  CreateTrace _ := mret tt;
  UpdateTrace _ := mret tt;
  GetTrace _ := fail ErrNoRows;
  GetTraceByCase _ _ := fail ErrNoRows;
  AppendEvent _ := mret tt;
  GetEvents _ := mret []
}.

Definition node : json := JObj (mk_obj [("id", JStr "c"); ("source", JStr "case_data")]).
Definition step (mode : string) : json :=
  JObj (mk_obj [("goal", JStr "decide"); ("output_schema", JObj [("type", JStr "object")]);
    ("tool_policy", JObj (mk_obj [("tools", JArr [JObj [("ref", JStr "c")]]); ("tool_mode", JStr mode)]));
    ("tool_nodes", JArr [node])]).

Definition write : string := Marshal no_numbers (JObj (mk_obj [("path", JStr "applicant.score"); ("value", JStr "9")])).
Definition writer (k : nat) (tenant : uuid) (req : ChatRequest) : result goerr ChatResponse :=
  if (length (crMessages req) <? 2)%nat then Ok (mkChatResponse "" 0 0 1 "" "tool_calls" [mkToolCall "1" "c" write])
  else Ok (mkChatResponse "{}" 0 0 1 "" "stop" []).
Definition any_schema (s : string) : result goerr (json -> result goerr unit) := Ok (fun _ => Ok tt).
Definition execute (mode : string) :=
  @Execute example_runtime silent_store no_numbers no_services (fun _ => None) any_schema writer 5 2%N "assess" (Some (step mode)) w0.

#[local] Instance silent_keeps : StoreKeeps same_cases.
Proof. split; intros; apply keepsS_ret; exact _. Qed.

Lemma agentic_step_reads_only_witness :
  (exists r, (execute "read_only").1 = Ok (Some r)) /\
  cases (agTables (st (execute "read_only").2)) = cases tables /\
  cases (agTables (st (execute "full").2)) <> cases tables.
Proof.
  split; [eexists; vm_compute; reflexivity|]. split.
  - assert (exists cfg, dec_agentic_config no_numbers (default (JObj []) (Some (step "read_only"))) = Ok cfg /\
      tpToolMode (asToolPolicy cfg) = "read_only") as (cfg & Hc & Hm) by (eexists; split; vm_compute; reflexivity).
    refine (proj1 (@agentic_step_reads_only example_runtime silent_store no_numbers no_services (fun _ => None) any_schema
      writer 5 2%N "assess" (Some (step "read_only")) cfg _ _ Hc _) w0).
    + split; try discriminate. intros id. apply keepsS_ret. exact _.
    + rewrite Hm. split; discriminate.
  - intros H. apply (f_equal (fun m => cVersion <$> m !! 2%N)) in H. vm_compute in H. discriminate.
Defined.

Lemma case_data_write_replaces_witness :
  exists c' m', cases (agTables (st (@CaseDataInvoke example_runtime no_numbers 1%N 2%N false write w0).2)) !! 2%N = Some c' /\
    cData c' = JObj m' /\ obj_get "applicant" m' = Some (JObj [("score", JStr "9")]).
Proof.
  assert (exists out w1, @CaseDataInvoke example_runtime no_numbers 1%N 2%N false write w0 = (Ok out, w1)) as (out & w1 & E)
    by (eexists _, _; vm_compute; reflexivity).
  assert (json_parse write = Some (JObj (mk_obj [("path", JStr ("applicant" +:+ "." +:+ "score")); ("value", JStr "9")]))) as Hw
    by (vm_compute; reflexivity).
  rewrite E. cbn [snd].
  destruct (@case_data_write_replaces example_runtime no_numbers 1%N 2%N write "applicant" "score" (JStr "9") w0 out w1
    [("applicant", JObj [("income", JStr "high"); ("name", JStr "Ann")])] the_case Hw ltac:(discriminate)
    ltac:(split_and!; [reflexivity|reflexivity|discriminate]) ltac:(split_and!; [reflexivity|reflexivity|discriminate])
    eq_refl eq_refl eq_refl E) as (c' & m' & H1 & H2 & _ & H3 & _).
  exact (ex_intro _ c' (ex_intro _ m' (conj H1 (conj H2 H3)))).
Defined.
End AgentStepExample.
