(* ===== verification/GoPath.v ===== *)
(** * Paths of files: Go's [path/filepath] on Unix, and the dates the vault uses

    [Clean] works on the elements of a path: empty elements and dots are dropped,
    and two dots remove the element before them. [elements] is what is left, and
    the lemmas say that joining a clean relative path without leading dots to a
    root stays below the root. *)

From S2P Require Import Prelude GoStrings GoText.

Definition slash : ascii := "/"%char.
Definition IsAbs (p : string) : bool := HasPrefix p "/".

(** One element; the stack holds the elements before it, the last one first. *)
Definition clean_step (rooted : bool) (stack : list string) (part : string) : list string :=
  if decide (part = "" \/ part = ".") then stack
  else if decide (part = "..") then
    match stack with
    | [] => if rooted then [] else [part]
    | top :: rest => if decide (top = "..") then part :: stack else rest
    end
  else part :: stack.

Definition elements (p : string) : list string := rev (foldl (clean_step (IsAbs p)) [] (Split slash p)).

(** [filepath.Clean(p)] *)
Definition path_of (rooted : bool) (l : list string) : string :=
  if rooted then "/" +:+ Join "/" l else match l with [] => "." | _ => Join "/" l end.
Definition Clean (p : string) : string := path_of (IsAbs p) (elements p).

(** [filepath.Join(a, b)] *)
Definition JoinPath (a b : string) : string :=
  if decide (a = "") then if decide (b = "") then "" else Clean b else Clean (a +:+ "/" +:+ b).

(** Remove the elements two paths share. *)
Fixpoint strip_common (base targ : list string) : list string * list string :=
  match base, targ with
  | b :: base', t :: targ' => if decide (b = t) then strip_common base' targ' else (base, targ)
  | _, _ => (base, targ)
  end.

(** [filepath.Rel(base, targ)] *)
Definition rel_error (base targ : string) : goerr := Errorf "Rel: can't make %s relative to %s" [targ; base].
Definition Rel (basepath targpath : string) : result goerr string :=
  let base := Clean basepath in
  let targ := Clean targpath in
  if decide (targ = base) then Ok "."
  else if negb (Bool.eqb (IsAbs base) (IsAbs targ)) then Err (rel_error basepath targpath)
  else
    let '(b, t) := strip_common (elements base) (if decide (targ = ".") then ["."] else elements targ) in
    match b with
    | ".." :: _ => Err (rel_error basepath targpath)
    | _ => Ok (Join "/" (replicate (length b) ".." ++ t))
    end.

(** [filepath.Abs(p)] in a working directory *)
Definition Abs (cwd p : string) : string := if IsAbs p then Clean p else JoinPath cwd p.

(** [filepath.Base(p)] *)
Fixpoint drop_trailing_slashes (s : string) : string :=
  match s with
  | EmptyString => EmptyString
  | String a s' =>
      match drop_trailing_slashes s' with
      | EmptyString => if decide (a = slash) then EmptyString else String a EmptyString
      | t => String a t
      end
  end.
Definition Base (p : string) : string :=
  if decide (p = "") then "."
  else match drop_trailing_slashes p with
       | EmptyString => "/"
       | q => default "" (last (Split slash q))
       end.

(** [filepath.Ext(p)]: from the last dot of the last element. *)
Definition Ext (p : string) : string :=
  let name := default "" (last (Split slash p)) in
  match LastIndexByte "."%char name with
  | Some i => drop_str i name
  | None => ""
  end.

(** ** Calendar: the year and the month of a time in UTC *)

Section Calendar.
Local Open Scope Z_scope.

Definition day_of (t : Z) : Z := t / (86400 * Second).
(** Days since the epoch to year and month, in the proleptic Gregorian calendar:
    the era of 400 years, the year in it and the month counted from March. *)
Definition civil (days : Z) : Z * Z :=
  let z := days + 719468 in
  let era := z / 146097 in
  let doe := z - era * 146097 in
  let yoe := (doe - doe / 1460 + doe / 36524 - doe / 146096) / 365 in
  let doy := doe - (365 * yoe + yoe / 4 - yoe / 100) in
  let mp := (5 * doy + 2) / 153 in
  let m := if mp <? 10 then mp + 3 else mp - 9 in
  (yoe + era * 400 + (if m <=? 2 then 1 else 0), m).
Definition Year (t : Z) : Z := (civil (day_of t)).1.
Definition Month (t : Z) : Z := (civil (day_of t)).2.

(** [%0<width>d]: the sign counts. *)
Fixpoint zeros_str (n : nat) : string := match n with O => EmptyString | S n' => String "0"%char (zeros_str n') end.
Definition pad (width : nat) (z : Z) : string :=
  if z <? 0 then "-" +:+ zeros_str (width - 1 - String.length (Itoa (- z)))%nat +:+ Itoa (- z)
  else zeros_str (width - String.length (Itoa z))%nat +:+ Itoa z.

Example civil_days :
  map civil [0; 59; 60; 11016; 20541; -1; 19782] =
  [(1970, 1); (1970, 3); (1970, 3); (2000, 2); (2026, 3); (1969, 12); (2024, 2)].
Proof. vm_compute. reflexivity. Qed.

End Calendar.

Example clean_paths :
  map Clean [""; "/"; "a//b/./c/.."; "../../a/.."; "/../a"; "a/../.."; "./x/"] =
  ["."; "/"; "a/b"; "../.."; "/a"; ".."; "x"].
Proof. vm_compute. reflexivity. Qed.

Example rel_paths :
  (Rel "/a/b" "/a/c/d", Rel "." "x/y", Rel "a" "a", Rel "/" "/a", Rel "../x" "y", Rel "a" "/a") =
  (Ok "../c/d", Ok "x/y", Ok ".", Ok "a", Err (rel_error "../x" "y"), Err (rel_error "a" "/a")).
Proof. vm_compute. reflexivity. Qed.

(** ** Elements *)

(** An element that is a name: [Clean] keeps it. *)
Definition is_name (e : string) : bool :=
  negb (bool_decide (e = "")) && negb (bool_decide (e = ".")) && negb (bool_decide (e = "..")) &&
  negb (char_in slash e).

Definition names (l : list string) : Prop := Forall (fun e => is_name e = true) l.

Lemma is_name_spec e : is_name e = true <-> e <> "" /\ e <> "." /\ e <> ".." /\ char_in slash e = false.
Proof.
  unfold is_name. rewrite !andb_true_iff, !negb_true_iff, !bool_decide_eq_false. naive_solver.
Qed.

Lemma Split_pieces c s : Forall (fun e => char_in c e = false) (Split c s).
Proof.
  induction s as [|a s IH]; cbn [Split]; [by constructor|].
  destruct (decide (a = c)) as [->|Hn]; [by constructor|].
  destruct (Split c s) as [|x l]; [by repeat constructor; simpl; rewrite bool_decide_eq_false_2|].
  inversion IH; subst. constructor; [|done]. simpl. by rewrite bool_decide_eq_false_2.
Qed.

Lemma Split_Join_pieces c l :
  l <> [] -> Forall (fun e => char_in c e = false) l -> Split c (Join (String c "") l) = l.
Proof.
  intros Hne Hl. induction Hl as [|e l He Hl IH]; [done|].
  destruct l as [|e' l]; [by apply Split_no_sep|].
  change (Join (String c "") (e :: e' :: l)) with (e +:+ String c (Join (String c "") (e' :: l))).
  rewrite Split_cons_sep by done. by rewrite IH.
Qed.

(** The stack of a path: names on top of the dots that lead out of it. *)
Definition stack_ok (rooted : bool) (s : list string) : Prop :=
  exists n k, s = n ++ replicate k ".." /\ names n /\ (rooted = true -> k = 0%nat).

Lemma clean_step_ok rooted s part :
  char_in slash part = false -> stack_ok rooted s -> stack_ok rooted (clean_step rooted s part).
Proof.
  intros Hp (n & k & -> & Hn & Hk). unfold clean_step.
  destruct (decide (part = "" \/ part = ".")) as [|Hne]; [by exists n, k|].
  destruct (decide (part = "..")) as [->|Hd].
  - destruct n as [|top n]; simpl.
    + destruct k as [|k]; simpl.
      * destruct rooted; [by exists [], 0%nat|]. by exists [], 1%nat.
      * exists [], (S (S k)). split_and!; [done|by constructor|]. intros Hr. by apply Hk in Hr.
    + inversion Hn as [|? ? Ht Hn']; subst. apply is_name_spec in Ht as (_ & _ & Ht & _).
      rewrite decide_False by done. by exists n, k.
  - exists (part :: n), k. split_and!; [done| |done]. constructor; [|done].
    apply is_name_spec. tauto.
Qed.

Lemma clean_stack_ok rooted l s :
  Forall (fun e => char_in slash e = false) l -> stack_ok rooted s ->
  stack_ok rooted (foldl (clean_step rooted) s l).
Proof.
  intros Hl. revert s. induction Hl as [|e l He Hl IH]; intros s Hs; [done|].
  simpl. apply IH. by apply clean_step_ok.
Qed.

Lemma clean_names rooted l s : names l -> foldl (clean_step rooted) s l = rev l ++ s.
Proof.
  intros Hl. revert s. induction Hl as [|e l He Hl IH]; intros s; [done|].
  simpl. apply is_name_spec in He as (H1 & H2 & H3 & _).
  unfold clean_step at 2. rewrite decide_False by tauto. rewrite decide_False by done.
  rewrite IH. by rewrite <-app_assoc.
Qed.

Lemma rev_replicate {A} k (x : A) : rev (replicate k x) = replicate k x.
Proof.
  induction k as [|k IH]; [done|]. cbn [replicate rev]. rewrite IH.
  rewrite <-replicate_cons_app. done.
Qed.

(** The elements of a path: dots that lead out of it, then names. *)
Lemma elements_shape p :
  exists k n, elements p = replicate k ".." ++ n /\ names n /\ (IsAbs p = true -> k = 0%nat).
Proof.
  destruct (clean_stack_ok (IsAbs p) (Split slash p) []) as (n & k & Hs & Hn & Hk).
  - apply Split_pieces.
  - exists [], 0%nat. by split_and!; [|constructor|].
  - exists k, (rev n). unfold elements. rewrite Hs, rev_app_distr. split_and!; [|by apply Forall_rev|done].
    by rewrite rev_replicate.
Qed.

Definition rooted_shape (rooted : bool) (l : list string) : Prop :=
  exists k n, l = replicate k ".." ++ n /\ names n /\ (rooted = true -> k = 0%nat).

Lemma elements_rooted p : rooted_shape (IsAbs p) (elements p).
Proof. apply elements_shape. Qed.

Lemma shape_no_slash rooted l : rooted_shape rooted l -> Forall (fun e => char_in slash e = false) l.
Proof.
  intros (k & n & -> & Hn & _). apply Forall_app. split.
  - apply Forall_replicate. done.
  - eapply Forall_impl; [exact Hn|]. intros e He%is_name_spec. tauto.
Qed.

Lemma clean_dots k n : foldl (clean_step false) (replicate n "..") (replicate k "..") = replicate (k + n) "..".
Proof.
  revert n. induction k as [|k IH]; intros n; [done|].
  cbn [replicate foldl]. assert (clean_step false (replicate n "..") ".." = replicate (S n) "..") as ->
    by (destruct n; reflexivity).
  rewrite IH. f_equal. lia.
Qed.

Lemma clean_shape rooted l : rooted_shape rooted l -> rev (foldl (clean_step rooted) [] l) = l.
Proof.
  intros (k & n & -> & Hn & Hk). rewrite foldl_app, clean_names by done.
  assert (foldl (clean_step rooted) [] (replicate k "..") = replicate k "..") as ->.
  { destruct rooted; [by rewrite Hk|]. change [] with (replicate 0 ".."). rewrite clean_dots. f_equal. lia. }
  by rewrite rev_app_distr, List.rev_involutive, rev_replicate.
Qed.

Lemma IsAbs_char a s : IsAbs (String a s) = bool_decide (a = slash).
Proof.
  unfold IsAbs, HasPrefix. destruct (decide (a = slash)) as [->|Hn].
  - rewrite bool_decide_eq_true_2 by done. by destruct s.
  - rewrite bool_decide_eq_false_2 by done. cbn [String.prefix].
    destruct (Ascii.ascii_dec _ _) as [<-|]; [by destruct Hn|reflexivity].
Qed.

Lemma IsAbs_join e l : e <> "" -> char_in slash e = false -> IsAbs (Join "/" (e :: l)) = false.
Proof.
  intros He Hs. destruct e as [|a e]; [done|]. simpl in Hs. boolp.
  destruct l as [|e' l].
  - cbn [Join]. rewrite IsAbs_char. by apply bool_decide_eq_false_2.
  - change (Join "/" (String a e :: e' :: l)) with (String a (e +:+ "/" +:+ Join "/" (e' :: l))).
    rewrite IsAbs_char. by apply bool_decide_eq_false_2.
Qed.

Lemma shape_head rooted e l : rooted_shape rooted (e :: l) -> e <> "" /\ char_in slash e = false.
Proof.
  intros (k & n & Hl & Hn & _). destruct k as [|k]; simpl in Hl.
  - subst n. inversion Hn as [|? ? He]; subst. apply is_name_spec in He. tauto.
  - injection Hl as -> _. done.
Qed.

(** Writing the elements down and reading them again. *)
Lemma IsAbs_path_of rooted l : rooted_shape rooted l -> IsAbs (path_of rooted l) = rooted.
Proof.
  intros Hl. unfold path_of. destruct rooted; [change ("/" +:+ Join "/" l) with (String slash (Join "/" l)); by rewrite IsAbs_char|].
  destruct l as [|e l]; [done|]. apply shape_head in Hl as [? ?]. by apply IsAbs_join.
Qed.

Lemma elements_path_of rooted l : rooted_shape rooted l -> elements (path_of rooted l) = l.
Proof.
  intros Hl. pose proof (shape_no_slash _ _ Hl) as Hs.
  unfold elements. rewrite IsAbs_path_of by done. unfold path_of.
  destruct rooted.
  - destruct l as [|e l]; [done|].
    change ("/" +:+ Join "/" (e :: l)) with ("" +:+ String slash (Join "/" (e :: l))).
    rewrite Split_cons_sep by done. rewrite Split_Join_pieces by done.
    exact (clean_shape _ _ Hl).
  - destruct l as [|e l]; [done|].
    rewrite Split_Join_pieces by done. by apply clean_shape.
Qed.

Lemma IsAbs_Clean p : IsAbs (Clean p) = IsAbs p.
Proof. apply IsAbs_path_of, elements_rooted. Qed.
Lemma elements_Clean p : elements (Clean p) = elements p.
Proof. apply elements_path_of, elements_rooted. Qed.
Lemma Clean_idem p : Clean (Clean p) = Clean p.
Proof. unfold Clean at 1. by rewrite IsAbs_Clean, elements_Clean. Qed.

Lemma Split_app_sep c x y : Split c (x +:+ String c y) = Split c x ++ Split c y.
Proof.
  induction x as [|a x IH].
  - change (Split c ("" +:+ String c y)) with (Split c (String c y)). cbn [Split]. by rewrite decide_True.
  - change (String a x +:+ String c y) with (String a (x +:+ String c y)). cbn [Split]. rewrite IH.
    pose proof (Split_nonempty c x). destruct (decide (a = c)); [done|]. by destruct (Split c x).
Qed.

Lemma IsAbs_app p q : p <> "" -> IsAbs (p +:+ q) = IsAbs p.
Proof. destruct p as [|a p]; [done|]. intros _. change (String a p +:+ q) with (String a (p +:+ q)). by rewrite !IsAbs_char. Qed.

(** Joining names to a path puts them below it. *)
Lemma elements_below p l :
  p <> "" -> names l -> l <> [] -> elements (p +:+ "/" +:+ Join "/" l) = elements p ++ l.
Proof.
  intros Hp Hl Hne. unfold elements. rewrite IsAbs_app by done.
  change ("/" +:+ Join "/" l) with (String slash (Join "/" l)).
  rewrite Split_app_sep, foldl_app.
  assert (Forall (fun e => char_in slash e = false) l).
  { eapply Forall_impl; [exact Hl|]. intros e He%is_name_spec. tauto. }
  rewrite (Split_Join_pieces slash) by done. rewrite clean_names by done.
  by rewrite rev_app_distr, List.rev_involutive.
Qed.

Lemma Clean_nonempty p : Clean p <> "".
Proof.
  unfold Clean, path_of. destruct (IsAbs p); [done|].
  pose proof (elements_rooted p) as Hs. destruct (elements p) as [|e l]; [done|].
  apply shape_head in Hs as [He _]. destruct l; simpl; [done|]. by destruct e.
Qed.
