(* ===== verification/Site.v ===== *)
(** * The database together with files and the tables of a component

    The vault and the channels work on the tables of [Store], on files, and on
    tables of their own. Their programs run in [Svc (Site X)]: a program of the
    database is embedded by [liftM], which shares the counter of the uses of the
    environment, [with_txS] opens a transaction whose body may also touch files,
    and [other_connection] runs a program on another connection while a
    transaction is open. *)

From S2P Require Import Prelude GoStrings Json EngineTypes Store Effects.

(** ** Equality of the tables *)

#[export] Instance CaseRow_eq_dec : EqDecision CaseRow.
Proof. solve_decision. Defined.
#[export] Instance StepRow_eq_dec : EqDecision StepRow.
Proof. solve_decision. Defined.
#[export] Instance Event_eq_dec : EqDecision Event.
Proof. solve_decision. Defined.
#[export] Instance PrincipalRow_eq_dec : EqDecision PrincipalRow.
Proof. solve_decision. Defined.
#[export] Instance CaseTypeRow_eq_dec : EqDecision CaseTypeRow.
Proof. solve_decision. Defined.
#[export] Instance WorkflowRow_eq_dec : EqDecision WorkflowRow.
Proof. solve_decision. Defined.
#[export] Instance VersionRow_eq_dec : EqDecision VersionRow.
Proof. solve_decision. Defined.
#[export] Instance DocumentRow_eq_dec : EqDecision DocumentRow.
Proof. solve_decision. Defined.
#[export] Instance DB_eq_dec : EqDecision DB.
Proof. solve_decision. Defined.

(** ** State *)

Record Site (X : Type) : Type := mkSite {
  world : World;
  files : gmap string string;
  own : X
}.
Arguments mkSite {X} world files own.
Arguments world {X} s.
Arguments files {X} s.
Arguments own {X} s.

Definition set_world {X} (w : World) (s : Site X) : Site X := mkSite w (files s) (own s).
Definition set_files {X} (f : gmap string string -> gmap string string) (s : Site X) : Site X :=
  mkSite (world s) (f (files s)) (own s).
Definition set_own {X} (f : X -> X) (s : Site X) : Site X := mkSite (world s) (files s) (f (own s)).

Definition at_tick (k : nat) (w : World) : World :=
  mkWorld (db w) (saved w) k (txStart w) (pending w) (published w) (jobs w).

Section Embedding.
Context `{R : Runtime} {X : Type}.

Definition liftM {A} (m : M A) : Svc (Site X) A := fun w =>
  match m (at_tick (ticks w) (world (st w))) with
  | (r, w') => (r, mkSys (set_world w' (st w)) (tick w'))
  end.

(** [tx, err := db.BeginTx(...); defer RollbackTx(tx); body]: files are not
    rolled back. *)
Definition rollbackS (w : Sys (Site X)) : Sys (Site X) :=
  mkSys (set_world (rollback_tx (world (st w))) (st w)) (ticks w).
Definition with_txS {A} (wrap : goerr -> goerr) (body : Svc (Site X) A) : Svc (Site X) A := fun w =>
  match wrapS wrap (liftM begin_tx) w with
  | (Err e, w1) => (Err e, w1)
  | (Ok _, w1) => match body w1 with (r, w2) => (r, rollbackS w2) end
  end.

(** A program on another connection, started while the transaction of the caller
    is open. It sees the committed tables. What it commits before the caller has
    written anything is there for the caller too. When the caller has written and
    the program would write as well, the program waits for a row lock of the
    caller, who waits for the program: the call ends when its context is
    cancelled, and nothing is committed. *)
Definition lock_wait : goerr := Errorf "pq: canceling statement due to user request" [].

Definition outside (w : World) (d : DB) : World :=
  mkWorld d None (tick w) (txStart w) [] (published w) (jobs w).
(** Back in the transaction of [w], after the other connection has left [w1]. *)
Definition inside (w w1 : World) (d saved_d : DB) : World :=
  mkWorld d (Some saved_d) (tick w1) (txStart w) (pending w) (published w1) (jobs w1).

Definition other_connection {A} (m : Svc (Site X) A) : Svc (Site X) A := fun w =>
  let tx := world (st w) in
  match saved tx with
  | None => m w
  | Some d0 =>
      match m (mkSys (set_world (outside tx d0) (st w)) (ticks w)) with
      | (r, w1) =>
          let w' := world (st w1) in
          if decide (db w' = d0) then (r, mkSys (set_world (inside tx w' (db tx) d0) (st w1)) (ticks w1))
          else if decide (db tx = d0)
          then (r, mkSys (set_world (inside tx w' (db w') (db w')) (st w1)) (ticks w1))
          else (Err lock_wait, mkSys (set_world (inside tx (at_tick (tick w') tx) (db tx) d0) (st w1)) (ticks w1))
      end
  end.

End Embedding.

(** ** Triples: an invariant, a precondition and what success establishes *)

Section Triples.
Context `{R : Runtime} {T : Type} (I : T -> Prop).

Definition tripleS {A} (P : T -> Prop) (m : Svc T A) (Q : A -> T -> Prop) : Prop :=
  forall w, I (st w) -> P (st w) ->
  match m w with
  | (Ok a, w') => I (st w') /\ Q a (st w')
  | (Err _, w') => I (st w')
  end.

Lemma triple_ret {A} (a : A) (P : T -> Prop) (Q : A -> T -> Prop) :
  (forall s, I s -> P s -> Q a s) -> tripleS P (mret a) Q.
Proof. intros H w Hi Hp. simpl. auto. Qed.

Lemma triple_fail {A} e (P : T -> Prop) (Q : A -> T -> Prop) : tripleS P (fail e) Q.
Proof. intros w Hi Hp. done. Qed.

Lemma triple_pure {A} (r : result goerr A) (P : T -> Prop) (Q : A -> T -> Prop) :
  (forall a s, r = Ok a -> I s -> P s -> Q a s) -> tripleS P (pureS r) Q.
Proof. intros H w Hi Hp. unfold pureS. destruct r; eauto. Qed.

Lemma triple_bind {A B} (m : Svc T A) (f : A -> Svc T B) P Q Z :
  tripleS P m Q -> (forall a, tripleS (Q a) (f a) Z) -> tripleS P (m ≫= f) Z.
Proof.
  intros Hm Hf w Hi Hp. specialize (Hm w Hi Hp). unfold mbind, Svc_bind.
  destruct (m w) as [[a|e] w1]; [|done]. destruct Hm as [Hi1 Hq]. by apply Hf.
Qed.

Lemma triple_wrap {A} g (m : Svc T A) P Q : tripleS P m Q -> tripleS P (wrapS g m) Q.
Proof. intros Hm w Hi Hp. specialize (Hm w Hi Hp). unfold wrapS. by destruct (m w) as [[a|e] w1]. Qed.

Lemma triple_conseq {A} (m : Svc T A) (P P' : T -> Prop) (Q Q' : A -> T -> Prop) :
  tripleS P m Q -> (forall s, I s -> P' s -> P s) -> (forall a s, I s -> Q a s -> Q' a s) -> tripleS P' m Q'.
Proof.
  intros Hm HP HQ w Hi Hp. specialize (Hm w Hi (HP _ Hi Hp)). destruct (m w) as [[a|e] w1]; [|done].
  destruct Hm as [H1 H2]. split; [done|by apply HQ].
Qed.

(** A condition that every outcome keeps. *)
Lemma triple_try {A} (m : Svc T A) (P : T -> Prop) :
  (forall w, I (st w) -> P (st w) -> I (st (m w).2) /\ P (st (m w).2)) -> tripleS P (tryS m) (fun _ => P).
Proof. intros Hm w Hi Hp. specialize (Hm w Hi Hp). unfold tryS. by destruct (m w) as [r w1]. Qed.

Lemma triple_now P : tripleS P nowS (fun _ => P).
Proof. intros w Hi Hp. done. Qed.

(** An invariant kept from any state. *)
Lemma triple_keeps {A} (m : Svc T A) Q : tripleS (fun _ => True) m Q -> keepsS (fun s s' => I s -> I s') m.
Proof.
  intros Hm w Hi. specialize (Hm w Hi Logic.I). destruct (m w) as [[a|e] w1]; simpl; tauto.
Qed.

End Triples.
