(* ===== verification/VaultStore.v ===== *)
(** * Storage of documents: [internal/vault], the stores

    [store_local.go] keeps documents as files below a root, under a name made of
    the tenant, the date and the hash of the content; [store_object.go] keeps them
    in an object store. A service uses either through the interface of
    [vault.go], here a class. Calls of the operating system can fail like
    statements of the database; [torn] is what a failed write leaves behind. *)

From stdpp Require Import pretty.
From S2P Require Import Prelude GoStrings Json EngineTypes Store GoText Effects GoPath Site.

(** [VaultStore]; [DownloadFromSignedURL] asks whether the store is the local one. *)
Record LocalVaultStore : Type := mkLocalVaultStore { lvRoot : string; lvSecret : string }.

Class VaultStore (X : Type) : Type := {
  store_Put : string -> string -> string -> string -> Svc (Site X) string;
  store_Get : string -> Svc (Site X) string;
  store_Delete : string -> Svc (Site X) unit;
  store_SignedURL : string -> Z -> Svc (Site X) string;
  as_local : option LocalVaultStore
}.

(** ** Names *)

Definition safe_char (a : ascii) : bool := is_alnum a || char_in a "_.-".
(** [^[A-Za-z0-9][A-Za-z0-9_.-]{0,127}$] *)
Definition safePathSegmentPattern (s : string) : bool :=
  match s with
  | EmptyString => false
  | String a s' => is_alnum a && all_chars safe_char s' && (String.length s' <=? 127)%nat
  end.
(** [^[a-f0-9]{64}$] *)
Definition sha256HexPattern (s : string) : bool :=
  all_chars (fun a => char_in a "abcdef0123456789") s && (String.length s =? 64)%nat.

Definition normalizeExt (ext : string) : string :=
  let ext := TrimSpace (TrimPrefix ext ".") in
  if decide (ext = "") then "bin" else if safePathSegmentPattern ext then ext else "bin".

Definition hashPrefix (hash : string) (start : nat) : string :=
  if (String.length hash <? start + 2)%nat then "00" else String.substring start 2 hash.

(** [%s/%04d/%02d/%s/%s/%s.%s] *)
Definition vault_parts (tenantID : string) (year month : Z) (hash ext : string) : list string :=
  [tenantID; pad 4 year; pad 2 month; hashPrefix hash 0; hashPrefix hash 2; hash +:+ "." +:+ ext].
Definition vault_uri (tenantID : string) (year month : Z) (hash ext : string) : string :=
  Join "/" (vault_parts tenantID year month hash ext).

Definition invalid_uri : goerr := Errorf "invalid vault uri" [].

(** [LocalVaultStore.resolvePath] *)
Definition resolvePath (s : LocalVaultStore) (uri : string) : result goerr string :=
  let clean := Clean (TrimPrefix (TrimSpace uri) "/") in
  if bool_decide (clean = ".") || bool_decide (clean = "") || HasPrefix clean ".." then Err invalid_uri
  else
    let root := Clean (lvRoot s) in
    let fullPath := JoinPath root clean in
    match Rel root fullPath with
    | Err e => Err (Wrapf "compute relative path: %w" [] e)
    | Ok rel =>
        if bool_decide (rel = "..") || HasPrefix rel "../" then Err invalid_uri else Ok fullPath
    end.

Definition defaultVaultRoot : string := "./data/vault".
Definition defaultSignedURLExpiry : Z := 300.

Definition NewLocalVaultStore (root signingSecret : string) : LocalVaultStore :=
  mkLocalVaultStore (if decide (TrimSpace root = "") then defaultVaultRoot else root)
    (if decide (signingSecret = "") then "aceryx-vault-dev-secret" else signingSecret).

(** ** Signatures *)

Definition hex_nibble (n : nat) : ascii := default "0"%char (String.get n "0123456789abcdef").
Fixpoint hex_encode (s : string) : string :=
  match s with
  | EmptyString => EmptyString
  | String a s' =>
      let n := Ascii.nat_of_ascii a in
      String (hex_nibble (n / 16)%nat) (String (hex_nibble (n mod 16)%nat) (hex_encode s'))
  end.

Definition Unix (t : Z) : Z := (t / Second)%Z.

(** A directory is there when there is a file below it. *)
Definition directory_there (dir : string) (fs : gmap string string) : bool :=
  existsb (fun kv : string * string => bool_decide (IsAbs kv.1 = IsAbs dir) &&
    match strip_common (elements dir) (elements kv.1) with ([], _ :: _) => true | _ => false end) (map_to_list fs).

Section Store.
Context `{R : Runtime} {X : Type}.
Context (hmac_sha256 : string -> string -> string).

Definition signURI (secret uri : string) (expiresAt : Z) : string :=
  hex_encode (hmac_sha256 secret (uri +:+ "|" +:+ Itoa expiresAt)).

(** [LocalVaultStore.SignedURL] and [VerifySignedURL] *)
Definition expiry_or_default (expirySeconds : Z) : Z :=
  if (expirySeconds <=? 0)%Z then defaultSignedURLExpiry else expirySeconds.
Definition signed_url (s : LocalVaultStore) (uri : string) (expirySeconds now : Z) : result goerr string :=
  if decide (TrimSpace uri = "") then Err (Errorf "uri is required" [])
  else
    let expiresAt := Unix (now + wrap64 (expiry_or_default expirySeconds * Second)) in
    Ok (uri +:+ "?exp=" +:+ Itoa expiresAt +:+ "&sig=" +:+ signURI (lvSecret s) uri expiresAt).
Definition LocalSignedURL (s : LocalVaultStore) (uri : string) (expirySeconds : Z) : Svc (Site X) string :=
  now ← nowS; pureS (signed_url s uri expirySeconds now).

Definition verify_url (s : LocalVaultStore) (uri expiryRaw signature : string) (now : Z) : result goerr unit :=
  match Atoi (TrimSpace expiryRaw) with
  | None => Err (Errorf "invalid expiry" [])
  | Some expiresAt =>
      if (expiresAt <=? 0)%Z then Err (Errorf "invalid expiry" [])
      else if (expiresAt <? Unix now)%Z then Err (Errorf "signed url expired" [])
      else if decide (signURI (lvSecret s) uri expiresAt = signature) then Ok tt
      else Err (Errorf "invalid signature" [])
  end.
Definition VerifySignedURL (s : LocalVaultStore) (uri expiryRaw signature : string) : Svc (Site X) unit :=
  now ← nowS; pureS (verify_url s uri expiryRaw signature now).

(** ** Files *)

Definition ENOENT : goerr := Errorf "no such file or directory" [].
Definition fs_ErrNotExist : goerr := Errorf "file does not exist" [].

Definition os_MkdirAll : Svc (Site X) unit := exec (fun _ _ s => Ok (tt, s)).
(** [os.Stat]: whether the file is there; another error is an error. *)
Definition os_Stat (path : string) : Svc (Site X) bool :=
  exec (fun _ _ s => Ok (bool_decide (is_Some (files s !! path)), s)).
Definition os_ReadFile (path : string) : Svc (Site X) string :=
  exec (fun _ _ s => match files s !! path with
                     | Some data => Ok (data, s)
                     | None => Err (Wrapf "open %s: %w" [path] ENOENT)
                     end).
Definition os_Remove (path : string) : Svc (Site X) unit :=
  exec (fun _ _ s => match files s !! path with
                     | Some _ => Ok (tt, set_files (delete path) s)
                     | None => Err (Wrapf "remove %s: %w" [path] ENOENT)
                     end).

Context (torn : nat -> string -> option string).

Definition os_WriteFile (path data : string) : Svc (Site X) unit := fun w =>
  match fault (ticks w) with
  | Some e =>
      (Err e, mkSys (match torn (ticks w) data with
                     | Some part => set_files (<[path := part]>) (st w)
                     | None => st w
                     end) (S (ticks w)))
  | None => (Ok tt, mkSys (set_files (<[path := data]>) (st w)) (S (ticks w)))
  end.

Definition errorsIsNotExist (e : goerr) : bool := errors_is e ENOENT || Contains (ToLower (Error e)) "no such file".

Definition LocalPut (s : LocalVaultStore) (tenantID hash ext data : string) : Svc (Site X) string :=
  let tenantID := TrimSpace tenantID in
  if negb (safePathSegmentPattern tenantID) then fail (Errorf "invalid tenant id" [])
  else
    let hash := ToLower (TrimSpace hash) in
    if negb (sha256HexPattern hash) then fail (Errorf "invalid content hash" [])
    else
      let ext := normalizeExt ext in
      now ← nowS;
      let uri := vault_uri tenantID (Year now) (Month now) hash ext in
      fullPath ← wrapS (Wrapf "resolve vault path: %w" []) (pureS (resolvePath s uri));
      _ ← wrapS (Wrapf "create vault directory: %w" []) os_MkdirAll;
      there ← wrapS (Wrapf "stat vault file: %w" []) (os_Stat fullPath);
      if there : bool then mret uri
      else
        _ ← wrapS (Wrapf "write vault file: %w" []) (os_WriteFile fullPath data);
        mret uri.

Definition LocalGet (s : LocalVaultStore) (uri : string) : Svc (Site X) string :=
  fullPath ← pureS (resolvePath s uri);
  wrapS (fun e => if errorsIsNotExist e then fs_ErrNotExist else Wrapf "read vault file: %w" [] e)
    (os_ReadFile fullPath).

Definition LocalDelete (s : LocalVaultStore) (uri : string) : Svc (Site X) unit :=
  fullPath ← pureS (resolvePath s uri);
  r ← tryS (os_Remove fullPath);
  match r with
  | Err e => if errors_is e ENOENT then mret tt else fail (Wrapf "delete vault file: %w" [] e)
  | Ok _ => mret tt
  end.

Definition local_store (s : LocalVaultStore) : VaultStore X := {|
  store_Put := LocalPut s;
  store_Get := LocalGet s;
  store_Delete := LocalDelete s;
  store_SignedURL := LocalSignedURL s;
  as_local := Some s
|}.

(** ** Types of documents *)

Context (TypeByExtension : string -> string).

Definition detectMime (filename : string) : string :=
  let ext := ToLower (Ext filename) in
  if decide (ext = "") then "application/octet-stream"
  else if decide (TypeByExtension ext = "") then "application/octet-stream" else TypeByExtension ext.

Definition inline_types : list string :=
  ["application/pdf"; "image/png"; "image/jpeg"; "image/gif"; "image/webp"; "text/plain"; "text/markdown";
   "text/csv"].
Definition DisplayModeForMime (m : string) : string :=
  let m := ToLower (TrimSpace (default "" (head (Split ";"%char m)))) in
  if decide (m ∈ inline_types) then "inline" else "download".

(** ** Object stores ([storage.ObjectStore]) *)

Record ObjectStore : Type := mkObjectStore {
  obj_Put : string -> string -> string -> string -> Svc (Site X) unit;
  obj_Get : string -> Svc (Site X) (string * string);
  obj_Delete : string -> Svc (Site X) unit;
  obj_PresignedURL : string -> Z -> Svc (Site X) string
}.
Definition not_configured : goerr := Errorf "object store not configured" [].
Definition with_store {A} (o : option ObjectStore) (f : ObjectStore -> Svc (Site X) A) : Svc (Site X) A :=
  match o with None => fail not_configured | Some o => f o end.

Definition ObjectPut (o : option ObjectStore) (tenantID hash ext data : string) : Svc (Site X) string :=
  with_store o (fun o =>
    let ext := normalizeExt ext in
    now ← nowS;
    let key := vault_uri tenantID (Year now) (Month now) hash ext in
    _ ← obj_Put o key data (detectMime ("file." +:+ ext)) hash;
    mret (TrimPrefix key "/")).

Definition ObjectGet (o : option ObjectStore) (uri : string) : Svc (Site X) string :=
  with_store o (fun o =>
    obj ← obj_Get o uri;
    if negb (bool_decide (TrimSpace obj.2 = "")) && negb (bool_decide (sha256_hex obj.1 = obj.2))
    then fail (Errorf "checksum mismatch for uri %q" [uri]) else mret obj.1).

Definition ObjectDelete (o : option ObjectStore) (uri : string) : Svc (Site X) unit :=
  with_store o (fun o => obj_Delete o uri).

Definition ObjectSignedURL (o : option ObjectStore) (uri : string) (expirySeconds : Z) : Svc (Site X) string :=
  with_store o (fun o =>
    let d := wrap64 (expirySeconds * Second) in
    obj_PresignedURL o uri (if (d <=? 0)%Z then 15 * Minute else d)).

Definition object_store (o : option ObjectStore) : VaultStore X := {|
  store_Put := ObjectPut o;
  store_Get := ObjectGet o;
  store_Delete := ObjectDelete o;
  store_SignedURL := ObjectSignedURL o;
  as_local := None
|}.

End Store.
Arguments ObjectStore : clear implicits.

(** ** Names and places of stored documents

    A path the local store resolves stays below its root; the names it gives to
    documents tell tenant and content apart; signatures bind the place and the
    expiry of a link. *)

(** ** Characters *)

Lemma is_digit_pretty (x : N) s p :
  (forall d, (d < 10)%N -> p (pretty_N_char d) = true) ->
  all_chars p s = true -> all_chars p (pretty_N_go x s) = true.
Proof.
  intros Hp. revert s. induction (N.lt_wf_0 x) as [x _ IH]; intros s Hs.
  destruct (decide (0 < x)%N) as [Hx|Hx].
  - rewrite pretty_N_go_step by done. apply IH; [apply N.div_lt; lia|].
    simpl. rewrite Hp, Hs by (apply N.mod_lt; lia). done.
  - assert (x = 0%N) as -> by lia. by rewrite pretty_N_go_0.
Qed.

Definition decimal_char (a : ascii) : bool := char_in a "-0123456789".

Lemma Itoa_chars z : all_chars decimal_char (Itoa z) = true.
Proof.
  assert (forall p : positive, all_chars decimal_char (pretty p) = true) as Hp.
  { intros p. change (pretty p) with (pretty_N (Npos p)). unfold pretty_N.
    destruct (decide (Npos p = 0%N)); [done|]. apply is_digit_pretty; [|done].
    intros d H. assert (d ∈ [0; 1; 2; 3; 4; 5; 6; 7; 8; 9]%N) as Hd by (rewrite !elem_of_cons; lia).
    rewrite !elem_of_cons, elem_of_nil in Hd. naive_solver. }
  unfold Itoa. destruct z as [|p|p]; [done|apply Hp|].
  change (pretty (Z.neg p)) with (String "-" (pretty p)). simpl. apply Hp.
Qed.

Lemma Itoa_nonempty z : Itoa z <> "".
Proof.
  unfold Itoa. destruct z as [|p|p]; [done| |done].
  change (pretty (Z.pos p)) with (pretty p). destruct (pretty_pos_head p) as (a & s & -> & _). done.
Qed.

Lemma zeros_chars n : all_chars decimal_char (zeros_str n) = true.
Proof. induction n as [|n IH]; [done|]. simpl. by rewrite IH. Qed.

Lemma pad_chars n z : all_chars decimal_char (pad n z) = true.
Proof.
  unfold pad. destruct (z <? 0)%Z; rewrite ?all_chars_app, zeros_chars, Itoa_chars; done.
Qed.

Lemma append_nonempty s t : t <> "" -> s +:+ t <> "".
Proof. by destruct s. Qed.

Lemma pad_nonempty n z : pad n z <> "".
Proof.
  unfold pad. destruct (z <? 0)%Z; [done|]. apply append_nonempty, Itoa_nonempty.
Qed.

(** Texts of letters, digits, dots, dashes and underscores. *)
Lemma safe_graph a : safe_char a = true -> is_graph a && negb (bool_decide (a = slash)) = true.
Proof. destruct a as [[] [] [] [] [] [] [] []]; vm_compute; done. Qed.
Lemma decimal_safe a : decimal_char a = true -> safe_char a = true.
Proof. destruct a as [[] [] [] [] [] [] [] []]; vm_compute; done. Qed.
Lemma hex_char_safe a : char_in a "abcdef0123456789" = true -> safe_char a = true /\ lower_ascii a = a.
Proof. destruct a as [[] [] [] [] [] [] [] []]; vm_compute; done. Qed.
Lemma alnum_safe a : is_alnum a = true -> safe_char a = true /\ a <> "."%char.
Proof. destruct a as [[] [] [] [] [] [] [] []]; vm_compute; done. Qed.

Lemma safe_no_slash s : all_chars safe_char s = true -> char_in slash s = false.
Proof. intros H. by apply (all_chars_not_in safe_char). Qed.

Lemma safe_all_graph s : all_chars safe_char s = true -> all_chars is_graph s = true.
Proof. apply all_chars_impl. intros a Ha%safe_graph. by boolp. Qed.

(** A text without dots at the front is a name. *)
Lemma safe_name a s :
  all_chars safe_char (String a s) = true -> a <> "."%char -> is_name (String a s) = true.
Proof.
  intros Hs Ha. apply is_name_spec. split_and!; [done| | |by apply safe_no_slash].
  - intros [= ->]. done.
  - intros [= ->]. done.
Qed.

Lemma segment_spec s :
  safePathSegmentPattern s = true -> all_chars safe_char s = true /\ is_name s = true.
Proof.
  destruct s as [|a s]; [done|]. unfold safePathSegmentPattern. intros H. boolp.
  destruct (alnum_safe a) as [Hsafe Hdot]; [done|].
  assert (all_chars safe_char (String a s) = true) by (simpl; by rewrite Hsafe). split; [done|].
  by apply safe_name.
Qed.

Lemma decimal_name s : s <> "" -> all_chars decimal_char s = true -> is_name s = true.
Proof.
  intros Hne Hs. destruct s as [|a s]; [done|]. apply safe_name.
  - eapply all_chars_impl; [apply decimal_safe|done].
  - simpl in Hs. boolp. intros ->. done.
Qed.

Lemma sha256_spec h :
  sha256HexPattern h = true ->
  all_chars (fun a => char_in a "abcdef0123456789") h = true /\ String.length h = 64%nat.
Proof. unfold sha256HexPattern. intros H. boolp. split; [done|]. by apply Nat.eqb_eq. Qed.

Lemma hex_name h : h <> "" -> all_chars (fun a => char_in a "abcdef0123456789") h = true -> is_name h = true.
Proof.
  intros Hne Hh. destruct h as [|a h]; [done|]. apply safe_name.
  - eapply all_chars_impl; [|exact Hh]. intros b Hb. by apply hex_char_safe.
  - simpl in Hh. boolp. intros ->. done.
Qed.

Lemma hex_lower h : all_chars (fun a => char_in a "abcdef0123456789") h = true -> ToLower h = h.
Proof.
  induction h as [|a h IH]; [done|]. intros Hh. cbn [all_chars] in Hh. boolp. cbn [ToLower].
  rewrite IH by done. f_equal. by apply hex_char_safe.
Qed.

Lemma substring_chars p s : forall n m, all_chars p s = true -> all_chars p (String.substring n m s) = true.
Proof.
  induction s as [|a s IH]; intros n m Hs; [by destruct n, m|].
  cbn [all_chars] in Hs. boolp. destruct n as [|n]; cbn [String.substring]; [|by apply IH].
  destruct m as [|m]; [done|]. cbn [all_chars]. rewrite IH by done. by rewrite H.
Qed.

Lemma substring_nonempty s n : (n + 2 <= String.length s)%nat -> String.substring n 2 s <> "".
Proof.
  revert n. induction s as [|a s IH]; intros n Hn; [simpl in Hn; lia|].
  destruct n as [|n]; [done|]. cbn [String.substring]. apply IH. simpl in Hn. lia.
Qed.

Lemma hashPrefix_name h n :
  sha256HexPattern h = true -> (n + 2 <= 64)%nat -> is_name (hashPrefix h n) = true.
Proof.
  intros (Hc & Hl)%sha256_spec Hn. unfold hashPrefix.
  rewrite (proj2 (Nat.ltb_ge _ _)) by lia. apply hex_name.
  - apply substring_nonempty. lia.
  - by apply substring_chars.
Qed.

Lemma normalizeExt_segment ext : safePathSegmentPattern (normalizeExt ext) = true.
Proof.
  unfold normalizeExt. cbv zeta. destruct (decide _); [done|].
  destruct (safePathSegmentPattern (TrimSpace _)) eqn:E; [done|done].
Qed.

Lemma vault_parts_names t y m h e :
  safePathSegmentPattern t = true -> sha256HexPattern h = true -> safePathSegmentPattern e = true ->
  names (vault_parts t y m h e).
Proof.
  intros Ht Hh He. pose proof (segment_spec _ Ht) as [_ Htn].
  pose proof (segment_spec _ He) as [Hes _]. pose proof (sha256_spec _ Hh) as [Hc Hl].
  unfold vault_parts. repeat constructor; try done.
  - apply decimal_name; [apply pad_nonempty|apply pad_chars].
  - apply decimal_name; [apply pad_nonempty|apply pad_chars].
  - apply hashPrefix_name; [done|lia].
  - apply hashPrefix_name; [done|lia].
  - destruct h as [|a h]; [simpl in Hl; lia|].
    change (String a h +:+ "." +:+ e) with (String a (h +:+ "." +:+ e)). apply safe_name.
    + change (String a (h +:+ "." +:+ e)) with (String a h +:+ "." +:+ e).
      rewrite all_chars_app. apply andb_true_iff. split.
      * eapply all_chars_impl; [|exact Hc]. intros b Hb. by apply hex_char_safe.
      * by rewrite all_chars_app, Hes.
    + simpl in Hc. boolp. intros ->. done.
Qed.

(** ** Paths *)

Lemma HasPrefix_dots rest : HasPrefix (Join "/" (".." :: rest)) ".." = true.
Proof.
  destruct rest as [|r rest]; [done|].
  change (Join "/" (".." :: r :: rest)) with (".." +:+ ("/" +:+ Join "/" (r :: rest))). apply HasPrefix_append.
Qed.

(** What the guard on the cleaned uri leaves: names, possibly after a slash. *)
Lemma guarded_elements u :
  Clean u <> "." -> HasPrefix (Clean u) ".." = false ->
  names (elements u) /\ (IsAbs u = false -> elements u <> []).
Proof.
  intros Hdot Hup. destruct (elements_shape u) as (k & n & He & Hn & Hk).
  unfold Clean, path_of in *. destruct (IsAbs u).
  - rewrite He, Hk by done. done.
  - destruct k as [|k]; simpl in He.
    + split; [by rewrite He|]. intros _ H0. by rewrite H0 in Hdot.
    + rewrite He in Hup. exfalso. cbn beta iota in Hup. by rewrite HasPrefix_dots in Hup.
Qed.

Lemma elements_beside p u :
  p <> "" -> names (elements u) -> (IsAbs u = false -> elements u <> []) ->
  elements (p +:+ "/" +:+ Clean u) = elements p ++ elements u.
Proof.
  intros Hp Hn Hne. unfold Clean at 1, path_of. destruct (IsAbs u) eqn:Ha.
  - unfold elements at 1. rewrite IsAbs_app by done.
    change ("/" +:+ "/" +:+ Join "/" (elements u)) with (String slash (String slash (Join "/" (elements u)))).
    rewrite Split_app_sep, foldl_app.
    change (Split slash (String slash (Join "/" (elements u)))) with ("" :: Split slash (Join "/" (elements u))).
    cbn [foldl]. unfold clean_step at 2. rewrite decide_True by (by left).
    destruct (elements u) as [|e l] eqn:Eu.
    + by rewrite app_nil_r.
    + rewrite Split_Join_pieces; [|done|]; [|eapply Forall_impl; [exact Hn|]; intros x Hx%is_name_spec; tauto].
      rewrite clean_names by done. by rewrite rev_app_distr, List.rev_involutive.
  - specialize (Hne eq_refl). destruct (elements u) as [|e l]; [done|]. by apply elements_below.
Qed.

Lemma resolvePath_Ok s uri full :
  resolvePath s uri = Ok full ->
  names (elements (TrimPrefix (TrimSpace uri) "/")) /\
  full = path_of (IsAbs (lvRoot s)) (elements (lvRoot s) ++ elements (TrimPrefix (TrimSpace uri) "/")).
Proof.
  unfold resolvePath. cbv zeta. set (u := TrimPrefix (TrimSpace uri) "/").
  destruct (_ || _ || _) eqn:Eg; [done|]. boolp.
  destruct (Rel _ _) as [rel|] eqn:Er; [|done]. destruct (_ || _); [done|]. intros [= <-].
  destruct (guarded_elements u) as [Hn Hne]; [done|done|]. split; [done|].
  unfold JoinPath. rewrite decide_False by apply Clean_nonempty.
  unfold Clean at 1. rewrite IsAbs_app, IsAbs_Clean by apply Clean_nonempty.
  rewrite elements_beside by (done || apply Clean_nonempty). by rewrite elements_Clean.
Qed.

Lemma app_shape rooted l n : rooted_shape rooted l -> names n -> rooted_shape rooted (l ++ n).
Proof.
  intros (k & m & -> & Hm & Hk) Hn. exists k, (m ++ n). split_and!; [by rewrite app_assoc| |done].
  apply Forall_app. done.
Qed.

(** The place of a document with a name of ours. *)
Lemma uri_elements t y m h e :
  safePathSegmentPattern t = true -> sha256HexPattern h = true -> safePathSegmentPattern e = true ->
  elements (TrimPrefix (TrimSpace (vault_uri t y m h e)) "/") = vault_parts t y m h e /\
  char_in "?"%char (vault_uri t y m h e) = false /\ all_chars is_graph (vault_uri t y m h e) = true.
Proof.
  intros Ht Hh He. pose proof (vault_parts_names t y m h e Ht Hh He) as Hn.
  assert (forall p : ascii -> bool, p slash = true -> (forall a, safe_char a = true -> p a = true) ->
            all_chars p (vault_uri t y m h e) = true) as Hall.
  { intros p Hs Hp.
    assert (forall x, all_chars safe_char x = true -> all_chars p x = true) as Hx by (intros x; by apply all_chars_impl).
    assert (all_chars safe_char h = true) as Hhs.
    { apply sha256_spec in Hh as [Hc _]. eapply all_chars_impl; [|exact Hc]. intros b Hb. by apply hex_char_safe. }
    assert (forall n z, all_chars safe_char (pad n z) = true) as Hd.
    { intros n z. eapply all_chars_impl; [apply decimal_safe|apply pad_chars]. }
    assert (forall n, all_chars safe_char (hashPrefix h n) = true) as Hpre.
    { intros n. unfold hashPrefix. destruct (_ <? _)%nat; [done|]. by apply substring_chars. }
    destruct (segment_spec t Ht) as [Hts _]. destruct (segment_spec e He) as [Hes _].
    assert (all_chars p "/" = true) as Hsl by (cbn [all_chars]; fold slash; by rewrite Hs).
    assert (all_chars p "." = true) as Hdot by (apply Hx; done).
    unfold vault_uri, vault_parts. cbn [Join]. rewrite !all_chars_app, !Hsl, !Hdot, !Hx by auto. done. }
  split_and!; cycle 2.
  { apply Hall; [done|]. intros a Ha%safe_graph. by boolp. }
  - rewrite TrimSpace_graph; [|apply Hall; [done|]; intros a Ha%safe_graph; by boolp].
    assert (TrimPrefix (vault_uri t y m h e) "/" = vault_uri t y m h e) as ->.
    { unfold TrimPrefix. destruct (HasPrefix _ "/") eqn:E; [|done]. exfalso.
      assert (IsAbs (vault_uri t y m h e) = false) as Ha; [|unfold IsAbs in Ha; congruence].
      unfold vault_uri, vault_parts. inversion Hn as [|? ? Hh1 _]; subst. apply is_name_spec in Hh1 as (? & _ & _ & ?).
      by apply IsAbs_join. }
    change (vault_uri t y m h e) with (path_of false (vault_parts t y m h e)). apply elements_path_of. exists 0%nat, (vault_parts t y m h e). done.
  - apply (all_chars_not_in (fun a => negb (bool_decide (a = "?"%char)))); [done|].
    apply Hall; [done|]. intros a. destruct a as [[] [] [] [] [] [] [] []]; vm_compute; done.
Qed.

(** Two documents in the same file have the same tenant and content. *)
Lemma same_file s t y m h e t' y' m' h' e' full :
  safePathSegmentPattern t = true -> sha256HexPattern h = true -> safePathSegmentPattern e = true ->
  safePathSegmentPattern t' = true -> sha256HexPattern h' = true -> safePathSegmentPattern e' = true ->
  resolvePath s (vault_uri t y m h e) = Ok full -> resolvePath s (vault_uri t' y' m' h' e') = Ok full ->
  t = t' /\ h = h'.
Proof.
  intros Ht Hh He Ht' Hh' He' [_ H1]%resolvePath_Ok [_ H2]%resolvePath_Ok.
  rewrite (proj1 (uri_elements t y m h e Ht Hh He)) in H1.
  rewrite (proj1 (uri_elements t' y' m' h' e' Ht' Hh' He')) in H2.
  assert (elements (lvRoot s) ++ vault_parts t y m h e = elements (lvRoot s) ++ vault_parts t' y' m' h' e') as H.
  { rewrite <-(elements_path_of (IsAbs (lvRoot s)) (_ ++ vault_parts t y m h e)), <-H1, H2;
      [|by apply app_shape; [apply elements_rooted|apply vault_parts_names]].
    apply elements_path_of. apply app_shape; [apply elements_rooted|by apply vault_parts_names]. }
  apply app_inv_head in H. injection H as Htt _ _ _ _ Hhe. split; [done|].
  apply sha256_spec in Hh as [_ Hl]. apply sha256_spec in Hh' as [_ Hl'].
  apply append_inj_len in Hhe; [tauto|lia].
Qed.

(** ** Identifiers: the text of a 128-bit value determines it *)

Lemma hex_digit_inj a b : (a < 16)%N -> (b < 16)%N -> hex_digit a = hex_digit b -> a = b.
Proof.
  intros Ha Hb H.
  assert (forall x, (x < 16)%N -> x ∈ [0;1;2;3;4;5;6;7;8;9;10;11;12;13;14;15]%N) as Hin
    by (intros x Hx; rewrite !elem_of_cons; lia).
  apply Hin in Ha, Hb. rewrite !elem_of_cons, elem_of_nil in Ha, Hb.
  repeat destruct Ha as [->|Ha]; try done; repeat destruct Hb as [->|Hb]; try done; vm_compute in H; done.
Qed.

Lemma hex_digits_inj n u v acc acc' :
  hex_digits n u acc = hex_digits n v acc' ->
  (u mod 16 ^ N.of_nat n = v mod 16 ^ N.of_nat n)%N /\ acc = acc'.
Proof.
  revert u v acc acc'. induction n as [|n IH]; intros u v acc acc' H; [by rewrite !N.mod_1_r|].
  cbn [hex_digits] in H. apply IH in H as [Hdiv [= Hd ->]]. split; [|done].
  apply hex_digit_inj in Hd; [|by apply N.mod_lt|by apply N.mod_lt].
  rewrite Nat2N.inj_succ, N.pow_succ_r', !N.Div0.mod_mul_r. congruence.
Qed.

Lemma uuid_part_inj u v s n :
  uuid_part u s n = uuid_part v s n ->
  (N.shiftr u s mod 2 ^ (4 * N.of_nat n) = N.shiftr v s mod 2 ^ (4 * N.of_nat n))%N.
Proof.
  unfold uuid_part. intros [H _]%hex_digits_inj. by rewrite N.pow_mul_r.
Qed.

Definition uuid_ok (u : uuid) : Prop := (u < 2 ^ 128)%N.

Lemma bits_part u v s n i :
  (N.shiftr u s mod 2 ^ n = N.shiftr v s mod 2 ^ n)%N -> (s <= i < s + n)%N ->
  N.testbit u i = N.testbit v i.
Proof.
  intros H Hi. apply (f_equal (fun x => N.testbit x (i - s))) in H.
  rewrite !N.mod_pow2_bits_low, !N.shiftr_spec' in H by lia.
  by rewrite N.sub_add in H by lia.
Qed.

Lemma uuid_string_inj u v : uuid_ok u -> uuid_ok v -> uuid_string u = uuid_string v -> u = v.
Proof.
  intros Hu Hv H. unfold uuid_string in H.
  assert (forall n s x y r r', uuid_part x s n +:+ r = uuid_part y s n +:+ r' ->
            uuid_part x s n = uuid_part y s n /\ r = r') as Hcut.
  { intros n s x y r r' E. apply append_inj_len in E; [done|]. unfold uuid_part. by rewrite !hex_digits_length. }
  assert (forall r r', "-" +:+ r = "-" +:+ r' -> r = r') as Hdash by (intros r r' [= E]; done).
  apply Hcut in H as [H1 H%Hdash]. apply Hcut in H as [H2 H%Hdash].
  apply Hcut in H as [H3 H%Hdash]. apply Hcut in H as [H4 H5%Hdash].
  apply uuid_part_inj in H1, H2, H3, H4, H5. simpl in H1, H2, H3, H4, H5.
  apply N.bits_inj. intros i. destruct (decide (128 <= i)%N) as [Hi|Hi].
  - unfold uuid_ok in *. rewrite !N.bits_above_log2; [done| |].
    + destruct (decide (v = 0)%N) as [->|]; [simpl; lia|]. apply N.log2_lt_pow2; [lia|].
      eapply N.lt_le_trans; [exact Hv|]. apply N.pow_le_mono_r; lia.
    + destruct (decide (u = 0)%N) as [->|]; [simpl; lia|]. apply N.log2_lt_pow2; [lia|].
      eapply N.lt_le_trans; [exact Hu|]. apply N.pow_le_mono_r; lia.
  - destruct (decide (i < 48)%N); [by apply (bits_part _ _ 0 48); [|lia]|].
    destruct (decide (i < 64)%N); [by apply (bits_part _ _ 48 16); [|lia]|].
    destruct (decide (i < 80)%N); [by apply (bits_part _ _ 64 16); [|lia]|].
    destruct (decide (i < 96)%N); [by apply (bits_part _ _ 80 16); [|lia]|].
    by apply (bits_part _ _ 96 32); [|lia].
Qed.

Lemma get_char_in n s c : String.get n s = Some c -> char_in c s = true.
Proof.
  revert n. induction s as [|a s IH]; intros n H; [by destruct n|].
  cbn [char_in]. destruct n as [|n]; simpl in H; [injection H as ->; by rewrite bool_decide_eq_true_2|].
  by rewrite (IH n), orb_true_r.
Qed.

Definition id_char (a : ascii) : bool := char_in a "-0123456789abcdef".

Lemma id_char_spec a : id_char a = true -> safe_char a = true /\ is_graph a = true.
Proof. destruct a as [[] [] [] [] [] [] [] []]; vm_compute; done. Qed.

Lemma hex_digits_chars n u acc : all_chars id_char acc = true -> all_chars id_char (hex_digits n u acc) = true.
Proof.
  revert u acc. induction n as [|n IH]; intros u acc H; [done|]. cbn [hex_digits]. apply IH. simpl. rewrite H.
  unfold hex_digit, id_char. destruct (String.get _ _) as [c|] eqn:E; [|done].
  apply get_char_in in E. cbn [char_in]. cbn [char_in] in E. by rewrite E, orb_true_r.
Qed.

Lemma uuid_string_chars u : all_chars id_char (uuid_string u) = true.
Proof. unfold uuid_string, uuid_part. rewrite !all_chars_app, !hex_digits_chars by done. done. Qed.

Lemma TrimSpace_uuid u : TrimSpace (uuid_string u) = uuid_string u.
Proof.
  apply TrimSpace_graph. eapply all_chars_impl; [|apply uuid_string_chars]. intros a Ha. by apply id_char_spec.
Qed.

Lemma hash_fixed h : sha256HexPattern h = true -> ToLower (TrimSpace h) = h.
Proof.
  intros [Hc _]%sha256_spec. rewrite TrimSpace_graph; [by apply hex_lower|].
  apply safe_all_graph. eapply all_chars_impl; [|exact Hc]. intros a Ha. by apply hex_char_safe.
Qed.

(** ** Signatures *)

Lemma hex_nibble_inj a b : (a < 16)%nat -> (b < 16)%nat -> hex_nibble a = hex_nibble b -> a = b.
Proof.
  intros Ha Hb H. do 16 (destruct a as [|a]; [do 16 (destruct b as [|b]; [done|]); lia|]). lia.
Qed.

#[local] Opaque Nat.div Nat.modulo.
Lemma hex_encode_inj s t : hex_encode s = hex_encode t -> s = t.
Proof.
  revert t. induction s as [|a s IH]; intros [|b t]; cbn [hex_encode]; [done|done|done|].
  intros [= H1 H2 H3]. pose proof (Ascii.nat_ascii_bounded a). pose proof (Ascii.nat_ascii_bounded b).
  apply hex_nibble_inj in H1; [|apply Nat.Div0.div_lt_upper_bound; lia|apply Nat.Div0.div_lt_upper_bound; lia].
  apply hex_nibble_inj in H2; [|by apply Nat.mod_upper_bound|by apply Nat.mod_upper_bound].
  f_equal; [|by apply IH]. rewrite <-(Ascii.ascii_nat_embedding a), <-(Ascii.ascii_nat_embedding b). f_equal.
  rewrite (Nat.div_mod_eq (Ascii.nat_of_ascii a) 16), (Nat.div_mod_eq (Ascii.nat_of_ascii b) 16). lia.
Qed.

#[local] Transparent Nat.div Nat.modulo.

Lemma last_piece_inj c a b a' b' :
  char_in c b = false -> char_in c b' = false -> a +:+ String c b = a' +:+ String c b' -> a = a' /\ b = b'.
Proof.
  intros Hb Hb' H. apply (f_equal (Split c)) in H. rewrite !Split_app_sep, (Split_no_sep c b), (Split_no_sep c b') in H by done.
  apply app_inj_tail in H as [Ha [= ->]]. split; [|done].
  apply (f_equal (Join (String c ""))) in Ha.
  assert (forall s, Join (String c "") (Split c s) = s) as HJ.
  { intros s. induction s as [|x s IH]; [done|]. cbn [Split]. pose proof (Split_nonempty c s).
    destruct (decide (x = c)) as [->|]; destruct (Split c s) as [|y l]; try done.
    - change (Join (String c "") ("" :: y :: l)) with (String c (Join (String c "") (y :: l))). by rewrite IH.
    - destruct l; cbn [Join] in *; by rewrite <-IH. }
  by rewrite !HJ in Ha.
Qed.

Lemma Itoa_inj x y : Itoa x = Itoa y -> x = y.
Proof. apply (inj pretty). Qed.

Lemma message_inj uri e uri' e' :
  uri +:+ "|" +:+ Itoa e = uri' +:+ "|" +:+ Itoa e' -> uri = uri' /\ e = e'.
Proof.
  intros H. apply (last_piece_inj "|"%char) in H as [-> H%Itoa_inj]; [done| |];
    (eapply all_chars_not_in; [|apply Itoa_chars]; done).
Qed.

(** A signature fits one place and one expiry, unless the HMAC collides. *)
Lemma signURI_binds hmac secret uri e uri' e' :
  signURI hmac secret uri e = signURI hmac secret uri' e' ->
  (uri = uri' /\ e = e') \/
  exists m m', m <> m' /\ hmac secret m = hmac secret m'.
Proof.
  unfold signURI. intros H%hex_encode_inj.
  destruct (decide (uri +:+ "|" +:+ Itoa e = uri' +:+ "|" +:+ Itoa e')) as [E|E].
  - left. by apply message_inj.
  - right. eauto.
Qed.
