(* ===== verification/Vault.v ===== *)
(** * The document vault: [internal/vault], the service

    Upload, listing, download, deletion, signed links, erasure of a data subject
    and the cleanup of content that no document uses ([documents.go],
    [signed_urls.go], [download_url.go], [erasure.go], [cleanup.go],
    [status.go]). The content lives in a store ([VaultStore]), the rows in
    [vault_documents]. Which documents the tables of other components refer to, so
    that their rows cannot be removed, is a parameter over the state of those
    components. *)

From S2P Require Import Prelude GoStrings Json EngineTypes Store AuditTrail EngineOps TaskForms CaseData CaseOps.
From S2P Require Import GoText Effects GoPath Site VaultStore.

Record UploadInput : Type := mkUploadInput {
  upCaseID : uuid;
  upFilename : string;
  upMimeType : string;
  upData : string;
  upMetadata : option object;
  upStepID : string;
  upUploadedBy : uuid
}.

Record Document : Type := mkDocument {
  docID : uuid;
  docCaseID : uuid;
  docStepID : string;
  docFilename : string;
  docMimeType : string;
  docSizeBytes : Z;
  docContentHash : string;
  docUploadedBy : uuid;
  docUploadedAt : Z;
  docMetadata : json;
  docDisplayMode : string
}.

Record ErasureRequest : Type := mkErasureRequest { erCaseID : option uuid; erDataSubjectEmail : string }.
Record SignedDocumentURL : Type := mkSignedDocumentURL { sdURL : string; sdExpiresAt : Z }.

(** The columns of a row as the queries return them. *)
Definition document_of (kv : uuid * DocumentRow) : Document :=
  mkDocument kv.1 (default uuid_Nil (dCase kv.2)) (default "" (dStep kv.2)) (dFilename kv.2) (dMimeType kv.2)
    (dSizeBytes kv.2) (dContentHash kv.2) (dUploadedBy kv.2) (dUploadedAt kv.2) (coalesce_obj (dMetadata kv.2))
    (DisplayModeForMime (dMimeType kv.2)).

(** ** Statements *)

Definition live (r : DocumentRow) : bool := bool_decide (dDeletedAt r = None).

(** [WHERE tenant_id = $1 AND content_hash = $2 LIMIT 1]: deleted rows count. *)
Definition same_content (tenantID : uuid) (hash : string) (r : DocumentRow) : bool :=
  bool_decide (dTenant r = tenantID) && bool_decide (dContentHash r = hash).
Definition stored_uri (tenantID : uuid) (hash : string) (d : DB) : option string :=
  head (omap (fun kv : uuid * DocumentRow =>
    if same_content tenantID hash kv.2 then Some (dStorageURI kv.2) else None)
    (map_to_list (vault_documents d))).

(** [INSERT INTO vault_documents]: the primary key and the references. *)
Definition insert_document (id : uuid) (row : DocumentRow) (d : DB) : result goerr ((uuid * DocumentRow) * DB) :=
  if decide (is_Some (vault_documents d !! id)) then Err unique_error
  else if (match dCase row with Some c => bool_decide (cases d !! c = None) | None => false end) then Err fk_error
  else if decide (principals d !! dUploadedBy row = None) then Err fk_error
  else Ok ((id, row), set_documents <[id := row]> d).

Definition of_case (tenantID caseID : uuid) (r : DocumentRow) : bool :=
  bool_decide (dTenant r = tenantID) && bool_decide (dCase r = Some caseID) && live r.

Definition deleted_row (now : Z) (r : DocumentRow) : DocumentRow :=
  mkDocumentRow (dTenant r) (dCase r) (dStep r) (dFilename r) (dMimeType r) (dSizeBytes r) (dContentHash r)
    (dStorageURI r) (dUploadedBy r) (dUploadedAt r) (Some now) (dMetadata r).

(** [UPDATE vault_documents SET deleted_at = now() WHERE ... RETURNING] *)
Definition delete_document (tenantID caseID docID : uuid) (now : Z) (d : DB)
  : result goerr ((string * string) * DB) :=
  match vault_documents d !! docID with
  | Some r =>
      if of_case tenantID caseID r
      then Ok ((default "" (dStep r), dFilename r), set_documents <[docID := deleted_row now r]> d)
      else Err ErrNoRows
  | None => Err ErrNoRows
  end.

Definition delete_documents_of (tenantID caseID : uuid) (now : Z) (d : DB) : DB :=
  set_documents (fmap (fun r => if of_case tenantID caseID r then deleted_row now r else r)) d.

(** [UPDATE case_steps SET events = '[]'] *)
Definition no_events (r : StepRow) : StepRow :=
  mkStepRow (sID r) (sState r) (sStartedAt r) (sCompletedAt r) (sResult r) (JArr []) (sError r)
    (sAssignedTo r) (sSlaDeadline r) (sRetryCount r) (sDraftData r) (sMetadata r).

(** Deleted content no live document of the tenant has. *)
Definition orphans (tenantID : uuid) (d : DB) : list (string * string) :=
  let rows := map snd (map_to_list (vault_documents d)) in
  remove_dups (omap (fun r =>
    if bool_decide (dTenant r = tenantID) && negb (live r) &&
       negb (existsb (fun r' => same_content tenantID (dContentHash r) r' && live r') rows)
    then Some (dContentHash r, dStorageURI r) else None) rows).

Definition delete_rows (tenantID : uuid) (hash : string) (d : DB) : DB :=
  set_documents (filter (fun kv : uuid * DocumentRow =>
    same_content tenantID hash kv.2 && negb (live kv.2) = false)) d.

(** The statement fails when a row it would remove is one that [knowledge_documents]
    or [extraction_jobs] refer to. *)
Definition delete_orphan_rows (referenced : uuid -> bool) (tenantID : uuid) (hash : string) (d : DB) : result goerr DB :=
  if existsb (fun kv : uuid * DocumentRow => same_content tenantID hash kv.2 && negb (live kv.2) && referenced kv.1)
       (map_to_list (vault_documents d))
  then Err fk_error else Ok (delete_rows tenantID hash d).

Definition deleted_tenants (d : DB) : list uuid :=
  remove_dups (omap (fun kv : uuid * DocumentRow => if live kv.2 then None else Some (dTenant kv.2))
    (map_to_list (vault_documents d))).

(** Cases whose creator has the address. *)
Definition cases_of_email (tenantID : uuid) (email : string) (d : DB) : list uuid :=
  omap (fun kv : uuid * CaseRow =>
    match principals d !! cCreatedBy kv.2 with
    | Some p => if decide (cTenant kv.2 = tenantID /\ ToLower (default "" (pEmail p)) = ToLower email)
                then Some kv.1 else None
    | None => None
    end) (map_to_list (cases d)).

Section Vault.
Context `{R : Runtime} {X : Type}.
Context (hmac_sha256 : string -> string -> string) (TypeByExtension : string -> string)
  (QueryEscape : string -> string) (systemActorID : uuid).
Context `{VS : !VaultStore X}.

Definition ContentHash (data : string) : string := sha256_hex data.

(** ** Upload *)

Definition upload_event (docID : uuid) (filename hash : string) (size : Z) : json :=
  JObj (mk_obj [("document_id", JStr (uuid_string docID)); ("filename", JStr filename);
                ("size_bytes", JInt size); ("content_hash", JStr hash)]).
Definition document_event (docID : uuid) (filename : string) : json :=
  JObj (mk_obj [("document_id", JStr (uuid_string docID)); ("filename", JStr filename)]).

Definition new_row (tenantID : uuid) (mime uri : string) (i : UploadInput) (now : Z) : DocumentRow :=
  mkDocumentRow tenantID (Some (upCaseID i)) (if decide (upStepID i = "") then None else Some (upStepID i))
    (upFilename i) mime (Z.of_nat (String.length (upData i))) (ContentHash (upData i)) uri (upUploadedBy i) now
    None (Some (marshal_map (upMetadata i))).

Definition upload_tx (tenantID : uuid) (mime : string) (i : UploadInput) : Svc (Site X) Document :=
  let hash := ContentHash (upData i) in
  let ext := TrimPrefix (Ext (upFilename i)) "." in
  with_txS (Wrapf "begin upload tx: %w" []) (
    found ← tryS (liftM (query_row (fun _ d => stored_uri tenantID hash d)));
    let known := match found with Ok u => u | Err _ => "" end in
    uri ← (if decide (known = "") then store_Put (uuid_string tenantID) hash ext (upData i) else mret known);
    row ← wrapS (Wrapf "insert vault metadata row: %w" [])
      (liftM (sql (fun k now d => insert_document (gen_random_uuid k) (new_row tenantID mime uri i now) d)));
    _ ← liftM (RecordCaseEventTx (upCaseID i) (upStepID i) "document" (upUploadedBy i) "human" "uploaded"
                 (upload_event row.1 (upFilename i) hash (dSizeBytes row.2)));
    _ ← wrapS (Wrapf "commit upload tx: %w" []) (liftM commit_tx);
    mret (document_of row)).

Definition Upload (tenantID : uuid) (i : UploadInput) : Svc (Site X) Document :=
  if decide (upCaseID i = uuid_Nil) then fail (Errorf "case id is required" [])
  else if decide (upData i = "") then fail (Errorf "document data is empty" [])
  else if decide (TrimSpace (upFilename i) = "") then fail (Errorf "filename is required" [])
  else
    let mime := if decide (TrimSpace (upMimeType i) = "") then detectMime TypeByExtension (upFilename i)
                else upMimeType i in
    exists_ ← wrapS (Wrapf "verify case for document upload: %w" [])
      (liftM (query (fun _ d => in_tenant tenantID (upCaseID i) d)));
    if negb exists_ then fail ErrNoRows else upload_tx tenantID mime i.

(** ** Reading *)

Definition List_documents (tenantID caseID : uuid) : Svc (Site X) (list Document) :=
  wrapS (Wrapf "list documents: %w" [])
    (liftM (query (fun _ d => map document_of (merge_sort uploaded_ge
      (filter (fun kv : uuid * DocumentRow => of_case tenantID caseID kv.2 = true)
         (map_to_list (vault_documents d))))))).

Definition getDocumentRecord (tenantID caseID docID : uuid) : Svc (Site X) (Document * string) :=
  wrapS (fun e => if errors_is e ErrNoRows then ErrNoRows else Wrapf "load document row: %w" [] e)
    (liftM (query_row (fun _ d =>
       match vault_documents d !! docID with
       | Some r => if of_case tenantID caseID r then Some (document_of (docID, r), dStorageURI r) else None
       | None => None
       end))).

Definition recordDownloadAudit (caseID : uuid) (stepID : string) (actorID docID : uuid) (filename : string)
  : Svc (Site X) unit :=
  with_txS (Wrapf "begin download audit tx: %w" []) (
    _ ← liftM (RecordCaseEventTx caseID stepID "document" actorID "human" "downloaded"
                 (document_event docID filename));
    wrapS (Wrapf "commit download audit tx: %w" []) (liftM commit_tx)).

Definition Download (tenantID caseID docID actorID : uuid) : Svc (Site X) (Document * string) :=
  rec ← getDocumentRecord tenantID caseID docID;
  blob ← wrapS (fun e => if errors_is e fs_ErrNotExist then ErrNoRows else e) (store_Get rec.2);
  _ ← recordDownloadAudit caseID (docStepID rec.1) actorID docID (docFilename rec.1);
  mret (rec.1, blob).

(** ** Deletion *)

Definition Delete (tenantID caseID docID actorID : uuid) : Svc (Site X) unit :=
  with_txS (Wrapf "begin delete document tx: %w" []) (
    row ← wrapS (fun e => if errors_is e ErrNoRows then ErrNoRows else Wrapf "logical delete document: %w" [] e)
      (liftM (sql (fun _ now d => delete_document tenantID caseID docID now d)));
    _ ← liftM (RecordCaseEventTx caseID row.1 "document" actorID "human" "deleted" (document_event docID row.2));
    wrapS (Wrapf "commit delete document tx: %w" []) (liftM commit_tx)).

(** ** Signed links *)

(** The value after the last [exp=] of a query. *)
Definition exp_value (query : string) : string :=
  foldl (fun acc kv => if HasPrefix kv "exp=" then TrimPrefix kv "exp=" else acc) "" (Split "&"%char query).

Definition is_http (s : string) : bool :=
  HasPrefix (ToLower (TrimSpace s)) "http://" || HasPrefix (ToLower (TrimSpace s)) "https://".

Definition SignedURL (tenantID caseID docID : uuid) (expirySeconds : Z) : Svc (Site X) SignedDocumentURL :=
  rec ← getDocumentRecord tenantID caseID docID;
  signedPath ← store_SignedURL rec.2 expirySeconds;
  if is_http signedPath then
    t ← nowS;
    t' ← (if (0 <? expirySeconds)%Z
          then now ← nowS; mret (now + wrap64 (expirySeconds * Second))%Z else mret (t + 15 * Minute)%Z);
    mret (mkSignedDocumentURL signedPath t')
  else
    match Cut "?"%char signedPath with
    | None => fail (Errorf "invalid signed url output" [])
    | Some (path, query) =>
        let expUnix := default 0%Z (Atoi (exp_value query)) in
        mret (mkSignedDocumentURL
          ("/vault/signed/" +:+ uuid_string docID +:+ "?case_id=" +:+ uuid_string caseID +:+ "&uri=" +:+
           QueryEscape path +:+ "&" +:+ query) (expUnix * Second))
    end.

Definition DownloadURL (tenantID docID : uuid) (expirySeconds : Z) : Svc (Site X) SignedDocumentURL :=
  caseID ← wrapS (fun e => if errors_is e ErrNoRows then ErrNoRows else Wrapf "load case for document: %w" [] e)
    (liftM (query_row (fun _ d =>
       match vault_documents d !! docID with
       | Some r => if bool_decide (dTenant r = tenantID) && live r then Some (default uuid_Nil (dCase r)) else None
       | None => None
       end)));
  SignedURL tenantID caseID docID expirySeconds.

Definition DownloadFromSignedURL (docID caseID : uuid) (uri expiry signature : string)
  : Svc (Site X) (Document * string) :=
  match as_local with
  | None => fail (Errorf "signed url validation is unavailable for configured vault store" [])
  | Some lv =>
      _ ← VerifySignedURL hmac_sha256 lv uri expiry signature;
      rec ← wrapS (fun e => if errors_is e ErrNoRows then ErrNoRows
                            else Wrapf "load document for signed download: %w" [] e)
        (liftM (query_row (fun _ d =>
           match vault_documents d !! docID with
           | Some r => if bool_decide (dCase r = Some caseID) && live r
                       then Some (document_of (docID, r), dTenant r) else None
           | None => None
           end)));
      if negb (HasPrefix uri (uuid_string rec.2 +:+ "/")) then fail (Errorf "signed url tenant mismatch" [])
      else
        blob ← store_Get uri;
        _ ← recordDownloadAudit (docCaseID rec.1) (docStepID rec.1) systemActorID (Vault.docID rec.1)
              (docFilename rec.1);
        mret (rec.1, blob)
  end.

(** ** Cleanup *)

(** The documents that the rows of other components refer to. *)
Context (referenced : X -> uuid -> bool).

(** The body of the loop over the orphans: the content first, then the rows. *)
Definition clean_orphan (tenantID : uuid) (acc : Z * Z) (o : string * string) : Svc (Site X) (Z * Z) :=
  data ← tryS (store_Get o.2);
  let bytes := match data with Ok d => (acc.2 + Z.of_nat (String.length d))%Z | Err _ => acc.2 end in
  _ ← ignoreS (store_Delete o.2);
  others ← reads own;
  _ ← wrapS (Wrapf "delete orphan metadata rows: %w" [])
    (liftM (sql (fun _ _ d => d' ← delete_orphan_rows (referenced others) tenantID o.1 d; Ok (tt, d'))));
  mret ((acc.1 + 1)%Z, bytes).

Definition OrphanCleanup (tenantID : uuid) : Svc (Site X) (Z * Z) :=
  found ← wrapS (Wrapf "query orphan documents: %w" []) (liftM (query (fun _ d => orphans tenantID d)));
  foldS (clean_orphan tenantID) found (0, 0)%Z.

Definition listTenantsWithDeletedDocuments : Svc (Site X) (list uuid) :=
  wrapS (Wrapf "query tenants with deleted vault docs: %w" []) (liftM (query (fun _ d => deleted_tenants d))).

Definition orphanCleanupAllTenants : Svc (Site X) (Z * Z) :=
  tenantIDs ← listTenantsWithDeletedDocuments;
  foldS (fun acc tid => r ← OrphanCleanup tid; mret (acc.1 + r.1, acc.2 + r.2)%Z) tenantIDs (0, 0)%Z.

(** ** Erasure *)

Definition resolveErasureCases (tenantID : uuid) (req : ErasureRequest) : Svc (Site X) (list uuid) :=
  match (match erCaseID req with Some c => if decide (c = uuid_Nil) then None else Some c | None => None end) with
  | Some c =>
      exists_ ← wrapS (Wrapf "resolve erasure case by id: %w" [])
        (liftM (query (fun _ d => in_tenant tenantID c d)));
      if negb exists_ then fail ErrNoRows else mret [c]
  | None =>
      if decide (TrimSpace (erDataSubjectEmail req) = "")
      then fail (Errorf "case_id or data_subject_email is required" [])
      else wrapS (Wrapf "resolve erasure cases by data subject: %w" [])
        (liftM (query (fun _ d => cases_of_email tenantID (erDataSubjectEmail req) d)))
  end.

Definition erasure_event (caseID : uuid) (email : string) : json :=
  JObj (mk_obj [("case_id", JStr (uuid_string caseID)); ("data_subject_email", JStr email)]).

Definition erase_case (tenantID actorID : uuid) (email : string) (caseID : uuid) : M unit :=
  _ ← wrapM (Wrapf "logical delete documents for erasure: %w" [])
    (update (fun _ now d => (0%nat, delete_documents_of tenantID caseID now d)));
  _ ← wrapM (Wrapf "purge case step events for erasure: %w" [])
    (update (fun _ _ d => (0%nat, update_steps_of caseID (fun _ => true) no_events d)));
  RecordCaseEventTx caseID "" "system" actorID "human" "erasure_completed" (erasure_event caseID email).

Definition Erase (tenantID : uuid) (req : ErasureRequest) (actorID : uuid) : Svc (Site X) unit :=
  caseIDs ← resolveErasureCases tenantID req;
  if decide (caseIDs = []) then fail ErrNoRows
  else
    _ ← liftM (with_tx (Wrapf "begin erasure tx: %w" []) (
          _ ← mapM_ (erase_case tenantID actorID (erDataSubjectEmail req)) caseIDs;
          wrapM (Wrapf "commit erasure tx: %w" []) commit_tx));
    forS (fun _ => ignoreS (OrphanCleanup tenantID)) caseIDs.

(** ** Status: the number of live documents and their size *)

Definition Status : Svc (Site X) (Z * Z) :=
  wrapS (Wrapf "load vault status counters: %w" [])
    (liftM (query (fun _ d =>
       let rows := filter (fun r => live r = true) (map snd (map_to_list (vault_documents d))) in
       (Z.of_nat (length rows), foldr Z.add 0%Z (map dSizeBytes rows))))).

End Vault.
