(* ===== verification/VaultProps.v ===== *)
(** * The content of the documents is there

    [vault_ok]: every row of [vault_documents], deleted or not, committed or in
    the open transaction, names a place whose file holds content with its hash, or
    its content is one of those that are lost. Each operation of the service keeps
    it; the cleanup, which removes the file before the rows, loses content that only
    deleted rows have when these rows stay, because their [DELETE] fails. *)

From S2P Require Import Prelude GoStrings Json EngineTypes Store AuditTrail EngineOps TaskForms.
From S2P Require Import CaseData CaseOps GoText Effects GoPath Site VaultStore Vault.

Section Kept.
Context `{R : Runtime} {X : Type} (lv : LocalVaultStore).
(** The content, by tenant and hash, that may be gone. *)
Implicit Types L : uuid -> string -> Prop.

(** Where content with hash [h] of a tenant is put. *)
Definition place (t : uuid) (h uri : string) : Prop :=
  exists y m e, safePathSegmentPattern (uuid_string t) = true /\ sha256HexPattern h = true /\
    safePathSegmentPattern e = true /\ uri = vault_uri (uuid_string t) y m h e.

Definition placed L (t : uuid) (h uri : string) (fs : gmap string string) : Prop :=
  place t h uri /\ exists full, resolvePath lv uri = Ok full /\ (is_Some (fs !! full) \/ L t h).

Definition stored L (d : DB) (fs : gmap string string) : Prop :=
  forall id r, vault_documents d !! id = Some r ->
    uuid_ok (dTenant r) /\ placed L (dTenant r) (dContentHash r) (dStorageURI r) fs.

Definition good_files (fs : gmap string string) : Prop :=
  forall t h uri full data, place t h uri -> resolvePath lv uri = Ok full -> fs !! full = Some data ->
    sha256_hex data = h.

Definition vault_ok L (s : Site X) : Prop :=
  good_files (files s) /\ stored L (db (world s)) (files s) /\
  (forall d, saved (world s) = Some d -> stored L d (files s)).

Lemma place_same t h uri t' h' uri' full :
  uuid_ok t -> uuid_ok t' -> place t h uri -> place t' h' uri' ->
  resolvePath lv uri = Ok full -> resolvePath lv uri' = Ok full -> t = t' /\ h = h'.
Proof.
  intros Hu Hu' (y & m & e & Ht & Hh & He & ->) (y' & m' & e' & Ht' & Hh' & He' & ->) H1 H2.
  destruct (same_file lv (uuid_string t) y m h e (uuid_string t') y' m' h' e' full) as [Hs ->]; try done.
  split; [|done]. by apply uuid_string_inj.
Qed.

Lemma place_hash t h uri t' h' uri' full :
  place t h uri -> place t' h' uri' -> resolvePath lv uri = Ok full -> resolvePath lv uri' = Ok full -> h = h'.
Proof.
  intros (y & m & e & Ht & Hh & He & ->) (y' & m' & e' & Ht' & Hh' & He' & ->) H1 H2.
  by destruct (same_file lv (uuid_string t) y m h e (uuid_string t') y' m' h' e' full) as [Hs ->].
Qed.

(** Adding the content of a place. *)
Lemma placed_insert L t h uri fs full data : placed L t h uri fs -> placed L t h uri (<[full := data]> fs).
Proof.
  intros (Hp & f & Hf & Hd). split; [done|]. exists f. split; [done|]. destruct Hd as [Hd|Hd]; [left|by right].
  destruct (decide (f = full)) as [->|Hne]; [rewrite lookup_insert_eq; eauto|by rewrite lookup_insert_ne].
Qed.

Lemma stored_insert L d fs full data : stored L d fs -> stored L d (<[full := data]> fs).
Proof. intros H id r Hr. destruct (H id r Hr) as [Hu Hp]. split; [done|]. by apply placed_insert. Qed.

(** More content may be gone. *)
Lemma stored_mono L L' d fs : (forall t h, L t h -> L' t h) -> stored L d fs -> stored L' d fs.
Proof.
  intros HL H id r Hr. destruct (H id r Hr) as (Hu & Hp & full & Hf & Hd). split; [done|]. split; [done|].
  exists full. split; [done|]. destruct Hd; [by left|right; by apply HL].
Qed.
Lemma vault_ok_mono L L' s : (forall t h, L t h -> L' t h) -> vault_ok L s -> vault_ok L' s.
Proof.
  intros HL (Hg & Hs & Hv). split; [done|]. split; [by eapply stored_mono|].
  intros d Hd. eapply stored_mono; [done|by apply Hv].
Qed.

Lemma good_files_insert t uri fs full data :
  good_files fs -> place t (sha256_hex data) uri -> resolvePath lv uri = Ok full ->
  good_files (<[full := data]> fs).
Proof.
  intros Hg Hp Hf t' h' uri' full' data' Hp' Hf' Hd'. destruct (decide (full' = full)) as [->|Hne].
  - rewrite lookup_insert_eq in Hd'. injection Hd' as <-. by eapply (place_hash t _ uri).
  - rewrite lookup_insert_ne in Hd' by done. by eapply Hg.
Qed.

Lemma ok_insert L s t uri full data :
  vault_ok L s -> place t (sha256_hex data) uri -> resolvePath lv uri = Ok full ->
  vault_ok L (set_files (<[full := data]>) s).
Proof.
  intros (Hg & Hs & Hv) Hp Hf. split_and!; simpl.
  - by eapply good_files_insert.
  - by apply stored_insert.
  - intros d Hd. apply stored_insert. by apply Hv.
Qed.

(** ** Programs of the database that leave the documents alone *)

(** Every row of [d'] has the tenant, the content and the place of a row of [d]. *)
Definition docs_from (d d' : DB) : Prop :=
  forall id r', vault_documents d' !! id = Some r' ->
  exists id0 r, vault_documents d !! id0 = Some r /\ dTenant r = dTenant r' /\
    dContentHash r = dContentHash r' /\ dStorageURI r = dStorageURI r'.
#[export] Instance docs_from_preorder : PreOrder docs_from.
Proof.
  split.
  - intros d id r Hr. by exists id, r.
  - intros a b c H1 H2 id r Hr. destruct (H2 id r Hr) as (id1 & r1 & Hr1 & E1 & E2 & E3).
    destruct (H1 id1 r1 Hr1) as (id0 & r0 & Hr0 & F1 & F2 & F3). exists id0, r0. split_and!; congruence.
Qed.

Lemma docs_from_same d d' : vault_documents d' = vault_documents d -> docs_from d d'.
Proof. intros E id r. rewrite E. intros Hr. by exists id, r. Qed.

Lemma docs_from_stored L d d' fs : docs_from d d' -> stored L d fs -> stored L d' fs.
Proof.
  intros H Hs id r' Hr'. destruct (H id r' Hr') as (id0 & r & Hr & <- & <- & <-). by apply (Hs id0).
Qed.

Lemma ok_lift {A} L (m : M A) (w : Sys (Site X)) :
  keeps docs_from m -> vault_ok L (st w) -> vault_ok L (st (liftM m w).2) /\ files (st (liftM m w).2) = files (st w).
Proof.
  intros Hm (Hg & Hs & Hv). unfold liftM. specialize (Hm (at_tick (ticks w) (world (st w)))).
  destruct (m _) as [r w1]. simpl in *. destruct Hm as [Hsv Hdb]. simpl in Hsv, Hdb.
  split; [|done]. split_and!; simpl; [done| |].
  - destruct Hdb as [E|(s & Hs0 & E)]; [by eapply docs_from_stored|].
    eapply docs_from_stored; [exact E|]. by apply Hv.
  - intros d Hd. destruct Hsv as [E|E]; [|congruence]. apply Hv. congruence.
Qed.

Lemma triple_lift {A} L (m : M A) (F : gmap string string -> Prop) :
  keeps docs_from m -> tripleS (vault_ok L) (fun s => F (files s)) (liftM m) (fun _ s => F (files s)).
Proof.
  intros Hm w Hi HF. destruct (ok_lift L m w Hm Hi) as [H1 H2].
  destruct (liftM m w) as [[a|e] w1]; simpl in *; [|done]. by rewrite H2.
Qed.

Lemma record_docs caseID stepID et actor aty act data :
  keeps docs_from (RecordCaseEventTx caseID stepID et actor aty act data).
Proof.
  apply RecordCaseEventTx_keeps; [exact _|]. intros d e _ _. by apply docs_from_same.
Qed.
End Kept.

Section Operations.
Context `{R : Runtime} {X : Type} (lv : LocalVaultStore).
Context (hmac_sha256 : string -> string -> string) (torn : nat -> string -> option string)
  (TypeByExtension : string -> string) (systemActorID : uuid).
Context (Hsha : forall s, sha256HexPattern (sha256_hex s) = true) (Htorn : forall k s, torn k s = None).

#[local] Instance LS : VaultStore X := local_store hmac_sha256 torn lv.

Context (L : uuid -> string -> Prop).
Local Abbreviation ok := (@vault_ok R X lv L).
Local Abbreviation any := (fun _ : Site X => True).
Local Abbreviation preserves m := (tripleS ok any m (fun _ _ => True)).

Lemma put_places t ext data :
  tripleS ok any (LocalPut torn lv (uuid_string t) (sha256_hex data) ext data)
    (fun uri s => placed lv L t (sha256_hex data) uri (files s)).
Proof.
  unfold LocalPut. rewrite TrimSpace_uuid, hash_fixed by apply Hsha. cbv zeta.
  destruct (safePathSegmentPattern (uuid_string t)) eqn:Et; [|apply triple_fail].
  rewrite Hsha. cbn [negb]. eapply triple_bind; [apply triple_now|]. intros now. cbn beta.
  set (uri := vault_uri _ _ _ _ _).
  assert (place t (sha256_hex data) uri) as Hp.
  { exists (Year now), (Month now), (normalizeExt ext). split_and!; try done. apply normalizeExt_segment. }
  eapply triple_bind.
  { apply triple_wrap, (triple_pure _ _ _ (fun full _ => resolvePath lv uri = Ok full)). done. }
  intros full. cbn beta.
  eapply (triple_bind _ _ _ _ (fun _ _ => resolvePath lv uri = Ok full)).
  { apply triple_wrap. intros w Hi Hf. unfold os_MkdirAll, exec. destruct (fault _); done. }
  intros _. eapply (triple_bind _ _ _ _ (fun b s => resolvePath lv uri = Ok full /\
                    (b = true -> is_Some (files s !! full)))).
  { apply triple_wrap. intros w Hi Hf. unfold os_Stat, exec. destruct (fault _); [done|]. simpl.
    split_and!; try done. intros Hb%bool_decide_eq_true. done. }
  intros [|].
  { apply triple_ret. intros s Hi [Hf Hb]. split; [done|]. destruct Hb as [d Hd]; [done|]. exists full. split; [done|]. left. by exists d. }
  eapply (triple_bind _ _ _ _ (fun _ s => resolvePath lv uri = Ok full /\ is_Some (files s !! full))).
  { apply triple_wrap. intros w Hi [Hf _]. unfold os_WriteFile. rewrite Htorn.
    destruct (fault _); [done|]. simpl. split; [by eapply ok_insert|]. split; [done|].
    exists data. apply lookup_insert_eq. }
  intros _. apply triple_ret. intros s Hi [Hf [d Hd]]. split; [done|]. exists full. split; [done|]. left. by exists d.
Qed.

Lemma with_txS_preserves {A} wrap (body : Svc (Site X) A) : preserves body -> preserves (with_txS wrap body).
Proof.
  intros Hb w (Hg & Hs & Hv) _. unfold with_txS, wrapS, liftM, begin_tx.
  destruct (fault _); [done|]. cbn [fst snd].
  set (w1 := mkSys _ _). assert (ok (st w1)) as Hok1.
  { split_and!; [done|done|]. intros d [= <-]. done. }
  specialize (Hb w1 Hok1 Logic.I). destruct (body w1) as [r w2].
  assert (ok (st w2)) as (Hg2 & Hs2 & Hv2) by (destruct r; tauto).
  assert (ok (st (rollbackS w2))) as Hok.
  { unfold rollbackS, rollback_tx. simpl. destruct (saved (world (st w2))) as [d|] eqn:E.
    - split_and!; simpl; [done|by apply Hv2|done].
    - split_and!; simpl; [done|done|]. intros d Hd. congruence. }
  destruct r; [by split|done].
Qed.

Lemma commit_preserves : preserves (liftM commit_tx).
Proof.
  eapply triple_conseq; [apply (triple_lift lv L commit_tx (fun _ => True))|done|done].
  apply keeps_commit, docs_from_preorder.
Qed.

Lemma lift_preserves {A} (m : M A) : keeps docs_from m -> preserves (liftM m).
Proof. intros Hm. eapply triple_conseq; [apply (triple_lift lv L m (fun _ => True) Hm)|done|done]. Qed.

(** A statement that adds a document whose content is in place. *)
Lemma insert_preserves t mime uri i :
  uuid_ok t ->
  tripleS ok (fun s => placed lv L t (sha256_hex (upData i)) uri (files s))
    (liftM (sql (fun k now d => insert_document (gen_random_uuid k) (new_row t mime uri i now) d)))
    (fun _ _ => True).
Proof.
  intros Hu w (Hg & Hs & Hv) Hp. unfold liftM, sql. destruct (fault _); [done|].
  destruct (insert_document _ _ _) as [[row d]|] eqn:E; [|done]. simpl. split; [|done].
  unfold insert_document in E. repeat (case_match; [done|]). injection E as <- <-.
  split_and!; simpl; [done| |done].
  intros id r Hr. simpl in Hr. apply lookup_insert_Some in Hr as [[<- <-]|[_ Hr]]; [|by apply (Hs id)].
  unfold new_row. simpl. done.
Qed.

Lemma stored_uri_Some t h d u :
  stored_uri t h d = Some u ->
  exists id r, vault_documents d !! id = Some r /\ dTenant r = t /\ dContentHash r = h /\ dStorageURI r = u.
Proof.
  unfold stored_uri. intros H%head_Some_elem_of. apply list_elem_of_omap in H as ([id r] & Hin & H).
  apply elem_of_map_to_list in Hin. unfold same_content in H.
  destruct (_ && _) eqn:E; [|done]. boolp. simpl in *. exists id, r. naive_solver.
Qed.

Lemma upload_preserves t mime i : uuid_ok t -> preserves (upload_tx t mime i).
Proof.
  intros Hu. unfold upload_tx. cbv zeta. apply with_txS_preserves.
  eapply (triple_bind _ _ _ _ (fun r s => match r with
            | Ok u => placed lv L t (sha256_hex (upData i)) u (files s) | Err _ => True end)).
  { intros w Hok _. pose proof (ok_lift lv L (query_row (fun _ d => stored_uri t (sha256_hex (upData i)) d)) w)
      as [Hok' Hfs]; [apply keeps_query_row, docs_from_preorder|done|].
    unfold tryS. destruct (liftM _ w) as [r w1] eqn:E. simpl in *. split; [done|]. destruct r as [u|]; [|done].
    rewrite Hfs. unfold liftM, query_row, sql in E. destruct (fault _); [done|].
    destruct (stored_uri _ _ _) as [u'|] eqn:Eu; [|done]. injection E as <- <-.
    apply stored_uri_Some in Eu as (id & row & Hrow & Ht & Hh & Hur).
    destruct Hok as (_ & Hs & _). rewrite <-Ht, <-Hh, <-Hur. by apply (Hs id). }
  intros found. eapply triple_bind.
  { instantiate (1 := fun uri s => placed lv L t (sha256_hex (upData i)) uri (files s)).
    destruct (decide _) as [E|E].
    - eapply triple_conseq; [apply put_places|done|done].
    - destruct found as [u|]; [|done]. by apply triple_ret. }
  intros uri. eapply triple_bind; [apply triple_wrap; by apply insert_preserves|]. intros row.
  eapply triple_bind; [apply lift_preserves, record_docs|]. intros ?.
  eapply triple_bind; [apply triple_wrap, commit_preserves|]. intros ?. by apply triple_ret.
Qed.

Lemma Upload_preserves t i : uuid_ok t -> preserves (Upload TypeByExtension t i).
Proof.
  intros Hu. unfold Upload. repeat (destruct (decide _); [apply triple_fail|]). cbv zeta.
  eapply triple_bind; [apply triple_wrap, lift_preserves, keeps_query, docs_from_preorder|]. intros b.
  destruct (negb b); [apply triple_fail|by apply upload_preserves].
Qed.

(** ** Deletion, download and erasure *)

Lemma delete_document_from t c id now d x d' : delete_document t c id now d = Ok (x, d') -> docs_from d d'.
Proof.
  unfold delete_document. destruct (vault_documents d !! id) as [r|] eqn:Er; [|done].
  destruct (of_case t c r); [|done]. intros [= _ <-] id' r' Hr'. simpl in Hr'.
  apply lookup_insert_Some in Hr' as [[<- <-]|[_ Hr']]; [by exists id, r|by exists id', r'].
Qed.

Lemma Delete_preserves t c id actor : preserves (Delete t c id actor).
Proof.
  unfold Delete. apply with_txS_preserves. eapply triple_bind.
  { apply triple_wrap, lift_preserves, keeps_sql; [exact _|]. intros ? ? ? ? ?. apply delete_document_from. }
  intros ?. eapply triple_bind; [apply lift_preserves, record_docs|]. intros ?. apply triple_wrap, commit_preserves.
Qed.

Lemma audit_preserves c sid actor id name : preserves (recordDownloadAudit c sid actor id name).
Proof.
  unfold recordDownloadAudit. apply with_txS_preserves.
  eapply triple_bind; [apply lift_preserves, record_docs|]. intros ?. apply triple_wrap, commit_preserves.
Qed.

Lemma get_content uri :
  tripleS ok (fun s => exists t h, placed lv L t h uri (files s)) (LocalGet lv uri)
    (fun data _ => forall t h, place t h uri -> sha256_hex data = h).
Proof.
  intros w (Hg & Hs & Hv) (t0 & h0 & _ & full & Hf & _). unfold LocalGet, os_ReadFile, exec, wrapS.
  unfold mbind, Svc_bind, pureS. rewrite Hf. destruct (fault _); [done|]. destruct (files (st w) !! full) as [d|] eqn:Hd; [|done].
  simpl. split; [done|]. intros t h Hp. by eapply Hg.
Qed.

(** A download hands out the content of its document. *)
Lemma Download_content t c id actor :
  tripleS ok any (Download t c id actor) (fun r _ => sha256_hex r.2 = docContentHash r.1).
Proof.
  unfold Download. eapply (triple_bind _ _ _ _ (fun r s => placed lv L t (docContentHash r.1) r.2 (files s))).
  { apply triple_wrap. intros w Hok _.
    match goal with |- context [liftM ?m w] => destruct (ok_lift lv L m w) as [Hok' Hfs] end;
      [apply keeps_query_row, docs_from_preorder|done|].
    destruct (liftM _ w) as [[r|e] w1] eqn:E; [|done]. simpl in *. split; [done|]. rewrite Hfs.
    unfold liftM, query_row, sql in E. destruct (fault _); [done|].
    simpl in E. destruct (vault_documents _ !! id) as [row|] eqn:Er; [|done].
    destruct (of_case t c row) eqn:Ec; [|done]. injection E as <- <-. simpl.
    unfold of_case in Ec. boolp. subst t. destruct Hok as (_ & Hs & _). by apply (Hs id). }
  intros rec. eapply (triple_bind _ _ _ _ (fun b _ => sha256_hex b = docContentHash rec.1)).
  { apply triple_wrap. intros w Hok Hp. assert (exists t h, placed lv L t h rec.2 (files (st w))) as Hex by (by exists t, (docContentHash rec.1)).
    pose proof (get_content rec.2 w Hok Hex) as H. simpl. destruct (LocalGet lv rec.2 w) as [[b|e] w1]; [|done].
    destruct H as [H1 H2]. split; [done|]. apply (H2 t). apply Hp. }
  intros blob. eapply (triple_bind _ _ _ _ (fun _ _ => sha256_hex blob = docContentHash rec.1)).
  - intros w Hok Hb. pose proof (audit_preserves c (docStepID rec.1) actor id (docFilename rec.1) w Hok Logic.I) as H.
    destruct (recordDownloadAudit _ _ _ _ _ w) as [[u|e] w1]; [|done]. split; [apply H|done].
  - intros ?. by apply triple_ret.
Qed.

Lemma erase_from t c now d : docs_from d (delete_documents_of t c now d).
Proof.
  intros id r' Hr'. simpl in Hr'. rewrite lookup_fmap in Hr'.
  destruct (vault_documents d !! id) as [r|] eqn:Er; [|done]. injection Hr' as <-.
  exists id, r. split; [done|]. by destruct (of_case t c r).
Qed.

Lemma erase_tx_from t actor email l :
  keeps docs_from (with_tx (Wrapf "begin erasure tx: %w" []) (
    _ ← mapM_ (erase_case t actor email) l; wrapM (Wrapf "commit erasure tx: %w" []) commit_tx)).
Proof.
  apply keeps_with_tx, keeps_bind; [exact _|exact _| |intros ?; apply keeps_wrapM, keeps_commit; exact _].
  apply keeps_mapM; [exact _|]. intros c _. unfold erase_case.
  apply keeps_bind; [exact _| |intros ?; apply keeps_bind; [exact _| |intros ?; apply record_docs]].
  - apply keeps_wrapM, keeps_update; [exact _|]. intros k now d. apply erase_from.
  - apply keeps_wrapM, keeps_update; [exact _|]. intros k now d. by apply docs_from_same.
Qed.

Lemma resolve_preserves t req : preserves (resolveErasureCases t req).
Proof.
  unfold resolveErasureCases. case_match.
  - eapply triple_bind; [apply triple_wrap, lift_preserves, keeps_query, docs_from_preorder|]. intros b.
    destruct (negb b); [apply triple_fail|by apply triple_ret].
  - destruct (decide _); [apply triple_fail|].
    apply triple_wrap, lift_preserves, keeps_query, docs_from_preorder.
Qed.

End Operations.

(** ** Cleanup *)

Section Cleanup.
Context `{R : Runtime} {X : Type} (lv : LocalVaultStore).
Context (hmac_sha256 : string -> string -> string) (torn : nat -> string -> option string) (referenced : X -> uuid -> bool).
#[local] Instance LSC : VaultStore X := local_store hmac_sha256 torn lv.
Implicit Types L : uuid -> string -> Prop.

Definition no_live (t : uuid) (h : string) (d : DB) : Prop :=
  forall id r, vault_documents d !! id = Some r -> same_content t h r = true -> live r = false.

(** What is lost already, and what only deleted rows have. *)
Definition or_unused L (s : Site X) (t : uuid) (h : string) : Prop := L t h \/ no_live t h (db (world s)).

Definition orphaned (o : string * string) (t : uuid) (d : DB) : Prop :=
  uuid_ok t /\ place t o.1 o.2 /\ (exists full, resolvePath lv o.2 = Ok full) /\ no_live t o.1 d.

(** The invariant of a cleanup: no transaction is open, and content is only missing
    when it was lost before or no live row has it. *)
Definition cleaning L (s : Site X) : Prop := vault_ok lv (or_unused L s) s /\ saved (world s) = None.

Definition fewer_rows (s s' : Site X) : Prop :=
  forall id r, vault_documents (db (world s')) !! id = Some r -> vault_documents (db (world s)) !! id = Some r.

Lemma no_live_fewer (s s' : Site X) t h : fewer_rows s s' -> no_live t h (db (world s)) -> no_live t h (db (world s')).
Proof. intros Hf Hn id r Hr. by apply (Hn id), Hf. Qed.
Lemma or_unused_fewer L (s s' : Site X) t h : fewer_rows s s' -> or_unused L s t h -> or_unused L s' t h.
Proof. intros Hf [H|H]; [by left|right; by eapply no_live_fewer]. Qed.

Lemma same_content_self r : same_content (dTenant r) (dContentHash r) r = true.
Proof. unfold same_content. by rewrite !bool_decide_eq_true_2. Qed.

Lemma LocalGet_state uri (w : Sys (Site X)) : st (LocalGet lv uri w).2 = st w.
Proof.
  unfold LocalGet, mbind, Svc_bind, pureS. destruct (resolvePath lv uri) as [full|]; [|done].
  rewrite wrapS_state. unfold os_ReadFile, exec. destruct (fault _); [done|]. by destruct (files (st w) !! full).
Qed.

(** The file is removed, or nothing happens. *)
Lemma LocalDelete_state uri full (w : Sys (Site X)) :
  resolvePath lv uri = Ok full ->
  st (LocalDelete lv uri w).2 = st w \/ st (LocalDelete lv uri w).2 = set_files (delete full) (st w).
Proof.
  intros Hf. unfold LocalDelete, mbind, Svc_bind, pureS. rewrite Hf. unfold tryS, os_Remove, exec.
  destruct (fault _) as [e|]; [left; by repeat case_match|].
  destruct (files (st w) !! full) as [d|] eqn:E; [by right|left]. cbn [snd fst st mret Svc_ret].
  by repeat case_match.
Qed.

Lemma delete_rows_sub t h d id r :
  vault_documents (delete_rows t h d) !! id = Some r <->
  vault_documents d !! id = Some r /\ (same_content t h r = true -> live r = true).
Proof.
  unfold delete_rows. simpl. rewrite map_lookup_filter_Some. simpl.
  destruct (same_content t h r), (live r); simpl; naive_solver.
Qed.

(** Removing the file of an orphan. *)
Lemma cleaning_delete L (s : Site X) t o full :
  cleaning L s -> orphaned o t (db (world s)) -> resolvePath lv o.2 = Ok full -> cleaning L (set_files (delete full) s).
Proof.
  intros ((Hg & Hs & _) & Hsv) (Hu & Hp & _ & Hn) Hf. split; [|done]. split_and!.
  - intros t' h' u' f' d' Hp' Hf' Hd'. simpl in Hd'. apply lookup_delete_Some in Hd' as [_ Hd']. by eapply Hg.
  - intros id r Hr. simpl in Hr. destruct (Hs id r Hr) as (Hur & Hpr & full' & Hf' & Hd'). split; [done|]. split; [done|].
    exists full'. split; [done|]. simpl. destruct Hd' as [Hd'|Hd']; [|by right].
    destruct (decide (full' = full)) as [->|Hne]; [|left; by rewrite lookup_delete_ne].
    right. right. destruct (place_same lv t o.1 o.2 (dTenant r) (dContentHash r) (dStorageURI r) full) as [<- <-]; done.
  - intros d Hd. simpl in Hd. congruence.
Qed.

(** Rows may go while the files stay. *)
Lemma cleaning_fewer L (s s' : Site X) :
  cleaning L s -> files s' = files s -> fewer_rows s s' -> saved (world s') = None -> cleaning L s'.
Proof.
  intros ((Hg & Hs & _) & _) Hfs Hfew Hsv. split; [|done]. split; [by rewrite Hfs|]. split; [|intros d Hd; congruence].
  intros id r Hr. destruct (Hs id r (Hfew id r Hr)) as (Hu & Hp & full & Hf & Hd). split; [done|]. split; [done|].
  exists full. split; [done|]. rewrite Hfs. destruct Hd as [Hd|Hd]; [by left|right; by eapply or_unused_fewer].
Qed.

Lemma fewer_rows_refl (s s' : Site X) : vault_documents (db (world s')) = vault_documents (db (world s)) -> fewer_rows s s'.
Proof. intros E id r. by rewrite E. Qed.
Lemma fewer_rows_trans (s1 s2 s3 : Site X) : fewer_rows s1 s2 -> fewer_rows s2 s3 -> fewer_rows s1 s3.
Proof. intros H1 H2 id r Hr. by apply H1, H2. Qed.
Lemma orphaned_fewer (s s' : Site X) o t : fewer_rows s s' -> orphaned o t (db (world s)) -> orphaned o t (db (world s')).
Proof. intros Hf (Hu & Hp & Hr & Hn). split_and!; [done..|]. by eapply no_live_fewer. Qed.

(** Whatever fails on the way. *)
Lemma clean_orphan_step L t acc o (w : Sys (Site X)) :
  cleaning L (st w) -> orphaned o t (db (world (st w))) ->
  cleaning L (st (clean_orphan referenced t acc o w).2) /\ fewer_rows (st w) (st (clean_orphan referenced t acc o w).2).
Proof.
  intros Hc Ho. pose (P := fun s => cleaning L s /\ fewer_rows (st w) s). change (P (st (clean_orphan referenced t acc o w).2)).
  unfold clean_orphan, mbind, Svc_bind. unfold tryS at 1. pose proof (LocalGet_state o.2 w) as Hget.
  cbn [store_Get store_Delete LSC local_store]. destruct (LocalGet lv o.2 w) as [r w1]. cbn [snd] in Hget. unfold ignoreS at 1.
  destruct Ho as (Hu & Hp & [full Hf] & Hn). pose proof (LocalDelete_state o.2 full w1 Hf) as Hdel.
  destruct (LocalDelete lv o.2 w1) as [r2 w2]. cbn [snd] in Hdel. rewrite Hget in Hdel.
  assert (cleaning L (st w2) /\ fewer_rows (st w) (st w2)) as [Hc2 Hf2].
  { destruct Hdel as [->| ->]; [split; [done|by apply fewer_rows_refl]|].
    split; [eapply cleaning_delete; [done|split_and!; try done; by exists full|done]|].
    by apply fewer_rows_refl. }
  cbn [snd]. unfold reads, wrapS, liftM, sql.
  assert (forall w' : World, vault_documents (db w') = vault_documents (db (world (st w2))) \/
            vault_documents (db w') = vault_documents (delete_rows t o.1 (db (world (st w2)))) ->
            saved w' = saved (world (st w2)) ->
            P (set_world w' (st w2))) as Hlast.
  { intros w' Hd Hsv. subst P. cbv beta. assert (fewer_rows (st w2) (set_world w' (st w2))) as Hfew.
    { intros id row Hrow. simpl in Hrow. destruct Hd as [Hd|Hd]; rewrite Hd in Hrow; [done|].
      by apply delete_rows_sub in Hrow as [Hrow _]. }
    split; [|by eapply fewer_rows_trans]. eapply cleaning_fewer; [exact Hc2|done|done|]. simpl. rewrite Hsv. apply Hc2. }
  unfold delete_orphan_rows.
  destruct (fault _); [|destruct (existsb _ _)]; cbn;
    match goal with |- context [set_world ?w' (st w2)] => apply (Hlast w') end; try reflexivity;
    first [left; reflexivity|right; reflexivity].
Qed.

Lemma clean_orphans_ok L t l : forall acc (w : Sys (Site X)),
  cleaning L (st w) -> (forall o, o ∈ l -> orphaned o t (db (world (st w)))) ->
  cleaning L (st (foldS (clean_orphan referenced t) l acc w).2).
Proof.
  induction l as [|o l IH]; intros acc w Hc Hl; [done|]. cbn [foldS]. unfold mbind, Svc_bind.
  destruct (clean_orphan_step L t acc o w Hc) as [Hc' Hf]; [apply Hl; by left|].
  destruct (clean_orphan referenced t acc o w) as [[acc'|e] w']; [|done].
  apply IH; [done|]. intros o' Ho'. eapply orphaned_fewer; [exact Hf|]. apply Hl. by right.
Qed.

Lemma orphans_orphaned L t d fs o : stored lv L d fs -> o ∈ orphans t d -> orphaned o t d.
Proof.
  intros Hs Ho. unfold orphans in Ho. apply elem_of_remove_dups, list_elem_of_omap in Ho as (r & Hin & H).
  apply list_elem_of_fmap in Hin as ([id r'] & -> & Hin). apply elem_of_map_to_list in Hin. simpl in H.
  destruct (_ && _ && _) eqn:E; [|done]. injection H as <-. boolp. subst t.
  destruct (Hs id r' Hin) as (Hu & Hp & full & Hf & _). split_and!; simpl; [done|done|by exists full|].
  intros id2 r2 Hr2 Hsc. destruct (live r2) eqn:El; [|done]. exfalso.
  match goal with H : existsb _ _ = false |- _ => rewrite <-not_true_iff_false in H; apply H end.
  apply existsb_exists. exists r2. rewrite Hsc, El. split; [|done].
  apply list_elem_of_In, list_elem_of_fmap. exists (id2, r2). split; [done|]. by apply elem_of_map_to_list.
Qed.

(** A query: the tables and the files are as before. *)
Lemma cleaning_query {A} L (f : Z -> DB -> A) wrap (w : Sys (Site X)) :
  cleaning L (st w) ->
  let r := wrapS wrap (liftM (query f)) w in
  cleaning L (st r.2) /\ db (world (st r.2)) = db (world (st w)) /\
  forall a, r.1 = Ok a -> exists now, a = f now (db (world (st w))).
Proof.
  intros Hc. unfold wrapS, liftM, query, sql. destruct (fault _) as [e|]; cbn [fst snd st];
    (split; [eapply cleaning_fewer; [exact Hc|done|by apply fewer_rows_refl|apply Hc]|]);
    (split; [done|]); [done|]. intros a [= <-]. eauto.
Qed.

Lemma OrphanCleanup_ok L t (w : Sys (Site X)) :
  cleaning L (st w) -> cleaning L (st (OrphanCleanup referenced t w).2).
Proof.
  intros Hc. unfold OrphanCleanup, mbind, Svc_bind.
  pose proof (cleaning_query L (fun _ d => orphans t d) (Wrapf "query orphan documents: %w" []) w Hc) as (Hc1 & Hd & Hr).
  destruct (wrapS _ _ w) as [[l|e] w1]; [|done]. cbn [fst snd] in *. destruct (Hr l eq_refl) as [now ->].
  apply clean_orphans_ok; [done|]. intros o Ho. rewrite Hd.
  exact (orphans_orphaned _ _ _ _ _ (proj1 (proj2 (proj1 Hc))) Ho).
Qed.
End Cleanup.
