(* ===== verification/VaultClaims.v ===== *)
(** * Claims about the document vault *)

From S2P Require Import Prelude GoStrings Json EngineTypes Store AuditTrail EngineOps TaskForms.
From S2P Require Import CaseData CaseOps GoText Effects GoPath Site VaultStore Vault VaultProps.

(** ** Sequences of operations *)

(** The operations of the service, and what other components do to their tables, on
    which the references to documents depend. *)
Inductive vault_op (X : Type) : Type :=
  | VUpload (t : uuid) (i : UploadInput)
  | VDelete (t c id actor : uuid)
  | VDownload (t c id actor : uuid)
  | VErase (t : uuid) (req : ErasureRequest) (actor : uuid)
  | VCleanup (t : option uuid)
  | VTables (f : X -> X).
Arguments VUpload {X}.
Arguments VDelete {X}.
Arguments VDownload {X}.
Arguments VErase {X}.
Arguments VCleanup {X}.
Arguments VTables {X}.

Definition tenant_ok {X} (o : vault_op X) : Prop :=
  match o with
  | VUpload t _ | VDelete t _ _ _ | VDownload t _ _ _ | VErase t _ _ => uuid_ok t
  | VCleanup t => match t with Some t => uuid_ok t | None => True end
  | VTables _ => True
  end.
Definition removes {X} (o : vault_op X) : bool := match o with VErase _ _ _ | VCleanup _ => true | _ => false end.

Section Claims.
Context `{R : Runtime} {X : Type} (lv : LocalVaultStore).
Context (hmac_sha256 : string -> string -> string) (torn : nat -> string -> option string)
  (TypeByExtension : string -> string) (referenced : X -> uuid -> bool).

#[local] Instance CS : VaultStore X := local_store hmac_sha256 torn lv.

Definition run_op (o : vault_op X) : Svc (Site X) unit :=
  match o with
  | VUpload t i => ignoreS (Upload TypeByExtension t i)
  | VDelete t c id actor => ignoreS (Delete t c id actor)
  | VDownload t c id actor => ignoreS (Download t c id actor)
  | VErase t req actor => ignoreS (Erase referenced t req actor)
  | VCleanup (Some t) => ignoreS (OrphanCleanup referenced t)
  | VCleanup None => ignoreS (orphanCleanupAllTenants referenced)
  | VTables f => changes (set_own f)
  end.

(** ** Between operations no transaction is open *)

Definition idle (s : Site X) : Prop := saved (world s) = None.
Definition stays_idle {A} (m : Svc (Site X) A) : Prop := keepsS (fun s s' => idle s -> idle s') m.

#[local] Instance idle_preorder : PreOrder (fun s s' : Site X => idle s -> idle s').
Proof. split; [by intros s|]. intros a b c H1 H2 H. auto. Qed.

Lemma idle_tx {A} wrap (body : Svc (Site X) A) : stays_idle (with_txS wrap body).
Proof.
  intros w Hi. unfold with_txS, wrapS, liftM, begin_tx. destruct (fault _); [done|]. cbn [fst snd].
  destruct (body _) as [r w2]. unfold rollbackS, rollback_tx, idle. simpl.
  by destruct (saved (world (st w2))) eqn:E.
Qed.

Lemma idle_lift {A} (m : M A) : keeps (fun _ _ => True) m -> stays_idle (liftM m).
Proof.
  intros Hm w Hi. unfold liftM. specialize (Hm (at_tick (ticks w) (world (st w)))).
  destruct (m _) as [r w1]. destruct Hm as [[E|E] _]; unfold idle in *; simpl in *; congruence.
Qed.

#[local] Instance any_preorder : PreOrder (fun _ _ : DB => True).
Proof. by split. Qed.

Lemma idle_files {A} (run : nat -> Z -> Site X -> result goerr (A * Site X)) :
  (forall k now s a s', run k now s = Ok (a, s') -> world s' = world s) -> stays_idle (exec run).
Proof.
  intros Hr. apply keepsS_exec; [exact _|]. intros k now s a s' H. unfold idle. by rewrite (Hr _ _ _ _ _ H).
Qed.

Lemma idle_get uri : stays_idle (LocalGet lv uri).
Proof.
  unfold LocalGet. apply keepsS_bind; [exact _|apply keepsS_pure; exact _|]. intros full. apply keepsS_wrap.
  apply idle_files. intros k now s a s'. destruct (files s !! full); by intros [= _ <-].
Qed.

Lemma idle_delete uri : stays_idle (LocalDelete lv uri).
Proof.
  unfold LocalDelete. apply keepsS_bind; [exact _|apply keepsS_pure; exact _|]. intros full.
  apply keepsS_bind; [exact _| |intros r; repeat case_match; keeps_steps].
  apply keepsS_try, idle_files. intros k now s a s'. destruct (files s !! full); by intros [= _ <-].
Qed.

Lemma idle_with_tx {A} wrap (body : M A) : stays_idle (liftM (with_tx wrap body)).
Proof.
  intros w Hi. unfold liftM, with_tx, wrapM, begin_tx. destruct (fault _); [done|]. cbn [fst snd].
  destruct (body _) as [r w2]. unfold rollback_tx, idle. simpl. by destruct (saved w2) eqn:E.
Qed.

Lemma idle_resolve t req : stays_idle (resolveErasureCases t req).
Proof.
  unfold resolveErasureCases. case_match.
  - apply keepsS_bind; [exact _|apply keepsS_wrap, idle_lift, keeps_query; exact _|]. intros b.
    destruct (negb b); [apply keepsS_fail|apply keepsS_ret]; exact _.
  - destruct (decide _); [apply keepsS_fail; exact _|]. apply keepsS_wrap, idle_lift, keeps_query. exact _.
Qed.

Lemma idle_record t c id : stays_idle (getDocumentRecord t c id).
Proof. unfold getDocumentRecord. apply keepsS_wrap, idle_lift, keeps_query_row. exact _. Qed.

Lemma idle_cleanup t : stays_idle (OrphanCleanup referenced t).
Proof.
  unfold OrphanCleanup. apply keepsS_bind; [exact _|apply keepsS_wrap, idle_lift, keeps_query; exact _|].
  intros l. apply keepsS_fold; [exact _|]. intros acc o _. unfold clean_orphan.
  apply keepsS_bind; [exact _|apply keepsS_try, idle_get|]. intros d.
  apply keepsS_bind; [exact _|apply keepsS_ignore, idle_delete|]. intros _.
  apply keepsS_bind; [exact _|apply keepsS_reads; exact _|]. intros others.
  apply keepsS_bind; [exact _|apply keepsS_wrap, idle_lift, keeps_sql; [exact _|done]|]. intros _.
  apply keepsS_ret. exact _.
Qed.

Lemma idle_op o : stays_idle (run_op o).
Proof.
  destruct o as [t i|t c id actor|t c id actor|t req actor|[t|]|f]; [apply keepsS_ignore..|by intros w Hi].
  - unfold Upload. repeat (destruct (decide _); [apply keepsS_fail; exact _|]). cbv zeta.
    apply keepsS_bind; [exact _|apply keepsS_wrap, idle_lift, keeps_query; exact _|]. intros b.
    destruct (negb b); [apply keepsS_fail; exact _|apply idle_tx].
  - apply idle_tx.
  - unfold Download. apply keepsS_bind; [exact _|apply idle_record|]. intros r.
    apply keepsS_bind; [exact _|apply keepsS_wrap, idle_get|]. intros b.
    apply keepsS_bind; [exact _|apply idle_tx|]. intros _. apply keepsS_ret. exact _.
  - unfold Erase. apply keepsS_bind; [exact _| |].
    + apply idle_resolve.
    + intros l. destruct (decide _); [apply keepsS_fail; exact _|].
      apply keepsS_bind; [exact _| |intros _; apply keepsS_for; [exact _|]; intros c; apply keepsS_ignore, idle_cleanup].
      apply idle_with_tx.
  - apply idle_cleanup.
  - unfold orphanCleanupAllTenants, listTenantsWithDeletedDocuments.
    apply keepsS_bind; [exact _|apply keepsS_wrap, idle_lift, keeps_query; exact _|]. intros l.
    apply keepsS_fold; [exact _|]. intros acc t _. apply keepsS_bind; [exact _|apply idle_cleanup|].
    intros r. apply keepsS_ret. exact _.
Qed.

(** ** The content stays *)

Context (Hsha : forall s, sha256HexPattern (sha256_hex s) = true) (Htorn : forall k s, torn k s = None).

Lemma triple_state {A} L (m : Svc (Site X) A) w Q :
  tripleS (vault_ok lv L) (fun _ => True) m Q -> vault_ok lv L (st w) -> vault_ok lv L (st (m w).2).
Proof. intros Hm Hok. specialize (Hm w Hok I). destruct (m w) as [[a|e] w1]; simpl; tauto. Qed.

Lemma cleaning_start L (s : Site X) : vault_ok lv L s -> idle s -> cleaning lv L s.
Proof. intros H Hi. split; [|done]. eapply vault_ok_mono; [|exact H]. by left. Qed.

Lemma cleanups_ok L (l : list uuid) t (w : Sys (Site X)) :
  cleaning lv L (st w) -> cleaning lv L (st (forS (fun _ : uuid => ignoreS (OrphanCleanup referenced t)) l w).2).
Proof.
  revert w. induction l as [|c l IH]; intros w Hc; [done|].
  cbn [forS]. unfold mbind, Svc_bind, ignoreS at 1. by apply IH, OrphanCleanup_ok.
Qed.

Lemma all_tenants_ok L (w : Sys (Site X)) :
  cleaning lv L (st w) -> cleaning lv L (st (orphanCleanupAllTenants referenced w).2).
Proof.
  intros Hc. unfold orphanCleanupAllTenants, listTenantsWithDeletedDocuments, mbind at 1, Svc_bind at 1.
  destruct (cleaning_query lv L (fun _ d => deleted_tenants d) (Wrapf "query tenants with deleted vault docs: %w" []) w Hc) as (Hc1 & _).
  destruct (wrapS _ _ w) as [[l|e] w1]; [|done]. cbn [snd] in Hc1. revert w1 Hc1.
  generalize (0, 0)%Z. induction l as [|t l IH]; intros acc w1 Hc1; [done|].
  cbn [foldS]. unfold mbind, Svc_bind. pose proof (OrphanCleanup_ok lv hmac_sha256 torn referenced L t w1 Hc1) as Hc2.
  destruct (OrphanCleanup referenced t w1) as [[r|e] w2]; [by apply IH|done].
Qed.

(** Content that only deleted rows have, at least one, whose file is gone. *)
Definition left_behind (s : Site X) (t : uuid) (h : string) : Prop :=
  no_live t h (db (world s)) /\
  exists id r full, vault_documents (db (world s)) !! id = Some r /\ same_content t h r = true /\
    resolvePath lv (dStorageURI r) = Ok full /\ files s !! full = None.

Lemma cleaning_left L (s : Site X) : cleaning lv L s -> vault_ok lv (fun t h => L t h \/ left_behind s t h) s.
Proof.
  intros ((Hg & Hs & _) & Hi). split; [done|]. split; [|intros d Hd; congruence].
  intros id r Hr. destruct (Hs id r Hr) as (Hu & Hp & full & Hf & Hd). split; [done|]. split; [done|]. exists full. split; [done|].
  destruct (files s !! full) as [data|] eqn:E; [by left; exists data|right]. destruct Hd as [[? ?]|[Hl|Hn]]; [done|by left|right].
  split; [done|]. exists id, r, full. split_and!; [done|apply same_content_self|done|done].
Qed.

(** An operation keeps the content, but for what it leaves behind. *)
Lemma op_ok L o (w : Sys (Site X)) :
  tenant_ok o -> vault_ok lv L (st w) -> idle (st w) ->
  let s' := st (run_op o w).2 in vault_ok lv (fun t h => L t h \/ removes o = true /\ left_behind s' t h) s'.
Proof.
  intros Ht Hok Hi s'.
  assert (removes o = false -> vault_ok lv L s' -> vault_ok lv (fun t h => L t h \/ removes o = true /\ left_behind s' t h) s') as Hkeep
    by (intros _ H; eapply vault_ok_mono; [|exact H]; by left).
  assert (removes o = true -> cleaning lv L s' -> vault_ok lv (fun t h => L t h \/ removes o = true /\ left_behind s' t h) s') as Hclean
    by (intros E H; eapply vault_ok_mono; [|apply cleaning_left; exact H]; intros t h [?|?]; auto).
  pose proof (cleaning_start L (st w) Hok Hi) as Hc. subst s'.
  destruct o as [t i|t c id actor|t c id actor|t req actor|[t|]|f]; simpl in *; unfold ignoreS in *.
  - apply Hkeep; [done|]. by eapply triple_state; [apply Upload_preserves|].
  - apply Hkeep; [done|]. by eapply triple_state; [apply Delete_preserves|].
  - apply Hkeep; [done|]. by eapply triple_state; [apply Download_content|].
  - apply Hclean; [done|]. unfold Erase, mbind, Svc_bind. pose proof (resolve_preserves lv L t req w Hok I) as H1.
    assert (stays_idle (resolveErasureCases t req)) as Hidle by apply idle_resolve.
    specialize (Hidle w Hi). destruct (resolveErasureCases t req w) as [[l|e] w1]; simpl in Hidle; [|by apply cleaning_start].
    destruct H1 as [Hok1 _]. destruct (decide (l = [])); [by apply cleaning_start|].
    pose proof (ok_lift lv L _ w1 (erase_tx_from t actor (erDataSubjectEmail req) l) Hok1) as [Hok2 _].
    assert (idle (st (liftM (with_tx (Wrapf "begin erasure tx: %w" []) (
       _ ← mapM_ (erase_case t actor (erDataSubjectEmail req)) l;
       wrapM (Wrapf "commit erasure tx: %w" []) commit_tx)) w1).2)) as Hidle2 by (by apply idle_with_tx).
    destruct (liftM _ w1) as [[u|e] w2]; [|by apply cleaning_start]. by apply cleanups_ok, cleaning_start.
  - apply Hclean; [done|]. by apply OrphanCleanup_ok.
  - apply Hclean; [done|]. by apply all_tenants_ok.
  - by apply Hkeep.
Qed.

(** What the operations of a sequence have left behind on the way. *)
Definition lost (ops : list (vault_op X)) (w : Sys (Site X)) (t : uuid) (h : string) : Prop :=
  exists ops1 o ops2, ops = ops1 ++ o :: ops2 /\ removes o = true /\
    left_behind (st (forS run_op (ops1 ++ [o]) w).2) t h.

Lemma run_op_Ok o (w : Sys (Site X)) : exists w', run_op o w = (Ok tt, w').
Proof. destruct o as [t i|t c id actor|t c id actor|t req actor|[t|]|f]; by eexists. Qed.

Lemma ops_ok L ops (w : Sys (Site X)) :
  Forall tenant_ok ops -> vault_ok lv L (st w) -> idle (st w) ->
  vault_ok lv (fun t h => L t h \/ lost ops w t h) (st (forS run_op ops w).2).
Proof.
  intros Ht. revert L w. induction Ht as [|o ops Ho Ht IH]; intros L w Hok Hi.
  { eapply vault_ok_mono; [|exact Hok]. by left. }
  pose proof (op_ok L o w Ho Hok Hi) as Hok1. pose proof (idle_op o w Hi) as Hi1.
  destruct (run_op_Ok o w) as [w1 E]. cbn [forS]. unfold mbind, Svc_bind. rewrite E in *. cbn [snd] in *.
  eapply vault_ok_mono; [|by apply (IH _ w1 Hok1 Hi1)].
  intros t h [[HL|[Hr Hl]]|(ops1 & o' & ops2 & -> & Hr & Hl)]; [by left|right..].
  - exists [], o, ops. split_and!; [done..|]. cbn [app forS]. unfold mbind, Svc_bind. by rewrite E.
  - exists (o :: ops1), o', ops2. split_and!; [done..|]. cbn [app forS]. unfold mbind, Svc_bind. by rewrite E.
Qed.
End Claims.

(** ** Claims *)

Section Theorems.
Context `{R : Runtime} {X : Type} (lv : LocalVaultStore).
Context (hmac_sha256 : string -> string -> string) (torn : nat -> string -> option string)
  (TypeByExtension : string -> string) (QueryEscape : string -> string) (referenced : X -> uuid -> bool).

(** A path that the local store resolves lies at its root or below: its elements
    are those of the root followed by names, whatever dots, slashes and spaces
    the uri has. *)
Theorem resolvePath_confined uri full :
  resolvePath lv uri = Ok full ->
  IsAbs full = IsAbs (lvRoot lv) /\
  exists l, elements full = elements (lvRoot lv) ++ l /\ Forall (fun e => is_name e = true) l.
Proof.
  intros [Hn ->]%resolvePath_Ok.
  assert (rooted_shape (IsAbs (lvRoot lv)) (elements (lvRoot lv) ++ elements (TrimPrefix (TrimSpace uri) "/")))
    as Hs by (apply app_shape; [apply elements_rooted|done]).
  split; [by apply IsAbs_path_of|]. eexists. split; [by apply elements_path_of|done].
Qed.


(** *** Signed links *)

Lemma signed_link_text E sig :
  char_in "&"%char sig = false ->
  exp_value ("exp=" +:+ Itoa E +:+ "&sig=" +:+ sig) = Itoa E.
Proof.
  intros Hs. unfold exp_value.
  change ("exp=" +:+ Itoa E +:+ "&sig=" +:+ sig) with ("exp=" +:+ (Itoa E +:+ String "&"%char ("sig=" +:+ sig))).
  rewrite <-append_assoc. rewrite Split_cons_sep; cycle 1.
  { rewrite char_in_append. by rewrite (all_chars_not_in decimal_char _ (Itoa E)) by (done || apply Itoa_chars). }
  rewrite Split_no_sep; cycle 1.
  { by rewrite char_in_append, Hs. }
  cbn [foldl]. rewrite HasPrefix_append. unfold TrimPrefix. rewrite HasPrefix_append.
    change (HasPrefix ("sig=" +:+ sig) "exp=") with false. cbv iota.
    exact (drop_str_append "exp=" (Itoa E)).
Qed.

Definition link_char (a : ascii) : bool := is_graph a && negb (char_in a "&").

Lemma hex_encode_chars s : all_chars link_char (hex_encode s) = true.
Proof.
  induction s as [|a s IH]; [done|]. cbn [hex_encode all_chars]. rewrite IH.
  assert (forall n, link_char (hex_nibble n) = true) as H; [|by rewrite !H].
  intros n. unfold hex_nibble. destruct (String.get n _) as [c|] eqn:Ec; [|done]. simpl.
  apply get_char_in in Ec. revert Ec. clear. destruct c as [[] [] [] [] [] [] [] []]; vm_compute; done.
Qed.

Lemma sig_no_amp secret uri E : char_in "&"%char (signURI hmac_sha256 secret uri E) = false.
Proof. apply (all_chars_not_in link_char); [done|apply hex_encode_chars]. Qed.

(** A link of a stored document is not a web address: it starts with a tenant. *)
Lemma stored_not_http t h uri rest :
  place t h uri -> all_chars is_graph rest = true -> is_http (uri +:+ "?" +:+ rest) = false.
Proof.
  intros (y & m & e & Ht & Hh & He & ->) Hrest.
  destruct (uri_elements (uuid_string t) y m h e) as (_ & _ & Hg); [done|done|done|].
  unfold is_http. rewrite TrimSpace_graph by (by rewrite !all_chars_app, Hg, Hrest).
  destruct (uuid_string t) as [|a u] eqn:Eu; [done|].
  assert (id_char a = true) as Ha.
  { pose proof (uuid_string_chars t) as Hc. rewrite Eu in Hc. cbn [all_chars] in Hc. by boolp. }
  assert (exists s, vault_uri (String a u) y m h e +:+ "?" +:+ rest = String a s) as [s ->].
  { unfold vault_uri, vault_parts. cbn [Join]. eexists. reflexivity. }
  cbn [ToLower]. clear -Ha. unfold HasPrefix. cbn [String.prefix].
  destruct (Ascii.ascii_dec "h" (lower_ascii a)) as [E|]; [|done]. exfalso. revert E Ha. clear.
  destruct a as [[] [] [] [] [] [] [] []]; vm_compute; done.
Qed.

Lemma document_row L t c id w rec w' :
  vault_ok lv L (st w) -> @getDocumentRecord R X t c id w = (Ok rec, w') ->
  exists r, vault_documents (db (world (st w))) !! id = Some r /\ of_case t c r = true /\
    rec = (document_of (id, r), dStorageURI r) /\ place t (dContentHash r) (dStorageURI r).
Proof.
  intros (_ & Hs & _) H. unfold getDocumentRecord in H. apply wrapS_inv in H.
  unfold liftM, query_row, sql in H. destruct (fault _); [done|]. simpl in H.
  destruct (vault_documents _ !! id) as [r|] eqn:Er; [|done]. destruct (of_case t c r) eqn:Ec; [|done].
  injection H as <- <-. exists r. split_and!; try done. destruct (Hs id r Er) as (_ & Hp & _).
  unfold of_case in Ec. boolp. by subst t.
Qed.

(** A signed link names the document and its case and carries the place of the
    content, the expiry and a signature. Until the expiry and no longer the
    service accepts them; and whatever place and expiry it accepts with that
    signature are those of the link, unless the HMAC collides. *)
Theorem signed_link_sound L t c id expirySeconds w link w' :
  vault_ok lv L (st w) ->
  @SignedURL R X QueryEscape (local_store hmac_sha256 torn lv) t c id expirySeconds w = (Ok link, w') ->
  exists r E sig,
    vault_documents (db (world (st w))) !! id = Some r /\ of_case t c r = true /\
    sdURL link = "/vault/signed/" +:+ uuid_string id +:+ "?case_id=" +:+ uuid_string c +:+ "&uri=" +:+
      QueryEscape (dStorageURI r) +:+ "&exp=" +:+ Itoa E +:+ "&sig=" +:+ sig /\
    ((0 < E <= int64_max)%Z -> sdExpiresAt link = (E * Second)%Z /\
       forall now, verify_url hmac_sha256 lv (dStorageURI r) (Itoa E) sig now = Ok tt <-> (Unix now <= E)%Z) /\
    (forall uri' exp' now', verify_url hmac_sha256 lv uri' exp' sig now' = Ok tt ->
       (uri' = dStorageURI r /\ Atoi (TrimSpace exp') = Some E) \/
       exists m m', m <> m' /\ hmac_sha256 (lvSecret lv) m = hmac_sha256 (lvSecret lv) m').
Proof.
  intros Hok H. unfold SignedURL in H. apply bindS_inv in H as (rec & w1 & Hrec & H).
  destruct (document_row L t c id w rec w1 Hok Hrec) as (r & Hr & Hc & -> & Hp). cbn [snd fst] in H.
  apply bindS_inv in H as (signedPath & w2 & Hsign & H).
  cbn [store_SignedURL local_store] in Hsign. unfold LocalSignedURL in Hsign.
  apply bindS_inv in Hsign as (now0 & w3 & _ & Hsign). unfold pureS in Hsign. injection Hsign as Hsign <-.
  unfold signed_url in Hsign. destruct (decide _); [done|]. injection Hsign as <-.
  set (E := Unix _) in H. set (sig := signURI _ _ _ E) in H.
  change ("?exp=" +:+ Itoa E +:+ "&sig=" +:+ sig) with ("?" +:+ ("exp=" +:+ Itoa E +:+ "&sig=" +:+ sig)) in H.
  rewrite (stored_not_http t (dContentHash r)) in H; [|done|]; cycle 1.
  { rewrite !all_chars_app. rewrite (all_chars_impl decimal_char is_graph (Itoa E)); [|intros a Ha%decimal_safe%safe_graph; by boolp|apply Itoa_chars].
    rewrite (all_chars_impl link_char is_graph sig); [done|intros a Ha; unfold link_char in Ha; by boolp|apply hex_encode_chars]. }
  change ("?" +:+ ("exp=" +:+ Itoa E +:+ "&sig=" +:+ sig)) with (String "?"%char ("exp=" +:+ Itoa E +:+ "&sig=" +:+ sig)) in H.
  destruct Hp as (y & m & e & Ht & Hh & He & Hu).
  rewrite Cut_app in H by (rewrite Hu; by apply uri_elements).
  rewrite (signed_link_text E sig (sig_no_amp _ _ _)) in H. injection H as <- <-.
  exists r, E, sig. split_and!; [done|done|done| |].
  - intros HE. assert (Atoi (Itoa E) = Some E) as HA by (apply Atoi_Itoa; unfold int64_min; lia).
    cbn [sdExpiresAt]. rewrite HA. split; [done|]. intros now. unfold verify_url.
    rewrite TrimSpace_graph, HA; [|eapply all_chars_impl; [|apply Itoa_chars]; intros a Ha%decimal_safe%safe_graph; by boolp].
    rewrite (proj2 (Z.leb_gt E 0)) by lia. destruct (E <? Unix now)%Z eqn:El.
    + split; [done|]. apply Z.ltb_lt in El. lia.
    + rewrite decide_True by done. apply Z.ltb_ge in El. done.
  - intros uri' exp' now' Hv. unfold verify_url in Hv. destruct (Atoi _) as [E'|]; [|done].
    destruct (E' <=? 0)%Z; [done|]. destruct (E' <? Unix now')%Z; [done|].
    destruct (decide _) as [Hsig|]; [|done].
    apply signURI_binds in Hsig as [[-> ->]|Hcol]; [by left|by right].
Qed.
End Theorems.


Module VaultExample.
Definition lv : LocalVaultStore := NewLocalVaultStore "data" "k".
Definition hmac (k m : string) : string := k +:+ m.
Definition row : CaseRow := mkCaseRow 1 20 "L-1" CaseOpen (JObj []) 1 0 None 0 30 1 0 7 None.
Definition start : Sys (Site unit) :=
  mkSys (mkSite (mkWorld (mkDB {[ 5%N := row ]} ∅ [] ∅ {[ 7%N := mkPrincipalRow 1 true 0 (Some "a@x.org") ]} [] ∅ ∅ ∅ ∅)
    None 0 0 [] [] []) ∅ tt) 0.
Definition note (data : string) : UploadInput := mkUploadInput 5 "note.txt" "" data None "" 7.
Definition no_torn (k : nat) (s : string) : option string := None.
Definition text_type (s : string) : string := "text/plain".

Lemma example_sha s : sha256HexPattern (@sha256_hex example_runtime s) = true.
Proof.
  change (@sha256_hex example_runtime s) with (hex_digits 64 (string_code s) EmptyString).
  generalize (string_code s). intros code. unfold sha256HexPattern. rewrite hex_digits_length.
  change ((64 + String.length "" =? 64)%nat) with true. rewrite andb_true_r.
  assert (forall n u acc, all_chars (fun a => char_in a "abcdef0123456789") acc = true ->
    all_chars (fun a => char_in a "abcdef0123456789") (hex_digits n u acc) = true) as H; [|by apply H].
  induction n as [|n IH]; intros u acc Ha; [done|]. cbn [hex_digits]. apply IH. cbn [all_chars]. rewrite Ha.
  rewrite andb_true_r. unfold hex_digit. destruct (String.get _ _) as [c|] eqn:E; [|done].
  apply get_char_in in E. revert E. clear. destruct c as [[] [] [] [] [] [] [] []]; vm_compute; done.
Qed.

Lemma start_ok : vault_ok (R := example_runtime) lv (fun _ _ => False) (st start).
Proof.
  split_and!.
  - intros t h uri full data _ _ Hd. simpl in Hd. by rewrite lookup_empty in Hd.
  - intros id r Hr. simpl in Hr. by rewrite lookup_empty in Hr.
  - done.
Qed.

Definition vs : VaultStore unit := @local_store example_runtime unit hmac no_torn lv.
Definition unreferenced (_ : unit) (_ : uuid) : bool := false.
Definition run_ops (ops : list (vault_op unit)) : Sys (Site unit) :=
  (forS (@run_op example_runtime unit lv hmac no_torn text_type unreferenced) ops start).2.
Definition uploaded : Sys (Site unit) := run_ops [VUpload 1 (note "hello")].

Lemma resolvePath_confined_witness :
  resolvePath lv "//a/.././b c//d.txt" = Ok "data/b c/d.txt" /\
  exists l, elements "data/b c/d.txt" = elements (lvRoot lv) ++ l /\ Forall (fun e => is_name e = true) l.
Proof.
  assert (resolvePath lv "//a/.././b c//d.txt" = Ok "data/b c/d.txt") as H by (vm_compute; reflexivity).
  split; [exact H|]. exact (proj2 (resolvePath_confined lv _ _ H)).
Defined.




(** A knowledge base refers to the document that is deleted: the cleanup has removed
    the content when its [DELETE] is refused, and the row stays. The same content
    uploaded again gets the place of the row, is not written, and cannot be
    downloaded. *)
Definition in_knowledge_base (_ : unit) (id : uuid) : bool := bool_decide (id = 4103%N).

Definition id_of (r : result goerr Document) : uuid := match r with Ok d => docID d | Err _ => uuid_Nil end.
Definition up1 := @Upload example_runtime unit text_type vs 1%N (note "hello") start.
Definition del1 := @Delete example_runtime unit 1%N 5%N (id_of up1.1) 7%N up1.2.
Definition clean1 := @OrphanCleanup example_runtime unit vs in_knowledge_base 1%N del1.2.
Definition up2 := @Upload example_runtime unit text_type vs 1%N (note "hello") clean1.2.
Definition down2 := @Download example_runtime unit vs 1%N 5%N (id_of up2.1) 7%N up2.2.

Theorem cleanup_loses_content :
  is_ok up1.1 = true /\ del1.1 = Ok tt /\
  clean1.1 = Err (Wrapf "delete orphan metadata rows: %w" [] fk_error) /\
  is_ok up2.1 = true /\ down2.1 = Err ErrNoRows.
Proof. vm_compute. split_and!; reflexivity. Qed.

(** A signed link does not name its document: with the link of one document, the
    id of another of the same tenant gets the content of the first, and the
    download is recorded for the second. *)
Definition a1 := @Upload example_runtime unit text_type vs 1%N (note "secret") start.
Definition a2 := @Upload example_runtime unit text_type vs 1%N (note "public") a1.2.
Definition uri_a : string :=
  match vault_documents (db (world (st a2.2))) !! id_of a1.1 with Some r => dStorageURI r | None => "" end.
Definition swapped := @DownloadFromSignedURL example_runtime unit hmac 7%N vs (id_of a2.1) 5%N uri_a
  "1800000000" (signURI hmac "k" uri_a 1800000000) a2.2.

Theorem signed_link_other_document :
  exists doc, swapped.1 = Ok (doc, "secret") /\ docID doc = id_of a2.1 /\ id_of a1.1 <> id_of a2.1 /\
    docContentHash doc <> @sha256_hex example_runtime "secret".
Proof. eexists. split; [vm_compute; reflexivity|]. split_and!; [reflexivity|vm_compute; discriminate|vm_compute; discriminate]. Qed.

(** The content that is missing was left behind by the cleanup. *)
Example cleanup_left_behind :
  left_behind lv (st clean1.2) 1%N (@sha256_hex example_runtime "hello").
Proof.
  split.
  - intros id r Hr _. apply elem_of_map_to_list, (list_elem_of_fmap_2 (fun kv => live kv.2)) in Hr.
    assert ((fun kv : uuid * DocumentRow => live kv.2) <$> map_to_list (vault_documents (db (world (st clean1.2)))) = [false])
      as E by (vm_compute; reflexivity).
    rewrite E in Hr. by apply list_elem_of_singleton in Hr.
  - eexists 4103%N, _, _. split; [vm_compute; reflexivity|]. split_and!; vm_compute; reflexivity.
Qed.

Lemma uploaded_ok : exists L, vault_ok (R := example_runtime) lv L (st uploaded).
Proof.
  eexists. apply (@ops_ok example_runtime unit lv hmac no_torn text_type unreferenced example_sha (fun _ _ => eq_refl)
    (fun _ _ => False) [VUpload 1 (note "hello")] start); [by repeat constructor|exact start_ok|done].
Qed.

Lemma signed_link_sound_witness :
  exists link w' r E sig,
    @SignedURL example_runtime unit (fun s => s) vs 1%N 5%N 4103%N 60 uploaded = (Ok link, w') /\
    vault_documents (db (world (st uploaded))) !! 4103%N = Some r /\
    sdURL link = "/vault/signed/" +:+ uuid_string 4103%N +:+ "?case_id=" +:+ uuid_string 5%N +:+ "&uri=" +:+
      dStorageURI r +:+ "&exp=" +:+ Itoa E +:+ "&sig=" +:+ sig.
Proof.
  destruct (@SignedURL example_runtime unit (fun s => s) vs 1%N 5%N 4103%N 60 uploaded) as [[link|e] w'] eqn:E0.
  - destruct uploaded_ok as [L HL].
    destruct (@signed_link_sound example_runtime unit lv hmac no_torn (fun s => s) L 1%N 5%N 4103%N 60 uploaded link w'
      HL E0) as (r & E & sig & H1 & _ & H2 & _).
    exact (ex_intro _ link (ex_intro _ w' (ex_intro _ r (ex_intro _ E (ex_intro _ sig (conj eq_refl (conj H1 H2))))))).
  - exfalso. apply (f_equal (fun x => is_ok x.1)) in E0. vm_compute in E0. discriminate.
Defined.
End VaultExample.
