(* ===== verification/Channels.v ===== *)
(** * Channels: [internal/channels], the data and its conversion

    A channel turns what arrives (an email, a call of a webhook, a form, a file,
    an event of a plugin) into a case. This file has the types ([types.go]), the
    paths ([paths.go]), the adapter that maps a payload to case data
    ([adapter.go]), the keys that find duplicates ([dedup.go]) and the payload
    that is kept ([truncateRawPayload]). Go maps are shared: a mapping puts a map
    of the payload into the result, and a later mapping can write into it. So the
    adapter works on a heap of maps. *)

From S2P Require Import Prelude GoStrings Json EngineTypes Store GoText Effects JsonText.

(** ** Types *)

Definition ChannelEmail : string := "email".
Definition ChannelWebhook : string := "webhook".
Definition ChannelForm : string := "form".
Definition ChannelFileDrop : string := "file_drop".
Definition ChannelPlugin : string := "plugin".

Definition EventProcessed : string := "processed".
Definition EventDeduped : string := "deduped".
Definition EventFailed : string := "failed".

Record DedupConfig : Type := mkDedupConfig {
  ddStrategy : string;
  ddFields : list string;
  ddWindowMins : Z
}.

Record FieldMapping : Type := mkFieldMapping {
  fmSource : string;
  fmTarget : string;
  fmType : string;
  fmValue : string;
  fmExpression : string
}.

(** The configuration is JSON text; [None] is none at all. *)
Record Channel : Type := mkChannel {
  chID : uuid;
  chTenantID : uuid;
  chName : string;
  chType : string;
  chPluginRef : string;
  chConfig : option json;
  chCaseTypeID : uuid;
  chWorkflowID : option uuid;
  chAdapterConfig : list FieldMapping;
  chDedupConfig : DedupConfig;
  chEnabled : bool;
  chCreatedAt : Z;
  chUpdatedAt : Z
}.

Record AttachmentInput : Type := mkAttachmentInput {
  aiFilename : string;
  aiContentType : string;
  aiData : string
}.

Record AttachmentRef : Type := mkAttachmentRef {
  arVaultID : uuid;
  arFilename : string;
  arContentType : string;
  arSize : Z;
  arChecksum : string
}.

Record ChannelEvent : Type := mkChannelEvent {
  ceTenantID : uuid;
  ceChannelID : uuid;
  ceRawPayload : string;
  ceAttachments : list AttachmentRef;
  ceCaseID : option uuid;
  ceStatus : string;
  ceErrorMessage : string;
  ceProcessingMS : Z
}.

Record ChannelRequest : Type := mkChannelRequest {
  rqTenantID : uuid;
  rqChannelID : uuid;
  rqPayload : string;
  rqAttachments : list AttachmentInput;
  rqSource : string;
  rqActorID : uuid;
  rqDedupOverride : option DedupConfig
}.

Record PipelineResult : Type := mkPipelineResult {
  prCaseID : uuid;
  prDeduped : bool;
  prEventID : uuid
}.
Definition no_result : PipelineResult := mkPipelineResult uuid_Nil false uuid_Nil.

(** *** Configurations: a field of the wrong type keeps its zero value, since the
    error of the decoding is dropped. *)

Definition lenient {A} (f : string) (dec : json -> result goerr A) (zero : A) (config : option json) : A :=
  match config with
  | Some (JObj m) => match dec_field f dec zero m with Ok a => a | Err _ => zero end
  | _ => zero
  end.

Record EmailConfig : Type := mkEmailConfig {
  emHost : string; emPort : Z; emTLS : bool; emUsernameSecret : string; emPasswordSecret : string;
  emMailbox : string; emPollIntervalSecs : Z; emMarkAsRead : bool; emDeleteAfterProcess : bool
}.
Definition dec_EmailConfig (c : option json) : EmailConfig :=
  mkEmailConfig (lenient "host" dec_string "" c) (lenient "port" dec_int 0%Z c) (lenient "tls" dec_bool false c)
    (lenient "username_secret" dec_string "" c) (lenient "password_secret" dec_string "" c)
    (lenient "mailbox" dec_string "" c) (lenient "poll_interval_seconds" dec_int 0%Z c)
    (lenient "mark_as_read" dec_bool false c) (lenient "delete_after_processing" dec_bool false c).
Definition EmailConfig_WithDefaults (c : EmailConfig) : EmailConfig :=
  mkEmailConfig (emHost c) (emPort c) (emTLS c) (emUsernameSecret c) (emPasswordSecret c)
    (if decide (emMailbox c = "") then "INBOX" else emMailbox c)
    (if (emPollIntervalSecs c <=? 0)%Z then 60 else emPollIntervalSecs c)
    (if negb (emMarkAsRead c) then true else emMarkAsRead c) (emDeleteAfterProcess c).

Record WebhookConfig : Type := mkWebhookConfig {
  whAuthType : string; whAuthSecret : string; whAuthHeader : string; whHMACAlgorithm : string
}.
Definition dec_WebhookConfig (c : option json) : WebhookConfig :=
  mkWebhookConfig (lenient "auth_type" dec_string "" c) (lenient "auth_secret" dec_string "" c)
    (lenient "auth_header" dec_string "" c) (lenient "hmac_algorithm" dec_string "" c).

Record FormConfig : Type := mkFormConfig {
  foRateLimitPerMinute : Z; foCaptchaEnabled : bool; foCaptchaProvider : string; foCaptchaSecret : string;
  foSuccessRedirectURL : string
}.
Definition dec_FormConfig (c : option json) : FormConfig :=
  mkFormConfig (lenient "rate_limit_per_minute" dec_int 0%Z c) (lenient "captcha_enabled" dec_bool false c)
    (lenient "captcha_provider" dec_string "" c) (lenient "captcha_secret" dec_string "" c)
    (lenient "success_redirect_url" dec_string "" c).
Definition FormConfig_WithDefaults (c : FormConfig) : FormConfig :=
  mkFormConfig (if (foRateLimitPerMinute c <=? 0)%Z then 10 else foRateLimitPerMinute c) (foCaptchaEnabled c)
    (foCaptchaProvider c) (foCaptchaSecret c) (foSuccessRedirectURL c).

Record FileDropConfig : Type := mkFileDropConfig {
  fdWatchPath : string; fdProcessedPath : string; fdFilePatterns : list string; fdPollIntervalSecs : Z
}.
Definition dec_FileDropConfig (c : option json) : FileDropConfig :=
  mkFileDropConfig (lenient "watch_path" dec_string "" c) (lenient "processed_path" dec_string "" c)
    (lenient "file_patterns" (dec_list dec_string) [] c) (lenient "poll_interval_seconds" dec_int 0%Z c).
Definition FileDropConfig_WithDefaults (c : FileDropConfig) : FileDropConfig :=
  mkFileDropConfig (fdWatchPath c) (fdProcessedPath c)
    (if decide (fdFilePatterns c = []) then ["*"] else fdFilePatterns c)
    (if (fdPollIntervalSecs c <=? 0)%Z then 30 else fdPollIntervalSecs c).

(** ** Maps on a heap *)

(** A value is a reference to a map, or JSON that is not an object. *)
Inductive hval : Type := HRef (l : nat) | HVal (j : json).
Definition hobj : Type := list (string * hval).
Definition heap : Type := list hobj.

Fixpoint hget (k : string) (m : hobj) : option hval :=
  match m with
  | [] => None
  | (k', v) :: m' => if decide (k = k') then Some v else hget k m'
  end.
Fixpoint hset (k : string) (v : hval) (m : hobj) : hobj :=
  match m with
  | [] => [(k, v)]
  | (k', v') :: m' =>
      match String.compare k k' with
      | Eq => (k, v) :: m'
      | Lt => (k, v) :: m
      | Gt => (k', v') :: hset k v m'
      end
  end.

Definition at_loc (h : heap) (l : nat) : hobj := default [] (h !! l).
Definition heap_set (h : heap) (l : nat) (k : string) (v : hval) : heap := <[l := hset k v (at_loc h l)]> h.

(** Decoding allocates a map for every object. *)
Section Load.
Variable load : json -> heap -> hval * heap.
Fixpoint load_entries (m : object) (h : heap) : hobj * heap :=
  match m with
  | [] => ([], h)
  | (k, v) :: m' =>
      let '(x, h1) := load v h in
      let '(rest, h2) := load_entries m' h1 in ((k, x) :: rest, h2)
  end.
End Load.
Fixpoint load (j : json) (h : heap) : hval * heap :=
  match j with
  | JObj m => let '(entries, h') := load_entries load m h in (HRef (length h'), h' ++ [entries])
  | _ => (HVal j, h)
  end.

(** [json.Marshal]: a value that contains itself is an error. A path without
    repetition is no longer than the heap. *)
Fixpoint dump (fuel : nat) (h : heap) (v : hval) : option json :=
  match v with
  | HVal j => Some j
  | HRef l =>
      match fuel with
      | O => None
      | S f => JObj <$> mapM (fun kv => (fun j => (kv.1, j)) <$> dump f h kv.2) (at_loc h l)
      end
  end.
Definition dump_all (h : heap) (v : hval) : option json := dump (length h) h v.

(** ** Paths ([paths.go]) *)

Fixpoint lookup_parts (h : heap) (current : hval) (parts : list string) : option hval :=
  match parts with
  | [] => Some current
  | part :: rest =>
      match current with
      | HRef l => match hget part (at_loc h l) with Some v => lookup_parts h v rest | None => None end
      | HVal _ => None
      end
  end.
Definition lookupPath (h : heap) (root : nat) (path : string) : option hval :=
  if decide (at_loc h root = [] \/ TrimSpace path = "") then None
  else lookup_parts h (HRef root) (Split "."%char path).

Fixpoint set_parts (h : heap) (current : nat) (parts : list string) (value : hval) : heap :=
  match parts with
  | [] => h
  | [part] => heap_set h current part value
  | part :: rest =>
      match hget part (at_loc h current) with
      | Some (HRef l) => set_parts h l rest value
      | _ => set_parts (heap_set (h ++ [[]]) current part (HRef (length h))) (length h) rest value
      end
  end.
Definition setPath (h : heap) (root : nat) (path : string) (value : hval) : heap :=
  if decide (TrimSpace path = "") then h else set_parts h root (Split "."%char path) value.

Definition normalizeCaseDataPath (path : string) : string :=
  Trim (TrimPrefix (TrimPrefix (TrimPrefix (TrimSpace path) "case.data.") "data.") "case.") ".".
Definition normalizePayloadPath (path : string) : string :=
  Trim (TrimPrefix (TrimSpace path) "payload.") ".".

(** ** The adapter ([adapter.go]) *)

(** [jsonUnmarshalMap] of a text that is not empty: a null is a nil map. *)
Definition decode_map (raw : string) : result goerr (option object) :=
  match json_parse raw with
  | None => Err (Errorf "invalid JSON" [])
  | Some j => dec_object j
  end.

Section Adapter.
(** The JavaScript engine: the value of a program given the payload, which is
    [None] when it contains itself. *)
Context (RunString : string -> option json -> result goerr json).

Definition evaluate (expression : string) (payload : option json) : result goerr json :=
  let expr := TrimSpace expression in
  if decide (expr = "") then Ok JNull else RunString ("(function(){ return (" +:+ expr +:+ "); })()") payload.

(** One mapping: the payload is the map at [inb], the result the map at [out]. *)
Definition apply_mapping (inb out : nat) (h : heap) (m : FieldMapping) : result goerr heap :=
  let target := normalizeCaseDataPath (fmTarget m) in
  if decide (target = "") then Ok h
  else
    let kind := TrimSpace (ToLower (fmType m)) in
    if decide (kind = "" \/ kind = "direct") then
      match lookupPath h inb (normalizePayloadPath (fmSource m)) with
      | None => Ok h
      | Some v => Ok (setPath h out target v)
      end
    else if decide (kind = "constant") then Ok (setPath h out target (HVal (JStr (fmValue m))))
    else if decide (kind = "expression") then
      match evaluate (fmExpression m) (dump_all h (HRef inb)) with
      | Err e => Err (Wrapf "evaluate adapter expression for %s: %w" [fmTarget m] e)
      | Ok value => let '(v, h') := load value h in Ok (setPath h' out target v)
      end
    else Err (Errorf "unsupported mapping type: %s" [fmType m]).

Definition cycle_error : goerr :=
  Errorf "json: unsupported value: encountered a cycle via map[string]interface {}" [].

Definition Apply (mappings : list FieldMapping) (inboundRaw : string) : result goerr json :=
  inbound ← (if decide (inboundRaw = "") then Ok []
             else match decode_map inboundRaw with
                  | Ok m => Ok (default [] m)
                  | Err e => Err (Wrapf "decode inbound payload: %w" [] e)
                  end);
  let '(v, h) := load (JObj inbound) [] in
  let inb := match v with HRef l => l | HVal _ => 0%nat end in
  let out := length h in
  h' ← foldE (apply_mapping inb out) mappings (h ++ [[]]);
  match dump_all h' (HRef out) with
  | Some j => Ok j
  | None => Err cycle_error
  end.
End Adapter.

(** ** Duplicates ([dedup.go]) *)

Section Dedup.
Context `{R : Runtime} (fmtFloat : Qc -> string).

(** A path in a decoded payload. *)
Fixpoint json_parts (j : json) (parts : list string) : option json :=
  match parts with
  | [] => Some j
  | part :: rest => match j with
                    | JObj m => match obj_get part m with Some v => json_parts v rest | None => None end
                    | _ => None
                    end
  end.
Definition json_lookup (m : object) (path : string) : option json :=
  if decide (m = [] \/ TrimSpace path = "") then None else json_parts (JObj m) (Split "."%char path).

(** The payload of an event is in the database as JSON; the data of a request is
    text. [None]: the payload is no JSON object. *)
Definition as_map (j : option json) : option object :=
  match j with
  | Some j => match dec_object j with Ok m => Some (default [] m) | Err _ => None end
  | None => None
  end.

Definition dedup_pieces (fields : list string) (m : object) : list string :=
  omap (fun f => Sprint fmtFloat <$> json_lookup m (normalizePayloadPath f)) fields.

Definition dedupHash (fields : list string) (payload : option json) : string :=
  if decide (fields = []) then ""
  else match as_map payload with
       | None => ""
       | Some m => let pieces := dedup_pieces fields m in
                   if decide (pieces = []) then "" else sha256_hex (Join "|" pieces)
       end.
Definition dedupKey (fields : list string) (payload : option json) : string :=
  if decide (fields = []) then ""
  else match as_map payload with
       | None => ""
       | Some m => Join "|" (dedup_pieces fields m)
       end.
End Dedup.

(** ** The payload of an event *)

Section Truncate.
Context (FormatFloat : Qc -> string).

Definition max_payload : Z := 1024 * 1024.
Definition size (s : string) : Z := Z.of_nat (String.length s).
Definition truncated_only : string := Marshal FormatFloat (JObj [("_truncated", JBool true)]).

(** A payload that is null has no map to mark: the assignment panics. *)
Definition nil_map_panic : goerr := Errorf "panic: assignment to entry in nil map" [].

Definition truncateRawPayload (raw : string) : result goerr string :=
  if (size raw <=? max_payload)%Z then Ok (if decide (raw = "") then "{}" else raw)
  else match decode_map raw with
       | Err _ => Ok truncated_only
       | Ok None => Err nil_map_panic
       | Ok (Some m) =>
           let out := Marshal FormatFloat
             (JObj (obj_set "_original_size" (JInt (size raw)) (obj_set "_truncated" (JBool true) m))) in
           Ok (if (max_payload <? size out)%Z then truncated_only else out)
       end.
End Truncate.

(** ** The adapter on small payloads *)

Module AdapterExample.
Definition no_js (s : string) (p : option json) : result goerr json := Err (Errorf "no engine" []).
Definition direct (s t : string) : FieldMapping := mkFieldMapping s t "" "" "".
Definition payload : string := Marshal (fun _ => "1")
  (JObj [("a", JObj [("b", JStr "x")]); ("c", JNum 1%Qc)]).

Example maps_fields :
  Apply no_js [direct "payload.a.b" "case.data.name"; direct "c" "data.deep.count"; direct "missing" "z";
               mkFieldMapping "" "kind" "Constant" "web" ""] payload =
  Ok (JObj [("deep", JObj [("count", JNum 1%Qc)]); ("kind", JStr "web"); ("name", JStr "x")]).
Proof. vm_compute. reflexivity. Qed.
End AdapterExample.
