(* ===== verification/ChannelStore.v ===== *)
(** * Channels: the tables and the transaction store ([store_pg.go], [case_type_adapter.go])

    The rows of [channels] and [channel_events] (migration [009_channels.sql])
    and the statements on them, and the statements a delivery runs on cases.
    [adapter_config] and [dedup_config] are kept decoded: the code writes what
    [json.Marshal] gives for them and reads it back. *)

From S2P Require Import Prelude GoStrings Json EngineTypes Store AuditTrail EngineOps TaskForms CaseData CaseOps.
From S2P Require Import GoText Effects JsonText Site AgenticStep Channels.

Record ChannelRow : Type := mkChannelRow { crChannel : Channel; crDeletedAt : option Z }.

Record EventRow : Type := mkEventRow {
  erID : uuid;
  erTenantID : uuid;
  erChannelID : uuid;
  erRawPayload : json;
  erAttachments : list AttachmentRef;
  erCaseID : option uuid;
  erStatus : string;
  erErrorMessage : string;
  erProcessingMS : Z;
  erCreatedAt : Z
}.

Record Tables : Type := mkTables {
  channels : gmap uuid ChannelRow;
  channel_events : list EventRow
}.
Definition set_channels (f : gmap uuid ChannelRow -> gmap uuid ChannelRow) (t : Tables) : Tables :=
  mkTables (f (channels t)) (channel_events t).
Definition add_event_row (e : EventRow) (t : Tables) : Tables := mkTables (channels t) (channel_events t ++ [e]).

Abbreviation CSite := (Site Tables).
Abbreviation CSvc := (Svc CSite).

Definition check_error : goerr := Errorf "violates check constraint" [].

(** ** Rows *)

Definition channel_types : list string := [ChannelEmail; ChannelWebhook; ChannelForm; ChannelFileDrop; ChannelPlugin].
Definition event_statuses : list string := [EventProcessed; EventDeduped; EventFailed].

(** The constraints of a row of [channels]. *)
Definition channel_check (c : Channel) (d : DB) : option goerr :=
  if decide (chConfig c = None) then Some json_syntax_error
  else if decide (chType c ∈ channel_types) then
    if decide (case_types d !! chCaseTypeID c = None) then Some fk_error
    else match chWorkflowID c with
         | Some wf => if decide (workflows d !! wf = None) then Some fk_error else None
         | None => None
         end
  else Some check_error.

Definition open_row (r : ChannelRow) : bool := bool_decide (crDeletedAt r = None).
Definition row_of (tenantID : uuid) (r : ChannelRow) : bool :=
  bool_decide (chTenantID (crChannel r) = tenantID) && open_row r.

Definition with_times (created updated : Z) (c : Channel) : Channel :=
  mkChannel (chID c) (chTenantID c) (chName c) (chType c) (chPluginRef c) (chConfig c) (chCaseTypeID c)
    (chWorkflowID c) (chAdapterConfig c) (chDedupConfig c) (chEnabled c) created updated.
Definition with_enabled (b : bool) (now : Z) (c : Channel) : Channel :=
  mkChannel (chID c) (chTenantID c) (chName c) (chType c) (chPluginRef c) (chConfig c) (chCaseTypeID c)
    (chWorkflowID c) (chAdapterConfig c) (chDedupConfig c) b (chCreatedAt c) now.

Definition created_before (a b : Channel) : Prop := (chCreatedAt a <= chCreatedAt b)%Z.
#[export] Instance created_before_dec : RelDecision created_before.
Proof. intros a b. unfold created_before. apply _. Defined.
Definition created_after (a b : Channel) : Prop := (chCreatedAt b <= chCreatedAt a)%Z.
#[export] Instance created_after_dec : RelDecision created_after.
Proof. intros a b. unfold created_after. apply _. Defined.
Definition newer_event (a b : EventRow) : Prop := (erCreatedAt b <= erCreatedAt a)%Z.
#[export] Instance newer_event_dec : RelDecision newer_event.
Proof. intros a b. unfold newer_event. apply _. Defined.
Definition updated_after (a b : uuid * CaseRow) : Prop := (cUpdatedAt b.2 <= cUpdatedAt a.2)%Z.
#[export] Instance updated_after_dec : RelDecision updated_after.
Proof. intros a b. unfold updated_after. apply _. Defined.
Definition older_principal (a b : uuid * PrincipalRow) : Prop := (pCreatedAt a.2 <= pCreatedAt b.2)%Z.
#[export] Instance older_principal_dec : RelDecision older_principal.
Proof. intros a b. unfold older_principal. apply _. Defined.

(** ** JSON columns *)

(** [data #>> '{a,b}']: a step into an object or, with a number, into an array;
    the text of what is found. *)
Definition json_step (j : json) (part : string) : option json :=
  match j with
  | JObj m => obj_get part m
  | JArr l =>
      match Atoi part with
      | Some i => if (0 <=? i)%Z then l !! Z.to_nat i
                  else if (- i <=? Z.of_nat (length l))%Z then l !! (length l - Z.to_nat (- i))%nat else None
      | None => None
      end
  | _ => None
  end.
Fixpoint json_path (j : json) (parts : list string) : option json :=
  match parts with
  | [] => Some j
  | part :: rest => match json_step j part with Some v => json_path v rest | None => None end
  end.

(** A field name that the array literal takes as it is. *)
Definition plain_part (s : string) : bool :=
  negb (bool_decide (s = "")) && negb (bool_decide (ToLower s = "null")) &&
  all_chars (fun a => is_alnum a || char_in a "_-") s.
Definition plain_field (f : string) : bool := forallb plain_part (Split "."%char f).

(** [extractStepIDs] *)
Definition extractStepIDs (ast : json) : list string :=
  let nodes := match ast with
               | JObj m => dec_field "nodes" (dec_list dec_step_id) [] m
               | JNull => Ok []
               | _ => Err (unmarshal_type_error "struct")
               end in
  match nodes with
  | Ok ids => filter (fun id => TrimSpace id <> "") ids
  | Err _ => []
  end.

Section Store.
Context `{R : Runtime}.
Context (regexp_match : string -> string -> option bool) (fmtFloat : Qc -> string).

(** A statement on the tables of this component. *)
Definition exec_site {A} (run : nat -> Z -> CSite -> result goerr (A * CSite)) : CSvc A := fun w =>
  match fault (ticks w) with
  | Some e => (Err e, mkSys (st w) (S (ticks w)))
  | None =>
      match run (ticks w) (sql_now (at_tick (ticks w) (world (st w)))) (st w) with
      | Ok (a, s) => (Ok a, mkSys s (S (ticks w)))
      | Err e => (Err e, mkSys (st w) (S (ticks w)))
      end
  end.
Definition select_site {A} (f : Tables -> A) : CSvc A := exec_site (fun _ _ s => Ok (f (own s), s)).
Definition select_row_site {A} (f : Tables -> option A) : CSvc A :=
  exec_site (fun _ _ s => match f (own s) with Some a => Ok (a, s) | None => Err ErrNoRows end).

(** ** Channels *)

Definition Create (c : Channel) : CSvc unit :=
  wrapS (Wrapf "create channel: %w" [])
    (exec_site (fun _ now s =>
       match channel_check c (db (world s)) with
       | Some e => Err e
       | None =>
           if decide (is_Some (channels (own s) !! chID c)) then Err unique_error
           else Ok (tt, set_own (set_channels (<[chID c := mkChannelRow (with_times now now c) None]>)) s)
       end)).

Definition Update (c : Channel) : CSvc unit :=
  wrapS (Wrapf "update channel: %w" [])
    (exec_site (fun _ now s =>
       match channels (own s) !! chID c with
       | Some r =>
           if row_of (chTenantID c) r then
             match channel_check c (db (world s)) with
             | Some e => Err e
             | None => Ok (tt, set_own (set_channels (<[chID c :=
                         mkChannelRow (with_times (chCreatedAt (crChannel r)) now c) None]>)) s)
             end
           else if decide (chConfig c = None) then Err json_syntax_error else Ok (tt, s)
       | None => if decide (chConfig c = None) then Err json_syntax_error else Ok (tt, s)
       end)).

Definition Get (tenantID channelID : uuid) : CSvc Channel :=
  select_row_site (fun t => match channels t !! channelID with
                            | Some r => if row_of tenantID r then Some (crChannel r) else None
                            | None => None
                            end).
Definition GetByID (channelID : uuid) : CSvc Channel :=
  select_row_site (fun t => match channels t !! channelID with
                            | Some r => if open_row r then Some (crChannel r) else None
                            | None => None
                            end).

Definition channel_rows (ok : ChannelRow -> bool) (t : Tables) : list Channel :=
  map crChannel (filter (fun r => ok r = true) (map snd (map_to_list (channels t)))).
Definition List_channels (tenantID : uuid) : CSvc (list Channel) :=
  wrapS (Wrapf "list channels: %w" [])
    (select_site (fun t => merge_sort created_after (channel_rows (row_of tenantID) t))).
Definition ListEnabled : CSvc (list Channel) :=
  wrapS (Wrapf "list enabled channels: %w" [])
    (select_site (fun t => merge_sort created_before
       (channel_rows (fun r => chEnabled (crChannel r) && open_row r) t))).

(** [SoftDelete] does not ask whether the channel is deleted already. *)
Definition SoftDelete (tenantID channelID : uuid) : CSvc unit :=
  wrapS (Wrapf "soft delete channel: %w" [])
    (exec_site (fun _ now s => Ok (tt, set_own (set_channels (alter (fun r =>
       if bool_decide (chTenantID (crChannel r) = tenantID)
       then mkChannelRow (with_enabled false now (crChannel r)) (Some now) else r) channelID)) s))).

Definition SetEnabled (tenantID channelID : uuid) (enabled : bool) : CSvc unit :=
  wrapS (Wrapf "update channel enabled flag: %w" [])
    (exec_site (fun _ now s => Ok (tt, set_own (set_channels (alter (fun r =>
       if row_of tenantID r then mkChannelRow (with_enabled enabled now (crChannel r)) (crDeletedAt r) else r)
       channelID)) s))).

(** ** Events *)

Definition clamp_limit (limit : Z) : Z :=
  let limit := if (limit <=? 0)%Z then 50 else limit in if (500 <? limit)%Z then 500 else limit.
Definition negative_offset : goerr := Errorf "pq: OFFSET must not be negative" [].
Definition ListEvents (tenantID channelID : uuid) (limit offset : Z) : CSvc (list EventRow) :=
  wrapS (Wrapf "list channel events: %w" [])
    (exec_site (fun _ _ s =>
       if (offset <? 0)%Z then Err negative_offset
       else Ok (take (Z.to_nat (clamp_limit limit)) (drop (Z.to_nat offset)
              (merge_sort newer_event (filter (fun e => erTenantID e = tenantID /\ erChannelID e = channelID)
                 (channel_events (own s))))), s))).

(** [INSERT INTO channel_events]: the payload is text that has to be JSON. *)
Definition insert_event_row (id : uuid) (now : Z) (e : ChannelEvent) (s : CSite) : result goerr (uuid * CSite) :=
  match json_parse (ceRawPayload e) with
  | None => Err json_syntax_error
  | Some payload =>
      if decide (channels (own s) !! ceChannelID e = None) then Err fk_error
      else if (match ceCaseID e with
               | Some c => bool_decide (cases (db (world s)) !! c = None) | None => false end) then Err fk_error
      else if decide (ceStatus e ∈ event_statuses) then
        if negb (int4_ok (ceProcessingMS e)) then Err int4_error
        else if decide (id ∈ map erID (channel_events (own s))) then Err unique_error
        else Ok (id, set_own (add_event_row (mkEventRow id (ceTenantID e) (ceChannelID e) payload (ceAttachments e)
                   (ceCaseID e) (ceStatus e) (ceErrorMessage e) (ceProcessingMS e) now)) s)
      else Err check_error
  end.
Definition insertEvent (e : ChannelEvent) : CSvc uuid :=
  wrapS (Wrapf "insert channel event: %w" [])
    (exec_site (fun k now s => insert_event_row (gen_random_uuid k) now e s)).
Definition RecordEvent (e : ChannelEvent) : CSvc uuid := insertEvent e.
Definition RecordFailedEvent (e : ChannelEvent) : CSvc uuid := insertEvent e.

(** ** The transaction *)

Definition restore_own (t : Tables) (w : Sys CSite) : Sys CSite := mkSys (set_own (fun _ => t) (st w)) (ticks w).

(** [WithTx]: the tables of this component take part in the transaction. *)
Definition WithTx {A} (fn : CSvc A) : CSvc A := fun w =>
  match wrapS (Wrapf "begin channel transaction: %w" []) (liftM begin_tx) w with
  | (Err e, w1) => (Err e, w1)
  | (Ok _, w1) =>
      match fn w1 with
      | (Err e, w2) => (Err e, restore_own (own (st w)) (rollbackS w2))
      | (Ok a, w2) =>
          match liftM commit_tx w2 with
          | (Err e, w3) => (Err (Wrapf "commit channel transaction: %w" [] e), restore_own (own (st w)) w3)
          | (Ok _, w3) => (Ok a, w3)
          end
      end
  end.

Definition GetChannel (tenantID channelID : uuid) : CSvc Channel := Get tenantID channelID.

Definition FindRecentEvents (tenantID channelID : uuid) (since : Z) : CSvc (list EventRow) :=
  wrapS (Wrapf "query recent channel events: %w" [])
    (select_site (fun t => merge_sort newer_event (filter (fun e =>
       erTenantID e = tenantID /\ erChannelID e = channelID /\ (since <= erCreatedAt e)%Z) (channel_events t)))).

(** *** Cases *)

(** The text of a column as [#>>] gives it; a null has none. *)
Definition column_text (j : json) : option string :=
  match j with JStr s => Some s | JNull => None | _ => Some (jsonb_text j) end.

(** A field name with other characters changes the statement it is pasted into:
    what that does is left open. *)
Context (odd_query : uuid -> uuid -> list (string * string) -> DB -> result goerr (option uuid)).

Definition case_matches (tenantID caseTypeID : uuid) (conds : list (string * string)) (c : CaseRow) : bool :=
  bool_decide (cTenant c = tenantID) && bool_decide (cCaseType c = caseTypeID) &&
  forallb (fun fv => bool_decide (json_path (cData c) (Split "."%char fv.1) ≫= column_text = Some fv.2)) conds.

Definition find_case (tenantID caseTypeID : uuid) (conds : list (string * string)) (d : DB)
  : result goerr (option uuid) :=
  if forallb (fun fv => plain_field fv.1) conds
  then Ok (fst <$> head (merge_sort updated_after (filter (fun kv =>
             case_matches tenantID caseTypeID conds kv.2 = true) (map_to_list (cases d)))))
  else odd_query tenantID caseTypeID conds d.

Definition FindCaseByFields (tenantID caseTypeID : uuid) (fields : list string) (inbound : string)
  : CSvc (option uuid) :=
  if decide (fields = []) then mret None
  else match as_map (json_parse inbound) with
       | None => mret None
       | Some payload =>
           let conds := omap (fun f => (fun v => (f, Sprint fmtFloat v)) <$> json_lookup payload f) fields in
           if decide (conds = []) then mret None
           else wrapS (Wrapf "find matching case: %w" [])
             (liftM (sql (fun _ _ d => r ← find_case tenantID caseTypeID conds d; Ok (r, d))))
       end.

Definition first_principal (tenantID : uuid) (d : DB) : option uuid :=
  fst <$> head (merge_sort older_principal (filter (fun kv : uuid * PrincipalRow =>
    pTenant kv.2 = tenantID /\ pActive kv.2 = true) (map_to_list (principals d)))).

Record CreateInput : Type := mkCreateInput {
  ciTenantID : uuid;
  ciChannelID : uuid;
  ciCaseTypeID : uuid;
  ciWorkflowID : option uuid;
  ciData : object;
  ciActorID : uuid
}.

Definition published_of (wf : uuid) (d : DB) : list ((uuid * Z) * VersionRow) :=
  filter (fun kv => kv.1.1 = wf /\ vStatus kv.2 = Published) (map_to_list (workflow_versions d)).
Definition default_workflows (tenantID : uuid) (caseType : string) (d : DB) : list ((uuid * Z) * VersionRow) :=
  filter (fun kv => vStatus kv.2 = Published /\
    match workflows d !! kv.1.1 with
    | Some wf => bool_decide (wfTenant wf = tenantID) && bool_decide (wfCaseType wf = caseType)
    | None => false
    end = true) (map_to_list (workflow_versions d)).

(** [case validation failed: %s] with the first message; a schema that does not
    decode is not checked. *)
Definition validate_data (schema : json) (data : object) : result goerr unit :=
  match dec_CaseTypeSchema schema with
  | Err _ => Ok tt
  | Ok s => match ValidateCaseData regexp_match fmtFloat s data with
            | [] => Ok tt
            | e :: _ => Err (Errorf "case validation failed: %s" [veMessage e])
            end
  end.

Definition channel_case_number (caseType : string) (n : Z) : string :=
  ToUpper (replace_byte " "%char "-" caseType) +:+ "-" +:+ fmt_06d n.

Definition CreateCase (i : CreateInput) : M uuid :=
  actor ← (if decide (ciActorID i = uuid_Nil)
           then wrapM (Wrapf "resolve channel actor: %w" [])
                  (query_row (fun _ d => first_principal (ciTenantID i) d))
           else mret (ciActorID i));
  ct ← wrapM (Wrapf "resolve case type for channel: %w" [])
    (query_row (fun _ d => match case_types d !! ciCaseTypeID i with
                           | Some r => if bool_decide (ctTenant r = ciTenantID i) && ctActive r
                                       then Some r else None
                           | None => None
                           end));
  _ ← lift (validate_data (ctSchema ct) (ciData i));
  wf ← match ciWorkflowID i with
       | Some wf => wrapM (Wrapf "resolve workflow version: %w" [])
           (query_row (fun _ d => latest (fun kv : (uuid * Z) * VersionRow => kv.1.2) (published_of wf d)))
       | None => wrapM (Wrapf "resolve default workflow for channel case type: %w" [])
           (query_row (fun _ d => latest (fun kv : (uuid * Z) * VersionRow => kv.1.2)
              (default_workflows (ciTenantID i) (ctName ct) d)))
       end;
  lastNum ← wrapM (Wrapf "allocate case number: %w" [])
    (sql (fun _ _ d => next_number (ciTenantID i) (ctName ct) d));
  caseID ← wrapM (Wrapf "insert channel-created case: %w" [])
    (sql (fun k now d =>
       match insert_case (gen_random_uuid k)
               (mkCaseRow (ciTenantID i) (ciCaseTypeID i) (channel_case_number (ctName ct) lastNum) CaseOpen
                  (JObj (ciData i)) 1 now None 0 wf.1.1 wf.1.2 now actor None) d with
       | Ok (_, d') => Ok (gen_random_uuid k, d')
       | Err e => Err e
       end));
  _ ← mapM_ (fun stepID =>
        wrapM (Wrapf "initialize case step %s: %w" [stepID])
          (sql (fun k _ d => insert_step (gen_random_uuid k) caseID stepID d))) (extractStepIDs (vAst wf.2));
  _ ← RecordCaseEventTx caseID "" "case" actor "system" "created"
    (JObj (mk_obj [("source", JStr "channel"); ("channel_id", JStr (uuid_string (ciChannelID i)))]));
  mret caseID.

(** [UPDATE cases SET data = ..., version = version + 1] *)
Definition replace_data (tenantID id : uuid) (data : json) (now : Z) (d : DB) : result goerr (unit * DB) :=
  match cases d !! id with
  | Some c =>
      if bool_decide (cTenant c = tenantID) then
        if (cVersion c =? int4_max)%Z then Err int4_error
        else Ok (tt, set_cases <[id := data_row now data c]> d)
      else Ok (tt, d)
  | None => Ok (tt, d)
  end.

Definition UpdateCaseData (tenantID caseID : uuid) (patch : object) : M unit :=
  if decide (patch = []) then mret tt
  else
    row ← wrapM (Wrapf "load existing case for channel update: %w" [])
      (query_row (fun _ d => tenant_case tenantID caseID d));
    let current := match dec_object (cData row.1) with Ok m => default [] m | Err _ => [] end in
    let merged := DeepMerge current patch in
    _ ← lift (validate_data (ctSchema row.2) merged);
    _ ← wrapM (Wrapf "update channel-matched case data: %w" [])
      (sql (fun _ now d => replace_data tenantID caseID (JObj merged) now d));
    RecordCaseEventTx caseID "" "case" (cCreatedBy row.1) "system" "updated"
      (JObj [("source", JStr "channel")]).

(** [CaseTypeSchemaStore.GetFormSchema] *)
Definition GetFormSchema (tenantID caseTypeID : uuid) : M json :=
  query_row (fun _ d => match case_types d !! caseTypeID with
                        | Some r => if bool_decide (ctTenant r = tenantID) then Some (ctSchema r) else None
                        | None => None
                        end).
End Store.
