(* ===== verification/ChannelPipeline.v ===== *)
(** * Channels: the delivery ([pipeline.go], [dedup.go], [vault_adapter.go],
      [trigger_adapter.go])

    [Process] takes what arrived on a channel: it looks for a duplicate, maps the
    payload to case data, creates a case or changes the one it matches, stores
    attachments, starts the workflow and records an event, all in one transaction;
    when that fails it records a failed event outside. The engine and the vault
    are called on their own connections. *)

From S2P Require Import Prelude GoStrings Json EngineTypes Store AuditTrail EngineOps TaskForms CaseData CaseOps.
From S2P Require Import GoText Effects JsonText GoPath Site VaultStore Vault Channels ChannelStore Triggers.

Definition ErrChannelDisabled : goerr := Errorf "channel is disabled" [].
Definition ErrDeduped : goerr := Errorf "channel event deduplicated" [].

(** [map[string]any{"attachments": refs}] *)
Definition ref_json (r : AttachmentRef) : json :=
  JObj (mk_obj [("vault_id", JStr (uuid_string (arVaultID r))); ("filename", JStr (arFilename r));
                ("content_type", JStr (arContentType r)); ("size", JInt (arSize r));
                ("checksum", JStr (arChecksum r))]).
Definition refs_patch (refs : list AttachmentRef) : object := [("attachments", JArr (map ref_json refs))].

Section Pipeline.
Context `{R : Runtime}.
Context (regexp_match : string -> string -> option bool) (fmtFloat : Qc -> string)
  (odd_query : uuid -> uuid -> list (string * string) -> DB -> result goerr (option uuid))
  (RunString : string -> option json -> result goerr json).

(** ** Duplicates *)

Definition dedup_window (c : DedupConfig) : Z :=
  if (0 <? ddWindowMins c)%Z then wrap64 (ddWindowMins c * Minute) else 24 * Hour.

(** The first recent event with the key. *)
Definition duplicate_of (key : option json -> string) (data : string) (recent : list EventRow)
  : bool * option uuid :=
  let target := key (json_parse data) in
  if decide (target = "") then (false, None)
  else match filter (fun e => key (Some (erRawPayload e)) = target) recent with
       | e :: _ => (true, erCaseID e)
       | [] => (false, None)
       end.

Definition unsupported_strategy (s : string) : goerr := Errorf "unsupported dedup strategy: %s" [s].

Definition DedupCheck (tenantID caseTypeID channelID : uuid) (config : DedupConfig) (data : string)
  : CSvc (bool * option uuid) :=
  let strategy := TrimSpace (ToLower (ddStrategy config)) in
  if decide (strategy = "") then mret (false, None)
  else
    now ← nowS;
    recent ← FindRecentEvents tenantID channelID (now - dedup_window config)%Z;
    if decide (strategy = "field_hash") then mret (duplicate_of (dedupHash fmtFloat (ddFields config)) data recent)
    else if decide (strategy = "time_window") then
      mret (duplicate_of (dedupKey fmtFloat (ddFields config)) data recent)
    else if decide (strategy = "case_match") then
      caseID ← FindCaseByFields fmtFloat odd_query tenantID caseTypeID (ddFields config) data;
      mret (false, caseID)
    else fail (unsupported_strategy strategy).

(** ** Delivery *)

(** What the pipeline calls: [WorkflowEngine] and [AttachmentService]. *)
Context (workflowEngine : option (uuid -> M unit))
  (attachments : option (uuid -> uuid -> AttachmentInput -> CSvc AttachmentRef)).

Definition since_ms (start now : Z) : Z := ((now - start) / Millisecond)%Z.

Definition record_duplicate (req : ChannelRequest) (ch : Channel) (rawPayload : string) (start : Z)
    (matchCaseID : option uuid) : CSvc PipelineResult :=
  now ← nowS;
  eventID ← RecordEvent (mkChannelEvent (rqTenantID req) (chID ch) rawPayload [] matchCaseID EventDeduped ""
              (since_ms start now));
  mret (mkPipelineResult (default uuid_Nil matchCaseID) true eventID).

Fixpoint store_all (store : AttachmentInput -> CSvc AttachmentRef) (l : list AttachmentInput)
  : CSvc (list AttachmentRef) :=
  match l with
  | [] => mret []
  | i :: l' => ref ← store i; refs ← store_all store l'; mret (ref :: refs)
  end.

(** The case a delivery ends in, and whether it is new. *)
Definition target_case (req : ChannelRequest) (ch : Channel) (matchCaseID : option uuid) (adapted : object)
  : CSvc (uuid * bool) :=
  match matchCaseID with
  | Some caseID =>
      _ ← liftM (UpdateCaseData regexp_match fmtFloat (rqTenantID req) caseID adapted);
      mret (caseID, false)
  | None =>
      caseID ← liftM (CreateCase regexp_match fmtFloat (mkCreateInput (rqTenantID req) (chID ch) (chCaseTypeID ch)
                        (chWorkflowID ch) adapted (rqActorID req)));
      mret (caseID, true)
  end.

Definition deliver (req : ChannelRequest) (ch : Channel) (rawPayload : string) (start : Z)
    (matchCaseID : option uuid) : CSvc PipelineResult :=
  adaptedJSON ← pureS (Apply RunString (chAdapterConfig ch) (rqPayload req));
  adapted ← wrapS (Wrapf "decode adapted payload: %w" []) (pureS (dec_object adaptedJSON));
  tc ← target_case req ch matchCaseID (default [] adapted);
  refs ← match attachments with
         | Some store => store_all (fun i => other_connection (store (rqTenantID req) tc.1 i)) (rqAttachments req)
         | None => mret []
         end;
  _ ← (if decide (refs = []) then mret tt
       else liftM (UpdateCaseData regexp_match fmtFloat (rqTenantID req) tc.1 (refs_patch refs)));
  _ ← match chWorkflowID ch, workflowEngine with
      | Some _, Some engine =>
          if tc.2 : bool then other_connection (liftM (engine tc.1)) else mret tt
      | _, _ => mret tt
      end;
  now ← nowS;
  eventID ← RecordEvent (mkChannelEvent (rqTenantID req) (chID ch) rawPayload refs (Some tc.1) EventProcessed ""
              (since_ms start now));
  mret (mkPipelineResult tc.1 false eventID).

(** The function that runs in the transaction. *)
Definition process_tx (req : ChannelRequest) (rawPayload : string) (start : Z) : CSvc PipelineResult :=
  ch ← GetChannel (rqTenantID req) (rqChannelID req);
  if negb (chEnabled ch) then fail ErrChannelDisabled
  else
    let dedup := default (chDedupConfig ch) (rqDedupOverride req) in
    dup ← DedupCheck (rqTenantID req) (chCaseTypeID ch) (chID ch) dedup (rqPayload req);
    if dup.1 : bool then record_duplicate req ch rawPayload start dup.2
    else deliver req ch rawPayload start dup.2.

Definition failed_event (req : ChannelRequest) (rawPayload : string) (e : goerr) (ms : Z) : ChannelEvent :=
  mkChannelEvent (rqTenantID req) (rqChannelID req) rawPayload [] None EventFailed (Error e) ms.

Definition Process (req : ChannelRequest) : CSvc PipelineResult :=
  start ← nowS;
  if decide (rqTenantID req = uuid_Nil \/ rqChannelID req = uuid_Nil)
  then fail (Errorf "tenant_id and channel_id are required" [])
  else
    rawPayload ← pureS (truncateRawPayload fmtFloat (rqPayload req));
    r ← tryS (WithTx (process_tx req rawPayload start));
    match r with
    | Ok res => if prDeduped res then fail ErrDeduped else mret res
    | Err e =>
        now ← nowS;
        _ ← ignoreS (RecordFailedEvent (failed_event req rawPayload e (since_ms start now)));
        fail e
    end.
End Pipeline.

(** ** Attachments in the vault ([vault_adapter.go]) *)

Section VaultAttachments.
Context `{R : Runtime} (TypeByExtension DetectContentType : string -> string) `{VS : !VaultStore Tables}.

Definition extForMime (mime : string) : string :=
  if decide (mime = "application/pdf") then ".pdf"
  else if decide (mime = "text/plain") then ".txt"
  else if decide (mime = "text/csv") then ".csv"
  else if decide (Ext mime = "") then ".bin" else Ext mime.

Definition resolveActor (tenantID caseID : uuid) : CSvc uuid :=
  creator ← tryS (liftM (query_row (fun _ d => match cases d !! caseID with
                            | Some c => if decide (cTenant c = tenantID) then Some (cCreatedBy c) else None
                            | None => None
                            end)));
  match creator with
  | Ok a => mret a
  | Err _ => wrapS (Wrapf "resolve actor for attachment upload: %w" [])
      (liftM (query_row (fun _ d => first_principal tenantID d)))
  end.

Definition Store_attachment (tenantID caseID : uuid) (i : AttachmentInput) : CSvc AttachmentRef :=
  actorID ← resolveActor tenantID caseID;
  let mime := if decide (TrimSpace (aiContentType i) = "") then DetectContentType (aiData i)
              else TrimSpace (aiContentType i) in
  let filename := if decide (TrimSpace (aiFilename i) = "") then "attachment" +:+ extForMime mime
                  else TrimSpace (aiFilename i) in
  doc ← Upload TypeByExtension tenantID
    (mkUploadInput caseID filename mime (aiData i) (Some [("source", JStr "channel")]) "" actorID);
  mret (mkAttachmentRef (docID doc) (docFilename doc) (docMimeType doc) (docSizeBytes doc) (sha256_hex (aiData i))).
End VaultAttachments.

(** ** Triggers deliver to channels ([trigger_adapter.go]) *)

(** [triggers.AttachmentInput]: name, type and content. *)
Definition toAttachmentInputs (l : list (string * string * string)) : list AttachmentInput :=
  map (fun a => mkAttachmentInput a.1.1 a.1.2 a.2) l.

Definition TriggerProcess (process : option (ChannelRequest -> CSvc PipelineResult)) (req : PipelineRequest)
    (files : list (string * string * string)) : CSvc PipelineResult :=
  match process with
  | None => mret no_result
  | Some process =>
      process (mkChannelRequest (prTenantID req) (prChannelID req) (prData req) (toAttachmentInputs files)
                 (prSource req) uuid_Nil None)
  end.
