(* ===== verification/ChannelClaims.v ===== *)
(** * Claims about deliveries: what a delivery does to the tables

    Facts about the statements of a delivery, and triples for the function that
    runs in its transaction: from tables [d0] and the channel tables [t0], what
    holds when it succeeds. *)

From S2P Require Import Prelude GoStrings Json EngineTypes Store AuditTrail EngineOps EngineAtomic EngineEvaluate TaskForms.
From S2P Require Import CaseData CaseOps GoText Effects JsonText GoPath Site VaultStore Vault Channels ChannelStore ChannelPipeline.

Section Facts.
Context `{R : Runtime}.
Context (regexp_match : string -> string -> option bool) (fmtFloat : Qc -> string).

Lemma inner_UpdateCaseData t c p : inner (ChannelStore.UpdateCaseData regexp_match fmtFloat t c p).
Proof. unfold ChannelStore.UpdateCaseData. inner. Qed.

Lemma inner_CreateCase i : inner (ChannelStore.CreateCase regexp_match fmtFloat i).
Proof. unfold ChannelStore.CreateCase. inner. Qed.

Lemma query_row_db {A} (f : Z -> DB -> option A) w a w' : query_row f w = (Ok a, w') -> db w' = db w.
Proof. unfold query_row, sql. destruct (fault _); [done|]. destruct (f _ _); [|done]. by intros [= _ <-]. Qed.

Lemma wrapM_Ok_inv {A} g (m : M A) w a w' : wrapM g m w = (Ok a, w') -> m w = (Ok a, w').
Proof. unfold wrapM. destruct (m w) as [[?|?] ?]; [done|discriminate]. Qed.

(** The identifier of a new case was not in use. *)
Lemma CreateCase_fresh i w id w' :
  ChannelStore.CreateCase regexp_match fmtFloat i w = (Ok id, w') -> cases (db w) !! id = None.
Proof.
  unfold ChannelStore.CreateCase. intros H.
  apply bind_Ok in H as (actor & w1 & H1 & H).
  assert (db w1 = db w) as E1.
  { destruct (decide _); [by apply wrapM_Ok_inv, query_row_db in H1|]. by injection H1 as _ <-. }
  apply bind_Ok in H as (ct & w2 & H2 & H). apply wrapM_Ok_inv, query_row_db in H2.
  apply bind_Ok in H as (u & w3 & H3 & H). unfold lift in H3. injection H3 as _ <-.
  apply bind_Ok in H as (wf & w4 & H4 & H).
  assert (db w4 = db w2) as E4 by (destruct (ciWorkflowID i); by apply wrapM_Ok_inv, query_row_db in H4).
  apply bind_Ok in H as (n & w5 & H5 & H). apply wrapM_Ok_inv in H5.
  assert (cases (db w5) = cases (db w4)) as E5.
  { revert H5. unfold sql. destruct (fault _); [done|]. unfold next_number.
    destruct (case_number_sequences _ !! _) as [z|]; [destruct (_ =? _)%Z; [done|]|]; by intros [= _ <-]. }
  apply bind_Ok in H as (cid & w6 & H6 & H). apply wrapM_Ok_inv in H6.
  assert (cid = id) as -> by (do 2 apply bind_Ok in H as (? & ? & ? & H); by injection H as ->).
  revert H6. unfold sql. destruct (fault _); [done|]. unfold insert_case.
  destruct (negb _); [done|]. destruct (decide (is_Some _)) as [|Hn]; [done|].
  destruct (decide (number_taken _ _ _)); [done|]. destruct (decide (_ = None)); [done|]. intros [= <- _].
  rewrite <-E1, <-H2, <-E4, <-E5. by apply eq_None_not_Some.
Qed.

Definition same_cases (d d' : DB) : Prop := dom (cases d') = dom (cases d).
#[export] Instance same_cases_preorder : PreOrder same_cases.
Proof. split; [done|]. intros a b c H1 H2. unfold same_cases in *. congruence. Qed.

Lemma UpdateCaseData_cases t c p : keeps same_cases (ChannelStore.UpdateCaseData regexp_match fmtFloat t c p).
Proof.
  unfold ChannelStore.UpdateCaseData. destruct (decide _); [apply keeps_ret; exact _|].
  apply keeps_bind; [exact _|apply keeps_wrapM, keeps_query_row; exact _|]. intros row.
  apply keeps_bind; [exact _|apply keeps_lift; exact _|]. intros _.
  apply keeps_bind; [exact _| |intros _; apply RecordCaseEventTx_keeps; [exact _|]; intros d e _ _; done].
  apply keeps_wrapM, keeps_sql; [exact _|]. intros k now d a d'. unfold replace_data.
  destruct (cases d !! c) as [r|] eqn:E; [|by intros [= _ <-]].
  destruct (bool_decide _); [|by intros [= _ <-]]. destruct (_ =? _)%Z; [done|]. intros [= _ <-].
  unfold same_cases. simpl. rewrite dom_insert_L. apply elem_of_dom_2 in E. set_solver.
Qed.

(** An engine finds no case that is not committed. *)
Lemma evaluateDAG_absent e id w :
  cases (db w) !! id = None ->
  exists err w', evaluateDAG e id w = (Err err, w') /\ unchanged w w'.
Proof.
  intros Hn. destruct (evaluateDAG e id w) as [[u|err] w'] eqn:E; [exfalso|].
  - unfold evaluateDAG, with_tx, wrapM at 1, begin_tx in E. destruct (fault _); [done|].
    cbn [fst snd] in E. unfold mbind, M_bind, wrapM at 1, query_row at 1, sql at 1 in E.
    destruct (fault _); [done|]. cbn [db] in E. rewrite Hn in E. cbn in E. done.
  - exists err, w'. split; [done|]. by eapply evaluateDAG_atomic.
Qed.
End Facts.

(** ** What a service of attachments may do *)

(** One upload: a document of the tenant and the event that it was uploaded. *)
Definition upload_step (t : uuid) (d d' : DB) : Prop := exists id row ev,
  vault_documents d !! id = None /\ dTenant row = t /\ dCase row = Some (evCaseID ev) /\
  evEventType ev = "document" /\ evAction ev = "uploaded" /\
  d' = set_events (fun l => l ++ [ev]) (set_documents <[id := row]> d).

Lemma upload_step_cases t d d' : upload_step t d d' -> cases d' = cases d.
Proof. by intros (id & row & ev & _ & _ & _ & _ & _ & ->). Qed.

(** What runs on a connection of its own and leaves one upload or nothing in the
    tables, and nothing in those of the channels. *)
Definition attachment_service (store : uuid -> uuid -> AttachmentInput -> CSvc AttachmentRef) : Prop :=
  forall t c i w, saved (world (st w)) = None ->
  let s' := st (store t c i w).2 in
  own s' = own (st w) /\ jobs (world s') = jobs (world (st w)) /\
  (db (world s') = db (world (st w)) \/ upload_step t (db (world (st w))) (db (world s'))).

(** What a delivery leaves behind when it fails: the uploads for its attachments,
    and nothing when it has none. *)
Definition uploads (t : uuid) (quiet : Prop) (d d' : DB) : Prop := rtc (upload_step t) d d' /\ (quiet -> d' = d).
#[export] Instance uploads_preorder t quiet : PreOrder (uploads t quiet).
Proof.
  split; [by intros d|]. intros a b c [H1 E1] [H2 E2]. split; [by etrans|]. intros Hq. rewrite E2, E1; done.
Qed.
Lemma uploads_cases t quiet d d' : uploads t quiet d d' -> cases d' = cases d.
Proof.
  intros [H _]. induction H as [|a b c H _ IH]; [done|]. rewrite IH. by eapply upload_step_cases.
Qed.

(** A store of content that leaves the tables alone. *)
Definition content_only `{VS : !VaultStore Tables} : Prop :=
  forall t h e data (w : Sys CSite), world (st (store_Put t h e data w).2) = world (st w) /\
    own (st (store_Put t h e data w).2) = own (st w).

Definition same_site (s s' : CSite) : Prop := world s' = world s /\ own s' = own s.
#[export] Instance same_site_preorder : PreOrder same_site.
Proof. split; [by intros s|]. intros s1 s2 s3 [E1 E2] [E3 E4]. split; congruence. Qed.

Lemma LocalPut_content `{R : Runtime} hmac torn lv : content_only (VS := local_store hmac torn lv).
Proof.
  intros t h e data w. revert w. change (keepsS same_site (LocalPut torn lv t h e data)).
  assert (forall {A} (run : nat -> Z -> CSite -> result goerr (A * CSite)),
    (forall k now s a s', run k now s = Ok (a, s') -> same_site s s') -> keepsS same_site (exec run)) as Hx
    by (intros A run; apply keepsS_exec; exact _).
  assert (forall path d, keepsS same_site (os_WriteFile (X := Tables) torn path d)) as Hw.
  { intros path d w. unfold os_WriteFile. destruct (fault _); [destruct (torn _ _)|]; done. }
  unfold LocalPut, os_MkdirAll, os_Stat. cbv zeta.
  repeat first [apply Hw|apply Hx; intros ????? [= _ <-]; done|keeps_step].
Qed.

(** What a reading statement leaves alone. *)
Definition same_tables (s s' : CSite) : Prop :=
  own s' = own s /\ jobs (world s') = jobs (world s) /\ saved (world s') = saved (world s) /\ db (world s') = db (world s).
Lemma query_row_same `{R : Runtime} {A} (f : Z -> DB -> option A) (w : Sys CSite) :
  same_tables (st w) (st (liftM (query_row f) w).2).
Proof. unfold liftM, query_row, sql. destruct (fault _); [done|]. by destruct (f _ _). Qed.
Lemma query_same `{R : Runtime} {A} (f : Z -> DB -> A) (w : Sys CSite) :
  same_tables (st w) (st (liftM (query f) w).2).
Proof. unfold liftM, query, sql. by destruct (fault _). Qed.

Section Uploading.
Context `{R : Runtime} (TypeByExtension DetectContentType : string -> string) `{VS : !VaultStore Tables} (Hput : content_only).
Context (d0 : DB) (t0 : Tables) (jb : list job) (t c : uuid).

(** The upload's own transaction on [d0], or after it. *)
Definition upload_tx_ok (s : CSite) : Prop :=
  own s = t0 /\ jobs (world s) = jb /\
  (saved (world s) = Some d0 \/ saved (world s) = None /\ (db (world s) = d0 \/ upload_step t d0 (db (world s)))).
Local Abbreviation tri := (tripleS upload_tx_ok).
Definition writing (P : DB -> Prop) (s : CSite) : Prop := saved (world s) = Some d0 /\ P (db (world s)).

Lemma tri_inner {A} (m : M A) (P : DB -> Prop) (Q : A -> DB -> Prop) :
  inner m -> (forall w a w', P (db w) -> m w = (Ok a, w') -> Q a (db w')) ->
  tri (writing P) (liftM m) (fun a => writing (Q a)).
Proof.
  intros Hm HQ w (Ho & Hj & _) [Hs HP]. unfold liftM. specialize (Hm (at_tick (ticks w) (world (st w)))).
  specialize (HQ (at_tick (ticks w) (world (st w)))). destruct (m _) as [[a|err] w']; simpl in *; destruct Hm as (H1 & H2 & H3).
  - split; [split_and!; simpl; [done|congruence|left; congruence]|]. split; [simpl; congruence|]. simpl. by eapply HQ.
  - split_and!; simpl; [done|congruence|left; congruence].
Qed.

Lemma tri_put h e data P : tri (writing P) (store_Put (uuid_string t) h e data) (fun _ => writing P).
Proof.
  intros w Hi Hp. destruct (Hput (uuid_string t) h e data w) as [Hw Ho].
  destruct (store_Put _ _ _ _ w) as [[u|err] w']; cbn [snd] in *; unfold upload_tx_ok, writing in *; by rewrite Hw, Ho.
Qed.

Lemma tri_commit : tri (writing (upload_step t d0)) (liftM commit_tx) (fun _ _ => True).
Proof.
  intros w (Ho & Hj & _) [Hs HP]. unfold liftM, commit_tx. destruct (fault _); cbn.
  - split; [done|]. split; [done|]. right. split; [done|]. left. by rewrite Hs.
  - split; [|done]. split; [done|]. split; [done|]. right. split; [done|]. by right.
Qed.

Lemma upload_body mime i :
  upCaseID i = c ->
  tri (writing (fun d => d = d0)) (
    found ← tryS (liftM (query_row (fun _ d => stored_uri t (ContentHash (upData i)) d)));
    let known := match found with Ok u => u | Err _ => "" end in
    uri ← (if decide (known = "") then store_Put (uuid_string t) (ContentHash (upData i)) (TrimPrefix (Ext (upFilename i)) ".") (upData i)
           else mret known);
    row ← wrapS (Wrapf "insert vault metadata row: %w" [])
      (liftM (sql (fun k now d => insert_document (gen_random_uuid k) (new_row t mime uri i now) d)));
    _ ← liftM (RecordCaseEventTx (upCaseID i) (upStepID i) "document" (upUploadedBy i) "human" "uploaded"
                 (upload_event row.1 (upFilename i) (ContentHash (upData i)) (dSizeBytes row.2)));
    _ ← wrapS (Wrapf "commit upload tx: %w" []) (liftM commit_tx);
    mret (document_of row)) (fun _ _ => True).
Proof.
  intros Hc. eapply (triple_bind _ _ _ _ (fun _ => writing (fun d => d = d0))).
  { apply triple_try. intros w (Ho & Hj & _) [Hs Hd].
    destruct (query_row_same (fun _ d => stored_uri t (ContentHash (upData i)) d) w) as (E1 & E2 & E3 & E4).
    unfold upload_tx_ok, writing. rewrite E1, E2, E3, E4. split_and!; auto. }
  intros found. cbv zeta. eapply (triple_bind _ _ _ _ (fun _ => writing (fun d => d = d0))).
  { destruct (decide _); [apply tri_put|by apply triple_ret]. }
  intros uri. eapply (triple_bind _ _ _ _ (fun _ => writing (fun d => exists id r, vault_documents d0 !! id = None /\ dTenant r = t /\
    dCase r = Some c /\ d = set_documents <[id := r]> d0))).
  { apply triple_wrap, tri_inner; [apply inner_sql|]. intros w a w' Ew H. unfold sql in H. rewrite Ew in H. destruct (fault _); [done|].
    destruct (insert_document _ _ _) as [[row d]|] eqn:E; [|done]. injection H as <- <-. unfold insert_document in E.
    destruct (decide (is_Some _)) as [|Hn]; [done|]. destruct (match dCase _ with Some _ => _ | None => _ end); [done|].
    destruct (decide _); [done|]. injection E as <- <-. do 2 eexists. split_and!; [by apply eq_None_not_Some|..|reflexivity]; [done|cbn; by rewrite Hc]. }
  intros row. eapply (triple_bind _ _ _ _ (fun _ => writing (upload_step t d0))).
  { apply tri_inner; [apply inner_record|]. intros w a w' (id & r & Hn & Ht & Hr & Hd) H.
    pose proof (RecordCaseEventTx_spec (upCaseID i) (upStepID i) "document" (upUploadedBy i) "human" "uploaded"
      (upload_event row.1 (upFilename i) (ContentHash (upData i)) (dSizeBytes row.2)) w) as Hs.
    rewrite H in Hs. destruct a, Hs as (_ & _ & _ & _ & _ & ev & Hrec & Hdb & _). exists id, r, ev.
    rewrite Hdb, Hd, Hr. split_and!; [done|done|f_equal; rewrite (rec_case _ _ _ _ _ _ _ _ _ Hrec); congruence
      |apply (rec_type _ _ _ _ _ _ _ _ _ Hrec)|apply (rec_action _ _ _ _ _ _ _ _ _ Hrec)|done]. }
  intros ?. eapply triple_bind; [apply triple_wrap, tri_commit|]. intros ?. by apply triple_ret.
Qed.
End Uploading.

Section Adapter.
Context `{R : Runtime} (TypeByExtension DetectContentType : string -> string) `{VS : !VaultStore Tables} (Hput : content_only).
Context (d0 : DB) (t0 : Tables) (jb : list job) (t : uuid).

(** Before the upload, and after it. *)
Definition idle_at (s : CSite) : Prop :=
  own s = t0 /\ jobs (world s) = jb /\ saved (world s) = None /\ db (world s) = d0.
Definition uploaded_at (s : CSite) : Prop :=
  own s = t0 /\ jobs (world s) = jb /\ saved (world s) = None /\ (db (world s) = d0 \/ upload_step t d0 (db (world s))).
Local Abbreviation tri := (tripleS uploaded_at).

Lemma reading {A} (m : CSvc A) :
  (forall w, same_tables (st w) (st (m w).2)) -> tri idle_at m (fun _ => idle_at).
Proof.
  intros Hm w _ (Ho & Hj & Hs & Hd). destruct (Hm w) as (E1 & E2 & E3 & E4).
  unfold uploaded_at, idle_at. destruct (m w) as [[a|err] w']; cbn in *; rewrite E1, E2, E3, E4; split_and!; auto.
Qed.
Lemma tri_query {A} (f : Z -> DB -> A) : tri idle_at (liftM (query f)) (fun _ => idle_at).
Proof. apply reading, query_same. Qed.
Lemma tri_query_row {A} (f : Z -> DB -> option A) : tri idle_at (liftM (query_row f)) (fun _ => idle_at).
Proof. apply reading, query_row_same. Qed.
Lemma tri_try_row {A} (f : Z -> DB -> option A) : tri idle_at (tryS (liftM (query_row f))) (fun _ => idle_at).
Proof.
  apply reading. intros w. pose proof (query_row_same f w) as H. unfold tryS. by destruct (liftM _ w).
Qed.

Lemma tri_upload_tx mime i : tri idle_at (upload_tx t mime i) (fun _ _ => True).
Proof.
  intros w _ (Ho & Hj & Hs & Hd). unfold upload_tx. cbv zeta. unfold with_txS, wrapS at 1, liftM at 1, begin_tx.
  destruct (fault _); cbn [fst snd]; [split_and!; cbn; auto|].
  match goal with |- context [mkSys ?s ?k] => pose proof (upload_body Hput d0 t0 jb t (upCaseID i) mime i eq_refl (mkSys s k)) as H end.
  cbv zeta in H.
  match type of H with ?P -> ?Q -> _ => assert P as HI; [|assert Q as HW; [split; [cbn; by rewrite Hd|done]|specialize (H HI HW)]] end.
  { split; [done|]. split; [done|]. left. cbn. by rewrite Hd. }
  match type of H with (let (_, _) := ?x in _) => destruct x as [r w2] end.
  assert (upload_tx_ok d0 t0 jb t (st w2)) as (Ho2 & Hj2 & H2) by (destruct r; apply H).
  assert (uploaded_at (st (rollbackS w2))) as Hr; [|by destruct r].
  unfold rollbackS, rollback_tx. destruct H2 as [E|[E H2]]; rewrite E; split_and!; cbn; auto.
Qed.

Lemma tri_Upload i : tri idle_at (Upload TypeByExtension t i) (fun _ _ => True).
Proof.
  unfold Upload. repeat (destruct (decide _); [apply triple_fail|]). cbv zeta.
  eapply triple_bind; [apply triple_wrap, tri_query|]. intros b. destruct (negb b); [apply triple_fail|apply tri_upload_tx].
Qed.

Lemma tri_Store_attachment c i : tri idle_at (Store_attachment TypeByExtension DetectContentType t c i) (fun _ _ => True).
Proof.
  unfold Store_attachment. eapply (triple_bind _ _ _ _ (fun _ => idle_at)).
  { unfold resolveActor. eapply triple_bind; [apply tri_try_row|]. intros [a|e]; [by apply triple_ret|apply triple_wrap, tri_query_row]. }
  intros actor. cbv zeta. eapply triple_bind; [apply tri_Upload|]. intros doc. by apply triple_ret.
Qed.
End Adapter.

(** The vault's adapter is such a service over any store that keeps to its content. *)
Lemma Store_attachment_service `{R : Runtime} TypeByExtension DetectContentType `{VS : !VaultStore Tables} :
  content_only -> attachment_service (Store_attachment TypeByExtension DetectContentType).
Proof.
  intros Hput t c i w Hidle.
  pose proof (tri_Store_attachment TypeByExtension DetectContentType Hput (db (world (st w))) (own (st w)) (jobs (world (st w))) t c i w) as H.
  destruct (Store_attachment _ _ _ _ _ w) as [[a|e] w']; cbn [snd].
  - destruct H as [(? & ? & _ & ?) _]; [by split_and!; [..|left]|by split_and!|done].
  - destruct H as (? & ? & _ & ?); [by split_and!; [..|left]|by split_and!|done].
Qed.

(** ** In the transaction *)

Section Delivery.
Context `{R : Runtime}.
Context (regexp_match : string -> string -> option bool) (fmtFloat : Qc -> string)
  (odd_query : uuid -> uuid -> list (string * string) -> DB -> result goerr (option uuid))
  (RunString : string -> option json -> result goerr json).
Context (e : option Engine)
  (attachments : option (uuid -> uuid -> AttachmentInput -> CSvc AttachmentRef)).
Context (Hservice : forall store, attachments = Some store -> attachment_service store).
Context (d0 : DB) (t0 : Tables) (jb : list job) (tn : uuid) (quiet : Prop).

Local Abbreviation engine := (evaluateDAG <$> e).

(** The transaction that began on [d0] is open, and only uploads have left it. *)
Definition open_tx (s : CSite) : Prop :=
  (exists d1, saved (world s) = Some d1 /\ uploads tn quiet d0 d1) /\ jobs (world s) = jb.

Local Abbreviation tri := (tripleS open_tx).

(** Nothing written yet. *)
Definition fresh (s : CSite) : Prop := db (world s) = d0 /\ own s = t0.

Lemma tri_lift {A} (m : M A) (P : CSite -> Prop) (Q : A -> CSite -> Prop) :
  inner m ->
  (forall s k a w', P s -> open_tx s -> m (at_tick k (world s)) = (Ok a, w') -> Q a (set_world w' s)) ->
  tri P (liftM m) Q.
Proof.
  intros Hm HQ w Hi Hp. unfold liftM. pose proof (Hm (at_tick (ticks w) (world (st w)))) as H.
  specialize (HQ (st w) (ticks w)). destruct (m _) as [[a|err] w']; simpl in *;
    destruct H as (H1 & _ & H3), Hi as ((d1 & I1 & I2) & I3);
    assert (open_tx (set_world w' (st w))) as Ho by (split; [exists d1; split|]; simpl; congruence); [|done].
  split; [done|]. apply HQ; [done|by split; [exists d1|]|done].
Qed.

Lemma tri_select {A} (f : Tables -> A) (P : CSite -> Prop) :
  tri P (select_site f) (fun _ => P).
Proof. intros w Hi Hp. unfold select_site, exec_site. by destruct (fault _). Qed.

Lemma tri_select_row {A} (f : Tables -> option A) (P : CSite -> Prop) :
  tri P (select_row_site f) (fun a s => P s /\ f (own s) = Some a).
Proof.
  intros w Hi Hp. unfold select_row_site, exec_site. destruct (fault _); [done|].
  by destruct (f (own (st w))) eqn:E.
Qed.

Lemma tri_check t ct ch c data :
  tri fresh (DedupCheck fmtFloat odd_query t ct ch c data) (fun _ => fresh).
Proof.
  unfold DedupCheck. cbv zeta. destruct (decide _); [by apply triple_ret|].
  eapply triple_bind; [apply triple_now|]. intros now.
  eapply triple_bind; [apply triple_wrap, tri_select|]. intros recent. cbn beta.
  destruct (decide _); [by apply triple_ret|]. destruct (decide _); [by apply triple_ret|].
  destruct (decide _); [|apply triple_fail].
  eapply (triple_bind _ _ _ _ (fun _ => fresh)); [|intros ?; by apply triple_ret].
  unfold FindCaseByFields. destruct (decide _); [by apply triple_ret|].
  destruct (as_map _) as [m|]; [|by apply triple_ret]. cbv zeta. destruct (decide _); [by apply triple_ret|].
  apply triple_wrap, tri_lift; [apply inner_sql|]. intros s k a w' [Hd Ho] _. unfold sql.
  destruct (fault _); [done|]. destruct (find_case _ _ _ _ _); simpl; [by intros [= _ <-]|done].
Qed.

(** Recording an event of the channel. *)
Lemma tri_record ev (F : DB -> Prop) :
  tri (fun s => own s = t0 /\ F (db (world s))) (RecordEvent ev) (fun id s => F (db (world s)) /\
    exists row, own s = add_event_row row t0 /\ erID row = id /\ erStatus row = ceStatus ev /\
      erCaseID row = ceCaseID ev /\ erErrorMessage row = ceErrorMessage ev /\
      match ceCaseID ev with Some c => is_Some (cases (db (world s)) !! c) | None => True end).
Proof.
  intros w Hi [Ho HF]. unfold RecordEvent, insertEvent, wrapS, exec_site. destruct (fault _); [done|].
  unfold insert_event_row. destruct (json_parse _) as [payload|]; [|done].
  destruct (decide _); [done|].
  match goal with |- context [if ?b then Err fk_error else _] => destruct b eqn:Ec; [done|] end.
  destruct (decide _); [|done]. destruct (negb _); [done|]. destruct (decide _); [done|].
  split; [done|]. split; [done|]. eexists. split; [simpl; by rewrite Ho|]. split_and!; try done. simpl.
  destruct (ceCaseID ev) as [c|]; [|done]. boolp. by apply not_eq_None_Some.
Qed.

(** The case a delivery ends in: an old one, or one nobody else can see. *)
Lemma tri_target req ch m adapted :
  tri fresh (target_case regexp_match fmtFloat req ch m adapted) (fun tc s =>
    own s = t0 /\ if tc.2 : bool then cases d0 !! tc.1 = None else dom (cases (db (world s))) = dom (cases d0)).
Proof.
  unfold target_case. destruct m as [id|].
  - eapply triple_bind; [|intros ?; apply triple_ret; intros s _ H; exact H].
    apply tri_lift; [apply inner_UpdateCaseData|]. intros s k a w' [Hd Ho] ((d1 & Hs & Hu) & _) H. split; [done|]. simpl.
    apply uploads_cases in Hu. pose proof (UpdateCaseData_cases regexp_match fmtFloat (rqTenantID req) id adapted (at_tick k (world s))) as Hk.
    rewrite H in Hk. destruct Hk as [_ [E|(s0 & Hs0 & E)]]; unfold same_cases in E; simpl in *; congruence.
  - eapply triple_bind; [|intros ?; apply triple_ret; intros s _ H; exact H].
    apply tri_lift; [apply inner_CreateCase|]. intros s k a w' [Hd Ho] _ H. split; [done|]. simpl.
    apply CreateCase_fresh in H. simpl in H. by rewrite Hd in H.
Qed.

(** The engine, on its own connection, fails on a case of this transaction. *)
Lemma tri_engine en id P : cases d0 !! id = None ->
  tri P (other_connection (liftM (evaluateDAG en id))) (fun _ _ => False).
Proof.
  intros Hn w ((d1 & Hs & Hu) & Hj) _. unfold other_connection. rewrite Hs. unfold liftM.
  cbn [st ticks].
  match goal with |- context [evaluateDAG en id ?w0] => set (wo := w0) end.
  destruct (evaluateDAG_absent en id wo) as (err & w1 & -> & Hd & _ & Hj1);
    [cbn; by rewrite (uploads_cases _ _ _ _ Hu)|].
  cbn [fst snd st world set_world]. rewrite decide_True by (rewrite Hd; done).
  split; [exists d1; split; [done|exact Hu]|simpl in *; congruence].
Qed.

Definition delivered (ch : Channel) (res : PipelineResult) (s : CSite) : Prop :=
  exists row, own s = add_event_row row t0 /\ erID row = prEventID res /\
    if prDeduped res then db (world s) = d0 /\ erStatus row = EventDeduped
    else erStatus row = EventProcessed /\ erCaseID row = Some (prCaseID res) /\
      is_Some (cases (db (world s)) !! prCaseID res) /\
      (is_Some (chWorkflowID ch) -> is_Some e -> is_Some (cases d0 !! prCaseID res)).

(** An attachment leaves the case as it is known here. *)
Definition targeted (id : uuid) (new : bool) (s : CSite) : Prop :=
  own s = t0 /\ if new then cases d0 !! id = None else dom (cases (db (world s))) = dom (cases d0).

Lemma tri_attachment store c i id new :
  attachments = Some store -> ~ quiet ->
  tri (targeted id new) (other_connection (store tn c i)) (fun _ => targeted id new).
Proof.
  intros Hst Hq w ((d1 & Hs & Hu) & Hj) [Ho Hn]. unfold other_connection. rewrite Hs.
  match goal with |- context [store tn c i ?w0] => pose proof (Hservice store Hst tn c i w0 eq_refl) as H end.
  destruct (store tn c i _) as [r w1]. cbn in H. destruct H as (Ho1 & Hj1 & Hdb).
  assert (uploads tn quiet d0 (db (world (st w1)))) as Hu1.
  { split; [|done]. etrans; [apply Hu|]. destruct Hdb as [->|Hdb]; [done|by apply rtc_once]. }
  pose proof (uploads_cases _ _ _ _ Hu) as Hc. pose proof (uploads_cases _ _ _ _ Hu1) as Hc1.
  assert (forall w' s', own s' = own (st w1) -> jobs (world s') = jobs (world (st w)) ->
    (exists d, saved (world s') = Some d /\ uploads tn quiet d0 d) ->
    (new = false -> cases (db (world s')) = cases (db (world (st w))) \/ cases (db (world s')) = cases d0) ->
    w' = st w1 -> open_tx s' /\ targeted id new s') as Hfin.
  { intros _ s' E1 E2 E3 E4 _. split; [split; [done|congruence]|]. split; [congruence|].
    destruct new; [done|]. by destruct (E4 eq_refl) as [->| ->]. }
  destruct (decide (db (world (st w1)) = d1)); [|destruct (decide (db (world (st w)) = d1))];
    [..|eapply Hfin; [..|reflexivity]; cbn; eauto]; destruct r; eapply Hfin; try reflexivity; cbn; eauto; congruence.
Qed.

Lemma tri_store_all store c l id new :
  attachments = Some store -> (quiet -> l = []) ->
  tri (targeted id new) (store_all (fun i => other_connection (store tn c i)) l) (fun _ => targeted id new).
Proof.
  intros Hst. induction l as [|i l IH]; intros Hq; [by apply triple_ret|]. cbn.
  assert (~ quiet) as Hn by (intros H; by apply Hq in H).
  eapply triple_bind; [by apply tri_attachment|]. intros ref.
  eapply triple_bind; [apply IH; by intros ?%Hn|]. intros refs. by apply triple_ret.
Qed.

Lemma tri_deliver req ch raw start m :
  rqTenantID req = tn -> (quiet -> attachments = None \/ rqAttachments req = []) ->
  tri fresh (deliver regexp_match fmtFloat RunString engine attachments req ch raw start m) (delivered ch).
Proof.
  intros Ht Ha. unfold deliver. rewrite Ht.
  eapply triple_bind; [by apply (triple_pure _ _ _ (fun _ => fresh))|]. intros j. cbn beta.
  eapply triple_bind; [apply triple_wrap; by apply (triple_pure _ _ _ (fun _ => fresh))|]. intros adapted. cbn beta.
  eapply triple_bind; [apply tri_target|]. intros [id new].
  set (P := targeted id new). cbn [fst].
  eapply (triple_bind _ _ _ _ (fun _ => P)).
  { case_eq attachments; [intros store Est|intros _; by apply triple_ret].
    apply tri_store_all; [done|]. intros [|]%Ha; [congruence|done]. }
  intros refs. eapply (triple_bind _ _ _ _ (fun _ => P)).
  { destruct (decide (refs = [])); [by apply triple_ret|].
    apply tri_lift; [apply inner_UpdateCaseData|]. intros s k a w' [Ho Hn] ((d1 & Hs & Hu) & _) H. split; [done|].
    destruct new; [done|]. apply uploads_cases in Hu.
    pose proof (UpdateCaseData_cases regexp_match fmtFloat tn id (refs_patch refs) (at_tick k (world s))) as Hk.
    rewrite H in Hk. destruct Hk as [_ [E|(s0 & Hs0 & E)]]; unfold same_cases in E; simpl in *; congruence. }
  intros _. cbn [snd fst].
  eapply (triple_bind _ _ _ _ (fun _ s => P s /\
            (is_Some (chWorkflowID ch) -> is_Some e -> dom (cases (db (world s))) = dom (cases d0)))).
  { destruct new.
    - destruct (chWorkflowID ch) as [wf|], e as [en|]; cbn [fmap option_fmap option_map];
        try (apply triple_ret; intros s Hi Hp; split; [exact Hp|intros [? ?] [? ?]; done]).
      intros w Hi [_ Hn]. pose proof (tri_engine en id (fun _ => True) Hn w Hi Logic.I) as H.
      destruct (other_connection _ w) as [[u|err] w1]; [by destruct H as [_ []]|done].
    - destruct (chWorkflowID ch), (evaluateDAG <$> e); apply triple_ret; intros s Hi Hp;
        (split; [exact Hp|]; intros _ _; apply Hp). }
  intros _. eapply triple_bind; [apply triple_now|]. intros now. cbn beta.
  eapply triple_bind.
  { eapply triple_conseq; [apply (tri_record _ (fun d => is_Some (chWorkflowID ch) -> is_Some e ->
      dom (cases d) = dom (cases d0)))|intros s Hi [[Ho _] H]; split; [exact Ho|exact H]|intros a s Hi H; exact H]. }
  intros evID. apply triple_ret. intros s Hi (Hdom & row & Ho & Hid & Hst & Hc & _ & Hcase). exists row. simpl in *.
  split_and!; try done. intros Hwf He. specialize (Hdom Hwf He). rewrite <-elem_of_dom, <-Hdom. by apply elem_of_dom.
Qed.

Lemma tri_process req raw start :
  rqTenantID req = tn -> (quiet -> attachments = None \/ rqAttachments req = []) ->
  tri fresh (process_tx regexp_match fmtFloat odd_query RunString engine attachments req raw start)
    (fun res s => exists r, channels t0 !! rqChannelID req = Some r /\ row_of (rqTenantID req) r = true /\
       chEnabled (crChannel r) = true /\ delivered (crChannel r) res s).
Proof.
  intros Ht Ha. unfold process_tx. eapply triple_bind; [apply tri_select_row|]. intros ch. cbn beta.
  set (P := fun s : CSite => fresh s /\ exists r, channels t0 !! rqChannelID req = Some r /\
    row_of (rqTenantID req) r = true /\ crChannel r = ch).
  assert (forall s, fresh s /\ match channels (own s) !! rqChannelID req with
            | Some r => if row_of (rqTenantID req) r then Some (crChannel r) else None | None => None end = Some ch ->
            P s) as HP.
  { intros s [Hf H]. split; [done|]. destruct Hf as [_ Ho]. rewrite Ho in H.
    destruct (channels t0 !! rqChannelID req) as [r|] eqn:E; [|done]. destruct (row_of _ r) eqn:Er; [|done].
    injection H as <-. by exists r. }
  destruct (chEnabled ch) eqn:Een; cbn [negb]; [|apply triple_fail].
  cbv zeta. intros w Hi Hp. apply HP in Hp as [Hf (r & Hr & Hrow & Hch)].
  revert w Hi Hf. change (tri fresh (
    dup ← DedupCheck fmtFloat odd_query (rqTenantID req) (chCaseTypeID ch) (chID ch)
            (default (chDedupConfig ch) (rqDedupOverride req)) (rqPayload req);
    if dup.1 : bool then record_duplicate req ch raw start dup.2
    else deliver regexp_match fmtFloat RunString engine attachments req ch raw start dup.2)
    (fun res s => exists r, channels t0 !! rqChannelID req = Some r /\ row_of (rqTenantID req) r = true /\
       chEnabled (crChannel r) = true /\ delivered (crChannel r) res s)).
  apply (triple_conseq _ _ fresh fresh (delivered ch)); [|done|intros a s _ H; exists r; by rewrite Hch].
  eapply triple_bind; [apply tri_check|]. intros [[|] m]; cbn [fst snd]; [|by apply tri_deliver].
  unfold record_duplicate. eapply triple_bind; [apply triple_now|]. intros now. cbn beta.
  eapply triple_bind.
  { eapply triple_conseq; [apply (tri_record _ (fun d => d = d0))|intros s _ [Hd Ho]; by split|intros a s Hi' H; exact H]. }
  intros evID. apply triple_ret. intros s _ (Hd & row & Ho & Hid & Hst & _). by exists row.
Qed.
End Delivery.

(** ** Claims about deliveries *)

Section Claims.
Context `{R : Runtime}.
Context (regexp_match : string -> string -> option bool) (fmtFloat : Qc -> string)
  (odd_query : uuid -> uuid -> list (string * string) -> DB -> result goerr (option uuid))
  (RunString : string -> option json -> result goerr json).
Context (e : option Engine)
  (attachments : option (uuid -> uuid -> AttachmentInput -> CSvc AttachmentRef)).
Context (Hservice : forall store, attachments = Some store -> attachment_service store).

Local Abbreviation process := (Process regexp_match fmtFloat odd_query RunString (evaluateDAG <$> e) attachments).

(** ** Transactions *)

(** [tripleS] at one point, where the time is known. *)
Definition tripleAt {T A} (I : T -> Prop) (w : Sys T) (m : Svc T A) (Q : A -> T -> Prop) : Prop :=
  match m w with (Ok a, w') => I (st w') /\ Q a (st w') | (Err _, w') => I (st w') end.

Lemma WithTx_spec {A} t quiet (fn : CSvc A) (Q : A -> CSite -> Prop) w :
  saved (world (st w)) = None ->
  (forall d0 t0 jb w1, d0 = db (world (st w)) -> t0 = own (st w) -> jb = jobs (world (st w)) ->
     ticks w1 = S (ticks w) -> open_tx d0 jb t quiet (st w1) -> fresh d0 t0 (st w1) ->
     tripleAt (open_tx d0 jb t quiet) w1 fn Q) ->
  match WithTx fn w with
  | (Ok a, w') => saved (world (st w')) = None /\ jobs (world (st w')) = jobs (world (st w)) /\
      exists s, Q a s /\ db (world (st w')) = db (world s) /\ own (st w') = own s
  | (Err _, w') => uploads t quiet (db (world (st w))) (db (world (st w'))) /\ own (st w') = own (st w) /\
      jobs (world (st w')) = jobs (world (st w)) /\ saved (world (st w')) = None
  end.
Proof.
  intros Hidle Hfn. unfold WithTx, wrapS, liftM at 1, begin_tx. destruct (fault _); [done|]. cbn [fst snd].
  match goal with |- context [fn ?w0] => set (w1 := w0) end.
  assert (open_tx (db (world (st w))) (jobs (world (st w))) t quiet (st w1)) as Hopen by (split; [by eexists|done]).
  specialize (Hfn (db (world (st w))) (own (st w)) (jobs (world (st w))) w1
    eq_refl eq_refl eq_refl eq_refl Hopen (conj eq_refl eq_refl)). unfold tripleAt in Hfn. destruct (fn w1) as [[a|err] w2].
  - destruct Hfn as [((d1 & Hs & Hu) & Hj) HQ]. unfold liftM, commit_tx. cbn [tick at_tick].
    destruct (fault _).
    + cbn. rewrite Hs. done.
    + cbn. split_and!; [done|done|]. by exists (st w2).
  - destruct Hfn as ((d1 & Hs & Hu) & Hj). unfold rollbackS, rollback_tx, restore_own. cbn. rewrite Hs. done.
Qed.

(** What a failed or repeated delivery leaves in [channel_events]. *)
Definition leftover (err : goerr) (row : EventRow) : Prop :=
  (erStatus row = EventFailed /\ erCaseID row = None /\ erErrorMessage row = Error err) \/
  (erStatus row = EventDeduped /\ err = ErrDeduped).

Lemma failed_event_spec ev (w : Sys CSite) :
  let w' := (RecordFailedEvent ev w).2 in
  db (world (st w')) = db (world (st w)) /\ jobs (world (st w')) = jobs (world (st w)) /\
  channels (own (st w')) = channels (own (st w)) /\
  exists l, channel_events (own (st w')) = channel_events (own (st w)) ++ l /\ (length l <= 1)%nat /\
    Forall (fun row => erStatus row = ceStatus ev /\ erCaseID row = ceCaseID ev /\
                       erErrorMessage row = ceErrorMessage ev) l.
Proof.
  cbv zeta. unfold RecordFailedEvent, insertEvent. rewrite wrapS_state. unfold exec_site.
  assert (forall s : CSite, exists l, channel_events (own s) = channel_events (own s) ++ l /\ (length l <= 1)%nat /\
    Forall (fun row => erStatus row = ceStatus ev /\ erCaseID row = ceCaseID ev /\
                       erErrorMessage row = ceErrorMessage ev) l) as Hnone.
  { intros s. exists []. rewrite app_nil_r. split_and!; [done|simpl; lia|constructor]. }
  destruct (fault _); [by split_and!|].
  destruct (insert_event_row _ _ _ _) as [[id s]|] eqn:E; [|by split_and!].
  unfold insert_event_row in E. destruct (json_parse _); [|done]. destruct (decide _); [done|].
  match goal with E : context [if ?b then Err fk_error else _] |- _ => destruct b; [done|] end.
  destruct (decide _); [|done]. destruct (negb _); [done|]. destruct (decide _); [done|]. injection E as <- <-. simpl.
  split_and!; try done. eexists. split; [done|]. split; [simpl; lia|]. by repeat constructor.
Qed.

(** No attachment is stored. *)
Definition without_attachments (req : ChannelRequest) : Prop := attachments = None \/ rqAttachments req = [].

Lemma WithTx_process req raw start w :
  saved (world (st w)) = None ->
  match WithTx (process_tx regexp_match fmtFloat odd_query RunString (evaluateDAG <$> e) attachments req raw start) w with
  | (Ok res, w') => saved (world (st w')) = None /\ jobs (world (st w')) = jobs (world (st w)) /\
      exists s, (exists r, channels (own (st w)) !! rqChannelID req = Some r /\ row_of (rqTenantID req) r = true /\
        chEnabled (crChannel r) = true /\ delivered e (db (world (st w))) (own (st w)) (crChannel r) res s) /\
        db (world (st w')) = db (world s) /\ own (st w') = own s
  | (Err _, w') => uploads (rqTenantID req) (without_attachments req) (db (world (st w))) (db (world (st w'))) /\
      own (st w') = own (st w) /\ jobs (world (st w')) = jobs (world (st w)) /\ saved (world (st w')) = None
  end.
Proof.
  intros Hidle. apply (WithTx_spec _ _ _ (fun res s => exists r, channels (own (st w)) !! rqChannelID req = Some r /\
    row_of (rqTenantID req) r = true /\ chEnabled (crChannel r) = true /\
    delivered e (db (world (st w))) (own (st w)) (crChannel r) res s)); [done|].
  intros d0 t0 jb w1 -> -> -> _ Hopen Hfresh. by apply tri_process.
Qed.

(** C28. A delivery is all or nothing, but for the uploads of its attachments,
    which the vault commits on a connection of its own. When it succeeds, the
    channel is enabled, one event is added that names the case, and the case
    exists. When it fails or is a duplicate, the channels and the queued jobs are
    as before, at most one event is added, which says that the delivery failed,
    and why, or was a duplicate, and nothing was committed to the other tables
    but documents uploaded for the attachments, each with the event in the trail
    that says so: no case was created or changed, and without attachments the
    tables are as before. The content of such an upload also stays. *)
Theorem Process_atomic req w :
  saved (world (st w)) = None ->
  match process req w with
  | (Ok res, w') =>
      exists r row, channels (own (st w)) !! rqChannelID req = Some r /\ row_of (rqTenantID req) r = true /\
        chEnabled (crChannel r) = true /\
        own (st w') = add_event_row row (own (st w)) /\ erID row = prEventID res /\
        erStatus row = EventProcessed /\ erCaseID row = Some (prCaseID res) /\
        is_Some (cases (db (world (st w'))) !! prCaseID res)
  | (Err err, w') =>
      rtc (upload_step (rqTenantID req)) (db (world (st w))) (db (world (st w'))) /\
      cases (db (world (st w'))) = cases (db (world (st w))) /\
      (without_attachments req -> db (world (st w')) = db (world (st w))) /\
      jobs (world (st w')) = jobs (world (st w)) /\
      channels (own (st w')) = channels (own (st w)) /\
      exists l, channel_events (own (st w')) = channel_events (own (st w)) ++ l /\ (length l <= 1)%nat /\
        Forall (leftover err) l
  end.
Proof.
  intros Hidle. unfold Process, mbind at 1, Svc_bind at 1, nowS at 1.
  set (w1 := mkSys (st w) (S (ticks w))).
  assert (exists l, channel_events (own (st w)) = channel_events (own (st w)) ++ l /\ (length l <= 1)%nat /\
    forall err, Forall (leftover err) l) as Hnone.
  { exists []. rewrite app_nil_r. split_and!; [done|simpl; lia|constructor]. }
  destruct (decide _). { split_and!; try done. destruct Hnone as (l & ? & ? & ?). exists l. auto. }
  unfold mbind at 1, Svc_bind at 1, pureS. destruct (truncateRawPayload _ _) as [raw|];
    [|split_and!; try done; destruct Hnone as (l & ? & ? & ?); exists l; auto].
  unfold mbind, Svc_bind, tryS.
  pose proof (WithTx_process req raw (wall_clock (ticks w)) w1 Hidle) as H.
  destruct (WithTx _ w1) as [[res|err] w2].
  - destruct H as (Hs & Hj & s & (r & Hr & Hrow & Hen & row & Ho & Hid & Hres) & Hdb & Hown).
    destruct (prDeduped res).
    + destruct Hres as [Hd Hst]. cbn. rewrite Hdb, Hown, Ho, Hd. split_and!; try done.
      exists [row]. split_and!; [done|simpl; lia|]. constructor; [by right|constructor].
    + destruct Hres as (Hst & Hc & Hcase & _). cbn. exists r, row. rewrite Hown, Hdb. split_and!; done.
  - destruct H as (Hdb & Hown & Hj & Hs). cbn.
    match goal with |- context [RecordFailedEvent ?ev ?w3] =>
      destruct (failed_event_spec ev w3) as (F1 & F2 & F3 & l & F4 & F5 & F6) end.
    cbn in F1, F2, F3, F4. rewrite F1, F2, F3, F4, Hown, Hj.
    split_and!; [apply Hdb|by eapply uploads_cases|apply Hdb|done|done|].
    exists l. split_and!; try done. eapply Forall_impl; [exact F6|]. intros row (G1 & G2 & G3). by left.
Qed.

(** A channel that names a workflow never opens a case: the engine evaluates the
    new case on its own connection, where the case is not there yet, so the
    delivery fails and is rolled back. What such a channel delivers successfully
    goes to a case that was there before. *)
Theorem workflow_channel_opens_no_case en req w r res w' :
  e = Some en -> saved (world (st w)) = None ->
  channels (own (st w)) !! rqChannelID req = Some r -> is_Some (chWorkflowID (crChannel r)) ->
  process req w = (Ok res, w') -> is_Some (cases (db (world (st w))) !! prCaseID res).
Proof.
  intros He Hidle Hr Hwf H. unfold Process in H.
  apply bindS_inv in H as (start & w1 & Hnow & H). injection Hnow as <- <-.
  destruct (decide _); [done|]. apply bindS_inv in H as (raw & w2 & Hraw & H).
  unfold pureS in Hraw. injection Hraw as Hraw <-. apply bindS_inv in H as (out & w3 & Htry & H).
  unfold tryS in Htry.
  pose proof (WithTx_process req raw (wall_clock (ticks w)) (mkSys (st w) (S (ticks w))) Hidle) as Hspec.
  destruct (WithTx _ _) as [[res'|err] w4]; injection Htry as <- <-.
  - destruct Hspec as (_ & _ & s & (r' & Hr' & _ & _ & row & _ & _ & Hres) & _ & _).
    destruct (prDeduped res'); [done|]. injection H as <- <-.
    cbn [own st] in Hr'. rewrite Hr in Hr'. injection Hr' as <-. destruct Hres as (_ & _ & _ & Hwas).
    apply Hwas; [done|by rewrite He].
  - unfold mbind, Svc_bind in H. cbn in H. done.
Qed.

(** ** Duplicates *)

Lemma elem_filter_head {A} (p : A -> Prop) `{!forall x, Decision (p x)} x l :
  x ∈ l -> p x -> exists y l', filter p l = y :: l'.
Proof.
  intros Hx Hp. assert (x ∈ filter p l) as Hin by (by apply list_elem_of_filter).
  destruct (filter p l) as [|y l'] eqn:E; [by apply not_elem_of_nil in Hin|]. eauto.
Qed.

Definition hash_strategy (c : DedupConfig) : option (option json -> string) :=
  let s := TrimSpace (ToLower (ddStrategy c)) in
  if decide (s = "field_hash") then Some (dedupHash fmtFloat (ddFields c))
  else if decide (s = "time_window") then Some (dedupKey fmtFloat (ddFields c))
  else None.

Lemma check_dup_at d0 t0 jb tn quiet t ct ch c data key ev w :
  open_tx d0 jb tn quiet (st w) -> fresh d0 t0 (st w) ->
  hash_strategy c = Some key -> ev ∈ channel_events t0 -> erTenantID ev = t -> erChannelID ev = ch ->
  (wall_clock (ticks w) - dedup_window c <= erCreatedAt ev)%Z ->
  key (Some (erRawPayload ev)) = key (json_parse data) -> key (json_parse data) <> "" ->
  tripleAt (open_tx d0 jb tn quiet) w (DedupCheck fmtFloat odd_query t ct ch c data)
    (fun dup s => dup.1 = true /\ fresh d0 t0 s).
Proof.
  intros Hopen Hfresh Hkey Hev Ht Hch Hwin Hk Hne. unfold DedupCheck, hash_strategy in *. cbv zeta in *.
  destruct (decide (TrimSpace (ToLower (ddStrategy c)) = "")) as [E0|]; [by rewrite E0 in Hkey|].
  unfold tripleAt. unfold mbind at 1, Svc_bind at 1, nowS at 1.
  match goal with |- match ?m ?w1 with _ => _ end =>
    assert (tripleS (open_tx d0 jb tn quiet) (fresh d0 t0) m (fun dup s => dup.1 = true /\ fresh d0 t0 s)) as H;
      [|exact (H w1 Hopen Hfresh)] end.
  eapply (triple_bind _ _ _ _ (fun recent s => ev ∈ recent /\ fresh d0 t0 s)).
  { apply triple_wrap. intros w' Hi [Hd Ho]. unfold select_site, exec_site. destruct (fault _); [done|].
    simpl. split; [done|]. split; [|done]. rewrite merge_sort_Permutation, Ho. by apply list_elem_of_filter. }
  intros recent.
  assert (forall s, ev ∈ recent -> fresh d0 t0 s -> (duplicate_of key data recent).1 = true /\ fresh d0 t0 s) as Hdup.
  { intros s Hin Hf. split; [|done]. unfold duplicate_of. cbv zeta. rewrite decide_False by done.
    destruct (elem_filter_head (fun e' => key (Some (erRawPayload e')) = key (json_parse data)) ev recent)
      as (y & l & ->); done. }
  destruct (decide (_ = "field_hash")).
  - injection Hkey as <-. apply triple_ret. intros s _ [Hin Hf]. by apply Hdup.
  - destruct (decide (_ = "time_window")); [|done]. injection Hkey as <-. apply triple_ret.
    intros s _ [Hin Hf]. by apply Hdup.
Qed.

Lemma tri_record_duplicate d0 t0 jb t quiet req ch raw start m :
  tripleS (open_tx d0 jb t quiet) (fresh d0 t0) (record_duplicate req ch raw start m)
    (fun res s => prDeduped res = true /\ db (world s) = d0).
Proof.
  unfold record_duplicate. eapply (triple_bind _ _ _ _ (fun _ => fresh d0 t0)); [apply triple_now|].
  intros now. eapply triple_bind.
  { eapply triple_conseq; [apply (tri_record d0 t0 jb t quiet _ (fun d => d = d0))|intros s _ [Hd Ho]; by split|intros a s Hi' H; exact H]. }
  intros evID. apply triple_ret. intros s _ (Hd & row & Ho & _). done.
Qed.

Lemma process_tx_dup_at d0 t0 jb t quiet req raw start r ev key w :
  open_tx d0 jb t quiet (st w) -> fresh d0 t0 (st w) ->
  channels t0 !! rqChannelID req = Some r ->
  hash_strategy (default (chDedupConfig (crChannel r)) (rqDedupOverride req)) = Some key ->
  ev ∈ channel_events t0 -> erTenantID ev = rqTenantID req -> erChannelID ev = chID (crChannel r) ->
  (wall_clock (S (ticks w)) - dedup_window (default (chDedupConfig (crChannel r)) (rqDedupOverride req))
     <= erCreatedAt ev)%Z ->
  key (Some (erRawPayload ev)) = key (json_parse (rqPayload req)) -> key (json_parse (rqPayload req)) <> "" ->
  tripleAt (open_tx d0 jb t quiet) w
    (process_tx regexp_match fmtFloat odd_query RunString (evaluateDAG <$> e) attachments req raw start)
    (fun res s => prDeduped res = true /\ db (world s) = d0).
Proof.
  intros Hopen Hfresh Hr Hkey Hev Ht Hch Hwin Hk Hne. unfold process_tx, tripleAt.
  unfold mbind at 1, Svc_bind at 1, GetChannel, Get, select_row_site, exec_site.
  destruct (fault _); [done|]. destruct Hfresh as [Hd Ho]. rewrite Ho, Hr.
  destruct (row_of _ r); [|done]. destruct (negb _); [done|]. cbv zeta.
  unfold mbind at 1, Svc_bind at 1.
  pose proof (check_dup_at d0 t0 jb t quiet (rqTenantID req) (chCaseTypeID (crChannel r)) (chID (crChannel r))
    (default (chDedupConfig (crChannel r)) (rqDedupOverride req)) (rqPayload req) key ev (mkSys (st w) (S (ticks w)))
    Hopen (conj Hd Ho) Hkey Hev Ht Hch Hwin Hk Hne) as Hcheck.
  unfold tripleAt in Hcheck. destruct (DedupCheck _ _ _ _ _ _ _ _) as [[[[|] m]|err] w1]; [|naive_solver|done].
  cbn [fst snd]. destruct Hcheck as (Hi & _ & Hf).
  exact (tri_record_duplicate d0 t0 jb t quiet req (crChannel r) raw start m w1 Hi Hf).
Qed.

(** A second delivery of what an event of the channel holds, by its fields and
    within the window, is not delivered: no case is opened or changed, whatever
    became of the first delivery. *)
Theorem duplicate_not_delivered req w r ev key :
  saved (world (st w)) = None -> channels (own (st w)) !! rqChannelID req = Some r ->
  hash_strategy (default (chDedupConfig (crChannel r)) (rqDedupOverride req)) = Some key ->
  ev ∈ channel_events (own (st w)) -> erTenantID ev = rqTenantID req -> erChannelID ev = chID (crChannel r) ->
  (wall_clock (3 + ticks w) - dedup_window (default (chDedupConfig (crChannel r)) (rqDedupOverride req))
     <= erCreatedAt ev)%Z ->
  key (Some (erRawPayload ev)) = key (json_parse (rqPayload req)) -> key (json_parse (rqPayload req)) <> "" ->
  exists err w', process req w = (Err err, w') /\ db (world (st w')) = db (world (st w)).
Proof.
  intros Hidle Hr Hkey Hev Ht Hch Hwin Hk Hne. unfold Process, mbind at 1, Svc_bind at 1, nowS at 1.
  set (w1 := mkSys (st w) (S (ticks w))). destruct (decide _); [by eexists _, _|].
  unfold mbind at 1, Svc_bind at 1, pureS. destruct (truncateRawPayload _ _) as [raw|]; [|by eexists _, _].
  unfold mbind, Svc_bind, tryS.
  pose proof (WithTx_spec uuid_Nil True (process_tx regexp_match fmtFloat odd_query RunString (evaluateDAG <$> e) attachments
    req raw (wall_clock (ticks w))) (fun res s => prDeduped res = true /\ db (world s) = db (world (st w))) w1 Hidle) as H.
  destruct (WithTx _ w1) as [[res|err] w2].
  - destruct H as (_ & _ & s & (Hdup & Hd) & Hdb & _).
    { intros d0 t0 jb w3 -> -> -> Htick Hopen Hfresh. eapply process_tx_dup_at; try done. by rewrite Htick. }
    rewrite Hdup. eexists _, _. split; [reflexivity|]. congruence.
  - destruct H as ([_ Hdb] & _).
    { intros d0 t0 jb w3 -> -> -> Htick Hopen Hfresh. eapply process_tx_dup_at; try done. by rewrite Htick. }
    cbn. eexists _, _. split; [reflexivity|]. cbn. unfold ignoreS. cbn.
    match goal with |- context [RecordFailedEvent ?ev ?w3] =>
      destruct (failed_event_spec ev w3) as (F1 & _) end. cbn in F1. rewrite F1. by apply Hdb.
Qed.
End Claims.

(** ** Examples *)

Module ChannelExample.
Definition channel_of (dedup : DedupConfig) (wf : option uuid) : Channel :=
  mkChannel 9 1 "Intake" ChannelWebhook "" (Some (JObj [])) 20 wf [mkFieldMapping "ref" "ref" "" "" ""] dedup true 0 0.
Definition by_ref : DedupConfig := mkDedupConfig "case_match" ["ref"] 0.
Definition by_hash : DedupConfig := mkDedupConfig "field_hash" ["ref"] 0.
Definition stored : CaseRow := mkCaseRow 1 20 "L-1" CaseOpen (JObj [("ref", JStr "A")]) 1 0 None 0 30 1 0 7 None.
Definition loan : CaseTypeRow := mkCaseTypeRow 1 "loan" 1 (JObj []) true 0 7.
Definition tables0 : DB :=
  mkDB {[ 5%N := stored ]} ∅ [] {[ (30%N, 1%Z) := mkVersionRow Published (JObj []) ]}
    {[ 7%N := mkPrincipalRow 1 true 0 (Some "a@x.org") ]} [] {[ 20%N := loan ]}
    {[ 30%N := mkWorkflowRow 1 "flow" "loan" ]} ∅ ∅.
Definition seen : EventRow :=
  mkEventRow 77 1 9 (JObj [("ref", JStr "A"); ("n", JInt 1)]) [] None EventFailed "boom" 3 (1700000000 * Second).
Definition site (dedup : DedupConfig) (wf : option uuid) (evs : list EventRow) : Sys CSite :=
  mkSys (mkSite (mkWorld tables0 None 0 0 [] [] []) ∅
    (mkTables {[ 9%N := mkChannelRow (channel_of dedup wf) None ]} evs)) 0.
Definition req (payload : string) : ChannelRequest := mkChannelRequest 1 9 payload [] "webhook" uuid_Nil None.
Definition zero_text (q : Qc) : string := "0".
Definition no_query (t ct : uuid) (l : list (string * string)) (d : DB) : result goerr (option uuid) := Ok None.
Definition no_script (s : string) (j : option json) : result goerr json := Ok JNull.
Definition engine : Engine := mkEngine None ∅ None 7.
Definition run (e : option (Engine)) (rq : ChannelRequest) (w : Sys CSite) :=
  @Process example_runtime (fun _ _ => Some true) zero_text no_query no_script (@evaluateDAG example_runtime <$> e) None rq w.
Definition ref_of (v : string) : string := Marshal zero_text (JObj [("ref", JStr v)]).

Lemma no_store store : None = Some store -> attachment_service store.
Proof. done. Qed.

(** A channel that takes nothing from the payload, and the vault for its
    attachments; the second one is empty, which the vault refuses. *)
Definition bare : Channel := mkChannel 9 1 "Intake" ChannelEmail "" (Some (JObj [])) 20 None [] by_ref true 0 0.
Definition bare_site : Sys CSite :=
  mkSys (mkSite (mkWorld tables0 None 0 0 [] [] []) ∅ (mkTables {[ 9%N := mkChannelRow bare None ]} [])) 0.
Definition files_req : ChannelRequest :=
  mkChannelRequest 1 9 (ref_of "A") [mkAttachmentInput "a.txt" "text/plain" "hi"; mkAttachmentInput "b.txt" "text/plain" ""]
    "email" uuid_Nil None.
Definition text_type (s : string) : string := "text/plain".
Definition vs : VaultStore Tables :=
  @local_store example_runtime Tables (fun k m => k +:+ m) (fun _ _ => None) (NewLocalVaultStore "data" "k").
Definition store : uuid -> uuid -> AttachmentInput -> CSvc AttachmentRef :=
  @Store_attachment example_runtime text_type text_type vs.
Definition files_run :=
  @Process example_runtime (fun _ _ => Some true) zero_text no_query no_script None (Some store) files_req bare_site.

Lemma store_service st : Some store = Some st -> attachment_service st.
Proof. intros [= <-]. apply Store_attachment_service, LocalPut_content. Qed.

(** The delivery fails at the second attachment, and the first stays. *)
Lemma Process_atomic_witness :
  exists err w', files_run = (Err err, w') /\
    cases (db (world (st w'))) = cases tables0 /\ jobs (world (st w')) = [] /\
    rtc (upload_step 1) tables0 (db (world (st w'))) /\
    length (map_to_list (vault_documents (db (world (st w'))))) = 1%nat /\
    exists l, channel_events (own (st w')) = l /\ (length l <= 1)%nat /\ Forall (leftover err) l.
Proof.
  pose proof (@Process_atomic example_runtime (fun _ _ => Some true) zero_text no_query no_script None (Some store)
    store_service files_req bare_site eq_refl) as H.
  change (Process _ _ _ _ _ _ _ _) with files_run in H.
  assert (length (map_to_list (vault_documents (db (world (st files_run.2))))) = 1%nat /\ is_ok files_run.1 = false)
    as [Hone Herr] by (split; vm_compute; reflexivity).
  destruct files_run as [[res|err] w'] eqn:E; [discriminate Herr|].
  destruct H as (H1 & H2 & _ & H3 & _ & l & H4 & H5 & H6).
  exact (ex_intro _ err (ex_intro _ w' (conj eq_refl (conj H2 (conj H3 (conj H1 (conj Hone
    (ex_intro _ l (conj H4 (conj H5 H6)))))))))).
Defined.

(** Without attachments, what matches no case opens one. *)
Example opens_case :
  let w' := (run None (req (ref_of "B")) (site by_ref None [])).2 in
  length (map_to_list (cases (db (world (st w'))))) = 2%nat /\ length (channel_events (own (st w'))) = 1%nat.
Proof. split; vm_compute; reflexivity. Qed.

(** The channel of a workflow delivers to the case it matches. *)
Lemma workflow_channel_opens_no_case_witness :
  exists res w', run (Some engine) (req (ref_of "A")) (site by_ref (Some 30%N) []) = (Ok res, w') /\
    is_Some (cases tables0 !! prCaseID res).
Proof.
  destruct (run (Some engine) (req (ref_of "A")) (site by_ref (Some 30%N) [])) as [[res|err] w'] eqn:E.
  - exact (ex_intro _ res (ex_intro _ w' (conj eq_refl
      (@workflow_channel_opens_no_case example_runtime (fun _ _ => Some true) zero_text no_query no_script
         (Some engine) None no_store engine (req (ref_of "A")) (site by_ref (Some 30%N) []) _ res w' eq_refl eq_refl eq_refl
         (ex_intro _ 30%N eq_refl) E)))).
  - exfalso. apply (f_equal (fun x => is_ok x.1)) in E. vm_compute in E. discriminate.
Defined.

(** A delivery that failed blocks its repetition. *)
Lemma duplicate_not_delivered_witness :
  exists err w', run None (req (ref_of "A")) (site by_hash None [seen]) = (Err err, w') /\
    db (world (st w')) = tables0.
Proof.
  apply (@duplicate_not_delivered example_runtime (fun _ _ => Some true) zero_text no_query no_script None None
    (req (ref_of "A")) (site by_hash None [seen]) (mkChannelRow (channel_of by_hash None) None) seen
    (@dedupHash example_runtime zero_text ["ref"])); try reflexivity.
  - by left.
  - vm_compute. discriminate.
  - vm_compute. discriminate.
Defined.
End ChannelExample.
