(* ===== verification/ChannelIntake.v ===== *)
(** * Channels: webhooks and forms ([webhook/handler.go], [form/handler.go],
      [form/ratelimit.go])

    The handlers answer with a status and a JSON body. What Go's [net/http],
    [net/url] and [mime] make of a request (headers, fields, files, the media
    type) is the request record; secrets and the captcha service are calls
    outside. The counters of the rate limiter are passed along. *)

From S2P Require Import Prelude GoStrings Json EngineTypes Store AuditTrail EngineOps TaskForms CaseData CaseOps.
From S2P Require Import GoText Effects JsonText GoPath Site VaultStore Channels ChannelStore ChannelPipeline.

(** ** Rate limits *)

(** Count and expiry per key; durations and times in nanoseconds. *)
Abbreviation limiter := (gmap string (Z * Z)).

Definition NewIPRateLimiter_window (window : Z) : Z := if (window <=? 0)%Z then Minute else window.

Definition effective_limit (limit : Z) : Z := if (limit <=? 0)%Z then 10 else limit.
Definition limiter_key (key : string) : string := if decide (key = "") then "unknown" else key.
Definition live_slot (now : Z) (slot : Z * Z) : Prop := (now < slot.2)%Z.
#[export] Instance live_slot_dec now slot : Decision (live_slot now slot).
Proof. unfold live_slot. apply _. Defined.

Definition Allow (window : Z) (state : limiter) (key : string) (limit now : Z) : bool * limiter :=
  let limit := effective_limit limit in
  let key := limiter_key key in
  let state := filter (fun kv : string * (Z * Z) => live_slot now kv.2) state in
  let slot := default (0%Z, time_zero) (state !! key) in
  let slot := if decide (live_slot now slot) then slot else (0, now + window)%Z in
  if (limit <=? slot.1)%Z then (false, <[key := slot]> state)
  else (true, <[key := ((slot.1 + 1)%Z, slot.2)]> state).

(** ** Requests and answers *)

Record Request : Type := mkRequest {
  reqMethod : string;
  reqChannelID : string;
  reqHeader : string -> string;
  reqRemoteAddr : string;
  reqBody : result goerr string;
  reqMediaType : string;                             (* [mime.ParseMediaType] *)
  reqQuery : result goerr (list (string * list string));   (* [url.ParseQuery] of the body *)
  reqMultipart : result goerr (list (string * list string) * list AttachmentInput);
  reqPostForm : result goerr (list (string * list string));
  reqCaptchaToken : string
}.

Record Reply : Type := mkReply { rpStatus : Z; rpBody : json }.
Definition error_reply (status : Z) (code : string) : Reply :=
  mkReply status (JObj [("code", JStr code); ("error", JStr code)]).

(** [payload[key] = vals[0]] or all values *)
Definition form_payload (values : list (string * list string)) : json :=
  JObj (mk_obj (map (fun kv => (kv.1, match kv.2 with [v] => JStr v | vs => JArr (map JStr vs) end)) values)).

(** [io.LimitReader] *)
Fixpoint limit_str (n : Z) (s : string) : string :=
  match s with
  | EmptyString => EmptyString
  | String a s' => if (n <=? 0)%Z then EmptyString else String a (limit_str (n - 1) s')
  end.

Section Intake.
Context `{R : Runtime}.
Context (uuid_Parse : string -> result goerr uuid) (hmac_sha256 : string -> string -> string)
  (FormatFloat : Qc -> string).
Context (SecretStore : option (uuid -> string -> CSvc string)).
Context (process : ChannelRequest -> CSvc PipelineResult).

(** ** Webhooks *)

Definition mismatch (what : string) : goerr := Errorf "%s mismatch" [what].

Definition auth_type (cfg : WebhookConfig) : string :=
  let t := ToLower (TrimSpace (whAuthType cfg)) in if decide (t = "") then "none" else t.

Definition received_signature (cfg : WebhookConfig) (r : Request) : string :=
  let received := TrimSpace (reqHeader r (if decide (whAuthHeader cfg = "") then "X-Signature" else whAuthHeader cfg)) in
  if HasPrefix (ToLower received) "sha256=" then TrimPrefix (ToLower received) "sha256=" else received.

(** The check of the credentials against the secret. *)
Definition check_auth (cfg : WebhookConfig) (secret : string) (r : Request) (body : string) : result goerr unit :=
  let t := auth_type cfg in
  if decide (t = "none") then Ok tt
  else if decide (t = "hmac") then
    if decide (hex_encode (hmac_sha256 secret body) = ToLower (received_signature cfg r)) then Ok tt
    else Err (mismatch "hmac")
  else if decide (t = "api_key") then
    if decide (reqHeader r (if decide (whAuthHeader cfg = "") then "X-API-Key" else whAuthHeader cfg) = secret)
    then Ok tt else Err (mismatch "api key")
  else if decide (t = "bearer") then
    if decide (TrimSpace (TrimPrefix (TrimSpace (reqHeader r "Authorization")) "Bearer") = secret)
    then Ok tt else Err (mismatch "bearer")
  else Err (Errorf "unsupported auth_type" []).

Definition authenticate (cfg : WebhookConfig) (tenantID : uuid) (r : Request) (body : string) : CSvc unit :=
  if decide (auth_type cfg = "none") then mret tt
  else match SecretStore with
       | None => fail (Errorf "secret store missing" [])
       | Some secrets =>
           secret ← secrets tenantID (whAuthSecret cfg);
           pureS (check_auth cfg secret r body)
       end.

Definition decodeBodyPayload (r : Request) (body : string) : result goerr string :=
  if decide (reqMediaType r = "application/x-www-form-urlencoded") then
    values ← reqQuery r; Ok (Marshal FormatFloat (form_payload values))
  else if decide (body = "") then Ok "{}"
  else match json_parse body with Some _ => Ok body | None => Err (Errorf "invalid JSON" []) end.

Definition webhook_request (ch : Channel) (payload : string) : ChannelRequest :=
  mkChannelRequest (chTenantID ch) (chID ch) payload [] "webhook" uuid_Nil None.

Definition max_body : Z := 10 * 1024 * 1024.

(** Authenticated: decode, deliver, answer. *)
Definition webhook_deliver (ch : Channel) (r : Request) (body : string) : CSvc Reply :=
  match decodeBodyPayload r body with
  | Err _ => mret (error_reply 400 "invalid_payload")
  | Ok payload =>
      out ← tryS (process (webhook_request ch payload));
      mret match out with
           | Ok res => mkReply 200 (JObj [("case_id", JStr (uuid_string (prCaseID res)));
                                          ("event_id", JStr (uuid_string (prEventID res)))])
           | Err e => if decide (e = ErrDeduped) then mkReply 200 (JObj [("status", JStr "deduped")])
                      else if decide (e = ErrChannelDisabled) then error_reply 503 "channel_disabled"
                      else error_reply 500 "pipeline_failed"
           end
  end.

Definition webhook_ServeHTTP (r : Request) : CSvc Reply :=
  if negb (bool_decide (reqMethod r = "POST")) then mret (error_reply 405 "method_not_allowed")
  else match uuid_Parse (TrimSpace (reqChannelID r)) with
       | Err _ => mret (error_reply 400 "invalid_channel_id")
       | Ok channelID =>
           found ← tryS (GetByID channelID);
           match found with
           | Err _ => mret (error_reply 404 "channel_not_found")
           | Ok ch =>
               if negb (bool_decide (chType ch = ChannelWebhook)) then mret (error_reply 400 "invalid_channel_type")
               else if negb (chEnabled ch) then mret (error_reply 503 "channel_disabled")
               else match reqBody r with
                    | Err _ => mret (error_reply 400 "invalid_body")
                    | Ok whole =>
                        let body := limit_str max_body whole in
                        ok ← tryS (authenticate (dec_WebhookConfig (chConfig ch)) (chTenantID ch) r body);
                        match ok with
                        | Err _ => mret (error_reply 401 "unauthorized")
                        | Ok _ => webhook_deliver ch r body
                        end
                    end
           end
       end.

(** ** Forms *)

Definition clientIP (r : Request) : string :=
  let forwarded := TrimSpace (reqHeader r "X-Forwarded-For") in
  if decide (forwarded = "") then TrimSpace (reqRemoteAddr r)
  else TrimSpace (default "" (head (Split ","%char forwarded))).

Definition form_window : Z := NewIPRateLimiter_window Minute.

(** [allowIP]: the time is read when the limit is checked. *)
Definition allowIP (rl : limiter) (r : Request) (perMinute : Z) : CSvc (bool * limiter) :=
  let perMinute := if (perMinute <=? 0)%Z then 10 else perMinute in
  let ip := if decide (clientIP r = "") then reqRemoteAddr r else clientIP r in
  now ← nowS;
  mret (Allow form_window rl ip perMinute now).

(** The answer of the captcha service: whether the token is good. *)
Context (siteverify : string -> string -> CSvc bool).

Definition verifyCaptcha (cfg : FormConfig) (token : string) : CSvc unit :=
  if decide (TrimSpace token = "") then fail (Errorf "captcha token required" [])
  else if negb (bool_decide (ToLower (TrimSpace (foCaptchaProvider cfg)) = "hcaptcha"))
  then fail (Errorf "unsupported captcha provider" [])
  else
    success ← siteverify (foCaptchaSecret cfg) token;
    guardS success (Errorf "captcha verification failed" []).

Definition parseFormPayload (r : Request) : result goerr (string * list AttachmentInput) :=
  let contentType := reqHeader r "Content-Type" in
  if HasPrefix contentType "multipart/form-data" then
    form ← reqMultipart r; Ok (Marshal FormatFloat (form_payload form.1), form.2)
  else if HasPrefix contentType "application/x-www-form-urlencoded" then
    values ← reqPostForm r; Ok (Marshal FormatFloat (form_payload values), [])
  else
    body ← reqBody r;
    if decide (body = "") then Ok ("{}", [])
    else match json_parse body with Some _ => Ok (body, []) | None => Err (Errorf "invalid JSON" []) end.

Definition loadChannel (r : Request) : CSvc Channel :=
  channelID ← pureS (uuid_Parse (TrimSpace (reqChannelID r)));
  ch ← GetByID channelID;
  if negb (bool_decide (chType ch = ChannelForm)) then fail (Errorf "channel %s is not form type" [uuid_string (chID ch)])
  else mret ch.

Definition ServeForm (r : Request) : CSvc Reply :=
  found ← tryS (loadChannel r);
  match found with
  | Err _ => mret (error_reply 400 "invalid_channel")
  | Ok ch =>
      if negb (chEnabled ch) then mret (error_reply 503 "channel_disabled")
      else
        schema ← tryS (liftM (GetFormSchema (chTenantID ch) (chCaseTypeID ch)));
        mret match schema with
             | Err _ => error_reply 404 "case_type_schema_not_found"
             | Ok schema => mkReply 200 (JObj [("channel_id", JStr (uuid_string (chID ch))); ("schema", schema)])
             end
  end.

Definition form_deliver (ch : Channel) (cfg : FormConfig) (r : Request) : CSvc Reply :=
  match parseFormPayload r with
  | Err _ => mret (error_reply 400 "invalid_form")
  | Ok (payload, files) =>
      out ← tryS (process (mkChannelRequest (chTenantID ch) (chID ch) payload files "form" uuid_Nil None));
      mret match out with
           | Err e => if decide (e = ErrDeduped) then mkReply 409 (JObj [("status", JStr "deduped")])
                      else error_reply 500 "pipeline_failed"
           | Ok res =>
               if decide (foSuccessRedirectURL cfg = "")
               then mkReply 200 (JObj [("case_id", JStr (uuid_string (prCaseID res))); ("status", JStr "submitted")])
               else mkReply 303 (JStr (foSuccessRedirectURL cfg))
           end
  end.

Definition SubmitForm (rl : limiter) (r : Request) : CSvc (Reply * limiter) :=
  found ← tryS (loadChannel r);
  match found with
  | Err _ => mret (error_reply 400 "invalid_channel", rl)
  | Ok ch =>
      if negb (chEnabled ch) then mret (error_reply 503 "channel_disabled", rl)
      else
        let cfg := FormConfig_WithDefaults (dec_FormConfig (chConfig ch)) in
        a ← allowIP rl r (foRateLimitPerMinute cfg);
        if negb a.1 then mret (error_reply 429 "rate_limit_exceeded", a.2)
        else
          captcha ← tryS (if foCaptchaEnabled cfg then verifyCaptcha cfg (TrimSpace (reqCaptchaToken r)) else mret tt);
          match captcha with
          | Err _ => mret (error_reply 400 "captcha_invalid", a.2)
          | Ok _ => reply ← form_deliver ch cfg r; mret (reply, a.2)
          end
  end.
End Intake.
