(* ===== verification/ChannelIntakeClaims.v ===== *)
(** * Claims about webhooks, forms and rate limits *)

From S2P Require Import Prelude GoStrings Json EngineTypes Store AuditTrail EngineOps TaskForms CaseData CaseOps.
From S2P Require Import GoText Effects JsonText GoPath Site VaultStore Channels ChannelStore ChannelPipeline ChannelIntake ChannelClaims.

(** ** The rate limiter *)

Record call : Type := mkCall { caKey : string; caLimit : Z; caNow : Z }.

Fixpoint run_calls (window : Z) (s : limiter) (l : list call) : list (call * bool) :=
  match l with
  | [] => []
  | c :: l' => let '(ok, s') := Allow window s (caKey c) (caLimit c) (caNow c) in
               (c, ok) :: run_calls window s' l'
  end.

(** Calls of a key that were let through in [T, T + window). *)
Definition let_through (k : string) (T window : Z) (l : list (call * bool)) : nat :=
  length (filter (fun cb => cb.2 = true /\ limiter_key (caKey cb.1) = k /\ (T <= caNow cb.1 < T + window)%Z) l).

Section Limiter.
Context (window L T : Z) (k : string).
Context (HL : (0 < L)%Z).

(** After calls up to now, [n] of them let through in the interval. *)
Definition slots_ok (s : limiter) (n : Z) : Prop :=
  match s !! k with
  | None => (n < L)%Z
  | Some (c, x) => (1 <= c <= L)%Z /\ ((x < T + window)%Z -> (n < c)%Z) /\ ((T + window <= x)%Z -> (n < L + c)%Z)
  end.

Definition in_interval (now : Z) : Prop := (T <= now < T + window)%Z.
#[local] Instance in_interval_dec now : Decision (in_interval now).
Proof. unfold in_interval. apply _. Defined.

Definition counts (c : call) (ok : bool) : Prop := ok = true /\ limiter_key (caKey c) = k /\ in_interval (caNow c).
#[local] Instance counts_dec c ok : Decision (counts c ok).
Proof. unfold counts. apply _. Defined.

Lemma live_lookup (s : limiter) now :
  filter (fun kv : string * (Z * Z) => live_slot now kv.2) s !! k =
  match s !! k with Some v => if decide (live_slot now v) then Some v else None | None => None end.
Proof.
  destruct (s !! k) as [v|] eqn:E.
  - destruct (decide (live_slot now v)).
    + by apply map_lookup_filter_Some.
    + apply map_lookup_filter_None. right. intros v' Hv'. simpl.
      assert (Some v = Some v') as [= <-] by (rewrite <-Hv'; exact (eq_sym E)). done.
  - apply map_lookup_filter_None. by left.
Qed.

(** Dropping expired counters, before the end of the interval. *)
Lemma slots_ok_filter s n now :
  (now < T + window)%Z -> slots_ok s n ->
  match filter (fun kv : string * (Z * Z) => live_slot now kv.2) s !! k with
  | None => (n < L)%Z
  | Some (c, x) => (now < x)%Z /\ (1 <= c <= L)%Z /\ ((x < T + window)%Z -> (n < c)%Z) /\
                   ((T + window <= x)%Z -> (n < L + c)%Z)
  end.
Proof.
  intros Hnow Hs. rewrite live_lookup. unfold slots_ok in Hs. destruct (s !! k) as [[c x]|]; [|done].
  destruct (decide (live_slot now (c, x))) as [Hl|Hl]; unfold live_slot in Hl; simpl in Hl; [tauto|lia].
Qed.

Lemma allow_step s n c :
  slots_ok s n -> (limiter_key (caKey c) = k -> effective_limit (caLimit c) = L) ->
  (time_zero <= caNow c < T + window)%Z -> ((caNow c < T)%Z -> n = 0%Z) ->
  let '(ok, s') := Allow window s (caKey c) (caLimit c) (caNow c) in
  slots_ok s' (if decide (counts c ok) then n + 1 else n)%Z.
Proof.
  intros Hs Hlim Hnow Hn. unfold Allow. cbv zeta.
  pose proof (slots_ok_filter s n (caNow c) ltac:(lia) Hs) as Hf.
  set (s1 := filter _ s) in *.
  destruct (decide (limiter_key (caKey c) = k)) as [Hk|Hk].
  - rewrite Hk, Hlim by done. destruct (s1 !! k) as [[cnt x]|] eqn:E1; cbn [default from_option id].
    + destruct Hf as (Hlive & Hc & H1 & H2). rewrite decide_True by done. cbn [fst snd].
      destruct (L <=? cnt)%Z eqn:El; unfold slots_ok; rewrite lookup_insert_eq.
      * rewrite decide_False by (unfold counts; naive_solver). auto.
      * apply Z.leb_gt in El. destruct (decide _); split_and!; intros; lia.
    + rewrite decide_False by (unfold live_slot; simpl; lia). cbn [fst snd].
      rewrite (proj2 (Z.leb_gt L 0)) by lia. unfold slots_ok. rewrite lookup_insert_eq.
      destruct (decide _) as [[_ [_ Hin]]|Hnc].
      * unfold in_interval in Hin. split_and!; intros; lia.
      * assert (caNow c < T)%Z as Hlt by (destruct (decide (caNow c < T)%Z); [done|]; destruct Hnc; split_and!; [done|done|unfold in_interval; lia]).
        rewrite (Hn Hlt). split_and!; intros; lia.
  - set (key := limiter_key (caKey c)) in *.
    assert (forall v b, slots_ok (<[key := v]> s1) (if decide (counts c b) then n + 1 else n)%Z) as H.
    { intros v b. rewrite decide_False by (unfold counts; naive_solver). unfold slots_ok.
      rewrite lookup_insert_ne by done. destruct (s1 !! k) as [[cnt x]|]; [tauto|done]. }
    destruct (_ <=? _)%Z; apply H.
Qed.

Lemma let_through_cons c ok l :
  let_through k T window ((c, ok) :: l) = ((if decide (counts c ok) then 1 else 0) + let_through k T window l)%nat.
Proof.
  unfold let_through. rewrite filter_cons. unfold counts, in_interval. cbn [fst snd].
  destruct (decide _); done.
Qed.

(** Later than the interval nothing counts. *)
Lemma let_through_late l :
  Forall (fun cb : call * bool => (T + window <= caNow cb.1)%Z) l -> let_through k T window l = 0%nat.
Proof.
  intros H. unfold let_through. induction H as [|cb l Hcb H IH]; [done|].
  rewrite filter_cons_False by (intros (_ & _ & ?); lia). done.
Qed.

Lemma run_calls_fst s l : map fst (run_calls window s l) = l.
Proof.
  revert s. induction l as [|c l IH]; intros s; [done|]. cbn [run_calls].
  destruct (Allow _ _ _ _ _) as [ok s']. cbn [map fst]. by rewrite IH.
Qed.

Definition sorted_calls (l : list call) : Prop := StronglySorted (fun a b => (caNow a <= caNow b)%Z) l.

Lemma run_bound l : forall s n,
  slots_ok s n -> (0 <= n)%Z ->
  sorted_calls l -> Forall (fun c => (time_zero <= caNow c)%Z) l ->
  Forall (fun c => limiter_key (caKey c) = k -> effective_limit (caLimit c) = L) l ->
  (forall c, c ∈ l -> (caNow c < T)%Z -> n = 0%Z) ->
  (n < 2 * L)%Z ->
  (n + Z.of_nat (let_through k T window (run_calls window s l)) < 2 * L)%Z.
Proof.
  induction l as [|c l IH]; intros s n Hs Hn0 Hsort Htz Hlim Hn Hle; [simpl; unfold let_through; simpl; lia|].
  inversion Hsort as [|? ? Hsort' Hall]; subst. inversion Htz as [|? ? Hz Htz']; subst.
  inversion Hlim as [|? ? Hl Hlim']; subst.
  destruct (decide (T + window <= caNow c)%Z) as [Hlate|Hearly].
  - rewrite let_through_late; [lia|]. apply Forall_forall. intros cb Hcb.
    assert (cb.1 ∈ c :: l) as Hin by (rewrite <-(run_calls_fst s (c :: l)); by apply list_elem_of_fmap_2).
    apply elem_of_cons in Hin as [->|Hin]; [done|]. rewrite Forall_forall in Hall. specialize (Hall _ Hin). simpl in Hall. lia.
  - cbn [run_calls]. pose proof (allow_step s n c Hs Hl ltac:(lia) (Hn c ltac:(by left))) as Hstep.
    destruct (Allow _ _ _ _ _) as [ok s'] eqn:EA. rewrite let_through_cons.
    destruct (decide (counts c ok)) as [Hc|Hc].
    + assert (n + 1 < 2 * L)%Z as Hle'.
      { unfold slots_ok in Hstep. destruct (s' !! k) as [[cnt x]|]; [|lia].
        destruct Hstep as (H1 & H2 & H3). destruct (decide (x < T + window)%Z); [specialize (H2 ltac:(lia))|specialize (H3 ltac:(lia))]; lia. }
      specialize (IH s' (n + 1)%Z Hstep ltac:(lia) Hsort' Htz' Hlim').
      assert (forall c0, c0 ∈ l -> (caNow c0 < T)%Z -> (n + 1)%Z = 0%Z) as Hn'.
      { intros c0 Hc0 Hlt. destruct Hc as (_ & _ & Hin). unfold in_interval in Hin.
        rewrite Forall_forall in Hall. specialize (Hall _ Hc0). simpl in Hall. lia. }
      specialize (IH Hn' Hle'). lia.
    + specialize (IH s' n Hstep Hn0 Hsort' Htz' Hlim'). simpl. apply IH; [|done].
      intros c0 Hc0. apply Hn. by right.
Qed.
End Limiter.

(** C29. Calls come in the order of time. Whatever other clients do, of the calls of
    one client fewer than twice its limit are let through in any span as long
    as the window, wherever the span starts. *)
Theorem rate_limit_bounds window L T k (l : list call) :
  (0 < L)%Z -> sorted_calls l -> Forall (fun c => (time_zero <= caNow c)%Z) l ->
  Forall (fun c => limiter_key (caKey c) = k -> effective_limit (caLimit c) = L) l ->
  (Z.of_nat (let_through k T window (run_calls window ∅ l)) < 2 * L)%Z.
Proof.
  intros HL Hsort Htz Hlim.
  apply (run_bound window L T k HL l ∅ 0); try done; try lia.
Qed.

(** Calls around the end of a window of ten, with a limit of two: three are let
    through in the span from 9 to 19, as many as the bound allows. *)
Definition burst : list call := [mkCall "ip" 2 0; mkCall "ip" 2 9; mkCall "ip" 2 10; mkCall "ip" 2 11; mkCall "ip" 2 12].
Lemma rate_limit_bounds_witness :
  let_through "ip" 9 10 (run_calls 10 ∅ burst) = 3%nat /\
  (Z.of_nat (let_through "ip" 9 10 (run_calls 10 ∅ burst)) < 2 * 2)%Z.
Proof.
  split; [vm_compute; reflexivity|].
  apply (rate_limit_bounds 10 2 9 "ip" burst); [lia| | |].
  - repeat constructor; vm_compute; discriminate.
  - repeat constructor; vm_compute; discriminate.
  - repeat constructor; intros _; reflexivity.
Defined.

(** ** Webhooks *)

Section Webhook.
Context `{R : Runtime}.
Context (uuid_Parse : string -> result goerr uuid) (hmac_sha256 : string -> string -> string)
  (FormatFloat : Qc -> string) (SecretStore : option (uuid -> string -> CSvc string))
  (process : ChannelRequest -> CSvc PipelineResult).

(** Reading a secret changes nothing. *)
Definition secrets_read_only : Prop :=
  match SecretStore with
  | None => True
  | Some secrets => forall t n (w : Sys CSite), st (secrets t n w).2 = st w
  end.

(** What a request must show, per kind of authentication, given the secret. *)
Inductive credentials (cfg : WebhookConfig) (secret : string) (r : Request) (body : string) : Prop :=
| cred_none : auth_type cfg = "none" -> credentials cfg secret r body
| cred_hmac : auth_type cfg = "hmac" ->
    hex_encode (hmac_sha256 secret body) = ToLower (received_signature cfg r) -> credentials cfg secret r body
| cred_api_key : auth_type cfg = "api_key" ->
    reqHeader r (if decide (whAuthHeader cfg = "") then "X-API-Key" else whAuthHeader cfg) = secret ->
    credentials cfg secret r body
| cred_bearer : auth_type cfg = "bearer" ->
    TrimSpace (TrimPrefix (TrimSpace (reqHeader r "Authorization")) "Bearer") = secret ->
    credentials cfg secret r body.

Lemma check_auth_sound cfg secret r body :
  check_auth hmac_sha256 cfg secret r body = Ok tt -> credentials cfg secret r body.
Proof.
  unfold check_auth. cbv zeta. intros H.
  destruct (decide (auth_type cfg = "none")); [by constructor|].
  destruct (decide (auth_type cfg = "hmac")).
  { destruct (decide (_ = ToLower _)); [|done]. by apply cred_hmac. }
  destruct (decide (auth_type cfg = "api_key")).
  { destruct (decide (reqHeader _ _ = _)) in H; [|done]. by apply cred_api_key. }
  destruct (decide (auth_type cfg = "bearer")); [|done].
  destruct (decide (TrimSpace _ = _)) in H; [|done]. by apply cred_bearer.
Qed.

(** The secret of the channel, as the store gives it. *)
Definition secret_of (cfg : WebhookConfig) (t : uuid) (secret : string) : Prop :=
  auth_type cfg = "none" \/
  exists secrets w w', SecretStore = Some secrets /\ secrets t (whAuthSecret cfg) w = (Ok secret, w').

Lemma authenticate_sound cfg t r body w :
  secrets_read_only ->
  let '(out, w') := authenticate hmac_sha256 SecretStore cfg t r body w in
  st w' = st w /\ (is_ok out = true -> exists secret, secret_of cfg t secret /\ credentials cfg secret r body).
Proof.
  unfold authenticate, secrets_read_only, secret_of. intros Hs. destruct (decide (auth_type cfg = "none")).
  { split; [done|]. intros _. exists "". split; [by left|by constructor]. }
  destruct SecretStore as [secrets|]; [|done]. unfold mbind, Svc_bind. specialize (Hs t (whAuthSecret cfg) w).
  destruct (secrets t (whAuthSecret cfg) w) as [[secret|e] w1] eqn:E; [|done]. unfold pureS.
  split; [done|]. intros Hok. exists secret. split; [right; by exists secrets, w, w1|].
  apply check_auth_sound. by destruct (check_auth _ _ _ _ _) as [[]|].
Qed.

Lemma GetByID_found id w :
  let '(out, w') := GetByID id w in
  st w' = st w /\ match out with
                  | Ok ch => exists row, channels (own (st w)) !! id = Some row /\ open_row row = true /\ ch = crChannel row
                  | Err _ => True
                  end.
Proof.
  unfold GetByID, select_row_site, exec_site. destruct (fault _); [done|].
  destruct (channels (own (st w)) !! id) as [row|] eqn:E; [|done].
  destruct (open_row row) eqn:Eo; [|done]. simpl. split; [by destruct (st w)|eauto].
Qed.

(** C30. A webhook request that changes anything is a [POST] to a channel that is
    open, of type webhook and enabled, and shows the credentials the channel
    asks for over the body as it was received, up to the limit. *)
Theorem webhook_delivers_authenticated r w :
  secrets_read_only ->
  let '(out, w') := webhook_ServeHTTP uuid_Parse hmac_sha256 FormatFloat SecretStore process r w in
  st w' = st w \/
  exists id row whole secret,
    reqMethod r = "POST" /\ uuid_Parse (TrimSpace (reqChannelID r)) = Ok id /\
    channels (own (st w)) !! id = Some row /\ open_row row = true /\
    chType (crChannel row) = ChannelWebhook /\ chEnabled (crChannel row) = true /\ reqBody r = Ok whole /\
    secret_of (dec_WebhookConfig (chConfig (crChannel row))) (chTenantID (crChannel row)) secret /\
    credentials (dec_WebhookConfig (chConfig (crChannel row))) secret r (limit_str max_body whole).
Proof.
  intros Hs. unfold webhook_ServeHTTP. destruct (bool_decide_reflect (reqMethod r = "POST")) as [Hm|]; [|by left].
  cbn [negb]. destruct (uuid_Parse _) as [id|]; [|by left].
  unfold mbind at 1, Svc_bind at 1, tryS at 1. pose proof (GetByID_found id w) as Hg.
  destruct (GetByID id w) as [[ch|e] w1]; [|left; naive_solver]. destruct Hg as (Hw1 & row & Hrow & Ho & ->).
  destruct (bool_decide_reflect (chType (crChannel row) = ChannelWebhook)) as [Ht|]; [|by left]. cbn [negb].
  destruct (chEnabled (crChannel row)) eqn:He; [|by left]. cbn [negb].
  destruct (reqBody r) as [whole|]; [|by left]. cbv zeta.
  unfold mbind at 1, Svc_bind at 1, tryS at 1.
  pose proof (authenticate_sound (dec_WebhookConfig (chConfig (crChannel row))) (chTenantID (crChannel row)) r
    (limit_str max_body whole) w1 Hs) as Ha.
  destruct (authenticate _ _ _ _ _ _ w1) as [[[]|e] w2]; destruct Ha as [Hw2 Ha]; [|left; simpl; congruence].
  destruct (webhook_deliver _ _ _ _ _ w2) as [out w3]. right. destruct (Ha eq_refl) as (secret & H1 & H2).
  by exists id, row, whole, secret.
Qed.
End Webhook.

Module WebhookExample.
Import ChannelExample.
Definition keyed : Channel :=
  mkChannel 9 1 "Intake" ChannelWebhook "" (Some (JObj [("auth_type", JStr "api_key"); ("auth_secret", JStr "key")])) 20
    None [mkFieldMapping "ref" "ref" "" "" ""] by_ref true 0 0.
Definition keyed_site : Sys CSite :=
  mkSys (mkSite (mkWorld tables0 None 0 0 [] [] []) ∅ (mkTables {[ 9%N := mkChannelRow keyed None ]} [])) 0.
Definition secrets (t : uuid) (name : string) : CSvc string := mret (name +:+ "-1").
Definition parse_nine (s : string) : result goerr uuid := if decide (s = "9") then Ok 9%N else Err (Errorf "invalid UUID" []).
Definition post : Request :=
  mkRequest "POST" "9" (fun h => if decide (h = "X-API-Key") then "key-1" else "") "10.0.0.1:5" (Ok (ref_of "B"))
    "application/json" (Ok []) (Ok ([], [])) (Ok []) "".
Definition serve := @webhook_ServeHTTP example_runtime parse_nine (fun k m => k +:+ m) zero_text (Some secrets)
  (run None) post keyed_site.

Lemma webhook_delivers_authenticated_witness :
  exists secret row whole,
    channels (own (st keyed_site)) !! 9%N = Some row /\ reqBody post = Ok whole /\
    secret_of (Some secrets) (dec_WebhookConfig (chConfig (crChannel row))) (chTenantID (crChannel row)) secret /\
    credentials (fun k m => k +:+ m) (dec_WebhookConfig (chConfig (crChannel row))) secret post (limit_str max_body whole).
Proof.
  pose proof (@webhook_delivers_authenticated example_runtime parse_nine (fun k m => k +:+ m) zero_text (Some secrets)
    (run None) post keyed_site (fun t n w => eq_refl)) as H.
  change (webhook_ServeHTTP _ _ _ _ _ _ _) with serve in H.
  destruct serve as [out w'] eqn:E. destruct H as [H|(id & row & whole & secret & _ & Hid & Hrow & _ & _ & _ & Hb & H1 & H2)].
  - exfalso. apply (f_equal (fun x => length (channel_events (own (st x.2))))) in E.
    cbn [snd] in E. rewrite H in E. vm_compute in E. discriminate.
  - injection Hid as <-. exact (ex_intro _ secret (ex_intro _ row (ex_intro _ whole (conj Hrow (conj Hb (conj H1 H2)))))).
Defined.
End WebhookExample.
