(* ===== verification/Plugins.v ===== *)
(** * Plugins: references, versions, manifests, schema changes
      ([types.go], [version.go], [manifest.go], [manifest_parse.go],
      [manifest_validate.go], [schema_compat.go])

    The pure part of [internal/plugins]. A manifest is the struct the YAML
    library decodes. *)

From S2P Require Import Prelude GoStrings Json EngineTypes Store GoText Triggers.

(** ** References *)

Record PluginRef : Type := mkPluginRef { refID : string; refVersion : string }.

Definition ErrInvalidPluginRef : goerr := Errorf "invalid plugin ref" [].
Definition invalid_ref (why : string) : goerr := Wrapf "%w: %s" [why] ErrInvalidPluginRef.

Definition ParsePluginRef (s : string) : PluginRef :=
  let s := TrimSpace s in
  if decide (s = "") then mkPluginRef "" ""
  else match Split "@"%char s with
       | [id] => mkPluginRef (TrimSpace id) ""
       | [id; version] => mkPluginRef (TrimSpace id) (TrimSpace version)
       | _ => mkPluginRef "" ""
       end.

Definition ParsePluginRefStrict (s : string) : result goerr PluginRef :=
  let ref := ParsePluginRef s in
  if decide (refID ref = "") then Err (invalid_ref "plugin id is required")
  else if (1 <? CountByte "@"%char s)%nat then Err (invalid_ref "too many @ separators")
  else if char_in "@"%char s && bool_decide (refVersion ref = "")
  then Err (invalid_ref "plugin version is required when @ is present")
  else Ok ref.

(** ** Versions *)

Record semver : Type := mkSemver { Major : Z; Minor : Z; Patch : Z }.

Definition is_digit_char (a : ascii) : bool := char_in a "0123456789".

(** The longest prefix of digits and what follows. *)
Fixpoint span_digits (s : string) : string * string :=
  match s with
  | EmptyString => (EmptyString, EmptyString)
  | String a s' => if is_digit_char a then (String a (span_digits s').1, (span_digits s').2) else (EmptyString, s)
  end.
(** [(\d+)] *)
Definition number (s : string) : option (string * string) :=
  match span_digits s with (EmptyString, _) => None | r => Some r end.
Definition dot (s : string) : option string :=
  match s with String "."%char s' => Some s' | _ => None end.
(** Nothing, or a sign and any characters up to the end; a dot of a regular
    expression does not match a newline. *)
Definition version_suffix (s : string) : bool :=
  match s with
  | EmptyString => true
  | String a s' => char_in a "-+" && negb (char_in "010"%char s')
  end.

(** [semverRe.FindStringSubmatch] *)
Definition semver_parts (s : string) : option (string * string * string) :=
  let s := TrimPrefix s "v" in
  '(a, s) ← number s; s ← dot s;
  '(b, s) ← number s; s ← dot s;
  '(c, s) ← number s;
  if version_suffix s then Some (a, b, c) else None.

(** [n, _ := strconv.Atoi(s)] on digits: a number out of range is the largest. *)
Definition Atoi_digits (s : string) : Z := default int64_max (Atoi s).

Definition parseSemver (v : string) : result goerr semver :=
  match semver_parts (TrimSpace v) with
  | None => Err (Errorf "invalid semver: %s" [v])
  | Some (a, b, c) => Ok (mkSemver (Atoi_digits a) (Atoi_digits b) (Atoi_digits c))
  end.

Definition compareSemver (a b : string) : result goerr Z :=
  sa ← parseSemver a;
  sb ← parseSemver b;
  Ok (if negb (Major sa =? Major sb)%Z then (if (Major sa <? Major sb)%Z then -1 else 1)
      else if negb (Minor sa =? Minor sb)%Z then (if (Minor sa <? Minor sb)%Z then -1 else 1)
      else if negb (Patch sa =? Patch sb)%Z then (if (Patch sa <? Patch sb)%Z then -1 else 1)
      else 0)%Z.

(** The order the sorts use: later versions first; texts where one is no version. *)
Definition version_after (a b : string) : bool :=
  match compareSemver a b with
  | Ok cmp => (0 <? cmp)%Z
  | Err _ => str_ltb b a
  end.

(** ** Manifests *)

Definition pluginIDRe (s : string) : bool :=
  match s with
  | EmptyString => false
  | String a s' =>
      char_in a "abcdefghijklmnopqrstuvwxyz" &&
      all_chars (fun c => char_in c "abcdefghijklmnopqrstuvwxyz0123456789-") s' &&
      (1 <=? String.length s')%nat && (String.length s' <=? 63)%nat
  end.

Definition knownManifestFields : list string :=
  ["id"; "name"; "version"; "type"; "category"; "tier"; "maturity"; "min_host_version"; "max_host_version";
   "tool_capable"; "tool_description"; "tool_safety"; "ui"; "host_functions"; "operational"; "cost"; "audit";
   "trigger_contract"; "trigger_config"].

Record PropertyDef : Type := mkPropertyDef {
  pdKey : string;
  pdLabel : string;
  pdType : string;
  pdRequired : bool;
  pdDefault : option json;
  pdOptions : list string;
  pdHelpText : string;
  pdValidation : string
}.

Record ManifestUI : Type := mkManifestUI {
  uiIconSVG : string;
  uiDescription : string;
  uiLongDescription : string;
  uiProperties : list PropertyDef
}.

Record RateLimitCfg : Type := mkRateLimitCfg { rlRequestsPerSecond : Qc; rlBurst : Z }.
Record OperationalMeta : Type := mkOperationalMeta {
  omRetrySemantics : string;
  omTransactionGuarantee : string;
  omIdempotent : bool;
  omRateLimited : bool;
  omRateLimitConfig : option RateLimitCfg
}.
Record CostMeta : Type := mkCostMeta { cmLevel : string; cmBillingUnit : string; cmNotes : string }.
Record AuditHostCalls : Type := mkAuditHostCalls { ahMode : string; ahMaxEntries : Z; ahSampleRate : Z }.
Record TriggerCfg : Type := mkTriggerCfg { tgPollingIntervalMS : Z; tgConfigurableInterval : bool }.

Record PluginManifest : Type := mkPluginManifest {
  mfID : string;
  mfName : string;
  mfVersion : string;
  mfType : string;
  mfCategory : string;
  mfTier : string;
  mfMaturity : string;
  mfMinHostVersion : string;
  mfMaxHostVersion : string;
  mfToolCapable : bool;
  mfToolDescription : string;
  mfToolSafety : string;
  mfUI : ManifestUI;
  mfHostFunctions : list string;
  mfOperational : option OperationalMeta;
  mfCost : option CostMeta;
  mfAudit : option AuditHostCalls;
  mfTriggerContract : option RawContract;
  mfTriggerConfig : option TriggerCfg;
  mfMetadata : object
}.

Definition defaultRuntimeHostVersion : string := "0.0.1".
Definition StepPlugin : string := "step".
Definition TriggerPlugin : string := "trigger".

Inductive ValidationSeverity : Type := ValidationSeverityError | ValidationSeverityWarning.
#[export] Instance ValidationSeverity_eq_dec : EqDecision ValidationSeverity.
Proof. solve_decision. Defined.

Record ManifestIssue : Type := mkManifestIssue {
  miField : string;
  miMessage : string;
  miSeverity : ValidationSeverity
}.

Definition issue (when : bool) (field message : string) : list ManifestIssue :=
  if when then [mkManifestIssue field message ValidationSeverityError] else [].
Definition warning (when : bool) (field message : string) : list ManifestIssue :=
  if when then [mkManifestIssue field message ValidationSeverityWarning] else [].

Definition blank (s : string) : bool := bool_decide (TrimSpace s = "").
Definition present (s : string) : bool := negb (bool_decide (s = "")).
Definition not_among (s : string) (l : list string) : bool := present s && negb (bool_decide (s ∈ l)).

Definition required_fields (m : PluginManifest) : list (string * string) :=
  [("id", mfID m); ("name", mfName m); ("version", mfVersion m); ("type", mfType m); ("category", mfCategory m);
   ("tier", mfTier m); ("maturity", mfMaturity m); ("min_host_version", mfMinHostVersion m)].

Definition bad_version (v : string) : bool := present v && negb (is_ok (parseSemver v)).
Definition version_message (what v : string) : string :=
  match parseSemver v with Err e => "invalid " +:+ what +:+ ": " +:+ Error e | Ok _ => "" end.

Definition max_icon : Z := 8 * 1024.
Definition icon_too_large (icon : string) : bool :=
  negb (blank icon) && (max_icon <? Z.of_nat (String.length (TrimSpace icon)))%Z.

Definition host_below (min : string) : bool :=
  match compareSemver defaultRuntimeHostVersion min with Ok cmp => (cmp <? 0)%Z | Err _ => false end.

Definition ValidateManifest (m : PluginManifest) : list ManifestIssue :=
  flat_map (fun fv => issue (blank fv.2) fv.1 ("manifest missing required field: " +:+ fv.1)) (required_fields m) ++
  issue (present (mfID m) && negb (pluginIDRe (mfID m))) "id"
    "invalid plugin id: must match ^[a-z][a-z0-9-]{1,63}$" ++
  issue (bad_version (mfVersion m)) "version" (version_message "manifest version" (mfVersion m)) ++
  issue (not_among (mfType m) [StepPlugin; TriggerPlugin]) "type" ("invalid plugin type: " +:+ mfType m) ++
  issue (not_among (mfTier m) ["open_source"; "commercial"]) "tier" ("invalid tier: " +:+ mfTier m) ++
  issue (not_among (mfMaturity m) ["core"; "certified"; "community"; "generated"]) "maturity"
    ("invalid maturity: " +:+ mfMaturity m) ++
  issue (bad_version (mfMinHostVersion m)) "min_host_version" (version_message "min_host_version" (mfMinHostVersion m)) ++
  issue (mfToolCapable m && blank (mfToolDescription m)) "tool_description"
    "tool_description required when tool_capable is true" ++
  issue (mfToolCapable m && blank (mfToolSafety m)) "tool_safety" "tool_safety required when tool_capable is true" ++
  issue (not_among (mfToolSafety m) ["read_only"; "idempotent_write"; "side_effect"]) "tool_safety"
    ("invalid tool_safety: " +:+ mfToolSafety m) ++
  issue (bool_decide (mfType m = TriggerPlugin) && bool_decide (mfTriggerContract m = None)) "trigger_contract"
    "trigger plugins must include trigger_contract" ++
  issue (bool_decide (mfType m = StepPlugin) && negb (bool_decide (mfTriggerContract m = None))) "trigger_contract"
    "step plugins must not include trigger_contract" ++
  issue ((bool_decide (mfMaturity m = "core") || bool_decide (mfMaturity m = "certified")) &&
         bool_decide (mfOperational m = None)) "operational" "core/certified plugins must include operational metadata" ++
  issue (icon_too_large (uiIconSVG (mfUI m))) "ui.icon_svg" "icon_svg exceeds 8KB" ++
  warning (negb (blank (mfMaxHostVersion m)) && negb (blank (mfMinHostVersion m)) &&
           is_ok (parseSemver (mfMinHostVersion m)) && host_below (mfMinHostVersion m)) "max_host_version"
    ("max_host_version set but current host version " +:+ defaultRuntimeHostVersion +:+
     " is below min_host_version " +:+ mfMinHostVersion m) ++
  warning (bool_decide (mfCost m = None)) "cost" "cost metadata missing, default level 'medium' assumed".

Definition is_error (i : ManifestIssue) : bool := bool_decide (miSeverity i = ValidationSeverityError).
Definition manifestErrors (l : list ManifestIssue) : list ManifestIssue := filter (fun i => is_error i = true) l.
Definition manifestWarnings (l : list ManifestIssue) : list ManifestIssue := filter (fun i => is_error i = false) l.

Definition default_host_calls (h : AuditHostCalls) : AuditHostCalls :=
  mkAuditHostCalls (if decide (ahMode h = "") then "summary" else ahMode h)
    (if (ahMaxEntries h <=? 0)%Z then 50 else ahMaxEntries h)
    (if (ahSampleRate h <=? 0)%Z then 10 else ahSampleRate h).
Definition default_cost (c : CostMeta) : CostMeta :=
  mkCostMeta (if decide (cmLevel c = "") then "medium" else cmLevel c) (cmBillingUnit c) (cmNotes c).

Definition applyManifestDefaults (m : PluginManifest) : PluginManifest :=
  mkPluginManifest (mfID m) (mfName m) (mfVersion m) (mfType m) (mfCategory m) (mfTier m) (mfMaturity m)
    (mfMinHostVersion m) (mfMaxHostVersion m) (mfToolCapable m) (mfToolDescription m) (mfToolSafety m) (mfUI m)
    (mfHostFunctions m) (mfOperational m)
    (Some (default_cost (default (mkCostMeta "medium" "" "") (mfCost m))))
    (Some (default_host_calls (default (mkAuditHostCalls "" 0 0) (mfAudit m))))
    (mfTriggerContract m) (mfTriggerConfig m) (mfMetadata m).

Definition with_metadata (meta : object) (m : PluginManifest) : PluginManifest :=
  mkPluginManifest (mfID m) (mfName m) (mfVersion m) (mfType m) (mfCategory m) (mfTier m) (mfMaturity m)
    (mfMinHostVersion m) (mfMaxHostVersion m) (mfToolCapable m) (mfToolDescription m) (mfToolSafety m) (mfUI m)
    (mfHostFunctions m) (mfOperational m) (mfCost m) (mfAudit m) (mfTriggerContract m) (mfTriggerConfig m) meta.

Definition text_le (a b : string) : Prop := str_ltb b a = false.
#[export] Instance text_le_dec : RelDecision text_le.
Proof. intros a b. unfold text_le. apply _. Defined.

Section ParseManifest.
(** The YAML library: into a map and into the struct. *)
Context (yaml_map : string -> result goerr object) (yaml_manifest : string -> result goerr PluginManifest).

Definition unknown_warnings (id : string) (meta : object) : list string :=
  map (fun field => "manifest " +:+ id +:+ ": unknown field '" +:+ field +:+ "' ignored")
    (merge_sort text_le (filter (fun k => k ∉ knownManifestFields) (map fst meta))).

(** [ParseManifest] after the file is read: the manifest and the warnings. *)
Definition parse_manifest (raw : string) : result goerr (PluginManifest * list string) :=
  meta ← match yaml_map raw with Ok m => Ok m | Err e => Err (Wrapf "parse manifest yaml: %w" [] e) end;
  out ← match yaml_manifest raw with Ok m => Ok m | Err e => Err (Wrapf "decode manifest yaml: %w" [] e) end;
  let out := with_metadata meta out in
  let all := ValidateManifest out in
  match manifestErrors all with
  | e :: _ => Err (Errorf "%s" [miMessage e])
  | [] => Ok (applyManifestDefaults out, unknown_warnings (mfID out) meta ++ map miMessage (manifestWarnings all))
  end.
End ParseManifest.

(** ** Changes of the property schema *)

Record PropertyChange : Type := mkPropertyChange {
  pcType : string;
  pcKey : string;
  pcOldType : string;
  pcNewType : string;
  pcMessage : string
}.

Definition by_key (l : list PropertyDef) : gmap string PropertyDef :=
  foldl (fun m d => <[pdKey d := d]> m) ∅ l.

Definition quote1 (s : string) : string := "'" +:+ s +:+ "'".
Definition type_changed (key : string) (old new : PropertyDef) : PropertyChange :=
  mkPropertyChange "type_changed" key (pdType old) (pdType new)
    ("property " +:+ quote1 key +:+ " changed type from " +:+ quote1 (pdType old) +:+ " to " +:+ quote1 (pdType new)).
Definition renamed (old new : PropertyDef) : PropertyChange :=
  mkPropertyChange "renamed" (pdKey old) (pdType old) (pdType new)
    ("property " +:+ quote1 (pdKey old) +:+ " renamed to " +:+ quote1 (pdKey new)).
Definition removed_change (old : PropertyDef) : PropertyChange :=
  mkPropertyChange "removed" (pdKey old) (pdType old) "" ("property " +:+ quote1 (pdKey old) +:+ " was removed").
Definition added_change (new : PropertyDef) : PropertyChange :=
  mkPropertyChange "added" (pdKey new) "" (pdType new) ("property " +:+ quote1 (pdKey new) +:+ " was added").

(** Whether a property may be another under a new name. *)
Definition similar (old item : PropertyDef) : bool :=
  EqualFold (pdType old) (pdType item) &&
  (EqualFold (TrimSpace (pdLabel old)) (TrimSpace (pdLabel item)) ||
   EqualFold (TrimSpace (pdHelpText old)) (TrimSpace (pdHelpText item))).

Definition findRenameCandidate (old : PropertyDef) (added : list PropertyDef) (used : list string)
  : option PropertyDef :=
  head (filter (fun item => pdKey item ∉ used /\ similar old item = true) added).

Fixpoint renames (removed added : list PropertyDef) (used : list string) : list (PropertyDef * PropertyDef) :=
  match removed with
  | [] => []
  | old :: rest =>
      match findRenameCandidate old added used with
      | None => renames rest added used
      | Some item => (old, item) :: renames rest added (pdKey item :: used)
      end
  end.

Definition wasRenamed (old : PropertyDef) (changes : list PropertyChange) : bool :=
  existsb (fun c => bool_decide (pcType c = "renamed") && bool_decide (pcKey c = pdKey old)) changes.

(** [sort.Slice]: by type of change, then by key. *)
Definition change_le (a b : PropertyChange) : Prop :=
  (if negb (bool_decide (pcType b = pcType a)) then str_ltb (pcType b) (pcType a)
   else str_ltb (pcKey b) (pcKey a)) = false.
#[export] Instance change_le_dec : RelDecision change_le.
Proof. intros a b. unfold change_le. apply _. Defined.

Section Detect.
(** The order in which Go visits the entries of a map. *)
Context (range_map : gmap string PropertyDef -> list (string * PropertyDef)).

Definition retyped (o n : gmap string PropertyDef) : list PropertyChange :=
  omap (fun kd => match n !! kd.1 with
                  | Some updated => if decide (pdType kd.2 = pdType updated) then None
                                    else Some (type_changed kd.1 kd.2 updated)
                  | None => None
                  end) (range_map o).
(** The properties of the one that the other does not have. *)
Definition missing_in (o n : gmap string PropertyDef) : list PropertyDef :=
  omap (fun kd => if decide (is_Some (n !! kd.1)) then None else Some kd.2) (range_map o).

Definition DetectSchemaChanges (oldProps newProps : list PropertyDef) : list PropertyChange :=
  let oldByKey := by_key oldProps in
  let newByKey := by_key newProps in
  let removed := missing_in oldByKey newByKey in
  let added := missing_in newByKey oldByKey in
  let pairs := renames removed added [] in
  let usedAdded := map (fun p => pdKey p.2) pairs in
  let out := retyped oldByKey newByKey ++ map (fun p => renamed p.1 p.2) pairs in
  let out := out ++ map removed_change (filter (fun old => wasRenamed old out = false) removed) in
  let out := out ++ map added_change (filter (fun item => pdKey item ∉ usedAdded) added) in
  merge_sort change_le out.
End Detect.
