(* ===== verification/PluginRuntime.v ===== *)
(** * Plugins: registry, palette, runtime, rows ([registry.go], [palette.go],
      [runtime.go], [api_registry.go], [store.go], [executor.go])

    The runtime and its registry keep pointers to the same plugins and change
    them in place, so plugins are objects at addresses. A compiled module is the
    bytes it was compiled from; compiling and instantiating modules is the
    WebAssembly library. A [sync.RWMutex] makes an operation one step. *)

From S2P Require Import Prelude GoStrings Json EngineTypes Store GoText Effects Triggers JsonText GoPath Site VaultStore.
From S2P Require Import Plugins.

Definition ErrPluginNotLoaded : goerr := Errorf "plugin not loaded" [].
Definition not_loaded (id : string) : goerr := Wrapf "%w: %s" [id] ErrPluginNotLoaded.
Definition not_loaded_version (id version : string) : goerr := not_loaded (id +:+ "@" +:+ version).
Definition duplicate_plugin (id version : string) : goerr := Errorf "duplicate plugin: %s@%s" [id; version].

Definition PluginActive : string := "active".
Definition PluginDisabled : string := "disabled".
Definition PluginError : string := "error".

Record Plugin : Type := mkPlugin {
  plID : string;
  plName : string;
  plVersion : string;
  plType : string;
  plCategory : string;
  plLicenceTier : string;
  plMaturityTier : string;
  plToolCapable : bool;
  plToolSafety : string;
  plManifest : PluginManifest;
  plModule : option string;
  plWASMHash : string;
  plManifestHash : string;
  plIsLatest : bool;
  plStatus : string;
  plErrorMessage : string
}.

Definition with_latest (b : bool) (p : Plugin) : Plugin :=
  mkPlugin (plID p) (plName p) (plVersion p) (plType p) (plCategory p) (plLicenceTier p) (plMaturityTier p)
    (plToolCapable p) (plToolSafety p) (plManifest p) (plModule p) (plWASMHash p) (plManifestHash p) b
    (plStatus p) (plErrorMessage p).
Definition with_plugin_status (s : string) (p : Plugin) : Plugin :=
  mkPlugin (plID p) (plName p) (plVersion p) (plType p) (plCategory p) (plLicenceTier p) (plMaturityTier p)
    (plToolCapable p) (plToolSafety p) (plManifest p) (plModule p) (plWASMHash p) (plManifestHash p) (plIsLatest p)
    s (plErrorMessage p).

(** ** The palette *)

Record PaletteEntry : Type := mkPaletteEntry {
  peID : string;
  peName : string;
  peVersion : string;
  peIconSVG : string;
  peDescription : string;
  peCostLevel : string;
  peMaturityTier : string;
  peToolCapable : bool;
  peToolSafety : string;
  peProperties : list PropertyDef
}.
Record PaletteCategory : Type := mkPaletteCategory { pgName : string; pgPlugins : list PaletteEntry }.

(** [sort.Slice] with [less]: nothing comes before what is less than it. *)
Definition plugin_le (a b : Plugin) : Prop :=
  (if negb (bool_decide (plID b = plID a)) then str_ltb (plID b) (plID a)
   else version_after (plVersion b) (plVersion a)) = false.
#[export] Instance plugin_le_dec : RelDecision plugin_le.
Proof. intros a b. unfold plugin_le. apply _. Defined.
Definition sortPlugins (l : list Plugin) : list Plugin := merge_sort plugin_le l.

Definition entry_le (a b : PaletteEntry) : Prop :=
  (if negb (bool_decide (peName b = peName a)) then str_ltb (peName b) (peName a)
   else version_after (peVersion b) (peVersion a)) = false.
#[export] Instance entry_le_dec : RelDecision entry_le.
Proof. intros a b. unfold entry_le. apply _. Defined.

Definition palette_entry (p : Plugin) : PaletteEntry :=
  mkPaletteEntry (plID p) (plName p) (plVersion p) (uiIconSVG (mfUI (plManifest p)))
    (uiDescription (mfUI (plManifest p))) (match mfCost (plManifest p) with Some c => cmLevel c | None => "" end)
    (plMaturityTier p) (mfToolCapable (plManifest p)) (mfToolSafety (plManifest p)) (uiProperties (mfUI (plManifest p))).

Definition in_palette (toolOnly : bool) (p : Plugin) : bool :=
  negb (toolOnly && negb (mfToolCapable (plManifest p))) &&
  negb (negb toolOnly && bool_decide (plType p = TriggerPlugin)).
Definition palette_category (p : Plugin) : string :=
  if decide (plCategory p = "") then "Uncategorized" else plCategory p.

Definition buildPaletteCategories (plugins : list Plugin) (toolOnly : bool) : list PaletteCategory :=
  let shown := filter (fun p => in_palette toolOnly p = true) plugins in
  let categories := merge_sort text_le (remove_dups (map palette_category shown)) in
  map (fun c => mkPaletteCategory c
    (merge_sort entry_le (map palette_entry (filter (fun p => palette_category p = c) shown)))) categories.

(** ** State *)

Record Registry : Type := mkRegistry {
  rgPlugins : gmap string (gmap string nat);
  rgLatest : gmap string nat;
  rgStepPalette : option (list PaletteCategory);
  rgToolPalette : option (list PaletteCategory);
  rgDirty : bool
}.
Definition NewPluginRegistry : Registry := mkRegistry ∅ ∅ None None true.

Record PropertyReport : Type := mkPropertyReport {
  srPluginID : string;
  srOldVersion : string;
  srNewVersion : string;
  srChanges : list PropertyChange;
  srAffected : list (uuid * string * Z);
  srRecordedAt : Z
}.

(** A row of [plugins] (migration [006_plugin_runtime.sql]). *)
Record PluginRow : Type := mkPluginRow {
  prName : string;
  prType : string;
  prCategory : string;
  prLicenceTier : string;
  prMaturityTier : string;
  prManifestHash : string;
  prWASMHash : string;
  prIsLatest : bool;
  prStatus : string;
  prErrorMessage : string;
  prLoadedAt : Z
}.

Record InvocationRecord : Type := mkInvocationRecord {
  irID : uuid;
  irTenantID : uuid;
  irPluginID : string;
  irPluginVersion : string;
  irWASMHash : string;
  irCaseID : option uuid;
  irStepID : string;
  irInvocationType : string;
  irInputHash : string;
  irOutputHash : string;
  irDurationMS : Z;
  irStatus : string;
  irErrorMessage : string;
  irCreatedAt : Z
}.

Record PluginState : Type := mkPluginState {
  psObjects : gmap nat Plugin;
  psNext : nat;
  psPlugins : gmap string (gmap string nat);
  psRegistry : Registry;
  psDirs : gmap string string;
  psTriggerStops : gmap string nat;
  psSchemaChanges : gmap string PropertyReport;
  psRows : gmap (string * string) PluginRow;
  psInvocations : list InvocationRecord
}.
Definition set_objects (f : gmap nat Plugin -> gmap nat Plugin) (s : PluginState) : PluginState :=
  mkPluginState (f (psObjects s)) (psNext s) (psPlugins s) (psRegistry s) (psDirs s) (psTriggerStops s)
    (psSchemaChanges s) (psRows s) (psInvocations s).
Definition set_plugins (f : gmap string (gmap string nat) -> gmap string (gmap string nat)) (s : PluginState)
  : PluginState :=
  mkPluginState (psObjects s) (psNext s) (f (psPlugins s)) (psRegistry s) (psDirs s) (psTriggerStops s)
    (psSchemaChanges s) (psRows s) (psInvocations s).
Definition set_registry (f : Registry -> Registry) (s : PluginState) : PluginState :=
  mkPluginState (psObjects s) (psNext s) (psPlugins s) (f (psRegistry s)) (psDirs s) (psTriggerStops s)
    (psSchemaChanges s) (psRows s) (psInvocations s).
Definition set_dirs (f : gmap string string -> gmap string string) (s : PluginState) : PluginState :=
  mkPluginState (psObjects s) (psNext s) (psPlugins s) (psRegistry s) (f (psDirs s)) (psTriggerStops s)
    (psSchemaChanges s) (psRows s) (psInvocations s).
Definition set_stops (f : gmap string nat -> gmap string nat) (s : PluginState) : PluginState :=
  mkPluginState (psObjects s) (psNext s) (psPlugins s) (psRegistry s) (psDirs s) (f (psTriggerStops s))
    (psSchemaChanges s) (psRows s) (psInvocations s).
Definition set_reports (f : gmap string PropertyReport -> gmap string PropertyReport) (s : PluginState)
  : PluginState :=
  mkPluginState (psObjects s) (psNext s) (psPlugins s) (psRegistry s) (psDirs s) (psTriggerStops s)
    (f (psSchemaChanges s)) (psRows s) (psInvocations s).
Definition set_plugin_rows (f : gmap (string * string) PluginRow -> gmap (string * string) PluginRow)
    (s : PluginState) : PluginState :=
  mkPluginState (psObjects s) (psNext s) (psPlugins s) (psRegistry s) (psDirs s) (psTriggerStops s)
    (psSchemaChanges s) (f (psRows s)) (psInvocations s).
Definition add_invocation (i : InvocationRecord) (s : PluginState) : PluginState :=
  mkPluginState (psObjects s) (psNext s) (psPlugins s) (psRegistry s) (psDirs s) (psTriggerStops s)
    (psSchemaChanges s) (psRows s) (psInvocations s ++ [i]).

(** A new object. *)
Definition new_plugin (p : Plugin) (s : PluginState) : nat * PluginState :=
  (psNext s, mkPluginState (<[psNext s := p]> (psObjects s)) (S (psNext s)) (psPlugins s) (psRegistry s) (psDirs s)
    (psTriggerStops s) (psSchemaChanges s) (psRows s) (psInvocations s)).

(** ** The registry *)

Definition versions_of (m : gmap string (gmap string nat)) (id : string) : gmap string nat := default ∅ (m !! id).

(** Addresses sorted as [sort.Slice] does: by the versions of the plugins there. Equal
    versions keep the order of the map's entries; in the source any order is possible. *)
Definition newer_first (a b : string * nat) : Prop := version_after b.1 a.1 = false.
#[export] Instance newer_first_dec : RelDecision newer_first.
Proof. intros a b. unfold newer_first. apply _. Defined.
Definition sorted_addresses (versions : gmap string nat) : list nat :=
  map snd (merge_sort newer_first (map_to_list versions)).

Definition clear_latest (addrs : list nat) (objs : gmap nat Plugin) : gmap nat Plugin :=
  foldl (fun o a => alter (with_latest false) a o) objs addrs.
(** All of them lose the mark, the first gets it. *)
Definition mark_first (addrs : list nat) (objs : gmap nat Plugin) : gmap nat Plugin :=
  match addrs with
  | [] => objs
  | a :: _ => alter (with_latest true) a (clear_latest addrs objs)
  end.

Definition set_latest_addr (id : string) (a : option nat) (r : Registry) : Registry :=
  mkRegistry (rgPlugins r) (partial_alter (fun _ => a) id (rgLatest r)) (rgStepPalette r) (rgToolPalette r) (rgDirty r).

Definition updateLatestLocked (id : string) (s : PluginState) : PluginState :=
  let addrs := sorted_addresses (versions_of (rgPlugins (psRegistry s)) id) in
  set_registry (set_latest_addr id (head addrs)) (set_objects (mark_first addrs) s).
Definition UpdateLatest (id : string) (s : PluginState) : PluginState := updateLatestLocked id s.

Definition markDirtyLocked (r : Registry) : Registry := mkRegistry (rgPlugins r) (rgLatest r) None None true.

Definition with_reg_plugins (f : gmap string (gmap string nat) -> gmap string (gmap string nat)) (r : Registry)
  : Registry :=
  mkRegistry (f (rgPlugins r)) (rgLatest r) (rgStepPalette r) (rgToolPalette r) (rgDirty r).

Definition add_version (id version : string) (a : nat) (m : gmap string (gmap string nat))
  : gmap string (gmap string nat) :=
  <[id := <[version := a]> (versions_of m id)]> m.
(** The inner map is made before the check. *)
Definition ensure_versions (id : string) (m : gmap string (gmap string nat)) : gmap string (gmap string nat) :=
  <[id := versions_of m id]> m.

Definition Register (a : nat) (p : Plugin) (s : PluginState) : result goerr unit * PluginState :=
  let s := set_registry (with_reg_plugins (ensure_versions (plID p))) s in
  if decide (is_Some (versions_of (rgPlugins (psRegistry s)) (plID p) !! plVersion p))
  then (Err (duplicate_plugin (plID p) (plVersion p)), s)
  else
    let s := set_registry (with_reg_plugins (add_version (plID p) (plVersion p) a)) s in
    (Ok tt, set_registry markDirtyLocked (updateLatestLocked (plID p) s)).

Definition drop_plugin (id : string) (r : Registry) : Registry :=
  mkRegistry (delete id (rgPlugins r)) (delete id (rgLatest r)) (rgStepPalette r) (rgToolPalette r) (rgDirty r).

Definition Unregister (ref : PluginRef) (s : PluginState) : result goerr unit * PluginState :=
  match rgPlugins (psRegistry s) !! refID ref with
  | None => (Err (not_loaded (refID ref)), s)
  | Some versions =>
      if blank (refVersion ref) then (Ok tt, set_registry (fun r => markDirtyLocked (drop_plugin (refID ref) r)) s)
      else if decide (versions !! refVersion ref = None)
      then (Err (not_loaded_version (refID ref) (refVersion ref)), s)
      else
        let versions := delete (refVersion ref) versions in
        let s := set_registry (with_reg_plugins (<[refID ref := versions]>)) s in
        let s := if decide (versions = ∅) then set_registry (drop_plugin (refID ref)) s
                 else updateLatestLocked (refID ref) s in
        (Ok tt, set_registry markDirtyLocked s)
  end.

(** The plugins at all addresses, in some order. *)
Definition all_addresses (m : gmap string (gmap string nat)) : list nat :=
  flat_map (fun kv => map snd (map_to_list kv.2)) (map_to_list m).
Definition plugins_at (s : PluginState) (addrs : list nat) : list Plugin := omap (fun a => psObjects s !! a) addrs.
Definition allLocked (s : PluginState) : list Plugin :=
  sortPlugins (plugins_at s (all_addresses (rgPlugins (psRegistry s)))).
Definition All (s : PluginState) : list Plugin := allLocked s.

Definition ByRef (ref : PluginRef) (s : PluginState) : result goerr Plugin :=
  match rgPlugins (psRegistry s) !! refID ref with
  | None => Err (not_loaded (refID ref))
  | Some versions =>
      if decide (refVersion ref = "") then
        match rgLatest (psRegistry s) !! refID ref ≫= fun a => psObjects s !! a with
        | Some p => Ok p
        | None => Err (not_loaded (refID ref))
        end
      else
        match versions !! refVersion ref ≫= fun a => psObjects s !! a with
        | Some p => Ok p
        | None => Err (not_loaded_version (refID ref) (refVersion ref))
        end
  end.

Definition filter_plugins (match_ : Plugin -> bool) (s : PluginState) : list Plugin :=
  sortPlugins (filter (fun p => match_ p = true) (plugins_at s (all_addresses (rgPlugins (psRegistry s))))).
Definition ByCategory (category : string) : PluginState -> list Plugin :=
  filter_plugins (fun p => EqualFold (TrimSpace (plCategory p)) (TrimSpace category)).
Definition ByType (t : string) : PluginState -> list Plugin := filter_plugins (fun p => bool_decide (plType p = t)).
Definition ByMaturity (maturity : string) : PluginState -> list Plugin :=
  filter_plugins (fun p => EqualFold (TrimSpace (plMaturityTier p)) (TrimSpace maturity)).
Definition ToolCapable : PluginState -> list Plugin := filter_plugins (fun p => mfToolCapable (plManifest p)).
Definition Search_plugins (query : string) (s : PluginState) : list Plugin :=
  let needle := ToLower (TrimSpace query) in
  if decide (needle = "") then All s
  else filter_plugins (fun p => Contains (ToLower (plName p)) needle ||
                                Contains (ToLower (uiDescription (mfUI (plManifest p)))) needle ||
                                Contains (ToLower (plCategory p)) needle) s.

Definition ListVersions (id : string) (s : PluginState) : result goerr (list Plugin) :=
  match rgPlugins (psRegistry s) !! id with
  | None => Err (not_loaded id)
  | Some versions => Ok (sortPlugins (plugins_at s (map snd (map_to_list versions))))
  end.

Definition Registry_SetStatus (id status : string) (s : PluginState) : result goerr unit * PluginState :=
  match rgPlugins (psRegistry s) !! id with
  | None => (Err (not_loaded id), s)
  | Some versions =>
      (Ok tt, set_objects (fun o => foldl (fun o a => alter (with_plugin_status status) a o) o
                             (map snd (map_to_list versions))) s)
  end.

(** *** The palettes are kept until the plugins change. *)

Definition fill_palettes (s : PluginState) : PluginState :=
  let all := allLocked s in
  set_registry (fun r => mkRegistry (rgPlugins r) (rgLatest r) (Some (buildPaletteCategories all false))
                           (Some (buildPaletteCategories all true)) false) s.

Definition StepPalette (s : PluginState) : list PaletteCategory * PluginState :=
  match rgDirty (psRegistry s), rgStepPalette (psRegistry s) with
  | false, Some c => (c, s)
  | _, _ => let s := fill_palettes s in (default [] (rgStepPalette (psRegistry s)), s)
  end.
Definition ToolPalette (s : PluginState) : list PaletteCategory * PluginState :=
  match rgDirty (psRegistry s), rgToolPalette (psRegistry s) with
  | false, Some c => (c, s)
  | _, _ => let s := fill_palettes s in (default [] (rgToolPalette (psRegistry s)), s)
  end.

(** ** Rows *)

Abbreviation PSite := (Site PluginState).
Abbreviation PSvc := (Svc PSite).

Definition row_of_plugin (now : Z) (p : Plugin) : PluginRow :=
  mkPluginRow (plName p) (plType p) (plCategory p) (plLicenceTier p) (plMaturityTier p) (plManifestHash p)
    (plWASMHash p) (plIsLatest p) (plStatus p) (plErrorMessage p) now.

(** The constraints on the columns. *)
Definition plugin_row_ok (r : PluginRow) : bool :=
  bool_decide (prType r ∈ ["step"; "trigger"]) && bool_decide (prLicenceTier r ∈ ["open_source"; "commercial"]) &&
  bool_decide (prMaturityTier r ∈ ["core"; "certified"; "community"; "generated"]) &&
  bool_decide (prStatus r ∈ ["active"; "disabled"; "error"]).

(** Another version of the plugin is marked as the latest: [idx_plugins_latest]. *)
Definition other_latest (id version : string) (rows : gmap (string * string) PluginRow) : bool :=
  existsb (fun kv => bool_decide (kv.1.1 = id) && negb (bool_decide (kv.1.2 = version)) && prIsLatest kv.2)
    (map_to_list rows).

Definition check_violation : goerr := Errorf "violates check constraint" [].

Definition upsert_row (now : Z) (p : Plugin) (rows : gmap (string * string) PluginRow)
  : result goerr (gmap (string * string) PluginRow) :=
  let row := row_of_plugin now p in
  if negb (plugin_row_ok row) then Err check_violation
  else if plIsLatest p && other_latest (plID p) (plVersion p) rows then Err unique_error
  else Ok (<[(plID p, plVersion p) := row]> rows).

Definition with_row_latest (b : bool) (r : PluginRow) : PluginRow :=
  mkPluginRow (prName r) (prType r) (prCategory r) (prLicenceTier r) (prMaturityTier r) (prManifestHash r)
    (prWASMHash r) b (prStatus r) (prErrorMessage r) (prLoadedAt r).
Definition with_row_status (s : string) (r : PluginRow) : PluginRow :=
  mkPluginRow (prName r) (prType r) (prCategory r) (prLicenceTier r) (prMaturityTier r) (prManifestHash r)
    (prWASMHash r) (prIsLatest r) s (prErrorMessage r) (prLoadedAt r).

Definition rows_of (id : string) (f : string -> PluginRow -> PluginRow) (rows : gmap (string * string) PluginRow)
  : gmap (string * string) PluginRow :=
  map_imap (fun k r => Some (if decide (k.1 = id) then f k.2 r else r)) rows.

Section Runtime.
Context `{R : Runtime}.

Definition own_exec {A} (run : nat -> Z -> PluginState -> result goerr (A * PluginState)) : PSvc A :=
  exec (fun k now s => match run k now (own s) with
                       | Ok (a, o) => Ok (a, set_own (fun _ => o) s)
                       | Err e => Err e
                       end).

Definition UpsertPlugin (p : Plugin) : PSvc unit :=
  wrapS (Wrapf "upsert plugin %s@%s: %w" [plID p; plVersion p])
    (own_exec (fun _ now s => rows ← upsert_row now p (psRows s); Ok (tt, set_plugin_rows (fun _ => rows) s))).

(** The rows are updated one by one in an order of the database, and the index
    is checked at each. *)
Context (loser_first : nat -> bool).
Definition SetLatestByPluginID (id latest : string) : PSvc unit :=
  wrapS (Wrapf "update latest plugin version for %s: %w" [id])
    (own_exec (fun k _ s =>
       if bool_decide (is_Some (psRows s !! (id, latest))) && other_latest id latest (psRows s) && negb (loser_first k)
       then Err unique_error
       else Ok (tt, set_plugin_rows (rows_of id (fun v => with_row_latest (bool_decide (v = latest)))) s))).

Definition SetStatusByPluginID (id status : string) : PSvc unit :=
  wrapS (Wrapf "set plugin status for %s: %w" [id])
    (own_exec (fun _ _ s =>
       if negb (bool_decide (status ∈ ["active"; "disabled"; "error"])) &&
          existsb (fun kv => bool_decide (kv.1.1 = id)) (map_to_list (psRows s))
       then Err check_violation
       else Ok (tt, set_plugin_rows (rows_of id (fun _ => with_row_status status)) s))).

Definition DeleteByRef (ref : PluginRef) : PSvc unit :=
  if decide (refVersion ref = "") then
    wrapS (Wrapf "delete plugin %s: %w" [refID ref])
      (own_exec (fun _ _ s => Ok (tt, set_plugin_rows (filter (fun kv : (string * string) * PluginRow => kv.1.1 <> refID ref)) s)))
  else
    wrapS (Wrapf "delete plugin %s@%s: %w" [refID ref; refVersion ref])
      (own_exec (fun _ _ s => Ok (tt, set_plugin_rows (delete (refID ref, refVersion ref)) s))).

Definition with_invocation (id : uuid) (now : Z) (i : InvocationRecord) : InvocationRecord :=
  mkInvocationRecord (if decide (irID i = uuid_Nil) then id else irID i) (irTenantID i) (irPluginID i)
    (irPluginVersion i) (irWASMHash i) (irCaseID i) (irStepID i) (irInvocationType i) (irInputHash i)
    (irOutputHash i) (irDurationMS i) (irStatus i) (irErrorMessage i) now.
Definition InsertInvocation (i : InvocationRecord) : PSvc unit :=
  wrapS (Wrapf "insert plugin invocation: %w" [])
    (own_exec (fun k now s => Ok (tt, add_invocation (with_invocation (gen_random_uuid k) now i) s))).

Definition invoked_later (a b : InvocationRecord) : Prop := (irCreatedAt b <= irCreatedAt a)%Z.
#[export] Instance invoked_later_dec : RelDecision invoked_later.
Proof. intros a b. unfold invoked_later. apply _. Defined.
Definition ListInvocationsByPlugin (tenantID : uuid) (id : string) (limit : Z) : PSvc (list InvocationRecord) :=
  let limit := if (limit <=? 0)%Z || (500 <? limit)%Z then 100%Z else limit in
  wrapS (Wrapf "query plugin invocations: %w" [])
    (select (fun _ s => take (Z.to_nat limit) (merge_sort invoked_later
       (filter (fun i => irTenantID i = tenantID /\ irPluginID i = id) (psInvocations (own s)))))).

(** *** Workflows that use a changed property *)

Definition changed_keys (changes : list PropertyChange) : list string :=
  map pcKey (filter (fun c => pcType c ∈ ["removed"; "renamed"; "type_changed"]) changes).

Definition step_uses (id : string) (keys : list string) (step : json) : bool :=
  match step with
  | JObj m =>
      match obj_get "config" m with
      | Some (JObj cfg) =>
          let ref := match obj_get "plugin" cfg with Some (JStr s) => s | _ => "" end in
          let input := match obj_get "input" cfg with Some (JObj i) => i | _ => [] end in
          negb (blank ref) && bool_decide (refID (ParsePluginRef ref) = id) &&
          existsb (fun k => match obj_get k input with Some _ => true | None => false end) keys
      | _ => false
      end
  | _ => false
  end.
Definition workflowUsesPluginProperties (ast : json) (id : string) (keys : list string) : bool :=
  match ast with
  | JObj m => match obj_get "steps" m with Some (JArr steps) => existsb (step_uses id keys) steps | _ => false end
  | _ => false
  end.

Definition FindWorkflowsUsingPlugin (id : string) (changes : list PropertyChange) : PSvc (list (uuid * string * Z)) :=
  wrapS (Wrapf "query workflows for plugin impact: %w" [])
    (liftM (query (fun _ d => omap (fun kv : (uuid * Z) * VersionRow =>
       match workflows d !! kv.1.1 with
       | Some wf => if workflowUsesPluginProperties (vAst kv.2) id (changed_keys changes)
                    then Some (kv.1.1, wfName wf, kv.1.2) else None
       | None => None
       end) (map_to_list (workflow_versions d))))).

(** *** Runs of a module

    A run that takes longer than the step allows is a call that fails with the
    error of its context. *)

Record StepInput : Type := mkStepInput {
  siTenantID : uuid;
  siCaseID : uuid;
  siStepID : string;
  siData : string;
  siTimeout : Z
}.
(** The output is a decoded value, or the bytes of the module as they are. *)
Inductive payload : Type := PNone | PValue (j : json) | PText (s : string).
Record StepResult : Type := mkStepResult { srStatus : string; srOutput : payload; srError : string }.
Definition no_step_result : StepResult := mkStepResult "" PNone "".

(** An exported function takes the memory and arguments, and gives results or a
    trap, and the memory. *)
Record WasmFunction : Type := mkWasmFunction {
  wfParams : nat;
  wfCall : string -> list Z -> result goerr (list Z) * string
}.
Record Instance_ : Type := mkInstance { inExports : string -> option WasmFunction; inMemory : option string }.

Definition u32 (z : Z) : Z := (z mod 2 ^ 32)%Z.
Definition mem_size (m : string) : Z := Z.of_nat (String.length m).
Definition mem_write (m : string) (ptr : Z) (data : string) : option string :=
  if (ptr + mem_size data <=? mem_size m)%Z
  then Some (String.substring 0 (Z.to_nat ptr) m +:+ data +:+ drop_str (Z.to_nat (ptr + mem_size data)) m)
  else None.
Definition mem_read (m : string) (ptr len : Z) : option string :=
  if (ptr + len <=? mem_size m)%Z then Some (String.substring (Z.to_nat ptr) (Z.to_nat len) m) else None.

(** [alloc]: the pointer, and the memory after [malloc]. *)
Definition alloc (i : Instance_) (m : string) (n : Z) : result goerr (Z * string) :=
  match inExports i "malloc" with
  | None => Ok (0%Z, m)
  | Some malloc =>
      match wfCall malloc m [n] with
      | (Err e, _) => Err (Wrapf "malloc input buffer: %w" [] e)
      | (Ok [], _) => Err (Errorf "malloc returned no pointer" [])
      | (Ok (p :: _), m') => Ok (u32 p, m')
      end
  end.

Definition plain_results (call : result goerr (list Z) * string) : result goerr StepResult :=
  results ← call.1;
  Ok (mkStepResult "ok" (PValue (JObj [("result", JArr (map JInt results))])) "").

(** A result that decodes and has a status is taken as it is. *)
Definition dec_StepResult (raw : string) : option StepResult :=
  match json_parse raw with
  | Some (JObj m) =>
      match dec_field "status" dec_string "" m, dec_field "error" dec_string "" m with
      | Ok status, Ok error =>
          if decide (status = "") then None
          else Some (mkStepResult status (match obj_get "output" m with Some j => PValue j | None => PNone end) error)
      | _, _ => None
      end
  | _ => None
  end.

Definition module_output (m : string) (packed : Z) : result goerr StepResult :=
  match mem_read m (u32 (Z.shiftr packed 32)) (u32 packed) with
  | None => Err (Errorf "failed reading output from wasm memory" [])
  | Some raw => Ok (default (mkStepResult "ok" (PText raw) "") (dec_StepResult raw))
  end.

Definition call_with_input (i : Instance_) (fn : WasmFunction) (m input : string) : result goerr StepResult :=
  let n := u32 (mem_size input) in
  '(ptr, m) ← alloc i m n;
  match mem_write m ptr input with
  | None => Err (Errorf "failed writing input to wasm memory" [])
  | Some m =>
      match wfCall fn m [ptr; n] with
      | (Err e, _) => Err e
      | (Ok [], _) => Ok (mkStepResult "ok" PNone "")
      | (Ok (packed :: _), m) => module_output m packed
      end
  end.

Definition executeModule (i : Instance_) (input : string) : result goerr StepResult :=
  match inExports i "Execute" with
  | None =>
      match inExports i "call_get_age" with
      | None => Err (Errorf "plugin export Execute not found" [])
      | Some fn => plain_results (wfCall fn (default "" (inMemory i)) [])
      end
  | Some fn =>
      if decide (wfParams fn = 0%nat) then plain_results (wfCall fn (default "" (inMemory i)) [])
      else if decide (wfParams fn <> 2%nat)
      then Err (Errorf "unsupported Execute signature with %d params" [Itoa (Z.of_nat (wfParams fn))])
      else match inMemory i with
           | None => Err (Errorf "plugin module has no memory" [])
           | Some m => call_with_input i fn m input
           end
  end.

Definition DeadlineExceeded : goerr := Errorf "context deadline exceeded" [].
Definition invocationStatus (status : string) (runErr : option goerr) : string :=
  if decide (status = "timeout") then "timeout"
  else match runErr with
       | Some e => if errors_is e DeadlineExceeded then "timeout" else "error"
       | None => "success"
       end.

(** ** The runtime *)

Context (has_store : bool).
Context (yaml_map : string -> result goerr object) (yaml_manifest : string -> result goerr PluginManifest)
  (CompileModule : nat -> string -> result goerr unit)
  (InstantiateModule : nat -> option string -> result goerr Instance_)
  (result_text : StepResult -> string)
  (range_map : gmap string PropertyDef -> list (string * PropertyDef)).

(** An operation of the registry. *)
Definition locked {A} (f : PluginState -> result goerr A * PluginState) : PSvc A := fun w =>
  match f (own (st w)) with (r, o) => (r, mkSys (set_own (fun _ => o) (st w)) (ticks w)) end.
Definition stored (m : PSvc unit) : PSvc unit := if has_store then ignoreS m else mret tt.

Definition plugin_key (id version : string) : string := id +:+ "@" +:+ version.

Definition mark_runtime (id : string) (s : PluginState) : PluginState :=
  UpdateLatest id (set_objects (mark_first (sorted_addresses (versions_of (psPlugins s) id))) s).
Definition latest_list (id : string) (s : PluginState) : list Plugin :=
  plugins_at s (sorted_addresses (versions_of (psPlugins s) id)).
Definition markLatestLocked (id : string) : PSvc unit :=
  _ ← changes (set_own (mark_runtime id));
  list ← reads (fun s => latest_list id (own s));
  _ ← forS (fun p => stored (UpsertPlugin p)) list;
  match list with
  | [] => mret tt
  | p :: _ => stored (SetLatestByPluginID id (plVersion p))
  end.

(** Into the map of the runtime and the registry. *)
Definition put_plugin (a : nat) (p : Plugin) (s : PluginState) : result goerr unit * PluginState :=
  let s := set_plugins (ensure_versions (plID p)) s in
  if decide (is_Some (versions_of (psPlugins s) (plID p) !! plVersion p))
  then (Err (duplicate_plugin (plID p) (plVersion p)), s)
  else
    match Register a p (set_plugins (add_version (plID p) (plVersion p) a) s) with
    | (Err e, s) =>
        (Err e, set_plugins (fun m => <[plID p := delete (plVersion p) (versions_of m (plID p))]> m) s)
    | (Ok _, s) => (Ok tt, s)
    end.

Definition putLoadedPlugin (p : Plugin) (pluginDir : string) : PSvc nat :=
  a ← locked (fun s => let '(a, s) := new_plugin p s in (Ok a, s));
  _ ← locked (put_plugin a p);
  _ ← changes (set_own (set_dirs (<[plugin_key (plID p) (plVersion p) := pluginDir]>)));
  _ ← markLatestLocked (plID p);
  mret a.

Definition no_file (path : string) : goerr := Wrapf "stat %s: %w" [path] ENOENT.

Definition new_loaded (m : PluginManifest) (wasm manifestHash : string) : Plugin :=
  mkPlugin (mfID m) (mfName m) (mfVersion m) (mfType m) (mfCategory m) (mfTier m) (mfMaturity m) (mfToolCapable m)
    (mfToolSafety m) m (Some wasm) (sha256_hex wasm) manifestHash false PluginActive "".

Definition ParseManifest (path : string) : PSvc (PluginManifest * string) :=
  raw ← wrapS (Wrapf "read manifest: %w" []) (os_ReadFile path);
  m ← pureS (parse_manifest yaml_map yaml_manifest raw);
  mret (m.1, sha256_hex raw).

Definition loadPluginArtifact (pluginDir : string) (licence : option (string -> bool)) : PSvc Plugin :=
  let manifestPath := JoinPath pluginDir "manifest.yaml" in
  there ← os_Stat manifestPath;
  _ ← guardS there (no_file manifestPath);
  wasm ← os_ReadFile (JoinPath pluginDir "plugin.wasm");
  parsed ← ParseManifest manifestPath;
  let m := parsed.1 in
  _ ← guardS (negb (bool_decide (mfTier m = "commercial")) || match licence with Some l => l (mfID m) | None => false end)
    (Errorf "plugin %s requires commercial licence" [mfID m]);
  _ ← wrapS (Wrapf "compile plugin wasm: %w" []) (callS (fun k => CompileModule k wasm));
  mret (new_loaded m wasm parsed.2).

Definition Load (pluginDir : string) (licence : option (string -> bool)) : PSvc nat :=
  p ← loadPluginArtifact pluginDir licence;
  putLoadedPlugin p pluginDir.

(** The directories in a directory, by name. *)
Definition subdirectories (dir : string) (fs : gmap string string) : list string :=
  merge_sort text_le (remove_dups (omap (fun kv : string * string =>
    if bool_decide (IsAbs kv.1 = IsAbs dir) then
      match strip_common (elements dir) (elements kv.1) with ([], name :: _ :: _) => Some name | _ => None end
    else None) (map_to_list fs))).

Definition LoadAll (pluginsDir : string) (licence : option (string -> bool)) : PSvc unit :=
  entries ← wrapS (Wrapf "read plugins directory: %w" [])
    (exec (fun _ _ s => if directory_there pluginsDir (files s) then Ok (subdirectories pluginsDir (files s), s)
                        else Err (Wrapf "open %s: %w" [pluginsDir] ENOENT)));
  forS (fun name => ignoreS (Load (JoinPath pluginsDir name) licence)) entries.

Definition unload_all (id : string) (s : PluginState) : result goerr unit * PluginState :=
  let s := set_plugins (delete id) s in
  let s := (Unregister (mkPluginRef id "") s).2 in
  (Ok tt, set_dirs (filter (fun kv : string * string => HasPrefix kv.1 (id +:+ "@") = false)) s).

(** One version: whether others are left. *)
Definition unload_version (ref : PluginRef) (s : PluginState) : result goerr bool * PluginState :=
  let versions := delete (refVersion ref) (versions_of (psPlugins s) (refID ref)) in
  let s := set_plugins (<[refID ref := versions]>) s in
  let s := (Unregister ref s).2 in
  let s := set_dirs (delete (plugin_key (refID ref) (refVersion ref))) s in
  if decide (versions = ∅) then (Ok false, set_plugins (delete (refID ref)) s) else (Ok true, s).

Definition Unload (ref : PluginRef) : PSvc unit :=
  found ← reads (fun s => psPlugins (own s) !! refID ref);
  match found with
  | None => fail (not_loaded (refID ref))
  | Some versions =>
      if decide (refVersion ref = "") then
        _ ← locked (unload_all (refID ref));
        stored (DeleteByRef ref)
      else if decide (versions !! refVersion ref = None) then fail (not_loaded_version (refID ref) (refVersion ref))
      else
        left ← locked (unload_version ref);
        _ ← (if left : bool then markLatestLocked (refID ref) else mret tt);
        stored (DeleteByRef ref)
  end.

Definition Get_plugin (ref : PluginRef) : PSvc Plugin := fun w => (ByRef ref (own (st w)), w).

Definition schemaImpact (id : string) (changes : list PropertyChange) : PSvc (list (uuid * string * Z)) :=
  if has_store then wrapS (Wrapf "find workflows using changed schema: %w" []) (FindWorkflowsUsingPlugin id changes)
  else mret [].
Definition storeSchemaChange (r : PropertyReport) : PSvc unit :=
  changes (set_own (set_reports (<[srPluginID r := r]>))).
Definition LastSchemaChange (id : string) (s : PluginState) : option PropertyReport := psSchemaChanges s !! TrimSpace id.

Definition AllowAllLicence : option (string -> bool) := Some (fun _ => true).

Definition report_changes (current loaded : Plugin) (found : list PropertyChange) : PSvc unit :=
  if decide (found = []) then mret tt
  else
    affected ← tryS (schemaImpact (plID loaded) found);
    now ← nowS;
    storeSchemaChange (mkPropertyReport (plID loaded) (plVersion current) (plVersion loaded) found
      (match affected with Ok l => l | Err _ => [] end) now).

Definition Reload (ref : PluginRef) : PSvc unit :=
  current ← Get_plugin ref;
  let key := plugin_key (plID current) (plVersion current) in
  dir ← reads (fun s => default "" (psDirs (own s) !! key));
  _ ← guardS (negb (bool_decide (dir = ""))) (Errorf "plugin source directory unknown for %s" [key]);
  loaded ← wrapS (Wrapf "reload %s failed; old module preserved: %w" [key]) (loadPluginArtifact dir AllowAllLicence);
  let found := DetectSchemaChanges range_map (uiProperties (mfUI (plManifest current)))
                 (uiProperties (mfUI (plManifest loaded))) in
  _ ← wrapS (Wrapf "unload %s before reload: %w" [key]) (Unload (mkPluginRef (plID current) (plVersion current)));
  put ← tryS (putLoadedPlugin loaded dir);
  match put with
  | Err e =>
      _ ← ignoreS (putLoadedPlugin current dir);
      fail (Wrapf "register %s after reload: %w" [key] e)
  | Ok _ => report_changes current loaded found
  end.

Definition SetStatus (id status : string) : PSvc unit :=
  _ ← locked (Registry_SetStatus id status);
  versions ← reads (fun s => match ListVersions id (own s) with Ok l => l | Err _ => [] end);
  _ ← forS (fun p => stored (UpsertPlugin p)) versions;
  stored (SetStatusByPluginID id status).

Definition orElse (s dflt : string) : string := if decide (s = "") then dflt else s.
(** [RegisterVirtual]: the fields a manifest lacks are those of the plugin. *)
Definition virtual_plugin (p : Plugin) : Plugin :=
  let m := plManifest p in
  mkPlugin (plID p) (plName p) (plVersion p) (plType p) (plCategory p) (plLicenceTier p) (plMaturityTier p)
    (plToolCapable p) (plToolSafety p)
    (mkPluginManifest (orElse (mfID m) (plID p)) (orElse (mfName m) (plName p)) (orElse (mfVersion m) (plVersion p))
       (orElse (mfType m) (plType p)) (orElse (mfCategory m) (plCategory p)) (orElse (mfTier m) (plLicenceTier p))
       (orElse (mfMaturity m) (plMaturityTier p)) (mfMinHostVersion m) (mfMaxHostVersion m) (mfToolCapable m)
       (mfToolDescription m) (mfToolSafety m) (mfUI m) (mfHostFunctions m) (mfOperational m) (mfCost m) (mfAudit m)
       (mfTriggerContract m) (mfTriggerConfig m) (mfMetadata m))
    None "" "" (plIsLatest p) PluginActive (plErrorMessage p).
Definition RegisterVirtual (p : Plugin) : PSvc nat := putLoadedPlugin (virtual_plugin p) "".

(** *** Steps *)

Definition invocation (p : Plugin) (i : StepInput) (output : string) (ms : Z) (status : string) (runErr : option goerr)
  : InvocationRecord :=
  mkInvocationRecord uuid_Nil (siTenantID i) (plID p) (plVersion p) (plWASMHash p)
    (if decide (siCaseID i = uuid_Nil) then None else Some (siCaseID i)) (siStepID i) "step_execute"
    (sha256_hex (siData i)) (if decide (output = "") then "" else sha256_hex output) ms
    (invocationStatus status runErr) (match runErr with Some e => Error e | None => "" end) 0.
Definition recordInvocation (p : Plugin) (i : StepInput) (output : string) (start : Z) (status : string)
    (runErr : option goerr) : PSvc unit :=
  now ← nowS;
  if bool_decide (siTenantID i = uuid_Nil) then mret tt
  else stored (InsertInvocation (invocation p i output ((now - start) / Millisecond)%Z status runErr)).

Definition not_active (p : Plugin) : goerr := Errorf "plugin %s@%s is %s" [plID p; plVersion p; plStatus p].

Definition ExecuteStep (ref : PluginRef) (i : StepInput) : PSvc StepResult :=
  p ← Get_plugin ref;
  if negb (bool_decide (plStatus p = PluginActive)) then fail (not_active p)
  else
    start ← nowS;
    instance ← tryS (callS (fun k => InstantiateModule k (plModule p)));
    match instance with
    | Err e =>
        _ ← recordInvocation p i "" start "error" (Some e);
        fail e
    | Ok instance =>
        match executeModule instance (siData i) with
        | Err e =>
            _ ← recordInvocation p i (result_text no_step_result) start "error" (Some e);
            fail e
        | Ok result =>
            _ ← recordInvocation p i (result_text result) start "success" None;
            mret result
        end
    end.

(** *** Triggers: the stop function of the run of a plugin *)

Definition install_stop (key : string) : PSvc unit := fun w =>
  (Ok tt, mkSys (set_own (set_stops (<[key := ticks w]>)) (st w)) (S (ticks w))).
Definition StartTrigger (ref : PluginRef) : PSvc unit :=
  p ← Get_plugin ref;
  _ ← guardS (bool_decide (plType p = TriggerPlugin)) (Errorf "plugin %s@%s is not a trigger plugin" [plID p; plVersion p]);
  install_stop (plugin_key (plID p) (plVersion p)).

Definition StopTrigger (ref : PluginRef) : PSvc unit :=
  p ← Get_plugin ref;
  changes (set_own (set_stops (delete (plugin_key (plID p) (plVersion p))))).

Definition validateHostFunctionCall (p : Plugin) (functionName : string) : result goerr unit :=
  if decide (functionName ∈ mfHostFunctions (plManifest p)) then Ok tt
  else Err (Errorf "undeclared host function: %s" [functionName]).

(** *** The step executor ([executor.go]) *)

Record StepConfig : Type := mkStepConfig { scPlugin : string; scInput : option string; scTimeout : Z }.
Context (dec_StepConfig : string -> result goerr StepConfig).

Definition loadCasePayload (caseID : uuid) : PSvc (uuid * json) :=
  wrapS (Wrapf "load plugin step case context: %w" [])
    (liftM (query_row (fun _ d => (fun c => (cTenant c, cData c)) <$> cases d !! caseID))).

Definition Execute_plugin_step (caseID : uuid) (stepID raw : string) : PSvc (string * payload) :=
  cfg ← wrapS (Wrapf "parse plugin step config: %w" []) (pureS (dec_StepConfig raw));
  ref ← pureS (ParsePluginRefStrict (scPlugin cfg));
  case ← loadCasePayload caseID;
  let timeout := (if (0 <? scTimeout cfg)%Z then wrap64 (scTimeout cfg * Second) else 30 * Second)%Z in
  out ← ExecuteStep ref (mkStepInput case.1 caseID stepID (default (jsonb_text case.2) (scInput cfg)) timeout);
  if decide (srStatus out = "error") then fail (Errorf "%s" [srError out]) else mret ("ok", srOutput out).
End Runtime.
