(* ===== verification/PluginClaims.v ===== *)
(** * Claims about manifests, versions and schema changes *)

From S2P Require Import Prelude GoStrings Json EngineTypes Store GoText Triggers Plugins.

(** ** Versions *)

(** The order of versions: by major, minor and patch number. *)
Definition semver_lt (a b : semver) : Prop :=
  (Major a < Major b \/ (Major a = Major b /\ (Minor a < Minor b \/
    (Minor a = Minor b /\ Patch a < Patch b))))%Z.

Lemma compareSemver_lt a b sa sb :
  parseSemver a = Ok sa -> parseSemver b = Ok sb -> version_after a b = true <-> semver_lt sb sa.
Proof.
  intros Ha Hb. unfold version_after, compareSemver. rewrite Ha, Hb. unfold mbind, result_bind. unfold semver_lt.
  destruct (Z.eqb_spec (Major sa) (Major sb)); cbn [negb].
  2: { destruct (Z.ltb_spec (Major sa) (Major sb)); [split; [done|lia]|split; [lia|done]]. }
  destruct (Z.eqb_spec (Minor sa) (Minor sb)); cbn [negb].
  2: { destruct (Z.ltb_spec (Minor sa) (Minor sb)); [split; [done|lia]|split; [lia|done]]. }
  destruct (Z.eqb_spec (Patch sa) (Patch sb)); cbn [negb].
  2: { destruct (Z.ltb_spec (Patch sa) (Patch sb)); [split; [done|lia]|split; [lia|done]]. }
  split; [done|lia].
Qed.

Definition is_version (v : string) : Prop := is_ok (parseSemver v) = true.

Lemma is_version_inv v : is_version v -> exists sv, parseSemver v = Ok sv.
Proof. unfold is_version. destruct (parseSemver v); [eauto|done]. Qed.

Lemma version_after_trans a b c :
  is_version a -> is_version b -> is_version c ->
  version_after b a = false -> version_after c b = false -> version_after c a = false.
Proof.
  intros (sa & Ha)%is_version_inv (sb & Hb)%is_version_inv (sc & Hc)%is_version_inv H1 H2.
  apply not_true_iff_false in H1, H2. apply not_true_iff_false.
  rewrite (compareSemver_lt b a sb sa) in H1 by done. rewrite (compareSemver_lt c b sc sb) in H2 by done.
  rewrite (compareSemver_lt c a sc sa) by done. unfold semver_lt in *. lia.
Qed.

Lemma version_after_total a b :
  is_version a -> is_version b -> version_after b a = false \/ version_after a b = false.
Proof.
  intros (sa & Ha)%is_version_inv (sb & Hb)%is_version_inv.
  destruct (version_after b a) eqn:E1; [|by left]. right. apply not_true_iff_false. intros E2.
  apply (compareSemver_lt b a sb sa) in E1; [|done..]. apply (compareSemver_lt a b sa sb) in E2; [|done..].
  unfold semver_lt in *. lia.
Qed.

(** ** Manifests *)

(** What a manifest has to be. *)
Record valid_manifest (m : PluginManifest) : Prop := {
  vm_required : Forall (fun fv => TrimSpace fv.2 <> "") (required_fields m);
  vm_id : pluginIDRe (mfID m) = true;
  vm_version : is_version (mfVersion m);
  vm_type : mfType m = StepPlugin \/ mfType m = TriggerPlugin;
  vm_contract : is_Some (mfTriggerContract m) <-> mfType m = TriggerPlugin;
  vm_tier : mfTier m ∈ ["open_source"; "commercial"];
  vm_maturity : mfMaturity m ∈ ["core"; "certified"; "community"; "generated"];
  vm_operational : mfMaturity m ∈ ["core"; "certified"] -> is_Some (mfOperational m);
  vm_host : is_version (mfMinHostVersion m);
  vm_safety : mfToolSafety m = "" \/ mfToolSafety m ∈ ["read_only"; "idempotent_write"; "side_effect"];
  vm_tool : mfToolCapable m = true -> TrimSpace (mfToolDescription m) <> "" /\ mfToolSafety m <> "";
  vm_icon : (Z.of_nat (String.length (TrimSpace (uiIconSVG (mfUI m)))) <= max_icon)%Z
}.

Lemma errors_app a b : manifestErrors (a ++ b) = [] <-> manifestErrors a = [] /\ manifestErrors b = [].
Proof. unfold manifestErrors. rewrite filter_app. split; [apply app_eq_nil|]. by intros [-> ->]. Qed.
Lemma errors_issue b f m : manifestErrors (issue b f m) = [] <-> b = false.
Proof. by destruct b. Qed.
Lemma errors_warning b f m : manifestErrors (warning b f m) = [].
Proof. by destruct b. Qed.
Lemma errors_required l (msg : string * string -> string) :
  manifestErrors (flat_map (fun fv => issue (blank fv.2) fv.1 (msg fv)) l) = [] <->
  Forall (fun fv : string * string => TrimSpace fv.2 <> "") l.
Proof.
  induction l as [|fv l IH]; [done|]. cbn [flat_map]. rewrite errors_app, errors_issue, IH, Forall_cons.
  unfold blank. rewrite bool_decide_eq_false. done.
Qed.

Lemma present_true s : TrimSpace s <> "" -> present s = true.
Proof. intros H. unfold present. rewrite bool_decide_eq_false_2; [done|]. by intros ->. Qed.
Lemma not_among_false s l : not_among s l = false <-> s = "" \/ s ∈ l.
Proof.
  unfold not_among, present. destruct (bool_decide_reflect (s = "")), (bool_decide_reflect (s ∈ l)); simpl;
    split; intros; naive_solver.
Qed.
Lemma bad_version_false v : TrimSpace v <> "" -> bad_version v = false <-> is_version v.
Proof. intros H. unfold bad_version, is_version. rewrite present_true by done. simpl. by destruct (is_ok _). Qed.
Lemma icon_too_large_false icon :
  icon_too_large icon = false <-> (Z.of_nat (String.length (TrimSpace icon)) <= max_icon)%Z.
Proof.
  unfold icon_too_large, blank. destruct (bool_decide_reflect (TrimSpace icon = "")) as [->|]; simpl; [done|].
  rewrite Z.ltb_ge. done.
Qed.

(** A manifest is accepted exactly when it is one: the required fields are there,
    id, versions, type, tier, maturity and tool safety are of their kinds, a
    trigger contract is there exactly for a trigger, core and certified plugins
    carry operational metadata, a tool is described, and the icon is small. *)
Theorem ValidateManifest_correct m : manifestErrors (ValidateManifest m) = [] <-> valid_manifest m.
Proof.
  unfold ValidateManifest. rewrite !errors_app, !errors_issue, !errors_warning, errors_required.
  set (req := Forall _ (required_fields m)).
  assert (req -> TrimSpace (mfID m) <> "" /\ TrimSpace (mfVersion m) <> "" /\ TrimSpace (mfType m) <> "" /\
    TrimSpace (mfTier m) <> "" /\ TrimSpace (mfMaturity m) <> "" /\ TrimSpace (mfMinHostVersion m) <> "") as Hreq.
  { unfold req, required_fields. rewrite !Forall_cons. simpl. tauto. }
  rewrite !not_among_false, icon_too_large_false. split.
  - intros (R & Hid & Hv & Ht & Htier & Hmat & Hh & Htd & Hts & Hsafe & Hc1 & Hc2 & Hop & Hicon & _ & _).
    destruct (Hreq R) as (R1 & R2 & R3 & R4 & R5 & R6).
    rewrite present_true in Hid by done. apply bad_version_false in Hv; [|done]. apply bad_version_false in Hh; [|done].
    assert (forall s, TrimSpace s <> "" -> s <> "") as Hne by (intros s H ->; done).
    assert (mfType m = StepPlugin \/ mfType m = TriggerPlugin) as Htype.
    { destruct Ht as [Ht|Ht]; [by apply Hne in R3|]. set_solver. }
    split; try done; try tauto.
    + by destruct (pluginIDRe _).
    + revert Hc1 Hc2. destruct Htype as [->| ->], (mfTriggerContract m); simpl; intros;
        rewrite ?bool_decide_eq_true_2 in * by done; split; intros; naive_solver.
    + destruct Htier; [by apply Hne in R4|done].
    + destruct Hmat; [by apply Hne in R5|done].
    + intros Hc. destruct (mfOperational m); [eauto|]. revert Hop. rewrite (bool_decide_eq_true_2 (None = None)) by done.
      rewrite andb_true_r, orb_false_iff, !bool_decide_eq_false. set_solver.
    + intros Hcap. rewrite Hcap in Htd, Hts. simpl in Htd, Hts. unfold blank in Htd, Hts.
      apply bool_decide_eq_false in Htd, Hts. split; [done|]. by apply Hne.
  - intros [R Hid Hv Ht Hc Htier Hmat Hop Hh Hsafe Htool Hicon]. destruct (Hreq R) as (R1 & R2 & R3 & R4 & R5 & R6).
    rewrite Hid, !bad_version_false, andb_false_r by done.
    split_and!; try done; try tauto.
    + right. set_solver.
    + destruct (mfToolCapable m); [|done]. destruct (Htool eq_refl). unfold blank. simpl. by apply bool_decide_eq_false.
    + destruct (mfToolCapable m); [|done]. destruct (Htool eq_refl) as [_ H]. unfold blank. simpl.
      apply bool_decide_eq_false. destruct Hsafe as [?|Hsafe]; [done|].
      repeat (apply elem_of_cons in Hsafe as [->|Hsafe]; [by vm_compute|]). by apply not_elem_of_nil in Hsafe.
    + destruct (bool_decide_reflect (mfType m = TriggerPlugin)) as [E|]; [|done].
      destruct (proj2 Hc E) as [c ->]. done.
    + destruct (bool_decide_reflect (mfType m = StepPlugin)) as [E|]; [|done].
      destruct (mfTriggerContract m) as [c|]; [|done]. assert (mfType m = TriggerPlugin) by (by apply Hc).
      rewrite E in *. done.
    + destruct (bool_decide_reflect (mfOperational m = None)) as [E|]; [|by rewrite andb_false_r].
      rewrite andb_true_r, orb_false_iff, !bool_decide_eq_false.
      split; intros Em; destruct Hop as [? Ho]; rewrite ?Em; set_solver.
Qed.

(** ** Schema changes *)

Lemma text_le_le a b : text_le a b <-> String.le a b.
Proof.
  unfold text_le, str_ltb, String.le, String.leb. rewrite String.compare_antisym.
  destruct (String.compare a b); simpl; split; done.
Qed.

#[local] Instance change_le_total : Total change_le.
Proof.
  intros a b. unfold change_le. destruct (decide (pcType a = pcType b)) as [E|N].
  - rewrite E, bool_decide_eq_true_2 by done. cbn [negb]. change (text_le (pcKey a) (pcKey b) \/ text_le (pcKey b) (pcKey a)).
    rewrite !text_le_le. apply (total String.le).
  - rewrite !bool_decide_eq_false_2 by done. cbn [negb].
    change (text_le (pcType a) (pcType b) \/ text_le (pcType b) (pcType a)). rewrite !text_le_le. apply (total String.le).
Qed.

Lemma change_le_spec a b :
  change_le a b <-> if decide (pcType a = pcType b) then String.le (pcKey a) (pcKey b) else String.le (pcType a) (pcType b).
Proof.
  unfold change_le. destruct (decide (pcType a = pcType b)) as [->|N]; rewrite <-text_le_le; unfold text_le.
  - by rewrite bool_decide_eq_true_2.
  - by rewrite bool_decide_eq_false_2.
Qed.

#[local] Instance change_le_trans : Transitive change_le.
Proof.
  intros a b c. rewrite !change_le_spec. intros H1 H2.
  destruct (decide (pcType a = pcType b)) as [E1|N1], (decide (pcType b = pcType c)) as [E2|N2].
  - rewrite decide_True by congruence. by transitivity (pcKey b).
  - rewrite decide_False by congruence. by rewrite E1.
  - rewrite decide_False by congruence. by rewrite <-E2.
  - destruct (decide (pcType a = pcType c)) as [E3|N3]; [|by transitivity (pcType b)].
    destruct N1. apply (anti_symm String.le); [done|]. by rewrite E3.
Qed.

Lemma by_key_key l k d : by_key l !! k = Some d -> pdKey d = k.
Proof.
  unfold by_key. assert (forall m : gmap string PropertyDef, (forall k d, m !! k = Some d -> pdKey d = k) ->
    foldl (fun m d => <[pdKey d := d]> m) m l !! k = Some d -> pdKey d = k) as H.
  { induction l as [|x l IH]; intros m Hm; [apply Hm|]. simpl. apply IH. intros k' d'.
    rewrite lookup_insert_Some. naive_solver. }
  apply H. intros k' d' Hd. by rewrite lookup_empty in Hd.
Qed.

(** A pairing of removed with added properties that may be the same under a new
    name, each used once. *)
Record renaming (o n : gmap string PropertyDef) (r : list (PropertyDef * PropertyDef)) : Prop := {
  rn_old : forall a b, (a, b) ∈ r -> o !! pdKey a = Some a /\ n !! pdKey a = None;
  rn_new : forall a b, (a, b) ∈ r -> n !! pdKey b = Some b /\ o !! pdKey b = None;
  rn_similar : forall a b, (a, b) ∈ r -> similar a b = true;
  rn_once : NoDup (map (fun p => pdKey p.1) r);
  rn_used_once : NoDup (map (fun p => pdKey p.2) r);
  rn_maximal : forall k l a b, o !! k = Some a -> n !! k = None -> n !! l = Some b -> o !! l = None ->
    similar a b = true -> (exists b', (a, b') ∈ r) \/ (exists a', (a', b) ∈ r)
}.

(** The changes between two schemas, given which properties are renamed. *)
Inductive change_of (o n : gmap string PropertyDef) (r : list (PropertyDef * PropertyDef)) : PropertyChange -> Prop :=
| ch_type k a b : o !! k = Some a -> n !! k = Some b -> pdType a <> pdType b -> change_of o n r (type_changed k a b)
| ch_renamed a b : (a, b) ∈ r -> change_of o n r (renamed a b)
| ch_removed k a : o !! k = Some a -> n !! k = None -> (forall b, (a, b) ∉ r) -> change_of o n r (removed_change a)
| ch_added k b : n !! k = Some b -> o !! k = None -> (forall a, (a, b) ∉ r) -> change_of o n r (added_change b).

Section Detect.
Context (range_map : gmap string PropertyDef -> list (string * PropertyDef)).
Context (Hrange : forall m, range_map m ≡ₚ map_to_list m).

Lemma elem_range m k d : (k, d) ∈ range_map m <-> m !! k = Some d.
Proof. by rewrite (Hrange m), elem_of_map_to_list. Qed.

Lemma elem_retyped o n c :
  c ∈ retyped range_map o n <->
  exists k a b, o !! k = Some a /\ n !! k = Some b /\ pdType a <> pdType b /\ c = type_changed k a b.
Proof.
  unfold retyped. rewrite list_elem_of_omap. split.
  - intros ([k a] & Hin & H). apply elem_range in Hin. cbn [fst snd] in H. destruct (n !! k) as [b|] eqn:E; [|done].
    destruct (decide _); [done|]. injection H as <-. eauto 10.
  - intros (k & a & b & Ha & Hb & Ht & ->). exists (k, a). rewrite elem_range. cbn [fst snd].
    rewrite Hb, decide_False by done. done.
Qed.

Lemma elem_missing o n d :
  d ∈ missing_in range_map o n <-> exists k, o !! k = Some d /\ n !! k = None.
Proof.
  unfold missing_in. rewrite list_elem_of_omap. split.
  - intros ([k a] & Hin & H). apply elem_range in Hin. cbn [fst snd] in H. destruct (decide _) as [|Hn]; [done|].
    injection H as ->. exists k. split; [done|]. by apply eq_None_not_Some.
  - intros (k & Ha & Hb). exists (k, d). rewrite elem_range. cbn [fst snd].
    rewrite decide_False by (rewrite Hb; by intros [? ?]). done.
Qed.

Lemma NoDup_range_keys m : NoDup (map fst (range_map m)).
Proof. rewrite (Hrange m). apply NoDup_fst_map_to_list. Qed.

Lemma missing_keys o n : (forall k d, o !! k = Some d -> pdKey d = k) -> NoDup (map pdKey (missing_in range_map o n)).
Proof.
  intros Ho. pose proof (NoDup_range_keys o) as Hnd. unfold missing_in.
  assert (forall l, (forall kd, kd ∈ l -> pdKey kd.2 = kd.1) -> NoDup (map fst l) ->
    NoDup (map pdKey (omap (fun kd : string * PropertyDef => if decide (is_Some (n !! kd.1)) then None else Some kd.2) l))) as H.
  { induction l as [|kd l IH]; intros Hk Hl; [constructor|]. cbn [map] in Hl. inversion Hl as [|? ? Hnin Hl']; subst. cbn [omap list_omap].
    specialize (IH (fun x Hx => Hk x (list_elem_of_further _ _ _ Hx)) Hl').
    destruct (decide (is_Some (n !! kd.1))); [done|]. cbn [map]. constructor; [|done].
    intros (d & Hd & Hin)%list_elem_of_fmap. apply Hnin. apply list_elem_of_omap in Hin as (kd' & Hin' & E).
    destruct (decide _); [done|]. injection E as <-.
    rewrite (Hk kd ltac:(by left)) in Hd. rewrite (Hk kd' ltac:(by right)) in Hd. rewrite Hd. by apply list_elem_of_fmap_2. }
  apply H; [|done]. intros [k d] Hin. apply elem_range in Hin. by apply Ho.
Qed.

Lemma find_candidate old added used item :
  findRenameCandidate old added used = Some item -> item ∈ added /\ pdKey item ∉ used /\ similar old item = true.
Proof.
  unfold findRenameCandidate. intros H. apply head_Some_elem_of in H. apply list_elem_of_filter in H. tauto.
Qed.

Lemma renames_spec added removed : forall used,
  Forall (fun p => p.1 ∈ removed /\ p.2 ∈ added /\ pdKey p.2 ∉ used /\ similar p.1 p.2 = true) (renames removed added used) /\
  NoDup (map (fun p => pdKey p.2) (renames removed added used)) /\
  (NoDup (map pdKey removed) -> NoDup (map (fun p => pdKey p.1) (renames removed added used))).
Proof.
  induction removed as [|old rest IH]; intros used; [by repeat constructor|]. cbn [renames].
  destruct (findRenameCandidate old added used) as [item|] eqn:E.
  - apply find_candidate in E as (H1 & H2 & H3). destruct (IH (pdKey item :: used)) as (F & N2 & N1).
    cbn [map fst snd]. split_and!.
    + constructor; [split_and!; try done; by left|]. eapply Forall_impl; [exact F|]. intros p (? & ? & Hu & ?).
      split_and!; try done; [by right|]. intros Hin. apply Hu. by right.
    + constructor; [|done]. intros (p & Hp & Hin)%list_elem_of_fmap. rewrite Forall_forall in F.
      destruct (F _ Hin) as (_ & _ & Hu & _). apply Hu. rewrite <-Hp. by left.
    + intros Hnd. inversion Hnd as [|? ? Hnin Hnd']; subst. constructor; [|by apply N1].
      intros (p & Hp & Hin)%list_elem_of_fmap. rewrite Forall_forall in F. destruct (F _ Hin) as (Hr & _).
      apply Hnin. rewrite Hp. by apply list_elem_of_fmap_2.
  - destruct (IH used) as (F & N2 & N1). split_and!; [|done|].
    + eapply Forall_impl; [exact F|]. intros p (? & ? & ? & ?). split_and!; try done. by right.
    + intros Hnd. inversion Hnd; subst. by apply N1.
Qed.

Lemma nodup_map_inj {A} (f : A -> string) (l : list A) x y : NoDup (map f l) -> x ∈ l -> y ∈ l -> f x = f y -> x = y.
Proof.
  intros Hnd (i & Hi)%list_elem_of_lookup (j & Hj)%list_elem_of_lookup E.
  assert (i = j) as ->; [|congruence]. apply (NoDup_lookup (f <$> l) i j (f x)); [done|by rewrite list_lookup_fmap, Hi|].
  by rewrite list_lookup_fmap, Hj, E.
Qed.

(** No pair is left over that could be taken. *)
Lemma renames_maximal added a b :
  NoDup (map pdKey added) -> b ∈ added -> similar a b = true ->
  forall removed used, a ∈ removed -> pdKey b ∉ used ->
  (exists b', (a, b') ∈ renames removed added used) \/ (exists a', (a', b) ∈ renames removed added used).
Proof.
  intros Hnd Hb Hs. induction removed as [|old rest IH]; intros used Ha Hu; [set_solver|]. cbn [renames].
  destruct (findRenameCandidate old added used) as [item|] eqn:E.
  - destruct (decide (pdKey item = pdKey b)) as [Ek|Nk].
    + apply find_candidate in E as (Hi & _). assert (item = b) as -> by (by apply (nodup_map_inj pdKey added)).
      right. exists old. by left.
    + apply elem_of_cons in Ha as [->|Ha]; [left; exists item; by left|].
      destruct (IH (pdKey item :: used) Ha) as [[b' H]|[a' H]]; [set_solver|left; exists b'; by right|right; exists a'; by right].
  - apply elem_of_cons in Ha as [->|Ha]; [|by apply IH]. exfalso. unfold findRenameCandidate in E.
    apply head_None in E. assert (b ∈ filter (fun item => pdKey item ∉ used /\ similar old item = true) added) as Hin
      by (by apply list_elem_of_filter). rewrite E in Hin. set_solver.
Qed.

Lemma renames_renaming old new :
  let o := by_key old in let n := by_key new in
  renaming o n (renames (missing_in range_map o n) (missing_in range_map n o) []).
Proof.
  intros o n. destruct (renames_spec (missing_in range_map n o) (missing_in range_map o n) []) as (F & N2 & N1).
  rewrite Forall_forall in F.
  assert (forall l l' k (d : PropertyDef), by_key l !! k = Some d -> by_key l' !! k = None ->
    by_key l !! pdKey d = Some d /\ by_key l' !! pdKey d = None) as Hk.
  { intros l l' k d Hd Hn. by rewrite (by_key_key l k d Hd). }
  split.
  - intros a b Hin. destruct (F _ Hin) as (H & _). apply elem_missing in H as (k & H1 & H2). by eapply Hk.
  - intros a b Hin. destruct (F _ Hin) as (_ & H & _). apply elem_missing in H as (k & H1 & H2). by eapply Hk.
  - intros a b Hin. by destruct (F _ Hin) as (_ & _ & _ & H).
  - apply N1. apply missing_keys, by_key_key.
  - done.
  - intros k l a b Ha Hna Hb Hob Hs. apply renames_maximal; try done.
    + apply missing_keys, by_key_key.
    + apply elem_missing. by exists l.
    + apply elem_missing. by exists k.
    + set_solver.
Qed.

Lemma wasRenamed_spec old o n pairs :
  renaming o n pairs -> o !! pdKey old = Some old ->
  wasRenamed old (retyped range_map o n ++ map (fun p => renamed p.1 p.2) pairs) = true <-> exists b, (old, b) ∈ pairs.
Proof.
  intros Hr Ho. unfold wasRenamed. rewrite existsb_exists. split.
  - intros (c & Hin & Hc). apply list_elem_of_In in Hin. apply andb_true_iff in Hc as [H1 H2].
    apply bool_decide_eq_true in H1, H2. apply elem_of_app in Hin as [Hin|Hin].
    + apply elem_retyped in Hin as (k & a & b & _ & _ & _ & ->). done.
    + apply list_elem_of_fmap in Hin as ([a b] & -> & Hin). cbn in H2. exists b.
      destruct (rn_old _ _ _ Hr _ _ Hin) as [Ha _]. rewrite H2 in Ha. congruence.
  - intros (b & Hin). exists (renamed old b). split.
    + apply list_elem_of_In, elem_of_app. right. apply list_elem_of_fmap. by exists (old, b).
    + cbn [pcType pcKey renamed]. by rewrite !bool_decide_eq_true_2.
Qed.

Lemma retyped_keys o n : NoDup (map pcKey (retyped range_map o n)).
Proof.
  pose proof (NoDup_range_keys o) as Hnd. unfold retyped. induction (range_map o) as [|[k a] l IH]; [constructor|].
  cbn [map fst] in Hnd. inversion Hnd as [|? ? Hnin Hnd']; subst. cbn [omap list_omap fst snd].
  destruct (n !! k) as [b|]; [|by apply IH]. destruct (decide _); [by apply IH|]. cbn [map pcKey type_changed].
  constructor; [|by apply IH]. intros (c & Hc & Hin)%list_elem_of_fmap. apply Hnin.
  apply list_elem_of_omap in Hin as ([k' a'] & Hin & H). cbn [fst snd] in H. destruct (n !! k'); [|done].
  destruct (decide _); [done|]. injection H as <-. cbn in Hc. subst k'. by apply (list_elem_of_fmap_2 fst _ (k, a')).
Qed.

Lemma NoDup_keys (l : list PropertyChange) : NoDup (map pcKey l) -> NoDup l.
Proof. apply NoDup_fmap_1. Qed.

Lemma NoDup_filter_keys {A} (f : A -> string) (p : A -> Prop) `{!forall x, Decision (p x)} l :
  NoDup (map f l) -> NoDup (map f (filter p l)).
Proof.
  induction l as [|x l IH]; [done|]. intros Hnd. inversion Hnd as [|? ? Hnin Hnd']; subst. rewrite filter_cons.
  destruct (decide (p x)); [|by apply IH]. cbn [map]. constructor; [|by apply IH].
  intros (y & Hy & Hin)%list_elem_of_fmap. apply list_elem_of_filter in Hin as [_ Hin]. apply Hnin. rewrite Hy.
  by apply list_elem_of_fmap_2.
Qed.

(** The types of the changes tell the four kinds apart. *)
Lemma NoDup_kinds (a b c d : list PropertyChange) (ta tb tc td : string) :
  NoDup [ta; tb; tc; td] ->
  (forall x, x ∈ a -> pcType x = ta) -> (forall x, x ∈ b -> pcType x = tb) ->
  (forall x, x ∈ c -> pcType x = tc) -> (forall x, x ∈ d -> pcType x = td) ->
  NoDup a -> NoDup b -> NoDup c -> NoDup d -> NoDup (((a ++ b) ++ c) ++ d).
Proof.
  intros Ht Ha Hb Hc Hd Na Nb Nc Nd. apply NoDup_cons in Ht as [T1 Ht]. apply NoDup_cons in Ht as [T2 Ht].
  apply NoDup_cons in Ht as [T3 _]. rewrite !NoDup_app. setoid_rewrite elem_of_app.
  assert (forall (x : PropertyChange) (l l' : list PropertyChange) t t', (forall y, y ∈ l -> pcType y = t) -> (forall y, y ∈ l' -> pcType y = t') ->
    x ∈ l -> x ∈ l' -> t = t') as H by (intros x l l' t t' H1 H2 H3 H4; rewrite <-(H1 x H3); by apply H2).
  split_and!; try done; intros x; rewrite ?elem_of_app; intros Hx Hx'.
  - pose proof (H x a b ta tb Ha Hb Hx Hx'). set_solver.
  - destruct Hx as [Hx|Hx]; [pose proof (H x a c ta tc Ha Hc Hx Hx')|pose proof (H x b c tb tc Hb Hc Hx Hx')]; set_solver.
  - destruct Hx as [[Hx|Hx]|Hx];
      [pose proof (H x a d ta td Ha Hd Hx Hx')|pose proof (H x b d tb td Hb Hd Hx Hx')|pose proof (H x c d tc td Hc Hd Hx Hx')];
      set_solver.
Qed.

(** C36. The report of changes is complete and exact, up to which removed properties
    are taken for renamed ones: a property of both schemas is reported when its
    type differs; the renamed pair up removed with added properties, one to one,
    only where type and label or help text agree, and as far as they do; every other removed or
    added property is reported as such; nothing is reported twice, and the report
    is in order. This holds in whatever order Go visits its maps. *)
Theorem DetectSchemaChanges_correct old new :
  exists r, renaming (by_key old) (by_key new) r /\
    (forall c, c ∈ DetectSchemaChanges range_map old new <-> change_of (by_key old) (by_key new) r c) /\
    NoDup (DetectSchemaChanges range_map old new) /\
    StronglySorted change_le (DetectSchemaChanges range_map old new).
Proof.
  set (o := by_key old). set (n := by_key new).
  set (pairs := renames (missing_in range_map o n) (missing_in range_map n o) []).
  exists pairs. pose proof (renames_renaming old new) as Hr. cbv zeta in Hr. fold o n pairs in Hr.
  unfold DetectSchemaChanges. cbv zeta. fold o n pairs.
  set (out := retyped range_map o n ++ map (fun p => renamed p.1 p.2) pairs).
  assert (forall a, a ∈ missing_in range_map o n -> o !! pdKey a = Some a) as Hmo.
  { intros a (k & Ha & _)%elem_missing. by rewrite (by_key_key old k a Ha). }
  split; [done|]. split_and!; [|rewrite merge_sort_Permutation|apply (StronglySorted_merge_sort change_le)].
  - intros c. rewrite merge_sort_Permutation. unfold out. rewrite !elem_of_app, elem_retyped, !list_elem_of_fmap.
    setoid_rewrite list_elem_of_filter. split.
    + intros [[[(k & a & b & H1 & H2 & H3 & ->)|([a b] & -> & H)]|(a & -> & Hw & Hin)]|(b & -> & Hu & Hin)].
      * by apply ch_type.
      * by apply ch_renamed.
      * pose proof (Hmo a Hin) as Ho. apply elem_missing in Hin as (k & H1 & H2). apply (ch_removed o n pairs k a); [done|done|].
        intros b Hb. apply not_true_iff_false in Hw. apply Hw. apply (wasRenamed_spec a o n pairs); eauto.
      * apply elem_missing in Hin as (k & H1 & H2). apply (ch_added o n pairs k b); [done|done|]. intros a Ha. apply Hu.
        by apply (list_elem_of_fmap_2 (fun p : PropertyDef * PropertyDef => pdKey p.2) _ (a, b)).
    + intros [k a b H1 H2 H3|a b H|k a H1 H2 H3|k b H1 H2 H3].
      * left; left; left. eauto 10.
      * left; left; right. by exists (a, b).
      * left; right. exists a. assert (a ∈ missing_in range_map o n) as Hin by (apply elem_missing; eauto).
        split; [done|]. split; [|done]. apply not_true_iff_false. intros Hw.
        apply (wasRenamed_spec a o n pairs) in Hw as (b & Hb); [by destruct (H3 b)|done|by apply Hmo].
      * right. exists b. split; [done|]. split; [|apply elem_missing; eauto].
        intros ([a b'] & Hb & Hin)%list_elem_of_fmap. cbn in Hb. apply (H3 a).
        destruct (rn_new _ _ _ Hr _ _ Hin) as [Hb' _]. rewrite <-Hb, (by_key_key new k b H1) in Hb'. congruence.
  - apply (NoDup_kinds _ _ _ _ "type_changed" "renamed" "removed" "added").
    + by apply (bool_decide_unpack _).
    + intros x (k & a & b & _ & _ & _ & ->)%elem_retyped. done.
    + intros x (p & -> & _)%list_elem_of_fmap. done.
    + intros x (p & -> & _)%list_elem_of_fmap. done.
    + intros x (p & -> & _)%list_elem_of_fmap. done.
    + apply NoDup_keys, retyped_keys.
    + apply NoDup_keys. rewrite map_map. exact (rn_once _ _ _ Hr).
    + apply NoDup_keys. rewrite map_map. apply NoDup_filter_keys. apply missing_keys, by_key_key.
    + apply NoDup_keys. rewrite map_map. apply NoDup_filter_keys. apply missing_keys, by_key_key.
Qed.
End Detect.

Module SchemaExample.
Definition prop (key label type : string) : PropertyDef := mkPropertyDef key label type false None [] "" "".
Definition before : list PropertyDef := [prop "url" "Address" "string"; prop "n" "Count" "number"].
Definition after : list PropertyDef := [prop "n" "Count" "string"; prop "secret" "Token" "string"].

Lemma DetectSchemaChanges_correct_witness :
  exists r, renaming (by_key before) (by_key after) r /\
    (forall c, c ∈ DetectSchemaChanges map_to_list before after <-> change_of (by_key before) (by_key after) r c).
Proof.
  destruct (DetectSchemaChanges_correct map_to_list (fun m => reflexivity _) before after) as (r & H1 & H2 & _).
  exact (ex_intro _ r (conj H1 H2)).
Defined.

(** Two properties of one type that have no help text have the same help text:
    the removed one is reported as renamed to the other, whatever their labels. *)
Theorem unrelated_reported_renamed :
  map (fun c => (pcType c, pcMessage c)) (DetectSchemaChanges map_to_list before after) =
  [("renamed", "property 'url' renamed to 'secret'"); ("type_changed", "property 'n' changed type from 'number' to 'string'")].
Proof. vm_compute. reflexivity. Qed.
End SchemaExample.
