(* ===== verification/PluginRegistryClaims.v ===== *)
(** * Claims about the plugin registry and the runtime *)

From S2P Require Import Prelude GoStrings Json EngineTypes Store GoText Effects Triggers JsonText GoPath Site VaultStore.
From S2P Require Import Plugins PluginRuntime PluginClaims.

(** ** Marks *)

Lemma clear_latest_lookup addrs objs a :
  clear_latest addrs objs !! a = (if decide (a ∈ addrs) then with_latest false else id) <$> objs !! a.
Proof.
  unfold clear_latest. revert objs. induction addrs as [|b addrs IH]; intros objs; cbn [foldl].
  - rewrite decide_False by set_solver. by rewrite option_fmap_id.
  - rewrite IH. destruct (decide (a = b)) as [->|N].
    + rewrite lookup_alter_eq, (decide_True _ _ (list_elem_of_here b addrs)). destruct (objs !! b); [|done].
      simpl. by destruct (decide _).
    + rewrite lookup_alter_ne by done. by rewrite (decide_ext (a ∈ addrs) (a ∈ b :: addrs)) by set_solver.
Qed.

Lemma mark_first_lookup addrs objs a :
  mark_first addrs objs !! a =
  (if decide (a ∈ addrs) then with_latest (bool_decide (Some a = head addrs)) else id) <$> objs !! a.
Proof.
  destruct addrs as [|b addrs]; cbn [mark_first head].
  { rewrite decide_False by set_solver. by rewrite option_fmap_id. }
  destruct (decide (a = b)) as [->|N].
  - rewrite lookup_alter_eq, clear_latest_lookup, (bool_decide_eq_true_2 (Some b = Some b)) by done.
    destruct (decide (b ∈ b :: addrs)) as [_|Hn]; [by destruct (objs !! b)|destruct Hn; by left].
  - rewrite lookup_alter_ne, clear_latest_lookup by done. rewrite (bool_decide_eq_false_2 (Some a = Some b)) by congruence.
    done.
Qed.

(** ** The palette does not show the mark or the status *)

Definition erase (p : Plugin) : Plugin := with_plugin_status "" (with_latest false p).

Lemma sortPlugins_erase l : sortPlugins (map erase l) = map erase (sortPlugins l).
Proof.
  unfold sortPlugins. apply (merge_sort_map erase (fun _ => True) plugin_le plugin_le); [done|].
  by apply Forall_true.
Qed.

Lemma filter_map_erase (p : Plugin -> Prop) `{!forall x, Decision (p x)} l :
  (forall x, p (erase x) <-> p x) -> filter p (map erase l) = map erase (filter p l).
Proof.
  intros Hp. induction l as [|x l IH]; [done|]. cbn [map]. rewrite !filter_cons, IH.
  destruct (decide (p x)), (decide (p (erase x))); naive_solver.
Qed.

Lemma build_erase l t : buildPaletteCategories (map erase l) t = buildPaletteCategories l t.
Proof.
  unfold buildPaletteCategories. cbv zeta. rewrite filter_map_erase by done. rewrite map_map.
  change (map (fun x => palette_category (erase x))) with (map palette_category). apply map_ext. intros c.
  rewrite filter_map_erase by done. by rewrite map_map.
Qed.

(** ** The invariant *)

(** The plugin of an id and a version, in the map of the registry. *)
Definition registered (s : PluginState) (id v : string) (a : nat) : Prop :=
  exists vs, rgPlugins (psRegistry s) !! id = Some vs /\ vs !! v = Some a.

Record registry_ok (s : PluginState) : Prop := {
  po_nonempty : forall id vs, rgPlugins (psRegistry s) !! id = Some vs -> vs <> ∅;
  po_objects : forall id v a, registered s id v a ->
    blank v = false /\ exists p, psObjects s !! a = Some p /\ plID p = id /\ plVersion p = v;
  po_fresh : forall a, is_Some (psObjects s !! a) -> (a < psNext s)%nat;
  po_latest : forall id, rgLatest (psRegistry s) !! id = head (sorted_addresses (versions_of (rgPlugins (psRegistry s)) id));
  po_marks : forall id v a p, registered s id v a -> psObjects s !! a = Some p ->
    plIsLatest p = bool_decide (Some a = rgLatest (psRegistry s) !! id);
  po_palettes : rgDirty (psRegistry s) = false ->
    rgStepPalette (psRegistry s) = Some (buildPaletteCategories (All s) false) /\
    rgToolPalette (psRegistry s) = Some (buildPaletteCategories (All s) true)
}.
(** And the runtime has the same plugins. *)
Definition plugins_ok (s : PluginState) : Prop := psPlugins s = rgPlugins (psRegistry s) /\ registry_ok s.

Lemma elem_sorted_addresses vs a : a ∈ sorted_addresses vs <-> exists v, vs !! v = Some a.
Proof.
  unfold sorted_addresses. rewrite list_elem_of_fmap. setoid_rewrite merge_sort_Permutation. split.
  - intros ([v b] & -> & H). apply elem_of_map_to_list in H. eauto.
  - intros (v & H). exists (v, a). by rewrite elem_of_map_to_list.
Qed.

Lemma sorted_addresses_nil vs : sorted_addresses vs = [] <-> vs = ∅.
Proof.
  split; [|intros ->; done]. intros H. apply map_empty. intros v. apply eq_None_not_Some. intros [a Ha].
  assert (a ∈ sorted_addresses vs) as Hin by (apply elem_sorted_addresses; eauto). rewrite H in Hin. set_solver.
Qed.

Lemma registered_versions s id v a : registered s id v a <-> versions_of (rgPlugins (psRegistry s)) id !! v = Some a.
Proof.
  unfold registered, versions_of. destruct (rgPlugins (psRegistry s) !! id) as [vs|]; simpl; [naive_solver|].
  rewrite lookup_empty. naive_solver.
Qed.

(** An address belongs to one id and one version. *)
Lemma registered_inj s id v id' v' a : registry_ok s -> registered s id v a -> registered s id' v' a -> id = id' /\ v = v'.
Proof.
  intros Hok H H'. destruct (po_objects s Hok _ _ _ H) as (_ & p & Hp & <- & <-).
  destruct (po_objects s Hok _ _ _ H') as (_ & p' & Hp' & <- & <-). rewrite Hp in Hp'. by injection Hp' as ->.
Qed.

(** ** The latest version *)

Definition semver_of (v : string) : semver := match parseSemver v with Ok s => s | Err _ => mkSemver 0 0 0 end.
Definition semver_ge (a b : string * nat) : Prop := ~ semver_lt (semver_of a.1) (semver_of b.1).
#[local] Instance semver_ge_dec (a b : string * nat) : Decision (semver_ge a b).
Proof. unfold semver_ge, semver_lt. apply _. Defined.

Lemma newer_first_ge a b : is_version a.1 -> is_version b.1 -> newer_first a b <-> semver_ge a b.
Proof.
  intros (sa & Ha)%is_version_inv (sb & Hb)%is_version_inv. unfold newer_first, semver_ge, semver_of. rewrite Ha, Hb.
  rewrite <-not_true_iff_false, (compareSemver_lt b.1 a.1 sb sa) by done. done.
Qed.

(** Nothing is newer than the version that comes first. *)
Lemma sorted_first vs a :
  (forall v, is_Some (vs !! v) -> is_version v) -> head (sorted_addresses vs) = Some a ->
  exists v, vs !! v = Some a /\ forall v', is_Some (vs !! v') -> version_after v' v = false.
Proof.
  intros Hv. unfold sorted_addresses.
  assert (Forall (fun x : string * nat => is_version x.1) (map_to_list vs)) as Hall.
  { apply Forall_forall. intros [v b] Hin. apply elem_of_map_to_list in Hin. apply Hv. eauto. }
  assert (merge_sort semver_ge (map_to_list vs) = merge_sort newer_first (map_to_list vs)) as E.
  { rewrite <-(map_id (map_to_list vs)) at 1.
    rewrite (merge_sort_map (fun x => x) (fun x : string * nat => is_version x.1) newer_first semver_ge); [apply map_id| |done].
    intros x y Hx Hy. by apply newer_first_ge. }
  assert (StronglySorted semver_ge (merge_sort semver_ge (map_to_list vs))) as Hs.
  { apply StronglySorted_merge_sort.
    - intros x y z. unfold semver_ge, semver_lt. lia.
    - intros x y. unfold semver_ge, semver_lt. lia. }
  rewrite E in Hs. destruct (merge_sort newer_first (map_to_list vs)) as [|[v b] l] eqn:El; [done|]. intros [= <-].
  assert (forall w c, vs !! w = Some c <-> (w, c) ∈ (v, b) :: l) as Hin.
  { intros w c. rewrite <-elem_of_map_to_list, <-(merge_sort_Permutation newer_first (map_to_list vs)), El. done. }
  assert (vs !! v = Some b) as Hvb by (apply Hin; by left). exists v. split; [done|].
  intros v' [c Hc]. apply Hin in Hc. inversion Hs as [|? ? _ Hf]; subst. rewrite Forall_forall in Hf.
  assert (is_version v') as Hv' by (apply Hv; exists c; by apply Hin).
  assert (newer_first (v, b) (v', c)) as Hn; [|exact Hn]. apply newer_first_ge; [apply Hv; eauto|done|].
  apply elem_of_cons in Hc as [[= -> ->]|Hc]; [|by apply Hf]. unfold semver_ge, semver_lt. lia.
Qed.

(** ** The registry *)

Lemma insert_same (m : gmap string (gmap string nat)) id vs : m !! id = Some vs -> ensure_versions id m = m.
Proof. intros H. unfold ensure_versions, versions_of. rewrite H. by apply insert_id. Qed.

(** After the versions of one plugin have changed, choosing the latest again makes
    the registry right. *)
Lemma updateLatest_ok s id :
  (forall id vs, rgPlugins (psRegistry s) !! id = Some vs -> vs <> ∅) ->
  (forall id v a, registered s id v a -> blank v = false /\ exists p, psObjects s !! a = Some p /\ plID p = id /\ plVersion p = v) ->
  (forall a, is_Some (psObjects s !! a) -> (a < psNext s)%nat) ->
  (forall id', id' <> id ->
     rgLatest (psRegistry s) !! id' = head (sorted_addresses (versions_of (rgPlugins (psRegistry s)) id'))) ->
  (forall id' v a p, id' <> id -> registered s id' v a -> psObjects s !! a = Some p ->
     plIsLatest p = bool_decide (Some a = rgLatest (psRegistry s) !! id')) ->
  registry_ok (set_registry markDirtyLocked (updateLatestLocked id s)).
Proof.
  intros H1 H2 H3 H4 H5. set (addrs := sorted_addresses (versions_of (rgPlugins (psRegistry s)) id)).
  assert (forall a, psObjects (set_registry markDirtyLocked (updateLatestLocked id s)) !! a =
    (if decide (a ∈ addrs) then with_latest (bool_decide (Some a = head addrs)) else Datatypes.id) <$> psObjects s !! a) as Ho
    by (intros a; apply mark_first_lookup).
  split; cbn [psRegistry set_registry updateLatestLocked set_objects rgPlugins rgLatest markDirtyLocked set_latest_addr rgDirty psNext]; try done.
  - intros id' v a Hr. destruct (H2 id' v a Hr) as (Hb & p & Hp & Hid & Hv). split; [done|].
    rewrite Ho, Hp. simpl. eexists. split; [done|]. by destruct (decide _).
  - intros a. rewrite Ho. intros Hs. apply H3. by destruct (psObjects s !! a).
  - intros id'. destruct (decide (id' = id)) as [->|N].
    + by rewrite lookup_partial_alter_eq.
    + rewrite lookup_partial_alter_ne by done. by apply H4.
  - intros id' v a p Hr. rewrite Ho. intros Hp. destruct (psObjects s !! a) as [q|] eqn:Eq; [|done].
    simpl in Hp. injection Hp as <-. destruct (decide (id' = id)) as [->|N].
    + rewrite lookup_partial_alter_eq. assert (a ∈ addrs) as Hin.
      { apply elem_sorted_addresses. exists v. by apply registered_versions. }
      by rewrite decide_True.
    + rewrite lookup_partial_alter_ne by done. rewrite decide_False; [by apply (H5 id' v)|].
      intros (v' & Hv')%elem_sorted_addresses. apply registered_versions in Hv'.
      destruct (H2 _ _ _ Hr) as (_ & p1 & Hp1 & <- & _). destruct (H2 _ _ _ Hv') as (_ & p2 & Hp2 & <- & _). congruence.
Qed.

Lemma registered_insert s id vs id' v a :
  registered (set_registry (with_reg_plugins (<[id := vs]>)) s) id' v a <->
  (id' = id /\ vs !! v = Some a) \/ (id' <> id /\ registered s id' v a).
Proof.
  unfold registered. cbn [psRegistry set_registry rgPlugins with_reg_plugins]. destruct (decide (id' = id)) as [->|N].
  - rewrite lookup_insert_eq. naive_solver.
  - rewrite lookup_insert_ne by done. naive_solver.
Qed.

Lemma versions_insert (m : gmap string (gmap string nat)) id vs id' :
  versions_of (<[id := vs]> m) id' = if decide (id' = id) then vs else versions_of m id'.
Proof.
  unfold versions_of. destruct (decide (id' = id)) as [->|N]; [by rewrite lookup_insert_eq|by rewrite lookup_insert_ne].
Qed.

(** Other versions of one plugin in the registry. *)
Lemma replace_versions_ok s id vs :
  registry_ok s -> vs <> ∅ ->
  (forall v a, vs !! v = Some a -> blank v = false /\ exists p, psObjects s !! a = Some p /\ plID p = id /\ plVersion p = v) ->
  registry_ok (set_registry markDirtyLocked (updateLatestLocked id (set_registry (with_reg_plugins (<[id := vs]>)) s))).
Proof.
  intros Hok Hne Hvs. apply updateLatest_ok.
  - intros id' vs'. cbn. rewrite lookup_insert_Some. intros [[<- <-]|[_ H]]; [done|]. by eapply po_nonempty.
  - intros id' v a [[-> H]|[_ H]]%registered_insert; [by apply Hvs|]. by apply (po_objects s Hok).
  - apply (po_fresh s Hok).
  - intros id' N. cbn. rewrite versions_insert, decide_False by done. apply (po_latest s Hok).
  - intros id' v a p N [[-> _]|[_ H]]%registered_insert Hp; [done|]. by apply (po_marks s Hok _ _ _ _ H).
Qed.

Lemma with_reg_twice f g s :
  set_registry (with_reg_plugins g) (set_registry (with_reg_plugins f) s) =
  set_registry (with_reg_plugins (fun m => g (f m))) s.
Proof. done. Qed.

Lemma set_registry_ext f g s : f (psRegistry s) = g (psRegistry s) -> set_registry f s = set_registry g s.
Proof. intros H. unfold set_registry. by rewrite H. Qed.
Lemma set_registry_id f s : f (psRegistry s) = psRegistry s -> set_registry f s = s.
Proof. intros H. unfold set_registry. rewrite H. by destruct s. Qed.

Lemma Register_spec a p s :
  registry_ok s -> psObjects s !! a = Some p -> blank (plVersion p) = false ->
  match Register a p s with
  | (Ok _, s') => registry_ok s' /\ rgPlugins (psRegistry s') = add_version (plID p) (plVersion p) a (rgPlugins (psRegistry s)) /\
                  psPlugins s' = psPlugins s
  | (Err _, s') => s' = s /\ is_Some (versions_of (rgPlugins (psRegistry s)) (plID p) !! plVersion p)
  end.
Proof.
  intros Hok Hp Hb. unfold Register. cbv zeta. cbn [psRegistry set_registry rgPlugins with_reg_plugins].
  assert (versions_of (ensure_versions (plID p) (rgPlugins (psRegistry s))) (plID p) =
    versions_of (rgPlugins (psRegistry s)) (plID p)) as Hv
    by (unfold ensure_versions; by rewrite versions_insert, decide_True).
  rewrite Hv. destruct (decide _) as [Hs|Hn].
  - split; [|done]. apply set_registry_id. unfold with_reg_plugins.
    destruct (rgPlugins (psRegistry s) !! plID p) as [vs|] eqn:E.
    + rewrite (insert_same _ _ _ E). by destruct (psRegistry s).
    + unfold versions_of in Hs. rewrite E in Hs. simpl in Hs. rewrite lookup_empty in Hs. by destruct Hs.
  - set (vs := <[plVersion p := a]> (versions_of (rgPlugins (psRegistry s)) (plID p))).
    assert (set_registry (with_reg_plugins (add_version (plID p) (plVersion p) a))
      (set_registry (with_reg_plugins (ensure_versions (plID p))) s) =
      set_registry (with_reg_plugins (<[plID p := vs]>)) s) as ->.
    { rewrite with_reg_twice. apply set_registry_ext. unfold with_reg_plugins, add_version. f_equal.
      rewrite Hv. unfold ensure_versions. by rewrite insert_insert_eq. }
    split; [|done]. apply replace_versions_ok; [done|apply insert_non_empty|].
    intros v a'. unfold vs. rewrite lookup_insert_Some. intros [[<- <-]|[_ H]]; [eauto|].
    apply (po_objects s Hok). by apply registered_versions.
Qed.

Lemma versions_delete (m : gmap string (gmap string nat)) id id' :
  versions_of (delete id m) id' = if decide (id' = id) then ∅ else versions_of m id'.
Proof.
  unfold versions_of. destruct (decide (id' = id)) as [->|N]; [by rewrite lookup_delete_eq|by rewrite lookup_delete_ne].
Qed.

Lemma drop_plugin_ok id s : registry_ok s -> registry_ok (set_registry (fun r => markDirtyLocked (drop_plugin id r)) s).
Proof.
  intros Hok.
  assert (forall id' v a, registered (set_registry (fun r => markDirtyLocked (drop_plugin id r)) s) id' v a ->
    id' <> id /\ registered s id' v a) as Hr.
  { intros id' v a (vs & Hvs & Hv). cbn in Hvs. apply lookup_delete_Some in Hvs as [N Hvs]. split; [done|]. by exists vs. }
  split; try done.
  - intros id' vs. cbn. rewrite lookup_delete_Some. intros [_ H]. by eapply po_nonempty.
  - intros id' v a [_ H]%Hr. by apply (po_objects s Hok).
  - apply (po_fresh s Hok).
  - intros id'. cbn. rewrite versions_delete. destruct (decide (id' = id)) as [->|N]; [by rewrite lookup_delete_eq|].
    rewrite lookup_delete_ne by done. apply (po_latest s Hok).
  - intros id' v a p [N H]%Hr Hp. cbn. rewrite lookup_delete_ne by done. by apply (po_marks s Hok _ _ _ _ H).
Qed.

(** What [Unregister] leaves in the map of the registry. *)
Definition without_version (id v : string) (m : gmap string (gmap string nat)) : gmap string (gmap string nat) :=
  if decide (delete v (versions_of m id) = ∅) then delete id m else <[id := delete v (versions_of m id)]> m.

Lemma Unregister_version id v s :
  registry_ok s -> is_Some (versions_of (rgPlugins (psRegistry s)) id !! v) ->
  let s' := (Unregister (mkPluginRef id v) s).2 in
  registry_ok s' /\ rgPlugins (psRegistry s') = without_version id v (rgPlugins (psRegistry s)) /\ psPlugins s' = psPlugins s.
Proof.
  intros Hok [a Ha] s'. subst s'. unfold Unregister, without_version. cbn [refID refVersion].
  assert (registered s id v a) as Hreg by (by apply registered_versions).
  destruct (po_objects s Hok id v a Hreg) as (Hb & _). destruct Hreg as (vs & Hvs & Hv). rewrite Hvs, Hb.
  assert (versions_of (rgPlugins (psRegistry s)) id = vs) as Ev by (unfold versions_of; by rewrite Hvs). rewrite Ev.
  rewrite decide_False by congruence. cbv zeta. destruct (decide (delete v vs = ∅)) as [He|Hne]; cbn [snd].
  - split; [|split; [|done]].
    + match goal with |- registry_ok ?x => replace x with (set_registry (fun r => markDirtyLocked (drop_plugin id r)) s) end.
      { by apply drop_plugin_ok. }
      unfold set_registry, markDirtyLocked, drop_plugin, with_reg_plugins. cbn. by rewrite delete_insert_eq.
    + cbn. by rewrite delete_insert_eq.
  - split; [|done]. apply replace_versions_ok; [done|done|]. intros v' a' [_ H]%lookup_delete_Some.
    apply (po_objects s Hok). exists vs. done.
Qed.

Lemma Unregister_all id s :
  registry_ok s -> is_Some (rgPlugins (psRegistry s) !! id) ->
  let s' := (Unregister (mkPluginRef id "") s).2 in
  registry_ok s' /\ rgPlugins (psRegistry s') = delete id (rgPlugins (psRegistry s)) /\ psPlugins s' = psPlugins s.
Proof.
  intros Hok [vs Hvs] s'. subst s'. unfold Unregister. cbn [refID refVersion]. rewrite Hvs.
  change (blank "") with true. cbn [snd]. split; [by apply drop_plugin_ok|done].
Qed.

(** ** The runtime *)

Lemma registry_ok_fields s s' :
  psObjects s' = psObjects s -> psNext s' = psNext s -> psRegistry s' = psRegistry s -> registry_ok s -> registry_ok s'.
Proof.
  intros E1 E2 E3 Hok. assert (forall id v a, registered s' id v a <-> registered s id v a) as Hr by (intros; unfold registered; by rewrite E3).
  split.
  - rewrite E3. apply (po_nonempty s Hok).
  - intros id v a H%Hr. rewrite E1. by apply (po_objects s Hok).
  - rewrite E1, E2. apply (po_fresh s Hok).
  - rewrite E3. apply (po_latest s Hok).
  - intros id v a p H%Hr. rewrite E1, E3. by apply (po_marks s Hok _ _ _ _ H).
  - rewrite E3. unfold All, allLocked, plugins_at. rewrite E1, E3. apply (po_palettes s Hok).
Qed.

Lemma plugins_ok_fields s s' :
  psObjects s' = psObjects s -> psNext s' = psNext s -> psRegistry s' = psRegistry s -> psPlugins s' = psPlugins s ->
  plugins_ok s -> plugins_ok s'.
Proof. intros E1 E2 E3 E4 [H1 H2]. split; [by rewrite E4, E3|by apply (registry_ok_fields s)]. Qed.

Lemma elem_all_addresses m a : a ∈ all_addresses m <-> exists id vs v, m !! id = Some vs /\ vs !! v = Some a.
Proof.
  unfold all_addresses. rewrite list_elem_of_In, in_flat_map. split.
  - intros ([id vs] & H1 & H2). apply list_elem_of_In in H1, H2. apply elem_of_map_to_list in H1. cbn [snd] in H2.
    apply list_elem_of_fmap in H2 as ([v b] & -> & H). apply elem_of_map_to_list in H. eauto.
  - intros (id & vs & v & H1 & H2). exists (id, vs). rewrite <-!list_elem_of_In. split; [by apply elem_of_map_to_list|].
    cbn [snd]. apply list_elem_of_fmap. exists (v, a). by rewrite elem_of_map_to_list.
Qed.

Lemma omap_ext_elem {A B} (f g : A -> option B) (l : list A) : (forall x, x ∈ l -> f x = g x) -> omap f l = omap g l.
Proof.
  induction l as [|x l IH]; [done|]. intros H. cbn [omap list_omap]. rewrite (H x) by (by left).
  rewrite IH; [done|]. intros y Hy. apply H. by right.
Qed.

Lemma new_plugin_ok p s : plugins_ok s -> plugins_ok (new_plugin p s).2 /\ psObjects (new_plugin p s).2 !! (new_plugin p s).1 = Some p.
Proof.
  intros [Hs Hok]. cbn. assert (forall a, is_Some (psObjects s !! a) -> psNext s <> a) as Hf
    by (intros a H; apply (po_fresh s Hok) in H; lia).
  split; [|by rewrite lookup_insert_eq]. split; [done|]. split; cbn; try apply Hok.
  - intros id v a Hr. destruct (po_objects s Hok id v a Hr) as (Hb & q & Hq & H). split; [done|]. exists q.
    rewrite lookup_insert_ne; [done|]. apply Hf. eauto.
  - intros a. rewrite lookup_insert_is_Some. intros [<-|[_ H]]; [lia|]. apply (po_fresh s Hok) in H. lia.
  - intros id v a q Hr. rewrite lookup_insert_ne; [by apply (po_marks s Hok _ _ _ _ Hr)|].
    destruct (po_objects s Hok id v a Hr) as (_ & q' & Hq' & _). apply Hf. eauto.
  - intros Hd. destruct (po_palettes s Hok Hd) as [-> ->].
    assert (All s = All (new_plugin p s).2) as E; [|by rewrite E].
    unfold All, allLocked, plugins_at. f_equal. apply omap_ext_elem. intros a (id & vs & v & H1 & H2)%elem_all_addresses.
    cbn. rewrite lookup_insert_ne; [done|]. apply Hf. destruct (po_objects s Hok id v a) as (_ & q & Hq & _); [by exists vs|eauto].
Qed.

Lemma put_plugin_ok a p s :
  plugins_ok s -> psObjects s !! a = Some p -> blank (plVersion p) = false -> plugins_ok (put_plugin a p s).2.
Proof.
  intros [Hs Hok] Hp Hb. unfold put_plugin. cbv zeta. cbn [psPlugins set_plugins].
  assert (versions_of (ensure_versions (plID p) (psPlugins s)) (plID p) = versions_of (psPlugins s) (plID p)) as Hv
    by (unfold ensure_versions; by rewrite versions_insert, decide_True).
  rewrite Hv. destruct (decide _) as [Hdup|Hn]; cbn [snd].
  - split; [|by apply (registry_ok_fields s)]. cbn. rewrite <-Hs.
    destruct (psPlugins s !! plID p) as [vs|] eqn:E; [by apply (insert_same _ _ vs)|].
    unfold versions_of in Hdup. rewrite E in Hdup. simpl in Hdup. rewrite lookup_empty in Hdup. by destruct Hdup.
  - set (s1 := set_plugins (add_version (plID p) (plVersion p) a) (set_plugins (ensure_versions (plID p)) s)).
    assert (registry_ok s1) as Hok1 by (by apply (registry_ok_fields s)).
    pose proof (Register_spec a p s1 Hok1 Hp Hb) as H. destruct (Register a p s1) as [[[]|e] s2]; cbn [snd].
    + destruct H as (H1 & H2 & H3). split; [|done]. rewrite H2, H3. unfold s1. cbn. rewrite <-Hs.
      unfold add_version. rewrite Hv. unfold ensure_versions. by rewrite insert_insert_eq.
    + destruct H as (_ & [b Hb']). exfalso. apply Hn. rewrite Hs. exists b. exact Hb'.
Qed.

Lemma unload_version_ok ref s :
  plugins_ok s -> is_Some (versions_of (psPlugins s) (refID ref) !! refVersion ref) -> plugins_ok (unload_version ref s).2.
Proof.
  destruct ref as [id v]. intros [Hs Hok] Hv. unfold unload_version. cbv zeta. cbn [refID refVersion].
  set (s1 := set_plugins (<[id := delete v (versions_of (psPlugins s) id)]>) s).
  assert (registry_ok s1) as Hok1 by (by apply (registry_ok_fields s)).
  destruct (Unregister_version id v s1 Hok1) as (H1 & H2 & H3); [unfold s1; cbn; by rewrite <-Hs|].
  set (s2 := (Unregister (mkPluginRef id v) s1).2) in *.
  assert (rgPlugins (psRegistry s2) = without_version id v (psPlugins s)) as E by (rewrite H2; unfold s1; cbn; by rewrite <-Hs).
  unfold without_version in E.
  destruct (decide (delete v (versions_of (psPlugins s) id) = ∅)); cbn [snd]; (split; [|by apply (registry_ok_fields s2)]);
    cbn; rewrite E, H3; unfold s1; cbn; [by rewrite delete_insert_eq|done].
Qed.

Lemma unload_all_ok id s : plugins_ok s -> is_Some (psPlugins s !! id) -> plugins_ok (unload_all id s).2.
Proof.
  intros [Hs Hok] Hv. unfold unload_all. cbv zeta. cbn [snd].
  set (s1 := set_plugins (delete id) s). assert (registry_ok s1) as Hok1 by (by apply (registry_ok_fields s)).
  destruct (Unregister_all id s1 Hok1) as (H1 & H2 & H3); [unfold s1; cbn; by rewrite <-Hs|].
  split; [|by apply (registry_ok_fields (Unregister (mkPluginRef id "") s1).2)]. cbn. rewrite H2, H3. unfold s1. cbn. by rewrite Hs.
Qed.

(** Marking the latest again changes nothing. *)
Lemma mark_again objs addrs :
  (forall a p, a ∈ addrs -> objs !! a = Some p -> plIsLatest p = bool_decide (Some a = head addrs)) ->
  mark_first addrs objs = objs.
Proof.
  intros H. apply map_eq. intros a. rewrite mark_first_lookup. destruct (objs !! a) as [p|] eqn:E; [|done]. simpl.
  destruct (decide (a ∈ addrs)) as [Hin|]; [|done]. rewrite <-(H a p Hin E). by destruct p.
Qed.

Lemma updateLatest_id id s : registry_ok s -> updateLatestLocked id s = s.
Proof.
  intros Hok. unfold updateLatestLocked. cbv zeta.
  set (addrs := sorted_addresses (versions_of (rgPlugins (psRegistry s)) id)).
  assert (set_objects (mark_first addrs) s = s) as ->.
  { unfold set_objects. rewrite mark_again; [by destruct s|]. intros a p (v & Hv)%elem_sorted_addresses Hp.
    apply registered_versions in Hv. rewrite (po_marks s Hok _ _ _ _ Hv Hp). by rewrite (po_latest s Hok). }
  apply set_registry_id. unfold set_latest_addr. rewrite <-(po_latest s Hok id : _ = head addrs).
  destruct (psRegistry s) as [m l c1 c2 d]. cbn. f_equal. apply map_eq. intros id'.
  destruct (decide (id' = id)) as [->|N]; [by rewrite lookup_partial_alter_eq|by rewrite lookup_partial_alter_ne].
Qed.

Lemma mark_runtime_id id s : plugins_ok s -> mark_runtime id s = s.
Proof.
  intros [Hs Hok]. unfold mark_runtime, UpdateLatest. rewrite Hs.
  assert (set_objects (mark_first (sorted_addresses (versions_of (rgPlugins (psRegistry s)) id))) s = s) as ->.
  { unfold set_objects. rewrite mark_again; [by destruct s|]. intros a p (v & Hv)%elem_sorted_addresses Hp.
    apply registered_versions in Hv. rewrite (po_marks s Hok _ _ _ _ Hv Hp). by rewrite (po_latest s Hok). }
  by apply updateLatest_id.
Qed.

Lemma set_all_lookup f addrs (objs : gmap nat Plugin) a :
  (forall p, f (f p) = f p) ->
  foldl (fun o b => alter f b o) objs addrs !! a = (if decide (a ∈ addrs) then f else id) <$> objs !! a.
Proof.
  intros Hf. revert objs. induction addrs as [|b addrs IH]; intros objs; cbn [foldl].
  - rewrite decide_False by set_solver. by rewrite option_fmap_id.
  - rewrite IH. destruct (decide (a = b)) as [->|N].
    + rewrite lookup_alter_eq, (decide_True _ _ (list_elem_of_here b addrs)). destruct (objs !! b) as [p|]; [|done]. simpl.
      destruct (decide _); [by rewrite Hf|done].
    + rewrite lookup_alter_ne by done. by rewrite (decide_ext (a ∈ addrs) (a ∈ b :: addrs)) by set_solver.
Qed.

Lemma map_omap_erase (f g : nat -> option Plugin) l :
  (forall a, erase <$> f a = erase <$> g a) -> map erase (omap f l) = map erase (omap g l).
Proof.
  intros H. induction l as [|a l IH]; [done|]. cbn [omap list_omap]. specialize (H a).
  destruct (f a) as [p|], (g a) as [q|]; try done. cbn [map]. assert (erase p = erase q) as -> by (by apply (inj Some)). by rewrite IH.
Qed.

Lemma SetStatus_ok id status s : plugins_ok s -> plugins_ok (Registry_SetStatus id status s).2.
Proof.
  intros [Hs Hok]. unfold Registry_SetStatus. destruct (rgPlugins (psRegistry s) !! id) as [vs|]; [|done]. cbn [snd].
  set (addrs := map snd (map_to_list vs)).
  match goal with |- plugins_ok ?x => set (s' := x) end.
  assert (forall a, psObjects s' !! a = (if decide (a ∈ addrs) then with_plugin_status status else Datatypes.id) <$> psObjects s !! a) as Ho
    by (intros a; by apply set_all_lookup).
  split; [done|]. split; try apply Hok.
  - intros id' v a Hr. destruct (po_objects s Hok id' v a Hr) as (Hb & p & Hp & H). split; [done|]. rewrite Ho, Hp. simpl.
    eexists. split; [done|]. by destruct (decide _).
  - intros a. rewrite Ho. intros H. apply (po_fresh s Hok). by destruct (psObjects s !! a).
  - intros id' v a p Hr. rewrite Ho. destruct (psObjects s !! a) as [q|] eqn:Eq; [|done]. simpl. intros [= <-].
    rewrite <-(po_marks s Hok _ _ _ _ Hr Eq). by destruct (decide _).
  - intros Hd. destruct (po_palettes s Hok Hd) as [H1 H2].
    assert (map erase (All s) = map erase (All s')) as E.
    { unfold All, allLocked. rewrite <-!sortPlugins_erase. f_equal. unfold plugins_at. apply map_omap_erase.
      intros a. rewrite Ho. destruct (psObjects s !! a) as [q|]; [|done]. simpl. by destruct (decide _). }
    change (rgStepPalette (psRegistry s')) with (rgStepPalette (psRegistry s)).
    change (rgToolPalette (psRegistry s')) with (rgToolPalette (psRegistry s)). rewrite H1, H2.
    split; f_equal; rewrite <-(build_erase (All s)), <-(build_erase (All s')), E; done.
Qed.

Lemma fill_palettes_ok s : plugins_ok s -> plugins_ok (fill_palettes s).
Proof. intros [Hs Hok]. split; [done|]. split; try apply Hok. intros _. done. Qed.

Lemma StepPalette_ok s : plugins_ok s -> plugins_ok (StepPalette s).2 /\ (StepPalette s).1 = buildPaletteCategories (All s) false.
Proof.
  intros Hok. unfold StepPalette. destruct (rgDirty (psRegistry s)) eqn:Ed; [split; [by apply fill_palettes_ok|done]|].
  destruct (rgStepPalette (psRegistry s)) as [c|] eqn:Ec; [|split; [by apply fill_palettes_ok|done]].
  split; [done|]. destruct (po_palettes s (proj2 Hok) Ed) as [H _]. cbn. congruence.
Qed.
Lemma ToolPalette_ok s : plugins_ok s -> plugins_ok (ToolPalette s).2 /\ (ToolPalette s).1 = buildPaletteCategories (All s) true.
Proof.
  intros Hok. unfold ToolPalette. destruct (rgDirty (psRegistry s)) eqn:Ed; [split; [by apply fill_palettes_ok|done]|].
  destruct (rgToolPalette (psRegistry s)) as [c|] eqn:Ec; [|split; [by apply fill_palettes_ok|done]].
  split; [done|]. destruct (po_palettes s (proj2 Hok) Ed) as [_ H]. cbn. congruence.
Qed.

(** ** Operations *)

Section Runtime.
Context `{R : Runtime}.
Context (loser_first : nat -> bool) (has_store : bool).
Context (yaml_map : string -> result goerr object) (yaml_manifest : string -> result goerr PluginManifest)
  (CompileModule : nat -> string -> result goerr unit)
  (InstantiateModule : nat -> option string -> result goerr Instance_)
  (result_text : StepResult -> string)
  (range_map : gmap string PropertyDef -> list (string * PropertyDef)).

Definition both_ok (a b : PSite) : Prop := plugins_ok (own a) -> plugins_ok (own b).
#[local] Instance both_ok_preorder : PreOrder both_ok.
Proof. split; [intros a H; exact H|]. intros a b c H1 H2 H. auto. Qed.

(** Rows and records of invocations are no part of the invariant. *)
Definition same_plugins (s s' : PluginState) : Prop :=
  psObjects s' = psObjects s /\ psNext s' = psNext s /\ psRegistry s' = psRegistry s /\ psPlugins s' = psPlugins s.

Lemma own_exec_ok {A} (run : nat -> Z -> PluginState -> result goerr (A * PluginState)) :
  (forall k now s a s', run k now s = Ok (a, s') -> same_plugins s s') -> keepsS both_ok (own_exec run).
Proof.
  intros H. apply keepsS_exec; [exact _|]. intros k now t a t' Hrun Hok. destruct (run k now (own t)) as [[a' o]|] eqn:E; [|done].
  injection Hrun as <- <-. cbn. destruct (H _ _ _ _ _ E) as (E1 & E2 & E3 & E4). by apply (plugins_ok_fields (own t)).
Qed.

Lemma locked_ok {A} (f : PluginState -> result goerr A * PluginState) :
  (forall s, plugins_ok s -> plugins_ok (f s).2) -> keepsS both_ok (locked f).
Proof. intros H w Hok. unfold locked. specialize (H (own (st w)) Hok). by destruct (f (own (st w))). Qed.

Lemma own_changes_ok f : (forall s, plugins_ok s -> plugins_ok (f s)) -> keepsS both_ok (changes (set_own f)).
Proof. intros H. apply keepsS_changes. intros t Hok. by apply H. Qed.

Lemma liftM_ok {A} (m : M A) : keepsS both_ok (liftM m).
Proof. intros w Hok. unfold liftM. by destruct (m _). Qed.

Lemma file_read_ok {A} (run : nat -> Z -> PSite -> result goerr (A * PSite)) :
  (forall k now s a s', run k now s = Ok (a, s') -> s' = s) -> keepsS both_ok (exec run).
Proof. intros H. apply keepsS_exec; [exact _|]. intros k now t a t' Hrun. by apply H in Hrun as ->. Qed.

Lemma os_Stat_ok path : keepsS both_ok (os_Stat path).
Proof. apply file_read_ok. by intros k now s a s' [= _ <-]. Qed.
Lemma os_ReadFile_ok path : keepsS both_ok (os_ReadFile path).
Proof. apply file_read_ok. intros k now s a s'. destruct (files s !! path); [|done]. by intros [= _ <-]. Qed.

Lemma UpsertPlugin_ok p : keepsS both_ok (UpsertPlugin p).
Proof.
  apply keepsS_wrap, own_exec_ok. intros k now s a s'. destruct (upsert_row now p (psRows s)); [|done]. by intros [= _ <-].
Qed.
Lemma SetLatestByPluginID_ok id v : keepsS both_ok (SetLatestByPluginID loser_first id v).
Proof. apply keepsS_wrap, own_exec_ok. intros k now s a s'. destruct (_ && _); [done|]. by intros [= _ <-]. Qed.
Lemma SetStatusByPluginID_ok id v : keepsS both_ok (SetStatusByPluginID id v).
Proof. apply keepsS_wrap, own_exec_ok. intros k now s a s'. destruct (_ && _); [done|]. by intros [= _ <-]. Qed.
Lemma DeleteByRef_ok ref : keepsS both_ok (DeleteByRef ref).
Proof. unfold DeleteByRef. case_match; apply keepsS_wrap, own_exec_ok; by intros k now s a s' [= _ <-]. Qed.
Lemma InsertInvocation_ok i : keepsS both_ok (InsertInvocation i).
Proof. apply keepsS_wrap, own_exec_ok. by intros k now s a s' [= _ <-]. Qed.
Lemma stored_ok m : keepsS both_ok m -> keepsS both_ok (stored has_store m).
Proof. intros H. unfold stored. destruct has_store; [by apply keepsS_ignore|apply keepsS_ret; exact _]. Qed.

Lemma markLatestLocked_ok id : keepsS both_ok (markLatestLocked loser_first has_store id).
Proof.
  unfold markLatestLocked. apply keepsS_bind; [exact _|apply own_changes_ok; intros s Hok; by rewrite mark_runtime_id|intros _].
  apply keepsS_bind; [exact _|apply keepsS_reads; exact _|intros l].
  apply keepsS_bind; [exact _|apply keepsS_for; [exact _|intros p; apply stored_ok, UpsertPlugin_ok]|intros _].
  destruct l; [apply keepsS_ret; exact _|apply stored_ok, SetLatestByPluginID_ok].
Qed.

Lemma putLoadedPlugin_ok p dir : blank (plVersion p) = false -> keepsS both_ok (putLoadedPlugin loser_first has_store p dir).
Proof.
  intros Hb w Hok. unfold putLoadedPlugin. unfold mbind at 1, Svc_bind at 1, locked at 1. cbn [new_plugin].
  destruct (new_plugin_ok p (own (st w)) Hok) as [H1 H2]. cbn [new_plugin fst snd] in H1, H2.
  match goal with |- plugins_ok (own (st (_ ?w1).2)) => set (w' := w1) end.
  unfold mbind at 1, Svc_bind at 1, locked at 1.
  pose proof (put_plugin_ok (psNext (own (st w))) p (own (st w')) H1 H2 Hb) as H3.
  destruct (put_plugin _ _ _) as [[[]|e] s2]; [|exact H3].
  match goal with |- plugins_ok (own (st (?m ?w2).2)) =>
    assert (keepsS both_ok m) as Hm; [|exact (Hm w2 H3)] end.
  apply keepsS_bind; [exact _|apply own_changes_ok; intros s Hs; by apply (plugins_ok_fields s)|intros _].
  apply keepsS_bind; [exact _|apply markLatestLocked_ok|intros _]. apply keepsS_ret. exact _.
Qed.

(** What a manifest is parsed to has a version. *)
Lemma parse_manifest_version raw m :
  parse_manifest yaml_map yaml_manifest raw = Ok m -> blank (mfVersion m.1) = false.
Proof.
  unfold parse_manifest. unfold mbind, result_bind. destruct (yaml_map raw); [|done]. destruct (yaml_manifest raw) as [m'|]; [|done].
  destruct (manifestErrors _) eqn:E; [|done]. intros [= <-]. cbn [fst applyManifestDefaults mfVersion with_metadata].
  unfold ValidateManifest in E. apply errors_app in E as [E _]. rewrite errors_required in E.
  unfold required_fields in E. rewrite !Forall_cons in E. cbn in E. unfold blank. apply bool_decide_eq_false. tauto.
Qed.

Lemma loadPluginArtifact_ok dir licence : keepsS both_ok (loadPluginArtifact yaml_map yaml_manifest CompileModule dir licence).
Proof.
  unfold loadPluginArtifact, ParseManifest. keeps_steps; try apply os_Stat_ok; try apply os_ReadFile_ok.
Qed.

Lemma loadPluginArtifact_version dir licence w p w' :
  loadPluginArtifact yaml_map yaml_manifest CompileModule dir licence w = (Ok p, w') -> blank (plVersion p) = false.
Proof.
  unfold loadPluginArtifact. intros H. apply bindS_inv in H as (there & w1 & _ & H).
  apply bindS_inv in H as (u & w2 & _ & H). apply bindS_inv in H as (wasm & w3 & _ & H).
  apply bindS_inv in H as (parsed & w4 & Hp & H). apply bindS_inv in H as (u' & w5 & _ & H).
  apply bindS_inv in H as (u'' & w6 & _ & H). injection H as <- <-. cbn [plVersion new_loaded].
  unfold ParseManifest in Hp. apply bindS_inv in Hp as (raw & w7 & _ & Hp). apply bindS_inv in Hp as (m & w8 & Hm & Hp).
  injection Hp as <- <-. unfold pureS in Hm. injection Hm as Hm _. by apply parse_manifest_version in Hm.
Qed.

Lemma Load_ok dir licence : keepsS both_ok (Load loser_first has_store yaml_map yaml_manifest CompileModule dir licence).
Proof.
  unfold Load. apply keepsS_bind_post; [exact _|apply loadPluginArtifact_ok|]. intros w p w' H.
  apply putLoadedPlugin_ok. by apply loadPluginArtifact_version in H.
Qed.

Lemma LoadAll_ok dir licence : keepsS both_ok (LoadAll loser_first has_store yaml_map yaml_manifest CompileModule dir licence).
Proof.
  unfold LoadAll. apply keepsS_bind; [exact _| |].
  - apply keepsS_wrap, file_read_ok. intros k now s a s'. destruct (directory_there dir (files s)); [|done]. by intros [= _ <-].
  - intros names. apply keepsS_for; [exact _|]. intros name. apply keepsS_ignore, Load_ok.
Qed.

Lemma Unload_ok ref : keepsS both_ok (Unload loser_first has_store ref).
Proof.
  intros w Hok. unfold Unload. unfold mbind at 1, Svc_bind at 1, reads.
  destruct (psPlugins (own (st w)) !! refID ref) as [vs|] eqn:E; [|done].
  destruct (decide (refVersion ref = "")).
  - unfold mbind, Svc_bind, locked. pose proof (unload_all_ok (refID ref) (own (st w)) Hok ltac:(eauto)) as H.
    unfold unload_all in *. cbn [fst snd] in *. refine (stored_ok _ (DeleteByRef_ok ref) _ _). exact H.
  - destruct (decide (vs !! refVersion ref = None)) as [|Hn]; [done|].
    unfold mbind at 1, Svc_bind at 1, locked at 1.
    assert (is_Some (versions_of (psPlugins (own (st w))) (refID ref) !! refVersion ref)) as Hv.
    { unfold versions_of. rewrite E. simpl. by apply not_eq_None_Some. }
    pose proof (unload_version_ok ref (own (st w)) Hok Hv) as H.
    destruct (unload_version ref (own (st w))) as [[left|e] s1]; [|exact H]. cbn [snd] in H.
    match goal with |- plugins_ok (own (st (?m ?w2).2)) => assert (keepsS both_ok m) as Hm; [|exact (Hm w2 H)] end.
    apply keepsS_bind; [exact _| |intros _; apply stored_ok, DeleteByRef_ok].
    destruct left; [apply markLatestLocked_ok|apply keepsS_ret; exact _].
Qed.

Lemma ByRef_registered ref s p :
  plugins_ok s -> ByRef ref s = Ok p -> exists v a, registered s (refID ref) v a /\ psObjects s !! a = Some p.
Proof.
  intros [_ Hok]. unfold ByRef. destruct (rgPlugins (psRegistry s) !! refID ref) as [vs|] eqn:E; [|done].
  destruct (decide (refVersion ref = "")).
  - rewrite (po_latest s Hok). destruct (head _) as [a|] eqn:Eh; [|done]. cbn. destruct (psObjects s !! a) as [q|] eqn:Ea; [|done].
    intros [= ->]. apply head_Some_elem_of, elem_sorted_addresses in Eh as (v & Hv). exists v, a.
    split; [by apply registered_versions|done].
  - destruct (vs !! refVersion ref) as [a|] eqn:Ev; [|done]. cbn. destruct (psObjects s !! a) as [q|] eqn:Ea; [|done].
    intros [= ->]. exists (refVersion ref), a. split; [by exists vs|done].
Qed.

Lemma schemaImpact_ok id l : keepsS both_ok (schemaImpact has_store id l).
Proof.
  unfold schemaImpact. destruct has_store; [|apply keepsS_ret; exact _].
  apply keepsS_wrap, keepsS_wrap, liftM_ok.
Qed.

Lemma report_changes_ok current loaded l : keepsS both_ok (report_changes has_store current loaded l).
Proof.
  unfold report_changes. keeps_steps; [apply schemaImpact_ok|].
  apply own_changes_ok. intros s Hs. by apply (plugins_ok_fields s).
Qed.

Lemma Reload_ok ref :
  keepsS both_ok (Reload loser_first has_store yaml_map yaml_manifest CompileModule range_map ref).
Proof.
  intros w Hok. unfold Reload. unfold mbind at 1, Svc_bind at 1, Get_plugin.
  destruct (ByRef ref (own (st w))) as [current|e] eqn:E; [|done].
  destruct (ByRef_registered ref _ _ Hok E) as (v & a & Hr & Hp).
  destruct (po_objects _ (proj2 Hok) _ _ _ Hr) as (Hb & p & Hp' & _ & Hv). rewrite Hp in Hp'. injection Hp' as <-.
  assert (blank (plVersion current) = false) as Hbc by (by rewrite Hv). clear v a Hr Hp Hb Hv E.
  match goal with |- plugins_ok (own (st (?m ?w2).2)) => assert (keepsS both_ok m) as Hm; [|exact (Hm w2 Hok)] end.
  cbv zeta. apply keepsS_bind; [exact _|apply keepsS_reads; exact _|intros dir].
  apply keepsS_bind; [exact _|apply keepsS_guard; exact _|intros _].
  apply keepsS_bind_post; [exact _|apply keepsS_wrap, loadPluginArtifact_ok|]. intros w1 loaded w2 Hl.
  apply wrapS_inv in Hl. apply loadPluginArtifact_version in Hl.
  apply keepsS_bind; [exact _|apply keepsS_wrap, Unload_ok|intros _].
  apply keepsS_bind; [exact _|apply keepsS_try, putLoadedPlugin_ok; done|intros [a|e]].
  - apply report_changes_ok.
  - apply keepsS_bind; [exact _|apply keepsS_ignore, putLoadedPlugin_ok; done|intros _; apply keepsS_fail; exact _].
Qed.

Lemma Runtime_SetStatus_ok id status : keepsS both_ok (SetStatus has_store id status).
Proof.
  unfold SetStatus. apply keepsS_bind; [exact _|apply locked_ok; intros s Hs; by apply SetStatus_ok|intros _].
  apply keepsS_bind; [exact _|apply keepsS_reads; exact _|intros l].
  apply keepsS_bind; [exact _|apply keepsS_for; [exact _|intros p; apply stored_ok, UpsertPlugin_ok]|intros _].
  apply stored_ok, SetStatusByPluginID_ok.
Qed.

Lemma recordInvocation_ok p i out start status e : keepsS both_ok (recordInvocation has_store p i out start status e).
Proof.
  unfold recordInvocation. apply keepsS_bind; [exact _|apply keepsS_now; exact _|intros now].
  destruct (bool_decide _); [apply keepsS_ret; exact _|apply stored_ok, InsertInvocation_ok].
Qed.

Lemma Get_plugin_ok ref : keepsS both_ok (Get_plugin ref).
Proof. intros w Hok. exact Hok. Qed.

Lemma ExecuteStep_ok ref i : keepsS both_ok (ExecuteStep has_store InstantiateModule result_text ref i).
Proof.
  unfold ExecuteStep. keeps_steps; try apply Get_plugin_ok; try apply recordInvocation_ok.
Qed.

Lemma set_stops_ok f : keepsS both_ok (changes (set_own (set_stops f))).
Proof. apply own_changes_ok. intros s Hs. by apply (plugins_ok_fields s). Qed.

(** The calls of the runtime. *)
Inductive plugin_op : Type :=
| OpLoad (dir : string) (licence : option (string -> bool))
| OpLoadAll (dir : string) (licence : option (string -> bool))
| OpRegisterVirtual (p : Plugin)
| OpUnload (ref : PluginRef)
| OpReload (ref : PluginRef)
| OpSetStatus (id status : string)
| OpStepPalette
| OpToolPalette
| OpExecute (ref : PluginRef) (i : StepInput)
| OpStartTrigger (ref : PluginRef)
| OpStopTrigger (ref : PluginRef).

Definition run_plugin_op (op : plugin_op) : PSvc unit :=
  match op with
  | OpLoad dir l => ignoreS (Load loser_first has_store yaml_map yaml_manifest CompileModule dir l)
  | OpLoadAll dir l => ignoreS (LoadAll loser_first has_store yaml_map yaml_manifest CompileModule dir l)
  | OpRegisterVirtual p => ignoreS (RegisterVirtual loser_first has_store p)
  | OpUnload ref => ignoreS (Unload loser_first has_store ref)
  | OpReload ref => ignoreS (Reload loser_first has_store yaml_map yaml_manifest CompileModule range_map ref)
  | OpSetStatus id status => ignoreS (SetStatus has_store id status)
  | OpStepPalette => ignoreS (locked (fun s => let '(c, s) := StepPalette s in (Ok c, s)))
  | OpToolPalette => ignoreS (locked (fun s => let '(c, s) := ToolPalette s in (Ok c, s)))
  | OpExecute ref i => ignoreS (ExecuteStep has_store InstantiateModule result_text ref i)
  | OpStartTrigger ref => ignoreS (StartTrigger ref)
  | OpStopTrigger ref => ignoreS (StopTrigger ref)
  end.
(** A virtual plugin is registered under a version. *)
Definition versioned (op : plugin_op) : Prop :=
  match op with OpRegisterVirtual p => blank (plVersion p) = false | _ => True end.

Lemma run_plugin_op_ok op : versioned op -> keepsS both_ok (run_plugin_op op).
Proof.
  intros Hv. destruct op; cbn [run_plugin_op]; apply keepsS_ignore.
  - apply Load_ok.
  - apply LoadAll_ok.
  - by apply putLoadedPlugin_ok.
  - apply Unload_ok.
  - apply Reload_ok.
  - apply Runtime_SetStatus_ok.
  - apply locked_ok. intros s Hs. destruct (StepPalette_ok s Hs) as [H _]. by destruct (StepPalette s).
  - apply locked_ok. intros s Hs. destruct (ToolPalette_ok s Hs) as [H _]. by destruct (ToolPalette s).
  - apply ExecuteStep_ok.
  - unfold StartTrigger. keeps_steps; [apply Get_plugin_ok|]. intros w Hok. by apply (plugins_ok_fields (own (st w))).
  - unfold StopTrigger. keeps_steps; [apply Get_plugin_ok|apply set_stops_ok].
Qed.

Definition no_plugins : PluginState := mkPluginState ∅ 0 ∅ NewPluginRegistry ∅ ∅ ∅ ∅ [].

Lemma no_plugins_ok : plugins_ok no_plugins.
Proof.
  assert (forall id v a, ~ registered no_plugins id v a) as Hr by (by intros id v a (vs & H & _)).
  split; [done|]. split; try done.
  all: try (intros id v a H; by destruct (Hr id v a)).
  all: try (intros id v a p H; by destruct (Hr id v a)).
  by intros a [p H].
Qed.

Lemma run_ops_ok ops w : plugins_ok (own (st w)) -> Forall versioned ops -> plugins_ok (own (st (forS run_plugin_op ops w).2)).
Proof.
  intros Hok Hv. revert w Hok. induction Hv as [|op ops Hop Hv IH]; intros w Hok; [exact Hok|]. cbn [forS].
  unfold mbind, Svc_bind. pose proof (run_plugin_op_ok op Hop w Hok) as H.
  assert (exists w1, run_plugin_op op w = (Ok tt, w1)) as [w1 E] by (destruct op; cbn [run_plugin_op]; unfold ignoreS; eauto).
  rewrite E in *. by apply IH.
Qed.

(** C37. Whatever sequence of loads, unloads, reloads, changes of status and runs is
    made, with whatever failures of files and statements: the runtime and its
    registry have the same plugins; a plugin that is loaded in any version has
    exactly one version that is marked as the latest, and a reference without a
    version finds it; and when all versions of the plugin are version numbers,
    none is newer. *)
Theorem plugin_registry_invariant ops w id vs :
  own (st w) = no_plugins -> Forall versioned ops ->
  let s := own (st (forS run_plugin_op ops w).2) in
  rgPlugins (psRegistry s) !! id = Some vs ->
  psPlugins s !! id = Some vs /\
  exists v a p, vs !! v = Some a /\ psObjects s !! a = Some p /\ plID p = id /\ plVersion p = v /\
    ByRef (mkPluginRef id "") s = Ok p /\
    (forall v' a' p', vs !! v' = Some a' -> psObjects s !! a' = Some p' -> plIsLatest p' = bool_decide (v' = v)) /\
    ((forall v', is_Some (vs !! v') -> is_version v') ->
     forall v', is_Some (vs !! v') -> version_after v' v = false).
Proof.
  intros Hw Hv s Hid. assert (plugins_ok s) as [Hs Hok].
  { apply run_ops_ok; [|done]. rewrite Hw. apply no_plugins_ok. }
  split; [by rewrite Hs|]. pose proof (po_nonempty s Hok id vs Hid) as Hne.
  assert (versions_of (rgPlugins (psRegistry s)) id = vs) as Ev by (unfold versions_of; by rewrite Hid).
  destruct (head (sorted_addresses vs)) as [a|] eqn:Eh.
  2: { apply head_None in Eh. by apply sorted_addresses_nil in Eh. }
  assert (exists v, vs !! v = Some a) as [v Hva] by (by apply elem_sorted_addresses, head_Some_elem_of).
  assert (registered s id v a) as Hreg by (by exists vs).
  destruct (po_objects s Hok id v a Hreg) as (_ & p & Hp & Hpid & Hpv).
  exists v, a, p. split_and!; try done.
  - unfold ByRef. cbn [refID refVersion]. rewrite Hid, decide_True, (po_latest s Hok), Ev, Eh by done. cbn. by rewrite Hp.
  - intros v' a' p' Hv' Hp'. assert (registered s id v' a') as Hr' by (by exists vs).
    rewrite (po_marks s Hok _ _ _ _ Hr' Hp'), (po_latest s Hok), Ev, Eh. apply bool_decide_ext. split.
    + intros [= ->]. by destruct (registered_inj s id v' id v a Hok Hr' Hreg).
    + intros ->. congruence.
  - intros Hall v' Hv'. destruct (sorted_first vs a Hall Eh) as (v2 & Hv2 & Hmax).
    assert (v2 = v) as -> by (destruct (registered_inj s id v2 id v a Hok); [by exists vs|done|done]). by apply Hmax.
Qed.

(** The palettes are kept between calls, and still a palette is always the one
    that would be built from the plugins at hand. *)
Theorem palettes_fresh ops w :
  own (st w) = no_plugins -> Forall versioned ops ->
  let s := own (st (forS run_plugin_op ops w).2) in
  (StepPalette s).1 = buildPaletteCategories (All s) false /\ (ToolPalette s).1 = buildPaletteCategories (All s) true.
Proof.
  intros Hw Hv s. assert (plugins_ok s) as Hok by (apply run_ops_ok; [rewrite Hw; apply no_plugins_ok|done]).
  split; [by apply StepPalette_ok|by apply ToolPalette_ok].
Qed.

(** A step runs only in an active plugin, on the module the reference finds; the
    result is what the module gives for the input. *)
Theorem ExecuteStep_active ref i w r w' :
  ExecuteStep has_store InstantiateModule result_text ref i w = (Ok r, w') ->
  exists p k inst, ByRef ref (own (st w)) = Ok p /\ plStatus p = PluginActive /\
    InstantiateModule k (plModule p) = Ok inst /\ executeModule inst (siData i) = Ok r.
Proof.
  unfold ExecuteStep. intros H. apply bindS_inv in H as (p & w1 & Hp & H). unfold Get_plugin in Hp. injection Hp as Hp <-.
  destruct (bool_decide_reflect (plStatus p = PluginActive)) as [Ha|]; [|done]. cbn [negb] in H.
  apply bindS_inv in H as (start & w2 & _ & H). apply bindS_inv in H as (inst & w3 & Hi & H).
  unfold tryS, callS in Hi. injection Hi as Hi <-.
  destruct inst as [inst|e]; [|by apply bindS_inv in H as (u & w4 & _ & H)].
  destruct (executeModule inst (siData i)) as [r'|e] eqn:Er; [|by apply bindS_inv in H as (u & w4 & _ & H)].
  apply bindS_inv in H as (u & w4 & _ & H). injection H as <- <-. exists p, (ticks w2), inst. split_and!; try done.
Qed.
End Runtime.

(** ** Examples *)

Module RegistryExample.
Definition blank_manifest : PluginManifest :=
  mkPluginManifest "" "" "" "" "" "" "" "" "" true "" "" (mkManifestUI "" "" "" []) [] None None None None None [].
Definition mail (version : string) : Plugin :=
  mkPlugin "mail" "Mail" version "step" "Messages" "open_source" "core" true "" blank_manifest None "" "" false "" "".
Definition start : Sys PSite := mkSys (mkSite (mkWorld (mkDB ∅ ∅ [] ∅ ∅ [] ∅ ∅ ∅ ∅) None 0 0 [] [] []) ∅ no_plugins) 0.
Definition ops : list plugin_op :=
  [OpRegisterVirtual (mail "1.0.0"); OpStepPalette; OpRegisterVirtual (mail "1.1.0"); OpSetStatus "mail" "disabled"].
Definition no_yaml {A} (s : string) : result goerr A := Err (Errorf "yaml" []).
Definition text_of (r : StepResult) : string := srStatus r.
(** A module whose [Execute] takes nothing and gives 7. *)
Definition seven : Instance_ :=
  mkInstance (fun n => if decide (n = "Execute") then Some (mkWasmFunction 0 (fun m _ => (Ok [7%Z], m))) else None) None.
Definition run (ops : list plugin_op) : Sys PSite :=
  (forS (@run_plugin_op example_runtime (fun _ => true) true no_yaml no_yaml (fun _ _ => Ok tt) (fun _ _ => Ok seven)
           text_of map_to_list) ops start).2.
Definition after : PluginState := own (st (run ops)).

Lemma plugin_registry_invariant_witness :
  exists vs v a p, rgPlugins (psRegistry after) !! "mail" = Some vs /\ vs !! v = Some a /\
    psObjects after !! a = Some p /\ ByRef (mkPluginRef "mail" "") after = Ok p.
Proof.
  destruct (rgPlugins (psRegistry after) !! "mail") as [vs|] eqn:E; [|vm_compute in E; discriminate].
  destruct (@plugin_registry_invariant example_runtime (fun _ => true) true no_yaml no_yaml (fun _ _ => Ok tt)
    (fun _ _ => Ok seven) text_of map_to_list ops start "mail" vs eq_refl
    ltac:(repeat constructor) E) as (_ & v & a & p & H1 & H2 & _ & _ & H3 & _).
  exact (ex_intro _ vs (ex_intro _ v (ex_intro _ a (ex_intro _ p (conj eq_refl (conj H1 (conj H2 H3))))))).
Defined.

Lemma palettes_fresh_witness :
  (StepPalette after).1 = buildPaletteCategories (All after) false /\
  map (fun c => (pgName c, map peVersion (pgPlugins c))) (StepPalette after).1 = [("Messages", ["1.1.0"; "1.0.0"])].
Proof.
  destruct (@palettes_fresh example_runtime (fun _ => true) true no_yaml no_yaml (fun _ _ => Ok tt)
    (fun _ _ => Ok seven) text_of map_to_list ops start eq_refl ltac:(repeat constructor)) as [H _].
  split; [exact H|vm_compute; reflexivity].
Defined.

Definition active : Sys PSite := run [OpRegisterVirtual (mail "1.0.0")].
Definition input : StepInput := mkStepInput uuid_Nil uuid_Nil "send" "" 0.
Lemma ExecuteStep_active_witness :
  exists r w' p, @ExecuteStep example_runtime true (fun _ _ => Ok seven) text_of (mkPluginRef "mail" "") input active = (Ok r, w') /\
    ByRef (mkPluginRef "mail" "") (own (st active)) = Ok p /\ plStatus p = PluginActive.
Proof.
  destruct (@ExecuteStep example_runtime true (fun _ _ => Ok seven) text_of (mkPluginRef "mail" "") input active)
    as [[r|e] w'] eqn:E.
  - destruct (@ExecuteStep_active example_runtime true (fun _ _ => Ok seven) text_of (mkPluginRef "mail" "") input active
      r w' E) as (p & _ & _ & H1 & H2 & _).
    exact (ex_intro _ r (ex_intro _ w' (ex_intro _ p (conj eq_refl (conj H1 H2))))).
  - exfalso. apply (f_equal (fun x => is_ok x.1)) in E. vm_compute in E. discriminate.
Defined.

(** The row of the new latest version is written while the row of the old one is
    still marked: the index refuses it, the error is dropped, and then the mark
    is taken from the old row. No failure of the database is needed. *)
Theorem latest_row_lost :
  let s := own (st (run [OpRegisterVirtual (mail "1.0.0"); OpRegisterVirtual (mail "1.1.0")])) in
  (plVersion <$> match ByRef (mkPluginRef "mail" "") s with Ok p => Some p | Err _ => None end) = Some "1.1.0" /\
  psRows s !! ("mail", "1.1.0") = None /\ prIsLatest <$> psRows s !! ("mail", "1.0.0") = Some false.
Proof. vm_compute. split_and!; reflexivity. Qed.

(** A commercial plugin in a directory. *)
Definition manifest : PluginManifest :=
  mkPluginManifest "mail" "Mail" "1.0.0" "step" "Messages" "commercial" "community" "0.0.1" "" false "" ""
    (mkManifestUI "" "" "" []) [] None None None None None [].
Definition dir_files : gmap string string :=
  {[ "/plugins/mail/manifest.yaml" := "id: mail"; "/plugins/mail/plugin.wasm" := "code" ]}.
Definition licensed (allowed : bool) : option (string -> bool) := Some (fun _ => allowed).
Definition loaded_after (ops : list plugin_op) : option (string * option string) :=
  match ByRef (mkPluginRef "mail" "1.0.0")
    (own (st (forS (@run_plugin_op example_runtime (fun _ => true) true (fun _ => Ok []) (fun _ => Ok manifest)
       (fun _ _ => Ok tt) (fun _ _ => Ok seven) text_of map_to_list) ops
       (mkSys (mkSite (mkWorld (mkDB ∅ ∅ [] ∅ ∅ [] ∅ ∅ ∅ ∅) None 0 0 [] [] []) dir_files no_plugins) 0)).2)) with
  | Ok p => Some (plStatus p, plModule p)
  | Err _ => None
  end.

(** Without a licence a commercial plugin is not loaded; a reload of a plugin that
    is disabled loads it anew without asking for one, and makes it active. *)
Theorem reload_reactivates :
  let ref := mkPluginRef "mail" "1.0.0" in
  loaded_after [OpLoadAll "/plugins" (licensed false)] = None /\
  loaded_after [OpLoadAll "/plugins" (licensed true); OpSetStatus "mail" "disabled"] = Some ("disabled", Some "code") /\
  loaded_after [OpLoadAll "/plugins" (licensed true); OpSetStatus "mail" "disabled"; OpReload ref] = Some ("active", Some "code").
Proof. vm_compute. split_and!; reflexivity. Qed.
End RegistryExample.
