(* ===== verification/ChannelRunners.v ===== *)
(** * Channels: runners and manager ([runners.go], [manager.go], [api.go])

    A runner polls a mailbox or a directory and delivers what it finds. The
    mailbox is a driver outside this component: its calls are functions of the
    counter of uses, and a poll gives the commands it sent. A loop runs under the
    context it was started with: the manager's state has the loops that run, and
    a context can end at any time. *)

From S2P Require Import Prelude GoStrings Json EngineTypes Store AuditTrail EngineOps TaskForms CaseData CaseOps.
From S2P Require Import GoText Effects Triggers JsonText GoPath Site VaultStore Channels ChannelStore ChannelPipeline ChannelIntake Plugins.

(** ** [filepath.Match]

    [DecodeRuneInString]: the rune at the front and its bytes; an invalid byte is
    a rune of its own. *)

Definition byte (a : ascii) : Z := Z.of_N (N_of_ascii a).
Definition RuneError : Z := 65533.
Definition continuation (a : ascii) : bool := (128 <=? byte a)%Z && (byte a <=? 191)%Z.
Definition payload_bits (a : ascii) : Z := (byte a mod 64)%Z.

Definition decode_rune (s : string) : Z * nat :=
  match s with
  | EmptyString => (RuneError, 0%nat)
  | String a s1 =>
      let x := byte a in
      if (x <? 128)%Z then (x, 1%nat)
      else match s1 with
           | String b s2 =>
               if (194 <=? x)%Z && (x <=? 223)%Z && continuation b then ((x mod 32) * 64 + payload_bits b, 2%nat)%Z
               else match s2 with
                    | String c s3 =>
                        let r3 := ((x mod 16) * 4096 + payload_bits b * 64 + payload_bits c)%Z in
                        if (224 <=? x)%Z && (x <=? 239)%Z && continuation b && continuation c && (2048 <=? r3)%Z &&
                           negb ((55296 <=? r3)%Z && (r3 <=? 57343)%Z) then (r3, 3%nat)
                        else match s3 with
                             | String d _ =>
                                 let r4 := ((x mod 8) * 262144 + payload_bits b * 4096 + payload_bits c * 64 + payload_bits d)%Z in
                                 if (240 <=? x)%Z && (x <=? 244)%Z && continuation b && continuation c && continuation d &&
                                    (65536 <=? r4)%Z && (r4 <=? 1114111)%Z then (r4, 4%nat)
                                 else (RuneError, 1%nat)
                             | EmptyString => (RuneError, 1%nat)
                             end
                    | EmptyString => (RuneError, 1%nat)
                    end
           | EmptyString => (RuneError, 1%nat)
           end
  end.

Inductive glob : Type :=
| GStar
| GAny
| GClass (negated : bool) (ranges : list (Z * Z))
| GByte (a : ascii).

(** A character of a class, possibly escaped; something has to follow it. *)
Definition getEsc (chunk : string) : option (Z * string) :=
  match chunk with
  | EmptyString => None
  | String a rest =>
      if decide (a = "-"%char \/ a = "]"%char) then None
      else
        let chunk := if decide (a = "\"%char) then rest else chunk in
        let '(r, n) := decode_rune chunk in
        if decide (chunk = "") then None
        else if bool_decide (r = RuneError) && bool_decide (n = 1%nat) then None
        else let chunk := drop_str n chunk in if decide (chunk = "") then None else Some (r, chunk)
  end.

(** The ranges of a class up to its end; the fuel is the length. *)
Fixpoint class_ranges (fuel : nat) (chunk : string) (some : bool) : option (list (Z * Z) * string) :=
  match fuel with
  | O => None
  | S fuel =>
      if HasPrefix chunk "]" && some then Some ([], drop_str 1 chunk)
      else
        '(lo, chunk) ← getEsc chunk;
        '(hi, chunk) ← (if HasPrefix chunk "-" then getEsc (drop_str 1 chunk) else Some (lo, chunk));
        '(l, rest) ← class_ranges fuel chunk true;
        Some ((lo, hi) :: l, rest)
  end.

Fixpoint parse_pattern (fuel : nat) (p : string) : option (list glob) :=
  match fuel with
  | O => None
  | S fuel =>
      match p with
      | EmptyString => Some []
      | String a rest =>
          if decide (a = "*"%char) then (GStar ::.) <$> parse_pattern fuel rest
          else if decide (a = "?"%char) then (GAny ::.) <$> parse_pattern fuel rest
          else if decide (a = "["%char) then
            let negated := HasPrefix rest "^" in
            '(ranges, rest) ← class_ranges (String.length p) (if negated then drop_str 1 rest else rest) false;
            (GClass negated ranges ::.) <$> parse_pattern fuel rest
          else if decide (a = "\"%char) then
            match rest with
            | EmptyString => None
            | String b rest => (GByte b ::.) <$> parse_pattern fuel rest
            end
          else (GByte a ::.) <$> parse_pattern fuel rest
      end
  end.

Fixpoint glob_match (p : list glob) : string -> bool :=
  match p with
  | [] => fun s => bool_decide (s = "")
  | GStar :: p' =>
      (fix star (s : string) : bool :=
         glob_match p' s || match s with String a s' => negb (bool_decide (a = slash)) && star s' | EmptyString => false end)
  | GAny :: p' => fun s =>
      match s with
      | EmptyString => false
      | String a _ => negb (bool_decide (a = slash)) && glob_match p' (drop_str (decode_rune s).2 s)
      end
  | GClass negated ranges :: p' => fun s =>
      if decide (s = "") then false
      else
        let '(r, n) := decode_rune s in
        negb (Bool.eqb negated (existsb (fun lh => (lh.1 <=? r)%Z && (r <=? lh.2)%Z) ranges)) && glob_match p' (drop_str n s)
  | GByte a :: p' => fun s =>
      match s with
      | EmptyString => false
      | String b s' => bool_decide (a = b) && glob_match p' s'
      end
  end.

(** [match, _ := filepath.Match(...)]: a bad pattern matches nothing. *)
Definition Match (pattern name : string) : bool :=
  match parse_pattern (S (String.length pattern)) pattern with Some p => glob_match p name | None => false end.

Example globs :
  (Match "*.csv" "a.csv", Match "*.csv" "a.txt", Match "[a-c]?\*" "bz*", Match "[^x]" "x", Match "[" "[", Match "*a*b" "xaab") =
  (true, false, true, false, false, true).
Proof. vm_compute. reflexivity. Qed.

Definition matchesPatterns (name : string) (patterns : list string) : bool :=
  bool_decide (patterns = []) || existsb (fun pattern => Match (TrimSpace pattern) name) patterns.

(** ** Paths *)

Definition isSafeSubpath (cwd root target : string) : bool :=
  match Rel (Abs cwd root) (Abs cwd target) with
  | Ok rel => bool_decide (rel = ".") || (negb (HasPrefix rel "..") && negb (bool_decide (rel = "")))
  | Err _ => false
  end.

(** The files in a directory that is given by its elements, by name. Files are
    known by their absolute paths. *)
Definition files_in (dir : list string) (fs : gmap string string) : list string :=
  merge_sort text_le (remove_dups (omap (fun kv : string * string =>
    if IsAbs kv.1 then match strip_common dir (elements kv.1) with ([], [name]) => Some name | _ => None end else None)
    (map_to_list fs))).

Section Runners.
Context `{R : Runtime}.
Context (cwd : string) (torn : nat -> string -> option string) (TypeByExtension : string -> string)
  (FormatFloat : Qc -> string).

(** The file that a path names. *)
Definition at_path (path : string) : string := Abs cwd path.

Definition os_ReadDir_files (dir : string) : CSvc (list string) :=
  exec (fun _ _ s => if decide (dir = "") then Err (Wrapf "open %s: %w" [dir] ENOENT)
                     else Ok (files_in (elements (at_path dir)) (files s), s)).
(** Whether [os.Stat] finds a file or a directory. *)
Definition os_found (path : string) : CSvc bool :=
  exec (fun _ _ s => Ok (bool_decide (is_Some (files s !! at_path path)) || directory_there (at_path path) (files s), s)).
Definition os_MkdirAll_at (path : string) : CSvc unit :=
  if decide (path = "") then fail (Wrapf "mkdir %s: %w" [path] ENOENT) else os_MkdirAll.
(** [os.Rename]: a file that is there is replaced, a directory is not. *)
Definition EISDIR : goerr := Errorf "file exists" [].
Definition os_Rename (src dst : string) : CSvc unit :=
  exec (fun _ _ s => match files s !! at_path src with
                     | None => Err (Wrapf "rename %s %s: %w" [src; dst] ENOENT)
                     | Some data => if directory_there (at_path dst) (files s)
                                    then Err (Wrapf "rename %s %s: %w" [src; dst] EISDIR)
                                    else Ok (tt, set_files (fun fs => <[at_path dst := data]> (delete (at_path src) fs)) s)
                     end).

(** [pipeline == nil] *)
Context (pipeline : option (ChannelRequest -> CSvc PipelineResult)).

(** ** File drops *)

Definition newline : string := String (ascii_of_nat 10) "".
Definition errors_dir (watchPath : string) : string := JoinPath watchPath "errors".
Definition moveToError (watchPath src : string) (cause : goerr) : CSvc unit :=
  let errorDir := errors_dir watchPath in
  if negb (isSafeSubpath cwd watchPath errorDir) || negb (isSafeSubpath cwd watchPath src)
  then fail (Errorf "unsafe error move path" [])
  else
    _ ← os_MkdirAll_at errorDir;
    let base := Base src in
    _ ← os_Rename src (JoinPath errorDir base);
    os_WriteFile torn (at_path (JoinPath errorDir (base +:+ ".error.log"))) (Error cause +:+ newline).

Definition drop_payload (name data contentType : string) : string :=
  Marshal FormatFloat (JObj [("content_type", JStr contentType); ("filename", JStr name);
                             ("size", JInt (Z.of_nat (String.length data)))]).
Definition drop_request (tenantID channelID : uuid) (name data : string) : ChannelRequest :=
  let contentType := TypeByExtension (Ext name) in
  mkChannelRequest tenantID channelID (drop_payload name data contentType)
    [mkAttachmentInput name contentType data] "file_drop" uuid_Nil None.

(** Deliver a file and move it. *)
Definition drop_delivery (process : ChannelRequest -> CSvc PipelineResult) (tenantID channelID : uuid)
    (cfg : FileDropConfig) (name : string) : CSvc unit :=
  let src := JoinPath (fdWatchPath cfg) name in
  let dst := JoinPath (fdProcessedPath cfg) name in
  read ← tryS (os_ReadFile (at_path src));
  match read with
  | Err _ => mret tt
  | Ok data =>
      out ← tryS (process (drop_request tenantID channelID name data));
      match out with
      | Err e => ignoreS (moveToError (fdWatchPath cfg) src e)
      | Ok _ => ignoreS (os_Rename src dst)
      end
  end.

(** The body of the loop over the entries of the directory. *)
Definition drop_file (process : ChannelRequest -> CSvc PipelineResult) (tenantID channelID : uuid) (cfg : FileDropConfig)
    (name : string) : CSvc unit :=
  let src := JoinPath (fdWatchPath cfg) name in
  let dst := JoinPath (fdProcessedPath cfg) name in
  if negb (matchesPatterns name (fdFilePatterns cfg)) then mret tt
  else if negb (isSafeSubpath cwd (fdWatchPath cfg) src) || negb (isSafeSubpath cwd (fdProcessedPath cfg) dst) then mret tt
  else
    there ← tryS (os_found dst);
    match there with
    | Ok true => mret tt
    | _ => drop_delivery process tenantID channelID cfg name
    end.

Definition FileDrop_pollOnce (tenantID channelID : uuid) (cfg : FileDropConfig) : CSvc unit :=
  match pipeline with
  | None => mret tt
  | Some process =>
      entries ← tryS (os_ReadDir_files (fdWatchPath cfg));
      match entries with
      | Err _ => mret tt
      | Ok names => forS (drop_file process tenantID channelID cfg) names
      end
  end.

(** What [Start] does before the loop. *)
Definition FileDrop_prepare (cfg : FileDropConfig) : CSvc unit :=
  if negb (isSafeSubpath cwd (fdWatchPath cfg) (fdWatchPath cfg)) then fail (Errorf "invalid watch path" [])
  else if negb (isSafeSubpath cwd (fdProcessedPath cfg) (fdProcessedPath cfg)) then fail (Errorf "invalid processed path" [])
  else if negb (isSafeSubpath cwd (fdWatchPath cfg) (fdProcessedPath cfg))
  then fail (Errorf "processed path must resolve under watch path" [])
  else
    _ ← os_MkdirAll_at (fdProcessedPath cfg);
    os_MkdirAll_at (errors_dir (fdWatchPath cfg)).

(** ** E-mail *)

Record IMAPConfig : Type := mkIMAPConfig {
  icHost : string; icPort : Z; icUsername : string; icPassword : string; icTLS : bool
}.
(** The date is the text that [encoding/json] makes of it. *)
Record IMAPMessage : Type := mkIMAPMessage {
  imUID : string; imSubject : string; imFrom : string; imDate : string; imBodyText : string; imBodyHTML : string;
  imSeen : bool; imRawHeader : string -> string
}.
Record IMAPDriver : Type := mkIMAPDriver {
  imapConnect : nat -> IMAPConfig -> result goerr unit;
  imapFetch : nat -> string -> Z -> result goerr (list IMAPMessage)
}.
(** What a poll asks the mailbox to do. *)
Inductive mail_command : Type := MarkRead (mailbox uid : string) | DeleteMail (mailbox uid : string) | CloseMail.

Context (imap : option IMAPDriver) (SecretStore : option (uuid -> string -> CSvc string)).

Definition mail_payload (m : IMAPMessage) : string :=
  Marshal FormatFloat (JObj [("body_html", JStr (imBodyHTML m)); ("body_text", JStr (imBodyText m)); ("date", JStr (imDate m));
    ("from", JStr (imFrom m)); ("message_id", JStr (TrimSpace (imRawHeader m "Message-ID"))); ("subject", JStr (imSubject m))]).
Definition mail_request (tenantID channelID : uuid) (m : IMAPMessage) : ChannelRequest :=
  mkChannelRequest tenantID channelID (mail_payload m) [] "email" uuid_Nil None.

Definition mail_done (cfg : EmailConfig) (m : IMAPMessage) : list mail_command :=
  (if emMarkAsRead cfg then [MarkRead (emMailbox cfg) (imUID m)] else []) ++
  (if emDeleteAfterProcess cfg then [DeleteMail (emMailbox cfg) (imUID m)] else []).

Definition poll_message (process : ChannelRequest -> CSvc PipelineResult) (tenantID channelID : uuid) (cfg : EmailConfig)
    (sent : list mail_command) (m : IMAPMessage) : CSvc (list mail_command) :=
  if imSeen m then mret sent
  else
    out ← tryS (process (mail_request tenantID channelID m));
    match out with
    | Err _ => mret sent
    | Ok _ => mret (sent ++ mail_done cfg m)
    end.

Definition email_session (process : ChannelRequest -> CSvc PipelineResult) (driver : IMAPDriver) (tenantID channelID : uuid)
    (cfg : EmailConfig) : CSvc (list mail_command) :=
  fetched ← tryS (callS (fun k => imapFetch driver k (emMailbox cfg) 50));
  sent ← match fetched with
         | Err _ => mret []
         | Ok messages => foldS (poll_message process tenantID channelID cfg) messages []
         end;
  mret (sent ++ [CloseMail]).

Definition Email_pollOnce (tenantID channelID : uuid) (cfg : EmailConfig) : CSvc (list mail_command) :=
  match imap, pipeline, SecretStore with
  | Some driver, Some process, Some secret =>
      login ← tryS (username ← secret tenantID (emUsernameSecret cfg);
                    password ← secret tenantID (emPasswordSecret cfg);
                    callS (fun k => imapConnect driver k
                      (mkIMAPConfig (emHost cfg) (emPort cfg) username password (emTLS cfg))));
      match login with
      | Err _ => mret []
      | Ok _ => email_session process driver tenantID channelID cfg
      end
  | _, _, _ => mret []
  end.

(** ** Loops: one poll at once and one at each of the [n] ticks before the end of
    the context. *)
Fixpoint runner_loop (poll : CSvc unit) (n : nat) : CSvc unit :=
  _ ← poll;
  match n with
  | O => mret tt
  | S n' => runner_loop poll n'
  end.
End Runners.

(** ** The manager *)

Inductive Runner : Type :=
| EmailChannelRunner (channelID tenantID : uuid) (config : EmailConfig)
| FileDropChannelRunner (channelID tenantID : uuid) (config : FileDropConfig).

(** A loop that runs, and the context it runs under. *)
Record Loop : Type := mkLoop { lpRunner : Runner; lpContext : nat }.
Record managedChannel : Type := mkManaged { mcChannel : Channel; mcRunner : option nat }.

(** The loops are named by the runs of [Start]: every runner is started once. *)
Record ChannelManager : Type := mkChannelManager {
  cmSite : CSite;
  cmTriggers : Triggers.Manager;
  cmChannels : gmap uuid managedChannel;
  cmLoops : gmap nat Loop
}.
Abbreviation MSvc := (Svc ChannelManager).

Definition set_site (s : CSite) (m : ChannelManager) : ChannelManager :=
  mkChannelManager s (cmTriggers m) (cmChannels m) (cmLoops m).
Definition set_triggers (t : Triggers.Manager) (m : ChannelManager) : ChannelManager :=
  mkChannelManager (cmSite m) t (cmChannels m) (cmLoops m).
Definition set_managed (f : gmap uuid managedChannel -> gmap uuid managedChannel) (m : ChannelManager) : ChannelManager :=
  mkChannelManager (cmSite m) (cmTriggers m) (f (cmChannels m)) (cmLoops m).
Definition set_loops (f : gmap nat Loop -> gmap nat Loop) (m : ChannelManager) : ChannelManager :=
  mkChannelManager (cmSite m) (cmTriggers m) (cmChannels m) (f (cmLoops m)).

Definition on_site {A} (p : CSvc A) : MSvc A := fun w =>
  match p (mkSys (cmSite (st w)) (ticks w)) with (r, w') => (r, mkSys (set_site (st w') (st w)) (ticks w')) end.
Definition on_triggers {A} (p : Svc Triggers.Manager A) : MSvc A := fun w =>
  match p (mkSys (cmTriggers (st w)) (ticks w)) with (r, w') => (r, mkSys (set_triggers (st w') (st w)) (ticks w')) end.

(** A context ends: with the request it belongs to, or with the server. *)
Definition end_context (ctx : nat) : ChannelManager -> ChannelManager :=
  set_loops (filter (fun kv : nat * Loop => lpContext kv.2 <> ctx)).

Section ManagerOps.
Context `{R : Runtime}.
Context (cwd : string).
(** Whether there is a registry of drivers, and what it says about [imap]. *)
Context (drivers : option (result goerr unit)).
Context (triggers : option (uuid -> string * string -> option (result goerr json) -> Svc Triggers.Manager unit)).

Definition lookupByID (channelID : uuid) : MSvc Channel :=
  wrapS (Wrapf "channel not found: %w" []) (on_site (GetByID channelID)).

Definition buildRunner (ch : Channel) : result goerr (option Runner) :=
  if decide (chType ch = ChannelEmail) then
    match drivers with
    | None => Err (Errorf "driver registry missing" [])
    | Some got => _ ← got; Ok (Some (EmailChannelRunner (chID ch) (chTenantID ch) (dec_EmailConfig (chConfig ch))))
    end
  else if decide (chType ch = ChannelFileDrop)
  then Ok (Some (FileDropChannelRunner (chID ch) (chTenantID ch) (dec_FileDropConfig (chConfig ch))))
  else Ok None.

Definition install_loop (ctx : nat) (r : Runner) : MSvc nat := fun w =>
  (Ok (ticks w), mkSys (set_loops (<[ticks w := mkLoop r ctx]>) (st w)) (S (ticks w))).
Definition Runner_Start (ctx : nat) (r : Runner) : MSvc nat :=
  _ ← match r with
      | EmailChannelRunner _ _ _ => mret tt
      | FileDropChannelRunner _ _ cfg => on_site (FileDrop_prepare cwd (FileDropConfig_WithDefaults cfg))
      end;
  install_loop ctx r.
Definition Runner_Stop (r : nat) : MSvc unit := changes (set_loops (delete r)).

Definition start_trigger (ch : Channel) : MSvc unit :=
  match triggers with
  | Some start =>
      if decide (chType ch = ChannelPlugin) then
        ref ← pureS (ParsePluginRefStrict (chPluginRef ch));
        on_triggers (start (chID ch) (refID ref, refVersion ref) (Ok <$> chConfig ch))
      else mret tt
  | None => mret tt
  end.

Definition Manager_Enable (ctx : nat) (channelID : uuid) : MSvc unit :=
  ch ← lookupByID channelID;
  _ ← on_site (SetEnabled (chTenantID ch) (chID ch) true);
  runner ← pureS (buildRunner ch);
  started ← match runner with
            | Some r => Some <$> Runner_Start ctx r
            | None => mret None
            end;
  _ ← start_trigger ch;
  changes (set_managed (<[chID ch := mkManaged ch started]>)).

Definition stop_managed (item : option managedChannel) : MSvc unit :=
  match item ≫= mcRunner with
  | Some r => ignoreS (Runner_Stop r)
  | None => mret tt
  end.

Definition Manager_Disable (channelID : uuid) : MSvc unit :=
  ch ← lookupByID channelID;
  _ ← on_site (SetEnabled (chTenantID ch) (chID ch) false);
  item ← reads (fun m => cmChannels m !! channelID);
  _ ← changes (set_managed (delete channelID));
  stop_managed item.

Definition StartAll (ctx : nat) : MSvc unit :=
  items ← on_site ListEnabled;
  forS (fun ch => Manager_Enable ctx (chID ch)) items.

Definition StopAll : MSvc unit :=
  items ← reads (fun m => map snd (map_to_list (cmChannels m)));
  _ ← forS (fun item => stop_managed (Some item)) items;
  changes (set_managed (fun _ => ∅)).

(** ** The handlers ([api.go])

    The principal is what the middleware found; the request has the path value,
    the body as [encoding/json] decodes it, and the query. *)

Record AdminRequest : Type := mkAdminRequest {
  aqTenant : option uuid;
  aqContext : nat;
  aqID : string;
  aqBody : result goerr Channel;
  aqLimit : string;
  aqOffset : string
}.

Inductive AdminReply : Type :=
| AError (status : Z) (code : string)
| AChannels (l : list Channel)
| AChannel (status : Z) (c : Channel)
| AEvents (l : list EventRow)
| AStatus (text : string).

Context (uuid_Parse : string -> result goerr uuid).

Definition with_ids (id tenant : uuid) (c : Channel) : Channel :=
  mkChannel id tenant (chName c) (chType c) (chPluginRef c) (chConfig c) (chCaseTypeID c) (chWorkflowID c)
    (chAdapterConfig c) (chDedupConfig c) (chEnabled c) (chCreatedAt c) (chUpdatedAt c).

(** [err != nil] answers with an error. *)
Definition answer {A} (p : MSvc A) (status : Z) (code : string) (done : A -> AdminReply) : MSvc AdminReply :=
  out ← tryS p;
  mret match out with Ok a => done a | Err _ => AError status code end.

Definition as_principal (r : AdminRequest) (body : uuid -> MSvc AdminReply) : MSvc AdminReply :=
  match aqTenant r with
  | None => mret (AError 401 "unauthenticated")
  | Some tenant => body tenant
  end.
Definition with_id (r : AdminRequest) (body : uuid -> MSvc AdminReply) : MSvc AdminReply :=
  match uuid_Parse (TrimSpace (aqID r)) with
  | Err _ => mret (AError 400 "invalid_id")
  | Ok id => body id
  end.
Definition with_body (r : AdminRequest) (body : Channel -> MSvc AdminReply) : MSvc AdminReply :=
  match aqBody r with
  | Err _ => mret (AError 400 "invalid_json")
  | Ok c => body c
  end.

Definition API_List (r : AdminRequest) : MSvc AdminReply :=
  as_principal r (fun tenant => answer (on_site (List_channels tenant)) 500 "channels_list_failed" AChannels).

Definition API_Create (r : AdminRequest) : MSvc AdminReply :=
  as_principal r (fun tenant => with_body r (fun c =>
    fresh ← callS (fun k => Ok (gen_random_uuid k));
    let c := with_ids (if decide (chID c = uuid_Nil) then fresh else chID c) tenant c in
    answer (on_site (Create c)) 400 "channel_create_failed" (fun _ => AChannel 201 c))).

Definition API_Get (r : AdminRequest) : MSvc AdminReply :=
  as_principal r (fun tenant => with_id r (fun id =>
    answer (on_site (ChannelStore.Get tenant id)) 404 "channel_not_found" (AChannel 200))).

Definition API_Update (r : AdminRequest) : MSvc AdminReply :=
  as_principal r (fun tenant => with_id r (fun id => with_body r (fun c =>
    let c := with_ids id tenant c in
    answer (on_site (Update c)) 400 "channel_update_failed" (fun _ => AChannel 200 c)))).

Definition API_Delete (r : AdminRequest) : MSvc AdminReply :=
  as_principal r (fun tenant => with_id r (fun id =>
    answer (on_site (SoftDelete tenant id)) 500 "channel_delete_failed" (fun _ => AStatus "deleted"))).

Definition parseManagedChannelID (r : AdminRequest) (body : uuid -> MSvc AdminReply) : MSvc AdminReply :=
  as_principal r (fun _ => with_id r body).

Definition API_Enable (r : AdminRequest) : MSvc AdminReply :=
  parseManagedChannelID r (fun id =>
    answer (Manager_Enable (aqContext r) id) 500 "channel_enable_failed" (fun _ => AStatus "enabled")).
Definition API_Disable (r : AdminRequest) : MSvc AdminReply :=
  parseManagedChannelID r (fun id =>
    answer (Manager_Disable id) 500 "channel_disable_failed" (fun _ => AStatus "disabled")).

Definition API_Events (r : AdminRequest) : MSvc AdminReply :=
  as_principal r (fun tenant => with_id r (fun id =>
    answer (on_site (ListEvents tenant id (Atoi_value (aqLimit r)) (Atoi_value (aqOffset r))))
      500 "channel_events_failed" AEvents)).
End ManagerOps.
