(* ===== verification/ChannelRunnerClaims.v ===== *)
(** * Claims about the runners, the manager and the handlers of channels *)

From S2P Require Import Prelude GoStrings Json EngineTypes Store AuditTrail EngineOps TaskForms CaseData CaseOps.
From S2P Require Import GoText Effects Triggers JsonText GoPath Site VaultStore Channels ChannelStore ChannelPipeline ChannelIntake Plugins PluginClaims ChannelRunners.

(** ** Paths *)

Lemma strip_common_app d l : strip_common d (d ++ l) = ([], l).
Proof. induction d as [|e d IH]; [by destruct l|]. cbn [app strip_common]. by rewrite decide_True. Qed.

Lemma strip_common_below d e l : strip_common d e = ([], l) -> e = d ++ l.
Proof.
  revert e. induction d as [|x d IH]; intros e H; [cbn in H; by simplify_eq|].
  destruct e as [|y e]; [done|]. cbn [strip_common] in H. destruct (decide (x = y)) as [->|]; [|done].
  cbn [app]. f_equal. by apply IH.
Qed.

Lemma clean_skip b s p : p = "" \/ p = "." -> clean_step b s p = s.
Proof. intros H. unfold clean_step. by rewrite decide_True. Qed.
Lemma clean_up b top s : top <> ".." -> clean_step b (top :: s) ".." = s.
Proof. intros H. unfold clean_step. rewrite decide_False by naive_solver. rewrite decide_True by done. by rewrite decide_False. Qed.
Lemma clean_dots_on s : clean_step false (".." :: s) ".." = ".." :: ".." :: s.
Proof. reflexivity. Qed.
Lemma clean_name b s p : ~ (p = "" \/ p = ".") -> p <> ".." -> clean_step b s p = p :: s.
Proof. intros H1 H2. unfold clean_step. by rewrite decide_False, decide_False. Qed.

(** Cleaning the elements of a relative path first makes no difference. *)
Lemma clean_rooted_rel s l :
  Forall (fun e => char_in slash e = false) l ->
  foldl (clean_step true) s (rev (foldl (clean_step false) [] l)) = foldl (clean_step true) s l.
Proof.
  intros Hl. induction l as [|p l IH] using rev_ind; [done|]. apply Forall_app in Hl as [Hl Hp].
  specialize (IH Hl). rewrite !foldl_app. cbn [foldl]. rewrite <-IH.
  destruct (clean_stack_ok false l [] Hl) as (n & k & Hs & Hn & _).
  { exists [], 0%nat. by split_and!; [|constructor|]. }
  revert Hs IH. generalize (foldl (clean_step false) [] l). intros stk Hs IH.
  destruct (decide (p = "" \/ p = ".")) as [H|Hne]; [by rewrite !clean_skip|].
  destruct (decide (p = "..")) as [->|Hd]; [|rewrite clean_name by done; cbn [rev]; by rewrite foldl_app].
  destruct stk as [|top rest]; [done|]. destruct (decide (top = "..")) as [->|Ht].
  - rewrite clean_dots_on. cbn [rev]. by rewrite !foldl_app.
  - rewrite clean_up by done. cbn [rev]. rewrite foldl_app. cbn [foldl]. destruct n as [|t n].
    { destruct k as [|k]; [done|]. cbn in Hs. by simplify_eq. }
    cbn in Hs. injection Hs as <- ->. inversion Hn as [|? ? Hname _]; subst.
    apply is_name_spec in Hname as (H1 & H2 & _). rewrite (clean_name true _ top) by (done || by intros [?|?]). by rewrite clean_up.
Qed.

Section Abs.
Context (cwd : string) (Hcwd : IsAbs cwd = true).

Lemma cwd_nonempty : cwd <> "".
Proof. intros E. by rewrite E in Hcwd. Qed.

Lemma JoinPath_cwd p : JoinPath cwd p = Clean (cwd +:+ "/" +:+ p).
Proof. unfold JoinPath. by rewrite decide_False by apply cwd_nonempty. Qed.

Lemma IsAbs_Abs p : IsAbs (Abs cwd p) = true.
Proof.
  unfold Abs. destruct (IsAbs p) eqn:E; [by rewrite IsAbs_Clean|]. rewrite JoinPath_cwd, IsAbs_Clean.
  by rewrite IsAbs_app by apply cwd_nonempty.
Qed.

Lemma Abs_clean p : Abs cwd p = path_of true (elements (Abs cwd p)).
Proof.
  assert (Abs cwd p = Clean (Abs cwd p)) as E.
  { unfold Abs. destruct (IsAbs p); [by rewrite Clean_idem|]. rewrite JoinPath_cwd. by rewrite Clean_idem. }
  rewrite E at 1. unfold Clean. by rewrite IsAbs_Abs.
Qed.

Lemma shape_Abs p : rooted_shape true (elements (Abs cwd p)).
Proof. rewrite <-(IsAbs_Abs p). apply elements_rooted. Qed.

Lemma elements_Abs_rel p :
  IsAbs p = false -> elements (Abs cwd p) = rev (foldl (clean_step true) (rev (elements cwd)) (Split slash p)).
Proof.
  intros Hp. unfold Abs. rewrite Hp, JoinPath_cwd, elements_Clean. unfold elements at 1.
  rewrite IsAbs_app, Hcwd by apply cwd_nonempty. change ("/" +:+ p) with (String slash p).
  rewrite Split_app_sep, foldl_app. unfold elements. by rewrite Hcwd, List.rev_involutive.
Qed.

Lemma Split_name e : char_in slash e = false -> Split slash e = [e].
Proof. intros H. by apply (Split_Join_pieces slash [e]); [|constructor]. Qed.

(** The absolute path of a name in a directory. *)
Lemma Abs_below d n : is_name n = true -> Abs cwd (JoinPath d n) = path_of true (elements (Abs cwd d) ++ [n]).
Proof.
  intros Hn. pose proof Hn as (Hne & Hdot & Hdd & Hs)%is_name_spec. rewrite Abs_clean. f_equal.
  assert (names [n]) as Hnames by (by constructor).
  assert (forall stk, foldl (clean_step true) stk [n] = n :: stk) as Hstep by (intros stk; by rewrite clean_names).
  destruct (decide (d = "")) as [->|Hd].
  { unfold JoinPath. rewrite decide_True, decide_False by done.
    assert (IsAbs n = false) as Ha by (apply (IsAbs_join n []); done).
    assert (Clean n = n) as ->.
    { unfold Clean. rewrite Ha. assert (elements n = [n]) as ->; [|done].
      unfold elements. rewrite Ha, Split_name by done. by rewrite clean_names. }
    rewrite !elements_Abs_rel, Split_name, Hstep by done. cbn [Split foldl].
    rewrite (clean_skip true _ "") by (by left). cbn [rev]. by rewrite List.rev_involutive. }
  unfold JoinPath. rewrite decide_False by done.
  assert (IsAbs (Clean (d +:+ "/" +:+ n)) = IsAbs d) as Ha by (by rewrite IsAbs_Clean, IsAbs_app).
  destruct (IsAbs d) eqn:Ed.
  - unfold Abs at 1. rewrite Ha, !elements_Clean. unfold Abs. rewrite Ed, elements_Clean.
    apply (elements_below d [n]); done.
  - rewrite !elements_Abs_rel by done.
    assert (elements (Clean (d +:+ "/" +:+ n)) = elements d ++ [n]) as Ee.
    { rewrite elements_Clean. by apply (elements_below d [n]). }
    unfold Clean. rewrite IsAbs_app, Ed by done. rewrite elements_Clean in Ee. rewrite Ee.
    unfold path_of. destruct (elements d ++ [n]) as [|e l] eqn:El; [by destruct (elements d)|]. rewrite <-El.
    assert (Forall (fun e => char_in slash e = false) (elements d ++ [n])) as Hsl.
    { apply Forall_app. split; [|by constructor]. eapply shape_no_slash. apply elements_rooted. }
    rewrite Split_Join_pieces by (done || by rewrite El). rewrite foldl_app, Hstep. cbn [rev]. f_equal.
    unfold elements at 2. rewrite Ed. by rewrite clean_rooted_rel by apply Split_pieces.
Qed.

Lemma shape_below d l : names l -> rooted_shape true (elements (Abs cwd d) ++ l).
Proof. intros Hl. apply app_shape; [apply shape_Abs|done]. Qed.
End Abs.

Lemma drop_slashes_name s n : n <> "" -> char_in slash n = false -> drop_trailing_slashes (s +:+ n) = s +:+ n.
Proof.
  intros Hn Hs. assert (drop_trailing_slashes n = n) as E.
  { clear s. induction n as [|a n IH]; [done|]. simpl in Hs. boolp. cbn [drop_trailing_slashes].
    destruct n as [|b n]; [cbn; by rewrite decide_False|]. by rewrite IH. }
  induction s as [|a s IH]; [done|]. change (String a s +:+ n) with (String a (s +:+ n)). cbn [drop_trailing_slashes].
  rewrite IH. destruct (s +:+ n) eqn:Es; [|done]. by destruct (append_nonempty s n Hn).
Qed.

Lemma Base_name s n : is_name n = true -> Base (s +:+ "/" +:+ n) = n /\ Base n = n.
Proof.
  intros (Hne & _ & _ & Hs)%is_name_spec.
  assert (forall p q, p = q +:+ n -> last (Split slash p) = Some n -> Base p = n) as H.
  { intros p q -> Hl. unfold Base. rewrite decide_False by (by apply append_nonempty). rewrite drop_slashes_name by done.
    destruct (q +:+ n) as [|a r] eqn:E; [by destruct (append_nonempty q n Hne)|]. by rewrite Hl. }
  split.
  - apply (H _ (s +:+ "/")); [by rewrite append_assoc|]. change ("/" +:+ n) with (String slash n).
    rewrite Split_app_sep, (Split_name n) by done. by rewrite last_snoc.
  - apply (H _ ""); [done|]. by rewrite Split_name.
Qed.

(** The last element of a clean path. *)
Lemma Join_snoc l n : l <> [] -> Join "/" (l ++ [n]) = Join "/" l +:+ "/" +:+ n.
Proof.
  induction l as [|e l IH]; [done|]. intros _. destruct l as [|e' l]; [done|].
  change (Join "/" ((e :: e' :: l) ++ [n])) with (e +:+ "/" +:+ Join "/" ((e' :: l) ++ [n])).
  rewrite IH by done. change (Join "/" (e :: e' :: l)) with (e +:+ "/" +:+ Join "/" (e' :: l)). by rewrite !append_assoc.
Qed.

Lemma Base_JoinPath d n : is_name n = true -> Base (JoinPath d n) = n.
Proof.
  intros Hn. pose proof Hn as (Hne & _ & _ & Hs)%is_name_spec.
  assert (forall b l, Base (path_of b (l ++ [n])) = n) as H.
  { intros b l. unfold path_of. destruct l as [|e l].
    - destruct b; [by apply (Base_name "")|by apply (Base_name "" n Hn)].
    - destruct b.
      + rewrite Join_snoc by done. rewrite <-!append_assoc. rewrite append_assoc. by apply Base_name.
      + change (Base (Join "/" ((e :: l) ++ [n])) = n). rewrite Join_snoc by done. by apply Base_name. }
  unfold JoinPath. destruct (decide (d = "")) as [->|Hd].
  - rewrite decide_False by done. unfold Clean. assert (elements n = [n]) as ->; [|by apply (H _ [])].
    unfold elements. rewrite Split_name by done. by rewrite clean_names by (by constructor).
  - unfold Clean. rewrite IsAbs_app by done. change ("/" +:+ n) with ("/" +:+ Join "/" [n]).
    rewrite (elements_below d [n]) by (done || by constructor). apply H.
Qed.

Lemma ltb_longer s a t : str_ltb s (s +:+ String a t) = true.
Proof.
  unfold str_ltb. induction s as [|b s IH]; [done|]. change (String b s +:+ String a t) with (String b (s +:+ String a t)).
  cbn [String.compare]. assert (Ascii.compare b b = Eq) as -> by (unfold Ascii.compare; apply N.compare_refl). exact IH.
Qed.

(** ** Safe paths *)

Lemma HasPrefix_join_dots e l : HasPrefix (Join "/" (e :: l)) ".." = HasPrefix e "..".
Proof.
  destruct l as [|x l]; [done|]. change (Join "/" (e :: x :: l)) with (e +:+ "/" +:+ Join "/" (x :: l)).
  apply eq_true_iff_eq. rewrite !HasPrefix_spec. split; intros [t Ht].
  - destruct e as [|a [|b e]]; [done|cbn in Ht; by simplify_eq|]. cbn in Ht. injection Ht as -> -> _. by exists e.
  - exists (t +:+ "/" +:+ Join "/" (x :: l)). by rewrite Ht, append_assoc.
Qed.

Ltac bits a := destruct a as [a0 a1 a2 a3 a4 a5 a6 a7];
  destruct a0; try reflexivity; destruct a1; try reflexivity; destruct a2; try reflexivity; destruct a3; try reflexivity;
  destruct a4; try reflexivity; destruct a5; try reflexivity; destruct a6; try reflexivity; destruct a7; try reflexivity.
Lemma not_dots {A} e (b : list string) (x y : A) : e <> ".." -> match e :: b with ".." :: _ => x | _ => y end = y.
Proof.
  intros He. destruct e as [|a e]; [done|]. bits a. destruct e as [|a e]; [done|]. bits a. by destruct e.
Qed.

(** A path is safe below a root exactly when its elements are those of the root and
    more, and what follows the root does not begin with two dots (which excludes
    some harmless names as well). *)
Lemma isSafeSubpath_spec cwd root target :
  IsAbs cwd = true ->
  isSafeSubpath cwd root target = true <->
  exists l, elements (Abs cwd target) = elements (Abs cwd root) ++ l /\
            match l with [] => True | e :: _ => HasPrefix e ".." = false end.
Proof.
  intros Hc. unfold isSafeSubpath, Rel.
  assert (forall p, Clean (Abs cwd p) = Abs cwd p) as Hclean.
  { intros p. unfold Clean. rewrite IsAbs_Abs by done. symmetry. by apply Abs_clean. }
  rewrite !Hclean, !IsAbs_Abs by done. cbn [Bool.eqb negb].
  destruct (decide (Abs cwd target = Abs cwd root)) as [E|N].
  { rewrite bool_decide_eq_true_2 by done. split; [|done]. intros _. exists []. by rewrite E, app_nil_r. }
  rewrite decide_False; [|intros E; pose proof (IsAbs_Abs cwd Hc target) as H; by rewrite E in H].
  destruct (shape_Abs cwd Hc root) as (k & nr & Er & Hnr & Hk). rewrite (Hk eq_refl) in Er. cbn in Er. clear k Hk.
  destruct (shape_Abs cwd Hc target) as (k & nt & Et & Hnt & Hk). rewrite (Hk eq_refl) in Et. cbn in Et. clear k Hk.
  assert (nt <> nr) as Hne.
  { intros ->. apply N. rewrite (Abs_clean cwd Hc target), (Abs_clean cwd Hc root). by rewrite Er, Et. }
  rewrite Er, Et. destruct (strip_common nr nt) as [b t] eqn:Es.
  destruct b as [|e b].
  - apply strip_common_below in Es as ->. apply Forall_app in Hnt as [_ Ht]. destruct t as [|e t]; [by rewrite app_nil_r in Hne|].
    change (replicate (length []) ".." ++ e :: t) with (e :: t). rewrite HasPrefix_join_dots.
    inversion Ht as [|? ? He _]; subst. apply is_name_spec in He as (He1 & He2 & _ & _).
    assert (Join "/" (e :: t) <> "") as Hj by (destruct t; [done|by destruct e]).
    assert (Join "/" (e :: t) <> ".") as Hj'.
    { destruct t as [|x t]; [done|]. change (Join "/" (e :: x :: t)) with (e +:+ "/" +:+ Join "/" (x :: t)).
      destruct e as [|a e]; [done|]. destruct e; [intros [=]|intros [=]]. }
    rewrite (bool_decide_eq_false_2 (_ = ".")), (bool_decide_eq_false_2 (_ = "")) by done. cbn [orb negb]. rewrite andb_true_r, negb_true_iff.
    split; [intros H; by exists (e :: t)|]. intros (l & El & Hl). apply app_inv_head in El as <-. exact Hl.
  - assert (forall l, nt <> nr ++ l) as Hno.
    { intros l ->. by rewrite strip_common_app in Es. }
    assert (e <> "..") as Hed.
    { assert (e ∈ nr) as Hin.
      { clear -Es. revert nt Es. induction nr as [|x nr IH]; intros nt Es; [by destruct nt|].
        destruct nt as [|y nt]; cbn [strip_common] in Es; [injection Es as -> _; by left|].
        destruct (decide (x = y)); [right; by eapply IH|]. injection Es as -> _ _. by left. }
      unfold names in Hnr. rewrite Forall_forall in Hnr. apply Hnr, is_name_spec in Hin. tauto. }
    split; [|intros (l & El & _); by destruct (Hno l)]. intros H. exfalso. revert H.
    rewrite not_dots by done. cbn [length replicate app].
    rewrite HasPrefix_dots. destruct (replicate (length b) ".." ++ t); cbn; [done|].
    rewrite bool_decide_eq_false_2; done.
Qed.

(** ** File drops *)

Lemma key_inj l l' : rooted_shape true l -> rooted_shape true l' -> path_of true l = path_of true l' -> l = l'.
Proof. intros H H' E. rewrite <-(elements_path_of true l H), <-(elements_path_of true l' H'). by rewrite E. Qed.

Lemma log_name n : is_name n = true -> is_name (n +:+ ".error.log") = true.
Proof.
  intros (H1 & H2 & H3 & H4)%is_name_spec. apply is_name_spec.
  assert (forall s, (n +:+ ".error.log") = s -> (String.length s < 10)%nat -> False) as Hlen.
  { intros s <-. rewrite append_length. cbn. lia. }
  split_and!; [intros E|intros E|intros E|]; try (apply (Hlen _ E); cbn; lia). by rewrite char_in_append, H4.
Qed.
Lemma log_ne n : n +:+ ".error.log" <> n.
Proof. intros E. apply (f_equal String.length) in E. rewrite append_length in E. cbn in E. lia. Qed.

(** The file [a] is now [b]. *)
Definition moved (a b : string) (data : string) (fs : gmap string string) : gmap string string := <[b := data]> (delete a fs).

Section FileDrop.
Context `{R : Runtime}.
Context (cwd : string) (Hcwd : IsAbs cwd = true).
Context (torn : nat -> string -> option string) (TypeByExtension : string -> string) (FormatFloat : Qc -> string).
Context (process : ChannelRequest -> CSvc PipelineResult) (tenantID channelID : uuid) (cfg : FileDropConfig).

(** A file that deliveries leave alone. *)
Definition untouched (path : string) : Prop :=
  forall rq w, files (st (process rq w).2) !! path = files (st w) !! path.

Notation watch := (elements (Abs cwd (fdWatchPath cfg))).
Notation processed := (elements (Abs cwd (fdProcessedPath cfg))).
Definition dropped_at (n : string) : string := path_of true (watch ++ [n]).
Definition processed_at (n : string) : string := path_of true (processed ++ [n]).
Definition error_at (n : string) : string := path_of true (watch ++ ["errors"; n]).

Context (Hwatch : forall l, names l -> untouched (path_of true (watch ++ l))).
Context (Hsafe : isSafeSubpath cwd (fdWatchPath cfg) (fdProcessedPath cfg) = true).

Lemma rename_files src dst w :
  files (st (os_Rename cwd src dst w).2) = files (st w) /\ is_ok (os_Rename cwd src dst w).1 = false \/
  exists d, files (st w) !! Abs cwd src = Some d /\
    files (st (os_Rename cwd src dst w).2) = moved (Abs cwd src) (Abs cwd dst) d (files (st w)).
Proof.
  unfold os_Rename, exec, at_path. destruct (fault (ticks w)); [by left|].
  destruct (files (st w) !! Abs cwd src) as [d|] eqn:E; [|by left]. destruct (directory_there _ _); [by left|].
  right. by exists d.
Qed.

Lemma write_files path data (w : Sys CSite) :
  files (st (os_WriteFile torn path data w).2) = files (st w) \/
  exists x, files (st (os_WriteFile torn path data w).2) = <[path := x]> (files (st w)).
Proof.
  unfold os_WriteFile. destruct (fault (ticks w)); [|right; by exists data].
  destruct (torn _ _) as [part|]; [right; by exists part|by left].
Qed.

Lemma mkdir_files path (w : Sys CSite) : files (st (os_MkdirAll_at path w).2) = files (st w).
Proof. unfold os_MkdirAll_at, os_MkdirAll, exec. destruct (decide _); [done|]. by destruct (fault (ticks w)). Qed.

(** Errors: the file is moved, and a log is put beside it. *)
Lemma moveToError_files n e w :
  is_name n = true ->
  let fs := files (st w) in
  let fs' := files (st (moveToError cwd torn (fdWatchPath cfg) (JoinPath (fdWatchPath cfg) n) e w).2) in
  fs' = fs \/ exists d, fs !! dropped_at n = Some d /\
    (fs' = moved (dropped_at n) (error_at n) d fs \/
     exists x, fs' = <[error_at (n +:+ ".error.log") := x]> (moved (dropped_at n) (error_at n) d fs)).
Proof.
  intros Hn fs fs'. subst fs fs'. unfold moveToError. cbv zeta. destruct (_ || _); [by left|].
  rewrite Base_JoinPath by done.
  assert (forall x, is_name x = true -> Abs cwd (JoinPath (errors_dir (fdWatchPath cfg)) x) = error_at x) as Herr.
  { intros x Hx. unfold errors_dir, error_at. rewrite !Abs_below by done. rewrite elements_path_of by (by apply shape_below; [|constructor]).
    by rewrite <-app_assoc. }
  pose proof (log_name n Hn) as Hlog.
  unfold mbind, Svc_bind. pose proof (mkdir_files (errors_dir (fdWatchPath cfg)) w) as Hm.
  destruct (os_MkdirAll_at _ w) as [[[]|e0] w1]; [|by left].
  pose proof (rename_files (JoinPath (fdWatchPath cfg) n) (JoinPath (errors_dir (fdWatchPath cfg)) n) w1) as Hr.
  destruct (os_Rename _ _ _ w1) as [[[]|e1] w2]; cbn [fst snd is_ok] in *.
  2: { destruct Hr as [[Hr _]|(d & Hd & Hf)]; [left; by rewrite Hr|]. right. exists d. rewrite <-Hm. rewrite Herr, Abs_below in Hf by done.
       rewrite Abs_below in Hd by done. split; [done|]. by left. }
  destruct Hr as [[_ Hr]|(d & Hd & Hf)]; [done|]. right. exists d. rewrite <-Hm. rewrite Herr, Abs_below in Hf by done.
  rewrite Abs_below in Hd by done. split; [done|]. unfold at_path. rewrite Herr by done.
  destruct (write_files (error_at (n +:+ ".error.log")) (Error e +:+ newline) w2) as [->|[x ->]]; rewrite Hf; [by left|].
  right. by exists x.
Qed.

Definition same_files (fs fs' : gmap string string) : Prop := forall path, untouched path -> fs' !! path = fs !! path.
Lemma same_files_eq fs fs' : fs' = fs -> same_files fs fs'.
Proof. by intros ->. Qed.

Lemma moved_same a b d fs fs' : same_files fs fs' -> same_files (moved a b d fs) (moved a b d fs').
Proof.
  intros H path Hpath. unfold moved. destruct (decide (path = b)) as [->|N]; [by rewrite !lookup_insert_eq|].
  rewrite !lookup_insert_ne by done. destruct (decide (path = a)) as [->|N']; [by rewrite !lookup_delete_eq|].
  rewrite !lookup_delete_ne by done. by apply H.
Qed.
Lemma insert_same_files a x fs fs' : same_files fs fs' -> same_files (<[a := x]> fs) (<[a := x]> fs').
Proof.
  intros H path Hpath. destruct (decide (path = a)) as [->|N]; [by rewrite !lookup_insert_eq|].
  rewrite !lookup_insert_ne by done. by apply H.
Qed.

(** What one entry of the directory does to the files. *)
Definition file_outcome (n : string) (fs fs' : gmap string string) : Prop :=
  same_files fs fs' \/ exists d, fs !! dropped_at n = Some d /\
    (same_files (moved (dropped_at n) (processed_at n) d fs) fs' \/
     same_files (moved (dropped_at n) (error_at n) d fs) fs' \/
     exists x, same_files (<[error_at (n +:+ ".error.log") := x]> (moved (dropped_at n) (error_at n) d fs)) fs').

Lemma read_file path (w : Sys CSite) :
  files (st (os_ReadFile path w).2) = files (st w) /\
  (forall data, (os_ReadFile path w).1 = Ok data -> files (st w) !! path = Some data).
Proof.
  unfold os_ReadFile, exec. destruct (fault _); [done|]. destruct (files (st w) !! path) as [d|]; [|done].
  split; [done|]. intros data H. cbn in H. congruence.
Qed.

Lemma drop_delivery_files n w :
  is_name n = true ->
  file_outcome n (files (st w))
    (files (st (drop_delivery cwd torn TypeByExtension FormatFloat process tenantID channelID cfg n w).2)).
Proof.
  intros Hn. unfold drop_delivery. cbv zeta. unfold mbind, Svc_bind, tryS, at_path.
  assert (Abs cwd (JoinPath (fdWatchPath cfg) n) = dropped_at n) as Es by (by apply Abs_below). rewrite Es.
  destruct (read_file (dropped_at n) w) as [Hk Hd].
  destruct (os_ReadFile (dropped_at n) w) as [[data|e1] w2]; cbn [fst snd] in *; [|left; by apply same_files_eq].
  specialize (Hd data eq_refl). set (rq := drop_request _ _ _ _ _ _).
  assert (same_files (files (st w)) (files (st (process rq w2).2))) as Hp.
  { intros path Hpath. rewrite (Hpath rq w2). by rewrite Hk. }
  assert (files (st (process rq w2).2) !! dropped_at n = Some data) as Hsrc.
  { pose proof (Hwatch [n] ltac:(by constructor) rq w2) as H. fold (dropped_at n) in H. by rewrite H, Hk. }
  destruct (process rq w2) as [[res|e] w3]; cbn [snd] in *; unfold ignoreS; cbn [snd].
  - destruct (rename_files (JoinPath (fdWatchPath cfg) n) (JoinPath (fdProcessedPath cfg) n) w3) as [[-> _]|(d & Hd' & ->)];
      [by left|]. right. exists data. split; [done|]. left. rewrite Es in *. rewrite Abs_below by done.
    replace d with data by congruence. by apply moved_same.
  - destruct (moveToError_files n e w3 Hn) as [->|(d & Hd' & Hm)]; [by left|].
    right. exists data. split; [done|]. right. replace d with data in Hm by congruence.
    destruct Hm as [->|[x ->]]; [left|right; exists x; apply insert_same_files]; by apply moved_same.
Qed.

Lemma drop_file_files n w :
  is_name n = true ->
  file_outcome n (files (st w))
    (files (st (drop_file cwd torn TypeByExtension FormatFloat process tenantID channelID cfg n w).2)).
Proof.
  intros Hn. unfold drop_file. cbv zeta.
  destruct (negb (matchesPatterns _ _)); [by left|]. destruct (_ || _); [by left|].
  unfold mbind, Svc_bind, tryS.
  assert (files (st (os_found cwd (JoinPath (fdProcessedPath cfg) n) w).2) = files (st w)) as Hf.
  { unfold os_found, exec. by destruct (fault _). }
  destruct (os_found _ _ w) as [[[|]|e0] w1]; cbn [snd] in Hf; rewrite <-Hf; [by left|by apply drop_delivery_files..].
Qed.

(** *** Where a dropped file is *)

Definition kept_file (n d : string) (fs : gmap string string) : Prop :=
  fs !! dropped_at n = Some d \/ fs !! processed_at n = Some d \/ fs !! error_at n = Some d.

Lemma processed_below : exists q, names q /\ processed = watch ++ q.
Proof.
  apply isSafeSubpath_spec in Hsafe as (q & E & _); [|done]. exists q. split; [|done].
  destruct (shape_Abs cwd Hcwd (fdProcessedPath cfg)) as (k & n & El & Hn & Hk). rewrite (Hk eq_refl) in El. cbn in El.
  rewrite <-El, E in Hn. by apply Forall_app in Hn as [_ Hn].
Qed.

Lemma places_untouched n : is_name n = true -> untouched (dropped_at n) /\ untouched (processed_at n) /\ untouched (error_at n).
Proof.
  intros Hn. destruct processed_below as (q & Hq & E). unfold dropped_at, processed_at, error_at. rewrite E, <-app_assoc.
  split_and!; apply Hwatch; [by constructor|apply Forall_app; split; [done|by constructor]|by repeat constructor].
Qed.

Lemma place_ne l l' x x' :
  rooted_shape true (l ++ [x]) -> rooted_shape true (l' ++ [x']) -> x <> x' -> path_of true (l ++ [x]) <> path_of true (l' ++ [x']).
Proof. intros H H' N E. apply key_inj in E; [|done|done]. by apply app_inj_tail in E as [_ E]. Qed.

Lemma error_at_snoc n : error_at n = path_of true ((watch ++ ["errors"]) ++ [n]).
Proof. unfold error_at. by rewrite <-app_assoc. Qed.

Lemma place_shape d l : names l -> rooted_shape true (elements (Abs cwd d) ++ l).
Proof. by apply shape_below. Qed.

Lemma shape_errors x : is_name x = true -> rooted_shape true ((watch ++ ["errors"]) ++ [x]).
Proof. intros H. rewrite <-app_assoc. apply place_shape. by repeat constructor. Qed.

(** Places for different names are different. *)
Lemma places_ne n n' :
  is_name n = true -> is_name n' = true -> n <> n' ->
  forall a b, a ∈ [dropped_at n; processed_at n; error_at n] -> b ∈ [dropped_at n'; processed_at n'; error_at n'] -> a <> b.
Proof.
  intros Hn Hn' N a b Ha Hb. rewrite !error_at_snoc in *. unfold dropped_at, processed_at in *.
  rewrite !elem_of_cons, elem_of_nil in Ha, Hb.
  destruct Ha as [->|[->|[->|[]]]]; destruct Hb as [->|[->|[->|[]]]]; apply place_ne;
    (done || (apply place_shape; by constructor) || by apply shape_errors).
Qed.

Lemma dropped_not_error n x : is_name n = true -> is_name x = true -> dropped_at n <> error_at x.
Proof.
  intros Hn Hx E. unfold dropped_at, error_at in E. apply key_inj in E; [|apply place_shape; by constructor|apply place_shape; by repeat constructor].
  apply (f_equal length) in E. rewrite !length_app in E. cbn in E. lia.
Qed.

Lemma moved_ne a b d fs path : path <> a -> path <> b -> moved a b d fs !! path = fs !! path.
Proof. intros Ha Hb. unfold moved. by rewrite lookup_insert_ne, lookup_delete_ne by congruence. Qed.
Lemma moved_eq a b d fs : moved a b d fs !! b = Some d.
Proof. apply lookup_insert_eq. Qed.

(** A place that belongs to another name, and is no log of this one, keeps its file. *)
Lemma outcome_other n n' p fs fs' :
  is_name n = true -> is_name n' = true -> n <> n' -> file_outcome n fs fs' ->
  p ∈ [dropped_at n'; processed_at n'; error_at n'] -> p <> error_at (n +:+ ".error.log") -> fs' !! p = fs !! p.
Proof.
  intros Hn Hn' N Ho Hp Hlog. destruct (places_untouched n' Hn') as (U1 & U2 & U3).
  assert (untouched p) as Hu by (rewrite !elem_of_cons, elem_of_nil in Hp; destruct Hp as [->|[->|[->|[]]]]; done).
  assert (forall b d, b ∈ [dropped_at n; processed_at n; error_at n] -> moved (dropped_at n) b d fs !! p = fs !! p) as Hm.
  { intros b d Hb. apply moved_ne; apply not_eq_sym, (places_ne n n' Hn Hn' N); try done. by left. }
  destruct Ho as [H|(d & _ & [H|[H|[x H]]])]; rewrite (H p Hu); [done|apply Hm; right; by left|apply Hm; right; right; by left|].
  rewrite lookup_insert_ne by congruence. apply Hm. right; right; by left.
Qed.

Lemma outcome_own n d fs fs' : is_name n = true -> file_outcome n fs fs' -> fs !! dropped_at n = Some d -> kept_file n d fs'.
Proof.
  intros Hn Ho Hd. destruct (places_untouched n Hn) as (U1 & U2 & U3).
  destruct Ho as [H|(d' & Hd' & Ho)]; [left; by rewrite (H _ U1)|]. replace d' with d in Ho by congruence.
  destruct Ho as [H|[H|[x H]]].
  - right; left. rewrite (H _ U2). apply moved_eq.
  - right; right. rewrite (H _ U3). apply moved_eq.
  - right; right. rewrite (H _ U3), lookup_insert_ne; [apply moved_eq|].
    apply (places_ne (n +:+ ".error.log") n); [by apply log_name|done|apply log_ne|right; right; by left|right; right; by left].
Qed.

Lemma kept_other n n' d fs fs' :
  is_name n = true -> is_name n' = true -> n <> n' -> n' <> n +:+ ".error.log" -> file_outcome n fs fs' ->
  kept_file n' d fs -> kept_file n' d fs'.
Proof.
  intros Hn Hn' N Nlog Ho Hk.
  assert (forall p, p ∈ [dropped_at n'; processed_at n'; error_at n'] -> fs' !! p = fs !! p) as H.
  { intros p Hp. apply (outcome_other n n'); try done.
    apply not_eq_sym, (places_ne (n +:+ ".error.log") n'); [by apply log_name|done|congruence|right; right; by left|done]. }
  unfold kept_file. rewrite (H (dropped_at n')), (H (processed_at n')), (H (error_at n')); [exact Hk|right; right; by left|right; by left|by left].
Qed.

(** Files that are not below the directory. *)
Definition outside_watch (path : string) : Prop := forall l, names l -> path <> path_of true (watch ++ l).

Lemma outcome_outside n p fs fs' :
  is_name n = true -> file_outcome n fs fs' -> untouched p -> outside_watch p -> fs' !! p = fs !! p.
Proof.
  intros Hn Ho Hu Hout. destruct processed_below as (q & Hq & E).
  assert (p <> dropped_at n) as H1 by (apply Hout; by constructor).
  assert (p <> processed_at n) as H2.
  { unfold processed_at. rewrite E, <-app_assoc. apply Hout. apply Forall_app. split; [done|by constructor]. }
  assert (p <> error_at n) as H3 by (apply Hout; by repeat constructor).
  assert (p <> error_at (n +:+ ".error.log")) as H4.
  { apply Hout. constructor; [done|]. constructor; [by apply log_name|constructor]. }
  destruct Ho as [H|(d & _ & [H|[H|[x H]]])]; rewrite (H p Hu); [done|by apply moved_ne|by apply moved_ne|].
  rewrite lookup_insert_ne by congruence. by apply moved_ne.
Qed.

Lemma elem_files_in dir fs n :
  n ∈ files_in dir fs <-> exists k, is_Some (fs !! k) /\ IsAbs k = true /\ elements k = dir ++ [n].
Proof.
  unfold files_in. rewrite merge_sort_Permutation, elem_of_remove_dups, list_elem_of_omap. split.
  - intros ([k v] & Hin & H). apply elem_of_map_to_list in Hin. cbn [fst] in H. destruct (IsAbs k) eqn:Ea; [|done].
    destruct (strip_common dir (elements k)) as [[|? ?] [|x [|? ?]]] eqn:Es; try done. injection H as ->.
    apply strip_common_below in Es. exists k. split_and!; [by exists v|done|done].
  - intros (k & [v Hv] & Ha & He). exists (k, v). rewrite elem_of_map_to_list. cbn [fst].
    rewrite Ha, He, strip_common_app. done.
Qed.

#[local] Instance text_le_trans : Transitive text_le.
Proof. intros a b c. rewrite !text_le_le. apply (transitivity (R := String.le)). Qed.
#[local] Instance text_le_total : Total text_le.
Proof. intros a b. rewrite !text_le_le. apply (total String.le). Qed.

Lemma files_in_sorted dir fs : StronglySorted text_le (files_in dir fs) /\ NoDup (files_in dir fs).
Proof.
  unfold files_in. split; [apply (StronglySorted_merge_sort text_le)|]. rewrite merge_sort_Permutation. apply NoDup_remove_dups.
Qed.

Lemma files_in_names fs : Forall (fun n => is_name n = true) (files_in watch fs).
Proof.
  apply Forall_forall. intros n (k & _ & Ha & He)%elem_files_in.
  destruct (elements_rooted k) as (j & m & Em & Hm & Hj). rewrite (Hj Ha) in Em. cbn in Em. rewrite He in Em. rewrite <-Em in Hm.
  apply Forall_app in Hm as [_ Hm]. by inversion Hm.
Qed.

Notation run_drop := (drop_file cwd torn TypeByExtension FormatFloat process tenantID channelID cfg).

(** The files that were handled are kept, the others are where they were. *)
Definition drop_state (fs0 fs : gmap string string) (handled rest : list string) : Prop :=
  (forall n d, n ∈ handled -> fs0 !! dropped_at n = Some d -> kept_file n d fs) /\
  (forall n d, n ∈ rest -> fs0 !! dropped_at n = Some d -> fs !! dropped_at n = Some d) /\
  (forall p, untouched p -> outside_watch p -> fs !! p = fs0 !! p).

Lemma loop_step fs0 fs fs' handled n rest :
  Forall (fun n => is_name n = true) (handled ++ n :: rest) -> StronglySorted text_le (handled ++ n :: rest) ->
  NoDup (handled ++ n :: rest) -> file_outcome n fs fs' ->
  drop_state fs0 fs handled (n :: rest) -> drop_state fs0 fs' (handled ++ [n]) rest.
Proof.
  intros Hnames Hsort Hnd Ho (H1 & H2 & H3). rewrite Forall_forall in Hnames.
  assert (is_name n = true) as Hn by (apply Hnames, elem_of_app; right; by left).
  apply NoDup_app in Hnd as (_ & Hdisj & Hnd). inversion Hnd as [|? ? Hnr Hnd']; subst.
  split_and!.
  - intros n' d Hin Hd. apply elem_of_app in Hin as [Hin|Hin%list_elem_of_singleton].
    + assert (n' <> n) as Hne by (intros ->; apply (Hdisj n Hin); by left).
      apply (kept_other n n' d fs); try done; [apply Hnames, elem_of_app; by left| |by apply H1].
      intros ->. assert (text_le (n +:+ ".error.log") n) as Hle.
      { apply (StronglySorted_app_1_elem_of text_le handled (n :: rest)); [done|done|by left]. }
      unfold text_le in Hle. by rewrite ltb_longer in Hle.
    + subst n'. apply (outcome_own n d fs); try done. apply H2; [by left|done].
  - intros n' d Hin Hd. assert (n <> n') as Hne by (by intros ->).
    assert (is_name n' = true) as Hn' by (apply Hnames, elem_of_app; right; by right).
    rewrite (outcome_other n n' (dropped_at n') fs); try done; [apply H2; [by right|done]|by left|].
    apply dropped_not_error; [done|by apply log_name].
  - intros p Hu Hp. rewrite (outcome_outside n p fs); try done. by apply H3.
Qed.

Lemma run_loop_state rest : forall handled fs0 w,
  Forall (fun n => is_name n = true) (handled ++ rest) -> StronglySorted text_le (handled ++ rest) -> NoDup (handled ++ rest) ->
  drop_state fs0 (files (st w)) handled rest ->
  exists handled' rest', handled ++ rest = handled' ++ rest' /\
    drop_state fs0 (files (st (forS run_drop rest w).2)) handled' rest'.
Proof.
  induction rest as [|n rest IH]; intros handled fs0 w Hnames Hsort Hnd Hl; [by exists handled, []|].
  assert (is_name n = true) as Hn by (rewrite Forall_forall in Hnames; apply Hnames, elem_of_app; right; by left).
  cbn [forS]. unfold mbind, Svc_bind. pose proof (drop_file_files n w Hn) as Ho.
  assert (handled ++ n :: rest = (handled ++ [n]) ++ rest) as E by (by rewrite <-app_assoc).
  pose proof (loop_step fs0 _ _ handled n rest Hnames Hsort Hnd Ho Hl) as Hl'.
  destruct (run_drop n w) as [[[]|e] w1]; cbn [snd] in *.
  - rewrite E in Hnames, Hsort, Hnd |- *. by apply IH.
  - exists (handled ++ [n]), rest. done.
Qed.

(** C31. A poll loses no file that was dropped, whatever fails: each is in its place, in
    the processed directory or among the errors, with its content. And no other
    file is changed than those below the watched directory, except by the
    deliveries themselves. The processed directory is below the watched one, as
    [Start] demands, and deliveries do not change files there. *)
Theorem file_drop_keeps_files pipeline w :
  pipeline = Some process ->
  let fs := files (st w) in
  let fs' := files (st (FileDrop_pollOnce cwd torn TypeByExtension FormatFloat pipeline tenantID channelID cfg w).2) in
  (forall n d, is_name n = true -> fs !! dropped_at n = Some d -> kept_file n d fs') /\
  (forall p, untouched p -> outside_watch p -> fs' !! p = fs !! p).
Proof.
  intros -> fs fs'. subst fs fs'. unfold FileDrop_pollOnce, mbind, Svc_bind, tryS, os_ReadDir_files, exec, at_path.
  destruct (fault (ticks w)); [split; [by left|done]|]. destruct (decide (fdWatchPath cfg = "")) as [|_]; [split; [by left|done]|].
  set (l := files_in _ _). set (w1 := mkSys _ _). destruct (files_in_sorted watch (files (st w))) as [Hs Hnd]. fold l in Hs, Hnd.
  pose proof (files_in_names (files (st w))) as Hnames. fold l in Hnames.
  destruct (run_loop_state l [] (files (st w)) w1) as (handled & rest & El & H1 & H2 & H3); try done.
  { split_and!; [intros n d Hin; by apply elem_of_nil in Hin|done|done]. }
  split; [|done]. intros n d Hn Hd. cbn [app] in El.
  assert (n ∈ l) as Hin.
  { apply elem_files_in. exists (dropped_at n). split_and!; [by exists d| |].
    - unfold dropped_at. apply IsAbs_path_of, place_shape. by constructor.
    - unfold dropped_at. apply elements_path_of, place_shape. by constructor. }
  rewrite El in Hin. apply elem_of_app in Hin as [Hin|Hin]; [by apply H1|left; by apply H2].
Qed.
End FileDrop.

(** ** E-mail *)

Section Email.
Context `{R : Runtime}.
Context (FormatFloat : Qc -> string) (process : ChannelRequest -> CSvc PipelineResult) (driver : IMAPDriver)
  (secret : uuid -> string -> CSvc string) (tenantID channelID : uuid) (cfg : EmailConfig).

(** A message was delivered. *)
Definition delivered (m : IMAPMessage) : Prop :=
  exists w res w', process (mail_request FormatFloat tenantID channelID m) w = (Ok res, w').

Definition justified (msgs : list IMAPMessage) (c : mail_command) : Prop :=
  match c with
  | MarkRead mailbox uid | DeleteMail mailbox uid =>
      mailbox = emMailbox cfg /\ exists m, m ∈ msgs /\ imSeen m = false /\ imUID m = uid /\ delivered m
  | CloseMail => True
  end.

Lemma poll_message_justified msgs m sent w sent' w' :
  m ∈ msgs -> Forall (justified msgs) sent ->
  poll_message FormatFloat process tenantID channelID cfg sent m w = (Ok sent', w') -> Forall (justified msgs) sent'.
Proof.
  intros Hm Hs. unfold poll_message, mbind, Svc_bind, tryS, mret, Svc_ret. destruct (imSeen m) eqn:Es; [intros H; by simplify_eq|].
  destruct (process _ w) as [[res|e] w1] eqn:Ep; intros H; cbn in H; simplify_eq; [|done]. apply Forall_app. split; [done|].
  unfold mail_done. apply Forall_app.
  assert (exists m0, m0 ∈ msgs /\ imSeen m0 = false /\ imUID m0 = imUID m /\ delivered m0) as Hj.
  { exists m. split_and!; try done. by exists w, res, w'. }
  split; [destruct (emMarkAsRead cfg)|destruct (emDeleteAfterProcess cfg)]; (apply Forall_nil_2 || apply Forall_singleton; by split).
Qed.

Lemma poll_messages_justified msgs : forall l sent w sent' w',
  l ⊆ msgs -> Forall (justified msgs) sent ->
  foldS (poll_message FormatFloat process tenantID channelID cfg) l sent w = (Ok sent', w') -> Forall (justified msgs) sent'.
Proof.
  induction l as [|m l IH]; intros sent w sent' w' Hl Hs H; cbn [foldS] in H; [unfold mret, Svc_ret in H; by simplify_eq|].
  apply bindS_inv in H as (sent1 & w1 & H1 & H). eapply IH; [set_solver| |exact H].
  eapply poll_message_justified; [|exact Hs|exact H1]. set_solver.
Qed.

(** A message is marked as read or deleted only when it was not read before and
    its delivery succeeded: what is not delivered stays in the mailbox. *)
Theorem mail_kept_until_delivered w cmds w' :
  Email_pollOnce FormatFloat (Some process) (Some driver) (Some secret) tenantID channelID cfg w = (Ok cmds, w') ->
  cmds = [] \/ exists k msgs, Forall (justified msgs) cmds /\
    (imapFetch driver k (emMailbox cfg) 50 = Ok msgs \/ msgs = []).
Proof.
  unfold Email_pollOnce. intros H. apply bindS_inv in H as (login & w1 & _ & H).
  destruct login as [[]|e]; [|unfold mret, Svc_ret in H; simplify_eq; by left]. right. unfold email_session in H.
  apply bindS_inv in H as (fetched & w2 & Hf & H). unfold tryS, callS in Hf. injection Hf as Hf <-.
  apply bindS_inv in H as (sent & w3 & Hs & H). unfold mret, Svc_ret in H. injection H as <- <-.
  destruct fetched as [msgs|e].
  - exists (ticks w1), msgs. split; [|by left]. apply Forall_app. split; [|by repeat constructor].
    eapply poll_messages_justified; [|constructor|exact Hs]. done.
  - exists 0%nat, []. split; [|by right]. unfold mret, Svc_ret in Hs. injection Hs as <- _. by repeat constructor.
Qed.
End Email.

(** ** The handlers *)

Section Admin.
Context `{R : Runtime}.
Context (uuid_Parse : string -> result goerr uuid).

(** The handlers that ask the store. *)
Inductive admin_call : Type := CallList | CallCreate | CallGet | CallUpdate | CallDelete | CallEvents.
Definition admin_handler (c : admin_call) : AdminRequest -> MSvc AdminReply :=
  match c with
  | CallList => API_List
  | CallCreate => API_Create
  | CallGet => API_Get uuid_Parse
  | CallUpdate => API_Update uuid_Parse
  | CallDelete => API_Delete uuid_Parse
  | CallEvents => API_Events uuid_Parse
  end.

Definition others_kept (tenant : uuid) (s s' : CSite) : Prop :=
  (forall id row, channels (own s) !! id = Some row -> chTenantID (crChannel row) <> tenant ->
                  channels (own s') !! id = Some row) /\
  channel_events (own s') = channel_events (own s).
Definition reply_of (tenant : uuid) (r : AdminReply) : Prop :=
  match r with
  | AChannels l => Forall (fun c => chTenantID c = tenant) l
  | AChannel _ c => chTenantID c = tenant
  | AEvents l => Forall (fun e => erTenantID e = tenant) l
  | _ => True
  end.

Lemma others_refl tenant s : others_kept tenant s s.
Proof. by split. Qed.

(** A statement that keeps what other tenants have. *)
Lemma exec_site_scope {A} (run : nat -> Z -> CSite -> result goerr (A * CSite)) tenant (Q : A -> Prop) (w : Sys CSite) :
  (forall k now s a s', run k now s = Ok (a, s') -> others_kept tenant s s' /\ Q a) ->
  others_kept tenant (st w) (st (exec_site run w).2) /\ (forall a, (exec_site run w).1 = Ok a -> Q a).
Proof.
  intros H. unfold exec_site. destruct (fault (ticks w)); [split; [apply others_refl|done]|].
  destruct (run _ _ _) as [[a s']|e] eqn:E; [|split; [apply others_refl|done]]. destruct (H _ _ _ _ _ E) as [Ho Hq].
  split; [done|]. intros a' [= <-]. done.
Qed.

Lemma answer_scope {A} (p : CSvc A) status code done tenant (Q : A -> Prop) (w : Sys ChannelManager) reply w' :
  (forall w, others_kept tenant (st w) (st (p w).2) /\ (forall a, (p w).1 = Ok a -> Q a)) ->
  (forall a, Q a -> reply_of tenant (done a)) ->
  answer (on_site p) status code done w = (Ok reply, w') ->
  others_kept tenant (cmSite (st w)) (cmSite (st w')) /\ reply_of tenant reply.
Proof.
  intros Hp Hd. unfold answer, tryS, mbind, Svc_bind, on_site, mret, Svc_ret.
  destruct (Hp (mkSys (cmSite (st w)) (ticks w))) as [Ho Hq]. destruct (p _) as [[a|e] w1]; cbn in *; intros H; simplify_eq/=.
  - split; [done|]. by apply Hd, Hq.
  - by split.
Qed.

Lemma set_channels_scope tenant s f :
  (forall id row, channels (own s) !! id = Some row -> chTenantID (crChannel row) <> tenant -> f (channels (own s)) !! id = Some row) ->
  others_kept tenant s (set_own (set_channels f) s).
Proof. intros H. split; [|by destruct s as [? ? []]]. intros id row Hr Ht. destruct s as [? ? []]. cbn in *. by apply H. Qed.

Lemma wrap_scope {A} (p : CSvc A) g tenant (Q : A -> Prop) (w : Sys CSite) :
  (others_kept tenant (st w) (st (p w).2) /\ (forall a, (p w).1 = Ok a -> Q a)) ->
  others_kept tenant (st w) (st (wrapS g p w).2) /\ (forall a, (wrapS g p w).1 = Ok a -> Q a).
Proof. unfold wrapS. destruct (p w) as [[a|e] w1]; cbn; [done|]. by intros [H _]. Qed.

Lemma sorted_rows_of {A} (le : relation A) `{!RelDecision le} (P : A -> Prop) l : Forall P l -> Forall P (merge_sort le l).
Proof. by rewrite merge_sort_Permutation. Qed.

(** The handlers of the store work on the channels and events of the principal's
    tenant alone: they show no others and change no others. *)
Theorem channel_admin_scope c r tenant w reply w' :
  aqTenant r = Some tenant -> admin_handler c r w = (Ok reply, w') ->
  others_kept tenant (cmSite (st w)) (cmSite (st w')) /\ reply_of tenant reply.
Proof.
  intros Ht. destruct c; cbn [admin_handler]; unfold API_List, API_Create, API_Get, API_Update, API_Delete, API_Events,
    as_principal; rewrite Ht; unfold with_id, with_body; intros H;
    repeat match type of H with
    | context [uuid_Parse ?x] => destruct (uuid_Parse x) as [id|]; [|unfold mret, Svc_ret in H; simplify_eq; by split; [apply others_refl|]]
    | context [aqBody ?x] => destruct (aqBody x) as [ch|]; [|unfold mret, Svc_ret in H; simplify_eq; by split; [apply others_refl|]]
    end.
  - refine (answer_scope _ _ _ _ _ (Forall (fun c => chTenantID c = tenant)) _ _ _ _ _ H); [|intros a Ha; exact Ha].
    intros w1. apply wrap_scope, exec_site_scope. intros k now s a s' [= <- <-]. split; [apply others_refl|].
    apply sorted_rows_of. unfold channel_rows. apply Forall_map, Forall_forall. intros x Hx.
    apply list_elem_of_filter in Hx as [Hx _]. unfold row_of in Hx. by boolp.
  - apply bindS_inv in H as (fresh & w1 & Hf & H). unfold callS in Hf. injection Hf as _ <-.
    refine (answer_scope _ _ _ _ _ (fun _ => True) _ _ _ _ _ H); [|done].
    intros w1. apply wrap_scope, exec_site_scope. intros k now s a s'. destruct (channel_check _ _); [done|].
    destruct (decide (is_Some _)) as [|Hno]; [done|]. intros [= <- <-]. split; [|done]. apply set_channels_scope. intros id row Hr Hne.
    rewrite lookup_insert_ne; [done|]. intros <-. apply Hno. by exists row.
  - refine (answer_scope _ _ _ _ _ (fun c => chTenantID c = tenant) _ _ _ _ _ H); [|intros a Ha; exact Ha].
    intros w1. apply exec_site_scope. intros k now s a s' E. destruct (channels (own s) !! id) as [row|]; [|done].
    destruct (row_of tenant row) eqn:Er; [|done]. injection E as <- <-. split; [apply others_refl|].
    unfold row_of in Er. by boolp.
  - refine (answer_scope _ _ _ _ _ (fun _ => True) _ _ _ _ _ H); [|done].
    intros w1. apply wrap_scope, exec_site_scope. intros k now s a s'. cbn [chID chTenantID with_ids].
    destruct (channels (own s) !! id) as [row|] eqn:E; [|destruct (decide _); [done|]; intros [= <- <-]; split; [apply others_refl|done]].
    destruct (row_of tenant row) eqn:Er; [|destruct (decide _); [done|]; intros [= <- <-]; split; [apply others_refl|done]].
    destruct (channel_check _ _); [done|]. intros [= <- <-]. split; [|done]. apply set_channels_scope. intros id' row' Hr Hne.
    rewrite lookup_insert_ne; [done|]. intros <-. replace row' with row in Hne by congruence. unfold row_of in Er. by boolp.
  - refine (answer_scope _ _ _ _ _ (fun _ => True) _ _ _ _ _ H); [|done].
    intros w1. apply wrap_scope, exec_site_scope. intros k now s a s' [= <- <-]. split; [|done]. apply set_channels_scope. intros id' row' Hr Hne.
    destruct (decide (id' = id)) as [->|N]; [|by rewrite lookup_alter_ne]. rewrite lookup_alter_eq, Hr. cbn. by rewrite bool_decide_eq_false_2.
  - refine (answer_scope _ _ _ _ _ (Forall (fun e => erTenantID e = tenant)) _ _ _ _ _ H); [|intros a Ha; exact Ha].
    intros w1. apply wrap_scope, exec_site_scope. intros k now s a s'. destruct (_ <? _)%Z; [done|]. intros [= <- <-].
    split; [apply others_refl|]. apply Forall_take, Forall_drop, sorted_rows_of, Forall_forall. intros e He.
    apply list_elem_of_filter in He as [[He _] _]. done.
Qed.
End Admin.

(** ** Examples *)

Module RunnersExample.
Definition no_db : World := mkWorld (mkDB ∅ ∅ [] ∅ ∅ [] ∅ ∅ ∅ ∅) None 0 0 [] [] [].
Definition site_with (fs : gmap string string) (rows : gmap uuid ChannelRow) : CSite := mkSite no_db fs (mkTables rows []).
Definition drop_config : FileDropConfig := mkFileDropConfig "/in" "/in/done" ["*"] 30.
Definition accept (rq : ChannelRequest) : CSvc PipelineResult := mret no_result.
Definition refuse (rq : ChannelRequest) : CSvc PipelineResult := fail (Errorf "no case" []).
Definition no_part (k : nat) (s : string) : option string := None.
Definition by_ext (s : string) : string := "".
Definition zero (q : Qc) : string := "0".
Definition poll (process : ChannelRequest -> CSvc PipelineResult) (fs : gmap string string) : gmap string string :=
  files (st (@FileDrop_pollOnce example_runtime "/srv" no_part by_ext zero (Some process) 1 9 drop_config
    (mkSys (site_with fs ∅) 0)).2).

Lemma file_drop_keeps_files_witness :
  kept_file "/srv" drop_config "a.csv" "x" (poll accept {[ "/in/a.csv" := "x" ]}) /\
  poll accept {[ "/in/a.csv" := "x" ]} !! "/in/done/a.csv" = Some "x".
Proof.
  split; [|vm_compute; reflexivity].
  apply (@file_drop_keeps_files example_runtime "/srv" eq_refl no_part by_ext zero accept 1 9 drop_config
    (fun l Hl rq w => eq_refl) eq_refl (Some accept) (mkSys (site_with {[ "/in/a.csv" := "x" ]} ∅) 0) eq_refl); reflexivity.
Defined.

(** A file that fails replaces an earlier one of the same name that failed. *)
Theorem earlier_error_lost :
  let fs := poll refuse {[ "/in/a" := "new"; "/in/errors/a" := "old" ]} in
  length (map_to_list fs) = 2%nat /\ fs !! "/in/errors/a" = Some "new" /\ fs !! "/in/errors/a.error.log" = Some ("no case" +:+ newline).
Proof. vm_compute. split_and!; reflexivity. Qed.

Definition mail : IMAPMessage := mkIMAPMessage "7" "Hello" "a@x.org" "" "text" "" false (fun _ => "").
Definition box : IMAPDriver := mkIMAPDriver (fun _ _ => Ok tt) (fun _ _ _ => Ok [mail]).
Definition mail_config : EmailConfig := EmailConfig_WithDefaults (mkEmailConfig "h" 993 true "u" "p" "" 0 false false).
Definition poll_mail := Email_pollOnce zero (Some accept) (Some box) (Some (fun _ _ => mret "secret")) 1 9 mail_config.
Lemma mail_kept_until_delivered_witness :
  exists cmds w', poll_mail (mkSys (site_with ∅ ∅) 0) = (Ok cmds, w') /\ MarkRead "INBOX" "7" ∈ cmds /\
    (cmds = [] \/ exists k msgs, Forall (justified zero accept 1 9 mail_config msgs) cmds /\
      (imapFetch box k (emMailbox mail_config) 50 = Ok msgs \/ msgs = [])).
Proof.
  destruct (poll_mail (mkSys (site_with ∅ ∅) 0)) as [[cmds|e] w'] eqn:E.
  - assert (cmds = [MarkRead "INBOX" "7"; CloseMail]) as Hc.
    { apply (f_equal (fun x => match x.1 with Ok c => c | Err _ => [] end)) in E. vm_compute in E. congruence. }
    refine (ex_intro _ cmds (ex_intro _ w' (conj eq_refl (conj _
      (mail_kept_until_delivered zero accept box (fun _ _ => mret "secret") 1 9 mail_config (mkSys (site_with ∅ ∅) 0) cmds w' E))))).
    rewrite Hc. by left.
  - exfalso. apply (f_equal (fun x => is_ok x.1)) in E. vm_compute in E. discriminate.
Defined.

(** A channel of tenant 1 that drops files. *)
Definition drop_json : json := JObj [("processed_path", JStr "/in/done"); ("watch_path", JStr "/in")].
Definition drop_channel (enabled : bool) : Channel :=
  mkChannel 9 1 "Drop" ChannelFileDrop "" (Some drop_json) 20 None [] (mkDedupConfig "none" [] 0) enabled 0 0.
Definition plugin_channel : Channel :=
  mkChannel 9 1 "Queue" ChannelPlugin "queue" (Some drop_json) 20 None [] (mkDedupConfig "none" [] 0) true 0 0.
Definition no_triggers : Triggers.Manager := mkManager ∅ ∅ ∅ [] [].
Definition manager (c : Channel) : Sys ChannelManager :=
  mkSys (mkChannelManager (site_with ∅ {[ 9%N := mkChannelRow c None ]}) no_triggers ∅ ∅) 0.
Definition parse_id (s : string) : result goerr uuid := if decide (s = "9") then Ok 9%N else Err (Errorf "invalid" []).
Definition request (tenant : uuid) (ctx : nat) : AdminRequest := mkAdminRequest (Some tenant) ctx "9" (Err (Errorf "EOF" [])) "" "".
Definition start_queue (id : uuid) (ref : string * string) (c : option (result goerr json)) : Svc Triggers.Manager unit :=
  changes (add_call (CallStart ref.1 ref.2 1)).
Definition enable (tenant : uuid) (ctx : nat) : MSvc AdminReply :=
  @API_Enable example_runtime "/srv" None (Some start_queue) parse_id (request tenant ctx).
Definition disable (tenant : uuid) : MSvc AdminReply := @API_Disable example_runtime parse_id (request tenant 0).
Definition loops_of (w : Sys ChannelManager) : nat := length (map_to_list (cmLoops (st w))).
Definition flag_of (w : Sys ChannelManager) : option bool :=
  (fun r => chEnabled (crChannel r)) <$> channels (own (cmSite (st w))) !! 9%N.

Lemma channel_admin_scope_witness :
  exists reply w', @API_Get example_runtime parse_id (request 2 0) (manager (drop_channel true)) = (Ok reply, w') /\
    others_kept 2 (cmSite (st (manager (drop_channel true)))) (cmSite (st w')) /\ reply_of 2 reply.
Proof.
  destruct (@API_Get example_runtime parse_id (request 2 0) (manager (drop_channel true))) as [[reply|e] w'] eqn:E.
  - exact (ex_intro _ reply (ex_intro _ w' (conj eq_refl
      (@channel_admin_scope example_runtime parse_id CallGet (request 2 0) 2%N (manager (drop_channel true)) reply w' eq_refl E)))).
  - exfalso. apply (f_equal (fun x => is_ok x.1)) in E. vm_compute in E. discriminate.
Defined.

(** Enabled through the interface, a channel polls until the request is answered. *)
Theorem enable_lasts_one_request :
  let w := (enable 1 5 (manager (drop_channel false))).2 in
  loops_of w = 1%nat /\ cmLoops (end_context 5 (st w)) = ∅ /\ flag_of w = Some true.
Proof. vm_compute. split_and!; reflexivity. Qed.

(** Enabled twice and disabled once, one of the loops goes on. *)
Theorem enable_twice_leaks :
  let w := (disable 1 ((enable 1 0 ((enable 1 0 (manager (drop_channel false))).2)).2)).2 in
  loops_of w = 1%nat /\ cmChannels (st w) = ∅ /\ flag_of w = Some false.
Proof. vm_compute. split_and!; reflexivity. Qed.

(** The principal of another tenant can disable the channel. *)
Theorem disable_by_other_tenant : flag_of (disable 2 (manager (drop_channel true))).2 = Some false.
Proof. vm_compute. reflexivity. Qed.

(** The trigger of a plugin channel is started, and disabling does not stop it. *)
Theorem disable_keeps_trigger :
  plugin_calls (cmTriggers (st (disable 1 ((enable 1 0 (manager plugin_channel)).2)).2)) = [CallStart "queue" "" 1].
Proof. vm_compute. reflexivity. Qed.
End RunnersExample.
