(* ===== verification/HttpFw.v ===== *)
(** * HTTP requests of plugins ([internal/http])

    Validation of URLs, rate limits, credentials with the cache of OAuth tokens,
    and the client that puts them together, with the redirects that [net/http] follows
    on its own. [url.Parse], [netip.ParseAddr], the resolver, the transport of one
    request and the token bucket of [golang.org/x/time/rate] are outside. The requests
    that go out are kept as a trace. *)

From S2P Require Import Prelude GoStrings Json EngineTypes Store GoText Effects Triggers JsonText VaultStore ChannelIntake.

(** ** Addresses ([net/netip]) *)

(** The bits of an address; an IPv6 address may have a zone. *)
Inductive Addr : Type :=
| V4 (bits : Z)
| V6 (bits : Z) (zone : string).

Definition Is4In6 (a : Addr) : bool :=
  match a with V6 bits _ => (Z.shiftr bits 32 =? 65535)%Z | V4 _ => false end.
Definition Unmap (a : Addr) : Addr :=
  match a with
  | V6 bits _ => if Is4In6 a then V4 (bits mod 2 ^ 32)%Z else a
  | V4 _ => a
  end.
Definition IsLoopback (a : Addr) : bool :=
  match Unmap a with
  | V4 bits => (Z.shiftr bits 24 =? 127)%Z
  | V6 bits _ => (bits =? 1)%Z
  end.

(** A prefix of so many bits. [Contains] is false for an address with a zone. *)
Inductive Prefix : Type := P4 (bits : Z) (len : Z) | P6 (bits : Z) (len : Z).
Definition Contains_addr (p : Prefix) (a : Addr) : bool :=
  match p, a with
  | P4 net len, V4 bits => (Z.shiftr bits (32 - len) =? Z.shiftr net (32 - len))%Z
  | P6 net len, V6 bits zone => bool_decide (zone = "") && (Z.shiftr bits (128 - len) =? Z.shiftr net (128 - len))%Z
  | _, _ => false
  end.

Definition ipv4 (a b c d : Z) : Z := (((a * 256 + b) * 256 + c) * 256 + d)%Z.
Definition privateRanges : list Prefix :=
  [P4 (ipv4 127 0 0 0) 8; P4 (ipv4 10 0 0 0) 8; P4 (ipv4 172 16 0 0) 12; P4 (ipv4 192 168 0 0) 16;
   P4 (ipv4 169 254 0 0) 16; P4 (ipv4 0 0 0 0) 8; P6 1 128; P6 (Z.shiftl 252 120) 7].
Definition isPrivateOrBlockedAddr (a : Addr) : bool := existsb (fun p => Contains_addr p (Unmap a)) privateRanges.

(** ** State *)

Record tokenKey : Type := mkTokenKey { tkTenantID : string; tkTokenEndpoint : string; tkClientID : string }.
#[export] Instance tokenKey_eq_dec : EqDecision tokenKey.
Proof. solve_decision. Defined.
#[export] Instance tokenKey_countable : Countable tokenKey.
Proof.
  refine (inj_countable' (fun k => (tkTenantID k, tkTokenEndpoint k, tkClientID k))
    (fun p => mkTokenKey p.1.1 p.1.2 p.2) _). by intros [].
Defined.
Record cachedToken : Type := mkCachedToken { ctAccessToken : string; ctExpiresAt : Z }.

(** A limiter: rate and burst. *)
Record Limiter : Type := mkLimiter { lmRate : Qc; lmBurst : Z }.

(** What goes out, and when. *)
Inductive outgoing : Type :=
| PluginRequest (time : Z) (tenant method url : string) (header : gmap string string) (body : string) (timeout : Z)
| RedirectRequest (time : Z) (tenant method url : string) (header : gmap string string) (body : string) (timeout : Z)
| TokenRequest (time : Z) (endpoint : string) (form : list (string * string)).

Record HttpState : Type := mkHttpState {
  hsAllowlists : gmap string (gset string);
  hsPluginLimits : gmap (string * string) Limiter;
  hsTenantLimits : gmap string Limiter;
  hsDomainPauses : gmap (string * string) Z;
  hsTokens : gmap tokenKey cachedToken;
  hsSent : list outgoing
}.
Definition set_allowlists f (s : HttpState) : HttpState :=
  mkHttpState (f (hsAllowlists s)) (hsPluginLimits s) (hsTenantLimits s) (hsDomainPauses s) (hsTokens s) (hsSent s).
Definition set_plugin_limits f (s : HttpState) : HttpState :=
  mkHttpState (hsAllowlists s) (f (hsPluginLimits s)) (hsTenantLimits s) (hsDomainPauses s) (hsTokens s) (hsSent s).
Definition set_tenant_limits f (s : HttpState) : HttpState :=
  mkHttpState (hsAllowlists s) (hsPluginLimits s) (f (hsTenantLimits s)) (hsDomainPauses s) (hsTokens s) (hsSent s).
Definition set_pauses f (s : HttpState) : HttpState :=
  mkHttpState (hsAllowlists s) (hsPluginLimits s) (hsTenantLimits s) (f (hsDomainPauses s)) (hsTokens s) (hsSent s).
Definition set_tokens f (s : HttpState) : HttpState :=
  mkHttpState (hsAllowlists s) (hsPluginLimits s) (hsTenantLimits s) (hsDomainPauses s) (f (hsTokens s)) (hsSent s).
Definition add_sent (o : outgoing) (s : HttpState) : HttpState :=
  mkHttpState (hsAllowlists s) (hsPluginLimits s) (hsTenantLimits s) (hsDomainPauses s) (hsTokens s) (hsSent s ++ [o]).
Abbreviation HSvc := (Svc HttpState).

(** ** Configuration *)

Record ClientConfig : Type := mkClientConfig {
  ccMaxIdleConns : Z; ccMaxIdleConnsPerHost : Z; ccIdleConnTimeout : Z; ccMaxResponseBodySize : Z; ccSystemMaxTimeout : Z
}.
Definition applyConfigDefaults (c : ClientConfig) : ClientConfig :=
  mkClientConfig (positive_or (ccMaxIdleConns c) 1000) (positive_or (ccMaxIdleConnsPerHost c) 100)
    (positive_or (ccIdleConnTimeout c) (90 * Second)) (positive_or (ccMaxResponseBodySize c) (10 * 2 ^ 20))
    (positive_or (ccSystemMaxTimeout c) (60 * Second)).

Record RateLimitDefaults : Type := mkRateLimitDefaults { rdGlobalPerTenant : Qc; rdGlobalBurst : Z }.
Definition NewRateLimitManager_defaults (d : RateLimitDefaults) : RateLimitDefaults :=
  mkRateLimitDefaults (if Qclt_le_dec 0 (rdGlobalPerTenant d) then rdGlobalPerTenant d else Q2Qc (inject_Z 100)) (positive_or (rdGlobalBurst d) 150).

Record AuthConfig : Type := mkAuthConfig {
  acType : string; acHeaderName : string; acSecretRef : string; acUsernameRef : string; acPasswordRef : string;
  acTokenEndpoint : string; acClientIDRef : string; acClientSecretRef : string; acScopes : list string;
  acAlgorithm : string; acSignatureHeader : string
}.
(** The headers in the order in which Go visits the map. *)
Record PluginHTTPRequest : Type := mkPluginHTTPRequest {
  hqTenantID : string; hqPluginID : string; hqMethod : string; hqURL : string; hqHeaders : list (string * string);
  hqBody : string; hqTimeoutMS : Z; hqAuthConfig : option AuthConfig
}.
Record PluginHTTPResponse : Type := mkPluginHTTPResponse {
  hrStatus : Z; hrStatusText : string; hrHeaders : list (string * string); hrBody : string; hrDurationMS : Z
}.
(** What the transport gives. *)
Record HTTPReply : Type := mkHTTPReply {
  heStatus : Z; heStatusText : string; heHeader : list (string * list string); heBody : result goerr string
}.
(** The answer of a token endpoint: status, text, and what the decoder makes of it. *)
Record TokenReply : Type := mkTokenReply { trStatus : Z; trBody : string; trJSON : result goerr json }.

Section HttpFw.
Context `{R : Runtime}.
Context (productionMode : bool) (defaults : RateLimitDefaults) (config : ClientConfig).
(** [url.Parse]: scheme and host name; [netip.ParseAddr]; [net.LookupIP]. *)
Context (url_Parse : string -> result goerr (string * string)) (ParseAddr : string -> option Addr)
  (LookupIP : nat -> string -> result goerr (list Addr)).

(** ** [validator.go] *)

Definition tenant_allowlist (tenantID : string) (s : HttpState) : gset string := default ∅ (hsAllowlists s !! tenantID).

Definition SetAllowlist (tenantID : string) (domains : list string) : HSvc unit :=
  let domains : gset string := list_to_set (filter (fun d => d <> "") (map (fun d => ToLower (TrimSpace d)) domains)) in
  changes (set_allowlists (if decide (domains = ∅) then delete tenantID else <[tenantID := domains]>)).

Definition validateAllowlist (tenantID host : string) (s : HttpState) : result goerr unit :=
  let list := tenant_allowlist tenantID s in
  if decide (list = ∅) then Ok tt
  else if decide (host ∈ list) then Ok tt else Err (Errorf "domain not in allowlist: %s" [host]).
Definition isHostAllowlisted (tenantID host : string) (s : HttpState) : bool := bool_decide (host ∈ tenant_allowlist tenantID s).

Definition resolve (host : string) : HSvc (list Addr) :=
  match ParseAddr host with
  | Some ip => mret [ip]
  | None => callS (fun k => ips ← LookupIP k host; Ok (map Unmap ips))
  end.

Definition isDevHTTPOK (host : string) : bool :=
  let h := ToLower (TrimSpace host) in
  bool_decide (h = "localhost") || match ParseAddr h with Some ip => IsLoopback ip | None => false end.

Definition missing_host : goerr := Errorf "invalid URL: missing host" [].
Definition parse_url (rawURL : string) : result goerr (string * string) :=
  match url_Parse rawURL with
  | Err e => Err (Wrapf "invalid URL: %w" [] e)
  | Ok p => if decide (p.2 = "") then Err missing_host else Ok (ToLower p.1, ToLower p.2)
  end.

(** The rules on the scheme. *)
Definition check_scheme (tenantID scheme host : string) (s : HttpState) : result goerr unit :=
  if decide (scheme = "https") then Ok tt
  else if productionMode then Err (Errorf "HTTPS required in production mode" [])
  else if negb (isDevHTTPOK host) && negb (isHostAllowlisted tenantID host s)
  then Err (Errorf "HTTP only allowed for localhost and configured test domains" [])
  else Ok tt.

Definition Validate (tenantID rawURL : string) : HSvc unit :=
  parsed ← pureS (parse_url rawURL);
  let '(scheme, host) := parsed in
  scheme_ok ← reads (check_scheme tenantID scheme host);
  _ ← pureS scheme_ok;
  listed ← reads (validateAllowlist tenantID host);
  _ ← pureS listed;
  addrs ← wrapS (Wrapf "resolve host %s: %w" [host]) (resolve host);
  guardS (negb (existsb isPrivateOrBlockedAddr addrs)) (Errorf "request to private IP range blocked" []).

Definition extractDomain (rawURL : string) : result goerr string := p ← parse_url rawURL; Ok p.2.

(** ** [ratelimit.go] *)

(** [limiter.Wait] and the end of a timer or of the context, whichever is first. *)
Context (limiter_Wait : nat -> Limiter -> result goerr unit) (timer : nat -> Z -> option goerr).

Definition SetPluginLimit (tenantID pluginID : string) (rps : Qc) (burst : Z) : HSvc unit :=
  if Qclt_le_dec 0 rps then changes (set_plugin_limits (<[(tenantID, pluginID) := mkLimiter rps (positive_or burst 1)]>))
  else mret tt.

Definition domain_key (tenantID domain : string) : string * string := (tenantID, ToLower (TrimSpace domain)).
Definition PauseDomain (tenantID domain : string) (until : Z) : HSvc unit :=
  changes (set_pauses (partial_alter (fun cur => match cur with
    | Some c => Some (if (c <? until)%Z then until else c)
    | None => Some until
    end) (domain_key tenantID domain))).

(** Paused, and until when. An entry that is over is removed. *)
Definition IsDomainPaused (tenantID domain : string) : HSvc (option Z) :=
  let key := domain_key tenantID domain in
  found ← reads (fun s => hsDomainPauses s !! key);
  match found with
  | None => mret None
  | Some until =>
      now ← nowS;
      if (until <? now)%Z then
        again ← nowS;
        _ ← changes (set_pauses (fun m => match m !! key with
                                          | Some current => if (again <? current)%Z then m else delete key m
                                          | None => m
                                          end));
        mret None
      else mret (Some until)
  end.

(** The loop of [Wait]; [false] when the rounds are used up. *)
Fixpoint wait_pause (fuel : nat) (tenantID domain : string) : HSvc bool :=
  match fuel with
  | O => mret false
  | S fuel =>
      paused ← IsDomainPaused tenantID domain;
      match paused with
      | None => mret true
      | Some until =>
          now ← nowS;
          if (until - now <=? 0)%Z then mret true
          else
            ended ← callS (fun k => Ok (timer k until));
            match ended with
            | Some e => fail e
            | None => wait_pause fuel tenantID domain
            end
      end
  end.

Definition getPluginLimiter (tenantID pluginID : string) (s : HttpState) : option Limiter :=
  if bool_decide (tenantID = "") || bool_decide (pluginID = "") then None else hsPluginLimits s !! (tenantID, pluginID).
Definition getTenantLimiter (tenantID : string) : HSvc Limiter :=
  let d := NewRateLimitManager_defaults defaults in
  let created := mkLimiter (rdGlobalPerTenant d) (rdGlobalBurst d) in
  _ ← changes (set_tenant_limits (partial_alter (fun l => Some (default created l)) tenantID));
  reads (fun s => default created (hsTenantLimits s !! tenantID)).

Definition Wait (fuel : nat) (tenantID pluginID domain : string) : HSvc bool :=
  limiter ← reads (getPluginLimiter tenantID pluginID);
  _ ← match limiter with Some l => callS (fun k => limiter_Wait k l) | None => mret tt end;
  go ← wait_pause fuel tenantID domain;
  if negb go then mret false
  else
    limiter ← getTenantLimiter tenantID;
    _ ← callS (fun k => limiter_Wait k limiter);
    mret true.

(** ** [token_cache.go] *)

Definition TokenCache_Get (key : tokenKey) : HSvc (option string) :=
  token ← reads (fun s => hsTokens s !! key);
  match token with
  | None => mret None
  | Some t => now ← nowS; mret (if (now <? ctExpiresAt t)%Z then Some (ctAccessToken t) else None)
  end.
Definition effective_expiry (expiresIn : Z) : Z := Z.max 0 (wrap64 (expiresIn - 60 * Second)).
Definition TokenCache_Set (key : tokenKey) (token : string) (expiresIn : Z) : HSvc unit :=
  now ← nowS;
  changes (set_tokens (<[key := mkCachedToken token (now + effective_expiry expiresIn)]>)).
Definition Invalidate (key : tokenKey) : HSvc unit := changes (set_tokens (delete key)).

(** ** [auth.go] *)

Context (SecretStore : option (nat -> string -> string -> result goerr string)).
(** [http.NewRequestWithContext] looks at the method and the URL. *)
Context (NewRequest : string -> string -> result goerr unit)
  (token_client : nat -> string -> list (string * string) -> result goerr TokenReply)
  (base64_Std : string -> string) (hmac_sha256 hmac_sha512 : string -> string -> string).

Definition getSecret (tenantID key : string) : HSvc string :=
  match SecretStore with
  | None => fail (Errorf "secret store unavailable" [])
  | Some get =>
      _ ← guardS (negb (bool_decide (TrimSpace key = ""))) (Errorf "secret reference required" []);
      value ← wrapS (Wrapf "resolve secret %s: %w" [key]) (callS (fun k => get k tenantID key));
      _ ← guardS (negb (bool_decide (value = ""))) (Errorf "resolve secret %s: empty value" [key]);
      mret value
  end.

(** A number of the answer is a float; outside of 64 bits the conversion gives the
    least integer. *)
Definition truncate_Qc (q : Qc) : Z := Z.quot (Qnum (this q)) (Zpos (Qden (this q))).
Definition float_to_int64 (q : Qc) : Z :=
  let z := truncate_Qc q in if (- 2 ^ 63 <=? z)%Z && (z <? 2 ^ 63)%Z then z else (- 2 ^ 63)%Z.
Definition parseExpiresIn (raw : option json) : Z :=
  match raw with
  | Some (JNum q) => wrap64 (float_to_int64 q * Second)
  | Some (JStr s) => match Atoi (TrimSpace s) with Some n => wrap64 (n * Second) | None => 0 end
  | _ => 0
  end.

Definition token_form (clientID clientSecret : string) (scopes : list string) : list (string * string) :=
  [("grant_type", "client_credentials"); ("client_id", clientID); ("client_secret", clientSecret)] ++
  (if decide (scopes = []) then [] else [("scope", Join " " scopes)]).

(** The struct of the answer. *)
Definition dec_token (j : json) : result goerr (string * option json) :=
  match j with
  | JObj m => token ← dec_field "access_token" dec_string "" m; Ok (token, obj_get "expires_in" m)
  | JNull => Ok ("", None)
  | _ => Err (unmarshal_type_error "struct")
  end.

Definition fetchOAuthToken (endpoint clientID clientSecret : string) (scopes : list string) : HSvc (string * Z) :=
  let form := token_form clientID clientSecret scopes in
  _ ← wrapS (Wrapf "build token request: %w" []) (pureS (NewRequest "POST" endpoint));
  now ← nowS;
  _ ← changes (add_sent (TokenRequest now endpoint form));
  resp ← wrapS (Wrapf "oauth2 token request: %w" []) (callS (fun k => token_client k endpoint form));
  _ ← guardS ((200 <=? trStatus resp)%Z && (trStatus resp <=? 299)%Z)
    (Errorf "oauth2 token endpoint failed: status=%d body=%s" [Itoa (trStatus resp); TrimSpace (limit_str 4096 (trBody resp))]);
  parsed ← wrapS (Wrapf "decode oauth2 token response: %w" []) (pureS (j ← trJSON resp; dec_token j));
  _ ← guardS (negb (bool_decide (TrimSpace parsed.1 = ""))) (Errorf "oauth2 token response missing access_token" []);
  let expiresIn := parseExpiresIn parsed.2 in
  mret (parsed.1, if (expiresIn <=? 0)%Z then (3600 * Second)%Z else expiresIn).

(** [flight.Do] runs the function for one caller at a time, and looks again. *)
Definition resolveOAuthToken (tenantID : string) (cfg : AuthConfig) : HSvc string :=
  clientID ← getSecret tenantID (acClientIDRef cfg);
  clientSecret ← getSecret tenantID (acClientSecretRef cfg);
  let endpoint := TrimSpace (acTokenEndpoint cfg) in
  _ ← guardS (negb (bool_decide (endpoint = ""))) (Errorf "oauth2 token endpoint is required" []);
  let key := mkTokenKey tenantID endpoint clientID in
  cached ← TokenCache_Get key;
  match cached with
  | Some token => mret token
  | None =>
      cached ← TokenCache_Get key;
      token ← match cached with
              | Some token => mret token
              | None =>
                  fetched ← fetchOAuthToken endpoint clientID clientSecret (acScopes cfg);
                  _ ← TokenCache_Set key fetched.1 fetched.2;
                  mret fetched.1
              end;
      _ ← guardS (negb (bool_decide (token = ""))) (Errorf "oauth2 token acquisition returned empty token" []);
      mret token
  end.

Definition hmacHasher (algorithm secret payload : string) : result goerr string :=
  let a := ToLower (TrimSpace algorithm) in
  if decide (a = "" \/ a = "sha256") then Ok (hex_encode (hmac_sha256 secret payload))
  else if decide (a = "sha512") then Ok (hex_encode (hmac_sha512 secret payload))
  else Err (Errorf "unsupported hmac algorithm: %s" [algorithm]).

Definition header_or (name dflt : string) : string := if decide (TrimSpace name = "") then dflt else TrimSpace name.

(** The header to set, if there is one. *)
Definition InjectAuth (tenantID body : string) (cfg : option AuthConfig) : HSvc (option (string * string)) :=
  match cfg with
  | None => mret None
  | Some c =>
      let t := ToLower (TrimSpace (acType c)) in
      if bool_decide (TrimSpace (acType c) = "") || EqualFold (acType c) "none" then mret None
      else if decide (t = "api_key") then
        secret ← getSecret tenantID (acSecretRef c); mret (Some (header_or (acHeaderName c) "X-API-Key", secret))
      else if decide (t = "bearer") then
        token ← getSecret tenantID (acSecretRef c); mret (Some ("Authorization", "Bearer " +:+ token))
      else if decide (t = "basic") then
        user ← getSecret tenantID (acUsernameRef c);
        pass ← getSecret tenantID (acPasswordRef c);
        mret (Some ("Authorization", "Basic " +:+ base64_Std (user +:+ ":" +:+ pass)))
      else if decide (t = "oauth2_client_credentials") then
        token ← resolveOAuthToken tenantID c; mret (Some ("Authorization", "Bearer " +:+ token))
      else if decide (t = "hmac") then
        secret ← getSecret tenantID (acSecretRef c);
        sig ← pureS (hmacHasher (acAlgorithm c) secret body);
        mret (Some (header_or (acSignatureHeader c) "X-Signature", sig))
      else fail (Errorf "unsupported auth type: %s" [acType c])
  end.

(** ** [client.go] *)

(** One request and its answer, with the error as [client.Do] reports it; a reference
    resolved against a URL; and the headers that go with a redirect, of those of the
    first request and by the URLs up to the next one: what is sensitive stays behind
    when the host changes, what describes a body that is dropped does too, and the
    referrer is added. *)
Context (CanonicalHeaderKey : string -> string)
  (round_trip : nat -> outgoing -> result goerr HTTPReply) (url_Join : string -> string -> result goerr string)
  (redirect_headers : gmap string string -> list string -> bool -> gmap string string) (ParseTime : string -> option Z).

Definition method_of (req : PluginHTTPRequest) : string :=
  let m := ToUpper (TrimSpace (hqMethod req)) in if decide (m = "") then "GET" else m.
Definition effective_timeout (req : PluginHTTPRequest) : Z :=
  let max := ccSystemMaxTimeout (applyConfigDefaults config) in
  if (0 <? hqTimeoutMS req)%Z then
    let requested := wrap64 (hqTimeoutMS req * Millisecond) in if (requested <? max)%Z then requested else max
  else max.

Definition set_header (h : gmap string string) (kv : string * string) : gmap string string :=
  <[CanonicalHeaderKey kv.1 := kv.2]> h.
Definition request_headers (req : PluginHTTPRequest) (auth : option (string * string)) : gmap string string :=
  let h := foldl set_header ∅ (hqHeaders req) in
  match auth with Some kv => set_header h kv | None => h end.

Definition max_response : Z := ccMaxResponseBodySize (applyConfigDefaults config).
(** [io.LimitReader] at one byte more, then the cut. *)
Definition readResponseBody (body : result goerr string) : result goerr (string * bool) :=
  match body with
  | Err e => Err (Wrapf "read response body: %w" [] e)
  | Ok whole =>
      let payload := limit_str (wrap64 (max_response + 1)) whole in
      if (max_response <? Z.of_nat (String.length payload))%Z then Ok (limit_str max_response payload, true) else Ok (payload, false)
  end.

Definition parseRetryAfter (raw : string) (now : Z) : option Z :=
  let raw := TrimSpace raw in
  if decide (raw = "") then None
  else match Atoi raw with
       | Some seconds => Some (now + wrap64 (seconds * Second))%Z
       | None => ParseTime raw
       end.

Definition header_get (name : string) (h : list (string * list string)) : string :=
  match filter (fun kv => kv.1 = CanonicalHeaderKey name) h with
  | (_, v :: _) :: _ => v
  | _ => ""
  end.

(** The redirects of [client.Do] ([net/http]), for which no policy is set here. The
    method of the next request, and whether the body goes with it; the body can be
    read again. *)
Definition redirectBehavior (method : string) (status : Z) : option (string * bool) :=
  if decide (status ∈ [301; 302; 303]%Z) then Some (if decide (method = "GET" \/ method = "HEAD") then method else "GET", false)
  else if decide (status ∈ [307; 308]%Z) then Some (method, true)
  else None.
Definition max_redirects : nat := 9.
(** [url.Error]: the method of the first request and a URL. *)
Definition url_error (method url : string) : goerr -> goerr :=
  Wrapf "%s %q: %w" [String.substring 0 1 method +:+ ToLower (drop_str 1 method); url].
(** The answer to the last request, [urls] from the first to it, and whether the body
    has gone along so far. Nothing of a redirect is validated. *)
Fixpoint follow (hops : nat) (req : PluginHTTPRequest) (header : gmap string string) (urls : list string) (keep : bool)
    (method url : string) (resp : HTTPReply) : HSvc HTTPReply :=
  match redirectBehavior method (heStatus resp) with
  | None => mret resp
  | Some (method', with_body) =>
      let location := header_get "Location" (heHeader resp) in
      if decide (location = "") then mret resp
      else
        next ← wrapS (fun e => url_error (method_of req) url (Wrapf "failed to parse Location header %q: %v" [location] e))
                 (pureS (url_Join url location));
        match hops with
        | O => fail (url_error (method_of req) location (Errorf "stopped after 10 redirects" []))
        | S hops =>
            let keep := keep && with_body in
            let urls := urls ++ [next] in
            now ← nowS;
            let out := RedirectRequest now (hqTenantID req) method' next (redirect_headers header urls keep)
                         (if keep then hqBody req else "") (effective_timeout req) in
            _ ← changes (add_sent out);
            resp ← callS (fun k => round_trip k out);
            follow hops req header urls keep method' next resp
        end
  end.

(** The transport is called at a time. *)
Definition send (req : PluginHTTPRequest) (auth : option (string * string)) : HSvc (Z * HTTPReply) :=
  started ← nowS;
  let header := request_headers req auth in
  let out := PluginRequest started (hqTenantID req) (method_of req) (hqURL req) header (hqBody req) (effective_timeout req) in
  _ ← changes (add_sent out);
  first ← callS (fun k => round_trip k out);
  resp ← follow max_redirects req header [hqURL req] true (method_of req) (hqURL req) first;
  mret (started, resp).

Definition handle_response (req : PluginHTTPRequest) (domain : string) (started : Z) (resp : HTTPReply)
  : HSvc PluginHTTPResponse :=
  body ← pureS (readResponseBody (heBody resp));
  _ ← (if decide (heStatus resp = 429) then
         now ← nowS;
         match parseRetryAfter (header_get "Retry-After" (heHeader resp)) now with
         | Some until => PauseDomain (hqTenantID req) domain until
         | None => mret tt
         end
       else mret tt);
  now ← nowS;
  mret (mkPluginHTTPResponse (heStatus resp) (heStatusText resp) (map (fun kv => (kv.1, Join "," kv.2)) (heHeader resp))
          body.1 (Z.quot (now - started) Millisecond)).

(** What comes before the request; [None] when the rounds of the wait are used up. *)
Definition prepare (fuel : nat) (req : PluginHTTPRequest) : HSvc (option (string * option (string * string))) :=
  _ ← Validate (hqTenantID req) (hqURL req);
  _ ← wrapS (Wrapf "build request: %w" []) (pureS (NewRequest (method_of req) (hqURL req)));
  auth ← InjectAuth (hqTenantID req) (hqBody req) (hqAuthConfig req);
  domain ← pureS (extractDomain (hqURL req));
  go ← Wait fuel (hqTenantID req) (hqPluginID req) domain;
  mret (if go : bool then Some (domain, auth) else None).

Definition Execute (fuel : nat) (req : PluginHTTPRequest) : HSvc (option PluginHTTPResponse) :=
  ready ← prepare fuel req;
  match ready with
  | None => mret None
  | Some (domain, auth) =>
      sent ← send req auth;
      Some <$> handle_response req domain sent.1 sent.2
  end.
End HttpFw.
