(* ===== verification/HttpFwClaims.v ===== *)
(** * Claims about the HTTP requests of plugins *)

From S2P Require Import Prelude GoStrings Json EngineTypes Store GoText Effects Triggers JsonText VaultStore ChannelIntake HttpFw.

(** ** Addresses *)

Lemma shift_byte bits n : (0 <= n)%Z -> Z.shiftr bits n = (bits / 2 ^ n)%Z.
Proof. intros H. by apply Z.shiftr_div_pow2. Qed.

(** What is blocked, by octets. *)
Definition blocked4 (bits : Z) : Prop :=
  let a := (bits / 2 ^ 24)%Z in
  let b := (bits / 2 ^ 16 mod 256)%Z in
  a = 127 \/ a = 10 \/ (a = 172 /\ 16 <= b < 32) \/ (a = 192 /\ b = 168) \/ (a = 169 /\ b = 254) \/ a = 0.
Definition blocked (a : Addr) : Prop :=
  match Unmap a with
  | V4 bits => blocked4 bits
  | V6 bits zone => zone = "" /\ (bits = 1 \/ (bits / 2 ^ 121 = 126)%Z)
  end.

Lemma octets bits :
  let q := (bits / 2 ^ 24)%Z in let b := (bits / 2 ^ 16 mod 256)%Z in
  (bits / 2 ^ 16 = 256 * q + b)%Z /\ (bits / 2 ^ 20 = 16 * q + b / 16)%Z /\ (0 <= b < 256)%Z.
Proof.
  intros q b. assert (bits / 2 ^ 16 = 256 * q + b)%Z as E16.
  { unfold q, b. rewrite (Z.div_mod (bits / 2 ^ 16) 256) at 1 by lia. rewrite Z.div_div by lia. reflexivity. }
  split_and!; [done| |apply Z.mod_pos_bound; lia..].
  change (2 ^ 20)%Z with (2 ^ 16 * 16)%Z. rewrite <-Z.div_div by lia. rewrite E16.
  replace (256 * q + b)%Z with (b + 16 * q * 16)%Z by lia. rewrite Z.div_add by lia. lia.
Qed.

Lemma isPrivate_spec a : isPrivateOrBlockedAddr a = true <-> blocked a.
Proof.
  unfold isPrivateOrBlockedAddr, blocked, privateRanges. destruct (Unmap a) as [bits|bits zone]; cbn [existsb Contains_addr].
  - unfold blocked4. cbn zeta. rewrite !orb_true_iff, !Z.eqb_eq, !(shift_byte bits) by lia.
    change (Z.shiftr (ipv4 127 0 0 0) (32 - 8)) with 127%Z. change (Z.shiftr (ipv4 10 0 0 0) (32 - 8)) with 10%Z.
    change (Z.shiftr (ipv4 172 16 0 0) (32 - 12)) with 2753%Z. change (Z.shiftr (ipv4 192 168 0 0) (32 - 16)) with 49320%Z.
    change (Z.shiftr (ipv4 169 254 0 0) (32 - 16)) with 43518%Z. change (Z.shiftr (ipv4 0 0 0 0) (32 - 8)) with 0%Z.
    change (32 - 8)%Z with 24%Z. change (32 - 12)%Z with 20%Z. change (32 - 16)%Z with 16%Z.
    destruct (octets bits) as (E16 & E20 & Hb).
    set (b := (bits / 2 ^ 16 mod 256)%Z) in *. set (q := (bits / 2 ^ 24)%Z) in *. rewrite E16, E20.
    assert (b / 16 = 1 <-> 16 <= b < 32)%Z as H16 by (split; intros; Z.div_mod_to_equations; lia).
    assert (0 <= b / 16 < 16)%Z as Hb16 by (split; [apply Z.div_pos; lia|apply Z.div_lt_upper_bound; lia]).
    clearbody b q. clear E16 E20.
    split.
    + intros H. destruct H as [H|[H|[H|[H|[H|[H|[H|[H|H]]]]]]]]; try discriminate; lia.
    + intros H. destruct H as [H|[H|[H|[H|[H|H]]]]]; lia.
  - rewrite !orb_true_iff, !andb_true_iff, !bool_decide_eq_true, !Z.eqb_eq.
    change (128 - 128)%Z with 0%Z. change (128 - 7)%Z with 121%Z. rewrite !Z.shiftr_0_r, (shift_byte bits) by lia.
    change (Z.shiftr (Z.shiftl 252 120) 121) with 126%Z. naive_solver.
Qed.

Lemma Unmap_idem a : Unmap (Unmap a) = Unmap a.
Proof. destruct a as [b|b z]; [done|]. unfold Unmap. destruct (Is4In6 (V6 b z)) eqn:E; [done|]. by rewrite E. Qed.
Lemma blocked_Unmap a : blocked (Unmap a) <-> blocked a.
Proof. unfold blocked. by rewrite Unmap_idem. Qed.

(** ** The trace *)

Definition is_token (o : outgoing) : Prop := match o with TokenRequest _ _ _ => True | _ => False end.
Definition only_tokens (s s' : HttpState) : Prop := exists l, hsSent s' = hsSent s ++ l /\ Forall is_token l.
#[export] Instance only_tokens_preorder : PreOrder only_tokens.
Proof.
  split; [intros s; exists []; by rewrite app_nil_r|].
  intros s1 s2 s3 (l & E & Hl) (l' & E' & Hl'). exists (l ++ l'). rewrite E', E, app_assoc. split; [done|]. by apply Forall_app.
Qed.
Definition same_trace (s s' : HttpState) : Prop := hsSent s' = hsSent s.
#[export] Instance same_trace_preorder : PreOrder same_trace.
Proof. split; [by intros s|]. unfold same_trace. by intros s1 s2 s3 -> ->. Qed.
Lemma keeps_trace_tokens `{R : Runtime} {A} (m : HSvc A) : keepsS same_trace m -> keepsS only_tokens m.
Proof. intros H w. exists []. by rewrite app_nil_r, (H w). Qed.

Lemma trace_changes `{R : Runtime} f : (forall s, hsSent (f s) = hsSent s) -> keepsS same_trace (changes f).
Proof. intros H. apply keepsS_changes. exact H. Qed.

(** ** Time: what is paused stays paused until its time *)

Section Held.
Context `{R : Runtime}.
Context (Hclock : forall k k', (k <= k')%nat -> (wall_clock k <= wall_clock k')%Z).

Definition held (key : string * string) (until : Z) (w : Sys HttpState) : Prop :=
  (exists u, hsDomainPauses (st w) !! key = Some u /\ (until <= u)%Z) \/ (until <= wall_clock (ticks w))%Z.
Definition onward (w w' : Sys HttpState) : Prop :=
  (ticks w <= ticks w')%nat /\ forall key until, held key until w -> held key until w'.
#[export] Instance onward_preorder : PreOrder onward.
Proof.
  split; [intros w; by split|]. intros w1 w2 w3 [H1 H2] [H3 H4]. split; [lia|]. intros key until H. by apply H4, H2.
Qed.
Definition moves {A} (m : HSvc A) : Prop := forall w, onward w (m w).2.

Lemma onward_pauses w w' : (ticks w <= ticks w')%nat -> hsDomainPauses (st w') = hsDomainPauses (st w) -> onward w w'.
Proof.
  intros Ht E. split; [done|]. intros key until [(u & Hu & Hle)|Hle]; [left; exists u; by rewrite E|].
  right. etrans; [done|by apply Hclock].
Qed.
Lemma moves_ret {A} (a : A) : moves (mret a).
Proof. intros w. reflexivity. Qed.
Lemma moves_fail {A} e : moves (fail e : HSvc A).
Proof. intros w. reflexivity. Qed.
Lemma moves_pure {A} (r : result goerr A) : moves (pureS r).
Proof. intros w. reflexivity. Qed.
Lemma moves_reads {A} (f : HttpState -> A) : moves (reads f).
Proof. intros w. reflexivity. Qed.
Lemma moves_now : moves nowS.
Proof. intros w. apply onward_pauses; simpl; [lia|done]. Qed.
Lemma moves_call {A} (f : nat -> result goerr A) : moves (callS f).
Proof. intros w. apply onward_pauses; simpl; [lia|done]. Qed.
Lemma moves_guard ok e : moves (guardS ok e).
Proof. destruct ok; [apply moves_ret|apply moves_fail]. Qed.
Lemma moves_changes f : (forall s, hsDomainPauses (f s) = hsDomainPauses s) -> moves (changes f).
Proof. intros Hf w. apply onward_pauses; simpl; [lia|apply Hf]. Qed.
Lemma moves_bind {A B} (m : HSvc A) (f : A -> HSvc B) : moves m -> (forall a, moves (f a)) -> moves (m ≫= f).
Proof.
  intros Hm Hf w. specialize (Hm w). unfold mbind, Svc_bind.
  destruct (m w) as [[a|e] w1]; simpl in *; [|done]. etrans; [done|apply Hf].
Qed.
Lemma moves_fmap {A B} (f : A -> B) (m : HSvc A) : moves m -> moves (f <$> m).
Proof. intros Hm w. specialize (Hm w). unfold fmap, Svc_fmap. by destruct (m w) as [[a|e] w1]. Qed.
Lemma moves_wrap {A} g (m : HSvc A) : moves m -> moves (wrapS g m).
Proof. intros Hm w. rewrite wrapS_state. apply Hm. Qed.
End Held.

Ltac moves_step :=
  lazymatch goal with
  | |- forall _, _ => intro
  | |- moves (mret _) => apply moves_ret
  | |- moves (fail _) => apply moves_fail
  | |- moves (pureS _) => apply moves_pure
  | |- moves (reads _) => apply moves_reads
  | |- moves nowS => by apply moves_now
  | |- moves (callS _) => by apply moves_call
  | |- moves (guardS _ _) => apply moves_guard
  | |- moves (wrapS _ _) => apply moves_wrap
  | |- moves (_ <$> _) => apply moves_fmap
  | |- moves (_ ≫= _) => apply moves_bind
  | |- moves (changes _) => by apply moves_changes
  | |- moves (match _ with _ => _ end) => case_match
  end.
Ltac moves_steps := repeat moves_step.

Section Client.
Context `{R : Runtime}.
Context (productionMode : bool) (defaults : RateLimitDefaults) (config : ClientConfig).
Context (url_Parse : string -> result goerr (string * string)) (ParseAddr : string -> option Addr)
  (LookupIP : nat -> string -> result goerr (list Addr)).
Context (limiter_Wait : nat -> Limiter -> result goerr unit) (timer : nat -> Z -> option goerr).
Context (SecretStore : option (nat -> string -> string -> result goerr string)).
Context (NewRequest : string -> string -> result goerr unit)
  (token_client : nat -> string -> list (string * string) -> result goerr TokenReply) (base64_Std : string -> string) (hmac_sha256 hmac_sha512 : string -> string -> string).
Context (CanonicalHeaderKey : string -> string)
  (round_trip : nat -> outgoing -> result goerr HTTPReply) (url_Join : string -> string -> result goerr string)
  (redirect_headers : gmap string string -> list string -> bool -> gmap string string) (ParseTime : string -> option Z).

Notation Validate := (Validate productionMode url_Parse ParseAddr LookupIP).
Notation InjectAuth := (InjectAuth SecretStore NewRequest token_client base64_Std hmac_sha256 hmac_sha512).
Notation Wait := (Wait defaults limiter_Wait timer).
Notation prepare := (prepare productionMode defaults url_Parse ParseAddr LookupIP limiter_Wait timer SecretStore NewRequest
  token_client base64_Std hmac_sha256 hmac_sha512).
Notation send := (send config CanonicalHeaderKey round_trip url_Join redirect_headers).
Notation follow := (follow config CanonicalHeaderKey round_trip url_Join redirect_headers).
Notation handle_response := (handle_response config CanonicalHeaderKey ParseTime).
Notation Execute := (Execute productionMode defaults config url_Parse ParseAddr LookupIP limiter_Wait timer SecretStore NewRequest
  token_client base64_Std hmac_sha256 hmac_sha512 CanonicalHeaderKey round_trip url_Join redirect_headers ParseTime).

(** *** Validation *)

(** The addresses of a host name: a literal is its own address, a name has those
    that the resolver gives at some time. *)
Definition addresses (host : string) (addrs : list Addr) : Prop :=
  match ParseAddr host with Some ip => addrs = [ip] | None => exists k, LookupIP k host = Ok addrs end.
Definition admitted (s : HttpState) (tenantID rawURL : string) : Prop :=
  exists scheme name, url_Parse rawURL = Ok (scheme, name) /\ name <> "" /\
    let host := ToLower name in
    (ToLower scheme = "https" \/
     productionMode = false /\ (isDevHTTPOK ParseAddr host = true \/ host ∈ tenant_allowlist tenantID s)) /\
    (tenant_allowlist tenantID s = ∅ \/ host ∈ tenant_allowlist tenantID s) /\
    exists addrs, addresses host addrs /\ Forall (fun a => ~ blocked a) addrs.

Lemma check_scheme_Ok tenantID scheme host s :
  check_scheme productionMode ParseAddr tenantID scheme host s = Ok tt ->
  scheme = "https" \/ productionMode = false /\ (isDevHTTPOK ParseAddr host = true \/ host ∈ tenant_allowlist tenantID s).
Proof.
  unfold check_scheme, isHostAllowlisted. destruct (decide _); [by left|]. destruct productionMode; [done|].
  intros H. right. split; [done|]. destruct (isDevHTTPOK ParseAddr host); [by left|]. right.
  destruct (decide (host ∈ tenant_allowlist tenantID s)) as [|N]; [done|]. by rewrite bool_decide_eq_false_2 in H.
Qed.

Lemma resolve_Ok host w addrs w' :
  resolve ParseAddr LookupIP host w = (Ok addrs, w') ->
  exists ips, addresses host ips /\ (addrs = ips \/ addrs = map Unmap ips).
Proof.
  unfold resolve, addresses. destruct (ParseAddr host) as [ip|]; intros H.
  - unfold mret, Svc_ret in H. simplify_eq. eexists. split; [done|by left].
  - unfold callS in H. injection H as H _. destruct (LookupIP (ticks w) host) as [ips|] eqn:E; [|done].
    cbn in H. simplify_eq. exists ips. split; [by eexists|by right].
Qed.

Lemma Validate_Ok tenantID rawURL w w' :
  Validate tenantID rawURL w = (Ok tt, w') -> st w' = st w /\ admitted (st w) tenantID rawURL.
Proof.
  unfold HttpFw.Validate. intros (p & w1 & Hp & H)%bindS_inv. injection Hp as Hp <-. destruct p as [scheme host].
  apply bindS_inv in H as (r1 & w1 & [= <- <-] & H). apply bindS_inv in H as ([] & w1 & [= Hs <-] & H).
  apply bindS_inv in H as (r2 & w1 & [= <- <-] & H). apply bindS_inv in H as ([] & w1 & [= Hl <-] & H).
  apply bindS_inv in H as (addrs & w1 & Ha%wrapS_inv & H).
  assert (st w1 = st w) as Hst.
  { revert Ha. unfold resolve. destruct (ParseAddr host); [by intros [= _ <-]|]. by intros [= _ <-]. }
  unfold guardS in H. destruct (negb _) eqn:Hb; [|done]. injection H as <-. split; [done|].
  unfold parse_url in Hp. destruct (url_Parse rawURL) as [[sc nm]|] eqn:Hu; [|done]. cbn [fst snd] in Hp.
  destruct (decide (nm = "")) as [|Hn]; [done|]. injection Hp as <- <-. exists sc, nm. split; [done|]. split; [done|]. split_and!.
  - by apply check_scheme_Ok.
  - unfold validateAllowlist in Hl. destruct (decide _); [by left|]. right. by destruct (decide (ToLower nm ∈ _)).
  - destruct (resolve_Ok _ _ _ _ Ha) as (ips & Hi & Hm). exists ips. split; [done|].
    apply Forall_forall. intros ip Hip Hbl. apply negb_true_iff in Hb. apply not_true_iff_false in Hb.
    apply Hb, existsb_exists. destruct Hm as [->| ->]; [exists ip|exists (Unmap ip)]; (split; [|apply isPrivate_spec]);
      rewrite ?blocked_Unmap; try done; [by apply list_elem_of_In|]. by apply in_map, list_elem_of_In.
Qed.

(** *** What the parts send *)

Lemma getSecret_trace tenantID key : keepsS same_trace (getSecret SecretStore tenantID key).
Proof. unfold getSecret. keeps_steps. Qed.

Lemma InjectAuth_tokens tenantID body cfg : keepsS only_tokens (InjectAuth tenantID body cfg).
Proof.
  assert (forall k, keepsS only_tokens (getSecret SecretStore tenantID k)) as Hs
    by (intros k; apply keeps_trace_tokens, getSecret_trace).
  assert (forall k, keepsS only_tokens (TokenCache_Get k)) as Hg by (intros k; unfold TokenCache_Get; keeps_steps).
  unfold HttpFw.InjectAuth, resolveOAuthToken, fetchOAuthToken, TokenCache_Set. cbv zeta.
  repeat first [apply Hs|apply Hg|keeps_step
    |apply keepsS_changes; intros s; first [by exists []; rewrite app_nil_r|by eexists [_]; split; [|repeat constructor]]].
Qed.

Lemma wait_trace fuel tenantID pluginID domain : keepsS same_trace (Wait fuel tenantID pluginID domain).
Proof.
  assert (keepsS same_trace (wait_pause timer fuel tenantID domain)) as Hw.
  { induction fuel as [|fuel IH]; [apply keepsS_ret; exact _|]. cbn [wait_pause]. unfold IsDomainPaused. cbv zeta.
    repeat first [exact IH|keeps_step|by apply trace_changes]. }
  unfold HttpFw.Wait, getTenantLimiter. cbv zeta. repeat first [exact Hw|keeps_step|by apply trace_changes].
Qed.

Lemma prepare_tokens fuel req : keepsS only_tokens (prepare fuel req).
Proof.
  unfold HttpFw.prepare. apply keepsS_bind; [exact _| |intros _].
  { unfold HttpFw.Validate, resolve. keeps_steps. }
  repeat first [apply InjectAuth_tokens|keeps_step|apply keeps_trace_tokens, wait_trace].
Qed.

Lemma handle_trace req domain started resp : keepsS same_trace (handle_response req domain started resp).
Proof. unfold HttpFw.handle_response, PauseDomain. repeat first [keeps_step|by apply trace_changes]. Qed.

(** *** The request itself *)

Definition request_at (time : Z) (req : PluginHTTPRequest) (auth : option (string * string)) : outgoing :=
  PluginRequest time (hqTenantID req) (method_of req) (hqURL req) (request_headers CanonicalHeaderKey req auth)
    (hqBody req) (effective_timeout config req).

(** The URL, body and so on of a request that is no token request. *)
Definition sent_url (o : outgoing) : string :=
  match o with PluginRequest _ _ _ u _ _ _ | RedirectRequest _ _ _ u _ _ _ | TokenRequest _ u _ => u end.
Definition sent_method (o : outgoing) : string :=
  match o with PluginRequest _ _ m _ _ _ _ | RedirectRequest _ _ m _ _ _ _ => m | TokenRequest _ _ _ => "POST" end.

(** The request is one that the answer to the one before it redirects to, of the
    same call: with its tenant, its limit of time, and its body or none. *)
Definition redirected (req : PluginHTTPRequest) (prev next : outgoing) : Prop :=
  match next with
  | RedirectRequest _ tenantID method url _ body timeout =>
      tenantID = hqTenantID req /\ (body = hqBody req \/ body = "") /\ timeout = effective_timeout config req /\
      exists k resp with_body, round_trip k prev = Ok resp /\
        redirectBehavior (sent_method prev) (heStatus resp) = Some (method, with_body) /\
        url_Join (sent_url prev) (header_get CanonicalHeaderKey "Location" (heHeader resp)) = Ok url
  | _ => False
  end.
Fixpoint redirect_chain (req : PluginHTTPRequest) (prev : outgoing) (l : list outgoing) : Prop :=
  match l with
  | [] => True
  | o :: l => redirected req prev o /\ redirect_chain req o l
  end.

Lemma follow_stop req prev (w w' : Sys HttpState) hops : st w' = st w ->
  exists l, hsSent (st w') = hsSent (st w) ++ l /\ (length l <= hops)%nat /\ redirect_chain req prev l.
Proof. intros ->. exists []. rewrite app_nil_r. cbn. split_and!; [done|lia|done]. Qed.

(** What following sends is a chain of redirects from the request that was answered. *)
Lemma follow_spec hops req header urls keep prev k resp w :
  round_trip k prev = Ok resp ->
  exists l, hsSent (st (follow hops req header urls keep (sent_method prev) (sent_url prev) resp w).2) = hsSent (st w) ++ l /\
    (length l <= hops)%nat /\ redirect_chain req prev l.
Proof.
  revert urls keep prev k resp w. induction hops as [|hops IH]; intros urls keep prev k resp w Hp; cbn [HttpFw.follow].
  - destruct (redirectBehavior _ _) as [[m b]|]; [|by apply follow_stop]. destruct (decide _); [by apply follow_stop|].
    apply follow_stop. unfold mbind, Svc_bind, wrapS, pureS. by destruct (url_Join _ _).
  - destruct (redirectBehavior (sent_method prev) (heStatus resp)) as [[m b]|] eqn:Eb; [|by apply follow_stop].
    destruct (decide _) as [|Hloc]; [by apply follow_stop|].
    destruct (url_Join (sent_url prev) (header_get CanonicalHeaderKey "Location" (heHeader resp))) as [next|e] eqn:Ej;
      unfold mbind, Svc_bind, wrapS, pureS; [|by apply follow_stop].
    unfold nowS, changes, callS. cbn [fst snd st ticks]. set (keep' := keep && b). set (urls' := urls ++ [next]).
    set (o := RedirectRequest _ _ _ _ _ _ _).
    assert (redirected req prev o) as Ho.
    { cbn. split_and!; [done|destruct keep'; auto|done|]. by exists k, resp, b. }
    match goal with |- context [round_trip ?k' o] => destruct (round_trip k' o) as [resp'|e] eqn:Er end.
    2: { exists [o]. split; [done|]. split; [cbn; lia|by split]. }
    match goal with |- context [HttpFw.follow ?a ?b ?c ?d ?e hops req header urls' keep' m next resp' ?w2] =>
      destruct (IH urls' keep' o _ resp' w2 Er) as (l & E & Hl & Hch) end.
    change (sent_method o) with m in E. change (sent_url o) with next in E. rewrite E. cbn [st].
    exists (o :: l). cbn [add_sent hsSent]. rewrite <- app_assoc. split; [done|]. split; [cbn; lia|by split].
Qed.

(** Nothing but token requests, or after them one request, which is prepared, and the
    redirects from it. *)
Lemma Execute_cases fuel req w :
  let w' := (Execute fuel req w).2 in
  (only_tokens (st w) (st w') /\ (Execute fuel req w).1 = (match prepare fuel req w with (Ok _, _) => Ok None | (Err e, _) => Err e end)
     /\ w' = (prepare fuel req w).2 /\ (forall d a w1, prepare fuel req w <> (Ok (Some (d, a)), w1))) \/
  exists domain auth w1 l, prepare fuel req w = (Ok (Some (domain, auth)), w1) /\
    let first := request_at (wall_clock (ticks w1)) req auth in
    hsSent (st w') = hsSent (st w1) ++ first :: l /\ (length l <= max_redirects)%nat /\ redirect_chain req first l /\
    (Execute fuel req w).1 <> Ok None.
Proof.
  intros w'. subst w'. unfold HttpFw.Execute. pose proof (prepare_tokens fuel req w) as Ht. unfold mbind, Svc_bind.
  destruct (prepare fuel req w) as [[[[domain auth]|]|e] w1]; cbn [fst snd] in *;
    [right|left; split_and!; try done; intros ? ? ? [=]..].
  exists domain, auth, w1. set (first := request_at (wall_clock (ticks w1)) req auth).
  unfold HttpFw.send, mbind, Svc_bind, nowS, changes, callS, mret, Svc_ret. cbn [fst snd st ticks].
  change (PluginRequest _ _ _ _ _ _ _) with first.
  match goal with |- context [round_trip ?k first] => destruct (round_trip k first) as [resp|e] eqn:Er end.
  2: { exists []. split; [done|]. cbn zeta. split; [done|]. split; [cbn; lia|by split]. }
  match goal with |- context [HttpFw.follow ?a ?b ?c ?d ?e ?hops req ?h ?u ?k ?m ?url resp ?w2] =>
    destruct (follow_spec hops req h u k first _ resp w2 Er) as (l & E & Hl & Hch);
    change (sent_method first) with m in E; change (sent_url first) with url in E;
    destruct (HttpFw.follow a b c d e hops req h u k m url resp w2) as [[last|e'] w3] end; cbn [fst snd st] in *.
  - exists l. split; [done|]. unfold fmap, Svc_fmap.
    match goal with |- context [HttpFw.handle_response ?a ?b ?c ?d ?e ?f ?g ?w2] =>
      pose proof (handle_trace d e f g w2) as Hh; destruct (HttpFw.handle_response a b c d e f g w2) as [[?|?] w4] end;
    cbn [fst snd] in *; rewrite Hh, E; cbn [hsSent add_sent]; rewrite <- app_assoc; done.
  - exists l. split; [done|]. rewrite E. cbn [hsSent add_sent]. rewrite <- app_assoc. done.
Qed.

Lemma prepare_inv fuel req w domain auth w1 :
  prepare fuel req w = (Ok (Some (domain, auth)), w1) ->
  exists wv wa, Validate (hqTenantID req) (hqURL req) w = (Ok tt, wv) /\
    (InjectAuth (hqTenantID req) (hqBody req) (hqAuthConfig req) wv).2 = wa /\
    extractDomain url_Parse (hqURL req) = Ok domain /\
    Wait fuel (hqTenantID req) (hqPluginID req) domain wa = (Ok true, w1).
Proof.
  unfold HttpFw.prepare. intros ([] & wv & Hv & H)%bindS_inv. apply bindS_inv in H as ([] & w2 & Hb%wrapS_inv & H).
  injection Hb as _ <-. apply bindS_inv in H as (a & wa & Ha & H). apply bindS_inv in H as (d & w3 & Hd & H).
  injection Hd as Hd <-. apply bindS_inv in H as (go & w3 & Hw & H). destruct go; [|done]. injection H as -> -> <-.
  exists wv, wa. by rewrite Ha.
Qed.

Lemma effective_timeout_bounded req : (effective_timeout config req <= ccSystemMaxTimeout (applyConfigDefaults config))%Z.
Proof. unfold effective_timeout. destruct (_ <? _)%Z; [|done]. destruct (Z.ltb_spec (wrap64 (hqTimeoutMS req * Millisecond)) (ccSystemMaxTimeout (applyConfigDefaults config))); lia. Qed.

Lemma limit_str_length n s : (0 <= n)%Z -> (Z.of_nat (String.length (limit_str n s)) <= n)%Z.
Proof.
  revert n. induction s as [|a s IH]; intros n Hn; [done|]. cbn [limit_str].
  destruct (Z.leb_spec n 0); [done|]. cbn [String.length]. specialize (IH (n - 1)%Z ltac:(lia)). lia.
Qed.

Lemma readResponseBody_bounded body p :
  readResponseBody config body = Ok p -> (Z.of_nat (String.length p.1) <= max_response config)%Z.
Proof.
  unfold readResponseBody. destruct body as [whole|e]; [|done]. cbv zeta.
  assert (0 <= max_response config)%Z as Hmax.
  { unfold max_response, applyConfigDefaults, positive_or. cbn. by case_match; lia. }
  destruct (Z.ltb_spec (max_response config) (Z.of_nat (String.length (limit_str (wrap64 (max_response config + 1)) whole)))) as [H|H];
    intros [= <-]; cbn [fst]; [by apply limit_str_length|done].
Qed.

Lemma Execute_body fuel req w resp w' :
  Execute fuel req w = (Ok (Some resp), w') -> (Z.of_nat (String.length (hrBody resp)) <= max_response config)%Z.
Proof.
  unfold HttpFw.Execute. intros (ready & w1 & _ & H)%bindS_inv. destruct ready as [[domain auth]|]; [|done].
  apply bindS_inv in H as (sent & w2 & _ & H). unfold fmap, Svc_fmap in H.
  destruct (handle_response _ _ _ _ w2) as [[r|e] w3] eqn:Eh; [|done]. injection H as -> _.
  unfold HttpFw.handle_response in Eh. apply bindS_inv in Eh as (body & w4 & Hb & Eh).
  do 2 apply bindS_inv in Eh as (? & ? & _ & Eh). injection Eh as <- _. cbn. injection Hb as Hb _. by apply readResponseBody_bounded in Hb.
Qed.

(** What the first request that goes out is. *)
Definition proper_request (s : HttpState) (req : PluginHTTPRequest) (o : outgoing) : Prop :=
  match o with
  | PluginRequest _ tenantID method url _ body timeout =>
      tenantID = hqTenantID req /\ url = hqURL req /\ body = hqBody req /\
      (timeout <= ccSystemMaxTimeout (applyConfigDefaults config))%Z /\ admitted s tenantID url
  | _ => False
  end.

(** C32. Whatever a plugin asks for, one call sends, besides requests for tokens and
    after them, nothing, or first a request to the URL asked for, which has a host, is
    https or (outside production) of a host for development, is on the tenant's list of
    domains when there is one, and has no address in a private or blocked range when it
    is looked up for the check; each further request is one that the answer to the
    request before it redirects to, of the same tenant and limit of time, with the same
    body or none, and they are ten at most. The body of the answer is cut at the
    limit. *)
Theorem http_guarded fuel req w :
  exists tokens requests, hsSent (st (Execute fuel req w).2) = hsSent (st w) ++ tokens ++ requests /\
    Forall is_token tokens /\
    match requests with
    | [] => True
    | first :: redirects => proper_request (st w) req first /\ redirect_chain req first redirects
    end /\
    (length requests <= 10)%nat /\
    (forall resp, (Execute fuel req w).1 = Ok (Some resp) -> (Z.of_nat (String.length (hrBody resp)) <= max_response config)%Z).
Proof.
  assert (forall resp, (Execute fuel req w).1 = Ok (Some resp) -> (Z.of_nat (String.length (hrBody resp)) <= max_response config)%Z) as Hbody.
  { intros resp H. destruct (Execute fuel req w) as [r w'] eqn:E. cbn in H. subst r. by eapply Execute_body. }
  destruct (Execute_cases fuel req w) as [((l & E & Hl) & _)|(domain & auth & w1 & rs & Hp & E & Hn & Hch & _)].
  - exists l, []. rewrite app_nil_r. split_and!; [done..|simpl; lia|done].
  - destruct (prepare_tokens fuel req w) as (l & El & Hl). rewrite Hp in El. cbn [snd] in El.
    exists l, (request_at (wall_clock (ticks w1)) req auth :: rs). rewrite E, El, app_assoc. unfold max_redirects in Hn.
    split_and!; [done..| |done|simpl; lia|done].
    apply prepare_inv in Hp as (wv & wa & [_ Hv]%Validate_Ok & _).
    cbn. split_and!; [done..|apply effective_timeout_bounded|done].
Qed.

(** *** Pauses *)

Context (Hclock : forall k k', (k <= k')%nat -> (wall_clock k <= wall_clock k')%Z).

Lemma PauseDomain_moves tenantID domain until : moves (PauseDomain tenantID domain until).
Proof.
  intros w. split; [done|]. intros key u [(v & Hv & Hle)|Hle]; [left|by right]. cbn.
  destruct (decide (key = domain_key tenantID domain)) as [->|N]; [|exists v; by rewrite lookup_partial_alter_ne].
  eexists. rewrite lookup_partial_alter_eq, Hv. split; [done|]. destruct (Z.ltb_spec v until); lia.
Qed.

Lemma PauseDomain_holds tenantID domain until w :
  held (domain_key tenantID domain) until (PauseDomain tenantID domain until w).2.
Proof.
  left. cbn. rewrite lookup_partial_alter_eq. destruct (hsDomainPauses (st w) !! domain_key tenantID domain) as [c|]; cbn;
    (eexists; split; [reflexivity|]); [destruct (Z.ltb_spec c until)|]; lia.
Qed.

(** The entry is dropped when its time is over. *)
Lemma IsDomainPaused_result tenantID domain w :
  let key := domain_key tenantID domain in
  onward w (IsDomainPaused tenantID domain w).2 /\
  ((IsDomainPaused tenantID domain w).1 = Ok None /\
     (forall until, held key until w -> (until <= wall_clock (ticks (IsDomainPaused tenantID domain w).2))%Z) \/
   exists u, (IsDomainPaused tenantID domain w).1 = Ok (Some u) /\ hsDomainPauses (st w) !! key = Some u /\
     (wall_clock (ticks w) <= u)%Z /\ st (IsDomainPaused tenantID domain w).2 = st w).
Proof.
  intros key. subst key. unfold IsDomainPaused, mbind, Svc_bind, reads, nowS, changes, mret, Svc_ret. cbv zeta. cbn [st ticks].
  destruct (hsDomainPauses (st w) !! domain_key tenantID domain) as [u|] eqn:E.
  2: { split; [reflexivity|]. left. split; [done|]. intros lim [(v & Hv & _)|H]; [congruence|done]. }
  destruct (Z.ltb_spec u (wall_clock (ticks w))) as [Hlt|Hge]; cbn [fst snd st ticks].
  2: { split; [apply onward_pauses; [exact Hclock|cbn; lia|reflexivity]|]. right. by exists u. }
  pose proof (Hclock (ticks w) (S (ticks w)) ltac:(lia)) as H1. pose proof (Hclock (ticks w) (S (S (ticks w))) ltac:(lia)) as H2.
  split.
  - split; [cbn; lia|]. intros key until [(v & Hv & Hle)|Hle]; [|right; cbn; lia].
    destruct (decide (key = domain_key tenantID domain)) as [->|N]; [right; cbn; replace v with u in Hle by congruence; lia|].
    left. exists v. split; [|done]. cbn. rewrite E. destruct (_ <? _)%Z; [done|]. by rewrite lookup_delete_ne.
  - left. split; [done|]. intros lim [(v & Hv & Hle)|Hle]; [|lia]. replace v with u in Hle by congruence. lia.
Qed.

Lemma IsDomainPaused_moves tenantID domain : moves (IsDomainPaused tenantID domain).
Proof. intros w. apply IsDomainPaused_result. Qed.

Lemma wait_pause_moves fuel tenantID domain : moves (wait_pause timer fuel tenantID domain).
Proof.
  induction fuel as [|fuel IH]; [apply moves_ret|]. cbn [wait_pause].
  repeat first [exact IH|apply IsDomainPaused_moves|moves_step].
Qed.

Context (Htimer : forall k until, timer k until = None -> forall k', (k < k')%nat -> (until <= wall_clock k')%Z).

(** The step of the loop when the domain is paused: the time is over, or the timer
    runs, or the context ends. *)
Lemma wait_round tenantID domain w u fuel b w' :
  (IsDomainPaused tenantID domain w).1 = Ok (Some u) ->
  wait_pause timer (S fuel) tenantID domain w = (Ok b, w') ->
  let w1 := (IsDomainPaused tenantID domain w).2 in
  (b = true /\ (u <= wall_clock (ticks w1))%Z /\ (ticks w1 <= ticks w')%nat) \/
  exists w2, (wall_clock (ticks w1) < u)%Z /\ st w2 = st w1 /\ (ticks w1 <= ticks w2)%nat /\
    (u <= wall_clock (ticks w2))%Z /\ wait_pause timer fuel tenantID domain w2 = (Ok b, w').
Proof.
  intros Hr H. cbn [wait_pause] in H. unfold mbind, Svc_bind, nowS, callS, mret, Svc_ret, fail in H.
  destruct (IsDomainPaused tenantID domain w) as [r0 w1]. cbn [fst snd st ticks] in *. subst r0.
  destruct (Z.leb_spec (u - wall_clock (ticks w1)) 0) as [Hle|Hgt].
  - injection H as <- <-. left. cbn. split_and!; [done|lia..].
  - cbn [st ticks] in H. destruct (timer (S (ticks w1)) u) as [e|] eqn:Et; [done|]. right. exists (mkSys (st w1) (S (S (ticks w1)))).
    split_and!; [lia|done|cbn; lia|cbn; apply (Htimer _ _ Et); lia|exact H].
Qed.

(** Two rounds are enough: after the timer the time is over. *)
Lemma wait_pause_ends fuel tenantID domain w b w' :
  (2 <= fuel)%nat -> wait_pause timer fuel tenantID domain w = (Ok b, w') ->
  b = true /\ forall u, held (domain_key tenantID domain) u w -> (u <= wall_clock (ticks w'))%Z.
Proof.
  intros Hf H. destruct fuel as [|[|fuel]]; [lia..|]. clear Hf.
  assert (forall fuel w, (IsDomainPaused tenantID domain w).1 = Ok None -> wait_pause timer (S fuel) tenantID domain w = (Ok b, w') ->
    b = true /\ w' = (IsDomainPaused tenantID domain w).2) as Hnone.
  { clear. intros fuel w Hr H. cbn [wait_pause] in H. unfold mbind, Svc_bind in H.
    destruct (IsDomainPaused tenantID domain w) as [r0 w1]. cbn [fst] in Hr. subst r0. by injection H as <- <-. }
  destruct (IsDomainPaused_result tenantID domain w) as [[Ht1 _] [[Hr Hh]|(u & Hr & Hu & Hle & Hst)]].
  { destruct (Hnone _ _ Hr H) as [-> ->]. by split. }
  assert (forall v, held (domain_key tenantID domain) v w -> (v <= u)%Z) as Hmax.
  { intros v [(u' & Hu' & Hv)|Hv]; [replace u' with u in Hv by congruence; done|lia]. }
  assert (forall v k, held (domain_key tenantID domain) v w -> (u <= wall_clock k)%Z -> (k <= ticks w')%nat -> (v <= wall_clock (ticks w'))%Z) as Hend.
  { intros v k Hv Hk Hkt. specialize (Hmax v Hv). specialize (Hclock k (ticks w') Hkt). lia. }
  destruct (wait_round _ _ _ _ _ _ _ Hr H) as [(-> & Hk & Hkt)|(w2 & _ & Hst2 & Ht2 & Hk & H2)]; [split; [done|]; eauto|].
  destruct (IsDomainPaused_result tenantID domain w2) as [[Ht3 _] [[Hr2 Hh2]|(u2 & Hr2 & Hu2 & Hle2 & _)]].
  { destruct (Hnone _ _ Hr2 H2) as [-> ->]. split; [done|]. eauto. }
  assert (u2 = u) as -> by (rewrite Hst2, Hst in Hu2; congruence).
  destruct (wait_round _ _ _ _ _ _ _ Hr2 H2) as [(-> & Hk' & Hkt)|(w3 & Hlt & _)]; [split; [done|]; eauto|].
  specialize (Hclock _ _ Ht3). lia.
Qed.

Lemma Wait_ends fuel tenantID pluginID domain w b w' :
  (2 <= fuel)%nat -> Wait fuel tenantID pluginID domain w = (Ok b, w') ->
  b = true /\ forall u, held (domain_key tenantID domain) u w -> (u <= wall_clock (ticks w'))%Z.
Proof.
  intros Hf H. unfold HttpFw.Wait in H. apply bindS_inv in H as (l & w1 & [= <- <-] & H).
  apply bindS_inv in H as ([] & w1 & Hl & H). apply bindS_inv in H as (go & w2 & Hp & H).
  apply wait_pause_ends in Hp as [-> Hp]; [|done]. cbn [negb] in H.
  assert (onward w w1) as [Ht1 Hw1].
  { revert Hl. destruct (getPluginLimiter _ _ _); [intros [= _ <-]; apply onward_pauses; [exact Hclock|cbn; lia|reflexivity]|intros [= <-]; reflexivity]. }
  unfold getTenantLimiter in H. apply bindS_inv in H as (l & w3 & Hg & H). apply bindS_inv in Hg as ([] & w4 & [= <-] & [= _ <-]).
  apply bindS_inv in H as ([] & w5 & [= _ <-] & [= <- <-]). split; [done|]. intros u Hu. etrans; [by apply Hp, Hw1|]. apply Hclock. cbn. lia.
Qed.

Lemma InjectAuth_moves tenantID body cfg : moves (InjectAuth tenantID body cfg).
Proof.
  assert (forall k, moves (getSecret SecretStore tenantID k)) as Hs by (intros k; unfold getSecret; moves_steps).
  assert (forall k, moves (TokenCache_Get k)) as Hg by (intros k; unfold TokenCache_Get; moves_steps).
  unfold HttpFw.InjectAuth, resolveOAuthToken, fetchOAuthToken, TokenCache_Set. cbv zeta.
  repeat first [apply Hs|apply Hg|moves_step].
Qed.

Lemma prepare_moves fuel req : moves (prepare fuel req).
Proof.
  unfold HttpFw.prepare, HttpFw.Validate, resolve, HttpFw.Wait, getTenantLimiter. cbv zeta.
  repeat first [apply InjectAuth_moves|apply wait_pause_moves|moves_step].
Qed.

Lemma Execute_moves fuel req : moves (Execute fuel req).
Proof.
  assert (forall hops header urls keep method url resp, moves (follow hops req header urls keep method url resp)) as Hf.
  { intros hops header. induction hops as [|hops IH]; intros urls keep method url resp; cbn [HttpFw.follow];
      cbv zeta; repeat first [apply IH|moves_step]. }
  unfold HttpFw.Execute, HttpFw.send, HttpFw.handle_response. cbv zeta.
  repeat first [apply Hf|apply prepare_moves|apply PauseDomain_moves|moves_step].
Qed.

(** A request to a paused domain is not sent before the time. *)
Definition not_before (key : string * string) (u : Z) (o : outgoing) : Prop :=
  match o with
  | PluginRequest time tenantID _ url _ _ _ =>
      forall domain, extractDomain url_Parse url = Ok domain -> domain_key tenantID domain = key -> (u <= time)%Z
  | _ => True
  end.
Definition sends_after (key : string * string) (u : Z) (w w' : Sys HttpState) : Prop :=
  exists l, hsSent (st w') = hsSent (st w) ++ l /\ Forall (not_before key u) l.

Lemma prepare_ends fuel req w r w1 : (2 <= fuel)%nat -> prepare fuel req w = (Ok r, w1) -> r <> None.
Proof.
  intros Hf. unfold HttpFw.prepare. intros ([] & w2 & _ & H)%bindS_inv. do 3 apply bindS_inv in H as (? & ? & _ & H).
  apply bindS_inv in H as (go & w3 & [-> _]%Wait_ends & H); [|done]. by injection H as <- _.
Qed.

Lemma tokens_any key u l : Forall is_token l -> Forall (not_before key u) l.
Proof. intros H. eapply Forall_impl; [exact H|]. by intros []. Qed.
Lemma redirects_any key u req prev l : redirect_chain req prev l -> Forall (not_before key u) l.
Proof.
  revert prev. induction l as [|o l IH]; intros prev; [constructor|]. intros [Ho Hl]. constructor; [|by eapply IH]. by destruct o.
Qed.

Lemma Execute_sends_after fuel req w key u :
  (2 <= fuel)%nat -> held key u w -> sends_after key u w (Execute fuel req w).2.
Proof.
  intros Hf Hh. destruct (Execute_cases fuel req w) as [((l & E & Hl) & _)|(domain & auth & w1 & rs & Hp & E & _ & Hch & _)].
  { exists l. split; [done|by apply tokens_any]. }
  destruct (prepare_tokens fuel req w) as (l & El & Hl). rewrite Hp in El. cbn [snd] in El.
  exists (l ++ request_at (wall_clock (ticks w1)) req auth :: rs). rewrite E, El, app_assoc. split; [done|].
  apply Forall_app. split; [by apply tokens_any|]. constructor; [|by eapply redirects_any]. intros domain' Hd' Hkey.
  apply prepare_inv in Hp as (wv & wa & Hv & <- & Hd & Hw). replace domain' with domain in Hkey by congruence. subst key.
  apply Wait_ends in Hw as [_ Hw]; [|done]. apply Hw, InjectAuth_moves. revert Hh.
  assert (onward w wv) as [_ Ho]; [|by apply Ho].
  assert (moves (Validate (hqTenantID req) (hqURL req))) as Hm by (unfold HttpFw.Validate, resolve; moves_steps).
  specialize (Hm w). by rewrite Hv in Hm.
Qed.

(** One request after the other, whatever their results. *)
Definition execute_all (fuel : nat) (reqs : list PluginHTTPRequest) : HSvc unit :=
  forS (fun req => ignoreS (Execute fuel req)) reqs.

Lemma execute_all_sends_after fuel reqs w key u :
  (2 <= fuel)%nat -> held key u w -> sends_after key u w (execute_all fuel reqs w).2.
Proof.
  intros Hf. revert w. induction reqs as [|req reqs IH]; intros w Hh; [exists []; by rewrite app_nil_r|].
  unfold execute_all. cbn [forS]. unfold mbind, Svc_bind, ignoreS at 1. fold (execute_all fuel reqs).
  destruct (Execute_sends_after fuel req w key u Hf Hh) as (l & E & Hl).
  destruct (IH (Execute fuel req w).2) as (l' & E' & Hl'); [by apply Execute_moves|].
  exists (l ++ l'). rewrite E', E, app_assoc. split; [done|]. by apply Forall_app.
Qed.

(** C33. When a host answers 429 and says when to try again, no later request of the
    tenant to that host that a plugin asks for is sent before that time, whatever is
    asked for in between (redirects that [net/http] follows are not held back);
    and a request does not wait for ever: two rounds of the waiting loop are enough,
    as the timer of the first ends after the pause. *)
Theorem retry_after_respected fuel req domain started resp body w until later :
  (2 <= fuel)%nat -> heStatus resp = 429%Z -> heBody resp = Ok body ->
  parseRetryAfter ParseTime (header_get CanonicalHeaderKey "Retry-After" (heHeader resp)) (wall_clock (ticks w)) = Some until ->
  let w1 := (handle_response req domain started resp w).2 in
  sends_after (domain_key (hqTenantID req) domain) until w (execute_all fuel later w1).2 /\
  (forall next, (Execute fuel next w1).1 <> Ok None).
Proof.
  intros Hf Hs Hb Hp w1. split.
  - assert (held (domain_key (hqTenantID req) domain) until w1) as Hh.
    { subst w1. unfold HttpFw.handle_response, readResponseBody, mbind, Svc_bind, pureS, nowS. rewrite Hb.
      destruct (_ <? _)%Z; cbn [fst snd st ticks]; rewrite decide_True by done; rewrite Hp; cbn [fst snd];
        match goal with |- held ?k ?u ?w' => apply (onward_pauses Hclock (PauseDomain (hqTenantID req) domain until (mkSys (st w) (S (ticks w)))).2 w') end;
        [cbn; lia|reflexivity|apply PauseDomain_holds|cbn; lia|reflexivity|apply PauseDomain_holds]. }
    destruct (execute_all_sends_after fuel later w1 _ _ Hf Hh) as (l & E & Hl). exists l. split; [|done].
    rewrite E. f_equal. apply (handle_trace req domain started resp w).
  - intros next E. destruct (Execute_cases fuel next w1) as [(_ & Hr & _ & Hno)|(d & a & w2 & rs & Hpr & _ & _ & _ & Hno)].
    + rewrite E in Hr. destruct (prepare fuel next w1) as [[r|e] w2] eqn:Hpr; [|done].
      pose proof (prepare_ends _ _ _ _ _ Hf Hpr) as Hn. destruct r as [[d a]|]; [by eapply Hno|done].
    + done.
Qed.
End Client.

Module HttpExample.
#[local] Existing Instance example_runtime.

Definition parse (u : string) : result goerr (string * string) :=
  if decide (u = "https://api.example.com/v1") then Ok ("https", "API.example.com")
  else if decide (u = "https://[::1%25lo]/admin") then Ok ("https", "::1%lo")
  else if decide (u = "https://10.0.0.7/") then Ok ("https", "10.0.0.7")
  else Err (Errorf "parse" []).
Definition addr (h : string) : option Addr :=
  if decide (h = "::1%lo") then Some (V6 1 "lo") else if decide (h = "10.0.0.7") then Some (V4 (ipv4 10 0 0 7)) else None.
Definition lookup (_ : nat) (h : string) : result goerr (list Addr) :=
  if decide (h = "api.example.com") then Ok [V4 (ipv4 93 184 216 34)] else Err (Errorf "no such host" []).
(** The timer runs for a second, then the context ends. *)
Definition one_second (k : nat) (u : Z) : option goerr :=
  if (u <=? @wall_clock example_runtime (S k))%Z then None else Some (Errorf "context deadline exceeded" []).
Definition busy : HTTPReply := mkHTTPReply 429 "429 Too Many Requests" [("Retry-After", ["2"])] (Ok "slow down").
Definition request (url : string) : PluginHTTPRequest := mkPluginHTTPRequest "t1" "crm" "post" url [] "{}" 5000 None.
Definition s0 : HttpState := mkHttpState ∅ ∅ ∅ ∅ ∅ [].

Definition run (url : string) : Sys HttpState :=
  (Execute true (mkRateLimitDefaults 0 0) (mkClientConfig 0 0 0 0 0) parse addr lookup (fun _ _ => Ok tt) one_second None
    (fun _ _ => Ok tt) (fun _ _ _ => Err (Errorf "unreachable" [])) (fun s => s) (fun _ s => s) (fun _ s => s) (fun s => s)
    (fun _ _ => Ok busy) (fun _ loc => Ok loc) (fun h _ _ => h) (fun _ => None) 2 (request url) (mkSys s0 0)).2.

(** A public host is called, a private address is not. An address with a zone is in
    no range, so the loopback address written with one is called. *)
Example zoned_loopback_admitted :
  map (fun o => match o with PluginRequest _ _ _ url _ _ _ | RedirectRequest _ _ _ url _ _ _ => url | TokenRequest _ e _ => e end)
    (hsSent (st (run "https://api.example.com/v1")) ++ hsSent (st (run "https://10.0.0.7/")) ++
     hsSent (st (run "https://[::1%25lo]/admin"))) = ["https://api.example.com/v1"; "https://[::1%25lo]/admin"] /\
  ~ blocked (V6 1 "lo") /\ blocked (V6 1 "").
Proof. split; [by vm_compute|]. split; [intros [H _]; discriminate|]. split; [done|by left]. Qed.

(** A host that is admitted answers with a redirect to a private address, and it is
    followed, with the header of the API key. *)
Definition moved : HTTPReply := mkHTTPReply 307 "307 Temporary Redirect" [("Location", ["https://10.0.0.7/"])] (Ok "").
Definition answer (_ : nat) (o : outgoing) : result goerr HTTPReply :=
  match o with PluginRequest _ _ _ _ _ _ _ => Ok moved | _ => Ok (mkHTTPReply 200 "200 OK" [] (Ok "secret")) end.
Definition key_request : PluginHTTPRequest :=
  mkPluginHTTPRequest "t1" "crm" "post" "https://api.example.com/v1" [] "{}" 5000
    (Some (mkAuthConfig "api_key" "" "key" "" "" "" "" "" [] "" "")).
Definition redirected_run : result goerr (option PluginHTTPResponse) * Sys HttpState :=
  Execute true (mkRateLimitDefaults 0 0) (mkClientConfig 0 0 0 0 0) parse addr lookup (fun _ _ => Ok tt) one_second
    (Some (fun _ _ _ => Ok "hunter2")) (fun _ _ => Ok tt) (fun _ _ _ => Err (Errorf "unreachable" [])) (fun s => s)
    (fun _ s => s) (fun _ s => s) (fun s => s) answer (fun _ loc => Ok loc) (fun h _ _ => h) (fun _ => None) 2 key_request (mkSys s0 0).
Example redirect_unchecked :
  match redirected_run.1 with Ok (Some resp) => hrBody resp = "secret" | _ => False end /\
  map (fun o => match o with
                | PluginRequest _ _ m u h b _ | RedirectRequest _ _ m u h b _ => (m, u, h !! "X-API-Key", b)
                | TokenRequest _ e _ => ("POST", e, None, "")
                end) (hsSent (st redirected_run.2))
  = [("POST", "https://api.example.com/v1", Some "hunter2", "{}"); ("POST", "https://10.0.0.7/", Some "hunter2", "{}")].
Proof. by vm_compute. Qed.

Lemma retry_after_respected_witness :
  exists u l,
    hsSent (st (execute_all true (mkRateLimitDefaults 0 0) (mkClientConfig 0 0 0 0 0) parse addr lookup (fun _ _ => Ok tt) one_second None
      (fun _ _ => Ok tt) (fun _ _ _ => Err (Errorf "unreachable" [])) (fun s => s) (fun _ s => s) (fun _ s => s) (fun s => s)
      (fun _ _ => Ok busy) (fun _ loc => Ok loc) (fun h _ _ => h) (fun _ => None) 2 [request "https://api.example.com/v1"]
      (handle_response (mkClientConfig 0 0 0 0 0) (fun s => s) (fun _ => None) (request "https://api.example.com/v1") "api.example.com" 0 busy
        (mkSys s0 0)).2).2) = l /\
    Forall (not_before parse ("t1", "api.example.com") u) l /\ u = (1700000002 * Second)%Z /\ l <> [].
Proof.
  assert (forall k k', (k <= k')%nat -> (@wall_clock example_runtime k <= @wall_clock example_runtime k')%Z) as Hclock.
  { intros k k' H. unfold wall_clock, example_runtime, Second. lia. }
  pose proof (@retry_after_respected example_runtime true (mkRateLimitDefaults 0 0) (mkClientConfig 0 0 0 0 0) parse addr lookup
    (fun _ _ => Ok tt) one_second None (fun _ _ => Ok tt) (fun _ _ _ => Err (Errorf "unreachable" [])) (fun s => s) (fun _ s => s) (fun _ s => s)
    (fun s => s) (fun _ _ => Ok busy) (fun _ loc => Ok loc) (fun h _ _ => h) (fun _ => None) Hclock) as H.
  assert (forall k u, one_second k u = None -> forall k', (k < k')%nat -> (u <= @wall_clock example_runtime k')%Z) as Htimer.
  { intros k u E k' Hk. unfold one_second in E. destruct (Z.leb_spec u (@wall_clock example_runtime (S k))) as [Hu|]; [|done].
    etrans; [exact Hu|]. by apply Hclock. }
  specialize (H Htimer 2%nat (request "https://api.example.com/v1") "api.example.com" 0%Z busy "slow down" (mkSys s0 0) (1700000002 * Second)%Z
    [request "https://api.example.com/v1"] ltac:(lia) ltac:(reflexivity) ltac:(reflexivity) ltac:(vm_compute; reflexivity)).
  destruct H as [(l & E & Hl) _]. exists (1700000002 * Second)%Z, l. split; [exact E|]. split; [exact Hl|]. split; [reflexivity|].
  intros ->. vm_compute in E. discriminate.
Defined.
End HttpExample.
