(* ===== verification/Llm.v ===== *)
(** * Language models ([internal/llm], [api/handlers/llm.go])

    Providers of tenants: their rows, the manager that keeps an adapter per
    provider and calls it for the tenant, with limits and a fallback, and the
    accounts of what was used. Adapters are reached through an interface; what
    they answer is a parameter. The calls that are made are kept as a trace. The
    manager's maps point to objects, which have addresses. *)

From S2P Require Import Prelude GoStrings Json EngineTypes Store EngineOps GoText Effects Triggers JsonText Agentic.

(** ** Errors ([errors.go]) *)

Definition ErrRateLimited : goerr := Errorf "rate limited" [].
Definition ErrProviderUnavailable : goerr := Errorf "provider unavailable" [].

(** An [HTTPStatusError] is known by its text. *)
Definition status_format : string := "provider http status %d".
Definition status_body_format : string := "provider http status %d: %s".
Definition HTTPStatusError (code : Z) (body : string) : goerr :=
  if decide (body = "") then Errorf status_format [Itoa code] else Errorf status_body_format [Itoa code; body].
(** [errors.As] *)
Fixpoint status_of (e : goerr) : option Z :=
  match e with
  | Errorf f args =>
      if decide (f = status_format \/ f = status_body_format) then match args with c :: _ => Atoi c | [] => None end else None
  | Wrapf _ _ cause => status_of cause
  end.

Definition IsRetryableProviderError (e : goerr) : bool :=
  if errors_is e ErrRateLimited || errors_is e ErrProviderUnavailable then true
  else match status_of e with Some c => (c =? 429)%Z || (500 <=? c)%Z | None => false end.
Definition IsClientProviderError (e : goerr) : bool :=
  match status_of e with Some c => (400 <=? c)%Z && (c <? 500)%Z && negb (c =? 429)%Z | None => false end.

(** ** Types ([types.go]) *)

Record ModelInfo : Type := mkModelInfo {
  miID : string; miName : string; miContextWindow : Z; miSupportsVision : bool; miSupportsJSON : bool;
  miCostPerInputToken : Qc; miCostPerOutputToken : Qc
}.
Definition no_pricing (model : string) : ModelInfo := mkModelInfo model "" 0 false false 0 0.

Record LLMProviderConfig : Type := mkLLMProviderConfig {
  pcID : uuid; pcTenantID : uuid; pcProvider : string; pcName : string; pcEndpointURL : string; pcAPIKeySecret : string;
  pcDefaultModel : string; pcMaxTokens : Z; pcTemperature : Qc; pcIsDefault : bool; pcIsFallback : bool; pcEnabled : bool;
  pcModelMap : gmap string string; pcModelPricing : gmap string ModelInfo; pcRequestsPerMin : Z; pcTenantRPM : Z;
  pcMonthlyTokenBudget : Z; pcMonthlyCostBudget : Qc; pcAzureAPIVersion : string; pcAzureDeployment : string; pcAzure : bool;
  pcCreatedAt : Z; pcUpdatedAt : Z
}.
Definition PricingForModel (c : LLMProviderConfig) (model : string) : ModelInfo :=
  match pcModelPricing c !! model with
  | Some info => if decide (miID info = "") then
                   mkModelInfo model (miName info) (miContextWindow info) (miSupportsVision info) (miSupportsJSON info)
                     (miCostPerInputToken info) (miCostPerOutputToken info)
                 else info
  | None => no_pricing model
  end.

Record Invocation : Type := mkInvocation {
  ivID : uuid; ivTenantID : uuid; ivProviderID : uuid; ivProvider : string; ivModel : string; ivPurpose : string;
  ivInputTokens : Z; ivOutputTokens : Z; ivTotalTokens : Z; ivDurationMS : Z; ivStatus : string; ivErrorMessage : string;
  ivCostUSD : Qc; ivCreatedAt : Z
}.
Record MonthlyUsage : Type := mkMonthlyUsage { muTotalTokens : Z; muTotalCostUSD : Qc; muInvocationCount : Z }.
Record PurposeUsage : Type := mkPurposeUsage {
  puPurpose : string; puTotalTokens : Z; puTotalCostUSD : Qc; puInvocationCount : Z
}.
Record ListOpts : Type := mkListOpts { loSince : Z; loLimit : Z; loOffset : Z }.

(** ** State *)

Record RateLimiter : Type := mkRateLimiter { rtPerSecond : Qc; rtBurst : Z }.

(** What the factory makes. *)
Inductive adapterKind : Type := openai | anthropic | ollama | custom.
Record Adapter : Type := mkAdapter {
  adKind : adapterKind; adAPIKey : string; adBaseURL : string; adDefaultModel : string; adAzure : bool; adAzureAPIVersion : string
}.
Record managedAdapter : Type := mkManagedAdapter { maAdapter : Adapter; maConfig : LLMProviderConfig; maLimiter : RateLimiter }.

(** A call of an adapter: when, for whom (nobody, when it is a test), of which object,
    with which model. *)
Record adapterCall : Type := mkAdapterCall { acTime : Z; acTenant : option uuid; acManaged : managedAdapter; acModel : string }.

Record LlmState : Type := mkLlmState {
  lsTenants : gset uuid;
  lsConfigs : gmap uuid LLMProviderConfig;
  lsInvocations : list Invocation;
  lsUsage : gmap (uuid * string) MonthlyUsage;
  lsHeap : list managedAdapter;
  lsAdapters : gmap uuid nat;
  lsDefaults : gmap uuid nat;
  lsFallbacks : gmap uuid nat;
  lsModelMaps : gmap uuid (gmap string string);
  lsTenantLimiter : gmap uuid RateLimiter;
  lsRetryAfter : gmap uuid Z;
  lsQueue : list Invocation;
  lsSpawned : list Invocation;
  lsStopped : bool;
  lsCalls : list adapterCall
}.
Definition set_configs f (s : LlmState) : LlmState :=
  mkLlmState (lsTenants s) (f (lsConfigs s)) (lsInvocations s) (lsUsage s) (lsHeap s) (lsAdapters s) (lsDefaults s)
    (lsFallbacks s) (lsModelMaps s) (lsTenantLimiter s) (lsRetryAfter s) (lsQueue s) (lsSpawned s) (lsStopped s) (lsCalls s).
Definition set_accounts (rows : list Invocation) (usage : gmap (uuid * string) MonthlyUsage) (s : LlmState) : LlmState :=
  mkLlmState (lsTenants s) (lsConfigs s) rows usage (lsHeap s) (lsAdapters s) (lsDefaults s)
    (lsFallbacks s) (lsModelMaps s) (lsTenantLimiter s) (lsRetryAfter s) (lsQueue s) (lsSpawned s) (lsStopped s) (lsCalls s).
Definition set_maps (heap : list managedAdapter) (adapters defaults fallbacks : gmap uuid nat)
    (models : gmap uuid (gmap string string)) (limiters : gmap uuid RateLimiter) (s : LlmState) : LlmState :=
  mkLlmState (lsTenants s) (lsConfigs s) (lsInvocations s) (lsUsage s) heap adapters defaults
    fallbacks models limiters (lsRetryAfter s) (lsQueue s) (lsSpawned s) (lsStopped s) (lsCalls s).
Definition set_retry f (s : LlmState) : LlmState :=
  mkLlmState (lsTenants s) (lsConfigs s) (lsInvocations s) (lsUsage s) (lsHeap s) (lsAdapters s) (lsDefaults s)
    (lsFallbacks s) (lsModelMaps s) (lsTenantLimiter s) (f (lsRetryAfter s)) (lsQueue s) (lsSpawned s) (lsStopped s) (lsCalls s).
Definition set_pending (queue spawned : list Invocation) (stopped : bool) (s : LlmState) : LlmState :=
  mkLlmState (lsTenants s) (lsConfigs s) (lsInvocations s) (lsUsage s) (lsHeap s) (lsAdapters s) (lsDefaults s)
    (lsFallbacks s) (lsModelMaps s) (lsTenantLimiter s) (lsRetryAfter s) queue spawned stopped (lsCalls s).
Definition add_call (c : adapterCall) (s : LlmState) : LlmState :=
  mkLlmState (lsTenants s) (lsConfigs s) (lsInvocations s) (lsUsage s) (lsHeap s) (lsAdapters s) (lsDefaults s)
    (lsFallbacks s) (lsModelMaps s) (lsTenantLimiter s) (lsRetryAfter s) (lsQueue s) (lsSpawned s) (lsStopped s) (lsCalls s ++ [c]).
Abbreviation LSvc := (Svc LlmState).

(** [NUMERIC(p, s)]: rounded half away from zero, refused when it does not fit. *)
Definition numeric (precision scale : Z) (q : Qc) : option Qc :=
  let n := (Qnum (this q) * 10 ^ scale)%Z in
  let d := Zpos (Qden (this q)) in
  let z := Z.quot (2 * n + Z.sgn n * d) (2 * d) in
  if (Z.abs z <? 10 ^ precision)%Z then Some (Q2Qc (Qmake z (Z.to_pos (10 ^ scale)))) else None.
Definition numeric_overflow : goerr := Errorf "numeric field overflow" [].
Definition int8_ok (z : Z) : bool := (- 2 ^ 63 <=? z)%Z && (z <? 2 ^ 63)%Z.
Definition int8_error : goerr := Errorf "bigint out of range" [].
Definition unique_error : goerr := Errorf "duplicate key value violates unique constraint" [].
Definition foreign_key_error : goerr := Errorf "violates foreign key constraint" [].
Definition check_error : goerr := Errorf "violates check constraint" [].

Section Llm.
Context `{R : Runtime}.
(** [t.Format("2006-01")] and [t.AddDate(0, -1, 0)]. *)
Context (year_month : Z -> string) (month_before : Z -> Z).

(** ** [store_pg.go] *)

Definition uuid_New : LSvc uuid := callS (fun k => Ok (gen_random_uuid k)).
Definition or_new (id : uuid) : LSvc uuid := if decide (id = 0%N) then uuid_New else mret id.

Definition known_statuses : list string := ["success"; "error"; "rate_limited"].
Definition stored_invocation (inv : Invocation) (id : uuid) (createdAt : Z) (cost : Qc) : Invocation :=
  mkInvocation id (ivTenantID inv) (ivProviderID inv) (ivProvider inv) (ivModel inv) (ivPurpose inv) (ivInputTokens inv)
    (ivOutputTokens inv) (ivTotalTokens inv) (ivDurationMS inv) (ivStatus inv) (TrimSpace (ivErrorMessage inv)) cost createdAt.

(** The row, with the constraints of the table. *)
Definition insert_invocation (inv : Invocation) (id : uuid) (createdAt : Z) (s : LlmState) : result goerr (unit * LlmState) :=
  if negb (int4_ok (ivInputTokens inv) && int4_ok (ivOutputTokens inv) && int4_ok (ivTotalTokens inv) && int4_ok (ivDurationMS inv))
  then Err int4_error
  else match numeric 10 6 (ivCostUSD inv) with
       | None => Err numeric_overflow
       | Some cost =>
           if decide (ivStatus inv ∉ known_statuses) then Err check_error
           else if decide (id ∈ map ivID (lsInvocations s)) then Err unique_error
           else if decide (ivTenantID inv ∉ lsTenants s) then Err foreign_key_error
           else match lsConfigs s !! ivProviderID inv with
                | None => Err foreign_key_error
                | Some _ => Ok (tt, set_accounts (lsInvocations s ++ [stored_invocation inv id createdAt cost]) (lsUsage s) s)
                end
       end.

Definition RecordInvocation (inv : Invocation) : LSvc unit :=
  id ← or_new (ivID inv);
  createdAt ← (if decide (ivCreatedAt inv = time_zero) then nowS else mret (ivCreatedAt inv));
  wrapS (Wrapf "insert llm invocation: %w" []) (exec (fun _ _ s => insert_invocation inv id createdAt s)).

Definition no_usage : MonthlyUsage := mkMonthlyUsage 0 0 0.
Definition GetMonthlyUsage (tenantID : uuid) (yearMonth : string) : LSvc MonthlyUsage :=
  wrapS (Wrapf "query llm monthly usage: %w" [])
    (select (fun _ s => default no_usage (lsUsage s !! (tenantID, yearMonth)))).

(** [INSERT ... ON CONFLICT DO UPDATE] *)
Definition upsert_usage (tenantID : uuid) (yearMonth : string) (tokens : Z) (costUSD : Qc) (s : LlmState)
  : result goerr (unit * LlmState) :=
  match numeric 12 6 costUSD with
  | None => Err numeric_overflow
  | Some cost =>
      let old := default no_usage (lsUsage s !! (tenantID, yearMonth)) in
      if decide (tenantID ∉ lsTenants s) then Err foreign_key_error
      else if negb (int8_ok (muTotalTokens old + tokens)) then Err int8_error
      else if negb (int4_ok (muInvocationCount old + 1)) then Err int4_error
      else match numeric 12 6 (muTotalCostUSD old + cost)%Qc with
           | None => Err numeric_overflow
           | Some total =>
               Ok (tt, set_accounts (lsInvocations s)
                         (<[(tenantID, yearMonth) := mkMonthlyUsage (muTotalTokens old + tokens) total (muInvocationCount old + 1)]>
                            (lsUsage s)) s)
           end
  end.
Definition UpdateMonthlyUsage (tenantID : uuid) (tokens : Z) (costUSD : Qc) : LSvc unit :=
  now ← nowS;
  wrapS (Wrapf "upsert llm monthly usage: %w" [])
    (exec (fun _ _ s => upsert_usage tenantID (year_month now) tokens costUSD s)).

Definition later_invocation (a b : Invocation) : Prop := (ivCreatedAt b <= ivCreatedAt a)%Z.
#[export] Instance later_invocation_dec a b : Decision (later_invocation a b) := Z_le_dec _ _.
Definition list_limit (n : Z) : nat := Z.to_nat (if (n <=? 0)%Z then 100 else Z.min n 500).
Definition ListInvocations (tenantID : uuid) (opts : ListOpts) : LSvc (list Invocation) :=
  since ← (if decide (loSince opts = time_zero) then now ← nowS; mret (now - 30 * 24 * 60 * Minute)%Z else mret (loSince opts));
  wrapS (Wrapf "query llm invocations: %w" [])
    (select (fun _ s => take (list_limit (loLimit opts)) (drop (Z.to_nat (loOffset opts))
       (merge_sort later_invocation
          (filter (fun i => ivTenantID i = tenantID /\ (since <= ivCreatedAt i)%Z) (lsInvocations s)))))).

Definition sum_Z {A} (f : A -> Z) (l : list A) : Z := foldr (fun a n => f a + n)%Z 0%Z l.
Definition sum_Qc {A} (f : A -> Qc) (l : list A) : Qc := foldr (fun a n => f a + n)%Qc 0%Qc l.
Definition purpose_le (a b : string) : Prop := str_ltb b a = false.
#[export] Instance purpose_le_dec a b : Decision (purpose_le a b) := decide (str_ltb b a = false).
Definition purpose_usage (rows : list Invocation) (purpose : string) : PurposeUsage :=
  let mine := filter (fun i => ivPurpose i = purpose) rows in
  mkPurposeUsage purpose (sum_Z ivTotalTokens mine) (sum_Qc ivCostUSD mine) (Z.of_nat (length mine)).
Definition UsageByPurpose (tenantID : uuid) (since : Z) : LSvc (list PurposeUsage) :=
  since ← (if decide (since = time_zero) then now ← nowS; mret (month_before now) else mret since);
  wrapS (Wrapf "query llm usage by purpose: %w" [])
    (select (fun _ s =>
       let rows := filter (fun i => ivTenantID i = tenantID /\ (since <= ivCreatedAt i)%Z) (lsInvocations s) in
       map (purpose_usage rows) (merge_sort purpose_le (remove_dups (map ivPurpose rows))))).

(** *** Providers *)

Definition known_providers : list string := ["openai"; "anthropic"; "google"; "cohere"; "mistral"; "ollama"; "custom"].

(** What the columns hold of a configuration. *)
Definition stored_config (c : LLMProviderConfig) (id : uuid) (created updated : Z) : result goerr LLMProviderConfig :=
  if negb (int4_ok (pcMaxTokens c) && int4_ok (pcRequestsPerMin c) && int4_ok (pcTenantRPM c)) then Err int4_error
  else if negb (int8_ok (pcMonthlyTokenBudget c)) then Err int8_error
  else match numeric 3 2 (pcTemperature c), numeric 12 6 (pcMonthlyCostBudget c) with
       | Some temperature, Some budget =>
           if decide (pcProvider c ∉ known_providers) then Err check_error
           else Ok (mkLLMProviderConfig id (pcTenantID c) (pcProvider c) (pcName c) (pcEndpointURL c) (pcAPIKeySecret c)
                      (pcDefaultModel c) (pcMaxTokens c) temperature (pcIsDefault c) (pcIsFallback c) (pcEnabled c) (pcModelMap c)
                      (pcModelPricing c) (pcRequestsPerMin c) (pcTenantRPM c) (pcMonthlyTokenBudget c) budget (pcAzureAPIVersion c)
                      (pcAzureDeployment c) (pcAzure c) created updated)
       | _, _ => Err numeric_overflow
       end.

Definition newer_config (a b : LLMProviderConfig) : Prop := (pcCreatedAt b <= pcCreatedAt a)%Z.
#[export] Instance newer_config_dec a b : Decision (newer_config a b) := Z_le_dec _ _.
Definition ListProviders (tenantID : uuid) : LSvc (list LLMProviderConfig) :=
  wrapS (Wrapf "query llm providers: %w" [])
    (select (fun _ s => merge_sort newer_config (filter (fun c => pcTenantID c = tenantID) (map snd (map_to_list (lsConfigs s)))))).

Definition config_of (tenantID configID : uuid) (s : LlmState) : option LLMProviderConfig :=
  match lsConfigs s !! configID with
  | Some c => if decide (pcTenantID c = tenantID) then Some c else None
  | None => None
  end.
Definition GetProvider (tenantID configID : uuid) : LSvc LLMProviderConfig :=
  wrapS (fun e => if decide (e = ErrNoRows) then e else Wrapf "query llm provider: %w" [] e)
    (select_row (fun _ => config_of tenantID configID)).

Definition Store_CreateProvider (config : LLMProviderConfig) : LSvc LLMProviderConfig :=
  id ← or_new (pcID config);
  wrapS (Wrapf "insert llm provider: %w" [])
    (exec (fun _ now s =>
       row ← stored_config config id now now;
       if decide (pcTenantID config ∉ lsTenants s) then Err foreign_key_error
       else match lsConfigs s !! id with
            | Some _ => Err unique_error
            | None => Ok (row, set_configs <[id := row]> s)
            end)).

Definition Store_UpdateProvider (config : LLMProviderConfig) : LSvc LLMProviderConfig :=
  wrapS (Wrapf "update llm provider: %w" [])
    (exec (fun _ now s =>
       match config_of (pcTenantID config) (pcID config) s with
       | None => Err ErrNoRows
       | Some old =>
           row ← stored_config config (pcID config) (pcCreatedAt old) now;
           Ok (row, set_configs <[pcID config := row]> s)
       end)).

(** An invocation that names the provider keeps its row. *)
Definition Store_DeleteProvider (tenantID configID : uuid) : LSvc unit :=
  wrapS (Wrapf "delete llm provider: %w" [])
    (exec (fun _ _ s =>
       match config_of tenantID configID s with
       | None => Ok (tt, s)
       | Some _ => if decide (configID ∈ map ivProviderID (lsInvocations s)) then Err foreign_key_error
                   else Ok (tt, set_configs (delete configID) s)
       end)).

(** ** [manager.go] *)

(** Secrets, adapters and limiters are outside. A map is visited in some order. *)
Context (secrets : option (nat -> uuid -> string -> result goerr string)).
Context (Adapter_Chat : nat -> Adapter -> ChatRequest -> result goerr ChatResponse)
  (Adapter_Embed : nat -> Adapter -> list string -> string -> result goerr (list (list Qc)))
  (Adapter_Close : nat -> Adapter -> result goerr unit).
Context (limiter_Wait : nat -> RateLimiter -> result goerr unit) (visit : nat -> list nat -> list nat).

Definition defaultRequestsPerMin : Z := 60.
Definition invocationQueueSize : nat := 1024.
Definition new_limiter (perMinute : Z) : RateLimiter :=
  mkRateLimiter (Q2Qc (Qmake perMinute 60)) (Z.max 1 (Z.quot perMinute 6)).

(** The factory that the composition root passes ([api/routes.go]). *)
Definition factory (config : LLMProviderConfig) (apiKey : string) : result goerr Adapter :=
  let p := TrimSpace (ToLower (pcProvider config)) in
  if decide (p = "openai") then Ok (mkAdapter openai apiKey (pcEndpointURL config) (pcDefaultModel config) false "")
  else if decide (p = "anthropic") then Ok (mkAdapter anthropic apiKey (pcEndpointURL config) (pcDefaultModel config) false "")
  else if decide (p = "ollama") then Ok (mkAdapter ollama "" (pcEndpointURL config) (pcDefaultModel config) false "")
  else if decide (p = "custom") then
    Ok (mkAdapter custom apiKey (pcEndpointURL config) (pcDefaultModel config) (pcAzure config) (pcAzureAPIVersion config))
  else Err (Errorf "unsupported llm provider %q" [pcProvider config]).

Definition with_limits (c : LLMProviderConfig) (id : uuid) : LLMProviderConfig :=
  mkLLMProviderConfig id (pcTenantID c) (pcProvider c) (pcName c) (pcEndpointURL c) (pcAPIKeySecret c)
    (pcDefaultModel c) (pcMaxTokens c) (pcTemperature c) (pcIsDefault c) (pcIsFallback c) (pcEnabled c) (pcModelMap c)
    (pcModelPricing c) (positive_or (pcRequestsPerMin c) defaultRequestsPerMin)
    (positive_or (pcTenantRPM c) defaultRequestsPerMin) (pcMonthlyTokenBudget c) (pcMonthlyCostBudget c) (pcAzureAPIVersion c)
    (pcAzureDeployment c) (pcAzure c) (pcCreatedAt c) (pcUpdatedAt c).

(** The new object and the maps that point to it. *)
Definition install (m : managedAdapter) (s : LlmState) : LlmState :=
  let a := length (lsHeap s) in
  let config := maConfig m in
  let tenant := pcTenantID config in
  set_maps (lsHeap s ++ [m]) (<[pcID config := a]> (lsAdapters s))
    (if pcIsDefault config || bool_decide (lsDefaults s !! tenant = None) then <[tenant := a]> (lsDefaults s) else lsDefaults s)
    (if pcIsFallback config then <[tenant := a]> (lsFallbacks s) else lsFallbacks s)
    (<[tenant := pcModelMap config ∪ default ∅ (lsModelMaps s !! tenant)]> (lsModelMaps s))
    (match lsTenantLimiter s !! tenant with
     | Some _ => lsTenantLimiter s
     | None => <[tenant := new_limiter (pcTenantRPM config)]> (lsTenantLimiter s)
     end) s.

Definition AddProvider (config : LLMProviderConfig) : LSvc unit :=
  id ← or_new (pcID config);
  let config := with_limits config id in
  apiKey ← match secrets with
           | Some get =>
               if decide (TrimSpace (pcAPIKeySecret config) = "") then mret ""
               else wrapS (Wrapf "resolve llm provider secret: %w" [])
                      (callS (fun k => get k (pcTenantID config) (pcAPIKeySecret config)))
           | None => mret ""
           end;
  adapter ← wrapS (Wrapf "create %s adapter: %w" [pcProvider config]) (pureS (factory config apiKey));
  changes (install (mkManagedAdapter adapter config (new_limiter (pcRequestsPerMin config)))).

Definition drop_pointer (tenant : uuid) (a : nat) (m : gmap uuid nat) : gmap uuid nat :=
  if decide (m !! tenant = Some a) then delete tenant m else m.
Definition uninstall (configID : uuid) (a : nat) (tenant : uuid) (s : LlmState) : LlmState :=
  set_maps (lsHeap s) (delete configID (lsAdapters s)) (drop_pointer tenant a (lsDefaults s))
    (drop_pointer tenant a (lsFallbacks s)) (lsModelMaps s) (lsTenantLimiter s) s.
Definition managed_at (a : option nat) (s : LlmState) : option (nat * managedAdapter) :=
  a ← a; m ← lsHeap s !! a; Some (a, m).

Definition RemoveProvider (configID : uuid) : LSvc unit :=
  found ← reads (fun s => managed_at (lsAdapters s !! configID) s);
  match found with
  | None => mret tt
  | Some (a, m) =>
      _ ← changes (uninstall configID a (pcTenantID (maConfig m)));
      callS (fun k => Adapter_Close k (maAdapter m))
  end.

Definition ResolveModel (tenantID : uuid) (hint : string) (s : LlmState) : string :=
  match lsModelMaps s !! tenantID with
  | None => ""
  | Some m => TrimSpace (default "" (m !! TrimSpace (ToLower hint)))
  end.

(** *** Calls *)

Definition retry_time (e : goerr) : LSvc (option Z) :=
  if errors_is e ErrRateLimited || bool_decide (status_of e = Some 429%Z)
  then now ← nowS; mret (Some (now + 10 * Second)%Z) else mret None.
Definition statusForError (e : goerr) : string :=
  if errors_is e ErrRateLimited || bool_decide (status_of e = Some 429%Z) then "rate_limited" else "error".
Definition normalizePurpose (value fallback : string) : string :=
  let v := TrimSpace (ToLower value) in if decide (v = "") then fallback else v.
Definition coalesce (value fallback : string) : string := if decide (TrimSpace value = "") then fallback else value.
Definition estimateCostUSD (config : LLMProviderConfig) (model : string) (inputTokens outputTokens : Z) : Qc :=
  let p := PricingForModel config model in
  (Q2Qc (inject_Z inputTokens) * miCostPerInputToken p + Q2Qc (inject_Z outputTokens) * miCostPerOutputToken p)%Qc.
Definition setRetryAfter (providerID : uuid) (t : Z) : LSvc unit := changes (set_retry <[providerID := t]>).

Definition waitForLimiters (m : managedAdapter) : LSvc unit :=
  tenantLimiter ← reads (fun s => lsTenantLimiter s !! pcTenantID (maConfig m));
  retryAt ← reads (fun s => lsRetryAfter s !! pcID (maConfig m));
  _ ← match retryAt with
      | None => mret tt
      | Some t => now ← nowS; guardS (negb (now <? t)%Z) ErrRateLimited
      end;
  _ ← match tenantLimiter with
      | Some l => wrapS (Wrapf "tenant rate limit wait: %w" []) (callS (fun k => limiter_Wait k l))
      | None => mret tt
      end;
  wrapS (Wrapf "provider rate limit wait: %w" []) (callS (fun k => limiter_Wait k (maLimiter m))).

Definition set_outcome (status message : string) (ms : Z) (inv : Invocation) : Invocation :=
  mkInvocation (ivID inv) (ivTenantID inv) (ivProviderID inv) (ivProvider inv) (ivModel inv) (ivPurpose inv) (ivInputTokens inv)
    (ivOutputTokens inv) (ivTotalTokens inv) ms status message (ivCostUSD inv) (ivCreatedAt inv).
Definition set_used (inTokens outTokens total : Z) (model : string) (cost : Qc) (inv : Invocation) : Invocation :=
  mkInvocation (ivID inv) (ivTenantID inv) (ivProviderID inv) (ivProvider inv) model (ivPurpose inv) inTokens outTokens total
    (ivDurationMS inv) (ivStatus inv) (ivErrorMessage inv) cost (ivCreatedAt inv).
Definition ms_since (started : Z) : LSvc Z := now ← nowS; mret (Z.quot (now - started) Millisecond).

(** What [callChat] and [callEmbed] have in common: limits, the call, and the
    invocation that says how it went. *)
Definition call_adapter {A} (m : managedAdapter) (tenantID : uuid) (model purpose : string)
    (call : nat -> result goerr A) (used : A -> Invocation -> Invocation) : LSvc (result goerr A * Invocation) :=
  started ← nowS;
  id ← uuid_New;
  let inv := mkInvocation id tenantID (pcID (maConfig m)) (pcProvider (maConfig m)) model purpose 0 0 0 0 "" "" 0 started in
  allowed ← tryS (waitForLimiters m);
  match allowed with
  | Err e => ms ← ms_since started; mret (Err e, set_outcome "rate_limited" (Error e) ms inv)
  | Ok _ =>
      now ← nowS;
      _ ← changes (add_call (mkAdapterCall now (Some tenantID) m model));
      resp ← tryS (callS call);
      ms ← ms_since started;
      match resp with
      | Err e =>
          retry ← retry_time e;
          _ ← match retry with Some t => setRetryAfter (pcID (maConfig m)) t | None => mret tt end;
          mret (Err e, set_outcome (statusForError e) (Error e) ms inv)
      | Ok a => mret (Ok a, used a (set_outcome "success" "" ms inv))
      end
  end.

Definition chat_used (config : LLMProviderConfig) (resp : ChatResponse) (inv : Invocation) : Invocation :=
  let model := coalesce (rsModel resp) (ivModel inv) in
  set_used (rsInputTokens resp) (rsOutputTokens resp) (rsTotalTokens resp) model
    (estimateCostUSD config model (rsInputTokens resp) (rsOutputTokens resp)) inv.
Definition callChat (m : managedAdapter) (tenantID : uuid) (req : ChatRequest) : LSvc (result goerr ChatResponse * Invocation) :=
  call_adapter m tenantID (crModel req) (normalizePurpose (crPurpose req) "assistant")
    (fun k => Adapter_Chat k (maAdapter m) req) (chat_used (maConfig m)).
Definition callEmbed (m : managedAdapter) (tenantID : uuid) (texts : list string) (model : string)
  : LSvc (result goerr (list (list Qc)) * Invocation) :=
  call_adapter m tenantID model "embedding" (fun k => Adapter_Embed k (maAdapter m) texts model)
    (fun _ inv => set_used 0 0 0 (ivModel inv) (estimateCostUSD (maConfig m) (ivModel inv) 0 0) inv).

(** The default, or some provider of the tenant that is enabled; then the fallback. *)
Definition usable (m : nat * managedAdapter) : bool := pcEnabled (maConfig m.2).
Definition keep_usable (m : option (nat * managedAdapter)) : option (nat * managedAdapter) :=
  match m with Some m => if usable m then Some m else None | None => None end.
Definition selectAdapters (tenantID : uuid) : LSvc (option (nat * managedAdapter) * option (nat * managedAdapter)) :=
  primary ← reads (fun s => managed_at (lsDefaults s !! tenantID) s);
  fallback ← reads (fun s => managed_at (lsFallbacks s !! tenantID) s);
  primary ← match primary with
            | Some m => mret (Some m)
            | None =>
                all ← reads (fun s => map snd (map_to_list (lsAdapters s)));
                order ← callS (fun k => Ok (visit k all));
                reads (fun s => head (filter (fun m : nat * managedAdapter => pcTenantID (maConfig m.2) = tenantID /\ usable m = true)
                                        (omap (fun a => managed_at (Some a) s) order)))
            end;
  mret (keep_usable primary, keep_usable fallback).

Definition enqueueInvocation (inv : Invocation) : LSvc unit :=
  changes (fun s => if (length (lsQueue s) <? invocationQueueSize)%nat
                    then set_pending (lsQueue s ++ [inv]) (lsSpawned s) (lsStopped s) s
                    else set_pending (lsQueue s) (lsSpawned s ++ [inv]) (lsStopped s) s).

(** The provider, and the fallback when it is another one and the error can be cured. *)
Definition with_fallback {A} (tenantID : uuid) (attempt : string -> managedAdapter -> LSvc (result goerr A * Invocation)) (model : string) : LSvc A :=
  selected ← selectAdapters tenantID;
  match selected with
  | (None, _) => fail ErrProviderUnavailable
  | (Some (a, m), fallback) =>
      let model := if decide (model = "") then pcDefaultModel (maConfig m) else model in
      first ← attempt model m;
      _ ← enqueueInvocation first.2;
      match first.1 with
      | Ok r => mret r
      | Err e =>
          match fallback with
          | None => fail e
          | Some (a', m') =>
              if bool_decide (a' = a) || IsClientProviderError e || negb (IsRetryableProviderError e) then fail e
              else
                second ← attempt model m';
                _ ← enqueueInvocation second.2;
                pureS second.1
          end
      end
  end.

Definition set_model (model : string) (req : ChatRequest) : ChatRequest :=
  mkChatRequest (crSystemPrompt req) (crMessages req) model (crMaxTokens req) (crTemperature req) (crJSONMode req) (crImages req)
    (crTools req) (crToolChoice req) (crPurpose req).
Definition Chat (tenantID : uuid) (req : ChatRequest) : LSvc ChatResponse :=
  with_fallback tenantID (fun model m => callChat m tenantID (set_model model req)) (crModel req).
Definition Embed (tenantID : uuid) (texts : list string) (model : string) : LSvc (list (list Qc)) :=
  with_fallback tenantID (fun model m => callEmbed m tenantID texts model) model.

Definition test_request (m : managedAdapter) : ChatRequest :=
  mkChatRequest "" [user_message "Hello, respond with OK"] (pcDefaultModel (maConfig m)) 16 0 false [] [] "" "".
Definition TestProvider (configID : uuid) : LSvc unit :=
  found ← reads (fun s => managed_at (lsAdapters s !! configID) s);
  match found with
  | None => fail (Errorf "provider not found" [])
  | Some (_, m) =>
      now ← nowS;
      _ ← changes (add_call (mkAdapterCall now None m (crModel (test_request m))));
      _ ← callS (fun k => Adapter_Chat k (maAdapter m) (test_request m));
      mret tt
  end.

(** *** The accounts *)

(** Warnings at four fifths and at the whole of a budget, computed exactly. *)
Definition budget_warning (name : string) (used budget : Qc) : list string :=
  if Qclt_le_dec used (budget * Q2Qc (Qmake 4 5))%Qc then []
  else if Qclt_le_dec used budget then ["tenant " +:+ name +:+ " budget at 80%"] else ["tenant " +:+ name +:+ " budget exceeded"].
Definition logBudgetWarnings (inv : Invocation) : LSvc (list string) :=
  found ← reads (fun s => managed_at (lsAdapters s !! ivProviderID inv) s);
  match found with
  | None => mret []
  | Some (_, m) =>
      let c := maConfig m in
      let tokens := (0 <? pcMonthlyTokenBudget c)%Z in
      let cost := if Qclt_le_dec 0 (pcMonthlyCostBudget c) then true else false in
      if negb tokens && negb cost then mret []
      else
        usage ← tryS (GetMonthlyUsage (ivTenantID inv) (year_month (ivCreatedAt inv)));
        mret match usage with
             | Err _ => []
             | Ok u =>
                 (if tokens then budget_warning "token" (Q2Qc (inject_Z (muTotalTokens u))) (Q2Qc (inject_Z (pcMonthlyTokenBudget c)))
                  else []) ++
                 (if cost then budget_warning "cost" (muTotalCostUSD u) (pcMonthlyCostBudget c) else [])
             end
  end.

(** Errors are logged; what is returned are the warnings. *)
Definition persistInvocation (inv : Invocation) : LSvc (list string) :=
  recorded ← tryS (RecordInvocation inv);
  match recorded with
  | Err _ => mret []
  | Ok _ =>
      if decide (ivPurpose inv = "test") then mret []
      else
        updated ← tryS (UpdateMonthlyUsage (ivTenantID inv) (ivTotalTokens inv) (ivCostUSD inv));
        match updated with Err _ => mret [] | Ok _ => logBudgetWarnings inv end
  end.

(** The worker takes the next invocation of the queue, until it is stopped. *)
Definition take_queue : LSvc (option Invocation) :=
  stopped ← reads lsStopped;
  next ← reads (fun s => head (lsQueue s));
  match next with
  | Some inv =>
      if stopped : bool then mret None
      else _ ← changes (fun s => set_pending (tail (lsQueue s)) (lsSpawned s) (lsStopped s) s); mret (Some inv)
  | None => mret None
  end.
Definition worker_step : LSvc (list string) :=
  next ← take_queue;
  match next with Some inv => persistInvocation inv | None => mret [] end.
(** A goroutine that was started for an invocation runs. *)
Definition spawned_step (i : nat) : LSvc (list string) :=
  next ← reads (fun s => lsSpawned s !! i);
  match next with
  | Some inv =>
      _ ← changes (fun s => set_pending (lsQueue s) (delete i (lsSpawned s)) (lsStopped s) s);
      persistInvocation inv
  | None => mret []
  end.

(** The worker may take more invocations before it sees that it is stopped. *)
Definition Close (more : nat) : LSvc unit :=
  _ ← forS (fun _ => ignoreS worker_step) (seq 0 more);
  _ ← changes (fun s => set_pending (lsQueue s) (lsSpawned s) true s);
  managed ← reads (fun s => omap (fun a => managed_at (Some a) s) (map snd (map_to_list (lsAdapters s))));
  forS (fun m : nat * managedAdapter => ignoreS (callS (fun k => Adapter_Close k (maAdapter m.2)))) managed.

(** ** [api/handlers/llm.go] *)

Context (uuid_Parse : string -> result goerr uuid) (ParseRFC3339 : string -> result goerr Z).

Record LLMRequest : Type := mkLLMRequest {
  lqTenant : option uuid; lqID : string; lqBody : result goerr LLMProviderConfig;
  lqYearMonth : string; lqSince : string; lqLimit : string; lqOffset : string
}.
Inductive LLMReply : Type :=
| LError (status : Z) (message : string)
| LOk
| LProvider (status : Z) (c : LLMProviderConfig)
| LProviders (l : list LLMProviderConfig)
| LUsage (u : MonthlyUsage)
| LInvocations (l : list Invocation)
| LPurposes (l : list PurposeUsage).

Definition with_identity (id tenant : uuid) (secret : string) (c : LLMProviderConfig) : LLMProviderConfig :=
  mkLLMProviderConfig id tenant (pcProvider c) (pcName c) (pcEndpointURL c) secret
    (pcDefaultModel c) (pcMaxTokens c) (pcTemperature c) (pcIsDefault c) (pcIsFallback c) (pcEnabled c) (pcModelMap c)
    (pcModelPricing c) (pcRequestsPerMin c) (pcTenantRPM c) (pcMonthlyTokenBudget c) (pcMonthlyCostBudget c) (pcAzureAPIVersion c)
    (pcAzureDeployment c) (pcAzure c) (pcCreatedAt c) (pcUpdatedAt c).
Definition without_secret (c : LLMProviderConfig) : LLMProviderConfig := with_identity (pcID c) (pcTenantID c) "" c.

Definition internal_error : LLMReply := LError 500 "internal server error".
Definition llm_principal (r : LLMRequest) (body : uuid -> LSvc LLMReply) : LSvc LLMReply :=
  match lqTenant r with None => mret (LError 401 "unauthenticated") | Some t => body t end.
Definition llm_id (r : LLMRequest) (body : uuid -> LSvc LLMReply) : LSvc LLMReply :=
  match uuid_Parse (TrimSpace (lqID r)) with Err _ => mret (LError 400 "invalid_id") | Ok id => body id end.
Definition reply {A} (p : LSvc A) (onError : goerr -> LLMReply) (onOk : A -> LSvc LLMReply) : LSvc LLMReply :=
  out ← tryS p;
  match out with Err e => mret (onError e) | Ok a => onOk a end.
Definition bad_request (e : goerr) : LLMReply := LError 400 (Error e).
Definition not_found_or_internal (e : goerr) : LLMReply :=
  if errors_is e ErrNoRows then LError 404 "not_found" else internal_error.

Definition Handle_ListProviders (r : LLMRequest) : LSvc LLMReply :=
  llm_principal r (fun t => reply (ListProviders t) (fun _ => internal_error) (fun l => mret (LProviders (map without_secret l)))).

Definition Handle_CreateProvider (r : LLMRequest) : LSvc LLMReply :=
  llm_principal r (fun t =>
    match lqBody r with
    | Err _ => mret (LError 400 "invalid_json")
    | Ok req =>
        let req := with_identity (pcID req) t (pcAPIKeySecret req) req in
        if bool_decide (TrimSpace (pcProvider req) = "") || bool_decide (TrimSpace (pcDefaultModel req) = "")
        then mret (LError 400 "provider and default_model are required")
        else reply (Store_CreateProvider req) bad_request (fun created =>
               reply (AddProvider created) bad_request (fun _ => mret (LProvider 201 (without_secret created))))
    end).

Definition Handle_UpdateProvider (r : LLMRequest) : LSvc LLMReply :=
  llm_principal r (fun t => llm_id r (fun id =>
    reply (GetProvider t id) not_found_or_internal (fun current =>
      match lqBody r with
      | Err _ => mret (LError 400 "invalid_json")
      | Ok req =>
          let secret := if decide (pcAPIKeySecret req = "") then pcAPIKeySecret current else pcAPIKeySecret req in
          reply (Store_UpdateProvider (with_identity id t secret req)) bad_request (fun updated =>
            _ ← tryS (RemoveProvider id);
            reply (AddProvider updated) bad_request (fun _ => mret (LProvider 200 (without_secret updated))))
      end))).

Definition Handle_DeleteProvider (r : LLMRequest) : LSvc LLMReply :=
  llm_principal r (fun t => llm_id r (fun id =>
    reply (Store_DeleteProvider t id) (fun _ => internal_error) (fun _ =>
      _ ← tryS (RemoveProvider id);
      mret LOk))).

Definition Handle_TestProvider (r : LLMRequest) : LSvc LLMReply :=
  llm_principal r (fun t => llm_id r (fun id =>
    reply (GetProvider t id) not_found_or_internal (fun cfg =>
      reply (TestProvider (pcID cfg)) bad_request (fun _ => mret LOk)))).

Definition Handle_UsageSummary (r : LLMRequest) : LSvc LLMReply :=
  llm_principal r (fun t =>
    ym ← (if decide (TrimSpace (lqYearMonth r) = "") then now ← nowS; mret (year_month now) else mret (TrimSpace (lqYearMonth r)));
    reply (GetMonthlyUsage t ym) (fun _ => internal_error) (fun u => mret (LUsage u))).

(** The time from which on, a month before now unless it is given. *)
Definition with_since (r : LLMRequest) (body : Z -> LSvc LLMReply) : LSvc LLMReply :=
  now ← nowS;
  let raw := TrimSpace (lqSince r) in
  if decide (raw = "") then body (month_before now)
  else match ParseRFC3339 raw with Err _ => mret (LError 400 "invalid_since") | Ok t => body t end.
Definition Handle_UsageDetails (r : LLMRequest) : LSvc LLMReply :=
  llm_principal r (fun t => with_since r (fun since =>
    reply (ListInvocations t (mkListOpts since (Atoi_value (TrimSpace (lqLimit r))) (Atoi_value (TrimSpace (lqOffset r)))))
      (fun _ => internal_error) (fun l => mret (LInvocations l)))).
Definition Handle_UsageByPurpose (r : LLMRequest) : LSvc LLMReply :=
  llm_principal r (fun t => with_since r (fun since =>
    reply (UsageByPurpose t since) (fun _ => internal_error) (fun l => mret (LPurposes l)))).
End Llm.
