(* ===== verification/LlmClaims.v ===== *)
(** * Claims about language models

    The manager agrees with the table of providers ([live]), so that a tenant's
    calls go to what the tenant has configured; and the monthly usage is the sum of
    invocations that are recorded. *)

From S2P Require Import Prelude GoStrings Json EngineTypes Store EngineOps GoText Effects Triggers JsonText Agentic Llm.

(** ** The manager and the table *)

Definition same_maps (s s' : LlmState) : Prop :=
  lsConfigs s' = lsConfigs s /\ lsHeap s' = lsHeap s /\ lsAdapters s' = lsAdapters s /\
  lsDefaults s' = lsDefaults s /\ lsFallbacks s' = lsFallbacks s.
#[export] Instance same_maps_preorder : PreOrder same_maps.
Proof. split; [by intros s|]. unfold same_maps. intros s1 s2 s3. naive_solver congruence. Qed.

(** The maps stay, and the calls that are added have a property. *)
Definition calls_only (P : adapterCall -> Prop) (s s' : LlmState) : Prop :=
  same_maps s s' /\ exists l, lsCalls s' = lsCalls s ++ l /\ Forall P l.
#[export] Instance calls_only_preorder P : PreOrder (calls_only P).
Proof.
  split; [intros s; split; [done|]; exists []; by rewrite app_nil_r|].
  intros s1 s2 s3 (H1 & l1 & E1 & F1) (H2 & l2 & E2 & F2). split; [by etrans|]. exists (l1 ++ l2).
  rewrite E2, E1, app_assoc. split; [done|]. by apply Forall_app.
Qed.
Definition quiet_step (s s' : LlmState) : Prop := same_maps s s' /\ lsCalls s' = lsCalls s.
Lemma quiet_calls P s s' : quiet_step s s' -> calls_only P s s'.
Proof. intros [H E]. split; [done|]. exists []. by rewrite app_nil_r. Qed.

Ltac calls_step :=
  lazymatch goal with
  | |- keepsS (calls_only _) (changes _) => apply keepsS_changes; intros ?; apply quiet_calls; repeat case_match; done
  | |- keepsS (calls_only _) (exec _) =>
      apply keepsS_exec; [exact _|]; intros ? ? ? ? ? ?; apply quiet_calls; repeat case_match; simplify_eq; done
  | _ => keeps_step
  end.

Section Manager.
Context `{R : Runtime}.
Context (year_month : Z -> string) (month_before : Z -> Z).
Context (secrets : option (nat -> uuid -> string -> result goerr string)).
Context (Adapter_Chat : nat -> Adapter -> ChatRequest -> result goerr ChatResponse)
  (Adapter_Embed : nat -> Adapter -> list string -> string -> result goerr (list (list Qc)))
  (Adapter_Close : nat -> Adapter -> result goerr unit).
Context (limiter_Wait : nat -> RateLimiter -> result goerr unit) (visit : nat -> list nat -> list nat).
Context (uuid_Parse : string -> result goerr uuid).

(** The adapter is what the factory makes of the configuration and of a secret of
    the tenant. *)
Definition honest (m : managedAdapter) : Prop :=
  exists key, factory (maConfig m) key = Ok (maAdapter m) /\
    (key = "" \/ exists get k, secrets = Some get /\ get k (pcTenantID (maConfig m)) (pcAPIKeySecret (maConfig m)) = Ok key).

Definition points_live (p : gmap uuid nat) (s : LlmState) : Prop :=
  forall t a, p !! t = Some a ->
    exists m, lsHeap s !! a = Some m /\ pcTenantID (maConfig m) = t /\ lsAdapters s !! pcID (maConfig m) = Some a.

(** Every entry of the manager has the settings of a row, except perhaps one. *)
Record live_but (skip : option uuid) (s : LlmState) : Prop := mkLive {
  lv_rows : forall id row, lsConfigs s !! id = Some row -> pcID row = id /\ id <> 0%N;
  lv_adapters : forall id a, lsAdapters s !! id = Some a ->
    exists m, lsHeap s !! a = Some m /\ pcID (maConfig m) = id /\
      (skip = Some id \/ exists row, lsConfigs s !! id = Some row /\ maConfig m = with_limits row id);
  lv_defaults : points_live (lsDefaults s) s;
  lv_fallbacks : points_live (lsFallbacks s) s;
  lv_heap : Forall honest (lsHeap s)
}.
Abbreviation live := (live_but None).

Lemma live_same skip s s' : same_maps s s' -> live_but skip s -> live_but skip s'.
Proof.
  intros (E1 & E2 & E3 & E4 & E5) [H1 H2 H3 H4 H5]. split; unfold points_live; rewrite ?E1, ?E2, ?E3, ?E4, ?E5; done.
Qed.

Lemma live_insert_row id row s :
  live s -> lsConfigs s !! id = None -> pcID row = id -> id <> 0%N -> live (set_configs <[id := row]> s).
Proof.
  intros [H1 H2 H3 H4 H5] Hnew Hid Hnz. split; [| |done..]; cbn.
  - intros id' row' [[<- <-]|[N E]]%lookup_insert_Some; [done|by apply H1].
  - intros id' a Ha. destruct (H2 id' a Ha) as (m & Hm & Hi & [|(row' & Hr & Hc)]); [done|].
    exists m. split; [done|]. split; [done|]. right. exists row'. split; [|done].
    rewrite lookup_insert_ne; [done|]. congruence.
Qed.

Lemma live_change_row id f s :
  live s -> (forall id' row, id' <> id -> f (lsConfigs s) !! id' = Some row <-> lsConfigs s !! id' = Some row) ->
  (forall row, f (lsConfigs s) !! id = Some row -> pcID row = id /\ id <> 0%N) ->
  live_but (Some id) (set_configs f s).
Proof.
  intros [H1 H2 H3 H4 H5] Hf Hid. split; [| |done..]; cbn.
  - intros id' row' E. destruct (decide (id' = id)) as [->|N]; [by apply Hid|]. apply H1. by apply Hf.
  - intros id' a Ha. destruct (H2 id' a Ha) as (m & Hm & Hi & [|(row' & Hr & Hc)]); [done|]. exists m. split; [done|]. split; [done|].
    destruct (decide (id' = id)) as [->|N]; [by left|]. right. exists row'. split; [by apply Hf|done].
Qed.

Lemma drop_pointer_Some tenant a p t a' :
  drop_pointer tenant a p !! t = Some a' -> p !! t = Some a' /\ ~ (t = tenant /\ a' = a).
Proof.
  unfold drop_pointer. destruct (decide (p !! tenant = Some a)) as [E|N].
  - intros [N H]%lookup_delete_Some. split; [done|]. intros [-> _]. done.
  - intros H. split; [done|]. intros [-> ->]. done.
Qed.

Lemma live_uninstall id a m s :
  live_but (Some id) s -> lsAdapters s !! id = Some a -> lsHeap s !! a = Some m ->
  live (uninstall id a (pcTenantID (maConfig m)) s).
Proof.
  intros [H1 H2 H3 H4 H5] Ha Hm.
  assert (forall p, points_live p s -> points_live (drop_pointer (pcTenantID (maConfig m)) a p)
            (uninstall id a (pcTenantID (maConfig m)) s)) as Hp.
  { intros p Hp t a' [Ht Hn]%drop_pointer_Some. destruct (Hp t a' Ht) as (m' & Hm' & Et & Ha'). exists m'. split_and!; [done..|].
    cbn. rewrite lookup_delete_ne; [done|]. intros E. rewrite <-E in Ha'. apply Hn. split; congruence. }
  split; [exact H1| |by apply Hp|by apply Hp|exact H5]. cbn. intros id' a' [N E]%lookup_delete_Some.
  destruct (H2 id' a' E) as (m' & Hm' & Hi & [[= ->]|Hr]); [done|]. exists m'. split_and!; [done..|by right].
Qed.

Lemma live_drop_skip id s : live_but (Some id) s -> lsAdapters s !! id = None -> live s.
Proof.
  intros [H1 H2 H3 H4 H5] Hn. split; [done| |done..]. intros id' a Ha. destruct (H2 id' a Ha) as (m & Hm & Hi & [[= ->]|Hr]).
  - congruence.
  - exists m. split_and!; [done..|by right].
Qed.

Lemma live_install id row m s :
  live s -> lsAdapters s !! id = None -> lsConfigs s !! id = Some row -> maConfig m = with_limits row id -> honest m ->
  live (install m s).
Proof.
  intros [H1 H2 H3 H4 H5] Hnew Hrow Hc Hm. assert (pcID (maConfig m) = id) as Hid by (by rewrite Hc).
  assert (lsHeap (install m s) !! length (lsHeap s) = Some m) as Hlen by (cbn; by rewrite lookup_app_r, Nat.sub_diag by lia).
  assert (forall p, points_live p s -> points_live p (install m s)) as Hkeep.
  { intros p Hp t a Ht. destruct (Hp t a Ht) as (m' & Hm' & Et & Ha). exists m'. cbn. split_and!; [by apply lookup_app_l_Some|done|].
    rewrite lookup_insert_ne; [done|]. intros E. rewrite <-E, Hid in Ha. congruence. }
  assert (forall p, points_live p s -> points_live (<[pcTenantID (maConfig m) := length (lsHeap s)]> p) (install m s)) as Hset.
  { intros p Hp t a [[<- <-]|[_ Ht]]%lookup_insert_Some; [|by apply (Hkeep p Hp)]. exists m. split_and!; [done..|]. cbn. apply lookup_insert_eq. }
  split.
  - exact H1.
  - cbn. rewrite Hid. intros id' a [[<- <-]|[N Ha]]%lookup_insert_Some.
    + exists m. split_and!; [done..|]. right. by exists row.
    + destruct (H2 id' a Ha) as (m' & Hm' & Hi & Hr). exists m'. split_and!; [by apply lookup_app_l_Some|done..].
  - unfold install at 1. cbn. destruct (_ || _); [by apply Hset|by apply Hkeep].
  - unfold install at 1. cbn. destruct (pcIsFallback _); [by apply Hset|by apply Hkeep].
  - cbn. apply Forall_app. split; [done|by constructor].
Qed.

(** *** Rows *)

Context (Hnew : forall k, gen_random_uuid k <> 0%N).

Lemma or_new_Ok id w id' w' : or_new id w = (Ok id', w') -> st w' = st w /\ id' <> 0%N /\ (id <> 0%N -> id' = id).
Proof.
  unfold or_new. destruct (decide (id = 0%N)) as [->|N].
  - intros [= <- <-]. split_and!; [done|apply Hnew|done].
  - intros [= <- <-]. done.
Qed.
Lemma or_new_state id w : st (or_new id w).2 = st w.
Proof. unfold or_new. by destruct (decide (id = 0%N)). Qed.

Lemma exec_cases {A} (run : nat -> Z -> LlmState -> result goerr (A * LlmState)) w :
  (exists e, (exec run w).1 = Err e /\ st (exec run w).2 = st w) \/
  exists a k now, (exec run w).1 = Ok a /\ run k now (st w) = Ok (a, st (exec run w).2).
Proof.
  unfold exec. destruct (fault (ticks w)) as [e|]; [left; by exists e|].
  destruct (run _ _ _) as [[a t]|e] eqn:E; [|left; by exists e]. right. eexists _, _, _. split; [done|exact E].
Qed.

Lemma stored_config_ids c id created updated row :
  stored_config c id created updated = Ok row -> pcID row = id /\ pcTenantID row = pcTenantID c.
Proof. unfold stored_config. intros H. repeat case_match; simplify_eq; done. Qed.

Lemma Store_Create_state config w :
  (exists e, (Store_CreateProvider config w).1 = Err e /\ st (Store_CreateProvider config w).2 = st w) \/
  exists row, (Store_CreateProvider config w).1 = Ok row /\ pcID row <> 0%N /\ pcTenantID row = pcTenantID config /\
    lsConfigs (st w) !! pcID row = None /\ st (Store_CreateProvider config w).2 = set_configs <[pcID row := row]> (st w).
Proof.
  unfold Store_CreateProvider, mbind, Svc_bind at 1 2 3 4. destruct (or_new (pcID config) w) as [[id|e] w1] eqn:E1.
  2: { left. exists e. split; [done|]. pose proof (or_new_state (pcID config) w) as H. by rewrite E1 in H. }
  apply or_new_Ok in E1 as (<- & Hid & _). unfold wrapS. match goal with |- context [exec ?run w1] =>
    pose proof (exec_cases run w1) as Hc; destruct (exec run w1) as [r w2] end. cbn [fst snd] in *.
  destruct Hc as [(e & -> & Hs)|(row & k & now & -> & Hr)]; [left; eexists; split; [done|exact Hs]|]. right. exists row.
  unfold mbind, result_bind in Hr. destruct (stored_config config id now now) as [row'|] eqn:Es; [|done].
  apply stored_config_ids in Es as [Ei Et]. destruct (decide _); [done|]. destruct (lsConfigs (st w1) !! id) eqn:El; [done|].
  injection Hr as <- Hs. cbn [fst snd]. rewrite Ei, <-Hs. done.
Qed.

Lemma config_of_Some t id s c : config_of t id s = Some c <-> lsConfigs s !! id = Some c /\ pcTenantID c = t.
Proof. unfold config_of. destruct (lsConfigs s !! id) as [c'|]; [|naive_solver]. destruct (decide _); naive_solver. Qed.

Lemma Store_Update_state config w :
  (exists e, (Store_UpdateProvider config w).1 = Err e /\ st (Store_UpdateProvider config w).2 = st w) \/
  exists row, (Store_UpdateProvider config w).1 = Ok row /\ pcID row = pcID config /\ pcTenantID row = pcTenantID config /\
    config_of (pcTenantID config) (pcID config) (st w) <> None /\
    st (Store_UpdateProvider config w).2 = set_configs <[pcID config := row]> (st w).
Proof.
  unfold Store_UpdateProvider, wrapS. match goal with |- context [exec ?run w] =>
    pose proof (exec_cases run w) as Hc; destruct (exec run w) as [r w2] end. cbn [fst snd] in *.
  destruct Hc as [(e & -> & Hs)|(row & k & now & -> & Hr)]; [left; eexists; split; [done|exact Hs]|]. right. exists row.
  destruct (config_of _ _ _) as [old|]; [|done]. unfold mbind, result_bind in Hr.
  destruct (stored_config _ _ _ _) as [row'|] eqn:Es; [|done]. apply stored_config_ids in Es as [Ei Et]. injection Hr as <- Hs. cbn [fst snd]. by rewrite <-Hs.
Qed.

Lemma Store_Delete_state t id w :
  st (Store_DeleteProvider t id w).2 = st w \/
  (Store_DeleteProvider t id w).1 = Ok tt /\ st (Store_DeleteProvider t id w).2 = set_configs (delete id) (st w).
Proof.
  unfold Store_DeleteProvider, wrapS. match goal with |- context [exec ?run w] =>
    pose proof (exec_cases run w) as Hc; destruct (exec run w) as [r w2] end. cbn [fst snd] in *.
  destruct Hc as [(e & -> & Hs)|([] & k & now & -> & Hr)]; [left; exact Hs|]. destruct (config_of _ _ _); [|left; by injection Hr].
  destruct (decide _); [done|]. right. split; [done|]. by injection Hr.
Qed.

(** *** The manager's operations *)

Lemma AddProvider_state config w :
  st (AddProvider secrets config w).2 = st w \/
  exists m id, st (AddProvider secrets config w).2 = install m (st w) /\ maConfig m = with_limits config id /\ honest m /\
    (pcID config <> 0%N -> id = pcID config).
Proof.
  destruct (AddProvider secrets config w) as [r w'] eqn:E. cbn [snd]. unfold AddProvider, mbind, Svc_bind in E.
  destruct (or_new (pcID config) w) as [[id|e] w1] eqn:E1.
  2: { left. injection E as _ <-. pose proof (or_new_state (pcID config) w) as H. by rewrite E1 in H. }
  apply or_new_Ok in E1 as (<- & _ & Hid). cbv zeta in E. revert E.
  match goal with |- context [match ?p w1 with _ => _ end] => set (key := p) end. intros E.
  assert (st (key w1).2 = st w1) as Hst.
  { subst key. destruct secrets; [|done]. destruct (decide _); [done|]. rewrite wrapS_state. done. }
  assert (forall k, (key w1).1 = Ok k -> k = "" \/ exists get i, secrets = Some get /\ get i (pcTenantID config) (pcAPIKeySecret config) = Ok k) as Hk.
  { intros k. subst key. destruct secrets as [get|]; [|by intros [= <-]; left]. destruct (decide _); [by intros [= <-]; left|].
    unfold wrapS, callS. cbn. destruct (get (ticks w1) _ _) as [v|] eqn:Eg; [|done]. intros [= <-]. right. by exists get, (ticks w1). }
  destruct (key w1) as [[k|e] w2]; cbn [fst snd] in *; [|left; by injection E as _ <-].
  unfold wrapS, pureS in E. destruct (factory _ k) as [ad|e] eqn:Ef; [|left; by injection E as _ <-]. right.
  injection E as _ <-. eexists (mkManagedAdapter ad (with_limits config id) _), id. split; [cbn; by rewrite Hst|]. split; [done|]. split; [|done].
  exists k. split; [done|]. destruct (Hk k eq_refl) as [->|H]; [by left|right; exact H].
Qed.

Lemma RemoveProvider_live id w :
  live_but (Some id) (st w) ->
  live (st (RemoveProvider Adapter_Close id w).2) /\ lsAdapters (st (RemoveProvider Adapter_Close id w).2) !! id = None /\
  lsConfigs (st (RemoveProvider Adapter_Close id w).2) = lsConfigs (st w) /\
  lsCalls (st (RemoveProvider Adapter_Close id w).2) = lsCalls (st w).
Proof.
  intros H. unfold RemoveProvider, mbind, Svc_bind, reads, managed_at, option_bind.
  destruct (lsAdapters (st w) !! id) as [a|] eqn:Ea.
  - destruct (lv_adapters _ _ H id a Ea) as (m & Hm & _). cbn [mbind option_bind]. rewrite Hm. cbn [mbind option_bind st snd].
    split_and!; [by apply live_uninstall|cbn; apply lookup_delete_eq|done..].
  - cbn. split_and!; [by eapply live_drop_skip|done..].
Qed.

Lemma live_weaken id s : live s -> live_but (Some id) s.
Proof.
  intros [H1 H2 H3 H4 H5]. split; [done| |done..]. intros id' a Ha. destruct (H2 id' a Ha) as (m & Hm & Hi & [|Hr]); [done|].
  exists m. split_and!; [done..|by right].
Qed.

Lemma AddProvider_live row w :
  live (st w) -> lsConfigs (st w) !! pcID row = Some row -> lsAdapters (st w) !! pcID row = None ->
  live (st (AddProvider secrets row w).2) /\ lsCalls (st (AddProvider secrets row w).2) = lsCalls (st w).
Proof.
  intros H Hrow Hno. destruct (AddProvider_state row w) as [->|(m & id & -> & Hc & Hm & Hid)]; [done|].
  destruct (lv_rows _ _ H _ _ Hrow) as [_ Hnz]. rewrite Hid in Hc by done. split; [|done]. by apply (live_install (pcID row) row).
Qed.

(** *** Calls *)

Notation call_adapter := (call_adapter limiter_Wait).
Notation selectAdapters := (selectAdapters visit).
Notation with_fallback := (with_fallback visit).

(** The object has the settings of a row of the tenant. *)
Definition configured (s : LlmState) (t : uuid) (m : managedAdapter) : Prop :=
  exists row, lsConfigs s !! pcID row = Some row /\ pcTenantID row = t /\ maConfig m = with_limits row (pcID row) /\ honest m.

Lemma adapter_configured id a s :
  live s -> lsAdapters s !! id = Some a -> exists m, lsHeap s !! a = Some m /\ configured s (pcTenantID (maConfig m)) m.
Proof.
  intros H Ha. destruct (lv_adapters _ _ H id a Ha) as (m & Hm & Hi & [|(row & Hr & Hc)]); [done|].
  exists m. split; [done|]. destruct (lv_rows _ _ H id row Hr) as [Hid _]. exists row. rewrite Hid. split_and!; [done|by rewrite Hc|done|].
  pose proof (lv_heap _ _ H) as Hh. rewrite Forall_forall in Hh. apply Hh. by eapply list_elem_of_lookup_2.
Qed.

Lemma pointer_configured p t a m s :
  live s -> points_live p s -> managed_at (p !! t) s = Some (a, m) -> configured s t m.
Proof.
  intros H Hp Hm. unfold managed_at in Hm. destruct (p !! t) as [a'|] eqn:Et; [|done]. cbn in Hm.
  destruct (Hp t a' Et) as (m' & Hm' & <- & Ha). rewrite Hm' in Hm. cbn in Hm. injection Hm as -> ->.
  destruct (adapter_configured _ _ _ H Ha) as (m'' & Hm'' & Hc). by replace m'' with m in Hc by congruence.
Qed.

Context (Hvisit : forall k l, visit k l ⊆ l).

Lemma keep_usable_Some x m : keep_usable x = Some m -> x = Some m /\ pcEnabled (maConfig m.2) = true.
Proof. unfold keep_usable, usable. destruct x as [m'|]; [|done]. destruct (pcEnabled _) eqn:E; [|done]. by intros [= ->]. Qed.

Lemma selectAdapters_result t w p f w' :
  live (st w) -> selectAdapters t w = (Ok (p, f), w') ->
  st w' = st w /\ forall a m, p = Some (a, m) \/ f = Some (a, m) -> configured (st w) t m /\ pcEnabled (maConfig m) = true.
Proof.
  intros H E. unfold Llm.selectAdapters in E. apply bindS_inv in E as (p0 & w1 & [= <- <-] & E).
  apply bindS_inv in E as (f0 & w1 & [= <- <-] & E). apply bindS_inv in E as (p1 & w1 & E1 & E).
  injection E as <- <- <-.
  assert (st w1 = st w /\ forall a m, p1 = Some (a, m) -> configured (st w) t m) as [Hst Hp1].
  { destruct (managed_at (lsDefaults (st w) !! t) (st w)) as [[a0 m0]|] eqn:Ed.
    - injection E1 as <- <-. split; [done|]. intros a m [= -> ->]. eapply pointer_configured; [done|apply H|done].
    - apply bindS_inv in E1 as (all & w2 & [= <- <-] & E1). apply bindS_inv in E1 as (order & w2 & [= <- <-] & E1).
      injection E1 as <- <-. split; [done|]. intros a m Hh%head_Some_elem_of. cbn [st] in Hh.
      apply list_elem_of_filter in Hh as [[Ht _] Ho]. apply list_elem_of_omap in Ho as (a' & Ha' & Hm). cbn [snd] in Ht.
      unfold managed_at in Hm. cbn in Hm. destruct (lsHeap (st w) !! a') as [m'|] eqn:Em; [|done]. injection Hm as -> ->.
      apply Hvisit, list_elem_of_fmap in Ha' as ([id a''] & [= <-] & Hin). apply elem_of_map_to_list in Hin.
      destruct (adapter_configured _ _ _ H Hin) as (m'' & Hm'' & Hc). replace m'' with m in Hc by congruence. by rewrite Ht in Hc. }
  split; [done|]. intros a m [Hk|Hk]; apply keep_usable_Some in Hk as [Hk He]; (split; [|done]); [by eapply Hp1|].
  apply (pointer_configured (lsFallbacks (st w)) t a); [done|apply H|done].
Qed.

Lemma waitForLimiters_calls P m : keepsS (calls_only P) (waitForLimiters limiter_Wait m).
Proof. unfold waitForLimiters. repeat calls_step. Qed.

Lemma call_adapter_calls {A} P m t model purpose (call : nat -> result goerr A) used :
  (forall now, P (mkAdapterCall now (Some t) m model)) -> keepsS (calls_only P) (call_adapter m t model purpose call used).
Proof.
  intros HP. unfold Llm.call_adapter, uuid_New, ms_since, retry_time, setRetryAfter. cbv zeta.
  repeat first [apply waitForLimiters_calls
    |match goal with |- keepsS _ (changes (add_call _)) => apply keepsS_changes; intros s; split; [done|]; eexists [_]; split; [done|by constructor] end
    |calls_step].
Qed.

Lemma with_fallback_calls {A} t (attempt : string -> managedAdapter -> LSvc (result goerr A * Invocation)) model w P :
  live (st w) ->
  (forall model m, configured (st w) t m -> pcEnabled (maConfig m) = true -> keepsS (calls_only P) (attempt model m)) ->
  calls_only P (st w) (st (with_fallback t attempt model w).2).
Proof.
  intros H Ha. unfold Llm.with_fallback. unfold mbind at 1, Svc_bind at 1.
  destruct (selectAdapters t w) as [[[p f]|e] w1] eqn:E.
  2: { exfalso. revert E. unfold Llm.selectAdapters, mbind, Svc_bind, reads, mret, Svc_ret, callS. by destruct (managed_at _ _). }
  apply selectAdapters_result in E as [Hst Hsel]; [|done]. cbn [snd]. rewrite <-Hst.
  match goal with |- calls_only P (st w1) (st (?prog w1).2) => enough (keepsS (calls_only P) prog) as Hk by apply Hk end.
  destruct p as [[a m]|]; [|apply keepsS_fail; exact _]. destruct (Hsel a m) as [Hc He]; [by left|].
  destruct f as [[a' m']|].
  - destruct (Hsel a' m') as [Hc' He']; [by right|]. unfold enqueueInvocation.
    repeat first [by apply Ha|calls_step].
  - unfold enqueueInvocation. repeat first [by apply Ha|calls_step].
Qed.

Lemma persist_calls P inv : keepsS (calls_only P) (persistInvocation year_month inv).
Proof.
  unfold persistInvocation, RecordInvocation, UpdateMonthlyUsage, logBudgetWarnings, GetMonthlyUsage, or_new, uuid_New,
    insert_invocation, upsert_usage. cbv zeta. repeat calls_step.
Qed.
Lemma worker_calls P : keepsS (calls_only P) (worker_step year_month).
Proof. unfold worker_step, take_queue. repeat first [apply persist_calls|calls_step]. Qed.
Lemma spawned_calls P i : keepsS (calls_only P) (spawned_step year_month i).
Proof. unfold spawned_step. repeat first [apply persist_calls|calls_step]. Qed.
Lemma Close_calls P n : keepsS (calls_only P) (Close year_month Adapter_Close n).
Proof. unfold Close. repeat first [apply worker_calls|calls_step]. Qed.

(** *** Handlers *)

Definition llm_ok (P : adapterCall -> Prop) (s s' : LlmState) : Prop :=
  live s' /\ exists l, lsCalls s' = lsCalls s ++ l /\ Forall P l.
Lemma llm_ok_silent P s s' : live s' -> lsCalls s' = lsCalls s -> llm_ok P s s'.
Proof. intros H E. split; [done|]. exists []. by rewrite app_nil_r. Qed.
Lemma llm_ok_calls P s s' : live s -> calls_only P s s' -> llm_ok P s s'.
Proof. intros H [Hm Hl]. split; [by eapply live_same|done]. Qed.

Lemma reply_state {A} (p : LSvc A) onError onOk w :
  (exists e, (p w).1 = Err e /\ (reply p onError onOk w).2 = (p w).2) \/
  exists a, (p w).1 = Ok a /\ (reply p onError onOk w).2 = (onOk a (p w).2).2.
Proof.
  unfold reply, mbind, Svc_bind, tryS. destruct (p w) as [[a|e] w1]; [right; by exists a|left; by exists e].
Qed.

Lemma Create_ok P r w : live (st w) -> llm_ok P (st w) (st (Handle_CreateProvider secrets r w).2).
Proof.
  intros H. unfold Handle_CreateProvider, llm_principal. destruct (lqTenant r) as [t|]; [|by apply llm_ok_silent].
  destruct (lqBody r) as [req|]; [|by apply llm_ok_silent]. cbv zeta. destruct (_ || _); [by apply llm_ok_silent|].
  match goal with |- context [Store_CreateProvider ?c] => set (config := c) end.
  destruct (reply_state (Store_CreateProvider config) bad_request (fun created =>
    reply (AddProvider secrets created) bad_request (fun _ => mret (LProvider 201 (without_secret created)))) w) as [(e & He & ->)|(row & Hr & ->)];
    destruct (Store_Create_state config w) as [(e' & He' & Hs)|(row' & Hr' & Hnz & _ & Hno & Hs)]; try congruence.
  - rewrite Hs. by apply llm_ok_silent.
  - replace row' with row in * by congruence. set (w1 := (Store_CreateProvider config w).2) in *.
    assert (live (st w1)) as H1 by (rewrite Hs; by apply live_insert_row).
    assert (lsAdapters (st w1) !! pcID row = None) as Ha.
    { rewrite Hs. cbn. destruct (lsAdapters (st w) !! pcID row) as [a|] eqn:Ea; [|done].
      destruct (lv_adapters _ _ H _ _ Ea) as (m & _ & _ & [|(x & Hx & _)]); [done|congruence]. }
    assert (lsConfigs (st w1) !! pcID row = Some row) as Hc by (rewrite Hs; cbn; apply lookup_insert_eq).
    destruct (AddProvider_live row w1 H1 Hc Ha) as [H2 E2].
    assert (lsCalls (st w1) = lsCalls (st w)) as E1 by (by rewrite Hs).
    destruct (reply_state (AddProvider secrets row) bad_request (fun _ => mret (LProvider 201 (without_secret row))) w1)
      as [(e & _ & ->)|([] & _ & ->)]; (apply llm_ok_silent; [exact H2|]); cbn [snd mret Svc_ret]; by rewrite E2.
Qed.

Lemma GetProvider_state t id w :
  st (GetProvider t id w).2 = st w /\ forall c, (GetProvider t id w).1 = Ok c -> config_of t id (st w) = Some c.
Proof.
  unfold GetProvider, wrapS, select_row, exec. destruct (fault (ticks w)); [done|].
  destruct (config_of t id (st w)) as [c|]; [|done]. split; [done|]. by intros c' [= <-].
Qed.

(** After the row is changed, the entry is replaced. *)
Lemma replace_ok P id row w w0 :
  live_but (Some id) (st w) -> lsConfigs (st w) !! id = Some row -> pcID row = id -> lsCalls (st w) = lsCalls (st w0) ->
  llm_ok P (st w0) (st ((_ ← tryS (RemoveProvider Adapter_Close id);
    reply (AddProvider secrets row) bad_request (fun _ => mret (LProvider 200 (without_secret row)))) w).2).
Proof.
  intros H Hrow Hid Hcalls. unfold mbind, Svc_bind, tryS.
  destruct (RemoveProvider_live id w H) as (H1 & Ha & Hc & E1). destruct (RemoveProvider Adapter_Close id w) as [r1 w1]. cbn [snd] in *.
  destruct (AddProvider_live row w1) as [H2 E2]; [done|by rewrite Hc, Hid|by rewrite Hid|].
  destruct (reply_state (AddProvider secrets row) bad_request (fun _ => mret (LProvider 200 (without_secret row))) w1)
    as [(e & _ & ->)|([] & _ & ->)]; (apply llm_ok_silent; [exact H2|]); cbn [snd mret Svc_ret]; by rewrite E2, E1.
Qed.

Lemma Update_ok P r w : live (st w) -> llm_ok P (st w) (st (Handle_UpdateProvider secrets Adapter_Close uuid_Parse r w).2).
Proof.
  intros H. unfold Handle_UpdateProvider, llm_principal, llm_id. destruct (lqTenant r) as [t|]; [|by apply llm_ok_silent].
  destruct (uuid_Parse _) as [id|]; [|by apply llm_ok_silent].
  match goal with |- context [reply (GetProvider t id) ?a ?b w] => destruct (reply_state (GetProvider t id) a b w) as [(e & _ & ->)|(c & Hc & ->)] end;
    destruct (GetProvider_state t id w) as [Hs Hget]; [rewrite Hs; by apply llm_ok_silent|].
  apply Hget, config_of_Some in Hc as [Hc Ht]. set (w1 := (GetProvider t id w).2) in *.
  destruct (lqBody r) as [req|]; [|cbn; rewrite Hs; by apply llm_ok_silent]. cbv zeta.
  match goal with |- context [Store_UpdateProvider ?c] => set (config := c) end.
  match goal with |- context [reply (Store_UpdateProvider config) ?a ?b w1] =>
    destruct (reply_state (Store_UpdateProvider config) a b w1) as [(e & He & ->)|(row & Hr & ->)] end;
    destruct (Store_Update_state config w1) as [(e' & He' & Hs2)|(row' & Hr' & Hi & _ & _ & Hs2)]; try congruence;
    [rewrite Hs2, Hs; by apply llm_ok_silent|].
  replace row' with row in * by congruence. destruct (lv_rows _ _ H id c Hc) as [_ Hnz]. subst config. cbn [pcID with_identity] in *.
  apply (replace_ok P id row _ w); rewrite ?Hs2, ?Hs; [|cbn; apply lookup_insert_eq|done|done].
  apply live_change_row; [done|intros id' row'' N; by rewrite lookup_insert_ne|]. intros row''. rewrite lookup_insert_eq. by intros [= <-].
Qed.

Lemma Delete_ok P r w : live (st w) -> llm_ok P (st w) (st (Handle_DeleteProvider Adapter_Close uuid_Parse r w).2).
Proof.
  intros H. unfold Handle_DeleteProvider, llm_principal, llm_id. destruct (lqTenant r) as [t|]; [|by apply llm_ok_silent].
  destruct (uuid_Parse _) as [id|]; [|by apply llm_ok_silent].
  assert (live_but (Some id) (st (Store_DeleteProvider t id w).2) /\ lsCalls (st (Store_DeleteProvider t id w).2) = lsCalls (st w)) as [H1 E1].
  { destruct (Store_Delete_state t id w) as [->|[_ ->]]; [by split; [apply live_weaken|]|]. split; [|done].
    apply live_change_row; [done|intros id' row'' N; by rewrite lookup_delete_ne|]. intros row. by rewrite lookup_delete_eq. }
  match goal with |- context [reply ?p ?a ?b w] => destruct (reply_state p a b w) as [(e & He & ->)|([] & _ & ->)] end.
  - destruct (Store_Delete_state t id w) as [->|[Hd _]]; [by apply llm_ok_silent|congruence].
  - unfold mbind, Svc_bind, tryS. destruct (RemoveProvider_live id _ H1) as (H2 & _ & _ & E2).
    destruct (RemoveProvider Adapter_Close id _) as [r1 w1]. cbn [snd mret Svc_ret] in *. apply llm_ok_silent; [exact H2|]. by rewrite E2.
Qed.

(** *** Everything that can happen *)

Inductive llm_op : Type :=
| OpCreate (r : LLMRequest) | OpUpdate (r : LLMRequest) | OpDelete (r : LLMRequest) | OpTest (r : LLMRequest)
| OpChat (t : uuid) (req : ChatRequest) | OpEmbed (t : uuid) (texts : list string) (model : string)
| OpWorker | OpSpawned (i : nat) | OpClose (more : nat).

Definition run_op (op : llm_op) : LSvc unit :=
  match op with
  | OpCreate r => ignoreS (Handle_CreateProvider secrets r)
  | OpUpdate r => ignoreS (Handle_UpdateProvider secrets Adapter_Close uuid_Parse r)
  | OpDelete r => ignoreS (Handle_DeleteProvider Adapter_Close uuid_Parse r)
  | OpTest r => ignoreS (Handle_TestProvider Adapter_Chat uuid_Parse r)
  | OpChat t req => ignoreS (Chat Adapter_Chat limiter_Wait visit t req)
  | OpEmbed t texts model => ignoreS (Embed Adapter_Embed limiter_Wait visit t texts model)
  | OpWorker => ignoreS (worker_step year_month)
  | OpSpawned i => ignoreS (spawned_step year_month i)
  | OpClose more => Close year_month Adapter_Close more
  end.
Definition run_ops (ops : list llm_op) (w : Sys LlmState) : Sys LlmState := foldl (fun w op => (run_op op w).2) w ops.

(** The tenant an operation is for. *)
Definition op_tenant (op : llm_op) : option uuid :=
  match op with
  | OpCreate r | OpUpdate r | OpDelete r | OpTest r => lqTenant r
  | OpChat t _ | OpEmbed t _ _ => Some t
  | _ => None
  end.
Definition is_test (op : llm_op) : bool := match op with OpTest _ => true | _ => false end.
Definition serves (s : LlmState) (op : llm_op) (c : adapterCall) : Prop :=
  exists t, op_tenant op = Some t /\ configured s t (acManaged c) /\
    (is_test op = true \/ pcEnabled (maConfig (acManaged c)) = true).

Lemma Test_serves r w :
  live (st w) -> llm_ok (serves (st w) (OpTest r)) (st w) (st (Handle_TestProvider Adapter_Chat uuid_Parse r w).2).
Proof.
  intros H. unfold Handle_TestProvider, llm_principal, llm_id. destruct (lqTenant r) as [t|] eqn:Ht; [|by apply llm_ok_silent].
  destruct (uuid_Parse _) as [id|]; [|by apply llm_ok_silent]. destruct (GetProvider_state t id w) as [Hs Hget].
  match goal with |- context [reply (GetProvider t id) ?a ?b w] => destruct (reply_state (GetProvider t id) a b w) as [(e & _ & ->)|(c & Hc & ->)] end;
    [rewrite Hs; by apply llm_ok_silent|].
  apply Hget, config_of_Some in Hc as [Hc Htc]. apply llm_ok_calls; [done|].
  destruct (lv_rows _ _ H id c Hc) as [Hid _]. rewrite Hid. set (w1 := (GetProvider t id w).2) in *.
  assert (calls_only (serves (st w) (OpTest r)) (st w1) (st (TestProvider Adapter_Chat id w1).2)) as Hk.
  { unfold TestProvider. rewrite Hs. unfold mbind at 1, Svc_bind at 1, reads. rewrite Hs.
    destruct (managed_at (lsAdapters (st w) !! id) (st w)) as [[a m]|] eqn:Em; [|cbn; by rewrite Hs].
    assert (configured (st w) t m) as Hm.
    { unfold managed_at in Em. destruct (lsAdapters (st w) !! id) as [a'|] eqn:Ea; [|done]. cbn in Em.
      destruct (lv_adapters _ _ H id a' Ea) as (m' & Hm' & _ & [|(row & Hr & Hcm)]); [done|]. rewrite Hm' in Em. injection Em as -> ->.
      destruct (adapter_configured _ _ _ H Ea) as (m'' & Hm'' & Hconf). replace m'' with m in Hconf by congruence.
      replace (pcTenantID (maConfig m)) with t in Hconf; [done|]. rewrite Hcm. cbn. congruence. }
    rewrite <-Hs. match goal with |- calls_only ?P (st w1) (st (?prog w1).2) => enough (keepsS (calls_only P) prog) as Hk by apply Hk end.
    repeat first [match goal with |- keepsS _ (changes (add_call _)) => apply keepsS_changes; intros s; split; [done|]; eexists [_];
      split; [done|]; constructor; [|constructor]; exists t; split_and!; [done|by rewrite Hs|by left] end|calls_step]. }
  rewrite <-Hs at 2.
  match goal with |- context [reply ?p ?a ?b w1] => destruct (reply_state p a b w1) as [(e & _ & ->)|([] & _ & ->)]; exact Hk end.
Qed.

Lemma run_op_ok op w : live (st w) -> llm_ok (serves (st w) op) (st w) (st (run_op op w).2).
Proof.
  intros H. destruct op as [r|r|r|r|t req|t texts model| |i|more]; cbn [run_op]; unfold ignoreS; cbn [snd].
  - by apply Create_ok.
  - by apply Update_ok.
  - by apply Delete_ok.
  - by apply Test_serves.
  - apply llm_ok_calls; [done|]. apply with_fallback_calls; [done|]. intros model m Hm He. apply call_adapter_calls.
    intros now. exists t. split_and!; [done..|by right].
  - apply llm_ok_calls; [done|]. apply with_fallback_calls; [done|]. intros model' m Hm He. apply call_adapter_calls.
    intros now. exists t. split_and!; [done..|by right].
  - apply llm_ok_calls; [done|]. apply worker_calls.
  - apply llm_ok_calls; [done|]. apply spawned_calls.
  - apply llm_ok_calls; [done|]. apply Close_calls.
Qed.

Lemma run_ops_live ops w : live (st w) -> live (st (run_ops ops w)).
Proof.
  revert w. induction ops as [|op ops IH]; intros w H; [done|]. cbn [run_ops foldl]. apply IH. by apply run_op_ok.
Qed.

(** The manager when the program starts. *)
Definition started (s : LlmState) : Prop :=
  lsHeap s = [] /\ lsAdapters s = ∅ /\ lsDefaults s = ∅ /\ lsFallbacks s = ∅ /\
  (forall id row, lsConfigs s !! id = Some row -> pcID row = id /\ id <> 0%N).
Lemma started_live s : started s -> live s.
Proof.
  intros (E1 & E2 & E3 & E4 & H). split; [done| | | |by rewrite E1]; unfold points_live; rewrite ?E2, ?E3, ?E4; intros ? ?; by rewrite lookup_empty.
Qed.

(** C34. Whatever happened before, a call of an adapter is made for a tenant and goes to
    an adapter with the settings that the tenant's row has now, made by the factory
    with a secret of that tenant; and the provider is enabled, unless the call is
    the test of it. *)
Theorem llm_calls_configured w0 ops op :
  started (st w0) ->
  let w := run_ops ops w0 in
  exists calls, lsCalls (st (run_op op w).2) = lsCalls (st w) ++ calls /\ Forall (serves (st w) op) calls.
Proof. intros H w. apply run_op_ok, run_ops_live, started_live, H. Qed.
End Manager.

(** ** Amounts *)

(** Numbers of six decimals. *)
Definition micros (q : Qc) : Prop := exists z, q = Q2Qc (Qmake z 1000000).

Lemma numeric_micros p q r : numeric p 6 q = Some r -> micros r.
Proof. unfold numeric. cbv zeta. case_match; [|done]. intros [= <-]. eexists. reflexivity. Qed.

Lemma round_exact z : Z.quot (2 * z + Z.sgn z) 2 = z.
Proof.
  destruct (Z.lt_trichotomy z 0) as [Hz|[->|Hz]]; [|done|].
  - rewrite Z.sgn_neg by lia. replace (2 * z + -1)%Z with (- (2 * - z + 1))%Z by lia.
    rewrite Z.quot_opp_l by lia. rewrite <-(Z.quot_unique (2 * - z + 1) 2 (- z) 1) by lia. lia.
  - rewrite Z.sgn_pos by lia. symmetry. apply (Z.quot_unique _ _ _ 1); lia.
Qed.

Lemma numeric_exact p q r : micros q -> numeric p 6 q = Some r -> r = q.
Proof.
  intros [z ->]. unfold numeric. cbv zeta. change (Z.to_pos (10 ^ 6)) with 1000000%positive. change (10 ^ 6)%Z with 1000000%Z.
  assert (this (Q2Qc (Qmake z 1000000)) == Qmake z 1000000)%Q as E by apply Qred_correct.
  destruct (this (Q2Qc (Qmake z 1000000))) as [n d]. unfold Qeq in E. cbn [Qnum Qden] in *.
  replace (n * 1000000)%Z with (z * Z.pos d)%Z by lia.
  replace (2 * (z * Z.pos d) + Z.sgn (z * Z.pos d) * Z.pos d)%Z with (Z.pos d * (2 * z + Z.sgn z))%Z
    by (rewrite Z.sgn_mul; cbn; lia).
  replace (2 * Z.pos d)%Z with (Z.pos d * 2)%Z by lia. rewrite Z.quot_mul_cancel_l by lia. rewrite round_exact.
  case_match; [|done]. by intros [= <-].
Qed.

Lemma numeric_agree p p' q r r' : numeric p 6 q = Some r -> numeric p' 6 q = Some r' -> r = r'.
Proof. unfold numeric. cbv zeta. intros H H'. repeat case_match; simplify_eq; done. Qed.

Lemma micros_0 : micros 0.
Proof. exists 0%Z. apply Qc_is_canon. reflexivity. Qed.
Lemma micros_plus a b : micros a -> micros b -> micros (a + b)%Qc.
Proof.
  intros [x ->] [y ->]. exists (x + y)%Z. apply Qc_is_canon. unfold Qcplus. cbn [this Q2Qc]. rewrite !Qred_correct. unfold Qeq, Qplus. cbn. lia.
Qed.

(** ** Sums *)

Section Sums.
Context {M : Type} (op : M -> M -> M) (unit : M).
Context (Hcomm : forall a b, op a b = op b a) (Hassoc : forall a b c, op a (op b c) = op (op a b) c) (Hunit : forall a, op unit a = a).

Definition total_of {A} (f : A -> M) (l : list A) : M := foldr (fun a n => op (f a) n) unit l.
Lemma total_perm {A} (f : A -> M) l l' : l ≡ₚ l' -> total_of f l = total_of f l'.
Proof. unfold total_of. induction 1 as [|a l l' _ IH|a b l|l1 l2 l3 _ IH1 _ IH2]; cbn [foldr]; [done|by rewrite IH|by rewrite !Hassoc, (Hcomm (f b))|congruence]. Qed.
Lemma total_snoc {A} (f : A -> M) l a : total_of f (l ++ [a]) = op (total_of f l) (f a).
Proof. rewrite (total_perm f _ (a :: l)) by (symmetry; apply Permutation_cons_append). cbn. apply Hcomm. Qed.

(** Over the months of a tenant. *)
Definition months_of (t : uuid) (m : gmap (uuid * string) MonthlyUsage) : list MonthlyUsage :=
  map snd (filter (fun kv => kv.1.1 = t) (map_to_list m)).
Lemma months_insert f t k u m :
  m !! k = None -> total_of f (months_of t (<[k := u]> m)) = if decide (k.1 = t) then op (f u) (total_of f (months_of t m)) else total_of f (months_of t m).
Proof.
  intros Hk. assert (months_of t (<[k := u]> m) ≡ₚ map snd (filter (fun kv => kv.1.1 = t) ((k, u) :: map_to_list m))) as Hp.
  { unfold months_of. by rewrite map_to_list_insert. }
  rewrite (total_perm _ _ _ Hp). rewrite filter_cons. cbn [fst]. by destruct (decide (k.1 = t)).
Qed.

Lemma months_add f t k u m d :
  f no_usage = unit -> f u = op (f (default no_usage (m !! k))) d ->
  total_of f (months_of t (<[k := u]> m)) = if decide (k.1 = t) then op (total_of f (months_of t m)) d else total_of f (months_of t m).
Proof.
  intros H0 Hu. rewrite <-(insert_delete_eq m k u), months_insert by apply lookup_delete_eq.
  destruct (m !! k) as [old|] eqn:Ek; cbn in Hu.
  - assert (total_of f (months_of t m) = if decide (k.1 = t) then op (f old) (total_of f (months_of t (delete k m)))
                                         else total_of f (months_of t (delete k m))) as ->.
    { rewrite <-months_insert by apply lookup_delete_eq. by rewrite insert_delete_eq, insert_id. }
    destruct (decide _); [|done]. by rewrite Hu, <-!Hassoc, (Hcomm d).
  - rewrite (delete_id m) by done. rewrite Hu, H0, Hunit. destruct (decide _); [|done]. apply Hcomm.
Qed.
End Sums.

(** ** The accounts *)

Definition used_tokens (t : uuid) (s : LlmState) : Z := total_of Z.add 0%Z muTotalTokens (months_of t (lsUsage s)).
Definition used_cost (t : uuid) (s : LlmState) : Qc := total_of Qcplus 0%Qc muTotalCostUSD (months_of t (lsUsage s)).
Definition used_count (t : uuid) (s : LlmState) : Z := total_of Z.add 0%Z muInvocationCount (months_of t (lsUsage s)).
(** What is to be counted for a tenant. *)
Definition billable (t : uuid) (rows : list Invocation) : list Invocation :=
  filter (fun i => ivTenantID i = t /\ ivPurpose i <> "test") rows.

Definition accounted (s : LlmState) : Prop :=
  (forall k u, lsUsage s !! k = Some u -> micros (muTotalCostUSD u)) /\
  forall t, exists counted, counted ⊆+ billable t (lsInvocations s) /\
    used_tokens t s = sum_Z ivTotalTokens counted /\ used_cost t s = sum_Qc ivCostUSD counted /\
    used_count t s = Z.of_nat (length counted).

Definition same_accounts (s s' : LlmState) : Prop := lsInvocations s' = lsInvocations s /\ lsUsage s' = lsUsage s.
#[export] Instance same_accounts_preorder : PreOrder same_accounts.
Proof. split; [by intros s|]. unfold same_accounts. intros s1 s2 s3. naive_solver congruence. Qed.
Lemma accounted_same s s' : same_accounts s s' -> accounted s -> accounted s'.
Proof. intros [E1 E2]. unfold accounted, used_tokens, used_cost, used_count. by rewrite E1, E2. Qed.

Ltac accounts_step :=
  lazymatch goal with
  | |- keepsS same_accounts (changes _) => apply keepsS_changes; intros ?; unfold uninstall, install, set_retry, add_call; repeat case_match; done
  | |- keepsS same_accounts (exec _) =>
      apply keepsS_exec; [exact _|]; let H := fresh in intros ? ? ? ? ? H; unfold mbind, result_bind in H; repeat case_match; simplify_eq; done
  | |- keepsS _ (or_new _) => unfold or_new
  | |- keepsS _ uuid_New => unfold uuid_New
  | |- keepsS _ (reply _ _ _) => unfold reply
  | _ => keeps_step
  end.

Section Accounts.
Context `{R : Runtime}.
Context (year_month : Z -> string).
Context (secrets : option (nat -> uuid -> string -> result goerr string)).
Context (Adapter_Chat : nat -> Adapter -> ChatRequest -> result goerr ChatResponse)
  (Adapter_Embed : nat -> Adapter -> list string -> string -> result goerr (list (list Qc)))
  (Adapter_Close : nat -> Adapter -> result goerr unit).
Context (limiter_Wait : nat -> RateLimiter -> result goerr unit) (visit : nat -> list nat -> list nat).
Context (uuid_Parse : string -> result goerr uuid).

(** *** What leaves the accounts alone *)

Lemma AddProvider_accounts c : keepsS same_accounts (AddProvider secrets c).
Proof. unfold AddProvider. cbv zeta. repeat accounts_step. Qed.
Lemma RemoveProvider_accounts id : keepsS same_accounts (RemoveProvider Adapter_Close id).
Proof. unfold RemoveProvider. repeat accounts_step. Qed.
Lemma Create_accounts r : keepsS same_accounts (Handle_CreateProvider secrets r).
Proof.
  unfold Handle_CreateProvider, llm_principal, Store_CreateProvider. cbv zeta.
  repeat first [apply AddProvider_accounts|accounts_step].
Qed.
Lemma Update_accounts r : keepsS same_accounts (Handle_UpdateProvider secrets Adapter_Close uuid_Parse r).
Proof.
  unfold Handle_UpdateProvider, llm_principal, llm_id, GetProvider, Store_UpdateProvider. cbv zeta.
  repeat first [apply AddProvider_accounts|apply RemoveProvider_accounts|accounts_step].
Qed.
Lemma Delete_accounts r : keepsS same_accounts (Handle_DeleteProvider Adapter_Close uuid_Parse r).
Proof.
  unfold Handle_DeleteProvider, llm_principal, llm_id, Store_DeleteProvider. repeat first [apply RemoveProvider_accounts|accounts_step].
Qed.
Lemma Test_accounts r : keepsS same_accounts (Handle_TestProvider Adapter_Chat uuid_Parse r).
Proof. unfold Handle_TestProvider, llm_principal, llm_id, GetProvider, TestProvider. repeat accounts_step. Qed.

Lemma call_accounts {A} m t model purpose (call : nat -> result goerr A) used :
  keepsS same_accounts (call_adapter limiter_Wait m t model purpose call used).
Proof. unfold call_adapter, waitForLimiters, ms_since, retry_time, setRetryAfter. cbv zeta. repeat accounts_step. Qed.
Lemma fallback_accounts {A} t (attempt : string -> managedAdapter -> LSvc (result goerr A * Invocation)) model :
  (forall model m, keepsS same_accounts (attempt model m)) -> keepsS same_accounts (with_fallback visit t attempt model).
Proof.
  intros H. unfold with_fallback, selectAdapters, enqueueInvocation. cbv zeta. repeat first [apply H|accounts_step].
Qed.

(** *** What changes them *)

Lemma Record_state inv w :
  st (RecordInvocation inv w).2 = st w /\ is_ok (RecordInvocation inv w).1 = false \/
  exists id created cost, numeric 10 6 (ivCostUSD inv) = Some cost /\ (RecordInvocation inv w).1 = Ok tt /\
    st (RecordInvocation inv w).2 =
      set_accounts (lsInvocations (st w) ++ [stored_invocation inv id created cost]) (lsUsage (st w)) (st w).
Proof.
  destruct (RecordInvocation inv w) as [r w'] eqn:E. cbn [fst snd]. unfold RecordInvocation, mbind, Svc_bind in E.
  pose proof (or_new_state (ivID inv) w) as H1. destruct (or_new (ivID inv) w) as [[id|e] w1]; cbn [snd] in H1.
  2: { injection E as <- <-. by left. }
  set (time := if decide (ivCreatedAt inv = time_zero) then nowS else mret (ivCreatedAt inv)) in E.
  assert (st (time w1).2 = st w1 /\ is_ok (time w1).1 = true) as [H2 Hok] by (subst time; by destruct (decide _)).
  destruct (time w1) as [[created|e] w2]; [|done]. cbn [snd] in H2. unfold wrapS in E.
  match type of E with context [exec ?run w2] => pose proof (exec_cases run w2) as Hc; destruct (exec run w2) as [r2 w3] end. cbn [fst snd] in Hc.
  destruct Hc as [(e & -> & Hs)|([] & k & now & -> & Hr)]; injection E as <- <-; [left; by rewrite Hs, H2, H1|].
  right. unfold insert_invocation in Hr. rewrite H2, H1 in Hr. repeat case_match; simplify_eq. exists id, created. eexists. split_and!; [done..|]. congruence.
Qed.

Lemma Usage_state t tokens c w :
  st (UpdateMonthlyUsage year_month t tokens c w).2 = st w /\ is_ok (UpdateMonthlyUsage year_month t tokens c w).1 = false \/
  exists ym cost total, let old := default no_usage (lsUsage (st w) !! (t, ym)) in
    numeric 12 6 c = Some cost /\ numeric 12 6 (muTotalCostUSD old + cost)%Qc = Some total /\
    (UpdateMonthlyUsage year_month t tokens c w).1 = Ok tt /\
    st (UpdateMonthlyUsage year_month t tokens c w).2 =
      set_accounts (lsInvocations (st w))
        (<[(t, ym) := mkMonthlyUsage (muTotalTokens old + tokens) total (muInvocationCount old + 1)]> (lsUsage (st w))) (st w).
Proof.
  destruct (UpdateMonthlyUsage year_month t tokens c w) as [r w'] eqn:E. cbn [fst snd]. unfold UpdateMonthlyUsage, mbind, Svc_bind, nowS, wrapS in E.
  match type of E with context [exec ?run ?w2] => pose proof (exec_cases run w2) as Hc; destruct (exec run w2) as [r2 w3] end. cbn [fst snd st] in Hc.
  destruct Hc as [(e & -> & Hs)|([] & k & now & -> & Hr)]; injection E as <- <-; [by left|].
  right. unfold upsert_usage in Hr. repeat case_match; simplify_eq. eexists _, _, _. cbv zeta. split_and!; [done|done|done|]. congruence.
Qed.

Lemma billable_snoc t rows inv id created cost :
  billable t (rows ++ [stored_invocation inv id created cost]) =
  billable t rows ++ (if decide (ivTenantID inv = t /\ ivPurpose inv <> "test") then [stored_invocation inv id created cost] else []).
Proof. unfold billable. by rewrite filter_app. Qed.

(** One more, when it is the tenant's. *)
Lemma usage_added t t' tokens ym cost total s rows :
  let old := default no_usage (lsUsage s !! (t', ym)) in
  (forall k u, lsUsage s !! k = Some u -> micros (muTotalCostUSD u)) -> micros cost ->
  numeric 12 6 (muTotalCostUSD old + cost)%Qc = Some total ->
  let s' := set_accounts rows (<[(t', ym) := mkMonthlyUsage (muTotalTokens old + tokens) total (muInvocationCount old + 1)]> (lsUsage s)) s in
  if decide (t' = t) then used_tokens t s' = (used_tokens t s + tokens)%Z /\ used_cost t s' = (used_cost t s + cost)%Qc /\
                          used_count t s' = (used_count t s + 1)%Z
  else used_tokens t s' = used_tokens t s /\ used_cost t s' = used_cost t s /\ used_count t s' = used_count t s.
Proof.
  intros old Hm Hc Ht s'.
  assert (total = muTotalCostUSD old + cost)%Qc as Htot.
  { eapply numeric_exact; [|done]. apply micros_plus; [|done]. subst old. destruct (lsUsage s !! (t', ym)) as [u|] eqn:Eu; [by eapply Hm|apply micros_0]. }
  unfold used_tokens, used_cost, used_count. subst s'. cbn [lsUsage set_accounts].
  rewrite (months_add Z.add 0%Z Z.add_comm Z.add_assoc Z.add_0_l muTotalTokens t (t', ym) _ (lsUsage s) tokens) by done.
  rewrite (months_add Qcplus 0%Qc Qcplus_comm Qcplus_assoc Qcplus_0_l muTotalCostUSD t (t', ym) _ (lsUsage s) cost) by done.
  rewrite (months_add Z.add 0%Z Z.add_comm Z.add_assoc Z.add_0_l muInvocationCount t (t', ym) _ (lsUsage s) 1%Z) by done.
  cbn [fst]. by destruct (decide (t' = t)).
Qed.

Lemma sum_Z_snoc {A} (f : A -> Z) l a : sum_Z f (l ++ [a]) = (sum_Z f l + f a)%Z.
Proof. apply (total_snoc Z.add 0%Z Z.add_comm Z.add_assoc f). Qed.
Lemma sum_Qc_snoc {A} (f : A -> Qc) l a : sum_Qc f (l ++ [a]) = (sum_Qc f l + f a)%Qc.
Proof. apply (total_snoc Qcplus 0%Qc Qcplus_comm Qcplus_assoc f). Qed.

Lemma logBudgetWarnings_accounts inv : keepsS same_accounts (logBudgetWarnings year_month inv).
Proof. unfold logBudgetWarnings, GetMonthlyUsage. cbv zeta. repeat accounts_step. Qed.

(** Recording adds a row, and what was counted is still among the rows. *)
Lemma record_accounted inv w : accounted (st w) -> accounted (st (RecordInvocation inv w).2).
Proof.
  intros [Hm H]. destruct (Record_state inv w) as [[-> _]|(id & created & cost & _ & _ & ->)]; [done|]. split; [exact Hm|].
  intros t. destruct (H t) as (counted & Hsub & Hsums). exists counted. split; [|exact Hsums]. cbn [lsInvocations set_accounts].
  rewrite billable_snoc. etrans; [exact Hsub|]. apply submseteq_inserts_r. reflexivity.
Qed.

Lemma persist_accounted inv w : accounted (st w) -> accounted (st (persistInvocation year_month inv w).2).
Proof.
  intros H. pose proof (record_accounted inv w H) as [Hm1 H1]. unfold persistInvocation, mbind, Svc_bind, tryS.
  destruct (Record_state inv w) as [[Hs Hf]|(id & created & cost & Hc & Hok & Hs)];
    destruct (RecordInvocation inv w) as [r1 w1]; cbn [fst snd] in *; [destruct r1; [done|]; by split|]. subst r1.
  destruct (decide (ivPurpose inv = "test")) as [|Hp]; [by split|].
  destruct (Usage_state (ivTenantID inv) (ivTotalTokens inv) (ivCostUSD inv) w1) as [[Hs2 Hf2]|(ym & cost' & total & Hc' & Ht & Hok2 & Hs2)];
    destruct (UpdateMonthlyUsage year_month _ _ _ w1) as [r2 w2]; cbn [fst snd] in *.
  { destruct r2; [done|]. cbn. rewrite Hs2. by split. }
  subst r2. eapply accounted_same; [apply logBudgetWarnings_accounts|]. rewrite Hs2.
  assert (cost' = cost) as -> by (by eapply numeric_agree).
  pose proof (numeric_micros _ _ _ Hc) as Hmc. split.
  { intros k u Hk. cbn in Hk. apply lookup_insert_Some in Hk as [[_ <-]|[_ Hk]]; [by eapply numeric_micros|by eapply Hm1]. }
  intros t. destruct H as [_ H]. destruct (H t) as (counted & Hsub & E1 & E2 & E3).
  pose proof (usage_added t (ivTenantID inv) (ivTotalTokens inv) ym cost total (st w1) (lsInvocations (st w1)) Hm1 Hmc Ht) as Hadd.
  cbv zeta in Hadd. rewrite Hs in Hadd |- *. cbn [lsInvocations lsUsage set_accounts] in Hadd |- *.
  rewrite billable_snoc. destruct (decide (ivTenantID inv = t)) as [Et|Nt].
  - rewrite decide_True by done. exists (counted ++ [stored_invocation inv id created cost]). destruct Hadd as (-> & -> & ->).
    split; [by apply submseteq_skips_r|]. rewrite sum_Z_snoc, sum_Qc_snoc, length_app. cbn [stored_invocation ivTotalTokens ivCostUSD].
    split_and!; [by rewrite <-E1|by rewrite <-E2|]. cbn. rewrite Nat2Z.inj_add, <-E3. done.
  - rewrite decide_False by naive_solver. rewrite app_nil_r. exists counted. destruct Hadd as (-> & -> & ->). done.
Qed.

Lemma worker_accounted w : accounted (st w) -> accounted (st (worker_step year_month w).2).
Proof.
  intros H. unfold worker_step, mbind, Svc_bind.
  assert (keepsS same_accounts take_queue) as Hk by (unfold take_queue; repeat accounts_step). specialize (Hk w).
  destruct (take_queue w) as [[[inv|]|e] w1]; cbn [snd] in *; [apply persist_accounted| |]; by eapply accounted_same.
Qed.
Lemma spawned_accounted i w : accounted (st w) -> accounted (st (spawned_step year_month i w).2).
Proof.
  intros H. unfold spawned_step, mbind, Svc_bind, reads. destruct (lsSpawned (st w) !! i); [|done]. cbn. by apply persist_accounted.
Qed.
Lemma Close_accounted n w : accounted (st w) -> accounted (st (Close year_month Adapter_Close n w).2).
Proof.
  intros H. unfold Close, mbind at 1, Svc_bind at 1. generalize (seq 0 n) as l.
  assert (forall l w, accounted (st w) -> exists w', forS (fun _ : nat => ignoreS (worker_step year_month)) l w = (Ok tt, w') /\ accounted (st w')) as Hfor.
  { intros l. induction l as [|i l IH]; intros w1 H1; [by exists w1|]. cbn [forS]. unfold mbind, Svc_bind, ignoreS at 1. apply IH. by apply worker_accounted. }
  intros l. destruct (Hfor l w H) as (w1 & -> & H1).
  match goal with |- accounted (st (?prog w1).2) => assert (keepsS same_accounts prog) as Hk by (repeat accounts_step); eapply accounted_same; [apply Hk|done] end.
Qed.

Notation run_op := (run_op year_month secrets Adapter_Chat Adapter_Embed Adapter_Close limiter_Wait visit uuid_Parse).
Notation run_ops := (run_ops year_month secrets Adapter_Chat Adapter_Embed Adapter_Close limiter_Wait visit uuid_Parse).

Lemma run_op_accounted op w : accounted (st w) -> accounted (st (run_op op w).2).
Proof.
  intros H. destruct op as [r|r|r|r|t req|t texts model| |i|more]; cbn [LlmClaims.run_op]; unfold ignoreS; cbn [snd].
  1-6: eapply accounted_same; [|exact H].
  - apply Create_accounts.
  - apply Update_accounts.
  - apply Delete_accounts.
  - apply Test_accounts.
  - apply fallback_accounts. intros; apply call_accounts.
  - apply fallback_accounts. intros; apply call_accounts.
  - by apply worker_accounted.
  - by apply spawned_accounted.
  - by apply Close_accounted.
Qed.
Lemma run_ops_accounted ops w : accounted (st w) -> accounted (st (run_ops ops w)).
Proof. revert w. induction ops as [|op ops IH]; intros w H; [done|]. cbn. apply IH. by apply run_op_accounted. Qed.

(** C35. Whatever happens and whatever fails, the usage of a tenant over all months is the
    sum of tokens, costs and number of some of the invocations that are recorded for
    it, tests apart: nothing is counted that is not recorded, and nothing twice. And an
    invocation whose two statements succeed is recorded and counted, at its tokens and
    at its cost rounded to six decimals. *)
Theorem usage_accounted ops w0 :
  lsUsage (st w0) = ∅ ->
  let w := run_ops ops w0 in
  accounted (st w) /\
  forall inv w1 w2, RecordInvocation inv w = (Ok tt, w1) -> ivPurpose inv <> "test" ->
    UpdateMonthlyUsage year_month (ivTenantID inv) (ivTotalTokens inv) (ivCostUSD inv) w1 = (Ok tt, w2) ->
    exists cost, numeric 10 6 (ivCostUSD inv) = Some cost /\
      let s' := st (persistInvocation year_month inv w).2 in
      used_tokens (ivTenantID inv) s' = (used_tokens (ivTenantID inv) (st w) + ivTotalTokens inv)%Z /\
      used_cost (ivTenantID inv) s' = (used_cost (ivTenantID inv) (st w) + cost)%Qc /\
      used_count (ivTenantID inv) s' = (used_count (ivTenantID inv) (st w) + 1)%Z.
Proof.
  intros H0 w.
  assert (accounted (st w)) as H.
  { apply run_ops_accounted. split; [intros k u; by rewrite H0, lookup_empty|]. intros t. exists [].
    split; [apply submseteq_nil_l|]. unfold used_tokens, used_cost, used_count, months_of. by rewrite H0, map_to_list_empty. }
  split; [done|]. intros inv w1 w2 Hr Hp Hu.
  destruct (Record_state inv w) as [[_ Hf]|(id & created & cost & Hc & _ & Hs)]; rewrite Hr in *; [done|]. cbn [snd] in Hs.
  exists cost. split; [done|].
  destruct (Usage_state (ivTenantID inv) (ivTotalTokens inv) (ivCostUSD inv) w1) as [[_ Hf]|(ym & cost' & total & Hc' & Ht & _ & Hs2)];
    rewrite Hu in *; [done|]. cbn [snd] in Hs2.
  assert (cost' = cost) as -> by (by eapply numeric_agree).
  unfold persistInvocation, mbind, Svc_bind, tryS. rewrite Hr, decide_False, Hu by done.
  destruct (logBudgetWarnings_accounts inv w2) as [_ El]. cbv zeta. unfold used_tokens, used_cost, used_count. rewrite El.
  assert (lsUsage (st w1) = lsUsage (st w)) as Eu by (by rewrite Hs).
  pose proof (usage_added (ivTenantID inv) (ivTenantID inv) (ivTotalTokens inv) ym cost total (st w1) (lsInvocations (st w1))) as Hadd.
  cbv zeta in Hadd. rewrite Eu in Hadd. rewrite decide_True in Hadd by done. rewrite Hs2, <-Eu.
  unfold used_tokens, used_cost, used_count in Hadd. rewrite <-Eu in Hadd.
  apply Hadd; [rewrite Eu; apply H|by eapply numeric_micros|exact Ht].
Qed.
End Accounts.

Module LlmExample.
#[local] Existing Instance example_runtime.

Definition month (_ : Z) : string := "2026-01".
Definition vault : option (nat -> uuid -> string -> result goerr string) := Some (fun _ t name => Ok (name +:+ " of " +:+ Itoa (Z.of_N t))).
Definition parse (s : string) : result goerr uuid := if decide (s = "7") then Ok 7%N else if decide (s = "8") then Ok 8%N else Err (Errorf "invalid" []).
(** The first provider is down, the others answer. *)
Definition chat (_ : nat) (a : Adapter) (req : ChatRequest) : result goerr ChatResponse :=
  if decide (adBaseURL a = "http://down") then Err (HTTPStatusError 503 "busy")
  else Ok (mkChatResponse "OK" 10 5 15 (crModel req) "stop" []).
Definition embed (_ : nat) (_ : Adapter) (_ : list string) (_ : string) : result goerr (list (list Qc)) := Ok [].

Definition provider (id : uuid) (url model : string) (dflt fb enabled : bool) : LLMProviderConfig :=
  mkLLMProviderConfig id 0 "openai" "p" url "key" model 100 0 dflt fb enabled ∅ ∅ 0 0 0 0 "" "" false 0 0.
Definition request (t : uuid) (id : string) (c : LLMProviderConfig) : LLMRequest := mkLLMRequest (Some t) id (Ok c) "" "" "" "".
Definition s0 : LlmState := mkLlmState {[1%N; 2%N]} ∅ [] ∅ [] ∅ ∅ ∅ ∅ ∅ ∅ [] [] false [].
Definition hello : ChatRequest := mkChatRequest "" [user_message "hello"] "" 16 0 false [] [] "" "".

Definition ops (l : list llm_op) : Sys LlmState :=
  run_ops month vault chat embed (fun _ _ => Ok tt) (fun _ _ => Ok tt) (fun _ l => l) parse l (mkSys s0 0).
Definition called (w : Sys LlmState) : list (string * string * string) :=
  map (fun c => (adBaseURL (maAdapter (acManaged c)), adAPIKey (maAdapter (acManaged c)), acModel c)) (lsCalls (st w)).

Definition create_default : llm_op := OpCreate (request 1 "" (provider 7 "http://down" "gpt-a" true false true)).
Definition create_fallback : llm_op := OpCreate (request 1 "" (provider 8 "http://up" "gpt-b" false true true)).

(** The fallback is asked for the default model of the provider that failed. *)
Example fallback_gets_primary_model :
  called (ops [create_default; create_fallback; OpChat 1 hello]) =
    [("http://down", "key of 1", "gpt-a"); ("http://up", "key of 1", "gpt-a")].
Proof. by vm_compute. Qed.

(** Another tenant that asks to delete a provider deletes no row, but the manager
    forgets the provider. *)
Example delete_by_other_tenant :
  let w := ops [create_fallback; OpDelete (request 2 "8" (provider 8 "" "" false false false)); OpChat 1 hello] in
  is_Some (lsConfigs (st w) !! 8%N) /\ lsAdapters (st w) !! 8%N = None /\ lsCalls (st w) = [].
Proof. vm_compute. split_and!; [eexists; reflexivity|reflexivity..]. Qed.

(** A default that is disabled hides the other providers of the tenant. *)
Example disabled_default_hides_others :
  called (ops [OpCreate (request 1 "" (provider 7 "http://a" "gpt-a" true false false));
               OpCreate (request 1 "" (provider 8 "http://up" "gpt-b" false false true)); OpChat 1 hello]) = [].
Proof. by vm_compute. Qed.

(** What is still in the queue when the manager is closed is not recorded. *)
Example close_drops_queue :
  let w := ops [create_fallback; OpChat 1 hello; OpClose 0; OpWorker] in
  length (lsCalls (st w)) = 1%nat /\ lsInvocations (st w) = [] /\ lsUsage (st w) = ∅ /\ length (lsQueue (st w)) = 1%nat.
Proof. vm_compute. done. Qed.

(** A provider that was used cannot be deleted. *)
Example used_provider_stays :
  let w := ops [create_fallback; OpChat 1 hello; OpWorker; OpDelete (request 1 "8" (provider 8 "" "" false false false))] in
  is_Some (lsConfigs (st w) !! 8%N) /\ used_tokens 1 (st w) = 15%Z.
Proof. vm_compute. split; [eexists; reflexivity|reflexivity]. Qed.

Lemma llm_calls_configured_witness :
  exists calls, lsCalls (st (ops [create_fallback; OpChat 1 hello])) = calls /\ calls <> [] /\
    Forall (serves vault (st (ops [create_fallback])) (OpChat 1 hello)) calls.
Proof.
  assert (started s0) as Hs by (split_and!; [done..|intros id row H; vm_compute in H; discriminate]).
  destruct (@llm_calls_configured example_runtime month vault chat embed (fun _ _ => Ok tt) (fun _ _ => Ok tt) (fun _ l => l) parse
    ltac:(intros k E; revert E; unfold gen_random_uuid, example_runtime; lia) ltac:(intros k l x H; exact H) (mkSys s0 0)
    [create_fallback] (OpChat 1 hello) Hs) as (calls & E & Hc).
  exists calls. split; [exact E|]. split; [|exact Hc]. intros ->. vm_compute in E. discriminate.
Defined.

Lemma usage_accounted_witness :
  accounted (st (ops [create_fallback; OpChat 1 hello; OpWorker])) /\
  used_tokens 1 (st (ops [create_fallback; OpChat 1 hello; OpWorker])) = 15%Z.
Proof.
  split; [|by vm_compute].
  exact (proj1 (@usage_accounted example_runtime month vault chat embed (fun _ _ => Ok tt) (fun _ _ => Ok tt) (fun _ l => l) parse
    [create_fallback; OpChat 1 hello; OpWorker] (mkSys s0 0) eq_refl)).
Defined.
End LlmExample.
