(* ===== verification/RagSplit.v ===== *)
(** * Splitting of documents into chunks ([internal/rag/splitter.go])

    Texts are bytes; offsets are positions of bytes. The one regular expression,
    [^#{1,3}\s+.+$] by lines, is the function [heading_length]. *)

From S2P Require Import Prelude GoStrings Json EngineTypes GoText Effects.

(** ** Types ([interfaces.go]) *)

Record SplitOpts : Type := mkSplitOpts { soStrategy : string; soChunkSize : Z; soChunkOverlap : Z }.
Record ChunkMetadata : Type := mkChunkMetadata {
  cmPageNumber : Z; cmSectionTitle : string; cmCharStart : nat; cmCharEnd : nat; cmChunkIndex : nat; cmStrategy : string
}.
Record Chunk : Type := mkChunk { ckContent : string; ckTokenCount : nat; ckMetadata : ChunkMetadata }.
Abbreviation tokenSpan := (nat * nat)%type.

(** [text[start:end]] *)
Definition slice (text : string) (start fin : nat) : string := String.substring start (fin - start) text.
Definition newline_char : ascii := "010"%char.

(** ** Tokens *)

(** The length of the space rune that the text begins with. The encoding of a space
    begins in no other rune, so bytes that begin none can be passed one by one. *)
Definition space_at (s : string) : option nat :=
  match filter (fun r => is_true (HasPrefix s r)) space_runes with
  | r :: _ => Some (String.length r)
  | [] => None
  end.
Definition end_token (cur : option nat) (i : nat) : list tokenSpan :=
  match cur with Some start => [(start, i)] | None => [] end.
(** [skip] bytes of a space rune are left; [cur] is where the token began. *)
Fixpoint scan_tokens (skip i : nat) (cur : option nat) (s : string) : list tokenSpan :=
  match s with
  | EmptyString => end_token cur i
  | String _ s' =>
      match skip with
      | S k => scan_tokens k (S i) cur s'
      | O => match space_at s with
             | Some n => end_token cur i ++ scan_tokens (n - 1) (S i) None s'
             | None => scan_tokens 0 (S i) (Some (default i cur)) s'
             end
      end
  end.
Definition tokenSpans (text : string) : list tokenSpan := scan_tokens 0 0 None text.

(** ** Paragraphs, headings, pages *)

Definition cons_char (a : ascii) (l : list string) : list string :=
  match l with w :: ws => String a w :: ws | [] => [String a EmptyString] end.
(** [strings.Split(text, "\n\n")] *)
Fixpoint split_blank (s : string) : list string :=
  match s with
  | EmptyString => [EmptyString]
  | String a s' =>
      match s' with
      | String b s'' => if decide (a = newline_char /\ b = newline_char) then EmptyString :: split_blank s''
                        else cons_char a (split_blank s')
      | EmptyString => [String a EmptyString]
      end
  end.
Fixpoint paragraphs_from (offset : nat) (parts : list string) : list tokenSpan :=
  match parts with
  | [] => []
  | p :: ps =>
      let fin := (offset + String.length p)%nat in
      (if decide (TrimSpace p = "") then [] else [(offset, fin)]) ++ paragraphs_from (fin + 2) ps
  end.
Definition paragraphSpans (text : string) : list tokenSpan := paragraphs_from 0 (split_blank text).

Fixpoint span_length (p : ascii -> bool) (s : string) : nat :=
  match s with
  | EmptyString => 0
  | String a s' => if p a then S (span_length p s') else 0
  end.
Definition regexp_space (a : ascii) : bool :=
  let n := nat_of_ascii a in bool_decide (n = 9 \/ n = 10 \/ n = 12 \/ n = 13 \/ n = 32)%nat.
Definition not_newline (a : ascii) : bool := negb (bool_decide (a = newline_char)).
(** Where the spaces run to the end of the text, the last of them that is no newline
    is what the heading has for a title. *)
Definition last_title (n : nat) (s : string) : option nat :=
  last (filter (fun j => (1 <=? j)%nat && match drop_str j s with String a _ => not_newline a | EmptyString => false end = true) (seq 0 n)).
Definition heading_length (s : string) : option nat :=
  let k := span_length (fun a => bool_decide (a = "#"%char)) s in
  if decide (1 <= k <= 3)%nat then
    let rest := drop_str k s in
    let n := span_length regexp_space rest in
    if decide (n = 0)%nat then None
    else if decide (drop_str n rest = "") then
      j ← last_title n rest; Some (k + j + span_length not_newline (drop_str j rest))%nat
    else Some (k + n + span_length not_newline (drop_str n rest))%nat
  else None.
Fixpoint scan_headings (skip i : nat) (bol : bool) (s : string) : list tokenSpan :=
  match s with
  | EmptyString => []
  | String a s' =>
      let bol' := negb (not_newline a) in
      match skip with
      | S k => scan_headings k (S i) bol' s'
      | O => match (if bol then heading_length s else None) with
             | Some n => (i, i + n)%nat :: scan_headings (n - 1) (S i) bol' s'
             | None => scan_headings 0 (S i) bol' s'
             end
      end
  end.
Definition headingSpans (text : string) : list tokenSpan := scan_headings 0 0 true text.

Definition firstLine (text : string) : string := TrimSpace (slice text 0 (span_length not_newline text)).

(** Page markers that begin at the offset or before it. *)
Fixpoint markers (n : nat) (s : string) : nat :=
  match s with
  | EmptyString => 0
  | String _ s' => (if HasPrefix s "[Page " then 1 else 0) + match n with S n' => markers n' s' | O => 0 end
  end.
Definition pageAtOffset (text : string) (offset : nat) : Z := Z.of_nat (1 + markers offset text).

(** The title of the last heading that begins at the offset or before it, less one
    number sign. *)
Definition TrimPrefix (s prefix : string) : string := if HasPrefix s prefix then drop_str (String.length prefix) s else s.
Definition sectionAtOffset (text : string) (offset : nat) : string :=
  match last (filter (fun h : tokenSpan => (h.1 <= offset)%nat) (headingSpans text)) with
  | Some h => TrimSpace (TrimPrefix (TrimSpace (slice text h.1 h.2)) "#")
  | None => ""
  end.

(** ** Windows of tokens *)

Definition window_chunk (text strategy : string) (tokens : list tokenSpan) (startTok endTok index : nat) : option Chunk :=
  first ← tokens !! startTok;
  last ← tokens !! (endTok - 1)%nat;
  let content := TrimSpace (slice text first.1 last.2) in
  if decide (content = "") then None
  else Some (mkChunk content (endTok - startTok)
               (mkChunkMetadata (pageAtOffset text first.1) (sectionAtOffset text first.1) first.1 last.2 index strategy)).
(** The loop; a window is followed by another unless it ends with the last token. *)
Fixpoint windows (fuel : nat) (text strategy : string) (tokens : list tokenSpan) (size step startTok index : nat) : list Chunk :=
  match fuel with
  | O => []
  | S fuel =>
      if decide (startTok < length tokens)%nat then
        let endTok := Nat.min (length tokens) (startTok + size) in
        match window_chunk text strategy tokens startTok endTok index with
        | None => windows fuel text strategy tokens size step (startTok + step) index
        | Some c =>
            c :: (if decide (endTok = length tokens) then []
                  else windows fuel text strategy tokens size step (startTok + step) (S index))
        end
      else []
  end.
Definition splitByTokenWindows (text : string) (size overlap : nat) (strategy : string) : list Chunk :=
  let tokens := tokenSpans text in
  windows (length tokens) text strategy tokens size (Nat.max 1 (size - overlap)) 0 0.

(** ** Strategies *)

(** A chunk of a part that begins at the offset, seen in the whole text. *)
Definition shifted (text : string) (offset : nat) (index : nat) (section : nat -> string) (c : Chunk) : Chunk :=
  let m := ckMetadata c in
  let start := (cmCharStart m + offset)%nat in
  let fin := (cmCharEnd m + offset)%nat in
  mkChunk (TrimSpace (slice text start fin)) (ckTokenCount c)
    (mkChunkMetadata (pageAtOffset text start) (section start) start fin index (cmStrategy m)).
Definition shift_all (text : string) (offset base : nat) (section : nat -> string) (l : list Chunk) : list Chunk :=
  imap (fun i c => shifted text offset (base + i) section c) l.

Definition paragraph_chunks (text : string) (size overlap : nat) (out : list Chunk) (p : tokenSpan) : list Chunk :=
  let paragraph := TrimSpace (slice text p.1 p.2) in
  if decide (paragraph = "") then out
  else
    let toks := tokenSpans paragraph in
    if decide (length toks <= size)%nat then
      match head toks, last toks with
      | Some a, Some z =>
          let start := (p.1 + a.1)%nat in
          let fin := (p.1 + z.2)%nat in
          out ++ [mkChunk (TrimSpace (slice text start fin)) (length toks)
                    (mkChunkMetadata (pageAtOffset text start) (sectionAtOffset text start) start fin (length out) "recursive")]
      | _, _ => out
      end
    else out ++ shift_all text p.1 (length out) (sectionAtOffset text) (splitByTokenWindows paragraph size overlap "recursive").
Definition splitRecursive (text : string) (size overlap : nat) : list Chunk :=
  let paras := paragraphSpans text in
  if decide (paras = []) then splitByTokenWindows text size overlap "recursive"
  else foldl (paragraph_chunks text size overlap) [] paras.

(** From each heading to the next. *)
Fixpoint sections_of (headings : list tokenSpan) (len : nat) : list tokenSpan :=
  match headings with
  | [] => []
  | h :: hs => (h.1, match hs with n :: _ => n.1 | [] => len end) :: sections_of hs len
  end.
Definition section_chunks (text : string) (size overlap : nat) (out : list Chunk) (sec : tokenSpan) : list Chunk :=
  let sectionText := TrimSpace (slice text sec.1 sec.2) in
  if decide (sectionText = "") then out
  else
    let title := TrimSpace (TrimPrefix (firstLine sectionText) "#") in
    out ++ shift_all text sec.1 (length out) (fun _ => title) (splitByTokenWindows sectionText size overlap "semantic").
Definition splitSemantic (text : string) (size overlap : nat) : list Chunk :=
  foldl (section_chunks text size overlap) [] (sections_of (headingSpans text) (String.length text)).

Definition relabel (strategy : string) (l : list Chunk) : list Chunk :=
  imap (fun i c => let m := ckMetadata c in
    mkChunk (ckContent c) (ckTokenCount c)
      (mkChunkMetadata (cmPageNumber m) (cmSectionTitle m) (cmCharStart m) (cmCharEnd m) i strategy)) l.

Definition chunk_size (opts : SplitOpts) : Z := if (soChunkSize opts <=? 0)%Z then 512%Z else soChunkSize opts.
Definition chunk_overlap (opts : SplitOpts) : Z :=
  let o := Z.max 0 (soChunkOverlap opts) in
  if (chunk_size opts <=? o)%Z then Z.max 0 (chunk_size opts - 1) else o.

Definition SplitText (text : string) (opts : SplitOpts) : result goerr (list Chunk) :=
  if decide (TrimSpace text = "") then Ok []
  else
    let strategy := let s := TrimSpace (ToLower (soStrategy opts)) in if decide (s = "") then "recursive" else s in
    let size := Z.to_nat (chunk_size opts) in
    let overlap := Z.to_nat (chunk_overlap opts) in
    if decide (strategy = "fixed" \/ strategy = "sliding") then Ok (splitByTokenWindows text size overlap strategy)
    else if decide (strategy = "semantic") then
      let chunks := splitSemantic text size overlap in
      Ok (relabel strategy (if decide (chunks = []) then splitRecursive text size overlap else chunks))
    else if decide (strategy = "recursive") then Ok (relabel strategy (splitRecursive text size overlap))
    else Err (Errorf "unsupported chunking strategy %q" [strategy]).
