(* ===== verification/Rag.v ===== *)
(** * Knowledge bases ([internal/rag], [internal/rag/store], [api/handlers/rag.go])

    Loading of documents, the pipeline that splits and embeds them, the tables and
    the vector store with its three searches, the worker, the operations on
    knowledge bases and their handlers. The distance of vectors and the full-text
    functions of the database, the vault, the readers of CSV and of DOCX are
    outside. The vector store is reached through a record of operations. *)

From S2P Require Import Prelude GoStrings Json EngineTypes Store AuditTrail EngineOps GoText Effects GoPath Site Templates RagSplit.

(** ** Loading ([loader.go]) *)

Definition ErrUnsupportedContentType : goerr := Errorf "unsupported content type" [].

(** What is between parentheses without parentheses, as the pattern has it. *)
Fixpoint groups (cur : option string) (s : string) : list string :=
  match s with
  | EmptyString => []
  | String a s' =>
      if decide (a = "("%char) then groups (Some "") s'
      else if decide (a = ")"%char) then match cur with Some g => g :: groups None s' | None => groups None s' end
      else groups (match cur with Some g => Some (g +:+ String a "") | None => None end) s'
  end.
(** [strings.ReplaceAll]: a backslash and an n become a space. *)
Fixpoint replace_escaped (s : string) : string :=
  match s with
  | String a s' =>
      match s' with
      | String b s'' => if decide (a = "\"%char /\ b = "n"%char) then String " " (replace_escaped s'') else String a (replace_escaped s')
      | EmptyString => s
      end
  | EmptyString => EmptyString
  end.
Definition page_marker (page : Z) : string := "[Page " +:+ Itoa page +:+ "]".
Definition pdf_segment (acc : Z * list string) (p : string) : Z * list string :=
  let segment := TrimSpace (replace_escaped p) in
  if decide (segment = "") then acc
  else if Contains (ToLower segment) "pagebreak" then (acc.1 + 1, acc.2 ++ [page_marker (acc.1 + 1)])%Z
  else (acc.1, acc.2 ++ [segment]).
Definition loadPDF (data : string) : result goerr string :=
  if negb (Contains data "%PDF") then Err (Errorf "invalid pdf content" [])
  else match groups None data with
       | [] => Err (Errorf "pdf text extraction produced no text" [])
       | parts => Ok (Join (String newline_char "") (foldl pdf_segment (1%Z, [page_marker 1]) parts).2)
       end.

Section Loader.
Context (csv_ReadAll : string -> result goerr (list (list string))) (docx_texts : string -> result goerr (list string)).
Definition loadCSV (data : string) : result goerr string :=
  match csv_ReadAll data with
  | Err e => Err (Wrapf "parse csv: %w" [] e)
  | Ok records => Ok (Join (String newline_char "") (map (Join " | ") records))
  end.
(** The texts of the [t] elements, those that are blank left out. *)
Definition loadDOCX (data : string) : result goerr string :=
  parts ← docx_texts data;
  Ok (Join (String newline_char "") (filter (fun t => t <> "") (map TrimSpace parts))).
Definition Load (data contentType : string) : result goerr string :=
  let ct := TrimSpace (ToLower contentType) in
  if decide (ct = "text/plain" \/ ct = "text/markdown") then Ok data
  else if decide (ct = "text/csv") then loadCSV data
  else if decide (ct = "application/pdf") then loadPDF data
  else if decide (ct = "application/vnd.openxmlformats-officedocument.wordprocessingml.document") then loadDOCX data
  else Err (Wrapf "%w: %s" [contentType] ErrUnsupportedContentType).
End Loader.

(** ** Data ([store.go], [interfaces.go]) *)

Definition ErrKnowledgeBaseNotFound : goerr := Errorf "knowledge base not found" [].
Definition ErrKnowledgeDocumentNotFound : goerr := Errorf "knowledge document not found" [].
Definition ErrUploadsBlocked : goerr := Errorf "uploads blocked for this knowledge base" [].

Record KnowledgeBase : Type := mkKnowledgeBase {
  kbID : uuid; kbTenantID : uuid; kbName : string; kbDescription : string; kbChunkingStrategy : string; kbChunkSize : Z;
  kbChunkOverlap : Z; kbEmbeddingProvider : string; kbEmbeddingModel : string; kbEmbeddingDims : Z; kbVectorStore : string;
  kbVectorStoreConfig : json; kbDocumentCount : Z; kbChunkCount : Z; kbStatus : string; kbCreatedAt : Z; kbUpdatedAt : Z
}.
(** The row of a document; its tenant is that of the base, its place in the vault is
    that of the vault document. *)
Record DocumentRow : Type := mkDocumentRow {
  drID : uuid; drKnowledgeBaseID : uuid; drVaultDocumentID : uuid; drFilename : string; drContentType : string; drFileSize : Z;
  drStatus : string; drChunkCount : Z; drErrorMessage : string; drProcessingMS : Z; drCreatedAt : Z; drUpdatedAt : Z
}.
Record KnowledgeDocument : Type := mkKnowledgeDocument { kdRow : DocumentRow; kdTenantID : uuid; kdStorageURI : string }.
Record VaultRow : Type := mkVaultRow {
  vrTenantID : uuid; vrFilename : string; vrMimeType : string; vrSizeBytes : Z; vrContentHash : string; vrStorageURI : string;
  vrUploadedBy : uuid
}.
Record StorableChunk : Type := mkStorableChunk {
  scID : uuid; scDocumentID : uuid; scContent : string; scTokenCount : Z; scMetadata : ChunkMetadata; scEmbedding : list Qc;
  scModel : string
}.
Record ChunkRow : Type := mkChunkRow { crTenantID : uuid; crKnowledgeBaseID : uuid; crStored : StorableChunk }.
Record SearchOpts : Type := mkSearchOpts { sqTenantID : uuid; sqKBID : uuid; sqTopK : Z; sqMinScore : Qc }.
Record SearchResult : Type := mkSearchResult {
  srChunkID : string; srContent : string; srScore : Qc; srMetadata : ChunkMetadata; srDocumentID : string;
  srSource : string
}.

Record RagState : Type := mkRagState {
  rgTenants : gset uuid;
  rgKBs : gmap uuid KnowledgeBase;
  rgDocs : gmap uuid DocumentRow;
  rgChunks : gmap uuid ChunkRow;
  rgVaultDocs : gmap uuid VaultRow
}.
Definition set_kbs f (s : RagState) : RagState := mkRagState (rgTenants s) (f (rgKBs s)) (rgDocs s) (rgChunks s) (rgVaultDocs s).
Definition set_docs f (s : RagState) : RagState := mkRagState (rgTenants s) (rgKBs s) (f (rgDocs s)) (rgChunks s) (rgVaultDocs s).
Definition set_chunks f (s : RagState) : RagState := mkRagState (rgTenants s) (rgKBs s) (rgDocs s) (f (rgChunks s)) (rgVaultDocs s).
Definition set_vault_docs f (s : RagState) : RagState := mkRagState (rgTenants s) (rgKBs s) (rgDocs s) (rgChunks s) (f (rgVaultDocs s)).
Abbreviation RSvc := (Svc RagState).

Definition violates (what : string) : goerr := Errorf what [].

Section Rag.
Context `{R : Runtime}.

(** ** Knowledge bases ([store/kb_store.go]) *)

Definition kb_of (tenantID id : uuid) (s : RagState) : option KnowledgeBase :=
  match rgKBs s !! id with
  | Some kb => if decide (kbTenantID kb = tenantID) then Some kb else None
  | None => None
  end.
Definition newer_kb (a b : KnowledgeBase) : Prop := (kbCreatedAt b <= kbCreatedAt a)%Z.
#[export] Instance newer_kb_dec a b : Decision (newer_kb a b) := Z_le_dec _ _.
Definition KB_List (tenantID : uuid) : RSvc (list KnowledgeBase) :=
  wrapS (Wrapf "list knowledge bases: %w" [])
    (select (fun _ s => merge_sort newer_kb (filter (fun kb => kbTenantID kb = tenantID) (map snd (map_to_list (rgKBs s)))))).

Definition known_strategies : list string := ["fixed"; "semantic"; "recursive"; "sliding"].
Definition known_stores : list string := ["pgvector"; "pinecone"; "weaviate"; "qdrant"; "milvus"; "chroma"].
(** The constraints of the table on the columns that a base sets. *)
Definition kb_error (kb : KnowledgeBase) (id : uuid) (s : RagState) : option goerr :=
  if negb (int4_ok (kbChunkSize kb) && int4_ok (kbChunkOverlap kb) && int4_ok (kbEmbeddingDims kb)) then Some int4_error
  else if decide (kbChunkingStrategy kb ∉ known_strategies \/ kbVectorStore kb ∉ known_stores) then Some (violates "check constraint")
  else if existsb (fun kb' => bool_decide (kbTenantID kb' = kbTenantID kb /\ kbName kb' = kbName kb /\ kbID kb' <> id)) (map snd (map_to_list (rgKBs s)))
  then Some (violates "unique constraint")
  else None.
Definition KB_Create (kb : KnowledgeBase) : RSvc KnowledgeBase :=
  exec (fun k now s =>
    let id := gen_random_uuid k in
    let row := mkKnowledgeBase id (kbTenantID kb) (kbName kb) (kbDescription kb) (kbChunkingStrategy kb) (kbChunkSize kb) (kbChunkOverlap kb)
                 (kbEmbeddingProvider kb) (kbEmbeddingModel kb) (kbEmbeddingDims kb) (kbVectorStore kb) (kbVectorStoreConfig kb) 0 0 "active" now now in
    match kb_error kb id s with
    | Some e => Err e
    | None =>
        if decide (kbTenantID kb ∉ rgTenants s) then Err (violates "foreign key constraint")
        else match rgKBs s !! id with
             | Some _ => Err (violates "unique constraint")
             | None => Ok (row, set_kbs <[id := row]> s)
             end
    end).
Definition not_found_as (notFound e : goerr) : goerr := if errors_is e ErrNoRows then notFound else e.
Definition KB_Get (tenantID id : uuid) : RSvc KnowledgeBase :=
  wrapS (not_found_as ErrKnowledgeBaseNotFound) (select_row (fun _ => kb_of tenantID id)).
Definition KB_Update (kb : KnowledgeBase) : RSvc KnowledgeBase :=
  wrapS (not_found_as ErrKnowledgeBaseNotFound)
    (exec (fun _ now s =>
       match kb_of (kbTenantID kb) (kbID kb) s with
       | None => Err ErrNoRows
       | Some old =>
           let row := mkKnowledgeBase (kbID kb) (kbTenantID kb) (kbName kb) (kbDescription kb) (kbChunkingStrategy kb) (kbChunkSize kb)
                        (kbChunkOverlap kb) (kbEmbeddingProvider kb) (kbEmbeddingModel kb) (kbEmbeddingDims kb) (kbVectorStore kb)
                        (kbVectorStoreConfig kb) (kbDocumentCount old) (kbChunkCount old) (kbStatus old) (kbCreatedAt old) now in
           match kb_error kb (kbID kb) s with
           | Some e => Err e
           | None => Ok (row, set_kbs <[kbID kb := row]> s)
           end
       end)).

(** Documents and chunks of a base go with it. *)
Definition drop_kb (id : uuid) (s : RagState) : RagState :=
  set_chunks (filter (fun kc => crKnowledgeBaseID kc.2 <> id))
    (set_docs (filter (fun kd => drKnowledgeBaseID kd.2 <> id)) (set_kbs (delete id) s)).
Definition KB_Delete (tenantID id : uuid) : RSvc unit :=
  n ← wrapS (Wrapf "delete knowledge base: %w" [])
        (exec (fun _ _ s => match kb_of tenantID id s with Some _ => Ok (1%nat, drop_kb id s) | None => Ok (0%nat, s) end));
  guardS (negb (bool_decide (n = 0%nat))) ErrKnowledgeBaseNotFound.

Definition known_kb_statuses : list string := ["active"; "indexing"; "stale_embeddings"; "error"].
Definition with_kb_status (status : string) (now : Z) (kb : KnowledgeBase) : KnowledgeBase :=
  mkKnowledgeBase (kbID kb) (kbTenantID kb) (kbName kb) (kbDescription kb) (kbChunkingStrategy kb) (kbChunkSize kb) (kbChunkOverlap kb)
    (kbEmbeddingProvider kb) (kbEmbeddingModel kb) (kbEmbeddingDims kb) (kbVectorStore kb) (kbVectorStoreConfig kb) (kbDocumentCount kb)
    (kbChunkCount kb) status (kbCreatedAt kb) now.
Definition with_kb_counts (docs chunks now : Z) (kb : KnowledgeBase) : KnowledgeBase :=
  mkKnowledgeBase (kbID kb) (kbTenantID kb) (kbName kb) (kbDescription kb) (kbChunkingStrategy kb) (kbChunkSize kb) (kbChunkOverlap kb)
    (kbEmbeddingProvider kb) (kbEmbeddingModel kb) (kbEmbeddingDims kb) (kbVectorStore kb) (kbVectorStoreConfig kb) docs chunks
    (kbStatus kb) (kbCreatedAt kb) now.
Definition at_kb (tenantID id : uuid) (f : KnowledgeBase -> KnowledgeBase) (s : RagState) : RagState :=
  match kb_of tenantID id s with Some kb => set_kbs <[id := f kb]> s | None => s end.
Definition KB_SetStatus (tenantID id : uuid) (status : string) : RSvc unit :=
  wrapS (Wrapf "set knowledge base status: %w" [])
    (exec (fun _ now s => if decide (status ∉ known_kb_statuses) then Err (violates "check constraint")
                          else Ok (tt, at_kb tenantID id (with_kb_status status now) s))).
Definition count_docs (id : uuid) (s : RagState) : Z :=
  Z.of_nat (length (filter (fun d => drKnowledgeBaseID d = id) (map snd (map_to_list (rgDocs s))))).
Definition count_chunks (tenantID id : uuid) (s : RagState) : Z :=
  Z.of_nat (length (filter (fun c => crKnowledgeBaseID c = id /\ crTenantID c = tenantID) (map snd (map_to_list (rgChunks s))))).
Definition RecalculateCounts (tenantID id : uuid) : RSvc unit :=
  wrapS (Wrapf "recalculate knowledge base counts: %w" [])
    (exec_update (fun now s => at_kb tenantID id (with_kb_counts (count_docs id s) (count_chunks tenantID id s) now) s)).
Definition HasMismatchedEmbeddingModel (tenantID id : uuid) (model : string) : RSvc bool :=
  wrapS (Wrapf "check embedding model compatibility: %w" [])
    (select (fun _ s => existsb (fun c => bool_decide (crTenantID c = tenantID /\ crKnowledgeBaseID c = id /\ scModel (crStored c) <> model))
                          (map snd (map_to_list (rgChunks s))))).

(** ** Documents ([store/doc_store.go]) *)

Definition joined (d : DocumentRow) (s : RagState) : option KnowledgeDocument :=
  kb ← rgKBs s !! drKnowledgeBaseID d;
  Some (mkKnowledgeDocument d (kbTenantID kb) (from_option vrStorageURI "" (rgVaultDocs s !! drVaultDocumentID d))).
Definition doc_of (tenantID kb id : uuid) (s : RagState) : option KnowledgeDocument :=
  d ← rgDocs s !! id;
  doc ← joined d s;
  if decide (kdTenantID doc = tenantID /\ drKnowledgeBaseID d = kb) then Some doc else None.
Definition newer_doc (a b : KnowledgeDocument) : Prop := (drCreatedAt (kdRow b) <= drCreatedAt (kdRow a))%Z.
#[export] Instance newer_doc_dec a b : Decision (newer_doc a b) := Z_le_dec _ _.
Definition Docs_List (tenantID kb : uuid) : RSvc (list KnowledgeDocument) :=
  wrapS (Wrapf "list documents: %w" [])
    (select (fun _ s => merge_sort newer_doc (filter (fun d => kdTenantID d = tenantID /\ drKnowledgeBaseID (kdRow d) = kb)
                          (omap (fun d => joined d s) (map snd (map_to_list (rgDocs s))))))).

Definition known_doc_statuses : list string := ["pending"; "extracting"; "chunking"; "embedding"; "ready"; "error"].
Definition Docs_Create (d : DocumentRow) : RSvc KnowledgeDocument :=
  wrapS (Wrapf "create document: %w" [])
    (exec (fun k now s =>
       let id := gen_random_uuid k in
       let row := mkDocumentRow id (drKnowledgeBaseID d) (drVaultDocumentID d) (drFilename d) (drContentType d) (drFileSize d) (drStatus d)
                    0 "" 0 now now in
       if decide (drStatus d ∉ known_doc_statuses) then Err (violates "check constraint")
       else match rgDocs s !! id, rgVaultDocs s !! drVaultDocumentID d, joined row s with
            | Some _, _, _ => Err (violates "unique constraint")
            | None, Some _, Some doc => Ok (doc, set_docs <[id := row]> s)
            | None, _, _ => Err (violates "foreign key constraint")
            end)).
Definition Docs_Get (tenantID kb id : uuid) : RSvc KnowledgeDocument :=
  wrapS (not_found_as ErrKnowledgeDocumentNotFound) (select_row (fun _ => doc_of tenantID kb id)).

Definition with_doc (status error : string) (chunks ms now : Z) (d : DocumentRow) : DocumentRow :=
  mkDocumentRow (drID d) (drKnowledgeBaseID d) (drVaultDocumentID d) (drFilename d) (drContentType d) (drFileSize d) status chunks error ms
    (drCreatedAt d) now.
Definition at_doc (tenantID kb id : uuid) (f : DocumentRow -> DocumentRow) (s : RagState) : RagState :=
  match doc_of tenantID kb id s with Some doc => set_docs <[id := f (kdRow doc)]> s | None => s end.
Definition Docs_SetStatus (tenantID kb id : uuid) (status errMsg : string) : RSvc unit :=
  wrapS (Wrapf "set document status: %w" [])
    (exec (fun _ now s => if decide (status ∉ known_doc_statuses) then Err (violates "check constraint")
       else Ok (tt, at_doc tenantID kb id (fun d => with_doc status errMsg (drChunkCount d) (drProcessingMS d) now d) s))).
Definition Docs_SetReady (tenantID kb id : uuid) (chunkCount processingMS : Z) : RSvc unit :=
  wrapS (Wrapf "set document ready: %w" [])
    (exec (fun _ now s => if negb (int4_ok chunkCount && int4_ok processingMS) then Err int4_error
       else Ok (tt, at_doc tenantID kb id (with_doc "ready" "" chunkCount processingMS now) s))).
(** The chunks of a document go with it. *)
Definition Docs_Delete (tenantID kb id : uuid) : RSvc unit :=
  n ← wrapS (Wrapf "delete knowledge document: %w" [])
        (exec (fun _ _ s => match doc_of tenantID kb id s with
                            | Some _ => Ok (1%nat, set_chunks (filter (fun kc => scDocumentID (crStored kc.2) <> id)) (set_docs (delete id) s))
                            | None => Ok (0%nat, s)
                            end));
  guardS (negb (bool_decide (n = 0%nat))) ErrKnowledgeDocumentNotFound.
Definition ResetToPendingByKB (tenantID kb : uuid) : RSvc unit :=
  wrapS (Wrapf "reset documents to pending: %w" [])
    (exec_update (fun now s => match kb_of tenantID kb s with
       | None => s
       | Some _ => set_docs (fmap (fun d => if decide (drKnowledgeBaseID d = kb) then with_doc "pending" "" 0 0 now d else d)) s
       end)).

(** The oldest pending document, which is claimed and read again. *)
Definition older_doc (a b : DocumentRow) : Prop := (drCreatedAt a <= drCreatedAt b)%Z.
#[export] Instance older_doc_dec a b : Decision (older_doc a b) := Z_le_dec _ _.
Definition next_pending (s : RagState) : option DocumentRow :=
  head (merge_sort older_doc (filter (fun d => drStatus d = "pending") (map snd (map_to_list (rgDocs s))))).
Definition claim_next (now : Z) (s : RagState) : option (DocumentRow * RagState) :=
  d ← next_pending s;
  Some (d, set_docs <[drID d := with_doc "extracting" "" (drChunkCount d) (drProcessingMS d) now d]> s).
Definition ClaimPending : RSvc (option KnowledgeDocument) :=
  claimed ← transactS "begin claim pending tx: %w" (fun now =>
    d ← wrapS (Wrapf "claim pending document: %w" [])
          (exec (fun _ _ s => match claim_next now s with Some (d, s') => Ok (Some d, s') | None => Ok (None, s) end));
    mret (d, match d with Some _ => "commit claim pending tx: %w" | None => "commit empty claim tx: %w" end));
  match claimed with
  | None => mret None
  | Some d =>
      doc ← select_row (fun _ s => d' ← rgDocs s !! drID d; joined d' s);
      mret (Some doc)
  end.

(** ** The vector store ([interfaces.go], [store/pgvector.go], [noop_store.go]) *)

(** The operations, with two that a store may have or not. *)
Record VectorStore : Type := mkVectorStore {
  vsStore : uuid -> uuid -> list StorableChunk -> RSvc unit;
  vsSearch : list Qc -> SearchOpts -> RSvc (list SearchResult);
  vsDelete : uuid -> RSvc unit;
  vsDeleteAll : uuid -> RSvc unit;
  vsCount : uuid -> RSvc Z;
  vsFullTextSearch : option (string -> SearchOpts -> RSvc (list SearchResult));
  vsHybridSearch : option (list Qc -> string -> SearchOpts -> RSvc (list SearchResult))
}.
Definition store_unavailable : goerr := Errorf "vector store unavailable" [].
Definition NoopVectorStore : VectorStore :=
  mkVectorStore (fun _ _ _ => fail store_unavailable) (fun _ _ => fail store_unavailable) (fun _ => mret tt) (fun _ => mret tt) (fun _ => mret 0%Z) None None.

(** The operator [<=>]; the rows that the plan of a search by vector takes from the
    table, in which the index on the embeddings is approximate; and the full-text
    functions: whether a content matches a query and its rank. *)
Context (distance : list Qc -> list Qc -> Qc) (scan : nat -> list Qc -> list ChunkRow -> result goerr (list ChunkRow)) (ts_matches : string -> string -> bool) (ts_rank : string -> string -> Qc).

Definition vector_dims : nat := 1536.
(** One statement of the batch. *)
Definition upsert_chunk (tenantID kb : uuid) (s : RagState) (c : StorableChunk) : result goerr RagState :=
  if decide (length (scEmbedding c) <> vector_dims) then Err (violates "vector dimensions")
  else if negb (int4_ok (scTokenCount c)) then Err int4_error
  else match rgChunks s !! scID c with
       | Some o =>
           Ok (set_chunks <[scID c := mkChunkRow (crTenantID o) (crKnowledgeBaseID o)
                 (mkStorableChunk (scID c) (scDocumentID (crStored o)) (scContent c) (scTokenCount c) (scMetadata c) (scEmbedding c) (scModel c))]> s)
       | None =>
           match rgKBs s !! kb, rgDocs s !! scDocumentID c with
           | Some _, Some _ => Ok (set_chunks <[scID c := mkChunkRow tenantID kb c]> s)
           | _, _ => Err (violates "foreign key constraint")
           end
       end.
Fixpoint upsert_all (tenantID kb : uuid) (s : RagState) (l : list StorableChunk) : result goerr RagState :=
  match l with
  | [] => Ok s
  | c :: l' => s' ← upsert_chunk tenantID kb s c; upsert_all tenantID kb s' l'
  end.
(** A batch is one transaction. *)
Definition Pg_Store (tenantID kb : uuid) (chunks : list StorableChunk) : RSvc unit :=
  if decide (chunks = []) then mret tt
  else wrapS (Wrapf "store chunk batch: %w" []) (exec (fun _ _ s => s' ← upsert_all tenantID kb s chunks; Ok (tt, s'))).

Definition search_result (score : Qc) (c : ChunkRow) : SearchResult :=
  mkSearchResult (uuid_string (scID (crStored c))) (scContent (crStored c)) score (scMetadata (crStored c))
    (uuid_string (scDocumentID (crStored c))) "".
Definition all_chunks (s : RagState) : list ChunkRow := map snd (map_to_list (rgChunks s)).
Definition of_base (tenantID kb : uuid) (rows : list ChunkRow) : list ChunkRow :=
  filter (fun c => crTenantID c = tenantID /\ crKnowledgeBaseID c = kb) rows.
Definition chunks_of (tenantID kb : uuid) (s : RagState) : list ChunkRow := of_base tenantID kb (all_chunks s).
Definition top_k (k : Z) : Z := if (k <=? 0)%Z then 5 else k.
Definition better (a b : Qc * ChunkRow) : Prop := (fst b <= fst a)%Qc.
#[export] Instance better_dec a b : Decision (better a b) := Qc_le_dec _ _.
(** Nearer chunks first; the score is one less the distance. *)
Definition vector_results (query : list Qc) (opts : SearchOpts) (rows : list ChunkRow) : list SearchResult :=
  let min := if Qclt_le_dec 0 (sqMinScore opts) then sqMinScore opts else Q2Qc (Qmake 7 10) in
  map (fun sc => search_result sc.1 sc.2)
    (take (Z.to_nat (top_k (sqTopK opts)))
       (merge_sort better (filter (fun sc => (min <= sc.1)%Qc)
          (map (fun c => (1 - distance (scEmbedding (crStored c)) query, c)%Qc) rows)))).
(** A vector has between one and 16000 dimensions. The conditions of the statement and
    its limit are applied to the rows the plan's scan gives, and there is no distance
    between vectors of different dimensions. *)
Definition vector_query (k : nat) (query : list Qc) (opts : SearchOpts) (s : RagState) : result goerr (list SearchResult) :=
  if decide (1 <= length query <= Z.to_nat 16000)%nat then
    candidates ← scan k query (all_chunks s);
    let rows := of_base (sqTenantID opts) (sqKBID opts) candidates in
    if decide (rows <> [] /\ length query <> vector_dims) then Err (violates "different vector dimensions")
    else Ok (vector_results query opts rows)
  else Err (violates "vector").
Definition Pg_Search (query : list Qc) (opts : SearchOpts) : RSvc (list SearchResult) :=
  wrapS (Wrapf "vector search: %w" []) (exec (fun k _ s => l ← vector_query k query opts s; Ok (l, s))).
Definition text_results (query : string) (opts : SearchOpts) (s : RagState) : list SearchResult :=
  map (fun sc => search_result sc.1 sc.2)
    (take (Z.to_nat (top_k (sqTopK opts)))
       (merge_sort better (map (fun c => (ts_rank (scContent (crStored c)) query, c))
          (filter (fun c => ts_matches (scContent (crStored c)) query = true) (chunks_of (sqTenantID opts) (sqKBID opts) s))))).
Definition Pg_FullTextSearch (query : string) (opts : SearchOpts) : RSvc (list SearchResult) :=
  wrapS (Wrapf "full-text search: %w" []) (select (fun _ => text_results query opts)).

(** Reciprocal ranks. The scores are exact here; sums of two reciprocals that differ
    do so by far more than the precision of a float. *)
Definition reciprocal (rank : nat) : Qc := Q2Qc (Qmake 1 (Pos.of_nat (60 + (rank + 1)))).
Fixpoint add_ranks (rank : nat) (l : list SearchResult) (scores : gmap string Qc) : gmap string Qc :=
  match l with
  | [] => scores
  | r :: l' => add_ranks (S rank) l' (<[srChunkID r := (default 0 (scores !! srChunkID r) + reciprocal rank)%Qc]> scores)
  end.
Definition vector_item (items : gmap string SearchResult) (r : SearchResult) : gmap string SearchResult := <[srChunkID r := r]> items.
Definition text_item (items : gmap string SearchResult) (r : SearchResult) : gmap string SearchResult :=
  match items !! srChunkID r with
  | Some existing => if decide (TrimSpace (srContent existing) = "") then <[srChunkID r := r]> items else items
  | None => <[srChunkID r := r]> items
  end.
Definition with_score (score : Qc) (r : SearchResult) : SearchResult :=
  mkSearchResult (srChunkID r) (srContent r) score (srMetadata r) (srDocumentID r) (srSource r).
(** Higher scores first, then smaller keys. *)
Definition key_before (a b : string * Qc) : Prop := (b.2 < a.2)%Qc \/ (a.2 = b.2 /\ str_ltb b.1 a.1 = false).
#[export] Instance key_before_dec a b : Decision (key_before a b).
Proof.
  unfold key_before. destruct (Qclt_le_dec b.2 a.2) as [H|H]; [left; by left|].
  destruct (decide (a.2 = b.2 /\ str_ltb b.1 a.1 = false)) as [H'|H']; [left; by right|].
  right. intros [H''|H'']; [by apply (Qclt_not_le _ _ H'')|done].
Defined.
Definition hybridSearch (vectorResults ftsResults : list SearchResult) (k : Z) : list SearchResult :=
  let scores := add_ranks 0 ftsResults (add_ranks 0 vectorResults ∅) in
  let items := foldl text_item (foldl vector_item ∅ vectorResults) ftsResults in
  let keys := merge_sort key_before (map (fun kr => (kr.1, default 0%Qc (scores !! kr.1))) (map_to_list items)) in
  omap (fun ks => with_score ks.2 <$> items !! ks.1) (take (Z.to_nat (top_k k)) keys).
Definition Pg_HybridSearch (query : list Qc) (text : string) (opts : SearchOpts) : RSvc (list SearchResult) :=
  vectorResults ← Pg_Search query opts;
  ftsResults ← Pg_FullTextSearch text opts;
  mret (hybridSearch vectorResults ftsResults (sqTopK opts)).

Definition Pg_Delete (documentID : uuid) : RSvc unit :=
  wrapS (Wrapf "delete chunks by document: %w" [])
    (exec_update (fun _ => set_chunks (filter (fun kc => scDocumentID (crStored kc.2) <> documentID)))).
Definition Pg_DeleteAll (kb : uuid) : RSvc unit :=
  wrapS (Wrapf "delete chunks by kb: %w" [])
    (exec_update (fun _ => set_chunks (filter (fun kc => crKnowledgeBaseID kc.2 <> kb)))).
Definition Pg_Count (kb : uuid) : RSvc Z :=
  wrapS (Wrapf "count chunks: %w" [])
    (select (fun _ s => Z.of_nat (length (filter (fun c => crKnowledgeBaseID c = kb) (map snd (map_to_list (rgChunks s))))))).
Definition PgVectorStore : VectorStore :=
  mkVectorStore Pg_Store Pg_Search Pg_Delete Pg_DeleteAll Pg_Count (Some Pg_FullTextSearch) (Some Pg_HybridSearch).

(** ** The pipeline ([pipeline.go]) *)

Record Embedder : Type := mkEmbedder { emEmbed : nat -> list string -> result goerr (list (list Qc)); emModelName : string }.
(** Four bytes of the digest at a time, modulo a thousand. *)
Definition hash_component (digest : list Z) (i : nat) : Qc :=
  let off := Nat.modulo (i * 4) (length digest) in
  let byte j := default 0%Z (digest !! (off + j)%nat) in
  let v := (((byte 0%nat * 256 + byte 1%nat) * 256 + byte 2%nat) * 256 + byte 3%nat)%Z in
  Q2Qc (Qmake (v mod 1000) 1000).
Definition HashEmbedder (sha256 : string -> list Z) (dims : nat) : Embedder :=
  mkEmbedder (fun _ texts => Ok (map (fun t => map (hash_component (sha256 t)) (seq 0 dims)) texts)) "hash-embedding-v1".

Context (load : string -> string -> result goerr string) (embedder : Embedder) (store : VectorStore)
  (vault_Get : nat -> string -> result goerr string) (chunkID : uuid -> nat -> string -> uuid).

Definition batchSize : nat := 50.
(** Batch by batch; each must give as many vectors as it has texts. *)
Fixpoint embed_batches (fuel : nat) (chunks : list Chunk) : RSvc (list (list Qc)) :=
  match fuel with
  | O => mret []
  | S fuel =>
      if decide (chunks = []) then mret []
      else
        let texts := map ckContent (take batchSize chunks) in
        vecs ← callS (fun k => emEmbed embedder k texts);
        _ ← guardS (bool_decide (length vecs = length texts))
              (Errorf "embedder returned %d vectors for %d texts" [Itoa (Z.of_nat (length vecs)); Itoa (Z.of_nat (length texts))]);
        rest ← embed_batches fuel (drop batchSize chunks);
        mret (vecs ++ rest)
  end.
Definition embedChunks (chunks : list Chunk) : RSvc (list (list Qc)) := embed_batches (length chunks) chunks.

Definition storable (docID : uuid) (cv : Chunk * list Qc) : StorableChunk :=
  let c := cv.1 in
  mkStorableChunk (chunkID docID (cmChunkIndex (ckMetadata c)) (ckContent c)) docID (ckContent c) (Z.of_nat (ckTokenCount c)) (ckMetadata c)
    cv.2 (emModelName embedder).

Definition opts_of (kb : KnowledgeBase) : SplitOpts := mkSplitOpts (kbChunkingStrategy kb) (kbChunkSize kb) (kbChunkOverlap kb).
(** What follows when the document and its base have been found. *)
Definition process_found (started : Z) (kb : KnowledgeBase) (doc : KnowledgeDocument) : RSvc unit :=
  let tenant := kdTenantID doc in
  let base := drKnowledgeBaseID (kdRow doc) in
  let id := drID (kdRow doc) in
  let set_status := Docs_SetStatus tenant base id in
  let failing {A} (text : goerr -> string) (p : RSvc A) : RSvc A := on_error p (fun e => ignoreS (set_status "error" (text e))) in
  _ ← set_status "extracting" "";
  blob ← wrapS (Wrapf "read vault blob: %w" [])
           (failing (fun e => "vault read failed: " +:+ Error e) (callS (fun k => vault_Get k (kdStorageURI doc))));
  content ← wrapS (Wrapf "extract document text: %w" []) (failing Error (pureS (load blob (drContentType (kdRow doc)))));
  _ ← set_status "chunking" "";
  chunks ← wrapS (Wrapf "split text: %w" []) (failing Error (pureS (SplitText content (opts_of kb))));
  _ ← set_status "embedding" "";
  vectors ← wrapS (Wrapf "embed chunks: %w" []) (failing Error (embedChunks chunks));
  let stored := map (storable id) (zip chunks vectors) in
  _ ← wrapS (Wrapf "delete old chunks: %w" []) (failing Error (vsDelete store id));
  _ ← wrapS (Wrapf "store chunks: %w" []) (failing Error (vsStore store tenant base stored));
  now ← nowS;
  _ ← Docs_SetReady tenant base id (Z.of_nat (length stored)) (Z.quot (now - started) Millisecond);
  RecalculateCounts tenant base.

(** The document is looked for under the nil tenant. *)
Definition ProcessDocument (kb id : uuid) : RSvc unit :=
  started ← nowS;
  doc ← Docs_Get 0%N kb id;
  base ← KB_Get (kdTenantID doc) kb;
  process_found started base doc.

Definition Pipeline_ReIndex (id : uuid) : RSvc unit :=
  kb ← KB_Get 0%N id;
  _ ← KB_SetStatus (kbTenantID kb) id "indexing";
  out ← tryS (
    docs ← Docs_List (kbTenantID kb) id;
    _ ← vsDeleteAll store id;
    _ ← forS (fun d => _ ← Docs_SetStatus (kbTenantID kb) id (drID (kdRow d)) "pending" ""; ProcessDocument id (drID (kdRow d))) docs;
    _ ← KB_SetStatus (kbTenantID kb) id "active";
    RecalculateCounts (kbTenantID kb) id);
  _ ← ignoreS (KB_SetStatus (kbTenantID kb) id "active");
  pureS out.

(** [tick] of the worker; errors are logged. *)
Definition tick : RSvc unit :=
  claimed ← tryS ClaimPending;
  match claimed with
  | Ok (Some doc) => ignoreS (ProcessDocument (drKnowledgeBaseID (kdRow doc)) (drID (kdRow doc)))
  | _ => mret tt
  end.
(** ** Search ([search.go]) *)

Record SearchRequest : Type := mkSearchRequest {
  sreqTenantID : uuid; sreqKnowledgeBaseID : uuid; sreqQuery : string; sreqTopK : Z; sreqMinScore : Qc; sreqMode : string
}.
Record SearchResponse : Type := mkSearchResponse { srespResults : list SearchResult; srespMode : string; srespQueryDurationMS : Z }.

Definition embed_query (query : string) : RSvc (list Qc) :=
  vectors ← wrapS (Wrapf "embed query: %w" []) (callS (fun k => emEmbed embedder k [query]));
  match vectors with
  | [v] => mret v
  | _ => fail (Errorf "embedder returned %d vectors, expected 1" [Itoa (Z.of_nat (length vectors))])
  end.
(** The results and the mode that gave them. *)
Definition search_by (mode query : string) (opts : SearchOpts) : RSvc (list SearchResult * string) :=
  let by_vector := v ← embed_query query; results ← vsSearch store v opts; mret (results, "vector") in
  if decide (mode = "fulltext") then
    match vsFullTextSearch store with
    | Some fts => results ← fts query opts; mret (results, mode)
    | None => by_vector
    end
  else if decide (mode = "vector") then by_vector
  else if decide (mode = "hybrid") then
    match vsHybridSearch store with
    | Some hybrid => v ← embed_query query; results ← hybrid v query opts; mret (results, mode)
    | None => by_vector
    end
  else fail (Errorf "unsupported search mode %q" [mode]).
Definition search_opts (req : SearchRequest) : SearchOpts :=
  mkSearchOpts (sreqTenantID req) (sreqKnowledgeBaseID req) (top_k (sreqTopK req))
    (if Qclt_le_dec 0 (sreqMinScore req) then sreqMinScore req else Q2Qc (Qmake 7 10)).
Definition SearchService_Search (req : SearchRequest) : RSvc SearchResponse :=
  let mode := if decide (sreqMode req = "") then "hybrid" else sreqMode req in
  start ← nowS;
  _ ← KB_Get (sreqTenantID req) (sreqKnowledgeBaseID req);
  found ← search_by mode (sreqQuery req) (search_opts req);
  stop ← nowS;
  mret (mkSearchResponse found.1 found.2 (Z.quot (stop - start) Millisecond)).

(** ** A source of context for agents ([step.go]) *)

Record ContextSourceConfig : Type := mkContextSourceConfig {
  csKnowledgeBase : string; csQueryTemplate : string; csTopK : Z; csMinScore : Qc; csMode : string
}.
Record ContextChunk : Type := mkContextChunk { ccContent : string; ccScore : Qc; ccSource : string; ccPageNumber : Z }.

Context (case_data : nat -> uuid -> uuid -> result goerr object) (format_rfc3339 : Z -> string) (fmtFloat fmtFloat_v : Qc -> string).
Definition Resolve (tenantID caseID : uuid) (config : ContextSourceConfig) : RSvc (list ContextChunk) :=
  caseData ← callS (fun k => case_data k tenantID caseID);
  now ← nowS;
  let query := TrimSpace (ResolveTemplateString (format_rfc3339 now) None fmtFloat fmtFloat_v (csQueryTemplate config)
                            [("case", JObj caseData); ("now", JStr (format_rfc3339 now))]) in
  if decide (query = "") then mret []
  else
    kbs ← KB_List tenantID;
    let kbID := from_option kbID uuid_Nil (head (filter (fun kb => kbName kb = csKnowledgeBase config) kbs)) in
    _ ← guardS (negb (bool_decide (kbID = uuid_Nil))) (Errorf "knowledge base %q not found" [csKnowledgeBase config]);
    resp ← SearchService_Search (mkSearchRequest tenantID kbID query (csTopK config) (csMinScore config) (csMode config));
    mret (map (fun r => mkContextChunk (srContent r) (srScore r) (srSource r) (cmPageNumber (srMetadata r))) (srespResults resp)).

(** ** Compatibility and cost ([versioning.go], [reindex.go]) *)

Definition CheckEmbeddingCompatibility (kb : KnowledgeBase) : RSvc unit :=
  mismatch ← HasMismatchedEmbeddingModel (kbTenantID kb) (kbID kb) (kbEmbeddingModel kb);
  if (mismatch : bool) then
    _ ← KB_SetStatus (kbTenantID kb) (kbID kb) "stale_embeddings";
    fail (Errorf "embedding model changed. re-index required for consistent search" [])
  else mret tt.
Definition IsUploadAllowed (kb : KnowledgeBase) : bool := negb (bool_decide (kbStatus kb = "stale_embeddings")).

Record CostEstimate : Type := mkCostEstimate { ceTotalChunks : Z; ceEstimatedTokens : Z; ceEstimatedCostUSD : Qc }.
Definition EstimateReIndexCost (kb : KnowledgeBase) (InputPer1MTokensUSD : Qc) : CostEstimate :=
  let tokens := wrap64 (kbChunkCount kb * Z.max 1 (kbChunkSize kb)) in
  mkCostEstimate (kbChunkCount kb) tokens (Q2Qc (Qmake tokens 1000000) * InputPer1MTokensUSD)%Qc.
Definition DefaultReIndexCostGuardUSD : Qc := Q2Qc (Qmake 50 1).
Definition or_guard (threshold : Qc) : Qc := if Qclt_le_dec 0 threshold then threshold else DefaultReIndexCostGuardUSD.
Definition RequiresReIndexConfirmation (estimate : CostEstimate) (thresholdUSD : Qc) : bool :=
  if Qclt_le_dec (or_guard thresholdUSD) (ceEstimatedCostUSD estimate) then true else false.

(** ** The operations ([api.go]) *)

Context (modelPricing reIndexThreshold : Qc).

Definition or_text (s d : string) : string := if decide (s = "") then d else s.
Definition with_kb_defaults (kb : KnowledgeBase) : KnowledgeBase :=
  mkKnowledgeBase (kbID kb) (kbTenantID kb) (kbName kb) (kbDescription kb) (or_text (kbChunkingStrategy kb) "recursive")
    (if (kbChunkSize kb <=? 0)%Z then 512 else kbChunkSize kb) (if (kbChunkOverlap kb <? 0)%Z then 50 else kbChunkOverlap kb)
    (or_text (kbEmbeddingProvider kb) "openai") (or_text (kbEmbeddingModel kb) "text-embedding-3-small")
    (if (kbEmbeddingDims kb <=? 0)%Z then 1536 else kbEmbeddingDims kb) (or_text (kbVectorStore kb) "pgvector")
    (kbVectorStoreConfig kb) (kbDocumentCount kb) (kbChunkCount kb) (kbStatus kb) (kbCreatedAt kb) (kbUpdatedAt kb).
Definition RAG_CreateKnowledgeBase (kb : KnowledgeBase) : RSvc KnowledgeBase :=
  _ ← guardS (negb (bool_decide (TrimSpace (kbName kb) = ""))) (Errorf "knowledge base name is required" []);
  KB_Create (with_kb_defaults kb).
Definition RAG_UpdateKnowledgeBase (kb : KnowledgeBase) : RSvc KnowledgeBase :=
  updated ← KB_Update kb;
  _ ← CheckEmbeddingCompatibility updated;
  mret updated.
Definition RAG_DeleteKnowledgeBase (tenantID kb : uuid) : RSvc unit :=
  _ ← vsDeleteAll store kb;
  KB_Delete tenantID kb.
Definition RAG_CreateDocument (tenantID kb : uuid) (d : DocumentRow) : RSvc KnowledgeDocument :=
  base ← KB_Get tenantID kb;
  _ ← guardS (IsUploadAllowed base) ErrUploadsBlocked;
  created ← Docs_Create (mkDocumentRow (drID d) kb (drVaultDocumentID d) (drFilename d) (drContentType d) (drFileSize d)
              (or_text (drStatus d) "pending") (drChunkCount d) (drErrorMessage d) (drProcessingMS d) (drCreatedAt d) (drUpdatedAt d));
  _ ← RecalculateCounts tenantID kb;
  mret created.
Definition RAG_DeleteDocument (tenantID kb id : uuid) : RSvc unit :=
  _ ← vsDelete store id;
  _ ← Docs_Delete tenantID kb id;
  RecalculateCounts tenantID kb.
Definition RAG_ReIndex (tenantID kb : uuid) (confirm : bool) : RSvc (CostEstimate * bool) :=
  base ← KB_Get tenantID kb;
  let estimate := EstimateReIndexCost base modelPricing in
  if RequiresReIndexConfirmation estimate (or_guard reIndexThreshold) && negb confirm then mret (estimate, false)
  else _ ← Pipeline_ReIndex kb; mret (estimate, true).
Definition RAG_Stats (tenantID kb : uuid) : RSvc KnowledgeBase :=
  _ ← RecalculateCounts tenantID kb;
  KB_Get tenantID kb.

(** ** The handlers ([api/handlers/rag.go])

    The principal is what the middleware found. A request has its path values, its
    body as [encoding/json] decodes it, the parts of its form and its query. *)

Record Upload : Type := mkUpload { ulFilename : string; ulContentType : string; ulData : result goerr string }.
Record RagRequest : Type := mkRagRequest {
  rqPrincipal : option (uuid * uuid);
  rqID : string;
  rqDocID : string;
  rqBase : result goerr KnowledgeBase;
  rqSearch : result goerr SearchRequest;
  rqForm : result goerr (option Upload);
  rqConfirm : string
}.
Inductive RagReply : Type :=
| RError (status : Z) (code : string)
| RInternal
| RBases (l : list KnowledgeBase)
| RBase (status : Z) (kb : KnowledgeBase)
| RDocs (l : list KnowledgeDocument)
| RDoc (d : KnowledgeDocument)
| RDeleted
| RConfirm (e : CostEstimate)
| RIndexing (e : CostEstimate)
| RResults (r : SearchResponse).

Context (uuid_Parse : string -> result goerr uuid) (TypeByExtension : string -> string)
  (vault_Put : nat -> string -> string -> string -> string -> result goerr string).

(** [err != nil] answers by [failed]. *)
Definition rag_answer {A} (p : RSvc A) (failed : goerr -> RagReply) (done : A -> RagReply) : RSvc RagReply :=
  out ← tryS p;
  mret match out with Ok a => done a | Err e => failed e end.
Definition bad_request (e : goerr) : RagReply := RError 400 (Error e).
Definition internal (e : goerr) : RagReply := RInternal.
Definition or_not_found (target : goerr) (failed : goerr -> RagReply) (e : goerr) : RagReply :=
  if errors_is e target then RError 404 "not_found" else failed e.

(** [PrincipalFromContext] and [parseUUIDPath]. *)
Definition rag_principal (r : RagRequest) (body : uuid -> uuid -> RSvc RagReply) : RSvc RagReply :=
  match rqPrincipal r with
  | None => mret (RError 401 "unauthenticated")
  | Some (tenant, id) => body tenant id
  end.
Definition parseUUIDPath (value code : string) (body : uuid -> RSvc RagReply) : RSvc RagReply :=
  match uuid_Parse (TrimSpace value) with
  | Err _ => mret (RError 400 code)
  | Ok id => body id
  end.
Definition on_base (r : RagRequest) (body : uuid -> uuid -> RSvc RagReply) : RSvc RagReply :=
  rag_principal r (fun tenant _ => parseUUIDPath (rqID r) "invalid_id" (body tenant)).
Definition rag_body {A} (decoded : result goerr A) (body : A -> RSvc RagReply) : RSvc RagReply :=
  match decoded with
  | Err _ => mret (RError 400 "invalid_json")
  | Ok a => body a
  end.
Definition owned_by (tenant id : uuid) (kb : KnowledgeBase) : KnowledgeBase :=
  mkKnowledgeBase id tenant (kbName kb) (kbDescription kb) (kbChunkingStrategy kb) (kbChunkSize kb) (kbChunkOverlap kb)
    (kbEmbeddingProvider kb) (kbEmbeddingModel kb) (kbEmbeddingDims kb) (kbVectorStore kb) (kbVectorStoreConfig kb) (kbDocumentCount kb)
    (kbChunkCount kb) (kbStatus kb) (kbCreatedAt kb) (kbUpdatedAt kb).

Definition H_ListKnowledgeBases (r : RagRequest) : RSvc RagReply :=
  rag_principal r (fun tenant _ => rag_answer (KB_List tenant) internal RBases).
Definition H_CreateKnowledgeBase (r : RagRequest) : RSvc RagReply :=
  rag_principal r (fun tenant _ => rag_body (rqBase r) (fun kb =>
    rag_answer (RAG_CreateKnowledgeBase (owned_by tenant (kbID kb) kb)) bad_request (RBase 201))).
Definition H_GetKnowledgeBase (r : RagRequest) : RSvc RagReply :=
  on_base r (fun tenant id => rag_answer (KB_Get tenant id) (or_not_found ErrKnowledgeBaseNotFound internal) (RBase 200)).
Definition H_UpdateKnowledgeBase (r : RagRequest) : RSvc RagReply :=
  on_base r (fun tenant id => rag_body (rqBase r) (fun kb =>
    rag_answer (RAG_UpdateKnowledgeBase (owned_by tenant id kb)) (or_not_found ErrKnowledgeBaseNotFound bad_request) (RBase 200))).
Definition H_DeleteKnowledgeBase (r : RagRequest) : RSvc RagReply :=
  on_base r (fun tenant id =>
    rag_answer (RAG_DeleteKnowledgeBase tenant id) (or_not_found ErrKnowledgeBaseNotFound internal) (fun _ => RDeleted)).
Definition H_ListDocuments (r : RagRequest) : RSvc RagReply :=
  on_base r (fun tenant id => rag_answer (Docs_List tenant id) internal RDocs).
Definition H_DeleteDocument (r : RagRequest) : RSvc RagReply :=
  on_base r (fun tenant kb => parseUUIDPath (rqDocID r) "invalid_doc_id" (fun id =>
    rag_answer (RAG_DeleteDocument tenant kb id) (or_not_found ErrKnowledgeDocumentNotFound internal) (fun _ => RDeleted))).
Definition H_ReIndex (r : RagRequest) : RSvc RagReply :=
  on_base r (fun tenant kb =>
    rag_answer (RAG_ReIndex tenant kb (EqualFold (TrimSpace (rqConfirm r)) "true")) internal
      (fun e => if e.2 then RIndexing e.1 else RConfirm e.1)).
Definition H_Stats (r : RagRequest) : RSvc RagReply :=
  on_base r (fun tenant kb => rag_answer (RAG_Stats tenant kb) internal (RBase 200)).
Definition H_Search (r : RagRequest) : RSvc RagReply :=
  on_base r (fun tenant kb => rag_body (rqSearch r) (fun req =>
    rag_answer (SearchService_Search (mkSearchRequest tenant kb (sreqQuery req) (sreqTopK req) (sreqMinScore req) (sreqMode req)))
      bad_request RResults)).

Definition MaxUpload : Z := 25 * 1024 * 1024.
Definition UploadExt (filename : string) : string :=
  let ext := TrimPrefix (ToLower (Ext filename)) "." in
  if decide (ext = "") then "bin" else ext.
Definition insert_vault_row (row : VaultRow) : RSvc uuid :=
  exec (fun k _ s =>
    let id := gen_random_uuid k in
    if decide (vrTenantID row ∉ rgTenants s) then Err (violates "foreign key constraint")
    else match rgVaultDocs s !! id with
         | Some _ => Err (violates "unique constraint")
         | None => Ok (id, set_vault_docs <[id := row]> s)
         end).
(** The blob and its row are there before the base is looked up. *)
Definition store_upload (tenant principal : uuid) (u : Upload) (contentType data : string) : RSvc uuid :=
  let hash := sha256_hex data in
  uri ← callS (fun k => vault_Put k (uuid_string tenant) hash (UploadExt (ulFilename u)) data);
  insert_vault_row (mkVaultRow tenant (ulFilename u) contentType (Z.of_nat (String.length data)) hash uri principal).
Definition new_document (kb vaultDocID : uuid) (u : Upload) (contentType data : string) : DocumentRow :=
  mkDocumentRow uuid_Nil kb vaultDocID (ulFilename u) contentType (Z.of_nat (String.length data)) "pending" 0 "" 0 0 0.
Definition accept_upload (tenant principal kb : uuid) (u : Upload) (data : string) : RSvc RagReply :=
  let contentType := or_text (ulContentType u) (TypeByExtension (ToLower (Ext (ulFilename u)))) in
  stored ← tryS (store_upload tenant principal u contentType data);
  match stored with
  | Err e => mret (internal e)
  | Ok vaultDocID =>
      rag_answer (RAG_CreateDocument tenant kb (new_document kb vaultDocID u contentType data))
        (fun e => if errors_is e ErrUploadsBlocked then RError 409 "uploads_blocked_stale_embeddings" else bad_request e) RDoc
  end.
Definition H_UploadDocument (r : RagRequest) : RSvc RagReply :=
  rag_principal r (fun tenant principal => parseUUIDPath (rqID r) "invalid_id" (fun kb =>
    match rqForm r with
    | Err _ => mret (RError 400 "invalid_multipart")
    | Ok None => mret (RError 400 "file_required")
    | Ok (Some u) =>
        match ulData u with
        | Err _ => mret (RError 400 "read_file_failed")
        | Ok data =>
            if (MaxUpload <? Z.of_nat (String.length data))%Z then mret (RError 400 "file_too_large")
            else accept_upload tenant principal kb u data
        end
    end)).

(** ** The routes and the worker ([api/routes.go]) *)

Inductive rag_route : Type :=
| ListBases | CreateBase | GetBase | UpdateBase | DeleteBase | ListDocs | UploadDoc | DeleteDoc | ReIndexBase | BaseStats | SearchBase.
Definition rag_handler (route : rag_route) : RagRequest -> RSvc RagReply :=
  match route with
  | ListBases => H_ListKnowledgeBases
  | CreateBase => H_CreateKnowledgeBase
  | GetBase => H_GetKnowledgeBase
  | UpdateBase => H_UpdateKnowledgeBase
  | DeleteBase => H_DeleteKnowledgeBase
  | ListDocs => H_ListDocuments
  | UploadDoc => H_UploadDocument
  | DeleteDoc => H_DeleteDocument
  | ReIndexBase => H_ReIndex
  | BaseStats => H_Stats
  | SearchBase => H_Search
  end.
Inductive rag_event : Type := WorkerTick | Request (route : rag_route) (r : RagRequest).
Definition rag_step (e : rag_event) : RSvc unit :=
  match e with
  | WorkerTick => tick
  | Request route r => ignoreS (rag_handler route r)
  end.
End Rag.
