(* ===== verification/RagClaims.v ===== *)
(** * Claims about knowledge bases *)

From S2P Require Import Prelude GoStrings Json EngineTypes Store TaskForms AuditTrail EngineOps GoText Effects GoPath Site Templates RagSplit Rag.

(** ** Space *)

Lemma space_at_strip s : space_at s = None <-> strip_one space_runes s = None.
Proof. unfold space_at, strip_one. by destruct (filter _ space_runes). Qed.

Lemma drop_slice text a b : exists t, drop_str a text = slice text a b +:+ t.
Proof.
  unfold slice. generalize (b - a)%nat as n. clear b. revert a. induction text as [|c text IH]; intros a n; [by exists ""; destruct a, n|].
  destruct a as [|a]; [|apply IH]. cbn [drop_str String.substring]. destruct n as [|n]; [by exists (String c text)|].
  destruct (IH 0%nat n) as [t Ht]. exists t. replace (drop_str 0 text) with text in Ht by (by destruct text). by rewrite Ht at 1.
Qed.

Lemma slice_length text a b : (a <= b)%nat -> (b <= String.length text)%nat -> String.length (slice text a b) = (b - a)%nat.
Proof.
  unfold slice. intros Ha Hb. assert (b - a + a <= String.length text)%nat as H by lia. revert H. generalize (b - a)%nat as n. clear b Ha Hb.
  revert a. induction text as [|c text IH]; intros a n H; cbn in H; [destruct a, n; cbn; lia|].
  destruct a as [|a]; cbn [String.substring]; [|apply IH; lia]. destruct n as [|n]; [done|]. cbn. f_equal. apply IH. lia.
Qed.

Lemma trim_left_empty runes n t :
  trim_left runes n t = "" -> t = "" \/ exists p r, r ∈ runes /\ t = p +:+ r.
Proof.
  revert t. induction n as [|n IH]; intros t; cbn [trim_left]; [by left|]. destruct (strip_one runes t) as [t'|] eqn:E; [|by left].
  apply strip_one_Some in E as (r & Hr & ->). intros H. right. destruct (IH t' H) as [->|(p & r' & Hr' & ->)].
  - exists "", r. split; [done|]. by rewrite append_nil_r.
  - exists (r +:+ p), r'. by rewrite append_assoc.
Qed.

(** What does not begin with space and is not empty is not empty when trimmed. *)
Lemma TrimSpace_nonempty s : strip_one space_runes s = None -> s <> "" -> TrimSpace s <> "".
Proof.
  intros Hs Hne H. unfold TrimSpace in H. rewrite (trim_left_none _ _ _ Hs) in H.
  apply (f_equal String.rev) in H. rewrite rev_involutive in H.
  apply trim_left_empty in H as [H|(p & r & Hr & H)]; apply (f_equal String.rev) in H; rewrite rev_involutive in H; [done|].
  rewrite rev_append in H. apply list_elem_of_fmap in Hr as (r' & -> & Hr'). rewrite rev_involutive in H.
  rewrite strip_one_None in Hs. specialize (Hs r' Hr'). rewrite H in Hs. by rewrite HasPrefix_append in Hs.
Qed.

(** ** Tokens *)

(** A token is not empty, is in the text and does not begin with space. *)
Definition token_ok (text : string) (t : tokenSpan) : Prop :=
  (t.1 < t.2 <= String.length text)%nat /\ space_at (drop_str t.1 text) = None.
Definition before (t t' : tokenSpan) : Prop := (t.2 <= t'.1)%nat.

Lemma drop_app pre s : drop_str (String.length pre) (pre +:+ s) = s.
Proof. apply drop_str_append. Qed.

Lemma scan_tokens_ok text skip cur s pre :
  text = pre +:+ s -> let i := String.length pre in
  (forall st, cur = Some st -> (st < i)%nat /\ space_at (drop_str st text) = None) ->
  let out := scan_tokens skip i cur s in
  Forall (token_ok text) out /\ StronglySorted before out /\ Forall (fun t => (i <= t.1)%nat \/ cur = Some t.1) out.
Proof.
  revert skip cur pre. induction s as [|a s IH]; intros skip cur pre E i Hcur out; subst out.
  - cbn [scan_tokens]. destruct cur as [st|]; cbn [end_token]; [|split_and!; constructor].
    destruct (Hcur st eq_refl) as [H1 H2]. assert (String.length text = i) as Hlen by (rewrite E, append_length; cbn; subst i; lia).
    split; [|split].
    + constructor; [|constructor]. split; [cbn; lia|done].
    + by repeat constructor.
    + constructor; [by right|constructor].
  - assert (text = (pre +:+ String a "") +:+ s) as E' by (by rewrite append_assoc).
    assert (String.length (pre +:+ String a "") = S i) as Hi by (rewrite append_length; cbn; subst i; lia).
    assert (forall k c, (forall st, c = Some st -> (st < S i)%nat /\ space_at (drop_str st text) = None) ->
      let out := scan_tokens k (S i) c s in
      Forall (token_ok text) out /\ StronglySorted before out /\ Forall (fun t => (S i <= t.1)%nat \/ c = Some t.1) out) as Hnext.
    { intros k c Hc. specialize (IH k c _ E'). rewrite Hi in IH. by apply IH. }
    assert (i < String.length text)%nat as Hlen by (rewrite E, append_length; cbn; subst i; lia).
    cbn [scan_tokens]. destruct skip as [|k].
    + destruct (space_at (String a s)) as [n|] eqn:Es.
      * destruct (Hnext (n - 1)%nat None) as (H1 & H2 & H3); [done|].
        assert (Forall (fun t => (S i <= t.1)%nat) (scan_tokens (n - 1) (S i) None s)) as H4
          by (eapply Forall_impl; [exact H3|]; by intros t [?|?]).
        destruct cur as [st|]; cbn [end_token app].
        -- destruct (Hcur st eq_refl) as [Hst Hsp]. split_and!.
           ++ constructor; [|done]. split; [cbn; lia|done].
           ++ constructor; [done|]. eapply Forall_impl; [exact H4|]. intros t Ht. cbn beta in Ht. unfold before. cbn. lia.
           ++ constructor; [by right|]. eapply Forall_impl; [exact H4|]. intros t Ht. cbn beta in Ht. left. lia.
        -- split_and!; [done..|]. eapply Forall_impl; [exact H4|]. intros t Ht. cbn beta in Ht. left. lia.
      * destruct (Hnext 0%nat (Some (default i cur))) as (H1 & H2 & H3).
        { intros st [= <-]. destruct cur as [st|]; cbn; [destruct (Hcur st eq_refl); split; [lia|done]|]. split; [lia|]. rewrite E. unfold i. by rewrite drop_app. }
        split_and!; [done..|]. eapply Forall_impl; [exact H3|]. intros t [Ht|[= Ht]]; [left; lia|].
        destruct cur as [st|]; cbn in Ht; [right; by rewrite Ht|left; lia].
    + destruct (Hnext k cur) as (H1 & H2 & H3); [intros st Hst; destruct (Hcur st Hst); split; [lia|done]|].
      split_and!; [done..|]. eapply Forall_impl; [exact H3|]. intros t [Ht|Ht]; [left; lia|by right].
Qed.

Lemma tokenSpans_ok text : Forall (token_ok text) (tokenSpans text) /\ StronglySorted before (tokenSpans text).
Proof. destruct (scan_tokens_ok text 0 None text "") as (H1 & H2 & _); done. Qed.

Lemma token_at text j t : tokenSpans text !! j = Some t -> token_ok text t.
Proof. destruct (tokenSpans_ok text) as [H _]. rewrite Forall_forall in H. intros Ht. apply H. by eapply list_elem_of_lookup_2. Qed.

Lemma sorted_lookup {A} (P : A -> A -> Prop) l i j x y :
  StronglySorted P l -> l !! i = Some x -> l !! j = Some y -> (i < j)%nat -> P x y.
Proof.
  intros Hs. revert i j. induction Hs as [|a l _ IH Ha]; intros i j Hi Hj Hlt; [done|].
  destruct j as [|j]; [lia|]. destruct i as [|i]; cbn in Hi, Hj; [|apply (IH i j); [done..|lia]].
  injection Hi as ->. rewrite Forall_forall in Ha. apply Ha. by eapply list_elem_of_lookup_2.
Qed.

Lemma tokens_mono text i j t t' :
  tokenSpans text !! i = Some t -> tokenSpans text !! j = Some t' -> (i <= j)%nat -> (t.1 <= t'.1)%nat /\ (t.2 <= t'.2)%nat.
Proof.
  intros Hi Hj Hle. destruct (decide (i = j)) as [->|N]; [by replace t' with t by congruence|].
  destruct (tokenSpans_ok text) as [_ Hs]. pose proof (token_at _ _ _ Hi) as [H1 _]. pose proof (token_at _ _ _ Hj) as [H2 _].
  assert (before t t') as Hb; [|unfold before in Hb; lia].
  eapply sorted_lookup; [exact Hs|exact Hi|exact Hj|lia].
Qed.

(** ** The tokens of a part of the text *)

Definition lead_bytes_apart : bool :=
  forallb (fun r => forallb (fun r' => forallb (fun k => negb (bool_decide (String.get k r = String.get 0 r')))
    (seq 1 (String.length r - 1))) space_runes) space_runes.
Lemma lead_bytes_apart_true : lead_bytes_apart = true.
Proof. vm_compute. reflexivity. Qed.

Definition runes_prefix_free : bool :=
  forallb (fun r => forallb (fun r' => bool_decide (r = r') || negb (HasPrefix r' r)) space_runes) space_runes &&
  forallb (fun r => (1 <=? String.length r)%nat) space_runes.
Lemma runes_prefix_free_true : runes_prefix_free = true.
Proof. vm_compute. reflexivity. Qed.

Lemma rune_lead r r' k : r ∈ space_runes -> r' ∈ space_runes -> (1 <= k < String.length r)%nat ->
  String.get k r <> String.get 0 r'.
Proof.
  intros Hr Hr' Hk E. pose proof lead_bytes_apart_true as H. unfold lead_bytes_apart in H. rewrite forallb_forall in H.
  apply list_elem_of_In in Hr, Hr'. specialize (H r Hr). rewrite forallb_forall in H. specialize (H r' Hr').
  rewrite forallb_forall in H. specialize (H k ltac:(apply in_seq; lia)). boolp. done.
Qed.

Lemma rune_length r : r ∈ space_runes -> (1 <= String.length r)%nat.
Proof.
  intros Hr%list_elem_of_In. pose proof runes_prefix_free_true as H. unfold runes_prefix_free in H.
  apply andb_prop in H as [_ H]. rewrite forallb_forall in H. specialize (H r Hr). by apply Nat.leb_le in H.
Qed.

Lemma rune_unique r r' s s' : r ∈ space_runes -> r' ∈ space_runes -> r +:+ s = r' +:+ s' -> r = r'.
Proof.
  intros Hr%list_elem_of_In Hr'%list_elem_of_In E. pose proof runes_prefix_free_true as H. unfold runes_prefix_free in H.
  apply andb_prop in H as [H _]. rewrite forallb_forall in H. pose proof (H r Hr) as H1. pose proof (H r' Hr') as H2.
  rewrite forallb_forall in H1, H2. specialize (H1 r' Hr'). specialize (H2 r Hr).
  assert (HasPrefix r' r = true \/ HasPrefix r r' = true) as [Hp|Hp].
  { clear -E. revert r' E. induction r as [|c r IH]; intros [|d r'] E; [by left|by left|by right|].
    injection E as <- E. destruct (IH r' E) as [Hp|Hp]; apply HasPrefix_spec in Hp as [t ->]; [left|right]; apply HasPrefix_spec; by exists t. }
  - rewrite Hp in H1. simpl in H1. rewrite orb_false_r in H1. by boolp.
  - rewrite Hp in H2. simpl in H2. rewrite orb_false_r in H2. by boolp.
Qed.

Lemma space_at_Some s n : space_at s = Some n <-> exists r t, r ∈ space_runes /\ s = r +:+ t /\ n = String.length r.
Proof.
  unfold space_at. destruct (filter _ space_runes) as [|r rest] eqn:E.
  - split; [done|]. intros (r & t & Hr & -> & _). exfalso.
    assert (r ∈ filter (fun r' => is_true (HasPrefix (r +:+ t) r')) space_runes) as H
      by (apply list_elem_of_filter; split; [apply HasPrefix_append|done]). rewrite E in H. by apply elem_of_nil in H.
  - assert (r ∈ filter (fun r' => is_true (HasPrefix s r')) space_runes) as H by (rewrite E; left).
    apply list_elem_of_filter in H as [Hp Hr]. apply HasPrefix_spec in Hp as [t ->]. split.
    + intros [= <-]. by exists r, t.
    + intros (r' & t' & Hr' & Heq & ->). by rewrite (rune_unique r r' t t' Hr Hr' Heq).
Qed.

Lemma space_at_lead r t k s n : r ∈ space_runes -> s = r +:+ t -> (1 <= k < String.length r)%nat -> space_at (drop_str k s) <> Some n.
Proof.
  intros Hr -> Hk (r' & t' & Hr' & E & _)%space_at_Some. apply (rune_lead r r' k Hr Hr' Hk). pose proof (rune_length r' Hr') as Hl.
  clear Hr Hr'. revert k Hk E. induction r as [|c r IH]; intros k Hk E; cbn in Hk; [lia|]. destruct k as [|k]; [lia|].
  change (String c r +:+ t) with (String c (r +:+ t)) in E. cbn [drop_str] in E. cbn [String.get]. destruct k as [|k].
  - destruct r as [|d r]; cbn in Hk; [lia|]. destruct r' as [|d' r']; cbn in Hl; [lia|]. cbn in E. by injection E as <- _.
  - apply IH; [lia|done].
Qed.

(** No token that is found from the position on ends before it. *)
Lemma scan_tokens_end skip i cur s t :
  t ∈ scan_tokens skip i cur s -> (i <= t.2)%nat.
Proof.
  revert skip i cur. induction s as [|a s IH]; intros skip i cur; cbn [scan_tokens].
  - destruct cur; cbn; [|by intros ?%elem_of_nil]. intros ->%list_elem_of_singleton. cbn. lia.
  - destruct skip as [|k]; [|intros H%IH; lia]. destruct (space_at _); [|intros H%IH; lia].
    intros [H|H%IH]%elem_of_app; [|lia]. destruct cur; cbn in H; [|by apply elem_of_nil in H].
    apply list_elem_of_singleton in H as ->. cbn. lia.
Qed.

(** Outside of a token, none begins before the space rune is over. *)
Lemma scan_tokens_start skip i s t : t ∈ scan_tokens skip i None s -> (i + skip <= t.1)%nat.
Proof.
  intros Ht. enough (forall cur, t ∈ scan_tokens skip i cur s -> cur = Some t.1 \/ (i + skip <= t.1)%nat) as H
    by (by destruct (H None Ht)). clear Ht.
  revert skip i. induction s as [|a s IH]; intros skip i cur; cbn [scan_tokens].
  - destruct cur; cbn; [|by intros ?%elem_of_nil]. intros ->%list_elem_of_singleton. by left.
  - destruct skip as [|k]; [|intros [H|H]%IH; [by left|right; lia]].
    destruct (space_at _).
    + intros [H|H]%elem_of_app.
      * destruct cur; cbn in H; [|by apply elem_of_nil in H]. apply list_elem_of_singleton in H as ->. by left.
      * apply IH in H as [?|?]; [done|right; lia].
    + intros [H|H]%IH; [|right; lia]. destruct cur; cbn in H; [by left|]. injection H as <-. right. lia.
Qed.

(** The text may be cut where a token ends: what is before the cut has the same
    tokens without what is after it. *)
Lemma scan_tokens_cut mid post skip i cur t :
  t ∈ scan_tokens skip i cur (mid +:+ post) -> t.2 = (i + String.length mid)%nat -> (t.1 < t.2)%nat ->
  exists rest, scan_tokens skip i cur (mid +:+ post) = scan_tokens skip i cur mid ++ rest /\
    Forall (fun t' => (t.2 <= t'.1)%nat) rest /\ t ∈ scan_tokens skip i cur mid.
Proof.
  revert skip i cur. induction mid as [|a mid IH]; intros skip i cur Ht He Hlt.
  - change ("" +:+ post) with post in Ht |- *. cbn [String.length] in He. rewrite Nat.add_0_r in He.
    destruct post as [|b post]; [exists []; by rewrite app_nil_r|].
    assert (forall k c, t ∉ scan_tokens k (S i) c post) as Hno by (intros k c H%scan_tokens_end; lia).
    destruct skip as [|k]; cbn [scan_tokens] in Ht |- *; [|by apply Hno in Ht].
    destruct (space_at _) as [n|]; [|by apply Hno in Ht].
    eexists. split; [done|]. apply elem_of_app in Ht as [Ht|Ht]; [|by apply Hno in Ht].
    split; [|done]. apply Forall_forall. intros t' H'%scan_tokens_start. lia.
  - change (String a mid +:+ post) with (String a (mid +:+ post)) in Ht |- *. cbn [scan_tokens] in Ht |- *. cbn [String.length] in He.
    assert (forall k c, t ∈ scan_tokens k (S i) c (mid +:+ post) -> exists rest,
      scan_tokens k (S i) c (mid +:+ post) = scan_tokens k (S i) c mid ++ rest /\
      Forall (fun t' => (t.2 <= t'.1)%nat) rest /\ t ∈ scan_tokens k (S i) c mid) as Hnext
      by (intros k c Hin; apply IH; [done|lia|done]).
    destruct skip as [|k]; [|by apply Hnext].
    destruct (space_at (String a (mid +:+ post))) as [n|] eqn:Es.
    + apply elem_of_app in Ht as [Ht|Ht].
      { destruct cur; cbn in Ht; [|by apply elem_of_nil in Ht]. apply list_elem_of_singleton in Ht as ->. cbn in He. lia. }
      pose proof (scan_tokens_start _ _ _ _ Ht) as Hs.
      apply space_at_Some in Es as (r & u & Hr & Er & ->).
      assert (space_at (String a mid) = Some (String.length r)) as ->.
      { apply space_at_Some. exists r. change (String a (mid +:+ post)) with (String a mid +:+ post) in Er.
        assert (String.length r <= String.length (String a mid))%nat as Hle by (pose proof (rune_length r Hr); cbn; lia).
        clear -Er Hle Hr. revert r Er Hle Hr. generalize (String a mid) as v. intros v r Er Hle Hr.
        assert (exists w, v = r +:+ w) as [w ->]; [|by exists w].
        clear Hr. revert v Er Hle. induction r as [|c r IHr]; intros v Er Hle; [by exists v|].
        destruct v as [|d v]; cbn in Hle; [lia|]. injection Er as -> Er. destruct (IHr v Er ltac:(lia)) as [w ->]. by exists w. }
      destruct (Hnext _ _ Ht) as (rest & E & Hr' & Hin). exists rest. rewrite E, app_assoc. split_and!; [done..|].
      apply elem_of_app. by right.
    + assert (space_at (String a mid) = None) as ->.
      { destruct (space_at (String a mid)) as [n|] eqn:E; [|done]. apply space_at_Some in E as (r & u & Hr & E & ->).
        assert (space_at (String a (mid +:+ post)) = Some (String.length r)) as E'; [|congruence].
        apply space_at_Some. exists r, (u +:+ post). split_and!; [done| |done].
        change (String a (mid +:+ post)) with (String a mid +:+ post). by rewrite E, append_assoc. }
      by apply Hnext.
Qed.

Lemma scan_tokens_in skip i cur s t : t ∈ scan_tokens skip i cur s -> (i <= t.1)%nat \/ cur = Some t.1.
Proof.
  revert skip i cur. induction s as [|a s IH]; intros skip i cur; cbn [scan_tokens].
  - destruct cur; cbn; [|by intros ?%elem_of_nil]. intros ->%list_elem_of_singleton. by right.
  - destruct skip as [|k]; [|intros [H|H]%IH; [left; lia|by right]].
    destruct (space_at _).
    + intros [H|H%scan_tokens_start]%elem_of_app; [|left; lia].
      destruct cur; cbn in H; [|by apply elem_of_nil in H]. apply list_elem_of_singleton in H as ->. by right.
    + intros [H|H]%IH; [left; lia|]. destruct cur; cbn in H; [by right|]. injection H as <-. by left.
Qed.

Lemma scan_tokens_second skip i cur s j t : scan_tokens skip i cur s !! S j = Some t -> (i <= t.1)%nat.
Proof.
  revert skip i cur. induction s as [|a s IH]; intros skip i cur; cbn [scan_tokens].
  - by destruct cur.
  - destruct skip as [|k]; [|intros H%IH; lia]. destruct (space_at _); [|intros H%IH; lia].
    destruct cur; cbn; intros H%list_elem_of_lookup_2%scan_tokens_start; lia.
Qed.

(** Reading may begin where a token begins. *)
Lemma scan_tokens_from skip i cur s k t :
  (forall st, cur = Some st -> (st < i)%nat) ->
  scan_tokens skip i cur s !! k = Some t -> (i <= t.1)%nat ->
  drop k (scan_tokens skip i cur s) = scan_tokens 0 t.1 None (drop_str (t.1 - i) s).
Proof.
  revert skip i cur k. induction s as [|a s IH]; intros skip i cur k Hcur Hk Hi; cbn [scan_tokens] in Hk |- *.
  - destruct cur as [st|]; [|done]. apply list_elem_of_lookup_2, list_elem_of_singleton in Hk as ->.
    specialize (Hcur st eq_refl). cbn in Hi. lia.
  - assert (forall kk c j, (forall st, c = Some st -> (st < S i)%nat) -> scan_tokens kk (S i) c s !! j = Some t -> (S i <= t.1)%nat ->
      drop j (scan_tokens kk (S i) c s) = scan_tokens 0 t.1 None (drop_str (t.1 - i) (String a s))) as Hnext.
    { intros kk c j Hc Hj Hle. replace (t.1 - i)%nat with (S (t.1 - S i)) by lia. by apply IH. }
    assert (forall kk st, cur = Some st -> t ∈ scan_tokens kk (S i) cur s -> (S i <= t.1)%nat) as Hin.
    { intros kk st -> Ht. destruct (scan_tokens_in kk (S i) (Some st) s t Ht) as [H|[= H]]; [done|].
      specialize (Hcur st eq_refl). lia. }
    destruct skip as [|kk].
    + destruct (space_at (String a s)) as [n|] eqn:Es.
      * destruct cur as [st|]; cbn [end_token app] in Hk |- *.
        -- destruct k as [|k]; [injection Hk as <-; specialize (Hcur st eq_refl); cbn in Hi; lia|]. cbn in Hk |- *.
           apply Hnext; [done|done|]. apply list_elem_of_lookup_2, scan_tokens_start in Hk. lia.
        -- apply Hnext; [done|done|]. apply list_elem_of_lookup_2, scan_tokens_start in Hk. lia.
      * destruct (decide (t.1 = i)) as [E|N].
        -- destruct cur as [st|].
           { pose proof (Hin 0%nat st eq_refl (list_elem_of_lookup_2 _ _ _ Hk)). lia. }
           cbn [default] in Hk |- *. assert (k = 0)%nat as ->.
           { destruct k as [|k]; [done|]. apply scan_tokens_second in Hk. lia. }
           rewrite E, Nat.sub_diag. cbn [drop_str scan_tokens drop]. by rewrite Es.
        -- apply Hnext; [|done|lia]. intros st [= <-]. destruct cur as [st'|]; cbn; [specialize (Hcur st' eq_refl)|]; lia.
    + apply Hnext; [intros st Hst; specialize (Hcur st Hst); lia|done|].
      destruct cur as [st|]; [by eapply Hin, list_elem_of_lookup_2|]. apply list_elem_of_lookup_2, scan_tokens_start in Hk. lia.
Qed.

Lemma scan_tokens_shift o skip i cur s :
  scan_tokens skip (o + i) (Nat.add o <$> cur) s = map (fun t : tokenSpan => (o + t.1, o + t.2)%nat) (scan_tokens skip i cur s).
Proof.
  revert skip i cur. induction s as [|a s IH]; intros skip i cur; cbn [scan_tokens].
  - by destruct cur.
  - replace (S (o + i)) with (o + S i)%nat by lia. destruct skip as [|k]; [|apply IH].
    destruct (space_at _).
    + rewrite map_app. f_equal; [by destruct cur|]. apply (IH _ _ None).
    + rewrite <- IH. by destruct cur.
Qed.

(** A text that ends with space has no token at its end. *)
Lemma scan_tokens_space_end q r skip i cur t :
  r ∈ space_runes -> (skip <= String.length q)%nat ->
  t ∈ scan_tokens skip i cur (q +:+ r) -> (t.1 < t.2)%nat -> t.2 <> (i + String.length (q +:+ r))%nat.
Proof.
  intros Hr. revert skip i cur. induction q as [|a q IH]; intros skip i cur Hs Ht Hlt; cbn in Hs.
  - replace skip with 0%nat in Ht by lia. pose proof (rune_length r Hr) as Hl.
    assert (space_at r = Some (String.length r)) as Es
      by (apply space_at_Some; exists r, ""; by rewrite append_nil_r).
    destruct r as [|b r]; cbn in Hl; [lia|]. change ("" +:+ String b r) with (String b r) in Ht |- *. cbn [scan_tokens] in Ht. rewrite Es in Ht.
    assert (forall k j s, (String.length s <= k)%nat -> scan_tokens k j None s = []) as Hnil.
    { intros k j s. revert k j. induction s as [|c s IHs]; intros [|k] j Hle; cbn in Hle; [done|done|lia|]. apply IHs. lia. }
    rewrite Hnil, app_nil_r in Ht by (cbn; lia). destruct cur; cbn in Ht; [|by apply elem_of_nil in Ht].
    apply list_elem_of_singleton in Ht as ->. cbn. lia.
  - change (String a q +:+ r) with (String a (q +:+ r)) in Ht |- *. cbn [scan_tokens] in Ht. cbn [String.length].
    assert (forall k c, (k <= String.length q)%nat -> t ∈ scan_tokens k (S i) c (q +:+ r) -> t.2 <> (i + S (String.length (q +:+ r)))%nat) as Hnext
      by (intros k c Hk Hin; pose proof (IH k (S i) c Hk Hin Hlt); lia).
    destruct skip as [|k]; [|apply (Hnext k cur); [lia|done]].
    destruct (space_at _) as [n|] eqn:Es; [|by eapply (Hnext 0%nat); [lia|]].
    apply elem_of_app in Ht as [Ht|Ht].
    { destruct cur; cbn in Ht; [|by apply elem_of_nil in Ht]. apply list_elem_of_singleton in Ht as ->. cbn. lia. }
    eapply Hnext; [|exact Ht]. apply space_at_Some in Es as (r' & u & Hr' & E & ->).
    destruct (decide (String.length r' <= S (String.length q))%nat) as [|Hgt]; [lia|exfalso].
    assert (space_at (drop_str (S (String.length q)) (String a (q +:+ r))) = Some (String.length r)) as Es.
    { cbn [drop_str]. rewrite drop_str_append. apply space_at_Some. exists r, "". by rewrite append_nil_r. }
    by apply (space_at_lead r' u (S (String.length q)) _ _ Hr' E ltac:(lia)) in Es.
Qed.

Lemma TrimSpace_id s :
  strip_one space_runes s = None -> (forall r q, r ∈ space_runes -> s <> q +:+ r) -> TrimSpace s = s.
Proof.
  intros Hb He. unfold TrimSpace. rewrite (trim_left_none _ _ _ Hb), trim_left_none; [apply rev_involutive|].
  destruct (strip_one _ (String.rev s)) as [s'|] eqn:E; [|done]. exfalso. apply strip_one_Some in E as (r & Hr & E).
  apply list_elem_of_fmap in Hr as (r' & -> & Hr'). apply (f_equal String.rev) in E.
  rewrite rev_involutive, rev_append, rev_involutive in E. by apply (He r' (String.rev s') Hr').
Qed.

(** What is between the start of a token and the end of a token at or after it is
    not changed by trimming and has as many tokens as are counted. *)
Lemma window_tokens part i j first last :
  tokenSpans part !! i = Some first -> tokenSpans part !! j = Some last -> (i <= j)%nat ->
  let c := slice part first.1 last.2 in TrimSpace c = c /\ length (tokenSpans c) = (j - i + 1)%nat.
Proof.
  intros Hi Hj Hle c. destruct (token_at _ _ _ Hi) as [H1 Hs1]. destruct (token_at _ _ _ Hj) as [H2 _].
  destruct (tokens_mono _ _ _ _ _ Hi Hj Hle) as [H3 H4].
  assert (String.length c = last.2 - first.1)%nat as Hlen by (apply slice_length; lia).
  destruct (drop_slice part first.1 last.2) as [post Hpost]. fold c in Hpost.
  pose proof (scan_tokens_from 0 0 None part i first ltac:(done) Hi ltac:(lia)) as Hfrom.
  rewrite Nat.sub_0_r, Hpost in Hfrom. fold (tokenSpans part) in Hfrom.
  assert (drop i (tokenSpans part) !! (j - i)%nat = Some last) as Hl
    by (rewrite lookup_drop; by replace (i + (j - i))%nat with j by lia).
  pose proof (list_elem_of_lookup_2 _ _ _ Hl) as Hin. rewrite Hfrom in Hin, Hl.
  destruct (scan_tokens_cut c post 0 first.1 None last Hin ltac:(lia) ltac:(lia)) as (rest & E & Hrest & Hc).
  assert (scan_tokens 0 first.1 None c = map (fun t : tokenSpan => (first.1 + t.1, first.1 + t.2)%nat) (tokenSpans c)) as Hsh
    by (pose proof (scan_tokens_shift first.1 0 0 None c) as H; rewrite Nat.add_0_r in H; exact H).
  split.
  - apply TrimSpace_id.
    + apply space_at_strip in Hs1. rewrite Hpost in Hs1. by eapply strip_one_prefix.
    + intros r q Hr Eq. rewrite Eq in Hc. eapply (scan_tokens_space_end q r 0); [exact Hr|lia|exact Hc|lia|]. rewrite <- Eq. lia.
  - rewrite E in Hl. assert (length (scan_tokens 0 first.1 None c) = length (tokenSpans c)) as Hcount by (by rewrite Hsh, length_map).
    assert (j - i < length (tokenSpans c))%nat as Hup.
    { rewrite <- Hcount. apply Nat.nle_gt. intros Hge. rewrite lookup_app_r in Hl by done.
      rewrite Forall_forall in Hrest. apply list_elem_of_lookup_2, Hrest in Hl. lia. }
    enough (~ (S (j - i) < length (tokenSpans c)))%nat by lia. intros Hmore.
    destruct (lookup_lt_is_Some_2 (tokenSpans c) (S (j - i)) Hmore) as [t' Ht'].
    destruct (token_at _ _ _ Ht') as [Hb _].
    assert (tokenSpans part !! S j = Some (first.1 + t'.1, first.1 + t'.2)%nat) as Hpart.
    { replace (S j) with (i + S (j - i))%nat by lia. rewrite <- lookup_drop, Hfrom, E, lookup_app_l by (rewrite Hcount; lia).
      rewrite Hsh, list_lookup_fmap, Ht'. done. }
    destruct (tokenSpans_ok part) as [_ Hsort].
    pose proof (sorted_lookup _ _ _ _ _ _ Hsort Hj Hpart ltac:(lia)) as Hbef. unfold before in Hbef. cbn in Hbef. lia.
Qed.

(** ** Windows *)

Section Windows.
Context (text strategy : string) (size step : nat) (Hsize : (1 <= size)%nat) (Hstep : (1 <= step <= size)%nat).
Notation toks := (tokenSpans text).

(** The chunk of the window of tokens from [startTok] on. *)
Definition window_of (startTok index : nat) (c : Chunk) : Prop :=
  exists first last, let endTok := Nat.min (length toks) (startTok + size) in
    toks !! startTok = Some first /\ toks !! (endTok - 1)%nat = Some last /\
    cmCharStart (ckMetadata c) = first.1 /\ cmCharEnd (ckMetadata c) = last.2 /\
    ckContent c = TrimSpace (slice text first.1 last.2) /\ ckContent c <> "" /\
    ckTokenCount c = (endTok - startTok)%nat /\ cmChunkIndex (ckMetadata c) = index /\ cmStrategy (ckMetadata c) = strategy.

Lemma slice_content i j first last :
  toks !! i = Some first -> toks !! j = Some last -> (i <= j)%nat -> TrimSpace (slice text first.1 last.2) <> "".
Proof.
  intros Hi Hj Hle. destruct (token_at _ _ _ Hi) as [H1 Hs]. destruct (token_at _ _ _ Hj) as [H2 _].
  destruct (tokens_mono _ _ _ _ _ Hi Hj Hle) as [H3 H4]. apply TrimSpace_nonempty.
  - apply space_at_strip in Hs. destruct (drop_slice text first.1 last.2) as [t Ht]. rewrite Ht in Hs. by eapply strip_one_prefix.
  - intros E. apply (f_equal String.length) in E. rewrite slice_length in E by lia. cbn in E. lia.
Qed.

Lemma window_chunk_Some startTok index :
  (startTok < length toks)%nat ->
  exists c, window_chunk text strategy toks startTok (Nat.min (length toks) (startTok + size)) index = Some c /\ window_of startTok index c.
Proof.
  intros Hlt. set (endTok := Nat.min (length toks) (startTok + size)).
  destruct (lookup_lt_is_Some_2 toks startTok Hlt) as [first Hf]. assert (endTok - 1 < length toks)%nat as He by (unfold endTok; lia).
  destruct (lookup_lt_is_Some_2 toks (endTok - 1) He) as [last Hl].
  pose proof (slice_content _ _ _ _ Hf Hl ltac:(unfold endTok; lia)) as Hc.
  eexists. split.
  - unfold window_chunk. eapply bind_Some. exists first. split; [exact Hf|]. eapply bind_Some. exists last. split; [exact Hl|].
    cbv zeta. rewrite decide_False by done. reflexivity.
  - exists first, last. cbn. fold endTok. by split_and!.
Qed.

(** The loop does what it says: one chunk for each window, until one holds the last
    token; as many rounds as there are tokens are enough. *)
Lemma windows_spec fuel startTok index :
  (length toks - startTok <= fuel)%nat ->
  let l := windows fuel text strategy toks size step startTok index in
  (forall i c, l !! i = Some c -> window_of (startTok + i * step) (index + i) c) /\
  (forall j t, (startTok <= j)%nat -> toks !! j = Some t -> exists i c, l !! i = Some c /\
    (startTok + i * step <= j < startTok + i * step + size)%nat).
Proof.
  revert startTok index. induction fuel as [|fuel IH]; intros startTok index Hf l; subst l.
  { split; [done|]. intros j t Hj Ht. apply lookup_lt_Some in Ht. lia. }
  cbn [windows]. destruct (decide (startTok < length toks)%nat) as [Hlt|Hge].
  2: { split; [done|]. intros j t Hj Ht. apply lookup_lt_Some in Ht. lia. }
  destruct (window_chunk_Some startTok index Hlt) as (c & -> & Hc).
  destruct (IH (startTok + step)%nat (S index) ltac:(lia)) as [IH1 IH2]. split.
  - intros [|i] c' H; cbn in H; [injection H as <-; by rewrite !Nat.add_0_r|].
    destruct (decide _); [done|]. specialize (IH1 i c' H).
    by replace (startTok + S i * step)%nat with (startTok + step + i * step)%nat by lia; replace (index + S i)%nat with (S index + i)%nat by lia.
  - intros j t Hj Ht. destruct (decide (j < startTok + size)%nat) as [Hin|Hout]; [exists 0%nat, c; split; [done|lia]|].
    pose proof (lookup_lt_Some _ _ _ Ht) as Hlen. rewrite decide_False by lia.
    destruct (IH2 j t ltac:(lia) Ht) as (i & c' & Hi & Hb). exists (S i), c'. split; [done|lia].
Qed.
End Windows.

(** What is known of the chunks of windows: the order, the size, the place and that
    every token of the text is in one. *)
Record windowed (text strategy : string) (size overlap : nat) (l : list Chunk) : Prop := mkWindowed {
  wd_windows : forall i c, l !! i = Some c -> window_of text strategy size (i * (size - overlap)) i c;
  wd_tokens : forall c, c ∈ l -> (1 <= ckTokenCount c <= size)%nat;
  wd_place : forall c, c ∈ l ->
    (cmCharStart (ckMetadata c) < cmCharEnd (ckMetadata c) <= String.length text)%nat;
  wd_cover : forall t, t ∈ tokenSpans text ->
    exists c, c ∈ l /\ (cmCharStart (ckMetadata c) <= t.1)%nat /\ (t.2 <= cmCharEnd (ckMetadata c))%nat
}.

Lemma splitByTokenWindows_windowed text size overlap strategy :
  (overlap < size)%nat -> windowed text strategy size overlap (splitByTokenWindows text size overlap strategy).
Proof.
  intros Ho. unfold splitByTokenWindows. replace (Nat.max 1 (size - overlap)) with (size - overlap)%nat by lia.
  destruct (windows_spec text strategy size (size - overlap) ltac:(lia) ltac:(lia) (length (tokenSpans text)) 0 0 ltac:(lia)) as [H1 H2].
  cbv zeta in H1, H2. set (l := windows _ _ _ _ _ _ _ _) in *.
  assert (forall c, c ∈ l -> exists k i, window_of text strategy size k i c) as Hw.
  { intros c [i Hi]%list_elem_of_lookup. exists (0 + i * (size - overlap))%nat, (0 + i)%nat. by apply H1. }
  split.
  - intros i c Hi. apply (H1 i c Hi).
  - intros c Hc. destruct (Hw c Hc) as (k & i & first & last & Hf & Hl & _ & _ & _ & _ & -> & _). apply lookup_lt_Some in Hf, Hl. lia.
  - intros c Hc. destruct (Hw c Hc) as (k & i & first & last & Hf & Hl & -> & -> & _). 
    destruct (token_at _ _ _ Hf) as [Ha _]. destruct (token_at _ _ _ Hl) as [Hb _].
    pose proof (lookup_lt_Some _ _ _ Hf). destruct (tokens_mono _ _ _ _ _ Hf Hl) as [_ Hm]; lia.
  - intros t [j Hj]%list_elem_of_lookup. destruct (H2 j t ltac:(lia) Hj) as (i & c & Hi & Hb). exists c.
    destruct (H1 i c Hi) as (first & last & Hf & Hl & -> & -> & _). split; [by eapply list_elem_of_lookup_2|].
    pose proof (lookup_lt_Some _ _ _ Hj). destruct (tokens_mono _ _ _ _ _ Hf Hj) as [Ha _]; [lia|].
    destruct (tokens_mono _ _ _ _ _ Hj Hl) as [_ Hc]; [lia|]. done.
Qed.

(** ** All strategies *)

Lemma rev_length s : String.length (String.rev s) = String.length s.
Proof. induction s as [|a s IH]; [done|]. rewrite rev_cons, append_length, IH. cbn. lia. Qed.
Lemma trim_left_length runes n s : (String.length (trim_left runes n s) <= String.length s)%nat.
Proof. destruct (trim_left_strips runes n s) as [p Hp]. rewrite Hp at 2. rewrite append_length. lia. Qed.
Lemma TrimSpace_length s : (String.length (TrimSpace s) <= String.length s)%nat.
Proof.
  unfold TrimSpace. rewrite rev_length. etrans; [apply trim_left_length|]. rewrite rev_length. apply trim_left_length.
Qed.

Lemma slice_bound text a b : (a <= String.length text)%nat -> (a + String.length (slice text a b) <= String.length text)%nat.
Proof.
  unfold slice. generalize (b - a)%nat as n. clear b. revert a. induction text as [|c text IH]; intros a n H; cbn in H.
  - destruct a, n; cbn in *; lia.
  - destruct a as [|a]; cbn [String.substring].
    + destruct n as [|n]; [cbn; lia|]. specialize (IH 0%nat n ltac:(lia)). cbn in *. lia.
    + specialize (IH a n ltac:(lia)). cbn. lia.
Qed.

(** The part stands in the text, byte for byte, at the offset it is given. *)
Definition in_place (text : string) (o : nat) (part : string) : Prop := slice text o (o + String.length part) = part.

(** Chunk number [i], of a window of the tokens of the part that is given the offset
    [o]: as many tokens as it says, at most the size, its place the window's moved by
    the offset, and its content what the text has there, trimmed. When the part stands
    at the offset, the content has exactly the tokens the chunk says. *)
Record chunk_ok (text : string) (size i o : nat) (part : string) (c : Chunk) : Prop := mkChunkOk {
  co_index : cmChunkIndex (ckMetadata c) = i;
  co_size : (1 <= ckTokenCount c <= size)%nat;
  co_window : exists k first last,
    tokenSpans part !! k = Some first /\ tokenSpans part !! (k + ckTokenCount c - 1)%nat = Some last /\
    cmCharStart (ckMetadata c) = (o + first.1)%nat /\ cmCharEnd (ckMetadata c) = (o + last.2)%nat;
  co_place : (cmCharStart (ckMetadata c) < cmCharEnd (ckMetadata c) <= String.length text)%nat;
  co_content : ckContent c = TrimSpace (slice text (cmCharStart (ckMetadata c)) (cmCharEnd (ckMetadata c)));
  co_tokens : in_place text o part -> length (tokenSpans (ckContent c)) = ckTokenCount c
}.
Definition chunks_ok (text : string) (size : nat) (P : nat -> string -> Prop) (l : list Chunk) : Prop :=
  forall i c, l !! i = Some c -> exists o part, P o part /\ chunk_ok text size i o part c.

Lemma substring_app u t n : (n <= String.length u)%nat -> String.substring 0 n (u +:+ t) = String.substring 0 n u.
Proof.
  revert n. induction u as [|a u IH]; intros n Hn; cbn in Hn.
  - replace n with 0%nat by lia. by destruct t.
  - destruct n as [|n]; [done|]. change (String a u +:+ t) with (String a (u +:+ t)). cbn. f_equal. apply IH. lia.
Qed.
Lemma slice_drop text a b : slice text a b = String.substring 0 (b - a) (drop_str a text).
Proof.
  unfold slice. generalize (b - a)%nat as n. clear b. revert a. induction text as [|c text IH]; intros [|a] n; try done.
  - by destruct n.
  - apply IH.
Qed.
Lemma drop_str_app a u t : (a <= String.length u)%nat -> drop_str a (u +:+ t) = drop_str a u +:+ t.
Proof.
  revert a. induction u as [|c u IH]; intros [|a] Ha; cbn in Ha; [done|lia|done|].
  change (String c u +:+ t) with (String c (u +:+ t)). cbn [drop_str]. apply IH. lia.
Qed.
Lemma drop_str_drop a b s : drop_str (a + b) s = drop_str b (drop_str a s).
Proof. revert a. induction s as [|c s IH]; intros [|a]; cbn; [done|by destruct b|done|apply IH]. Qed.
Lemma dropped_length a s : (a <= String.length s)%nat -> String.length (drop_str a s) = (String.length s - a)%nat.
Proof. revert a. induction s as [|c s IH]; intros [|a] Ha; cbn in Ha |- *; [done|lia|done|]. apply IH. lia. Qed.

(** What stands in a part that stands in the text. *)
Lemma slice_in_place text o part a b :
  in_place text o part -> (a <= b)%nat -> (b <= String.length part)%nat -> slice text (o + a) (o + b) = slice part a b.
Proof.
  intros H Ha Hb. destruct (drop_slice text o (o + String.length part)) as [t Ht]. unfold in_place in H. rewrite H in Ht.
  rewrite !slice_drop, drop_str_drop, Ht, drop_str_app by lia. replace (o + b - (o + a))%nat with (b - a)%nat by lia.
  apply substring_app. rewrite dropped_length; lia.
Qed.

Lemma in_place_whole text : in_place text 0 text.
Proof.
  unfold in_place, slice. rewrite Nat.sub_0_r, Nat.add_0_l.
  induction text as [|a text IH]; [done|]. cbn. by f_equal.
Qed.

(** A window of the part's tokens makes a good chunk. *)
Lemma window_chunk_ok text size i o part n k first last m :
  (o + String.length part <= String.length text)%nat ->
  tokenSpans part !! k = Some first -> tokenSpans part !! (k + n - 1)%nat = Some last -> (1 <= n <= size)%nat ->
  cmCharStart m = (o + first.1)%nat -> cmCharEnd m = (o + last.2)%nat -> cmChunkIndex m = i ->
  chunk_ok text size i o part (mkChunk (TrimSpace (slice text (o + first.1) (o + last.2))) n m).
Proof.
  intros Ho Hf Hl Hn Es Ee Ei. destruct (token_at _ _ _ Hf) as [H1 _]. destruct (token_at _ _ _ Hl) as [H2 _].
  destruct (tokens_mono _ _ _ _ _ Hf Hl) as [_ Hm]; [lia|]. split; cbn [ckTokenCount ckMetadata ckContent].
  - done.
  - done.
  - by exists k, first, last.
  - rewrite Es, Ee. lia.
  - by rewrite Es, Ee.
  - intros Hp. rewrite (slice_in_place _ _ _ _ _ Hp) by lia.
    destruct (window_tokens _ _ _ _ _ Hf Hl ltac:(lia)) as [E1 E2]. cbv zeta in E1, E2. rewrite E1, E2. lia.
Qed.

Lemma chunks_ok_nil text size P : chunks_ok text size P [].
Proof. intros i c H. by rewrite lookup_nil in H. Qed.
Lemma chunks_ok_app text size P l l' :
  chunks_ok text size P l ->
  (forall i c, l' !! i = Some c -> exists o part, P o part /\ chunk_ok text size (length l + i) o part c) ->
  chunks_ok text size P (l ++ l').
Proof.
  intros H H' i c [Hi|[Hle Hi]]%lookup_app_Some; [by apply H|]. specialize (H' _ _ Hi).
  by replace (length l + (i - length l))%nat with i in H' by lia.
Qed.

Lemma window_chunks_ok text size overlap strategy (P : nat -> string -> Prop) :
  (overlap < size)%nat -> P 0%nat text -> chunks_ok text size P (splitByTokenWindows text size overlap strategy).
Proof.
  intros Ho HP i c Hi. destruct (splitByTokenWindows_windowed text size overlap strategy Ho) as [H1 _ _ _].
  destruct (H1 i c Hi) as (f & z & Hf & Hl & Es & Ee & Ec & _ & Et & Ei & _). exists 0%nat, text. split; [done|].
  pose proof (lookup_lt_Some _ _ _ Hf). destruct c as [content n m]. cbn in *. subst content.
  eapply (window_chunk_ok text size i 0 text n _ f z m); [lia|exact Hf| |lia|done|done|done].
  rewrite Et. by replace (i * (size - overlap) + (_ - _) - 1)%nat
    with (Nat.min (length (tokenSpans text)) (i * (size - overlap) + size) - 1)%nat by lia.
Qed.

(** Chunks of a part, seen in the whole text. *)
Lemma shift_ok text offset base section part size overlap strategy (P : nat -> string -> Prop) :
  (overlap < size)%nat -> (offset + String.length part <= String.length text)%nat -> P offset part ->
  forall i c, shift_all text offset base section (splitByTokenWindows part size overlap strategy) !! i = Some c ->
    exists o part', P o part' /\ chunk_ok text size (base + i) o part' c.
Proof.
  intros Ho Hp HP i c H. unfold shift_all in H. rewrite list_lookup_imap in H.
  destruct (splitByTokenWindows part size overlap strategy !! i) as [c'|] eqn:E; [|done]. injection H as <-.
  destruct (window_chunks_ok part size overlap strategy (fun o p => o = 0%nat /\ p = part) Ho (conj eq_refl eq_refl) i c' E)
    as (o & p & [-> ->] & [_ Hn (k & f & z & Hf & Hl & Es & Ee) _ _ _]).
  exists offset, part. split; [done|]. unfold shifted.
  replace (cmCharStart (ckMetadata c') + offset)%nat with (offset + f.1)%nat by lia.
  replace (cmCharEnd (ckMetadata c') + offset)%nat with (offset + z.2)%nat by lia.
  by apply (window_chunk_ok text size _ offset part _ k f z).
Qed.

Lemma paragraph_fits text p : (p.1 <= String.length text)%nat -> (p.1 + String.length (TrimSpace (slice text p.1 p.2)) <= String.length text)%nat.
Proof. intros H. pose proof (slice_bound text p.1 p.2 H). pose proof (TrimSpace_length (slice text p.1 p.2)). lia. Qed.

(** The part a span stands for: what is there, trimmed, at the offset of the span. *)
Definition span_part (text : string) (spans : list tokenSpan) (o : nat) (part : string) : Prop :=
  exists p, p ∈ spans /\ o = p.1 /\ part = TrimSpace (slice text p.1 p.2).

Lemma paragraph_chunks_ok text size overlap out (p : tokenSpan) (P : nat -> string -> Prop) :
  (overlap < size)%nat -> (p.1 <= String.length text)%nat -> P p.1 (TrimSpace (slice text p.1 p.2)) ->
  chunks_ok text size P out -> chunks_ok text size P (paragraph_chunks text size overlap out p).
Proof.
  intros Ho Hp HP Hout. unfold paragraph_chunks. destruct (decide _) as [|Hne]; [done|].
  pose proof (paragraph_fits text p Hp) as Hfit. set (part := TrimSpace (slice text p.1 p.2)) in *.
  destruct (decide (length (tokenSpans part) <= size)%nat) as [Hle|Hgt].
  - destruct (head (tokenSpans part)) as [a|] eqn:Ea; [|done]. destruct (last (tokenSpans part)) as [z|] eqn:Ez; [|done].
    rewrite head_lookup in Ea. rewrite last_lookup in Ez. apply chunks_ok_app; [done|].
    intros [|i] c H; [|done]. injection H as <-. pose proof (lookup_lt_Some _ _ _ Ea). exists p.1, part. split; [done|].
    apply (window_chunk_ok text size _ p.1 part _ 0 a z); [done|done| |lia|done|done|cbn; lia].
    rewrite Nat.add_0_l. rewrite <- Ez. f_equal. lia.
  - apply chunks_ok_app; [done|]. by apply shift_ok.
Qed.

Lemma section_chunks_ok text size overlap out (sec : tokenSpan) (P : nat -> string -> Prop) :
  (overlap < size)%nat -> (sec.1 <= String.length text)%nat -> P sec.1 (TrimSpace (slice text sec.1 sec.2)) ->
  chunks_ok text size P out -> chunks_ok text size P (section_chunks text size overlap out sec).
Proof.
  intros Ho Hp HP Hout. unfold section_chunks. destruct (decide _) as [|Hne]; [done|].
  apply chunks_ok_app; [done|]. apply shift_ok; [done|by apply paragraph_fits|done].
Qed.

Lemma foldl_ok {A} (f : list Chunk -> A -> list Chunk) text size P l out (Q : A -> Prop) :
  (forall out a, Q a -> chunks_ok text size P out -> chunks_ok text size P (f out a)) -> Forall Q l ->
  chunks_ok text size P out -> chunks_ok text size P (foldl f out l).
Proof. intros Hf Hl. revert out. induction Hl as [|a l Ha _ IH]; intros out Hout; [done|]. cbn. apply IH. by apply Hf. Qed.

(** Paragraphs and headings begin in the text. *)
Lemma split_blank_length s : foldr (fun p n => String.length p + 2 + n)%nat 0%nat (split_blank s) = (String.length s + 2)%nat.
Proof.
  assert (forall a l, l <> [] -> foldr (fun p n => String.length p + 2 + n)%nat 0%nat (cons_char a l)
            = S (foldr (fun p n => String.length p + 2 + n)%nat 0%nat l)) as Hc by (intros a [|w ws]; done).
  assert (forall s, split_blank s <> []) as Hne.
  { intros [|a [|b u]]; [done..|]. cbn [split_blank]. destruct (decide _); [done|]. by destruct (cons_char _ _) eqn:E; [|done]; unfold cons_char in E; case_match. }
  remember (String.length s) as n eqn:Hn. revert s Hn. induction (lt_wf n) as [n _ IH]. intros s ->.
  destruct s as [|a [|b u]]; [done..|]. cbn [split_blank]. destruct (decide _) as [|N].
  - cbn [foldr String.length]. rewrite (IH (String.length u)) by (cbn; lia || done). cbn. lia.
  - change (foldr (fun p n => String.length p + 2 + n)%nat 0%nat (cons_char a (split_blank (String b u))) = (String.length (String a (String b u)) + 2)%nat).
    rewrite Hc by apply Hne. rewrite (IH (String.length (String b u))) by (cbn; lia || done). cbn. lia.
Qed.

Lemma paragraphs_from_le offset parts :
  Forall (fun p : tokenSpan => (p.1 <= offset + foldr (fun p n => String.length p + 2 + n) 0 parts - 2)%nat) (paragraphs_from offset parts).
Proof.
  revert offset. induction parts as [|p parts IH]; intros offset; [constructor|]. cbn [paragraphs_from foldr]. cbv zeta. apply Forall_app. split.
  - destruct (decide _); constructor; [cbn; lia|constructor].
  - eapply Forall_impl; [apply IH|]. intros q Hq. cbn beta in *.
    lia.
Qed.

Lemma paragraphSpans_in text : Forall (fun p : tokenSpan => (p.1 <= String.length text)%nat) (paragraphSpans text).
Proof.
  unfold paragraphSpans. eapply Forall_impl; [apply paragraphs_from_le|]. intros p Hp. cbn beta in Hp. rewrite split_blank_length in Hp. lia.
Qed.

Lemma scan_headings_in skip i bol s : Forall (fun h : tokenSpan => (h.1 <= i + String.length s)%nat) (scan_headings skip i bol s).
Proof.
  revert skip i bol. induction s as [|a s IH]; intros skip i bol; [constructor|]. cbn [scan_headings].
  assert (forall k b, Forall (fun h : tokenSpan => (h.1 <= i + String.length (String a s))%nat) (scan_headings k (S i) b s)) as H.
  { intros k b. eapply Forall_impl; [apply IH|]. intros h Hh. cbn beta in Hh. cbn. lia. }
  destruct skip as [|k]; [|apply H]. destruct (if bol then heading_length (String a s) else None) as [n|]; [|apply H].
  constructor; [cbn; lia|apply H].
Qed.

Lemma sections_in headings len (text : string) :
  Forall (fun h : tokenSpan => (h.1 <= String.length text)%nat) headings ->
  Forall (fun h : tokenSpan => (h.1 <= String.length text)%nat) (sections_of headings len).
Proof. induction 1 as [|h hs Hh _ IH]; [constructor|]. cbn [sections_of]. by constructor. Qed.

(** The parts of the text the chunks of a strategy are windows of: the whole text; the
    paragraphs, or the whole text when it has none; the sections from heading to
    heading, or, without a heading, what [recursive] has. *)
Definition recursive_part (text : string) (o : nat) (part : string) : Prop :=
  (paragraphSpans text = [] /\ o = 0%nat /\ part = text) \/ span_part text (paragraphSpans text) o part.
Definition part_of (strategy text : string) (o : nat) (part : string) : Prop :=
  if decide (strategy = "recursive") then recursive_part text o part
  else if decide (strategy = "semantic") then
    span_part text (sections_of (headingSpans text) (String.length text)) o part \/ recursive_part text o part
  else o = 0%nat /\ part = text.

Lemma splitRecursive_ok text size overlap :
  (overlap < size)%nat -> chunks_ok text size (recursive_part text) (splitRecursive text size overlap).
Proof.
  intros Ho. unfold splitRecursive. destruct (decide _); [apply window_chunks_ok; [done|by left]|].
  eapply (foldl_ok _ _ _ _ _ _ (fun p => p ∈ paragraphSpans text /\ (p.1 <= String.length text)%nat)); [| |apply chunks_ok_nil].
  - intros out p [Hin Hp] Hout. apply paragraph_chunks_ok; [done|done|right; by exists p|done].
  - apply Forall_and. split; [by apply Forall_forall|apply paragraphSpans_in].
Qed.
Lemma splitSemantic_ok text size overlap :
  (overlap < size)%nat ->
  chunks_ok text size (span_part text (sections_of (headingSpans text) (String.length text))) (splitSemantic text size overlap).
Proof.
  intros Ho. unfold splitSemantic.
  eapply (foldl_ok _ _ _ _ _ _ (fun p => p ∈ sections_of (headingSpans text) (String.length text) /\ (p.1 <= String.length text)%nat));
    [| |apply chunks_ok_nil].
  - intros out p [Hin Hp] Hout. apply section_chunks_ok; [done|done|by exists p|done].
  - apply Forall_and. split; [by apply Forall_forall|apply sections_in, (scan_headings_in 0 0)].
Qed.
Lemma relabel_ok text size strategy P Q l :
  (forall o part, P o part -> Q o part) -> chunks_ok text size P l -> chunks_ok text size Q (relabel strategy l).
Proof.
  intros HPQ H i c Hi. unfold relabel in Hi. rewrite list_lookup_imap in Hi. destruct (l !! i) as [c'|] eqn:E; [|done]. injection Hi as <-.
  destruct (H i c' E) as (o & part & HP & [H1 H2 H3 H4 H5 H6]). exists o, part. split; [by apply HPQ|]. by split.
Qed.

Lemma chunk_bounds opts : (Z.to_nat (chunk_overlap opts) < Z.to_nat (chunk_size opts))%nat.
Proof.
  unfold chunk_overlap. assert (0 < chunk_size opts)%Z as H by (unfold chunk_size; destruct (Z.leb_spec (soChunkSize opts) 0); lia).
  destruct (Z.leb_spec (chunk_size opts) (Z.max 0 (soChunkOverlap opts))); lia.
Qed.

(** The strategy that is asked for. *)
Definition strategy_of (opts : SplitOpts) : string :=
  let s := TrimSpace (ToLower (soStrategy opts)) in if decide (s = "") then "recursive" else s.

(** C38. Whatever the options, a text that is not blank is split into chunks that are
    numbered from zero, each of a window of the tokens of one part of the text (the
    text, a paragraph, a section): at most as many tokens as the size of a chunk, at
    the window's place moved by the part's offset, with the trimmed text of that
    place as its content. The content has exactly the tokens the chunk says when the
    part stands at its offset, which the whole text does, and a paragraph that does not
    begin with white space. An error is an unknown strategy. The windows of [fixed] and
    [sliding] begin every size less overlap tokens, and every token of the text is in
    one of them. *)
Theorem SplitText_correct text opts :
  TrimSpace text <> "" ->
  let size := Z.to_nat (chunk_size opts) in
  let overlap := Z.to_nat (chunk_overlap opts) in
  match SplitText text opts with
  | Ok chunks =>
      chunks_ok text size (part_of (strategy_of opts) text) chunks /\
      (strategy_of opts = "fixed" \/ strategy_of opts = "sliding" ->
         windowed text (strategy_of opts) size overlap chunks /\
         Forall (fun c => length (tokenSpans (ckContent c)) = ckTokenCount c) chunks)
  | Err _ => strategy_of opts ∉ ["fixed"; "sliding"; "semantic"; "recursive"]
  end.
Proof.
  intros Ht size overlap. pose proof (chunk_bounds opts) as Hb. fold size overlap in Hb.
  unfold SplitText. rewrite decide_False by done. fold (strategy_of opts). cbv zeta. fold size overlap.
  destruct (decide (strategy_of opts = "fixed" \/ strategy_of opts = "sliding")) as [H|H].
  { assert (chunks_ok text size (fun o part => o = 0%nat /\ part = text)
      (splitByTokenWindows text size overlap (strategy_of opts))) as Hc by (by apply window_chunks_ok).
    split; [destruct H as [E|E]; rewrite E in Hc |- *; exact Hc|]. intros _. split; [by apply splitByTokenWindows_windowed|].
    apply Forall_forall. intros c [i Hi]%list_elem_of_lookup. destruct (Hc i c Hi) as (o & part & [-> ->] & Hok).
    apply (co_tokens _ _ _ _ _ _ Hok), in_place_whole. }
  destruct (decide (strategy_of opts = "semantic")) as [->|H2].
  { split; [|by intros [?|?]]. destruct (decide _).
    - eapply relabel_ok; [|by apply splitRecursive_ok]. intros o part Hp. by right.
    - eapply relabel_ok; [|by apply splitSemantic_ok]. intros o part Hp. by left. }
  destruct (decide (strategy_of opts = "recursive")) as [->|H3].
  { split; [|by intros [?|?]]. by eapply relabel_ok; [|by apply splitRecursive_ok]. }
  rewrite !elem_of_cons. intros [?|[?|[?|[?|?%elem_of_nil]]]]; tauto.
Qed.

Module SplitExample.
Definition nl : string := String newline_char "".

(** A paragraph that begins with white space loses as many bytes at its end. *)
Example paragraph_end_lost :
  match SplitText ("a" +:+ nl +:+ nl +:+ nl +:+ "bcd") (mkSplitOpts "recursive" 512 50) with
  | Ok l => map ckContent l = ["a"; "bc"]
  | Err _ => False
  end.
Proof. by vm_compute. Qed.

(** Such a paragraph's chunks say more tokens than they have. *)
Example tokens_overcounted :
  match SplitText ("a" +:+ nl +:+ nl +:+ "   b") (mkSplitOpts "recursive" 512 50),
    SplitText ("a" +:+ nl +:+ nl +:+ nl +:+ "b c") (mkSplitOpts "recursive" 512 50) with
  | Ok l, Ok l' =>
      map (fun c => (ckContent c, ckTokenCount c)) l = [("a", 1%nat); ("", 1%nat)] /\
      map (fun c => (ckContent c, ckTokenCount c)) l' = [("a", 1%nat); ("b", 2%nat)]
  | _, _ => False
  end.
Proof. by vm_compute. Qed.

(** What is before the first heading is in no chunk. *)
Example preamble_lost :
  match SplitText ("before" +:+ nl +:+ "# A" +:+ nl +:+ "text") (mkSplitOpts "semantic" 512 50) with
  | Ok l => map ckContent l = ["# A" +:+ nl +:+ "text"]
  | Err _ => False
  end.
Proof. by vm_compute. Qed.

(** The first page marker counts, so the first page has the number two. *)
Example first_page_is_two :
  match SplitText ("[Page 1]" +:+ nl +:+ "text") (mkSplitOpts "fixed" 512 50) with
  | Ok l => map (fun c => cmPageNumber (ckMetadata c)) l = [2%Z]
  | Err _ => False
  end.
Proof. by vm_compute. Qed.

Definition example_text : string := "a b c d e" +:+ nl +:+ nl +:+ "f g".

Lemma SplitText_correct_witness :
  exists chunks, SplitText example_text (mkSplitOpts "" 3 1) = Ok chunks /\
    map (fun c => (ckContent c, ckTokenCount c)) chunks = [("a b c", 3%nat); ("c d e", 3%nat); ("f g", 2%nat)] /\
    chunks_ok example_text 3 (part_of "recursive" example_text) chunks.
Proof.
  pose proof (SplitText_correct example_text (mkSplitOpts "" 3 1) ltac:(vm_compute; discriminate)) as H. cbv zeta in H.
  destruct (SplitText example_text (mkSplitOpts "" 3 1)) as [chunks|e] eqn:E; [|exfalso; vm_compute in E; discriminate].
  exists chunks. split; [exact eq_refl|]. split; [|exact (proj1 H)].
  apply (f_equal (fun r => match r with Ok l => map (fun c => (ckContent c, ckTokenCount c)) l | Err _ => [] end)) in E.
  vm_compute in E. symmetry. exact E.
Defined.
End SplitExample.

(** ** What the worker finds *)

(** What the pipeline's callers rely on of a vector store: everything but [vsStore]
    at most removes chunks. *)
Definition chunks_removed (s s' : RagState) : Prop := exists keep : ChunkRow -> bool,
  s' = set_chunks (filter (fun kc => keep kc.2 = true)) s.
Class VectorStoreLaws (V : VectorStore) : Prop := {
  vs_search_reads : forall q opts w, st (vsSearch V q opts w).2 = st w;
  vs_fulltext_reads : forall f q opts w, vsFullTextSearch V = Some f -> st (f q opts w).2 = st w;
  vs_hybrid_reads : forall f q text opts w, vsHybridSearch V = Some f -> st (f q text opts w).2 = st w;
  vs_delete_removes : forall id w, chunks_removed (st w) (st (vsDelete V id w).2);
  vs_delete_all_removes : forall kb w, chunks_removed (st w) (st (vsDeleteAll V kb w).2)
}.

Lemma chunks_removed_refl s : chunks_removed s s.
Proof.
  exists (fun _ => true). destruct s as [t k d c v]. unfold set_chunks. cbn. f_equal. symmetry. by apply map_filter_id.
Qed.

#[export] Instance Noop_laws : VectorStoreLaws NoopVectorStore.
Proof. split; try done; intros; apply chunks_removed_refl. Qed.

Section PgLaws.
Context `{R : Runtime} (distance : list Qc -> list Qc -> Qc) (scan : nat -> list Qc -> list ChunkRow -> result goerr (list ChunkRow))
  (ts_matches : string -> string -> bool) (ts_rank : string -> string -> Qc).

Lemma exec_state {A} (run : nat -> Z -> RagState -> result goerr (A * RagState)) (P : RagState -> RagState -> Prop) w :
  (forall s, P s s) -> (forall k now s a s', run k now s = Ok (a, s') -> P s s') -> P (st w) (st (exec run w).2).
Proof.
  intros Hr H. unfold exec. destruct (fault _); [apply Hr|]. destruct (run _ _ _) as [[a s']|e] eqn:E; [by eapply H|apply Hr].
Qed.
Lemma select_state {A} (f : Z -> RagState -> A) w : st (select f w).2 = st w.
Proof. symmetry. apply (exec_state _ (fun s s' => s = s')); [done|]. by intros ????? [= _ <-]. Qed.
Lemma Pg_Search_reads q opts w : st (Pg_Search distance scan q opts w).2 = st w.
Proof.
  unfold Pg_Search. rewrite wrapS_state. symmetry. apply (exec_state _ (fun s s' => s = s')); [done|].
  intros k now s a s'. destruct (vector_query _ _ _ _ _ _); [|done]. by intros [= _ <-].
Qed.
Lemma Pg_FullText_reads q opts w : st (Pg_FullTextSearch ts_matches ts_rank q opts w).2 = st w.
Proof. unfold Pg_FullTextSearch. rewrite wrapS_state. apply select_state. Qed.

#[export] Instance Pg_laws : VectorStoreLaws (PgVectorStore distance scan ts_matches ts_rank).
Proof.
  split.
  - apply Pg_Search_reads.
  - intros f q opts w [= <-]. apply Pg_FullText_reads.
  - intros f q text opts w [= <-]. unfold Pg_HybridSearch, mbind, Svc_bind. pose proof (Pg_Search_reads q opts w) as H1.
    destruct (Pg_Search _ _ _ _ w) as [[a|e] w1]; [|done]. cbn in H1. pose proof (Pg_FullText_reads text opts w1) as H2.
    destruct (Pg_FullTextSearch _ _ _ _ w1) as [[b|e] w2]; cbn in *; congruence.
  - intros id w. cbn. unfold Pg_Delete. rewrite wrapS_state. apply (exec_state _ chunks_removed); [apply chunks_removed_refl|].
    intros k now s [] s' [= <-]. exists (fun c => bool_decide (scDocumentID (crStored c) <> id)). unfold set_chunks. f_equal.
    apply map_filter_ext. intros i c _. cbn. by rewrite bool_decide_eq_true.
  - intros kb w. cbn. unfold Pg_DeleteAll. rewrite wrapS_state. apply (exec_state _ chunks_removed); [apply chunks_removed_refl|].
    intros k now s [] s' [= <-]. exists (fun c => bool_decide (crKnowledgeBaseID c <> kb)). unfold set_chunks. f_equal.
    apply map_filter_ext. intros i c _. cbn. by rewrite bool_decide_eq_true.
Qed.
End PgLaws.

Section NeverIndexed.
Context `{R : Runtime} (load : string -> string -> result goerr string) (embedder : Embedder) (store : VectorStore)
  `{!VectorStoreLaws store} (vault_Get : nat -> string -> result goerr string) (chunkID : uuid -> nat -> string -> uuid)
  (modelPricing reIndexThreshold : Qc) (uuid_Parse : string -> result goerr uuid) (TypeByExtension : string -> string)
  (vault_Put : nat -> string -> string -> string -> string -> result goerr string).

(** Bases belong to tenants, none of which is the nil tenant; there are no chunks, and
    no document is ready. *)
Record never_indexed (s : RagState) : Prop := mkNeverIndexed {
  ni_nil : uuid_Nil ∉ rgTenants s;
  ni_owned : forall id kb, rgKBs s !! id = Some kb -> kbTenantID kb ∈ rgTenants s;
  ni_chunks : rgChunks s = ∅;
  ni_docs : forall id d, rgDocs s !! id = Some d -> drStatus d <> "ready"
}.
Definition stays (s s' : RagState) : Prop := never_indexed s -> never_indexed s'.
#[local] Instance stays_preorder : PreOrder stays.
Proof. split; [intros s H; exact H|]. intros a b c Hab Hbc Ha. by apply Hbc, Hab. Qed.

Lemma chunks_removed_stays s s' : chunks_removed s s' -> stays s s'.
Proof.
  intros [keep ->] [Hn Ho Hc Hd]. split; try done. cbn. by rewrite Hc, map_filter_empty.
Qed.

Lemma at_kb_stays tenant id f s : (forall kb, kbTenantID (f kb) = kbTenantID kb) -> stays s (at_kb tenant id f s).
Proof.
  intros Hf [Hn Ho Hc Hd]. unfold at_kb, kb_of. destruct (rgKBs s !! id) as [kb|] eqn:E; [|by split].
  case_decide; [|by split]. split; try done. cbn. intros id' kb' [[-> <-]|[_ Hl]]%lookup_insert_Some; [|by eapply Ho].
  rewrite Hf. by eapply Ho.
Qed.

Lemma doc_of_row tenant kb id s doc : doc_of tenant kb id s = Some doc ->
  exists d base, rgDocs s !! id = Some d /\ rgKBs s !! drKnowledgeBaseID d = Some base /\ drKnowledgeBaseID d = kb /\
    kbTenantID base = tenant /\
    doc = mkKnowledgeDocument d tenant (from_option vrStorageURI "" (rgVaultDocs s !! drVaultDocumentID d)).
Proof.
  unfold doc_of, joined. destruct (rgDocs s !! id) as [d|] eqn:Ed; [|done]. simpl.
  destruct (rgKBs s !! drKnowledgeBaseID d) as [base|] eqn:Eb; [|done]. simpl. case_decide as Hd; [|done].
  destruct Hd as [Ht Hk]. simpl in Ht. intros [= <-]. exists d, base. split_and!; try done. by rewrite Ht.
Qed.

Lemma at_doc_stays tenant kb id f s : (forall d, drStatus (f d) <> "ready") -> stays s (at_doc tenant kb id f s).
Proof.
  intros Hf [Hn Ho Hc Hd]. unfold at_doc. destruct (doc_of _ _ _ _); [|by split]. split; try done. cbn.
  intros id' d' [[-> <-]|[_ H]]%lookup_insert_Some; [apply Hf|by eapply Hd].
Qed.

Lemma SetStatus_stays tenant kb id status text : status <> "ready" -> keepsS stays (Docs_SetStatus tenant kb id status text).
Proof.
  intros H. apply keepsS_wrap, keepsS_exec; [exact _|]. intros k now s a s'. case_decide; [done|]. intros [= _ <-].
  by apply at_doc_stays.
Qed.
Lemma KB_SetStatus_stays tenant id status : keepsS stays (KB_SetStatus tenant id status).
Proof.
  apply keepsS_wrap, keepsS_exec; [exact _|]. intros k now s a s'. case_decide; [done|]. intros [= _ <-]. by apply at_kb_stays.
Qed.
Lemma Recalculate_stays tenant id : keepsS stays (RecalculateCounts tenant id).
Proof. apply keepsS_wrap, keepsS_update; [exact _|]. intros now s. by apply at_kb_stays. Qed.
Lemma KB_Get_stays tenant id : keepsS stays (KB_Get tenant id).
Proof. apply keepsS_wrap, keepsS_select_row; exact _. Qed.

Lemma insert_kb_stays id kb s : kbTenantID kb ∈ rgTenants s -> stays s (set_kbs <[id := kb]> s).
Proof.
  intros Hk [Hn Ho Hc Hd]. split; try done. cbn. intros id' kb' [[_ <-]|[_ H]]%lookup_insert_Some; [done|by eapply Ho].
Qed.
Lemma KB_Create_stays kb : keepsS stays (KB_Create kb).
Proof.
  apply keepsS_exec; [exact _|]. intros k now s a s'. cbv zeta. destruct (kb_error _ _ _); [done|]. case_decide as Ht; [done|].
  destruct (rgKBs s !! _); [done|]. intros [= _ <-]. apply insert_kb_stays. cbn. destruct (decide (kbTenantID kb ∈ rgTenants s)); tauto.
Qed.
Lemma KB_Update_stays kb : keepsS stays (KB_Update kb).
Proof.
  apply keepsS_wrap, keepsS_exec; [exact _|]. intros k now s a s'. destruct (kb_of _ _ _) as [old|] eqn:E; [|done].
  destruct (kb_error _ _ _); [done|]. intros [= _ <-] Hs. revert E. unfold kb_of.
  destruct (rgKBs s !! kbID kb) as [o|] eqn:Eo; [|done]. case_decide as Ht; [|done]. intros _.
  apply insert_kb_stays; [|done]. cbn. rewrite <- Ht. by eapply ni_owned.
Qed.
Lemma KB_Delete_stays tenant id : keepsS stays (KB_Delete tenant id).
Proof.
  apply keepsS_bind; [exact _| |intros n; apply keepsS_guard; exact _]. apply keepsS_wrap, keepsS_exec; [exact _|].
  intros k now s a s'. destruct (kb_of _ _ _); intros [= _ <-]; [|done]. intros [Hn Ho Hc Hd]. split; try done; cbn.
  - intros i kb [_ H]%lookup_delete_Some. by eapply Ho.
  - by rewrite Hc, map_filter_empty.
  - intros i d [H _]%map_lookup_filter_Some. by eapply Hd.
Qed.

Lemma Docs_Create_stays d : drStatus d <> "ready" -> keepsS stays (Docs_Create d).
Proof.
  intros Hs. apply keepsS_wrap, keepsS_exec; [exact _|]. intros k now s a s'. cbv zeta. case_decide; [done|].
  destruct (rgDocs s !! _); [done|]. destruct (rgVaultDocs s !! _); [|done]. destruct (joined _ _); [|done]. intros [= _ <-] [Hn Ho Hc Hd].
  split; try done. cbn. intros i d' [[_ <-]|[_ H']]%lookup_insert_Some; [done|by eapply Hd].
Qed.
Lemma Docs_Delete_stays tenant kb id : keepsS stays (Docs_Delete tenant kb id).
Proof.
  apply keepsS_bind; [exact _| |intros n; apply keepsS_guard; exact _]. apply keepsS_wrap, keepsS_exec; [exact _|].
  intros k now s a s'. destruct (doc_of _ _ _ _); intros [= _ <-]; [|done]. intros [Hn Ho Hc Hd]. split; try done; cbn.
  - by rewrite Hc, map_filter_empty.
  - intros i d [_ H]%lookup_delete_Some. by eapply Hd.
Qed.
Lemma ClaimPending_stays : keepsS stays ClaimPending.
Proof.
  apply keepsS_bind; [exact _| |intros [d|]; keeps_steps]. apply keepsS_transact; [exact _|]. intros now.
  apply keepsS_bind; [exact _| |intros [d|]; keeps_steps]. apply keepsS_wrap, keepsS_exec; [exact _|].
  intros k now' s a s'. unfold claim_next. destruct (next_pending s) as [d|]; cbn; intros [= _ <-]; [|done].
  intros [Hn Ho Hc Hd]. split; try done. cbn. intros i d' [[_ <-]|[_ H]]%lookup_insert_Some; [done|by eapply Hd].
Qed.
Lemma vs_delete_stays id : keepsS stays (vsDelete store id).
Proof. intros w. apply chunks_removed_stays, vs_delete_removes. Qed.
Lemma vs_delete_all_stays kb : keepsS stays (vsDeleteAll store kb).
Proof. intros w. apply chunks_removed_stays, vs_delete_all_removes. Qed.

(** A row is looked for under the nil tenant in vain. *)
Lemma nil_document s kb id : never_indexed s -> doc_of 0%N kb id s = None.
Proof.
  intros H. destruct (doc_of _ _ _ _) as [doc|] eqn:E; [|done]. apply doc_of_row in E as (d & base & _ & Hb & _ & Ht & _).
  apply (ni_owned _ H) in Hb. rewrite Ht in Hb. by apply (ni_nil _ H) in Hb.
Qed.
Lemma nil_base s id : never_indexed s -> kb_of 0%N id s = None.
Proof.
  intros H. unfold kb_of. destruct (rgKBs s !! id) as [base|] eqn:E; [|done]. case_decide as Ht; [|done].
  apply (ni_owned _ H) in E. rewrite Ht in E. by apply (ni_nil _ H) in E.
Qed.
Lemma failing_row {A} (f : Z -> RagState -> option A) g w : (forall now, f now (st w) = None) ->
  exists e w', wrapS g (select_row f) w = (Err e, w') /\ st w' = st w.
Proof.
  intros H. unfold wrapS, select_row, exec. destruct (fault _) as [e|]; [by eauto|]. rewrite H. by eauto.
Qed.

Lemma ProcessDocument_stays kb id : keepsS stays (ProcessDocument load embedder store vault_Get chunkID kb id).
Proof.
  intros w H. unfold ProcessDocument, mbind at 1, Svc_bind at 1, nowS at 1. cbn beta iota. unfold mbind at 1, Svc_bind at 1.
  edestruct (failing_row (fun _ => doc_of 0%N kb id)) as (e & w' & E & Hs); [|unfold Docs_Get; rewrite E; cbn; rewrite Hs; exact H].
  intros now. by apply nil_document.
Qed.
Lemma Pipeline_ReIndex_stays id : keepsS stays (Pipeline_ReIndex load embedder store vault_Get chunkID id).
Proof.
  intros w H. unfold Pipeline_ReIndex, mbind at 1, Svc_bind at 1.
  edestruct (failing_row (fun _ => kb_of 0%N id)) as (e & w' & E & Hs); [|unfold KB_Get; rewrite E; cbn; rewrite Hs; exact H].
  intros now. by apply nil_base.
Qed.

Lemma embed_query_keeps q : keepsS stays (embed_query embedder q).
Proof. unfold embed_query. keeps_steps. Qed.
Lemma vs_search_stays v opts : keepsS stays (vsSearch store v opts).
Proof. intros w Hw. by rewrite vs_search_reads. Qed.
Lemma vs_fulltext_stays f q opts : vsFullTextSearch store = Some f -> keepsS stays (f q opts).
Proof. intros Hf w Hw. by rewrite (vs_fulltext_reads f). Qed.
Lemma vs_hybrid_stays f v q opts : vsHybridSearch store = Some f -> keepsS stays (f v q opts).
Proof. intros Hf w Hw. by rewrite (vs_hybrid_reads f). Qed.
Lemma SearchService_stays req : keepsS stays (SearchService_Search embedder store req).
Proof.
  unfold SearchService_Search, search_by.
  repeat first [apply embed_query_keeps | apply KB_Get_stays | apply vs_search_stays
               | by apply vs_fulltext_stays | by apply vs_hybrid_stays | keeps_step].
Qed.

Ltac stays_step :=
  first [ by apply SetStatus_stays | apply KB_SetStatus_stays | apply Recalculate_stays | apply KB_Get_stays | apply KB_Create_stays
        | apply KB_Update_stays | apply KB_Delete_stays | apply Docs_Delete_stays | apply ClaimPending_stays | apply vs_delete_stays
        | apply vs_delete_all_stays | apply ProcessDocument_stays | apply Pipeline_ReIndex_stays | apply SearchService_stays
        | by apply Docs_Create_stays | keeps_step ].

Lemma insert_vault_stays row : keepsS stays (insert_vault_row row).
Proof.
  apply keepsS_exec; [exact _|]. intros k now s a s'. cbv zeta. case_decide; [done|]. destruct (rgVaultDocs s !! _); [done|].
  intros [= _ <-] [Hn Ho Hc Hd]. by split.
Qed.
Lemma CreateDocument_stays tenant kb d : drStatus d <> "ready" -> keepsS stays (RAG_CreateDocument tenant kb d).
Proof.
  intros H. unfold RAG_CreateDocument. repeat stays_step. apply Docs_Create_stays. cbn. unfold or_text. by case_decide.
Qed.
Lemma rag_answer_stays {A} (p : RSvc A) failed done : keepsS stays p -> keepsS stays (rag_answer p failed done).
Proof. intros H. unfold rag_answer. by repeat keeps_step. Qed.
Lemma accept_upload_stays tenant principal kb u data :
  keepsS stays (accept_upload TypeByExtension vault_Put tenant principal kb u data).
Proof.
  unfold accept_upload, store_upload. repeat first [apply insert_vault_stays | apply rag_answer_stays, CreateDocument_stays; done | keeps_step].
Qed.

Lemma rag_step_stays e :
  keepsS stays (rag_step load embedder store vault_Get chunkID modelPricing reIndexThreshold uuid_Parse TypeByExtension vault_Put e).
Proof.
  destruct e as [|route r]; cbn [rag_step]; [unfold tick; by repeat stays_step|]. apply keepsS_ignore.
  destruct route; cbn [rag_handler];
    unfold H_ListKnowledgeBases, H_CreateKnowledgeBase, H_GetKnowledgeBase, H_UpdateKnowledgeBase, H_DeleteKnowledgeBase, H_ListDocuments,
      H_UploadDocument, H_DeleteDocument, H_ReIndex, H_Stats, H_Search, on_base, rag_principal, parseUUIDPath, rag_body, KB_List,
      RAG_CreateKnowledgeBase, RAG_UpdateKnowledgeBase, CheckEmbeddingCompatibility, HasMismatchedEmbeddingModel, RAG_DeleteKnowledgeBase, Docs_List,
      RAG_DeleteDocument, RAG_ReIndex, RAG_Stats;
    repeat first [apply rag_answer_stays | apply accept_upload_stays | stays_step].
Qed.

(** C40. What the service does with knowledge bases, whatever the requests, the ticks
    of the worker and the answers of the embedder, the vault and the vector store: as
    long as no tenant has the nil identifier, no chunk is ever stored and no document
    becomes ready. The pipeline looks documents and bases up under the nil tenant, and
    the queries of the tables ask for that tenant. *)
Theorem documents_never_indexed (events : list rag_event) (w : Sys RagState) :
  never_indexed (st w) ->
  never_indexed (st (forS (rag_step load embedder store vault_Get chunkID modelPricing reIndexThreshold uuid_Parse TypeByExtension vault_Put)
                       events w).2).
Proof. intros H. by apply (keepsS_for stays _ events rag_step_stays). Qed.
End NeverIndexed.

Module RagExample.
(** A base is created, a file is uploaded, the worker takes the document. *)
Definition kb : KnowledgeBase := mkKnowledgeBase 0 0 "manuals" "" "" 0 0 "" "" 0 "" JNull 0 0 "" 0 0.
Definition upload : Upload := mkUpload "a.txt" "text/plain" (Ok "How to open the box. Pull the lid.").
Definition ask (id : string) : RagRequest :=
  mkRagRequest (Some (7%N, 8%N)) id "" (Ok kb) (Err ErrNoRows) (Ok (Some upload)) "true".
Definition runtime : Runtime := {|
  fault := fault (Runtime := example_runtime); wall_clock := wall_clock (Runtime := example_runtime); db_now := db_now (Runtime := example_runtime);
  gen_random_uuid k := N.of_nat (100 + k); sha256_hex := sha256_hex (Runtime := example_runtime);
  json_marshal := json_marshal (Runtime := example_runtime); jsonb_text := jsonb_text (Runtime := example_runtime);
  format_rfc3339nano := format_rfc3339nano (Runtime := example_runtime); time_json := time_json (Runtime := example_runtime);
  timestamptz_text := timestamptz_text (Runtime := example_runtime) |}.
#[local] Existing Instance runtime.
Definition embedder : Embedder := HashEmbedder (fun _ => [1; 2; 3; 4]%Z) 64.
Definition pg : VectorStore := PgVectorStore (fun _ _ => 0%Qc) (fun _ _ rows => Ok rows) (fun _ _ => true) (fun _ _ => 0%Qc).
#[local] Instance pg_laws : VectorStoreLaws pg := Pg_laws _ _ _ _.
Definition load (data contentType : string) : result goerr string := Ok data.
Definition blobs (k : nat) (uri : string) : result goerr string := Ok "How to open the box. Pull the lid.".
Definition name_chunk (d : uuid) (k : nat) (content : string) : uuid := (1000 * d + N.of_nat k)%N.
Definition parse_id (s : string) : result goerr uuid := if decide (s = "base") then Ok 100%N else Err ErrNoRows.
Definition put (k : nat) (tenant hash ext data : string) : result goerr string := Ok "blob".
Definition start : Sys RagState := mkSys (mkRagState {[ 7%N ]} ∅ ∅ ∅ ∅) 0.
Definition events : list rag_event := [Request CreateBase (ask ""); Request UploadDoc (ask "base"); WorkerTick; Request ReIndexBase (ask "base")].
Definition run : Sys RagState :=
  (forS (rag_step load embedder pg blobs name_chunk 0%Qc 0%Qc parse_id (fun _ => "") put) events start).2.
Example document_left_extracting :
  map (fun kd => (drFilename kd.2, drStatus kd.2)) (map_to_list (rgDocs (st run))) = [("a.txt", "extracting")].
Proof. vm_compute. reflexivity. Qed.
Lemma start_never_indexed : never_indexed (st start).
Proof. split; try (intros i x H; vm_compute in H; discriminate); [|reflexivity]. cbn. by rewrite elem_of_singleton. Qed.
Lemma documents_never_indexed_witness : rgChunks (st run) = ∅.
Proof.
  exact (ni_chunks _ (documents_never_indexed load embedder pg blobs name_chunk 0%Qc 0%Qc parse_id (fun _ => "") put events start
                        start_never_indexed)).
Defined.
End RagExample.

(** ** Search *)

(** The [k] best of what is scored. *)
Definition ranked (k : nat) (scored : list (Qc * ChunkRow)) (results : list SearchResult) : Prop :=
  exists order, order ≡ₚ scored /\ StronglySorted better order /\ results = map (fun sc => search_result sc.1 sc.2) (take k order).
(** The sum of the reciprocals of the ranks, from [n], at which an identifier occurs. *)
Fixpoint rank_sum (id : string) (n : nat) (l : list SearchResult) : Qc :=
  match l with
  | [] => 0%Qc
  | r :: l' => ((if decide (srChunkID r = id) then reciprocal n else 0) + rank_sum id (S n) l')%Qc
  end.
Definition fused_score (vec fts : list SearchResult) (id : string) : Qc := (rank_sum id 0 vec + rank_sum id 0 fts)%Qc.
(** The [k] best identifiers of both lists by the sum, each shown once, as one of the
    lists has it. *)
Definition fused (k : nat) (vec fts results : list SearchResult) : Prop :=
  NoDup (map srChunkID results) /\ StronglySorted (fun a b => (srScore b <= srScore a)%Qc) results /\ (length results <= k)%nat /\
  (forall r, r ∈ results -> exists r', r' ∈ vec ++ fts /\ r = with_score (fused_score vec fts (srChunkID r')) r') /\
  (forall r', r' ∈ vec ++ fts -> srChunkID r' ∈ map srChunkID results \/
     (length results = k /\ forall r, r ∈ results -> (fused_score vec fts (srChunkID r') <= srScore r)%Qc)).

#[local] Instance better_total : Total better.
Proof. intros a b. unfold better. destruct (Qclt_le_dec (fst a) (fst b)); [right; by apply Qclt_le_weak|by left]. Qed.
#[local] Instance better_trans : Transitive better.
Proof. intros a b c. unfold better. intros H1 H2. by eapply Qcle_trans. Qed.
#[local] Instance key_before_total : Total key_before.
Proof.
  intros a b. unfold key_before. destruct (Qc_dec (snd a) (snd b)) as [[H|H]|H]; [right; by left|left; by left|].
  destruct (str_ltb b.1 a.1) eqn:E; [|left; by right]. right; right. split; [done|].
  destruct (str_ltb a.1 b.1) eqn:E'; [|done]. pose proof (str_ltb_trans _ _ _ E E') as H'. by rewrite str_ltb_irrefl in H'.
Qed.

Lemma take_sorted {A} (P : relation A) k l : StronglySorted P l -> StronglySorted P (take k l).
Proof. rewrite <- (take_drop k l) at 1. apply StronglySorted_app_1_l. Qed.
(** What does not get into the first [k] comes after them, and there are [k]. *)
Lemma not_taken {A} (P : relation A) k l x : StronglySorted P l -> x ∈ l -> x ∈ take k l \/
  (length (take k l) = k /\ forall y, y ∈ take k l -> P y x).
Proof.
  intros Hs Hx. rewrite <- (take_drop k l) in Hs, Hx. apply elem_of_app in Hx as [Hx|Hx]; [by left|right].
  split; [|intros y Hy; by eapply StronglySorted_app_1_elem_of]. rewrite length_take.
  assert (drop k l <> []) as Hd by (intros E; rewrite E in Hx; by apply elem_of_nil in Hx).
  destruct (decide (k <= length l)%nat); [lia|]. exfalso. apply Hd. apply drop_ge. lia.
Qed.

Lemma add_ranks_lookup id l : forall n scores,
  default 0%Qc (add_ranks n l scores !! id) = (default 0 (scores !! id) + rank_sum id n l)%Qc.
Proof.
  induction l as [|r l IH]; intros n scores; cbn [add_ranks rank_sum]; [by rewrite Qcplus_0_r|]. rewrite IH.
  destruct (decide (srChunkID r = id)) as [->|Hn]; [rewrite lookup_insert_eq; cbn; by rewrite Qcplus_assoc|].
  by rewrite lookup_insert_ne, Qcplus_0_l.
Qed.

(** The table of the items has one for each identifier, from one of the lists. *)
Definition items_from (l : list SearchResult) (m : gmap string SearchResult) : Prop :=
  (forall id r, m !! id = Some r -> r ∈ l /\ srChunkID r = id) /\ (forall r, r ∈ l -> is_Some (m !! srChunkID r)).
Lemma items_insert l m r : items_from l m -> items_from (l ++ [r]) (<[srChunkID r := r]> m).
Proof.
  intros [H1 H2]. split.
  - intros id r' [[<- <-]|[_ H]]%lookup_insert_Some; [set_solver|]. apply H1 in H as [? ?]. set_solver.
  - intros r' [H|H%list_elem_of_singleton]%elem_of_app; [|subst; by rewrite lookup_insert_eq].
    destruct (decide (srChunkID r = srChunkID r')) as [->|Hn]; [by rewrite lookup_insert_eq|]. rewrite lookup_insert_ne by done. auto.
Qed.
Lemma items_text l m r : items_from l m -> items_from (l ++ [r]) (text_item m r).
Proof.
  intros H. unfold text_item. destruct (m !! srChunkID r) as [x|] eqn:E; [|by apply items_insert].
  case_decide; [by apply items_insert|]. destruct H as [H1 H2]. split.
  - intros id r' H'. apply H1 in H' as [? ?]. set_solver.
  - intros r' [H'|H'%list_elem_of_singleton]%elem_of_app; [auto|subst; by rewrite E].
Qed.
Lemma items_fold (f : gmap string SearchResult -> SearchResult -> gmap string SearchResult) l2 :
  (forall l m r, items_from l m -> items_from (l ++ [r]) (f m r)) ->
  forall l m, items_from l m -> items_from (l ++ l2) (foldl f m l2).
Proof.
  intros Hf. induction l2 as [|r l2 IH]; intros l m H; cbn; [by rewrite app_nil_r|]. rewrite cons_middle, app_assoc. apply IH. by apply Hf.
Qed.

(** The shown items are those of the keys. *)
Lemma shown_keys (m : gmap string SearchResult) (keys : list (string * Qc)) :
  (forall ks, ks ∈ keys -> exists r, m !! ks.1 = Some r /\ srChunkID r = ks.1) ->
  let shown := omap (fun ks => with_score ks.2 <$> m !! ks.1) keys in
  map (fun r => (srChunkID r, srScore r)) shown = keys.
Proof.
  cbv zeta. induction keys as [|ks keys IH]; intros H; [done|]. cbn. destruct (H ks) as (r & E & Hr); [by left|]. rewrite E. cbn.
  rewrite Hr, IH; [by destruct ks|]. intros ks' Hk. apply H. by right.
Qed.

Lemma map_inj_elem {A B} (f : A -> B) (l : list A) x : x ∈ l -> f x ∈ map f l.
Proof. intros H. apply list_elem_of_fmap. by exists x. Qed.

Section Fusion.
Context (vec fts : list SearchResult) (k : Z).
Let scores := add_ranks 0 fts (add_ranks 0 vec ∅).
Let items := foldl text_item (foldl vector_item ∅ vec) fts.
Let scored := map (fun kr : string * SearchResult => (kr.1, default 0%Qc (scores !! kr.1))) (map_to_list items).
Let order := merge_sort key_before scored.
Let limit := Z.to_nat (top_k k).

Lemma fused_items : items_from (vec ++ fts) items.
Proof.
  apply items_fold; [intros; by apply items_text|]. change vec with ([] ++ vec) at 1. apply items_fold; [intros; by apply items_insert|].
  split; [intros id r H; by rewrite lookup_empty in H|intros r H; by apply elem_of_nil in H].
Qed.
Lemma fused_lookup id : default 0%Qc (scores !! id) = fused_score vec fts id.
Proof. unfold scores. rewrite !add_ranks_lookup, lookup_empty. cbn. by rewrite Qcplus_0_l. Qed.
Lemma order_key ks : ks ∈ order -> exists r, items !! ks.1 = Some r /\ srChunkID r = ks.1 /\ r ∈ vec ++ fts /\
  ks.2 = fused_score vec fts ks.1.
Proof.
  unfold order. rewrite merge_sort_Permutation. intros ([id r] & -> & H)%list_elem_of_fmap. cbn. apply elem_of_map_to_list in H.
  exists r. destruct (proj1 fused_items _ _ H). split_and!; try done. apply fused_lookup.
Qed.
Lemma order_nodup : NoDup (map fst order).
Proof.
  unfold order. rewrite merge_sort_Permutation. unfold scored. rewrite map_map. apply NoDup_fst_map_to_list.
Qed.
Lemma order_sorted : StronglySorted (fun a b => (b.2 <= a.2)%Qc) order.
Proof.
  apply Sorted_StronglySorted; [intros a b c H1 H2; by eapply Qcle_trans|].
  assert (Sorted key_before order) as H by (apply Sorted_merge_sort; exact _).
  induction H as [|a l H IH Hd]; constructor; [done|]. destruct Hd as [|b l Hb]; constructor.
  destruct Hb as [Hb|[Hb _]]; [by apply Qclt_le_weak|rewrite Hb; apply Qcle_refl].
Qed.

Let shown := hybridSearch vec fts k.
Lemma shown_order : map (fun r => (srChunkID r, srScore r)) shown = take limit order.
Proof.
  unfold shown, hybridSearch. apply shown_keys. intros ks H. assert (ks ∈ order) as Ho by (rewrite <- (take_drop limit order); set_solver).
  destruct (order_key ks Ho) as (r & ? & ? & _). by exists r.
Qed.

Lemma hybridSearch_fused : fused limit vec fts shown.
Proof.
  pose proof shown_order as Hk.
  assert (map srChunkID shown = map fst (take limit order)) as Hid by (rewrite <- Hk, map_map; done).
  assert (forall r, r ∈ shown -> (srChunkID r, srScore r) ∈ take limit order) as Hin.
  { intros r H. rewrite <- Hk. by apply (map_inj_elem (fun r => (srChunkID r, srScore r))). }
  assert (length shown = length (take limit order)) as Hl by (rewrite <- Hk; by rewrite length_map).
  split_and!.
  - rewrite Hid. pose proof order_nodup as H. rewrite <- (take_drop limit order), map_app in H. by apply NoDup_app in H as [? _].
  - pose proof (take_sorted _ limit _ order_sorted) as H. rewrite <- Hk in H. clear -H. induction shown as [|r l IH]; [constructor|].
    apply StronglySorted_inv in H as [H Hf]. constructor; [by apply IH|]. by apply (proj1 (Forall_map _ _ _)) in Hf.
  - rewrite Hl, length_take. lia.
  - intros r Hr. assert (r ∈ hybridSearch vec fts k) as Hr' by done. unfold hybridSearch in Hr'.
    apply list_elem_of_omap in Hr' as (ks & Hks & E). fold scores items scored order limit in Hks, E.
    assert (ks ∈ order) as Ho by (rewrite <- (take_drop limit order); set_solver).
    destruct (order_key ks Ho) as (r' & Ei & Ec & Hv & Es). rewrite Ei in E. injection E as <-. exists r'. by rewrite Ec, <- Es.
  - intros r' Hr'. destruct (proj2 fused_items r' Hr') as [x Hx].
    assert ((srChunkID r', fused_score vec fts (srChunkID r')) ∈ order) as Ho.
    { unfold order. rewrite merge_sort_Permutation. apply list_elem_of_fmap. exists (srChunkID r', x). cbn. rewrite fused_lookup.
      split; [done|]. by apply elem_of_map_to_list. }
    destruct (not_taken _ limit _ _ order_sorted Ho) as [H|[H1 H2]].
    + left. rewrite Hid. by apply (map_inj_elem fst) in H.
    + right. split; [by rewrite Hl|]. intros r Hr. by apply (H2 _ (Hin r Hr)).
Qed.
End Fusion.

Section SearchClaims.
Context `{R : Runtime} (distance : list Qc -> list Qc -> Qc) (scan : nat -> list Qc -> list ChunkRow -> result goerr (list ChunkRow))
  (ts_matches : string -> string -> bool) (ts_rank : string -> string -> Qc) (embedder : Embedder).
Let store := PgVectorStore distance scan ts_matches ts_rank.

(** The chunks scored by the distance, those below the least score left out, and the
    chunks that match by their rank. *)
Definition min_score (q : Qc) : Qc := if Qclt_le_dec 0 q then q else Q2Qc (Qmake 7 10).
Definition scored_by_vector (v : list Qc) (least : Qc) (rows : list ChunkRow) : list (Qc * ChunkRow) :=
  filter (fun sc => (least <= sc.1)%Qc) (map (fun c => (1 - distance (scEmbedding (crStored c)) v, c)%Qc) rows).
Definition scored_by_text (query : string) (rows : list ChunkRow) : list (Qc * ChunkRow) :=
  map (fun c => (ts_rank (scContent (crStored c)) query, c)) (filter (fun c => ts_matches (scContent (crStored c)) query = true) rows).

(** The best of the base by the vector that the embedder answers to the query, among
    the rows of the base that the scan of the table gives for this vector. *)
Definition found_near (query : string) (tenant base : uuid) (k : nat) (least : Qc) (s : RagState) (results : list SearchResult) : Prop :=
  exists call v statement candidates,
    emEmbed embedder call [query] = Ok [v] /\ scan statement v (all_chunks s) = Ok candidates /\
    (of_base tenant base candidates <> [] -> length v = vector_dims) /\
    ranked k (scored_by_vector v least (of_base tenant base candidates)) results.
Definition found_matching (query : string) (tenant base : uuid) (k : nat) (s : RagState) (results : list SearchResult) : Prop :=
  ranked k (scored_by_text query (chunks_of tenant base s)) results.
Definition found_by (mode query : string) (tenant base : uuid) (k : nat) (least : Qc) (s : RagState) (results : list SearchResult) : Prop :=
  (mode = "vector" /\ found_near query tenant base k least s results) \/
  (mode = "fulltext" /\ found_matching query tenant base k s results) \/
  (mode = "hybrid" /\ exists vec fts, found_near query tenant base k least s vec /\ found_matching query tenant base k s fts /\
     fused k vec fts results).

Lemma top_k_idem k : top_k (top_k k) = top_k k.
Proof. unfold top_k. destruct (k <=? 0)%Z eqn:E; [done|by rewrite E]. Qed.
Lemma top_k_positive k : (0 < top_k k)%Z.
Proof. unfold top_k. case_match eqn:E; lia. Qed.
Lemma min_score_idem q : min_score (min_score q) = min_score q.
Proof.
  unfold min_score at 2 3. destruct (Qclt_le_dec 0 q) as [H|H]; unfold min_score.
  - destruct (Qclt_le_dec 0 q) as [|H']; [done|]. by apply Qcle_not_lt in H'.
  - by destruct (Qclt_le_dec _ _).
Qed.
Lemma vector_results_ranked v req rows :
  ranked (Z.to_nat (top_k (sreqTopK req))) (scored_by_vector v (min_score (sreqMinScore req)) rows)
    (vector_results distance v (search_opts req) rows).
Proof.
  unfold vector_results. cbn [sqTopK sqMinScore search_opts]. rewrite top_k_idem.
  change (if Qclt_le_dec 0 (sreqMinScore req) then _ else _) with (min_score (sreqMinScore req)).
  change (if Qclt_le_dec 0 (min_score ?q) then _ else _) with (min_score (min_score (sreqMinScore req))). rewrite min_score_idem.
  eexists (merge_sort better _). split_and!; [apply merge_sort_Permutation|apply StronglySorted_merge_sort; exact _|done].
Qed.
Lemma text_results_ranked query req s :
  ranked (Z.to_nat (top_k (sreqTopK req))) (scored_by_text query (chunks_of (sreqTenantID req) (sreqKnowledgeBaseID req) s))
    (text_results ts_matches ts_rank query (search_opts req) s).
Proof.
  unfold text_results. cbn [sqTopK search_opts sqTenantID sqKBID]. rewrite top_k_idem.
  eexists (merge_sort better _). split_and!; [apply merge_sort_Permutation|apply StronglySorted_merge_sort; exact _|done].
Qed.

Lemma select_inv {A} (f : Z -> RagState -> A) w a w' : select f w = (Ok a, w') -> st w' = st w /\ exists now, a = f now (st w).
Proof. unfold select, exec. destruct (fault _); [done|]. intros [= <- <-]. eauto. Qed.
Lemma Pg_Search_inv v opts w results w' : Pg_Search distance scan v opts w = (Ok results, w') ->
  st w' = st w /\ exists statement candidates, scan statement v (all_chunks (st w)) = Ok candidates /\
    let rows := of_base (sqTenantID opts) (sqKBID opts) candidates in
    (rows <> [] -> length v = vector_dims) /\ results = vector_results distance v opts rows.
Proof.
  intros H%wrapS_inv. unfold exec in H. destruct (fault _); [done|].
  destruct (vector_query distance scan (ticks w) v opts (st w)) as [l|e] eqn:E; [|done]. injection H as <- <-. split; [done|].
  unfold vector_query in E. destruct (decide _); [|done]. destruct (scan _ _ _) as [candidates|e] eqn:Es; [|done].
  cbn in E. exists (ticks w), candidates. split; [done|]. cbv zeta. destruct (decide _) as [|N]; [done|]. injection E as <-.
  split; [|done]. intros Hne. destruct (decide (length v = vector_dims)) as [|Hd]; [done|]. by destruct N.
Qed.
Lemma Pg_FullText_inv q opts w results w' : Pg_FullTextSearch ts_matches ts_rank q opts w = (Ok results, w') ->
  st w' = st w /\ results = text_results ts_matches ts_rank q opts (st w).
Proof. intros H%wrapS_inv. apply select_inv in H as (? & now & ->). done. Qed.
Lemma embed_query_inv q w v w' : embed_query embedder q w = (Ok v, w') ->
  st w' = st w /\ exists call, emEmbed embedder call [q] = Ok [v].
Proof.
  unfold embed_query. intros (vs & w1 & H1 & H2)%bindS_inv. apply wrapS_inv in H1. unfold callS in H1. injection H1 as Hv <-.
  destruct vs as [|x [|]]; try done. injection H2 as <- <-. split; [done|]. by exists (ticks w).
Qed.
Lemma search_near_inv req w v w1 results w2 :
  embed_query embedder (sreqQuery req) w = (Ok v, w1) -> Pg_Search distance scan v (search_opts req) w1 = (Ok results, w2) ->
  st w2 = st w /\ found_near (sreqQuery req) (sreqTenantID req) (sreqKnowledgeBaseID req) (Z.to_nat (top_k (sreqTopK req)))
    (min_score (sreqMinScore req)) (st w) results.
Proof.
  intros [Hs1 [call Hv]]%embed_query_inv [Hs2 (n & cands & Hc & Hd & ->)]%Pg_Search_inv. rewrite Hs1 in *. split; [done|].
  exists call, v, n, cands. split_and!; [done..|]. apply vector_results_ranked.
Qed.

Lemma search_by_found mode req w out w' :
  search_by embedder store mode (sreqQuery req) (search_opts req) w = (Ok out, w') ->
  st w' = st w /\ out.2 = mode /\
  found_by mode (sreqQuery req) (sreqTenantID req) (sreqKnowledgeBaseID req) (Z.to_nat (top_k (sreqTopK req)))
    (min_score (sreqMinScore req)) (st w) out.1.
Proof.
  unfold search_by. cbv zeta. cbn [store vsFullTextSearch vsHybridSearch vsSearch PgVectorStore].
  case_decide as H1; [|case_decide as H2; [|case_decide as H3; [|done]]].
  - intros (l & w1 & Hl & Hr)%bindS_inv. injection Hr as <- <-. apply Pg_FullText_inv in Hl as [Hs ->]. split_and!; try done.
    right; left. split; [done|]. apply text_results_ranked.
  - intros (v & w1 & Hv & Hr)%bindS_inv. apply bindS_inv in Hr as (l & w2 & Hl & Hr). injection Hr as <- <-.
    destruct (search_near_inv _ _ _ _ _ _ Hv Hl) as [Hs Hf]. split_and!; [done..|]. by left.
  - intros (v & w1 & Hv & Hr)%bindS_inv. apply bindS_inv in Hr as (l & w2 & Hl & Hr). injection Hr as <- <-.
    apply bindS_inv in Hl as (vec & w3 & Hvec & Hl). apply bindS_inv in Hl as (fts & w4 & Hfts & Hl).
    injection Hl as <- <-. destruct (search_near_inv _ _ _ _ _ _ Hv Hvec) as [Hs1 Hf]. apply Pg_FullText_inv in Hfts as [Hs2 ->].
    rewrite Hs1 in *. split_and!; try done. right; right. split; [done|]. do 2 eexists.
    split_and!; [exact Hf|apply text_results_ranked|].
    match goal with |- fused _ ?vec ?fts _ => pose proof (hybridSearch_fused vec fts (sqTopK (search_opts req))) as Hfu end.
    cbn [sqTopK search_opts] in Hfu. rewrite top_k_idem in Hfu. exact Hfu.
Qed.

(** The scan gives rows of the table, none more often than the table has it. *)
Definition scan_reads : Prop := forall n v rows candidates, scan n v rows = Ok candidates -> candidates ⊆+ rows.

(** What is found is from the rows, and not too much. *)
Lemma ranked_from k (rows : list ChunkRow) scored results : (forall sc, sc ∈ scored -> sc.2 ∈ rows) -> ranked k scored results ->
  (length results <= k)%nat /\ forall r, r ∈ results -> exists c, c ∈ rows /\ r = search_result (srScore r) c.
Proof.
  intros Hrows (order & Hp & _ & ->). split; [rewrite length_map, length_take; lia|].
  intros r (sc & -> & H)%list_elem_of_fmap. exists sc.2. split; [|done]. apply Hrows. rewrite <- Hp, <- (take_drop k order). set_solver.
Qed.
Lemma by_vector_from v least rows sc : sc ∈ scored_by_vector v least rows -> sc.2 ∈ rows.
Proof. intros [_ (c & -> & H)%list_elem_of_fmap]%list_elem_of_filter. done. Qed.
Lemma by_text_from q rows sc : sc ∈ scored_by_text q rows -> sc.2 ∈ rows.
Proof. intros (c & -> & [_ H]%list_elem_of_filter)%list_elem_of_fmap. done. Qed.
Lemma of_base_submseteq tenant base rows rows' : rows ⊆+ rows' -> of_base tenant base rows ⊆+ of_base tenant base rows'.
Proof. unfold of_base. intros [k Hk]%submseteq_Permutation. rewrite Hk, filter_app. by apply submseteq_inserts_r. Qed.
Lemma found_near_from q tenant base k least s results : scan_reads -> found_near q tenant base k least s results ->
  (length results <= k)%nat /\ forall r, r ∈ results -> exists c, c ∈ chunks_of tenant base s /\ r = search_result (srScore r) c.
Proof.
  intros Hscan (call & v & n & cands & _ & Hc & _ & Hr). eapply ranked_from; [|exact Hr]. intros sc Hsc%by_vector_from.
  eapply elem_of_submseteq; [exact Hsc|]. apply of_base_submseteq. by apply Hscan in Hc.
Qed.
Lemma found_by_from mode q tenant base k least s results : scan_reads -> found_by mode q tenant base k least s results ->
  (length results <= k)%nat /\ forall r, r ∈ results -> exists c, c ∈ chunks_of tenant base s /\ r = search_result (srScore r) c.
Proof.
  intros Hscan [[_ H]|[[_ H]|(_ & vec & fts & Hv & Ht & Hn & Hs & Hl & Hf & _)]].
  - by eapply found_near_from.
  - eapply ranked_from; [|done]. apply by_text_from.
  - split; [done|]. intros r Hr. destruct (Hf r Hr) as (r' & [Hr'|Hr']%elem_of_app & ->);
      [apply found_near_from in Hv as [_ Hx]; [|done]|eapply ranked_from in Ht as [_ Hx]; [|apply by_text_from]];
      destruct (Hx r' Hr') as (c & Hc & E); exists c; (split; [done|]); rewrite E; done.
Qed.

(** C39. A search that succeeds changes nothing; it is of a base of the tenant, and its
    mode is one of three, hybrid by default. A vector search embeds the query and shows
    the best chunks by their distance to the embedding, among those that have the least
    score, 0.7 by default, of the rows of the base that the scan of the table gives (all
    of the base's, when the scan is exact; an approximate index may leave rows out); if
    there are any, the embedding has the dimensions of the column. A full-text search
    shows the best that match; a hybrid one the best identifiers of both by the sum of
    the reciprocals of their ranks, each once. They are at most as many as asked for,
    five by default, and each is a chunk of the tenant in the base. *)
Theorem Search_correct (req : SearchRequest) (w : Sys RagState) (resp : SearchResponse) (w' : Sys RagState) :
  scan_reads -> SearchService_Search embedder store req w = (Ok resp, w') ->
  let tenant := sreqTenantID req in
  let base := sreqKnowledgeBaseID req in
  let rows := chunks_of tenant base (st w) in
  st w' = st w /\ is_Some (kb_of tenant base (st w)) /\
  srespMode resp = (if decide (sreqMode req = "") then "hybrid" else sreqMode req) /\
  found_by (srespMode resp) (sreqQuery req) tenant base (Z.to_nat (top_k (sreqTopK req))) (min_score (sreqMinScore req)) (st w)
    (srespResults resp) /\
  (length (srespResults resp) <= Z.to_nat (top_k (sreqTopK req)))%nat /\
  (forall r, r ∈ srespResults resp -> exists c, c ∈ rows /\ crTenantID c = tenant /\
     crKnowledgeBaseID c = base /\ r = search_result (srScore r) c).
Proof.
  intros Hscan. unfold SearchService_Search. intros H. apply bindS_inv in H as (start & w1 & H1 & H). injection H1 as _ <-.
  apply bindS_inv in H as (kb & w2 & Hkb & H). apply wrapS_inv in Hkb. unfold select_row, exec in Hkb. cbn in Hkb.
  destruct (fault _) in Hkb; [done|]. destruct (kb_of _ _ _) as [base|] eqn:Eb; [|done]. injection Hkb as _ <-.
  apply bindS_inv in H as (out & w3 & H3 & H). apply search_by_found in H3 as (Hs & Hm & Hf). cbn [st] in Hs, Hf.
  injection H as <- <-. cbn [srespMode srespResults st]. cbv zeta.
  split_and!; try done; [by rewrite Hm|eapply found_by_from; [done|exact Hf]|].
  intros r Hr. apply found_by_from in Hf as [_ Hf]; [|done]. destruct (Hf r Hr) as (c & Hc & E). exists c.
  split; [done|]. by apply list_elem_of_filter in Hc as [[-> ->] _].
Qed.
End SearchClaims.

Module SearchExample.
Import RagExample.
#[local] Existing Instance runtime.
Definition meta : ChunkMetadata := mkChunkMetadata 0 "" 0 0 0 "fixed".
Definition row (tenant base id doc : uuid) (text : string) (v : Qc) : ChunkRow :=
  mkChunkRow tenant base (mkStorableChunk id doc text 1 meta (v :: repeat 0%Qc 1535) "m").
Definition manuals : KnowledgeBase := mkKnowledgeBase 100 7 "manuals" "" "fixed" 512 50 "" "m" 1 "pgvector" JNull 2 3 "active" 0 0.
Definition state : RagState :=
  mkRagState {[ 7%N; 9%N ]} {[ 100%N := manuals ]} ∅
    {[ 1%N := row 7 100 1 50 "open the box" (Q2Qc (Qmake 1 10)); 2%N := row 7 100 2 50 "pull the lid" (Q2Qc (Qmake 2 10));
       3%N := row 7 100 3 51 "box of lids" (Q2Qc (Qmake 9 10)); 4%N := row 9 101 4 52 "another box" (Q2Qc 0) ]} ∅.
Definition distance (a b : list Qc) : Qc := default 0%Qc (head a).
Definition matches (text query : string) : bool := Contains text query.
Definition rank (text query : string) : Qc := Q2Qc (Qmake (100 - Z.of_nat (String.length text)) 100).
Definition req : SearchRequest := mkSearchRequest 7 100 "box" 2 0%Qc "".
Definition embedder_1536 : Embedder := HashEmbedder (fun _ => [1; 2; 3; 4]%Z) vector_dims.
(** An index that misses one chunk. *)
Definition scan (n : nat) (v : list Qc) (rows : list ChunkRow) : result goerr (list ChunkRow) :=
  Ok (filter (fun c => scID (crStored c) <> 2%N) rows).
Lemma scan_takes : scan_reads scan.
Proof. intros n v rows cands [= <-]. apply sublist_submseteq, sublist_filter. Qed.
Definition found : result goerr SearchResponse * Sys RagState :=
  SearchService_Search embedder_1536 (PgVectorStore distance scan matches rank) req (mkSys state 0).
(** The vector search has chunks of the base that the scan gave, the text search the
    first and the third chunk of the base; the first is in both. *)
Example found_ids : match found.1 with
  | Ok resp => map srContent (srespResults resp) = ["open the box"; "box of lids"]
  | Err _ => False
  end.
Proof. vm_compute. reflexivity. Qed.
Lemma Search_correct_witness :
  exists resp w', found = (Ok resp, w') /\ srespMode resp = "hybrid" /\ st w' = state /\ (length (srespResults resp) <= 2)%nat /\
    found_by distance scan matches rank embedder_1536 "hybrid" "box" 7 100 2 (Q2Qc (Qmake 7 10)) state (srespResults resp).
Proof.
  destruct found as [[resp|e] w'] eqn:E.
  - exists resp, w'. split; [done|].
    destruct (Search_correct distance scan matches rank embedder_1536 req (mkSys state 0) resp w' scan_takes E) as (Hs & _ & Hm & Hf & Hl & _).
    cbn in Hm. rewrite Hm in Hf. split; [exact Hm|]. split; [exact Hs|]. split; [exact Hl|exact Hf].
  - exfalso. pose proof found_ids as H. rewrite E in H. exact H.
Defined.

(** The embedder the routes wire makes vectors of 64 numbers: no search by vector of a
    base with chunks succeeds. *)
Example wired_embedder_fails :
  (SearchService_Search embedder (PgVectorStore distance scan matches rank) req (mkSys state 0)).1
  = Err (Wrapf "vector search: %w" [] (violates "different vector dimensions")).
Proof. vm_compute. reflexivity. Qed.

(** The index is over the chunks of all tenants and is read before they are told
    apart: what it gives may be of another tenant alone. *)
Definition scan_one (n : nat) (v : list Qc) (rows : list ChunkRow) : result goerr (list ChunkRow) :=
  Ok (filter (fun c => crTenantID c = 9%N) rows).
Example other_tenant_hides :
  match (SearchService_Search embedder_1536 (PgVectorStore distance scan_one matches rank)
           (mkSearchRequest 7 100 "box" 2 0%Qc "vector") (mkSys state 0)).1 with
  | Ok resp => srespResults resp = []
  | Err _ => False
  end.
Proof. vm_compute. reflexivity. Qed.

(** A chunk of another tenant goes when its document is named, though the answer is
    that there is no such document; so do all chunks of a base. *)
Definition delete_other : RSvc unit := RAG_DeleteDocument (PgVectorStore distance scan matches rank) 7 100 52.
Example other_tenant_chunk_deleted :
  (delete_other (mkSys state 0)).1 = Err ErrKnowledgeDocumentNotFound /\
  rgChunks state !! 4%N <> None /\ rgChunks (st (delete_other (mkSys state 0)).2) !! 4%N = None.
Proof. by vm_compute. Qed.
End SearchExample.
